(* ===== verification/_CoqProject ===== *)
-Q . S2P
Prelude.v
Text.v
Logger.v
LoggerSpec.v
LoggerDev.v
LoggerInv.v
LoggerProps.v
Gralloc.v
GrallocProps.v
Pixel.v
Compose.v
ComposeSpec.v
ComposeProps.v
Hwc.v
HwcSpec.v
HwcInv.v
HwcProps.v
HwcOpen.v
Bio.v
BioProps.v
Binder.v
SvcMgr.v
SvcProps.v
SvcRequests.v
BinderProps.v
KAlloc.v
KAllocSpec.v
KAllocInv.v
KAllocProps.v
KState.v
KRefs.v
KTrans.v
KWrite.v
KRead.v
KProc.v
KDemo.v
KQueues.v
KRefsSpec.v
KRefsInv.v
KRefsOps.v
KRefsRun.v
KRefsLocal.v
KFrame.v
KHandles.v
KRefsProps.v
KReadWords.v
KReadProps.v
KWriteProps.v
KReadEnds.v
KCalls.v
KDump.v
Majors.v
DiskEvents.v
DiskState.v
DiskTable.v
Partition.v
Disk.v
DiskSpec.v
DiskParts.v
DiskDrop.v
DiskScan.v
DiskProps.v
DiskShow.v
ProcState.v
ProcOom.v
ProcMem.v
ProcDir.v
ProcFiles.v
ProcMaps.v
ProcOptions.v
ProcSpec.v
ProcOomProps.v
ProcMemProps.v
ProcDirProps.v
ProcThreads.v
ProcFilesProps.v
ProcMapsProps.v
ProcOptionsProps.v
ProcDemo.v
Tools.v
