(* ===== verification/Prelude.v ===== *)
(** * Android 4.4 on the Kobo Clara HD: verification library

    The repository ports Android to an e-reader.  Its own C code is in three groups, and
    this library models them and proves what makes them correct:

    - kernel drivers under [patches/kernel/]: the logger ([logger.c], [logger.h]), in
      which every Android process leaves its messages, the binder driver
      ([binder.c]), through which the processes call each other, the disks and partitions of
      the block layer ([genhd.c], [partition-generic.c]), which tell vold how many partitions a card has, and the files of the
      processes ([proc-base.c]), through which the system server tells the kernel which apps to kill first;
    - the display path under [gralloc_eink/src/]: a wrapper around the vendor's buffer
      allocator ([eink_wrapper.c]) that remembers the geometry of each buffer, and the
      composer ([hwcomposer_eink.c]) that asks the wrapper for it, blends the layers of
      a frame into a shadow buffer, copies what changed to the framebuffer
      and tells the e-ink controller which rectangle to refresh;
    - the servicemanager under [servicemanager/]: message buffers and driver loop
      ([binder.c], [binder.h]), and the registry that maps service names to handles
      ([service_manager.c]).

    ** How the code is modelled

    A C function is a Rocq function that takes the state it uses and returns the state
    it leaves, with [option] for behaviour the code must not have: [None] is an access outside
    an object, a use of freed memory, a null dereference, a [BUG_ON] or a loop that did
    not end.  Error codes the code returns are values, with their C signs.  Memory
    is a list of bytes read and written through checked operations; pointers are offsets or
    addresses; machine integers are [Z] with [wrap] (unsigned) and [signed] applied where
    the code computes at a width.  The [int] arithmetic of the composer is checked: [int32] is [None] where C leaves the result
    open.  The [int] counts of the binder driver wrap around, as the kernel's compiler flags make them.  The target is 32-bit ARM, so pointers
    and [size_t] have 32 bits.  Code that is not in the repository is a type class: its
    operations are members, what the code relies on is a second class of laws, and
    each has an instance in a [*Demo] module that the concrete runs use.

    ** Files

    - [Prelude]: this header; integers, bytes, checked memory, list lemmas, hint databases, tactics.
    - [Logger], [LoggerDev]: [logger.c].  A [logger_log] is the C structure with its buffer;
      [Logger] has the ring operations, [LoggerDev] the file operations over all logs and
      open files, and [create_log], [logger_init], [logger_exit].  [LoggerSpec] abstracts a
      position in the ring to the list of records pending there; [LoggerInv] is the
      invariant of the driver; [LoggerProps] the properties.
    - [Gralloc], [GrallocProps]: [eink_wrapper.c] as a module state with the table of 64
      entries, the wrapped devices and the trace of calls to the vendor module.
    - [Pixel], [Compose]: pixel conversion, blending and [compose_layer]; [ComposeSpec] says
      which source pixel each panel pixel takes its colour from; [ComposeProps].  The
      gralloc module is the class [GrallocIf] with the laws [GrallocLaws].
    - [Hwc], [HwcOpen]: the rest of [hwcomposer_eink.c]: [hwc_prepare], [hwc_set], [hwc_blank],
      a round of the vsync thread, device open and close.  [HwcSpec] says what a list
      of layers looks like, [HwcInv] what a frame leaves on every path; [HwcProps].
    - [Bio], [BioProps]: the [bio_*] message buffers of [servicemanager/binder.c].
    - [Binder], [BinderProps]: the driver side of the same file, with the client of the
      loop as the class [BinderClient].
    - [SvcMgr], [SvcProps], [SvcRequests]: [service_manager.c], its registry as a map, and
      requests followed from the client's message to the answer.
    - [KAlloc], [KAllocSpec], [KAllocInv], [KAllocProps]: the allocator of the
      binder driver, over the kernel's red-black trees as the class [RbTree] with [RbLaws].
    - [KState]: the objects of the rest of the driver, by kind and address, its lists and
      globals, the monad its operations run in, and the kernel below as the class [Kernel].
      [KRefs]: nodes and references ([binder_get_node] to [binder_dec_ref]).  [KTrans]: buffers of
      transactions, objects in them, [binder_transaction], failed replies.  [KWrite]: the commands and
      [binder_thread_write].  [KRead]: [binder_thread_read].  [KProc]: threads, ioctls, open,
      flush, release and the deferred work.  [KDemo]: a kernel to compute with, and two processes.
    - [KQueues]: work lists and search trees.  [KRefsSpec], [KRefsInv], [KRefsOps],
      [KRefsRun], [KRefsLocal]: the invariant that ties counts, trees and
      lists to each other, and what each operation does to it.  [KFrame]: which operations leave which maps alone, which errors they leave for a thread to read, and which of them a transaction left.
      [KHandles]: the abstract table of handles, and the context manager.  [KRefsProps]: the properties.
    - [KReadWords], [KReadProps], [KReadEnds], [KWriteProps]: what a read stores, that it ends and delivers;
      the command loop and failed calls.  [KCalls]: a call from the caller's command to the handler of the other process.
    - [KDump]: the statistics, transaction logs and debugfs files of the driver, and its start.
    - [Majors]: the table of major numbers of [genhd.c].  [DiskEvents]: its [struct disk_events] with the histories of its
      operations.  [DiskState]: disks and partitions by address, the grace period, uevents, and the rest of the kernel (parsers, drivers,
      driver core) as the class [BlockCore].  [DiskTable]: numbers, references, iterators, sector map, growth of the table.
      [Partition]: [partition-generic.c].  [Disk]: the life of disks and the look-ups of [genhd.c].
    - [DiskSpec], [DiskParts], [DiskDrop], [DiskScan]: the loops over a table, device numbers and names,
      adding and dropping partitions, one round of a scan.  [DiskProps]: the properties and a small disk.
    - [DiskShow]: the texts of both files in /proc and sysfs and at boot, the iterator over the disks, the start, and the read of a sector.
    - [Text]: string literals as bytes, numbers as text and how the kernel reads them.
    - [ProcState]: processes, tasks, groups, memory, inodes and cached names behind [proc-base.c], with counted references; the rest of the kernel as the
      class [ProcKernel].  [ProcOom]: [oom_adj] and [oom_score_adj].  [ProcMem]: [mem] and [environ].  [ProcDir]: permissions, inodes, tables of entries,
      the directories.  [ProcFiles]: the name, the small files, the links.  [ProcMaps]: the directory of mapped files.  [ProcOptions]: the command line and the files of other configurations
      (stack, scheduler, latency, audit, fault injection, timers, security attributes, core dump filter, io accounting, maps of user namespaces).
    - [ProcSpec], [ProcOomProps], [ProcMemProps], [ProcDirProps], [ProcThreads], [ProcFilesProps], [ProcMapsProps], [ProcOptionsProps]: the properties, component by component.
      [ProcDemo]: a kernel with two processes, to which they are applied.
    - [Tools]: the shim that traces binder calls, the probe of the servicemanager, the USB descriptors, shared memory and the root shell, from
      [gralloc_eink/src/].

    ** What the theorems show

    - Safety for whole histories: [logger_ops_safe], [hwc_ops_keep_screen_inv],
      [allocator_never_bugs], [bio_ops_in_bounds], [loop_answers_every_transaction] and
      [handler_keeps_registry_ok] are about every sequence of operations (or every message),
      not single calls.
    - Refinement: the logger's write appends one record to the abstract log of every reader
      ([logger_write_appends]); the geometry table and the registry are finite maps
      ([gralloc_table_refines_map], [add_service_refines_map], [find_service_refines_map]);
      the parser does what the driver's events mean ([parse_refines_events]); the composer
      shows the pixels the layers prescribe ([compose_layer_pixel_exact], [set_shows_frame]); the
      count commands of the binder driver act on a table of handles ([count_commands_refine_table]); the major
      numbers are a map ([register_blkdev_refines_map]).
    - Disks: a scan ends, restarted at most once, with every partition on the disk ([scan_ends_with_partitions_on_disk]), and builds the
      parsed table ([scan_builds_parsed_table]); a partition is added in full or not at all ([add_partition_all_or_nothing]) and freed
      once ([dropped_partitions_are_freed]); a disk is announced with the number of its partitions before they are, though the removal of
      partitions never announced may be told before ([disk_announced_before_partitions]); an event of a disk is fetched once ([events_fetched_exactly_once]); /proc/partitions read in pieces shows every disk once
      ([partitions_read_in_pieces]); a sector is read at its place ([sector_lies_in_its_page]) and device numbers are printed in full ([bdevt_str_fits]).
    - Processes: however the two files are written, scores stay legal ([oom_scores_stay_legal]) and writers without the capability cannot protect a process
      ([unprivileged_writers_respect_floor]); the directories read in calls of any sizes list every process, entry and thread in order ([proc_listing_in_calls],
      [entry_listing_and_lookup], [thread_listing_in_calls]), each once although others come and go ([staying_process_listed_once]), and what is listed
      is found ([process_found_by_number], [thread_found_in_its_group]); hidden processes are nowhere ([hidden_process_is_nowhere]); links, system calls and personalities are shown only to
      those who may look ([link_text_only_for_tracers], [trace_files_need_attach]); reads of memory and environment end inside what was asked
      for ([mem_read_delivers_memory], [environ_read_stays_in_environment]); exiting tasks leave no cached names ([flush_removes_cached_names]);
      mapped files are listed in order and found by their names ([map_files_listing], [map_file_found]); a thread group's io is the sum over its threads, dead ones included ([io_totals_cover_all_threads]); what a
      session on the timers or the maps of a user namespace takes it gives back ([timers_session_balanced], [user_ns_references_balanced]); fault injection is a switch
      ([fault_injection_is_a_switch]).
    - The driver and the servicemanager together: what a read leaves is parsed as the
      commands it stands for ([driver_reads_are_parsed]), and a call of a handle is handed to the handler of the process that owns the node, with its
      code, its data and the caller's identity, by the read of an idle thread of a process that asks for no further thread ([call_reaches_handler]).
    - What the binder driver tells: its logs show the last transactions and the last that left an error, in order ([logs_show_the_last_transactions]), the list of transactions the threads that are busy
      ([transactions_show_busy_threads]), and the number of objects is right after its counters wrapped around ([active_objects_survive_wrap_around]).
    - Life times and counts: a node that is referred to stays ([counted_nodes_stay]), a new reference gets the least
      free handle ([reference_gets_least_handle]), its owner is told what it has to hold ([node_reports_settle]).
    - Progress: a failed call is reported to the nearest caller still there that has not two errors to read already
      ([failed_reply_reaches_caller]); the loops over commands and work end ([write_loop_ends], [read_loop_ends]).
    - Equivalence of the optimised paths: [fast_path_equals_general_path],
      [update_sent_iff_changed]; the sector map with its cache ([sector_map_ignores_cache]).
    - Round trips: [logger_write_read_roundtrip], [bio_put_get_roundtrip],
      [registered_service_is_found], [gpu_alloc_query_roundtrip], [alloc_then_free_restores],
      [extended_number_roundtrip], [mangle_minor_involutive], [oom_score_adj_reads_what_was_written], [comm_shows_what_was_written],
      [map_name_roundtrip], [coredump_filter_shows_what_was_written], [loginuid_shows_what_was_written].
    - Beside them: the shim is invisible to the process it traces ([shim_is_invisible]), a region of shared memory is left open or closed ([region_opened_or_closed]), the USB
      descriptors are what they claim ([descriptors_are_consistent]), a root shell is one ([shell_starts_as_root]).
    - Error paths: faulting writes, failed opens, refused allocations, corrupt driver words.
    - Defects: where the code does not do what it means to, a theorem states what it does
      ([logger_write_return_value], [failed_create_leaves_freed_log],
      [device_open_failure_releases], [offscreen_rgb565_copy_faults],
      [oversized_crop_missed_by_update], [embedded_nul_passes_table],
      [truncated_header_faults], [long_name_list_reply_truncated], [main_crashes_when_open_fails],
      [spawn_request_overwrites_first_command], [acquire_zero_without_memory_faults], [acquire_past_the_greatest_int], [far_position_wraps],
      [failed_device_frees_number_twice], [long_name_never_unregistered], [wrapped_part_leaves_the_disk], [stop_after_failed_start_frees_again],
      [oom_adj_reads_closer_to_zero], [unset_environment_is_read], [environment_bytes_forgotten], [first_reply_not_noticed], [data_taken_for_reply]).

    ** Bounds and fuel

    Loops without a structural argument take fuel, chosen from the data: the walks over a
    ring get its size (every record is at least 24 bytes long), [parse_loop] the number of words (each step
    consumes one), the page loops the number of pages in the range, the search in a name 127
    characters as in the code.  Running out of fuel is [None], and the theorems say the
    result is [Some], so the fuel is enough; only the loop of a binder read has a result of its own for it ([Step_fuel]), which
    [read_loop_ends] excludes, since a fault of that loop is [None] too.  A blocked read of the logger retries once
    per wake-up it is given; a read that would sleep returns [Blocked].  A write to the binder driver gets as many rounds as it has
    bytes and a read as many as the bytes of its buffer and the items queued, which [write_loop_ends] and
    [read_loop_ends] show to be enough; a binder read goes back to waiting as often as its argument says; the walks
    along the transactions of a thread get the number of transactions, enough for every chain that ends ([transactions_show_busy_threads]).  An iterator over the partitions of a disk gets the
    length of the table, and a scan one restart, since a disk is enlarged once.  The loops over processes and threads get the number of process
    numbers and of tasks, each round taking a greater number or a further thread of the ring; those over memory the number of bytes, each round
    transferring at least one.

    The theorems on the composer assume coordinates of at most 2^29, with which no [int] overflows; those on the counts of references
    that no count can reach 2^31 by the commands given, which [acquire_past_the_greatest_int] shows to be needed; those on message buffers fewer than 2^30
    offsets.  A copy to a caller's buffer that fails gives the bytes before the end of the caller's memory in [proc-base.c]; in the logger, where no
    theorem depends on it, it gives none.

    ** Not modelled

    Concurrency inside a call: every driver call runs under its mutex and
    is atomic here, and the vsync thread's rounds interleave with HAL calls as whole
    rounds.  The messages to the kernel log and the log of the display path.  Of the binder driver, the switch that stops a process on a user error, and the pages freed with a
    process; its debug numbers are given, and the logs and statistics are a state of their own beside that of the driver;
    the logs, which the code shows without its lock, are read between transactions.  Of the block layer, the queues of disks
    and what the driver core does by itself; the statistics of disks are given.  Of [proc-base.c], other process namespaces than the one mounted, and the tables that
    only name functions; the texts made by the scheduler, the security module and [get_cmdline] are given.  Of the diagnostic programs, what starts them and prints.  Scripts,
    Java and smali sources. *)
From Stdlib Require Export ZArith Lia ZifyBool.
From stdpp Require Export base tactics numbers list list_numbers option sets.
#[export] Set Default Goal Selector "!".
Open Scope Z_scope.

Declare Scope cint_scope.
Delimit Scope cint_scope with cint.
Notation "x &&& y" := (Z.land x y) (at level 40, left associativity) : cint_scope.
Notation "x ||| y" := (Z.lor x y) (at level 50, left associativity) : cint_scope.
Open Scope cint_scope.

(** Length of a list as an integer. *)
Abbreviation zlen l := (Z.of_nat (length l)).

Create Rewrite HintDb cmem.

(** ** Fixed-width integers *)

(** Reduction of an integer to a width of [w] bits. *)
Definition wrap (w z : Z) : Z := z mod 2 ^ w.
Abbreviation u8 := (wrap 8).
Abbreviation u16 := (wrap 16).
Abbreviation u32 := (wrap 32).

(** Two's-complement reading of a [w]-bit pattern. *)
Definition signed (w z : Z) : Z :=
  if wrap w z <? 2 ^ (w - 1) then wrap w z else wrap w z - 2 ^ w.
Abbreviation s32 := (signed 32).

(** A result of [int] arithmetic: an overflow is undefined in C. *)
Definition int32 (z : Z) : option Z := if (- 2 ^ 31 <=? z) && (z <? 2 ^ 31) then Some z else None.

(** A boolean C condition as an [int], and an [int] used as a condition. *)
Definition c_bool (b : bool) : Z := if b then 1 else 0.
Definition truthy (z : Z) : bool := negb (z =? 0).

Lemma int32_fits z : - 2 ^ 31 ≤ z < 2 ^ 31 → int32 z = Some z.
Proof. intros Hz. unfold int32. destruct (Z.leb_spec (- 2 ^ 31) z), (Z.ltb_spec z (2 ^ 31)); try lia. done. Qed.

Lemma int32_inv z x : int32 z = Some x → x = z ∧ - 2 ^ 31 ≤ z < 2 ^ 31.
Proof. unfold int32. destruct (Z.leb_spec (- 2 ^ 31) z), (Z.ltb_spec z (2 ^ 31)); try done. intros [= <-]. lia. Qed.

Lemma wrap_small w z : 0 ≤ z < 2 ^ w → wrap w z = z.
Proof. apply Z.mod_small. Qed.

Lemma wrap_range w z : 0 ≤ w → 0 ≤ wrap w z < 2 ^ w.
Proof. intros. apply Z.mod_pos_bound. lia. Qed.

Lemma wrap_wrap w z : wrap w (wrap w z) = wrap w z.
Proof. apply Zmod_mod. Qed.

Lemma signed_small w z : 0 < w → - 2 ^ (w - 1) ≤ z < 2 ^ (w - 1) → signed w z = z.
Proof.
  intros Hw Hz. unfold signed, wrap.
  assert (2 ^ w = 2 * 2 ^ (w - 1)) as Hp.
  { rewrite <- Z.pow_succ_r by lia. f_equal; lia. }
  destruct (Z_lt_le_dec z 0) as [Hn|Hn].
  - rewrite <- (Z.mod_unique z (2 ^ w) (-1) (z + 2 ^ w)) by lia.
    destruct (Z.ltb_spec (z + 2 ^ w) (2 ^ (w - 1))); lia.
  - rewrite Z.mod_small by lia.
    destruct (Z.ltb_spec z (2 ^ (w - 1))); lia.
Qed.

(** The signed reading only looks at the low [w] bits. *)
Lemma signed_wrap w z : signed w (wrap w z) = signed w z.
Proof. unfold signed. by rewrite wrap_wrap. Qed.

(** Masking with [2^k - 1] is reduction modulo [2^k]. *)
Lemma land_pow2_mask n k : 0 ≤ k → Z.land n (2 ^ k - 1) = n mod 2 ^ k.
Proof. intros. rewrite <- Z.land_ones by lia. f_equal. rewrite Z.ones_equiv. lia. Qed.

(** Clearing the low [k] bits rounds down to a multiple of [2^k]. *)
Lemma land_lnot_mask n k : 0 ≤ k → Z.land n (Z.lnot (2 ^ k - 1)) = n - n mod 2 ^ k.
Proof. intros Hk. by rewrite <- Z.sub_land_same_l, land_pow2_mask. Qed.

(** A wrap-around to a width at least [k] bits is invisible modulo [2^k]. *)
Lemma wrap_mod_pow2 w n k : 0 ≤ k ≤ w → wrap w n mod 2 ^ k = n mod 2 ^ k.
Proof.
  intros [Hk Hw]. unfold wrap.
  apply Z.mod_mod_divide.
  exists (2 ^ (w - k)). rewrite <- Z.pow_add_r by lia. f_equal; lia.
Qed.

(** Disjoint bit fields are added by [|]. *)
Lemma lor_shiftl_add x y k : 0 ≤ k → 0 ≤ y < 2 ^ k → Z.lor (Z.shiftl x k) y = x * 2 ^ k + y.
Proof.
  intros Hk Hy. rewrite <- Z.shiftl_mul_pow2 by done. symmetry. apply Z.add_nocarry_lor.
  apply Z.bits_inj'. intros n Hn. rewrite Z.land_spec, Z.bits_0, Z.shiftl_spec by done.
  destruct (Z_lt_le_dec n k).
  - rewrite Z.testbit_neg_r by lia. done.
  - rewrite <- (Z.mod_small y (2 ^ k)), Z.mod_pow2_bits_high by lia. apply andb_false_r.
Qed.

(** Turns quotients and remainders by positive constants into linear facts. *)
Ltac divmod := Z.div_mod_to_equations; lia.

(** Case analysis on the condition of an [if] of the goal. *)
Tactic Notation "bcase" ident(E) :=
  match goal with |- context [if ?b then _ else _] => destruct b eqn:E end.

(** ** Byte sequences *)

(** The byte at index [i], zero outside the list. *)
Definition mget (m : list Z) (i : Z) : Z := if i <? 0 then 0 else nth (Z.to_nat i) m 0.

(** The [n] values of [g] from index [a] on. *)
Definition seg (g : Z → Z) (a n : Z) : list Z := (λ i, g (a + i)) <$> seqZ 0 n.

Lemma length_seg g a n : length (seg g a n) = Z.to_nat n.
Proof. unfold seg. by rewrite length_fmap, length_seqZ. Qed.

Lemma zlen_seg g a n : 0 ≤ n → zlen (seg g a n) = n.
Proof. intros. rewrite length_seg. lia. Qed.

Lemma seg_nil g a n : n ≤ 0 → seg g a n = [].
Proof. intros. unfold seg. by rewrite seqZ_nil. Qed.

Lemma lookup_seg g a n (i : nat) :
  Z.of_nat i < n → seg g a n !! i = Some (g (a + Z.of_nat i)).
Proof. intros. unfold seg. by rewrite list_lookup_fmap, lookup_seqZ_lt. Qed.

Lemma seg_ext g h a b n :
  (∀ i, 0 ≤ i < n → g (a + i) = h (b + i)) → seg g a n = seg h b n.
Proof.
  intros H. unfold seg. apply list_fmap_ext. intros i x Hx.
  apply lookup_seqZ in Hx as [-> Hi]. rewrite !Z.add_0_l. apply H. lia.
Qed.

Lemma seg_app g a n m :
  0 ≤ n → 0 ≤ m → seg g a (n + m) = seg g a n ++ seg g (a + n) m.
Proof.
  intros Hn Hm. unfold seg. rewrite seqZ_app, fmap_app by done. f_equal.
  rewrite <- (Z.add_0_r (0 + n)), <- fmap_add_seqZ, <- list_fmap_compose.
  apply list_fmap_ext. intros i x _. simpl. f_equal. lia.
Qed.

Lemma mget_lookup m (i : nat) x : m !! i = Some x → mget m (Z.of_nat i) = x.
Proof.
  intros H. unfold mget. destruct (Z.ltb_spec (Z.of_nat i) 0); [lia|].
  rewrite Nat2Z.id. by apply nth_lookup_Some with (d := 0) in H.
Qed.

Lemma lookup_mget m (i : nat) : (i < length m)%nat → m !! i = Some (mget m (Z.of_nat i)).
Proof.
  intros H. destruct (lookup_lt_is_Some_2 m i H) as [x Hx].
  by rewrite Hx, (mget_lookup _ _ _ Hx).
Qed.

Lemma seg_mget_all m : seg (mget m) 0 (zlen m) = m.
Proof.
  apply list_eq. intros i. destruct (decide (i < length m)%nat).
  - rewrite lookup_seg, Z.add_0_l by lia. symmetry. by apply lookup_mget.
  - rewrite !lookup_ge_None_2; [done|lia|rewrite length_seg; lia].
Qed.

Lemma mget_seg g a n i : 0 ≤ i < n → mget (seg g a n) i = g (a + i).
Proof.
  intros Hi. rewrite <- (Z2Nat.id i) at 1 by lia.
  erewrite mget_lookup; [|apply lookup_seg; lia]. f_equal. lia.
Qed.

Lemma mget_app m1 m2 i :
  mget (m1 ++ m2) i = if i <? zlen m1 then mget m1 i else mget m2 (i - zlen m1).
Proof.
  unfold mget.
  destruct (Z.ltb_spec i 0), (Z.ltb_spec i (zlen m1)), (Z.ltb_spec (i - zlen m1) 0); try lia; auto.
  - apply app_nth1. lia.
  - rewrite app_nth2 by lia. f_equal. lia.
Qed.

Lemma mget_ge m i : zlen m ≤ i → mget m i = 0.
Proof. intros. unfold mget. destruct (Z.ltb_spec i 0); [done|]. apply nth_overflow. lia. Qed.

Lemma mget_take m n i : 0 ≤ i < n → mget (take (Z.to_nat n) m) i = mget m i.
Proof.
  intros Hi. unfold mget. destruct (Z.ltb_spec i 0); [done|].
  rewrite !nth_lookup, lookup_take_lt by lia. done.
Qed.

Lemma mget_drop m n i : 0 ≤ n → 0 ≤ i → mget (drop (Z.to_nat n) m) i = mget m (n + i).
Proof.
  intros Hn Hi. unfold mget. destruct (Z.ltb_spec i 0), (Z.ltb_spec (n + i) 0); try lia.
  rewrite !nth_lookup, lookup_drop. repeat f_equal. lia.
Qed.

Lemma mget_ext m1 m2 :
  length m1 = length m2 → (∀ i, 0 ≤ i < zlen m1 → mget m1 i = mget m2 i) → m1 = m2.
Proof.
  intros Hl H. rewrite <- (seg_mget_all m1), <- (seg_mget_all m2), <- Hl.
  apply seg_ext. intros i Hi. apply H. lia.
Qed.

Lemma mget_replicate k v i : 0 ≤ i < Z.of_nat k → mget (replicate k v) i = v.
Proof.
  intros Hi. rewrite <- (Z2Nat.id i) by lia. apply mget_lookup.
  apply lookup_replicate. split; [done|lia].
Qed.

(** ** Bounds-checked memory

    A block of memory is its list of bytes; a copy that leaves the block is a
    fault, [None]. *)
Definition in_block (m : list Z) (off n : Z) : bool :=
  (0 <=? off) && (0 <=? n) && (off + n <=? zlen m).

Definition mem_read (m : list Z) (off n : Z) : option (list Z) :=
  if in_block m off n then Some (take (Z.to_nat n) (drop (Z.to_nat off) m)) else None.

Definition mem_write (m : list Z) (off : Z) (bs : list Z) : option (list Z) :=
  if in_block m off (zlen bs)
  then Some (take (Z.to_nat off) m ++ bs ++ drop (Z.to_nat off + length bs)%nat m)
  else None.

Lemma mem_read_Some m off n :
  0 ≤ off → 0 ≤ n → off + n ≤ zlen m → mem_read m off n = Some (seg (mget m) off n).
Proof.
  intros Ho Hn Hl. unfold mem_read, in_block.
  bcase E; [|lia]. f_equal. apply mget_ext.
  - rewrite length_take, length_drop, length_seg. lia.
  - intros i Hi. rewrite length_take, length_drop in Hi.
    rewrite mget_take, mget_drop, mget_seg by lia. done.
Qed.

Lemma mem_read_inv m off n bs :
  mem_read m off n = Some bs →
  0 ≤ off ∧ 0 ≤ n ∧ off + n ≤ zlen m ∧ bs = seg (mget m) off n.
Proof.
  intros H. unfold mem_read, in_block in H. destruct (_ && _ && _) eqn:E; [|done].
  assert (0 ≤ off ∧ 0 ≤ n ∧ off + n ≤ zlen m) as (?&?&?) by lia.
  split_and!; [done..|]. pose proof (mem_read_Some m off n) as Hs.
  unfold mem_read, in_block in Hs. rewrite E in Hs. specialize (Hs ltac:(lia) ltac:(lia) ltac:(lia)).
  congruence.
Qed.

Lemma mem_write_Some m off bs :
  0 ≤ off → off + zlen bs ≤ zlen m → ∃ m', mem_write m off bs = Some m'.
Proof.
  intros Ho Hl. unfold mem_write, in_block. bcase E; [eauto|lia].
Qed.

Lemma mem_write_inv m off bs m' :
  mem_write m off bs = Some m' →
  0 ≤ off ∧ off + zlen bs ≤ zlen m ∧ length m' = length m ∧
  ∀ i, 0 ≤ i → mget m' i = if (off <=? i) && (i <? off + zlen bs) then mget bs (i - off) else mget m i.
Proof.
  intros H. unfold mem_write, in_block in H. destruct (_ && _ && _) eqn:E; [|done].
  injection H as <-. split_and!; [lia|lia| |].
  - rewrite !length_app, length_take, length_drop. lia.
  - intros i Hi. rewrite !mget_app, length_take.
    destruct (Z.ltb_spec i (Z.of_nat (Z.to_nat off `min` length m))) as [Hlt|Hge].
    + rewrite mget_take by lia. bcase E2; [lia|done].
    + destruct (Z.ltb_spec (i - Z.of_nat (Z.to_nat off `min` length m)) (zlen bs)).
      * bcase E2; [|lia]. f_equal. lia.
      * bcase E2; [lia|].
        replace (Z.to_nat off + length bs)%nat with (Z.to_nat (off + zlen bs)) by lia.
        rewrite mget_drop by lia. f_equal. lia.
Qed.

(** What has just been written is read back. *)
Lemma mem_read_write m off bs m' :
  mem_write m off bs = Some m' → mem_read m' off (zlen bs) = Some bs.
Proof.
  intros H. apply mem_write_inv in H as (Ho & Hl & Hlen & Hg).
  rewrite mem_read_Some by lia. f_equal. rewrite <- (seg_mget_all bs) at 2.
  apply seg_ext. intros i Hi. rewrite Hg by lia.
  bcase E; [|lia]. f_equal. lia.
Qed.

(** A read outside a written range is unaffected by the write. *)
Lemma mem_read_write_ne m off bs m' a n :
  mem_write m off bs = Some m' → a + n ≤ off ∨ off + zlen bs ≤ a →
  mem_read m' a n = mem_read m a n.
Proof.
  intros H Hd. apply mem_write_inv in H as (Ho & Hl & Hlen & Hg).
  destruct (in_block m a n) eqn:E.
  - unfold in_block in E. rewrite !mem_read_Some by lia. f_equal.
    apply seg_ext. intros i Hi. rewrite Hg by lia. bcase E2; [lia|done].
  - unfold mem_read, in_block in *. by rewrite Hlen, E.
Qed.

(** ** Little-endian encoding *)

Fixpoint le_encode (n : nat) (z : Z) : list Z :=
  match n with
  | O => []
  | S n => z mod 256 :: le_encode n (z / 256)
  end.

Fixpoint le_decode (bs : list Z) : Z :=
  match bs with
  | [] => 0
  | b :: bs => b + 256 * le_decode bs
  end.

Lemma length_le_encode n z : length (le_encode n z) = n.
Proof. revert z. induction n; intros; simpl; auto. Qed.

Lemma le_decode_encode n z : le_decode (le_encode n z) = z mod 256 ^ Z.of_nat n.
Proof.
  revert z. induction n as [|n IH]; intros z; [by rewrite Z.mod_1_r|].
  cbn [le_encode le_decode]. rewrite IH, Nat2Z.inj_succ, Z.pow_succ_r by lia.
  rewrite Z.rem_mul_r by lia. lia.
Qed.

Lemma le_encode_byte n z b : b ∈ le_encode n z → 0 ≤ b < 256.
Proof.
  revert z. induction n as [|n IH]; intros z; [by intros []%elem_of_nil|].
  cbn [le_encode]. rewrite elem_of_cons. intros [->|H]; [|eauto].
  apply Z.mod_pos_bound. lia.
Qed.

Lemma le_encode_decode bs :
  Forall (λ b, 0 ≤ b < 256) bs → le_encode (length bs) (le_decode bs) = bs.
Proof.
  induction 1 as [|b bs Hb _ IH]; [done|]. cbn [length le_encode le_decode].
  assert ((b + 256 * le_decode bs) / 256 = le_decode bs) as -> by divmod.
  rewrite IH. f_equal. divmod.
Qed.

#[export] Hint Rewrite length_le_encode length_seg @length_app @length_take @length_drop
  @length_replicate @length_fmap @length_insert : cmem.

(** ** Lists and options *)

(** Reads [m !! i] with an integer index; out of range is [None]. *)
Definition zlookup {A} (l : list A) (i : Z) : option A :=
  if i <? 0 then None else l !! Z.to_nat i.

(** Left fold in the option monad: the [for] loops of the sources. *)
Fixpoint foldM {A S} (f : S → A → option S) (s : S) (l : list A) : option S :=
  match l with
  | [] => Some s
  | x :: l => s' ← f s x; foldM f s' l
  end.

Lemma foldM_app {A S} (f : S → A → option S) s l1 l2 :
  foldM f s (l1 ++ l2) = (s' ← foldM f s l1; foldM f s' l2).
Proof. revert s. induction l1 as [|x l1 IH]; intros s; simpl; [done|]. destruct (f s x); simpl; [apply IH|done]. Qed.

(** An invariant of the body is an invariant of the loop, which then
    terminates without fault. *)
Lemma foldM_inv {A S} (I : S → Prop) (f : S → A → option S) l :
  (∀ s x, x ∈ l → I s → ∃ s', f s x = Some s' ∧ I s') →
  ∀ s, I s → ∃ s', foldM f s l = Some s' ∧ I s'.
Proof.
  induction l as [|x l IH]; intros Hf s Hs; [by exists s|]. simpl.
  destruct (Hf s x) as (s1 & -> & H1); [set_solver|done|]. simpl.
  apply IH; [|done]. intros. apply Hf; [set_solver|done].
Qed.

(** Bind inversion for the option monad. *)
Ltac obind H :=
  let E := fresh "E" in
  match type of H with
  | context [mbind _ ?o] => destruct o eqn:E; cbn [mbind option_bind] in H; [|discriminate H]
  end.

(** ** Error numbers returned by the sources *)
Module Errno.
Definition EPERM := 1.
Definition ENOENT : Z := 2.
Definition ESRCH : Z := 3.
Definition EINTR := 4.
Definition EIO := 5.
Definition EBADF := 9.
Definition ECHILD : Z := 10.
Definition EAGAIN := 11.
Definition ENOMEM := 12.
Definition EACCES : Z := 13.
Definition EFAULT := 14.
Definition EBUSY := 16.
Definition ENODEV := 19.
Definition EINVAL := 22.
Definition ENOSPC := 28.
End Errno.

(** Two adjacent writes are one. *)
Lemma mem_write_app m off bs1 bs2 m1 m2 :
  mem_write m off bs1 = Some m1 → mem_write m1 (off + zlen bs1) bs2 = Some m2 →
  mem_write m off (bs1 ++ bs2) = Some m2.
Proof.
  intros H1 H2. apply mem_write_inv in H1 as (Ho & Hl1 & Hlen1 & G1).
  apply mem_write_inv in H2 as (_ & Hl2 & Hlen2 & G2).
  destruct (mem_write_Some m off (bs1 ++ bs2)) as [m3 H3]; [lia|rewrite length_app; lia|].
  rewrite H3. f_equal. apply mem_write_inv in H3 as (_ & _ & Hlen3 & G3).
  apply mget_ext; [congruence|]. intros i Hi. rewrite G3, G2, G1, length_app, mget_app by lia.
  repeat (let E := fresh "E" in bcase E); solve [done | lia | f_equal; lia].
Qed.

Lemma mem_write_None m off bs : zlen m < off + zlen bs → mem_write m off bs = None.
Proof. intros. unfold mem_write, in_block. bcase E; [lia|done]. Qed.

Lemma signed_range w z : 0 < w → - 2 ^ (w - 1) ≤ signed w z < 2 ^ (w - 1).
Proof.
  intros Hw. unfold signed. pose proof (wrap_range w z ltac:(lia)).
  assert (2 ^ w = 2 * 2 ^ (w - 1)) as Hp.
  { rewrite <- Z.pow_succ_r by lia. f_equal; lia. }
  destruct (Z.ltb_spec (wrap w z) (2 ^ (w - 1))); lia.
Qed.

(** Remainders of differences of reduced numbers, as a case distinction. *)
Lemma mod_sub_cases a b sz :
  0 ≤ a < sz → 0 ≤ b ≤ sz → (a - b) mod sz = if a <? b then a - b + sz else a - b.
Proof.
  intros Ha Hb. destruct (Z.ltb_spec a b).
  - rewrite <- (Z_mod_plus_full _ 1), Z.mod_small; lia.
  - apply Z.mod_small. lia.
Qed.

Lemma mod_add_cases a b sz :
  0 ≤ a < sz → 0 ≤ b ≤ sz → (a + b) mod sz = if a + b <? sz then a + b else a + b - sz.
Proof.
  intros Ha Hb. destruct (Z.ltb_spec (a + b) sz).
  - apply Z.mod_small. lia.
  - rewrite <- (Z_mod_plus_full _ (-1)), Z.mod_small; lia.
Qed.
