(* ===== verification/Text.v ===== *)
(** * Numbers as text

    The digits of a number as the kernel prints them with %d, %u and %lx, the value they stand for, and how the kernel reads numbers. *)
From Stdlib Require Ascii String.
From S2P Require Import Prelude.

(** The bytes of a string literal. *)
Fixpoint bytes_of (s : String.string) : list Z :=
  match s with String.EmptyString => [] | String.String c s => Z.of_N (Ascii.N_of_ascii c) :: bytes_of s end.

Definition isdigit (c : Z) : bool := (48 <=? c) && (c <=? 57).

(** The digits of a number that is not negative, as %d prints them. *)
Fixpoint digits (fuel : nat) (n : Z) : list Z :=
  match fuel with
  | O => []
  | S fuel => if n <? 10 then [48 + n] else digits fuel (n / 10) ++ [48 + n mod 10]
  end.
Definition decimal (n : Z) : list Z := digits (S (Z.to_nat n)) n.

(** A number with its sign, as %d prints it. *)
Definition sdecimal (n : Z) : list Z := if n <? 0 then 45 :: decimal (- n) else decimal n.

(** The digits as %lx prints them. *)
Definition hexdigit (d : Z) : Z := if d <? 10 then 48 + d else 87 + d.
Fixpoint hexdigits (fuel : nat) (n : Z) : list Z :=
  match fuel with
  | O => []
  | S fuel => if n <? 16 then [hexdigit n] else hexdigits fuel (n / 16) ++ [hexdigit (n mod 16)]
  end.
Definition hexadecimal (n : Z) : list Z := hexdigits (S (Z.to_nat (Z.log2 n))) n.

(** Text in a field of a width: spaces after it, or a character before it. *)
Definition pad_right (w : nat) (l : list Z) : list Z := l ++ replicate (w - length l) 32.
Definition pad_left (w : nat) (c : Z) (l : list Z) : list Z := replicate (w - length l) c ++ l.

(** The number that digits stand for. *)
Definition value (l : list Z) : Z := foldl (λ a c, a * 10 + (c - 48)) 0 l.

Lemma digits_spec fuel : ∀ n, 0 ≤ n < Z.of_nat fuel → value (digits fuel n) = n ∧ Forall (λ c, isdigit c = true) (digits fuel n).
Proof.
  induction fuel as [|fuel IH]; intros n Hn; [lia|]. cbn [digits]. destruct (Z.ltb_spec n 10) as [Hlt|Hge].
  - split; [unfold value; cbn; lia|]. constructor; [unfold isdigit; lia|constructor].
  - assert (0 ≤ n / 10 < Z.of_nat fuel ∧ n = n / 10 * 10 + n mod 10 ∧ 0 ≤ n mod 10 < 10) as (Hd & He & Hm) by divmod.
    destruct (IH _ Hd) as [Hv Hf]. split.
    + unfold value. rewrite foldl_app. cbn. fold (value (digits fuel (n / 10))). lia.
    + apply Forall_app. split; [done|]. constructor; [unfold isdigit; lia|constructor].
Qed.

Lemma decimal_spec n : 0 ≤ n → value (decimal n) = n ∧ Forall (λ c, isdigit c = true) (decimal n).
Proof. intros Hn. apply digits_spec. lia. Qed.

Lemma decimal_inj m n : 0 ≤ m → 0 ≤ n → decimal m = decimal n → m = n.
Proof. intros Hm Hn He. destruct (decimal_spec m Hm) as [V1 _], (decimal_spec n Hn) as [V2 _]. congruence. Qed.

Lemma digits_length fuel : ∀ n k, 0 ≤ n < 10 ^ Z.of_nat (S k) → (length (digits fuel n) ≤ S k)%nat.
Proof.
  induction fuel as [|fuel IH]; intros n k Hn; cbn [digits]; [cbn; lia|]. destruct (Z.ltb_spec n 10); [cbn; lia|].
  rewrite length_app. cbn [length]. destruct k as [|k]; [cbn in Hn; lia|].
  assert (0 ≤ n / 10 < 10 ^ Z.of_nat (S k)) as Hd.
  { rewrite (Nat2Z.inj_succ (S k)), Z.pow_succ_r in Hn by lia. split; [apply Z.div_pos; lia|apply Z.div_lt_upper_bound; lia]. }
  specialize (IH _ _ Hd). lia.
Qed.

(** A number of at most [k] digits. *)
Lemma decimal_length n k : 0 ≤ n < 10 ^ Z.of_nat (S k) → (length (decimal n) ≤ S k)%nat.
Proof. apply digits_length. Qed.

(** ** Reading numbers *)

(** The value of a digit, of either case. *)
Definition digit_val (c : Z) : option Z :=
  if isdigit c then Some (c - 48) else if (97 <=? c) && (c <=? 102) then Some (c - 87) else if (65 <=? c) && (c <=? 70) then Some (c - 55) else None.

(** [_parse_integer]: the digits of a base, kept to 64 bits, and what follows them. *)
Fixpoint parse_integer (base acc : Z) (s : list Z) : Z * list Z :=
  match s with
  | [] => (acc, [])
  | c :: s' => match digit_val c with Some d => if d <? base then parse_integer base (wrap 64 (acc * base + d)) s' else (acc, s) | None => (acc, s) end
  end.

(** [_parse_integer_fixup_radix]: base 0 is found from the text, and an "0x" is skipped. *)
Definition is_x (c : Z) : bool := (c =? 120) || (c =? 88).
Definition fixup_radix (base : Z) (s : list Z) : Z * list Z :=
  let base :=
    if base =? 0 then
      match s with
      | z :: s' => if z =? 48 then match s' with x :: d :: _ => if is_x x && match digit_val d with Some _ => true | None => false end then 16 else 8 | _ => 8 end else 10
      | [] => 10
      end
    else base in
  (base, match s with z :: x :: s' => if (base =? 16) && (z =? 48) && is_x x then s' else s | _ => s end).

Definition simple_strtoull (s : list Z) (base : Z) : Z * list Z := let '(base, s) := fixup_radix base s in parse_integer base 0 s.

Lemma digit_val_hexdigit d : 0 ≤ d < 16 → digit_val (hexdigit d) = Some d.
Proof.
  intros Hd. unfold hexdigit, digit_val, isdigit. destruct (Z.ltb_spec d 10).
  - destruct (Z.leb_spec 48 (48 + d)), (Z.leb_spec (48 + d) 57); try lia. cbn. f_equal. lia.
  - destruct (Z.leb_spec 48 (87 + d)), (Z.leb_spec (87 + d) 57); try lia. cbn.
    destruct (Z.leb_spec 97 (87 + d)), (Z.leb_spec (87 + d) 102); try lia. cbn. f_equal. lia.
Qed.

(** Hexadecimal digits. *)
Definition is_hex (c : Z) : Prop := ∃ d, digit_val c = Some d ∧ d < 16.

Lemma hexdigits_hex fuel : ∀ n, 0 ≤ n → Forall is_hex (hexdigits fuel n).
Proof.
  induction fuel as [|fuel IH]; intros n Hn; cbn [hexdigits]; [constructor|]. destruct (Z.ltb_spec n 16).
  - constructor; [|constructor]. exists n. split; [apply digit_val_hexdigit|]; lia.
  - apply Forall_app. split; [apply IH; divmod|]. constructor; [|constructor]. exists (n mod 16). split; [apply digit_val_hexdigit|]; divmod.
Qed.

Lemma hexadecimal_hex n : 0 ≤ n → Forall is_hex (hexadecimal n).
Proof. apply hexdigits_hex. Qed.

Lemma hexadecimal_cons n : ∃ c l, hexadecimal n = c :: l.
Proof. unfold hexadecimal. cbn [hexdigits]. destruct (n <? 16); [by eexists _, _|]. destruct (hexdigits _ (n / 16)); by eexists _, _. Qed.

(** Digits are consumed up to what follows them. *)
Definition stops (s : list Z) : Prop := match s with [] => True | c :: _ => digit_val c = None end.

Lemma parse_hex_app ds : ∀ acc rest, Forall is_hex ds → stops rest →
  parse_integer 16 acc (ds ++ rest) = (foldl (λ a c, wrap 64 (a * 16 + default 0 (digit_val c))) acc ds, rest).
Proof.
  induction ds as [|c ds IH]; intros acc rest Hds Hrest; cbn [app foldl].
  - destruct rest as [|c rest]; [done|]. cbn. cbn in Hrest. by rewrite Hrest.
  - apply Forall_cons in Hds as [(d & Hc & Hd) Hds]. cbn [parse_integer]. rewrite Hc. destruct (Z.ltb_spec d 16); [|lia]. by apply IH.
Qed.

Lemma hexdigits_value fuel : ∀ n, 0 ≤ n < 2 ^ Z.of_nat fuel → n < 2 ^ 64 →
  foldl (λ a c, wrap 64 (a * 16 + default 0 (digit_val c))) 0 (hexdigits fuel n) = n.
Proof.
  induction fuel as [|fuel IH]; intros n Hn Hb; [cbn in Hn; assert (n = 0) as -> by lia; done|]. cbn [hexdigits]. destruct (Z.ltb_spec n 16).
  - cbn [foldl]. rewrite digit_val_hexdigit by lia. cbn. apply wrap_small. lia.
  - rewrite Nat2Z.inj_succ, Z.pow_succ_r in Hn by lia. rewrite foldl_app. cbn [foldl]. rewrite IH by divmod. rewrite digit_val_hexdigit by divmod. cbn [default from_option id]. rewrite wrap_small; [divmod|].
    split; [divmod|]. assert (n / 16 * 16 + n mod 16 = n) as -> by divmod. done.
Qed.

(** A printed number is read back, whatever follows it that is no digit. *)
Lemma parse_hexadecimal n rest : 0 ≤ n < 2 ^ 64 → stops rest → parse_integer 16 0 (hexadecimal n ++ rest) = (n, rest).
Proof.
  intros Hn Hr. rewrite parse_hex_app by (done || apply hexadecimal_hex; lia). f_equal. apply hexdigits_value; [|lia]. split; [lia|].
  destruct (decide (n = 0)) as [->|]; [done|]. pose proof (Z.log2_spec n ltac:(lia)). pose proof (Z.log2_nonneg n).
  replace (Z.of_nat (S (Z.to_nat (Z.log2 n)))) with (Z.succ (Z.log2 n)) by lia. lia.
Qed.

Lemma hexdigits_length fuel : ∀ n k, 0 ≤ n < 16 ^ Z.of_nat (S k) → (length (hexdigits fuel n) ≤ S k)%nat.
Proof.
  induction fuel as [|fuel IH]; intros n k Hn; cbn [hexdigits]; [cbn; lia|]. destruct (Z.ltb_spec n 16); [cbn; lia|].
  rewrite length_app. cbn [length]. destruct k as [|k]; [cbn in Hn; lia|].
  assert (0 ≤ n / 16 < 16 ^ Z.of_nat (S k)) as Hd.
  { rewrite (Nat2Z.inj_succ (S k)), Z.pow_succ_r in Hn by lia. split; [apply Z.div_pos; lia|apply Z.div_lt_upper_bound; lia]. }
  specialize (IH _ _ Hd). lia.
Qed.

Lemma hex_not_x c : is_hex c → is_x c = false.
Proof.
  intros (d & Hd & _). unfold digit_val, isdigit in Hd. unfold is_x.
  destruct (Z.leb_spec 48 c), (Z.leb_spec c 57), (Z.leb_spec 97 c), (Z.leb_spec c 102), (Z.leb_spec 65 c), (Z.leb_spec c 70); cbn in Hd; try done; lia.
Qed.

(** Decimal numbers are read back too. *)
Lemma parse_decimal_app ds : ∀ acc rest, Forall (λ c, isdigit c = true) ds → stops rest →
  parse_integer 10 acc (ds ++ rest) = (foldl (λ a c, wrap 64 (a * 10 + (c - 48))) acc ds, rest).
Proof.
  induction ds as [|c ds IH]; intros acc rest Hds Hrest; cbn [app foldl].
  - destruct rest as [|c rest]; [done|]. cbn. cbn in Hrest. by rewrite Hrest.
  - apply Forall_cons in Hds as [Hc Hds]. cbn [parse_integer]. unfold digit_val. rewrite Hc. unfold isdigit in Hc. destruct (Z.ltb_spec (c - 48) 10); [|lia]. by apply IH.
Qed.

Lemma digits_wrapped fuel : ∀ n, 0 ≤ n < Z.of_nat fuel → n < 2 ^ 64 → foldl (λ a c, wrap 64 (a * 10 + (c - 48))) 0 (digits fuel n) = n.
Proof.
  induction fuel as [|fuel IH]; intros n Hn Hb; [lia|]. cbn [digits]. destruct (Z.ltb_spec n 10).
  - cbn [foldl]. rewrite wrap_small; lia.
  - rewrite foldl_app. cbn [foldl]. rewrite IH by divmod. rewrite wrap_small; [divmod|]. split; [divmod|].
    assert (n / 10 * 10 + (48 + n mod 10 - 48) = n) as -> by divmod. done.
Qed.

Lemma strtoull_decimal n rest : 0 ≤ n < 2 ^ 64 → stops rest → simple_strtoull (decimal n ++ rest) 10 = (n, rest).
Proof.
  intros Hn Hr. unfold simple_strtoull, fixup_radix. cbv zeta. change (10 =? 0) with false. cbv iota. change (10 =? 16) with false. cbn [andb].
  assert (∀ s : list Z, match s with z :: x :: s' => s | _ => s end = s) as -> by (by intros [|? [|? ?]]).
  rewrite parse_decimal_app by (done || apply decimal_spec; lia). f_equal. apply digits_wrapped; lia.
Qed.
