(* ===== verification/Logger.v ===== *)
(** * The Android logger driver: the ring buffer

    Model of the data structures and of the read and write paths of
    [patches/kernel/logger.c] (with the record layouts of [logger.h]).  A log
    is a ring of [size] bytes holding variable-length records, a 24-byte
    [logger_entry] header followed by the message.  The ring is the list of its
    bytes; every [memcpy] is bounds-checked, so [None] is an access outside the
    buffer (or a loop that ran out of its fuel).  Offsets are 32-bit [size_t]
    values.  [LoggerSpec] proves what these operations do, [LoggerDev] models
    the file operations built on them. *)
From S2P Require Import Prelude.
Import Errno.

(** ** Records *)

(** [struct logger_entry]: the header stored in the ring. *)
Record logger_entry := Entry {
  e_len : Z;        (* __u16 *)
  e_hdr_size : Z;   (* __u16 *)
  e_pid : Z;        (* __s32 *)
  e_tid : Z;        (* __s32 *)
  e_sec : Z;        (* __s32 *)
  e_nsec : Z;       (* __s32 *)
  e_euid : Z;       (* kuid_t *)
}.

Definition sizeof_logger_entry : Z := 24.
Definition sizeof_user_logger_entry_compat : Z := 20.
Definition LOGGER_ENTRY_MAX_PAYLOAD : Z := 4076.

(** The in-memory image of a [struct logger_entry] (little-endian). *)
Definition entry_bytes (e : logger_entry) : list Z :=
  le_encode 2 (e_len e) ++ le_encode 2 (e_hdr_size e) ++ le_encode 4 (e_pid e) ++
  le_encode 4 (e_tid e) ++ le_encode 4 (e_sec e) ++ le_encode 4 (e_nsec e) ++
  le_encode 4 (e_euid e).

(** The [struct logger_entry] read through a pointer to 24 bytes. *)
Definition entry_of_bytes (bs : list Z) : logger_entry :=
  {| e_len := le_decode (take 2 bs);
     e_hdr_size := le_decode (take 2 (drop 2 bs));
     e_pid := s32 (le_decode (take 4 (drop 4 bs)));
     e_tid := s32 (le_decode (take 4 (drop 8 bs)));
     e_sec := s32 (le_decode (take 4 (drop 12 bs)));
     e_nsec := s32 (le_decode (take 4 (drop 16 bs)));
     e_euid := le_decode (take 4 (drop 20 bs)) |}.

(** The image of [struct user_logger_entry_compat], the version 1 header:
    [len], a zero [__pad], [pid], [tid], [sec], [nsec]. *)
Definition compat_bytes (e : logger_entry) : list Z :=
  le_encode 2 (e_len e) ++ le_encode 2 0 ++ le_encode 4 (e_pid e) ++
  le_encode 4 (e_tid e) ++ le_encode 4 (e_sec e) ++ le_encode 4 (e_nsec e).

(** ** State *)

(** [struct logger_reader]; [r_id] is the identity of the object, the [log]
    back pointer is the log whose [readers] list holds it. *)
Record logger_reader := Reader {
  r_id : nat;
  r_off : Z;
  r_all : bool;
  r_ver : Z;
}.

(** [struct logger_log]. *)
Record logger_log := Log {
  buffer : list Z;
  misc_minor : Z;
  misc_name : list Z;
  readers : list logger_reader;
  w_off : Z;
  head : Z;
  size : Z;
}.

Definition set_r_off (r : logger_reader) (off : Z) : logger_reader :=
  {| r_id := r_id r; r_off := off; r_all := r_all r; r_ver := r_ver r |}.
Definition set_buffer (l : logger_log) (b : list Z) : logger_log :=
  {| buffer := b; misc_minor := misc_minor l; misc_name := misc_name l;
     readers := readers l; w_off := w_off l; head := head l; size := size l |}.
Definition set_w_off (l : logger_log) (w : Z) : logger_log :=
  {| buffer := buffer l; misc_minor := misc_minor l; misc_name := misc_name l;
     readers := readers l; w_off := w; head := head l; size := size l |}.
Definition set_positions (l : logger_log) (h : Z) (rs : list logger_reader) : logger_log :=
  {| buffer := buffer l; misc_minor := misc_minor l; misc_name := misc_name l;
     readers := rs; w_off := w_off l; head := h; size := size l |}.

(** ** Offsets and headers *)

(** [logger_offset]: index [n] into the log via a mask. *)
Definition logger_offset (log : logger_log) (n : Z) : Z := u32 n &&& u32 (size log - 1).

(** [get_entry_header]: the header at [off], assembled in a scratch copy when
    it spans the end and the beginning of the buffer. *)
Definition get_entry_header (log : logger_log) (off : Z) : option logger_entry :=
  let len := Z.min sizeof_logger_entry (u32 (size log - off)) in
  if negb (len =? sizeof_logger_entry) then
    a ← mem_read (buffer log) off len;
    b ← mem_read (buffer log) 0 (sizeof_logger_entry - len);
    Some (entry_of_bytes (a ++ b))
  else
    a ← mem_read (buffer log) off sizeof_logger_entry;
    Some (entry_of_bytes a).

Definition get_entry_msg_len (log : logger_log) (off : Z) : option Z :=
  e ← get_entry_header log off; Some (e_len e).

Definition get_user_hdr_len (ver : Z) : Z :=
  if ver <? 2 then sizeof_user_logger_entry_compat else sizeof_logger_entry.

(** ** Copies to and from user space *)

(** The user buffer is the list of its writable bytes; [copy_to_user] fails
    (returns a nonzero count, here [None]) when the range is not writable. *)
Definition copy_to_user (ubuf : list Z) (off : Z) (data : list Z) : option (list Z) :=
  mem_write ubuf off data.

Definition copy_header_to_user (ver : Z) (e : logger_entry) (ubuf : list Z) (off : Z)
    : option (list Z) :=
  copy_to_user ubuf off (if ver <? 2 then compat_bytes e else entry_bytes e).

(** A [struct iov_iter]: the byte count asked for, and the bytes that can be
    copied before user memory faults. *)
Record iov_iter := Iter { iov_count : Z; iov_bytes : list Z }.

(** [copy_from_iter]: copies up to [n] bytes to [off] and returns how many. *)
Definition copy_from_iter (buf : list Z) (off n : Z) (it : iov_iter)
    : option (Z * list Z * iov_iter) :=
  let k := Z.min n (zlen (iov_bytes it)) in
  buf' ← mem_write buf off (take (Z.to_nat k) (iov_bytes it));
  Some (k, buf', {| iov_count := iov_count it - k; iov_bytes := drop (Z.to_nat k) (iov_bytes it) |}).

(** ** Reading *)

(** [do_read_log_to_user]: the record at the reader's offset, header first.
    Returns the return value, the reader and the user buffer. *)
Definition do_read_log_to_user (log : logger_log) (reader : logger_reader)
    (ubuf : list Z) (count : Z) : option (Z * logger_reader * list Z) :=
  entry ← get_entry_header log (r_off reader);
  match copy_header_to_user (r_ver reader) entry ubuf 0 with
  | None => Some (- EFAULT, reader, ubuf)
  | Some ubuf1 =>
      let count := u32 (count - get_user_hdr_len (r_ver reader)) in
      let buf := get_user_hdr_len (r_ver reader) in
      let msg_start := logger_offset log (r_off reader + sizeof_logger_entry) in
      let len := Z.min count (u32 (size log - msg_start)) in
      d1 ← mem_read (buffer log) msg_start len;
      match copy_to_user ubuf1 buf d1 with
      | None => Some (- EFAULT, reader, ubuf1)
      | Some ubuf2 =>
          d2 ← mem_read (buffer log) 0 (count - len);
          match (if negb (count =? len) then copy_to_user ubuf2 (buf + len) d2 else Some ubuf2) with
          | None => Some (- EFAULT, reader, ubuf2)
          | Some ubuf3 =>
              Some (count + get_user_hdr_len (r_ver reader),
                    set_r_off reader
                      (logger_offset log (r_off reader + sizeof_logger_entry + count)),
                    ubuf3)
          end
      end
  end.

(** [get_next_entry_by_uid]: the first record at or after [off] written by
    [euid], or the write head.  A record takes at least 24 bytes, so the loop
    makes at most [size / 24] iterations on a well-formed log. *)
Fixpoint get_next_entry_by_uid_loop (fuel : nat) (log : logger_log) (off euid : Z) : option Z :=
  if off =? w_off log then Some off else
  match fuel with
  | O => None
  | S fuel =>
      entry ← get_entry_header log off;
      if e_euid entry =? euid then Some off else
      let next_len := u32 (sizeof_logger_entry + e_len entry) in
      get_next_entry_by_uid_loop fuel log (logger_offset log (off + next_len)) euid
  end.

Definition get_next_entry_by_uid (log : logger_log) (off euid : Z) : option Z :=
  get_next_entry_by_uid_loop (Z.to_nat (size log / sizeof_logger_entry)) log off euid.

(** What a call of [logger_read] comes to: it returns, or it sleeps in
    [schedule()] until the log is written to. *)
Inductive read_outcome :=
| RdRet (ret : Z) (ubuf : list Z)
| RdBlock.

(** The part of [logger_read], [logger_poll] and [logger_ioctl] that skips the
    records a restricted reader may not see. *)
Definition skip_unreadable (log : logger_log) (reader : logger_reader) (euid : Z)
    : option logger_reader :=
  if r_all reader then Some reader
  else off ← get_next_entry_by_uid log (r_off reader) euid; Some (set_r_off reader off).

(** [logger_read].  [goto start] is taken at most once per wake-up, when every
    remaining record was skipped; the second pass then finds the log empty. *)
Fixpoint logger_read_start (fuel : nat) (log : logger_log) (reader : logger_reader)
    (nonblock signal_pending : bool) (euid : Z) (ubuf : list Z) (count : Z)
    : option (read_outcome * logger_reader) :=
  if w_off log =? r_off reader then
    if nonblock then Some (RdRet (- EAGAIN) ubuf, reader)
    else if signal_pending then Some (RdRet (- EINTR) ubuf, reader)
    else Some (RdBlock, reader)
  else
    reader ← skip_unreadable log reader euid;
    if w_off log =? r_off reader then
      match fuel with
      | O => None
      | S fuel => logger_read_start fuel log reader nonblock signal_pending euid ubuf count
      end
    else
      msg_len ← get_entry_msg_len log (r_off reader);
      let ret := get_user_hdr_len (r_ver reader) + msg_len in
      if count <? ret then Some (RdRet (- EINVAL) ubuf, reader)
      else
        '(ret, reader, ubuf) ← do_read_log_to_user log reader ubuf ret;
        Some (RdRet ret ubuf, reader).

Definition logger_read (log : logger_log) (reader : logger_reader)
    (nonblock signal_pending : bool) (euid : Z) (ubuf : list Z) (count : Z)
    : option (read_outcome * logger_reader) :=
  logger_read_start 1 log reader nonblock signal_pending euid ubuf count.

(** ** Writing *)

(** [get_next_entry]: the first record at least [len] bytes after [off].  Each
    iteration adds at least 24 to [count]. *)
Fixpoint get_next_entry_loop (fuel : nat) (log : logger_log) (off len count : Z) : option Z :=
  match fuel with
  | O => None
  | S fuel =>
      msg_len ← get_entry_msg_len log off;
      let nr := u32 (sizeof_logger_entry + msg_len) in
      let off := logger_offset log (off + nr) in
      let count := u32 (count + nr) in
      if count <? len then get_next_entry_loop fuel log off len count else Some off
  end.

Definition get_next_entry (log : logger_log) (off len : Z) : option Z :=
  get_next_entry_loop (S (Z.to_nat (len / sizeof_logger_entry))) log off len 0.

(** [is_between]: is [c] in the half-open interval from [a] (excluded) to [b]
    (included), going around the ring. *)
Definition is_between (a b c : Z) : bool :=
  if a <? b then (a <? c) && (c <=? b) else (c <=? b) || (a <? c).

Definition fix_up_offset (log : logger_log) (len off : Z) : option Z :=
  let old := w_off log in
  let new := logger_offset log (old + len) in
  if is_between old new off then get_next_entry log off len else Some off.

(** [fix_up_readers]: pull the start head and every reader lapped by a write of
    [len] bytes forward. *)
Definition fix_up_readers (log : logger_log) (len : Z) : option logger_log :=
  h ← fix_up_offset log len (head log);
  rs ← mapM (λ r, off ← fix_up_offset log len (r_off r); Some (set_r_off r off)) (readers log);
  Some (set_positions log h rs).

(** What [logger_write_iter] takes from the calling task and the clock. *)
Record write_context := WriteCtx {
  wc_tgid : Z; wc_pid : Z; wc_sec : Z; wc_nsec : Z; wc_euid : Z;
}.

Definition make_header (c : write_context) (count : Z) : logger_entry :=
  {| e_len := u16 count; e_hdr_size := sizeof_logger_entry; e_pid := s32 (wc_tgid c);
     e_tid := s32 (wc_pid c); e_sec := s32 (wc_sec c); e_nsec := s32 (wc_nsec c);
     e_euid := u32 (wc_euid c) |}.

(** [logger_write_iter].  On a fault in the middle of the copy the bytes
    already copied stay in the ring, but [w_off] does not move. *)
Definition logger_write_iter (log : logger_log) (c : write_context) (from : iov_iter)
    : option (Z * logger_log) :=
  let count := Z.min (iov_count from) LOGGER_ENTRY_MAX_PAYLOAD in
  let header := make_header c count in
  if e_len header =? 0 then Some (0, log) else
  log ← fix_up_readers log (sizeof_logger_entry + e_len header);
  let len := Z.min sizeof_logger_entry (u32 (size log - w_off log)) in
  b ← mem_write (buffer log) (w_off log) (take (Z.to_nat len) (entry_bytes header));
  b ← mem_write b 0 (drop (Z.to_nat len) (entry_bytes header));
  let w := logger_offset log (w_off log + sizeof_logger_entry) in
  let len := Z.min count (u32 (size log - w)) in
  '(copied, b, from) ← copy_from_iter b w len from;
  if negb (copied =? len) then Some (- EFAULT, set_buffer log b) else
  '(copied, b, from) ← copy_from_iter b 0 (count - len) from;
  if negb (copied =? count - len) then Some (- EFAULT, set_buffer log b) else
  Some (len, set_w_off (set_buffer log b) (logger_offset log (w + count))).
