(* ===== verification/LoggerSpec.v ===== *)
(** * The Android logger driver: what the ring operations do

    The abstract view of a log is, for every position a reader can be at, the
    list of records from there to the write head.  [pending log x rs] says that
    the ring holds exactly the images of [rs] between [x] and [w_off].  The
    lemmas show that the byte-level operations of [Logger] refine the obvious
    list operations: a write appends one record and drops a prefix for the
    positions it laps, a read delivers the first record and moves past it, a
    restricted reader drops the records of other users. *)
From S2P Require Import Prelude Logger.
Import Errno.

(** ** The ring as a periodic sequence of bytes *)

Definition rget (buf : list Z) (sz i : Z) : Z := mget buf (i mod sz).

(** The shape of a log that [create_log] sets up: a power-of-two size that
    fits [size_t], at least twice the largest record. *)
Record log_shape (log : logger_log) : Prop := {
  shape_pow2 : ∃ k, 0 ≤ k ≤ 31 ∧ size log = 2 ^ k;
  shape_buffer : zlen (buffer log) = size log;
  shape_w_off : 0 ≤ w_off log < size log;
  shape_room : 2 * (sizeof_logger_entry + LOGGER_ENTRY_MAX_PAYLOAD) ≤ size log;
}.

Lemma shape_size log : log_shape log → 8200 ≤ size log < 2 ^ 32.
Proof.
  intros [(k & Hk & ->) _ _ Hr]. unfold sizeof_logger_entry, LOGGER_ENTRY_MAX_PAYLOAD in Hr.
  split; [lia|]. apply Z.pow_lt_mono_r; lia.
Qed.

Lemma logger_offset_mod log n : log_shape log → logger_offset log n = n mod size log.
Proof.
  intros Hs. pose proof (shape_size _ Hs). destruct Hs as [(k & Hk & Hsz) _ _ _].
  unfold logger_offset. rewrite (wrap_small 32 (size log - 1)) by lia.
  rewrite Hsz, land_pow2_mask, wrap_mod_pow2; [done|lia|lia].
Qed.

Lemma logger_offset_range log n : log_shape log → 0 ≤ logger_offset log n < size log.
Proof.
  intros Hs. rewrite logger_offset_mod by done. apply Z.mod_pos_bound.
  pose proof (shape_size _ Hs). lia.
Qed.

Lemma rget_small buf sz i : 0 ≤ i < sz → rget buf sz i = mget buf i.
Proof. intros. unfold rget. by rewrite Z.mod_small. Qed.

Lemma rget_mod buf sz i : rget buf sz (i mod sz) = rget buf sz i.
Proof. unfold rget. by rewrite Zmod_mod. Qed.

Lemma rget_add_mod buf sz a i : rget buf sz (a mod sz + i) = rget buf sz (a + i).
Proof. unfold rget. by rewrite Zplus_mod_idemp_l. Qed.

Lemma seg_rget_mod buf sz a n : seg (rget buf sz) (a mod sz) n = seg (rget buf sz) a n.
Proof. apply seg_ext. intros. apply rget_add_mod. Qed.

(** The two [memcpy]s of a read around the end of the ring deliver the
    consecutive bytes of the periodic view. *)
Lemma ring_read_split buf sz off n :
  zlen buf = sz → 0 ≤ off < sz → 0 ≤ n ≤ sz →
  let len := Z.min n (sz - off) in
  mem_read buf off len = Some (seg (rget buf sz) off len) ∧
  mem_read buf 0 (n - len) = Some (seg (rget buf sz) (off + len) (n - len)).
Proof.
  intros Hb Ho Hn len. split; rewrite mem_read_Some by lia; f_equal; apply seg_ext; intros i Hi.
  - symmetry. apply rget_small. lia.
  - unfold rget. f_equal. destruct (Z_le_gt_dec n (sz - off)); [lia|].
    replace (off + len + i) with (i + 1 * sz) by lia.
    rewrite Z_mod_plus_full, Z.mod_small; lia.
Qed.

(** The two copies of a write around the end of the ring change exactly the
    bytes at distance less than the length from the start offset. *)
Lemma ring_write_split buf sz off d b1 b2 :
  zlen buf = sz → 0 ≤ off < sz → zlen d ≤ sz →
  let len := Z.min (zlen d) (sz - off) in
  mem_write buf off (take (Z.to_nat len) d) = Some b1 →
  mem_write b1 0 (drop (Z.to_nat len) d) = Some b2 →
  zlen b2 = sz ∧
  ∀ i, rget b2 sz i =
    if (i - off) mod sz <? zlen d then mget d ((i - off) mod sz) else rget buf sz i.
Proof.
  intros Hb Ho Hd len H1 H2.
  apply mem_write_inv in H1 as (_ & _ & Hl1 & G1).
  apply mem_write_inv in H2 as (_ & _ & Hl2 & G2).
  rewrite length_take in G1. rewrite length_drop in G2.
  split; [lia|]. intros i. unfold rget.
  pose proof (Z.mod_pos_bound i sz ltac:(lia)) as Hj. set (j := i mod sz) in *.
  assert ((i - off) mod sz = if j <? off then j - off + sz else j - off) as ->.
  { rewrite <- Zminus_mod_idemp_l. fold j. bcase E.
    - rewrite <- (Z_mod_plus_full (j - off) 1 sz), Z.mod_small; lia.
    - rewrite Z.mod_small; lia. }
  rewrite G2, Z.sub_0_r, G1 by lia.
  destruct (Z.ltb_spec j off).
  - destruct (Z.ltb_spec (j - off + sz) (zlen d)).
    + bcase E; [|lia]. rewrite mget_drop by lia. f_equal. lia.
    + bcase E; [lia|]. bcase E2; [lia|done].
  - destruct (Z.ltb_spec (j - off) (zlen d)).
    + bcase E; [lia|]. bcase E2; [|lia]. rewrite mget_take; [done|lia].
    + bcase E; [lia|]. bcase E2; [lia|done].
Qed.

(** ** Records *)

Record log_record := Rec { lr_hdr : logger_entry; lr_msg : list Z }.

Definition rec_bytes (r : log_record) : list Z := entry_bytes (lr_hdr r) ++ lr_msg r.
Definition rec_size (r : log_record) : Z := sizeof_logger_entry + zlen (lr_msg r).
Definition serialize (rs : list log_record) : list Z := concat (rec_bytes <$> rs).
Definition total_size (rs : list log_record) : Z := zlen (serialize rs).

Definition is_s32 (z : Z) : Prop := - 2 ^ 31 ≤ z < 2 ^ 31.

Record wf_record (r : log_record) : Prop := {
  wf_len : e_len (lr_hdr r) = zlen (lr_msg r);
  wf_msg : 0 < zlen (lr_msg r) ≤ LOGGER_ENTRY_MAX_PAYLOAD;
  wf_hdr_size : e_hdr_size (lr_hdr r) = sizeof_logger_entry;
  wf_pid : is_s32 (e_pid (lr_hdr r));
  wf_tid : is_s32 (e_tid (lr_hdr r));
  wf_sec : is_s32 (e_sec (lr_hdr r));
  wf_nsec : is_s32 (e_nsec (lr_hdr r));
  wf_euid : 0 ≤ e_euid (lr_hdr r) < 2 ^ 32;
}.

Lemma length_entry_bytes e : length (entry_bytes e) = 24%nat.
Proof. unfold entry_bytes. by autorewrite with cmem. Qed.

Lemma le_field n z w :
  256 ^ Z.of_nat n = 2 ^ w → 0 ≤ z < 2 ^ w → le_decode (le_encode n z) = z.
Proof. intros E Hz. rewrite le_decode_encode, E. by apply Z.mod_small. Qed.

Lemma le_field_signed n z w :
  256 ^ Z.of_nat n = 2 ^ w → 0 < w → - 2 ^ (w - 1) ≤ z < 2 ^ (w - 1) →
  signed w (le_decode (le_encode n z)) = z.
Proof.
  intros E Hw Hz. rewrite le_decode_encode, E. fold (wrap w z).
  rewrite signed_wrap. by apply signed_small.
Qed.

(** Decoding the 24 bytes of a header image gives the header back. *)
Lemma entry_of_entry_bytes r rest :
  wf_record r → entry_of_bytes (entry_bytes (lr_hdr r) ++ rest) = lr_hdr r.
Proof.
  intros [Hl Hm Hh Hp Ht Hs Hn He]. unfold LOGGER_ENTRY_MAX_PAYLOAD, is_s32 in *.
  destruct (lr_hdr r) as [len hs pid tid sec nsec euid]. cbn [e_len e_hdr_size e_pid e_tid
    e_sec e_nsec e_euid] in *.
  transitivity (Entry (le_decode (le_encode 2 len)) (le_decode (le_encode 2 hs))
    (s32 (le_decode (le_encode 4 pid))) (s32 (le_decode (le_encode 4 tid)))
    (s32 (le_decode (le_encode 4 sec))) (s32 (le_decode (le_encode 4 nsec)))
    (le_decode (le_encode 4 euid))); [reflexivity|].
  rewrite (le_field 2 len 16), (le_field 2 hs 16), (le_field 4 euid 32) by (first [done | unfold sizeof_logger_entry in *; lia]).
  rewrite !(le_field_signed 4) by (done || lia). done.
Qed.

Lemma zlen_rec_bytes r : zlen (rec_bytes r) = rec_size r.
Proof. unfold rec_bytes, rec_size. rewrite length_app, length_entry_bytes. unfold sizeof_logger_entry. lia. Qed.

Lemma rec_size_bounds r : wf_record r → 24 < rec_size r ≤ 4100.
Proof.
  intros H. destruct (wf_msg _ H). unfold rec_size, sizeof_logger_entry, LOGGER_ENTRY_MAX_PAYLOAD in *.
  lia.
Qed.

Lemma serialize_cons r rs : serialize (r :: rs) = rec_bytes r ++ serialize rs.
Proof. done. Qed.

Lemma serialize_app rs1 rs2 : serialize (rs1 ++ rs2) = serialize rs1 ++ serialize rs2.
Proof. unfold serialize. by rewrite fmap_app, concat_app. Qed.

Lemma total_size_nil : total_size [] = 0.
Proof. done. Qed.

Lemma total_size_cons r rs : total_size (r :: rs) = rec_size r + total_size rs.
Proof. unfold total_size. rewrite serialize_cons, length_app, Nat2Z.inj_add, zlen_rec_bytes. done. Qed.

Lemma total_size_app rs1 rs2 : total_size (rs1 ++ rs2) = total_size rs1 + total_size rs2.
Proof. unfold total_size. rewrite serialize_app, length_app. lia. Qed.

Lemma total_size_nonneg rs : 0 ≤ total_size rs.
Proof. unfold total_size. lia. Qed.

(** ** The records pending at a position *)

(** [pending log x rs]: between offset [x] and the write head the ring holds
    exactly the records [rs]. *)
Record pending (log : logger_log) (x : Z) (rs : list log_record) : Prop := {
  pd_wf : Forall wf_record rs;
  pd_fits : total_size rs < size log;
  pd_pos : x = (w_off log - total_size rs) mod size log;
  pd_bytes : seg (rget (buffer log) (size log)) x (total_size rs) = serialize rs;
}.

Lemma pending_range log x rs : log_shape log → pending log x rs → 0 ≤ x < size log.
Proof.
  intros Hs [_ _ -> _]. apply Z.mod_pos_bound. pose proof (shape_size _ Hs). lia.
Qed.

Lemma pending_nil log : log_shape log → pending log (w_off log) [].
Proof.
  intros Hs. pose proof (shape_size _ Hs). constructor; rewrite ?total_size_nil.
  - done.
  - lia.
  - rewrite Z.sub_0_r, Z.mod_small; [done|apply Hs].
  - done.
Qed.

(** A position has nothing pending exactly when it is the write head. *)
Lemma pending_empty_iff log x rs :
  log_shape log → pending log x rs → x = w_off log ↔ rs = [].
Proof.
  intros Hs Hp. pose proof (shape_w_off _ Hs). pose proof (shape_size _ Hs). split.
  - intros Hx. destruct rs as [|r rs]; [done|exfalso].
    pose proof (pd_pos _ _ _ Hp) as Hpos. pose proof (pd_fits _ _ _ Hp) as Hf.
    pose proof (pd_wf _ _ _ Hp) as Hw. apply Forall_cons in Hw as [Hw _].
    pose proof (rec_size_bounds _ Hw). pose proof (total_size_nonneg rs).
    rewrite total_size_cons in *. set (t := rec_size r + total_size rs) in *.
    rewrite Hx in Hpos. destruct (Z_lt_le_dec (w_off log) t).
    + rewrite <- (Z_mod_plus_full _ 1), Z.mod_small in Hpos; lia.
    + rewrite Z.mod_small in Hpos; lia.
  - intros ->. rewrite (pd_pos _ _ _ Hp), total_size_nil, Z.sub_0_r, Z.mod_small; [done|lia].
Qed.

(** Dropping the records of a prefix moves the position by their size. *)
Lemma pending_app log x rs1 rs2 :
  log_shape log → pending log x (rs1 ++ rs2) →
  pending log ((x + total_size rs1) mod size log) rs2.
Proof.
  intros Hs [Hw Hf Hpos Hb]. apply Forall_app in Hw as [_ Hw].
  pose proof (total_size_nonneg rs1). pose proof (total_size_nonneg rs2).
  rewrite total_size_app in *. constructor; [done|lia| |].
  - rewrite Hpos, Zplus_mod_idemp_l. f_equal. lia.
  - rewrite seg_rget_mod. rewrite serialize_app, seg_app in Hb by lia.
    apply app_inj_1 in Hb as [_ Hb]; [done|].
    rewrite length_seg. unfold total_size. lia.
Qed.

Lemma pending_cons_bytes log x r rs :
  pending log x (r :: rs) →
  seg (rget (buffer log) (size log)) x 24 = entry_bytes (lr_hdr r) ∧
  seg (rget (buffer log) (size log)) (x + 24) (zlen (lr_msg r)) = lr_msg r.
Proof.
  intros [_ _ _ Hb]. rewrite total_size_cons, serialize_cons in Hb.
  pose proof (total_size_nonneg rs).
  unfold rec_size, sizeof_logger_entry, rec_bytes in Hb.
  rewrite <- Z.add_assoc, !seg_app, <- (assoc_L (++)) in Hb by lia.
  apply app_inj_1 in Hb as [Hh Hb]; [|by rewrite length_seg, length_entry_bytes].
  apply app_inj_1 in Hb as [Hm _]; [done|]. rewrite length_seg. lia.
Qed.

(** The header read at a pending position is the first record's. *)
Lemma get_entry_header_seg log off :
  log_shape log → 0 ≤ off < size log →
  get_entry_header log off = Some (entry_of_bytes (seg (rget (buffer log) (size log)) off 24)).
Proof.
  intros Hs Ho. pose proof (shape_size _ Hs). pose proof (shape_buffer _ Hs).
  unfold get_entry_header. rewrite wrap_small by lia.
  unfold sizeof_logger_entry.
  destruct (ring_read_split (buffer log) (size log) off 24) as [R1 R2]; [done|lia|lia|].
  bcase E.
  - rewrite R1, R2. cbn [mbind option_bind]. rewrite <- seg_app by lia. do 3 f_equal. lia.
  - replace (Z.min 24 (size log - off)) with 24 in R1 by lia. by rewrite R1.
Qed.

Lemma get_entry_header_pending log x r rs :
  log_shape log → pending log x (r :: rs) → get_entry_header log x = Some (lr_hdr r).
Proof.
  intros Hs Hp. rewrite get_entry_header_seg; [|done|by eapply pending_range].
  destruct (pending_cons_bytes _ _ _ _ Hp) as [-> _]. f_equal.
  pose proof (pd_wf _ _ _ Hp) as Hw. apply Forall_cons in Hw as [Hw _].
  rewrite <- (app_nil_r (entry_bytes _)). by apply entry_of_entry_bytes.
Qed.

Lemma get_entry_msg_len_pending log x r rs :
  log_shape log → pending log x (r :: rs) → get_entry_msg_len log x = Some (zlen (lr_msg r)).
Proof.
  intros Hs Hp. unfold get_entry_msg_len.
  rewrite (get_entry_header_pending _ _ _ _ Hs Hp). simpl. f_equal.
  pose proof (pd_wf _ _ _ Hp) as Hw. apply Forall_cons in Hw as [Hw _]. apply Hw.
Qed.

(** Stepping over the first record. *)
Lemma pending_step log x r rs :
  log_shape log → pending log x (r :: rs) →
  logger_offset log (x + u32 (sizeof_logger_entry + zlen (lr_msg r))) =
    (x + rec_size r) mod size log ∧
  pending log ((x + rec_size r) mod size log) rs.
Proof.
  intros Hs Hp. pose proof (pd_wf _ _ _ Hp) as Hw. apply Forall_cons in Hw as [Hw _].
  pose proof (rec_size_bounds _ Hw) as Hb. unfold rec_size in Hb. split.
  - rewrite logger_offset_mod, wrap_small by (done || lia). done.
  - change (r :: rs) with ([r] ++ rs) in Hp. apply pending_app in Hp; [|done].
    rewrite total_size_cons, total_size_nil, Z.add_0_r in Hp. done.
Qed.

(** ** Skipping the records of other users *)

Fixpoint skip_other_uid (euid : Z) (rs : list log_record) : list log_record :=
  match rs with
  | [] => []
  | r :: rs' => if e_euid (lr_hdr r) =? euid then rs else skip_other_uid euid rs'
  end.

Lemma pending_length log x rs :
  log_shape log → pending log x rs → (length rs ≤ Z.to_nat (size log / sizeof_logger_entry))%nat.
Proof.
  intros Hs [Hw Hf _ _]. unfold sizeof_logger_entry.
  assert (24 * zlen rs ≤ total_size rs) as H24.
  { clear Hf. induction Hw as [|r rs Hr _ IH]; [done|].
    rewrite total_size_cons. pose proof (rec_size_bounds _ Hr). cbn [length]. lia. }
  pose proof (shape_size _ Hs). apply Nat2Z.inj_le. rewrite Z2Nat.id by divmod. divmod.
Qed.

Lemma get_next_entry_by_uid_loop_pending log euid rs :
  log_shape log → ∀ fuel x, pending log x rs → (length rs ≤ fuel)%nat →
  ∃ x', get_next_entry_by_uid_loop fuel log x euid = Some x' ∧
        pending log x' (skip_other_uid euid rs).
Proof.
  intros Hs. induction rs as [|r rs IH]; intros fuel x Hp Hfuel.
  - exists x. split; [|done]. apply (pending_empty_iff _ _ _ Hs) in Hp as [_ Hx].
    specialize (Hx eq_refl) as ->. destruct fuel; simpl; by rewrite Z.eqb_refl.
  - destruct fuel as [|fuel]; [simpl in Hfuel; lia|]. cbn [get_next_entry_by_uid_loop].
    assert (x ≠ w_off log) as Hne.
    { intros Hx. by apply (pending_empty_iff _ _ _ Hs Hp) in Hx. }
    apply Z.eqb_neq in Hne as ->.
    rewrite (get_entry_header_pending _ _ _ _ Hs Hp). cbn [mbind option_bind skip_other_uid].
    bcase E; [by exists x|].
    pose proof (pd_wf _ _ _ Hp) as Hw. apply Forall_cons in Hw as [Hw _].
    rewrite (wf_len _ Hw). destruct (pending_step _ _ _ _ Hs Hp) as [-> Hp'].
    apply IH; [done|]. simpl in Hfuel. lia.
Qed.

Lemma get_next_entry_by_uid_pending log euid x rs :
  log_shape log → pending log x rs →
  ∃ x', get_next_entry_by_uid log x euid = Some x' ∧ pending log x' (skip_other_uid euid rs).
Proof.
  intros Hs Hp. apply get_next_entry_by_uid_loop_pending; [done..|].
  by eapply pending_length.
Qed.

(** What a reader may see of the records pending at its position. *)
Definition readable (reader : logger_reader) (euid : Z) (rs : list log_record) : list log_record :=
  if r_all reader then rs else skip_other_uid euid rs.

Lemma skip_unreadable_pending log reader euid rs :
  log_shape log → pending log (r_off reader) rs →
  ∃ off, skip_unreadable log reader euid = Some (set_r_off reader off) ∧
         pending log off (readable reader euid rs).
Proof.
  intros Hs Hp. unfold skip_unreadable, readable. destruct (r_all reader) eqn:E.
  - exists (r_off reader). split; [|done]. by destruct reader.
  - destruct (get_next_entry_by_uid_pending log euid _ _ Hs Hp) as (x & -> & Hx). by exists x.
Qed.

Lemma readable_nil reader euid : readable reader euid [] = [].
Proof. unfold readable. by destruct (r_all reader). Qed.

(** ** Reading one record *)

(** The bytes a reader of ABI version [ver] gets for a record. *)
Definition user_bytes (ver : Z) (r : log_record) : list Z :=
  (if ver <? 2 then compat_bytes (lr_hdr r) else entry_bytes (lr_hdr r)) ++ lr_msg r.

Lemma length_compat_bytes e : length (compat_bytes e) = 20%nat.
Proof. unfold compat_bytes. by autorewrite with cmem. Qed.

Lemma zlen_user_hdr ver e :
  zlen (if ver <? 2 then compat_bytes e else entry_bytes e) = get_user_hdr_len ver.
Proof.
  unfold get_user_hdr_len. destruct (ver <? 2).
  - by rewrite length_compat_bytes.
  - by rewrite length_entry_bytes.
Qed.

Lemma zlen_user_bytes ver r :
  zlen (user_bytes ver r) = get_user_hdr_len ver + zlen (lr_msg r).
Proof. unfold user_bytes. rewrite length_app, Nat2Z.inj_add, zlen_user_hdr. done. Qed.

Lemma get_user_hdr_len_bounds ver : 20 ≤ get_user_hdr_len ver ≤ 24.
Proof. unfold get_user_hdr_len. destruct (ver <? 2); split; done. Qed.

(** The message of a pending record, as the two reads of the ring get it. *)
Lemma read_msg_pending log x r rs :
  log_shape log → pending log x (r :: rs) →
  let start := logger_offset log (x + sizeof_logger_entry) in
  let len := Z.min (zlen (lr_msg r)) (u32 (size log - start)) in
  0 ≤ len ≤ zlen (lr_msg r) ∧
  mem_read (buffer log) start len = Some (take (Z.to_nat len) (lr_msg r)) ∧
  mem_read (buffer log) 0 (zlen (lr_msg r) - len) = Some (drop (Z.to_nat len) (lr_msg r)).
Proof.
  intros Hs Hp start len. pose proof (shape_size _ Hs).
  pose proof (logger_offset_range log (x + sizeof_logger_entry) Hs) as Hst. fold start in Hst.
  pose proof (pd_wf _ _ _ Hp) as Hw. apply Forall_cons in Hw as [Hw _].
  pose proof (rec_size_bounds _ Hw) as Hb. unfold rec_size, sizeof_logger_entry in Hb.
  destruct (pending_cons_bytes _ _ _ _ Hp) as [_ Hm].
  assert (seg (rget (buffer log) (size log)) start (zlen (lr_msg r)) = lr_msg r) as Hm'.
  { unfold start. rewrite logger_offset_mod, seg_rget_mod by done. apply Hm. }
  destruct (ring_read_split (buffer log) (size log) start (zlen (lr_msg r))) as [R1 R2];
    [apply Hs|done|lia|].
  assert (len = Z.min (zlen (lr_msg r)) (size log - start)) as Hlen.
  { unfold len. rewrite wrap_small by lia. done. }
  rewrite <- Hlen in R1, R2. split; [lia|]. rewrite R1, R2.
  replace (zlen (lr_msg r)) with (len + (zlen (lr_msg r) - len)) in Hm' at 1 by lia.
  rewrite seg_app in Hm' by lia.
  pose proof (f_equal (take (Z.to_nat len)) Hm') as HT.
  pose proof (f_equal (drop (Z.to_nat len)) Hm') as HD.
  rewrite take_app_length' in HT by (rewrite length_seg; lia).
  rewrite drop_app_length' in HD by (rewrite length_seg; lia).
  by rewrite <- HT, <- HD.
Qed.

Lemma do_read_pending log reader ubuf r rs :
  log_shape log → pending log (r_off reader) (r :: rs) →
  zlen (user_bytes (r_ver reader) r) ≤ zlen ubuf →
  ∃ ubuf', mem_write ubuf 0 (user_bytes (r_ver reader) r) = Some ubuf' ∧
  do_read_log_to_user log reader ubuf (zlen (user_bytes (r_ver reader) r)) =
    Some (zlen (user_bytes (r_ver reader) r),
          set_r_off reader ((r_off reader + rec_size r) mod size log), ubuf').
Proof.
  intros Hs Hp Hu. pose proof (pd_wf _ _ _ Hp) as Hw. apply Forall_cons in Hw as [Hw _].
  pose proof (rec_size_bounds _ Hw) as Hb. unfold rec_size, sizeof_logger_entry in Hb.
  pose proof (get_user_hdr_len_bounds (r_ver reader)) as Hh.
  destruct (read_msg_pending _ _ _ _ Hs Hp) as (Hlen & R1 & R2).
  rewrite zlen_user_bytes in *. unfold do_read_log_to_user, copy_header_to_user, copy_to_user.
  rewrite (get_entry_header_pending _ _ _ _ Hs Hp). cbn [mbind option_bind].
  set (hdr := if r_ver reader <? 2 then _ else _).
  assert (zlen hdr = get_user_hdr_len (r_ver reader)) as Hhdr by apply zlen_user_hdr.
  destruct (mem_write_Some ubuf 0 hdr) as [u1 H1]; [lia|lia|]. rewrite H1.
  rewrite wrap_small by lia.
  replace (get_user_hdr_len (r_ver reader) + zlen (lr_msg r) - get_user_hdr_len (r_ver reader))
    with (zlen (lr_msg r)) by lia.
  set (len := Z.min (zlen (lr_msg r)) _) in *. rewrite R1, R2. cbn [mbind option_bind].
  pose proof (mem_write_inv _ _ _ _ H1) as (_ & _ & Hl1 & _).
  set (d1 := take (Z.to_nat len) (lr_msg r)). set (d2 := drop (Z.to_nat len) (lr_msg r)).
  assert (zlen d1 = len) as Hd1 by (unfold d1; rewrite length_take; lia).
  assert (zlen d2 = zlen (lr_msg r) - len) as Hd2 by (unfold d2; rewrite length_drop; lia).
  destruct (mem_write_Some u1 (get_user_hdr_len (r_ver reader)) d1) as [u2 H2]; [lia|lia|].
  rewrite H2. pose proof (mem_write_inv _ _ _ _ H2) as (_ & _ & Hl2 & _).
  destruct (mem_write_Some u2 (get_user_hdr_len (r_ver reader) + len) d2) as [u3 H3]; [lia|lia|].
  assert (mem_write ubuf 0 (hdr ++ lr_msg r) = Some u3) as H4.
  { rewrite <- (take_drop (Z.to_nat len) (lr_msg r)), (assoc_L (++)).
    eapply mem_write_app; [eapply mem_write_app; [exact H1|]|]; fold d1 d2.
    - rewrite Hhdr, Z.add_0_l. exact H2.
    - rewrite length_app, Nat2Z.inj_add, Hhdr, Hd1, Z.add_0_l. exact H3. }
  exists u3. split; [exact H4|].
  assert ((if negb (zlen (lr_msg r) =? len)
           then mem_write u2 (get_user_hdr_len (r_ver reader) + len) d2 else Some u2) = Some u3) as ->.
  { bcase E; [done|]. assert (d2 = []) as Hd2n by (apply nil_length_inv; lia).
    rewrite Hd2n in H3. rewrite <- H3. apply mem_write_inv in H3 as (_ & _ & Hl3 & G3).
    unfold mem_write, in_block. bcase E2; [|simpl in E2; lia].
    cbn [length app]. by rewrite Nat.add_0_r, take_drop. }
  rewrite logger_offset_mod by done. unfold rec_size. do 3 f_equal; [lia|].
  f_equal. f_equal. lia.
Qed.

(** A user buffer that cannot hold the record: the read fails and the reader
    does not move. *)
Lemma do_read_fault log reader ubuf r rs :
  log_shape log → pending log (r_off reader) (r :: rs) →
  zlen ubuf < zlen (user_bytes (r_ver reader) r) →
  ∃ u, do_read_log_to_user log reader ubuf (zlen (user_bytes (r_ver reader) r)) =
    Some (- EFAULT, reader, u).
Proof.
  intros Hs Hp Hu. pose proof (pd_wf _ _ _ Hp) as Hw. apply Forall_cons in Hw as [Hw _].
  pose proof (rec_size_bounds _ Hw) as Hb. unfold rec_size, sizeof_logger_entry in Hb.
  pose proof (get_user_hdr_len_bounds (r_ver reader)) as Hh.
  destruct (read_msg_pending _ _ _ _ Hs Hp) as (Hlen & R1 & R2).
  rewrite zlen_user_bytes in *. unfold do_read_log_to_user, copy_header_to_user, copy_to_user.
  rewrite (get_entry_header_pending _ _ _ _ Hs Hp). cbn [mbind option_bind].
  set (hdr := if r_ver reader <? 2 then _ else _).
  assert (zlen hdr = get_user_hdr_len (r_ver reader)) as Hhdr by apply zlen_user_hdr.
  destruct (mem_write ubuf 0 hdr) as [u1|] eqn:H1; [|by exists ubuf].
  pose proof (mem_write_inv _ _ _ _ H1) as (_ & _ & Hl1 & _).
  rewrite wrap_small by lia.
  replace (get_user_hdr_len (r_ver reader) + zlen (lr_msg r) - get_user_hdr_len (r_ver reader))
    with (zlen (lr_msg r)) by lia.
  set (len := Z.min (zlen (lr_msg r)) _) in *. rewrite R1, R2. cbn [mbind option_bind].
  destruct (mem_write u1 _ (take _ _)) as [u2|] eqn:H2; [|by exists u1].
  pose proof (mem_write_inv _ _ _ _ H2) as (_ & Hr2 & Hl2 & _). rewrite length_take in Hr2.
  bcase E; [|lia]. rewrite mem_write_None; [by exists u2|]. rewrite length_drop. lia.
Qed.

(** What [logger_read] answers when the reader has nothing to read. *)
Definition idle_outcome (nonblock signal_pending : bool) (ubuf : list Z) : read_outcome :=
  if nonblock then RdRet (- EAGAIN) ubuf
  else if signal_pending then RdRet (- EINTR) ubuf else RdBlock.

(** The specification of [logger_read] on the records pending at the reader. *)
Definition read_result (log : logger_log) (reader : logger_reader)
    (nonblock signal_pending : bool) (euid : Z) (ubuf : list Z) (count : Z)
    (rs : list log_record) (out : read_outcome) (off : Z) : Prop :=
  match readable reader euid rs with
  | [] => out = idle_outcome nonblock signal_pending ubuf ∧ pending log off []
  | r :: rest =>
      let n := zlen (user_bytes (r_ver reader) r) in
      if count <? n then out = RdRet (- EINVAL) ubuf ∧ pending log off (r :: rest)
      else if zlen ubuf <? n then
        (∃ u, out = RdRet (- EFAULT) u) ∧ pending log off (r :: rest)
      else
        (∃ u, mem_write ubuf 0 (user_bytes (r_ver reader) r) = Some u ∧ out = RdRet n u) ∧
        pending log off rest
  end.

Lemma logger_read_idle fuel log reader nonblock sig euid ubuf count :
  log_shape log → pending log (r_off reader) [] →
  logger_read_start fuel log reader nonblock sig euid ubuf count =
    Some (idle_outcome nonblock sig ubuf, reader).
Proof.
  intros Hs Hp. apply (pending_empty_iff _ _ _ Hs) in Hp as [_ Hx].
  specialize (Hx eq_refl). unfold idle_outcome.
  destruct fuel; cbn [logger_read_start]; rewrite Hx, Z.eqb_refl; by destruct nonblock, sig.
Qed.

Lemma logger_read_start_pending fuel log reader nonblock sig euid ubuf count rs :
  log_shape log → pending log (r_off reader) rs →
  ∃ out off, logger_read_start (S fuel) log reader nonblock sig euid ubuf count =
      Some (out, set_r_off reader off) ∧
    read_result log reader nonblock sig euid ubuf count rs out off.
Proof.
  intros Hs Hp. unfold read_result.
  destruct (decide (r_off reader = w_off log)) as [Hx|Hx].
  { apply (pending_empty_iff _ _ _ Hs Hp) in Hx as ->. rewrite logger_read_idle, readable_nil by done.
    exists (idle_outcome nonblock sig ubuf), (r_off reader). by destruct reader. }
  cbn [logger_read_start]. destruct (Z.eqb_spec (w_off log) (r_off reader)); [congruence|].
  destruct (skip_unreadable_pending log reader euid rs Hs Hp) as (off & -> & Hp').
  cbn [mbind option_bind set_r_off r_off r_ver].
  destruct (readable reader euid rs) as [|r rest] eqn:Hr.
  { destruct (Z.eqb_spec (w_off log) off) as [_|Hn].
    - rewrite logger_read_idle by done. eexists _, off. done.
    - exfalso. apply Hn. symmetry. by apply (pending_empty_iff _ _ _ Hs Hp'). }
  destruct (Z.eqb_spec (w_off log) off) as [Heq|_].
  { symmetry in Heq. by apply (pending_empty_iff _ _ _ Hs Hp') in Heq. }
  rewrite (get_entry_msg_len_pending _ _ _ _ Hs Hp'). cbn [mbind option_bind].
  rewrite <- zlen_user_bytes. bcase Ec; [by eexists _, off|]. bcase Eu.
  - destruct (do_read_fault log (set_r_off reader off) ubuf r rest) as [u Hu]; [done..|simpl; lia|].
    cbn [set_r_off r_ver] in Hu. fold (set_r_off reader off) in Hu. rewrite Hu.
    cbn [mbind option_bind]. eexists _, off. split; [done|]. split; [by exists u|done].
  - destruct (do_read_pending log (set_r_off reader off) ubuf r rest) as (u & Hm & Hu);
      [done..|simpl; lia|].
    cbn [set_r_off r_ver r_off] in Hu, Hm. fold (set_r_off reader off) in Hu. rewrite Hu.
    cbn [mbind option_bind]. eexists _, _. split; [done|]. split; [by exists u|].
    by apply (pending_step _ _ _ _ Hs Hp').
Qed.

Lemma logger_read_pending log reader nonblock sig euid ubuf count rs :
  log_shape log → pending log (r_off reader) rs →
  ∃ out off, logger_read log reader nonblock sig euid ubuf count = Some (out, set_r_off reader off) ∧
    read_result log reader nonblock sig euid ubuf count rs out off.
Proof. apply logger_read_start_pending. Qed.

(** ** Making room for a record *)

(** Drop records from the front until at least [len] bytes, and at least one
    record, are gone. *)
Fixpoint drop_bytes (len : Z) (rs : list log_record) : list log_record :=
  match rs with
  | [] => []
  | r :: rs' => if rec_size r <? len then drop_bytes (len - rec_size r) rs' else rs'
  end.

(** What a write of [len] bytes leaves of the records pending at a position of
    a ring of [sz] bytes. *)
Definition lap (sz len : Z) (rs : list log_record) : list log_record :=
  if total_size rs + len <? sz then rs else drop_bytes len rs.

Lemma drop_bytes_suffix len rs : ∃ pre, rs = pre ++ drop_bytes len rs.
Proof.
  revert len. induction rs as [|r rs IH]; intros len; [by exists []|]. cbn [drop_bytes].
  bcase E; [|by exists [r]]. destruct (IH (len - rec_size r)) as [pre Hpre].
  exists (r :: pre). by rewrite Hpre at 1.
Qed.

Lemma drop_bytes_total len rs :
  0 < len ≤ total_size rs → total_size (drop_bytes len rs) + len ≤ total_size rs.
Proof.
  revert len. induction rs as [|r rs IH]; intros len Hl; rewrite ?total_size_nil in *; [lia|].
  rewrite total_size_cons in *. cbn [drop_bytes]. bcase E; [|lia].
  pose proof (IH (len - rec_size r)). lia.
Qed.

Lemma get_next_entry_loop_pending log len rs :
  log_shape log → len ≤ 4100 → ∀ fuel x count,
  pending log x rs → 0 ≤ count < len → len - count ≤ total_size rs →
  (Z.to_nat ((len - count) / 24) < fuel)%nat →
  ∃ x', get_next_entry_loop fuel log x len count = Some x' ∧
        pending log x' (drop_bytes (len - count) rs).
Proof.
  intros Hs Hlen. induction rs as [|r rs IH]; intros fuel x count Hp Hc Ht Hf.
  { rewrite total_size_nil in Ht. lia. }
  destruct fuel as [|fuel]; [lia|]. cbn [get_next_entry_loop].
  rewrite (get_entry_msg_len_pending _ _ _ _ Hs Hp). cbn [mbind option_bind drop_bytes].
  destruct (pending_step _ _ _ _ Hs Hp) as [-> Hp'].
  pose proof (pd_wf _ _ _ Hp) as Hw. apply Forall_cons in Hw as [Hw _].
  pose proof (rec_size_bounds _ Hw) as Hb.
  rewrite total_size_cons in Ht. fold (rec_size r). rewrite (wrap_small 32 (rec_size r)) by lia.
  rewrite wrap_small by lia.
  destruct (Z.ltb_spec (rec_size r) (len - count)).
  - bcase E; [|lia]. replace (len - count - rec_size r) with (len - (count + rec_size r)) by lia.
    apply IH; [done|lia|lia|].
    assert (0 ≤ (len - (count + rec_size r)) / 24 < (len - count) / 24) by divmod. lia.
  - bcase E; [lia|]. eauto.
Qed.

Lemma get_next_entry_pending log len x rs :
  log_shape log → 0 < len ≤ 4100 → pending log x rs → len ≤ total_size rs →
  ∃ x', get_next_entry log x len = Some x' ∧ pending log x' (drop_bytes len rs).
Proof.
  intros Hs Hl Hp Ht. unfold get_next_entry.
  destruct (get_next_entry_loop_pending log len rs Hs ltac:(lia)
    (S (Z.to_nat (len / sizeof_logger_entry))) x 0 Hp) as (x' & -> & Hx); [lia|lia| |].
  - rewrite Z.sub_0_r. unfold sizeof_logger_entry. lia.
  - rewrite Z.sub_0_r in Hx. eauto.
Qed.

(** The lapping test: the position is hit by a write of [len] bytes. *)
Lemma is_between_pending log x rs len :
  log_shape log → pending log x rs → 0 < len < size log →
  is_between (w_off log) (logger_offset log (w_off log + len)) x =
  (0 <? total_size rs) && (size log <=? total_size rs + len).
Proof.
  intros Hs Hp Hl. pose proof (shape_w_off _ Hs) as Hw.
  pose proof (total_size_nonneg rs). pose proof (pd_fits _ _ _ Hp).
  rewrite logger_offset_mod, (pd_pos _ _ _ Hp) by done.
  rewrite mod_sub_cases, mod_add_cases by lia. unfold is_between.
  repeat (let E := fresh "E" in bcase E); lia.
Qed.

Lemma lap_nil sz len : 0 < len < sz → lap sz len [] = [].
Proof. intros. unfold lap. by destruct (_ <? _). Qed.

Lemma lap_room log x rs len :
  log_shape log → pending log x rs → 0 < len ≤ 4100 →
  total_size (lap (size log) len rs) + len < size log.
Proof.
  intros Hs Hp Hl. pose proof (shape_size _ Hs). pose proof (pd_fits _ _ _ Hp).
  unfold lap. destruct (Z.ltb_spec (total_size rs + len) (size log)); [lia|].
  pose proof (drop_bytes_total len rs). lia.
Qed.

Lemma fix_up_offset_pending log len x rs :
  log_shape log → 0 < len ≤ 4100 → pending log x rs →
  ∃ x', fix_up_offset log len x = Some x' ∧ pending log x' (lap (size log) len rs).
Proof.
  intros Hs Hl Hp. pose proof (shape_size _ Hs). pose proof (pd_fits _ _ _ Hp).
  unfold fix_up_offset. rewrite (is_between_pending _ _ rs) by (done || lia). unfold lap.
  destruct (Z.ltb_spec (total_size rs + len) (size log)).
  - bcase E; [lia|]. eauto.
  - bcase E; [|pose proof (total_size_nonneg rs); lia]. apply get_next_entry_pending; [done..|lia].
Qed.

Lemma pending_frame log log' x rs :
  buffer log' = buffer log → w_off log' = w_off log → size log' = size log →
  pending log x rs → pending log' x rs.
Proof. intros Hb Hw Hz [H1 H2 H3 H4]. constructor; by rewrite ?Hb, ?Hw, ?Hz. Qed.

Lemma shape_frame log log' :
  buffer log' = buffer log → w_off log' = w_off log → size log' = size log →
  log_shape log → log_shape log'.
Proof. intros Hb Hw Hz [H1 H2 H3 H4]. constructor; by rewrite ?Hb, ?Hw, ?Hz. Qed.

(** The abstraction of a whole log: the records pending at the start head and
    at every reader. *)
Record log_repr (log : logger_log) (hrs : list log_record) (rrs : list (list log_record)) : Prop := {
  repr_shape : log_shape log;
  repr_head : pending log (head log) hrs;
  repr_readers : Forall2 (λ r rs, pending log (r_off r) rs) (readers log) rrs;
}.

Lemma fix_up_readers_repr log len hrs rrs :
  log_repr log hrs rrs → 0 < len ≤ 4100 →
  ∃ log', fix_up_readers log len = Some log' ∧
    buffer log' = buffer log ∧ w_off log' = w_off log ∧ size log' = size log ∧
    log_repr log' (lap (size log) len hrs) (lap (size log) len <$> rrs).
Proof.
  intros [Hs Hh Hr] Hl. unfold fix_up_readers.
  destruct (fix_up_offset_pending log len _ _ Hs Hl Hh) as (h & -> & Hh').
  cbn [mbind option_bind].
  assert (∃ rs', mapM (λ r, off ← fix_up_offset log len (r_off r); Some (set_r_off r off))
                   (readers log) = Some rs' ∧
          Forall2 (λ r rs, pending log (r_off r) rs) rs' (lap (size log) len <$> rrs))
    as (rs' & -> & Hrs').
  { induction Hr as [|r rs rds rrs Hp Hr IH]; [by exists []|].
    destruct (fix_up_offset_pending log len _ _ Hs Hl Hp) as (off & Hoff & Hoff').
    destruct IH as (rs' & Hm & HF). exists (set_r_off r off :: rs').
    cbn [mapM]. rewrite Hoff. cbn [mbind option_bind]. rewrite Hm. by split; [|constructor]. }
  cbn [mbind option_bind]. eexists. split_and!; [done..|].
  constructor; [by apply (shape_frame log)|by apply (pending_frame log)|].
  eapply Forall2_impl; [exact Hrs'|]. intros r rs. by apply pending_frame.
Qed.

(** ** Writing one record *)

(** The effect of one [memcpy] into the ring. *)
Lemma ring_touch buf sz off d b :
  zlen buf = sz → 0 < sz → mem_write buf off d = Some b →
  zlen b = sz ∧
  ∀ i, rget b sz i = if (off <=? i mod sz) && (i mod sz <? off + zlen d)
                     then mget d (i mod sz - off) else rget buf sz i.
Proof.
  intros Hb Hz H. apply mem_write_inv in H as (Ho & Hl & Hlen & G). split; [lia|].
  intros i. unfold rget. apply G. by apply Z.mod_pos_bound.
Qed.

(** Outside the [len] bytes after the write head, [b'] is [b]. *)
Definition untouched (sz w len : Z) (b b' : list Z) : Prop :=
  zlen b' = sz ∧ ∀ i, len ≤ (i - w) mod sz → rget b' sz i = rget b sz i.

Lemma untouched_trans sz w len b1 b2 b3 :
  untouched sz w len b1 b2 → untouched sz w len b2 b3 → untouched sz w len b1 b3.
Proof. intros [_ H1] [? H2]. split; [done|]. intros. rewrite H2, H1; done. Qed.

(** A copy that stays within the [len] bytes after the write head. *)
Lemma untouched_write sz w len buf off d b :
  zlen buf = sz → 0 ≤ w < sz → 0 ≤ len ≤ sz →
  w ≤ off ∧ off + zlen d ≤ w + len ∨ off + zlen d + sz ≤ w + len ∨ zlen d = 0 →
  mem_write buf off d = Some b → untouched sz w len buf b.
Proof.
  intros Hb Hw Hl Hd H. pose proof (mem_write_inv _ _ _ _ H) as (Ho & Hr & _ & _).
  destruct (ring_touch buf sz off d b) as [Hz G]; [done|lia|done|]. split; [done|].
  intros i Hi. rewrite G. bcase E; [exfalso|done].
  pose proof (Z.mod_pos_bound i sz ltac:(lia)).
  rewrite <- Zminus_mod_idemp_l, mod_sub_cases in Hi by lia.
  destruct (Z.ltb_spec (i mod sz) w); lia.
Qed.

(** Records that end before the touched bytes survive. *)
Lemma pending_untouched log x rs b' len :
  log_shape log → pending log x rs → 0 ≤ len → total_size rs + len ≤ size log →
  untouched (size log) (w_off log) len (buffer log) b' →
  seg (rget b' (size log)) x (total_size rs) = serialize rs.
Proof.
  intros Hs Hp Hl Ht [_ Hu]. pose proof (shape_size _ Hs). rewrite <- (pd_bytes _ _ _ Hp).
  apply seg_ext. intros i Hi. apply Hu. rewrite (pd_pos _ _ _ Hp).
  rewrite <- Zminus_mod_idemp_l, Zplus_mod_idemp_l, Zminus_mod_idemp_l.
  replace (w_off log - total_size rs + i - w_off log) with (i - total_size rs) by lia.
  rewrite mod_sub_cases by lia. bcase E; lia.
Qed.

(** The header and the message of a record, as the four copies of
    [logger_write_iter] put them in the ring. *)
Lemma ring_append log h d b1 b2 b3 b4 :
  log_shape log → zlen h = 24 → zlen d ≤ 4076 →
  let sz := size log in
  let l1 := Z.min 24 (sz - w_off log) in
  let w := (w_off log + 24) mod sz in
  let l2 := Z.min (zlen d) (sz - w) in
  mem_write (buffer log) (w_off log) (take (Z.to_nat l1) h) = Some b1 →
  mem_write b1 0 (drop (Z.to_nat l1) h) = Some b2 →
  mem_write b2 w (take (Z.to_nat l2) d) = Some b3 →
  mem_write b3 0 (drop (Z.to_nat l2) d) = Some b4 →
  zlen b4 = sz ∧ ∀ i, 0 ≤ i < 24 + zlen d → rget b4 sz (w_off log + i) = mget (h ++ d) i.
Proof.
  intros Hs Hh Hd sz l1 w l2 H1 H2 H3 H4. pose proof (shape_size _ Hs).
  pose proof (shape_w_off _ Hs) as Hw.
  pose proof (Z.mod_pos_bound (w_off log + 24) sz ltac:(lia)) as Hw'. fold w in Hw'.
  unfold l1 in *. rewrite <- Hh in H1, H2.
  destruct (ring_write_split (buffer log) sz (w_off log) h b1 b2) as [Hz2 G2];
    [apply Hs|done|lia|done|done|].
  destruct (ring_write_split b2 sz w d b3 b4) as [Hz4 G4]; [done|done|lia|done|done|].
  split; [done|]. intros i Hi. rewrite G4, G2, mget_app, Hh.
  assert ((w_off log + i - w) mod sz = if i <? 24 then i - 24 + sz else i - 24) as ->.
  { unfold w. rewrite Zminus_mod_idemp_r.
    replace (w_off log + i - (w_off log + 24)) with (i - 24) by lia. apply mod_sub_cases; lia. }
  fold sz. replace (w_off log + i - w_off log) with i by lia. rewrite (Z.mod_small i) by lia.
  destruct (Z.ltb_spec i 24).
  - bcase E; [lia|done].
  - bcase E; [done|lia].
Qed.

(** The record a successful write appends. *)
Definition written (c : write_context) (from : iov_iter) : log_record :=
  let count := Z.min (iov_count from) LOGGER_ENTRY_MAX_PAYLOAD in
  {| lr_hdr := make_header c count; lr_msg := take (Z.to_nat count) (iov_bytes from) |}.

(** An iterator as the VFS hands it over: the count is nonnegative and bounds
    what can be copied. *)
Definition wf_iter (from : iov_iter) : Prop := 0 ≤ iov_count from ∧ zlen (iov_bytes from) ≤ iov_count from.

Definition wanted (from : iov_iter) : Z := Z.min (iov_count from) LOGGER_ENTRY_MAX_PAYLOAD.

Lemma wf_written c from :
  wf_iter from → 0 < iov_count from → wanted from ≤ zlen (iov_bytes from) →
  wf_record (written c from).
Proof.
  intros [Hc _] Hpos Hw. unfold written, wanted, LOGGER_ENTRY_MAX_PAYLOAD in *.
  assert (0 < Z.min (iov_count from) 4076 ≤ 4076) by lia.
  constructor; unfold make_header; cbn [lr_hdr lr_msg e_len e_hdr_size e_pid e_tid e_sec e_nsec e_euid];
    unfold LOGGER_ENTRY_MAX_PAYLOAD; rewrite ?length_take.
  - rewrite wrap_small by lia. lia.
  - lia.
  - done.
  - apply (signed_range 32). lia.
  - apply (signed_range 32). lia.
  - apply (signed_range 32). lia.
  - apply (signed_range 32). lia.
  - apply wrap_range. lia.
Qed.

(** The position after an appended record. *)
Lemma pending_append log x rs r b :
  log_shape log → pending log x rs → wf_record r → total_size rs + rec_size r < size log →
  seg (rget b (size log)) x (total_size rs) = serialize rs →
  (∀ i, 0 ≤ i < rec_size r → rget b (size log) (w_off log + i) = mget (rec_bytes r) i) →
  pending (set_w_off (set_buffer log b) ((w_off log + rec_size r) mod size log)) x (rs ++ [r]).
Proof.
  intros Hs Hp Hr Ht Hb Ha. pose proof (shape_size _ Hs). pose proof (total_size_nonneg rs).
  pose proof (rec_size_bounds _ Hr).
  constructor; cbn [set_w_off set_buffer size buffer w_off];
    rewrite ?total_size_app, ?total_size_cons, ?total_size_nil, ?Z.add_0_r.
  - apply Forall_app. split; [apply Hp|by constructor].
  - done.
  - rewrite (pd_pos _ _ _ Hp), Zminus_mod_idemp_l. f_equal. lia.
  - rewrite seg_app, Hb, serialize_app by lia. f_equal.
    change (serialize [r]) with (rec_bytes r ++ []). rewrite app_nil_r.
    rewrite <- (seg_mget_all (rec_bytes r)), zlen_rec_bytes. apply seg_ext. intros i Hi.
    rewrite <- Ha by lia. rewrite (pd_pos _ _ _ Hp). unfold rget. f_equal.
    rewrite <- Z.add_assoc, Zplus_mod_idemp_l. f_equal. lia.
Qed.

(** The header copies succeed and touch only the 24 bytes after the head. *)
Lemma header_copies log h len :
  log_shape log → zlen h = 24 → 24 ≤ len ≤ size log →
  let l1 := Z.min 24 (size log - w_off log) in
  ∃ b1 b2, mem_write (buffer log) (w_off log) (take (Z.to_nat l1) h) = Some b1 ∧
    mem_write b1 0 (drop (Z.to_nat l1) h) = Some b2 ∧
    untouched (size log) (w_off log) len (buffer log) b2.
Proof.
  intros Hs Hh Hl l1. pose proof (shape_size _ Hs). pose proof (shape_w_off _ Hs) as Hw.
  pose proof (shape_buffer _ Hs) as Hb.
  assert (zlen (take (Z.to_nat l1) h) = l1) as Ht by (rewrite length_take; lia).
  assert (zlen (drop (Z.to_nat l1) h) = 24 - l1) as Hd by (rewrite length_drop; lia).
  destruct (mem_write_Some (buffer log) (w_off log) (take (Z.to_nat l1) h)) as [b1 H1]; [lia|lia|].
  assert (untouched (size log) (w_off log) len (buffer log) b1) as U1.
  { apply (untouched_write _ _ _ _ (w_off log) (take (Z.to_nat l1) h)); [done..|lia|lia|done]. }
  destruct (U1) as [Hz1 _].
  destruct (mem_write_Some b1 0 (drop (Z.to_nat l1) h)) as [b2 H2]; [lia|lia|].
  exists b1, b2. split_and!; [done..|]. apply (untouched_trans _ _ _ _ b1); [done|].
  apply (untouched_write _ _ _ _ 0 (drop (Z.to_nat l1) h)); [done..|lia|lia|done].
Qed.

(** The offsets [logger_write_iter] works with, without the width reductions. *)
Lemma write_unfold log c from :
  wf_iter from → 0 < iov_count from →
  logger_write_iter log c from =
    let count := wanted from in
    let header := make_header c count in
    log ← fix_up_readers log (24 + count);
    let len := Z.min 24 (u32 (size log - w_off log)) in
    b ← mem_write (buffer log) (w_off log) (take (Z.to_nat len) (entry_bytes header));
    b ← mem_write b 0 (drop (Z.to_nat len) (entry_bytes header));
    let w := logger_offset log (w_off log + 24) in
    let len := Z.min count (u32 (size log - w)) in
    '(copied, b, from) ← copy_from_iter b w len from;
    if negb (copied =? len) then Some (- EFAULT, set_buffer log b) else
    '(copied, b, from) ← copy_from_iter b 0 (count - len) from;
    if negb (copied =? count - len) then Some (- EFAULT, set_buffer log b) else
    Some (len, set_w_off (set_buffer log b) (logger_offset log (w + count))).
Proof.
  intros [Hc _] Hpos. unfold logger_write_iter. fold (wanted from).
  assert (e_len (make_header c (wanted from)) = wanted from) as ->.
  { cbn [make_header e_len]. apply wrap_small. unfold wanted, LOGGER_ENTRY_MAX_PAYLOAD. lia. }
  unfold wanted, LOGGER_ENTRY_MAX_PAYLOAD. bcase E; [lia|]. done.
Qed.

(** The message copies succeed and stay within the record. *)
Lemma payload_copy1 log b d n :
  log_shape log → zlen b = size log → 0 ≤ n ≤ 4076 →
  let w := (w_off log + 24) mod size log in
  zlen d ≤ Z.min n (size log - w) →
  ∃ b', mem_write b w d = Some b' ∧ untouched (size log) (w_off log) (24 + n) b b'.
Proof.
  intros Hs Hb Hn w Hd. pose proof (shape_size _ Hs). pose proof (shape_w_off _ Hs) as Hw.
  assert (w = if w_off log + 24 <? size log then w_off log + 24 else w_off log + 24 - size log) as Ew
    by (apply mod_add_cases; lia).
  destruct (Z.ltb_spec (w_off log + 24) (size log));
    (destruct (mem_write_Some b w d) as [b' E]; [lia|lia|]; exists b'; split; [done|];
     apply (untouched_write _ _ _ _ w d); [done..|lia|lia|done]).
Qed.

Lemma payload_copy2 log b d n :
  log_shape log → zlen b = size log → 0 ≤ n ≤ 4076 →
  let w := (w_off log + 24) mod size log in
  zlen d ≤ n - Z.min n (size log - w) →
  ∃ b', mem_write b 0 d = Some b' ∧ untouched (size log) (w_off log) (24 + n) b b'.
Proof.
  intros Hs Hb Hn w Hd. pose proof (shape_size _ Hs). pose proof (shape_w_off _ Hs) as Hw.
  assert (w = if w_off log + 24 <? size log then w_off log + 24 else w_off log + 24 - size log) as Ew
    by (apply mod_add_cases; lia).
  destruct (Z.ltb_spec (w_off log + 24) (size log));
    (destruct (mem_write_Some b 0 d) as [b' E]; [lia|lia|]; exists b'; split; [done|];
     apply (untouched_write _ _ _ _ 0 d); [done..|lia|lia|done]).
Qed.

(** Every list of an abstraction leaves room for [len] more bytes. *)
Definition roomy (sz len : Z) (hrs : list log_record) (rrs : list (list log_record)) : Prop :=
  Forall (λ rs, total_size rs + len < sz) (hrs :: rrs).

Lemma lap_roomy log len hrs rrs :
  log_repr log hrs rrs → 0 < len ≤ 4100 →
  roomy (size log) len (lap (size log) len hrs) (lap (size log) len <$> rrs).
Proof.
  intros [Hs Hh Hr] Hl. constructor; [by eapply lap_room|].
  induction Hr as [|r rs rds rrs Hp Hr IH]; constructor; [by eapply lap_room|done].
Qed.

(** Rewrites every pending list of an abstraction. *)
Lemma repr_map log log' (f : list log_record → list log_record) hrs rrs :
  log_repr log hrs rrs → log_shape log' → head log' = head log → readers log' = readers log →
  (∀ x rs, rs ∈ hrs :: rrs → pending log x rs → pending log' x (f rs)) →
  log_repr log' (f hrs) (f <$> rrs).
Proof.
  intros [Hs Hh Hr] Hs' Eh Er Hf. constructor; [done|rewrite Eh; apply Hf; [set_solver|done]|].
  rewrite Er. clear Er Eh Hh. induction Hr as [|r rs rds rrs Hp Hr IH]; constructor.
  - apply Hf; [set_solver|done].
  - apply IH. intros x rs' Hin. apply Hf. rewrite !elem_of_cons in *. tauto.
Qed.

(** Touching only the bytes after the write head keeps the abstraction. *)
Lemma repr_touched log b len hrs rrs :
  log_repr log hrs rrs → roomy (size log) len hrs rrs → 0 < len →
  untouched (size log) (w_off log) len (buffer log) b →
  log_repr (set_buffer log b) hrs rrs.
Proof.
  intros HR Hroom Hl U. pose proof (repr_shape _ _ _ HR) as Hs.
  rewrite <- (list_fmap_id rrs). apply (repr_map log _ id); [done| |done|done|].
  - destruct Hs. constructor; [done|apply U|done|done].
  - intros x rs Hin Hp. constructor; [apply Hp..|]. cbn [set_buffer size buffer].
    unfold roomy in Hroom. rewrite Forall_forall in Hroom. specialize (Hroom _ Hin). cbn beta in Hroom.
    apply (pending_untouched log _ _ _ len); [done|done|lia|unfold id; lia|done].
Qed.

(** Filling those bytes with the image of a record appends it. *)
Lemma repr_appended log b r hrs rrs :
  log_repr log hrs rrs → roomy (size log) (rec_size r) hrs rrs → wf_record r →
  untouched (size log) (w_off log) (rec_size r) (buffer log) b →
  (∀ i, 0 ≤ i < rec_size r → rget b (size log) (w_off log + i) = mget (rec_bytes r) i) →
  log_repr (set_w_off (set_buffer log b) ((w_off log + rec_size r) mod size log))
           (hrs ++ [r]) ((λ rs, rs ++ [r]) <$> rrs).
Proof.
  intros HR Hroom Hr U Ha. pose proof (repr_shape _ _ _ HR) as Hs.
  pose proof (rec_size_bounds _ Hr). pose proof (shape_size _ Hs).
  apply (repr_map log _ (λ rs, rs ++ [r])); [done| |done|done|].
  - destruct Hs. constructor; [done|apply U| |done]. cbn. apply Z.mod_pos_bound. lia.
  - intros x rs Hin Hp. unfold roomy in Hroom. rewrite Forall_forall in Hroom.
    specialize (Hroom _ Hin). cbn beta in Hroom. apply pending_append; [done..| |done].
    apply (pending_untouched log _ _ _ (rec_size r)); [done|done|lia|lia|done].
Qed.

(** Unfolds one bind whose computation is known. *)
Ltac run E := rewrite E; cbn [mbind option_bind].

(** The state in which [logger_write_iter] starts copying the message. *)
Lemma write_start log c from hrs rrs :
  log_repr log hrs rrs → wf_iter from → 0 < iov_count from →
  let n := wanted from in
  let w := (w_off log + 24) mod size log in
  let len := Z.min n (size log - w) in
  ∃ log1 b1 b2,
    size log1 = size log ∧ w_off log1 = w_off log ∧
    log_repr log1 (lap (size log) (24 + n) hrs) (lap (size log) (24 + n) <$> rrs) ∧
    let h := entry_bytes (make_header c n) in
    let l1 := Z.min 24 (size log1 - w_off log1) in
    mem_write (buffer log1) (w_off log1) (take (Z.to_nat l1) h) = Some b1 ∧
    mem_write b1 0 (drop (Z.to_nat l1) h) = Some b2 ∧
    untouched (size log1) (w_off log1) (24 + n) (buffer log1) b2 ∧
    logger_write_iter log c from =
      '(copied, b, from) ← copy_from_iter b2 w len from;
      if negb (copied =? len) then Some (- EFAULT, set_buffer log1 b) else
      '(copied, b, from) ← copy_from_iter b 0 (n - len) from;
      if negb (copied =? n - len) then Some (- EFAULT, set_buffer log1 b) else
      Some (len, set_w_off (set_buffer log1 b) ((w_off log1 + (24 + n)) mod size log1)).
Proof.
  intros HR Hi Hpos n w len. pose proof (repr_shape _ _ _ HR) as Hs.
  pose proof (shape_size _ Hs) as Hsz.
  assert (0 < n ≤ 4076) as Hn by (unfold n, wanted, LOGGER_ENTRY_MAX_PAYLOAD; lia).
  rewrite write_unfold by done. cbv zeta. fold n.
  destruct (fix_up_readers_repr log (24 + n) hrs rrs HR ltac:(lia))
    as (log1 & Efix & Hb1 & Hw1 & Hz1 & HR1). run Efix.
  pose proof (repr_shape _ _ _ HR1) as Hs1. pose proof (shape_w_off _ Hs1) as Hwr.
  set (h := entry_bytes (make_header c n)).
  assert (zlen h = 24) as Hh by (unfold h; by rewrite length_entry_bytes).
  rewrite (wrap_small 32 (size log1 - w_off log1)) by lia.
  destruct (header_copies log1 h (24 + n) Hs1 Hh ltac:(lia)) as (b1 & b2 & E1 & E2 & U2).
  exists log1, b1, b2. split_and!; [done..|]. run E1. run E2.
  rewrite !logger_offset_mod, Hw1, Hz1 by done. fold w.
  pose proof (Z.mod_pos_bound (w_off log + 24) (size log) ltac:(lia)) as Hwb. fold w in Hwb.
  rewrite (wrap_small 32 (size log - w)) by lia.
  assert ((w + n) mod size log = (w_off log + (24 + n)) mod size log) as ->; [|done].
  unfold w. rewrite Zplus_mod_idemp_l. f_equal. lia.
Qed.

Lemma write_success log c from hrs rrs :
  log_repr log hrs rrs → wf_iter from → 0 < iov_count from →
  wanted from ≤ zlen (iov_bytes from) →
  let w := (w_off log + 24) mod size log in
  let app rs := lap (size log) (24 + wanted from) rs ++ [written c from] in
  ∃ log', logger_write_iter log c from = Some (Z.min (wanted from) (size log - w), log') ∧
    size log' = size log ∧ w_off log' = (w_off log + (24 + wanted from)) mod size log ∧
    log_repr log' (app hrs) (app <$> rrs).
Proof.
  intros HR Hi Hpos Hfull w app. pose proof (repr_shape _ _ _ HR) as Hs.
  pose proof (shape_size _ Hs) as Hsz. set (n := wanted from) in *.
  assert (0 < n ≤ 4076) as Hn by (unfold n, wanted, LOGGER_ENTRY_MAX_PAYLOAD; lia).
  destruct (write_start log c from hrs rrs HR Hi Hpos)
    as (log1 & b1 & b2 & Hz1 & Hw1 & HR1 & E1 & E2 & U2 & ->).
  pose proof (repr_shape _ _ _ HR1) as Hs1. fold n w. fold n in HR1, U2, E1, E2.
  pose proof (Z.mod_pos_bound (w_off log + 24) (size log) ltac:(lia)) as Hwb. fold w in Hwb.
  set (len := Z.min n (size log - w)). set (d := take (Z.to_nat n) (iov_bytes from)).
  assert (zlen d = n) as Hd by (unfold d; rewrite length_take; lia).
  assert ((w_off log1 + 24) mod size log1 = w) as Ew by (unfold w; by rewrite Hw1, Hz1).
  unfold copy_from_iter. rewrite Z.min_l by lia.
  assert (take (Z.to_nat len) (iov_bytes from) = take (Z.to_nat len) d) as ->.
  { unfold d. rewrite take_take. f_equal. lia. }
  destruct (payload_copy1 log1 b2 (take (Z.to_nat len) d) n Hs1 (proj1 U2) ltac:(lia))
    as (b3 & E3 & U3); [rewrite length_take, Ew; lia|]. rewrite Ew in E3. run E3.
  rewrite Z.eqb_refl. cbn [negb iov_bytes iov_count].
  rewrite Z.min_l by (rewrite length_drop; lia).
  assert (take (Z.to_nat (n - len)) (drop (Z.to_nat len) (iov_bytes from)) = drop (Z.to_nat len) d) as ->.
  { unfold d. rewrite skipn_firstn_comm. f_equal. lia. }
  destruct (payload_copy2 log1 b3 (drop (Z.to_nat len) d) n Hs1 (proj1 U3) ltac:(lia))
    as (b4 & E4 & U4); [rewrite length_drop, Ew; lia|]. run E4.
  rewrite Z.eqb_refl. cbn [negb]. eexists. split; [done|]. split; [done|].
  split; [cbn [set_w_off w_off]; by rewrite Hw1, Hz1|].
  assert (rec_size (written c from) = 24 + n) as Hrs.
  { unfold rec_size, written. cbn [lr_msg]. fold (wanted from). fold n d.
    unfold sizeof_logger_entry. lia. }
  assert (app <$> rrs = (λ rs, rs ++ [written c from]) <$> (lap (size log) (24 + n) <$> rrs)) as ->
    by (rewrite <- list_fmap_compose; done).
  rewrite <- Hrs at 1. apply repr_appended; [done| |by apply wf_written| |].
  - rewrite Hz1, Hrs. apply lap_roomy; [done|lia].
  - rewrite Hrs. eapply untouched_trans; [exact U2|]. by eapply untouched_trans.
  - assert (zlen (entry_bytes (make_header c n)) = 24) as Hh by by rewrite length_entry_bytes.
    assert (Z.min (zlen d) (size log1 - (w_off log1 + 24) mod size log1) = len) as El
      by (rewrite Hd, Ew, Hz1; done).
    rewrite Hrs. intros i Hir.
    destruct (ring_append log1 (entry_bytes (make_header c n)) d b1 b2 b3 b4) as [_ G];
      rewrite ?El, ?Ew; [done|done|lia|done..|].
    by rewrite G by lia.
Qed.

(** A write whose source faults is abandoned: the write head stays, and apart
    from the records dropped to make room nothing is lost. *)
Lemma write_fault log c from hrs rrs :
  log_repr log hrs rrs → wf_iter from → 0 < iov_count from →
  zlen (iov_bytes from) < wanted from →
  ∃ log', logger_write_iter log c from = Some (- EFAULT, log') ∧
    w_off log' = w_off log ∧ size log' = size log ∧
    log_repr log' (lap (size log) (24 + wanted from) hrs)
                  (lap (size log) (24 + wanted from) <$> rrs).
Proof.
  intros HR Hi Hpos Hshort. pose proof (repr_shape _ _ _ HR) as Hs.
  pose proof (shape_size _ Hs) as Hsz. set (n := wanted from) in *.
  assert (0 < n ≤ 4076) as Hn by (unfold n, wanted, LOGGER_ENTRY_MAX_PAYLOAD; lia).
  pose proof (lap_roomy log (24 + n) hrs rrs HR ltac:(lia)) as Hroom.
  destruct (write_start log c from hrs rrs HR Hi Hpos)
    as (log1 & b1 & b2 & Hz1 & Hw1 & HR1 & _ & _ & U2 & ->).
  pose proof (repr_shape _ _ _ HR1) as Hs1. fold n. fold n in HR1, U2.
  set (w := (w_off log + 24) mod size log). set (len := Z.min n (size log - w)).
  pose proof (Z.mod_pos_bound (w_off log + 24) (size log) ltac:(lia)) as Hwb. fold w in Hwb.
  assert ((w_off log1 + 24) mod size log1 = w) as Ew by (unfold w; by rewrite Hw1, Hz1).
  assert (∀ b, untouched (size log1) (w_off log1) (24 + n) (buffer log1) b →
    log_repr (set_buffer log1 b) (lap (size log) (24 + n) hrs) (lap (size log) (24 + n) <$> rrs)) as Hk.
  { intros b U. eapply repr_touched; [done|by rewrite Hz1|lia|done]. }
  unfold copy_from_iter. set (k := Z.min len _). set (d := take (Z.to_nat k) (iov_bytes from)).
  assert (zlen d = k) as Hd by (unfold d; rewrite length_take; lia).
  destruct (payload_copy1 log1 b2 d n Hs1 (proj1 U2) ltac:(lia)) as (b3 & E3 & U3);
    [rewrite Ew; lia|]. rewrite Ew in E3. run E3.
  pose proof (untouched_trans _ _ _ _ _ _ U2 U3) as U23. bcase Ek; [by eexists; split_and!; [done..|]; apply Hk|].
  cbn [iov_bytes iov_count]. set (k2 := Z.min (n - len) _). set (d2 := take (Z.to_nat k2) _).
  assert (k2 < n - len) as Hk2 by (unfold k2; rewrite length_drop; lia).
  assert (zlen d2 ≤ n - len) as Hd2 by (unfold d2; rewrite length_take; lia).
  destruct (payload_copy2 log1 b3 d2 n Hs1 (proj1 U3) ltac:(lia)) as (b4 & E4 & U4);
    [rewrite Ew; lia|]. run E4.
  bcase Ek2; [|lia]. eexists. split_and!; [done..|]. apply Hk. by eapply untouched_trans.
Qed.

Lemma write_empty log c from :
  iov_count from = 0 → logger_write_iter log c from = Some (0, log).
Proof. intros H. unfold logger_write_iter. by rewrite H. Qed.
