(* ===== verification/LoggerDev.v ===== *)
(** * The Android logger driver: the file operations

    [open], [release], [read], [write], [poll] and [ioctl] of
    [patches/kernel/logger.c], and the creation and removal of the logs.  The
    state is the driver's [log_list] together with the open files.  Each
    operation runs with [log->mutex] held, so operations are steps on this
    state.  What the kernel supplies (allocation, [misc_register], capability
    checks, user memory) is an argument of the operation. *)
From S2P Require Import Prelude Logger LoggerSpec.
Import Errno.

(** ** State *)

(** A node of [log_list]; [freed] marks memory handed back with [kfree]. *)
Record log_node := Node { n_log : logger_log; n_freed : bool }.

(** A [struct file] of the driver: its mode, its flags, the log it belongs to
    (the node's index) and, when open for reading, its [logger_reader]. *)
Record file := File {
  f_read : bool;        (* f_mode & FMODE_READ *)
  f_write : bool;       (* f_mode & FMODE_WRITE *)
  f_nonblock : bool;    (* f_flags & O_NONBLOCK *)
  f_log : nat;
  f_reader : nat;
}.

Record logger_sys := Sys {
  log_list : list log_node;
  open_files : list (option file);
  next_reader : nat;
}.

Definition set_log_list (st : logger_sys) (l : list log_node) : logger_sys :=
  {| log_list := l; open_files := open_files st; next_reader := next_reader st |}.

(** Dereference of a pointer to a log: a fault when the log was freed. *)
Definition deref_log (st : logger_sys) (i : nat) : option logger_log :=
  n ← log_list st !! i; if n_freed n then None else Some (n_log n).

Definition update_log (st : logger_sys) (i : nat) (log : logger_log) : logger_sys :=
  set_log_list st (<[i := {| n_log := log; n_freed := false |}]> (log_list st)).

(** [file->private_data] of a file open for reading. *)
Definition find_reader (log : logger_log) (id : nat) : option logger_reader :=
  list_find (λ r, r_id r = id) (readers log) ≫= λ p, Some p.2.

Definition set_reader (log : logger_log) (r : logger_reader) : logger_log :=
  set_positions log (head log)
    ((λ r', if decide (r_id r' = r_id r) then r else r') <$> readers log).

(** ** [logger_open] and [logger_release] *)

(** [get_log_from_minor]: the walk over [log_list] reads every node it visits. *)
Fixpoint get_log_from_minor (nodes : list log_node) (i : nat) (minor : Z) : option (option nat) :=
  match nodes with
  | [] => Some None
  | n :: nodes =>
      if n_freed n then None
      else if misc_minor (n_log n) =? minor then Some (Some i)
      else get_log_from_minor nodes (S i) minor
  end.

(** What [logger_open] gets from the kernel. *)
Record open_env := OpenEnv {
  oe_nonseekable : Z;      (* nonseekable_open() *)
  oe_kmalloc : bool;       (* did kmalloc() succeed *)
  oe_privileged : bool;    (* in_egroup_p(inode->i_gid) || capable(CAP_SYSLOG) *)
}.

Definition logger_open (st : logger_sys) (minor : Z) (rd wr nonblock : bool) (env : open_env)
    : option (Z * logger_sys) :=
  if truthy (oe_nonseekable env) then Some (oe_nonseekable env, st) else
  found ← get_log_from_minor (log_list st) 0 minor;
  match found with
  | None => Some (- ENODEV, st)
  | Some i =>
      if rd then
        if negb (oe_kmalloc env) then Some (- ENOMEM, st) else
        log ← deref_log st i;
        let id := next_reader st in
        let reader := {| r_id := id; r_off := head log; r_all := oe_privileged env; r_ver := 1 |} in
        let st := update_log st i (set_positions log (head log) (readers log ++ [reader])) in
        Some (0, {| log_list := log_list st;
                    open_files := open_files st ++
                      [Some {| f_read := true; f_write := wr; f_nonblock := nonblock;
                               f_log := i; f_reader := id |}];
                    next_reader := S id |})
      else
        Some (0, {| log_list := log_list st;
                    open_files := open_files st ++
                      [Some {| f_read := false; f_write := wr; f_nonblock := nonblock;
                               f_log := i; f_reader := 0 |}];
                    next_reader := next_reader st |})
  end.

Definition logger_release (st : logger_sys) (fd : nat) (f : file) : option (Z * logger_sys) :=
  st ← (if f_read f then
          log ← deref_log st (f_log f);
          r ← find_reader log (f_reader f);
          Some (update_log st (f_log f)
                  (set_positions log (head log) (filter (λ r', r_id r' ≠ r_id r) (readers log))))
        else Some st);
  Some (0, {| log_list := log_list st; open_files := <[fd := None]> (open_files st);
              next_reader := next_reader st |}).

(** ** [logger_read], [logger_write_iter] and [logger_poll] on a file *)

Definition file_read (st : logger_sys) (f : file) (signal_pending : bool) (euid : Z)
    (ubuf : list Z) (count : Z) : option (read_outcome * logger_sys) :=
  log ← deref_log st (f_log f);
  reader ← find_reader log (f_reader f);
  '(out, reader) ← logger_read log reader (f_nonblock f) signal_pending euid ubuf count;
  Some (out, update_log st (f_log f) (set_reader log reader)).

Definition file_write (st : logger_sys) (f : file) (c : write_context) (from : iov_iter)
    : option (Z * logger_sys) :=
  log ← deref_log st (f_log f);
  '(ret, log) ← logger_write_iter log c from;
  Some (ret, update_log st (f_log f) log).

(** The poll mask as booleans: [POLLOUT | POLLWRNORM] is always set, the
    result is whether [POLLIN | POLLRDNORM] is. *)
Definition logger_poll (st : logger_sys) (f : file) (euid : Z) : option (bool * logger_sys) :=
  if negb (f_read f) then Some (false, st) else
  log ← deref_log st (f_log f);
  reader ← find_reader log (f_reader f);
  reader ← skip_unreadable log reader euid;
  Some (negb (w_off log =? r_off reader), update_log st (f_log f) (set_reader log reader)).

(** ** [logger_ioctl] *)

Inductive logger_cmd :=
| LOGGER_GET_LOG_BUF_SIZE
| LOGGER_GET_LOG_LEN
| LOGGER_GET_NEXT_ENTRY_LEN
| LOGGER_FLUSH_LOG
| LOGGER_GET_VERSION
| LOGGER_SET_VERSION (arg : option Z)   (* the user int, None when it cannot be read *)
| LOGGER_OTHER_CMD.

Definition logger_set_version (reader : logger_reader) (arg : option Z) : Z * logger_reader :=
  match arg with
  | None => (- EFAULT, reader)
  | Some version =>
      if (version <? 1) || (2 <? version) then (- EINVAL, reader)
      else (0, {| r_id := r_id reader; r_off := r_off reader; r_all := r_all reader;
                  r_ver := version |})
  end.

(** [LOGGER_GET_LOG_LEN]: the bytes between the reader and the write head. *)
Definition log_len (log : logger_log) (reader : logger_reader) : Z :=
  if r_off reader <=? w_off log then w_off log - r_off reader
  else (size log - r_off reader) + w_off log.

(** [LOGGER_FLUSH_LOG]: every reader and the start head jump to the write head. *)
Definition flush_log (log : logger_log) : logger_log :=
  set_positions log (w_off log) ((λ r, set_r_off r (w_off log)) <$> readers log).

Definition logger_ioctl (st : logger_sys) (f : file) (cmd : logger_cmd) (euid : Z)
    (privileged : bool) : option (Z * logger_sys) :=
  log ← deref_log st (f_log f);
  let with_reader (k : logger_reader → option (Z * logger_sys)) :=
    if negb (f_read f) then Some (- EBADF, st)
    else r ← find_reader log (f_reader f); k r in
  match cmd with
  | LOGGER_GET_LOG_BUF_SIZE => Some (size log, st)
  | LOGGER_GET_LOG_LEN => with_reader (λ reader, Some (log_len log reader, st))
  | LOGGER_GET_NEXT_ENTRY_LEN =>
      with_reader (λ reader,
        reader ← skip_unreadable log reader euid;
        ret ← (if negb (w_off log =? r_off reader) then
                 m ← get_entry_msg_len log (r_off reader);
                 Some (get_user_hdr_len (r_ver reader) + m)
               else Some 0);
        Some (ret, update_log st (f_log f) (set_reader log reader)))
  | LOGGER_FLUSH_LOG =>
      if negb (f_write f) then Some (- EBADF, st)
      else if negb privileged then Some (- EPERM, st)
      else Some (0, update_log st (f_log f) (flush_log log))
  | LOGGER_GET_VERSION => with_reader (λ reader, Some (r_ver reader, st))
  | LOGGER_SET_VERSION arg =>
      with_reader (λ reader,
        let '(ret, reader) := logger_set_version reader arg in
        Some (ret, update_log st (f_log f) (set_reader log reader)))
  | LOGGER_OTHER_CMD => Some (- EINVAL, st)
  end.

(** ** [create_log], [logger_init] and [logger_exit] *)

(** What [create_log] gets from the kernel: the contents of the [vmalloc]ed
    buffer ([None] when it fails), whether the two other allocations succeed,
    the result of [misc_register] and the minor it assigns. *)
Record create_env := CreateEnv {
  ce_vmalloc : option (Z → Z);
  ce_kzalloc : bool;
  ce_kstrdup : bool;
  ce_misc_register : Z;
  ce_minor : Z;
}.

Definition create_log (st : logger_sys) (name : list Z) (sz : Z) (env : create_env)
    : Z * logger_sys :=
  match ce_vmalloc env with
  | None => (- ENOMEM, st)
  | Some junk =>
      if negb (ce_kzalloc env) then (- ENOMEM, st)
      else if negb (ce_kstrdup env) then (- ENOMEM, st)
      else
        let log := {| buffer := seg junk 0 sz; misc_minor := ce_minor env; misc_name := name;
                      readers := []; w_off := 0; head := 0; size := sz |} in
        if truthy (ce_misc_register env) then
          (* out_free_misc_name: the log is freed, but still on log_list *)
          (ce_misc_register env,
           set_log_list st (log_list st ++ [{| n_log := log; n_freed := true |}]))
        else
          (0, set_log_list st (log_list st ++ [{| n_log := log; n_freed := false |}]))
  end.

(** ["log_main"], ["log_events"], ["log_radio"], ["log_system"]. *)
Definition LOGGER_LOG_MAIN : list Z := [108; 111; 103; 95; 109; 97; 105; 110].
Definition LOGGER_LOG_EVENTS : list Z := [108; 111; 103; 95; 101; 118; 101; 110; 116; 115].
Definition LOGGER_LOG_RADIO : list Z := [108; 111; 103; 95; 114; 97; 100; 105; 111].
Definition LOGGER_LOG_SYSTEM : list Z := [108; 111; 103; 95; 115; 121; 115; 116; 101; 109].

Definition logger_init (st : logger_sys) (e1 e2 e3 e4 : create_env) : Z * logger_sys :=
  let '(ret, st) := create_log st LOGGER_LOG_MAIN (256 * 1024) e1 in
  if truthy ret then (ret, st) else
  let '(ret, st) := create_log st LOGGER_LOG_EVENTS (256 * 1024) e2 in
  if truthy ret then (ret, st) else
  let '(ret, st) := create_log st LOGGER_LOG_RADIO (256 * 1024) e3 in
  if truthy ret then (ret, st) else
  create_log st LOGGER_LOG_SYSTEM (256 * 1024) e4.

(** [logger_exit]: every node is deregistered, unlinked and freed; visiting or
    freeing a node that was already freed is a fault. *)
Definition logger_exit (st : logger_sys) : option logger_sys :=
  if existsb n_freed (log_list st) then None else Some (set_log_list st []).

(** ** The driver as a transition system *)

Inductive logger_op :=
| OpOpen (minor : Z) (rd wr nonblock : bool) (env : open_env)
| OpRelease (fd : nat)
| OpRead (fd : nat) (signal_pending : bool) (euid : Z) (ubuf : list Z) (count : Z)
| OpWrite (fd : nat) (c : write_context) (from : iov_iter)
| OpPoll (fd : nat) (euid : Z)
| OpIoctl (fd : nat) (cmd : logger_cmd) (euid : Z) (privileged : bool).

Definition open_file (st : logger_sys) (fd : nat) : option file := open_files st !! fd ≫= id.

(** One system call on the driver.  The VFS turns away calls on files that are
    not open, reads on files not open for reading and writes on files not open
    for writing before they reach the driver ([Some st]). *)
Definition logger_step (st : logger_sys) (op : logger_op) : option logger_sys :=
  match op with
  | OpOpen minor rd wr nb env => p ← logger_open st minor rd wr nb env; Some p.2
  | OpRelease fd =>
      match open_file st fd with
      | Some f => p ← logger_release st fd f; Some p.2
      | None => Some st
      end
  | OpRead fd sig euid ubuf count =>
      match open_file st fd with
      | Some f => if f_read f then p ← file_read st f sig euid ubuf count; Some p.2 else Some st
      | None => Some st
      end
  | OpWrite fd c from =>
      match open_file st fd with
      | Some f => if f_write f then p ← file_write st f c from; Some p.2 else Some st
      | None => Some st
      end
  | OpPoll fd euid =>
      match open_file st fd with
      | Some f => p ← logger_poll st f euid; Some p.2
      | None => Some st
      end
  | OpIoctl fd cmd euid privileged =>
      match open_file st fd with
      | Some f => p ← logger_ioctl st f cmd euid privileged; Some p.2
      | None => Some st
      end
  end.
