(* ===== verification/LoggerInv.v ===== *)
(** * The Android logger driver: invariant and theorems

    The invariant of the whole driver, that every operation preserves it and
    never leaves the ring, and the properties of the driver stated on it. *)
From S2P Require Import Prelude Logger LoggerSpec LoggerDev.
Import Errno.

(** ** One log *)

(** Every position of the log, start head and readers alike, is at a record
    boundary with the whole records up to the write head behind it. *)
Record log_ok (log : logger_log) : Prop := {
  lok_shape : log_shape log;
  lok_head : ∃ rs, pending log (head log) rs;
  lok_readers : ∀ r, r ∈ readers log → ∃ rs, pending log (r_off r) rs;
}.

Lemma log_ok_repr log : log_ok log ↔ ∃ hrs rrs, log_repr log hrs rrs.
Proof.
  split.
  - intros [Hs [hrs Hh] Hr].
    assert (∃ rrs, Forall2 (λ r rs, pending log (r_off r) rs) (readers log) rrs) as [rrs HF].
    { clear Hh. induction (readers log) as [|r rds IH]; [by exists []|].
      destruct (Hr r) as [rs Hrs]; [set_solver|].
      destruct IH as [rrs HF]; [intros; apply Hr; set_solver|].
      exists (rs :: rrs). by constructor. }
    exists hrs, rrs. by constructor.
  - intros (hrs & rrs & [Hs Hh HF]). constructor; [done|by exists hrs|].
    intros r Hin. apply list_elem_of_lookup in Hin as [i Hi].
    destruct (Forall2_lookup_l _ _ _ _ _ HF Hi) as (rs & _ & Hp). by exists rs.
Qed.

(** Moving the start head and the readers keeps a log well-formed as long as
    each new position is. *)
Lemma log_ok_positions log h rs :
  log_ok log → (∃ hrs, pending log h hrs) →
  (∀ r, r ∈ rs → ∃ rrs, pending log (r_off r) rrs) → log_ok (set_positions log h rs).
Proof.
  intros [Hs _ _] [hrs Hh] Hr. constructor.
  - by apply (shape_frame log).
  - exists hrs. by apply (pending_frame log).
  - intros r Hin. destruct (Hr r Hin) as [rrs Hp]. exists rrs. by apply (pending_frame log).
Qed.

Definition reader_ids (log : logger_log) : list nat := r_id <$> readers log.

Lemma find_reader_Some log id :
  id ∈ reader_ids log → ∃ r, find_reader log id = Some r ∧ r ∈ readers log ∧ r_id r = id.
Proof.
  intros Hin. unfold reader_ids in Hin. apply list_elem_of_fmap in Hin as (r & -> & Hr).
  unfold find_reader. destruct (list_find_elem_of (λ r', r_id r' = r_id r) (readers log) r) as [[i r'] E];
    [done|done|].
  rewrite E. exists r'. apply list_find_Some in E as (Hi & Hid & _).
  split_and!; [done| |done]. by apply list_elem_of_lookup_2 in Hi.
Qed.

Lemma set_reader_ids log r : reader_ids (set_reader log r) = reader_ids log.
Proof.
  unfold reader_ids, set_reader. cbn [set_positions readers]. rewrite <- list_fmap_compose.
  apply list_fmap_ext. intros i r' _. simpl. case_decide; congruence.
Qed.

Lemma set_reader_ok log r rs :
  log_ok log → pending log (r_off r) rs → log_ok (set_reader log r).
Proof.
  intros Hok Hp. apply log_ok_positions; [done|apply Hok|].
  intros r' Hin. apply list_elem_of_fmap in Hin as (r'' & -> & Hin).
  case_decide; [by exists rs|]. by apply (lok_readers _ Hok).
Qed.

(** A write never adds, removes or reorders readers, and changes nothing of
    them but the offset. *)
Definition attrs (log : logger_log) : list logger_reader := (λ r, set_r_off r 0) <$> readers log.

Lemma fix_up_readers_attrs log len log' :
  fix_up_readers log len = Some log' → attrs log' = attrs log.
Proof.
  intros H. unfold fix_up_readers in H. obind H. obind H. injection H as <-.
  unfold attrs. cbn [set_positions readers]. apply mapM_Some in E0.
  induction E0 as [|r r' rs rs' Hr _ IH]; [done|]. cbn [fmap list_fmap]. rewrite IH. f_equal.
  obind Hr. by injection Hr as <-.
Qed.

Lemma logger_write_iter_attrs log c from ret log' :
  logger_write_iter log c from = Some (ret, log') → attrs log' = attrs log.
Proof.
  unfold logger_write_iter. intros H. destruct (_ =? 0); [by injection H as _ <-|].
  obind H. rewrite <- (fix_up_readers_attrs _ _ _ E). obind H. obind H. obind H.
  destruct p as [[copied b] from']. destruct (negb _); [by injection H as _ <-|].
  obind H. destruct p as [[copied2 b2] from2]. destruct (negb _); by injection H as _ <-.
Qed.

Lemma attrs_ids log : reader_ids log = r_id <$> attrs log.
Proof. unfold reader_ids, attrs. by rewrite <- list_fmap_compose. Qed.

Lemma logger_write_iter_ids log c from ret log' :
  logger_write_iter log c from = Some (ret, log') → reader_ids log' = reader_ids log.
Proof. intros H. by rewrite !attrs_ids, (logger_write_iter_attrs _ _ _ _ _ H). Qed.

Lemma attrs_lookup log log' i r :
  attrs log' = attrs log → readers log !! i = Some r →
  ∃ r', readers log' !! i = Some r' ∧ r' = set_r_off r (r_off r').
Proof.
  intros Ha Hr. assert (attrs log' !! i = Some (set_r_off r 0)) as H.
  { rewrite Ha. unfold attrs. by rewrite list_lookup_fmap, Hr. }
  unfold attrs in H. rewrite list_lookup_fmap in H. destruct (readers log' !! i) as [r'|]; [|done].
  exists r'. split; [done|]. destruct r, r'. cbn in H. injection H as -> -> ->. done.
Qed.

Lemma logger_write_iter_ok log c from :
  log_ok log → wf_iter from → ∃ ret log', logger_write_iter log c from = Some (ret, log') ∧ log_ok log'.
Proof.
  intros (hrs & rrs & HR)%log_ok_repr Hi. destruct (decide (iov_count from = 0)) as [H0|H0].
  { exists 0, log. rewrite write_empty by done. split; [done|]. apply log_ok_repr. eauto. }
  assert (0 < iov_count from) as Hpos by (destruct Hi; lia).
  destruct (Z_le_gt_dec (wanted from) (zlen (iov_bytes from))).
  - destruct (write_success log c from hrs rrs HR Hi Hpos) as (log' & -> & _ & _ & HR'); [done|].
    eexists _, log'. split; [done|]. apply log_ok_repr. eauto.
  - destruct (write_fault log c from hrs rrs HR Hi Hpos) as (log' & -> & _ & _ & HR'); [lia|].
    eexists _, log'. split; [done|]. apply log_ok_repr. eauto.
Qed.

Lemma read_result_pending log reader nb sig euid ubuf count rs out off :
  read_result log reader nb sig euid ubuf count rs out off → ∃ rs', pending log off rs'.
Proof.
  unfold read_result. destruct (readable reader euid rs) as [|r rest]; [intros [_ H]; eauto|].
  cbv zeta. repeat (let E := fresh "E" in bcase E); intros [_ H]; eauto.
Qed.

(** ** The whole driver *)

Record node_ok (next : nat) (n : log_node) : Prop := {
  nok_live : n_freed n = false;
  nok_log : log_ok (n_log n);
  nok_ids : NoDup (reader_ids (n_log n));
  nok_next : ∀ id, id ∈ reader_ids (n_log n) → (id < next)%nat;
}.

Record sys_ok (st : logger_sys) : Prop := {
  ok_nodes : ∀ i n, log_list st !! i = Some n → node_ok (next_reader st) n;
  ok_files : ∀ fd f, open_file st fd = Some f →
    ∃ n, log_list st !! f_log f = Some n ∧
         (f_read f = true → f_reader f ∈ reader_ids (n_log n));
  ok_distinct : ∀ fd fd' f f', open_file st fd = Some f → open_file st fd' = Some f' →
    f_read f = true → f_read f' = true → f_reader f = f_reader f' → fd = fd';
}.

(** A file's log can be dereferenced, and its reader is found. *)
Lemma sys_ok_log st fd f :
  sys_ok st → open_file st fd = Some f →
  ∃ log, deref_log st (f_log f) = Some log ∧ log_list st !! f_log f = Some (Node log false) ∧
    log_ok log ∧
    (f_read f = true → ∃ r, find_reader log (f_reader f) = Some r ∧ r ∈ readers log ∧ r_id r = f_reader f).
Proof.
  intros Hok Hf. destruct (ok_files _ Hok _ _ Hf) as ([log fr] & Hn & Hr).
  pose proof (ok_nodes _ Hok _ _ Hn) as [Hl Hlog _ _]. cbn [n_freed n_log] in *. subst fr.
  exists log. unfold deref_log. rewrite Hn. cbn. split_and!; [done..|].
  intros Hrd. by apply find_reader_Some, Hr.
Qed.

(** Replacing a log by one with the same readers keeps the invariant. *)
Lemma update_log_ok st i log log' :
  sys_ok st → log_list st !! i = Some (Node log false) →
  log_ok log' → reader_ids log' = reader_ids log → sys_ok (update_log st i log').
Proof.
  intros Hok Hi Hl Hids. pose proof (ok_nodes _ Hok _ _ Hi) as [_ _ Hnd Hnx]. cbn [n_log] in *.
  constructor; cbn [update_log set_log_list log_list open_files next_reader].
  - intros j n Hj. destruct (decide (i = j)) as [<-|Hne].
    + rewrite list_lookup_insert_eq in Hj by (by eapply lookup_lt_Some). injection Hj as <-.
      constructor; cbn [n_log n_freed]; rewrite ?Hids; done.
    + rewrite list_lookup_insert_ne in Hj by done. by eapply ok_nodes.
  - intros fd f Hf. destruct (ok_files _ Hok fd f Hf) as (n & Hn & Hr).
    destruct (decide (i = f_log f)) as [->|Hne].
    + rewrite list_lookup_insert_eq by (by eapply lookup_lt_Some). eexists. split; [done|].
      cbn [n_log]. rewrite Hids. rewrite Hi in Hn. injection Hn as <-. done.
    + rewrite list_lookup_insert_ne by done. eauto.
  - apply Hok.
Qed.

(** ** Every operation runs without fault and keeps the invariant *)

Definition wf_op (op : logger_op) : Prop :=
  match op with OpWrite _ _ from => wf_iter from | _ => True end.

Lemma file_read_ok st fd f sig euid ubuf count :
  sys_ok st → open_file st fd = Some f → f_read f = true →
  ∃ p, file_read st f sig euid ubuf count = Some p ∧ sys_ok p.2.
Proof.
  intros Hok Hf Hrd. destruct (sys_ok_log _ _ _ Hok Hf) as (log & Hd & Hn & Hl & Hr).
  destruct (Hr Hrd) as (r & Hfind & Hin & _). destruct (lok_readers _ Hl r Hin) as [rs Hp].
  unfold file_read. run Hd. run Hfind.
  destruct (logger_read_pending log r (f_nonblock f) sig euid ubuf count rs (lok_shape _ Hl) Hp)
    as (out & off & E & Hres). run E. eexists. split; [done|]. cbn [snd].
  destruct (read_result_pending _ _ _ _ _ _ _ _ _ _ Hres) as [rs' Hp'].
  eapply update_log_ok; [done..| |apply set_reader_ids]. by eapply set_reader_ok.
Qed.

Lemma file_write_ok st fd f c from :
  sys_ok st → open_file st fd = Some f → wf_iter from →
  ∃ p, file_write st f c from = Some p ∧ sys_ok p.2.
Proof.
  intros Hok Hf Hi. destruct (sys_ok_log _ _ _ Hok Hf) as (log & Hd & Hn & Hl & _).
  unfold file_write. run Hd. destruct (logger_write_iter_ok log c from Hl Hi) as (ret & log' & E & Hl').
  run E. eexists. split; [done|]. eapply update_log_ok; [done..|].
  by eapply logger_write_iter_ids.
Qed.

Lemma skip_reader_ok st f log r euid :
  sys_ok st → log_list st !! f_log f = Some (Node log false) → r ∈ readers log →
  ∃ off, skip_unreadable log r euid = Some (set_r_off r off) ∧
    (∃ rs, pending log off rs) ∧
    sys_ok (update_log st (f_log f) (set_reader log (set_r_off r off))).
Proof.
  intros Hok Hn Hin. pose proof (nok_log _ _ (ok_nodes _ Hok _ _ Hn)) as Hl. cbn [n_log] in Hl.
  destruct (lok_readers _ Hl r Hin) as [rs Hp].
  destruct (skip_unreadable_pending log r euid rs (lok_shape _ Hl) Hp) as (off & -> & Hp').
  exists off. split_and!; [done|by eexists|].
  eapply update_log_ok; [done..| |apply set_reader_ids]. by eapply set_reader_ok.
Qed.

Lemma logger_poll_ok st fd f euid :
  sys_ok st → open_file st fd = Some f → ∃ p, logger_poll st f euid = Some p ∧ sys_ok p.2.
Proof.
  intros Hok Hf. unfold logger_poll. destruct (f_read f) eqn:Hrd; [|by eexists].
  destruct (sys_ok_log _ _ _ Hok Hf) as (log & Hd & Hn & Hl & Hr).
  destruct (Hr Hrd) as (r & Hfind & Hin & _). cbn [negb]. run Hd. run Hfind.
  destruct (skip_reader_ok st f log r euid Hok Hn Hin) as (off & E & _ & Hok'). run E.
  by eexists.
Qed.

Lemma pending_msg_len log off rs :
  log_shape log → pending log off rs → off ≠ w_off log → ∃ m, get_entry_msg_len log off = Some m.
Proof.
  intros Hs Hp Hne. destruct rs as [|r rs].
  - exfalso. apply Hne. by apply (pending_empty_iff _ _ _ Hs Hp).
  - eexists. by eapply get_entry_msg_len_pending.
Qed.

Lemma flush_log_ok log : log_ok log → log_ok (flush_log log).
Proof.
  intros Hl. pose proof (pending_nil _ (lok_shape _ Hl)). apply log_ok_positions; [done|eauto|].
  intros r Hin. apply list_elem_of_fmap in Hin as (r' & -> & _). eauto.
Qed.

Lemma flush_log_ids log : reader_ids (flush_log log) = reader_ids log.
Proof.
  unfold reader_ids, flush_log. cbn [set_positions readers]. by rewrite <- list_fmap_compose.
Qed.

Lemma set_version_off r arg :
  r_off (logger_set_version r arg).2 = r_off r.
Proof. unfold logger_set_version. destruct arg; [|done]. by bcase E. Qed.

Lemma logger_ioctl_ok st fd f cmd euid priv :
  sys_ok st → open_file st fd = Some f → ∃ p, logger_ioctl st f cmd euid priv = Some p ∧ sys_ok p.2.
Proof.
  intros Hok Hf. destruct (sys_ok_log _ _ _ Hok Hf) as (log & Hd & Hn & Hl & Hr).
  unfold logger_ioctl. run Hd.
  assert (cmd = LOGGER_FLUSH_LOG ∨ cmd ≠ LOGGER_FLUSH_LOG) as [->|Hcmd]
    by (destruct cmd; first [by left|by right]).
  { bcase E; [by eexists|]. bcase E2; [by eexists|]. eexists. split; [done|]. cbn [snd].
    eapply update_log_ok; [done..|by apply flush_log_ok|apply flush_log_ids]. }
  destruct (f_read f) eqn:Hrd; [|destruct cmd; done || by eexists]. cbn [negb].
  destruct (Hr eq_refl) as (r & Hfind & Hin & _). destruct (lok_readers _ Hl r Hin) as [rs Hp].
  destruct cmd as [| | | | |arg|]; rewrite ?Hfind; cbn [mbind option_bind]; try done; try by eexists.
  - destruct (skip_reader_ok st f log r euid Hok Hn Hin) as (off & E & [rs' Hp'] & Hok'). run E.
    bcase Eo; [|by eexists]. cbn [set_r_off r_off] in *.
    destruct (pending_msg_len log off rs' (lok_shape _ Hl) Hp') as [m Hm]; [lia|].
    run Hm. by eexists.
  - destruct (logger_set_version r arg) as [ret r'] eqn:E. eexists. split; [done|]. cbn [snd].
    eapply update_log_ok; [done..| |apply set_reader_ids]. eapply set_reader_ok; [done|].
    pose proof (set_version_off r arg) as Ho. rewrite E in Ho. cbn [snd] in Ho. by rewrite Ho.
Qed.

Lemma get_log_from_minor_ok nodes i0 minor :
  (∀ n, n ∈ nodes → n_freed n = false) →
  ∃ o, get_log_from_minor nodes i0 minor = Some o ∧
    ∀ i, o = Some i → ∃ k n, i = (i0 + k)%nat ∧ nodes !! k = Some n ∧ misc_minor (n_log n) = minor.
Proof.
  revert i0. induction nodes as [|n nodes IH]; intros i0 Hl; [by exists None|].
  cbn [get_log_from_minor]. rewrite (Hl n) by set_solver.
  destruct (Z.eqb_spec (misc_minor (n_log n)) minor) as [Hm|Hm].
  - exists (Some i0). split; [done|]. intros i [= <-]. exists 0%nat, n. split_and!; [lia|done|done].
  - destruct (IH (S i0)) as (o & -> & Ho); [set_solver|]. exists o. split; [done|].
    intros i Hi. destruct (Ho i Hi) as (k & n' & -> & Hk & Hm'). exists (S k), n'. split_and!; [lia|done..].
Qed.

Lemma open_file_app st l g nx fd f :
  open_file {| log_list := l; open_files := open_files st ++ [Some g]; next_reader := nx |} fd = Some f →
  open_file st fd = Some f ∨ (fd = length (open_files st) ∧ f = g).
Proof.
  unfold open_file. cbn [open_files]. intros H.
  destruct ((open_files st ++ [Some g]) !! fd) as [o|] eqn:E; [|done]. cbn in H. subst o.
  apply lookup_app_Some in E as [E|[Hle E]]; [left; by rewrite E|]. right.
  apply list_lookup_singleton_Some in E as [Hz E]. injection E as ->. split; [lia|done].
Qed.

Lemma open_file_ext st st' fd :
  open_files st' = open_files st → open_file st' fd = open_file st fd.
Proof. intros H. unfold open_file. by rewrite H. Qed.

(** Adding a file to a well-formed state. *)
Lemma add_file_ok st g n next :
  sys_ok st → log_list st !! f_log g = Some n → (next_reader st ≤ next)%nat →
  (f_read g = true → f_reader g ∈ reader_ids (n_log n) ∧
     ∀ fd f, open_file st fd = Some f → f_read f = true → f_reader f ≠ f_reader g) →
  sys_ok {| log_list := log_list st; open_files := open_files st ++ [Some g]; next_reader := next |}.
Proof.
  intros Hok Hn Hnx Hg. constructor; cbn [log_list next_reader].
  - intros i m Hm. destruct (ok_nodes _ Hok i m Hm) as [? ? ? Hlt]. constructor; [done..|].
    intros id Hid. specialize (Hlt id Hid). lia.
  - intros fd f Hf. apply open_file_app in Hf as [Hf|[_ ->]]; [by eapply ok_files|].
    exists n. split; [done|]. intros Hr. by apply Hg.
  - intros fd fd' f f' Hf Hf' Hr Hr' He.
    apply open_file_app in Hf as [Hf|[-> ->]]; apply open_file_app in Hf' as [Hf'|[-> ->]].
    + by eapply (ok_distinct _ Hok).
    + exfalso. by eapply (proj2 (Hg Hr')).
    + exfalso. by eapply (proj2 (Hg Hr)).
    + done.
Qed.

(** Replacing the log of a node, in general: the readers of the open files
    must survive. *)
Lemma replace_log_ok st i log log' next :
  sys_ok st → log_list st !! i = Some (Node log false) → log_ok log' →
  NoDup (reader_ids log') → (∀ id, id ∈ reader_ids log' → (id < next)%nat) →
  (next_reader st ≤ next)%nat →
  (∀ fd f, open_file st fd = Some f → f_log f = i → f_read f = true →
     f_reader f ∈ reader_ids log → f_reader f ∈ reader_ids log') →
  sys_ok {| log_list := <[i := Node log' false]> (log_list st);
            open_files := open_files st; next_reader := next |}.
Proof.
  intros Hok Hi Hl Hnd Hlt Hnx Hkeep.
  pose proof (lookup_lt_Some _ _ _ Hi) as Hlen.
  constructor; cbn [log_list next_reader].
  - intros j n Hj. destruct (decide (i = j)) as [<-|Hne].
    + rewrite list_lookup_insert_eq in Hj by done. injection Hj as <-. by constructor.
    + rewrite list_lookup_insert_ne in Hj by done.
      destruct (ok_nodes _ Hok _ _ Hj) as [? ? ? Hn]. constructor; [done..|].
      intros id Hid. specialize (Hn id Hid). lia.
  - intros fd f Hf. destruct (ok_files _ Hok fd f Hf) as (n & Hn & Hr).
    destruct (decide (i = f_log f)) as [->|Hne].
    + rewrite list_lookup_insert_eq by done. eexists. split; [done|]. intros Hrd.
      rewrite Hi in Hn. injection Hn as <-. eapply Hkeep; eauto.
    + rewrite list_lookup_insert_ne by done. eauto.
  - apply Hok.
Qed.

Lemma logger_open_ok st minor rd wr nb env :
  sys_ok st → ∃ p, logger_open st minor rd wr nb env = Some p ∧ sys_ok p.2.
Proof.
  intros Hok. unfold logger_open. bcase En; [by eexists|].
  destruct (get_log_from_minor_ok (log_list st) 0 minor) as (o & -> & Ho).
  { intros n Hn. apply list_elem_of_lookup in Hn as [i Hi]. apply (ok_nodes _ Hok _ _ Hi). }
  cbn [mbind option_bind]. destruct o as [i|]; [|by eexists].
  destruct (Ho i eq_refl) as (k & n & -> & Hk & _). rewrite Nat.add_0_l.
  destruct rd.
  2: { eexists. split; [done|]. by eapply add_file_ok. }
  bcase Em; [by eexists|]. pose proof (ok_nodes _ Hok _ _ Hk) as [Hfr Hl Hnd Hlt].
  destruct n as [log fr]. cbn [n_freed n_log] in *. subst fr.
  assert (deref_log st k = Some log) as Hd by (unfold deref_log; by rewrite Hk). run Hd.
  eexists. split; [done|]. cbn [snd].
  set (rd := {| r_id := next_reader st; r_off := head log; r_all := oe_privileged env; r_ver := 1 |}).
  set (log' := set_positions log (head log) (readers log ++ [rd])).
  assert (reader_ids log' = reader_ids log ++ [next_reader st]) as Hids.
  { unfold reader_ids, log'. cbn [set_positions readers]. by rewrite fmap_app. }
  set (st1 := {| log_list := <[k := Node log' false]> (log_list st);
                 open_files := open_files st; next_reader := S (next_reader st) |}).
  assert (sys_ok st1) as Hok1.
  { apply (replace_log_ok st k log); [done|done| | | |lia|].
    - apply log_ok_positions; [done|apply Hl|]. intros r. rewrite elem_of_app.
      intros [Hin| ->%list_elem_of_singleton]; [by apply (lok_readers _ Hl)|apply Hl].
    - rewrite Hids. apply NoDup_app. split_and!; [done| |apply NoDup_singleton].
      intros id Hid ->%list_elem_of_singleton. specialize (Hlt _ Hid). lia.
    - intros id. rewrite Hids, elem_of_app. intros [Hin| ->%list_elem_of_singleton]; [|lia].
      specialize (Hlt _ Hin). lia.
    - intros fd f _ _ _ Hin. rewrite Hids, elem_of_app. by left. }
  apply (add_file_ok st1 {| f_read := true; f_write := wr; f_nonblock := nb; f_log := k;
           f_reader := next_reader st |} (Node log' false)); [done| |done|].
  - apply list_lookup_insert_eq. by eapply lookup_lt_Some.
  - intros _. cbn [n_log f_reader]. split; [rewrite Hids; set_solver|].
    intros fd f Hf Hr Heq. destruct (ok_files _ Hok fd f Hf) as (n & Hn & Hin).
    pose proof (nok_next _ _ (ok_nodes _ Hok _ _ Hn) _ (Hin Hr)). lia.
Qed.

Lemma close_file_ok st fd :
  sys_ok st → sys_ok {| log_list := log_list st; open_files := <[fd := None]> (open_files st);
                        next_reader := next_reader st |}.
Proof.
  intros Hok.
  assert (∀ fd' f, open_file {| log_list := log_list st; open_files := <[fd := None]> (open_files st);
                        next_reader := next_reader st |} fd' = Some f → open_file st fd' = Some f) as Hsub.
  { intros fd' f. unfold open_file. cbn [open_files]. destruct (decide (fd = fd')) as [<-|Hne].
    - destruct (decide (fd < length (open_files st))%nat).
      + by rewrite list_lookup_insert_eq.
      + by rewrite list_insert_ge by lia.
    - by rewrite list_lookup_insert_ne. }
  constructor; cbn [log_list next_reader]; [apply Hok|..]; intros; eapply Hok; eauto.
Qed.

Lemma logger_release_ok st fd f :
  sys_ok st → open_file st fd = Some f → ∃ p, logger_release st fd f = Some p ∧ sys_ok p.2.
Proof.
  intros Hok Hf. unfold logger_release. destruct (f_read f) eqn:Hrd.
  2: { eexists. split; [done|]. by apply close_file_ok. }
  destruct (sys_ok_log _ _ _ Hok Hf) as (log & Hd & Hn & Hl & Hr).
  destruct (Hr Hrd) as (r & Hfind & Hin & Hid). run Hd. run Hfind.
  eexists. split; [done|]. cbn [snd].
  set (log' := set_positions log (head log) (filter (λ r', r_id r' ≠ r_id r) (readers log))).
  pose proof (ok_nodes _ Hok _ _ Hn) as [_ _ Hnd Hlt]. cbn [n_log] in *.
  assert (∀ id, id ∈ reader_ids log' ↔ id ∈ reader_ids log ∧ id ≠ r_id r) as Hids.
  { intros id. unfold reader_ids, log'. cbn [set_positions readers]. rewrite !list_elem_of_fmap.
    setoid_rewrite list_elem_of_filter. split.
    - intros (r' & -> & Hne & Hin'). eauto.
    - intros ((r' & -> & Hin') & Hne). eauto. }
  apply (replace_log_ok _ (f_log f) log log' (next_reader st) (close_file_ok st fd Hok)); [done| | | |done|].
  - apply log_ok_positions; [done|apply Hl|]. intros r' Hin'.
    apply list_elem_of_filter in Hin' as [_ Hin']. by apply (lok_readers _ Hl).
  - unfold reader_ids, log'. cbn [set_positions readers].
    apply (sublist_NoDup _ (reader_ids log)); [exact Hnd|]. apply fmap_sublist, sublist_filter.
  - intros id [Hin' _]%Hids. by apply Hlt.
  - intros fd' f' Hf' Hlog Hr' Hin'. apply Hids. split; [done|]. intros Heq.
    assert (open_file st fd' = Some f' ∧ fd' ≠ fd) as [Hopen Hne].
    { unfold open_file in *. cbn [open_files] in Hf'. destruct (decide (fd = fd')) as [<-|Hne].
      - destruct (open_files st !! fd) as [o|] eqn:E; [|done].
        rewrite list_lookup_insert_eq in Hf' by (by eapply lookup_lt_Some). done.
      - rewrite list_lookup_insert_ne in Hf' by done. done. }
    apply Hne. eapply (ok_distinct _ Hok fd' fd f' f); [done..|congruence].
Qed.

(** One system call. *)
Lemma logger_step_ok st op :
  sys_ok st → wf_op op → ∃ st', logger_step st op = Some st' ∧ sys_ok st'.
Proof.
  intros Hok Hop. unfold logger_step.
  destruct op as [minor rd wr nb env|fd|fd sig euid ubuf count|fd c from|fd euid|fd cmd euid priv].
  { destruct (logger_open_ok st minor rd wr nb env Hok) as (p & E & Hp). run E. eauto. }
  all: destruct (open_file st fd) as [f|] eqn:Hf; [|by eauto].
  - destruct (logger_release_ok st fd f Hok Hf) as (p & E & Hp). run E. eauto.
  - bcase Er; [|by eauto].
    destruct (file_read_ok st fd f sig euid ubuf count Hok Hf Er) as (p & E & Hp). run E. eauto.
  - bcase Ew; [|by eauto]. destruct (file_write_ok st fd f c from Hok Hf Hop) as (p & E & Hp). run E. eauto.
  - destruct (logger_poll_ok st fd f euid Hok Hf) as (p & E & Hp). run E. eauto.
  - destruct (logger_ioctl_ok st fd f cmd euid priv Hok Hf) as (p & E & Hp). run E. eauto.
Qed.

(** ** Initialisation *)

Definition empty_sys : logger_sys := {| log_list := []; open_files := []; next_reader := 0 |}.

Lemma fresh_log_ok junk minor name :
  log_ok {| buffer := seg junk 0 (256 * 1024); misc_minor := minor; misc_name := name;
            readers := []; w_off := 0; head := 0; size := 256 * 1024 |}.
Proof.
  set (log := Log _ _ _ _ _ _ _).
  assert (log_shape log) as Hs.
  { constructor; cbn [log size buffer w_off].
    - exists 18. split; [lia|done].
    - apply zlen_seg. lia.
    - lia.
    - unfold sizeof_logger_entry, LOGGER_ENTRY_MAX_PAYLOAD. lia. }
  constructor; [done| |].
  - exists []. apply (pending_nil _ Hs).
  - intros r Hr. by apply elem_of_nil in Hr.
Qed.

Lemma create_log_ok st name env st' :
  create_log st name (256 * 1024) env = (0, st') → sys_ok st → sys_ok st'.
Proof.
  unfold create_log. intros H Hok. destruct (ce_vmalloc env) as [junk|]; [|done].
  destruct (ce_kzalloc env), (ce_kstrdup env); cbn [negb] in H; try done.
  destruct (truthy (ce_misc_register env)) eqn:E.
  { injection H as H _. unfold truthy in E. lia. }
  injection H as <-. constructor; cbn [set_log_list log_list next_reader].
  - intros i n Hi. apply lookup_app_Some in Hi as [Hi|[_ Hi]]; [by apply (ok_nodes _ Hok i)|].
    apply list_lookup_singleton_Some in Hi as [_ <-].
    constructor; cbn [n_log n_freed]; [done|apply fresh_log_ok|constructor|].
    intros id Hid. by apply elem_of_nil in Hid.
  - intros fd f Hf. destruct (ok_files _ Hok fd f Hf) as (n & Hn & Hr). exists n.
    split; [|done]. by apply lookup_app_l_Some.
  - apply Hok.
Qed.

Lemma empty_sys_ok : sys_ok empty_sys.
Proof.
  constructor.
  - intros i n Hi. by destruct i.
  - intros fd f Hf. by destruct fd.
  - intros fd fd' f f' Hf. by destruct fd.
Qed.

(** [logger_init] sets up a well-formed driver. *)
Lemma logger_init_ok e1 e2 e3 e4 st : logger_init empty_sys e1 e2 e3 e4 = (0, st) → sys_ok st.
Proof.
  unfold logger_init. intros H.
  assert (∀ ret (s : logger_sys) k, (if truthy ret then (ret, s) else k) = (0, st) → ret = 0 ∧ k = (0, st)) as Hstep.
  { intros ret s k. unfold truthy. destruct (Z.eqb_spec ret 0); cbn [negb]; [done|]. by intros [= ]. }
  destruct (create_log empty_sys _ _ e1) as [r1 s1] eqn:E1. apply Hstep in H as [-> H].
  destruct (create_log s1 _ _ e2) as [r2 s2] eqn:E2. apply Hstep in H as [-> H].
  destruct (create_log s2 _ _ e3) as [r3 s3] eqn:E3. apply Hstep in H as [-> H].
  eapply create_log_ok; [exact H|]. eapply create_log_ok; [exact E3|].
  eapply create_log_ok; [exact E2|]. eapply create_log_ok; [exact E1|]. exact empty_sys_ok.
Qed.
