(* ===== verification/LoggerProps.v ===== *)
(** * The Android logger driver: properties

    The theorems about [patches/kernel/logger.c], each with a run of the model
    on concrete data. *)
From S2P Require Import Prelude Logger LoggerSpec LoggerDev LoggerInv.
Import Errno.

(** ** Concrete data for the witnesses *)

(** A 16 KiB log as [create_log] would make it, with one privileged version 1
    reader at its head. *)
Definition demo_log : logger_log :=
  {| buffer := seg (λ _, 0) 0 16384; misc_minor := 55; misc_name := LOGGER_LOG_MAIN;
     readers := [{| r_id := 0; r_off := 0; r_all := true; r_ver := 1 |}];
     w_off := 0; head := 0; size := 16384 |}.

Definition demo_ctx : write_context := WriteCtx 100 101 5 6 1000.
Definition demo_iter : iov_iter := Iter 3 [72; 105; 33].

Lemma demo_log_repr : log_repr demo_log [] [[]].
Proof.
  assert (log_shape demo_log) as Hs.
  { constructor; cbn [demo_log size buffer w_off].
    - exists 14. split; [lia|reflexivity].
    - apply zlen_seg. lia.
    - lia.
    - unfold sizeof_logger_entry, LOGGER_ENTRY_MAX_PAYLOAD. lia. }
  constructor; [done|apply (pending_nil _ Hs)|].
  constructor; [apply (pending_nil _ Hs)|constructor].
Qed.

Lemma demo_iter_wf : wf_iter demo_iter.
Proof. unfold wf_iter, demo_iter. cbn. lia. Qed.

(** The log after one write by user 1000. *)
Definition demo_log1 : logger_log :=
  match logger_write_iter demo_log demo_ctx demo_iter with Some (_, l) => l | None => demo_log end.

Lemma demo_log1_repr :
  log_repr demo_log1 [written demo_ctx demo_iter] [[written demo_ctx demo_iter]].
Proof.
  destruct (write_success demo_log demo_ctx demo_iter [] [[]] demo_log_repr demo_iter_wf)
    as (l & E & _ & _ & HR); [reflexivity|vm_compute; discriminate|].
  unfold demo_log1. rewrite E. exact HR.
Qed.

(** ** Properties *)

(** C1: Every sequence of system calls on the driver, from the state that a
    successful [logger_init] leaves, runs without a single access outside a
    log's buffer, without touching a freed log and without an endless loop, and
    keeps every start head and every reader at a record boundary. *)
Theorem logger_ops_safe e1 e2 e3 e4 st ops :
  logger_init empty_sys e1 e2 e3 e4 = (0, st) → Forall wf_op ops →
  ∃ st', foldM logger_step st ops = Some st' ∧ sys_ok st'.
Proof.
  intros Hinit Hops. rewrite Forall_forall in Hops.
  apply foldM_inv; [|by eapply logger_init_ok].
  intros s op Hin Hs. apply logger_step_ok; [done|]. by apply Hops.
Qed.

Definition demo_env (minor : Z) : create_env := CreateEnv (Some (λ _, 0)) true true 0 minor.
Definition demo_sys : logger_sys :=
  (logger_init empty_sys (demo_env 55) (demo_env 54) (demo_env 53) (demo_env 52)).2.
Definition demo_ops : list logger_op :=
  [OpOpen 55 true true true (OpenEnv 0 true true); OpWrite 0 demo_ctx demo_iter;
   OpRead 0 false 1000 (replicate 64 0) 64; OpIoctl 0 LOGGER_FLUSH_LOG 0 true; OpRelease 0].

Lemma demo_ops_wf : Forall wf_op demo_ops.
Proof. repeat (constructor; [first [exact I | exact demo_iter_wf]|]). constructor. Qed.

Lemma logger_ops_safe_witness : ∃ st', foldM logger_step demo_sys demo_ops = Some st' ∧ sys_ok st'.
Proof.
  exact (logger_ops_safe (demo_env 55) (demo_env 54) (demo_env 53) (demo_env 52) demo_sys demo_ops
    eq_refl demo_ops_wf).
Defined.

(** C6: Refinement of the write path: a write of up to 4076 bytes whose source
    does not fault appends exactly one record, the header built from the task
    and the clock followed by the first 4076 bytes of the payload, behind the
    records of the start head and of every reader; a position the write laps
    loses records from its front and no other position loses anything. *)
Theorem logger_write_appends log c from hrs rrs :
  log_repr log hrs rrs → wf_iter from → 0 < iov_count from →
  wanted from ≤ zlen (iov_bytes from) →
  let app rs := lap (size log) (24 + wanted from) rs ++ [written c from] in
  ∃ ret log', logger_write_iter log c from = Some (ret, log') ∧
    log_repr log' (app hrs) (app <$> rrs) ∧
    (∀ rs, total_size rs + (24 + wanted from) < size log → app rs = rs ++ [written c from]).
Proof.
  intros HR Hi Hpos Hfull app.
  destruct (write_success log c from hrs rrs HR Hi Hpos Hfull) as (log' & E & _ & _ & HR').
  eexists _, log'. split_and!; [done|done|]. intros rs Hrs. unfold app, lap. bcase Er; [done|lia].
Qed.

Lemma logger_write_appends_witness :
  wanted demo_iter = 3 ∧
  ∃ ret log', logger_write_iter demo_log demo_ctx demo_iter = Some (ret, log') ∧
    log_repr log' [written demo_ctx demo_iter] [[written demo_ctx demo_iter]].
Proof.
  split; [reflexivity|].
  destruct (logger_write_appends demo_log demo_ctx demo_iter [] [[]] demo_log_repr demo_iter_wf)
    as (ret & log' & E & HR & _); [reflexivity|vm_compute; discriminate|].
  exists ret, log'. split; [exact E|exact HR].
Defined.

(** C15: What [logger_read] does, on every branch: with nothing readable it
    returns [-EAGAIN], [-EINTR] or sleeps; with a count below the size of the
    next readable record it returns [-EINVAL], with an unwritable buffer
    [-EFAULT], and in both cases the record stays pending; otherwise it
    delivers exactly that record, header in the reader's ABI version first,
    and moves the reader past it. *)
Theorem logger_read_delivers log reader nonblock sig euid ubuf count rs :
  log_shape log → pending log (r_off reader) rs →
  ∃ out off, logger_read log reader nonblock sig euid ubuf count = Some (out, set_r_off reader off) ∧
    read_result log reader nonblock sig euid ubuf count rs out off.
Proof. apply logger_read_pending. Qed.

Lemma logger_read_delivers_witness :
  ∃ out off, logger_read demo_log (Reader 0 0 true 1) true false 1000 [] 64 =
      Some (out, set_r_off (Reader 0 0 true 1) off) ∧ out = RdRet (- EAGAIN) [].
Proof.
  destruct (logger_read_delivers demo_log (Reader 0 0 true 1) true false 1000 [] 64 [])
    as (out & off & E & H).
  - exact (repr_shape _ _ _ demo_log_repr).
  - exact (repr_head _ _ _ demo_log_repr).
  - exists out, off. split; [exact E|]. exact (proj1 H).
Defined.

(** Round trip: a reader that has read everything, then a write, then a
    read by that reader with a large enough buffer, yields exactly the written
    message behind a header in the reader's version. *)
Theorem logger_write_read_roundtrip log c from hrs rrs i reader nonblock sig ubuf count :
  log_repr log hrs rrs → readers log !! i = Some reader → rrs !! i = Some [] →
  wf_iter from → 0 < iov_count from → wanted from ≤ zlen (iov_bytes from) →
  r_all reader = true →
  let data := user_bytes (r_ver reader) (written c from) in
  zlen data ≤ zlen ubuf → zlen data ≤ count →
  ∃ ret log' reader' out reader'' ubuf',
    logger_write_iter log c from = Some (ret, log') ∧
    readers log' !! i = Some reader' ∧
    logger_read log' reader' nonblock sig 0 ubuf count = Some (out, reader'') ∧
    out = RdRet (zlen data) ubuf' ∧ take (length data) ubuf' = data ∧ r_off reader'' = w_off log'.
Proof.
  intros HR Hr Hrs Hi Hpos Hfull Hall data Hu Hc.
  destruct (write_success log c from hrs rrs HR Hi Hpos Hfull) as (log' & E & Hz & _ & HR').
  destruct (attrs_lookup log log' i reader (logger_write_iter_attrs _ _ _ _ _ E) Hr) as (r' & Hr' & Eq).
  pose proof (repr_shape _ _ _ HR') as Hs'. pose proof (shape_size _ (repr_shape _ _ _ HR)).
  assert (pending log' (r_off r') [written c from]) as Hp.
  { pose proof (repr_readers _ _ _ HR') as HF.
    eapply Forall2_lookup_lr with (i := i) in HF; [exact HF|done|].
    rewrite list_lookup_fmap, Hrs. cbn. rewrite lap_nil; [done|].
    unfold wanted, LOGGER_ENTRY_MAX_PAYLOAD. lia. }
  assert (r_ver r' = r_ver reader ∧ r_all r' = true) as [Ev Ea] by (rewrite Eq; done).
  destruct (logger_read_pending log' r' nonblock sig 0 ubuf count _ Hs' Hp) as (out & off & El & Hres).
  unfold read_result, readable in Hres. rewrite Ea, Ev in Hres. fold data in Hres.
  destruct (Z.ltb_spec count (zlen data)); [lia|]. destruct (Z.ltb_spec (zlen ubuf) (zlen data)); [lia|].
  destruct Hres as [(u & Hw & ->) Hp']. eexists _, log', r', _, _, u. split_and!; [done..| |].
  - apply mem_read_write in Hw. unfold mem_read in Hw. rewrite Nat2Z.id in Hw.
    destruct (in_block u 0 (zlen data)); [|done].
    by injection Hw.
  - by apply (pending_empty_iff _ _ _ Hs' Hp').
Qed.

Lemma logger_write_read_roundtrip_witness :
  let data := user_bytes 1 (written demo_ctx demo_iter) in
  ∃ ret log' reader' out reader'' ubuf',
    logger_write_iter demo_log demo_ctx demo_iter = Some (ret, log') ∧
    readers log' !! 0%nat = Some reader' ∧
    logger_read log' reader' true false 0 (replicate 64 0) 64 = Some (out, reader'') ∧
    out = RdRet 23 ubuf' ∧ take 23 ubuf' = data ∧ r_off reader'' = w_off log'.
Proof.
  refine (logger_write_read_roundtrip demo_log demo_ctx demo_iter [] [[]] 0
    (Reader 0 0 true 1) true false (replicate 64 0) 64 demo_log_repr _ _ demo_iter_wf _ _ _ _ _);
    vm_compute; first [reflexivity|discriminate].
Defined.

(** A write whose source faults part-way returns [-EFAULT] and commits
    nothing: the write head does not move, no partial record becomes visible at
    any position, and every position keeps its records but for the ones dropped
    beforehand to make room. *)
Theorem logger_write_fault_abandons log c from hrs rrs :
  log_repr log hrs rrs → wf_iter from → 0 < iov_count from →
  zlen (iov_bytes from) < wanted from →
  ∃ log', logger_write_iter log c from = Some (- EFAULT, log') ∧ w_off log' = w_off log ∧
    log_repr log' (lap (size log) (24 + wanted from) hrs)
                  (lap (size log) (24 + wanted from) <$> rrs).
Proof.
  intros HR Hi Hpos Hs. destruct (write_fault log c from hrs rrs HR Hi Hpos Hs)
    as (log' & E & Hw & _ & HR'). eauto.
Qed.

Lemma logger_write_fault_abandons_witness :
  ∃ log', logger_write_iter demo_log demo_ctx (Iter 3 [72]) = Some (- EFAULT, log') ∧
    w_off log' = 0 ∧ log_repr log' [] [[]].
Proof.
  destruct (logger_write_fault_abandons demo_log demo_ctx (Iter 3 [72]) [] [[]] demo_log_repr)
    as (log' & E & Hw & HR); [split; vm_compute; discriminate|reflexivity|reflexivity|].
  exists log'. split; [exact E|]. split; [exact Hw|exact HR].
Defined.

(** The value a successful write returns: the length of the first of the
    two message fragments.  It is the number of bytes written only when the
    message does not wrap around the end of the ring; when it does, the whole
    record is committed but a smaller count is returned. *)
Theorem logger_write_return_value log c from hrs rrs ret log' :
  log_repr log hrs rrs → wf_iter from → 0 < iov_count from →
  wanted from ≤ zlen (iov_bytes from) →
  logger_write_iter log c from = Some (ret, log') →
  let room := size log - (w_off log + 24) mod size log in
  (ret = wanted from ↔ wanted from ≤ room) ∧ (room < wanted from → ret = room) ∧
  w_off log' = (w_off log + 24 + wanted from) mod size log.
Proof.
  intros HR Hi Hpos Hfull E room. pose proof (repr_shape _ _ _ HR) as Hs.
  pose proof (shape_size _ Hs) as Hsz.
  destruct (write_success log c from hrs rrs HR Hi Hpos Hfull) as (l & E' & Hz & Hw & _).
  rewrite E in E'. injection E' as -> ->. fold room.
  split; [lia|]. split; [lia|]. rewrite Hw. f_equal. lia.
Qed.

(** A log whose write head is 26 bytes before the end of the ring: the header
    of the next record fits, its message wraps after two bytes. *)
Definition wrap_log : logger_log :=
  {| buffer := seg (λ _, 0) 0 16384; misc_minor := 55; misc_name := LOGGER_LOG_MAIN;
     readers := []; w_off := 16358; head := 16358; size := 16384 |}.

Lemma wrap_log_repr : log_repr wrap_log [] [].
Proof.
  assert (log_shape wrap_log) as Hs.
  { constructor; cbn [wrap_log size buffer w_off].
    - exists 14. split; [lia|reflexivity].
    - apply zlen_seg. lia.
    - lia.
    - unfold sizeof_logger_entry, LOGGER_ENTRY_MAX_PAYLOAD. lia. }
  constructor; [done|apply (pending_nil _ Hs)|constructor].
Qed.

Lemma logger_write_return_value_witness :
  ∃ log', logger_write_iter wrap_log demo_ctx demo_iter = Some (2, log') ∧ wanted demo_iter = 3 ∧
    w_off log' = 1.
Proof.
  destruct (logger_write_iter wrap_log demo_ctx demo_iter) as [[ret log']|] eqn:E.
  - destruct (logger_write_return_value wrap_log demo_ctx demo_iter [] [] ret log' wrap_log_repr
      demo_iter_wf) as (_ & Hret & Hw); [reflexivity|vm_compute; discriminate|exact E|].
    exists log'. split; [|split; [reflexivity|exact Hw]].
    rewrite Hret by reflexivity. reflexivity.
  - exfalso. revert E. vm_compute. discriminate.
Defined.


(** The bytes [LOGGER_GET_LOG_LEN] reports are exactly the sizes, header
    included, of the records between the reader and the write head. *)
Theorem log_len_is_pending_size log reader rs :
  log_shape log → pending log (r_off reader) rs → log_len log reader = total_size rs.
Proof.
  intros Hs Hp. unfold log_len. pose proof (shape_w_off _ Hs).
  pose proof (total_size_nonneg rs). pose proof (pd_fits _ _ _ Hp).
  rewrite (pd_pos _ _ _ Hp), mod_sub_cases by lia.
  repeat (let E := fresh "E" in bcase E); lia.
Qed.

Lemma log_len_is_pending_size_witness : log_len demo_log (Reader 0 0 true 1) = total_size [].
Proof.
  apply (log_len_is_pending_size demo_log (Reader 0 0 true 1) []).
  - exact (repr_shape _ _ _ demo_log_repr).
  - exact (repr_head _ _ _ demo_log_repr).
Defined.

(** C40: Confidentiality: a reader opened without the log's group and without
    [CAP_SYSLOG] never gets a record of another user: whenever its read
    delivers data, the data is a record whose [euid] is the caller's. *)
Theorem restricted_reader_own_records log reader nonblock sig euid ubuf count rs n ubuf' reader' :
  log_shape log → pending log (r_off reader) rs → r_all reader = false →
  logger_read log reader nonblock sig euid ubuf count = Some (RdRet n ubuf', reader') → 0 < n →
  ∃ r, r ∈ rs ∧ e_euid (lr_hdr r) = euid ∧ n = zlen (user_bytes (r_ver reader) r) ∧
       mem_write ubuf 0 (user_bytes (r_ver reader) r) = Some ubuf'.
Proof.
  intros Hs Hp Hall E Hn.
  destruct (logger_read_pending log reader nonblock sig euid ubuf count rs Hs Hp)
    as (out & off & E' & Hres). rewrite E in E'. injection E' as <- ->.
  unfold read_result, readable in Hres. rewrite Hall in Hres.
  assert (∀ r rest, skip_other_uid euid rs = r :: rest → r ∈ rs ∧ e_euid (lr_hdr r) = euid) as Hskip.
  { clear. induction rs as [|r rs IH]; intros r' rest; [done|]. cbn [skip_other_uid].
    bcase E; [intros [= -> _]; split; [set_solver|lia]|].
    intros H. destruct (IH _ _ H). split; [set_solver|done]. }
  destruct (skip_other_uid euid rs) as [|r rest].
  { destruct Hres as [Hi _]. unfold idle_outcome, EAGAIN, EINTR in Hi.
    destruct nonblock; [injection Hi; lia|]. destruct sig; [injection Hi; lia|discriminate Hi]. }
  destruct (Hskip r rest eq_refl) as [Hin Heu]. cbv zeta in Hres. revert Hres. bcase E1.
  { intros [[= -> _] _]. unfold EINVAL in Hn. lia. }
  bcase E2; intros [(u & Hu) _].
  - injection Hu as -> _. unfold EFAULT in Hn. lia.
  - destruct Hu as [Hm Hu]. injection Hu as -> ->. eauto 6.
Qed.

Lemma restricted_reader_own_records_witness :
  ∃ n ubuf' reader', logger_read demo_log1 (Reader 0 0 false 1) true false 1000 (replicate 32 0) 32 =
      Some (RdRet n ubuf', reader') ∧ n = 23 ∧
    ∃ r, r ∈ [written demo_ctx demo_iter] ∧ e_euid (lr_hdr r) = 1000 ∧ n = zlen (user_bytes 1 r) ∧
      mem_write (replicate 32 0) 0 (user_bytes 1 r) = Some ubuf'.
Proof.
  eexists 23, _, _. split; [vm_compute; reflexivity|]. split; [reflexivity|].
  apply (restricted_reader_own_records demo_log1 (Reader 0 0 false 1) true false 1000
    (replicate 32 0) 32 [written demo_ctx demo_iter] 23 _ (Reader 0 27 false 1)).
  - exact (repr_shape _ _ _ demo_log1_repr).
  - exact (repr_head _ _ _ demo_log1_repr).
  - reflexivity.
  - vm_compute. reflexivity.
  - reflexivity.
Defined.

(** The size condition written above [create_log], a power of two greater
    than the largest record, is not enough.  In an 8192-byte log two writes
    leave the start head inside the second record: the walk over the records
    to drop runs past the write head into the space being written.  (The
    driver itself only makes 256 KiB logs, which satisfy [log_shape].) *)
Definition small_log : logger_log :=
  {| buffer := replicate (Z.to_nat 8192) 0; misc_minor := 55; misc_name := LOGGER_LOG_MAIN;
     readers := []; w_off := 0; head := 0; size := 8192 |}.

Definition write_bytes (log : logger_log) (b : Z) (n : Z) : option logger_log :=
  p ← logger_write_iter log demo_ctx (Iter n (replicate (Z.to_nat n) b)); Some p.2.

Theorem documented_log_size_insufficient :
  size small_log = 2 ^ 13 ∧ sizeof_logger_entry + LOGGER_ENTRY_MAX_PAYLOAD < size small_log ∧
  ∃ log, (l ← write_bytes small_log 65 4068; write_bytes l 66 4076) = Some log ∧
    head log = 4116 ∧ w_off log = 0 ∧
    get_entry_msg_len log (head log) = Some 16962.
Proof.
  split; [reflexivity|]. split; [reflexivity|].
  assert ((fun o => match o with
           | Some log => (head log =? 4116) && (w_off log =? 0) &&
               match get_entry_msg_len log (head log) with Some m => m =? 16962 | None => false end
           | None => false end) (l ← write_bytes small_log 65 4068; write_bytes l 66 4076) = true) as H
    by (vm_compute; reflexivity).
  destruct (l ← write_bytes small_log 65 4068; write_bytes l 66 4076) as [log|]; [|done].
  exists log. destruct (get_entry_msg_len log (head log)) as [m|]; [|lia].
  split; [done|]. split; [lia|]. split; [lia|]. f_equal. lia.
Qed.

(** A lapped position is moved further than "the first entry after the
    new write head": it skips records totalling at least the length of the new
    one.  Here the fifth write overruns only the 25-byte first record, yet the
    4100-byte second record, which it does not touch, is dropped as well. *)
Theorem lapped_head_skips_untouched_record :
  ∃ log4 log5,
    (l ← write_bytes demo_log 65 1; l ← write_bytes l 66 4076; l ← write_bytes l 67 4076;
     l ← write_bytes l 68 4076; write_bytes l 69 3976) = Some log4 ∧
    write_bytes log4 70 36 = Some log5 ∧
    w_off log4 = 16325 ∧ w_off log5 = 1 ∧ head log4 = 0 ∧
    get_entry_msg_len log5 25 = Some 4076 ∧ head log5 = 4125.
Proof.
  assert ((fun o => match o with
           | Some log4 => (w_off log4 =? 16325) && (head log4 =? 0) &&
               match write_bytes log4 70 36 with
               | Some log5 => (w_off log5 =? 1) && (head log5 =? 4125) &&
                   match get_entry_msg_len log5 25 with Some m => m =? 4076 | None => false end
               | None => false end
           | None => false end)
    (l ← write_bytes demo_log 65 1; l ← write_bytes l 66 4076; l ← write_bytes l 67 4076;
     l ← write_bytes l 68 4076; write_bytes l 69 3976) = true) as H by (vm_compute; reflexivity).
  destruct (l ← write_bytes demo_log 65 1; _) as [log4|]; [|done]. exists log4.
  destruct (write_bytes log4 70 36) as [log5|]; [|lia]. exists log5.
  destruct (get_entry_msg_len log5 25) as [m|]; [|lia].
  split_and!; [done|done|lia|lia|lia|f_equal; lia|lia].
Qed.

(** When [misc_register] fails, [create_log] frees the log but leaves it
    linked on [log_list]: the next lookup that reaches it, and [logger_exit],
    run into freed memory. *)
Theorem failed_create_leaves_freed_log st name sz env junk :
  ce_vmalloc env = Some junk → ce_kzalloc env = true → ce_kstrdup env = true →
  ce_misc_register env ≠ 0 →
  ∃ st', create_log st name sz env = (ce_misc_register env, st') ∧
    logger_exit st' = None ∧
    ∀ minor rd wr nb e, oe_nonseekable e = 0 →
      (∀ n, n ∈ log_list st → n_freed n = false ∧ misc_minor (n_log n) ≠ minor) →
      logger_open st' minor rd wr nb e = None.
Proof.
  intros Hv Hk Hd Hm. unfold create_log. rewrite Hv, Hk, Hd. cbn [negb].
  unfold truthy. destruct (Z.eqb_spec (ce_misc_register env) 0); [done|]. cbn [negb].
  eexists. split; [done|]. split.
  - unfold logger_exit. cbn [set_log_list log_list]. rewrite existsb_app. cbn. by rewrite orb_true_r.
  - intros minor rd wr nb e Hns Hall. unfold logger_open. rewrite Hns. cbn [truthy Z.eqb negb].
    cbn [set_log_list log_list].
    assert (∀ i nodes m, (∀ n, n ∈ nodes → n_freed n = false ∧ misc_minor (n_log n) ≠ minor) →
      n_freed m = true → get_log_from_minor (nodes ++ [m]) i minor = None) as Hg.
    { intros i nodes m. revert i. induction nodes as [|x nodes IH]; intros i Hx Hf; cbn.
      - by rewrite Hf.
      - destruct (Hx x) as [-> Hne]; [set_solver|]. apply Z.eqb_neq in Hne as ->.
        apply IH; [intros; apply Hx; set_solver|done]. }
    by rewrite Hg.
Qed.

Lemma failed_create_leaves_freed_log_witness :
  ∃ st', create_log empty_sys LOGGER_LOG_MAIN 8192 (CreateEnv (Some (λ _, 0)) true true (- ENOMEM) 0) =
      (- ENOMEM, st') ∧ logger_exit st' = None ∧
    ∀ minor rd wr nb e, oe_nonseekable e = 0 →
      (∀ n, n ∈ log_list empty_sys → n_freed n = false ∧ misc_minor (n_log n) ≠ minor) →
      logger_open st' minor rd wr nb e = None.
Proof.
  exact (failed_create_leaves_freed_log empty_sys LOGGER_LOG_MAIN 8192
    (CreateEnv (Some (λ _, 0)) true true (- ENOMEM) 0) (λ _, 0) eq_refl eq_refl eq_refl
    ltac:(vm_compute; discriminate)).
Defined.
