(* ===== verification/Gralloc.v ===== *)
(** * The gralloc wrapper: buffer table and trampolines

    Model of [gralloc_eink/src/eink_wrapper.c]: the side table [g_bufs] that
    records the geometry of every allocated buffer, and the wrapper devices
    whose function pointers are trampolines into the vendor's gralloc.

    Everything outside the file (the vendor module, [dlopen], [malloc],
    [open], [ioctl]) is an external call: it is appended to the history of
    calls and answered by a parameter, [answer], which may depend on the
    whole history.  A pointer is an integer, [NULL] is zero.  Dereferencing a
    wrapper that does not exist (any more), or calling a null function pointer,
    is a fault, [None]. *)
From stdpp Require Import gmap strings.
From S2P Require Import Prelude.

(** ** The table of buffer geometries *)

Definition EINK_MAX_BUFS : nat := 64.

Record eink_buf_info_t := BufInfo {
  handle : Z; width : Z; height : Z; stride : Z; format : Z }.

(** A slot cleared by [memset]. *)
Definition empty_slot : eink_buf_info_t := BufInfo 0 0 0 0 0.

(** The static table, zero before the first allocation. *)
Definition g_bufs_init : list eink_buf_info_t := replicate EINK_MAX_BUFS empty_slot.

(** The first slot holding [h]: the loops of the forget and query functions. *)
Fixpoint find_slot (bufs : list eink_buf_info_t) (h : Z) : option nat :=
  match bufs with
  | [] => None
  | b :: bufs => if handle b =? h then Some 0%nat else S <$> find_slot bufs h
  end.

(** The loop of [eink_buf_record]: a slot already holding [h] ends it, the
    first empty slot is remembered in [slot]. *)
Fixpoint record_slot (bufs : list eink_buf_info_t) (i : nat) (slot : option nat) (h : Z) : option nat :=
  match bufs with
  | [] => slot
  | b :: bufs =>
    if handle b =? h then Some i
    else record_slot bufs (S i)
           (match slot with None => if handle b =? 0 then Some i else None | _ => slot end) h
  end.

Definition eink_buf_record (bufs : list eink_buf_info_t) (h w ht st f : Z) : list eink_buf_info_t :=
  match record_slot bufs 0 None h with
  | Some slot => <[slot := BufInfo h w ht st f]> bufs
  | None => bufs
  end.

Definition eink_buf_forget (bufs : list eink_buf_info_t) (h : Z) : list eink_buf_info_t :=
  match find_slot bufs h with
  | Some i => <[i := empty_slot]> bufs
  | None => bufs
  end.

(** The values stored through [w], [h], [stride] and [format], or [None] for the
    return value -1. *)
Definition eink_gralloc_query (bufs : list eink_buf_info_t) (h : Z) : option (Z * Z * Z * Z) :=
  i ← find_slot bufs h; b ← bufs !! i; Some (width b, height b, stride b, format b).

(** ** External calls *)

(** Function pointers of the two device structures. *)
Inductive fnptr :=
| FN_NULL
| FN_vendor (addr : Z)
| FN_eink_fb_setSwapInterval | FN_eink_fb_setUpdateRect | FN_eink_fb_post
| FN_eink_fb_compositionComplete | FN_eink_fb_dump | FN_eink_fb_enableScreen | FN_eink_fb_close
| FN_eink_gpu_alloc | FN_eink_gpu_free | FN_eink_gpu_dump | FN_eink_gpu_close.

#[export] Instance fnptr_eq_dec : EqDecision fnptr.
Proof. solve_decision. Defined.

Record framebuffer_device_t := FbDevice {
  fb_width : Z; fb_height : Z;
  fb_setSwapInterval : fnptr; fb_setUpdateRect : fnptr; fb_post : fnptr;
  fb_compositionComplete : fnptr; fb_dump : fnptr; fb_enableScreen : fnptr; fb_close : fnptr }.

Record alloc_device_t := AllocDevice {
  al_alloc : fnptr; al_free : fnptr; al_dump : fnptr; al_close : fnptr }.

Record mxcfb_update := Update {
  upd_left : Z; upd_top : Z; upd_width : Z; upd_height : Z; upd_full : bool }.

(** Functions of the vendor module that are not reached through a device. *)
Inductive vmodule_fn := VM_open | VM_registerBuffer | VM_unregisterBuffer | VM_lock | VM_unlock.

Inductive ecall :=
| E_dlopen (path : string)
| E_dlsym (lib : Z)
| E_malloc
| E_free (p : Z)
| E_open (path : string)
| E_close (fd : Z)
| E_send_update (fd : Z) (u : mxcfb_update)
| E_module (f : vmodule_fn) (name : option string) (args : list Z)
| E_vendor (f : fnptr) (dev : Z) (args : list Z).

(** The return value of an external call and what it stores through its
    output pointers. *)
Record reply := Reply { r_ret : Z; r_out1 : Z; r_out2 : Z }.

(** The world the wrapper runs in: the answers to its external calls and the
    vendor's device structures. *)
Class GrallocEnv := {
  answer : list ecall → ecall → reply;
  real_fb_at : Z → framebuffer_device_t;
  real_alloc_at : Z → alloc_device_t }.

(** ** State *)

Record eink_fb_wrapper_t := FbWrapper {
  fw_device : framebuffer_device_t; fw_real_dev : Z; fw_eink_fd : Z }.

Record eink_alloc_wrapper_t := AllocWrapper {
  aw_device : alloc_device_t; aw_real_dev : Z }.

Record gr_state := GrState {
  hist : list ecall;
  g_real_handle : Z;
  g_real_module : Z;
  g_bufs : list eink_buf_info_t;
  g_post_count : Z;
  fb_wrappers : gmap Z eink_fb_wrapper_t;
  alloc_wrappers : gmap Z eink_alloc_wrapper_t }.

Definition gr_init : gr_state := GrState [] 0 0 g_bufs_init 0 ∅ ∅.

Definition set_hist x s := GrState x (g_real_handle s) (g_real_module s) (g_bufs s)
  (g_post_count s) (fb_wrappers s) (alloc_wrappers s).
Definition set_real_handle x s := GrState (hist s) x (g_real_module s) (g_bufs s)
  (g_post_count s) (fb_wrappers s) (alloc_wrappers s).
Definition set_real_module x s := GrState (hist s) (g_real_handle s) x (g_bufs s)
  (g_post_count s) (fb_wrappers s) (alloc_wrappers s).
Definition set_bufs x s := GrState (hist s) (g_real_handle s) (g_real_module s) x
  (g_post_count s) (fb_wrappers s) (alloc_wrappers s).
Definition set_post_count x s := GrState (hist s) (g_real_handle s) (g_real_module s) (g_bufs s)
  x (fb_wrappers s) (alloc_wrappers s).
Definition set_fbs x s := GrState (hist s) (g_real_handle s) (g_real_module s) (g_bufs s)
  (g_post_count s) x (alloc_wrappers s).
Definition set_allocs x s := GrState (hist s) (g_real_handle s) (g_real_module s) (g_bufs s)
  (g_post_count s) (fb_wrappers s) x.

(** State and faults. *)
Definition GM (A : Type) : Type := gr_state → option (A * gr_state).
#[export] Instance GM_ret : MRet GM := λ _ x s, Some (x, s).
#[export] Instance GM_bind : MBind GM := λ _ _ k m s,
  match m s with Some (x, s') => k x s' | None => None end.

Definition fault {A} : GM A := λ _, None.
Definition gets {A} (f : gr_state → A) : GM A := λ s, Some (f s, s).
Definition modify (f : gr_state → gr_state) : GM () := λ s, Some ((), f s).
Definition lift {A} (o : option A) : GM A := λ s, x ← o; Some (x, s).

Section Wrapper.
Context `{GrallocEnv}.

Definition ext (c : ecall) : GM reply := λ s, Some (answer (hist s) c, set_hist (hist s ++ [c]) s).

(** A call through a function pointer of a vendor device. *)
Definition call_real (f : fnptr) (dev : Z) (args : list Z) : GM reply :=
  if decide (f = FN_NULL) then fault else ext (E_vendor f dev args).

Definition deref_fb (w : Z) : GM eink_fb_wrapper_t := m ← gets fb_wrappers; lift (m !! w).
Definition deref_alloc (w : Z) : GM eink_alloc_wrapper_t := m ← gets alloc_wrappers; lift (m !! w).

Definition REAL_MODULE_PATH : string := "/system/lib/hw/gralloc.default.real.so".

Definition ensure_real_loaded : GM Z :=
  m ← gets g_real_module;
  if truthy m then mret 0 else
  h ← ext (E_dlopen REAL_MODULE_PATH);
  _ ← modify (set_real_handle (r_ret h));
  if r_ret h =? 0 then mret (-1) else
  m ← ext (E_dlsym (r_ret h));
  _ ← modify (set_real_module (r_ret m));
  if r_ret m =? 0 then mret (-1) else mret 0.

(** ** Framebuffer trampolines *)

(** [eink_send_update] of the wrapper: the whole screen, in full mode. *)
Definition eink_send_update (fd xres yres : Z) : GM () :=
  _ ← ext (E_send_update fd (Update 0 0 xres yres true)); mret ().

Definition eink_fb_setSwapInterval (dev interval : Z) : GM Z :=
  w ← deref_fb dev;
  let f := fb_setSwapInterval (real_fb_at (fw_real_dev w)) in
  if decide (f = FN_NULL) then mret 0
  else r ← call_real f (fw_real_dev w) [interval]; mret (r_ret r).

Definition eink_fb_setUpdateRect (dev l t wd h : Z) : GM Z :=
  w ← deref_fb dev;
  let f := fb_setUpdateRect (real_fb_at (fw_real_dev w)) in
  if decide (f = FN_NULL) then mret (- Errno.EINVAL)
  else r ← call_real f (fw_real_dev w) [l; t; wd; h]; mret (r_ret r).

Definition eink_fb_post (dev buffer : Z) : GM Z :=
  w ← deref_fb dev;
  n ← gets g_post_count;
  _ ← modify (set_post_count (s32 (n + 1)));
  r ← call_real (fb_post (real_fb_at (fw_real_dev w))) (fw_real_dev w) [buffer];
  _ ← (if (r_ret r =? 0) && (0 <=? fw_eink_fd w)
       then eink_send_update (fw_eink_fd w) (fb_width (fw_device w)) (fb_height (fw_device w))
       else mret ());
  mret (r_ret r).

Definition eink_fb_compositionComplete (dev : Z) : GM Z :=
  w ← deref_fb dev;
  let f := fb_compositionComplete (real_fb_at (fw_real_dev w)) in
  if decide (f = FN_NULL) then mret 0
  else r ← call_real f (fw_real_dev w) []; mret (r_ret r).

Definition eink_fb_dump (dev buf len : Z) : GM () :=
  w ← deref_fb dev;
  let f := fb_dump (real_fb_at (fw_real_dev w)) in
  if decide (f = FN_NULL) then mret ()
  else _ ← call_real f (fw_real_dev w) [buf; len]; mret ().

Definition eink_fb_enableScreen (dev enable : Z) : GM Z :=
  w ← deref_fb dev;
  let f := fb_enableScreen (real_fb_at (fw_real_dev w)) in
  if decide (f = FN_NULL) then mret 0
  else r ← call_real f (fw_real_dev w) [enable]; mret (r_ret r).

Definition eink_fb_close (dev : Z) : GM Z :=
  w ← deref_fb dev;
  _ ← (if 0 <=? fw_eink_fd w then _ ← ext (E_close (fw_eink_fd w)); mret () else mret ());
  ret ← (if truthy (fw_real_dev w)
         then r ← call_real (fb_close (real_fb_at (fw_real_dev w))) (fw_real_dev w) []; mret (r_ret r)
         else mret 0);
  _ ← ext (E_free dev);
  m ← gets fb_wrappers;
  _ ← modify (set_fbs (delete dev m));
  mret ret.

(** ** Allocator trampolines *)

Definition GRALLOC_USAGE_HW_FB : Z := 0x1000.

(** [handle] and [stride] are the output pointers, null or not; the result
    is the return value with the handle and stride stored through them. *)
Definition eink_gpu_alloc (dev w h fmt usage : Z) (has_handle has_stride : bool) : GM (Z * Z * Z) :=
  aw ← deref_alloc dev;
  let real_usage := usage &&& Z.lnot GRALLOC_USAGE_HW_FB in
  r ← call_real (al_alloc (real_alloc_at (aw_real_dev aw))) (aw_real_dev aw) [w; h; fmt; real_usage];
  bufs ← gets g_bufs;
  _ ← (if (r_ret r =? 0) && has_handle && truthy (r_out1 r)
       then modify (set_bufs (eink_buf_record bufs (r_out1 r) w h
                                (if has_stride then r_out2 r else w) fmt))
       else mret ());
  mret (r_ret r, r_out1 r, r_out2 r).

Definition eink_gpu_free (dev h : Z) : GM Z :=
  aw ← deref_alloc dev;
  bufs ← gets g_bufs;
  _ ← modify (set_bufs (eink_buf_forget bufs h));
  r ← call_real (al_free (real_alloc_at (aw_real_dev aw))) (aw_real_dev aw) [h];
  mret (r_ret r).

Definition eink_gpu_dump (dev buf len : Z) : GM () :=
  aw ← deref_alloc dev;
  let f := al_dump (real_alloc_at (aw_real_dev aw)) in
  if decide (f = FN_NULL) then mret ()
  else _ ← call_real f (aw_real_dev aw) [buf; len]; mret ().

Definition eink_gpu_close (dev : Z) : GM Z :=
  aw ← deref_alloc dev;
  r ← call_real (al_close (real_alloc_at (aw_real_dev aw))) (aw_real_dev aw) [];
  _ ← ext (E_free dev);
  m ← gets alloc_wrappers;
  _ ← modify (set_allocs (delete dev m));
  mret (r_ret r).

(** ** Opening a device *)

Definition GRALLOC_HARDWARE_GPU0 : string := "gpu0".
Definition GRALLOC_HARDWARE_FB0 : string := "fb0".

(** [cond ? f : NULL], the condition being that the vendor has the hook. *)
Definition hook_if (real f : fnptr) : fnptr := if decide (real = FN_NULL) then FN_NULL else f.

(** The gpu0 branch: the copied structure with the allocator's hooks replaced. *)
Definition wrap_alloc (real : alloc_device_t) (real_dev : Z) : eink_alloc_wrapper_t :=
  AllocWrapper (AllocDevice FN_eink_gpu_alloc FN_eink_gpu_free
                  (hook_if (al_dump real) FN_eink_gpu_dump) FN_eink_gpu_close) real_dev.

(** The fb0 branch: the copied structure with every hook replaced. *)
Definition wrap_fb (real : framebuffer_device_t) (real_dev fd : Z) : eink_fb_wrapper_t :=
  FbWrapper (FbDevice (fb_width real) (fb_height real)
               FN_eink_fb_setSwapInterval
               (hook_if (fb_setUpdateRect real) FN_eink_fb_setUpdateRect)
               FN_eink_fb_post
               (hook_if (fb_compositionComplete real) FN_eink_fb_compositionComplete)
               (hook_if (fb_dump real) FN_eink_fb_dump)
               (hook_if (fb_enableScreen real) FN_eink_fb_enableScreen)
               FN_eink_fb_close) real_dev fd.

Definition open_gpu0 (real_device : Z) : GM (Z * Z) :=
  let real := real_alloc_at real_device in
  aw ← ext E_malloc;
  if r_ret aw =? 0 then
    _ ← call_real (al_close real) real_device []; mret (- Errno.ENOMEM, 0)
  else
    m ← gets alloc_wrappers;
    _ ← modify (set_allocs (<[r_ret aw := wrap_alloc real real_device]> m));
    mret (0, r_ret aw).

Definition open_fb0 (real_device : Z) : GM (Z * Z) :=
  let real := real_fb_at real_device in
  w ← ext E_malloc;
  if r_ret w =? 0 then
    _ ← call_real (fb_close real) real_device []; mret (- Errno.ENOMEM, 0)
  else
    fd ← ext (E_open "/dev/graphics/fb0");
    m ← gets fb_wrappers;
    _ ← modify (set_fbs (<[r_ret w := wrap_fb real real_device (r_ret fd)]> m));
    mret (0, r_ret w).

(** [eink_device_open]: the status and the pointer stored in [*device] (0 when
    nothing is stored).  The name may be a null pointer, which [strcmp]
    dereferences. *)
Definition eink_device_open (name : option string) : GM (Z * Z) :=
  rc ← ensure_real_loaded;
  if truthy rc then mret (- Errno.EINVAL, 0) else
  m ← gets g_real_module;
  r ← ext (E_module VM_open name [m]);
  if truthy (r_ret r) || (r_out1 r =? 0)
  then mret (if truthy (r_ret r) then r_ret r else - Errno.EINVAL, 0) else
  nm ← lift name;
  if decide (nm = GRALLOC_HARDWARE_GPU0) then open_gpu0 (r_out1 r)
  else if decide (nm ≠ GRALLOC_HARDWARE_FB0) then mret (0, r_out1 r)
  else open_fb0 (r_out1 r).

(** ** Module functions *)

Definition module_call (f : vmodule_fn) (args : list Z) : GM reply :=
  rc ← ensure_real_loaded;
  if truthy rc then mret (Reply (- Errno.EINVAL) 0 0) else
  m ← gets g_real_module;
  ext (E_module f None (m :: args)).

Definition eink_registerBuffer (h : Z) : GM Z := r ← module_call VM_registerBuffer [h]; mret (r_ret r).
Definition eink_unregisterBuffer (h : Z) : GM Z := r ← module_call VM_unregisterBuffer [h]; mret (r_ret r).

(** The return value and the address stored in [*vaddr]. *)
Definition eink_lock (h usage l t w ht : Z) : GM (Z * Z) :=
  r ← module_call VM_lock [h; usage; l; t; w; ht]; mret (r_ret r, r_out1 r).
Definition eink_unlock (h : Z) : GM Z := r ← module_call VM_unlock [h]; mret (r_ret r).

(** ** Operations

    The entry points a client reaches, through the module or through the hooks of
    a device it opened. *)
Inductive gr_op :=
| Op_open (name : option string)
| Op_fb_setSwapInterval (dev interval : Z)
| Op_fb_setUpdateRect (dev l t w h : Z)
| Op_fb_post (dev buffer : Z)
| Op_fb_compositionComplete (dev : Z)
| Op_fb_dump (dev buf len : Z)
| Op_fb_enableScreen (dev enable : Z)
| Op_fb_close (dev : Z)
| Op_gpu_alloc (dev w h fmt usage : Z) (has_handle has_stride : bool)
| Op_gpu_free (dev h : Z)
| Op_gpu_dump (dev buf len : Z)
| Op_gpu_close (dev : Z)
| Op_registerBuffer (h : Z)
| Op_unregisterBuffer (h : Z)
| Op_lock (h usage l t w ht : Z)
| Op_unlock (h : Z).

(** The results of an operation: return value, then output values. *)
Definition gr_step (op : gr_op) : GM (list Z) :=
  match op with
  | Op_open name => '(rc, dev) ← eink_device_open name; mret [rc; dev]
  | Op_fb_setSwapInterval dev i => r ← eink_fb_setSwapInterval dev i; mret [r]
  | Op_fb_setUpdateRect dev l t w h => r ← eink_fb_setUpdateRect dev l t w h; mret [r]
  | Op_fb_post dev b => r ← eink_fb_post dev b; mret [r]
  | Op_fb_compositionComplete dev => r ← eink_fb_compositionComplete dev; mret [r]
  | Op_fb_dump dev b l => _ ← eink_fb_dump dev b l; mret []
  | Op_fb_enableScreen dev e => r ← eink_fb_enableScreen dev e; mret [r]
  | Op_fb_close dev => r ← eink_fb_close dev; mret [r]
  | Op_gpu_alloc dev w h f u hh hs =>
    '(r, hd, st) ← eink_gpu_alloc dev w h f u hh hs; mret [r; hd; st]
  | Op_gpu_free dev h => r ← eink_gpu_free dev h; mret [r]
  | Op_gpu_dump dev b l => _ ← eink_gpu_dump dev b l; mret []
  | Op_gpu_close dev => r ← eink_gpu_close dev; mret [r]
  | Op_registerBuffer h => r ← eink_registerBuffer h; mret [r]
  | Op_unregisterBuffer h => r ← eink_unregisterBuffer h; mret [r]
  | Op_lock h u l t w ht => '(r, va) ← eink_lock h u l t w ht; mret [r; va]
  | Op_unlock h => r ← eink_unlock h; mret [r]
  end.

End Wrapper.
