(* ===== verification/GrallocProps.v ===== *)
(** * The gralloc wrapper: properties

    The buffer table implements a finite map of capacity 64, and the
    trampolines hand the vendor its own device only. *)
From stdpp Require Import gmap strings.
From S2P Require Import Prelude Gralloc.

(** ** The table as a finite map *)

Abbreviation geom := (Z * Z * Z * Z)%type.

Definition entry (b : eink_buf_info_t) : option (Z * geom) :=
  if handle b =? 0 then None else Some (handle b, (width b, height b, stride b, format b)).

Definition entries (bufs : list eink_buf_info_t) : list (Z * geom) := omap entry bufs.

(** The abstract state: handle to geometry. *)
Definition buf_map (bufs : list eink_buf_info_t) : gmap Z geom := list_to_map (entries bufs).

Definition table_ok (bufs : list eink_buf_info_t) : Prop :=
  length bufs = EINK_MAX_BUFS ∧ NoDup (entries bufs).*1.

(** What recording promises: a known handle is overwritten, a new one is
    added while there is room and dropped otherwise. *)
Definition map_record (m : gmap Z geom) (h : Z) (g : geom) : gmap Z geom :=
  if bool_decide (is_Some (m !! h)) || (size m <? EINK_MAX_BUFS)%nat then <[h := g]> m else m.

Lemma find_slot_split bufs h i :
  find_slot bufs h = Some i →
  ∃ l1 b l2, bufs = l1 ++ b :: l2 ∧ length l1 = i ∧ handle b = h.
Proof.
  revert i. induction bufs as [|b bufs IH]; intros i; simpl; [done|]. bcase E.
  - intros [= <-]. exists [], b, bufs. split_and!; [done..|lia].
  - intros (j & Hj & ->)%fmap_Some. destruct (IH j Hj) as (l1 & b' & l2 & -> & <- & Hh).
    by exists (b :: l1), b', l2.
Qed.

Lemma find_slot_None bufs h : find_slot bufs h = None → ∀ b, b ∈ bufs → handle b ≠ h.
Proof.
  induction bufs as [|b bufs IH]; simpl; [set_solver|]. bcase E; [done|].
  rewrite fmap_None. intros Hf b' [->|Hb]%elem_of_cons; [lia|]. by apply IH.
Qed.

(** The two searches of [eink_buf_record] in one: an occupied slot wins over
    an empty one. *)
Lemma record_slot_eq bufs k slot h :
  record_slot bufs k slot h =
  match find_slot bufs h with
  | Some i => Some (k + i)%nat
  | None => match slot with Some j => Some j | None => (λ i, (k + i)%nat) <$> find_slot bufs 0 end
  end.
Proof.
  revert k slot. induction bufs as [|b bufs IH]; intros k slot; simpl; [by destruct slot|].
  bcase E; [f_equal; lia|]. rewrite IH. destruct (find_slot bufs h); simpl; [f_equal; lia|].
  destruct slot; [done|]. bcase E0; [simpl; f_equal; lia|].
  destruct (find_slot bufs 0); simpl; [f_equal; lia|done].
Qed.

Lemma entries_app l1 l2 : entries (l1 ++ l2) = entries l1 ++ entries l2.
Proof. apply omap_app. Qed.

Lemma entries_mid l1 b l2 : entries (l1 ++ b :: l2) = entries l1 ++ entries [b] ++ entries l2.
Proof. unfold entries. rewrite omap_app. f_equal. by rewrite <- omap_app. Qed.

Lemma insert_mid {A} (l1 l2 : list A) b b' : <[length l1 := b']> (l1 ++ b :: l2) = l1 ++ b' :: l2.
Proof. by rewrite <- (Nat.add_0_r (length l1)), insert_app_r. Qed.

Lemma buf_map_lookup_in bufs b :
  table_ok bufs → b ∈ bufs → handle b ≠ 0 →
  buf_map bufs !! handle b = Some (width b, height b, stride b, format b).
Proof.
  intros [_ Hd] Hb Hh. apply elem_of_list_to_map_1; [done|].
  apply list_elem_of_omap. exists b. split; [done|]. unfold entry. by bcase E; [lia|].
Qed.

Lemma buf_map_lookup_Some bufs h g :
  buf_map bufs !! h = Some g → h ≠ 0 ∧ ∃ b, b ∈ bufs ∧ handle b = h.
Proof.
  intros Hl%elem_of_list_to_map_2. apply list_elem_of_omap in Hl as (b & Hb & He).
  unfold entry in He. destruct (Z.eqb_spec (handle b) 0); [done|]. injection He as <- _. eauto.
Qed.

Lemma buf_map_lookup_0 bufs : buf_map bufs !! 0 = None.
Proof. destruct (_ !! 0) eqn:E; [|done]. by apply buf_map_lookup_Some in E as []. Qed.

Lemma find_slot_query bufs h :
  table_ok bufs → h ≠ 0 → eink_gralloc_query bufs h = buf_map bufs !! h.
Proof.
  intros Hok Hh. unfold eink_gralloc_query. destruct (find_slot bufs h) as [i|] eqn:E; simpl.
  - apply find_slot_split in E as (l1 & b & l2 & -> & <- & <-).
    rewrite list_lookup_middle by done. simpl. symmetry. apply buf_map_lookup_in; [done|set_solver|done].
  - symmetry. destruct (buf_map bufs !! h) as [g|] eqn:E2; [|done].
    apply buf_map_lookup_Some in E2 as (_ & b & Hb & Hbh). by destruct (find_slot_None _ _ E b Hb).
Qed.

Lemma table_size bufs : table_ok bufs → size (buf_map bufs) = length (entries bufs).
Proof. intros [_ Hd]. unfold buf_map. by rewrite map_size_list_to_map. Qed.

Lemma entries_length bufs : (length (entries bufs) ≤ length bufs)%nat.
Proof.
  induction bufs as [|b bufs IH]; [done|]. change (b :: bufs) with ([] ++ b :: bufs).
  rewrite entries_mid. unfold entries in *. simpl. destruct (entry b); simpl; lia.
Qed.

Lemma buf_map_mid l1 b l2 :
  table_ok (l1 ++ b :: l2) →
  buf_map (l1 ++ b :: l2) = match entry b with
    | Some (h, g) => <[h := g]> (buf_map (l1 ++ l2)) | None => buf_map (l1 ++ l2) end.
Proof.
  intros [_ Hd]. unfold buf_map. rewrite entries_mid in *.
  transitivity (list_to_map (M := gmap Z geom) (entries [b] ++ entries l1 ++ entries l2)).
  - apply list_to_map_proper; [done|]. by rewrite Permutation_app_swap_app.
  - rewrite <- entries_app. unfold entries at 1. cbn. destruct (entry b) as [[h g]|]; done.
Qed.

Lemma table_ok_mid l1 b l2 :
  table_ok (l1 ++ b :: l2) ↔
  length (l1 ++ l2) = pred EINK_MAX_BUFS ∧ NoDup (entries (l1 ++ l2)).*1 ∧
  ∀ h g, entry b = Some (h, g) → h ∉ (entries (l1 ++ l2)).*1.
Proof.
  unfold table_ok. rewrite entries_mid, length_app. simpl.
  rewrite entries_app, !fmap_app, Permutation_app_swap_app. unfold entries at 1. cbn.
  rewrite length_app. unfold EINK_MAX_BUFS.
  destruct (entry b) as [[h g]|]; simpl.
  - rewrite NoDup_cons. split.
    + intros (? & ? & ?). split_and!; [lia|done|]. by intros h' g' [= <- <-].
    + intros (? & ? & Hx). split_and!; [lia|by eapply Hx|done].
  - split; [intros []|intros (?&?&?)]; split_and!; try done; lia.
Qed.

Lemma mid_map_fresh l1 b l2 h g :
  table_ok (l1 ++ b :: l2) → entry b = Some (h, g) → buf_map (l1 ++ l2) !! h = None.
Proof.
  intros (_ & _ & Hx)%table_ok_mid He. apply not_elem_of_list_to_map_1. by eapply Hx.
Qed.

Lemma eink_buf_forget_map bufs h :
  table_ok bufs → table_ok (eink_buf_forget bufs h) ∧
  buf_map (eink_buf_forget bufs h) = delete h (buf_map bufs).
Proof.
  intros Hok. unfold eink_buf_forget. destruct (find_slot bufs h) as [i|] eqn:E.
  - apply find_slot_split in E as (l1 & b & l2 & -> & <- & <-). rewrite insert_mid.
    assert (table_ok (l1 ++ empty_slot :: l2)) as Hok'.
    { apply table_ok_mid. apply table_ok_mid in Hok as (? & ? & _). by split_and!. }
    split; [done|]. rewrite !buf_map_mid by done. simpl.
    destruct (entry b) as [[h g]|] eqn:Eb.
    + assert (handle b = h) as ->. { unfold entry in Eb. destruct (handle b =? 0); [done|]. by injection Eb. }
      rewrite delete_insert_eq, delete_id; [done|]. by apply (mid_map_fresh l1 b l2 h g).
    + assert (handle b = 0) as ->. { unfold entry in Eb. destruct (Z.eqb_spec (handle b) 0); done. }
      by rewrite delete_id by apply buf_map_lookup_0.
  - split; [done|]. rewrite delete_id; [done|]. destruct (_ !! h) eqn:E2; [|done].
    apply buf_map_lookup_Some in E2 as (_ & b & Hb & Hbh). by destruct (find_slot_None _ _ E b Hb).
Qed.

(** Writing a slot that is empty or already holds the handle. *)
Lemma record_mid l1 b l2 h w ht st f :
  h ≠ 0 → table_ok (l1 ++ b :: l2) →
  handle b = h ∨ handle b = 0 ∧ buf_map (l1 ++ b :: l2) !! h = None →
  table_ok (l1 ++ BufInfo h w ht st f :: l2) ∧
  buf_map (l1 ++ BufInfo h w ht st f :: l2) = <[h := (w, ht, st, f)]> (buf_map (l1 ++ b :: l2)).
Proof.
  intros Hh Hok Hb.
  assert (entry (BufInfo h w ht st f) = Some (h, (w, ht, st, f))) as He.
  { unfold entry. simpl. by destruct (Z.eqb_spec h 0). }
  assert (buf_map (l1 ++ l2) !! h = None ∧
          <[h := (w, ht, st, f)]> (buf_map (l1 ++ b :: l2)) = <[h := (w, ht, st, f)]> (buf_map (l1 ++ l2)))
    as [Hn ->].
  { pose proof (mid_map_fresh _ _ _ h (width b, height b, stride b, format b) Hok) as Hf.
    rewrite buf_map_mid in * by done. unfold entry in *.
    destruct Hb as [Hb|[-> Hb]]; [|by split].
    destruct (Z.eqb_spec (handle b) 0); [lia|]. rewrite Hb in *.
    split; [by apply Hf|]. by rewrite insert_insert_eq. }
  assert (table_ok (l1 ++ BufInfo h w ht st f :: l2)) as Hok'.
  { apply table_ok_mid. apply table_ok_mid in Hok as (? & ? & _). split_and!; [done..|].
    rewrite He. intros h' g' [= <- <-]. by apply not_elem_of_list_to_map_2 in Hn. }
  split; [done|]. by rewrite buf_map_mid, He by done.
Qed.

Lemma entries_full bufs : (∀ b, b ∈ bufs → handle b ≠ 0) → length (entries bufs) = length bufs.
Proof.
  induction bufs as [|b bufs IH]; intros Hb; [done|]. change (b :: bufs) with ([b] ++ bufs).
  rewrite entries_app. unfold entries at 1. simpl.
  assert (entry b = Some (handle b, (width b, height b, stride b, format b))) as ->.
  { unfold entry. destruct (Z.eqb_spec (handle b) 0); [|done]. exfalso. apply (Hb b); [set_solver|done]. }
  simpl. rewrite IH; [done|]. intros. apply Hb. set_solver.
Qed.

Lemma eink_buf_record_map bufs h w ht st f :
  h ≠ 0 → table_ok bufs →
  table_ok (eink_buf_record bufs h w ht st f) ∧
  buf_map (eink_buf_record bufs h w ht st f) = map_record (buf_map bufs) h (w, ht, st, f).
Proof.
  intros Hh Hok. unfold eink_buf_record, map_record. rewrite record_slot_eq, table_size by done.
  rewrite <- find_slot_query by done.
  assert (∀ i b, bufs !! i = Some b → handle b = h ∨ handle b = 0 ∧ buf_map bufs !! h = None →
    table_ok (<[i:=BufInfo h w ht st f]> bufs) ∧
    buf_map (<[i:=BufInfo h w ht st f]> bufs) = <[h:=(w, ht, st, f)]> (buf_map bufs)) as Hrec.
  { intros i b Hi Hb. apply list_elem_of_split_length in Hi as (l1 & l2 & -> & ->).
    rewrite insert_mid. by apply record_mid. }
  unfold eink_gralloc_query. destruct (find_slot bufs h) as [i|] eqn:E; simpl.
  - pose proof E as (l1 & b & l2 & -> & <- & Hb)%find_slot_split.
    rewrite list_lookup_middle by done. simpl.
    apply Hrec with b; [by apply list_lookup_middle|by left].
  - destruct (find_slot bufs 0) as [i|] eqn:E0; simpl.
    + pose proof E0 as (l1 & b & l2 & Hbufs & <- & Hb)%find_slot_split.
      assert (entries bufs = entries (l1 ++ l2)) as ->.
      { rewrite Hbufs, entries_mid. unfold entries. rewrite omap_app. simpl. unfold entry at 2.
        by rewrite Hb. }
      pose proof (entries_length (l1 ++ l2)). pose proof Hok as [Hlen _].
      rewrite Hbufs, length_app in Hlen. simpl in Hlen. rewrite length_app in *.
      destruct (Nat.ltb_spec (length (entries (l1 ++ l2))) EINK_MAX_BUFS); [|lia].
      apply Hrec with b; [rewrite Hbufs; by apply list_lookup_middle|right; split; [done|]].
      rewrite <- find_slot_query by done. unfold eink_gralloc_query. by rewrite E.
    + split; [done|]. pose proof Hok as [Hlen _].
      rewrite entries_full by (by apply find_slot_None). rewrite Hlen. done.
Qed.

(** ** Running the operations *)

#[local] Ltac gm_unfold :=
  cbv [mbind GM_bind mret GM_ret gets modify lift ext fault deref_fb deref_alloc option_bind
       call_real ensure_real_loaded eink_send_update module_call open_gpu0 open_fb0
       eink_device_open eink_fb_setSwapInterval eink_fb_setUpdateRect eink_fb_post
       eink_fb_compositionComplete eink_fb_dump eink_fb_enableScreen eink_fb_close eink_gpu_alloc
       eink_gpu_free eink_gpu_dump eink_gpu_close eink_registerBuffer eink_unregisterBuffer
       eink_lock eink_unlock gr_step] in *.

(** Runs a computation in a hypothesis, branch by branch. *)
#[local] Ltac gm_run H :=
  gm_unfold; repeat (case_match; simplify_eq; try done); simpl in *.

Section Props.
Context `{GrallocEnv}.

(** What an operation does to the abstract table, given its results. *)
Definition map_step (op : gr_op) (res : list Z) (m : gmap Z geom) : gmap Z geom :=
  match op, res with
  | Op_gpu_alloc _ w h f _ true hs, [0; hd; st] =>
    if truthy hd then map_record m hd (w, h, if hs then st else w, f) else m
  | Op_gpu_free _ h, _ => delete h m
  | _, _ => m
  end.

Lemma ensure_real_loaded_bufs s rc s' :
  ensure_real_loaded s = Some (rc, s') → g_bufs s' = g_bufs s.
Proof. intros Hr. gm_run Hr; done. Qed.

(** The call [eink_gpu_alloc] makes, and its effect on the table. *)
Definition alloc_call (aw : eink_alloc_wrapper_t) (w h fmt usage : Z) : ecall :=
  E_vendor (al_alloc (real_alloc_at (aw_real_dev aw))) (aw_real_dev aw)
    [w; h; fmt; usage &&& Z.lnot GRALLOC_USAGE_HW_FB].

Lemma eink_gpu_alloc_run dev w h fmt usage hh hs s res s' :
  eink_gpu_alloc dev w h fmt usage hh hs s = Some (res, s') →
  ∃ aw, alloc_wrappers s !! dev = Some aw ∧
    let c := alloc_call aw w h fmt usage in
    let r := answer (hist s) c in
    res = (r_ret r, r_out1 r, r_out2 r) ∧ hist s' = hist s ++ [c] ∧
    g_bufs s' = if (r_ret r =? 0) && hh && truthy (r_out1 r)
                then eink_buf_record (g_bufs s) (r_out1 r) w h (if hs then r_out2 r else w) fmt
                else g_bufs s.
Proof.
  intros Hs. gm_unfold. destruct (alloc_wrappers s !! dev) as [aw|] eqn:E; [|done]. simpl in Hs.
  destruct (decide _) as [|Hn]; [done|]. exists aw. split; [done|]. unfold alloc_call. simpl.
  destruct (_ && _ && _); by simplify_eq.
Qed.

Lemma gr_step_bufs op s res s' :
  table_ok (g_bufs s) → gr_step op s = Some (res, s') →
  table_ok (g_bufs s') ∧ buf_map (g_bufs s') = map_step op res (buf_map (g_bufs s)).
Proof.
  intros Hok Hs. destruct op; try (gm_run Hs; done).
  - unfold gr_step in Hs. cbv [mbind GM_bind mret GM_ret] in Hs.
    destruct (eink_gpu_alloc _ _ _ _ _ _ _ s) as [[[[r hd] st] s1]|] eqn:E; [|done]. simplify_eq.
    apply eink_gpu_alloc_run in E as (aw & _ & Hr & _ & ->). simpl in Hr. injection Hr as -> -> ->.
    set (r := answer _ _). destruct has_handle; [|by rewrite andb_false_r].
    destruct (Z.eqb_spec (r_ret r) 0) as [->|Hr]; simpl.
    + destruct (truthy (r_out1 r)) eqn:Et; [|done]. apply eink_buf_record_map; [|done].
      unfold truthy in Et. lia.
    + by destruct (r_ret r).
  - unfold gr_step in Hs. gm_unfold. destruct (alloc_wrappers s !! dev) as [aw|] eqn:E; [|done].
    simpl in Hs. destruct (decide _); [done|]. simplify_eq. simpl. by apply eink_buf_forget_map.
Qed.

Fixpoint gr_run (ops : list gr_op) (s : gr_state) : option (list (list Z) * gr_state) :=
  match ops with
  | [] => Some ([], s)
  | op :: ops =>
    '(res, s) ← gr_step op s; '(ress, s) ← gr_run ops s; Some (res :: ress, s)
  end.

(** The abstract table after a run, from the results the client saw. *)
Fixpoint map_run (ops : list gr_op) (ress : list (list Z)) (m : gmap Z geom) : gmap Z geom :=
  match ops, ress with
  | op :: ops, res :: ress => map_run ops ress (map_step op res m)
  | _, _ => m
  end.

Lemma gr_run_bufs ops s ress s' :
  table_ok (g_bufs s) → gr_run ops s = Some (ress, s') →
  table_ok (g_bufs s') ∧ buf_map (g_bufs s') = map_run ops ress (buf_map (g_bufs s)).
Proof.
  revert s ress. induction ops as [|op ops IH]; intros s ress Hok Hr; simpl in Hr; [by simplify_eq|].
  destruct (gr_step op s) as [[res s1]|] eqn:E1; [|done]. simpl in Hr.
  destruct (gr_run ops s1) as [[ress1 s2]|] eqn:E2; [|done]. simpl in Hr. simplify_eq.
  destruct (gr_step_bufs _ _ _ _ Hok E1) as [Hok1 Hm]. simpl. rewrite <- Hm. by apply IH.
Qed.

Lemma g_bufs_init_ok : table_ok g_bufs_init.
Proof. split; [done|]. apply NoDup_nil_2. Qed.

Lemma table_size_le bufs : table_ok bufs → (size (buf_map bufs) ≤ EINK_MAX_BUFS)%nat.
Proof. intros Hok. rewrite table_size by done. destruct Hok as [<- _]. apply entries_length. Qed.

(** ** Safety of the trampolines *)

(** The hooks the HAL requires a device to have. *)
Definition vendor_hooks : Prop :=
  ∀ d, fb_post (real_fb_at d) ≠ FN_NULL ∧ fb_close (real_fb_at d) ≠ FN_NULL ∧
       al_alloc (real_alloc_at d) ≠ FN_NULL ∧ al_free (real_alloc_at d) ≠ FN_NULL ∧
       al_close (real_alloc_at d) ≠ FN_NULL.

(** The vendor device behind the wrapper an operation is called on. *)
Definition op_real_dev (op : gr_op) (s : gr_state) : option Z :=
  match op with
  | Op_fb_setSwapInterval dev _ | Op_fb_setUpdateRect dev _ _ _ _ | Op_fb_post dev _
  | Op_fb_compositionComplete dev | Op_fb_dump dev _ _ | Op_fb_enableScreen dev _ | Op_fb_close dev =>
    fw_real_dev <$> fb_wrappers s !! dev
  | Op_gpu_alloc dev _ _ _ _ _ _ | Op_gpu_free dev _ | Op_gpu_dump dev _ _ | Op_gpu_close dev =>
    aw_real_dev <$> alloc_wrappers s !! dev
  | _ => None
  end.

Definition own_device (d : Z) (c : ecall) : Prop :=
  match c with E_vendor _ dev _ => dev = d | _ => True end.

Lemma hist_nil s : hist s = hist s ++ [].
Proof. by rewrite app_nil_r. Qed.

#[local] Ltac close_call :=
  first [ exists []; split; [apply hist_nil|by apply Forall_nil]
        | eexists [_]; split; [reflexivity|by repeat constructor]
        | eexists [_; _]; split; [simpl; rewrite <- app_assoc; reflexivity|by repeat constructor]
        | eexists [_; _; _]; split; [simpl; rewrite <- !app_assoc; reflexivity|by repeat constructor] ].

Lemma trampoline_run op s d :
  vendor_hooks → op_real_dev op s = Some d →
  ∃ res s', gr_step op s = Some (res, s') ∧
    ∃ new, hist s' = hist s ++ new ∧ Forall (own_device d) new.
Proof.
  intros Hv Hd. destruct (Hv d) as (Hp & Hc & Ha & Hf & Hc').
  destruct op; simpl in Hd; try done; apply fmap_Some in Hd as (w' & Hw & ->);
    gm_unfold; rewrite Hw; simpl;
    repeat (first [rewrite decide_False by done | let E := fresh in bcase E]; simpl);
    (eexists _, _; split; [reflexivity|]; simpl; close_call).
Qed.

(** ** Properties *)

(** C18: after any sequence of operations on the module, the side table is a
    finite map from handles to geometries, holding at most 64 buffers: an allocation that
    succeeded overwrites or adds its handle (and is dropped when 64 other buffers
    are live), a free removes it, no other operation touches it, and
    [eink_gralloc_query] answers every non-null handle with exactly the
    entry of that map. *)
Theorem gralloc_table_refines_map ops ress s :
  gr_run ops gr_init = Some (ress, s) →
  let m := map_run ops ress ∅ in
  (size m ≤ EINK_MAX_BUFS)%nat ∧ ∀ h, h ≠ 0 → eink_gralloc_query (g_bufs s) h = m !! h.
Proof.
  intros Hr. apply gr_run_bufs in Hr as [Hok Hm]; [|apply g_bufs_init_ok].
  change (buf_map (g_bufs gr_init)) with (∅ : gmap Z geom) in Hm. simpl. rewrite <- Hm.
  split; [by apply table_size_le|]. intros h Hh. by apply find_slot_query.
Qed.

(** An allocation the vendor grants while fewer than 64 buffers are
    recorded can be queried: the geometry asked for, with the vendor's stride, is
    returned for the new handle and nothing changes for the others.  The
    vendor sees the requested usage with the framebuffer bit cleared and every
    other bit as it was. *)
Theorem gpu_alloc_query_roundtrip dev w h fmt usage s aw :
  alloc_wrappers s !! dev = Some aw → al_alloc (real_alloc_at (aw_real_dev aw)) ≠ FN_NULL →
  table_ok (g_bufs s) → (size (buf_map (g_bufs s)) < EINK_MAX_BUFS)%nat →
  let r := answer (hist s) (alloc_call aw w h fmt usage) in
  r_ret r = 0 → r_out1 r ≠ 0 →
  ∃ s' real_usage,
    eink_gpu_alloc dev w h fmt usage true true s = Some ((0, r_out1 r, r_out2 r), s') ∧
    eink_gralloc_query (g_bufs s') (r_out1 r) = Some (w, h, r_out2 r, fmt) ∧
    (∀ h', h' ≠ 0 → h' ≠ r_out1 r →
       eink_gralloc_query (g_bufs s') h' = eink_gralloc_query (g_bufs s) h') ∧
    hist s' = hist s ++ [E_vendor (al_alloc (real_alloc_at (aw_real_dev aw))) (aw_real_dev aw)
                           [w; h; fmt; real_usage]] ∧
    ∀ i, 0 ≤ i → Z.testbit real_usage i = if i =? 12 then false else Z.testbit usage i.
Proof.
  intros Hw Hf Hok Hsz r Hr0 Hr1.
  destruct (eink_gpu_alloc dev w h fmt usage true true s) as [[res s']|] eqn:E; cycle 1.
  { gm_unfold. rewrite Hw in E. simpl in E. rewrite decide_False in E by done.
    by destruct (_ && _ && _). }
  apply eink_gpu_alloc_run in E as (aw' & Hw' & -> & Hh & Hb). simplify_eq. fold r in Hb |- *.
  assert (truthy (r_out1 r) = true) as Ht by (unfold truthy; lia).
  rewrite Hr0, Ht in Hb. simpl in Hb.
  destruct (eink_buf_record_map (g_bufs s) (r_out1 r) w h (r_out2 r) fmt) as [Hok' Hm]; [done..|].
  unfold map_record in Hm. rewrite (proj2 (Nat.ltb_lt _ _) Hsz), orb_true_r in Hm.
  exists s', (usage &&& Z.lnot GRALLOC_USAGE_HW_FB). rewrite Hr0. split_and!; [done| | |done|].
  - by rewrite Hb, find_slot_query, Hm, lookup_insert_eq.
  - intros h' Hh' Hne. by rewrite Hb, !find_slot_query, Hm, lookup_insert_ne by done.
  - intros i Hi. rewrite Z.land_spec, Z.lnot_spec by done.
    change GRALLOC_USAGE_HW_FB with (2 ^ 12). rewrite Z.pow2_bits_eqb, Z.eqb_sym by lia.
    destruct (i =? 12); [apply andb_false_r|apply andb_true_r].
Qed.

(** Provided the vendor's devices have the hooks the HAL makes
    mandatory, an operation on an open framebuffer or allocator wrapper always
    returns, and every call it makes through a vendor function pointer passes the
    vendor's own device, never the wrapper. *)
Theorem trampolines_pass_real_device op s d :
  vendor_hooks → op_real_dev op s = Some d →
  ∃ res s' new, gr_step op s = Some (res, s') ∧ hist s' = hist s ++ new ∧
    ∀ f dev args, E_vendor f dev args ∈ new → dev = d.
Proof.
  intros Hv Hd. destruct (trampoline_run op s d Hv Hd) as (res & s' & Hs & new & Hn & Hf).
  exists res, s', new. split_and!; [done..|]. intros f dev args Hin.
  rewrite Forall_forall in Hf. by specialize (Hf _ Hin).
Qed.

(** [eink_fb_post] on an open wrapper forwards the buffer to the vendor
    and, exactly when the vendor accepted it and the framebuffer could be opened,
    asks the panel for one full update of the whole screen; the vendor's
    return value is passed on. *)
Theorem fb_post_refreshes dev buffer s w :
  vendor_hooks → fb_wrappers s !! dev = Some w →
  let c := E_vendor (fb_post (real_fb_at (fw_real_dev w))) (fw_real_dev w) [buffer] in
  let r := answer (hist s) c in
  ∃ s', eink_fb_post dev buffer s = Some (r_ret r, s') ∧
    hist s' = hist s ++ c ::
      (if (r_ret r =? 0) && (0 <=? fw_eink_fd w)
       then [E_send_update (fw_eink_fd w)
               (Update 0 0 (fb_width (fw_device w)) (fb_height (fw_device w)) true)] else []).
Proof.
  intros Hv Hw. destruct (Hv (fw_real_dev w)) as (Hp & _). gm_unfold. rewrite Hw. simpl.
  rewrite decide_False by done. simpl. destruct (_ && _); eexists; (split; [done|]); simpl; [|done].
  by rewrite <- app_assoc.
Qed.

(** The function pointers a client finds in a framebuffer device. *)
Definition fb_hooks (d : framebuffer_device_t) : list fnptr :=
  [fb_setSwapInterval d; fb_setUpdateRect d; fb_post d; fb_compositionComplete d; fb_dump d;
   fb_enableScreen d; fb_close d].

Definition alloc_hooks (d : alloc_device_t) : list fnptr := [al_alloc d; al_free d; al_dump d; al_close d].

Definition is_vendor (f : fnptr) : Prop := match f with FN_vendor _ => True | _ => False end.

Lemma hook_if_cases real f : ¬ is_vendor f → ¬ is_vendor (hook_if real f).
Proof. unfold hook_if. destruct (decide _); [by intros _ []|done]. Qed.

(** Opening a device always returns.  A failure leaves no wrapper behind
    and stores no device; a success for the allocator or the framebuffer yields a
    wrapper of the opened vendor device none of whose function pointers is
    the vendor's own, and any other name is passed through with no
    wrapper.  The buffer table is not touched. *)
Theorem device_open_outcomes name s :
  vendor_hooks →
  ∃ rc dev s', eink_device_open (Some name) s = Some ((rc, dev), s') ∧ g_bufs s' = g_bufs s ∧
    (rc ≠ 0 → dev = 0 ∧ fb_wrappers s' = fb_wrappers s ∧ alloc_wrappers s' = alloc_wrappers s) ∧
    (rc = 0 → dev ≠ 0 ∧
       if decide (name = GRALLOC_HARDWARE_GPU0) then
         ∃ w, alloc_wrappers s' = <[dev := w]> (alloc_wrappers s) ∧ fb_wrappers s' = fb_wrappers s ∧
              Forall (λ f, ¬ is_vendor f) (alloc_hooks (aw_device w))
       else if decide (name = GRALLOC_HARDWARE_FB0) then
         ∃ w, fb_wrappers s' = <[dev := w]> (fb_wrappers s) ∧ alloc_wrappers s' = alloc_wrappers s ∧
              Forall (λ f, ¬ is_vendor f) (fb_hooks (fw_device w)) ∧
              fb_width (fw_device w) = fb_width (real_fb_at (fw_real_dev w)) ∧
              fb_height (fw_device w) = fb_height (real_fb_at (fw_real_dev w))
       else fb_wrappers s' = fb_wrappers s ∧ alloc_wrappers s' = alloc_wrappers s).
Proof.
  intros Hv. unfold eink_device_open. cbv [mbind GM_bind].
  assert (∃ rc s1, ensure_real_loaded s = Some (rc, s1) ∧ g_bufs s1 = g_bufs s ∧
    fb_wrappers s1 = fb_wrappers s ∧ alloc_wrappers s1 = alloc_wrappers s) as (rc & s1 & -> & Hb & <- & <-).
  { gm_unfold. repeat (let E := fresh in bcase E; simpl); eauto 10. }
  rewrite <- Hb. destruct (truthy rc) eqn:Hrc.
  { exists (- Errno.EINVAL), 0, s1. split_and!; [done..|]. intros Hz. by vm_compute in Hz. }
  unfold gets at 1, ext at 1. set (r := answer _ _).
  destruct (truthy (r_ret r) || (r_out1 r =? 0)) eqn:Hst.
  { eexists _, 0, _. split_and!; [done..|]. intros Hz. exfalso. unfold truthy in Hz.
    revert Hz. bcase E; simpl; [lia|done]. }
  apply orb_false_iff in Hst as [Hr0 Hr1]. unfold lift. cbn [mbind option_bind].
  destruct (Hv (r_out1 r)) as (_ & Hc & _ & _ & Hc'). unfold open_gpu0, open_fb0, call_real.
  destruct (decide (name = GRALLOC_HARDWARE_GPU0)) as [->|Hg].
  - gm_unfold. simpl. bcase E; [rewrite decide_False by done|].
    + eexists _, _, _. split_and!; [done..|]. intros Hz. by vm_compute in Hz.
    + eexists _, _, _. split_and!; [done..|]. intros _. split; [lia|]. eexists. split_and!; [done..|].
      repeat constructor; try (by intros []). apply hook_if_cases. by intros [].
  - destruct (decide (name = GRALLOC_HARDWARE_FB0)) as [->|Hf].
    + rewrite decide_False by (intros Hn; by apply Hn). gm_unfold. simpl.
      bcase E.
      { rewrite decide_False by done. eexists _, _, _. split_and!; [done..|]. intros Hz. by vm_compute in Hz. }
      eexists _, _, _. split_and!; [done..|]. intros _. split; [lia|]. eexists. split_and!; [done..| |done|done].
      repeat constructor; try (by intros []); apply hook_if_cases; by intros [].
    + rewrite decide_True by done. eexists _, _, _. split_and!; [done..|]. intros _. split; [lia|done].
Qed.
End Props.

(** ** A concrete world *)
Module Demo.

(** A vendor that grants everything: device 500, handles from 2000 on, rows
    of 1472 pixels. *)
#[local] Instance env : GrallocEnv := {|
  answer h c := match c with
    | E_malloc => Reply (1000 + zlen h) 0 0
    | E_module VM_open _ _ => Reply 0 500 0
    | E_vendor (FN_vendor 1) _ _ => Reply 0 (2000 + zlen h) 1472
    | E_dlopen _ => Reply 1 0 0
    | E_dlsym _ => Reply 2 0 0
    | E_open _ => Reply 7 0 0
    | _ => Reply 0 0 0
    end;
  real_fb_at _ := FbDevice 1448 1072 FN_NULL (FN_vendor 2) (FN_vendor 3) FN_NULL FN_NULL FN_NULL (FN_vendor 4);
  real_alloc_at _ := AllocDevice (FN_vendor 1) (FN_vendor 5) FN_NULL (FN_vendor 6) |}.

Lemma hooks : vendor_hooks.
Proof. by intros d. Qed.

Definition ops : list gr_op :=
  [Op_open (Some "gpu0"%string); Op_gpu_alloc 1003 1448 1072 2 0x1933 true true;
   Op_gpu_alloc 1003 64 64 1 0x33 true true; Op_gpu_free 1003 2004].

Definition run : list (list Z) * gr_state :=
  match gr_run ops gr_init with Some r => r | None => ([], gr_init) end.

Definition st : gr_state :=
  match gr_run (take 1 ops) gr_init with Some r => r.2 | None => gr_init end.

Definition st_fb : gr_state :=
  match gr_run [Op_open (Some "fb0"%string)] gr_init with Some r => r.2 | None => gr_init end.

Lemma gralloc_table_refines_map_witness :
  eink_gralloc_query (g_bufs run.2) 2005 = Some (64, 64, 1472, 1) ∧
  eink_gralloc_query (g_bufs run.2) 2004 = None.
Proof.
  destruct (gralloc_table_refines_map ops run.1 run.2) as [_ Hq]; [vm_compute; reflexivity|].
  rewrite !Hq by lia. vm_compute. done.
Defined.

Definition aw : eink_alloc_wrapper_t := wrap_alloc (real_alloc_at 500) 500.

Lemma gpu_alloc_query_roundtrip_witness :
  ∃ s', eink_gpu_alloc 1003 1448 1072 2 0x1933 true true st = Some ((0, 2004, 1472), s') ∧
        eink_gralloc_query (g_bufs s') 2004 = Some (1448, 1072, 1472, 2).
Proof.
  destruct (gpu_alloc_query_roundtrip 1003 1448 1072 2 0x1933 st aw) as (s' & u & Hs & Hq & _);
    [vm_compute; reflexivity|done|split; [done|apply NoDup_nil_2]|vm_compute; lia|done|done|].
  by exists s'.
Defined.

Lemma trampolines_pass_real_device_witness :
  op_real_dev (Op_gpu_free 1003 2004) st = Some 500 ∧
  ∃ res s' new, gr_step (Op_gpu_free 1003 2004) st = Some (res, s') ∧ hist s' = hist st ++ new ∧
    ∀ f dev args, E_vendor f dev args ∈ new → dev = 500.
Proof.
  split; [vm_compute; reflexivity|].
  apply (trampolines_pass_real_device (Op_gpu_free 1003 2004) st 500); [apply hooks|vm_compute; reflexivity].
Defined.

Lemma fb_post_refreshes_witness :
  ∃ s', eink_fb_post 1003 2004 st_fb = Some (0, s') ∧
        last (hist s') = Some (E_send_update 7 (Update 0 0 1448 1072 true)).
Proof.
  destruct (fb_post_refreshes 1003 2004 st_fb (wrap_fb (real_fb_at 500) 500 7)) as (s' & Hs & Hh);
    [apply hooks|vm_compute; reflexivity|].
  exists s'. split; [exact Hs|]. rewrite Hh. vm_compute. reflexivity.
Defined.

Lemma device_open_outcomes_witness :
  vendor_hooks ∧ ∃ rc dev s', eink_device_open (Some "fb0"%string) gr_init = Some ((rc, dev), s').
Proof.
  split; [apply hooks|].
  destruct (device_open_outcomes "fb0"%string gr_init hooks) as (rc & dev & s' & Hs & _). by eexists _, _, _.
Defined.
End Demo.
