(* ===== verification/Pixel.v ===== *)
(** * The e-ink hwcomposer: pixel formats and blending

    Model of [src_bytes_per_pixel], [to_rgb565], [format_has_alpha] and
    [blend_px] of [gralloc_eink/src/hwcomposer_eink.c].  A source pixel is the
    list of its bytes, a destination pixel a 16-bit RGB565 value. *)
From S2P Require Import Prelude.

(** The HAL enumerations as the sources use them: the values they name, and
    any other value. *)
Inductive pixel_format :=
| HAL_PIXEL_FORMAT_RGBA_8888
| HAL_PIXEL_FORMAT_RGBX_8888
| HAL_PIXEL_FORMAT_RGB_888
| HAL_PIXEL_FORMAT_RGB_565
| HAL_PIXEL_FORMAT_BGRA_8888
| HAL_PIXEL_FORMAT_OTHER (n : Z).

Inductive hwc_blending :=
| HWC_BLENDING_NONE
| HWC_BLENDING_PREMULT
| HWC_BLENDING_COVERAGE
| HWC_BLENDING_OTHER (n : Z).

#[export] Instance pixel_format_eq_dec : EqDecision pixel_format.
Proof. solve_decision. Defined.
#[export] Instance hwc_blending_eq_dec : EqDecision hwc_blending.
Proof. solve_decision. Defined.

Definition src_bytes_per_pixel (format : pixel_format) : Z :=
  match format with
  | HAL_PIXEL_FORMAT_RGBA_8888 | HAL_PIXEL_FORMAT_RGBX_8888 | HAL_PIXEL_FORMAT_BGRA_8888 => 4
  | HAL_PIXEL_FORMAT_RGB_888 => 3
  | HAL_PIXEL_FORMAT_RGB_565 => 2
  | HAL_PIXEL_FORMAT_OTHER _ => 0
  end.

(** A 16-bit load through [p] on a little-endian machine. *)
Definition load16 (p : list Z) : Z := mget p 0 + 256 * mget p 1.

Definition is_bgra (format : pixel_format) : bool := bool_decide (format = HAL_PIXEL_FORMAT_BGRA_8888).

(** The packing expression both functions end with, truncated to [uint16_t]. *)
Definition pack565 (r g b : Z) : Z :=
  u16 ((Z.shiftl (r &&& 0xf8) 8 ||| Z.shiftl (g &&& 0xfc) 3) ||| Z.shiftr b 3).

Definition to_rgb565 (p : list Z) (sbpp : Z) (format : pixel_format) : Z :=
  if sbpp =? 2 then load16 p
  else if is_bgra format then pack565 (mget p 2) (mget p 1) (mget p 0)
  else pack565 (mget p 0) (mget p 1) (mget p 2).

Definition format_has_alpha (format : pixel_format) : bool :=
  match format with
  | HAL_PIXEL_FORMAT_RGBA_8888 | HAL_PIXEL_FORMAT_BGRA_8888 => true
  | _ => false
  end.

(** [(x * y + 127) / 255] *)
Definition scale255 (x y : Z) : Z := (x * y + 127) / 255.

(** The channels of an RGB565 value, widened to eight bits. *)
Definition r565 (v : Z) : Z := Z.shiftl (Z.shiftr v 11 &&& 0x1f) 3.
Definition g565 (v : Z) : Z := Z.shiftl (Z.shiftr v 5 &&& 0x3f) 2.
Definition b565 (v : Z) : Z := Z.shiftl (v &&& 0x1f) 3.

Definition clamp255 (x : Z) : Z := if 255 <? x then 255 else x.

(** The effective alpha of a source pixel. *)
Definition px_alpha (p : list Z) (format : pixel_format) (blending : hwc_blending) (plane_alpha : Z) : Z :=
  let a := if bool_decide (blending = HWC_BLENDING_NONE) || negb (format_has_alpha format)
           then 255 else mget p 3 in
  if plane_alpha <? 255 then scale255 a plane_alpha else a.

(** The colour channels of a source pixel, before blending. *)
Definition px_rgb (p : list Z) (sbpp : Z) (format : pixel_format) : Z * Z * Z :=
  if sbpp =? 2 then let v := load16 p in (r565 v, g565 v, b565 v)
  else if is_bgra format then (mget p 2, mget p 1, mget p 0)
  else (mget p 0, mget p 1, mget p 2).

(** [blend_px]: the value [*dst] has afterwards. *)
Definition blend_px (dst : Z) (p : list Z) (sbpp : Z) (format : pixel_format)
    (blending : hwc_blending) (plane_alpha : Z) : Z :=
  let a := px_alpha p format blending plane_alpha in
  if a =? 0 then dst
  else if (a =? 255) && (plane_alpha =? 255) then to_rgb565 p sbpp format
  else
    let '(r, g, b) := px_rgb p sbpp format in
    let '(r, g, b) :=
      if plane_alpha <? 255
      then (scale255 r plane_alpha, scale255 g plane_alpha, scale255 b plane_alpha) else (r, g, b) in
    let '(r, g, b) :=
      if bool_decide (blending = HWC_BLENDING_COVERAGE)
      then (scale255 r a, scale255 g a, scale255 b a) else (r, g, b) in
    let inv := 255 - a in
    let r := clamp255 (r + scale255 (r565 dst) inv) in
    let g := clamp255 (g + scale255 (g565 dst) inv) in
    let b := clamp255 (b + scale255 (b565 dst) inv) in
    pack565 r g b.

(** ** Packing *)

Definition is_byte (z : Z) : Prop := 0 ≤ z < 256.
#[export] Instance is_byte_dec z : Decision (is_byte z).
Proof. unfold is_byte. apply _. Defined.

(** Decides that a concrete list holds bytes. *)
Ltac bytes := apply (bool_decide_unpack _); vm_compute; exact I.

(** A property of bytes is decided by trying them all. *)
Lemma byte_forall (P : Z → bool) : forallb P (seqZ 0 256) = true → ∀ z, is_byte z → P z = true.
Proof.
  intros H z Hz. rewrite forallb_forall in H. apply H.
  apply list_elem_of_In, elem_of_seqZ. unfold is_byte in Hz. lia.
Qed.

Lemma land_f8 r : is_byte r → r &&& 0xf8 = 8 * (r / 8).
Proof.
  intros H. apply Z.eqb_eq. revert r H.
  apply (byte_forall (λ r, (r &&& 0xf8) =? 8 * (r / 8))). reflexivity.
Qed.

Lemma land_fc g : is_byte g → g &&& 0xfc = 4 * (g / 4).
Proof.
  intros H. apply Z.eqb_eq. revert g H.
  apply (byte_forall (λ g, (g &&& 0xfc) =? 4 * (g / 4))). reflexivity.
Qed.

(** The packed value as a sum of its fields. *)
Lemma pack565_eq r g b :
  is_byte r → is_byte g → is_byte b → pack565 r g b = 2048 * (r / 8) + 32 * (g / 4) + b / 8.
Proof.
  intros Hr Hg Hb. unfold pack565. rewrite land_f8, land_fc by done. unfold is_byte in *.
  rewrite !Z.shiftl_mul_pow2, Z.shiftr_div_pow2 by lia. change (2 ^ 3) with 8.
  replace (4 * (g / 4) * 8) with (g / 4 * 2 ^ 5) by lia.
  replace (8 * (r / 8) * 2 ^ 8) with (r / 8 * 2 ^ 6 * 2 ^ 5) by lia.
  rewrite <- !Z.shiftl_mul_pow2 by lia. rewrite <- Z.shiftl_lor.
  rewrite !lor_shiftl_add by divmod. rewrite wrap_small by divmod. lia.
Qed.

Lemma pack565_range r g b :
  is_byte r → is_byte g → is_byte b → 0 ≤ pack565 r g b < 2 ^ 16.
Proof. intros. unfold pack565. apply wrap_range. lia. Qed.

(** The channels of a packed value are the packed channels, truncated. *)
Lemma unpack565 r g b :
  is_byte r → is_byte g → is_byte b →
  r565 (pack565 r g b) = 8 * (r / 8) ∧ g565 (pack565 r g b) = 4 * (g / 4) ∧
  b565 (pack565 r g b) = 8 * (b / 8).
Proof.
  intros Hr Hg Hb. rewrite pack565_eq by done. unfold r565, g565, b565, is_byte in *.
  change 0x1f with (2 ^ 5 - 1). change 0x3f with (2 ^ 6 - 1). rewrite !land_pow2_mask by lia.
  rewrite !Z.shiftl_mul_pow2, !Z.shiftr_div_pow2 by lia.
  change (2 ^ 11) with 2048. change (2 ^ 5) with 32. change (2 ^ 6) with 64.
  change (2 ^ 3) with 8. change (2 ^ 2) with 4. split_and!; divmod.
Qed.

Lemma r565_byte v : is_byte (r565 v) ∧ is_byte (g565 v) ∧ is_byte (b565 v).
Proof.
  unfold r565, g565, b565, is_byte.
  change 0x1f with (2 ^ 5 - 1). change 0x3f with (2 ^ 6 - 1). rewrite !land_pow2_mask by lia.
  rewrite !Z.shiftl_mul_pow2 by lia.
  pose proof (Z.mod_pos_bound (Z.shiftr v 11) (2 ^ 5)). pose proof (Z.mod_pos_bound v (2 ^ 5)).
  pose proof (Z.mod_pos_bound (Z.shiftr v 5) (2 ^ 6)). lia.
Qed.

(** ** Blending *)

(** [scale255] rounds [x * y / 255] to the nearest integer. *)
Lemma scale255_nearest x y : - 127 ≤ 255 * scale255 x y - x * y ≤ 127.
Proof. unfold scale255. divmod. Qed.

Lemma scale255_byte x y : is_byte x → is_byte y → is_byte (scale255 x y).
Proof.
  unfold is_byte, scale255. intros. assert (0 ≤ x * y ≤ 255 * 255) by nia.
  split; [apply Z.div_pos; lia|]. apply Z.div_lt_upper_bound; lia.
Qed.

Lemma clamp255_byte x : 0 ≤ x → is_byte (clamp255 x).
Proof. intros. unfold clamp255, is_byte. bcase E; lia. Qed.

Lemma load16_range p : is_byte (mget p 0) → is_byte (mget p 1) → 0 ≤ load16 p < 2 ^ 16.
Proof. unfold is_byte, load16. lia. Qed.

Lemma mget_byte p i : Forall is_byte p → is_byte (mget p i).
Proof.
  intros H. unfold mget. bcase E; [unfold is_byte; lia|].
  destruct (nth_in_or_default (Z.to_nat i) p 0) as [Hin| ->]; [|unfold is_byte; lia].
  rewrite Forall_forall in H. by apply H, list_elem_of_In.
Qed.

Lemma to_rgb565_range p sbpp format : Forall is_byte p → 0 ≤ to_rgb565 p sbpp format < 2 ^ 16.
Proof.
  intros H. unfold to_rgb565. bcase E; [apply load16_range; by apply mget_byte|].
  bcase E2; apply pack565_range; by apply mget_byte.
Qed.

Lemma px_rgb_byte p sbpp format r g b :
  Forall is_byte p → px_rgb p sbpp format = (r, g, b) → is_byte r ∧ is_byte g ∧ is_byte b.
Proof.
  intros H. unfold px_rgb. bcase E.
  - intros [= <- <- <-]. apply r565_byte.
  - bcase E2; intros [= <- <- <-]; split_and!; by apply mget_byte.
Qed.

(** A blended pixel is a 16-bit value again. *)
Lemma blend_px_range dst p sbpp format blending plane_alpha :
  Forall is_byte p → is_byte plane_alpha → 0 ≤ dst < 2 ^ 16 →
  0 ≤ blend_px dst p sbpp format blending plane_alpha < 2 ^ 16.
Proof.
  intros Hp Ha Hd. unfold blend_px. bcase E0; [done|]. bcase E1; [by apply to_rgb565_range|].
  repeat case_match; unfold pack565; apply wrap_range; lia.
Qed.
