(* ===== verification/Compose.v ===== *)
(** * The e-ink hwcomposer: composing one layer

    Model of [compose_background] and [compose_layer] of
    [gralloc_eink/src/hwcomposer_eink.c].  The shadow buffer and the locked
    layer buffer are byte lists; an access outside them is a fault,
    [None], and so is an overflow of [int] arithmetic, which C leaves undefined.  The gralloc module is an interface, [GrallocIf]: the geometry query
    exported by the wrapper and the vendor's [lock].  [size_t] is 32 bits wide on the
    device; the conversion of a negative [int] to it is written out where the
    code can reach it (the length of the row copy), other products of
    non-negative operands are exact. *)
From S2P Require Import Prelude Pixel.

(** ** Data *)

Inductive hwc_transform :=
| HWC_TRANSFORM_NONE
| HWC_TRANSFORM_ROT_90
| HWC_TRANSFORM_ROT_180
| HWC_TRANSFORM_ROT_270
| HWC_TRANSFORM_FLIP_H
| HWC_TRANSFORM_FLIP_V
| HWC_TRANSFORM_OTHER (n : Z).

#[export] Instance hwc_transform_eq_dec : EqDecision hwc_transform.
Proof. solve_decision. Defined.

Inductive composition_type :=
| HWC_FRAMEBUFFER
| HWC_OVERLAY
| HWC_BACKGROUND
| HWC_FRAMEBUFFER_TARGET
| HWC_TYPE_OTHER (n : Z).

#[export] Instance composition_type_eq_dec : EqDecision composition_type.
Proof. solve_decision. Defined.

Record hwc_rect_t := Rect { rect_left : Z; rect_top : Z; rect_right : Z; rect_bottom : Z }.

Record hwc_layer_1_t := Layer {
  compositionType : composition_type;
  hints : Z;
  layer_handle : Z;
  transform : hwc_transform;
  blending : hwc_blending;
  sourceCropi : hwc_rect_t;
  displayFrame : hwc_rect_t;
  releaseFenceFd : Z;
  backgroundColor : Z * Z * Z }.

(** Which of the callbacks SurfaceFlinger registered are not null. *)
Record hwc_procs_t := Procs { procs_vsync : bool; procs_invalidate : bool }.

Record eink_hwc_t := EinkHwc {
  gralloc : bool;
  query_bound : bool;
  fb_fd : Z;
  fb_mem : list Z;
  shadow : list Z;
  panel : list Z;
  fb_size : Z;
  width : Z; height : Z;
  fb_width : Z; fb_height : Z; stride_bytes : Z; bpp : Z;
  procs : option hwc_procs_t;
  vsync_enabled : Z;
  vsync_requested : Z;
  blanked : Z;
  force_full : Z;
  stop_vsync : Z }.

Definition set_shadow (x : list Z) (hw : eink_hwc_t) : eink_hwc_t :=
  EinkHwc (gralloc hw) (query_bound hw) (fb_fd hw) (fb_mem hw) x (panel hw) (fb_size hw)
    (width hw) (height hw) (fb_width hw) (fb_height hw) (stride_bytes hw) (bpp hw) (procs hw)
    (vsync_enabled hw) (vsync_requested hw) (blanked hw) (force_full hw) (stop_vsync hw).

(** What the gralloc wrapper offers the composer: the recorded geometry (width,
    height, stride, format) of a handle, and the result of [lock] for a crop
    rectangle: a return code and the mapped memory, if any. *)
Class GrallocIf := {
  query_fn : Z → option (Z * Z * Z * pixel_format);
  lock : Z → Z → Z → Z → Z → Z * option (list Z) }.

(** Observable calls of the composer. *)
Inductive hwc_event :=
| Ev_lock (handle : Z)
| Ev_unlock (handle : Z)
| Ev_update (fd left top width height : Z) (full : bool)
| Ev_dup (fd : Z)
| Ev_vsync (now_ns : Z)
| Ev_invalidate.

(** ** Background *)

Definition compose_background (hw : eink_hwc_t) (l : hwc_layer_1_t) : eink_hwc_t :=
  let '(r, g, b) := backgroundColor l in
  let gray := u8 ((r + g + b) / 3) in
  set_shadow (replicate (Z.to_nat (fb_size hw)) gray) hw.

(** ** One layer *)

(** The locals of [compose_layer] that both loops use. *)
Record blit := Blit {
  b_src : list Z;
  b_sw : Z; b_sh : Z;
  b_cleft : Z; b_ctop : Z; b_cw : Z; b_ch : Z;
  b_dleft : Z; b_dtop : Z;
  b_sbpp : Z; b_row : Z;
  b_format : pixel_format; b_xform : hwc_transform; b_blending : hwc_blending }.

(** A 16-bit store. *)
Definition store16 (m : list Z) (off v : Z) : option (list Z) := mem_write m off (le_encode 2 v).

(** The inner loop of the fast path: [n] pixels from [srow] to [drow]. *)
Fixpoint blit_row (b : blit) (n : nat) (srow drow : Z) (m : list Z) : option (list Z) :=
  match n with
  | O => Some m
  | S n =>
    p ← mem_read (b_src b) srow (b_sbpp b);
    m ← store16 m drow (to_rgb565 p (b_sbpp b) (b_format b));
    blit_row b n (srow + b_sbpp b) (drow + 2) m
  end.

(** Clipping of the fast path, horizontally and vertically. *)
Definition clip (c s d panel n : Z) : option (Z * Z) :=
  let s0 := 0 in
  let s1 := n in
  t ← int32 (c + s0); s0 ← (if t <? 0 then int32 (- c) else Some s0);
  t ← int32 (d + s0); s0 ← (if t <? 0 then int32 (- d) else Some s0);
  t ← int32 (c + s1); s1 ← (if s <? t then int32 (s - c) else Some s1);
  t ← int32 (d + s1); s1 ← (if panel <? t then int32 (panel - d) else Some s1);
  Some (s0, s1).

(** One row of the fast path: [memcpy] for 16-bit sources. *)
Definition fast_row (hw : eink_hwc_t) (b : blit) (sx0 sx1 sy : Z) (m : list Z) : option (list Z) :=
  srcy ← int32 (b_ctop b + sy); srcx ← int32 (b_cleft b + sx0);
  dy ← int32 (b_dtop b + sy); dx ← int32 (b_dleft b + sx0);
  n ← int32 (sx1 - sx0);
  let srow := srcy * b_row b + srcx * b_sbpp b in
  let drow := dy * stride_bytes hw + dx * 2 in
  if b_sbpp b =? 2 then
    bs ← mem_read (b_src b) srow (u32 (u32 n * 2));
    mem_write m drow bs
  else blit_row b (Z.to_nat n) srow drow m.

Fixpoint fast_rows (hw : eink_hwc_t) (b : blit) (sx0 sx1 : Z) (n : nat) (sy : Z) (m : list Z) :
    option (list Z) :=
  match n with
  | O => Some m
  | S n => m ← fast_row hw b sx0 sx1 sy m; fast_rows hw b sx0 sx1 n (sy + 1) m
  end.

Definition fast_path (hw : eink_hwc_t) (b : blit) (m : list Z) : option (list Z) :=
  '(sx0, sx1) ← clip (b_cleft b) (b_sw b) (b_dleft b) (width hw) (b_cw b);
  '(sy0, sy1) ← clip (b_ctop b) (b_sh b) (b_dtop b) (height hw) (b_ch b);
  fast_rows hw b sx0 sx1 (Z.to_nat (sy1 - sy0)) sy0 m.

(** Where the row [sy] starts in the display frame, and the step per source
    pixel: [i0], [j0], [di], [dj]. *)
Definition row_start (xform : hwc_transform) (cw ch sy : Z) : Z * Z * Z * Z :=
  match xform with
  | HWC_TRANSFORM_ROT_90 => (ch - 1 - sy, 0, 0, 1)
  | HWC_TRANSFORM_ROT_180 => (cw - 1, ch - 1 - sy, -1, 0)
  | HWC_TRANSFORM_ROT_270 => (sy, cw - 1, 0, -1)
  | HWC_TRANSFORM_FLIP_H => (cw - 1, sy, -1, 0)
  | HWC_TRANSFORM_FLIP_V => (0, ch - 1 - sy, 1, 0)
  | _ => (0, sy, 1, 0)
  end.

(** [blend_px] at a destination address. *)
Definition blend_at (b : blit) (m : list Z) (doff soff : Z) : option (list Z) :=
  d ← mem_read m doff 2;
  p ← mem_read (b_src b) soff (b_sbpp b);
  store16 m doff (blend_px (load16 d) p (b_sbpp b) (b_format b) (b_blending b) 255).

Fixpoint pixel_loop (hw : eink_hwc_t) (b : blit) (srow di dj : Z) (n : nat) (sx dx dy : Z)
    (m : list Z) : option (list Z) :=
  match n with
  | O => Some m
  | S n =>
    srcx ← int32 (b_cleft b + sx);
    m ← (if (srcx <? 0) || (b_sw b <=? srcx) then Some m
         else if (dx <? 0) || (width hw <=? dx) || (dy <? 0) || (height hw <=? dy) then Some m
         else blend_at b m (dy * stride_bytes hw + dx * 2) (srow + srcx * b_sbpp b));
    dx ← int32 (dx + di); dy ← int32 (dy + dj);
    pixel_loop hw b srow di dj n (sx + 1) dx dy m
  end.

Definition general_row (hw : eink_hwc_t) (b : blit) (sy : Z) (m : list Z) : option (list Z) :=
  srcy ← int32 (b_ctop b + sy);
  if (srcy <? 0) || (b_sh b <=? srcy) then Some m
  else
    let '(i0, j0, di, dj) := row_start (b_xform b) (b_cw b) (b_ch b) sy in
    dx ← int32 (b_dleft b + i0); dy ← int32 (b_dtop b + j0);
    pixel_loop hw b (srcy * b_row b) di dj (Z.to_nat (b_cw b)) 0 dx dy m.

Fixpoint general_rows (hw : eink_hwc_t) (b : blit) (n : nat) (sy : Z) (m : list Z) : option (list Z) :=
  match n with
  | O => Some m
  | S n => m ← general_row hw b sy m; general_rows hw b n (sy + 1) m
  end.

Definition general_path (hw : eink_hwc_t) (b : blit) (m : list Z) : option (list Z) :=
  general_rows hw b (Z.to_nat (b_ch b)) 0 m.

(** The condition of the fast path. *)
Definition takes_fast_path (b : blit) : bool :=
  bool_decide (b_xform b = HWC_TRANSFORM_NONE) &&
  (bool_decide (b_blending b = HWC_BLENDING_NONE) || negb (format_has_alpha (b_format b))).

Section Layer.
Context `{GrallocIf}.

(** The locals for a layer with the given geometry and mapped source. *)
Definition layer_blit (l : hwc_layer_1_t) (sw sh sstride : Z) (sformat : pixel_format) (src : list Z) : blit :=
  let c := sourceCropi l in
  let d := displayFrame l in
  let sbpp := src_bytes_per_pixel sformat in
  Blit src sw sh (rect_left c) (rect_top c) (rect_right c - rect_left c) (rect_bottom c - rect_top c)
    (rect_left d) (rect_top d) sbpp (sstride * sbpp) sformat (transform l) (blending l).

(** The return value, the device afterwards and the gralloc calls made. *)
Definition compose_layer (hw : eink_hwc_t) (l : hwc_layer_1_t) : option (Z * eink_hwc_t * list hwc_event) :=
  if (layer_handle l =? 0) || negb (query_bound hw) || negb (gralloc hw) then Some (-1, hw, []) else
  match query_fn (layer_handle l) with
  | None => Some (-1, hw, [])
  | Some (sw, sh, sstride, sformat) =>
    dw ← int32 (rect_right (displayFrame l) - rect_left (displayFrame l));
    dh ← int32 (rect_bottom (displayFrame l) - rect_top (displayFrame l));
    let cleft := rect_left (sourceCropi l) in
    let ctop := rect_top (sourceCropi l) in
    cw ← int32 (rect_right (sourceCropi l) - rect_left (sourceCropi l));
    ch ← int32 (rect_bottom (sourceCropi l) - rect_top (sourceCropi l));
    if (dw <=? 0) || (dh <=? 0) || (cw <=? 0) || (ch <=? 0) then Some (-1, hw, []) else
    let lk := Ev_lock (layer_handle l) in
    let unlk := Ev_unlock (layer_handle l) in
    match lock (layer_handle l) cleft ctop cw ch with
    | (0, Some src) =>
      let b := layer_blit l sw sh sstride sformat src in
      if (b_sbpp b =? 0) || negb (bpp hw =? 2) then Some (-1, hw, [lk; unlk])
      else
        m ← (if takes_fast_path b then fast_path hw b (shadow hw) else general_path hw b (shadow hw));
        Some (0, set_shadow m hw, [lk; unlk])
    | _ => Some (-1, hw, [lk])
    end
  end.

End Layer.
