(* ===== verification/ComposeSpec.v ===== *)
(** * Composing one layer: pixel-exact specification

    Which source pixel a panel pixel takes its colour from, and that both
    loops of [compose_layer] realise it without leaving either buffer. *)
From S2P Require Import Prelude Pixel Compose.

(** ** Pixels of a frame *)

(** The 16-bit value at column [x] of row [y]. *)
Definition px (st : Z) (m : list Z) (x y : Z) : Z := load16 (seg (mget m) (y * st + x * 2) 2).

Lemma px_eq st m x y : px st m x y = mget m (y * st + x * 2) + 256 * mget m (y * st + x * 2 + 1).
Proof. unfold px, load16. rewrite !mget_seg by lia. by rewrite Z.add_0_r. Qed.

(** A panel the composer can draw on: 16-bit pixels, rows inside the stride. *)
Definition hw_ok (hw : eink_hwc_t) : Prop :=
  0 < width hw ∧ 0 < height hw ∧ 2 * width hw ≤ stride_bytes hw ∧
  fb_size hw = stride_bytes hw * height hw ∧ bpp hw = 2 ∧ stride_bytes hw < 2 ^ 31.

(** A frame buffer of the panel's size. *)
Definition frame_ok (hw : eink_hwc_t) (m : list Z) : Prop :=
  zlen m = fb_size hw ∧ Forall is_byte m.

Definition on_panel (hw : eink_hwc_t) (x y : Z) : Prop := 0 ≤ x < width hw ∧ 0 ≤ y < height hw.

Lemma on_panel_off hw x y :
  hw_ok hw → on_panel hw x y →
  0 ≤ y * stride_bytes hw + x * 2 ∧ y * stride_bytes hw + x * 2 + 2 ≤ fb_size hw.
Proof. unfold hw_ok, on_panel. intros (? & ? & ? & -> & _) []. nia. Qed.

(** Different pixels do not overlap. *)
Lemma on_panel_disjoint hw x y x' y' :
  hw_ok hw → on_panel hw x y → on_panel hw x' y' → (x, y) ≠ (x', y') →
  y * stride_bytes hw + x * 2 + 2 ≤ y' * stride_bytes hw + x' * 2 ∨
  y' * stride_bytes hw + x' * 2 + 2 ≤ y * stride_bytes hw + x * 2.
Proof.
  unfold hw_ok, on_panel. intros (? & ? & ? & _) [] [] Hne.
  destruct (Z.lt_trichotomy y y') as [|[->|]]; [nia| |nia].
  assert (x ≠ x') by congruence. lia.
Qed.

Lemma le_encode_2 v : le_encode 2 v = [v mod 256; (v / 256) mod 256].
Proof. done. Qed.

Lemma Forall_byte_write m off bs m' :
  Forall is_byte m → Forall is_byte bs → mem_write m off bs = Some m' → Forall is_byte m'.
Proof.
  intros Hm Hbs Hw. unfold mem_write in Hw. destruct (in_block _ _ _); [|done]. injection Hw as <-.
  apply Forall_app. split; [by apply Forall_take|]. apply Forall_app. split; [done|by apply Forall_drop].
Qed.

Lemma Forall_byte_seg m a n : Forall is_byte m → Forall is_byte (seg (mget m) a n).
Proof. intros. unfold seg. apply Forall_fmap, Forall_forall. intros i _. by apply mget_byte. Qed.

Lemma px_range st m x y : Forall is_byte m → 0 ≤ px st m x y < 2 ^ 16.
Proof. intros. apply load16_range; apply mget_byte; by apply Forall_byte_seg. Qed.

(** A 16-bit store changes one pixel. *)
Lemma store16_px hw m x y v :
  hw_ok hw → frame_ok hw m → on_panel hw x y → 0 ≤ v < 2 ^ 16 →
  ∃ m', store16 m (y * stride_bytes hw + x * 2) v = Some m' ∧ frame_ok hw m' ∧
    ∀ x' y', on_panel hw x' y' →
      px (stride_bytes hw) m' x' y' =
      if (x' =? x) && (y' =? y) then v else px (stride_bytes hw) m x' y'.
Proof.
  intros Hhw [Hl Hb] Hxy Hv. pose proof (on_panel_off _ _ _ Hhw Hxy) as [Ho1 Ho2].
  destruct (mem_write_Some m (y * stride_bytes hw + x * 2) (le_encode 2 v)) as [m' Hm'];
    [lia|rewrite length_le_encode; lia|].
  exists m'. split; [done|]. split.
  { split; [by apply mem_write_inv in Hm' as (_ & _ & -> & _)|].
    apply (Forall_byte_write m _ _ _ Hb) in Hm'; [done|]. apply Forall_forall.
    intros z Hz%le_encode_byte. done. }
  intros x' y' Hxy'. apply mem_write_inv in Hm' as (_ & _ & _ & Hg).
  pose proof (on_panel_off _ _ _ Hhw Hxy') as [Ho1' _].
  rewrite !px_eq, !Hg, length_le_encode by lia.
  destruct ((x' =? x) && (y' =? y)) eqn:E.
  - assert (x' = x ∧ y' = y) as [-> ->] by lia. bcase E1; [|lia]. bcase E2; [|lia].
    rewrite le_encode_2. replace (_ + 1 - _) with 1 by lia. rewrite Z.sub_diag.
    change (v mod 256 + 256 * ((v / 256) mod 256) = v). divmod.
  - assert ((x, y) ≠ (x', y')) as Hne by (intros [=]; lia).
    pose proof (on_panel_disjoint _ _ _ _ _ Hhw Hxy Hxy' Hne).
    bcase E1; [lia|]. bcase E2; [lia|done].
Qed.

(** ** The source pixel of a panel pixel *)

(** Position in the crop of the pixel shown at column [i], row [j] of the frame. *)
Definition inv_xform (xform : hwc_transform) (cw ch i j : Z) : Z * Z :=
  match xform with
  | HWC_TRANSFORM_ROT_90 => (j, ch - 1 - i)
  | HWC_TRANSFORM_ROT_180 => (cw - 1 - i, ch - 1 - j)
  | HWC_TRANSFORM_ROT_270 => (cw - 1 - j, i)
  | HWC_TRANSFORM_FLIP_H => (cw - 1 - i, j)
  | HWC_TRANSFORM_FLIP_V => (i, ch - 1 - j)
  | _ => (i, j)
  end.

Definition crop_pos (b : blit) (x y : Z) : Z * Z :=
  inv_xform (b_xform b) (b_cw b) (b_ch b) (x - b_dleft b) (y - b_dtop b).

(** The crop position is inside the crop and inside the buffer. *)
Definition in_crop (b : blit) (s : Z * Z) : bool :=
  (0 <=? s.1) && (s.1 <? b_cw b) && (0 <=? s.2) && (s.2 <? b_ch b) &&
  (0 <=? b_cleft b + s.1) && (b_cleft b + s.1 <? b_sw b) &&
  (0 <=? b_ctop b + s.2) && (b_ctop b + s.2 <? b_sh b).

(** The bytes of the source pixel at a crop position. *)
Definition src_px (b : blit) (s : Z * Z) : list Z :=
  seg (mget (b_src b)) ((b_ctop b + s.2) * b_row b + (b_cleft b + s.1) * b_sbpp b) (b_sbpp b).

(** What a layer makes of the pixel [d] at [x], [y]. *)
Definition layer_px (b : blit) (x y d : Z) : Z :=
  let s := crop_pos b x y in
  if in_crop b s
  then blend_px d (src_px b s) (b_sbpp b) (b_format b) (b_blending b) 255 else d.

(** The locked buffer holds [sh] rows of the recorded stride. *)
Definition blit_ok (b : blit) : Prop :=
  0 < b_sbpp b ∧ 0 ≤ b_sh b ∧ b_sw b * b_sbpp b ≤ b_row b ∧
  b_sh b * b_row b ≤ zlen (b_src b) ∧ Forall is_byte (b_src b).

(** Rectangles whose coordinates stay far from the limits of [int]. *)
Definition blit_small (b : blit) : Prop :=
  - 2 ^ 29 ≤ b_cleft b ≤ 2 ^ 29 ∧ - 2 ^ 29 ≤ b_ctop b ≤ 2 ^ 29 ∧ - 2 ^ 29 ≤ b_dleft b ≤ 2 ^ 29 ∧ - 2 ^ 29 ≤ b_dtop b ≤ 2 ^ 29 ∧
  0 ≤ b_cw b ≤ 2 ^ 30 ∧ 0 ≤ b_ch b ≤ 2 ^ 30 ∧ 0 ≤ b_sw b.

(** The outermost [int] computation of a program fits. *)
Ltac fits :=
  match goal with
  | |- context [mbind ?f (int32 ?z) = _] => rewrite (int32_fits z) by lia
  | |- mbind ?f (int32 ?z) = _ => rewrite (int32_fits z) by lia
  end; cbn [mbind option_bind].

(** [n] bytes at offset [o] of row [u] are inside [h] rows. *)
Lemma row_in_bounds u h row o n :
  0 ≤ u < h → 0 ≤ o → 0 ≤ n → o + n ≤ row → 0 ≤ u * row + o ∧ u * row + o + n ≤ h * row.
Proof. intros. nia. Qed.

Lemma src_px_read b sx sy :
  blit_ok b → in_crop b (sx, sy) = true →
  mem_read (b_src b) ((b_ctop b + sy) * b_row b + (b_cleft b + sx) * b_sbpp b) (b_sbpp b)
    = Some (src_px b (sx, sy)).
Proof.
  unfold blit_ok, in_crop. simpl. intros (? & ? & ? & ? & _) ?.
  pose proof (row_in_bounds (b_ctop b + sy) (b_sh b) (b_row b) ((b_cleft b + sx) * b_sbpp b) (b_sbpp b)).
  apply mem_read_Some; nia.
Qed.

(** ** The general loop *)

(** The frame [m] is [m0] with the crop positions in [P] drawn. *)
Definition drawn (hw : eink_hwc_t) (b : blit) (m0 m : list Z) (P : Z * Z → bool) : Prop :=
  frame_ok hw m ∧
  ∀ x y, on_panel hw x y →
    let st := stride_bytes hw in
    px st m x y = if P (crop_pos b x y) then layer_px b x y (px st m0 x y) else px st m0 x y.

Lemma drawn_ext hw b m0 m P Q :
  (∀ x y, on_panel hw x y → in_crop b (crop_pos b x y) = true → P (crop_pos b x y) = Q (crop_pos b x y)) →
  drawn hw b m0 m P → drawn hw b m0 m Q.
Proof.
  intros HPQ [Hf Hd]. split; [done|]. intros x y Hxy st. subst st. rewrite Hd by done.
  unfold layer_px. destruct (in_crop b (crop_pos b x y)) eqn:E; [by rewrite HPQ|].
  by destruct (P _), (Q _).
Qed.

(** The position a crop pixel is drawn at. *)
Definition dest (b : blit) (sx sy : Z) : Z * Z :=
  let '(i0, j0, di, dj) := row_start (b_xform b) (b_cw b) (b_ch b) sy in
  (b_dleft b + i0 + sx * di, b_dtop b + j0 + sx * dj).

(** [dest] and [crop_pos] are inverse to each other. *)
Lemma crop_pos_dest b sx sy x y : crop_pos b x y = (sx, sy) ↔ dest b sx sy = (x, y).
Proof.
  unfold crop_pos, dest. destruct (b_xform b); cbn; split; intros Heq; injection Heq as <- <-;
    f_equal; lia.
Qed.

(** Drawing one more crop position. *)
Lemma blend_at_drawn hw b m0 m P sx sy x y :
  hw_ok hw → blit_ok b → drawn hw b m0 m P → dest b sx sy = (x, y) → on_panel hw x y →
  in_crop b (sx, sy) = true → P (sx, sy) = false →
  ∃ m', blend_at b m (y * stride_bytes hw + x * 2)
          ((b_ctop b + sy) * b_row b + (b_cleft b + sx) * b_sbpp b) = Some m' ∧
        drawn hw b m0 m' (λ s, P s || bool_decide (s = (sx, sy))).
Proof.
  intros Hhw Hb [Hf Hd] Hdest Hxy Hin HP. unfold blend_at.
  pose proof (on_panel_off _ _ _ Hhw Hxy) as [Ho1 Ho2].
  rewrite (mem_read_Some m) by (destruct Hf; lia). cbn [mbind option_bind].
  rewrite src_px_read by done. cbn [mbind option_bind]. fold (px (stride_bytes hw) m x y).
  apply crop_pos_dest in Hdest as Hpos. rewrite Hd, Hpos, HP by done.
  set (v := blend_px _ _ _ _ _ _).
  assert (0 ≤ v < 2 ^ 16) as Hv.
  { apply blend_px_range; [apply Forall_byte_seg, Hb|unfold is_byte; lia|].
    specialize (Hd x y Hxy). rewrite Hpos, HP in Hd. rewrite <- Hd. apply px_range, Hf. }
  destruct (store16_px hw m x y v Hhw Hf Hxy Hv) as (m' & -> & Hf' & Hpx).
  exists m'. split; [done|]. split; [done|]. intros x' y' Hxy' st. subst st. rewrite Hpx by done.
  bcase E.
  - assert (x' = x ∧ y' = y) as [-> ->] by lia. rewrite Hpos, bool_decide_eq_true_2, orb_true_r by done.
    unfold layer_px. by rewrite Hpos, Hin.
  - rewrite Hd by done. rewrite (bool_decide_eq_false_2 (crop_pos b x' y' = (sx, sy))), orb_false_r; [done|].
    rewrite crop_pos_dest, Hdest. intros [=]. lia.
Qed.

(** Crop positions that come before [sx], [sy] in row-major order. *)
Definition before (sx sy : Z) (s : Z * Z) : bool := (s.2 <? sy) || ((s.2 =? sy) && (s.1 <? sx)).

Lemma pixel_loop_drawn hw b m0 sy srcy :
  hw_ok hw → blit_ok b → blit_small b → 0 ≤ sy < b_ch b → srcy = b_ctop b + sy → 0 ≤ srcy < b_sh b →
  ∀ n sx m i0 j0 di dj, row_start (b_xform b) (b_cw b) (b_ch b) sy = (i0, j0, di, dj) →
  0 ≤ sx → sx + Z.of_nat n = b_cw b → drawn hw b m0 m (before sx sy) →
  ∃ m', pixel_loop hw b (srcy * b_row b) di dj n sx
          (b_dleft b + i0 + sx * di) (b_dtop b + j0 + sx * dj) m = Some m' ∧
        drawn hw b m0 m' (before (b_cw b) sy).
Proof.
  intros Hhw Hb Hsm Hsy -> Hsrcy. pose proof Hsm as (? & ? & ? & ? & ? & ? & ?). induction n as [|n IH]; intros sx m i0 j0 di dj Hrs Hsx Hn Hd.
  - exists m. split; [done|]. by replace (b_cw b) with sx by lia.
  - cbn [pixel_loop]. fits.
    set (x := b_dleft b + i0 + sx * di). set (y := b_dtop b + j0 + sx * dj).
    assert (dest b sx sy = (x, y)) as Hdest by (unfold dest; by rewrite Hrs).
    assert (∃ m1, (if (b_cleft b + sx <? 0) || (b_sw b <=? b_cleft b + sx) then Some m
       else if (x <? 0) || (width hw <=? x) || (y <? 0) || (height hw <=? y) then Some m
       else blend_at b m (y * stride_bytes hw + x * 2)
              ((b_ctop b + sy) * b_row b + (b_cleft b + sx) * b_sbpp b)) = Some m1 ∧
       drawn hw b m0 m1 (before (sx + 1) sy)) as (m1 & -> & Hd1).
    { bcase E1; [|bcase E2].
      - exists m. split; [done|]. revert Hd. apply drawn_ext. intros x' y' _ Hin.
        unfold in_crop, before in *. lia.
      - exists m. split; [done|]. revert Hd. apply drawn_ext. intros x' y' Hxy' Hin.
        destruct (decide (crop_pos b x' y' = (sx, sy))) as [Hp|Hp].
        + apply crop_pos_dest in Hp. rewrite Hdest in Hp. injection Hp as <- <-.
          unfold on_panel in Hxy'. lia.
        + destruct (crop_pos b x' y') as [u v]. unfold before. simpl.
          assert (u ≠ sx ∨ v ≠ sy) by (destruct (decide (u = sx)), (decide (v = sy)); subst; auto). lia.
      - destruct (blend_at_drawn hw b m0 m (before sx sy) sx sy x y) as (m' & Hm' & Hd'); try done.
        + unfold on_panel. lia.
        + unfold in_crop. simpl. lia.
        + unfold before. simpl. lia.
        + exists m'. split; [done|]. revert Hd'. apply drawn_ext. intros x' y' _ _.
          destruct (crop_pos b x' y') as [u v]. unfold before. simpl.
          destruct (bool_decide_reflect ((u, v) = (sx, sy))) as [[= -> ->]|Hne]; [lia|].
          assert (u ≠ sx ∨ v ≠ sy) by (destruct (decide (u = sx)), (decide (v = sy)); subst; auto). lia. }
    cbn [mbind option_bind].
    assert (- 2 ^ 31 ≤ x + di < 2 ^ 31 ∧ - 2 ^ 31 ≤ y + dj < 2 ^ 31) as [Hxi Hyj].
    { unfold x, y. revert Hrs. unfold row_start. destruct (b_xform b); intros [= <- <- <- <-]; lia. }
    rewrite !int32_fits by done. cbn [mbind option_bind].
    replace (x + di) with (b_dleft b + i0 + (sx + 1) * di) by (unfold x; lia).
    replace (y + dj) with (b_dtop b + j0 + (sx + 1) * dj) by (unfold y; lia).
    apply IH; [done|lia|lia|done].
Qed.

Lemma general_row_drawn hw b m0 m sy :
  hw_ok hw → blit_ok b → blit_small b → 0 ≤ sy < b_ch b → drawn hw b m0 m (before 0 sy) →
  ∃ m', general_row hw b sy m = Some m' ∧ drawn hw b m0 m' (before 0 (sy + 1)).
Proof.
  intros Hhw Hb Hsm Hsy Hd. pose proof Hsm as (? & ? & ? & ? & ? & ? & ?). unfold general_row. fits. bcase E.
  - exists m. split; [done|]. revert Hd. apply drawn_ext. intros x y _ Hin.
    unfold in_crop, before in *. lia.
  - destruct (row_start _ _ _ _) as [[[i0 j0] di] dj] eqn:Hrs.
    assert (- 2 ^ 31 ≤ b_dleft b + i0 < 2 ^ 31 ∧ - 2 ^ 31 ≤ b_dtop b + j0 < 2 ^ 31) as [Hi0 Hj0].
    { revert Hrs. unfold row_start. destruct (b_xform b); intros [= <- <- <- <-]; lia. }
    rewrite !int32_fits by done. cbn [mbind option_bind].
    destruct (pixel_loop_drawn hw b m0 sy (b_ctop b + sy) Hhw Hb Hsm Hsy eq_refl) with
      (n := Z.to_nat (b_cw b)) (sx := 0) (m := m) (i0 := i0) (j0 := j0) (di := di) (dj := dj)
      as (m' & Hm' & Hd'); [lia|done|lia|lia|done|].
    exists m'. split.
    { rewrite <- Hm'. f_equal; lia. }
    revert Hd'. apply drawn_ext. intros x y _ Hin. unfold in_crop, before in *. lia.
Qed.

Lemma general_rows_drawn hw b m0 :
  hw_ok hw → blit_ok b → blit_small b →
  ∀ n sy m, 0 ≤ sy → sy + Z.of_nat n = b_ch b → drawn hw b m0 m (before 0 sy) →
  ∃ m', general_rows hw b n sy m = Some m' ∧ drawn hw b m0 m' (before 0 (b_ch b)).
Proof.
  intros Hhw Hb Hsm. induction n as [|n IH]; intros sy m Hsy Hn Hd.
  - exists m. split; [done|]. by replace (b_ch b) with sy by lia.
  - destruct (general_row_drawn hw b m0 m sy) as (m1 & Hm1 & Hd1); [done|done|done|lia|done|].
    cbn [general_rows]. rewrite Hm1. cbn [mbind option_bind]. apply IH; [lia|lia|done].
Qed.

(** The frame is [m0] with the whole layer drawn. *)
Definition layer_drawn (hw : eink_hwc_t) (b : blit) (m0 m : list Z) : Prop :=
  frame_ok hw m ∧
  ∀ x y, on_panel hw x y →
    px (stride_bytes hw) m x y = layer_px b x y (px (stride_bytes hw) m0 x y).

Lemma drawn_all hw b m0 m P :
  (∀ x y, on_panel hw x y → in_crop b (crop_pos b x y) = true → P (crop_pos b x y) = true) →
  drawn hw b m0 m P → layer_drawn hw b m0 m.
Proof.
  intros HP Hd. apply drawn_ext with (Q := λ _, true) in Hd; [|intros; by apply HP].
  destruct Hd as [Hf Hd]. split; [done|]. intros x y Hxy. by apply Hd.
Qed.

Lemma drawn_none hw b m : frame_ok hw m → drawn hw b m m (λ _, false).
Proof. intros Hf. by split. Qed.

Lemma general_path_drawn hw b m :
  hw_ok hw → blit_ok b → frame_ok hw m → blit_small b →
  ∃ m', general_path hw b m = Some m' ∧ layer_drawn hw b m m'.
Proof.
  intros Hhw Hb Hf Hsm. pose proof Hsm as (? & ? & ? & ? & ? & ? & ?). unfold general_path.
  destruct (general_rows_drawn hw b m Hhw Hb Hsm (Z.to_nat (b_ch b)) 0 m) as (m' & Hm' & Hd);
    [lia|lia| |].
  - apply drawn_ext with (P := λ _, false); [|by apply drawn_none].
    intros x y _ Hin. unfold in_crop, before in *. lia.
  - exists m'. split; [done|]. revert Hd. apply drawn_all.
    intros x y _ Hin. unfold in_crop, before in *. lia.
Qed.

(** ** The fast path *)

(** A run of [n] pixels of row [y] from column [x] on was set to the source
    pixels from crop position [sx], [sy] on. *)
Definition row_copied (hw : eink_hwc_t) (b : blit) (m m' : list Z) (x y sx sy n : Z) : Prop :=
  frame_ok hw m' ∧
  ∀ x' y', on_panel hw x' y' →
    px (stride_bytes hw) m' x' y' =
    if (y' =? y) && (x <=? x') && (x' <? x + n)
    then to_rgb565 (src_px b (sx + (x' - x), sy)) (b_sbpp b) (b_format b)
    else px (stride_bytes hw) m x' y'.

Lemma blit_row_copied hw b sy y :
  hw_ok hw → blit_ok b →
  ∀ n sx x m, frame_ok hw m →
  (∀ i, 0 ≤ i < Z.of_nat n → on_panel hw (x + i) y ∧ in_crop b (sx + i, sy) = true) →
  ∃ m', blit_row b n ((b_ctop b + sy) * b_row b + (b_cleft b + sx) * b_sbpp b)
          (y * stride_bytes hw + x * 2) m = Some m' ∧
        row_copied hw b m m' x y sx sy (Z.of_nat n).
Proof.
  intros Hhw Hb. induction n as [|n IH]; intros sx x m Hf Hin.
  - exists m. split; [done|]. split; [done|]. intros x' y' _. bcase E; [lia|done].
  - cbn [blit_row]. destruct (Hin 0) as [Hp Hc]; [lia|]. rewrite !Z.add_0_r in Hp, Hc.
    rewrite src_px_read by done. cbn [mbind option_bind].
    destruct (store16_px hw m x y (to_rgb565 (src_px b (sx, sy)) (b_sbpp b) (b_format b)))
      as (m1 & -> & Hf1 & Hpx1); [done|done|done| |].
    { apply to_rgb565_range, Forall_byte_seg, Hb. }
    cbn [mbind option_bind].
    destruct (IH (sx + 1) (x + 1) m1) as (m' & Hm' & Hf' & Hpx'); [done| |].
    { intros i Hi. destruct (Hin (i + 1)) as [? ?]; [lia|]. by rewrite <- !Z.add_assoc, (Z.add_comm 1). }
    exists m'. split; [rewrite <- Hm'; f_equal; lia|]. split; [done|].
    intros x' y' Hxy'. rewrite Hpx', Hpx1 by done.
    destruct ((y' =? y) && (x + 1 <=? x') && (x' <? x + 1 + Z.of_nat n)) eqn:E1.
    + bcase E2; [|lia]. by replace (sx + (x' - x)) with (sx + 1 + (x' - (x + 1))) by lia.
    + destruct ((x' =? x) && (y' =? y)) eqn:E2.
      * bcase E3; [|lia]. assert (x' = x) as -> by lia. by rewrite Z.sub_diag, Z.add_0_r.
      * bcase E3; [lia|done].
Qed.

(** The [memcpy] of a row of 16-bit pixels. *)
Lemma memcpy_row_copied hw b sy y sx x m n :
  hw_ok hw → blit_ok b → frame_ok hw m → b_sbpp b = 2 → 0 ≤ n →
  0 ≤ x → x + n ≤ width hw → 0 ≤ y < height hw →
  0 ≤ b_cleft b + sx → b_cleft b + sx + n ≤ b_sw b → 0 ≤ b_ctop b + sy < b_sh b →
  ∃ m', (bs ← mem_read (b_src b) ((b_ctop b + sy) * b_row b + (b_cleft b + sx) * b_sbpp b) (n * 2);
         mem_write m (y * stride_bytes hw + x * 2) bs) = Some m' ∧
        row_copied hw b m m' x y sx sy n.
Proof.
  intros Hhw Hb [Hl Hm] H2 Hn Hx Hxn Hy Hsx Hsxn Hsy.
  pose proof Hhw as (Hw & Hh & Hst & Hsz & _). pose proof Hb as (_ & Hsh & Hrow & Hlen & Hsrc).
  rewrite H2 in *.
  pose proof (row_in_bounds (b_ctop b + sy) (b_sh b) (b_row b) ((b_cleft b + sx) * 2) (n * 2)).
  pose proof (row_in_bounds y (height hw) (stride_bytes hw) (x * 2) (n * 2)).
  rewrite mem_read_Some by lia. cbn [mbind option_bind].
  set (so := (b_ctop b + sy) * b_row b + (b_cleft b + sx) * 2) in *.
  set (bs := seg (mget (b_src b)) so (n * 2)).
  assert (zlen bs = n * 2) as Hbs by (apply zlen_seg; lia).
  destruct (mem_write_Some m (y * stride_bytes hw + x * 2) bs) as [m' Hm']; [lia|nia|].
  exists m'. split; [done|]. split.
  { split; [by apply mem_write_inv in Hm' as (_ & _ & -> & _)|].
    apply (Forall_byte_write m _ _ _ Hm) in Hm'; [done|]. by apply Forall_byte_seg. }
  intros x' y' Hxy'. apply mem_write_inv in Hm' as (_ & _ & _ & Hg).
  pose proof (on_panel_off _ _ _ Hhw Hxy') as [Ho1' _]. destruct Hxy' as [Hx' Hy'].
  rewrite !px_eq, !Hg, Hbs by lia.
  destruct ((y' =? y) && (x <=? x') && (x' <? x + n)) eqn:E.
  - assert (y' = y) as -> by lia. bcase E1; [|lia]. bcase E2; [|lia].
    unfold bs. rewrite !mget_seg by lia. unfold to_rgb565, load16, src_px. rewrite H2. simpl.
    rewrite !mget_seg by lia. unfold so. do 2 f_equal; [|f_equal]; lia.
  - assert (y' ≠ y ∨ x' < x ∨ x + n ≤ x') as Hout by lia.
    assert (y' * stride_bytes hw + x' * 2 + 2 ≤ y * stride_bytes hw + x * 2 ∨
            y * stride_bytes hw + x * 2 + n * 2 ≤ y' * stride_bytes hw + x' * 2).
    { destruct (Z.lt_trichotomy y y') as [|[->|]]; [nia|lia|nia]. }
    bcase E1; [lia|]. bcase E2; [lia|done].
Qed.

(** The clipped range, computed without limits. *)
Definition clip_range (c s d panel n : Z) : Z * Z :=
  let s0 := 0 in
  let s1 := n in
  let s0 := if c + s0 <? 0 then - c else s0 in
  let s0 := if d + s0 <? 0 then - d else s0 in
  let s1 := if s <? c + s1 then s - c else s1 in
  let s1 := if panel <? d + s1 then panel - d else s1 in
  (s0, s1).

Lemma if_int32 (b : bool) z x : (b = true → - 2 ^ 31 ≤ z < 2 ^ 31) → (if b then int32 z else Some x) = Some (if b then z else x).
Proof. intros Hz. destruct b; [|done]. apply int32_fits. by apply Hz. Qed.

Lemma clip_fits c s d p n :
  - 2 ^ 29 ≤ c ≤ 2 ^ 29 → - 2 ^ 29 ≤ d ≤ 2 ^ 29 → 0 ≤ n ≤ 2 ^ 30 → 0 ≤ s → 0 ≤ p → clip c s d p n = Some (clip_range c s d p n).
Proof.
  intros Hc Hd Hn Hs Hp. unfold clip, clip_range. fits. rewrite if_int32 by lia. cbn [mbind option_bind].
  set (s0 := if c + 0 <? 0 then - c else 0). assert (0 ≤ s0 ≤ 2 ^ 29) by (unfold s0; bcase E; lia). fits. rewrite if_int32 by lia. cbn [mbind option_bind].
  fits. rewrite if_int32 by lia. cbn [mbind option_bind].
  set (s1 := if s <? c + n then s - c else n). assert (- 2 ^ 29 ≤ s1 ≤ 2 ^ 30) by (unfold s1; bcase E; lia). fits. by rewrite if_int32 by lia.
Qed.

Lemma clip_spec c s d p n s0 s1 :
  clip_range c s d p n = (s0, s1) →
  0 ≤ s0 ∧ 0 ≤ c + s0 ∧ 0 ≤ d + s0 ∧ s1 ≤ n ∧ c + s1 ≤ s ∧ d + s1 ≤ p ∧
  ∀ k, 0 ≤ k < n → 0 ≤ c + k < s → 0 ≤ d + k < p → s0 ≤ k < s1.
Proof.
  unfold clip_range. intros [= <- <-].
  destruct (c + 0 <? 0) eqn:?, (s <? c + n) eqn:?;
    repeat (let E := fresh in bcase E); split_and!; try lia; intros; lia.
Qed.

(** An opaque source pixel replaces what is below it. *)
Lemma blend_px_opaque d p sbpp f bl :
  bool_decide (bl = HWC_BLENDING_NONE) || negb (format_has_alpha f) = true →
  blend_px d p sbpp f bl 255 = to_rgb565 p sbpp f.
Proof. intros Ho. unfold blend_px, px_alpha. by rewrite Ho. Qed.

Lemma fast_row_copied hw b sx0 sx1 sy m :
  hw_ok hw → blit_ok b → blit_small b → frame_ok hw m →
  clip_range (b_cleft b) (b_sw b) (b_dleft b) (width hw) (b_cw b) = (sx0, sx1) →
  0 ≤ sy < b_ch b → 0 ≤ b_ctop b + sy < b_sh b → 0 ≤ b_dtop b + sy < height hw →
  (b_sbpp b = 2 → sx0 ≤ sx1) →
  ∃ m', fast_row hw b sx0 sx1 sy m = Some m' ∧
        row_copied hw b m m' (b_dleft b + sx0) (b_dtop b + sy) sx0 sy (Z.max 0 (sx1 - sx0)).
Proof.
  intros Hhw Hb (? & ? & ? & ? & ? & ? & ?) Hf Hcl Hsy Hcy Hdy Hneg. pose proof Hcl as (? & ? & ? & ? & ? & ? & _)%clip_spec.
  assert (- 2 ^ 31 ≤ sx1 - sx0 < 2 ^ 31 ∧ sx0 ≤ 2 ^ 29) as [Hn Hs0].
  { destruct Hhw as (? & _). unfold clip_range in Hcl. injection Hcl as <- <-. repeat (let E := fresh in bcase E); lia. }
  unfold fast_row. do 5 fits.
  destruct (Z.eqb_spec (b_sbpp b) 2) as [Hs2|Hs2].
  - pose proof Hhw as (? & ? & ? & ? & ? & ?). specialize (Hneg Hs2).
    rewrite (wrap_small 32 (sx1 - sx0)) by lia. rewrite wrap_small by lia.
    rewrite Z.max_r by lia. apply memcpy_row_copied; try done; lia.
  - rewrite <- (Z2Nat.id (Z.max 0 (sx1 - sx0))) by lia.
    replace (Z.to_nat (sx1 - sx0)) with (Z.to_nat (Z.max 0 (sx1 - sx0))) by lia.
    apply blit_row_copied; [done..|]. intros i Hi. unfold on_panel, in_crop. simpl. lia.
Qed.

(** The crop positions of the first rows, inside the clipped columns. *)
Definition in_rows (sx0 sx1 sy0 sy : Z) (s : Z * Z) : bool :=
  (sx0 <=? s.1) && (s.1 <? sx1) && (sy0 <=? s.2) && (s.2 <? sy).

Lemma row_copied_drawn hw b m0 m m' sx0 sx1 sy0 sy :
  takes_fast_path b = true → hw_ok hw →
  clip_range (b_cleft b) (b_sw b) (b_dleft b) (width hw) (b_cw b) = (sx0, sx1) →
  0 ≤ sy < b_ch b → 0 ≤ b_ctop b + sy < b_sh b → sy0 ≤ sy →
  drawn hw b m0 m (in_rows sx0 sx1 sy0 sy) →
  row_copied hw b m m' (b_dleft b + sx0) (b_dtop b + sy) sx0 sy (Z.max 0 (sx1 - sx0)) →
  drawn hw b m0 m' (in_rows sx0 sx1 sy0 (sy + 1)).
Proof.
  intros [Hx Ho]%andb_true_iff Hhw (? & ? & ? & ? & ? & ? & _)%clip_spec Hsy Hcy Hge [_ Hd] [Hf' Hr].
  apply bool_decide_eq_true in Hx. split; [done|]. intros x y Hxy st. subst st.
  rewrite Hr, Hd by done. unfold layer_px, crop_pos. rewrite Hx. cbn [inv_xform].
  set (sx := x - b_dleft b). set (s := (sx, y - b_dtop b)).
  destruct ((y =? b_dtop b + sy) && (b_dleft b + sx0 <=? x) &&
            (x <? b_dleft b + sx0 + Z.max 0 (sx1 - sx0))) eqn:E.
  - assert (s = (sx0 + (x - (b_dleft b + sx0)), sy)) as Hs by (unfold s, sx; f_equal; lia).
    assert (in_rows sx0 sx1 sy0 (sy + 1) s = true) as -> by (unfold in_rows, s, sx; simpl; lia).
    assert (in_crop b s = true) as -> by (unfold in_crop, s, sx; simpl; lia).
    by rewrite blend_px_opaque, Hs.
  - assert (in_rows sx0 sx1 sy0 (sy + 1) s = in_rows sx0 sx1 sy0 sy s) as ->; [|done].
    unfold in_rows, s, sx. simpl. lia.
Qed.

Lemma fast_rows_drawn hw b m0 sx0 sx1 sy0 sy1 :
  hw_ok hw → blit_ok b → blit_small b → takes_fast_path b = true →
  clip_range (b_cleft b) (b_sw b) (b_dleft b) (width hw) (b_cw b) = (sx0, sx1) →
  clip_range (b_ctop b) (b_sh b) (b_dtop b) (height hw) (b_ch b) = (sy0, sy1) →
  (b_sbpp b = 2 → sy0 < sy1 → sx0 ≤ sx1) →
  ∀ n sy m, sy0 ≤ sy → sy + Z.of_nat n = Z.max sy sy1 → drawn hw b m0 m (in_rows sx0 sx1 sy0 sy) →
  ∃ m', fast_rows hw b sx0 sx1 n sy m = Some m' ∧ drawn hw b m0 m' (in_rows sx0 sx1 sy0 (Z.max sy sy1)).
Proof.
  intros Hhw Hb Hsm Hfp Hcx Hcy Hneg. pose proof (clip_spec _ _ _ _ _ _ _ Hcy) as (? & ? & ? & ? & ? & ? & _).
  induction n as [|n IH]; intros sy m Hsy Hn Hd.
  - exists m. split; [done|]. by replace (Z.max sy sy1) with sy by lia.
  - destruct (fast_row_copied hw b sx0 sx1 sy m) as (m1 & Hm1 & Hr);
      [done|done|done|apply Hd|done|lia|lia|lia|lia|].
    cbn [fast_rows]. rewrite Hm1. cbn [mbind option_bind].
    replace (Z.max sy sy1) with (Z.max (sy + 1) sy1) by lia.
    apply IH; [lia|lia|]. apply row_copied_drawn with m; try done; lia.
Qed.

(** The row copy gets a negative length. *)
Definition negative_copy (hw : eink_hwc_t) (b : blit) : Prop :=
  let '(sx0, sx1) := clip_range (b_cleft b) (b_sw b) (b_dleft b) (width hw) (b_cw b) in
  let '(sy0, sy1) := clip_range (b_ctop b) (b_sh b) (b_dtop b) (height hw) (b_ch b) in
  b_sbpp b = 2 ∧ sy0 < sy1 ∧ sx1 < sx0.

Lemma fast_path_drawn hw b m :
  hw_ok hw → blit_ok b → frame_ok hw m → blit_small b → takes_fast_path b = true → ¬ negative_copy hw b →
  ∃ m', fast_path hw b m = Some m' ∧ layer_drawn hw b m m'.
Proof.
  intros Hhw Hb Hf Hsm Hfp Hneg. unfold fast_path, negative_copy in *. pose proof Hsm as (? & ? & ? & ? & ? & ? & ?).
  rewrite !clip_fits by (done || apply Hb || (destruct Hhw; lia)). cbn [mbind option_bind].
  destruct (clip_range (b_cleft b) _ _ _ _) as [sx0 sx1] eqn:Hcx.
  destruct (clip_range (b_ctop b) _ _ _ _) as [sy0 sy1] eqn:Hcy.
  destruct (fast_rows_drawn hw b m sx0 sx1 sy0 sy1 Hhw Hb Hsm Hfp Hcx Hcy) with
    (n := Z.to_nat (sy1 - sy0)) (sy := sy0) (m := m) as (m' & Hm' & Hd); [lia|lia|lia| |].
  - apply drawn_ext with (P := λ _, false); [|by apply drawn_none].
    intros. unfold in_rows. lia.
  - exists m'. split; [done|]. revert Hd. apply drawn_all. intros x y [Hx Hy] Hin.
    apply andb_true_iff in Hfp as [Hn%bool_decide_eq_true _].
    unfold crop_pos, in_crop, in_rows in *. rewrite Hn in *. simpl in *.
    apply clip_spec in Hcx as (? & ? & ? & ? & ? & ? & Hkx).
    apply clip_spec in Hcy as (? & ? & ? & ? & ? & ? & Hky).
    pose proof (Hkx (x - b_dleft b)). pose proof (Hky (y - b_dtop b)). lia.
Qed.
