(* ===== verification/ComposeProps.v ===== *)
(** * Composing one layer: properties

    [compose_layer] against the gralloc interface: what a buffer the wrapper knows and
    the vendor maps promises ([GrallocLaws]), which layers are drawn, and how. *)
From S2P Require Import Prelude Pixel Compose ComposeSpec.

(** The promise of the gralloc side: a recorded geometry describes the memory a
    successful [lock] maps, and success means that memory was mapped. *)
Class GrallocLaws `{GrallocIf} : Prop := {
  lock_maps_buffer h l t w ht sw sh st f m :
    query_fn h = Some (sw, sh, st, f) → lock h l t w ht = (0, Some m) →
    0 ≤ sw ≤ st ∧ 0 ≤ sh ∧ sh * (st * src_bytes_per_pixel f) ≤ zlen m ∧ Forall is_byte m;
  lock_success_maps h l t w ht : (lock h l t w ht).1 = 0 → is_Some (lock h l t w ht).2 }.

(** The lock and unlock calls of a run are paired, but for failed locks, and
    leave nothing locked. *)
Definition unlocks_all (rc : Z) (evs : list hwc_event) : Prop :=
  evs = [] ∨ ∃ h, (evs = [Ev_lock h] ∧ rc = -1) ∨ evs = [Ev_lock h; Ev_unlock h].

Section Layer.
Context `{GrallocIf}.

(** The layers [compose_layer] draws, with the parameters it draws them with. *)
Definition drawable (hw : eink_hwc_t) (l : hwc_layer_1_t) : option blit :=
  if (layer_handle l =? 0) || negb (query_bound hw) || negb (gralloc hw) then None else
  '(sw, sh, sstride, sformat) ← query_fn (layer_handle l);
  let d := displayFrame l in
  let c := sourceCropi l in
  let cw := rect_right c - rect_left c in
  let ch := rect_bottom c - rect_top c in
  if (rect_right d - rect_left d <=? 0) || (rect_bottom d - rect_top d <=? 0) || (cw <=? 0) || (ch <=? 0)
  then None else
  match lock (layer_handle l) (rect_left c) (rect_top c) cw ch with
  | (0, Some src) =>
    let b := layer_blit l sw sh sstride sformat src in
    if (b_sbpp b =? 0) || negb (bpp hw =? 2) then None else Some b
  | _ => None
  end.

(** Display frame and crop have coordinates of at most 2^29, far from the limits of [int]. *)
Definition rect_small (r : hwc_rect_t) : Prop :=
  - 2 ^ 29 ≤ rect_left r ≤ 2 ^ 29 ∧ - 2 ^ 29 ≤ rect_top r ≤ 2 ^ 29 ∧ - 2 ^ 29 ≤ rect_right r ≤ 2 ^ 29 ∧ - 2 ^ 29 ≤ rect_bottom r ≤ 2 ^ 29.
Definition layer_small (l : hwc_layer_1_t) : Prop := rect_small (displayFrame l) ∧ rect_small (sourceCropi l).

(** The row copy of the layer has a negative length. *)
Definition negative_layer (hw : eink_hwc_t) (l : hwc_layer_1_t) : Prop :=
  match drawable hw l with Some b => takes_fast_path b = true ∧ negative_copy hw b | None => False end.

Lemma compose_layer_cases hw l : layer_small l →
  match drawable hw l with
  | None => ∃ evs, compose_layer hw l = Some (-1, hw, evs)
  | Some b =>
    compose_layer hw l =
      (m ← (if takes_fast_path b then fast_path hw b (shadow hw) else general_path hw b (shadow hw));
       Some (0, set_shadow m hw, [Ev_lock (layer_handle l); Ev_unlock (layer_handle l)]))
  end.
Proof.
  intros [(? & ? & ? & ?) (? & ? & ? & ?)]. unfold drawable, compose_layer. bcase E1; [eauto|].
  destruct (query_fn _) as [[[[sw sh] st] f]|]; [|simpl; eauto]. rewrite !int32_fits by lia. cbn [mbind option_bind]. bcase E2; [eauto|].
  destruct (lock _ _ _ _ _) as [rc [src|]]; [|destruct rc; eauto].
  destruct rc; [|eauto..]. bcase E3; eauto.
Qed.

Lemma drawable_ok `{!GrallocLaws} hw l b :
  layer_small l → drawable hw l = Some b → blit_ok b ∧ blit_small b.
Proof.
  intros [(? & ? & ? & ?) (? & ? & ? & ?)].
  unfold drawable. bcase E1; [done|]. destruct (query_fn _) as [[[[sw sh] st] f]|] eqn:Eq; simpl; [|done].
  bcase E2; [done|]. destruct (lock _ _ _ _ _) as [[] [src|]] eqn:El; try done.
  bcase E3; [done|]. intros [= <-].
  destruct (lock_maps_buffer _ _ _ _ _ _ _ _ _ _ Eq El) as (? & ? & ? & ?).
  unfold blit_ok, blit_small, layer_blit in *. simpl in *.
  assert (0 < src_bytes_per_pixel f) by (destruct f; simpl in *; lia).
  split; [split_and!; [done|lia|nia|lia|done]|lia].
Qed.

Lemma compose_layer_events `{!GrallocLaws} hw l rc hw' evs :
  compose_layer hw l = Some (rc, hw', evs) → unlocks_all rc evs.
Proof.
  unfold unlocks_all, compose_layer. bcase E1; [intros [= _ _ <-]; auto|].
  destruct (query_fn _) as [[[[sw sh] st] f]|]; [|simpl; intros [= _ _ <-]; auto]. intros Hc. do 4 (obind Hc). revert Hc.
  repeat match goal with E : int32 _ = Some _ |- _ => apply int32_inv in E as [-> _] end.
  bcase E2; [intros [= _ _ <-]; auto|].
  pose proof (lock_success_maps (layer_handle l) (rect_left (sourceCropi l)) (rect_top (sourceCropi l))
    (rect_right (sourceCropi l) - rect_left (sourceCropi l))
    (rect_bottom (sourceCropi l) - rect_top (sourceCropi l))) as Hs.
  destruct (lock _ _ _ _ _) as [rc' [src|]]; simpl in Hs; cycle 1.
  { destruct rc'; [by destruct (Hs eq_refl)| |]; intros [= <- _ <-]; right; eauto. }
  destruct rc'; [|intros [= <- _ <-]; right; eauto..].
  bcase E3; [intros [= _ _ <-]; right; eauto|]. destruct (if takes_fast_path _ then _ else _); simpl; [|done].
  intros [= _ _ <-]. right. eauto.
Qed.

(** Drawing a layer with small coordinates never faults, except for the negative row copy. *)
Lemma compose_layer_drawn `{!GrallocLaws} hw l b :
  hw_ok hw → frame_ok hw (shadow hw) → layer_small l → drawable hw l = Some b → ¬ negative_layer hw l →
  ∃ m, compose_layer hw l =
         Some (0, set_shadow m hw, [Ev_lock (layer_handle l); Ev_unlock (layer_handle l)]) ∧
       layer_drawn hw b (shadow hw) m.
Proof.
  intros Hhw Hf Hs Hd Hn. pose proof (compose_layer_cases hw l Hs) as Hc. unfold negative_layer in Hn.
  rewrite Hd in *. destruct (drawable_ok _ _ _ Hs Hd) as (Hb & Hsm). rewrite Hc.
  destruct (takes_fast_path b) eqn:Hfp.
  - destruct (fast_path_drawn hw b (shadow hw)) as (m & -> & Hm); [done..|naive_solver|]. eauto.
  - destruct (general_path_drawn hw b (shadow hw)) as (m & -> & Hm); [done..|]. eauto.
Qed.

(** ** Properties *)

(** C5: composing a layer whose display frame and crop have coordinates of at most 2^29, so that no [int]
    overflows, on a well-formed panel never leaves a buffer, except
    for 16-bit layers whose clipped width is negative.  A layer that is not drawable
    (no handle, unknown geometry, empty rectangles, failed lock, unsupported
    format) leaves the device as it was and returns -1.  A drawable one
    returns 0 and changes the shadow buffer only: every panel pixel becomes the blend of its old
    value with the source pixel the layer's transform assigns to it, and keeps
    its value where the transform assigns none.  What was locked is unlocked. *)
Theorem compose_layer_pixel_exact `{!GrallocLaws} hw l :
  hw_ok hw → frame_ok hw (shadow hw) → layer_small l → ¬ negative_layer hw l →
  ∃ rc hw' evs, compose_layer hw l = Some (rc, hw', evs) ∧ unlocks_all rc evs ∧
    match drawable hw l with
    | None => rc = -1 ∧ hw' = hw
    | Some b => rc = 0 ∧ hw' = set_shadow (shadow hw') hw ∧ frame_ok hw (shadow hw') ∧
      ∀ x y, on_panel hw x y →
        px (stride_bytes hw) (shadow hw') x y = layer_px b x y (px (stride_bytes hw) (shadow hw) x y)
    end.
Proof.
  intros Hhw Hf Hs Hn. pose proof (compose_layer_cases hw l Hs) as Hc.
  destruct (drawable hw l) as [b|] eqn:Hd.
  - destruct (compose_layer_drawn hw l b) as (m & Hm & Hfr & Hpx); [done..|].
    eexists _, _, _. split; [exact Hm|]. split; [by eapply compose_layer_events|]. done.
  - destruct Hc as [evs Hc]. exists (-1), hw, evs. split; [done|].
    split; [by eapply compose_layer_events|done].
Qed.

End Layer.

(** C38: the row-at-a-time fast path is equivalent to the general
    per-pixel loop: whenever a layer qualifies for it (no transform, opaque), its coordinates are at most 2^29 and its size at most 2^30, so that
    neither path overflows an [int], and its clipped width is not negative, both return without fault and give every panel pixel
    the same value. *)
Theorem fast_path_equals_general_path hw b m :
  hw_ok hw → blit_ok b → frame_ok hw m → blit_small b →
  takes_fast_path b = true → ¬ negative_copy hw b →
  ∃ m1 m2, fast_path hw b m = Some m1 ∧ general_path hw b m = Some m2 ∧
    ∀ x y, on_panel hw x y → px (stride_bytes hw) m1 x y = px (stride_bytes hw) m2 x y.
Proof.
  intros Hhw Hb Hf Hsm Hfp Hn.
  destruct (fast_path_drawn hw b m) as (m1 & H1 & _ & Hpx1); [done..|].
  destruct (general_path_drawn hw b m) as (m2 & H2 & _ & Hpx2); [done..|].
  exists m1, m2. split_and!; [done..|]. intros x y Hxy. by rewrite Hpx1, Hpx2.
Qed.

(** A program whose next step may fail. *)
Tactic Notation "obind_None" constr(m) ident(x) := destruct m as [x|]; cbn [mbind option_bind]; [|done].

(** The length of the row copy for a negative width. *)
Lemma negative_length n : - 2 ^ 30 < n < 0 → u32 (u32 n * 2) = 2 ^ 32 + n * 2.
Proof.
  intros Hn. unfold wrap. rewrite <- (Z.mod_unique n (2 ^ 32) (-1) (n + 2 ^ 32)) by lia.
  symmetry. apply Z.mod_unique with 1; lia.
Qed.

(** A 16-bit opaque layer that lies beside the panel (or whose crop lies
    beside its buffer) while some of its rows are in range makes the row copy read
    more than two gigabytes: [memcpy] is called with the negative
    width converted to [size_t], and the composition faults, although
    nothing of the layer is visible. *)
Theorem offscreen_rgb565_copy_faults hw b m :
  hw_ok hw → blit_ok b → blit_small b → takes_fast_path b = true → negative_copy hw b →
  zlen (b_src b) < 2 ^ 31 →
  (let '(sx0, sx1) := clip_range (b_cleft b) (b_sw b) (b_dleft b) (width hw) (b_cw b) in - 2 ^ 30 < sx1 - sx0) →
  fast_path hw b m = None.
Proof.
  intros Hhw Hb Hsm Hfp Hn Hlen. unfold negative_copy, fast_path in *. destruct Hsm as (? & ? & ? & ? & ? & ? & ?).
  rewrite !clip_fits by (done || apply Hb || (destruct Hhw; lia)). cbn [mbind option_bind].
  destruct (clip_range (b_cleft b) _ _ _ _) as [sx0 sx1] eqn:Hcx.
  destruct (clip_range (b_ctop b) _ _ _ _) as [sy0 sy1] eqn:Hcy. destruct Hn as (Hs2 & Hy & Hx). intros Hr.
  destruct (Z.to_nat (sy1 - sy0)) as [|n] eqn:En; [lia|]. cbn [fast_rows].
  unfold fast_row. obind_None (int32 (b_ctop b + sy0)) srcy. obind_None (int32 (b_cleft b + sx0)) srcx. obind_None (int32 (b_dtop b + sy0)) dy.
  obind_None (int32 (b_dleft b + sx0)) dx. rewrite int32_fits by lia. cbn [mbind option_bind]. rewrite Hs2. simpl. rewrite negative_length by lia.
  unfold mem_read, in_block. bcase E; [lia|done].
Qed.

(** Blending with a coverage alpha computes the weighted mean of
    source and panel colour to within one unit before the result is truncated to five or
    six bits: each channel of the new pixel is less than one above and less than
    eight (four for green) plus one below the exact mean. *)
Theorem coverage_blend_accurate d p :
  let f := HAL_PIXEL_FORMAT_RGBA_8888 in
  Forall is_byte p → 0 ≤ d < 2 ^ 16 → 0 < mget p 3 < 255 →
  let a := mget p 3 in
  let out := blend_px d p 4 f HWC_BLENDING_COVERAGE 255 in
  let close q exact got := - 255 * q < 255 * got - exact < 255 in
  close 9 (a * mget p 0 + (255 - a) * r565 d) (r565 out) ∧
  close 5 (a * mget p 1 + (255 - a) * g565 d) (g565 out) ∧
  close 9 (a * mget p 2 + (255 - a) * b565 d) (b565 out).
Proof.
  intros f Hp Hd Ha a out close.
  pose proof (mget_byte p 0 Hp) as H0. pose proof (mget_byte p 1 Hp) as H1. pose proof (mget_byte p 2 Hp) as H2.
  pose proof (r565_byte d) as (Hr & Hg & Hb).
  assert (∀ s e, is_byte s → is_byte e →
    let v := scale255 s a + scale255 e (255 - a) in
    - 255 < 255 * v - (a * s + (255 - a) * e) < 255 ∧ clamp255 v = v ∧ is_byte v) as Hmix.
  { intros s e Hs He v. pose proof (scale255_nearest s a). pose proof (scale255_nearest e (255 - a)).
    unfold is_byte in *. assert (255 * v < 255 * 256) by (unfold v; nia).
    assert (- 255 < 255 * v) by (unfold v; nia). unfold clamp255.
    split; [unfold v; lia|]. split; [bcase E; lia|lia]. }
  assert (out = pack565 (scale255 (mget p 0) a + scale255 (r565 d) (255 - a))
                        (scale255 (mget p 1) a + scale255 (g565 d) (255 - a))
                        (scale255 (mget p 2) a + scale255 (b565 d) (255 - a))) as ->.
  { unfold out, blend_px, px_alpha. simpl. fold a. destruct (Z.eqb_spec a 0); [unfold a in *; lia|].
    destruct (Z.eqb_spec a 255); [unfold a in *; lia|]. simpl.
    by rewrite (proj1 (proj2 (Hmix _ _ H0 Hr))), (proj1 (proj2 (Hmix _ _ H1 Hg))),
      (proj1 (proj2 (Hmix _ _ H2 Hb))). }
  destruct (Hmix _ _ H0 Hr) as (E0 & _ & B0), (Hmix _ _ H1 Hg) as (E1 & _ & B1), (Hmix _ _ H2 Hb) as (E2 & _ & B2).
  destruct (unpack565 _ _ _ B0 B1 B2) as (-> & -> & ->). unfold close. split_and!; divmod.
Qed.

(** ** A concrete panel *)
Module LayerDemo.

(** Four by two pixels, showing white. *)
Definition hw : eink_hwc_t :=
  EinkHwc true true 3 (replicate 16 255) (replicate 16 255) (replicate 16 255) 16 4 2 4 2 8 2
    None 0 0 0 0 0.

(** Buffer 1 is a row of two RGBA pixels, buffer 2 a 16-bit square of two. *)
#[local] Instance gr : GrallocIf := {|
  query_fn h := if h =? 1 then Some (2, 1, 2, HAL_PIXEL_FORMAT_RGBA_8888)
                else if h =? 2 then Some (2, 2, 2, HAL_PIXEL_FORMAT_RGB_565) else None;
  lock h _ _ _ _ := (0, Some (if h =? 1 then [255; 0; 0; 255; 0; 255; 0; 128] else [1; 2; 3; 4; 5; 6; 7; 8])) |}.

#[local] Instance gr_laws : GrallocLaws.
Proof.
  split; [|by intros; eexists]. intros h l t w ht sw sh st f m. simpl.
  destruct (h =? 1); [|destruct (h =? 2); [|done]]; intros [= <- <- <- <-] [= <-]; simpl;
    (split_and!; [lia..|]); bytes.
Qed.

Definition layer (h : Z) (xf : hwc_transform) (bl : hwc_blending) (dl : Z) (cw ch : Z) : hwc_layer_1_t :=
  Layer HWC_OVERLAY 0 h xf bl (Rect 0 0 cw ch) (Rect dl 0 (dl + cw) ch) (-1) (0, 0, 0).

Lemma hw_good : hw_ok hw.
Proof. unfold hw_ok. simpl. lia. Qed.

Lemma frame_good : frame_ok hw (shadow hw).
Proof. split; [done|]. simpl. bytes. Qed.

(** The rotated pair of pixels ends up in the first column. *)
Lemma compose_layer_pixel_exact_witness :
  ∃ hw' evs,
    compose_layer hw (layer 1 HWC_TRANSFORM_ROT_90 HWC_BLENDING_PREMULT 0 2 1) = Some (0, hw', evs) ∧
    px 8 (shadow hw') 0 0 = 0xf800 ∧ px 8 (shadow hw') 1 1 = 0xffff.
Proof.
  destruct (compose_layer_pixel_exact hw (layer 1 HWC_TRANSFORM_ROT_90 HWC_BLENDING_PREMULT 0 2 1))
    as (rc & hw' & evs & Hc & _ & -> & _ & _ & Hpx);
    [apply hw_good|apply frame_good|unfold layer_small, rect_small; simpl; lia|by intros [? _]|].
  exists hw', evs. split; [exact Hc|].
  pose proof (Hpx 0 0 ltac:(unfold on_panel; simpl; lia)) as H1.
  pose proof (Hpx 1 1 ltac:(unfold on_panel; simpl; lia)) as H2.
  split; [etransitivity; [exact H1|]|etransitivity; [exact H2|]]; vm_compute; reflexivity.
Defined.

Definition square (dl : Z) : blit :=
  layer_blit (layer 2 HWC_TRANSFORM_NONE HWC_BLENDING_NONE dl 2 2) 2 2 2 HAL_PIXEL_FORMAT_RGB_565
    [1; 2; 3; 4; 5; 6; 7; 8].

Lemma square_ok dl : blit_ok (square dl).
Proof. unfold blit_ok. simpl. split_and!; [lia..|]. bytes. Qed.

Lemma fast_path_equals_general_path_witness :
  ∃ m1 m2, fast_path hw (square 3) (shadow hw) = Some m1 ∧ general_path hw (square 3) (shadow hw) = Some m2 ∧
    px 8 m1 3 1 = px 8 m2 3 1.
Proof.
  destruct (fast_path_equals_general_path hw (square 3) (shadow hw)) as (m1 & m2 & H1 & H2 & Hpx);
    [apply hw_good|apply square_ok|apply frame_good|unfold blit_small; simpl; lia|reflexivity| |].
  { unfold negative_copy. simpl. lia. }
  exists m1, m2. split_and!; [exact H1|exact H2|]. apply (Hpx 3 1). unfold on_panel. simpl. lia.
Defined.

(** A frame near the greatest [int] overflows the clipping. *)
Example far_frame_overflows : fast_path hw (square (2 ^ 31 - 2)) (shadow hw) = None.
Proof. vm_compute. reflexivity. Qed.

(** The square moved two columns beyond the right edge. *)
Lemma offscreen_rgb565_copy_faults_witness :
  fast_path hw (square 6) (shadow hw) = None ∧
  compose_layer hw (layer 2 HWC_TRANSFORM_NONE HWC_BLENDING_NONE 6 2 2) = None.
Proof.
  split; [|vm_compute; reflexivity].
  apply (offscreen_rgb565_copy_faults hw (square 6) (shadow hw));
    [apply hw_good|apply square_ok|unfold blit_small; simpl; lia|reflexivity|unfold negative_copy; simpl; lia|simpl; lia|simpl; lia].
Defined.

Lemma coverage_blend_accurate_witness :
  let out := blend_px 0 [255; 128; 0; 128] 4 HAL_PIXEL_FORMAT_RGBA_8888 HWC_BLENDING_COVERAGE 255 in
  - 255 * 9 < 255 * r565 out - (128 * 255 + (255 - 128) * r565 0) < 255.
Proof.
  apply (coverage_blend_accurate 0 [255; 128; 0; 128]); [bytes|lia|vm_compute; done].
Defined.
End LayerDemo.
