(* ===== verification/Hwc.v ===== *)
(** * The e-ink hwcomposer: frames, updates and the device

    Model of the rest of [gralloc_eink/src/hwcomposer_eink.c]: [hwc_prepare],
    [hwc_compose] with its dirty-region and change tracking, the update sent to
    the panel, the small entry points and one round of the vsync thread.

    The file's static variables are a map from their names to values; the
    clock, [dup] and gralloc are parameters.  Log output is not
    modelled, the static variables it alone uses are.  [unsigned long] is 32 bits
    wide, statistics wrap around. *)
From S2P Require Import Prelude Pixel Compose.

(** ** Static variables *)

Inductive var :=
| g_prepare_count | g_set_count
| g_frames_composed | g_updates_sent | g_frames_identical
| g_compose_us | g_update_us | g_clear_us | g_layers_us | g_diff_us
| g_vsync_events | g_eventcontrol_count | g_nudges
| g_blank_count | g_prepare_composites
| g_last_blank | g_last_prepare_layers
| g_last_change_us | g_last_set_us
| g_fence_src
| last_prep_us | last_num_layers | layer_set_logs
| updates | px0 | py0 | px1 | py1
| last_log_us | last_composed.

#[export] Instance var_eq_dec : EqDecision var.
Proof. solve_decision. Defined.

Definition statics : Type := var → Z.

Definition set_var (v : var) (x : Z) (g : statics) : statics := λ w, if decide (w = v) then x else g w.

(** The values before the first call. *)
Definition statics_init : statics := λ v,
  match v with g_last_blank | g_fence_src => -1 | _ => 0 end.

(** ** Displays *)

Record hwc_display_contents_1_t := Display {
  retireFenceFd : Z;
  hwLayers : list hwc_layer_1_t }.

Definition set_retire (fd : Z) (d : hwc_display_contents_1_t) : hwc_display_contents_1_t :=
  Display fd (hwLayers d).

Definition set_layers (ls : list hwc_layer_1_t) (d : hwc_display_contents_1_t) : hwc_display_contents_1_t :=
  Display (retireFenceFd d) ls.

Definition set_release_fence (fd : Z) (l : hwc_layer_1_t) : hwc_layer_1_t :=
  Layer (compositionType l) (hints l) (layer_handle l) (transform l) (blending l) (sourceCropi l)
    (displayFrame l) fd (backgroundColor l).

Definition set_overlay (l : hwc_layer_1_t) : hwc_layer_1_t :=
  Layer HWC_OVERLAY 0 (layer_handle l) (transform l) (blending l) (sourceCropi l)
    (displayFrame l) (releaseFenceFd l) (backgroundColor l).

(** ** Updates of the device *)

Definition set_screen (m p : list Z) (hw : eink_hwc_t) : eink_hwc_t :=
  EinkHwc (gralloc hw) (query_bound hw) (fb_fd hw) m (shadow hw) p (fb_size hw)
    (width hw) (height hw) (fb_width hw) (fb_height hw) (stride_bytes hw) (bpp hw) (procs hw)
    (vsync_enabled hw) (vsync_requested hw) (blanked hw) (force_full hw) (stop_vsync hw).

Definition set_procs (x : option hwc_procs_t) (hw : eink_hwc_t) : eink_hwc_t :=
  EinkHwc (gralloc hw) (query_bound hw) (fb_fd hw) (fb_mem hw) (shadow hw) (panel hw) (fb_size hw)
    (width hw) (height hw) (fb_width hw) (fb_height hw) (stride_bytes hw) (bpp hw) x
    (vsync_enabled hw) (vsync_requested hw) (blanked hw) (force_full hw) (stop_vsync hw).

(** The flags the callbacks and the vsync thread write: enabled, requested,
    blanked, full. *)
Definition set_flags (e r b f : Z) (hw : eink_hwc_t) : eink_hwc_t :=
  EinkHwc (gralloc hw) (query_bound hw) (fb_fd hw) (fb_mem hw) (shadow hw) (panel hw) (fb_size hw)
    (width hw) (height hw) (fb_width hw) (fb_height hw) (stride_bytes hw) (bpp hw) (procs hw)
    e r b f (stop_vsync hw).

Definition set_vsync_enabled x hw := set_flags x (vsync_requested hw) (blanked hw) (force_full hw) hw.
Definition set_vsync_requested x hw := set_flags (vsync_enabled hw) x (blanked hw) (force_full hw) hw.
Definition set_blanked x hw := set_flags (vsync_enabled hw) (vsync_requested hw) x (force_full hw) hw.
Definition set_force_full x hw := set_flags (vsync_enabled hw) (vsync_requested hw) (blanked hw) x hw.

(** ** State and faults *)

Record world := World {
  dev : eink_hwc_t;
  glob : statics;
  events : list hwc_event;
  clock_reads : nat }.

(** The clock in microseconds and nanoseconds, and the result of [dup], by
    the number of earlier readings. *)
Class HwcEnv := {
  clock_us : nat → Z;
  clock_ns : nat → Z;
  dup_result : nat → Z → Z }.

Definition HM (A : Type) : Type := world → option (A * world).
#[export] Instance HM_ret : MRet HM := λ _ x s, Some (x, s).
#[export] Instance HM_bind : MBind HM := λ _ _ k m s,
  match m s with Some (x, s') => k x s' | None => None end.

Definition hlift {A} (o : option A) : HM A := λ s, x ← o; Some (x, s).
Definition get_dev : HM eink_hwc_t := λ s, Some (dev s, s).
Definition mod_dev (f : eink_hwc_t → eink_hwc_t) : HM () :=
  λ s, Some ((), World (f (dev s)) (glob s) (events s) (clock_reads s)).
Definition get (v : var) : HM Z := λ s, Some (glob s v, s).
Definition put (v : var) (x : Z) : HM () :=
  λ s, Some ((), World (dev s) (set_var v x (glob s)) (events s) (clock_reads s)).
Definition emit (es : list hwc_event) : HM () :=
  λ s, Some ((), World (dev s) (glob s) (events s ++ es) (clock_reads s)).

(** [v += x] on an [unsigned long] and on an [int]. *)
Definition add_ulong (v : var) (x : Z) : HM () := y ← get v; put v (u32 (y + x)).
Definition incr_int (v : var) : HM () := y ← get v; put v (s32 (y + 1)).

Definition EINK_VSYNC_PERIOD_NS : Z := 100000000.
Definition EINK_FULL_UPDATE_EVERY : Z := 60.
Definition EINK_NUDGE_IDLE_US : Z := 3000000.
Definition EINK_NUDGE_QUIET_US : Z := 200000.
Definition EINK_SET_MISSING_US : Z := 300000.

(** [a % b == 0] on [int]s. *)
Definition divides (b a : Z) : bool := Z.rem a b =? 0.

(** The region handed to the driver: left, top, width, height. *)
Definition update_region (panel_width left top w h : Z) : option (Z * Z * Z * Z) :=
  if (w <=? 0) || (h <=? 0) then None else
  let right := left + w in
  let left := left &&& Z.lnot 7 in
  let w := (right - left + 7) &&& Z.lnot 7 in
  let w := if panel_width <? left + w then panel_width - left else w in
  if w <=? 0 then None else Some (left, top, w, h).

Definition eink_send_update (fd panel_width left top w h : Z) (full : bool) : HM () :=
  match update_region panel_width left top w h with
  | Some (l, t, w, h) => emit [Ev_update fd l t w h full]
  | None => mret ()
  end.

(** ** Composing a frame *)

Record frame_acc := Acc {
  dirty : bool; composed : Z; failed : Z; dx0 : Z; dy0 : Z; dx1 : Z; dy1 : Z }.

(** The rectangle a composed layer adds its display frame to. *)
Definition grow (a : frame_acc) (f : hwc_rect_t) : frame_acc :=
  Acc true (composed a + 1) (failed a)
    (if rect_left f <? dx0 a then rect_left f else dx0 a)
    (if rect_top f <? dy0 a then rect_top f else dy0 a)
    (if dx1 a <? rect_right f then rect_right f else dx1 a)
    (if dy1 a <? rect_bottom f then rect_bottom f else dy1 a).

(** Clamping to the panel; an empty rectangle stands for the whole panel. *)
Definition clamp_region (hw : eink_hwc_t) (a : frame_acc) : Z * Z * Z * Z :=
  let x0 := if dx0 a <? 0 then 0 else dx0 a in
  let y0 := if dy0 a <? 0 then 0 else dy0 a in
  let x1 := if width hw <? dx1 a then width hw else dx1 a in
  let y1 := if height hw <? dy1 a then height hw else dy1 a in
  if (x1 <=? x0) || (y1 <=? y0) then (0, 0, width hw, height hw) else (x0, y0, x1, y1).

(** Union with the remembered rectangle, if that is not empty. *)
Definition join_region (p d : Z * Z * Z * Z) : Z * Z * Z * Z :=
  let '(p0, q0, p1, q1) := p in
  let '(x0, y0, x1, y1) := d in
  if (p0 <? p1) && (q0 <? q1) then
    (if p0 <? x0 then p0 else x0, if q0 <? y0 then q0 else y0,
     if x1 <? p1 then p1 else x1, if y1 <? q1 then q1 else y1)
  else d.

(** The row loop that copies what differs: the panel copy, the framebuffer
    and whether anything changed. *)
Fixpoint diff_rows (hw : eink_hwc_t) (x0 x1 : Z) (n : nat) (y : Z) (seen fb : list Z) (changed : bool) :
    option (list Z * list Z * bool) :=
  match n with
  | O => Some (seen, fb, changed)
  | S n =>
    let off := y * stride_bytes hw + x0 * 2 in
    let len := (x1 - x0) * 2 in
    src ← mem_read (shadow hw) off len;
    old ← mem_read seen off len;
    if decide (old = src) then diff_rows hw x0 x1 n (y + 1) seen fb changed
    else
      seen ← mem_write seen off src;
      fb ← mem_write fb off src;
      diff_rows hw x0 x1 n (y + 1) seen fb true
  end.

Section Frames.
Context `{GrallocIf} `{HwcEnv}.

Definition now_us : HM Z :=
  λ s, Some (u32 (clock_us (clock_reads s)), World (dev s) (glob s) (events s) (S (clock_reads s))).

Definition dup_fence (fd : Z) : HM Z :=
  λ s, Some (dup_result (length (events s)) fd,
             World (dev s) (glob s) (events s ++ [Ev_dup fd]) (clock_reads s)).

(** The retire fence of a frame composed by [set]. *)
Definition retire_fence : HM Z :=
  f ← get g_fence_src; if 0 <=? f then dup_fence f else mret (-1).

(** The layer loop of [hwc_compose]. *)
Definition compose_one (a : frame_acc) (l : hwc_layer_1_t) : HM frame_acc :=
  hw ← get_dev;
  match compositionType l with
  | HWC_FRAMEBUFFER_TARGET => mret a
  | HWC_BACKGROUND =>
    _ ← mod_dev (λ hw, compose_background hw l);
    mret (Acc true (composed a) (failed a) 0 0 (width hw) (height hw))
  | _ =>
    '(rc, hw', evs) ← hlift (compose_layer hw l);
    _ ← mod_dev (λ _, hw');
    _ ← emit evs;
    mret (if rc =? 0 then grow a (displayFrame l)
          else Acc (dirty a) (composed a) (failed a + 1) (dx0 a) (dy0 a) (dx1 a) (dy1 a))
  end.

Fixpoint compose_layers (a : frame_acc) (ls : list hwc_layer_1_t) : HM frame_acc :=
  match ls with
  | [] => mret a
  | l :: ls => a ← compose_one a l; compose_layers a ls
  end.

(** The heartbeat every 64 frames, as far as it changes state. *)
Definition heartbeat : HM () :=
  n ← get g_set_count;
  if divides 64 n then
    nowu ← now_us;
    c ← get g_frames_composed;
    _ ← put last_log_us nowu;
    put last_composed c
  else mret ().

(** The region of this frame, remembered in [px0] to [py1], and whether the
    update is a full one. *)
Definition frame_region (a : frame_acc) : HM (Z * Z * Z * Z * bool) :=
  hw ← get_dev;
  p0 ← get px0; q0 ← get py0; p1 ← get px1; q1 ← get py1;
  let '(x0, y0, x1, y1) := join_region (p0, q0, p1, q1) (clamp_region hw a) in
  _ ← put px0 x0; _ ← put py0 y0; _ ← put px1 x1; _ ← put py1 y1;
  u ← get updates;
  let full := divides EINK_FULL_UPDATE_EVERY u || truthy (force_full hw) in
  _ ← mod_dev (set_force_full 0);
  mret (if full then (0, 0, width hw, height hw, true) else (x0, y0, x1, y1, false)).

(** Bookkeeping after the copy, and the update if anything changed. *)
Definition finish_frame (t_enter x0 y0 x1 y1 : Z) (full changed : bool) : HM () :=
  hw ← get_dev;
  _ ← add_ulong g_frames_composed 1;
  t ← now_us; _ ← add_ulong g_compose_us (t - t_enter);
  t ← now_us; _ ← put g_last_set_us t;
  if changed then
    t_upd ← now_us;
    _ ← put g_last_change_us t_upd;
    _ ← incr_int updates;
    _ ← add_ulong g_updates_sent 1;
    _ ← eink_send_update (fb_fd hw) (width hw) x0 y0 (x1 - x0) (y1 - y0) full;
    t ← now_us; add_ulong g_update_us (t - t_upd)
  else add_ulong g_frames_identical 1.

(** What happens to a dirty frame. *)
Definition present_frame (a : frame_acc) (t_enter : Z) : HM () :=
  '(x0, y0, x1, y1, full) ← frame_region a;
  hw ← get_dev;
  t_diff ← now_us;
  '(seen, fb, changed) ← hlift (diff_rows hw x0 x1 (Z.to_nat (y1 - y0)) y0 (panel hw) (fb_mem hw) false);
  _ ← mod_dev (set_screen fb seen);
  t ← now_us; _ ← add_ulong g_diff_us (t - t_diff);
  _ ← finish_frame t_enter x0 y0 x1 y1 full changed;
  heartbeat.

(** The primary display while the panel is on. *)
Definition compose_primary (t_enter : Z) (d : hwc_display_contents_1_t) : HM hwc_display_contents_1_t :=
  hw ← get_dev;
  t_clear ← now_us;
  _ ← mod_dev (set_shadow (replicate (Z.to_nat (fb_size hw)) 0xff));
  t ← now_us; _ ← add_ulong g_clear_us (t - t_clear);
  t_layers ← now_us;
  a ← compose_layers (Acc false 0 0 (width hw) (height hw) 0 0) (hwLayers d);
  t ← now_us; _ ← add_ulong g_layers_us (t - t_layers);
  _ ← (if dirty a then present_frame a t_enter else mret ());
  mret (set_layers (set_release_fence (-1) <$> hwLayers d) d).

(** The primary display while it is blanked. *)
Definition blanked_display (d : hwc_display_contents_1_t) : hwc_display_contents_1_t :=
  set_layers (set_release_fence (-1) <$> hwLayers d) d.

(** One display of the list. *)
Definition compose_display (t_enter : Z) (from_set : bool) (i : nat)
    (d : hwc_display_contents_1_t) : HM hwc_display_contents_1_t :=
  if (i =? 0)%nat then
    hw ← get_dev;
    d ← (if truthy (blanked hw) then mret (blanked_display d) else compose_primary t_enter d);
    if from_set then fd ← retire_fence; mret (set_retire fd d) else mret d
  else mret (set_retire (-1) d).

Fixpoint compose_displays (t_enter : Z) (from_set : bool) (i : nat)
    (ds : list (option hwc_display_contents_1_t)) : HM (list (option hwc_display_contents_1_t)) :=
  match ds with
  | [] => mret []
  | None :: ds => ds ← compose_displays t_enter from_set (S i) ds; mret (None :: ds)
  | Some d :: ds =>
    d ← compose_display t_enter from_set i d;
    ds ← compose_displays t_enter from_set (S i) ds; mret (Some d :: ds)
  end.

(** The number of layers of the primary display, or a default. *)
Definition primary_layers (default : Z) (ds : list (option hwc_display_contents_1_t)) : Z :=
  match ds with Some d :: _ => zlen (hwLayers d) | _ => default end.

Definition count_frame (from_set : bool) (ds : list (option hwc_display_contents_1_t)) : HM () :=
  _ ← (if from_set then incr_int g_set_count else add_ulong g_prepare_composites 1);
  last ← get last_num_layers;
  let num_primary := primary_layers 0 ds in
  if num_primary =? last then mret () else
  _ ← put last_num_layers num_primary;
  n ← get g_set_count;
  if 10 <? n then incr_int layer_set_logs else mret ().

Definition hwc_compose (ds : list (option hwc_display_contents_1_t)) (from_set : bool) :
    HM (list (option hwc_display_contents_1_t)) :=
  t_enter ← now_us;
  _ ← count_frame from_set ds;
  compose_displays t_enter from_set 0 ds.

Definition hwc_set (ds : list (option hwc_display_contents_1_t)) : HM (list (option hwc_display_contents_1_t)) :=
  hwc_compose ds true.

(** ** Preparing a frame *)

Definition mark_overlay (l : hwc_layer_1_t) : hwc_layer_1_t :=
  match compositionType l with
  | HWC_FRAMEBUFFER_TARGET | HWC_BACKGROUND => l
  | _ => set_overlay l
  end.

Definition mark_display (d : hwc_display_contents_1_t) : hwc_display_contents_1_t :=
  set_layers (mark_overlay <$> hwLayers d) d.

Definition mark_displays (ds : list (option hwc_display_contents_1_t)) :
    list (option hwc_display_contents_1_t) := map (option_map mark_display) ds.

(** The condition that [set] has gone missing; the clock is read last. *)
Definition set_missing : HM bool :=
  hw ← get_dev;
  if truthy (blanked hw) then mret false else
  last ← get g_last_set_us;
  if last =? 0 then mret false else
  t ← now_us; mret (EINK_SET_MISSING_US <? u32 (t - last)).

Definition hwc_prepare (ds : list (option hwc_display_contents_1_t)) : HM (list (option hwc_display_contents_1_t)) :=
  _ ← put g_last_prepare_layers (primary_layers (-1) ds);
  _ ← incr_int g_prepare_count;
  n ← get g_prepare_count;
  _ ← (if (n <=? 10) || divides 25 n then t ← now_us; put last_prep_us t else mret ());
  let ds := mark_displays ds in
  missing ← set_missing;
  if missing : bool then hwc_compose ds false else mret ds.

(** ** The other entry points *)

Inductive hwc_event_type := HWC_EVENT_VSYNC | HWC_EVENT_OTHER (n : Z).

Definition hwc_eventControl (event : hwc_event_type) (enabled : Z) : HM Z :=
  match event with
  | HWC_EVENT_OTHER _ => mret (- Errno.EINVAL)
  | HWC_EVENT_VSYNC =>
    _ ← mod_dev (set_vsync_enabled enabled);
    _ ← (if truthy enabled then mod_dev (set_vsync_requested 1) else mret ());
    _ ← add_ulong g_eventcontrol_count 1;
    mret 0
  end.

Definition HWC_DISPLAY_PRIMARY : Z := 0.

Definition hwc_blank (disp blank : Z) : HM Z :=
  if disp =? HWC_DISPLAY_PRIMARY then
    _ ← add_ulong g_blank_count 1;
    _ ← put g_last_blank blank;
    _ ← mod_dev (set_blanked (c_bool (truthy blank)));
    _ ← (if blank =? 0 then mod_dev (set_force_full 1) else mret ());
    mret 0
  else mret 0.

Inductive hwc_query_type := HWC_BACKGROUND_LAYER_SUPPORTED | HWC_VSYNC_PERIOD | HWC_QUERY_OTHER (n : Z).

(** The return value and the value stored, if any. *)
Definition hwc_query (what : hwc_query_type) : Z * option Z :=
  match what with
  | HWC_BACKGROUND_LAYER_SUPPORTED => (0, Some 1)
  | HWC_VSYNC_PERIOD => (0, Some 1000000000)
  | HWC_QUERY_OTHER _ => (- Errno.EINVAL, None)
  end.

Definition hwc_registerProcs (p : option hwc_procs_t) : HM () := mod_dev (set_procs p).

(** The return value and [*numConfigs] with the stored configurations. *)
Definition hwc_getDisplayConfigs (disp numConfigs : Z) : Z * Z * list Z :=
  if negb (disp =? HWC_DISPLAY_PRIMARY) then (- Errno.EINVAL, numConfigs, [])
  else if numConfigs =? 0 then (0, 0, []) else (0, 1, [0]).

Inductive hwc_attribute :=
| HWC_DISPLAY_VSYNC_PERIOD | HWC_DISPLAY_WIDTH | HWC_DISPLAY_HEIGHT | HWC_DISPLAY_DPI_X | HWC_DISPLAY_DPI_Y
| HWC_DISPLAY_ATTRIBUTE_OTHER (n : Z).

Definition attribute_value (hw : eink_hwc_t) (a : hwc_attribute) : Z :=
  match a with
  | HWC_DISPLAY_VSYNC_PERIOD => EINK_VSYNC_PERIOD_NS
  | HWC_DISPLAY_WIDTH => width hw
  | HWC_DISPLAY_HEIGHT => height hw
  | HWC_DISPLAY_DPI_X | HWC_DISPLAY_DPI_Y => 212000
  | HWC_DISPLAY_ATTRIBUTE_OTHER _ => 0
  end.

(** The attributes up to [HWC_DISPLAY_NO_ATTRIBUTE], and the values stored. *)
Definition hwc_getDisplayAttributes (hw : eink_hwc_t) (disp : Z) (attributes : list hwc_attribute) : Z * list Z :=
  if negb (disp =? HWC_DISPLAY_PRIMARY) then (- Errno.EINVAL, [])
  else (0, attribute_value hw <$> attributes).

(** ** The vsync thread *)

(** Delivery of one vsync event. *)
Definition deliver_vsync (now_ns : Z) : HM () :=
  hw ← get_dev;
  match procs hw with
  | Some p =>
    if procs_vsync p then
      _ ← mod_dev (set_vsync_requested 0);
      _ ← emit [Ev_vsync now_ns];
      add_ulong g_vsync_events 1
    else mret ()
  | None => mret ()
  end.

(** The request to compose again while the screen is changing. *)
Definition nudge : HM () :=
  hw ← get_dev;
  change ← get g_last_change_us;
  last ← get g_last_set_us;
  match procs hw with
  | Some p =>
    if negb (truthy (blanked hw)) && procs_invalidate p && truthy change then
      nowu ← now_us;
      if (u32 (nowu - change) <? EINK_NUDGE_IDLE_US) && (EINK_NUDGE_QUIET_US <? u32 (nowu - last))
      then _ ← add_ulong g_nudges 1; emit [Ev_invalidate]
      else mret ()
    else mret ()
  | None => mret ()
  end.

(** One iteration of [vsync_thread_main], or none once it is stopped. *)
Definition vsync_tick : HM bool :=
  hw ← get_dev;
  if truthy (stop_vsync hw) then mret false else
  n ← (λ s, Some (clock_reads s, World (dev s) (glob s) (events s) (S (clock_reads s))));
  _ ← deliver_vsync (clock_ns n);
  _ ← nudge;
  mret true.

(** ** Interleavings *)

Inductive hwc_op :=
| Do_prepare (ds : list (option hwc_display_contents_1_t))
| Do_set (ds : list (option hwc_display_contents_1_t))
| Do_blank (disp blank : Z)
| Do_eventControl (event : hwc_event_type) (enabled : Z)
| Do_registerProcs (p : option hwc_procs_t)
| Do_tick.

Definition hwc_step (op : hwc_op) : HM () :=
  match op with
  | Do_prepare ds => _ ← hwc_prepare ds; mret ()
  | Do_set ds => _ ← hwc_set ds; mret ()
  | Do_blank d b => _ ← hwc_blank d b; mret ()
  | Do_eventControl e n => _ ← hwc_eventControl e n; mret ()
  | Do_registerProcs p => hwc_registerProcs p
  | Do_tick => _ ← vsync_tick; mret ()
  end.

End Frames.
