(* ===== verification/HwcSpec.v ===== *)
(** * Frames of the e-ink hwcomposer: specification and invariant

    The pixel values a list of layers produces, the regions [hwc_compose]
    computes, and the invariant that lets it update only part of the panel: outside the
    remembered rectangle the panel is white. *)
From S2P Require Import Prelude Pixel Compose ComposeSpec ComposeProps Hwc.

(** ** Regions *)

Definition region : Type := Z * Z * Z * Z.

Definition in_region (r : region) (x y : Z) : Prop :=
  let '(x0, y0, x1, y1) := r in x0 ≤ x < x1 ∧ y0 ≤ y < y1.

#[export] Instance in_region_dec r x y : Decision (in_region r x y).
Proof. destruct r as [[[??]?]?]. unfold in_region. apply _. Defined.

(** A non-empty rectangle of panel pixels. *)
Definition panel_region (hw : eink_hwc_t) (r : region) : Prop :=
  let '(x0, y0, x1, y1) := r in 0 ≤ x0 < x1 ∧ x1 ≤ width hw ∧ 0 ≤ y0 < y1 ∧ y1 ≤ height hw.

Definition acc_region (a : frame_acc) : region := (dx0 a, dy0 a, dx1 a, dy1 a).

Definition whole (hw : eink_hwc_t) : region := (0, 0, width hw, height hw).

Lemma clamp_region_spec hw a :
  hw_ok hw → panel_region hw (clamp_region hw a) ∧
  ∀ x y, on_panel hw x y → in_region (acc_region a) x y → in_region (clamp_region hw a) x y.
Proof.
  unfold hw_ok, clamp_region, on_panel, in_region, acc_region. intros (? & ? & _).
  destruct (dx0 a <? 0) eqn:?, (dy0 a <? 0) eqn:?, (width hw <? dx1 a) eqn:?, (height hw <? dy1 a) eqn:?;
    bcase E; simpl; split; intros; lia.
Qed.

Lemma join_region_spec hw p d :
  panel_region hw d →
  (panel_region hw p ∨ (p.1.2 ≤ p.1.1.1)) →
  panel_region hw (join_region p d) ∧
  (∀ x y, in_region d x y → in_region (join_region p d) x y) ∧
  (panel_region hw p → ∀ x y, in_region p x y → in_region (join_region p d) x y).
Proof.
  destruct p as [[[p0 q0] p1] q1], d as [[[x0 y0] x1] y1]. unfold join_region, panel_region, in_region.
  simpl. intros Hd Hp. bcase E.
  - destruct (p0 <? x0) eqn:?, (q0 <? y0) eqn:?, (x1 <? p1) eqn:?, (y1 <? q1) eqn:?; split_and!; lia.
  - split_and!; lia.
Qed.

(** ** The update region *)

(** The driver's constraints: left edge and width on eight-pixel boundaries
    (the width up to the edge of the panel), inside the panel, covering what was asked
    for. *)
Lemma update_region_spec hw r :
  panel_region hw r →
  let '(x0, y0, x1, y1) := r in
  ∃ l w, update_region (width hw) x0 y0 (x1 - x0) (y1 - y0) = Some (l, y0, w, y1 - y0) ∧
    l mod 8 = 0 ∧ (w mod 8 = 0 ∨ l + w = width hw) ∧
    0 ≤ l ≤ x0 ∧ x1 ≤ l + w ≤ width hw.
Proof.
  destruct r as [[[x0 y0] x1] y1]. unfold panel_region, update_region. intros (? & ? & ? & ?).
  bcase E; [lia|]. change 7 with (2 ^ 3 - 1). rewrite !land_lnot_mask by lia. change (2 ^ 3) with 8.
  replace (x0 + (x1 - x0)) with x1 by lia.
  set (l := x0 - x0 mod 8). assert (l mod 8 = 0 ∧ 0 ≤ l ≤ x0) as [? ?] by (unfold l; divmod).
  set (w := x1 - l + (8 - 1) - (x1 - l + (8 - 1)) mod 8).
  assert (w mod 8 = 0 ∧ x1 ≤ l + w) as [? ?] by (unfold w; divmod).
  destruct (width hw <? l + w) eqn:E1.
  - bcase E2; [lia|]. exists l, (width hw - l). split; [done|]. lia.
  - bcase E2; [lia|]. exists l, w. split; [done|]. lia.
Qed.

(** ** The rows that differ *)

(** The rows of the region before [y] have been brought up to date. *)
Definition rows_copied (hw : eink_hwc_t) (r : region) (old seen : list Z) (y : Z) : Prop :=
  frame_ok hw seen ∧
  ∀ x' y', on_panel hw x' y' →
    px (stride_bytes hw) seen x' y' =
    if bool_decide (in_region r x' y') && (y' <? y) then px (stride_bytes hw) (shadow hw) x' y'
    else px (stride_bytes hw) old x' y'.

(** Equal bytes of a row are equal pixels. *)
Lemma row_eq_px st m1 m2 x0 x1 y :
  Forall is_byte m1 → Forall is_byte m2 →
  (seg (mget m1) (y * st + x0 * 2) ((x1 - x0) * 2) = seg (mget m2) (y * st + x0 * 2) ((x1 - x0) * 2) ↔
   ∀ x, x0 ≤ x < x1 → px st m1 x y = px st m2 x y).
Proof.
  intros H1 H2. split.
  - intros Hs x Hx. rewrite !px_eq.
    assert (∀ k, 0 ≤ k < (x1 - x0) * 2 → mget m1 (y * st + x0 * 2 + k) = mget m2 (y * st + x0 * 2 + k)) as Hk.
    { intros k Hk. apply (f_equal (λ l, mget l k)) in Hs. by rewrite !mget_seg in Hs by done. }
    pose proof (Hk ((x - x0) * 2)) as Ha. pose proof (Hk ((x - x0) * 2 + 1)) as Hb.
    replace (y * st + x0 * 2 + (x - x0) * 2) with (y * st + x * 2) in Ha by lia.
    replace (y * st + x0 * 2 + ((x - x0) * 2 + 1)) with (y * st + x * 2 + 1) in Hb by lia.
    rewrite Ha, Hb by lia. done.
  - intros Hp. apply seg_ext. intros i Hi. specialize (Hp (x0 + i / 2)). rewrite !px_eq in Hp.
    pose proof (mget_byte m1 (y * st + (x0 + i / 2) * 2) H1).
    pose proof (mget_byte m2 (y * st + (x0 + i / 2) * 2) H2). unfold is_byte in *.
    assert (i = i / 2 * 2 ∨ i = i / 2 * 2 + 1) as [Hi2|Hi2] by divmod.
    + replace (y * st + x0 * 2 + i) with (y * st + (x0 + i / 2) * 2) by lia. divmod.
    + replace (y * st + x0 * 2 + i) with (y * st + (x0 + i / 2) * 2 + 1) by lia. divmod.
Qed.

(** Writing the pixels of one row. *)
Lemma row_write_px hw m bs x0 x1 y :
  hw_ok hw → frame_ok hw m → frame_ok hw bs → 0 ≤ x0 ≤ x1 → x1 ≤ width hw → 0 ≤ y < height hw →
  ∃ m', mem_write m (y * stride_bytes hw + x0 * 2)
          (seg (mget bs) (y * stride_bytes hw + x0 * 2) ((x1 - x0) * 2)) = Some m' ∧ frame_ok hw m' ∧
    ∀ x' y', on_panel hw x' y' →
      px (stride_bytes hw) m' x' y' =
      if (y' =? y) && (x0 <=? x') && (x' <? x1) then px (stride_bytes hw) bs x' y'
      else px (stride_bytes hw) m x' y'.
Proof.
  intros Hhw [Hl Hm] [Hl2 Hbs] Hx Hx1 Hy. pose proof Hhw as (Hw & Hh & Hst & Hsz & _).
  pose proof (row_in_bounds y (height hw) (stride_bytes hw) (x0 * 2) ((x1 - x0) * 2)).
  set (o := y * stride_bytes hw + x0 * 2) in *. set (s := seg _ _ _).
  assert (zlen s = (x1 - x0) * 2) as Hs by (apply zlen_seg; lia).
  destruct (mem_write_Some m o s) as [m' Hm']; [lia|nia|].
  exists m'. split; [done|]. split.
  { split; [by apply mem_write_inv in Hm' as (_ & _ & -> & _)|].
    apply (Forall_byte_write m _ _ _ Hm) in Hm'; [done|]. by apply Forall_byte_seg. }
  intros x' y' Hxy'. apply mem_write_inv in Hm' as (_ & _ & _ & Hg).
  pose proof (on_panel_off _ _ _ Hhw Hxy') as [Ho1' _]. destruct Hxy' as [Hx' Hy'].
  rewrite !px_eq, !Hg, Hs by lia.
  destruct ((y' =? y) && (x0 <=? x') && (x' <? x1)) eqn:E.
  - assert (y' = y) as -> by lia. bcase E1; [|lia]. bcase E2; [|lia].
    unfold s. rewrite !mget_seg by lia. f_equal; [f_equal; lia|]. do 2 f_equal. lia.
  - assert (y' ≠ y ∨ x' < x0 ∨ x1 ≤ x') as Hout by lia.
    assert (y' * stride_bytes hw + x' * 2 + 2 ≤ o ∨ o + (x1 - x0) * 2 ≤ y' * stride_bytes hw + x' * 2).
    { unfold o. destruct (Z.lt_trichotomy y y') as [|[->|]]; [nia|lia|nia]. }
    bcase E1; [lia|]. bcase E2; [lia|done].
Qed.

Lemma diff_rows_spec hw old x0 y0 x1 y1 :
  hw_ok hw → frame_ok hw (shadow hw) → panel_region hw (x0, y0, x1, y1) →
  let r := (x0, y0, x1, y1) in
  let differs := λ y, ∃ x' y', in_region r x' y' ∧ y' < y ∧
    px (stride_bytes hw) old x' y' ≠ px (stride_bytes hw) (shadow hw) x' y' in
  ∀ n y seen c, y0 ≤ y → y + Z.of_nat n = y1 → rows_copied hw r old seen y →
    (if c : bool then differs y else seen = old ∧ ¬ differs y) →
  ∃ seen' c', diff_rows hw x0 x1 n y seen seen c = Some (seen', seen', c') ∧
    rows_copied hw r old seen' y1 ∧ (if c' : bool then differs y1 else seen' = old ∧ ¬ differs y1).
Proof.
  intros Hhw Hsh Hr r differs. pose proof Hr as (? & ? & ? & ?).
  pose proof Hhw as (Hw & Hh & Hst & Hsz & _). pose proof Hsh as [Hsl Hsb].
  induction n as [|n IH]; intros y seen c Hy Hn Hc Hd.
  { exists seen, c. replace y1 with y by lia. done. }
  cbn [diff_rows]. pose proof Hc as [Hf Hpx]. pose proof Hf as [Hfl Hfb].
  pose proof (row_in_bounds y (height hw) (stride_bytes hw) (x0 * 2) ((x1 - x0) * 2)).
  rewrite (mem_read_Some (shadow hw)), (mem_read_Some seen) by nia. cbn [mbind option_bind].
  assert (∀ x', x0 ≤ x' < x1 → px (stride_bytes hw) seen x' y = px (stride_bytes hw) old x' y) as Hrow.
  { intros x' Hx'. rewrite Hpx by (unfold on_panel; lia).
    destruct (y <? y) eqn:E; [lia|]. by rewrite andb_false_r. }
  destruct (decide _) as [Heq|Hne].
  - rewrite row_eq_px in Heq by done. apply IH; [lia|lia| |].
    + split; [done|]. intros x' y' Hxy'. rewrite Hpx by done.
      destruct (bool_decide_reflect (in_region r x' y')) as [[Hx' Hy']|]; simpl; [|done].
      destruct (Z.ltb_spec y' y), (Z.ltb_spec y' (y + 1)); try lia.
      assert (y' = y) as -> by lia. by rewrite <- Hrow, Heq.
    + assert (differs (y + 1) ↔ differs y) as Hiff.
      { split; intros (x' & y' & Hin & Hlt & Hdf); exists x', y'; (split_and!; [done| |done]); [|lia].
        destruct (decide (y' = y)) as [->|]; [|lia]. destruct Hin as [Hx' _].
        by rewrite <- Hrow, Heq in Hdf. }
      destruct c; [by apply Hiff|]. by rewrite Hiff.
  - destruct (row_write_px hw seen (shadow hw) x0 x1 y) as (seen1 & -> & Hf1 & Hpx1); [done..|lia|lia|lia|].
    cbn [mbind option_bind]. apply IH; [lia|lia| |].
    + split; [done|]. intros x' y' Hxy'. rewrite Hpx1, Hpx by done.
      destruct (bool_decide_reflect (in_region r x' y')) as [[Hx' Hy']|Hout]; simpl.
      * destruct (Z.ltb_spec y' y), (Z.ltb_spec y' (y + 1)), (Z.eqb_spec y' y); simpl; try lia; try done.
        bcase E; [done|lia].
      * bcase E; [|done]. destruct Hout. unfold r, in_region. lia.
    + assert (¬ ∀ x, x0 ≤ x < x1 → px (stride_bytes hw) seen x y = px (stride_bytes hw) (shadow hw) x y) as Hex.
      { by rewrite <- row_eq_px. }
      assert (∃ x, x ∈ seqZ x0 (x1 - x0) ∧
        px (stride_bytes hw) seen x y ≠ px (stride_bytes hw) (shadow hw) x y) as (x & Hx%elem_of_seqZ & Hdf).
      { destruct (decide (Forall (λ x, px (stride_bytes hw) seen x y = px (stride_bytes hw) (shadow hw) x y)
                           (seqZ x0 (x1 - x0)))) as [Hall|Hall].
        - destruct Hex. intros x Hx. rewrite Forall_forall in Hall. apply Hall, elem_of_seqZ. lia.
        - apply not_Forall_Exists in Hall; [|apply _]. by apply Exists_exists in Hall. }
      exists x, y. split_and!; [unfold r, in_region; lia|lia|]. rewrite <- Hrow by lia. done.
Qed.

(** ** The pixels of a frame *)

Section Frame.
Context `{GrallocIf} `{HwcEnv} `{!GrallocLaws}.

(** The grey a background layer fills the shadow with, as a pixel. *)
Definition background_px (l : hwc_layer_1_t) : Z :=
  let '(r, g, b) := backgroundColor l in 257 * u8 ((r + g + b) / 3).

(** What one layer of the list makes of the pixel [d] at [x], [y]. *)
Definition layer_effect (hw : eink_hwc_t) (x y : Z) (d : Z) (l : hwc_layer_1_t) : Z :=
  match compositionType l with
  | HWC_FRAMEBUFFER_TARGET => d
  | HWC_BACKGROUND => background_px l
  | _ => match drawable hw l with Some b => layer_px b x y d | None => d end
  end.

(** The pixel a frame shows: the layers in order, on white. *)
Definition frame_px (hw : eink_hwc_t) (ls : list hwc_layer_1_t) (x y : Z) : Z :=
  foldl (layer_effect hw x y) 0xffff ls.

(** The layer contributes to the frame. *)
Definition paints (hw : eink_hwc_t) (l : hwc_layer_1_t) : bool :=
  match compositionType l with
  | HWC_FRAMEBUFFER_TARGET => false
  | HWC_BACKGROUND => true
  | _ => match drawable hw l with Some _ => true | None => false end
  end.

(** The crop has the size of the display frame: swapped for a quarter turn. *)
Definition unscaled (l : hwc_layer_1_t) : Prop :=
  let c := sourceCropi l in
  let d := displayFrame l in
  let cw := rect_right c - rect_left c in
  let ch := rect_bottom c - rect_top c in
  match transform l with
  | HWC_TRANSFORM_ROT_90 | HWC_TRANSFORM_ROT_270 =>
    rect_right d = rect_left d + ch ∧ rect_bottom d = rect_top d + cw
  | _ => rect_right d = rect_left d + cw ∧ rect_bottom d = rect_top d + ch
  end.

Definition in_frame (l : hwc_layer_1_t) (x y : Z) : Prop :=
  let d := displayFrame l in in_region (rect_left d, rect_top d, rect_right d, rect_bottom d) x y.

(** The layers a frame can be composed of without fault, each drawn at the
    size of its frame: not the row copy of negative length, and no coordinate near the limits of [int]. *)
Definition layer_fine (hw : eink_hwc_t) (l : hwc_layer_1_t) : Prop :=
  compositionType l = HWC_FRAMEBUFFER_TARGET ∨ compositionType l = HWC_BACKGROUND ∨
  (¬ negative_layer hw l ∧ unscaled l ∧ layer_small l).

Lemma drawable_blit hw l b :
  drawable hw l = Some b → ∃ sw sh st f src, b = layer_blit l sw sh st f src.
Proof.
  unfold drawable. bcase E1; [done|]. destruct (query_fn _) as [[[[sw sh] st] f]|] eqn:Eq; simpl; [|done].
  bcase E2; [done|]. destruct (lock _ _ _ _ _) as [[] [src|]] eqn:El; try done.
  bcase E3; [done|]. intros [= <-]. eauto 10.
Qed.

(** An unscaled layer draws inside its display frame only. *)
Lemma layer_px_outside hw l b x y d :
  drawable hw l = Some b → unscaled l → ¬ in_frame l x y → layer_px b x y d = d.
Proof.
  intros (sw & sh & st & f & src & ->)%drawable_blit Hu Hout. unfold layer_px.
  bcase E; [|done]. exfalso. apply Hout.
  unfold in_crop, crop_pos, layer_blit, unscaled, in_frame, in_region in *. simpl in *.
  destruct (transform l); simpl in *; lia.
Qed.

(** The frame is well-formed while its layers are drawn, and pixels outside the
    accumulated rectangle keep their value. *)
Definition acc_ok (hw : eink_hwc_t) (m0 m : list Z) (a0 a : frame_acc) : Prop :=
  ∀ x y, on_panel hw x y → ¬ in_region (acc_region a) x y →
    ¬ in_region (acc_region a0) x y ∧ px (stride_bytes hw) m x y = px (stride_bytes hw) m0 x y.

(** Gralloc calls, as opposed to updates of the panel. *)
Definition gralloc_event (e : hwc_event) : Prop :=
  match e with Ev_lock _ | Ev_unlock _ => True | _ => False end.

Lemma drawable_shadow hw m l : drawable (set_shadow m hw) l = drawable hw l.
Proof. done. Qed.

Lemma replicate_frame hw v :
  hw_ok hw → is_byte v →
  frame_ok hw (replicate (Z.to_nat (fb_size hw)) v) ∧
  ∀ x y, on_panel hw x y → px (stride_bytes hw) (replicate (Z.to_nat (fb_size hw)) v) x y = 257 * v.
Proof.
  intros Hhw Hv. assert (0 ≤ fb_size hw) by (destruct Hhw as (? & ? & ? & -> & _); nia). split.
  - split; [rewrite length_replicate; lia|]. by apply Forall_replicate.
  - intros x y Hxy. pose proof (on_panel_off _ _ _ Hhw Hxy). rewrite px_eq, !mget_replicate by lia. lia.
Qed.

Lemma u8_byte z : is_byte (u8 z).
Proof. apply (wrap_range 8). lia. Qed.

(** Drawing does not change what the frame geometry depends on. *)
Lemma set_shadow_shadow m m' hw : set_shadow m (set_shadow m' hw) = set_shadow m hw.
Proof. done. Qed.

(** One layer of the loop: the state it leaves. *)
Lemma compose_one_spec a l w :
  let hw := dev w in
  hw_ok hw → frame_ok hw (shadow hw) → layer_fine hw l →
  ∃ a' m evs, compose_one a l w =
      Some (a', World (set_shadow m hw) (glob w) (events w ++ evs) (clock_reads w)) ∧
    frame_ok hw m ∧ Forall gralloc_event evs ∧ dirty a' = dirty a || paints hw l ∧
    (∀ x y, on_panel hw x y →
      px (stride_bytes hw) m x y = layer_effect hw x y (px (stride_bytes hw) (shadow hw) x y) l) ∧
    acc_ok hw (shadow hw) m a a'.
Proof.
  intros hw Hhw Hf Hl. unfold compose_one, layer_effect, paints. cbv [mbind HM_bind get_dev]. fold hw.
  assert (∀ a : frame_acc, acc_ok hw (shadow hw) (shadow hw) a a) as Hrefl by (intros ? ? ? _; done).
  destruct (decide (compositionType l = HWC_FRAMEBUFFER_TARGET)) as [->|Ht].
  { exists a, (shadow hw), []. rewrite app_nil_r, orb_false_r.
    split_and!; done || by destruct w as [[]]. }
  destruct (decide (compositionType l = HWC_BACKGROUND)) as [->|Hbg].
  { unfold mod_dev, mret, HM_ret, compose_background, background_px.
    destruct (backgroundColor l) as [[r g] b].
    destruct (replicate_frame hw (u8 ((r + g + b) / 3)) Hhw (u8_byte _)) as [Hfr Hpx].
    eexists _, _, []. rewrite app_nil_r, orb_true_r. by split_and!. }
  destruct Hl as [|[|(Hn & Hu & Hs)]]; [done..|].
  pose proof (compose_layer_cases hw l Hs) as Hc. unfold hlift.
  assert (compositionType l ≠ HWC_FRAMEBUFFER_TARGET ∧ compositionType l ≠ HWC_BACKGROUND) as [? ?] by done.
  destruct (drawable hw l) as [b|] eqn:Hd.
  - destruct (compose_layer_drawn hw l b Hhw Hf Hs Hd Hn) as (m & Hm & Hfr & Hpx). rewrite Hm.
    exists (grow a (displayFrame l)), m, [Ev_lock (layer_handle l); Ev_unlock (layer_handle l)].
    split_and!; [by destruct (compositionType l)|done|by repeat constructor|
                 rewrite orb_comm; by destruct (compositionType l)| |].
    + intros x y Hxy. rewrite Hpx by done. by destruct (compositionType l).
    + intros x y Hxy Hout. rewrite Hpx, (layer_px_outside hw l) by
        (done || (revert Hout; unfold in_frame, in_region, acc_region, grow; simpl;
         repeat (let E := fresh in bcase E); lia)).
      split; [|done]. revert Hout. unfold in_region, acc_region, grow. simpl.
      repeat (let E := fresh in bcase E); lia.
  - destruct Hc as [evs Hc]. rewrite Hc.
    eexists _, (shadow hw), evs. split; [|split_and!].
    + destruct w as [[]]. by destruct (compositionType l).
    + done.
    + apply compose_layer_events in Hc as [->|(h & [[-> _]| ->])]; by repeat constructor.
    + rewrite orb_comm. by destruct (compositionType l).
    + intros x y Hxy. by destruct (compositionType l).
    + intros x y Hxy Hout. done.
Qed.

Lemma compose_layers_spec ls : ∀ a w,
  let hw := dev w in
  hw_ok hw → frame_ok hw (shadow hw) → Forall (layer_fine hw) ls →
  ∃ a' m evs, compose_layers a ls w =
      Some (a', World (set_shadow m hw) (glob w) (events w ++ evs) (clock_reads w)) ∧
    frame_ok hw m ∧ Forall gralloc_event evs ∧ dirty a' = dirty a || existsb (paints hw) ls ∧
    (∀ x y, on_panel hw x y →
      px (stride_bytes hw) m x y = foldl (layer_effect hw x y) (px (stride_bytes hw) (shadow hw) x y) ls) ∧
    acc_ok hw (shadow hw) m a a'.
Proof.
  induction ls as [|l ls IH]; intros a w hw Hhw Hf Hls.
  - exists a, (shadow hw), []. rewrite app_nil_r, orb_false_r.
    split_and!; [by destruct w as [[]]|done|done|done|done|]. intros ? ? ? ?. done.
  - apply Forall_cons in Hls as [Hl Hls].
    destruct (compose_one_spec a l w Hhw Hf Hl) as (a1 & m1 & ev1 & Hc1 & Hf1 & He1 & Hd1 & Hp1 & Ha1).
    cbn [compose_layers]. unfold mbind at 1, HM_bind at 1. rewrite Hc1.
    set (w1 := World _ _ _ _).
    destruct (IH a1 w1) as (a2 & m2 & ev2 & Hc2 & Hf2 & He2 & Hd2 & Hp2 & Ha2); [done|done|done|].
    exists a2, m2, (ev1 ++ ev2). split_and!.
    + rewrite Hc2. simpl. by rewrite app_assoc.
    + done.
    + by apply Forall_app.
    + rewrite Hd2, Hd1. simpl. by rewrite orb_assoc.
    + intros x y Hxy. etransitivity; [exact (Hp2 x y Hxy)|].
      exact (f_equal (λ z, foldl (layer_effect hw x y) z ls) (Hp1 x y Hxy)).
    + intros x y Hxy Hout. destruct (Ha2 x y Hxy Hout) as [Hout1 Heq2].
      destruct (Ha1 x y Hxy Hout1) as [Hout0 Heq1]. split; [done|].
      by etransitivity; [exact Heq2|].
Qed.

End Frame.
