(* ===== verification/HwcInv.v ===== *)
(** * Frames of the e-ink hwcomposer: presenting a frame

    The state [hwc_compose] leaves on every path: what is on the panel, what
    update was sent and which rectangle is remembered. *)
From S2P Require Import Prelude Pixel Compose ComposeSpec ComposeProps Hwc HwcSpec.

(** The rectangle remembered in the static variables. *)
Definition region_of (g : statics) : region := (g px0, g py0, g px1, g py1).

(** The panel copy agrees with the framebuffer, and outside the remembered
    rectangle the panel is white (or nothing has been shown yet). *)
Record screen_inv (w : world) : Prop := {
  inv_hw : hw_ok (dev w);
  inv_shadow : frame_ok (dev w) (shadow (dev w));
  inv_panel : frame_ok (dev w) (panel (dev w));
  inv_fb : panel (dev w) = fb_mem (dev w);
  inv_region :
    (glob w updates = 0 ∧ glob w px1 ≤ glob w px0) ∨
    (panel_region (dev w) (region_of (glob w)) ∧
     ∀ x y, on_panel (dev w) x y → ¬ in_region (region_of (glob w)) x y →
       px (stride_bytes (dev w)) (panel (dev w)) x y = 0xffff) }.

(** The next update is a full one. *)
Definition next_full (w : world) : bool :=
  divides EINK_FULL_UPDATE_EVERY (glob w updates) || truthy (force_full (dev w)).

(** The rectangle remembered after a frame with accumulator [a], and the part of
    the panel that is compared and updated. *)
Definition joined (w : world) (a : frame_acc) : region :=
  join_region (region_of (glob w)) (clamp_region (dev w) a).

Definition refreshed (w : world) (a : frame_acc) : region :=
  if next_full w then whole (dev w) else joined w a.

Section Present.
Context `{GrallocIf} `{HwcEnv}.

(** ** Statistics

    The static variables the composer's decisions depend on; the others are
    statistics and logging state. *)
Definition control_vars : list var := [px0; py0; px1; py1; updates; g_fence_src].

(** Only statistics, logging state and the clock differ. *)
Definition quiet (w w' : world) : Prop :=
  dev w' = dev w ∧ events w' = events w ∧ ∀ v, v ∈ control_vars → glob w' v = glob w v.

Definition quietM {A} (m : HM A) : Prop := ∀ w, ∃ x w', m w = Some (x, w') ∧ quiet w w'.

Lemma quiet_refl w : quiet w w.
Proof. done. Qed.

Lemma quiet_trans w1 w2 w3 : quiet w1 w2 → quiet w2 w3 → quiet w1 w3.
Proof.
  intros (D1 & E1 & G1) (D2 & E2 & G2). split_and!; [congruence..|].
  intros v Hv. by rewrite G2, G1.
Qed.

Lemma control_region (g g' : statics) :
  (∀ v, v ∈ control_vars → g' v = g v) → region_of g' = region_of g.
Proof. intros G. unfold region_of. by rewrite !G by (unfold control_vars; set_solver). Qed.

Lemma quiet_region w w' : quiet w w' → region_of (glob w') = region_of (glob w).
Proof. intros (_ & _ & G). by apply control_region. Qed.

Lemma quiet_updates w w' : quiet w w' → glob w' updates = glob w updates.
Proof. intros (_ & _ & G). apply G. unfold control_vars. set_solver. Qed.

Lemma quiet_fence w w' : quiet w w' → glob w' g_fence_src = glob w g_fence_src.
Proof. intros (_ & _ & G). apply G. unfold control_vars. set_solver. Qed.

Lemma bind_run {A B} (m : HM A) (k : A → HM B) w x w' : m w = Some (x, w') → (m ≫= k) w = k x w'.
Proof. intros Hm. unfold mbind, HM_bind. by rewrite Hm. Qed.

Lemma quietM_bind {A B} (m : HM A) (k : A → HM B) :
  quietM m → (∀ x, quietM (k x)) → quietM (m ≫= k).
Proof.
  intros Hm Hk w. destruct (Hm w) as (x & w1 & E1 & Q1). destruct (Hk x w1) as (y & w2 & E2 & Q2).
  exists y, w2. rewrite (bind_run _ _ _ _ _ E1). eauto using quiet_trans.
Qed.

Lemma quietM_ret {A} (x : A) : quietM (mret x).
Proof. intros w. exists x, w. done. Qed.

Lemma quietM_get v : quietM (get v).
Proof. intros w. exists (glob w v), w. done. Qed.

Lemma quietM_get_dev : quietM get_dev.
Proof. intros w. exists (dev w), w. done. Qed.

Lemma quietM_now : quietM now_us.
Proof. intros w. eexists _, _. split; [done|]. done. Qed.

Lemma set_var_eq v x g : set_var v x g v = x.
Proof. unfold set_var. by rewrite decide_True. Qed.

Lemma set_var_ne v w x g : w ≠ v → set_var v x g w = g w.
Proof. intros. unfold set_var. by rewrite decide_False. Qed.

Lemma quietM_put v x : bool_decide (v ∉ control_vars) = true → quietM (put v x).
Proof.
  intros Hv%bool_decide_eq_true w. eexists (), _. split; [done|]. split_and!; [done..|].
  intros u Hu. simpl. apply set_var_ne. congruence.
Qed.

Lemma quietM_if {A} (b : bool) (m1 m2 : HM A) : quietM m1 → quietM m2 → quietM (if b then m1 else m2).
Proof. by destruct b. Qed.

Lemma quietM_add v x : bool_decide (v ∉ control_vars) = true → quietM (add_ulong v x).
Proof. intros Hv. apply quietM_bind; [apply quietM_get|]. intros y. by apply quietM_put. Qed.

Lemma quietM_incr v : bool_decide (v ∉ control_vars) = true → quietM (incr_int v).
Proof. intros Hv. apply quietM_bind; [apply quietM_get|]. intros y. by apply quietM_put. Qed.

Create HintDb quiet.
#[local] Hint Resolve quietM_ret quietM_get quietM_get_dev quietM_now quietM_if : quiet.
#[local] Hint Extern 1 (quietM (put _ _)) => by apply quietM_put : quiet.
#[local] Hint Extern 1 (quietM (add_ulong _ _)) => by apply quietM_add : quiet.
#[local] Hint Extern 1 (quietM (incr_int _)) => by apply quietM_incr : quiet.
#[local] Hint Extern 2 (quietM (_ ≫= _)) => apply quietM_bind; [|intros ?] : quiet.

(** Runs the first computation of a sequence, a quiet one. *)
#[local] Tactic Notation "qstep" ident(x) ident(w') ident(Q) :=
  let E := fresh "E" in
  match goal with
  | |- context [(?m ≫= _) ?w] =>
    destruct ((ltac:(solve [eauto 20 with quiet]) : quietM m) w) as (x & w' & E & Q);
    rewrite (bind_run m _ _ _ _ E); clear E
  end.

Lemma heartbeat_quiet : quietM heartbeat.
Proof. unfold heartbeat. eauto 20 with quiet. Qed.

(** Runs [get_dev] or [get]. *)
#[local] Ltac gstep := erewrite bind_run by reflexivity; cbv beta.

Lemma frame_region_run a w :
  ∃ w', frame_region a w = Some ((refreshed w a, next_full w), w') ∧
    dev w' = set_force_full 0 (dev w) ∧ events w' = events w ∧
    region_of (glob w') = joined w a ∧
    glob w' updates = glob w updates ∧ glob w' g_fence_src = glob w g_fence_src.
Proof.
  unfold frame_region. do 5 gstep.
  change (join_region _ _) with (joined w a). unfold refreshed.
  destruct (joined w a) as [[[x0 y0] x1] y1]. do 6 gstep.
  eexists. split.
  { unfold next_full, mret, HM_ret. cbn [glob]. rewrite !set_var_ne by done. by destruct (_ || _). }
  cbn [glob dev events]. split_and!; [done|done| |by rewrite !set_var_ne by done..].
  unfold region_of. by repeat (rewrite set_var_eq || rewrite set_var_ne by done).
Qed.

Lemma finish_frame_run t x0 y0 x1 y1 full changed w :
  panel_region (dev w) (x0, y0, x1, y1) →
  ∃ w', finish_frame t x0 y0 x1 y1 full changed w = Some ((), w') ∧
    dev w' = dev w ∧ region_of (glob w') = region_of (glob w) ∧
    glob w' g_fence_src = glob w g_fence_src ∧
    if changed : bool then
      glob w' updates = s32 (glob w updates + 1) ∧
      ∃ l wd, events w' = events w ++ [Ev_update (fb_fd (dev w)) l y0 wd (y1 - y0) full] ∧
        l mod 8 = 0 ∧ (wd mod 8 = 0 ∨ l + wd = width (dev w)) ∧ 0 ≤ l ≤ x0 ∧ x1 ≤ l + wd ≤ width (dev w)
    else events w' = events w ∧ glob w' updates = glob w updates.
Proof.
  intros (l & wd & Hu & Hrest)%update_region_spec. unfold finish_frame. gstep.
  qstep r1 w1 Q1. qstep t2 w2 Q2. qstep r3 w3 Q3. qstep t4 w4 Q4. qstep r5 w5 Q5.
  assert (quiet w w5) as Q by eauto 10 using quiet_trans. clear Q1 Q2 Q3 Q4.
  destruct changed; cycle 1.
  { destruct (quietM_add g_frames_identical 1 eq_refl w5) as ([] & w6 & E & Q6).
    exists w6. split; [done|]. apply (quiet_trans _ _ _ Q) in Q6.
    split_and!; [apply Q6|by apply quiet_region|by apply quiet_fence|apply Q6|by apply quiet_updates]. }
  qstep t6 w6 Q6. qstep r7 w7 Q7.
  assert (quiet w w7) as Q8 by eauto 10 using quiet_trans. clear Q Q5 Q6 Q7.
  set (w8 := World (dev w7) (set_var updates (s32 (glob w7 updates + 1)) (glob w7)) (events w7) (clock_reads w7)).
  rewrite (bind_run _ _ w7 () w8) by reflexivity. qstep r9 w9 Q9.
  unfold eink_send_update. rewrite Hu.
  set (ev := Ev_update _ _ _ _ _ _).
  set (w10 := World (dev w9) (glob w9) (events w9 ++ [ev]) (clock_reads w9)).
  rewrite (bind_run (emit [ev]) _ w9 () w10) by reflexivity. qstep t11 w11 Q11.
  destruct (quietM_add g_update_us (t11 - t6) eq_refl w11) as ([] & w12 & -> & Q12).
  exists w12. split; [done|]. apply (quiet_trans _ _ _ Q11) in Q12.
  assert (region_of (glob w10) = region_of (glob w)) as HR.
  { etransitivity; [exact (quiet_region _ _ Q9)|]. rewrite <- (quiet_region _ _ Q8).
    unfold region_of, w8. cbn [glob]. by rewrite !set_var_ne by done. }
  assert (glob w10 g_fence_src = glob w g_fence_src) as HF.
  { etransitivity; [exact (quiet_fence _ _ Q9)|]. rewrite <- (quiet_fence _ _ Q8). by apply set_var_ne. }
  assert (glob w10 updates = s32 (glob w updates + 1)) as HU.
  { etransitivity; [exact (quiet_updates _ _ Q9)|]. rewrite <- (quiet_updates _ _ Q8). apply set_var_eq. }
  destruct Q8 as (D8 & E8 & _), Q9 as (D9 & E9 & _).
  split_and!.
  - destruct Q12 as (-> & _). simpl. by rewrite D9.
  - by rewrite (quiet_region _ _ Q12).
  - by rewrite (quiet_fence _ _ Q12).
  - by rewrite (quiet_updates _ _ Q12).
  - exists l, wd. split; [|exact Hrest]. destruct Q12 as (_ & -> & _). simpl. by rewrite E9, <- E8.
Qed.

Lemma refreshed_ok w a : screen_inv w → panel_region (dev w) (joined w a) ∧ panel_region (dev w) (refreshed w a).
Proof.
  intros Hi. pose proof (inv_hw _ Hi) as Hhw. destruct (clamp_region_spec (dev w) a Hhw) as [Hc _].
  assert (panel_region (dev w) (joined w a)) as Hj.
  { apply join_region_spec; [done|]. destruct (inv_region _ Hi) as [[_ ?]|[? _]]; [by right|by left]. }
  split; [done|]. unfold refreshed. destruct (next_full w); [|done].
  destruct Hhw as (? & ? & _). unfold whole, panel_region. lia.
Qed.

(** Nothing outside the refreshed region differs between panel and shadow. *)
Lemma outside_refreshed w a x y :
  screen_inv w →
  (∀ x y, on_panel (dev w) x y → ¬ in_region (acc_region a) x y →
     px (stride_bytes (dev w)) (shadow (dev w)) x y = 0xffff) →
  on_panel (dev w) x y →
  (¬ in_region (joined w a) x y → px (stride_bytes (dev w)) (shadow (dev w)) x y = 0xffff) ∧
  (¬ in_region (refreshed w a) x y →
     px (stride_bytes (dev w)) (panel (dev w)) x y = px (stride_bytes (dev w)) (shadow (dev w)) x y).
Proof.
  intros Hi Hw Hxy. pose proof (inv_hw _ Hi) as Hhw.
  destruct (clamp_region_spec (dev w) a Hhw) as [Hc Hcin].
  assert (panel_region (dev w) (region_of (glob w)) ∨ glob w px1 ≤ glob w px0) as Hp.
  { destruct (inv_region _ Hi) as [[_ ?]|[? _]]; auto. }
  destruct (join_region_spec (dev w) (region_of (glob w)) (clamp_region (dev w) a) Hc Hp) as (_ & Hd & Hpin).
  assert (¬ in_region (joined w a) x y → px (stride_bytes (dev w)) (shadow (dev w)) x y = 0xffff) as Hsw.
  { intros Hout. apply Hw; [done|]. intros Hin. by apply Hout, Hd, Hcin. }
  split; [done|]. intros Hout. unfold refreshed, next_full in Hout.
  destruct (inv_region _ Hi) as [[Hu _]|[Hr Hwhite]].
  { rewrite Hu in Hout. destruct Hout. exact Hxy. }
  destruct (_ || _); [destruct Hout; exact Hxy|].
  rewrite Hsw by done. apply Hwhite; [done|]. intros Hin. by apply Hout, Hpin.
Qed.

(** The copy of the differing rows brings the panel up to date. *)
Lemma diff_rows_present w a :
  screen_inv w →
  (∀ x y, on_panel (dev w) x y → ¬ in_region (acc_region a) x y →
     px (stride_bytes (dev w)) (shadow (dev w)) x y = 0xffff) →
  let hw := dev w in
  let '(x0, y0, x1, y1) := refreshed w a in
  ∃ p c, diff_rows hw x0 x1 (Z.to_nat (y1 - y0)) y0 (panel hw) (fb_mem hw) false = Some (p, p, c) ∧
    frame_ok hw p ∧
    (∀ x y, on_panel hw x y → px (stride_bytes hw) p x y = px (stride_bytes hw) (shadow hw) x y) ∧
    (if c : bool then
       ∃ x y, on_panel hw x y ∧ px (stride_bytes hw) (panel hw) x y ≠ px (stride_bytes hw) p x y
     else p = panel hw).
Proof.
  intros Hi Hw hw. destruct (refreshed_ok w a Hi) as [_ Hr].
  pose proof (λ x y, outside_refreshed w a x y Hi Hw) as Hout.
  destruct (refreshed w a) as [[[x0 y0] x1] y1] eqn:Er.
  destruct (diff_rows_spec hw (panel hw) x0 y0 x1 y1 (inv_hw _ Hi) (inv_shadow _ Hi) Hr)
    with (n := Z.to_nat (y1 - y0)) (y := y0) (seen := panel hw) (c := false)
    as (p & c & Hd & [Hf Hpx] & Hc); [lia|destruct Hr; lia| | |].
  - split; [apply Hi|]. intros x y Hxy. bcase E; [|done].
    destruct (bool_decide_reflect (in_region (x0, y0, x1, y1) x y)) as [[_ Hy]|]; simpl in E; [lia|done].
  - split; [done|]. intros (x & y & [_ Hy] & Hlt & _). lia.
  - exists p, c. change (fb_mem hw) with (fb_mem (dev w)). rewrite <- (inv_fb _ Hi). split; [done|]. split; [done|].
    assert (∀ x y, on_panel hw x y → px (stride_bytes hw) p x y = px (stride_bytes hw) (shadow hw) x y) as Hall.
    { intros x y Hxy. rewrite Hpx by done.
      destruct (bool_decide_reflect (in_region (x0, y0, x1, y1) x y)) as [Hin|Hn]; simpl.
      - destruct Hin as [_ Hy]. destruct (Z.ltb_spec y y1); [done|lia].
      - by apply Hout. }
    split; [done|]. destruct c; [|by destruct Hc].
    destruct Hc as (x & y & [Hx Hy] & _ & Hne). destruct Hr as (? & ? & ? & ?).
    assert (on_panel hw x y) by (unfold on_panel, hw; lia). exists x, y. split; [done|].
    by rewrite Hall.
Qed.

Lemma diff_rows_flags z hw x0 x1 n : ∀ y seen fb c,
  diff_rows (set_force_full z hw) x0 x1 n y seen fb c = diff_rows hw x0 x1 n y seen fb c.
Proof.
  induction n as [|n IH]; intros y seen fb c; [done|]. cbn [diff_rows].
  change (stride_bytes (set_force_full z hw)) with (stride_bytes hw).
  change (shadow (set_force_full z hw)) with (shadow hw).
  destruct (mem_read (shadow hw) _ _); [|done]. destruct (mem_read seen _ _); [|done].
  cbn [mbind option_bind]. destruct (decide _); [apply IH|].
  destruct (mem_write seen _ _); [|done]. cbn [mbind option_bind].
  destruct (mem_write fb _ _); [|done]. apply IH.
Qed.

(** What presenting a frame does. *)
Definition presented (a : frame_acc) (w w' : world) : Prop :=
  let hw := dev w in
  ∃ p, dev w' = set_screen p p (set_force_full 0 hw) ∧ frame_ok hw p ∧
    (∀ x y, on_panel hw x y → px (stride_bytes hw) p x y = px (stride_bytes hw) (shadow hw) x y) ∧
    region_of (glob w') = joined w a ∧ glob w' g_fence_src = glob w g_fence_src ∧
    ((p = panel hw ∧ events w' = events w ∧ glob w' updates = glob w updates) ∨
     ((∃ x y, on_panel hw x y ∧ px (stride_bytes hw) (panel hw) x y ≠ px (stride_bytes hw) p x y) ∧
      glob w' updates = s32 (glob w updates + 1) ∧
      let '(x0, y0, x1, y1) := refreshed w a in
      ∃ l wd, events w' = events w ++ [Ev_update (fb_fd hw) l y0 wd (y1 - y0) (next_full w)] ∧
        l mod 8 = 0 ∧ (wd mod 8 = 0 ∨ l + wd = width hw) ∧ 0 ≤ l ≤ x0 ∧ x1 ≤ l + wd ≤ width hw)).

Lemma present_frame_spec a t w :
  screen_inv w →
  (∀ x y, on_panel (dev w) x y → ¬ in_region (acc_region a) x y →
     px (stride_bytes (dev w)) (shadow (dev w)) x y = 0xffff) →
  ∃ w', present_frame a t w = Some ((), w') ∧ presented a w w'.
Proof.
  intros Hi Hw. destruct (frame_region_run a w) as (w1 & Hr1 & Hd1 & He1 & Hg1 & Hu1 & Hf1).
  pose proof (diff_rows_present w a Hi Hw) as Hdiff. destruct (refreshed_ok w a Hi) as [_ Hreg].
  unfold presented. destruct (refreshed w a) as [[[x0 y0] x1] y1] eqn:Er.
  destruct Hdiff as (p & c & Hdiff & Hfp & Hall & Hc).
  unfold present_frame. rewrite (bind_run _ _ _ _ _ Hr1). gstep. qstep t2 w2 Q2.
  assert (diff_rows (dev w1) x0 x1 (Z.to_nat (y1 - y0)) y0 (panel (dev w1)) (fb_mem (dev w1)) false
          = Some (p, p, c)) as Hdiff1 by (by rewrite Hd1, diff_rows_flags).
  rewrite Hdiff1. rewrite (bind_run (hlift _) _ w2 (p, p, c) w2) by reflexivity. gstep.
  set (w3 := World _ _ _ _). qstep t4 w4 Q4. qstep r5 w5 Q5.
  apply (quiet_trans _ _ _ Q4) in Q5. clear Q4. pose proof (proj1 Q5) as D5.
  assert (dev w3 = set_screen p p (set_force_full 0 (dev w))) as Hd3.
  { unfold w3. simpl. destruct Q2 as (-> & _). by rewrite Hd1. }
  destruct (finish_frame_run t x0 y0 x1 y1 (next_full w) c w5) as (w6 & Hr6 & Hd6 & Hg6 & Hf6 & Hc6).
  { by rewrite D5, Hd3. }
  rewrite (bind_run _ _ _ _ _ Hr6).
  destruct (heartbeat_quiet w6) as ([] & w7 & -> & Q7). exists w7. split; [done|]. exists p.
  assert (region_of (glob w5) = joined w a) as HR5.
  { rewrite (quiet_region _ _ Q5), <- Hg1. exact (quiet_region _ _ Q2). }
  assert (glob w5 g_fence_src = glob w g_fence_src) as HF5.
  { rewrite (quiet_fence _ _ Q5), <- Hf1. exact (quiet_fence _ _ Q2). }
  assert (glob w5 updates = glob w updates) as HU5.
  { rewrite (quiet_updates _ _ Q5), <- Hu1. exact (quiet_updates _ _ Q2). }
  assert (events w5 = events w) as HE5.
  { destruct Q5 as (_ & -> & _). simpl. destruct Q2 as (_ & -> & _). done. }
  split; [destruct Q7 as (-> & _); by rewrite Hd6, D5|]. split; [done|]. split; [done|].
  split; [by rewrite (quiet_region _ _ Q7), Hg6|]. split; [by rewrite (quiet_fence _ _ Q7), Hf6|].
  rewrite (quiet_updates _ _ Q7), (proj1 (proj2 Q7)). destruct c.
  - right. split; [done|]. destruct Hc6 as (Hu6 & l & wd & He6 & Hrest). rewrite D5, Hd3 in *.
    split; [by rewrite Hu6, HU5|]. exists l, wd. split; [by rewrite He6, HE5|done].
  - left. destruct Hc6 as [He6 Hu6]. split_and!; [done|by rewrite He6|by rewrite Hu6].
Qed.


(** ** One frame *)

Context `{!GrallocLaws}.

(** The update the panel gets when its contents change from [m] to [m']. *)
Definition update_ok (hw : eink_hwc_t) (full : bool) (m m' : list Z) (e : hwc_event) : Prop :=
  ∃ l t wd ht, e = Ev_update (fb_fd hw) l t wd ht full ∧
    l mod 8 = 0 ∧ (wd mod 8 = 0 ∨ l + wd = width hw) ∧
    panel_region hw (l, t, l + wd, t + ht) ∧
    (full = true → l = 0 ∧ t = 0 ∧ wd = width hw ∧ ht = height hw) ∧
    ∀ x y, on_panel hw x y → px (stride_bytes hw) m x y ≠ px (stride_bytes hw) m' x y →
      in_region (l, t, l + wd, t + ht) x y.

(** The panel contents [p] after composing [ls], and the updates [upd] sent. *)
Definition frame_result (w : world) (ls : list hwc_layer_1_t) (p : list Z) (upd : list hwc_event) : Prop :=
  let hw := dev w in
  if existsb (paints hw) ls then
    (∀ x y, on_panel hw x y → px (stride_bytes hw) p x y = frame_px hw ls x y) ∧
    ((upd = [] ∧ p = panel hw) ∨
     ((∃ x y, on_panel hw x y ∧ px (stride_bytes hw) (panel hw) x y ≠ px (stride_bytes hw) p x y) ∧
      ∃ e, upd = [e] ∧ update_ok hw (next_full w) (panel hw) p e))
  else upd = [] ∧ p = panel hw.

(** The state after composing [ls]. *)
Definition frame_done (w w' : world) (ls : list hwc_layer_1_t) : Prop :=
  let hw := dev w in
  let painted := existsb (paints hw) ls in
  ∃ p m evs upd,
    dev w' = set_screen p p (set_shadow m (set_force_full (if painted then 0 else force_full hw) hw)) ∧
    events w' = events w ++ evs ++ upd ∧ Forall gralloc_event evs ∧
    glob w' g_fence_src = glob w g_fence_src ∧
    glob w' updates = match upd with [] => glob w updates | _ => s32 (glob w updates + 1) end ∧
    (panel_region hw (region_of (glob w)) → ∀ x y,
       in_region (region_of (glob w)) x y → in_region (region_of (glob w')) x y) ∧
    frame_result w ls p upd.

Lemma set_shadow_inv w m evs n g :
  screen_inv w → frame_ok (dev w) m → (∀ v, v ∈ control_vars → g v = glob w v) →
  screen_inv (World (set_shadow m (dev w)) g evs n).
Proof.
  intros Hi Hm Hg.
  pose proof (control_region _ _ Hg) as HR.
  assert (g updates = glob w updates) as HU by (apply Hg; unfold control_vars; set_solver).
  split; cbn [dev glob]; [apply Hi|done|apply Hi|apply Hi|]. rewrite HR, HU.
  unfold region_of in HR. injection HR as Hr0 _ Hr1 _. rewrite Hr0, Hr1. apply (inv_region _ Hi).
Qed.

Lemma quiet_inv w w' : quiet w w' → screen_inv w → screen_inv w'.
Proof.
  intros Q Hi. pose proof Q as (D & _ & G).
  pose proof (set_shadow_inv w (shadow (dev w)) (events w') (clock_reads w') (glob w') Hi (inv_shadow _ Hi) G) as Hi'.
  replace (set_shadow (shadow (dev w)) (dev w)) with (dev w') in Hi'; [by destruct w'|].
  rewrite D. by destruct (dev w).
Qed.

(** A presented frame keeps the invariant. *)
Lemma presented_inv a w w' :
  screen_inv w → presented a w w' →
  (∀ x y, on_panel (dev w) x y → ¬ in_region (acc_region a) x y →
     px (stride_bytes (dev w)) (shadow (dev w)) x y = 0xffff) →
  screen_inv w'.
Proof.
  intros Hi (p & Hd & Hf & Hpx & Hr & _ & _) Hw. destruct (refreshed_ok w a Hi) as [Hj _].
  split; rewrite Hd; try done; [apply Hi|apply Hi|].
  right. rewrite Hr. split; [exact Hj|]. intros x y Hxy Hout.
  change (px (stride_bytes (dev w)) p x y = 0xffff). rewrite Hpx by done.
  by apply (outside_refreshed w a x y Hi Hw Hxy).
Qed.

(** The update of a presented frame covers what changed. *)
Lemma presented_result a w w' p :
  screen_inv w → presented a w w' → dev w' = set_screen p p (set_force_full 0 (dev w)) →
  (∀ x y, on_panel (dev w) x y → ¬ in_region (acc_region a) x y →
     px (stride_bytes (dev w)) (shadow (dev w)) x y = 0xffff) →
  ∃ upd, events w' = events w ++ upd ∧
    glob w' updates = match upd with [] => glob w updates | _ => s32 (glob w updates + 1) end ∧
    ((upd = [] ∧ p = panel (dev w)) ∨
     ((∃ x y, on_panel (dev w) x y ∧
         px (stride_bytes (dev w)) (panel (dev w)) x y ≠ px (stride_bytes (dev w)) p x y) ∧
      ∃ e, upd = [e] ∧ update_ok (dev w) (next_full w) (panel (dev w)) p e)).
Proof.
  intros Hi (p' & Hd & Hf & Hpx & Hr & _ & Hres) Hd' Hw.
  assert (p' = p) as ->. { rewrite Hd in Hd'. by injection Hd'. }
  destruct (refreshed_ok w a Hi) as [_ Hreg]. pose proof (λ x y, outside_refreshed w a x y Hi Hw) as Hout.
  destruct Hres as [(Hp & He & Hu)|(Hx & Hu & Hres)]; [exists []; rewrite app_nil_r; auto|].
  unfold refreshed in *. destruct (next_full w) eqn:Hfull.
  - destruct Hres as (l & wd & He & Hl & Hwd & Hb1 & Hb2). eexists [_]. split_and!; [exact He|done|].
    right. split; [done|]. eexists. split; [done|]. exists l, 0, wd, (height (dev w)).
    destruct (inv_hw _ Hi) as (? & ? & _). split_and!; try lia.
    + f_equal. lia.
    + unfold panel_region. lia.
    + intros x y [? ?] _. unfold in_region. lia.
  - destruct (joined w a) as [[[x0 y0] x1] y1]. destruct Hres as (l & wd & He & Hl & Hwd & Hb1 & Hb2).
    eexists [_]. split_and!; [exact He|done|]. right. split; [done|]. eexists. split; [done|].
    exists l, y0, wd, (y1 - y0). unfold panel_region in *. split_and!; try done; try lia.
    intros x y Hxy Hne. destruct (decide (in_region (x0, y0, x1, y1) x y)) as [[? ?]|Hn].
    + unfold in_region. lia.
    + destruct Hne. rewrite Hpx by done. by apply Hout.
Qed.

Lemma compose_primary_spec t d w :
  screen_inv w → Forall (layer_fine (dev w)) (hwLayers d) →
  ∃ w', compose_primary t d w = Some (blanked_display d, w') ∧ screen_inv w' ∧ frame_done w w' (hwLayers d).
Proof.
  intros Hi Hls. pose proof (inv_hw _ Hi) as Hhw. unfold compose_primary, frame_done. gstep.
  qstep t1 w1 Q1. destruct (replicate_frame (dev w) 0xff Hhw) as [Hff Hwhite]; [unfold is_byte; lia|].
  set (white := replicate _ _) in *. gstep. rewrite (proj1 Q1). set (w2 := World _ _ _ _).
  assert (screen_inv w2) as Hi2 by (apply set_shadow_inv; [done|done|apply Q1]).
  qstep t3 w3 Q3. qstep r4 w4 Q4. qstep t5 w5 Q5.
  assert (quiet w2 w5) as Q by eauto using quiet_trans. clear Q3 Q4 Q5.
  pose proof (quiet_inv _ _ Q Hi2) as Hi5. pose proof Q as (D5 & E5 & _).
  assert (dev w5 = set_shadow white (dev w)) as Hd5 by exact D5.
  destruct (compose_layers_spec (hwLayers d) (Acc false 0 0 (width (dev w)) (height (dev w)) 0 0) w5)
    as (a & m & evs & Hc & Hm & Hev & Hdirty & Hpx & Hacc);
    [apply Hi5|apply Hi5|by rewrite Hd5|].
  rewrite (bind_run _ _ _ _ _ Hc). clear Hc. rewrite Hd5 in *. set (w6 := World _ _ _ _).
  assert (screen_inv w6) as Hi6.
  { unfold w6. rewrite <- Hd5. apply set_shadow_inv; [done|by rewrite Hd5|done]. }
  qstep t7 w7 Q7. qstep r8 w8 Q8. apply (quiet_trans _ _ _ Q7) in Q8. clear Q7.
  pose proof (quiet_inv _ _ Q8 Hi6) as Hi8. pose proof Q8 as (D8 & E8 & _).
  simpl in Hdirty. change (existsb (paints (set_shadow white (dev w)))) with (existsb (paints (dev w))) in Hdirty.
  assert (events w8 = events w ++ evs) as HE8.
  { rewrite E8. simpl. rewrite E5. simpl. by rewrite (proj1 (proj2 Q1)). }
  assert (region_of (glob w8) = region_of (glob w)) as HR8.
  { rewrite (quiet_region _ _ Q8). etransitivity; [exact (quiet_region _ _ Q)|]. exact (quiet_region _ _ Q1). }
  assert (glob w8 updates = glob w updates) as HU8.
  { rewrite (quiet_updates _ _ Q8). etransitivity; [exact (quiet_updates _ _ Q)|]. exact (quiet_updates _ _ Q1). }
  assert (glob w8 g_fence_src = glob w g_fence_src) as HF8.
  { rewrite (quiet_fence _ _ Q8). etransitivity; [exact (quiet_fence _ _ Q)|]. exact (quiet_fence _ _ Q1). }
  assert (dev w8 = set_shadow m (dev w)) as HD8 by exact D8.
  rewrite <- Hdirty. destruct (dirty a).
  - assert (∀ x y, on_panel (dev w8) x y → ¬ in_region (acc_region a) x y →
      px (stride_bytes (dev w8)) (shadow (dev w8)) x y = 0xffff) as Hw8.
    { rewrite HD8. intros x y Hxy Hout. destruct (Hacc x y Hxy Hout) as [_ Heq].
      etransitivity; [exact Heq|]. by apply Hwhite. }
    destruct (present_frame_spec a t w8 Hi8) as (w9 & Hr9 & Hp9).
    { exact Hw8. }
    rewrite (bind_run _ _ _ _ _ Hr9). exists w9. split; [done|].
    split; [by eapply presented_inv|].
    pose proof Hp9 as (p & Hd9 & Hfp & Hpp & HR9 & HF9 & _).
    destruct (presented_result a w8 w9 p Hi8 Hp9 Hd9 Hw8) as (upd & HE9 & HU9 & Hres).
    assert (next_full w8 = next_full w) as HN by (unfold next_full; by rewrite HU8, HD8).
    exists p, m, evs, upd. rewrite HD8, HN, HU8 in *.
    split_and!; [exact Hd9|by rewrite HE9, HE8, app_assoc|done|by rewrite HF9|done| |].
    { intros Hreg x y Hin. rewrite HR9. unfold joined. rewrite HR8, HD8.
      destruct (clamp_region_spec (set_shadow m (dev w)) a Hhw) as [Hcl _].
      apply (join_region_spec (set_shadow m (dev w))); [exact Hcl|by left|exact Hreg|exact Hin]. }
    unfold frame_result. rewrite <- Hdirty. split; [|exact Hres].
    intros x y Hxy. etransitivity; [exact (Hpp x y Hxy)|]. etransitivity; [exact (Hpx x y Hxy)|].
    unfold frame_px. simpl. by rewrite Hwhite.
  - rewrite (bind_run _ _ w8 () w8) by reflexivity. exists w8. split; [done|]. split; [done|].
    exists (panel (dev w)), m, evs, []. rewrite app_nil_r. split_and!; try done.
    + rewrite HD8. pose proof (inv_fb _ Hi) as Hfb. destruct w as [[] ? ? ?]. simpl in *. by subst.
    + by rewrite HR8.
    + unfold frame_result. rewrite <- Hdirty. done.
Qed.


(** ** A whole call *)

Lemma frame_done_quiet w w0 w' ls : quiet w w0 → frame_done w0 w' ls → frame_done w w' ls.
Proof.
  intros Q (p & m & evs & upd & Hd & He & Hev & Hf & Hu & Hg & Hr). pose proof Q as (D & E & _).
  assert (next_full w0 = next_full w) as HN by (unfold next_full; by rewrite (quiet_updates _ _ Q), D).
  exists p, m, evs, upd. unfold frame_result in *.
  rewrite D, HN, (quiet_updates _ _ Q), (quiet_fence _ _ Q), (quiet_region _ _ Q), E in *. done.
Qed.

(** The [dup] a call of [set] makes for the primary display. *)
Definition fence_events (from_set : bool) (g : statics) : list hwc_event :=
  if from_set && (0 <=? g g_fence_src) then [Ev_dup (g g_fence_src)] else [].

Lemma retire_fence_run (w : world) :
  ∃ fd w', retire_fence w = Some (fd, w') ∧ dev w' = dev w ∧ glob w' = glob w ∧
    events w' = events w ++ fence_events true (glob w).
Proof.
  unfold retire_fence, fence_events. gstep. simpl. bcase E; eexists _, _; (split; [reflexivity|]).
  - done.
  - by rewrite app_nil_r.
Qed.

Lemma other_displays t fs ds : ∀ i w,
  compose_displays t fs (S i) ds w = Some (option_map (set_retire (-1)) <$> ds, w).
Proof.
  induction ds as [|[d|] ds IH]; intros i w; [done|..]; cbn [compose_displays].
  - erewrite bind_run by reflexivity. by erewrite bind_run by apply IH.
  - by erewrite bind_run by apply IH.
Qed.

Lemma count_frame_quiet fs ds : quietM (count_frame fs ds).
Proof. unfold count_frame. eauto 20 with quiet. Qed.

(** The primary display of a list, if any. *)
Definition primary (ds : list (option hwc_display_contents_1_t)) : option hwc_display_contents_1_t :=
  match ds with Some d :: _ => Some d | _ => None end.

Definition displays_fine (hw : eink_hwc_t) (ds : list (option hwc_display_contents_1_t)) : Prop :=
  match primary ds with Some d => Forall (layer_fine hw) (hwLayers d) | None => True end.

Lemma inv_events w w' : dev w' = dev w → glob w' = glob w → screen_inv w → screen_inv w'.
Proof. intros D G []. split; by rewrite ?D, ?G. Qed.

(** What composing a list of displays does to the device and its log of calls. *)
Definition composed_to (fs : bool) (w w' : world) (ds : list (option hwc_display_contents_1_t)) : Prop :=
  match primary ds with
  | None => dev w' = dev w ∧ events w' = events w
  | Some d =>
    if truthy (blanked (dev w))
    then dev w' = dev w ∧ events w' = events w ++ fence_events fs (glob w)
    else ∃ wi, frame_done w wi (hwLayers d) ∧ dev w' = dev wi ∧
           (∀ v, v ∈ control_vars → glob w' v = glob wi v) ∧
           events w' = events wi ++ fence_events fs (glob w)
  end.

(** The display lists after a call: fences only. *)
Definition fence_only (o o' : option hwc_display_contents_1_t) : Prop :=
  match o, o' with
  | None, None => True
  | Some d, Some d' => hwLayers d' = hwLayers d ∨ hwLayers d' = set_release_fence (-1) <$> hwLayers d
  | _, _ => False
  end.

Definition fences_set : list (option hwc_display_contents_1_t) → list (option hwc_display_contents_1_t) → Prop :=
  Forall2 fence_only.

Lemma other_fences ds : fences_set ds (option_map (set_retire (-1)) <$> ds).
Proof. induction ds as [|[d|] ds IH]; constructor; simpl; auto. Qed.

Lemma primary_display_spec t fs d ds w :
  screen_inv w → Forall (layer_fine (dev w)) (hwLayers d) →
  ∃ fd w', compose_display t fs 0 d w = Some (set_retire fd (blanked_display d), w') ∧ screen_inv w' ∧
    composed_to fs w w' (Some d :: ds).
Proof.
  intros Hi Hls. unfold composed_to, compose_display. cbn [Nat.eqb primary]. gstep.
  assert (∃ w1, (if truthy (blanked (dev w)) then mret (blanked_display d) else compose_primary t d) w
                = Some (blanked_display d, w1) ∧ screen_inv w1 ∧ glob w1 g_fence_src = glob w g_fence_src ∧
          if truthy (blanked (dev w)) then w1 = w else frame_done w w1 (hwLayers d))
    as (w1 & Hr1 & Hi1 & HF1 & Hc1).
  { destruct (truthy (blanked (dev w))); [by exists w|].
    destruct (compose_primary_spec t d w) as (w1 & Hr & Hi1 & Hd); [done..|]. exists w1.
    split_and!; [done|done|by destruct Hd as (? & ? & ? & ? & _ & _ & _ & ? & _)|done]. }
  rewrite (bind_run _ _ _ _ _ Hr1).
  assert (∃ fd w2, (if fs then fd ← retire_fence; mret (set_retire fd (blanked_display d))
                    else mret (blanked_display d)) w1 = Some (set_retire fd (blanked_display d), w2) ∧
            dev w2 = dev w1 ∧ glob w2 = glob w1 ∧ events w2 = events w1 ++ fence_events fs (glob w))
    as (fd & w2 & Hr2 & HD2 & HG2 & HE2).
  { assert (fence_events fs (glob w) = fence_events fs (glob w1)) as -> by (unfold fence_events; by rewrite HF1).
    destruct fs.
    - destruct (retire_fence_run w1) as (fd & w2 & Hr & HD & HG & HE).
      exists fd, w2. by rewrite (bind_run _ _ _ _ _ Hr).
    - exists (retireFenceFd d), w1. split_and!; [by destruct d|done|done|by rewrite app_nil_r]. }
  exists fd, w2. split; [done|]. split; [by apply (inv_events w1)|].
  destruct (truthy (blanked (dev w))).
  - subst. by rewrite HD2, HE2.
  - exists w1. split_and!; [done|done|by rewrite HG2|done].
Qed.

Lemma compose_displays_spec t fs ds w :
  screen_inv w → displays_fine (dev w) ds →
  ∃ ds' w', compose_displays t fs 0 ds w = Some (ds', w') ∧ screen_inv w' ∧
    composed_to fs w w' ds ∧ fences_set ds ds'.
Proof.
  intros Hi Hds. destruct ds as [|[d|] ds]; cbn [compose_displays primary].
  - exists [], w. split_and!; [done..|constructor].
  - destruct (primary_display_spec t fs d ds w Hi Hds) as (fd & w1 & Hr & Hi1 & Hc).
    rewrite (bind_run _ _ _ _ _ Hr). erewrite bind_run by apply other_displays.
    eexists _, w1. split; [reflexivity|]. split_and!; [done..|]. constructor; [by right|apply other_fences].
  - erewrite bind_run by apply other_displays. eexists _, w. split; [reflexivity|].
    split_and!; try done. constructor; [done|apply other_fences].
Qed.

Lemma composed_to_quiet fs w w0 w' ds : quiet w w0 → composed_to fs w0 w' ds → composed_to fs w w' ds.
Proof.
  intros Q. pose proof Q as (D & E & _). unfold composed_to, fence_events.
  rewrite D, E, (quiet_fence _ _ Q). destruct (primary ds) as [d|]; [|done].
  destruct (truthy _); [done|]. intros (wi & Hf & Hrest). exists wi.
  split; [by eapply frame_done_quiet|done].
Qed.

(** [hwc_compose] on every path. *)
Lemma hwc_compose_spec fs ds w :
  screen_inv w → displays_fine (dev w) ds →
  ∃ ds' w', hwc_compose ds fs w = Some (ds', w') ∧ screen_inv w' ∧ composed_to fs w w' ds ∧ fences_set ds ds'.
Proof.
  intros Hi Hds. unfold hwc_compose. qstep t w1 Q1.
  destruct (count_frame_quiet fs ds w1) as ([] & w2 & Hr2 & Q2). rewrite (bind_run _ _ _ _ _ Hr2).
  pose proof (quiet_trans _ _ _ Q1 Q2) as Q.
  destruct (compose_displays_spec t fs ds w2) as (ds' & w' & Hr & Hi' & Hc & Hf).
  - by apply (quiet_inv _ _ Q).
  - by rewrite (proj1 Q).
  - exists ds', w'. split_and!; [done|done|by eapply composed_to_quiet|done].
Qed.

(** ** The other entry points keep the invariant *)

Definition same_panel (hw hw' : eink_hwc_t) : Prop :=
  width hw' = width hw ∧ height hw' = height hw ∧ stride_bytes hw' = stride_bytes hw ∧
  fb_size hw' = fb_size hw ∧ bpp hw' = bpp hw ∧ gralloc hw' = gralloc hw ∧
  query_bound hw' = query_bound hw ∧ shadow hw' = shadow hw ∧ panel hw' = panel hw ∧
  fb_mem hw' = fb_mem hw.

Definition not_update (e : hwc_event) : Prop :=
  match e with Ev_update _ _ _ _ _ _ => False | _ => True end.

(** Nothing the panel shows is touched and no update is sent. *)
Definition tame (w w' : world) : Prop :=
  same_panel (dev w) (dev w') ∧ (∀ v, v ∈ control_vars → glob w' v = glob w v) ∧
  ∃ evs, events w' = events w ++ evs ∧ Forall not_update evs.

Definition tameM {A} (m : HM A) : Prop := ∀ w, ∃ x w', m w = Some (x, w') ∧ tame w w'.

Lemma same_panel_refl hw : same_panel hw hw.
Proof. done. Qed.

Lemma tame_trans w1 w2 w3 : tame w1 w2 → tame w2 w3 → tame w1 w3.
Proof.
  intros (P1 & G1 & ev1 & E1 & F1) (P2 & G2 & ev2 & E2 & F2). split_and!.
  - unfold same_panel in *. intuition congruence.
  - intros v Hv. by rewrite G2, G1.
  - exists (ev1 ++ ev2). rewrite E2, E1, app_assoc. split; [done|]. by apply Forall_app.
Qed.

Lemma tameM_bind {A B} (m : HM A) (k : A → HM B) : tameM m → (∀ x, tameM (k x)) → tameM (m ≫= k).
Proof.
  intros Hm Hk w. destruct (Hm w) as (x & w1 & E1 & T1). destruct (Hk x w1) as (y & w2 & E2 & T2).
  exists y, w2. rewrite (bind_run _ _ _ _ _ E1). eauto using tame_trans.
Qed.

Lemma quietM_tame {A} (m : HM A) : quietM m → tameM m.
Proof.
  intros Hq w. destruct (Hq w) as (x & w' & E & D & Ev & G). exists x, w'. split; [done|].
  split_and!; [by rewrite D|done|]. exists []. by rewrite app_nil_r.
Qed.

Lemma tameM_dev f : (∀ hw, same_panel hw (f hw)) → tameM (mod_dev f).
Proof.
  intros Hf w. eexists (), _. split; [reflexivity|]. split_and!; [apply Hf|done|].
  exists []. by rewrite app_nil_r.
Qed.

Lemma tameM_emit evs : Forall not_update evs → tameM (emit evs).
Proof. intros He w. eexists (), _. split; [reflexivity|]. split_and!; [done|done|by exists evs]. Qed.

Lemma tameM_if {A} (b : bool) (m1 m2 : HM A) : tameM m1 → tameM m2 → tameM (if b then m1 else m2).
Proof. by destruct b. Qed.

Lemma tame_inv w w' : tame w w' → screen_inv w → screen_inv w'.
Proof.
  intros ((Hw & Hh & Hs & Hz & Hb & _ & _ & Hsh & Hp & Hf) & G & _) Hi.
  pose proof (control_region _ _ G) as HR.
  assert (glob w' updates = glob w updates) as HU by (apply G; unfold control_vars; set_solver).
  assert (glob w' px0 = glob w px0 ∧ glob w' px1 = glob w px1) as [H0' H1'] by (by injection HR).
  split; unfold hw_ok, frame_ok, panel_region, on_panel; rewrite ?Hw, ?Hh, ?Hs, ?Hz, ?Hb, ?Hsh, ?Hp, ?Hf, ?HR, ?HU, ?H0', ?H1';
    apply Hi.
Qed.

Create HintDb tame.
#[local] Hint Resolve quietM_tame tameM_if : tame.
#[local] Hint Extern 1 (tameM (mod_dev _)) => by apply tameM_dev : tame.
#[local] Hint Extern 1 (tameM (emit _)) => apply tameM_emit; by repeat constructor : tame.
#[local] Hint Extern 2 (tameM (_ ≫= _)) => apply tameM_bind; [|intros ?] : tame.

Lemma hwc_eventControl_tame e n : tameM (hwc_eventControl e n).
Proof. destruct e; simpl; eauto 20 with tame quiet. Qed.

Lemma hwc_blank_tame d b : tameM (hwc_blank d b).
Proof. unfold hwc_blank. eauto 20 with tame quiet. Qed.

Lemma hwc_registerProcs_tame p : tameM (hwc_registerProcs p).
Proof. unfold hwc_registerProcs. eauto with tame. Qed.

Lemma deliver_vsync_tame n : tameM (deliver_vsync n).
Proof.
  unfold deliver_vsync. apply tameM_bind; [eauto with tame quiet|]. intros hw.
  destruct (procs hw); eauto 20 with tame quiet.
Qed.

Lemma nudge_tame : tameM nudge.
Proof.
  unfold nudge. do 3 (apply tameM_bind; [eauto with tame quiet|]; intros ?).
  destruct (procs _); eauto 20 with tame quiet.
Qed.

Lemma vsync_tick_tame : tameM vsync_tick.
Proof.
  unfold vsync_tick. apply tameM_bind; [eauto with tame quiet|]. intros hw.
  apply tameM_if; [eauto with tame quiet|]. apply tameM_bind.
  - intros w. eexists _, _. split; [reflexivity|]. split_and!; [done|done|]. exists []. by rewrite app_nil_r.
  - intros n. apply tameM_bind; [apply deliver_vsync_tame|]. intros _.
    apply tameM_bind; [apply nudge_tame|]. intros _. eauto with tame quiet.
Qed.

(** Marking layers as overlays does not change what is drawn. *)
Lemma mark_overlay_effect hw x y d l : layer_effect hw x y d (mark_overlay l) = layer_effect hw x y d l.
Proof. unfold layer_effect, mark_overlay. by destruct (compositionType l) eqn:E; simpl; rewrite ?E. Qed.

Lemma mark_overlay_fine hw l : layer_fine hw l → layer_fine hw (mark_overlay l).
Proof.
  unfold mark_overlay. destruct (compositionType l) eqn:E; try done;
    (intros [?|[?|[? ?]]]; [congruence..|]; right; right; done).
Qed.

Lemma mark_displays_fine hw ds : displays_fine hw ds → displays_fine hw (mark_displays ds).
Proof.
  unfold displays_fine. destruct ds as [|[d|] ds]; simpl; try done.
  intros Hf. apply Forall_fmap. eapply Forall_impl; [exact Hf|]. apply mark_overlay_fine.
Qed.

Lemma set_missing_quiet : quietM set_missing.
Proof. unfold set_missing. eauto 20 with quiet. Qed.

(** [hwc_prepare] on every path: it composes, or changes nothing visible. *)
Lemma hwc_prepare_spec ds w :
  screen_inv w → displays_fine (dev w) ds →
  ∃ ds' w', hwc_prepare ds w = Some (ds', w') ∧ screen_inv w' ∧
    ((ds' = mark_displays ds ∧ quiet w w') ∨
     (composed_to false w w' (mark_displays ds) ∧ fences_set (mark_displays ds) ds' ∧
      truthy (blanked (dev w)) = false)).
Proof.
  intros Hi Hds. unfold hwc_prepare. qstep r1 w1 Q1. qstep r2 w2 Q2. qstep n3 w3 Q3. qstep r4 w4 Q4.
  assert (quiet w w4) as Q by eauto 10 using quiet_trans. clear Q1 Q2 Q3 Q4.
  destruct (set_missing_quiet w4) as (b & w5 & Hr & Q5). rewrite (bind_run _ _ _ _ _ Hr).
  pose proof (quiet_trans _ _ _ Q Q5) as Q6. destruct b.
  - destruct (hwc_compose_spec false (mark_displays ds) w5) as (ds' & w' & Hr' & Hi' & Hc & Hf).
    + by apply (quiet_inv _ _ Q6).
    + rewrite (proj1 Q6). by apply mark_displays_fine.
    + exists ds', w'. split_and!; [done|done|]. right.
      split_and!; [by eapply composed_to_quiet|done|].
      unfold set_missing in Hr. erewrite bind_run in Hr by reflexivity. rewrite (proj1 Q) in Hr.
      by destruct (truthy _).
  - exists (mark_displays ds), w5. split; [done|]. split; [by apply (quiet_inv _ _ Q6)|]. by left.
Qed.

(** The layers an operation composes are fine. *)
Definition op_fine (hw : eink_hwc_t) (op : hwc_op) : Prop :=
  match op with Do_prepare ds | Do_set ds => displays_fine hw ds | _ => True end.

Lemma hwc_step_inv op w :
  screen_inv w → op_fine (dev w) op → ∃ w', hwc_step op w = Some ((), w') ∧ screen_inv w'.
Proof.
  intros Hi Hop. destruct op; simpl in *.
  - destruct (hwc_prepare_spec ds w Hi Hop) as (ds' & w' & Hr & Hi' & _).
    rewrite (bind_run _ _ _ _ _ Hr). by exists w'.
  - destruct (hwc_compose_spec true ds w Hi Hop) as (ds' & w' & Hr & Hi' & _).
    unfold hwc_set. rewrite (bind_run _ _ _ _ _ Hr). by exists w'.
  - destruct (hwc_blank_tame disp blank w) as (x & w' & Hr & HT). rewrite (bind_run _ _ _ _ _ Hr).
    exists w'. split; [done|]. by eapply tame_inv.
  - destruct (hwc_eventControl_tame event enabled w) as (x & w' & Hr & HT). rewrite (bind_run _ _ _ _ _ Hr).
    exists w'. split; [done|]. by eapply tame_inv.
  - destruct (hwc_registerProcs_tame p w) as ([] & w' & Hr & HT). exists w'. split; [done|]. by eapply tame_inv.
  - destruct (vsync_tick_tame w) as (x & w' & Hr & HT). rewrite (bind_run _ _ _ _ _ Hr).
    exists w'. split; [done|]. by eapply tame_inv.
Qed.

(** ** Sequences of operations *)

(** The parts of the device that no operation changes. *)
Definition same_setup (hw hw' : eink_hwc_t) : Prop :=
  width hw' = width hw ∧ height hw' = height hw ∧ bpp hw' = bpp hw ∧
  gralloc hw' = gralloc hw ∧ query_bound hw' = query_bound hw.

Lemma tame_setup w w' : tame w w' → same_setup (dev w) (dev w').
Proof. intros ((? & ? & ? & ? & ? & ? & ? & _) & _). by split_and!. Qed.

Lemma composed_setup fs w w' ds : composed_to fs w w' ds → same_setup (dev w) (dev w').
Proof.
  unfold composed_to. destruct (primary ds); [|by intros [-> _]].
  destruct (truthy _); [by intros [-> _]|]. intros (wi & (p & m & evs & upd & Hd & _) & -> & _).
  by rewrite Hd.
Qed.

Lemma drawable_setup hw hw' l : same_setup hw hw' → drawable hw' l = drawable hw l.
Proof. intros (_ & _ & Hb & Hg & Hq). unfold drawable. by rewrite Hb, Hg, Hq. Qed.

Lemma layer_fine_setup hw hw' l : same_setup hw hw' → layer_fine hw l → layer_fine hw' l.
Proof.
  intros HS. unfold layer_fine, negative_layer, negative_copy. rewrite (drawable_setup _ _ _ HS).
  destruct HS as (-> & -> & _). done.
Qed.

Lemma op_fine_setup hw hw' op : same_setup hw hw' → op_fine hw op → op_fine hw' op.
Proof.
  intros HS. destruct op; simpl; try done; unfold displays_fine; (destruct (primary ds); [|done]);
    intros Hf; (eapply Forall_impl; [exact Hf|]); intros l; by apply layer_fine_setup.
Qed.

Lemma hwc_step_setup op w :
  screen_inv w → op_fine (dev w) op →
  ∃ w', hwc_step op w = Some ((), w') ∧ screen_inv w' ∧ same_setup (dev w) (dev w').
Proof.
  intros Hi Hop. destruct (hwc_step_inv op w Hi Hop) as (w' & Hr & Hi'). exists w'.
  split; [done|]. split; [done|]. destruct op; simpl in *.
  - destruct (hwc_prepare_spec ds w Hi Hop) as (ds' & w1 & Hr1 & _ & Hc).
    rewrite (bind_run _ _ _ _ _ Hr1) in Hr. injection Hr as <-.
    destruct Hc as [[_ (-> & _)]|[Hc _]]; [done|by eapply composed_setup].
  - destruct (hwc_compose_spec true ds w Hi Hop) as (ds' & w1 & Hr1 & _ & Hc & _).
    unfold hwc_set in Hr. rewrite (bind_run _ _ _ _ _ Hr1) in Hr. injection Hr as <-. by eapply composed_setup.
  - destruct (hwc_blank_tame disp blank w) as (x & w1 & Hr1 & HT).
    rewrite (bind_run _ _ _ _ _ Hr1) in Hr. injection Hr as <-. by apply tame_setup.
  - destruct (hwc_eventControl_tame event enabled w) as (x & w1 & Hr1 & HT).
    rewrite (bind_run _ _ _ _ _ Hr1) in Hr. injection Hr as <-. by apply tame_setup.
  - destruct (hwc_registerProcs_tame p w) as (x & w1 & Hr1 & HT). rewrite Hr1 in Hr.
    injection Hr as _ <-. by apply tame_setup.
  - destruct (vsync_tick_tame w) as (x & w1 & Hr1 & HT).
    rewrite (bind_run _ _ _ _ _ Hr1) in Hr. injection Hr as <-. by apply tame_setup.
Qed.

Fixpoint hwc_run (ops : list hwc_op) (w : world) : option world :=
  match ops with
  | [] => Some w
  | op :: ops => match hwc_step op w with Some (_, w) => hwc_run ops w | None => None end
  end.

Lemma hwc_run_inv ops : ∀ w,
  screen_inv w → Forall (op_fine (dev w)) ops → ∃ w', hwc_run ops w = Some w' ∧ screen_inv w'.
Proof.
  induction ops as [|op ops IH]; intros w Hi Hops; [by exists w|].
  apply Forall_cons in Hops as [Hop Hops].
  destruct (hwc_step_setup op w Hi Hop) as (w1 & Hr & Hi1 & HS). simpl. rewrite Hr. apply IH; [done|].
  eapply Forall_impl; [exact Hops|]. intros o. by apply op_fine_setup.
Qed.

End Present.
