(* ===== verification/HwcProps.v ===== *)
(** * The e-ink hwcomposer: properties

    What the panel shows after a frame, which updates are sent, and what
    happens while the display is blanked. *)
From S2P Require Import Prelude Pixel Compose ComposeSpec ComposeProps Hwc HwcSpec HwcInv.

Section Properties.
Context `{GrallocIf} `{HwcEnv}.

(** C9: from a state in which the panel copy agrees with the framebuffer and the
    panel is white outside the remembered rectangle, any sequence of
    prepare, set, blank, eventControl, registerProcs and vsync rounds runs without fault and ends in such a
    state, provided every layer is unscaled, has coordinates of at most 2^29 and is not a 16-bit opaque layer whose
    visible width is negative, for which [memcpy] gets a negative length. *)
Theorem hwc_ops_keep_screen_inv `{!GrallocLaws} ops w :
  screen_inv w → Forall (op_fine (dev w)) ops → ∃ w', hwc_run ops w = Some w' ∧ screen_inv w'.
Proof. apply hwc_run_inv. Qed.


(** [hwc_set] sends the panel an update exactly when the frame changed a
    pixel, and then exactly one, after all layers were read: it lies inside the panel
    on eight-pixel boundaries, covers every changed pixel, and is the
    whole panel in full mode when sixty updates have passed since the last one or a
    full one was forced. *)
Theorem update_sent_iff_changed `{!GrallocLaws} d rest w :
  screen_inv w → Forall (layer_fine (dev w)) (hwLayers d) → blanked (dev w) = 0 →
  ∃ ds' w' evs upd, hwc_set (Some d :: rest) w = Some (ds', w') ∧
    events w' = events w ++ evs ++ upd ++ fence_events true (glob w) ∧ Forall gralloc_event evs ∧
    ((upd = [] ∧ panel (dev w') = panel (dev w)) ∨
     (∃ e, upd = [e] ∧ update_ok (dev w) (next_full w) (panel (dev w)) (panel (dev w')) e) ∧
     ∃ x y, on_panel (dev w) x y ∧
       px (stride_bytes (dev w)) (panel (dev w)) x y ≠ px (stride_bytes (dev w)) (panel (dev w')) x y).
Proof.
  intros Hi Hls Hb. destruct (hwc_compose_spec true (Some d :: rest) w Hi Hls) as (ds' & w' & Hr & _ & Hc & _).
  unfold composed_to in Hc. simpl in Hc. rewrite Hb in Hc. simpl in Hc.
  destruct Hc as (wi & (p & m & evs & upd & Hd & He & Hev & _ & _ & _ & Hres) & HD & _ & HE).
  exists ds', w', evs, upd. split; [done|]. split; [by rewrite HE, He, <- !app_assoc|]. split; [done|].
  rewrite HD, Hd. change (panel (set_screen p p _)) with p. unfold frame_result in Hres.
  destruct (existsb _ _); [|by left]. destruct Hres as [_ [?|[? ?]]]; auto.
Qed.

(** While the display is blanked, neither [hwc_set] nor [hwc_prepare] touches
    the device (shadow, panel copy and framebuffer included) or sends an update; the only
    system call is the [dup] of the retire fence handed out by [hwc_set]. *)
Theorem blanked_leaves_hardware_alone `{!GrallocLaws} ds w :
  screen_inv w → displays_fine (dev w) ds → blanked (dev w) ≠ 0 →
  (∃ ds' w', hwc_set ds w = Some (ds', w') ∧ dev w' = dev w ∧
     (events w' = events w ∨ events w' = events w ++ [Ev_dup (glob w g_fence_src)])) ∧
  (∃ ds' w', hwc_prepare ds w = Some (ds', w') ∧ dev w' = dev w ∧ events w' = events w).
Proof.
  intros Hi Hds Hb. assert (truthy (blanked (dev w)) = true) as Ht by (unfold truthy; lia). split.
  - destruct (hwc_compose_spec true ds w Hi Hds) as (ds' & w' & Hr & _ & Hc & _). exists ds', w'.
    split; [done|]. unfold composed_to in Hc. rewrite Ht in Hc. unfold fence_events in Hc.
    destruct (primary ds); destruct Hc as [-> ->]; [|by auto]. split; [done|].
    destruct (_ && _); [by right|left; by rewrite app_nil_r].
  - destruct (hwc_prepare_spec ds w Hi Hds) as (ds' & w' & Hr & _ & [[_ (? & ? & _)]|(_ & _ & Hf)]);
      [|congruence]. by exists ds', w'.
Qed.

(** The first visible frame after unblanking repaints the whole panel: if it
    differs from what the panel shows at all, the update sent is a full one of
    the entire panel. *)
Theorem unblank_forces_full_update `{!GrallocLaws} d rest w :
  screen_inv w → Forall (layer_fine (dev w)) (hwLayers d) →
  existsb (paints (dev w)) (hwLayers d) = true →
  ∃ w1 ds' w' evs upd,
    hwc_blank 0 0 w = Some (0, w1) ∧ hwc_set (Some d :: rest) w1 = Some (ds', w') ∧
    events w' = events w ++ evs ++ upd ++ fence_events true (glob w1) ∧ Forall gralloc_event evs ∧
    ((upd = [] ∧ panel (dev w') = panel (dev w)) ∨
     upd = [Ev_update (fb_fd (dev w)) 0 0 (width (dev w)) (height (dev w)) true]) ∧
    force_full (dev w') = 0.
Proof.
  intros Hi Hls Hp. destruct (hwc_blank_tame 0 0 w) as (x & w1 & Hr1 & HT).
  pose proof (tame_inv _ _ HT Hi) as Hi1. pose proof (tame_setup _ _ HT) as HS.
  pose proof Hr1 as Hb. cbn in Hb. injection Hb as <- Hw1.
  assert (dev w1 = set_force_full 1 (set_blanked 0 (dev w)) ∧ events w1 = events w) as [HD1 HE1] by (by subst w1).
  clear Hw1. exists w1.
  destruct (hwc_compose_spec true (Some d :: rest) w1 Hi1) as (ds' & w' & Hr & _ & Hc & _).
  { eapply Forall_impl; [exact Hls|]. intros l. by apply layer_fine_setup. }
  unfold composed_to in Hc. simpl in Hc. rewrite HD1 in Hc. simpl in Hc.
  destruct Hc as (wi & (p & m & evs & upd & Hd & He & Hev & _ & _ & _ & Hres) & HD & _ & HE).
  assert (existsb (paints (dev w1)) (hwLayers d) = true) as Hp1 by (by rewrite HD1).
  assert (next_full w1 = true) as HN by (unfold next_full; rewrite HD1; apply orb_true_r).
  rewrite Hp1 in Hd. unfold frame_result in Hres. rewrite Hp1, HN, HD1 in Hres.
  exists ds', w', evs, upd. rewrite HE1 in He.
  split_and!; [done|done|by rewrite HE, He, <- !app_assoc|done| |by rewrite HD, Hd].
  rewrite HD, Hd, HD1. destruct Hres as [_ [[-> ->]|[_ (e & -> & Hu)]]]; [by left|right].
  destruct Hu as (l & t & wd & ht & -> & _ & _ & _ & Hfull & _). destruct Hfull as (-> & -> & -> & ->); done.
Qed.

(** The layers after [hwc_prepare]: composed by the hwcomposer, otherwise as
    they were. *)
Definition claimed (l l' : hwc_layer_1_t) : Prop :=
  (compositionType l' = HWC_OVERLAY ∨ compositionType l' = HWC_BACKGROUND ∨
   compositionType l' = HWC_FRAMEBUFFER_TARGET) ∧
  layer_handle l' = layer_handle l ∧ transform l' = transform l ∧ blending l' = blending l ∧
  sourceCropi l' = sourceCropi l ∧ displayFrame l' = displayFrame l.

Definition display_claimed (o o' : option hwc_display_contents_1_t) : Prop :=
  match o, o' with
  | None, None => True
  | Some d, Some d' => Forall2 claimed (hwLayers d) (hwLayers d')
  | _, _ => False
  end.

Lemma mark_overlay_claimed l fd : claimed l (mark_overlay l) ∧ claimed l (set_release_fence fd (mark_overlay l)).
Proof.
  unfold claimed, mark_overlay. destruct (compositionType l) eqn:E; simpl; rewrite ?E; split_and!; auto.
Qed.

(** [hwc_prepare] leaves no layer to the GPU: every layer of every display is
    an overlay, a background or the framebuffer target afterwards, with its buffer, geometry
    and blending as they were, also when the frame is composed right away because
    [set] has gone missing. *)
Theorem prepare_claims_every_layer `{!GrallocLaws} ds w :
  screen_inv w → displays_fine (dev w) ds →
  ∃ ds' w', hwc_prepare ds w = Some (ds', w') ∧ Forall2 display_claimed ds ds'.
Proof.
  intros Hi Hds. destruct (hwc_prepare_spec ds w Hi Hds) as (ds' & w' & Hr & _ & Hc).
  exists ds', w'. split; [done|].
  assert (fences_set (mark_displays ds) ds') as Hf.
  { destruct Hc as [[-> _]|(_ & ? & _)]; [|done]. clear. unfold fences_set.
    induction (mark_displays ds) as [|[d|] l IH]; constructor; simpl; auto. }
  unfold mark_displays in Hf. clear -Hf. revert ds' Hf. induction ds as [|o ds IH]; intros ds' Hf.
  - apply Forall2_nil_inv_l in Hf as ->. constructor.
  - apply Forall2_cons_inv_l in Hf as (o' & ds1 & Ho & Hds & ->). constructor; [|by apply IH].
    destruct o as [d|], o' as [d'|]; simpl in *; try done.
    destruct Ho as [-> | ->]; [|rewrite <- list_fmap_compose]; apply Forall2_fmap_r, Forall_Forall2_diag,
      Forall_forall; intros l _; apply (mark_overlay_claimed l (-1)).
Qed.

(** The rectangle the composer remembers (as the part of the panel the
    previous frame painted) never shrinks: once a pixel is in it, it stays in it after
    every further frame, so the region that is compared and updated is the union
    of all frames shown so far. *)
Theorem remembered_region_never_shrinks `{!GrallocLaws} d rest w x y :
  screen_inv w → Forall (layer_fine (dev w)) (hwLayers d) → blanked (dev w) = 0 →
  panel_region (dev w) (region_of (glob w)) → in_region (region_of (glob w)) x y →
  ∃ ds' w', hwc_set (Some d :: rest) w = Some (ds', w') ∧ in_region (region_of (glob w')) x y.
Proof.
  intros Hi Hls Hb Hr Hin. destruct (hwc_compose_spec true (Some d :: rest) w Hi Hls) as (ds' & w' & Hrun & _ & Hc & _).
  exists ds', w'. split; [done|]. unfold composed_to in Hc. simpl in Hc. rewrite Hb in Hc. simpl in Hc.
  destruct Hc as (wi & (p & m & evs & upd & _ & _ & _ & _ & _ & Hg & _) & _ & HG & _).
  rewrite (control_region _ _ HG).
  by apply Hg.
Qed.

Lemma deliver_vsync_run t w :
  let vs := match procs (dev w) with Some p => procs_vsync p | None => false end in
  ∃ w', deliver_vsync t w = Some ((), w') ∧ procs (dev w') = procs (dev w) ∧
    blanked (dev w') = blanked (dev w) ∧ clock_reads w' = clock_reads w ∧
    glob w' g_last_change_us = glob w g_last_change_us ∧ glob w' g_last_set_us = glob w g_last_set_us ∧
    events w' = events w ++ (if vs then [Ev_vsync t] else []) ∧
    (vs = true → vsync_requested (dev w') = 0).
Proof.
  unfold deliver_vsync. erewrite bind_run by reflexivity.
  destruct (procs (dev w)) as [[[] i]|] eqn:E; simpl; eexists; (split; [reflexivity|]); simpl;
    rewrite ?app_nil_r; by split_and!.
Qed.

(** The condition under which a round of the thread asks for a frame. *)
Definition wants_nudge (w : world) : bool :=
  let now := u32 (clock_us (clock_reads w)) in
  let inv := match procs (dev w) with Some p => procs_invalidate p | None => false end in
  (blanked (dev w) =? 0) && inv && truthy (glob w g_last_change_us) &&
  (u32 (now - glob w g_last_change_us) <? EINK_NUDGE_IDLE_US) &&
  (EINK_NUDGE_QUIET_US <? u32 (now - glob w g_last_set_us)).

Lemma nudge_run w :
  ∃ w', nudge w = Some ((), w') ∧ dev w' = dev w ∧
    events w' = events w ++ (if wants_nudge w then [Ev_invalidate] else []).
Proof.
  unfold nudge, wants_nudge. do 3 (erewrite bind_run by reflexivity; cbv beta). unfold truthy at 1. rewrite negb_involutive.
  destruct (procs (dev w)) as [p|]; [|by rewrite andb_false_r; exists w; rewrite app_nil_r].
  destruct ((blanked (dev w) =? 0) && procs_invalidate p && truthy _); simpl; [|by exists w; rewrite app_nil_r].
  erewrite bind_run by reflexivity; cbv beta. destruct (_ && _); eexists; (split; [reflexivity|]); simpl;
    by rewrite ?app_nil_r.
Qed.

(** One round of the running vsync thread delivers exactly one vsync event if the
    callback is registered, and asks for a new frame exactly when the display is
    on, the invalidate callback is registered, a frame changed the panel less than three
    seconds ago and none was composed in the last fifth of a second. *)
Theorem vsync_round_events w :
  stop_vsync (dev w) = 0 →
  let n := clock_reads w in
  let g := glob w in
  let now := u32 (clock_us (S n)) in
  let vs := match procs (dev w) with Some p => procs_vsync p | None => false end in
  let inv := match procs (dev w) with Some p => procs_invalidate p | None => false end in
  ∃ w', vsync_tick w = Some (true, w') ∧
    events w' = events w ++ (if vs then [Ev_vsync (clock_ns n)] else []) ++
      (if (blanked (dev w) =? 0) && inv && truthy (g g_last_change_us) &&
          (u32 (now - g g_last_change_us) <? 3000000) && (200000 <? u32 (now - g g_last_set_us))
       then [Ev_invalidate] else []) ∧
    (vs = true → vsync_requested (dev w') = 0).
Proof.
  intros Hs n g now vs inv. unfold vsync_tick. erewrite bind_run by reflexivity. rewrite Hs.
  change (truthy 0) with false. cbv beta iota.
  set (w1 := World (dev w) (glob w) (events w) (S n)). rewrite (bind_run _ _ w n w1) by reflexivity.
  destruct (deliver_vsync_run (clock_ns n) w1) as (w2 & Hr2 & HP & HB & HC & HG1 & HG2 & HE2 & HV).
  rewrite (bind_run _ _ _ _ _ Hr2). destruct (nudge_run w2) as (w3 & Hr3 & HD3 & HE3).
  rewrite (bind_run _ _ _ _ _ Hr3). exists w3. split; [reflexivity|]. rewrite HD3. split; [|exact HV].
  rewrite HE3, HE2, <- app_assoc. unfold wants_nudge. by rewrite HP, HB, HC, HG1, HG2.
Qed.

End Properties.

(** ** A concrete panel *)
Module FrameDemo.

(** Sixteen by two pixels, all black at the start. *)
Definition hw : eink_hwc_t :=
  EinkHwc true true 3 (replicate 64 0) (replicate 64 0) (replicate 64 0) 64 16 2 16 2 32 2
    (Some (Procs true true)) 0 0 0 0 0.

#[local] Instance clk : HwcEnv := {|
  clock_us n := 1000000 + 1000 * Z.of_nat n;
  clock_ns n := 1000000000 + 1000000 * Z.of_nat n;
  dup_result n fd := 100 + Z.of_nat n |}.

(** Buffer 1: one row of eight black RGBX pixels. *)
#[local] Instance gr : GrallocIf := {|
  query_fn h := if h =? 1 then Some (8, 1, 8, HAL_PIXEL_FORMAT_RGBX_8888) else None;
  lock h _ _ _ _ := (0, Some (replicate 32 0)) |}.

#[local] Instance gr_laws : GrallocLaws.
Proof.
  split; [|by intros; eexists]. intros h l t w ht sw sh st f m. simpl.
  destruct (h =? 1); [|done]. intros [= <- <- <- <-] [= <-]. simpl. split_and!; [lia..|bytes].
Qed.

Definition w0 : world := World hw (set_var g_fence_src 9 statics_init) [] 0.

(** The first [cw] pixels of the buffer in a frame of width [fw] at column [x]. *)
Definition layer (x cw fw : Z) : hwc_layer_1_t :=
  Layer HWC_FRAMEBUFFER 0 1 HWC_TRANSFORM_NONE HWC_BLENDING_NONE (Rect 0 0 cw 1) (Rect x 0 (x + fw) 1) (-1) (0, 0, 0).

Definition display (x cw fw : Z) : hwc_display_contents_1_t := Display (-1) [layer x cw fw].

Lemma w0_inv : screen_inv w0.
Proof.
  split; simpl; [unfold hw_ok; simpl; lia|split; [done|bytes]|split; [done|bytes]|done|].
  left. vm_compute. done.
Qed.

Lemma layer_ok : Forall (layer_fine hw) [layer 3 4 4].
Proof.
  constructor; [|done]. right. right. split; [|split; [by unfold unscaled|unfold layer_small, rect_small; simpl; lia]].
  intros [_ Hn]. vm_compute in Hn. by destruct Hn as [? _].
Qed.

Lemma hwc_ops_keep_screen_inv_witness :
  ∃ w', hwc_run [Do_prepare [Some (display 3 4 4)]; Do_set [Some (display 3 4 4)]; Do_blank 0 1;
                 Do_set [Some (display 3 4 4)]; Do_tick] w0 = Some w' ∧ screen_inv w'.
Proof.
  apply (hwc_ops_keep_screen_inv _ w0 w0_inv).
  repeat (constructor; [by first [exact layer_ok | exact I]|]). constructor.
Defined.


Lemma update_sent_iff_changed_witness :
  ∃ ds' w' evs upd, hwc_set [Some (display 3 4 4)] w0 = Some (ds', w') ∧
    events w' = [] ++ evs ++ upd ++ [Ev_dup 9] ∧
    (upd = [] ∨ ∃ e, upd = [e]).
Proof.
  destruct (update_sent_iff_changed (display 3 4 4) [] w0 w0_inv layer_ok)
    as (ds' & w' & evs & upd & Hr & He & _ & Hu); [done|].
  exists ds', w', evs, upd. split; [exact Hr|]. split; [exact He|].
  destruct Hu as [[-> _]|[(e & -> & _) _]]; eauto.
Defined.

Definition w_blank : world := World (set_blanked 1 hw) (glob w0) [] 0.

Lemma w_blank_inv : screen_inv w_blank.
Proof. destruct w0_inv. split; done. Qed.

Lemma blanked_leaves_hardware_alone_witness :
  blanked (dev w_blank) ≠ 0 ∧
  ∃ ds' w', hwc_prepare [Some (display 3 4 4)] w_blank = Some (ds', w') ∧ dev w' = dev w_blank ∧ events w' = [].
Proof.
  split; [done|].
  apply (blanked_leaves_hardware_alone [Some (display 3 4 4)] w_blank w_blank_inv layer_ok). done.
Defined.

Lemma unblank_forces_full_update_witness :
  ∃ w1 ds' w' evs upd, hwc_blank 0 0 w_blank = Some (0, w1) ∧
    hwc_set [Some (display 3 4 4)] w1 = Some (ds', w') ∧ events w' = [] ++ evs ++ upd ++ [Ev_dup 9].
Proof.
  destruct (unblank_forces_full_update (display 3 4 4) [] w_blank w_blank_inv layer_ok)
    as (w1 & ds' & w' & evs & upd & Hb & Hr & He & _); [done|].
  exists w1, ds', w', evs, upd. split_and!; [exact Hb|exact Hr|].
  etransitivity; [exact He|]. cbn in Hb. injection Hb as <-. reflexivity.
Defined.

Lemma prepare_claims_every_layer_witness :
  ∃ ds' w', hwc_prepare [Some (display 3 4 4); None] w0 = Some (ds', w') ∧
    Forall2 display_claimed [Some (display 3 4 4); None] ds'.
Proof. exact (prepare_claims_every_layer [Some (display 3 4 4); None] w0 w0_inv layer_ok). Defined.

(** The state after a first frame. *)
Definition w1 : world := match hwc_run [Do_set [Some (display 3 4 4)]] w0 with Some w => w | None => w0 end.

Lemma w1_inv : screen_inv w1.
Proof.
  destruct (hwc_run_inv [Do_set [Some (display 3 4 4)]] w0 w0_inv) as (w' & Hr & Hi).
  - constructor; [exact layer_ok|done].
  - unfold w1. by rewrite Hr.
Qed.

Lemma remembered_region_never_shrinks_witness :
  ∃ ds' w', hwc_set [Some (Display (-1) [])] w1 = Some (ds', w') ∧ in_region (region_of (glob w')) 6 0.
Proof.
  apply (remembered_region_never_shrinks (Display (-1) []) [] w1 6 0 w1_inv);
    [constructor|vm_compute; reflexivity|vm_compute; intuition discriminate|vm_compute; intuition discriminate].
Defined.

Lemma vsync_round_events_witness :
  ∃ w', vsync_tick w0 = Some (true, w') ∧ events w' = [Ev_vsync 1000000000].
Proof.
  destruct (vsync_round_events w0) as (w' & Hr & He & _); [reflexivity|].
  exists w'. split; [exact Hr|]. etransitivity; [exact He|vm_compute; reflexivity].
Defined.

End FrameDemo.

(** A layer whose crop is larger than its display frame is copied one to one
    beyond the frame, but only the frame enters the updated region: after a
    second such frame the shadow is black at column 8 of the first row, as the
    layer list prescribes, and the panel still shows the white of the first frame. *)
Theorem oversized_crop_missed_by_update :
  let gr := FrameDemo.gr in
  let clk := FrameDemo.clk in
  ∃ w', hwc_run [Do_set [Some (FrameDemo.display 3 4 4)]; Do_set [Some (FrameDemo.display 3 8 4)]]
          FrameDemo.w0 = Some w' ∧
    frame_px FrameDemo.hw [FrameDemo.layer 3 8 4] 8 0 = 0 ∧
    px 32 (shadow (dev w')) 8 0 = 0 ∧ px 32 (panel (dev w')) 8 0 = 0xffff.
Proof. eexists. split; [vm_compute; reflexivity|]. vm_compute. done. Qed.
