(* ===== verification/HwcOpen.v ===== *)
(** * The e-ink hwcomposer: opening and closing the device

    Model of [hwc_device_open] and [hwc_close] of
    [gralloc_eink/src/hwcomposer_eink.c].  The system calls are answered by an
    environment; the calls that acquire and release resources are recorded in
    order. *)
From stdpp Require Import strings.
From S2P Require Import Prelude Pixel Compose ComposeSpec ComposeProps Hwc HwcSpec HwcInv.

(** Acquisitions and releases; [free(NULL)] and a failed acquisition leave no
    trace. *)
Inductive rcall :=
| RC_malloc (p : Z) | RC_free (p : Z)
| RC_open (fd : Z) | RC_close (fd : Z)
| RC_mmap | RC_munmap
| RC_thread_start | RC_thread_join.

#[export] Instance rcall_eq_dec : EqDecision rcall.
Proof. solve_decision. Defined.

(** The answers of the system: addresses from [malloc] (0 for failure), file
    descriptors (negative for failure), the screen information ([None] when the ioctl
    fails), the mapped framebuffer, and the symbols found. *)
Record open_env := OpenEnv {
  e_composer : string;
  e_hw : Z;
  e_fd : Z;
  e_vinfo : option (Z * Z * Z);
  e_line_length : option Z;
  e_mmap : option (list Z);
  e_shadow : Z; e_shadow_bytes : list Z;
  e_panel : Z;
  e_dlopen : bool; e_gralloc_sym : bool; e_query_sym : bool;
  e_sw_sync : Z; e_dev_null : Z }.

Definition malloc_call (p : Z) : list rcall := if p =? 0 then [] else [RC_malloc p].
Definition free_call (p : Z) : list rcall := if p =? 0 then [] else [RC_free p].
Definition open_call (fd : Z) : list rcall := if fd <? 0 then [] else [RC_open fd].

(** The fence descriptor: the sync device, or else the null device. *)
Definition open_fence (e : open_env) : Z := if e_sw_sync e <? 0 then e_dev_null e else e_sw_sync e.

(** The device structure after a successful open. *)
Definition opened_hw (e : open_env) (xres yres bits line : Z) (fb : list Z) : eink_hwc_t :=
  EinkHwc (e_dlopen e && e_gralloc_sym e) (e_dlopen e && e_query_sym e) (e_fd e) fb (e_shadow_bytes e) fb
    (u32 (line * yres)) xres yres xres yres line (bits / 8) None 0 0 0 0 0.

(** The failure branch after the two allocations: [panel] is freed twice. *)
Definition release_all (e : open_env) : list rcall :=
  free_call (e_shadow e) ++ free_call (e_panel e) ++ free_call (e_panel e) ++
  [RC_munmap; RC_close (e_fd e); RC_free (e_hw e)].

(** The return value, the opened device with the fence descriptor, and the calls. *)
Definition hwc_device_open (name : string) (e : open_env) : Z * option (eink_hwc_t * Z) * list rcall :=
  if decide (name ≠ e_composer e) then (- Errno.EINVAL, None, []) else
  if e_hw e =? 0 then (- Errno.ENOMEM, None, []) else
  let tr := malloc_call (e_hw e) ++ open_call (e_fd e) in
  if e_fd e <? 0 then (- Errno.ENODEV, None, tr ++ [RC_free (e_hw e)]) else
  match e_vinfo e, e_line_length e with
  | Some (xres, yres, bits), Some line =>
    match e_mmap e with
    | None => (- Errno.ENODEV, None, tr ++ [RC_close (e_fd e); RC_free (e_hw e)])
    | Some fb =>
      let tr := tr ++ RC_mmap :: malloc_call (e_shadow e) ++ malloc_call (e_panel e) in
      if (e_shadow e =? 0) || (e_panel e =? 0) then (- Errno.ENOMEM, None, tr ++ release_all e)
      else (0, Some (opened_hw e xres yres bits line fb, open_fence e),
            tr ++ open_call (open_fence e) ++ [RC_thread_start])
    end
  | _, _ => (- Errno.ENODEV, None, tr ++ [RC_close (e_fd e); RC_free (e_hw e)])
  end.

(** [hwc_close] on the device opened with [e]. *)
Definition hwc_close (e : open_env) : Z * list rcall :=
  (0, [RC_thread_join; RC_munmap] ++ free_call (e_shadow e) ++ free_call (e_panel e) ++
      (if 0 <=? e_fd e then [RC_close (e_fd e)] else []) ++ free_call (e_hw e)).

(** ** Properties *)

(** The release that belongs to an acquisition. *)
Definition release_of (c : rcall) : option rcall :=
  match c with
  | RC_malloc p => Some (RC_free p)
  | RC_open fd => Some (RC_close fd)
  | RC_mmap => Some RC_munmap
  | RC_thread_start => Some RC_thread_join
  | _ => None
  end.

Definition occurrences (c : rcall) (tr : list rcall) : nat :=
  foldr (λ x n, if decide (x = c) then S n else n) O tr.

(** Every acquired resource is released exactly once. *)
Definition all_released (tr : list rcall) : bool :=
  forallb (λ c, match release_of c with Some r => (occurrences r tr =? 1)%nat | None => true end) tr.

(** The answers are distinct objects. *)
Definition env_distinct (e : open_env) : Prop :=
  e_hw e ≠ e_shadow e ∧ e_hw e ≠ e_panel e ∧ (e_shadow e ≠ e_panel e ∨ e_shadow e = 0).

(** Evaluates occurrence counts of a concrete list of calls. *)
#[local] Ltac count_calls :=
  unfold all_released, occurrences, release_of; cbn [foldr forallb app];
  repeat (case_decide; simplify_eq; try done; try lia).

(** When [hwc_device_open] fails it returns no device and has released every
    resource it acquired exactly once, except in one case: when the shadow
    buffer could not be allocated but the panel copy could, the panel copy is
    freed twice. *)
Theorem device_open_failure_releases name e rc r tr :
  hwc_device_open name e = (rc, r, tr) → rc ≠ 0 → env_distinct e →
  r = None ∧
  (occurrences (RC_free (e_panel e)) tr = 2%nat ↔
     e_shadow e = 0 ∧ e_panel e ≠ 0 ∧ name = e_composer e ∧ e_hw e ≠ 0 ∧ 0 ≤ e_fd e ∧
     is_Some (e_vinfo e) ∧ is_Some (e_line_length e) ∧ is_Some (e_mmap e)) ∧
  (occurrences (RC_free (e_panel e)) tr ≠ 2%nat → all_released tr = true).
Proof.
  intros Hop Hrc (Hd1 & Hd2 & Hd3). unfold hwc_device_open, release_all, malloc_call, free_call, open_call in Hop.
  destruct (decide (name ≠ e_composer e)) as [Hn|Hn].
  { simplify_eq. split_and!; [done| |done]. split; [done|]. intros (_ & _ & ? & _). done. }
  apply dec_stable in Hn. destruct (Z.eqb_spec (e_hw e) 0) as [Hh|Hh].
  { simplify_eq. split_and!; [done| |done]. split; [done|]. intros (_ & _ & _ & ? & _). done. }
  destruct (Z.ltb_spec (e_fd e) 0) as [Hf|Hf].
  { simplify_eq. split_and!; [done| |by count_calls]. split; [by count_calls|].
    intros (_ & _ & _ & _ & ? & _). lia. }
  destruct (e_vinfo e) as [[[xres yres] bits]|] eqn:Ev; cycle 1.
  { simplify_eq. split_and!; [done| |by count_calls]. split; [by count_calls|].
    intros (_ & _ & _ & _ & _ & [? ?] & _). done. }
  destruct (e_line_length e) as [line|] eqn:El; cycle 1.
  { simplify_eq. split_and!; [done| |by count_calls]. split; [by count_calls|].
    intros (_ & _ & _ & _ & _ & _ & [? ?] & _). done. }
  destruct (e_mmap e) as [fb|] eqn:Em; cycle 1.
  { simplify_eq. split_and!; [done| |by count_calls]. split; [by count_calls|].
    intros (_ & _ & _ & _ & _ & _ & _ & [? ?]). done. }
  destruct (Z.eqb_spec (e_shadow e) 0) as [Hs|Hs], (Z.eqb_spec (e_panel e) 0) as [Hp|Hp]; simpl in Hop; simplify_eq.
  - split_and!; [done| |by count_calls]. split; [by count_calls|]. by intros (_ & ? & _).
  - split_and!; [done| |]; [|by count_calls]. split; [by eauto 10|]. intros _. by count_calls.
  - split_and!; [done| |by count_calls]. split; [by count_calls|]. by intros (? & _).
Qed.

(** Opening the device on a 16-bit framebuffer whose rows fit their stride
    yields a state in which the invariant of the composer holds: the panel copy is
    what the framebuffer shows, and the first visible frame will be a full
    update. *)
Theorem device_open_establishes_inv name e rc hw fence tr :
  hwc_device_open name e = (rc, Some (hw, fence), tr) →
  (∀ xres yres bits line fb, e_vinfo e = Some (xres, yres, bits) → e_line_length e = Some line →
     e_mmap e = Some fb →
     0 < xres ∧ 0 < yres ∧ 2 * xres ≤ line < 2 ^ 31 ∧ line * yres < 2 ^ 32 ∧ bits = 16 ∧
     zlen fb = line * yres ∧ Forall is_byte fb ∧
     zlen (e_shadow_bytes e) = line * yres ∧ Forall is_byte (e_shadow_bytes e)) →
  rc = 0 ∧
  let w := World hw (set_var g_fence_src fence statics_init) [] 0 in
  screen_inv w ∧ next_full w = true.
Proof.
  intros Hop He. unfold hwc_device_open in Hop.
  destruct (decide _); [done|]. destruct (e_hw e =? 0); [done|]. destruct (e_fd e <? 0); [done|].
  destruct (e_vinfo e) as [[[xres yres] bits]|]; [|done]. destruct (e_line_length e) as [line|]; [|done].
  destruct (e_mmap e) as [fb|]; [|done]. destruct (_ || _); [done|]. injection Hop as <- <- <- <-.
  destruct (He _ _ _ _ _ eq_refl eq_refl eq_refl) as (? & ? & [? ?] & ? & -> & ? & ? & ? & ?).
  split; [done|]. assert (u32 (line * yres) = line * yres) as Hu by (apply wrap_small; nia).
  split; [|done]. split; cbn [dev glob]; unfold hw_ok, frame_ok, opened_hw; cbn; rewrite ?Hu.
  - split_and!; [done..|lia].
  - done.
  - done.
  - done.
  - left. split; [done|]. vm_compute. done.
Qed.

(** ** A concrete system *)
Module OpenDemo.

Definition env (shadow : Z) : open_env :=
  OpenEnv "composer" 4096 5 (Some (4, 2, 16)) (Some 8) (Some (replicate 16 0)) shadow (replicate 16 0) 12288
    true true true (-1) 7.

(** The shadow buffer cannot be allocated. *)
Lemma device_open_failure_releases_witness :
  ∃ tr, hwc_device_open "composer" (env 0) = (- Errno.ENOMEM, None, tr) ∧
        occurrences (RC_free 12288) tr = 2%nat.
Proof.
  eexists. split; [reflexivity|].
  apply (device_open_failure_releases "composer" (env 0) (- Errno.ENOMEM) None _ eq_refl); [done| |].
  - split_and!; [done|done|by right].
  - by split_and!.
Defined.

Lemma device_open_establishes_inv_witness :
  let w := World (opened_hw (env 8192) 4 2 16 8 (replicate 16 0)) (set_var g_fence_src 7 statics_init) [] 0 in
  screen_inv w ∧ next_full w = true.
Proof.
  destruct (device_open_establishes_inv "composer" (env 8192) 0
    (opened_hw (env 8192) 4 2 16 8 (replicate 16 0)) 7 _ eq_refl) as [_ Hw]; [|exact Hw].
  intros ? ? ? ? ? [= <- <- <-] [= <-] [= <-]. simpl. split_and!; try lia; try done; bytes.
Defined.
End OpenDemo.
