(* ===== verification/Bio.v ===== *)
(** * Servicemanager: the message buffers

    Model of the [bio_*] functions of [servicemanager/binder.c].  A
    [binder_io] is the block of bytes starting at [data0] with a position, and
    the array of object offsets starting at [offs0] with an index; the two
    areas of [bio_init] do not overlap.  All sizes are [uint32_t] and wrap around.  A
    pointer into the block is an offset, [NULL] is [None]; an access outside
    the block is a fault. *)
From S2P Require Import Prelude.

(** Constants of the kernel's binder header the program uses. *)
Class BinderTypes := {
  BINDER_TYPE_BINDER : Z;
  BINDER_TYPE_HANDLE : Z;
  FLAT_BINDER_FLAG_ACCEPTS_FDS : Z }.

Definition BIO_F_SHARED : Z := 1.
Definition BIO_F_OVERFLOW : Z := 2.
Definition BIO_F_IOERROR : Z := 4.
Definition BIO_F_MALLOCED : Z := 8.

Definition MAX_BIO_SIZE : Z := 2 ^ 30.

Record binder_io := Bio {
  bio_mem : list Z;
  bio_pos : Z;
  data_avail : Z;
  bio_offs : list Z;
  offs_pos : Z;
  offs_avail : Z;
  bio_flags : Z }.

Definition set_overflow (b : binder_io) : binder_io :=
  Bio (bio_mem b) (bio_pos b) (data_avail b) (bio_offs b) (offs_pos b) (offs_avail b)
    (bio_flags b ||| BIO_F_OVERFLOW).

Definition set_mem (m : list Z) (b : binder_io) : binder_io :=
  Bio m (bio_pos b) (data_avail b) (bio_offs b) (offs_pos b) (offs_avail b) (bio_flags b).

(** [bio->data += size; bio->data_avail -= size]. *)
Definition advance (size : Z) (b : binder_io) : binder_io :=
  Bio (bio_mem b) (bio_pos b + size) (data_avail b - size) (bio_offs b) (offs_pos b) (offs_avail b)
    (bio_flags b).

(** [(size + 3) & ~3] *)
Definition round4 (size : Z) : Z := u32 (size + 3) &&& Z.lnot 3.

(** ** Initialisation *)

Definition bio_init_from_txn (mem offs : list Z) (data_size offs_size : Z) : binder_io :=
  Bio mem 0 data_size offs 0 (offs_size / 4) BIO_F_SHARED.

(** [data] is the caller's buffer of [maxdata] bytes; the offsets come first. *)
Definition bio_init (b : binder_io) (data : list Z) (maxdata maxoffs : Z) : binder_io :=
  let n := u32 (maxoffs * 4) in
  if maxdata <? n then
    Bio (bio_mem b) (bio_pos b) 0 (bio_offs b) (offs_pos b) 0 BIO_F_OVERFLOW
  else
    Bio (drop (Z.to_nat n) data) 0 (maxdata - n) (replicate (Z.to_nat maxoffs) 0) 0 maxoffs 0.

(** ** Writing *)

Definition bio_alloc (b : binder_io) (size : Z) : option Z * binder_io :=
  let size := round4 size in
  if data_avail b <? size then (None, set_overflow b)
  else (Some (bio_pos b), advance size b).

(** The offset of a new object, recorded in the offsets array. *)
Definition bio_alloc_obj (b : binder_io) : option (option Z * binder_io) :=
  let '(obj, b) := bio_alloc b 16 in
  match obj with
  | Some p =>
    if truthy (offs_avail b) then
      if decide (0 ≤ offs_pos b < zlen (bio_offs b)) then
        Some (Some p, Bio (bio_mem b) (bio_pos b) (data_avail b)
                        (<[Z.to_nat (offs_pos b) := p]> (bio_offs b)) (offs_pos b + 1) (u32 (offs_avail b - 1))
                        (bio_flags b))
      else None
    else Some (None, set_overflow b)
  | None => Some (None, set_overflow b)
  end.

(** A store of bytes at an offset of the block. *)
Definition bio_store (b : binder_io) (p : Z) (bs : list Z) : option binder_io :=
  m ← mem_write (bio_mem b) p bs; Some (set_mem m b).

Definition bio_put_uint32 (b : binder_io) (n : Z) : option binder_io :=
  match bio_alloc b 4 with
  | (Some p, b) => bio_store b p (le_encode 4 n)
  | (None, b) => Some b
  end.

Section Objects.
Context `{BinderTypes}.

(** The bytes of a [binder_object]: type, flags, pointer, cookie. *)
Definition object_bytes (type ptr : Z) : list Z :=
  le_encode 4 type ++ le_encode 4 (0x7f ||| FLAT_BINDER_FLAG_ACCEPTS_FDS) ++ le_encode 4 ptr ++ le_encode 4 0.

Definition bio_put_obj (b : binder_io) (ptr : Z) : option binder_io :=
  '(obj, b) ← bio_alloc_obj b;
  match obj with
  | Some p => bio_store b p (object_bytes BINDER_TYPE_BINDER ptr)
  | None => Some b
  end.

(** A null reference takes space but is not recorded as an object. *)
Definition bio_put_ref (b : binder_io) (ptr : Z) : option binder_io :=
  '(obj, b) ← (if truthy ptr then bio_alloc_obj b else Some (bio_alloc b 16));
  match obj with
  | Some p => bio_store b p (object_bytes BINDER_TYPE_HANDLE ptr)
  | None => Some b
  end.

(** 16-bit characters as bytes. *)
Definition utf16 (s : list Z) : list Z := flat_map (le_encode 2) s.

(** [str] is a null pointer or the characters before the terminator. *)
Definition bio_put_string16 (b : binder_io) (str : option (list Z)) : option binder_io :=
  match str with
  | None => bio_put_uint32 b 0xffffffff
  | Some s =>
    let len := u32 (zlen s) in
    if MAX_BIO_SIZE / 2 <=? len then bio_put_uint32 b 0xffffffff
    else
      b ← bio_put_uint32 b len;
      let len := u32 ((len + 1) * 2) in
      match bio_alloc b len with
      | (Some p, b) => bio_store b p (utf16 (s ++ [0]))
      | (None, b) => Some b
      end
  end.

(** The same from 8-bit characters, each widened. *)
Definition bio_put_string16_x (b : binder_io) (str : option (list Z)) : option binder_io :=
  match str with
  | None => bio_put_uint32 b 0xffffffff
  | Some s =>
    let len := u32 (zlen s) in
    if MAX_BIO_SIZE / 2 <=? len then bio_put_uint32 b 0xffffffff
    else
      b ← bio_put_uint32 b len;
      match bio_alloc b (u32 ((len + 1) * 2)) with
      | (Some p, b) => bio_store b p (utf16 (s ++ [0]))
      | (None, b) => Some b
      end
  end.

(** ** Reading *)

Definition bio_get (b : binder_io) (size : Z) : option Z * binder_io :=
  let size := round4 size in
  if data_avail b <? size then
    (None, Bio (bio_mem b) (bio_pos b) 0 (bio_offs b) (offs_pos b) (offs_avail b)
             (bio_flags b ||| BIO_F_OVERFLOW))
  else (Some (bio_pos b), advance size b).

(** A 32-bit load from the block. *)
Definition load32 (m : list Z) (p : Z) : option Z := bs ← mem_read m p 4; Some (le_decode bs).

Definition bio_get_uint32 (b : binder_io) : option (Z * binder_io) :=
  match bio_get b 4 with
  | (Some p, b) => n ← load32 (bio_mem b) p; Some (n, b)
  | (None, b) => Some (0, b)
  end.

(** The pointer, the length stored through [sz], and the buffer. *)
Definition bio_get_string16 (b : binder_io) : option (option Z * Z * binder_io) :=
  '(len, b) ← bio_get_uint32 b;
  let '(p, b) := bio_get b (u32 (u32 (len + 1) * 2)) in
  Some (p, len, b).

(** The loop over the offsets: is one of the next [offs_avail] entries [off]? *)
Fixpoint find_off (offs : list Z) (n : nat) (off : Z) : option bool :=
  match n with
  | O => Some false
  | S n =>
    match offs with
    | o :: offs => if o =? off then Some true else find_off offs n off
    | [] => None
    end
  end.

Definition bio_get_obj (b : binder_io) : option (option Z * binder_io) :=
  found ← find_off (drop (Z.to_nat (offs_pos b)) (bio_offs b)) (Z.to_nat (offs_avail b)) (u32 (bio_pos b));
  if found : bool then Some (bio_get b 16)
  else Some (None, Bio (bio_mem b) (bio_pos b) 0 (bio_offs b) (offs_pos b) (offs_avail b)
                     (bio_flags b ||| BIO_F_OVERFLOW)).

Definition bio_get_ref (b : binder_io) : option (Z * binder_io) :=
  '(obj, b) ← bio_get_obj b;
  match obj with
  | None => Some (0, b)
  | Some p =>
    type ← load32 (bio_mem b) p;
    if type =? BINDER_TYPE_HANDLE then ptr ← load32 (bio_mem b) (p + 8); Some (ptr, b) else Some (0, b)
  end.

End Objects.
