(* ===== verification/BioProps.v ===== *)
(** * Servicemanager: properties of the message buffers

    No operation leaves its buffer, and what was written without overflow is read back. *)
From S2P Require Import Prelude Bio.

(** ** Well-formed buffers *)

Record bio_ok (b : binder_io) : Prop := {
  ok_pos : 0 ≤ bio_pos b;
  ok_avail : 0 ≤ data_avail b;
  ok_data : bio_pos b + data_avail b ≤ zlen (bio_mem b) < 2 ^ 32;
  ok_opos : 0 ≤ offs_pos b;
  ok_oavail : 0 ≤ offs_avail b;
  ok_offs : offs_pos b + offs_avail b ≤ zlen (bio_offs b) < 2 ^ 32 }.

Lemma land_lnot_3 n : n &&& Z.lnot 3 = n - n mod 4.
Proof. exact (land_lnot_mask n 2 ltac:(lia)). Qed.

Lemma round4_eq size : 0 ≤ size < 2 ^ 32 - 3 → round4 size = 4 * ((size + 3) / 4).
Proof. intros Hs. unfold round4. rewrite wrap_small, land_lnot_3 by lia. divmod. Qed.

Lemma round4_nonneg size : 0 ≤ round4 size < 2 ^ 32.
Proof. unfold round4. rewrite land_lnot_3. pose proof (wrap_range 32 (size + 3)). divmod. Qed.

Lemma set_overflow_ok b : bio_ok b → bio_ok (set_overflow b).
Proof. intros []. by split. Qed.

Lemma advance_ok size b : 0 ≤ size ≤ data_avail b → bio_ok b → bio_ok (advance size b).
Proof. intros Hs []. split; simpl; lia. Qed.

Lemma set_mem_ok m b : zlen m = zlen (bio_mem b) → bio_ok b → bio_ok (set_mem m b).
Proof. intros Hm []. split; simpl; lia. Qed.

(** Allocation: inside the block, or an overflow. *)
Lemma bio_alloc_cases b size :
  bio_ok b →
  (bio_alloc b size = (None, set_overflow b) ∧ data_avail b < round4 size) ∨
  (bio_alloc b size = (Some (bio_pos b), advance (round4 size) b) ∧ round4 size ≤ data_avail b ∧
   bio_ok (advance (round4 size) b)).
Proof.
  intros Hb. unfold bio_alloc. pose proof (round4_nonneg size). bcase E; [left; split; [done|lia]|right].
  split; [done|]. split; [lia|]. apply advance_ok; [lia|done].
Qed.

Lemma bio_store_ok b p bs :
  bio_ok b → 0 ≤ p → p + zlen bs ≤ zlen (bio_mem b) →
  ∃ m, bio_store b p bs = Some (set_mem m b) ∧ mem_write (bio_mem b) p bs = Some m ∧ bio_ok (set_mem m b).
Proof.
  intros Hb Hp Hl. unfold bio_store. destruct (mem_write_Some (bio_mem b) p bs) as [m Hm]; [lia..|].
  rewrite Hm. exists m. split_and!; [done..|]. apply set_mem_ok; [|done].
  by apply mem_write_inv in Hm as (_ & _ & -> & _).
Qed.

(** The object allocation: the offset is recorded, or an overflow. *)
Lemma bio_alloc_obj_cases b :
  bio_ok b →
  (∃ b', bio_alloc_obj b = Some (None, b') ∧ bio_ok b' ∧ bio_mem b' = bio_mem b ∧ Z.testbit (bio_flags b') 1 = true) ∨
  (16 ≤ data_avail b ∧ 0 < offs_avail b ∧
   let b' := Bio (bio_mem b) (bio_pos b + 16) (data_avail b - 16)
               (<[Z.to_nat (offs_pos b) := bio_pos b]> (bio_offs b)) (offs_pos b + 1) (offs_avail b - 1)
               (bio_flags b) in
   bio_alloc_obj b = Some (Some (bio_pos b), b') ∧ bio_ok b').
Proof.
  intros Hb. pose proof Hb as []. unfold bio_alloc_obj. destruct (bio_alloc_cases b 16 Hb) as [[-> _]|(-> & Hsz & Ha)].
  - left. eexists. split; [done|]. split; [by do 2 apply set_overflow_ok|]. split; [done|].
    cbn [bio_flags set_overflow]. by rewrite Z.lor_spec, orb_true_r.
  - change (round4 16) with 16 in *. unfold truthy.
    cbn [advance offs_avail offs_pos bio_offs bio_mem bio_pos data_avail bio_flags].
    destruct (Z.eqb_spec (offs_avail b) 0) as [Ho|Ho]; cbn [negb].
    + left. eexists. split; [done|]. split; [by apply set_overflow_ok|]. split; [done|].
      cbn [bio_flags set_overflow]. by rewrite Z.lor_spec, orb_true_r.
    + right. split; [done|]. split; [lia|]. rewrite decide_True by lia.
      rewrite wrap_small by lia. split; [done|]. split; simpl; rewrite ?length_insert; lia.
Qed.

Section Bounds.
Context `{BinderTypes}.

Lemma length_object_bytes t p : length (object_bytes t p) = 16%nat.
Proof. unfold object_bytes. by autorewrite with cmem. Qed.

Lemma length_utf16 s : length (utf16 s) = (2 * length s)%nat.
Proof. induction s as [|c s IH]; [done|]. simpl in *. lia. Qed.

Lemma bio_put_uint32_ok b n : bio_ok b → ∃ b', bio_put_uint32 b n = Some b' ∧ bio_ok b'.
Proof.
  intros Hb. unfold bio_put_uint32. destruct (bio_alloc_cases b 4 Hb) as [[-> _]|(-> & Hsz & Ha)].
  - eauto using set_overflow_ok.
  - change (round4 4) with 4 in *. pose proof Hb as []. destruct (bio_store_ok (advance 4 b) (bio_pos b) (le_encode 4 n))
      as (m & -> & _ & Hm); [done|done|rewrite length_le_encode; simpl; lia|]. eauto.
Qed.

Lemma bio_put_object_ok b t p :
  bio_ok b → ∃ b', ('(obj, b) ← bio_alloc_obj b;
    match obj with Some q => bio_store b q (object_bytes t p) | None => Some b end) = Some b' ∧ bio_ok b'.
Proof.
  intros Hb. pose proof Hb as []. destruct (bio_alloc_obj_cases b Hb) as [(b' & -> & Hb' & _)|(Hd & Ho & -> & Hb')];
    cbn [mbind option_bind]; [eauto|].
  destruct (bio_store_ok _ (bio_pos b) (object_bytes t p) Hb') as (m & -> & _ & Hm);
    [done|rewrite length_object_bytes; simpl; lia|]. eauto.
Qed.

Lemma bio_put_ref_ok b p : bio_ok b → ∃ b', bio_put_ref b p = Some b' ∧ bio_ok b'.
Proof.
  intros Hb. unfold bio_put_ref. destruct (truthy p); [by apply bio_put_object_ok|].
  pose proof Hb as []. destruct (bio_alloc_cases b 16 Hb) as [[-> _]|(-> & Hsz & Ha)]; cbn [mbind option_bind].
  - eauto using set_overflow_ok.
  - change (round4 16) with 16 in *. destruct (bio_store_ok (advance 16 b) (bio_pos b)
      (object_bytes BINDER_TYPE_HANDLE p)) as (m & -> & _ & Hm);
      [done|done|rewrite length_object_bytes; simpl; lia|]. eauto.
Qed.

(** A string and its terminator fit what was allocated for them. *)
Lemma string_size (n : Z) : 0 ≤ n < 2 ^ 29 → u32 ((u32 n + 1) * 2) = 2 * n + 2 ∧ 2 * n + 2 ≤ round4 (2 * n + 2) ≤ 2 * n + 4.
Proof.
  intros Hn. rewrite (wrap_small 32 n) by lia. rewrite wrap_small by lia. split; [lia|].
  rewrite round4_eq by lia. divmod.
Qed.

Lemma bio_put_string16_ok b s :
  match s with Some s => zlen s < 2 ^ 32 | None => True end →
  bio_ok b → ∃ b', bio_put_string16 b s = Some b' ∧ bio_ok b'.
Proof.
  intros Hs Hb. destruct s as [s|]; simpl; [|by apply bio_put_uint32_ok].
  bcase E; [by apply bio_put_uint32_ok|].
  destruct (bio_put_uint32_ok b (u32 (zlen s)) Hb) as (b1 & -> & Hb1). cbn [mbind option_bind].
  assert (u32 (zlen s) = zlen s) as Hu by (apply wrap_small; lia).
  destruct (string_size (zlen s)) as [Hsz Hr]; [change (MAX_BIO_SIZE / 2) with (2 ^ 29) in E; rewrite Hu in E; lia|]. rewrite Hsz.
  destruct (bio_alloc_cases b1 (2 * zlen s + 2) Hb1) as [[-> _]|(-> & Hav & Ha)]; [eauto using set_overflow_ok|].
  pose proof Hb1 as []. destruct (bio_store_ok _ (bio_pos b1) (utf16 (s ++ [0])) Ha) as (m & -> & _ & Hm); [done| |eauto].
  simpl. rewrite length_utf16, length_app. simpl. lia.
Qed.

Lemma bio_put_string16_x_eq b s : bio_put_string16_x b s = bio_put_string16 b s.
Proof. done. Qed.

(** ** Reading *)

Lemma bio_get_cases b size :
  bio_ok b →
  (∃ b', bio_get b size = (None, b') ∧ bio_ok b' ∧ bio_mem b' = bio_mem b ∧ data_avail b' = 0) ∨
  (bio_get b size = (Some (bio_pos b), advance (round4 size) b) ∧ round4 size ≤ data_avail b ∧
   bio_ok (advance (round4 size) b)).
Proof.
  intros Hb. unfold bio_get. pose proof (round4_nonneg size). bcase E; [left|right].
  - eexists. split; [done|]. split; [|done]. destruct Hb. split; simpl; lia.
  - split; [done|]. split; [lia|]. apply advance_ok; [lia|done].
Qed.

Lemma load32_Some m p : 0 ≤ p → p + 4 ≤ zlen m → load32 m p = Some (le_decode (seg (mget m) p 4)).
Proof. intros. unfold load32. by rewrite mem_read_Some by lia. Qed.

Lemma bio_get_uint32_ok b : bio_ok b → ∃ n b', bio_get_uint32 b = Some (n, b') ∧ bio_ok b' ∧ bio_mem b' = bio_mem b.
Proof.
  intros Hb. unfold bio_get_uint32. destruct (bio_get_cases b 4 Hb) as [(b' & -> & Hb' & Hm & _)|(-> & Hav & Ha)].
  - eauto.
  - pose proof Hb as []. change (round4 4) with 4 in *. rewrite load32_Some by (simpl; lia). simpl. eauto.
Qed.

Lemma bio_get_string16_ok b :
  bio_ok b → ∃ p len b', bio_get_string16 b = Some (p, len, b') ∧ bio_ok b' ∧ bio_mem b' = bio_mem b.
Proof.
  intros Hb. unfold bio_get_string16. destruct (bio_get_uint32_ok b Hb) as (n & b1 & -> & Hb1 & Hm).
  cbn [mbind option_bind]. destruct (bio_get_cases b1 (u32 (u32 (n + 1) * 2)) Hb1) as [(b' & -> & Hb' & Hm' & _)|(-> & _ & Ha)].
  - eexists _, _, _. split_and!; [done|done|congruence].
  - eexists _, _, _. by split_and!.
Qed.

Lemma find_off_Some offs n off : (n ≤ length offs)%nat → ∃ r, find_off offs n off = Some r.
Proof.
  revert n. induction offs as [|o offs IH]; intros [|n] Hn; simpl in *; try lia; eauto.
  bcase E; [eauto|]. apply IH. lia.
Qed.

Lemma bio_get_ref_ok b : bio_ok b → ∃ h b', bio_get_ref b = Some (h, b') ∧ bio_ok b' ∧ bio_mem b' = bio_mem b.
Proof.
  intros Hb. pose proof Hb as []. unfold bio_get_ref, bio_get_obj.
  destruct (find_off_Some (drop (Z.to_nat (offs_pos b)) (bio_offs b)) (Z.to_nat (offs_avail b)) (u32 (bio_pos b)))
    as [r ->]; [rewrite length_drop; lia|]. cbn [mbind option_bind].
  destruct r; cycle 1. { eexists _, _. split; [reflexivity|]. split; [split; simpl; lia|done]. }
  destruct (bio_get_cases b 16 Hb) as [(b' & -> & Hb' & Hm & _)|(-> & Hav & Ha)]; [eauto|].
  change (round4 16) with 16 in *. cbn [mbind option_bind].
  rewrite (load32_Some _ (bio_pos b)) by (simpl; lia). cbn [mbind option_bind].
  bcase E; [|eauto]. rewrite load32_Some by (simpl; lia). simpl. eauto.
Qed.

End Bounds.

(** ** Round trip *)

Inductive item :=
| I_uint32 (n : Z)
| I_ref (h : Z)
| I_string (s : list Z).

Definition item_valid (it : item) : Prop :=
  match it with
  | I_uint32 n => 0 ≤ n < 2 ^ 32
  | I_ref h => 0 < h < 2 ^ 32
  | I_string s => Forall (λ c, 0 < c < 2 ^ 16) s ∧ zlen s < 2 ^ 29
  end.

(** The 16-bit characters of a byte sequence. *)
Fixpoint unutf16 (bs : list Z) : list Z :=
  match bs with
  | lo :: hi :: bs => lo + 256 * hi :: unutf16 bs
  | _ => []
  end.

Lemma unutf16_utf16 s : Forall (λ c, 0 ≤ c < 2 ^ 16) s → unutf16 (utf16 s) = s.
Proof.
  induction 1 as [|c s Hc _ IH]; [done|]. cbn [utf16 flat_map le_encode app unutf16]. f_equal; [divmod|done].
Qed.

Section RoundTrip.
Context `{BinderTypes}.

Definition put_item (it : item) (b : binder_io) : option binder_io :=
  match it with
  | I_uint32 n => bio_put_uint32 b n
  | I_ref h => bio_put_ref b h
  | I_string s => bio_put_string16 b (Some s)
  end.

Definition put_items (its : list item) (b : binder_io) : option binder_io := foldM (λ b it, put_item it b) b its.

(** Reads an item of the same kind as [it]. *)
Definition get_like (it : item) (b : binder_io) : option (item * binder_io) :=
  match it with
  | I_uint32 _ => '(n, b) ← bio_get_uint32 b; Some (I_uint32 n, b)
  | I_ref _ => '(h, b) ← bio_get_ref b; Some (I_ref h, b)
  | I_string _ =>
    '(p, len, b) ← bio_get_string16 b;
    q ← p; bs ← mem_read (bio_mem b) q (2 * len); Some (I_string (unutf16 bs), b)
  end.

Fixpoint get_items (its : list item) (b : binder_io) : option (list item * binder_io) :=
  match its with
  | [] => Some ([], b)
  | it :: its => '(x, b) ← get_like it b; '(xs, b) ← get_items its b; Some (x :: xs, b)
  end.

(** The item is stored from [p] to [p'] of the block [m], with the offsets [offs]. *)
Definition item_at (m offs : list Z) (p : Z) (it : item) (p' : Z) : Prop :=
  0 ≤ p ∧
  match it with
  | I_uint32 n => load32 m p = Some n ∧ p' = p + 4
  | I_ref h => p ∈ offs ∧ load32 m p = Some (BINDER_TYPE_HANDLE mod 2 ^ 32) ∧ load32 m (p + 8) = Some h ∧ p' = p + 16
  | I_string s => load32 m p = Some (zlen s) ∧
    mem_read m (p + 4) (2 * zlen s + 2) = Some (utf16 (s ++ [0])) ∧ p' = p + 4 + round4 (2 * zlen s + 2)
  end.

Fixpoint items_at (m offs : list Z) (p : Z) (its : list item) (p' : Z) : Prop :=
  match its with
  | [] => p' = p
  | it :: its => ∃ q, item_at m offs p it q ∧ items_at m offs q its p'
  end.

Lemma load32_store m p n m' : mem_write m p (le_encode 4 n) = Some m' → load32 m' p = Some (n mod 2 ^ 32).
Proof.
  intros Hw. unfold load32. pose proof (mem_read_write _ _ _ _ Hw) as Hr. rewrite length_le_encode in Hr.
  change (Z.of_nat 4) with 4 in Hr. rewrite Hr. cbn [mbind option_bind]. by rewrite le_decode_encode.
Qed.

(** [m'] extends [m]: what lies below [P] is the same. *)
Definition agrees (m m' : list Z) (P : Z) : Prop :=
  ∀ q n, 0 ≤ q → q + n ≤ P → mem_read m' q n = mem_read m q n.

Lemma agrees_load m m' P q : agrees m m' P → 0 ≤ q → q + 4 ≤ P → load32 m' q = load32 m q.
Proof. intros Ha Hq Hp. unfold load32. by rewrite Ha. Qed.

Lemma item_at_agrees m m' offs offs' p it p' P :
  agrees m m' P → offs ⊆ offs' → p' ≤ P → item_valid it → item_at m offs p it p' → item_at m' offs' p it p'.
Proof.
  intros Ha Ho HP Hv [Hp Hat]. split; [done|]. destruct it as [n|h|s]; simpl in *.
  - destruct Hat as [Hl ->]. by rewrite (agrees_load _ _ _ _ Ha) by lia.
  - destruct Hat as (Hin & Ht & Hh & ->). split; [by apply Ho|].
    by rewrite !(agrees_load _ _ _ _ Ha) by lia.
  - destruct Hat as (Hl & Hs & ->). destruct Hv as [_ Hv]. destruct (string_size (zlen s)) as [_ Hr]; [lia|].
    rewrite (agrees_load _ _ _ _ Ha), Ha by lia. done.
Qed.

Lemma write_agrees m p bs m' : mem_write m p bs = Some m' → agrees m m' p.
Proof. intros Hw q n Hq Hn. eapply mem_read_write_ne; [exact Hw|]. by left. Qed.

Lemma agrees_trans m1 m2 m3 P Q : agrees m1 m2 P → agrees m2 m3 Q → P ≤ Q → agrees m1 m3 P.
Proof. intros H1 H2 HPQ q n Hq Hn. rewrite H2, H1 by lia. done. Qed.

(** What writing one item without overflow leaves. *)
Definition item_written (b b' : binder_io) (it : item) : Prop :=
  bio_ok b' ∧ agrees (bio_mem b) (bio_mem b') (bio_pos b) ∧
  take (Z.to_nat (offs_pos b)) (bio_offs b) ⊆ take (Z.to_nat (offs_pos b')) (bio_offs b') ∧
  item_at (bio_mem b') (take (Z.to_nat (offs_pos b')) (bio_offs b')) (bio_pos b) it (bio_pos b').

Lemma overflow_flag b : Z.testbit (bio_flags (set_overflow b)) 1 = true.
Proof. cbn [bio_flags set_overflow]. by rewrite Z.lor_spec, orb_true_r. Qed.

Lemma put_uint32_written b n b' :
  bio_ok b → 0 ≤ n < 2 ^ 32 → bio_put_uint32 b n = Some b' → Z.testbit (bio_flags b') 1 = false →
  item_written b b' (I_uint32 n) ∧ offs_pos b' = offs_pos b ∧ bio_offs b' = bio_offs b.
Proof.
  intros Hb Hn Hp Hf. unfold bio_put_uint32 in Hp.
  destruct (bio_alloc_cases b 4 Hb) as [[Ha _]|(Ha & Hsz & Hok)]; rewrite Ha in Hp.
  { injection Hp as <-. by rewrite overflow_flag in Hf. }
  change (round4 4) with 4 in *. pose proof Hb as []. destruct (bio_store_ok (advance 4 b) (bio_pos b) (le_encode 4 n))
    as (m & Hs & Hw & Hm); [done|done|rewrite length_le_encode; simpl; lia|].
  rewrite Hs in Hp. injection Hp as <-. split; [|done]. split; [done|]. split; [by apply write_agrees in Hw|].
  split; [done|]. split; [done|]. split; [|done].
  change (load32 m (bio_pos b) = Some n). rewrite (load32_store _ _ _ _ Hw). by rewrite Z.mod_small by lia.
Qed.

Lemma put_ref_written b h b' :
  bio_ok b → 0 < h < 2 ^ 32 → bio_put_ref b h = Some b' → Z.testbit (bio_flags b') 1 = false →
  item_written b b' (I_ref h).
Proof.
  intros Hb Hh Hp Hf. unfold bio_put_ref in Hp.
  assert (truthy h = true) as Ht by (unfold truthy; lia). rewrite Ht in Hp.
  destruct (bio_alloc_obj_cases b Hb) as [(b1 & Ha & _ & _ & Hf1)|(Hd & Ho & Ha & Hok)]; rewrite Ha in Hp; simpl in Hp.
  { injection Hp as <-. congruence. }
  set (b1 := Bio _ _ _ _ _ _ _) in *. pose proof Hb as [].
  destruct (bio_store_ok b1 (bio_pos b) (object_bytes BINDER_TYPE_HANDLE h)) as (m & Hs & Hw & Hm);
    [done|done|rewrite length_object_bytes; simpl; lia|].
  rewrite Hs in Hp. injection Hp as <-. split; [done|]. split; [by apply write_agrees in Hw|].
  assert (take (Z.to_nat (offs_pos b + 1)) (<[Z.to_nat (offs_pos b):=bio_pos b]> (bio_offs b))
          = take (Z.to_nat (offs_pos b)) (bio_offs b) ++ [bio_pos b]) as Hoffs.
  { replace (Z.to_nat (offs_pos b + 1)) with (S (Z.to_nat (offs_pos b))) by lia.
    erewrite take_S_r by (apply list_lookup_insert_eq; lia). by rewrite take_insert_ge by lia. }
  split; [simpl; rewrite Hoffs; intros z Hz; apply elem_of_app; by left|]. split; [done|]. simpl. rewrite Hoffs.
  split; [apply elem_of_app; right; by apply list_elem_of_singleton|]. cbn [bio_mem b1] in Hw.
  apply mem_read_write in Hw as Hr. rewrite length_object_bytes in Hr. change (Z.of_nat 16) with 16 in Hr.
  assert (∀ k, 0 ≤ k ≤ 12 → load32 m (bio_pos b + k) =
    Some (le_decode (seg (mget (object_bytes BINDER_TYPE_HANDLE h)) k 4))) as Hld.
  { intros k Hk. apply mem_read_inv in Hr as (_ & _ & Hlen & Hobj).
    unfold load32. rewrite mem_read_Some by lia. cbn [mbind option_bind]. do 2 f_equal.
    apply seg_ext. intros i Hi. rewrite Hobj, mget_seg by lia. f_equal. lia. }
  split; [rewrite <- (Z.add_0_r (bio_pos b)), Hld by lia|split; [rewrite Hld by lia|done]]; f_equal.
  - change (seg _ 0 4) with (le_encode 4 BINDER_TYPE_HANDLE). by rewrite le_decode_encode.
  - change (seg _ 8 4) with (le_encode 4 h). rewrite le_decode_encode. apply Z.mod_small. lia.
Qed.

Lemma put_string_written b s b' :
  bio_ok b → item_valid (I_string s) → bio_put_string16 b (Some s) = Some b' →
  Z.testbit (bio_flags b') 1 = false → item_written b b' (I_string s).
Proof.
  intros Hb [Hc Hl] Hp Hf. simpl in Hp. rewrite (wrap_small 32 (zlen s)) in Hp by lia.
  change (MAX_BIO_SIZE / 2) with (2 ^ 29) in Hp. destruct (Z.leb_spec (2 ^ 29) (zlen s)); [lia|].
  destruct (bio_put_uint32_ok b (zlen s) Hb) as (b1 & Hp1 & Hb1). rewrite Hp1 in Hp. cbn [mbind option_bind] in Hp.
  destruct (string_size (zlen s)) as [Hsz Hr]; [lia|].
  rewrite (wrap_small 32 (zlen s)) in Hsz by lia. rewrite Hsz in Hp.
  destruct (bio_alloc_cases b1 (2 * zlen s + 2) Hb1) as [[Ha _]|(Ha & Hav & Hok)]; rewrite Ha in Hp.
  { injection Hp as <-. by rewrite overflow_flag in Hf. }
  assert (zlen (utf16 (s ++ [0])) = 2 * zlen s + 2) as Hlen.
  { rewrite length_utf16, length_app. simpl. lia. }
  pose proof Hb1 as []. destruct (bio_store_ok _ (bio_pos b1) (utf16 (s ++ [0])) Hok) as (m & Hs & Hw & Hm);
    [done|simpl; lia|]. rewrite Hs in Hp. injection Hp as <-.
  destruct (put_uint32_written b (zlen s) b1 Hb) as ((_ & Hag & _ & [Hp0 [Hld Hpos]]) & Hop & Hof); [lia|done|done|].
  simpl in Hw. pose proof (write_agrees _ _ _ _ Hw) as Hag2.
  split; [done|]. split; [eapply agrees_trans; [done|done|lia]|]. split; [simpl; by rewrite Hop, Hof|].
  split; [done|]. simpl. split; [by rewrite (agrees_load _ _ _ _ Hag2) by lia|].
  split; [|lia]. rewrite <- Hpos, <- Hlen. by eapply mem_read_write.
Qed.

Lemma put_item_written it b b' :
  bio_ok b → item_valid it → put_item it b = Some b' → Z.testbit (bio_flags b') 1 = false → item_written b b' it.
Proof.
  intros Hb Hv Hp Hf. destruct it; simpl in *.
  - by apply put_uint32_written.
  - by apply put_ref_written.
  - by apply put_string_written.
Qed.

(** ** Reading back *)

Lemma find_off_in offs off : off ∈ offs → find_off offs (length offs) off = Some true.
Proof.
  induction offs as [|o offs IH]; intros Hin; [by apply elem_of_nil in Hin|]. simpl. bcase E; [done|].
  apply IH. apply elem_of_cons in Hin as [->|]; [lia|done].
Qed.

(** A reader whose offsets are all still ahead. *)
Definition reader (m offs : list Z) (p : Z) (b : binder_io) : Prop :=
  bio_ok b ∧ bio_mem b = m ∧ bio_pos b = p ∧ bio_offs b = offs ∧ offs_pos b = 0 ∧ offs_avail b = zlen offs.

Lemma reader_advance m offs p b n :
  reader m offs p b → 0 ≤ n ≤ data_avail b → reader m offs (p + n) (advance n b).
Proof.
  intros (Hok & Hm & Hp & Ho & Hop & Hoa) Hn. split; [by apply advance_ok|]. simpl. by rewrite Hp.
Qed.

Lemma bio_get_Some b size :
  round4 size ≤ data_avail b → bio_get b size = (Some (bio_pos b), advance (round4 size) b).
Proof. intros Hs. unfold bio_get. bcase E; [lia|done]. Qed.

Lemma get_uint32_at m offs p b n :
  reader m offs p b → load32 m p = Some n → 4 ≤ data_avail b → bio_get_uint32 b = Some (n, advance 4 b).
Proof.
  intros (_ & Hm & Hp & _) Hl Ha. unfold bio_get_uint32. rewrite bio_get_Some by (change (round4 4) with 4; lia).
  change (round4 4) with 4. cbn [bio_mem advance]. by rewrite Hm, Hp, Hl.
Qed.

Lemma unutf16_take s k : Forall (λ c, 0 ≤ c < 2 ^ 16) s →
  (k ≤ length s)%nat → unutf16 (take (2 * k) (utf16 s)) = take k s.
Proof.
  intros Hs. revert k. induction Hs as [|c s Hc _ IH]; intros k Hk; [by destruct k|].
  destruct k as [|k]; [done|]. replace (2 * S k)%nat with (S (S (2 * k))) by lia.
  cbn [utf16 flat_map le_encode app take unutf16]. simpl in Hk. rewrite IH by lia. f_equal. divmod.
Qed.

Lemma get_like_at m offs p b it p' :
  0 ≤ BINDER_TYPE_HANDLE < 2 ^ 32 → item_valid it → reader m offs p b → item_at m offs p it p' →
  p' - p ≤ data_avail b → get_like it b = Some (it, advance (p' - p) b) ∧ p ≤ p'.
Proof.
  intros Ht Hv Hr [Hp0 Hat] Hav. pose proof Hr as (Hok & Hm & Hp & Ho & Hop & Hoa). pose proof Hok as [].
  destruct it as [n|h|s]; simpl in Hat |- *.
  - destruct Hat as [Hl ->]. split; [|lia]. rewrite (get_uint32_at m offs p b n) by (done || lia).
    simpl. by replace (p + 4 - p) with 4 by lia.
  - destruct Hat as (Hin & Hty & Hh & ->). split; [|lia]. unfold bio_get_ref, bio_get_obj.
    rewrite Ho, Hop, Hoa, Hp, Nat2Z.id. simpl drop.
    rewrite (wrap_small 32 p) by lia. rewrite find_off_in by done. cbn [mbind option_bind].
    rewrite bio_get_Some by (change (round4 16) with 16; lia). change (round4 16) with 16.
    cbn [mbind option_bind bio_mem advance]. rewrite Hm, Hp, Hty. cbn [mbind option_bind].
    rewrite Z.mod_small, Z.eqb_refl, Hh by done. cbn [mbind option_bind].
    by replace (p + 16 - p) with 16 by lia.
  - destruct Hat as (Hl & Hs & ->). destruct Hv as [Hc Hlen]. destruct (string_size (zlen s)) as [Hsz Hr4]; [lia|].
    rewrite (wrap_small 32 (zlen s)) in Hsz by lia.
    split; [|lia]. unfold bio_get_string16. rewrite (get_uint32_at m offs p b (zlen s)) by (done || lia).
    cbn [mbind option_bind]. rewrite (wrap_small 32 (zlen s + 1)), Hsz by lia.
    rewrite bio_get_Some by (simpl; lia). cbn [mbind option_bind bio_mem advance bio_pos].
    rewrite Hm, Hp. apply mem_read_inv in Hs as Hi. destruct Hi as (_ & _ & Hb & _).
    assert (mem_read m (p + 4) (2 * zlen s) = Some (take (2 * length s) (utf16 (s ++ [0])))) as ->.
    { unfold mem_read in *. destruct (in_block m (p + 4) (2 * zlen s + 2)) eqn:E1; [|done].
      unfold in_block in *. bcase E2; [|lia]. injection Hs as <-. rewrite take_take. do 2 f_equal. lia. }
    cbn [mbind option_bind]. rewrite unutf16_take, take_app_length.
    + unfold advance. simpl. do 2 f_equal. f_equal; lia.
    + apply Forall_app. split; [|by repeat constructor]. eapply Forall_impl; [exact Hc|]. intros c ?. simpl in *. lia.
    + rewrite length_app. lia.
Qed.

Lemma items_at_le m offs its p : ∀ q,
  Forall item_valid its → items_at m offs q its p → q ≤ p.
Proof.
  induction its as [|it its IH]; intros q Hvs Hrest; simpl in Hrest; [lia|].
  apply Forall_cons in Hvs as [Hv Hvs]. destruct Hrest as (q' & [Hq0 Hq'] & Hr). apply IH in Hr; [|done].
  destruct it as [|h|s]; simpl in Hq'; [lia|lia|]. destruct (string_size (zlen s)) as [_ ?]; [destruct Hv; lia|]. lia.
Qed.

Lemma items_at_agrees m m' offs its P : agrees m m' P → ∀ q,
  Forall item_valid its → items_at m offs q its P → items_at m' offs q its P.
Proof.
  intros Hag. induction its as [|it its IH]; intros q Hvs Hat; [done|].
  apply Forall_cons in Hvs as [Hv Hvs]. destruct Hat as (q' & Hq & Hrest). exists q'. split; [|by apply IH].
  pose proof (items_at_le _ _ _ _ _ Hvs Hrest). by eapply item_at_agrees.
Qed.

(** A prefix of a block agrees with it. *)
Lemma take_agrees m n : 0 ≤ n ≤ zlen m → agrees m (take (Z.to_nat n) m) n.
Proof.
  intros Hn q k Hq Hk. destruct (Z_lt_le_dec k 0) as [Hk0|Hk0].
  - unfold mem_read, in_block. destruct (Z.leb_spec 0 k); [lia|]. by rewrite !andb_false_r.
  - rewrite !mem_read_Some by (rewrite ?length_take; lia). f_equal. apply seg_ext. intros i Hi. apply mget_take. lia.
Qed.

Lemma get_items_at m offs its : ∀ p b p',
  0 ≤ BINDER_TYPE_HANDLE < 2 ^ 32 → Forall item_valid its → reader m offs p b → items_at m offs p its p' →
  p' - p ≤ data_avail b → ∃ b', get_items its b = Some (its, b') ∧ data_avail b' = data_avail b - (p' - p).
Proof.
  induction its as [|it its IH]; intros p b p' Ht Hv Hr Hat Hav; simpl in Hat |- *.
  { exists b. split; [done|lia]. }
  apply Forall_cons in Hv as [Hv Hvs]. destruct Hat as (q & Hq & Hrest).
  pose proof (items_at_le _ _ _ _ _ Hvs Hrest) as Hqp.
  destruct (get_like_at m offs p b it q Ht Hv Hr Hq) as [-> Hle]; [lia|]. cbn [mbind option_bind].
  destruct (IH q (advance (q - p) b) p') as (b' & -> & Hd); [done|done| |done|simpl; lia|].
  - pose proof (reader_advance m offs p b (q - p) Hr) as Ha. replace (p + (q - p)) with q in Ha by lia.
    apply Ha. lia.
  - cbn [mbind option_bind]. exists b'. split; [done|]. simpl in Hd. lia.
Qed.

(** ** Writing a sequence *)

Lemma flags_mono it b b' :
  bio_ok b → item_valid it → put_item it b = Some b' → Z.testbit (bio_flags b') 1 = false →
  Z.testbit (bio_flags b) 1 = false.
Proof.
  assert (∀ b n b', bio_put_uint32 b n = Some b' →
    bio_flags b' = bio_flags b ∨ Z.testbit (bio_flags b') 1 = true) as H32.
  { intros c n c'. unfold bio_put_uint32, bio_alloc. bcase E; [intros [= <-]; right; apply overflow_flag|].
    unfold bio_store. destruct (mem_write _ _ _); simpl; [|done]. intros [= <-]. by left. }
  intros Hb Hv Hp Hf. destruct it as [n|h|s]; simpl in Hp.
  - destruct (H32 _ _ _ Hp) as [<-|]; congruence.
  - unfold bio_put_ref in Hp. simpl in Hv. assert (truthy h = true) as Ht by (unfold truthy; lia). rewrite Ht in Hp.
    destruct (bio_alloc_obj_cases b Hb) as [(b1 & Ha & _ & _ & Hf1)|(_ & _ & Ha & _)]; rewrite Ha in Hp; simpl in Hp.
    + congruence.
    + unfold bio_store in Hp. obind Hp. injection Hp as <-. done.
  - destruct (_ <=? _) in Hp; [destruct (H32 _ _ _ Hp) as [<-|]; congruence|]. obind Hp.
    destruct (H32 _ _ _ E) as [Heq|Heq].
    + unfold bio_alloc in Hp. destruct (_ <? _); [injection Hp as <-; by rewrite overflow_flag in Hf|].
      unfold bio_store in Hp. obind Hp. injection Hp as <-. cbn [bio_flags set_mem advance] in Hf. by rewrite <- Heq.
    + unfold bio_alloc in Hp. destruct (_ <? _); [injection Hp as <-; by rewrite overflow_flag in Hf|].
      unfold bio_store in Hp. obind Hp. injection Hp as <-. cbn [bio_flags set_mem advance] in Hf. congruence.
Qed.

Lemma put_items_written its : ∀ b b',
  bio_ok b → Forall item_valid its → put_items its b = Some b' → Z.testbit (bio_flags b') 1 = false →
  bio_ok b' ∧ Z.testbit (bio_flags b) 1 = false ∧ agrees (bio_mem b) (bio_mem b') (bio_pos b) ∧
  bio_pos b ≤ bio_pos b' ∧
  take (Z.to_nat (offs_pos b)) (bio_offs b) ⊆ take (Z.to_nat (offs_pos b')) (bio_offs b') ∧
  items_at (bio_mem b') (take (Z.to_nat (offs_pos b')) (bio_offs b')) (bio_pos b) its (bio_pos b').
Proof.
  induction its as [|it its IH]; intros b b' Hb Hv Hp Hf.
  { injection Hp as <-. split_and!; done. }
  apply Forall_cons in Hv as [Hv Hvs]. unfold put_items in Hp. cbn [foldM] in Hp. obind Hp. rename b0 into b1.
  fold (put_items its b1) in Hp.
  assert (bio_ok b1) as Hb1.
  { destruct it as [n|h|s]; simpl in E.
    - destruct (bio_put_uint32_ok b n Hb) as (? & ? & ?); congruence.
    - destruct (bio_put_ref_ok b h Hb) as (? & ? & ?); congruence.
    - destruct (bio_put_string16_ok b (Some s)) as (? & ? & ?); [destruct Hv; lia|done|]. simpl in *. congruence. }
  destruct (IH b1 b' Hb1 Hvs Hp Hf) as (Hb' & Hf1 & Hag & Hle & Hof & Hat).
  destruct (put_item_written it b b1 Hb Hv E Hf1) as (_ & Hag1 & Hof1 & Hat1).
  assert (bio_pos b ≤ bio_pos b1) as Hle1.
  { destruct Hat1 as [_ Hat1]. destruct it as [|h|s]; simpl in Hat1; [lia|lia|].
    destruct (string_size (zlen s)) as [_ ?]; [destruct Hv; lia|]. lia. }
  split_and!; [done|by eapply flags_mono|by eapply agrees_trans|lia|by etransitivity|].
  exists (bio_pos b1). split; [|done]. eapply item_at_agrees; [exact Hag|exact Hof|lia|done|done].
Qed.

Lemma bio_init_ok b data maxdata maxoffs :
  zlen data = maxdata → maxdata < 2 ^ 32 → 0 ≤ maxoffs → maxoffs * 4 ≤ maxdata →
  bio_ok (bio_init b data maxdata maxoffs) ∧ bio_pos (bio_init b data maxdata maxoffs) = 0 ∧
  offs_pos (bio_init b data maxdata maxoffs) = 0.
Proof.
  intros Hl Hm Ho Hn. unfold bio_init. rewrite wrap_small by lia. bcase E; [lia|].
  split; [|done]. split; simpl; rewrite ?length_drop, ?length_replicate; lia.
Qed.

(** ** Properties *)

Inductive bio_op := Put (it : item) | Put_obj (p : Z) | Get_uint32 | Get_string16 | Get_ref.

Definition bio_step (op : bio_op) (b : binder_io) : option binder_io :=
  match op with
  | Put it => put_item it b
  | Put_obj p => bio_put_obj b p
  | Get_uint32 => '(_, b) ← bio_get_uint32 b; Some b
  | Get_string16 => '(_, _, b) ← bio_get_string16 b; Some b
  | Get_ref => '(_, b) ← bio_get_ref b; Some b
  end.

(** A buffer set up by [bio_init] in the caller's block, whose offsets do not fill more than there is unless the structure held a buffer before, or by [bio_init_from_txn] for a message whose bytes and
    offsets are there. *)
Inductive set_up : binder_io → Prop :=
| Set_up_own b data maxdata maxoffs : zlen data = maxdata → maxdata < 2 ^ 32 → 0 ≤ maxoffs < 2 ^ 30 → maxoffs * 4 ≤ maxdata ∨ bio_ok b → set_up (bio_init b data maxdata maxoffs)
| Set_up_txn mem offs data_size offs_size : 0 ≤ data_size ≤ zlen mem → zlen mem < 2 ^ 32 → 0 ≤ offs_size → offs_size / 4 ≤ zlen offs < 2 ^ 32 →
    set_up (bio_init_from_txn mem offs data_size offs_size).

Lemma set_up_ok b : set_up b → bio_ok b.
Proof.
  intros [b0 data maxdata maxoffs Hl Hm Ho Hn|mem offs data_size offs_size Hd Hm Ho Hn].
  - destruct (Z_le_gt_dec (maxoffs * 4) maxdata) as [Hle|Hgt]; [apply bio_init_ok; [done|done|lia|done]|].
    unfold bio_init. rewrite wrap_small by lia. bcase E; [|lia]. destruct Hn as [?|[]]; [lia|]. split; simpl; lia.
  - split; simpl; try lia. apply Z.div_pos; lia.
Qed.

(** C39: Any sequence of reads and writes on a buffer set up by [bio_init] or by [bio_init_from_txn], with any values, any lengths a message claims and any contents of the offsets array, stays inside
    the buffer and the array.  The caller of [bio_init] must ask for fewer than 2^30 offsets, since four times their number is computed in 32 bits (the program asks for four), and for no more than the block
    can hold unless the structure held a buffer before, which [bio_init] then leaves in place; the message given to [bio_init_from_txn] must be as long as it says. *)
Theorem bio_ops_in_bounds ops b :
  set_up b →
  Forall (λ op, match op with Put (I_string s) => zlen s < 2 ^ 32 | _ => True end) ops →
  ∃ b', foldM (λ b op, bio_step op b) b ops = Some b' ∧ bio_ok b'.
Proof.
  intros Hb%set_up_ok Hops. apply (foldM_inv bio_ok); [|done]. intros c op Hop Hc.
  rewrite Forall_forall in Hops. specialize (Hops op Hop). destruct op as [[n|h|s]|p| | |]; simpl.
  - by apply bio_put_uint32_ok.
  - by apply bio_put_ref_ok.
  - by apply (bio_put_string16_ok c (Some s)).
  - by apply bio_put_object_ok.
  - destruct (bio_get_uint32_ok c Hc) as (n & c' & -> & ? & _). by exists c'.
  - destruct (bio_get_string16_ok c Hc) as (p & n & c' & -> & ? & _). by exists c'.
  - destruct (bio_get_ref_ok c Hc) as (n & c' & -> & ? & _). by exists c'.
Qed.

(** C35: What was written is read back: if a sequence of 32-bit integers, references that are not null, and strings of fewer than 2^29 characters, none of them zero, was put into a fresh buffer
    without setting the overflow flag, a receiver handed the written bytes and offsets reads exactly that sequence.  (A null reference is written without an offset, and ends what can be read:
    [null_reference_ends_the_message].) *)
Theorem bio_put_get_roundtrip its b data maxdata maxoffs b' :
  zlen data = maxdata → maxdata < 2 ^ 32 → 0 ≤ maxoffs → maxoffs * 4 ≤ maxdata →
  0 ≤ BINDER_TYPE_HANDLE < 2 ^ 32 → Forall item_valid its →
  put_items its (bio_init b data maxdata maxoffs) = Some b' → Z.testbit (bio_flags b') 1 = false →
  let mem := take (Z.to_nat (bio_pos b')) (bio_mem b') in
  let offs := take (Z.to_nat (offs_pos b')) (bio_offs b') in
  ∃ r, get_items its (bio_init_from_txn mem offs (bio_pos b') (4 * offs_pos b')) = Some (its, r).
Proof.
  intros Hl Hm Ho Hn Ht Hv Hp Hf mem offs. destruct (bio_init_ok b data maxdata maxoffs) as (Hok & Hp0 & Ho0); [done..|].
  destruct (put_items_written its _ b' Hok Hv Hp Hf) as (Hb' & _ & _ & Hle & _ & Hat). rewrite Hp0 in *.
  pose proof Hb' as [].
  assert (zlen mem = bio_pos b') as Hml by (unfold mem; rewrite length_take; lia).
  assert (zlen offs = offs_pos b') as Hol by (unfold offs; rewrite length_take; lia).
  destruct (get_items_at mem offs its 0 (bio_init_from_txn mem offs (bio_pos b') (4 * offs_pos b')) (bio_pos b'))
    as (r & Hr & _); [done|done| | |simpl; lia|by exists r].
  - assert (4 * offs_pos b' / 4 = offs_pos b') as Hdiv by divmod.
    unfold bio_init_from_txn. rewrite Hdiv. split; [split; simpl; lia|]. split_and!; done.
  - apply (items_at_agrees (bio_mem b')); [apply take_agrees; lia|done|done].
Qed.

End RoundTrip.

Module BioDemo.
#[local] Instance types : BinderTypes := {|
  BINDER_TYPE_BINDER := 0x73622a85; BINDER_TYPE_HANDLE := 0x73682a85; FLAT_BINDER_FLAG_ACCEPTS_FDS := 0x100 |}.

Definition empty : binder_io := Bio [] 0 0 [] 0 0 0.
Definition buf : list Z := replicate 256 170.
Definition items : list item := [I_uint32 7; I_string [110; 102; 99]; I_ref 5; I_uint32 (2 ^ 32 - 1)].

Lemma bio_ops_in_bounds_witness :
  ∃ b', foldM (λ b op, bio_step op b) (bio_init empty buf 256 4)
          [Put (I_uint32 7); Put_obj 9; Get_string16; Get_ref; Put (I_string (replicate 200 65))] = Some b' ∧ bio_ok b'.
Proof.
  apply (bio_ops_in_bounds _ (bio_init empty buf 256 4)).
  - apply Set_up_own; [reflexivity|lia|lia|left; lia].
  - repeat constructor; vm_compute; done.
Defined.

(** After a null reference, which reads as 0, nothing more is available and the overflow flag is set, though a number was written behind it. *)
Example null_reference_ends_the_message :
  (b ← put_items [I_uint32 7; I_ref 0; I_uint32 9] (bio_init empty buf 256 4);
   '(xs, r) ← get_items [I_uint32 0; I_ref 0; I_uint32 0]
     (bio_init_from_txn (take (Z.to_nat (bio_pos b)) (bio_mem b)) (take (Z.to_nat (offs_pos b)) (bio_offs b)) (bio_pos b) (4 * offs_pos b));
   Some (bio_pos b, bio_flags b, xs, data_avail r, Z.testbit (bio_flags r) 1)) = Some (24, 0, [I_uint32 7; I_ref 0; I_uint32 0], 0, true).
Proof. vm_compute. reflexivity. Qed.

Definition written : binder_io :=
  match put_items items (bio_init empty buf 256 4) with Some b => b | None => empty end.

Lemma bio_put_get_roundtrip_witness :
  ∃ r, put_items items (bio_init empty buf 256 4) = Some written ∧
    get_items items (bio_init_from_txn (take (Z.to_nat (bio_pos written)) (bio_mem written))
      (take (Z.to_nat (offs_pos written)) (bio_offs written)) (bio_pos written) (4 * offs_pos written)) = Some (items, r).
Proof.
  destruct (bio_put_get_roundtrip items empty buf 256 4 written) as (r & Hr);
    [done|lia|lia|lia|vm_compute; intuition discriminate|repeat constructor; done|vm_compute; reflexivity
    |vm_compute; reflexivity|].
  exists r. split; [vm_compute; reflexivity|exact Hr].
Defined.
End BioDemo.
