(* ===== verification/Binder.v ===== *)
(** * Servicemanager: talking to the binder driver

    Model of the driver side of [servicemanager/binder.c]: the commands written
    with [binder_write], the parser of the words the driver returns, the blocking
    call and the loop.  The driver is outside the program: a sequence of its answers is
    an argument.  Each answer gives the 32-word read buffer as it is after
    the [ioctl], the bytes it counts as consumed, and the bytes of the mapped area
    the transactions point into.  The program around the library (its state, the request
    handler and the death callbacks it registers) is an interface.  A bad
    memory access is a fault, [None]. *)
From S2P Require Import Prelude Bio.

(** The driver's return codes, from the kernel's header. *)
Class BinderReturns := {
  BR_NOOP : Z; BR_TRANSACTION_COMPLETE : Z; BR_INCREFS : Z; BR_ACQUIRE : Z; BR_RELEASE : Z; BR_DECREFS : Z;
  BR_TRANSACTION : Z; BR_REPLY : Z; BR_DEAD_BINDER : Z; BR_FAILED_REPLY : Z; BR_DEAD_REPLY : Z }.

(** [struct binder_txn], ten words. *)
Record binder_txn := Txn {
  txn_target : Z; txn_cookie : Z; txn_code : Z; txn_flags : Z; txn_sender_pid : Z; txn_sender_euid : Z;
  txn_data_size : Z; txn_offs_size : Z; txn_data : Z; txn_offs : Z }.

(** The words at index [i] read as a transaction. *)
Definition txn_at (ws : list Z) (i : nat) : option binder_txn :=
  target ← ws !! i; cookie ← ws !! (i + 1)%nat; code ← ws !! (i + 2)%nat; flags ← ws !! (i + 3)%nat;
  pid ← ws !! (i + 4)%nat; euid ← ws !! (i + 5)%nat; data_size ← ws !! (i + 6)%nat; offs_size ← ws !! (i + 7)%nat;
  data ← ws !! (i + 8)%nat; offs ← ws !! (i + 9)%nat;
  Some (Txn target cookie code flags pid euid data_size offs_size data offs).

(** ** Commands *)

(** What a reply transaction carries: a status word, or data and offsets. *)
Inductive reply_txn :=
| Status (status : Z)
| Data (data : list Z) (offs : list Z).

(** The commands the program writes, one [binder_write] each. *)
Inductive bcmd :=
| BC_acquire (ptr : Z)
| BC_release (ptr : Z)
| BC_request_death (ptr death : Z)
| BC_free_buffer (buffer : Z)
| BC_free_and_reply (buffer : Z) (r : reply_txn)
| BC_enter_looper
| BC_transaction (target code : Z) (data offs : list Z).

(** What the program around the library provides: writing a command, the request
    handler, and calling the death callback registered under an address. *)
Class BinderClient (W : Type) := {
  binder_write : bcmd → W → W;
  client_handler : binder_txn → binder_io → binder_io → W → option (Z * binder_io * W);
  client_death : Z → W → option W }.

(** ** The mapped area *)

(** The bytes a process has mapped from the driver, at an address. *)
Record mapping := Mapping { map_base : Z; map_bytes : list Z }.

Definition bytes_at (mp : mapping) (addr : Z) : list Z :=
  if addr <? map_base mp then [] else drop (Z.to_nat (addr - map_base mp)) (map_bytes mp).

(** The 32-bit words of a block. *)
Fixpoint words (bs : list Z) : list Z :=
  match bs with
  | a :: b :: c :: d :: bs => le_decode [a; b; c; d] :: words bs
  | _ => []
  end.

(** The message of a transaction. *)
Definition txn_msg (mp : mapping) (txn : binder_txn) : binder_io :=
  bio_init_from_txn (bytes_at mp (txn_data txn)) (words (bytes_at mp (txn_offs txn)))
    (txn_data_size txn) (txn_offs_size txn).

(** The bytes and offsets written to a buffer so far. *)
Definition written_data (b : binder_io) : list Z := take (Z.to_nat (bio_pos b)) (bio_mem b).
Definition written_offs (b : binder_io) : list Z := take (Z.to_nat (offs_pos b)) (bio_offs b).

Section Library.
Context {W : Type} `{BinderClient W} `{BinderReturns}.

Definition binder_acquire (ptr : Z) (w : W) : W := binder_write (BC_acquire ptr) w.

Definition binder_release (ptr : Z) (w : W) : W := binder_write (BC_release ptr) w.

Definition binder_link_to_death (ptr death : Z) (w : W) : W := binder_write (BC_request_death ptr death) w.

Definition binder_send_reply (reply : binder_io) (buffer_to_free status : Z) (w : W) : W :=
  binder_write (BC_free_and_reply buffer_to_free
    (if truthy status then Status status else Data (written_data reply) (written_offs reply))) w.

(** [data0] of the buffer is its address in the mapped area; the flags of the buffer after. *)
Definition binder_done (reply : binder_io) (data0 : Z) (w : W) : binder_io * W :=
  if truthy (bio_flags reply &&& BIO_F_SHARED) then
    (Bio (bio_mem reply) (bio_pos reply) (data_avail reply) (bio_offs reply) (offs_pos reply) (offs_avail reply) 0,
     binder_write (BC_free_buffer data0) w)
  else (reply, w).

(** ** The parser *)

(** The uninitialised stack buffer a reply is built in: its bytes are an
    argument, as are the fields of the structures. *)
Definition fresh_reply (rdata : list Z) : binder_io := bio_init (Bio [] 0 0 [] 0 0 0) rdata 256 4.

(** A transaction: the handler is called and its reply sent. *)
Definition do_transaction (mp : mapping) (rdata : list Z) (txn : binder_txn) (w : W) : option W :=
  '(res, reply, w) ← client_handler txn (txn_msg mp txn) (fresh_reply rdata) w;
  Some (binder_send_reply reply (txn_data txn) res w).

(** The labels of the switch. *)
Inductive switch_label :=
| L_noop | L_complete | L_refs | L_transaction | L_reply | L_dead_binder | L_failed_reply | L_dead_reply | L_default.

Definition label (cmd : Z) : switch_label :=
  if cmd =? BR_NOOP then L_noop
  else if cmd =? BR_TRANSACTION_COMPLETE then L_complete
  else if (cmd =? BR_INCREFS) || (cmd =? BR_ACQUIRE) || (cmd =? BR_RELEASE) || (cmd =? BR_DECREFS) then L_refs
  else if cmd =? BR_TRANSACTION then L_transaction
  else if cmd =? BR_REPLY then L_reply
  else if cmd =? BR_DEAD_BINDER then L_dead_binder
  else if cmd =? BR_FAILED_REPLY then L_failed_reply
  else if cmd =? BR_DEAD_REPLY then L_dead_reply
  else L_default.

(** How the loop leaves a word: go on at an index with a return value, the
    caller's [bio] as it is now (a null pointer is [None]); or return. *)
Inductive parse_step :=
| Continue (i : nat) (r : Z) (bio : option binder_io) (free : bool) (w : W)
| Return (r : Z) (bio : option binder_io) (w : W).

(** One round: [i] is the index of [ptr], [n] that of [end]; [out] is what the caller's
    buffer holds once a reply initialised it and [free] whether [bio] is still non-null. *)
Definition parse_word (func : bool) (mp : mapping) (rdata ws : list Z) (n i : nat) (r : Z) (out : option binder_io)
    (free : bool) (w : W) : option parse_step :=
  cmd ← ws !! i;
  match label cmd with
  | L_noop | L_complete => Some (Continue (i + 1) r out free w)
  | L_refs => Some (Continue (i + 3) r out free w)
  | L_transaction =>
    if (n - (i + 1) <? 10)%nat then Some (Return (-1) out w)
    else
      txn ← txn_at ws (i + 1);
      w ← (if func then do_transaction mp rdata txn w else Some w);
      Some (Continue (i + 11) r out free w)
  | L_reply =>
    if (n - (i + 1) <? 10)%nat then Some (Return (-1) out w)
    else
      txn ← txn_at ws (i + 1);
      Some (Continue (i + 11) 0 (if free then Some (txn_msg mp txn) else out) false w)
  | L_dead_binder =>
    death ← ws !! (i + 1)%nat;
    w ← client_death death w;
    Some (Continue (i + 2) r out free w)
  | L_failed_reply | L_dead_reply => Some (Continue (i + 1) (-1) out free w)
  | L_default => if (i =? 0)%nat then Some (Continue (i + 1) r out free w) else Some (Return (-1) out w)
  end.

(** The loop; each round advances the index, so [n] rounds are enough. *)
Fixpoint parse_loop (fuel : nat) (func : bool) (mp : mapping) (rdata ws : list Z) (n i : nat) (r : Z)
    (out : option binder_io) (free : bool) (w : W) : option (Z * option binder_io * W) :=
  if (i <? n)%nat then
    match fuel with
    | O => None
    | S fuel =>
      s ← parse_word func mp rdata ws n i r out free w;
      match s with
      | Continue i r out free w => parse_loop fuel func mp rdata ws n i r out free w
      | Return r out w => Some (r, out, w)
      end
    end
  else Some (r, out, w).

(** [bio] is whether the caller passed a buffer, [func] whether it passed a handler. *)
Definition binder_parse (bio func : bool) (mp : mapping) (rdata ws : list Z) (size : Z) (w : W) :
    option (Z * option binder_io * W) :=
  let n := Z.to_nat (size / 4) in
  parse_loop n func mp rdata ws n 0 1 None bio w.

(** ** Driver answers *)

(** An answer of [ioctl(BINDER_WRITE_READ)]: failure, or a read. *)
Inductive answer :=
| Ioctl_failed
| Read (mp : mapping) (rdata ws : list Z) (consumed : Z).

(** A call that waits for the driver: still waiting after the answers given, or
    finished. *)
Inductive progress (A : Type) :=
| Waiting (w : W)
| Finished (a : A) (w : W).
#[global] Arguments Waiting {_} _.
#[global] Arguments Finished {_} _ _.

(** The read loop of [binder_call]. *)
Fixpoint call_loop (answers : list answer) (w : W) : option (progress (Z * option binder_io)) :=
  match answers with
  | [] => Some (Waiting w)
  | Ioctl_failed :: _ => Some (Finished (-1, None) w)
  | Read mp rdata ws consumed :: answers =>
    '(res, out, w) ← binder_parse true false mp rdata ws consumed w;
    if res =? 0 then Some (Finished (0, out) w)
    else if res <? 0 then Some (Finished (-1, None) w)
    else call_loop answers w
  end.

(** The failed path: the reply is zeroed and flagged. *)
Definition failed_reply : binder_io := Bio [] 0 0 [] 0 0 BIO_F_IOERROR.

(** The return value and the reply; the transaction is written by the first [ioctl]. *)
Definition binder_call (msg : binder_io) (target code : Z) (answers : list answer) (w : W) :
    option (progress (Z * binder_io)) :=
  if truthy (bio_flags msg &&& BIO_F_OVERFLOW) then Some (Finished (-1, failed_reply) w)
  else
    let w := match answers with
             | Read _ _ _ _ :: _ => binder_write (BC_transaction target code (written_data msg) (written_offs msg)) w
             | _ => w
             end in
    p ← call_loop answers w;
    Some match p with
         | Waiting w => Waiting w
         | Finished (rc, out) w => Finished (rc, match out with Some b => b | None => failed_reply end) w
         end.

(** The loop of [binder_loop]. *)
Fixpoint serve (answers : list answer) (w : W) : option (progress unit) :=
  match answers with
  | [] => Some (Waiting w)
  | Ioctl_failed :: _ => Some (Finished tt w)
  | Read mp rdata ws consumed :: answers =>
    '(res, _, w) ← binder_parse false true mp rdata ws consumed w;
    if res =? 0 then Some (Finished tt w)
    else if res <? 0 then Some (Finished tt w)
    else serve answers w
  end.

Definition binder_loop (answers : list answer) (w : W) : option (progress unit) :=
  serve answers (binder_write BC_enter_looper w).

End Library.

(** ** Opening the driver *)

Record binder_state := BState { bs_fd : Z; bs_mapped : Z; bs_mapsize : Z }.

(** What the process holds. *)
Inductive resource := Mem_bs | Fd (fd : Z) | Map (addr size : Z).

#[global] Instance resource_eq_dec : EqDecision resource.
Proof. solve_decision. Defined.

(** Giving a resource back; it must be held. *)
Fixpoint give_back (x : resource) (held : list resource) : option (list resource) :=
  match held with
  | [] => None
  | y :: held => if decide (x = y) then Some held else rest ← give_back x held; Some (y :: rest)
  end.

Definition MAP_FAILED : Z := -1.

(** [malloc_ok], [fd] and [mapped] are the results of the system calls. *)
Definition binder_open (malloc_ok : bool) (fd mapped mapsize : Z) (held : list resource) :
    option (option binder_state * list resource) :=
  if malloc_ok then
    let held := Mem_bs :: held in
    if fd <? 0 then
      held ← give_back Mem_bs held; Some (None, held)
    else
      let held := Fd fd :: held in
      if mapped =? MAP_FAILED then
        held ← give_back (Fd fd) held; held ← give_back Mem_bs held; Some (None, held)
      else Some (Some (BState fd mapped mapsize), Map mapped mapsize :: held)
  else Some (None, held).

Definition binder_close (bs : binder_state) (held : list resource) : option (list resource) :=
  held ← give_back (Map (bs_mapped bs) (bs_mapsize bs)) held;
  held ← give_back (Fd (bs_fd bs)) held;
  give_back Mem_bs held.

(** The file descriptor the [ioctl] goes to; a null [bs] is a fault. *)
Definition binder_become_context_manager (bs : option binder_state) (ioctl : Z → Z) : option Z :=
  bs ← bs; Some (ioctl (bs_fd bs)).
