(* ===== verification/SvcMgr.v ===== *)
(** * Servicemanager: the name registry

    Model of [servicemanager/service_manager.c].  A [uint16_t *] into a message
    is an offset into the message's block, [NULL] is [None]; reading outside the
    block, or through [NULL], is a fault.  The commands written to the binder
    driver are recorded in order.  User ids and the binder constants come from headers
    outside the program and are parameters. *)
From stdpp Require Import strings.
From Stdlib Require Import Ascii.
From S2P Require Import Prelude Bio Binder.

(** The user ids of the platform's headers. *)
Class AndroidIds := {
  AID_SYSTEM : Z; AID_MEDIA : Z; AID_DRM : Z; AID_NFC : Z; AID_BLUETOOTH : Z; AID_RADIO : Z;
  AID_KEYSTORE : Z; AID_USER : Z; AID_ISOLATED_START : Z; AID_ISOLATED_END : Z }.

(** The characters of a C string literal. *)
Fixpoint chars (s : string) : list Z :=
  match s with
  | EmptyString => []
  | String c s => Z.of_nat (nat_of_ascii c) :: chars s
  end.

Definition allowed `{AndroidIds} : list (Z * list Z) :=
  [ (AID_MEDIA, chars "media.audio_flinger");
    (AID_MEDIA, chars "media.log");
    (AID_MEDIA, chars "media.player");
    (AID_MEDIA, chars "media.camera");
    (AID_MEDIA, chars "media.audio_policy");
    (AID_DRM, chars "drm.drmManager");
    (AID_NFC, chars "nfc");
    (AID_BLUETOOTH, chars "bluetooth");
    (AID_RADIO, chars "radio.phone");
    (AID_RADIO, chars "radio.sms");
    (AID_RADIO, chars "radio.phonesubinfo");
    (AID_RADIO, chars "radio.simphonebook");
    (AID_RADIO, chars "phone");
    (AID_RADIO, chars "sip");
    (AID_RADIO, chars "isms");
    (AID_RADIO, chars "iphonesubinfo");
    (AID_RADIO, chars "simphonebook");
    (AID_MEDIA, chars "common_time.clock");
    (AID_MEDIA, chars "common_time.config");
    (AID_KEYSTORE, chars "android.security.keystore") ].

(** ** Strings in a message *)

(** A 16-bit load. *)
Definition load16 (m : list Z) (p : Z) : option Z := bs ← mem_read m p 2; Some (le_decode bs).

(** The loop of [str8]: at most [max] characters up to the terminator, each
    cut to eight bits. *)
Fixpoint str8_loop (m : list Z) (max : nat) (p : Z) : option (list Z) :=
  c ← load16 m p;
  if c =? 0 then Some []
  else match max with
       | O => Some []
       | S max => cs ← str8_loop m max (p + 2); Some (u8 c :: cs)
       end.

Definition str8 (m : list Z) (x : option Z) : option (list Z) :=
  match x with Some p => str8_loop m 127 p | None => Some [] end.

(** [str16eq] against the characters of a literal. *)
Fixpoint str16eq (m : list Z) (a : Z) (b : list Z) : option bool :=
  c ← load16 m a;
  match b with
  | [] => Some (c =? 0)
  | d :: b => if c =? 0 then Some false else if c =? d then str16eq m (a + 2) b else Some false
  end.

Section Registry.
Context `{AndroidIds}.

(** The loop over [allowed]; the name is only read for entries of the user. *)
Fixpoint check_allowed (entries : list (Z * list Z)) (m : list Z) (uid : Z) (name : option Z) : option bool :=
  match entries with
  | [] => Some false
  | (u, lit) :: entries =>
    if uid =? u then
      p ← name; eq ← str16eq m p lit;
      if eq : bool then Some true else check_allowed entries m uid name
    else check_allowed entries m uid name
  end.

Definition svc_can_register (m : list Z) (uid : Z) (name : option Z) : option bool :=
  if (uid =? 0) || (uid =? AID_SYSTEM) then Some true else check_allowed allowed m uid name.

(** ** State *)

(** A registered service; [si_name] holds [si_len] characters and a terminator,
    as bytes.  [si_addr] is the address of the structure. *)
Record svcinfo := SvcInfo {
  si_addr : Z;
  si_ptr : Z;
  si_allow_isolated : Z;
  si_len : Z;
  si_name : list Z }.

Definition set_ptr (p : Z) (si : svcinfo) : svcinfo :=
  SvcInfo (si_addr si) p (si_allow_isolated si) (si_len si) (si_name si).

Record svc_state := SvcState {
  svclist : list svcinfo;
  commands : list bcmd }.

Definition svc_init : svc_state := SvcState [] [].

Definition emit_cmds (cs : list bcmd) (st : svc_state) : svc_state := SvcState (svclist st) (commands st ++ cs).

(** [!memcmp(s16, si->name, len * 2)] *)
Definition name_matches (m : list Z) (s16 : option Z) (len : Z) (si : svcinfo) : option bool :=
  p ← s16;
  bs ← mem_read m p (u32 (len * 2));
  ns ← mem_read (si_name si) 0 (u32 (len * 2));
  Some (bool_decide (bs = ns)).

(** The position of the entry in the list. *)
Fixpoint find_svc (m : list Z) (s16 : option Z) (len : Z) (l : list svcinfo) : option (option nat) :=
  match l with
  | [] => Some None
  | si :: l =>
    if len =? si_len si then
      eq ← name_matches m s16 len si;
      if eq : bool then Some (Some 0%nat) else r ← find_svc m s16 len l; Some (option_map S r)
    else r ← find_svc m s16 len l; Some (option_map S r)
  end.

(** [svcinfo_death] on the entry at position [i]; its name is logged. *)
Definition svcinfo_death (i : nat) (st : svc_state) : option svc_state :=
  si ← svclist st !! i;
  _ ← str8 (si_name si) (Some 0);
  if truthy (si_ptr si) then
    Some (SvcState (<[i := set_ptr 0 si]> (svclist st)) (commands st ++ [BC_release (si_ptr si)]))
  else Some st.

(** ** Operations *)

Definition do_find_service (m : list Z) (s : option Z) (len uid : Z) (st : svc_state) : option Z :=
  r ← find_svc m s len (svclist st);
  match r with
  | Some i =>
    si ← svclist st !! i;
    if truthy (si_ptr si) then
      if truthy (si_allow_isolated si) then Some (si_ptr si)
      else
        let appid := uid mod AID_USER in
        if (AID_ISOLATED_START <=? appid) && (appid <=? AID_ISOLATED_END) then Some 0 else Some (si_ptr si)
    else Some 0
  | None => Some 0
  end.

(** The registration part of [do_add_service], for an existing or a new entry;
    [addr] is the result of [malloc]. *)
Definition register_svc (m : list Z) (s : option Z) (len ptr allow_isolated addr : Z) (st : svc_state) :
    option (Z * svc_state) :=
  r ← find_svc m s len (svclist st);
  match r with
  | Some i =>
    si ← svclist st !! i;
    st ← (if truthy (si_ptr si) then _ ← str8 m s; svcinfo_death i st else Some st);
    si ← svclist st !! i;
    let st := SvcState (<[i := set_ptr ptr si]> (svclist st)) (commands st) in
    Some (0, emit_cmds [BC_acquire ptr; BC_request_death ptr (si_addr si)] st)
  | None =>
    if addr =? 0 then _ ← str8 m s; Some (-1, st)
    else
      p ← s;
      bs ← mem_read m p (u32 ((len + 1) * 2));
      nm ← mem_write bs (2 * len) [0; 0];
      let st := SvcState (SvcInfo addr ptr allow_isolated len nm :: svclist st) (commands st) in
      Some (0, emit_cmds [BC_acquire ptr; BC_request_death ptr addr] st)
  end.

Definition do_add_service (m : list Z) (s : option Z) (len ptr uid allow_isolated addr : Z) (st : svc_state) :
    option (Z * svc_state) :=
  if (ptr =? 0) || (len =? 0) || (127 <? len) then Some (-1, st) else
  ok ← svc_can_register m uid s;
  if ok : bool then register_svc m s len ptr allow_isolated addr st
  else _ ← str8 m s; Some (-1, st).

(** ** The request handler *)

Definition svcmgr_id : list Z := chars "android.os.IServiceManager".

Inductive svc_code := SVC_MGR_GET_SERVICE | SVC_MGR_CHECK_SERVICE | SVC_MGR_ADD_SERVICE | SVC_MGR_LIST_SERVICES
| SVC_MGR_OTHER (n : Z).

(** The numbers of the enumeration. *)
Definition svc_code_of (n : Z) : svc_code :=
  if n =? 1 then SVC_MGR_GET_SERVICE
  else if n =? 2 then SVC_MGR_CHECK_SERVICE
  else if n =? 3 then SVC_MGR_ADD_SERVICE
  else if n =? 4 then SVC_MGR_LIST_SERVICES
  else SVC_MGR_OTHER n.

(** [svcmgr_handle]: BINDER_SERVICE_MANAGER. *)
Definition svcmgr_handle : Z := 0.

Context `{BinderTypes}.

(** The header check: the interface name. *)
Definition check_header (msg : binder_io) : option (bool * binder_io) :=
  '(_, msg) ← bio_get_uint32 msg;
  '(s, len, msg) ← bio_get_string16 msg;
  if len =? 26 then
    p ← s;
    bs ← mem_read (bio_mem msg) p 52;
    if decide (bs = utf16 svcmgr_id) then Some (true, msg)
    else _ ← str8 (bio_mem msg) s; Some (false, msg)
  else _ ← str8 (bio_mem msg) s; Some (false, msg).

(** The characters before the terminator of a stored name: the argument of
    [bio_put_string16]. *)
Fixpoint c_string16 (m : list Z) (fuel : nat) (p : Z) : option (list Z) :=
  match fuel with
  | O => None
  | S fuel => c ← load16 m p; if c =? 0 then Some [] else cs ← c_string16 m fuel (p + 2); Some (c :: cs)
  end.

(** The walk of the list for [SVC_MGR_LIST_SERVICES]. *)
Fixpoint nth_svc (l : list svcinfo) (n : Z) : option svcinfo :=
  match l with
  | [] => None
  | si :: l => if n =? 0 then Some si else nth_svc l (n - 1)
  end.

(** Reply with a zero word: the end of the handler. *)
Definition reply_ok (reply : binder_io) (st : svc_state) : option (Z * binder_io * svc_state) :=
  r ← bio_put_uint32 reply 0; Some (0, r, st).

(** The return value, the reply and the state; [addr] is what [malloc] would
    return for a new entry. *)
Definition svcmgr_handler (txn : binder_txn) (msg reply : binder_io) (addr : Z) (st : svc_state) :
    option (Z * binder_io * svc_state) :=
  if negb (txn_target txn =? svcmgr_handle) then Some (-1, reply, st) else
  '(ok, msg) ← check_header msg;
  if negb ok then Some (-1, reply, st) else
  match svc_code_of (txn_code txn) with
  | SVC_MGR_GET_SERVICE | SVC_MGR_CHECK_SERVICE =>
    '(s, len, msg) ← bio_get_string16 msg;
    ptr ← do_find_service (bio_mem msg) s len (txn_sender_euid txn) st;
    if ptr =? 0 then reply_ok reply st
    else r ← bio_put_ref reply ptr; Some (0, r, st)
  | SVC_MGR_ADD_SERVICE =>
    '(s, len, msg) ← bio_get_string16 msg;
    '(ptr, msg) ← bio_get_ref msg;
    '(iso, msg) ← bio_get_uint32 msg;
    '(rc, st) ← do_add_service (bio_mem msg) s len ptr (txn_sender_euid txn) (c_bool (truthy iso)) addr st;
    if truthy rc then Some (-1, reply, st) else reply_ok reply st
  | SVC_MGR_LIST_SERVICES =>
    '(n, msg) ← bio_get_uint32 msg;
    match nth_svc (svclist st) n with
    | Some si =>
      nm ← c_string16 (si_name si) (length (si_name si)) 0;
      r ← bio_put_string16 reply (Some nm); Some (0, r, st)
    | None => Some (-1, reply, st)
    end
  | SVC_MGR_OTHER _ => Some (-1, reply, st)
  end.

(** ** The program *)

(** The process: the registry, and what [malloc] returns at the coming transactions (a
    null pointer when there is nothing more). *)
Record svcmgr := SvcMgr { mgr_svc : svc_state; mgr_malloc : list Z }.

(** The entry a death cookie points into. *)
Fixpoint entry_of (addr : Z) (l : list svcinfo) : option nat :=
  match l with
  | [] => None
  | si :: l => if si_addr si =? addr then Some 0%nat else i ← entry_of addr l; Some (S i)
  end.

#[global] Instance svcmgr_client : BinderClient svcmgr := {|
  binder_write := λ c s, SvcMgr (emit_cmds [c] (mgr_svc s)) (mgr_malloc s);
  client_handler := λ txn msg reply s,
    '(rc, reply, st) ← svcmgr_handler txn msg reply (hd 0 (mgr_malloc s)) (mgr_svc s);
    Some (rc, reply, SvcMgr st (tl (mgr_malloc s)));
  client_death := λ cookie s,
    i ← entry_of cookie (svclist (mgr_svc s));
    st ← svcinfo_death i (mgr_svc s); Some (SvcMgr st (mgr_malloc s)) |}.

Context `{BinderReturns}.

(** [main]: the results of the system calls, the driver's answers, and the process when it
    exits, with its exit code. *)
Definition main (malloc_ok : bool) (fd mapped : Z) (ioctl : Z → Z) (answers : list answer) (mallocs : list Z) :
    option (progress Z) :=
  '(bs, _) ← binder_open malloc_ok fd mapped (128 * 1024) [];
  res ← binder_become_context_manager bs ioctl;
  let s := SvcMgr svc_init mallocs in
  if truthy res then Some (Finished (-1) s)
  else
    p ← binder_loop answers s;
    Some match p with Waiting s => Waiting s | Finished _ s => Finished 0 s end.

End Registry.
