(* ===== verification/SvcProps.v ===== *)
(** * Servicemanager: properties of the registry

    The service list implements a finite map from names to handles; every live
    entry holds exactly one reference of the driver; and which callers may change or
    read it. *)
From stdpp Require Import gmap strings.
From S2P Require Import Prelude Bio BioProps Binder SvcMgr.

(** ** Well-formed registries *)

(** The name of an entry: the bytes of its [si_len] characters. *)
Definition svc_key (si : svcinfo) : list Z := take (Z.to_nat (2 * si_len si)) (si_name si).

Definition si_ok (si : svcinfo) : Prop :=
  1 ≤ si_len si ≤ 127 ∧ si_name si = svc_key si ++ [0; 0] ∧ zlen (svc_key si) = 2 * si_len si.

(** The references the commands acquired and did not release. *)
Fixpoint outstanding (h : Z) (cs : list bcmd) : Z :=
  match cs with
  | [] => 0
  | BC_acquire p :: cs => c_bool (p =? h) + outstanding h cs
  | BC_release p :: cs => outstanding h cs - c_bool (p =? h)
  | _ :: cs => outstanding h cs
  end.

(** The entries that hold the handle [h]. *)
Fixpoint holders (h : Z) (l : list svcinfo) : Z :=
  match l with
  | [] => 0
  | si :: l => c_bool (si_ptr si =? h) + holders h l
  end.

Record reg_ok (st : svc_state) : Prop := {
  reg_entries : Forall si_ok (svclist st);
  reg_names : NoDup (svc_key <$> svclist st);
  reg_refs : ∀ h, h ≠ 0 → outstanding h (commands st) = holders h (svclist st) }.

Lemma outstanding_app h cs1 cs2 : outstanding h (cs1 ++ cs2) = outstanding h cs1 + outstanding h cs2.
Proof. induction cs1 as [|c cs1 IH]; [done|]. destruct c; simpl; lia. Qed.

Lemma holders_insert h (l : list svcinfo) (i : nat) si si' :
  l !! i = Some si →
  holders h (<[i := si']> l) = holders h l - c_bool (si_ptr si =? h) + c_bool (si_ptr si' =? h).
Proof.
  revert i. induction l as [|x l IH]; intros [|i] Hi; simpl in *; try done.
  - injection Hi as ->. lia.
  - rewrite IH by done. lia.
Qed.

Lemma keys_insert (l : list svcinfo) (i : nat) si p :
  l !! i = Some si → svc_key <$> <[i := set_ptr p si]> l = svc_key <$> l.
Proof.
  intros Hi. rewrite list_fmap_insert. change (svc_key (set_ptr p si)) with (svc_key si).
  apply list_insert_id. by rewrite list_lookup_fmap, Hi.
Qed.

(** Changing the handle of an entry, with the commands that go with it. *)
Lemma set_ptr_ok st i si p cs :
  reg_ok st → svclist st !! i = Some si →
  (∀ h, h ≠ 0 → outstanding h cs = c_bool (p =? h) - c_bool (si_ptr si =? h)) →
  reg_ok (SvcState (<[i := set_ptr p si]> (svclist st)) (commands st ++ cs)).
Proof.
  intros [He Hn Hr] Hi Hc. split; simpl.
  - apply Forall_insert; [done|]. rewrite Forall_lookup in He. exact (He _ _ Hi).
  - by rewrite keys_insert.
  - intros h Hh. rewrite outstanding_app, (holders_insert h _ _ _ _ Hi), Hr, Hc by done. simpl. lia.
Qed.

Section Registry.
Context `{AndroidIds}.

(** ** Finding an entry *)

Lemma name_matches_inv m s len si b :
  si_ok si → si_len si = len → name_matches m s len si = Some b →
  ∃ p bs, s = Some p ∧ mem_read m p (2 * len) = Some bs ∧ b = bool_decide (bs = svc_key si).
Proof.
  intros (Hl & Hn & Hk) Hlen Hm. unfold name_matches in Hm. obind Hm. obind Hm. obind Hm. injection Hm as <-.
  rewrite (wrap_small 32 (len * 2)) in * by lia.
  exists z, l. split; [done|]. rewrite Z.mul_comm in E0. split; [done|].
  assert (l0 = svc_key si) as ->; [|done].
  apply mem_read_inv in E1 as (_ & _ & _ & ->). rewrite Hn. rewrite <- (seg_mget_all (svc_key si)) at 2.
  rewrite Hk, <- Hlen, Z.mul_comm. apply seg_ext. intros k Hk'. simpl. rewrite mget_app.
  bcase Eb; [done|lia].
Qed.

Lemma find_svc_inv m s len l r :
  Forall si_ok l → find_svc m s len l = Some r →
  match r with
  | Some i => ∃ si p, l !! i = Some si ∧ s = Some p ∧ mem_read m p (2 * len) = Some (svc_key si) ∧ si_len si = len
  | None => ∀ si, si ∈ l → si_len si = len → ∃ p bs, s = Some p ∧ mem_read m p (2 * len) = Some bs ∧ bs ≠ svc_key si
  end.
Proof.
  intros Hok. revert r. induction Hok as [|si l Hsi Hok IH]; intros r Hf; simpl in Hf.
  { injection Hf as <-. intros si Hin. by apply elem_of_nil in Hin. }
  destruct (Z.eqb_spec len (si_len si)) as [Hlen|Hlen].
  - obind Hf. apply name_matches_inv in E as (p & bs & -> & Hr & ->); [|done|done].
    destruct (bool_decide_reflect (bs = svc_key si)) as [->|Hne].
    + injection Hf as <-. exists si, p. by split_and!.
    + obind Hf. injection Hf as <-. specialize (IH _ eq_refl). destruct o as [i|]; simpl.
      * destruct IH as (si' & p' & ? & ? & ? & ?). exists si', p'. by split_and!.
      * intros si' [->|Hin]%elem_of_cons Hl; [by exists p, bs|by apply IH].
  - obind Hf. injection Hf as <-. specialize (IH _ eq_refl). destruct o as [i|]; simpl.
    + destruct IH as (si' & p' & ? & ? & ? & ?). exists si', p'. by split_and!.
    + intros si' [->|Hin]%elem_of_cons Hl; [lia|by apply IH].
Qed.

(** The search does not fault on a name that is inside its message. *)
Lemma find_svc_total m p len l bs :
  Forall si_ok l → mem_read m p (2 * len) = Some bs → 0 ≤ len ≤ 2 ^ 30 → ∃ r, find_svc m (Some p) len l = Some r.
Proof.
  intros Hok Hr Hl. induction Hok as [|si l Hsi Hok [r IH]]; [by exists None|]. simpl. rewrite IH.
  destruct (Z.eqb_spec len (si_len si)) as [->|]; [|simpl; eauto].
  unfold name_matches. cbn [mbind option_bind]. rewrite (wrap_small 32) by lia. rewrite Z.mul_comm, Hr.
  cbn [mbind option_bind]. destruct Hsi as (Hsl & Hn & Hk).
  rewrite mem_read_Some by (lia || (rewrite Hn, length_app; simpl; lia)). cbn [mbind option_bind].
  destruct (bool_decide _); eauto.
Qed.

(** ** The abstract registry *)

(** Name to handle and isolation flag; a dead service has handle 0. *)
Definition registry (st : svc_state) : gmap (list Z) (Z * Z) :=
  list_to_map ((λ si, (svc_key si, (si_ptr si, si_allow_isolated si))) <$> svclist st).

Lemma registry_keys st : ((λ si, (svc_key si, (si_ptr si, si_allow_isolated si))) <$> svclist st).*1 = svc_key <$> svclist st.
Proof. rewrite <- list_fmap_compose. done. Qed.

Lemma registry_lookup st i si :
  reg_ok st → svclist st !! i = Some si → registry st !! svc_key si = Some (si_ptr si, si_allow_isolated si).
Proof.
  intros Hok Hi. apply elem_of_list_to_map_1; [rewrite registry_keys; apply Hok|].
  apply list_elem_of_fmap. exists si. split; [done|]. by apply list_elem_of_lookup_2 in Hi.
Qed.

Lemma registry_lookup_None st k : (∀ si, si ∈ svclist st → svc_key si ≠ k) → registry st !! k = None.
Proof.
  intros Hk. apply not_elem_of_list_to_map_1. rewrite registry_keys. intros (si & -> & Hin)%list_elem_of_fmap.
  by apply (Hk si).
Qed.

Lemma registry_set_ptr st i si p cs :
  reg_ok st → svclist st !! i = Some si →
  registry (SvcState (<[i := set_ptr p si]> (svclist st)) cs) = <[svc_key si := (p, si_allow_isolated si)]> (registry st).
Proof.
  intros Hok Hi. apply map_eq. intros k. unfold registry. simpl.
  pose proof (reg_names _ Hok) as Hn. pose proof (list_elem_of_split_length _ _ _ Hi) as (l1 & l2 & Hl & ->).
  rewrite Hl in *. rewrite insert_app_r_alt, Nat.sub_diag by lia. simpl. rewrite !fmap_app, !fmap_cons in *. simpl.
  rewrite NoDup_app, NoDup_cons in Hn. destruct Hn as (_ & Hd & Hnin & _).
  rewrite !list_to_map_app, !list_to_map_cons. change (svc_key (set_ptr p si)) with (svc_key si).
  assert ((list_to_map ((λ s, (svc_key s, (si_ptr s, si_allow_isolated s))) <$> l1) : gmap (list Z) (Z * Z)) !! svc_key si = None) as H1.
  { apply not_elem_of_list_to_map_1. rewrite <- list_fmap_compose. intros Hin. apply (Hd _ Hin). apply elem_of_cons. by left. }
  destruct (decide (k = svc_key si)) as [->|Hne].
  - rewrite lookup_insert_eq, lookup_union_r by done. by rewrite lookup_insert_eq.
  - rewrite lookup_insert_ne by done. rewrite !lookup_union. by rewrite !lookup_insert_ne by done.
Qed.

End Registry.

(** ** Strings *)

(** The characters of [cs] are stored from [p] on. *)
Fixpoint chars_at (m : list Z) (p : Z) (cs : list Z) : Prop :=
  match cs with
  | [] => True
  | c :: cs => load16 m p = Some c ∧ chars_at m (p + 2) cs
  end.

Lemma mem_read_chars m bs : ∀ p, mem_read m p (zlen bs) = Some bs → chars_at m p (unutf16 bs).
Proof.
  remember (length bs) as n eqn:Hn. revert bs Hn. induction (lt_wf n) as [n _ IH]. intros bs -> p Hr.
  destruct bs as [|a [|b bs]]; try done. cbn [unutf16 chars_at].
  apply mem_read_inv in Hr as (Hp & _ & Hl & Hs). cbn [length] in *.
  assert (seg (mget m) p 2 = [a; b] ∧ seg (mget m) (p + 2) (zlen bs) = bs) as [H2 Hrest].
  { replace (Z.of_nat (S (S (length bs)))) with (2 + zlen bs) in Hs by lia. rewrite seg_app in Hs by lia.
    assert (length (seg (mget m) p 2) = 2%nat) as Hl2 by apply length_seg.
    destruct (seg (mget m) p 2) as [|x [|y [|]]]; simpl in *; try done. by injection Hs as -> -> <-. }
  split.
  - unfold load16. rewrite mem_read_Some by lia. cbn [mbind option_bind]. rewrite H2. simpl. f_equal. lia.
  - apply (IH (length bs)); [lia|done|]. rewrite mem_read_Some by lia. by rewrite Hrest.
Qed.

(** The characters before the first terminator. *)
Fixpoint cstr (cs : list Z) : list Z :=
  match cs with
  | [] => []
  | c :: cs => if c =? 0 then [] else c :: cstr cs
  end.

Lemma str8_loop_total m max : ∀ p cs, chars_at m p cs → 0 ∈ cs → ∃ r, str8_loop m max p = Some r.
Proof.
  induction max as [|max IH]; intros p cs Hc Hz; (destruct cs as [|c cs]; [by apply elem_of_nil in Hz|]);
    destruct Hc as [Hl Hc]; simpl; rewrite Hl; simpl; (bcase E; [by eexists|]); [by eexists|].
  destruct (IH (p + 2) cs Hc) as [r ->]; [|by eexists]. apply elem_of_cons in Hz as [?|?]; [lia|done].
Qed.

Lemma str16eq_spec m lit : ∀ p cs, 
  chars_at m p cs → 0 ∈ cs → 0 ∉ lit → str16eq m p lit = Some (bool_decide (cstr cs = lit)).
Proof.
  induction lit as [|d lit IH]; intros p cs Hc Hz Hlit; (destruct cs as [|c cs]; [by apply elem_of_nil in Hz|]);
    destruct Hc as [Hl Hc]; simpl; rewrite Hl; simpl.
  - destruct (Z.eqb_spec c 0); [by rewrite bool_decide_eq_true_2|by rewrite bool_decide_eq_false_2].
  - destruct (Z.eqb_spec c 0) as [->|Hc0]; [by rewrite bool_decide_eq_false_2|].
    destruct (Z.eqb_spec c d) as [->|Hcd]; [|rewrite bool_decide_eq_false_2; [done|congruence]].
    rewrite (IH (p + 2) cs Hc).
    + f_equal. apply bool_decide_ext. split; [by intros ->|by intros [= ->]].
    + apply elem_of_cons in Hz as [?|?]; [lia|done].
    + intros ?. apply Hlit, elem_of_cons. by right.
Qed.

(** A terminated name of [len] characters at [p], with the bytes [bs]. *)
Definition name_in (m : list Z) (p len : Z) (bs : list Z) : Prop :=
  0 ≤ len ≤ 2 ^ 30 ∧ zlen bs = 2 * len ∧ mem_read m p (2 * len + 2) = Some (bs ++ [0; 0]).

Lemma name_in_read m p len bs : name_in m p len bs → mem_read m p (2 * len) = Some bs.
Proof.
  intros (Hl & Hb & Hr). apply mem_read_inv in Hr as (? & ? & ? & Hs). rewrite mem_read_Some by lia.
  rewrite seg_app in Hs by lia. f_equal. apply (f_equal (take (length bs))) in Hs.
  rewrite take_app_length in Hs. rewrite Hs, take_app_le by (rewrite length_seg; lia).
  symmetry. apply take_ge. rewrite length_seg. lia.
Qed.

Lemma unutf16_app_even bs k : length bs = (2 * k)%nat → ∀ bs', unutf16 (bs ++ bs') = unutf16 bs ++ unutf16 bs'.
Proof.
  revert bs. induction k as [|k IH]; intros bs Hk bs'; [by destruct bs|].
  destruct bs as [|a [|b bs]]; simpl in *; try lia. f_equal. apply IH. lia.
Qed.

Lemma name_in_chars m p len bs :
  name_in m p len bs → chars_at m p (unutf16 bs ++ [0]) ∧ 0 ∈ unutf16 bs ++ [0].
Proof.
  intros (Hl & Hb & Hr). split; [|apply elem_of_app; right; by apply list_elem_of_singleton].
  replace (2 * len + 2) with (zlen (bs ++ [0; 0])) in Hr by (rewrite length_app; simpl; lia).
  apply mem_read_chars in Hr. by rewrite (unutf16_app_even bs (Z.to_nat len)) in Hr by lia.
Qed.

Lemma cstr_app_0 cs : cstr (cs ++ [0]) = cstr cs.
Proof. induction cs as [|c cs IH]; simpl; [done|]. bcase E; [done|]. by rewrite IH. Qed.

Section Operations.
Context `{AndroidIds}.

(** ** Permissions *)

(** The caller may register the name: root, the system, or an entry of the table
    for the characters before the first terminator. *)
Definition may_register (uid : Z) (bs : list Z) : bool :=
  (uid =? 0) || (uid =? AID_SYSTEM) ||
  existsb (λ e, (uid =? e.1) && bool_decide (cstr (unutf16 bs) = e.2)) allowed.

Lemma allowed_no_nul e : e ∈ allowed → 0 ∉ e.2.
Proof.
  intros Hin. assert (forallb (λ e : Z * list Z, negb (bool_decide (0 ∈ e.2))) allowed = true) as Hall by reflexivity.
  rewrite forallb_forall in Hall. apply list_elem_of_In in Hin. specialize (Hall e Hin).
  by destruct (bool_decide_reflect (0 ∈ e.2)).
Qed.

Lemma check_allowed_spec m uid p bs len entries :
  name_in m p len bs → (∀ e, e ∈ entries → 0 ∉ e.2) →
  check_allowed entries m uid (Some p) =
    Some (existsb (λ e, (uid =? e.1) && bool_decide (cstr (unutf16 bs) = e.2)) entries).
Proof.
  intros Hn. apply name_in_chars in Hn as [Hc Hz]. induction entries as [|[u lit] entries IH]; intros He; [done|].
  simpl. assert (0 ∉ lit) as Hlit by (apply (He (u, lit)), elem_of_cons; by left).
  rewrite IH by (intros e Hin; apply He, elem_of_cons; by right).
  destruct (uid =? u); simpl; [|done]. rewrite (str16eq_spec m lit p _ Hc Hz Hlit), cstr_app_0. simpl.
  by destruct (bool_decide _).
Qed.

Lemma svc_can_register_spec m uid p bs len :
  name_in m p len bs → svc_can_register m uid (Some p) = Some (may_register uid bs).
Proof.
  intros Hn. unfold svc_can_register, may_register. destruct (_ || _); [done|].
  by rewrite (check_allowed_spec m uid p bs len allowed Hn allowed_no_nul).
Qed.

(** ** Operations on the registry *)

Lemma si_name_str8 si : si_ok si → ∃ r, str8 (si_name si) (Some 0) = Some r.
Proof.
  intros (Hl & Hn & Hk). apply (str8_loop_total _ _ _ (unutf16 (svc_key si ++ [0; 0]))).
  - apply mem_read_chars. rewrite <- Hn. rewrite mem_read_Some by lia. f_equal. apply seg_mget_all.
  - rewrite (unutf16_app_even _ (Z.to_nat (si_len si))) by lia. apply elem_of_app. right. by apply list_elem_of_singleton.
Qed.

Lemma svcinfo_death_spec st i si :
  reg_ok st → svclist st !! i = Some si →
  ∃ cs, svcinfo_death i st = Some (SvcState (<[i := set_ptr 0 si]> (svclist st)) (commands st ++ cs)) ∧
    (cs = if truthy (si_ptr si) then [BC_release (si_ptr si)] else []) ∧
    reg_ok (SvcState (<[i := set_ptr 0 si]> (svclist st)) (commands st ++ cs)).
Proof.
  intros Hok Hi. unfold svcinfo_death. rewrite Hi. cbn [mbind option_bind].
  assert (si_ok si) as Hsi by (pose proof (reg_entries _ Hok) as He; rewrite Forall_lookup in He; exact (He _ _ Hi)).
  destruct (si_name_str8 si Hsi) as [r ->]. cbn [mbind option_bind]. unfold truthy.
  destruct (Z.eqb_spec (si_ptr si) 0) as [Hz|Hz]; simpl.
  - exists []. assert (set_ptr 0 si = si) as -> by (destruct si; simpl in *; by subst).
    rewrite list_insert_id, app_nil_r by done. split_and!; by destruct st.
  - eexists. split; [done|]. split; [done|]. apply set_ptr_ok; [done|done|].
    intros h Hh. cbn [outstanding]. assert (c_bool (0 =? h) = 0) by (unfold c_bool; bcase Eb; lia). lia.
Qed.

(** The effect of a successful registration on the abstract registry. *)
Definition map_add (m : gmap (list Z) (Z * Z)) (k : list Z) (ptr iso : Z) : gmap (list Z) (Z * Z) :=
  <[k := (ptr, match m !! k with Some (_, i) => i | None => iso end)]> m.

Lemma register_svc_inv m s len ptr iso addr st rc st' :
  reg_ok st → 1 ≤ len ≤ 127 → ptr ≠ 0 → register_svc m s len ptr iso addr st = Some (rc, st') →
  (rc = -1 ∧ st' = st) ∨
  (rc = 0 ∧ reg_ok st' ∧ ∃ p bs, s = Some p ∧ mem_read m p (2 * len) = Some bs ∧
     registry st' = map_add (registry st) bs ptr iso).
Proof.
  intros Hok Hlen Hptr Hr. unfold register_svc in Hr. obind Hr. apply find_svc_inv in E as Hf; [|apply Hok].
  destruct o as [i|].
  - destruct Hf as (si & p & Hi & -> & Hm & Hl). rewrite Hi in Hr. cbn [mbind option_bind] in Hr.
    destruct (svcinfo_death_spec st i si Hok Hi) as (cs & Hd & Hcs & Hok1).
    right.
    assert (∃ pre, rc = 0 ∧ st' = SvcState (<[i := set_ptr ptr si]> (svclist st))
              (commands st ++ pre ++ [BC_acquire ptr; BC_request_death ptr (si_addr si)]) ∧
            ∀ h, h ≠ 0 → outstanding h pre = - c_bool (si_ptr si =? h)) as (pre & -> & -> & Hpre).
    { destruct (truthy (si_ptr si)) eqn:Et.
      - obind Hr. obind E0. rewrite Hd in E0. injection E0 as <-. simpl in Hr.
        rewrite list_lookup_insert_eq in Hr by (by apply lookup_lt_Some in Hi). cbn [mbind option_bind] in Hr.
        rewrite list_insert_insert_eq in Hr. injection Hr as <- <-. exists cs. unfold emit_cmds. simpl.
        rewrite <- app_assoc. split_and!; [done|done|]. intros h Hh. rewrite Hcs. simpl. lia.
      - cbn [mbind option_bind] in Hr. rewrite Hi in Hr. cbn [mbind option_bind] in Hr. injection Hr as <- <-.
        exists []. split_and!; [done|done|]. intros h Hh. unfold truthy in Et. simpl. unfold c_bool. bcase Eb; lia. }
    split; [done|]. split.
    + apply set_ptr_ok; [done|done|]. intros h Hh. rewrite outstanding_app, Hpre by done. simpl. lia.
    + exists p, (svc_key si). split_and!; [done|done|]. rewrite (registry_set_ptr st i si ptr _ Hok Hi).
      unfold map_add. by rewrite (registry_lookup st i si Hok Hi).
  - destruct (addr =? 0). { obind Hr. injection Hr as <- <-. by left. }
    right. obind Hr. obind Hr. obind Hr. injection Hr as <- <-. rewrite (wrap_small 32) in E1 by lia.
    apply mem_read_inv in E1 as (Hz & _ & Hzl & ->).
    apply mem_write_inv in E2 as (_ & _ & Hln & Hg). rewrite length_seg in Hln.
    set (bs := seg (mget m) z (2 * len)).
    assert (l0 = bs ++ [0; 0]) as ->.
    { apply mget_ext; [rewrite length_app; unfold bs; rewrite length_seg; simpl; lia|]. intros i Hi.
      rewrite Hg, mget_app by lia. unfold bs. rewrite length_seg. simpl length.
      destruct (i <? Z.of_nat (Z.to_nat (2 * len))) eqn:E1; bcase E2; try lia.
      - rewrite !mget_seg by lia. done.
      - f_equal. lia. }
    assert (svc_key (SvcInfo addr ptr iso len (bs ++ [0; 0])) = bs) as Hkey.
    { unfold svc_key. simpl. rewrite take_app_le by (unfold bs; rewrite length_seg; lia).
      apply take_ge. unfold bs. rewrite length_seg. lia. }
    assert (mem_read m z (2 * len) = Some bs) as Hread by (apply mem_read_Some; lia).
    assert (∀ si, si ∈ svclist st → svc_key si ≠ bs) as Hfresh.
    { intros si Hin Heq. destruct (decide (si_len si = len)) as [Hl|Hl].
      - destruct (Hf si Hin Hl) as (p & bs' & Hp & Hbs & Hne). injection Hp as <-. congruence.
      - pose proof (reg_entries _ Hok) as He. rewrite Forall_forall in He. destruct (He si Hin) as (_ & _ & Hk).
        apply Hl. rewrite Heq in Hk. unfold bs in Hk. rewrite zlen_seg in Hk by lia. lia. }
    split; [done|]. split; [|exists z, bs; split_and!; [done|done|]].
    + destruct Hok as [He Hn Hr']. split; simpl.
      * constructor; [|done]. unfold si_ok. rewrite Hkey. simpl. split_and!; [lia|lia|done|].
        unfold bs. rewrite zlen_seg; lia.
      * rewrite Hkey. constructor; [|done]. intros (si & -> & Hin)%list_elem_of_fmap. by apply (Hfresh si).
      * intros h Hh. rewrite outstanding_app, Hr' by done. simpl. lia.
    + unfold registry at 1, map_add. simpl. rewrite Hkey. by rewrite (registry_lookup_None st bs Hfresh).
Qed.

Lemma do_add_service_inv m s len ptr uid iso addr st rc st' :
  reg_ok st → 0 ≤ len → do_add_service m s len ptr uid iso addr st = Some (rc, st') →
  (rc = -1 ∧ st' = st) ∨
  (rc = 0 ∧ reg_ok st' ∧ ptr ≠ 0 ∧ 1 ≤ len ≤ 127 ∧ svc_can_register m uid s = Some true ∧
   ∃ p bs, s = Some p ∧ mem_read m p (2 * len) = Some bs ∧ registry st' = map_add (registry st) bs ptr iso).
Proof.
  intros Hok Hl Ha. unfold do_add_service in Ha. destruct (_ || _) eqn:Eg; [injection Ha as <- <-; by left|].
  obind Ha. destruct b; cycle 1. { obind Ha. injection Ha as <- <-. by left. }
  apply register_svc_inv in Ha as [?|(-> & Hok' & Hrest)]; [by left| |done|lia|lia].
  right. split_and!; [done|done|lia|lia|lia|done|done].
Qed.

(** Isolated processes: a range of the per-user application ids. *)
Definition isolated (uid : Z) : bool :=
  (AID_ISOLATED_START <=? uid mod AID_USER) && (uid mod AID_USER <=? AID_ISOLATED_END).

(** What a lookup promises. *)
Definition map_find (m : gmap (list Z) (Z * Z)) (uid : Z) (k : list Z) : Z :=
  match m !! k with
  | Some (ptr, iso) => if (iso =? 0) && isolated uid then 0 else ptr
  | None => 0
  end.

Lemma not_found_lookup m p len bs st :
  reg_ok st → zlen bs = 2 * len → mem_read m p (2 * len) = Some bs →
  (∀ si, si ∈ svclist st → si_len si = len → ∃ p' bs', Some p = Some p' ∧ mem_read m p' (2 * len) = Some bs' ∧ bs' ≠ svc_key si) →
  registry st !! bs = None.
Proof.
  intros Hok Hb Hr Hf. apply registry_lookup_None. intros si Hin Heq.
  pose proof (reg_entries _ Hok) as He. rewrite Forall_forall in He. destruct (He si Hin) as (_ & _ & Hk).
  destruct (Hf si Hin) as (p' & bs' & [= <-] & Hr' & Hne); [rewrite Heq in Hk; lia|]. congruence.
Qed.

Lemma do_find_service_spec m p len bs uid st :
  reg_ok st → name_in m p len bs →
  do_find_service m (Some p) len uid st = Some (map_find (registry st) uid bs).
Proof.
  intros Hok Hn. pose proof (name_in_read _ _ _ _ Hn) as Hr. destruct Hn as (Hl & Hb & _).
  unfold do_find_service, map_find.
  destruct (find_svc_total m p len (svclist st) bs (reg_entries _ Hok) Hr Hl) as [r Hf]. rewrite Hf. cbn [mbind option_bind].
  apply find_svc_inv in Hf; [|apply Hok]. destruct r as [i|].
  - destruct Hf as (si & p' & Hi & [= <-] & Hr' & _). rewrite Hi. cbn [mbind option_bind].
    assert (bs = svc_key si) as -> by congruence. rewrite (registry_lookup st i si Hok Hi).
    unfold truthy, isolated. destruct (Z.eqb_spec (si_ptr si) 0) as [->|]; simpl.
    + by destruct (_ && _).
    + destruct (si_allow_isolated si =? 0); simpl; [|done]. by destruct (_ && _).
  - by rewrite (not_found_lookup m p len bs st).
Qed.

(** Registering a terminated name never faults. *)
Lemma do_add_service_total m p len bs ptr uid iso addr st :
  reg_ok st → name_in m p len bs →
  ∃ rc st', do_add_service m (Some p) len ptr uid iso addr st = Some (rc, st') ∧
    (ptr ≠ 0 → 1 ≤ len ≤ 127 → may_register uid bs = true → addr ≠ 0 → rc = 0).
Proof.
  intros Hok Hn. pose proof (name_in_read _ _ _ _ Hn) as Hr. pose proof (name_in_chars _ _ _ _ Hn) as [Hc Hz].
  assert (∃ r8, str8 m (Some p) = Some r8) as [r8 H8] by exact (str8_loop_total m 127 p _ Hc Hz). pose proof Hn as (Hl & Hb & Hterm).
  unfold do_add_service. destruct (_ || _) eqn:Eg; [eexists _, _; split; [done|lia]|].
  rewrite (svc_can_register_spec m uid p bs len Hn). cbn [mbind option_bind].
  destruct (may_register uid bs); [|rewrite H8; cbn [mbind option_bind]; eexists _, _; by split].
  unfold register_svc. destruct (find_svc_total m p len (svclist st) bs (reg_entries _ Hok) Hr Hl) as [r Hf].
  rewrite Hf. cbn [mbind option_bind]. apply find_svc_inv in Hf; [|apply Hok]. destruct r as [i|].
  - destruct Hf as (si & p' & Hi & _). rewrite Hi. cbn [mbind option_bind].
    destruct (svcinfo_death_spec st i si Hok Hi) as (cs & Hd & _ & _).
    destruct (truthy (si_ptr si)).
    + rewrite H8. cbn [mbind option_bind]. rewrite Hd. cbn [mbind option_bind svclist].
      rewrite list_lookup_insert_eq by (by apply lookup_lt_Some in Hi). cbn [mbind option_bind]. eexists _, _. by split.
    + cbn [mbind option_bind]. rewrite Hi. cbn [mbind option_bind]. eexists _, _. by split.
  - destruct (addr =? 0) eqn:Ea; [rewrite H8; eexists _, _; split; [done|lia]|]. cbn [mbind option_bind].
    rewrite (wrap_small 32) by lia. replace ((len + 1) * 2) with (2 * len + 2) by lia. rewrite Hterm.
    cbn [mbind option_bind]. destruct (mem_write_Some (bs ++ [0; 0]) (2 * len) [0; 0]) as [nm ->];
      [lia|rewrite length_app; simpl; lia|]. cbn [mbind option_bind]. eexists _, _. by split.
Qed.

(** ** Properties *)

(** Looking up a terminated name in a well-formed registry never faults and
    returns the handle registered under exactly that name, or zero when there is
    none, the service has died, or the caller is isolated and the service does not admit
    isolated callers. *)
Theorem find_service_refines_map m p len bs uid st :
  reg_ok st → name_in m p len bs →
  do_find_service m (Some p) len uid st =
    Some match registry st !! bs with
         | Some (ptr, iso) => if (iso =? 0) && isolated uid then 0 else ptr
         | None => 0
         end.
Proof. apply do_find_service_spec. Qed.

(** C14: adding a terminated name never faults.  It succeeds for a non-null handle, a
    name of 1 to 127 characters and a permitted caller, when memory is available, and only
    then; it maps the name to the
    handle, keeping the isolation flag of an existing entry; otherwise the registry
    is unchanged.  The registry stays well-formed: names unique, one driver
    reference per live entry. *)
Theorem add_service_refines_map m p len bs ptr uid iso addr st :
  reg_ok st → name_in m p len bs →
  ∃ rc st', do_add_service m (Some p) len ptr uid iso addr st = Some (rc, st') ∧ reg_ok st' ∧
    (ptr ≠ 0 → 1 ≤ len ≤ 127 → may_register uid bs = true → addr ≠ 0 → rc = 0) ∧
    ((rc = -1 ∧ st' = st) ∨
     (rc = 0 ∧ ptr ≠ 0 ∧ 1 ≤ len ≤ 127 ∧ may_register uid bs = true ∧
      registry st' = map_add (registry st) bs ptr iso)).
Proof.
  intros Hok Hn. destruct (do_add_service_total m p len bs ptr uid iso addr st Hok Hn) as (rc & st' & Ha & Hsucc).
  exists rc, st'. split; [done|]. apply do_add_service_inv in Ha as Hinv; [|done|destruct Hn; lia].
  destruct Hinv as [[-> ->]|(-> & Hok' & Hp & Hl & Hc & q & bs' & [= <-] & Hr & Hreg)]; [by auto|].
  split; [done|]. split; [done|]. right. rewrite (svc_can_register_spec m uid p bs len Hn) in Hc. injection Hc as Hc.
  rewrite (name_in_read _ _ _ _ Hn) in Hr. injection Hr as <-. split_and!; done || lia.
Qed.

(** The notice that a service died releases its handle once, at the first
    notice, and removes the handle from the registry; the name and its isolation flag stay
    reserved. *)
Theorem death_releases_once st i si :
  reg_ok st → svclist st !! i = Some si →
  ∃ st1, svcinfo_death i st = Some st1 ∧ reg_ok st1 ∧ svcinfo_death i st1 = Some st1 ∧
    commands st1 = commands st ++ (if truthy (si_ptr si) then [BC_release (si_ptr si)] else []) ∧
    registry st1 = <[svc_key si := (0, si_allow_isolated si)]> (registry st).
Proof.
  intros Hok Hi. destruct (svcinfo_death_spec st i si Hok Hi) as (cs & Hd & Hcs & Hok1). set (st1 := SvcState _ _) in *.
  exists st1. split; [done|]. split; [done|]. split; [|split; [simpl; by rewrite Hcs|by apply registry_set_ptr]].
  assert (svclist st1 !! i = Some (set_ptr 0 si)) as Hi1.
  { simpl. apply list_lookup_insert_eq. by apply lookup_lt_Some in Hi. }
  destruct (svcinfo_death_spec st1 i (set_ptr 0 si) Hok1 Hi1) as (cs1 & Hd1 & Hcs1 & _). change (truthy (si_ptr (set_ptr 0 si))) with false in Hcs1. rewrite Hd1, Hcs1, app_nil_r.
  rewrite (list_insert_id (svclist st1) i) by done. done.
Qed.

Context `{BinderTypes}.

Lemma bio_get_uint32_nonneg b n b' : bio_get_uint32 b = Some (n, b') → Forall (λ z, 0 ≤ z < 256) (bio_mem b) → 0 ≤ n.
Proof.
  intros Hg Hb. unfold bio_get_uint32 in Hg. destruct (bio_get b 4) as [[p|] b1] eqn:E; [|injection Hg as <- _; lia].
  assert (bio_mem b1 = bio_mem b) as Hm.
  { unfold bio_get in E. destruct (_ <? _); injection E as _ <-; done. }
  obind Hg. injection Hg as <- _. unfold load32 in E0. obind E0. injection E0 as <-.
  unfold mem_read in E1. destruct (in_block _ _ _); [|done]. injection E1 as <-.
  rewrite Hm. assert (Forall (λ z, 0 ≤ z < 256) (take (Z.to_nat 4) (drop (Z.to_nat p) (bio_mem b)))) as Hf.
  { by apply Forall_take, Forall_drop. }
  induction Hf as [|x l Hx _ IH]; simpl; lia.
Qed.

(** The name in a request to add a service, as bytes. *)
Definition request_name (msg : binder_io) : option (list Z) :=
  '(_, msg) ← check_header msg; '(s, len, msg) ← bio_get_string16 msg; p ← s; mem_read (bio_mem msg) p (2 * len).

Lemma svcmgr_handler_inv txn msg reply addr st rc reply' st' :
  reg_ok st → Forall (λ z, 0 ≤ z < 256) (bio_mem msg) → bio_ok msg →
  svcmgr_handler txn msg reply addr st = Some (rc, reply', st') →
  reg_ok st' ∧ (st' = st ∨ svc_code_of (txn_code txn) = SVC_MGR_ADD_SERVICE ∧ rc = 0 ∧
    ∃ bs ptr iso, request_name msg = Some bs ∧ registry st' = map_add (registry st) bs ptr iso).
Proof.
  assert (∀ P, reg_ok st → reg_ok st ∧ (st = st ∨ P)) as Hsame by (intros P ?; split; [done|by left]).
  intros Hok Hby Hmsg Hh. unfold svcmgr_handler in Hh.
  destruct (negb (txn_target txn =? svcmgr_handle)); [simplify_eq; auto|]. obind Hh. destruct p as [ok msg1].
  assert (bio_ok msg1 ∧ bio_mem msg1 = bio_mem msg) as [Hm1 Hb1].
  { unfold check_header in E. destruct (bio_get_uint32_ok msg Hmsg) as (n & m1 & Eu & Ho1 & He1). rewrite Eu in E. cbn [mbind option_bind] in E.
    destruct (bio_get_string16_ok m1 Ho1) as (p & len & m2 & Es & Ho2 & He2). rewrite Es in E. cbn [mbind option_bind] in E.
    assert (msg1 = m2) as ->; [|split; [done|congruence]].
    destruct (len =? 26); [|obind E; by simplify_eq]. obind E. obind E.
    destruct (decide _); [by simplify_eq|]. obind E. by simplify_eq. }
  destruct (negb ok); [simplify_eq; auto|].
  destruct (svc_code_of (txn_code txn)) eqn:Ec.
  - obind Hh. destruct p as [[s len] m2]. obind Hh. destruct (_ =? 0); unfold reply_ok in Hh; obind Hh; simplify_eq; auto.
  - obind Hh. destruct p as [[s len] m2]. obind Hh. destruct (_ =? 0); unfold reply_ok in Hh; obind Hh; simplify_eq; auto.
  - destruct (bio_get_string16_ok msg1 Hm1) as (s & len & m2 & Es & Ho2 & He2). rewrite Es in Hh. cbn [mbind option_bind] in Hh.
    assert (0 ≤ len) as Hlen.
    { unfold bio_get_string16 in Es. obind Es. destruct p as [n b1]. cbn [mbind option_bind] in Es.
      destruct (bio_get b1 _) eqn:?. injection Es as _ <- _. apply (bio_get_uint32_nonneg msg1 n b1 E0). by rewrite Hb1. }
    destruct (bio_get_ref_ok m2 Ho2) as (ptr & m3 & Er & Ho3 & He3). rewrite Er in Hh. cbn [mbind option_bind] in Hh.
    destruct (bio_get_uint32_ok m3 Ho3) as (iso & m4 & Ei & Ho4 & He4). rewrite Ei in Hh. cbn [mbind option_bind] in Hh.
    obind Hh. destruct p as [rc1 st1]. apply do_add_service_inv in E0 as [[-> ->]|(-> & Hok1 & _ & _ & _ & p & bs & -> & Hbs & Hreg)]; [| |done|done]; simpl in Hh.
    + simplify_eq. auto.
    + unfold reply_ok in Hh. obind Hh. simplify_eq. split; [done|]. right. split; [done|]. split; [done|]. exists bs, ptr, (c_bool (truthy iso)). split; [|done].
      unfold request_name. rewrite E. cbn [mbind option_bind]. rewrite Es. cbn [mbind option_bind]. by rewrite <- He3, <- He4.
  - obind Hh. destruct p as [n m2]. destruct (nth_svc _ _); [obind Hh; obind Hh|]; simplify_eq; auto.
  - simplify_eq. auto.
Qed.

(** Whatever bytes a client sends, every request the handler completes leaves
    the registry well-formed: entries of 1 to 127 characters, unique names,
    and for each handle exactly as many references acquired and not released as
    entries holding it.  Only an add request changes it. *)
Theorem handler_keeps_registry_ok txn msg reply addr st rc reply' st' :
  reg_ok st → Forall (λ z, 0 ≤ z < 256) (bio_mem msg) → bio_ok msg →
  svcmgr_handler txn msg reply addr st = Some (rc, reply', st') →
  reg_ok st' ∧ (st' ≠ st → svc_code_of (txn_code txn) = SVC_MGR_ADD_SERVICE ∧ rc = 0).
Proof. intros Hok Hby Hmsg Hh. apply svcmgr_handler_inv in Hh as [Hok' [->|(? & ? & _)]]; [done|done| |done..]. done. Qed.

(** A caller that is neither root nor the system and owns no entry of the
    table can register nothing, whatever name it sends. *)
Theorem unlisted_uid_cannot_register m s len ptr uid iso addr st rc st' :
  reg_ok st → 0 ≤ len → uid ≠ 0 → uid ≠ AID_SYSTEM → (∀ e, e ∈ allowed → e.1 ≠ uid) →
  do_add_service m s len ptr uid iso addr st = Some (rc, st') → rc = -1 ∧ st' = st.
Proof.
  intros Hok Hl Hr0 Hs He Ha. apply do_add_service_inv in Ha as [?|(_ & _ & _ & _ & Hc & _)]; [done| |done|done].
  exfalso. unfold svc_can_register in Hc. destruct ((uid =? 0) || (uid =? AID_SYSTEM)) eqn:E; [lia|].
  revert Hc. revert He. generalize allowed. intros l. induction l as [|[u lit] l IH]; intros He Hc; simpl in Hc; [done|].
  destruct (Z.eqb_spec uid u) as [->|Hne].
  - apply (He (u, lit)); [apply elem_of_cons; by left|done].
  - apply IH; [|done]. intros e Hin. apply He, elem_of_cons. by right.
Qed.

End Operations.
