(* ===== verification/SvcRequests.v ===== *)
(** * Servicemanager: requests from a client's message to the registry

    A client builds a request with the [bio_put_*] functions, the handler decodes it and acts on
    the registry. *)
From stdpp Require Import gmap strings.
From S2P Require Import Prelude Bio BioProps Binder SvcMgr SvcProps.

Section Requests.
Context `{AndroidIds} `{BinderTypes}.

(** ** Decoding *)

Lemma utf16_length s : zlen (utf16 s) = 2 * zlen s.
Proof.
  induction s as [|c s IH]; [done|]. change (utf16 (c :: s)) with (le_encode 2 c ++ utf16 s).
  rewrite length_app, length_le_encode, length_cons. lia.
Qed.

Lemma get_uint32_item m offs p b n q :
  reader m offs p b → item_at m offs p (I_uint32 n) q → q - p ≤ data_avail b →
  ∃ b', bio_get_uint32 b = Some (n, b') ∧ reader m offs q b' ∧ data_avail b' = data_avail b - (q - p).
Proof.
  intros Hr [Hp [Hl ->]] Hav. exists (advance 4 b). split; [by apply (get_uint32_at m offs p); [| |lia]|].
  split; [apply reader_advance; [done|lia]|simpl; lia].
Qed.

Lemma get_string16_item m offs p b s q :
  reader m offs p b → item_at m offs p (I_string s) q → zlen s < 2 ^ 29 → q - p ≤ data_avail b →
  ∃ b', bio_get_string16 b = Some (Some (p + 4), zlen s, b') ∧ reader m offs q b' ∧
    data_avail b' = data_avail b - (q - p) ∧ name_in m (p + 4) (zlen s) (utf16 s).
Proof.
  intros Hr [Hp (Hl & Hs & ->)] Hlen Hav. destruct (string_size (zlen s)) as [Hsz Hr4]; [lia|].
  rewrite (wrap_small 32 (zlen s)) in Hsz by lia.
  exists (advance (round4 (2 * zlen s + 2)) (advance 4 b)). unfold bio_get_string16.
  rewrite (get_uint32_at m offs p b (zlen s)) by (done || lia). cbn [mbind option_bind].
  rewrite (wrap_small 32 (zlen s + 1)), Hsz by lia. rewrite bio_get_Some by (simpl; lia).
  pose proof Hr as (_ & _ & Hpos & _). split; [cbn [bio_pos advance]; by rewrite Hpos|].
  split; [apply reader_advance; [apply reader_advance; [done|lia]|simpl; lia]|]. split; [simpl; lia|].
  split; [lia|]. split; [apply utf16_length|]. rewrite Hs. f_equal. unfold utf16. by rewrite flat_map_app.
Qed.

Lemma get_ref_item m offs p b h q :
  0 ≤ BINDER_TYPE_HANDLE < 2 ^ 32 → 0 < h < 2 ^ 32 →
  reader m offs p b → item_at m offs p (I_ref h) q → q - p ≤ data_avail b →
  ∃ b', bio_get_ref b = Some (h, b') ∧ reader m offs q b' ∧ data_avail b' = data_avail b - (q - p).
Proof.
  intros Ht Hh Hr Hat Hav. destruct (get_like_at m offs p b (I_ref h) q Ht Hh Hr Hat Hav) as [Hg Hle].
  cbn [get_like] in Hg. obind Hg. destruct p0 as [h' b']. injection Hg as -> ->.
  exists (advance (q - p) b). split; [done|]. split; [|simpl; lia].
  pose proof (reader_advance m offs p b (q - p) Hr) as Ha. replace (p + (q - p)) with q in Ha by lia. apply Ha. lia.
Qed.

Lemma check_header_ok m offs b p q policy :
  reader m offs p b → items_at m offs p [I_uint32 policy; I_string svcmgr_id] q → q - p ≤ data_avail b →
  ∃ b', check_header b = Some (true, b') ∧ reader m offs q b' ∧ data_avail b' = data_avail b - (q - p).
Proof.
  intros Hr (q1 & H1 & q2 & H2 & Hq2) Hav. cbn [items_at] in Hq2. subst q.
  assert (p ≤ q1 ≤ q2) as Hq.
  { destruct H1 as [_ [_ ->]], H2 as [_ (_ & _ & ->)]. change (round4 (2 * zlen svcmgr_id + 2)) with 56. lia. }
  destruct (get_uint32_item m offs p b policy q1 Hr H1) as (b1 & E1 & Hr1 & Hd1); [lia|].
  destruct (get_string16_item m offs q1 b1 svcmgr_id q2 Hr1 H2) as (b2 & E2 & Hr2 & Hd2 & Hn); [done|lia|].
  exists b2. unfold check_header. rewrite E1. cbn [mbind option_bind]. rewrite E2. cbn [mbind option_bind].
  change (zlen svcmgr_id =? 26) with true. cbn iota. apply name_in_read in Hn.
  change (2 * zlen svcmgr_id) with 52 in Hn. pose proof Hr2 as (_ & -> & _). rewrite Hn. cbn [mbind option_bind].
  rewrite decide_True by done. split; [done|]. split; [done|lia].
Qed.

(** ** Requests as the client marshals them *)

(** The client's buffer and the message the handler sees. *)
Definition client_msg (its : list item) (data : list Z) (maxoffs : Z) : option binder_io :=
  b ← put_items its (bio_init (Bio [] 0 0 [] 0 0 0) data (zlen data) maxoffs);
  if Z.testbit (bio_flags b) 1 then None
  else Some (bio_init_from_txn (take (Z.to_nat (bio_pos b)) (bio_mem b)) (take (Z.to_nat (offs_pos b)) (bio_offs b))
               (bio_pos b) (4 * offs_pos b)).

Definition request (policy : Z) (args : list item) : list item := I_uint32 policy :: I_string svcmgr_id :: args.

Lemma client_msg_reads its data maxoffs msg :
  zlen data < 2 ^ 32 → 0 ≤ maxoffs → maxoffs * 4 ≤ zlen data → Forall item_valid its →
  client_msg its data maxoffs = Some msg →
  ∃ m offs p, reader m offs 0 msg ∧ items_at m offs 0 its p ∧ data_avail msg = p.
Proof.
  intros Hm Ho Hn Hv Hc. unfold client_msg in Hc. obind Hc. rename b into b', E into Hp.
  destruct (Z.testbit (bio_flags b') 1) eqn:Hf; [done|]. injection Hc as <-.
  destruct (bio_init_ok (Bio [] 0 0 [] 0 0 0) data (zlen data) maxoffs) as (Hok & Hp0 & Ho0); [done..|].
  destruct (put_items_written its _ b' Hok Hv Hp Hf) as (Hb' & _ & _ & Hle & _ & Hat). rewrite Hp0 in *.
  pose proof Hb' as []. set (mem := take _ (bio_mem b')). set (offs := take _ (bio_offs b')) in *.
  assert (zlen mem = bio_pos b') as Hml by (unfold mem; rewrite length_take; lia).
  assert (zlen offs = offs_pos b') as Hol by (unfold offs; rewrite length_take; lia).
  exists mem, offs, (bio_pos b'). assert (4 * offs_pos b' / 4 = offs_pos b') as Hdiv by divmod.
  split; [|split; [|done]].
  - unfold bio_init_from_txn. rewrite Hdiv. split; [split; simpl; lia|]. split_and!; done.
  - apply (items_at_agrees (bio_mem b')); [apply take_agrees; lia|done|done].
Qed.

(** The header of a marshalled request is accepted, and the arguments follow. *)
Lemma request_header policy args data maxoffs msg :
  zlen data < 2 ^ 32 → 0 ≤ maxoffs → maxoffs * 4 ≤ zlen data → Forall item_valid (request policy args) →
  client_msg (request policy args) data maxoffs = Some msg →
  ∃ m offs p q b, check_header msg = Some (true, b) ∧ reader m offs p b ∧ items_at m offs p args q ∧
    data_avail b = q - p.
Proof.
  intros Hm Ho Hn Hv Hc. destruct (client_msg_reads _ data maxoffs msg Hm Ho Hn Hv Hc) as (m & offs & q & Hr & Hat & Hav).
  destruct Hat as (q1 & H1 & p & H2 & Hargs). apply Forall_cons in Hv as [_ Hv]. apply Forall_cons in Hv as [_ Hv].
  pose proof (items_at_le _ _ _ _ _ Hv Hargs).
  destruct (check_header_ok m offs msg 0 p policy Hr) as (b & Hb & Hrb & Hd); [by exists q1; split; [|exists p]|lia|].
  exists m, offs, p, q, b. split; [done|]. split; [done|]. split; [done|lia].
Qed.

(** The message of a request a client marshalled into a buffer of any size, without overflow. *)
Definition marshalled (its : list item) (msg : binder_io) : Prop :=
  ∃ data maxoffs, zlen data < 2 ^ 32 ∧ 0 ≤ maxoffs ∧ maxoffs * 4 ≤ zlen data ∧ Forall item_valid its ∧
    client_msg its data maxoffs = Some msg.

Lemma marshalled_header policy args msg :
  marshalled (request policy args) msg →
  Forall item_valid args ∧
  ∃ m offs p q b, check_header msg = Some (true, b) ∧ reader m offs p b ∧ items_at m offs p args q ∧
    data_avail b = q - p.
Proof.
  intros (data & maxoffs & Hm & Ho & Hn & Hv & Hc). split; [|by apply (request_header policy args data maxoffs)].
  by apply Forall_cons in Hv as [_ [_ Hv]%Forall_cons].
Qed.

Lemma reply_ok_total reply st :
  bio_ok reply → ∃ r, bio_put_uint32 reply 0 = Some r ∧ reply_ok reply st = Some (0, r, st).
Proof. intros Hr. destruct (bio_put_uint32_ok reply 0 Hr) as (r & E & _). exists r. unfold reply_ok. by rewrite E. Qed.

Lemma item_at_le m offs p it q its q' :
  Forall item_valid (it :: its) → item_at m offs p it q → items_at m offs q its q' → p ≤ q ≤ q'.
Proof.
  intros [Hv Hvs]%Forall_cons Hi Hs. split; [|by apply (items_at_le m offs its)].
  apply (items_at_le m offs [it]); [by repeat constructor|by exists q].
Qed.

Lemma add_request_spec policy name ptr iso msg txn reply addr st :
  0 ≤ BINDER_TYPE_HANDLE < 2 ^ 32 → marshalled (request policy [I_string name; I_ref ptr; I_uint32 iso]) msg →
  reg_ok st → bio_ok reply → txn_target txn = 0 → svc_code_of (txn_code txn) = SVC_MGR_ADD_SERVICE →
  1 ≤ zlen name ≤ 127 → may_register (txn_sender_euid txn) (utf16 name) = true → addr ≠ 0 →
  ∃ r st', bio_put_uint32 reply 0 = Some r ∧ svcmgr_handler txn msg reply addr st = Some (0, r, st') ∧ reg_ok st' ∧
    registry st' = map_add (registry st) (utf16 name) ptr (c_bool (truthy iso)).
Proof.
  intros Ht Hmsg Hok Hrep Htg Hcode Hlen Hmay Haddr.
  apply marshalled_header in Hmsg as (Hv & m & offs & p & q & b & Hh & Hr & Hat & Hav).
  unfold svcmgr_handler. rewrite Htg, Hcode. change (negb (0 =? svcmgr_handle)) with false. cbn iota.
  rewrite Hh. cbn [mbind option_bind negb].
  destruct Hat as (q1 & H1 & Hat). pose proof (item_at_le _ _ _ _ _ _ _ Hv H1 Hat) as Hq1. apply Forall_cons in Hv as [_ Hv].
  destruct Hat as (q2 & H2 & Hat). pose proof (item_at_le _ _ _ _ _ _ _ Hv H2 Hat) as Hq2. apply Forall_cons in Hv as [Hptr Hv].
  destruct Hat as (q3 & H3 & Hat). pose proof (item_at_le _ _ _ _ _ _ _ Hv H3 Hat) as Hq3.
  destruct (get_string16_item m offs p b name q1 Hr H1) as (b1 & -> & Hr1 & Hd1 & Hn); [lia|lia|]. cbn [mbind option_bind].
  destruct (get_ref_item m offs q1 b1 ptr q2 Ht Hptr Hr1 H2) as (b2 & -> & Hr2 & Hd2); [lia|]. cbn [mbind option_bind].
  destruct (get_uint32_item m offs q2 b2 iso q3 Hr2 H3) as (b3 & -> & Hr3 & Hd3); [lia|]. cbn [mbind option_bind].
  pose proof Hr3 as (_ & -> & _).
  destruct (do_add_service_total m (p + 4) (zlen name) (utf16 name) ptr (txn_sender_euid txn) (c_bool (truthy iso)) addr st Hok Hn)
    as (rc & st' & Ha & Hsucc). rewrite Ha. cbn [mbind option_bind]. simpl in Hptr.
  rewrite Hsucc in * by (done || lia). change (truthy 0) with false. cbn iota.
  destruct (reply_ok_total reply st' Hrep) as (r & Er & ->). exists r, st'. split; [done|]. split; [done|].
  apply do_add_service_inv in Ha as [[? _]|(_ & Hok' & _ & _ & _ & p' & bs & [= <-] & Hbs & Hreg)]; [done| |done|lia].
  rewrite (name_in_read _ _ _ _ Hn) in Hbs. injection Hbs as <-. done.
Qed.

Lemma find_request_spec policy name msg txn reply addr st :
  marshalled (request policy [I_string name]) msg → reg_ok st → bio_ok reply → txn_target txn = 0 →
  svc_code_of (txn_code txn) = SVC_MGR_GET_SERVICE ∨ svc_code_of (txn_code txn) = SVC_MGR_CHECK_SERVICE →
  let h := map_find (registry st) (txn_sender_euid txn) (utf16 name) in
  ∃ r, (if h =? 0 then bio_put_uint32 reply 0 else bio_put_ref reply h) = Some r ∧ bio_ok r ∧
    svcmgr_handler txn msg reply addr st = Some (0, r, st).
Proof.
  intros Hmsg Hok Hrep Htg Hcode h. apply marshalled_header in Hmsg as (Hv & m & offs & p & q & b & Hh & Hr & Hat & Hav).
  unfold svcmgr_handler. rewrite Htg. change (negb (0 =? svcmgr_handle)) with false. cbn iota.
  rewrite Hh. cbn [mbind option_bind negb].
  destruct Hat as (q1 & H1 & Hat). pose proof (item_at_le _ _ _ _ _ _ _ Hv H1 Hat) as Hq1. apply Forall_cons in Hv as [[_ Hl] _].
  destruct (get_string16_item m offs p b name q1 Hr H1) as (b1 & Hb1 & Hr1 & Hd1 & Hn); [lia|lia|].
  pose proof Hr1 as (_ & Hm1 & _).
  assert (∃ r, (if h =? 0 then bio_put_uint32 reply 0 else bio_put_ref reply h) = Some r ∧ bio_ok r) as (r & Hput & Hrok).
  { destruct (h =? 0); [by apply bio_put_uint32_ok|by apply bio_put_ref_ok]. }
  exists r. split; [done|]. split; [done|].
  destruct Hcode as [-> | ->]; rewrite Hb1; cbn [mbind option_bind]; rewrite Hm1, (do_find_service_spec m (p + 4) _ _ _ st Hok Hn);
    cbn [mbind option_bind]; fold h; unfold reply_ok; (destruct (h =? 0); rewrite Hput; done).
Qed.

(** ** Properties *)

(** What reaches the program: a request, or the notice that the service of an entry died. *)
Inductive svc_event :=
| Request (txn : binder_txn) (msg reply : binder_io) (addr : Z)
| Death (cookie : Z).

Definition svc_step (e : svc_event) (st : svc_state) : option svc_state :=
  match e with
  | Request txn msg reply addr => '(_, _, st) ← svcmgr_handler txn msg reply addr st; Some st
  | Death cookie => i ← entry_of cookie (svclist st); svcinfo_death i st
  end.

(** An event that leaves the entry of a name alone: any request, of well-formed bytes, that is not one to add the name, and any notice that is not for its entry. *)
Definition spares (key : list Z) (e : svc_event) (st : svc_state) : Prop :=
  match e with
  | Request txn msg _ _ => Forall (λ z, 0 ≤ z < 256) (bio_mem msg) ∧ bio_ok msg ∧
      (svc_code_of (txn_code txn) = SVC_MGR_ADD_SERVICE → request_name msg ≠ Some key)
  | Death cookie => ∀ i si, entry_of cookie (svclist st) = Some i → svclist st !! i = Some si → svc_key si ≠ key
  end.

Inductive later (key : list Z) : svc_state → svc_state → Prop :=
| Later_now st : later key st st
| Later_step st e st1 st2 : spares key e st → svc_step e st = Some st1 → later key st1 st2 → later key st st2.

Lemma step_spares key e st st' : reg_ok st → spares key e st → svc_step e st = Some st' → reg_ok st' ∧ registry st' !! key = registry st !! key.
Proof.
  intros Hok Hsp Hst. destruct e as [txn msg reply addr|cookie]; cbn [svc_step] in Hst.
  - obind Hst. destruct p as [[rc r] st1]. injection Hst as <-. destruct Hsp as (Hby & Hmsg & Hname).
    apply svcmgr_handler_inv in E as (Hok1 & [->|(Hc & _ & bs & ptr & iso & Hbs & Hreg)]); [done|split; [done|]|done..].
    rewrite Hreg. unfold map_add. rewrite lookup_insert_ne; [done|]. intros ->. by apply (Hname Hc).
  - obind Hst. destruct (svclist st !! n) as [si|] eqn:Hi; [|by unfold svcinfo_death in Hst; rewrite Hi in Hst].
    destruct (svcinfo_death_spec st n si Hok Hi) as (cs & Hd & _ & Hok1). rewrite Hd in Hst. injection Hst as <-. split; [done|].
    rewrite (registry_set_ptr st n si 0 _ Hok Hi). apply lookup_insert_ne. by apply (Hsp n si).
Qed.

Lemma later_keeps key st st' : later key st st' → reg_ok st → reg_ok st' ∧ registry st' !! key = registry st !! key.
Proof.
  induction 1 as [|st e st1 st2 Hsp Hst _ IH]; intros Hok; [done|]. destruct (step_spares key e st st1 Hok Hsp Hst) as [Hok1 E1].
  destruct (IH Hok1) as [Hok2 E2]. split; [done|congruence].
Qed.


(** A request whose header claims the 26 characters of the interface name but ends
    there makes the handler compare through a null pointer: [bio_get_string16]
    returns NULL with the claimed length, and only the length is checked. *)
Theorem truncated_header_faults code euid reply addr st :
  svcmgr_handler (Txn 0 0 code 0 0 euid 8 0 0 0) (bio_init_from_txn (le_encode 4 0 ++ le_encode 4 26) [] 8 0) reply addr st = None.
Proof. reflexivity. Qed.

Lemma cstr_stop lit s : 0 ∉ lit → cstr (lit ++ 0 :: s) = lit.
Proof.
  induction lit as [|c lit IH]; intros Hn; [done|]. simpl. apply not_elem_of_cons in Hn as [Hc Hn].
  bcase E; [lia|]. by rewrite IH.
Qed.

(** The permission table is matched up to the first terminator while the registry
    uses the full length, so an owner of an entry can register any name that continues
    the entry's after a zero character. *)
Theorem embedded_nul_passes_table m p uid lit s st ptr iso addr :
  reg_ok st → (uid, lit) ∈ allowed → Forall (λ c, 0 ≤ c < 2 ^ 16) (lit ++ 0 :: s) → zlen (lit ++ 0 :: s) ≤ 127 →
  name_in m p (zlen (lit ++ 0 :: s)) (utf16 (lit ++ 0 :: s)) → ptr ≠ 0 → addr ≠ 0 →
  ∃ st', do_add_service m (Some p) (zlen (lit ++ 0 :: s)) ptr uid iso addr st = Some (0, st') ∧
    registry st' = map_add (registry st) (utf16 (lit ++ 0 :: s)) ptr iso.
Proof.
  intros Hok Hin Hc Hlen Hn Hptr Haddr. set (name := lit ++ 0 :: s) in *.
  assert (may_register uid (utf16 name) = true) as Hmay.
  { unfold may_register. rewrite unutf16_utf16 by done. unfold name. rewrite cstr_stop by (by apply (allowed_no_nul (uid, lit))).
    apply orb_true_iff. right. apply existsb_exists. exists (uid, lit). split; [by apply list_elem_of_In|].
    simpl. rewrite Z.eqb_refl. by rewrite bool_decide_eq_true_2. }
  destruct (do_add_service_total m p (zlen name) (utf16 name) ptr uid iso addr st Hok Hn) as (rc & st' & Ha & Hs).
  assert (1 ≤ zlen name) by (unfold name; rewrite length_app; simpl; lia).
  rewrite Hs in Ha by (done || lia). exists st'. split; [done|].
  apply do_add_service_inv in Ha as [[? _]|(_ & _ & _ & _ & _ & p' & bs & [= <-] & Hbs & Hreg)]; [done| |done|lia].
  rewrite (name_in_read _ _ _ _ Hn) in Hbs. by injection Hbs as <-.
Qed.

End Requests.

Module SvcDemo.
#[local] Instance types : BinderTypes := {|
  BINDER_TYPE_BINDER := 0x73622a85; BINDER_TYPE_HANDLE := 0x73682a85; FLAT_BINDER_FLAG_ACCEPTS_FDS := 0x100 |}.
#[local] Instance ids : AndroidIds := {|
  AID_SYSTEM := 1000; AID_MEDIA := 1013; AID_DRM := 1019; AID_NFC := 1027; AID_BLUETOOTH := 1002; AID_RADIO := 1001;
  AID_KEYSTORE := 1017; AID_USER := 100000; AID_ISOLATED_START := 99000; AID_ISOLATED_END := 99999 |}.

(** "nfc" with its terminator, and "media.player" continued after a zero. *)
Definition nfc : list Z := utf16 (chars "nfc") ++ [0; 0].
Definition evil : list Z := chars "media.player" ++ 0 :: chars "x".
Definition nfc_entry : svcinfo := SvcInfo 4096 5 0 3 nfc.
Definition nfc_state : svc_state := SvcState [nfc_entry] [BC_acquire 5; BC_request_death 5 4096].

Lemma init_ok : reg_ok svc_init.
Proof. split; [done|apply NoDup_nil_2|done]. Qed.

Lemma nfc_state_ok : reg_ok nfc_state.
Proof.
  split.
  - repeat constructor; vm_compute; intuition discriminate.
  - apply NoDup_singleton.
  - intros h Hh. simpl. lia.
Qed.

Lemma nfc_named : name_in nfc 0 3 (utf16 (chars "nfc")).
Proof. split; [lia|]. by split. Qed.

Lemma find_service_refines_map_witness :
  do_find_service nfc (Some 0) 3 10050 nfc_state = Some 5 ∧ do_find_service nfc (Some 0) 3 99001 nfc_state = Some 0.
Proof.
  split; (etransitivity; [apply (find_service_refines_map _ _ _ _ _ _ nfc_state_ok nfc_named)|vm_compute; reflexivity]).
Defined.

Lemma add_service_refines_map_witness :
  ∃ rc st', do_add_service nfc (Some 0) 3 7 1027 1 8192 nfc_state = Some (rc, st') ∧ reg_ok st' ∧ rc = 0.
Proof.
  destruct (add_service_refines_map nfc 0 3 _ 7 1027 1 8192 nfc_state nfc_state_ok nfc_named) as (rc & st' & Ha & Hok & Hs & _).
  exists rc, st'. split; [exact Ha|]. split; [exact Hok|]. apply Hs; [lia|lia|vm_compute; reflexivity|lia].
Defined.

Lemma death_releases_once_witness :
  ∃ st1, svcinfo_death 0 nfc_state = Some st1 ∧ commands st1 = commands nfc_state ++ [BC_release 5].
Proof.
  destruct (death_releases_once nfc_state 0 nfc_entry nfc_state_ok eq_refl) as (st1 & Hd & _ & _ & Hc & _).
  exists st1. split; [exact Hd|exact Hc].
Defined.

Definition empty_msg (its : list item) : binder_io :=
  match client_msg its (replicate 256 0) 4 with Some b => b | None => Bio [] 0 0 [] 0 0 0 end.
Definition reply : binder_io := bio_init (Bio [] 0 0 [] 0 0 0) (replicate 256 0) 256 4.

Definition add_txn : binder_txn := Txn 0 0 3 0 77 1027 92 4 0 0.
Definition get_txn : binder_txn := Txn 0 0 1 0 78 10050 72 0 0 0.
Definition add_items : list item := request 0 [I_string (chars "nfc"); I_ref 5; I_uint32 0].
Definition get_items : list item := request 0 [I_string (chars "nfc")].

Lemma reply_is_ok : bio_ok reply.
Proof. by apply bio_init_ok. Qed.

Lemma add_marshalled : marshalled add_items (empty_msg add_items).
Proof.
  exists (replicate 256 0), 4. split; [reflexivity|]. split; [lia|]. split; [rewrite length_replicate; lia|].
  split; [|vm_compute; reflexivity]. repeat (apply Forall_cons; split); try apply Forall_nil; try done; simpl; try lia;
    (split; [repeat constructor|reflexivity]).
Qed.

Lemma get_marshalled : marshalled get_items (empty_msg get_items).
Proof.
  exists (replicate 256 0), 4. split; [reflexivity|]. split; [lia|]. split; [rewrite length_replicate; lia|].
  split; [|vm_compute; reflexivity]. repeat (apply Forall_cons; split); try apply Forall_nil; try done; simpl; try lia;
    (split; [repeat constructor|reflexivity]).
Qed.

Lemma get_msg_ok : bio_ok (empty_msg get_items).
Proof. split; vm_compute; intuition discriminate. Qed.

(** What other clients ask meanwhile. *)
Definition other_events : list svc_event := [Request get_txn (empty_msg get_items) reply 0; Request (Txn 0 0 9 0 0 0 0 0 0 0) reply reply 0].

Lemma others_spare key : (∀ st, spares key (Request get_txn (empty_msg get_items) reply 0) st) ∧ (∀ st, spares key (Request (Txn 0 0 9 0 0 0 0 0 0 0) reply reply 0) st).
Proof.
  assert (bool_decide (Forall (λ z, 0 ≤ z < 256) (bio_mem (empty_msg get_items))) = true ∧ bool_decide (Forall (λ z, 0 ≤ z < 256) (bio_mem reply)) = true) as [H1 H2] by (vm_compute; done).
  apply bool_decide_eq_true_1 in H1, H2. split; intros st.
  - split; [exact H1|]. split; [apply get_msg_ok|]. intros Hc. exfalso. clear -Hc. vm_compute in Hc. discriminate.
  - split; [exact H2|]. split; [apply reply_is_ok|]. intros Hc. exfalso. clear -Hc. vm_compute in Hc. discriminate.
Qed.


Lemma handler_keeps_registry_ok_witness :
  ∃ rc r st', svcmgr_handler add_txn (empty_msg add_items) reply 4096 svc_init = Some (rc, r, st') ∧
    reg_ok st'.
Proof.
  destruct (svcmgr_handler add_txn (empty_msg add_items) reply 4096 svc_init) as [[[rc r] st']|] eqn:E.
  - exists rc, r, st'. split; [done|]. apply (handler_keeps_registry_ok _ _ _ _ _ _ _ _ init_ok) in E as [Hok _]; [exact Hok| |].
    + vm_compute. repeat constructor; intuition discriminate.
    + split; vm_compute; intuition discriminate.
  - vm_compute in E. discriminate.
Defined.

Lemma embedded_nul_passes_table_witness :
  ∃ st', do_add_service (utf16 evil ++ [0; 0]) (Some 0) 14 9 1013 0 4096 svc_init = Some (0, st') ∧
    registry st' = map_add ∅ (utf16 evil) 9 0.
Proof.
  destruct (embedded_nul_passes_table (utf16 evil ++ [0; 0]) 0 1013 (chars "media.player") (chars "x") svc_init 9 0 4096)
    as (st' & Ha & Hr); [exact init_ok|by apply (list_elem_of_lookup_2 _ 2)
    |apply (bool_decide_eq_true_1 _); vm_compute; reflexivity|vm_compute; discriminate| |done|done|].
  - split; [vm_compute; intuition discriminate|]. by split.
  - exists st'. split; [exact Ha|exact Hr].
Defined.

Lemma unlisted_uid_cannot_register_witness :
  do_add_service nfc (Some 0) 3 7 10050 1 8192 nfc_state = Some (-1, nfc_state).
Proof.
  destruct (do_add_service nfc (Some 0) 3 7 10050 1 8192 nfc_state) as [[rc st']|] eqn:E; [|vm_compute in E; discriminate].
  apply (unlisted_uid_cannot_register _ _ _ _ _ _ _ _ _ _ nfc_state_ok) in E as [-> ->]; [done|lia|lia|vm_compute; lia|].
  intros e He Heq. assert (forallb (λ e : Z * list Z, negb (e.1 =? 10050)) allowed = true) as Hall by reflexivity.
  rewrite forallb_forall in Hall. apply list_elem_of_In in He. specialize (Hall e He). rewrite Heq in Hall. discriminate.
Defined.
End SvcDemo.
