(* ===== verification/BinderProps.v ===== *)
(** * Servicemanager: properties of the driver loop

    The parser refines a fold over the events the driver encoded, the workaround
    for a corrupted first word, and the replies of the servicemanager: one per
    transaction, in order, with the registry well-formed throughout. *)
From stdpp Require Import gmap.
From S2P Require Import Prelude Bio BioProps Binder SvcMgr SvcProps SvcRequests.

(** The labels of the switch are distinct constants (a C compiler accepts the
    switch only then). *)
Class BinderReturnsLaws `{BinderReturns} := {
  returns_distinct : NoDup [BR_NOOP; BR_TRANSACTION_COMPLETE; BR_INCREFS; BR_ACQUIRE; BR_RELEASE; BR_DECREFS;
    BR_TRANSACTION; BR_REPLY; BR_DEAD_BINDER; BR_FAILED_REPLY; BR_DEAD_REPLY] }.

(** ** The events of a read *)

Inductive ref_cmd := R_increfs | R_acquire | R_release | R_decrefs.

Inductive event :=
| E_noop
| E_complete
| E_ref (c : ref_cmd) (ptr cookie : Z)
| E_transaction (t : binder_txn)
| E_reply (t : binder_txn)
| E_dead_binder (cookie : Z)
| E_failed_reply
| E_dead_reply.

Definition txn_words (t : binder_txn) : list Z :=
  [txn_target t; txn_cookie t; txn_code t; txn_flags t; txn_sender_pid t; txn_sender_euid t;
   txn_data_size t; txn_offs_size t; txn_data t; txn_offs t].

Section Parse.
Context `{BinderReturnsLaws} {W : Type} `{BinderClient W}.

Definition ref_code (c : ref_cmd) : Z :=
  match c with R_increfs => BR_INCREFS | R_acquire => BR_ACQUIRE | R_release => BR_RELEASE | R_decrefs => BR_DECREFS end.

Definition event_words (e : event) : list Z :=
  match e with
  | E_noop => [BR_NOOP]
  | E_complete => [BR_TRANSACTION_COMPLETE]
  | E_ref c p k => [ref_code c; p; k]
  | E_transaction t => BR_TRANSACTION :: txn_words t
  | E_reply t => BR_REPLY :: txn_words t
  | E_dead_binder k => [BR_DEAD_BINDER; k]
  | E_failed_reply => [BR_FAILED_REPLY]
  | E_dead_reply => [BR_DEAD_REPLY]
  end.

Definition events_words (es : list event) : list Z := flat_map event_words es.

(** What an event means: the return value, the caller's buffer and the program. *)
Definition run_event (func : bool) (mp : mapping) (rdata : list Z) (s : Z * option binder_io * bool * W) (e : event) :
    option (Z * option binder_io * bool * W) :=
  let '(r, out, free, w) := s in
  match e with
  | E_noop | E_complete | E_ref _ _ _ => Some s
  | E_transaction t => w ← (if func then do_transaction mp rdata t w else Some w); Some (r, out, free, w)
  | E_reply t => Some (0, if free then Some (txn_msg mp t) else out, false, w)
  | E_dead_binder k => w ← client_death k w; Some (r, out, free, w)
  | E_failed_reply | E_dead_reply => Some (-1, out, free, w)
  end.

Definition run_events (bio func : bool) (mp : mapping) (rdata : list Z) (es : list event) (w : W) :
    option (Z * option binder_io * W) :=
  '(r, out, _, w) ← foldM (run_event func mp rdata) (1, None, bio, w) es; Some (r, out, w).

Lemma label_codes :
  label BR_NOOP = L_noop ∧ label BR_TRANSACTION_COMPLETE = L_complete ∧ (∀ c, label (ref_code c) = L_refs) ∧
  label BR_TRANSACTION = L_transaction ∧ label BR_REPLY = L_reply ∧ label BR_DEAD_BINDER = L_dead_binder ∧
  label BR_FAILED_REPLY = L_failed_reply ∧ label BR_DEAD_REPLY = L_dead_reply.
Proof.
  pose proof returns_distinct as Hd. repeat setoid_rewrite NoDup_cons in Hd. repeat setoid_rewrite not_elem_of_cons in Hd.
  destruct_and! Hd. unfold label. split_and!; try (intros c; destruct c; unfold ref_code);
    repeat match goal with |- context [?x =? ?y] => destruct (Z.eqb_spec x y); [try congruence|]; [..|try congruence] end;
    simpl; congruence.
Qed.

(** The ten words of a transaction read back. *)
Lemma txn_at_words pre t rest : txn_at (pre ++ txn_words t ++ rest) (length pre) = Some t.
Proof.
  assert (∀ (l : list Z) k, (pre ++ l) !! (length pre + k)%nat = l !! k) as Hk.
  { intros l k. rewrite lookup_app_r by lia. f_equal. lia. }
  assert (∀ l : list Z, (pre ++ l) !! length pre = l !! 0%nat) as H0k.
  { intros l. rewrite <- (Hk l 0%nat). f_equal. lia. }
  unfold txn_at. rewrite H0k, !Hk. by destruct t.
Qed.

(** One round on the first word of an event is the event. *)
Lemma parse_word_event func mp rdata pre e rest n r out free w :
  (length pre + length (event_words e) ≤ n)%nat →
  parse_word func mp rdata (pre ++ event_words e ++ rest) n (length pre) r out free w =
    '(r, out, free, w) ← run_event func mp rdata (r, out, free, w) e;
    Some (Continue (length pre + length (event_words e)) r out free w).
Proof.
  intros Hn. destruct label_codes as (Hnoop & Hcomp & Hrefs & Htxn & Hrep & Hdead & Hfail & Hdrep).
  unfold parse_word. assert (∃ c tl, event_words e = c :: tl) as (c & tl & Hc) by (destruct e; by eexists _, _).
  assert ((pre ++ event_words e ++ rest) !! length pre = Some c) as H0c.
  { rewrite lookup_app_r, Nat.sub_diag, Hc by lia. done. }
  assert ((pre ++ event_words e ++ rest) !! (length pre + 1)%nat = (tl ++ rest) !! 0%nat) as H1c.
  { rewrite lookup_app_r, Hc by lia. replace (length pre + 1 - length pre)%nat with 1%nat by lia. done. }
  rewrite H0c, H1c. cbn [mbind option_bind].
  destruct e; injection Hc as <- <-; cbn [event_words length] in *;
    rewrite ?Hnoop, ?Hcomp, ?Hrefs, ?Htxn, ?Hrep, ?Hdead, ?Hfail, ?Hdrep; try done.
  - destruct (Nat.ltb_spec (n - (length pre + 1)) 10); [simpl in *; lia|].
    pose proof (txn_at_words (pre ++ [BR_TRANSACTION]) t rest) as Ht.
    rewrite length_app, <- app_assoc in Ht. cbn [length app] in Ht. cbn [app]. rewrite Ht.
    cbn [mbind option_bind run_event]. by destruct (if func then _ else _).
  - destruct (Nat.ltb_spec (n - (length pre + 1)) 10); [simpl in *; lia|].
    pose proof (txn_at_words (pre ++ [BR_REPLY]) t rest) as Ht.
    rewrite length_app, <- app_assoc in Ht. cbn [length app] in Ht. cbn [app]. rewrite Ht. done.
  - cbn [mbind option_bind run_event lookup list_lookup app]. by destruct (client_death cookie w).
Qed.

Lemma event_words_pos e : (1 ≤ length (event_words e))%nat.
Proof. destruct e; simpl; lia. Qed.

Lemma parse_loop_events func mp rdata rest es : ∀ fuel pre n r out free w,
  n = (length pre + length (events_words es))%nat → (length (events_words es) ≤ fuel)%nat →
  parse_loop fuel func mp rdata (pre ++ events_words es ++ rest) n (length pre) r out free w =
    '(r, out, _, w) ← foldM (run_event func mp rdata) (r, out, free, w) es; Some (r, out, w).
Proof.
  induction es as [|e es IH]; intros fuel pre n r out free w -> Hf; cbn [events_words flat_map length] in *.
  { rewrite Nat.add_0_r. destruct fuel; simpl; by rewrite Nat.ltb_irrefl. }
  fold (events_words es) in *. rewrite length_app in *. pose proof (event_words_pos e).
  destruct fuel as [|fuel]; [lia|]. cbn [parse_loop]. bcase E; [|lia].
  rewrite <- app_assoc, parse_word_event by lia. cbn [foldM].
  destruct (run_event func mp rdata (r, out, free, w) e) as [[[[r1 out1] free1] w1]|]; [|done]. cbn [mbind option_bind].
  rewrite app_assoc, <- (length_app pre (event_words e)). apply IH; [rewrite length_app; lia|lia].
Qed.

Lemma binder_parse_events bio func mp rdata es rest size w :
  size / 4 = zlen (events_words es) →
  binder_parse bio func mp rdata (events_words es ++ rest) size w = run_events bio func mp rdata es w.
Proof.
  intros Hs. unfold binder_parse, run_events. rewrite Hs, Nat2Z.id.
  apply (parse_loop_events func mp rdata rest es _ [] _ 1 None bio w); simpl; lia.
Qed.

(** A round looks at the words from its index on, and moves on. *)
Lemma parse_word_advances func mp rdata ws n i r out free w j r' out' free' w' :
  parse_word func mp rdata ws n i r out free w = Some (Continue j r' out' free' w') → (i < j)%nat.
Proof.
  intros Hp. unfold parse_word in Hp. obind Hp.
  destruct (label _); try (injection Hp; lia); try (destruct (_ <? _)%nat; [done|]); try (obind Hp; injection Hp; lia);
    try (obind Hp; obind Hp; injection Hp; lia).
  destruct (i =? 0)%nat; [injection Hp; lia|done].
Qed.

Lemma parse_word_tail c c' func mp rdata ws n i r out free w :
  (1 ≤ i)%nat →
  parse_word func mp rdata (c :: ws) n i r out free w = parse_word func mp rdata (c' :: ws) n i r out free w.
Proof. intros Hi. destruct i as [|i]; [lia|]. done. Qed.

Lemma parse_loop_tail c c' func mp rdata ws n fuel : ∀ i r out free w,
  (1 ≤ i)%nat →
  parse_loop fuel func mp rdata (c :: ws) n i r out free w = parse_loop fuel func mp rdata (c' :: ws) n i r out free w.
Proof.
  induction fuel as [|fuel IH]; intros i r out free w Hi; [done|]. cbn [parse_loop].
  rewrite (parse_word_tail c c') by done.
  destruct (parse_word func mp rdata (c' :: ws) n i r out free w) as [[j r' out' free' w'|]|] eqn:E; try done.
  cbn [mbind option_bind]. apply parse_word_advances in E. by rewrite IH by lia.
Qed.

(** The client does not fault. *)
Definition client_total (mp : mapping) (rdata : list Z) : Prop :=
  (∀ t w, is_Some (do_transaction mp rdata t w)) ∧ (∀ k w, is_Some (client_death k w)).

Lemma txn_at_Some ws i : (i + 10 ≤ length ws)%nat → is_Some (txn_at ws i).
Proof.
  intros Hl. unfold txn_at.
  repeat match goal with |- context [ws !! ?k] =>
    destruct (lookup_lt_is_Some_2 ws k) as [? ->]; [lia|]; cbn [mbind option_bind] end. eauto.
Qed.

Lemma parse_word_total func mp rdata ws n i r out free w :
  client_total mp rdata → (n < length ws)%nat → (i < n)%nat → is_Some (parse_word func mp rdata ws n i r out free w).
Proof.
  intros [Ht Hd] Hn Hi. unfold parse_word. destruct (lookup_lt_is_Some_2 ws i) as [c ->]; [lia|]. cbn [mbind option_bind].
  destruct (label c); eauto.
  - destruct (Nat.ltb_spec (n - (i + 1)) 10); [eauto|]. destruct (txn_at_Some ws (i + 1)) as [t ->]; [lia|].
    cbn [mbind option_bind]. destruct func; [|eauto]. destruct (Ht t w) as [w' ->]. eauto.
  - destruct (Nat.ltb_spec (n - (i + 1)) 10); [eauto|]. destruct (txn_at_Some ws (i + 1)) as [t ->]; [lia|]. simpl. eauto.
  - destruct (lookup_lt_is_Some_2 ws (i + 1)%nat) as [k ->]; [lia|]. cbn [mbind option_bind].
    destruct (Hd k w) as [w' ->]. simpl. eauto.
  - destruct (i =? 0)%nat; eauto.
Qed.

(** ** Properties of the parser *)

(** C16: what the parser does with a read is what the events in it mean, in
    order: each transaction handled and answered, each death notice delivered, the first
    reply stored in the caller's buffer, the return value 1 until a reply (0) or a failure
    (-1); words left in the buffer from earlier reads do not matter. *)
Theorem parse_refines_events bio func mp rdata es rest size w :
  size / 4 = zlen (events_words es) →
  binder_parse bio func mp rdata (events_words es ++ rest) size w = run_events bio func mp rdata es w.
Proof. apply binder_parse_events. Qed.

(** Whatever words the driver left in the buffer, valid or not, the parser
    returns without reading outside it, if the read left a word of the buffer unused and
    the client's callbacks return. *)
Theorem parse_terminates bio func mp rdata ws size w :
  client_total mp rdata → 0 ≤ size / 4 < zlen ws → is_Some (binder_parse bio func mp rdata ws size w).
Proof.
  intros Hc Hs. unfold binder_parse. set (n := Z.to_nat (size / 4)). assert (n < length ws)%nat as Hn by lia.
  assert (∀ fuel i r out free w, (n ≤ fuel + i)%nat → is_Some (parse_loop fuel func mp rdata ws n i r out free w)) as Hl;
    [|apply Hl; lia].
  induction fuel as [|fuel IH]; intros i r out free v Hf; cbn [parse_loop]; (destruct (Nat.ltb_spec i n); [|eauto]); [lia|].
  destruct (parse_word_total func mp rdata ws n i r out free v Hc Hn) as [[j r' out' free' v'|] Hp]; [lia| |];
    rewrite Hp; cbn [mbind option_bind]; [|eauto]. apply parse_word_advances in Hp. apply IH. lia.
Qed.

(** The workaround for the corrupted first word: a first word that is no
    return code is treated exactly as the no-op that belongs there, whatever follows. *)
Theorem corrupt_first_word_is_noop bio func mp rdata c ws size w :
  label c = L_default →
  binder_parse bio func mp rdata (c :: ws) size w = binder_parse bio func mp rdata (BR_NOOP :: ws) size w.
Proof.
  intros Hc. unfold binder_parse. destruct (Z.to_nat (size / 4)) as [|n]; [done|]. cbn [parse_loop].
  change ((0 <? S n)%nat) with true. cbn iota. unfold parse_word. cbn [lookup list_lookup mbind option_bind].
  destruct label_codes as [-> _]. rewrite Hc. cbn [mbind option_bind Nat.eqb Nat.add]. by apply parse_loop_tail.
Qed.

End Parse.

(** ** The servicemanager's loop *)

(** The buffers answered by the commands, in order. *)
Fixpoint replied (cs : list bcmd) : list Z :=
  match cs with
  | [] => []
  | BC_free_and_reply b _ :: cs => b :: replied cs
  | _ :: cs => replied cs
  end.

Lemma replied_app cs1 cs2 : replied (cs1 ++ cs2) = replied cs1 ++ replied cs2.
Proof. induction cs1 as [|c cs1 IH]; [done|]. destruct c; simpl; by rewrite IH. Qed.

Section Loop.
Context `{AndroidIds} `{BinderTypes} `{BinderReturnsLaws}.

Lemma register_svc_replied m s len ptr iso addr st rc st' :
  register_svc m s len ptr iso addr st = Some (rc, st') → replied (commands st') = replied (commands st).
Proof.
  intros Hr. unfold register_svc in Hr. obind Hr. destruct o as [i|].
  - obind Hr. obind Hr. obind Hr. injection Hr as _ <-. simpl. rewrite replied_app. simpl. rewrite app_nil_r.
    destruct (truthy _); [|by injection E1 as <-]. obind E1. unfold svcinfo_death in E1. obind E1. obind E1.
    destruct (truthy _); injection E1 as <-; [|done]. simpl. rewrite replied_app. apply app_nil_r.
  - destruct (_ =? _); [obind Hr; by injection Hr as _ <-|]. obind Hr. obind Hr. obind Hr. injection Hr as _ <-.
    simpl. rewrite replied_app. apply app_nil_r.
Qed.

Lemma handler_replied txn msg reply addr st rc reply' st' :
  svcmgr_handler txn msg reply addr st = Some (rc, reply', st') → replied (commands st') = replied (commands st).
Proof.
  intros Hh. unfold svcmgr_handler, reply_ok in Hh. destruct (negb _); [by injection Hh as _ _ <-|].
  obind Hh. destruct p as [ok msg1]. destruct (negb ok); [by injection Hh as _ _ <-|].
  destruct (svc_code_of _).
  - obind Hh. destruct p as [[s len] m2]. obind Hh. destruct (_ =? _); obind Hh; by injection Hh as _ _ <-.
  - obind Hh. destruct p as [[s len] m2]. obind Hh. destruct (_ =? _); obind Hh; by injection Hh as _ _ <-.
  - obind Hh. destruct p as [[s len] m2]. obind Hh. destruct p as [ptr m3]. obind Hh. destruct p as [iso m4].
    obind Hh. destruct p as [rc1 st1].
    assert (replied (commands st1) = replied (commands st)) as Hst1.
    { unfold do_add_service in E3. destruct (_ || _); [by injection E3 as _ <-|]. obind E3.
      destruct b; [by apply register_svc_replied in E3|]. obind E3. by injection E3 as _ <-. }
    destruct (truthy rc1); [by injection Hh as _ _ <-|]. obind Hh. by injection Hh as _ _ <-.
  - obind Hh. destruct p as [n m2]. destruct (nth_svc _ _); [obind Hh; obind Hh|]; by injection Hh as _ _ <-.
  - by injection Hh as _ _ <-.
Qed.

(** The transaction lies in the mapped area, as the driver places it. *)
Definition txn_fits (mp : mapping) (t : binder_txn) : Prop :=
  bio_ok (txn_msg mp t) ∧ Forall (λ z, 0 ≤ z < 256) (bytes_at mp (txn_data t)).

(** Events a server that makes no calls can get. *)
Definition server_event (mp : mapping) (e : event) : Prop :=
  match e with
  | E_transaction t => txn_fits mp t
  | E_reply _ | E_failed_reply | E_dead_reply => False
  | _ => True
  end.

Definition txn_buffers (es : list event) : list Z :=
  flat_map (λ e, match e with E_transaction t => [txn_data t] | _ => [] end) es.

Lemma entry_of_lookup addr l i : entry_of addr l = Some i → ∃ si, l !! i = Some si ∧ si_addr si = addr.
Proof.
  revert i. induction l as [|si l IH]; intros i Hi; simpl in Hi; [done|].
  destruct (Z.eqb_spec (si_addr si) addr) as [<-|]; [injection Hi as <-; by exists si|].
  obind Hi. injection Hi as <-. by apply IH.
Qed.

(** A command that moves no reference keeps the registry well-formed. *)
Lemma emit_ok st c : reg_ok st → (∀ h, outstanding h [c] = 0) → reg_ok (emit_cmds [c] st).
Proof.
  intros [He Hn Hr] Hc. split; [done|done|]. intros h Hh. simpl. rewrite outstanding_app, Hc, Hr by done. lia.
Qed.

Lemma server_event_step mp rdata e r out free (s : svcmgr) r' out' free' s' :
  reg_ok (mgr_svc s) → server_event mp e →
  run_event true mp rdata (r, out, free, s) e = Some (r', out', free', s') →
  r' = r ∧ reg_ok (mgr_svc s') ∧ replied (commands (mgr_svc s')) = replied (commands (mgr_svc s)) ++ txn_buffers [e].
Proof.
  intros Hok He Hr. destruct e as [| |c p k|t|t|k| |]; cbn [run_event] in Hr; try done;
    try (injection Hr as <- <- <- <-; rewrite app_nil_r; done).
  - obind Hr. injection Hr as <- <- <- <-. unfold do_transaction in E. obind E. destruct p as [[res reply'] s1].
    injection E as <-. cbn [client_handler svcmgr_client] in E0. obind E0. destruct p as [[rc reply1] st1].
    injection E0 as <- <- <-. split; [done|]. unfold binder_send_reply. cbn [binder_write svcmgr_client mgr_svc].
    apply handler_replied in E as Hrep.
    apply (svcmgr_handler_inv _ _ _ _ _ _ _ _ Hok) in E as [Hok1 _]; [|apply He|apply He].
    split; [by apply emit_ok|]. simpl. by rewrite replied_app, Hrep.
  - obind Hr. injection Hr as <- <- <- <-. cbn [client_death svcmgr_client] in E. obind E. obind E. injection E as <-.
    split; [done|]. apply entry_of_lookup in E0 as (si & Hi & _).
    destruct (svcinfo_death_spec (mgr_svc s) n si Hok Hi) as (cs & Hd & Hcs & Hok1).
    rewrite Hd in E1. injection E1 as <-. split; [done|]. simpl. rewrite replied_app, app_nil_r, Hcs.
    destruct (truthy _); simpl; by rewrite app_nil_r.
Qed.

Lemma server_events_run mp rdata es : ∀ r out free (s : svcmgr) r' out' free' s',
  reg_ok (mgr_svc s) → Forall (server_event mp) es →
  foldM (run_event true mp rdata) (r, out, free, s) es = Some (r', out', free', s') →
  r' = r ∧ reg_ok (mgr_svc s') ∧ replied (commands (mgr_svc s')) = replied (commands (mgr_svc s)) ++ txn_buffers es.
Proof.
  induction es as [|e es IH]; intros r out free s r' out' free' s' Hok He Hf.
  { injection Hf as <- _ _ <-. by rewrite app_nil_r. }
  apply Forall_cons in He as [He Hes]. cbn [foldM] in Hf. obind Hf. destruct p as [[[r1 out1] free1] s1].
  apply server_event_step in E as (-> & Hok1 & Hr1); [|done|done].
  apply IH in Hf as (-> & Hok' & Hr'); [|done|done]. split; [done|]. split; [done|].
  rewrite Hr', Hr1, <- app_assoc. by destruct e.
Qed.

(** An answer of the driver that holds the events [es]. *)
Definition event_answer (a : answer) (es : list event) : Prop :=
  match a with
  | Read mp rdata ws consumed =>
    Forall (server_event mp) es ∧ consumed / 4 = zlen (events_words es) ∧ ∃ rest, ws = events_words es ++ rest
  | Ioctl_failed => False
  end.

(** C37: over any sequence of reads holding transactions, death notices and
    reference traffic, the servicemanager keeps serving, and if no request makes it
    fault it answers every transaction exactly once, in order, freeing its buffer,
    whether the request was accepted or refused; the registry stays well-formed. *)
Theorem loop_answers_every_transaction answers ess (s : svcmgr) p :
  Forall2 event_answer answers ess → reg_ok (mgr_svc s) → serve answers s = Some p →
  ∃ s', p = Waiting s' ∧ reg_ok (mgr_svc s') ∧
    replied (commands (mgr_svc s')) = replied (commands (mgr_svc s)) ++ txn_buffers (concat ess).
Proof.
  intros Ha. revert s. induction Ha as [|a es answers ess Hes Ha IH]; intros s Hok Hs.
  { injection Hs as <-. exists s. by rewrite app_nil_r. }
  destruct a as [|mp rdata ws consumed]; [done|]. destruct Hes as (Hev & Hc & rest & ->). cbn [serve] in Hs.
  rewrite binder_parse_events in Hs by done. unfold run_events in Hs. obind Hs. destruct p0 as [[r out] s1].
  obind E. destruct p0 as [[[r2 out2] free2] s2]. injection E as -> -> ->.
  apply server_events_run in E0 as (-> & Hok1 & Hr1); [|done|done].
  apply IH in Hs as (s' & -> & Hok' & Hr'); [|done]. exists s'. split; [done|]. split; [done|].
  rewrite Hr', Hr1, <- app_assoc. unfold txn_buffers. simpl. by rewrite flat_map_app.
Qed.

Lemma unutf16_length_le bs : (length (unutf16 bs) ≤ length bs)%nat.
Proof.
  assert (∀ n bs, (length bs ≤ n)%nat → (length (unutf16 bs) ≤ length bs)%nat) as Hn; [|by apply (Hn (length bs))].
  clear bs. induction n as [|n IH]; intros [|a [|b bs]] Hl; simpl in *; try lia. specialize (IH bs). lia.
Qed.

Lemma c_string16_chars m : ∀ fuel p cs,
  chars_at m p cs → 0 ∈ cs → (length cs ≤ fuel)%nat → c_string16 m fuel p = Some (cstr cs).
Proof.
  induction fuel as [|fuel IH]; intros p cs Hc Hz Hf; (destruct cs as [|c cs]; [by apply elem_of_nil in Hz|]);
    [simpl in Hf; lia|].
  destruct Hc as [Hl Hc]. simpl. rewrite Hl. cbn [mbind option_bind]. bcase E; [done|].
  rewrite (IH (p + 2) cs Hc); [done| |simpl in Hf; lia]. apply elem_of_cons in Hz as [?|?]; [lia|done].
Qed.

(** A string too long for a fresh reply leaves its length only. *)
Lemma long_string_truncated rdata s :
  zlen rdata = 256 → 118 ≤ zlen s ≤ 127 →
  ∃ r, bio_put_string16 (fresh_reply rdata) (Some s) = Some r ∧ written_data r = le_encode 4 (zlen s).
Proof.
  intros Hrd Hl. unfold bio_put_string16. rewrite (wrap_small 32 (zlen s)) by lia.
  change (MAX_BIO_SIZE / 2) with (2 ^ 29). bcase E; [lia|].
  destruct (bio_init_ok (Bio [] 0 0 [] 0 0 0) rdata 256 4) as (Hok & Hp0 & _); [done|lia|lia|lia|].
  fold (fresh_reply rdata) in *. unfold bio_put_uint32, bio_alloc. change (round4 4) with 4.
  change (data_avail (fresh_reply rdata)) with 240. change (240 <? 4) with false. cbn iota.
  destruct (bio_store_ok (advance 4 (fresh_reply rdata)) 0 (le_encode 4 (zlen s))) as (m & Hs & Hw & Hm);
    [apply advance_ok; [change (data_avail (fresh_reply rdata)) with 240; lia|done]|done| |].
  { rewrite length_le_encode. change (bio_mem (advance 4 (fresh_reply rdata))) with (drop 16 rdata).
    rewrite length_drop. lia. }
  rewrite Hp0, Hs. cbn [mbind option_bind]. rewrite (wrap_small 32) by lia.
  replace ((zlen s + 1) * 2) with (2 * zlen s + 2) by lia. rewrite round4_eq by lia.
  cbn [data_avail set_mem advance]. change (data_avail (fresh_reply rdata)) with 240. bcase E2; [|exfalso; divmod].
  eexists. split; [done|]. unfold written_data. cbn [bio_pos bio_mem set_overflow set_mem advance].
  rewrite Hp0. apply mem_read_write in Hw as Hr. rewrite length_le_encode in Hr. unfold mem_read in Hr.
  destruct (in_block _ _ _); [|done]. by injection Hr as Hr.
Qed.

(** The name the list request reports. *)
Definition reported_name (si : svcinfo) : list Z := cstr (unutf16 (svc_key si)).

Lemma reported_name_spec si :
  si_ok si → c_string16 (si_name si) (length (si_name si)) 0 = Some (reported_name si).
Proof.
  intros (Hl & Hn & Hk). unfold reported_name. rewrite <- cstr_app_0.
  assert (unutf16 (si_name si) = unutf16 (svc_key si) ++ [0]) as Hu.
  { rewrite Hn. by rewrite (unutf16_app_even _ (Z.to_nat (si_len si))) by lia. }
  rewrite <- Hu. apply c_string16_chars.
  - apply mem_read_chars. rewrite mem_read_Some by lia. f_equal. apply seg_mget_all.
  - rewrite Hu. apply elem_of_app. right. by apply list_elem_of_singleton.
  - rewrite Hu, Hn, !length_app. pose proof (unutf16_length_le (svc_key si)). simpl. lia.
Qed.

(** The reply of a list request is sent as a success even when the name did not fit:
    for a name of at least 118 characters the 240 bytes of the reply hold only
    the length word, and the characters are missing. *)
Theorem long_name_list_reply_truncated txn msg msg1 n msg2 addr st si rdata :
  zlen rdata = 256 → txn_target txn = 0 → svc_code_of (txn_code txn) = SVC_MGR_LIST_SERVICES →
  check_header msg = Some (true, msg1) → bio_get_uint32 msg1 = Some (n, msg2) → nth_svc (svclist st) n = Some si →
  si_ok si → 118 ≤ zlen (reported_name si) ≤ 127 →
  ∃ r, svcmgr_handler txn msg (fresh_reply rdata) addr st = Some (0, r, st) ∧
    written_data r = le_encode 4 (zlen (reported_name si)).
Proof.
  intros Hrd Ht Hc Hh Hn Hsi Hs Hl. apply reported_name_spec in Hs as Hcs. unfold svcmgr_handler. rewrite Ht.
  change (negb (0 =? svcmgr_handle)) with false. cbn iota. rewrite Hh. cbn [mbind option_bind negb].
  rewrite Hc, Hn. cbn [mbind option_bind]. rewrite Hsi, Hcs. cbn [mbind option_bind].
  destruct (long_string_truncated rdata (reported_name si) Hrd Hl) as (r & -> & Hw). by exists r.
Qed.

End Loop.

(** ** Opening and closing *)

Lemma give_back_hd x held : give_back x (x :: held) = Some held.
Proof. simpl. by rewrite decide_True. Qed.

(** Opening the driver gives back everything it took when any step fails, and
    what it holds on success is exactly what [binder_close] releases. *)
Theorem binder_open_close_balanced malloc_ok fd mapped mapsize held :
  ∃ r held', binder_open malloc_ok fd mapped mapsize held = Some (r, held') ∧
    match r with Some bs => binder_close bs held' = Some held | None => held' = held end.
Proof.
  unfold binder_open, binder_close. destruct malloc_ok; [|by eexists _, _].
  destruct (fd <? 0); [rewrite give_back_hd; by eexists _, _|].
  destruct (mapped =? MAP_FAILED).
  - rewrite give_back_hd. cbn [mbind option_bind]. rewrite give_back_hd. by eexists _, _.
  - eexists _, _. split; [done|]. cbn [bs_fd bs_mapped bs_mapsize]. rewrite give_back_hd. cbn [mbind option_bind].
    rewrite give_back_hd. cbn [mbind option_bind]. apply give_back_hd.
Qed.

(** [main] uses the result of [binder_open] without a check: when the driver cannot be
    opened the program dereferences a null pointer. *)
Theorem main_crashes_when_open_fails `{AndroidIds} `{BinderTypes} `{BinderReturns} fd mapped ioctl answers mallocs :
  main false fd mapped ioctl answers mallocs = None ∧
  main true (-1) mapped ioctl answers mallocs = None.
Proof. done. Qed.

Module BinderDemo.
#[local] Instance codes : BinderReturns := {|
  BR_NOOP := 0x720c; BR_TRANSACTION_COMPLETE := 0x7206; BR_INCREFS := 0x80087207; BR_ACQUIRE := 0x80087208;
  BR_RELEASE := 0x80087209; BR_DECREFS := 0x8008720a; BR_TRANSACTION := 0x80287202; BR_REPLY := 0x80287203;
  BR_DEAD_BINDER := 0x8004720f; BR_FAILED_REPLY := 0x7211; BR_DEAD_REPLY := 0x7205 |}.
#[local] Instance codes_distinct : BinderReturnsLaws.
Proof. split. apply (bool_decide_unpack _). vm_compute. exact I. Qed.
#[local] Instance types : BinderTypes := {|
  BINDER_TYPE_BINDER := 0x73622a85; BINDER_TYPE_HANDLE := 0x73682a85; FLAT_BINDER_FLAG_ACCEPTS_FDS := 0x100 |}.
#[local] Instance ids : AndroidIds := {|
  AID_SYSTEM := 1000; AID_MEDIA := 1013; AID_DRM := 1019; AID_NFC := 1027; AID_BLUETOOTH := 1002; AID_RADIO := 1001;
  AID_KEYSTORE := 1017; AID_USER := 100000; AID_ISOLATED_START := 99000; AID_ISOLATED_END := 99999 |}.

(** The mapped area: the bytes of an add request for "nfc", then its offsets. *)
Definition add_msg : binder_io := SvcDemo.empty_msg SvcDemo.add_items.
Definition area : mapping :=
  Mapping 0x40000000 (written_data (Bio (bio_mem add_msg) (zlen (bio_mem add_msg)) 0 [] 0 0 0) ++
                      flat_map (le_encode 4) (bio_offs add_msg)).
Definition add : binder_txn :=
  Txn 0 0 3 0 77 1027 (zlen (bio_mem add_msg)) 4 0x40000000 (0x40000000 + zlen (bio_mem add_msg)).
(** The same request from a caller without permission. *)
Definition denied : binder_txn :=
  Txn 0 0 3 0 78 10050 (zlen (bio_mem add_msg)) 4 0x40000000 (0x40000000 + zlen (bio_mem add_msg)).
Definition rdata : list Z := replicate 256 0xaa.
Definition start : svcmgr := SvcMgr svc_init [4096; 8192].
Definition reads : list event := [E_noop; E_transaction add; E_complete; E_transaction denied].

Lemma parse_refines_events_witness :
  binder_parse false true area rdata (events_words reads ++ [7; 7]) 96 start = run_events false true area rdata reads start.
Proof. apply parse_refines_events. vm_compute. reflexivity. Defined.

Lemma corrupt_first_word_is_noop_witness :
  binder_parse false true area rdata (0x7eafb9a8 :: events_words [E_complete; E_transaction add]) 52 start =
  binder_parse false true area rdata (BR_NOOP :: events_words [E_complete; E_transaction add]) 52 start.
Proof. apply (corrupt_first_word_is_noop false true area rdata 0x7eafb9a8). vm_compute. reflexivity. Defined.

(** A client that answers everything with success. *)
#[local] Instance echo : BinderClient (list bcmd) := {|
  binder_write := λ c w, w ++ [c];
  client_handler := λ _ _ reply w, Some (0, reply, w);
  client_death := λ _ w, Some w |}.

Lemma parse_terminates_witness :
  is_Some (binder_parse true true area rdata [0x1234; BR_DEAD_BINDER; 9; BR_INCREFS] 15 ([] : list bcmd)).
Proof.
  apply parse_terminates; [|vm_compute; intuition discriminate].
  split; [intros t w; by eexists|intros k w; by eexists].
Defined.

Lemma loop_answers_every_transaction_witness :
  ∃ s', serve [Read area rdata (events_words reads ++ [7; 7]) 96] start = Some (Waiting s') ∧
    replied (commands (mgr_svc s')) = [0x40000000; 0x40000000].
Proof.
  destruct (serve [Read area rdata (events_words reads ++ [7; 7]) 96] start) as [p|] eqn:E; [|vm_compute in E; discriminate].
  destruct (loop_answers_every_transaction [Read area rdata (events_words reads ++ [7; 7]) 96] [reads] start p) as (s' & -> & _ & Hr);
    [|exact SvcDemo.init_ok|exact E|].
  - constructor; [|constructor]. split; [|split; [vm_compute; reflexivity|by exists [7; 7]]].
    assert (∀ t, t = add ∨ t = denied → txn_fits area t) as Hf.
    { intros t [-> | ->]; (split; [split; vm_compute; intuition discriminate|]);
        apply (bool_decide_eq_true_1 _); vm_compute; reflexivity. }
    apply Forall_cons; split; [exact I|]. apply Forall_cons; split; [apply (Hf add); by left|].
    apply Forall_cons; split; [exact I|]. apply Forall_cons; split; [apply (Hf denied); by right|]. apply Forall_nil. exact I.
  - exists s'. split; [done|]. rewrite Hr. vm_compute. reflexivity.
Defined.

(** A registered service with a name of 120 characters. *)
Definition long_name : list Z := replicate 120 97.
Definition long_entry : svcinfo := SvcInfo 4096 5 0 120 (utf16 long_name ++ [0; 0]).
Definition long_state : svc_state := SvcState [long_entry] [BC_acquire 5; BC_request_death 5 4096].
Definition list_txn : binder_txn := Txn 0 0 4 0 77 1000 0 0 0 0.
Definition list_msg : binder_io := SvcDemo.empty_msg (request 0 [I_uint32 0]).

Lemma long_name_list_reply_truncated_witness :
  ∃ r, svcmgr_handler list_txn list_msg (fresh_reply rdata) 0 long_state = Some (0, r, long_state) ∧
    written_data r = le_encode 4 120.
Proof.
  destruct (check_header list_msg) as [[ok msg1]|] eqn:Eh; [|vm_compute in Eh; discriminate].
  destruct ok; [|vm_compute in Eh; discriminate].
  destruct (bio_get_uint32 msg1) as [[n msg2]|] eqn:En;
    [|vm_compute in Eh; injection Eh as <-; vm_compute in En; discriminate].
  assert (n = 0) as -> by (vm_compute in Eh; injection Eh as <-; vm_compute in En; by injection En).
  destruct (long_name_list_reply_truncated list_txn list_msg msg1 0 msg2 0 long_state long_entry rdata) as (r & Hr & Hw);
    [done|done|done|exact Eh|exact En|done|vm_compute; intuition discriminate|vm_compute; intuition discriminate|].
  exists r. split; [exact Hr|exact Hw].
Defined.
End BinderDemo.
