(* ===== verification/KAlloc.v ===== *)
(** * Binder driver: the transaction buffer allocator

    Model of [binder_buffer_size] to [binder_free_buf] and of [binder_mmap] in
    [patches/kernel/binder.c], on 32-bit ARM.  The list [proc->buffers] is a list of
    headers in list order; a pointer to a header is its address; [proc->pages] is the array of
    page pointers, of which only being null matters.  A failing [BUG_ON], a null page freed
    or an index outside the array is a fault, [None].  The kernel's red-black
    trees are outside the program: a tree is what the code walks, and rebalancing and
    erasing are parameters. *)
From S2P Require Import Prelude.

Definition PAGE_SIZE : Z := 4096.
Definition PAGE_MASK : Z := Z.lnot (PAGE_SIZE - 1).
Definition PAGE_ALIGN (a : Z) : Z := (a + (PAGE_SIZE - 1)) &&& PAGE_MASK.
Definition SZ_4M : Z := 0x400000.

(** [ALIGN(x, sizeof(void * ))] on [size_t]. *)
Definition ALIGN4 (x : Z) : Z := u32 (x + 3) &&& Z.lnot 3.

(** [sizeof(struct binder_buffer)], also the offset of its [data]. *)
Definition sizeof_binder_buffer : Z := 40.

(** ** Data *)

Record binder_buffer := Buf {
  b_addr : Z;
  b_free : bool;
  b_allow_user_free : bool;
  b_async_transaction : bool;
  b_transaction : Z;
  b_target_node : Z;
  b_data_size : Z;
  b_offsets_size : Z }.

Definition b_data (b : binder_buffer) : Z := b_addr b + sizeof_binder_buffer.

Definition set_free (f : bool) (b : binder_buffer) : binder_buffer :=
  Buf (b_addr b) f (b_allow_user_free b) (b_async_transaction b) (b_transaction b) (b_target_node b)
    (b_data_size b) (b_offsets_size b).

(** What the search trees look like to the code that walks them. *)
Inductive rb_tree :=
| rb_null
| rb_node (left : rb_tree) (x : Z) (right : rb_tree).

(** The kernel's tree operations: rebalancing after a node was linked, and erasing. *)
Class RbTree := {
  rb_insert_color : Z → rb_tree → rb_tree;
  rb_erase : Z → rb_tree → rb_tree }.

Record binder_proc := Proc {
  p_vma : bool;
  p_vma_vm_mm : Z;
  p_buffer : Z;
  p_user_buffer_offset : Z;
  p_buffers : list binder_buffer;
  p_free_buffers : rb_tree;
  p_allocated_buffers : rb_tree;
  p_free_async_space : Z;
  p_pages : list bool;
  p_buffer_size : Z }.

Definition set_pages (pg : list bool) (p : binder_proc) : binder_proc :=
  Proc (p_vma p) (p_vma_vm_mm p) (p_buffer p) (p_user_buffer_offset p) (p_buffers p) (p_free_buffers p)
    (p_allocated_buffers p) (p_free_async_space p) pg (p_buffer_size p).
Definition set_buffers (l : list binder_buffer) (p : binder_proc) : binder_proc :=
  Proc (p_vma p) (p_vma_vm_mm p) (p_buffer p) (p_user_buffer_offset p) l (p_free_buffers p)
    (p_allocated_buffers p) (p_free_async_space p) (p_pages p) (p_buffer_size p).
Definition set_free_buffers (t : rb_tree) (p : binder_proc) : binder_proc :=
  Proc (p_vma p) (p_vma_vm_mm p) (p_buffer p) (p_user_buffer_offset p) (p_buffers p) t
    (p_allocated_buffers p) (p_free_async_space p) (p_pages p) (p_buffer_size p).
Definition set_allocated_buffers (t : rb_tree) (p : binder_proc) : binder_proc :=
  Proc (p_vma p) (p_vma_vm_mm p) (p_buffer p) (p_user_buffer_offset p) (p_buffers p) (p_free_buffers p)
    t (p_free_async_space p) (p_pages p) (p_buffer_size p).
Definition set_async_space (n : Z) (p : binder_proc) : binder_proc :=
  Proc (p_vma p) (p_vma_vm_mm p) (p_buffer p) (p_user_buffer_offset p) (p_buffers p) (p_free_buffers p)
    (p_allocated_buffers p) n (p_pages p) (p_buffer_size p).

(** ** The list of buffers *)

(** The end of the mapped area. *)
Definition area_end (p : binder_proc) : Z := p_buffer p + p_buffer_size p.

(** The address of the entry after, or the end of the area. *)
Definition next_addr (l : list binder_buffer) (stop : Z) : Z :=
  match l with [] => stop | b :: _ => b_addr b end.

Fixpoint size_in (l : list binder_buffer) (stop x : Z) : option Z :=
  match l with
  | [] => None
  | b :: l => if b_addr b =? x then Some (next_addr l stop - b_data b) else size_in l stop x
  end.

Definition binder_buffer_size (p : binder_proc) (x : Z) : option Z := size_in (p_buffers p) (area_end p) x.

(** The header at an address. *)
Fixpoint buf_at (l : list binder_buffer) (x : Z) : option binder_buffer :=
  match l with
  | [] => None
  | b :: l => if b_addr b =? x then Some b else buf_at l x
  end.

(** A store to the header at an address. *)
Fixpoint upd_buf (f : binder_buffer → binder_buffer) (x : Z) (l : list binder_buffer) : list binder_buffer :=
  match l with
  | [] => []
  | b :: l => if b_addr b =? x then f b :: l else b :: upd_buf f x l
  end.

(** [list_add(&new->entry, &entry)]: behind the entry. *)
Fixpoint add_behind (nb : binder_buffer) (x : Z) (l : list binder_buffer) : list binder_buffer :=
  match l with
  | [] => []
  | b :: l => if b_addr b =? x then b :: nb :: l else b :: add_behind nb x l
  end.

(** The entry at an address with its neighbours. *)
Fixpoint neighbours (prev : option binder_buffer) (l : list binder_buffer) (x : Z) :
    option (option binder_buffer * binder_buffer * option binder_buffer) :=
  match l with
  | [] => None
  | b :: l => if b_addr b =? x then Some (prev, b, head l) else neighbours (Some b) l x
  end.

Definition remove_buf (x : Z) (l : list binder_buffer) : list binder_buffer := filter (λ b, b_addr b ≠ x) l.

(** ** Pages *)

(** How taking a page can end: the four paths of the loop body. *)
Inductive page_outcome := Page_ok | Page_no_memory | Page_no_kernel_map | Page_no_user_map.

(** The memory management the driver runs under: the task's memory map, and what
    happens at each page. *)
Record page_env := PageEnv { pe_task_mm : option Z; pe_page : Z → page_outcome }.

Section Pages.
Variables base start : Z.

Definition page_index (page_addr : Z) : Z := (page_addr - base) / PAGE_SIZE.

(** The loop at [free_range], from [page_addr] down to [start]. *)
Fixpoint free_range (fuel : nat) (page_addr : Z) (pages : list bool) : option (list bool) :=
  if start <=? page_addr then
    match fuel with
    | O => None
    | S fuel =>
      pg ← zlookup pages (page_index page_addr);
      if pg : bool then free_range fuel (page_addr - PAGE_SIZE) (<[Z.to_nat (page_index page_addr) := false]> pages)
      else None
    end
  else Some pages.

(** The loop that takes pages; on a failure the page at hand is given up and
    control goes on in the loop at [free_range] with the page before it. *)
Fixpoint alloc_range (outcome : Z → page_outcome) (fuel : nat) (page_addr stop : Z) (pages : list bool) :
    option (Z * list bool) :=
  if page_addr <? stop then
    match fuel with
    | O => None
    | S fuel' =>
      pg ← zlookup pages (page_index page_addr);
      if pg : bool then None
      else
        match outcome page_addr with
        | Page_ok =>
          alloc_range outcome fuel' (page_addr + PAGE_SIZE) stop (<[Z.to_nat (page_index page_addr) := true]> pages)
        | Page_no_memory | Page_no_kernel_map | Page_no_user_map =>
          pages ← free_range (Z.to_nat ((page_addr - start) / PAGE_SIZE)) (page_addr - PAGE_SIZE) pages;
          Some (- Errno.ENOMEM, pages)
        end
    end
  else Some (0, pages).

End Pages.

(** [have_vma] is whether the caller passed a [vma]. *)
Definition binder_update_page_range (e : page_env) (p : binder_proc) (allocate : bool) (start stop : Z) (have_vma : bool) :
    option (Z * binder_proc) :=
  if stop <=? start then Some (0, p) else
  let vma := if have_vma then true
             else match pe_task_mm e with
                  | Some mm => p_vma p && (mm =? p_vma_vm_mm p)
                  | None => false
                  end in
  let n := Z.to_nat ((stop - start + (PAGE_SIZE - 1)) / PAGE_SIZE) in
  if allocate then
    if negb vma then Some (- Errno.ENOMEM, p)
    else
      '(ret, pages) ← alloc_range (p_buffer p) start (pe_page e) n start stop (p_pages p);
      Some (ret, set_pages pages p)
  else
    pages ← free_range (p_buffer p) start n (stop - PAGE_SIZE) (p_pages p);
    Some (- Errno.ENOMEM, set_pages pages p).

Section Allocator.
Context `{RbTree}.

(** ** The trees *)

(** The size of a free buffer on the walk: [BUG_ON(!buffer->free)]. *)
Definition free_size (p : binder_proc) (x : Z) : option Z :=
  b ← buf_at (p_buffers p) x; if b_free b then binder_buffer_size p x else None.

Fixpoint link_free (p : binder_proc) (size new : Z) (t : rb_tree) : option rb_tree :=
  match t with
  | rb_null => Some (rb_node rb_null new rb_null)
  | rb_node l x r =>
    s ← free_size p x;
    if size <? s then l ← link_free p size new l; Some (rb_node l x r)
    else r ← link_free p size new r; Some (rb_node l x r)
  end.

Definition binder_insert_free_buffer (p : binder_proc) (new : Z) : option binder_proc :=
  size ← free_size p new;
  t ← link_free p size new (p_free_buffers p);
  Some (set_free_buffers (rb_insert_color new t) p).

(** [BUG_ON(buffer->free)] *)
Definition not_free (p : binder_proc) (x : Z) : option unit :=
  b ← buf_at (p_buffers p) x; if b_free b then None else Some tt.

Fixpoint link_allocated (p : binder_proc) (new : Z) (t : rb_tree) : option rb_tree :=
  match t with
  | rb_null => Some (rb_node rb_null new rb_null)
  | rb_node l x r =>
    _ ← not_free p x;
    if new <? x then l ← link_allocated p new l; Some (rb_node l x r)
    else if x <? new then r ← link_allocated p new r; Some (rb_node l x r)
    else None
  end.

Definition binder_insert_allocated_buffer (p : binder_proc) (new : Z) : option binder_proc :=
  _ ← not_free p new;
  t ← link_allocated p new (p_allocated_buffers p);
  Some (set_allocated_buffers (rb_insert_color new t) p).

Fixpoint lookup_allocated (p : binder_proc) (kern_ptr : Z) (t : rb_tree) : option (option Z) :=
  match t with
  | rb_null => Some None
  | rb_node l x r =>
    _ ← not_free p x;
    if kern_ptr <? x then lookup_allocated p kern_ptr l
    else if x <? kern_ptr then lookup_allocated p kern_ptr r
    else Some (Some x)
  end.

Definition binder_buffer_lookup (p : binder_proc) (user_ptr : Z) : option (option Z) :=
  lookup_allocated p (u32 (user_ptr - p_user_buffer_offset p - sizeof_binder_buffer)) (p_allocated_buffers p).

(** ** Allocation *)

(** The best-fit walk: the node found, and whether the loop stopped at an exact fit. *)
Fixpoint best_fit (p : binder_proc) (size : Z) (n : rb_tree) (best : option Z) : option (option Z * bool) :=
  match n with
  | rb_null => Some (best, false)
  | rb_node l x r =>
    s ← free_size p x;
    if size <? s then best_fit p size l (Some x)
    else if s <? size then best_fit p size r best
    else Some (Some x, true)
  end.

(** The rest of [binder_alloc_buf] once a buffer was found; [garbage] is what
    the memory of a new header holds. *)
Definition take_buffer (e : page_env) (garbage : binder_buffer) (p : binder_proc) (x : Z) (exact : bool)
    (size data_size offsets_size : Z) (is_async : bool) : option (option Z * binder_proc) :=
  full ← binder_buffer_size p x;
  let data := x + sizeof_binder_buffer in
  let has_page_addr := (data + full) &&& PAGE_MASK in
  let buffer_size :=
    if exact then full
    else if full <=? size + sizeof_binder_buffer + 4 then size else size + sizeof_binder_buffer in
  let end_page_addr := PAGE_ALIGN (data + buffer_size) in
  let end_page_addr := if has_page_addr <? end_page_addr then has_page_addr else end_page_addr in
  '(ret, p) ← binder_update_page_range e p true (PAGE_ALIGN data) end_page_addr false;
  if truthy ret then Some (None, p)
  else
    let p := set_free_buffers (rb_erase x (p_free_buffers p)) p in
    let p := set_buffers (upd_buf (set_free false) x (p_buffers p)) p in
    p ← binder_insert_allocated_buffer p x;
    p ← (if negb (buffer_size =? size) then
           let nb := Buf (data + size) true (b_allow_user_free garbage) (b_async_transaction garbage)
                       (b_transaction garbage) (b_target_node garbage) (b_data_size garbage) (b_offsets_size garbage) in
           binder_insert_free_buffer (set_buffers (add_behind nb x (p_buffers p)) p) (data + size)
         else Some p);
    let p := set_buffers (upd_buf (λ b, Buf (b_addr b) (b_free b) (b_allow_user_free b) is_async (b_transaction b)
                                         (b_target_node b) data_size offsets_size) x (p_buffers p)) p in
    let p := if is_async then set_async_space (u32 (p_free_async_space p - (size + sizeof_binder_buffer))) p else p in
    Some (Some x, p).

Definition binder_alloc_buf (e : page_env) (garbage : binder_buffer) (p : binder_proc) (data_size offsets_size : Z)
    (is_async : bool) : option (option Z * binder_proc) :=
  if negb (p_vma p) then Some (None, p) else
  let size := u32 (ALIGN4 data_size + ALIGN4 offsets_size) in
  if (size <? data_size) || (size <? offsets_size) then Some (None, p) else
  if is_async && (p_free_async_space p <? u32 (size + sizeof_binder_buffer)) then Some (None, p) else
  '(best, exact) ← best_fit p size (p_free_buffers p) None;
  match best with
  | None => Some (None, p)
  | Some x => take_buffer e garbage p x exact size data_size offsets_size is_async
  end.

(** ** Freeing *)

Definition buffer_start_page (b : binder_buffer) : Z := b_addr b &&& PAGE_MASK.
Definition buffer_end_page (b : binder_buffer) : Z := (b_addr b + sizeof_binder_buffer - 1) &&& PAGE_MASK.

Definition binder_delete_free_buffer (e : page_env) (p : binder_proc) (x : Z) : option binder_proc :=
  '(prev, buffer, next) ← neighbours None (p_buffers p) x;
  prev ← prev;
  if negb (b_free prev) then None else
  let share_prev := buffer_end_page prev =? buffer_start_page buffer in
  let free_page_start := negb share_prev in
  let free_page_end := negb (share_prev && (buffer_end_page prev =? buffer_end_page buffer)) in
  let '(free_page_start, free_page_end) :=
    match next with
    | Some next =>
      if buffer_start_page next =? buffer_end_page buffer then
        (free_page_start && negb (buffer_start_page next =? buffer_start_page buffer), false)
      else (free_page_start, free_page_end)
    | None => (free_page_start, free_page_end)
    end in
  let p := set_buffers (remove_buf x (p_buffers p)) p in
  if free_page_start || free_page_end then
    '(_, p) ← binder_update_page_range e p false
      (if free_page_start then buffer_start_page buffer else buffer_end_page buffer)
      ((if free_page_end then buffer_end_page buffer else buffer_start_page buffer) + PAGE_SIZE) false;
    Some p
  else Some p.

Definition binder_free_buf (e : page_env) (p : binder_proc) (x : Z) : option binder_proc :=
  buffer_size ← binder_buffer_size p x;
  buffer ← buf_at (p_buffers p) x;
  let size := u32 (ALIGN4 (b_data_size buffer) + ALIGN4 (b_offsets_size buffer)) in
  if b_free buffer then None else
  if buffer_size <? size then None else
  if truthy (b_transaction buffer) then None else
  if x <? p_buffer p then None else
  if area_end p <? x then None else
  let p := if b_async_transaction buffer
           then set_async_space (u32 (p_free_async_space p + (size + sizeof_binder_buffer))) p else p in
  '(_, p) ← binder_update_page_range e p false (PAGE_ALIGN (b_data buffer))
              ((b_data buffer + buffer_size) &&& PAGE_MASK) false;
  let p := set_allocated_buffers (rb_erase x (p_allocated_buffers p)) p in
  let p := set_buffers (upd_buf (set_free true) x (p_buffers p)) p in
  '(prev, _, next) ← neighbours None (p_buffers p) x;
  p ← match next with
      | Some next =>
        if b_free next then
          let p := set_free_buffers (rb_erase (b_addr next) (p_free_buffers p)) p in
          binder_delete_free_buffer e p (b_addr next)
        else Some p
      | None => Some p
      end;
  match prev with
  | Some prev =>
    if b_free prev then
      p ← binder_delete_free_buffer e p x;
      let p := set_free_buffers (rb_erase (b_addr prev) (p_free_buffers p)) p in
      binder_insert_free_buffer p (b_addr prev)
    else binder_insert_free_buffer p x
  | None => binder_insert_free_buffer p x
  end.

(** ** Freeing on request *)

(** A store to the fields of a header that belong to the transaction it carries. *)
Definition set_transaction (t node : Z) (user_free : bool) (b : binder_buffer) : binder_buffer :=
  Buf (b_addr b) (b_free b) user_free (b_async_transaction b) t node (b_data_size b) (b_offsets_size b).

(** What [BC_FREE_BUFFER] does to the buffers: the address must be that of an
    allocated buffer user space may free; its transaction is detached and it is freed. *)
Definition free_user_buffer (e : page_env) (p : binder_proc) (data_ptr : Z) : option binder_proc :=
  found ← binder_buffer_lookup p data_ptr;
  match found with
  | None => Some p
  | Some x =>
    b ← buf_at (p_buffers p) x;
    if negb (b_allow_user_free b) then Some p
    else
      let p := if truthy (b_transaction b)
               then set_buffers (upd_buf (λ b, set_transaction 0 (b_target_node b) (b_allow_user_free b) b) x (p_buffers p)) p else p in
      binder_free_buf e p x
  end.

(** ** Mapping the area *)

(** The [vma] of the call. *)
Record vm_area := Vma { vm_start : Z; vm_end : Z; vm_forbidden : bool; vm_mm : Z }.

(** [area] is the result of [get_vm_area], [kzalloc_ok] that of the page array's; the
    alignment loop of caches with aliasing is not on this CPU.  The first
    component is the return value. *)
Definition binder_mmap (e : page_env) (garbage : binder_buffer) (p : binder_proc) (is_owner : bool) (v : vm_area)
    (area : option Z) (kzalloc_ok : bool) : option (Z * binder_proc) :=
  if negb is_owner then Some (- Errno.EINVAL, p) else
  let vend := if SZ_4M <? vm_end v - vm_start v then vm_start v + SZ_4M else vm_end v in
  if vm_forbidden v then Some (- Errno.EPERM, p) else
  if truthy (p_buffer p) then Some (- Errno.EBUSY, p) else
  match area with
  | None => Some (- Errno.ENOMEM, p)
  | Some addr =>
    let bsize := vend - vm_start v in
    let offset := vm_start v - addr in
    if negb kzalloc_ok then
      Some (- Errno.ENOMEM, Proc (p_vma p) (p_vma_vm_mm p) 0 offset (p_buffers p) (p_free_buffers p)
                              (p_allocated_buffers p) (p_free_async_space p) [] (p_buffer_size p))
    else
      let p := Proc (p_vma p) (p_vma_vm_mm p) addr offset (p_buffers p) (p_free_buffers p)
                 (p_allocated_buffers p) (p_free_async_space p) (replicate (Z.to_nat (bsize / PAGE_SIZE)) false) bsize in
      '(ret, p) ← binder_update_page_range e p true addr (addr + PAGE_SIZE) true;
      if truthy ret then
        Some (- Errno.ENOMEM, Proc (p_vma p) (p_vma_vm_mm p) 0 offset (p_buffers p) (p_free_buffers p)
                                (p_allocated_buffers p) (p_free_async_space p) [] bsize)
      else
        let b := Buf addr true (b_allow_user_free garbage) (b_async_transaction garbage) (b_transaction garbage)
                   (b_target_node garbage) (b_data_size garbage) (b_offsets_size garbage) in
        p ← binder_insert_free_buffer (set_buffers [b] p) addr;
        Some (0, Proc true (vm_mm v) (p_buffer p) (p_user_buffer_offset p) (p_buffers p) (p_free_buffers p)
                   (p_allocated_buffers p) (p_buffer_size p / 2) (p_pages p) (p_buffer_size p))
  end.

End Allocator.
