(* ===== verification/KAllocSpec.v ===== *)
(** * Binder driver: the allocator's trees, pages and lists

    Walking and updating the search trees, what the page loops do to the page
    array, which pages a list of buffers needs, and the list operations at an entry. *)
From stdpp Require Import sorting.
From S2P Require Import Prelude KAlloc.

(** ** Search trees *)

Fixpoint inorder (t : rb_tree) : list Z :=
  match t with
  | rb_null => []
  | rb_node l x r => inorder l ++ x :: inorder r
  end.

(** What the kernel's trees promise: rebalancing keeps the order of the
    elements, erasing removes the element. *)
Class RbLaws `{RbTree} : Prop := {
  inorder_insert_color x t : inorder (rb_insert_color x t) = inorder t;
  inorder_erase x t : inorder (rb_erase x t) = filter (λ y, y ≠ x) (inorder t) }.

(** A tree that holds the elements [xs], sorted by [key]. *)
Definition tree_ok (key : Z → Z) (t : rb_tree) (xs : list Z) : Prop :=
  inorder t ≡ₚ xs ∧ StronglySorted (λ x y, key x ≤ key y) (inorder t).

Lemma sorted_node (key : Z → Z) l x r :
  StronglySorted (λ x y, key x ≤ key y) (l ++ x :: r) ↔
  StronglySorted (λ x y, key x ≤ key y) l ∧ StronglySorted (λ x y, key x ≤ key y) r ∧
  (∀ y, y ∈ l → key y ≤ key x) ∧ (∀ y, y ∈ r → key x ≤ key y).
Proof.
  rewrite StronglySorted_app. split.
  - intros (Hlr & Hl & Hr). inversion Hr as [|? ? Hr' Hall]; subst. rewrite Forall_forall in Hall.
    split_and!; [done|done| |done]. intros y Hy. apply Hlr; [done|]. apply elem_of_cons. by left.
  - intros (Hl & Hr & Hlx & Hxr). split_and!; [|done|].
    + intros y z Hy [->|Hz]%elem_of_cons; [by apply Hlx|]. etrans; [by apply Hlx|by apply Hxr].
    + constructor; [done|]. by apply Forall_forall.
Qed.

Lemma tree_ok_ext key key' t xs ys :
  tree_ok key t xs → xs ≡ₚ ys → (∀ x, x ∈ xs → key x = key' x) → tree_ok key' t ys.
Proof.
  intros [Hp Hs] Hxy Hk. split; [by rewrite Hp|].
  assert (∀ x, x ∈ inorder t → key x = key' x) as Hk' by (intros x Hx; apply Hk; by rewrite <- Hp).
  clear Hp Hk. induction Hs as [|x l Hs IH Hall]; [constructor|]. constructor.
  - apply IH. intros y Hy. apply Hk', elem_of_cons. by right.
  - rewrite Forall_forall in Hall |- *. intros y Hy. rewrite <- !Hk'; [by apply Hall| |]; apply elem_of_cons; auto.
Qed.

Lemma sorted_filter (key : Z → Z) (P : Z → Prop) `{∀ x, Decision (P x)} l :
  StronglySorted (λ x y, key x ≤ key y) l → StronglySorted (λ x y, key x ≤ key y) (filter P l).
Proof.
  induction 1 as [|x l Hs IH Hall]; [constructor|]. rewrite filter_cons. destruct (decide (P x)); [|done].
  constructor; [done|]. rewrite Forall_forall in Hall |- *. intros y [_ Hy]%list_elem_of_filter. by apply Hall.
Qed.

Lemma tree_ok_erase `{RbLaws} key t xs x :
  tree_ok key t xs → tree_ok key (rb_erase x t) (filter (λ y, y ≠ x) xs).
Proof.
  intros [Hp Hs]. split; rewrite inorder_erase; [by rewrite Hp|by apply sorted_filter].
Qed.

Lemma tree_ok_insert `{RbLaws} key t t' xs x :
  inorder t' ≡ₚ x :: inorder t → StronglySorted (λ x y, key x ≤ key y) (inorder t') → inorder t ≡ₚ xs →
  tree_ok key (rb_insert_color x t') (x :: xs).
Proof. intros Hp Hs Hx. split; rewrite inorder_insert_color; [by rewrite Hp, Hx|done]. Qed.

Section Walks.
Variable p : binder_proc.

(** The allocated tree, sorted by address. *)
Lemma link_allocated_spec new t :
  (∀ x, x ∈ inorder t → not_free p x = Some ()) → StronglySorted (λ x y, x ≤ y) (inorder t) → new ∉ inorder t →
  ∃ t', link_allocated p new t = Some t' ∧ inorder t' ≡ₚ new :: inorder t ∧ StronglySorted (λ x y, x ≤ y) (inorder t').
Proof.
  induction t as [|l IHl x r IHr]; intros Hf Hs Hn; simpl in *.
  { eexists. split; [done|]. split; [done|]. repeat constructor. }
  rewrite Hf by (apply elem_of_app; right; apply elem_of_cons; by left). cbn [mbind option_bind].
  apply (sorted_node (λ x, x)) in Hs as (Hl & Hr & Hlx & Hxr).
  rewrite elem_of_app, elem_of_cons in Hn. destruct (Z.ltb_spec new x).
  - destruct IHl as (l' & -> & Hp' & Hs'); [intros y Hy; apply Hf, elem_of_app; by left|done|tauto|].
    eexists. split; [done|]. simpl. split; [by rewrite Hp'|]. apply (sorted_node (λ x, x)). split_and!; [done|done| |done].
    intros y. rewrite Hp'. intros [->|Hy]%elem_of_cons; [lia|by apply Hlx].
  - destruct (Z.ltb_spec x new); [|exfalso; apply Hn; right; left; lia].
    destruct IHr as (r' & -> & Hp' & Hs');
      [intros y Hy; apply Hf, elem_of_app; right; apply elem_of_cons; by right|done|tauto|].
    eexists. split; [done|]. simpl. split.
    + rewrite Hp'. rewrite (Permutation_middle (inorder l) (x :: inorder r) new). by rewrite (Permutation_swap new x).
    + apply (sorted_node (λ x, x)). split_and!; [done|done|done|].
      intros y. rewrite Hp'. intros [->|Hy]%elem_of_cons; [lia|by apply Hxr].
Qed.

Lemma lookup_allocated_spec k t :
  (∀ x, x ∈ inorder t → not_free p x = Some ()) → StronglySorted (λ x y, x ≤ y) (inorder t) →
  lookup_allocated p k t = Some (if decide (k ∈ inorder t) then Some k else None).
Proof.
  induction t as [|l IHl x r IHr]; intros Hf Hs; simpl in *; [done|].
  rewrite Hf by (apply elem_of_app; right; apply elem_of_cons; by left). cbn [mbind option_bind].
  apply (sorted_node (λ x, x)) in Hs as (Hl & Hr & Hlx & Hxr).
  assert (∀ b, (if b : bool then k ∈ inorder l else k ∈ inorder r) → k ∈ inorder l ++ x :: inorder r) as Hin.
  { intros []; rewrite elem_of_app, elem_of_cons; tauto. }
  destruct (Z.ltb_spec k x); [|destruct (Z.ltb_spec x k)].
  - rewrite IHl by (done || (intros y Hy; apply Hf, elem_of_app; by left)).
    destruct (decide (k ∈ inorder l)) as [Hk|Hk].
    + by rewrite decide_True by (by apply (Hin true)).
    + rewrite decide_False; [done|]. rewrite elem_of_app, elem_of_cons. intros [?|[?|Hk']]; [done|lia|].
      apply Hxr in Hk'. lia.
  - rewrite IHr by (done || (intros y Hy; apply Hf, elem_of_app; right; apply elem_of_cons; by right)).
    destruct (decide (k ∈ inorder r)) as [Hk|Hk].
    + by rewrite decide_True by (by apply (Hin false)).
    + rewrite decide_False; [done|]. rewrite elem_of_app, elem_of_cons. intros [Hk'|[?|?]]; [|lia|done].
      apply Hlx in Hk'. lia.
  - assert (k = x) as -> by lia. rewrite decide_True; [done|]. rewrite elem_of_app, elem_of_cons. auto.
Qed.

(** The free tree. *)
Variable sz : Z → Z.

Lemma link_free_spec new t :
  (∀ x, x ∈ inorder t → free_size p x = Some (sz x)) → StronglySorted (λ x y, sz x ≤ sz y) (inorder t) →
  ∃ t', link_free p (sz new) new t = Some t' ∧ inorder t' ≡ₚ new :: inorder t ∧
    StronglySorted (λ x y, sz x ≤ sz y) (inorder t').
Proof.
  induction t as [|l IHl x r IHr]; intros Hf Hs; simpl in *.
  { eexists. split; [done|]. split; [done|]. repeat constructor. }
  rewrite Hf by (apply elem_of_app; right; apply elem_of_cons; by left). cbn [mbind option_bind].
  apply sorted_node in Hs as (Hl & Hr & Hlx & Hxr). destruct (Z.ltb_spec (sz new) (sz x)).
  - destruct IHl as (l' & -> & Hp' & Hs'); [intros y Hy; apply Hf, elem_of_app; by left|done|].
    eexists. split; [done|]. simpl. split; [by rewrite Hp'|]. apply sorted_node. split_and!; [done|done| |done].
    intros y. rewrite Hp'. intros [->|Hy]%elem_of_cons; [lia|by apply Hlx].
  - destruct IHr as (r' & -> & Hp' & Hs'); [intros y Hy; apply Hf, elem_of_app; right; apply elem_of_cons; by right|done|].
    eexists. split; [done|]. simpl. split.
    + rewrite Hp'. rewrite (Permutation_middle (inorder l) (x :: inorder r) new). by rewrite (Permutation_swap new x).
    + apply sorted_node. split_and!; [done|done|done|].
      intros y. rewrite Hp'. intros [->|Hy]%elem_of_cons; [lia|by apply Hxr].
Qed.

(** The best-fit walk finds a smallest free buffer that is large enough. *)
Lemma best_fit_spec size t : ∀ best,
  (∀ x, x ∈ inorder t → free_size p x = Some (sz x)) → StronglySorted (λ x y, sz x ≤ sz y) (inorder t) →
  (∃ x ex, best_fit p size t best = Some (Some x, ex) ∧ x ∈ inorder t ∧ size ≤ sz x ∧
     (∀ y, y ∈ inorder t → size ≤ sz y → sz x ≤ sz y) ∧ (if ex then sz x = size else size < sz x)) ∨
  (best_fit p size t best = Some (best, false) ∧ ∀ y, y ∈ inorder t → sz y < size).
Proof.
  induction t as [|l IHl x r IHr]; intros best Hf Hs; simpl in *.
  { right. split; [done|]. intros y Hy. by apply elem_of_nil in Hy. }
  rewrite Hf by (apply elem_of_app; right; apply elem_of_cons; by left). cbn [mbind option_bind].
  apply sorted_node in Hs as (Hl & Hr & Hlx & Hxr). setoid_rewrite elem_of_app. setoid_rewrite elem_of_cons.
  destruct (Z.ltb_spec size (sz x)); [|destruct (Z.ltb_spec (sz x) size)].
  - left. destruct (IHl (Some x)) as [(y & ex & -> & Hy & Hsy & Hmin & Hex)|[-> Hall]];
      [intros y Hy; apply Hf, elem_of_app; by left|done| |].
    + exists y, ex. split_and!; [done|by left|done| |done]. pose proof (Hlx y Hy).
      intros z [Hz|[->|Hz]] Hsz; [by apply Hmin|done|]. apply Hxr in Hz. lia.
    + exists x, false. split_and!; [done|by right; left|lia| |done].
      intros z [Hz|[->|Hz]] Hsz; [apply Hall in Hz; lia|lia|by apply Hxr].
  - destruct (IHr best) as [(y & ex & -> & Hy & Hsy & Hmin & Hex)|[-> Hall]];
      [intros y Hy; apply Hf, elem_of_app; right; apply elem_of_cons; by right|done|left|right].
    + exists y, ex. split_and!; [done|by right; right|done| |done].
      intros z [Hz|[->|Hz]] Hsz; [apply Hlx in Hz; lia|lia|by apply Hmin].
    + split; [done|]. intros z [Hz|[->|Hz]]; [apply Hlx in Hz; lia|lia|by apply Hall].
  - left. exists x, true. split_and!; [done|by right; left|lia|lia|lia].
Qed.

End Walks.

(** ** Pages *)

Lemma page_down a : a &&& PAGE_MASK = 4096 * (a / 4096).
Proof.
  change (Z.land a (Z.lnot (2 ^ 12 - 1)) = 4096 * (a / 4096)). rewrite land_lnot_mask by lia. change (2 ^ 12) with 4096. divmod.
Qed.

Lemma page_align a : PAGE_ALIGN a = 4096 * ((a + 4095) / 4096).
Proof. unfold PAGE_ALIGN. by rewrite page_down. Qed.

Lemma zlookup_ext {A} (l l' : list A) : (∀ i, zlookup l i = zlookup l' i) → l = l'.
Proof.
  intros Hl. apply list_eq. intros i. specialize (Hl (Z.of_nat i)). unfold zlookup in Hl.
  destruct (Z.ltb_spec (Z.of_nat i) 0); [lia|]. by rewrite Nat2Z.id in Hl.
Qed.

Lemma zlookup_insert {A} (l : list A) i j v :
  0 ≤ i → is_Some (zlookup l i) → zlookup (<[Z.to_nat i := v]> l) j = if i =? j then Some v else zlookup l j.
Proof.
  intros Hi [w Hw]. unfold zlookup in *. destruct (Z.ltb_spec i 0); [lia|]. destruct (Z.ltb_spec j 0).
  - destruct (Z.eqb_spec i j); [lia|done].
  - destruct (Z.eqb_spec i j) as [->|]; [apply list_lookup_insert_eq; by apply lookup_lt_Some in Hw|].
    apply list_lookup_insert_ne. lia.
Qed.

Lemma zlookup_nonneg {A} (l : list A) i v : zlookup l i = Some v → 0 ≤ i < zlen l.
Proof. unfold zlookup. destruct (Z.ltb_spec i 0); [done|]. intros Hl%lookup_lt_Some. lia. Qed.

(** The area starts at page [B0]. *)
Section PageLoops.
Variable B0 : Z.

Lemma page_index_page k : page_index (4096 * B0) (4096 * k) = k - B0.
Proof. unfold page_index, PAGE_SIZE. replace (4096 * k - 4096 * B0) with ((k - B0) * 4096) by lia. apply Z.div_mul. lia. Qed.

Lemma free_range_spec s fuel : ∀ e pages,
  (∀ k, s ≤ k < e → zlookup pages (k - B0) = Some true) → (Z.to_nat (e - s) ≤ fuel)%nat →
  ∃ pages', free_range (4096 * B0) (4096 * s) fuel (4096 * (e - 1)) pages = Some pages' ∧
    ∀ k, zlookup pages' (k - B0) = if (s <=? k) && (k <? e) then Some false else zlookup pages (k - B0).
Proof.
  induction fuel as [|fuel IH]; intros e pages Ht Hf; cbn [free_range];
    destruct (Z.leb_spec (4096 * s) (4096 * (e - 1))); try lia;
    try (eexists; split; [done|]; intros k; destruct (Z.leb_spec s k), (Z.ltb_spec k e); done || lia).
  rewrite page_index_page, (Ht (e - 1)) by lia. cbn [mbind option_bind].
  replace (4096 * (e - 1) - PAGE_SIZE) with (4096 * (e - 1 - 1)) by (unfold PAGE_SIZE; lia).
  pose proof (zlookup_nonneg _ _ _ (Ht (e - 1) ltac:(lia))) as Hb.
  assert (∀ k, zlookup (<[Z.to_nat (e - 1 - B0):=false]> pages) (k - B0) =
    if e - 1 =? k then Some false else zlookup pages (k - B0)) as Hi.
  { intros k. rewrite zlookup_insert by (lia || (rewrite Ht by lia; eauto)).
    destruct (Z.eqb_spec (e - 1 - B0) (k - B0)), (Z.eqb_spec (e - 1) k); done || lia. }
  destruct (IH (e - 1) (<[Z.to_nat (e - 1 - B0) := false]> pages)) as (pages' & -> & Hp); [|lia|].
  - intros k Hk. rewrite Hi. destruct (Z.eqb_spec (e - 1) k); [lia|]. apply Ht. lia.
  - exists pages'. split; [done|]. intros k. rewrite Hp, Hi.
    destruct (Z.leb_spec s k), (Z.ltb_spec k (e - 1)), (Z.ltb_spec k e), (Z.eqb_spec (e - 1) k); simpl; done || lia.
Qed.

Lemma alloc_range_spec outcome s e fuel : ∀ j pages,
  s ≤ j → (∀ k, s ≤ k < j → zlookup pages (k - B0) = Some true) →
  (∀ k, j ≤ k < e → zlookup pages (k - B0) = Some false) → (Z.to_nat (e - j) ≤ fuel)%nat →
  ∃ ret pages', alloc_range (4096 * B0) (4096 * s) outcome fuel (4096 * j) (4096 * e) pages = Some (ret, pages') ∧
    ((ret = 0 ∧ ∀ k, zlookup pages' (k - B0) = if (j <=? k) && (k <? e) then Some true else zlookup pages (k - B0)) ∨
     (ret = - Errno.ENOMEM ∧ (∃ k, s ≤ k < e ∧ outcome (4096 * k) ≠ Page_ok) ∧
      ∀ k, zlookup pages' (k - B0) = if (s <=? k) && (k <? j) then Some false else zlookup pages (k - B0))).
Proof.
  induction fuel as [|fuel IH]; intros j pages Hj Ht Hf Hfu; cbn [alloc_range];
    destruct (Z.ltb_spec (4096 * j) (4096 * e)); try lia;
    try (eexists _, _; split; [done|]; left; split; [done|]; intros k;
         destruct (Z.leb_spec j k), (Z.ltb_spec k e); done || lia).
  rewrite page_index_page, (Hf j) by lia. cbn [mbind option_bind].
  pose proof (zlookup_nonneg _ _ _ (Hf j ltac:(lia))) as Hb.
  assert (∀ k, zlookup (<[Z.to_nat (j - B0):=true]> pages) (k - B0) =
    if j =? k then Some true else zlookup pages (k - B0)) as Hi.
  { intros k. rewrite zlookup_insert by (lia || (rewrite Hf by lia; eauto)).
    destruct (Z.eqb_spec (j - B0) (k - B0)), (Z.eqb_spec j k); done || lia. }
  assert (outcome (4096 * j) ≠ Page_ok → ∃ ret pages',
    (pages0 ← free_range (4096 * B0) (4096 * s) (Z.to_nat ((4096 * j - 4096 * s) / PAGE_SIZE)) (4096 * j - PAGE_SIZE) pages;
     Some (- Errno.ENOMEM, pages0)) = Some (ret, pages') ∧ ret = - Errno.ENOMEM ∧
    ∀ k, zlookup pages' (k - B0) = if (s <=? k) && (k <? j) then Some false else zlookup pages (k - B0)) as Hfail.
  { intros _. unfold PAGE_SIZE. replace (4096 * j - 4096 * s) with ((j - s) * 4096) by lia. rewrite Z.div_mul by lia.
    replace (4096 * j - 4096) with (4096 * (j - 1)) by lia.
    destruct (free_range_spec s (Z.to_nat (j - s)) j pages Ht) as (pages' & -> & Hp); [lia|]. by eexists _, _. }
  destruct (outcome (4096 * j)) eqn:Eo.
  - replace (4096 * j + PAGE_SIZE) with (4096 * (j + 1)) by (unfold PAGE_SIZE; lia).
    destruct (IH (j + 1) (<[Z.to_nat (j - B0):=true]> pages)) as (ret & pages' & -> & Hr); [lia| | |lia|].
    + intros k Hk. rewrite Hi. destruct (Z.eqb_spec j k); [done|]. apply Ht. lia.
    + intros k Hk. rewrite Hi. destruct (Z.eqb_spec j k); [lia|]. apply Hf. lia.
    + eexists _, _. split; [done|]. destruct Hr as [[-> Hp]|(-> & Hex & Hp)]; [left|right].
      * split; [done|]. intros k. rewrite Hp, Hi.
        destruct (Z.leb_spec (j + 1) k), (Z.ltb_spec k e), (Z.leb_spec j k), (Z.eqb_spec j k); simpl; done || lia.
      * split; [done|]. split; [done|]. intros k. rewrite Hp, Hi.
        destruct (Z.leb_spec s k), (Z.ltb_spec k (j + 1)), (Z.ltb_spec k j), (Z.eqb_spec j k); simpl; try (done || lia).
        subst k. symmetry. apply Hf. lia.
  - destruct Hfail as (ret & pages' & -> & -> & Hp); [done|]. eexists _, _. split; [done|]. right.
    split; [done|]. split; [exists j; split; [lia|congruence]|done].
  - destruct Hfail as (ret & pages' & -> & -> & Hp); [done|]. eexists _, _. split; [done|]. right.
    split; [done|]. split; [exists j; split; [lia|congruence]|done].
  - destruct Hfail as (ret & pages' & -> & -> & Hp); [done|]. eexists _, _. split; [done|]. right.
    split; [done|]. split; [exists j; split; [lia|congruence]|done].
Qed.

End PageLoops.

(** Giving back mapped pages, whatever the [vma]. *)
Lemma update_free_spec env p B0 s e :
  p_buffer p = 4096 * B0 → (∀ k, s ≤ k < e → zlookup (p_pages p) (k - B0) = Some true) →
  ∃ ret pages', binder_update_page_range env p false (4096 * s) (4096 * e) false = Some (ret, set_pages pages' p) ∧
    ∀ k, zlookup pages' (k - B0) = if (s <=? k) && (k <? e) then Some false else zlookup (p_pages p) (k - B0).
Proof.
  intros Hb Ht. unfold binder_update_page_range. destruct (Z.leb_spec (4096 * e) (4096 * s)) as [Hle|Hlt].
  - exists 0, (p_pages p). split; [by destruct p|]. intros k. destruct (Z.leb_spec s k), (Z.ltb_spec k e); done || lia.
  - rewrite Hb. unfold PAGE_SIZE. replace (4096 * e - 4096) with (4096 * (e - 1)) by lia.
    destruct (free_range_spec B0 s (Z.to_nat ((4096 * e - 4096 * s + (4096 - 1)) / 4096)) e (p_pages p) Ht)
      as (pages' & -> & Hp).
    { assert (e - s ≤ (4096 * e - 4096 * s + (4096 - 1)) / 4096) by (apply Z.div_le_lower_bound; lia). lia. }
    by eexists _, _.
Qed.

(** Taking unmapped pages: all of them, or none and the array is as before. *)
Lemma update_alloc_spec env p B0 s e v :
  p_buffer p = 4096 * B0 → (∀ k, s ≤ k < e → zlookup (p_pages p) (k - B0) = Some false) →
  ∃ ret p', binder_update_page_range env p true (4096 * s) (4096 * e) v = Some (ret, p') ∧
    ((ret = 0 ∧ ∃ pages', p' = set_pages pages' p ∧
      ∀ k, zlookup pages' (k - B0) = if (s <=? k) && (k <? e) then Some true else zlookup (p_pages p) (k - B0)) ∨
     (ret = - Errno.ENOMEM ∧ p' = p ∧
      ((v = false ∧ pe_task_mm env ≠ Some (p_vma_vm_mm p)) ∨ (v = false ∧ p_vma p = false) ∨
       ∃ k, s ≤ k < e ∧ pe_page env (4096 * k) ≠ Page_ok))).
Proof.
  intros Hb Ht. unfold binder_update_page_range. destruct (Z.leb_spec (4096 * e) (4096 * s)) as [Hle|Hlt].
  { exists 0, p. split; [done|]. left. split; [done|]. exists (p_pages p). split; [by destruct p|].
    intros k. destruct (Z.leb_spec s k), (Z.ltb_spec k e); done || lia. }
  set (vma := if v then true else _). destruct (negb vma) eqn:Ev.
  { exists (- Errno.ENOMEM), p. split; [done|]. right. split; [done|]. split; [done|]. destruct v; [done|]. unfold vma in Ev.
    destruct (pe_task_mm env) as [mm|]; [|by left]. destruct (p_vma p); [|by right; left].
    simpl in Ev. left. split; [done|]. intros [= ->]. by rewrite Z.eqb_refl in Ev. }
  rewrite Hb. unfold PAGE_SIZE.
  destruct (alloc_range_spec B0 (pe_page env) s e (Z.to_nat ((4096 * e - 4096 * s + (4096 - 1)) / 4096)) s (p_pages p))
    as (ret & pages' & -> & Hr); [lia|intros; lia|done| |].
  { assert (e - s ≤ (4096 * e - 4096 * s + (4096 - 1)) / 4096) by (apply Z.div_le_lower_bound; lia). lia. }
  cbn [mbind option_bind]. eexists _, _. split; [done|]. destruct Hr as [[-> Hp]|(-> & Hex & Hp)]; [left|right].
  - split; [done|]. by exists pages'.
  - split; [done|]. split; [|by right; right]. assert (pages' = p_pages p) as ->; [|by destruct p].
    apply zlookup_ext. intros i. specialize (Hp (i + B0)). replace (i + B0 - B0) with i in Hp by lia. rewrite Hp.
    destruct (Z.leb_spec s (i + B0)), (Z.ltb_spec (i + B0) s); simpl; done || lia.
Qed.

(** ** The list of buffers *)

(** The headers follow each other without overlap, four-byte aligned, up to [stop]. *)
Fixpoint tiles (l : list binder_buffer) (stop : Z) : Prop :=
  match l with
  | [] => True
  | b :: l => b_addr b mod 4 = 0 ∧ b_data b ≤ next_addr l stop ∧ tiles l stop
  end.

Lemma next_addr_app l1 l2 stop : next_addr (l1 ++ l2) stop = next_addr l1 (next_addr l2 stop).
Proof. by destruct l1. Qed.

Lemma tiles_app l1 l2 stop : tiles (l1 ++ l2) stop ↔ tiles l1 (next_addr l2 stop) ∧ tiles l2 stop.
Proof. induction l1 as [|b l1 IH]; simpl; [tauto|]. rewrite next_addr_app, IH. tauto. Qed.

Lemma tiles_le l stop : tiles l stop → next_addr l stop ≤ stop.
Proof.
  induction l as [|b l IH]; simpl; [lia|]. intros (_ & Hd & Ht). unfold b_data, sizeof_binder_buffer in *.
  specialize (IH Ht). lia.
Qed.

Lemma tiles_bounds l stop b : tiles l stop → b ∈ l → next_addr l stop ≤ b_addr b ∧ b_data b ≤ stop.
Proof.
  induction l as [|c l IH]; intros Ht Hb; [by apply elem_of_nil in Hb|]. destruct Ht as (_ & Hd & Ht).
  pose proof (tiles_le _ _ Ht). unfold b_data, sizeof_binder_buffer in *.
  apply elem_of_cons in Hb as [->|Hb]; simpl; [lia|]. destruct (IH Ht Hb). lia.
Qed.

Lemma tiles_nodup l stop : tiles l stop → NoDup (b_addr <$> l).
Proof.
  induction l as [|b l IH]; simpl; [constructor|]. intros (_ & Hd & Ht). constructor; [|by apply IH].
  intros (c & Hc & Hin)%list_elem_of_fmap. destruct (tiles_bounds _ _ _ Ht Hin).
  unfold b_data, sizeof_binder_buffer in *. lia.
Qed.

(** Addresses before and after an entry. *)
Lemma tiles_before l1 b l2 stop c : tiles (l1 ++ b :: l2) stop → c ∈ l1 → b_data c ≤ b_addr b.
Proof. intros [H1 _]%tiles_app Hc. by apply (tiles_bounds l1 (b_addr b)) in Hc as [_ ?]. Qed.

Lemma tiles_after l1 b l2 stop c : tiles (l1 ++ b :: l2) stop → c ∈ l2 → b_data b ≤ b_addr c.
Proof. intros [_ (_ & Hd & H2)]%tiles_app Hc. apply (tiles_bounds l2 stop) in Hc as [? _]; [lia|done]. Qed.

Lemma addr_ne_before l1 b l2 stop c : tiles (l1 ++ b :: l2) stop → c ∈ l1 → b_addr c ≠ b_addr b.
Proof. intros Ht Hc. pose proof (tiles_before _ _ _ _ _ Ht Hc). unfold b_data, sizeof_binder_buffer in *. lia. Qed.

Lemma addr_ne_after l1 b l2 stop c : tiles (l1 ++ b :: l2) stop → c ∈ l2 → b_addr c ≠ b_addr b.
Proof. intros Ht Hc. pose proof (tiles_after _ _ _ _ _ Ht Hc). unfold b_data, sizeof_binder_buffer in *. lia. Qed.

Lemma size_in_app l1 l2 stop x :
  size_in (l1 ++ l2) stop x =
    match size_in l1 (next_addr l2 stop) x with Some s => Some s | None => size_in l2 stop x end.
Proof. induction l1 as [|b l1 IH]; simpl; [done|]. rewrite next_addr_app. by destruct (b_addr b =? x). Qed.

Lemma size_in_None l stop x : x ∉ b_addr <$> l → size_in l stop x = None.
Proof.
  induction l as [|b l IH]; simpl; [done|]. rewrite not_elem_of_cons. intros [Hne Hn].
  destruct (Z.eqb_spec (b_addr b) x); [congruence|by apply IH].
Qed.

Lemma size_in_addrs l l' stop x : b_addr <$> l = b_addr <$> l' → size_in l stop x = size_in l' stop x.
Proof.
  revert l'. induction l as [|b l IH]; intros [|b' l'] Ha; try done. injection Ha as Hb Ha. simpl.
  unfold b_data. rewrite Hb, (IH l' Ha). destruct l as [|c l], l' as [|c' l']; try done. simpl. by injection Ha as -> _.
Qed.

Lemma addr_notin_before l1 b l2 stop : tiles (l1 ++ b :: l2) stop → b_addr b ∉ b_addr <$> l1.
Proof. intros Ht (c & Hc & Hin)%list_elem_of_fmap. by apply (addr_ne_before l1 b l2 stop c Ht Hin). Qed.

Lemma addr_notin_after l1 b l2 stop : tiles (l1 ++ b :: l2) stop → b_addr b ∉ b_addr <$> l2.
Proof. intros Ht (c & Hc & Hin)%list_elem_of_fmap. by apply (addr_ne_after l1 b l2 stop c Ht Hin). Qed.

(** The operations at an entry of a well-formed list. *)
Lemma size_in_at l1 b l2 stop :
  tiles (l1 ++ b :: l2) stop → size_in (l1 ++ b :: l2) stop (b_addr b) = Some (next_addr l2 stop - b_data b).
Proof.
  intros Ht. rewrite size_in_app, size_in_None by (by eapply addr_notin_before). simpl. by rewrite Z.eqb_refl.
Qed.

Lemma buf_at_app l1 l2 x : x ∉ b_addr <$> l1 → buf_at (l1 ++ l2) x = buf_at l2 x.
Proof.
  induction l1 as [|c l1 IH]; simpl; [done|]. rewrite not_elem_of_cons. intros [Hne Hn].
  destruct (Z.eqb_spec (b_addr c) x); [congruence|by apply IH].
Qed.

Lemma buf_at_at l1 b l2 stop : tiles (l1 ++ b :: l2) stop → buf_at (l1 ++ b :: l2) (b_addr b) = Some b.
Proof. intros Ht. rewrite buf_at_app by (by eapply addr_notin_before). simpl. by rewrite Z.eqb_refl. Qed.

Lemma upd_buf_at f l1 b l2 stop :
  tiles (l1 ++ b :: l2) stop → upd_buf f (b_addr b) (l1 ++ b :: l2) = l1 ++ f b :: l2.
Proof.
  intros Ht. apply addr_notin_before in Ht. induction l1 as [|c l1 IH]; simpl in *; [by rewrite Z.eqb_refl|].
  apply not_elem_of_cons in Ht as [Hne Hn]. destruct (Z.eqb_spec (b_addr c) (b_addr b)); [congruence|]. by rewrite IH.
Qed.

Lemma add_behind_at nb l1 b l2 stop :
  tiles (l1 ++ b :: l2) stop → add_behind nb (b_addr b) (l1 ++ b :: l2) = l1 ++ b :: nb :: l2.
Proof.
  intros Ht. apply addr_notin_before in Ht. induction l1 as [|c l1 IH]; simpl in *; [by rewrite Z.eqb_refl|].
  apply not_elem_of_cons in Ht as [Hne Hn]. destruct (Z.eqb_spec (b_addr c) (b_addr b)); [congruence|]. by rewrite IH.
Qed.

Lemma neighbours_at prev l1 b l2 stop :
  tiles (l1 ++ b :: l2) stop →
  neighbours prev (l1 ++ b :: l2) (b_addr b) = Some (match last l1 with Some c => Some c | None => prev end, b, head l2).
Proof.
  intros Ht. apply addr_notin_before in Ht. revert prev. induction l1 as [|c l1 IH]; intros prev; simpl in *; [by rewrite Z.eqb_refl|].
  apply not_elem_of_cons in Ht as [Hne Hn]. destruct (Z.eqb_spec (b_addr c) (b_addr b)); [congruence|].
  rewrite IH by done. destruct l1 as [|d l1]; [done|]. rewrite (last_cons c). by destruct (last (d :: l1)) eqn:E; [|apply last_None in E].
Qed.

Lemma filter_id {A} (P : A → Prop) `{∀ x, Decision (P x)} (l : list A) : (∀ x, x ∈ l → P x) → filter P l = l.
Proof.
  induction l as [|x l IH]; intros Hl; [done|]. rewrite filter_cons_True by (apply Hl, elem_of_cons; by left).
  f_equal. apply IH. intros y Hy. apply Hl, elem_of_cons. by right.
Qed.

Lemma remove_buf_at l1 b l2 stop : tiles (l1 ++ b :: l2) stop → remove_buf (b_addr b) (l1 ++ b :: l2) = l1 ++ l2.
Proof.
  intros Ht. unfold remove_buf. rewrite filter_app, filter_cons_False by (intros Hn; by apply Hn).
  f_equal; apply filter_id; intros c Hc; [by apply (addr_ne_before _ _ _ _ _ Ht)|by apply (addr_ne_after _ _ _ _ _ Ht)].
Qed.

Lemma buf_at_split l x b : buf_at l x = Some b → ∃ l1 l2, l = l1 ++ b :: l2 ∧ b_addr b = x.
Proof.
  induction l as [|c l IH]; simpl; [done|]. destruct (Z.eqb_spec (b_addr c) x) as [<-|].
  - intros [= <-]. by exists [], l.
  - intros (l1 & l2 & -> & Hx)%IH. by exists (c :: l1), l2.
Qed.

(** ** Which pages the buffers need *)

Lemma page_bounds a : 4096 * (a / 4096) ≤ a < 4096 * (a / 4096) + 4096.
Proof. divmod. Qed.

(** Page [k] meets the bytes from [a] to [e]. *)
Definition meets (a e k : Z) : bool := (a / 4096 <=? k) && (k <=? (e - 1) / 4096).

(** A free buffer needs its header, an allocated one everything up to the next. *)
Definition occ_end (b : binder_buffer) (nxt : Z) : Z := if b_free b then b_data b else nxt.

Fixpoint needs (l : list binder_buffer) (stop k : Z) : bool :=
  match l with
  | [] => false
  | b :: l => meets (b_addr b) (occ_end b (next_addr l stop)) k || needs l stop k
  end.

Lemma needs_app l1 l2 stop k : needs (l1 ++ l2) stop k = needs l1 (next_addr l2 stop) k || needs l2 stop k.
Proof. induction l1 as [|b l1 IH]; simpl; [done|]. rewrite next_addr_app, IH. by rewrite orb_assoc. Qed.

Lemma occ_end_bounds b nxt : b_data b ≤ nxt → b_data b ≤ occ_end b nxt ≤ nxt.
Proof. unfold occ_end. destruct (b_free b); lia. Qed.

Lemma needs_lt l stop k : tiles l stop → needs l stop k = true → 4096 * k < stop.
Proof.
  induction l as [|b l IH]; simpl; [done|]. intros (_ & Hd & Ht) [Hm|Hn]%orb_true_iff; [|by apply IH].
  pose proof (occ_end_bounds b _ Hd). pose proof (tiles_le _ _ Ht). unfold meets in Hm.
  assert (k ≤ (occ_end b (next_addr l stop) - 1) / 4096) by lia. divmod.
Qed.

Lemma needs_ge l stop k : tiles l stop → needs l stop k = true → next_addr l stop < 4096 * (k + 1).
Proof.
  induction l as [|b l IH]; simpl; [done|]. intros (_ & Hd & Ht) [Hm|Hn]%orb_true_iff.
  - unfold meets in Hm. assert (b_addr b / 4096 ≤ k) by lia. divmod.
  - specialize (IH Ht Hn). unfold b_data, sizeof_binder_buffer in Hd. lia.
Qed.

(** The page of the first header. *)
Lemma needs_head b l stop : tiles (b :: l) stop → needs (b :: l) stop (b_addr b / 4096) = true.
Proof.
  intros (_ & Hd & _). simpl. apply orb_true_iff. left. pose proof (occ_end_bounds b _ Hd).
  unfold meets, b_data, sizeof_binder_buffer in *. apply andb_true_iff. split; [lia|]. apply Z.leb_le. apply Z.div_le_mono; lia.
Qed.

(** The page a list begins in the middle of is needed. *)
Lemma needs_boundary l stop :
  stop mod 4096 = 0 → tiles l stop → next_addr l stop mod 4096 ≠ 0 → needs l stop (next_addr l stop / 4096) = true.
Proof. intros Hs Ht Hn. destruct l as [|b l]; [done|]. by apply needs_head. Qed.

(** Page [k] is in the half-open range. *)
Definition in_range (s e k : Z) : bool := (s <=? k) && (k <? e).

(** Which page of the header of [n] the code frees: the first, the last. *)
Definition shares_next (n : binder_buffer) (l2 : list binder_buffer) : bool :=
  match l2 with [] => false | c :: _ => b_addr c / 4096 =? (b_addr n + 39) / 4096 end.

Definition frees_start (pv n : binder_buffer) (l2 : list binder_buffer) : bool :=
  negb ((b_addr pv + 39) / 4096 =? b_addr n / 4096) &&
  negb (shares_next n l2 && ((b_addr n + 39) / 4096 =? b_addr n / 4096)).

Definition frees_end (pv n : binder_buffer) (l2 : list binder_buffer) : bool :=
  negb (((b_addr pv + 39) / 4096 =? b_addr n / 4096) && ((b_addr pv + 39) / 4096 =? (b_addr n + 39) / 4096)) &&
  negb (shares_next n l2).

Definition freed_from (pv n : binder_buffer) (l2 : list binder_buffer) : Z :=
  if frees_start pv n l2 then b_addr n / 4096 else (b_addr n + 39) / 4096.

Definition freed_to (pv n : binder_buffer) (l2 : list binder_buffer) : Z :=
  (if frees_end pv n l2 then (b_addr n + 39) / 4096 else b_addr n / 4096) + 1.

Section Need.
Variables (l1 l2 : list binder_buffer) (stop : Z).
Hypothesis stop_aligned : stop mod 4096 = 0.

(** Taking the free buffer [b] as [b'], of [size] bytes of data: the pages between
    the page of its header and the last page it reaches are missing before, and the
    pages needed afterwards are those and the ones from before. *)
Section Take.
Variables (b b' : binder_buffer) (size bsize : Z) (nbs : list binder_buffer).
Hypothesis b_is_free : b_free b = true.
Hypothesis b'_taken : b_free b' = false ∧ b_addr b' = b_addr b.
Hypothesis Ht : tiles (l1 ++ b :: l2) stop.
Let nxt := next_addr l2 stop.
Let d := b_data b.
Hypothesis Hsize : 0 ≤ size ≤ nxt - d.
(** Either no new header follows, or one that is free. *)
Hypothesis Hcase :
  (nbs = [] ∧ bsize = size ∧ nxt - d ≤ size + 44) ∨
  (∃ nb, nbs = [nb] ∧ b_free nb = true ∧ b_addr nb = d + size ∧ bsize = size + 40 ∧ size + 44 < nxt - d).

Let s := (d + 4095) / 4096.
Let e := Z.min ((d + bsize + 4095) / 4096) (nxt / 4096).

Lemma take_range_missing k : in_range s e k = true → needs (l1 ++ b :: l2) stop k = false.
Proof.
  intros Hk. unfold in_range, s, e in Hk. rewrite needs_app. simpl. apply tiles_app in Ht as [H1 (_ & Hd & H2)].
  assert ((d + 4095) / 4096 ≤ k ∧ k < nxt / 4096) as [Hk1 Hk2] by lia.
  assert (d ≤ 4096 * k) by divmod. assert (4096 * (k + 1) ≤ nxt) by divmod.
  apply orb_false_iff. split; [|apply orb_false_iff; split].
  - destruct (needs l1 _ k) eqn:E; [|done]. apply needs_lt in E; [|done]. unfold d, b_data, sizeof_binder_buffer in *. lia.
  - unfold meets, occ_end. rewrite b_is_free. fold d. apply andb_false_iff. right. apply Z.leb_gt.
    apply Z.div_lt_upper_bound; lia.
  - destruct (needs l2 stop k) eqn:E; [|done]. apply needs_ge in E; [|done]. unfold nxt in *. lia.
Qed.

Lemma take_needs k :
  needs (l1 ++ b' :: nbs ++ l2) stop k = in_range s e k || needs (l1 ++ b :: l2) stop k.
Proof.
  destruct b'_taken as [Hf Ha]. rewrite !needs_app. simpl. rewrite Ha, needs_app.
  pose proof Ht as [H1 (_ & Hd & H2)]%tiles_app. fold d in Hd.
  assert (nxt mod 4096 ≠ 0 → needs l2 stop (nxt / 4096) = true) as Hb by (by apply needs_boundary).
  destruct (needs l1 (b_addr b) k); [by rewrite orb_true_r|]. simpl.
  destruct (needs l2 stop k) eqn:E2; [by rewrite !orb_true_r|]. rewrite !orb_false_r.
  assert (nxt mod 4096 ≠ 0 → k ≠ nxt / 4096) as Hkb by (intros Hm ->; rewrite Hb in E2; done). clear Hb E2.
  unfold occ_end, in_range, s, e, meets. rewrite b_is_free, Hf. fold d.
  assert (d = b_addr b + 40) as Hdd by done.
  destruct Hcase as [(-> & -> & Hroom)|(nb & -> & Hnf & Hna & -> & Hroom)]; simpl.
  - rewrite orb_false_r. fold nxt. clearbody nxt d. apply eq_true_iff_eq.
    rewrite orb_true_iff, !andb_true_iff, !Z.leb_le, !Z.ltb_lt. divmod.
  - unfold occ_end. rewrite Hnf, Hna. unfold b_data. rewrite Hna. unfold sizeof_binder_buffer. rewrite orb_false_r.
    clearbody nxt d. apply eq_true_iff_eq. unfold meets.
    rewrite !orb_true_iff, !andb_true_iff, !Z.leb_le, !Z.ltb_lt. divmod.
Qed.
End Take.

(** Deleting the free buffer [n] behind the free buffer [pv]: the pages of its
    header that the code frees are those nothing else needs. *)
Section Delete.
Variables pv n : binder_buffer.
Hypothesis pv_free : b_free pv = true.
Hypothesis n_free : b_free n = true.
Hypothesis Ht : tiles (l1 ++ pv :: n :: l2) stop.

Lemma delete_needs_iff k :
  needs (l1 ++ pv :: l2) stop k =
    needs (l1 ++ pv :: n :: l2) stop k &&
    negb ((frees_start pv n l2 || frees_end pv n l2) && in_range (freed_from pv n l2) (freed_to pv n l2) k).
Proof.
  pose proof Ht as [H1 (_ & Hd1 & _ & Hd2 & H2)]%tiles_app. simpl in Hd1, H1. rewrite !needs_app. simpl.
  unfold occ_end, freed_from, freed_to, frees_start, frees_end, in_range, meets. rewrite pv_free, n_free.
  unfold b_data, sizeof_binder_buffer in *.
  replace (b_addr n + 40 - 1) with (b_addr n + 39) by lia. replace (b_addr pv + 40 - 1) with (b_addr pv + 39) by lia.
  pose proof (page_bounds (b_addr n)) as Bs. pose proof (page_bounds (b_addr n + 39)) as Be.
  pose proof (page_bounds (b_addr pv)) as Bps. pose proof (page_bounds (b_addr pv + 39)) as Bpe.
  pose proof (page_bounds (next_addr l2 stop)) as Bn. set (sP := b_addr n / 4096) in *.
  set (eP := (b_addr n + 39) / 4096) in *. set (pe := (b_addr pv + 39) / 4096) in *. set (shn := shares_next n l2).
  set (ps := b_addr pv / 4096) in *. set (nx := next_addr l2 stop) in *.
  assert (needs l1 (b_addr pv) k = true → 4096 * k < b_addr pv) as HL by (by apply needs_lt).
  assert (needs l2 stop k = true → nx < 4096 * (k + 1)) as HR by (by apply needs_ge).
  assert (shn = true → needs l2 stop eP = true) as HE.
  { unfold shn, shares_next. destruct l2 as [|c l2']; [done|]. intros Hc%Z.eqb_eq. fold eP in Hc. rewrite <- Hc. by apply needs_head. }
  assert (shn = false → needs l2 stop k = true → nx / 4096 ≠ eP) as HE'.
  { unfold shn, shares_next, nx. destruct l2 as [|c l2']; [done|]. by intros ?%Z.eqb_neq _. }
  clearbody shn sP eP pe ps nx. apply eq_true_iff_eq.
  destruct (needs l1 (b_addr pv) k); [specialize (HL eq_refl)|clear HL];
    (destruct (needs l2 stop k) eqn:E2; [specialize (HR eq_refl)|clear HR]);
    (destruct shn; [clear HE'; specialize (HE eq_refl)|clear HE; try specialize (HE' eq_refl eq_refl)]);
    destruct (Z.eqb_spec pe sP), (Z.eqb_spec eP sP), (Z.eqb_spec pe eP); cbn [negb andb orb]; try lia;
    (assert (k ≠ eP) by congruence); lia.
Qed.

Lemma delete_range_needed k :
  (frees_start pv n l2 || frees_end pv n l2) && in_range (freed_from pv n l2) (freed_to pv n l2) k = true →
  needs (l1 ++ pv :: n :: l2) stop k = true.
Proof.
  pose proof Ht as [H1 (_ & Hd1 & _ & Hd2 & H2)]%tiles_app. simpl in Hd1, H1.
  rewrite needs_app. simpl. unfold occ_end. rewrite n_free. unfold b_data, sizeof_binder_buffer.
  unfold freed_from, freed_to, frees_start, frees_end, in_range, meets. replace (b_addr n + 40 - 1) with (b_addr n + 39) by lia.
  pose proof (page_bounds (b_addr n)) as Bs. pose proof (page_bounds (b_addr n + 39)) as Be.
  set (sP := b_addr n / 4096) in *. set (eP := (b_addr n + 39) / 4096) in *. set (pe := (b_addr pv + 39) / 4096).
  set (shn := shares_next n l2). clearbody sP eP pe shn.
  destruct (needs l1 _ k); [done|]. destruct (needs l2 stop k); [by rewrite !orb_true_r|].
  destruct shn, (Z.eqb_spec pe sP), (Z.eqb_spec eP sP), (Z.eqb_spec pe eP); cbn [negb andb orb]; lia.
Qed.
End Delete.
End Need.
