(* ===== verification/KAllocInv.v ===== *)
(** * Binder driver: the allocator's invariant

    The buffers tile the area, free neighbours are merged, the two trees hold exactly
    the free and the allocated buffers in order, the mapped pages are exactly those the
    buffers need, and the asynchronous space is accounted for.  Each operation of the
    allocator keeps it and never trips a [BUG_ON]. *)
From stdpp Require Import sorting.
From S2P Require Import Prelude KAlloc KAllocSpec.

Definition free_addrs (l : list binder_buffer) : list Z := b_addr <$> filter (λ b, b_free b = true) l.
Definition alloc_addrs (l : list binder_buffer) : list Z := b_addr <$> filter (λ b, b_free b = false) l.

(** The size of a buffer, for buffers of the list. *)
Definition sz (p : binder_proc) (x : Z) : Z := default 0 (binder_buffer_size p x).

(** The bytes asked for, as the code computes them. *)
Definition payload (b : binder_buffer) : Z := u32 (ALIGN4 (b_data_size b) + ALIGN4 (b_offsets_size b)).

Definition base_page (p : binder_proc) : Z := p_buffer p / 4096.
Definition num_pages (p : binder_proc) : Z := p_buffer_size p / 4096.

(** The area and its pages. *)
Record area_ok (p : binder_proc) : Prop := {
  a_base : p_buffer p mod 4096 = 0;
  a_size : p_buffer_size p mod 4096 = 0;
  a_bounds : 0 < p_buffer p ∧ 0 < p_buffer_size p ≤ SZ_4M ∧ area_end p < 2 ^ 32;
  a_first : p_buffers p ≠ [] ∧ next_addr (p_buffers p) (area_end p) = p_buffer p;
  a_tiles : tiles (p_buffers p) (area_end p);
  a_pages : ∀ k, zlookup (p_pages p) (k - base_page p) =
    if in_range (base_page p) (base_page p + num_pages p) k then Some (needs (p_buffers p) (area_end p) k) else None }.

(** No two neighbours are free. *)
Fixpoint coalesced (l : list binder_buffer) : Prop :=
  match l with
  | b :: l => (b_free b = true → match l with c :: _ => b_free c = false | [] => True end) ∧ coalesced l
  | [] => True
  end.

(** The space asynchronous transactions use. *)
Fixpoint async_used (l : list binder_buffer) : Z :=
  match l with
  | [] => 0
  | b :: l => (if negb (b_free b) && b_async_transaction b then payload b + 40 else 0) + async_used l
  end.

Record alloc_inv (p : binder_proc) : Prop := {
  i_area : area_ok p;
  i_coalesced : coalesced (p_buffers p);
  i_free : tree_ok (sz p) (p_free_buffers p) (free_addrs (p_buffers p));
  i_alloc : tree_ok (λ x, x) (p_allocated_buffers p) (alloc_addrs (p_buffers p));
  i_fits : ∀ b, b ∈ p_buffers p → b_free b = false → payload b ≤ sz p (b_addr b);
  i_async : 0 ≤ p_free_async_space p ∧ p_free_async_space p + async_used (p_buffers p) = p_buffer_size p / 2 }.

(** ** Addresses by state *)

Lemma free_addrs_app l1 l2 : free_addrs (l1 ++ l2) = free_addrs l1 ++ free_addrs l2.
Proof. unfold free_addrs. by rewrite filter_app, fmap_app. Qed.

Lemma alloc_addrs_app l1 l2 : alloc_addrs (l1 ++ l2) = alloc_addrs l1 ++ alloc_addrs l2.
Proof. unfold alloc_addrs. by rewrite filter_app, fmap_app. Qed.

Lemma free_addrs_cons b l : free_addrs (b :: l) = (if b_free b then [b_addr b] else []) ++ free_addrs l.
Proof. unfold free_addrs. rewrite filter_cons. by destruct (b_free b). Qed.

Lemma alloc_addrs_cons b l : alloc_addrs (b :: l) = (if b_free b then [] else [b_addr b]) ++ alloc_addrs l.
Proof. unfold alloc_addrs. rewrite filter_cons. by destruct (b_free b). Qed.

Lemma elem_of_free_addrs l x : x ∈ free_addrs l ↔ ∃ b, b ∈ l ∧ b_free b = true ∧ b_addr b = x.
Proof. unfold free_addrs. rewrite list_elem_of_fmap. setoid_rewrite list_elem_of_filter. firstorder eauto. Qed.

Lemma elem_of_alloc_addrs l x : x ∈ alloc_addrs l ↔ ∃ b, b ∈ l ∧ b_free b = false ∧ b_addr b = x.
Proof. unfold alloc_addrs. rewrite list_elem_of_fmap. setoid_rewrite list_elem_of_filter. firstorder eauto. Qed.

Lemma free_addrs_subset l x : x ∈ free_addrs l → x ∈ b_addr <$> l.
Proof. rewrite elem_of_free_addrs. intros (b & Hb & _ & <-). by apply list_elem_of_fmap_2. Qed.

Lemma alloc_addrs_subset l x : x ∈ alloc_addrs l → x ∈ b_addr <$> l.
Proof. rewrite elem_of_alloc_addrs. intros (b & Hb & _ & <-). by apply list_elem_of_fmap_2. Qed.

(** ** Entries *)

Lemma entry_split p b :
  b ∈ p_buffers p → ∃ l1 l2, p_buffers p = l1 ++ b :: l2.
Proof. intros (l1 & l2 & Hl)%list_elem_of_split. by exists l1, l2. Qed.

Section Entries.
Variable p : binder_proc.
Hypothesis Ht : tiles (p_buffers p) (area_end p).

Lemma buf_at_elem b : b ∈ p_buffers p → buf_at (p_buffers p) (b_addr b) = Some b.
Proof. intros (l1 & l2 & Hl)%list_elem_of_split. rewrite Hl in *. by eapply buf_at_at. Qed.

Lemma sz_at l1 b l2 :
  p_buffers p = l1 ++ b :: l2 →
  binder_buffer_size p (b_addr b) = Some (sz p (b_addr b)) ∧ sz p (b_addr b) = next_addr l2 (area_end p) - b_data b.
Proof. intros Hl. unfold sz, binder_buffer_size. rewrite Hl in *. by rewrite (size_in_at _ _ _ _ Ht). Qed.

Lemma free_size_at x : x ∈ free_addrs (p_buffers p) → free_size p x = Some (sz p x).
Proof.
  intros (b & Hb & Hf & <-)%elem_of_free_addrs. unfold free_size. rewrite (buf_at_elem b Hb). cbn [mbind option_bind].
  rewrite Hf. apply entry_split in Hb as (l1 & l2 & Hl). by apply sz_at in Hl as [-> _].
Qed.

Lemma not_free_at x : x ∈ alloc_addrs (p_buffers p) → not_free p x = Some ().
Proof.
  intros (b & Hb & Hf & <-)%elem_of_alloc_addrs. unfold not_free. rewrite (buf_at_elem b Hb). cbn [mbind option_bind].
  by rewrite Hf.
Qed.

(** Linking a free, an allocated buffer into its tree. *)
Lemma insert_free_ok `{RbLaws} new xs :
  new ∈ free_addrs (p_buffers p) → tree_ok (sz p) (p_free_buffers p) xs → (∀ x, x ∈ xs → x ∈ free_addrs (p_buffers p)) →
  ∃ t', binder_insert_free_buffer p new = Some (set_free_buffers t' p) ∧ tree_ok (sz p) t' (new :: xs).
Proof.
  intros Hnew [Hp Hs] Hsub. unfold binder_insert_free_buffer. rewrite (free_size_at new Hnew). cbn [mbind option_bind].
  destruct (link_free_spec p (sz p) new (p_free_buffers p)) as (t' & -> & Hp' & Hs'); [|done|].
  { intros x Hx. apply free_size_at, Hsub. by rewrite <- Hp. }
  cbn [mbind option_bind]. eexists. split; [done|]. by apply (tree_ok_insert (sz p) (p_free_buffers p)).
Qed.

Lemma insert_allocated_ok `{RbLaws} new xs :
  new ∈ alloc_addrs (p_buffers p) → tree_ok (λ x, x) (p_allocated_buffers p) xs →
  (∀ x, x ∈ xs → x ∈ alloc_addrs (p_buffers p)) → new ∉ xs →
  ∃ t', binder_insert_allocated_buffer p new = Some (set_allocated_buffers t' p) ∧ tree_ok (λ x, x) t' (new :: xs).
Proof.
  intros Hnew [Hp Hs] Hsub Hn. unfold binder_insert_allocated_buffer. rewrite (not_free_at new Hnew). cbn [mbind option_bind].
  destruct (link_allocated_spec p new (p_allocated_buffers p)) as (t' & -> & Hp' & Hs'); [|done|by rewrite Hp|].
  { intros x Hx. apply not_free_at, Hsub. by rewrite <- Hp. }
  cbn [mbind option_bind]. eexists. split; [done|]. by apply (tree_ok_insert (λ x, x) (p_allocated_buffers p)).
Qed.
End Entries.

Lemma tiles_addrs l l' stop : b_addr <$> l = b_addr <$> l' → tiles l stop → tiles l' stop.
Proof.
  revert l'. induction l as [|b l IH]; intros [|b' l'] Ha; try done. injection Ha as Hb Ha. intros (Hm & Hd & Ht).
  unfold b_data in *. rewrite Hb in *. split; [done|]. split; [|by apply IH]. 
  destruct l as [|c l], l' as [|c' l']; try done. simpl in *. unfold b_data. by injection Ha as <- _.
Qed.

(** The sizes of buffers outside the part of the list that changes. *)
Lemma size_in_outside l1 m m' l2 stop x :
  NoDup (b_addr <$> (l1 ++ m ++ l2)) → NoDup (b_addr <$> (l1 ++ m' ++ l2)) →
  next_addr (m ++ l2) stop = next_addr (m' ++ l2) stop → x ∈ (b_addr <$> l1) ∨ x ∈ (b_addr <$> l2) →
  size_in (l1 ++ m ++ l2) stop x = size_in (l1 ++ m' ++ l2) stop x.
Proof.
  intros Hn Hn' Hnx Hx. rewrite !size_in_app. rewrite Hnx. destruct (size_in l1 _ x) eqn:E; [done|].
  rewrite !fmap_app, !NoDup_app in Hn, Hn'. destruct Hx as [Hx|Hx].
  - exfalso. revert E Hx. clear. induction l1 as [|b l1 IH]; simpl; [intros _ Hx; by apply elem_of_nil in Hx|].
    destruct (Z.eqb_spec (b_addr b) x); [done|]. intros E [->|Hx]%elem_of_cons; [done|by apply IH].
  - assert (x ∉ b_addr <$> m) as Hm by (intros Hi; destruct Hn as (_ & _ & _ & Hd & _); by apply (Hd x Hi)).
    assert (x ∉ b_addr <$> m') as Hm' by (intros Hi; destruct Hn' as (_ & _ & _ & Hd & _); by apply (Hd x Hi)).
    by rewrite (size_in_None m _ x Hm), (size_in_None m' _ x Hm').
Qed.

(** ** Steps *)

(** Replacing pages and entries: what the steps have to show. *)
Lemma area_ok_change p l pages :
  area_ok p → l ≠ [] → next_addr l (area_end p) = p_buffer p → tiles l (area_end p) →
  (∀ k, zlookup pages (k - base_page p) =
     if in_range (base_page p) (base_page p + num_pages p) k then Some (needs l (area_end p) k) else None) →
  area_ok (set_pages pages (set_buffers l p)).
Proof. intros [] ? ? ? ?. split; done. Qed.

Lemma area_base p : area_ok p → p_buffer p = 4096 * base_page p ∧ area_end p = 4096 * (base_page p + num_pages p) ∧
  area_end p mod 4096 = 0.
Proof.
  intros [Hb Hs _ _ _ _]. unfold area_end, base_page, num_pages.
  assert (p_buffer p = 4096 * (p_buffer p / 4096)) by divmod.
  assert (p_buffer_size p = 4096 * (p_buffer_size p / 4096)) by divmod. split; [done|]. split; [lia|]. divmod.
Qed.

(** Needed pages lie in the area. *)
Lemma needs_in_area p k : area_ok p → needs (p_buffers p) (area_end p) k = true →
  in_range (base_page p) (base_page p + num_pages p) k = true.
Proof.
  intros Ha Hn. destruct (area_base p Ha) as (Hb & He & _). pose proof (a_tiles _ Ha) as Ht.
  apply needs_lt in Hn as Hlt; [|done]. apply needs_ge in Hn as Hge; [|done]. destruct (a_first _ Ha) as [_ Hf].
  unfold in_range. lia.
Qed.

Lemma page_true p k : area_ok p → needs (p_buffers p) (area_end p) k = true →
  zlookup (p_pages p) (k - base_page p) = Some true.
Proof. intros Ha Hn. rewrite (a_pages _ Ha), (needs_in_area p k Ha Hn). by rewrite Hn. Qed.

Lemma page_ops (x : Z) :
  (x &&& PAGE_MASK) + PAGE_SIZE = 4096 * (x / 4096 + 1).
Proof. rewrite page_down. unfold PAGE_SIZE. lia. Qed.

(** The flags the code computes, and the pages they select. *)
Lemma delete_flags {A} pv n l2 (f : bool → bool → A) :
  (let '(a, b) :=
     match head l2 with
     | Some next => if buffer_start_page next =? buffer_end_page n
         then (negb (buffer_end_page pv =? buffer_start_page n) && negb (buffer_start_page next =? buffer_start_page n), false)
         else (negb (buffer_end_page pv =? buffer_start_page n),
               negb ((buffer_end_page pv =? buffer_start_page n) && (buffer_end_page pv =? buffer_end_page n)))
     | None => (negb (buffer_end_page pv =? buffer_start_page n),
                negb ((buffer_end_page pv =? buffer_start_page n) && (buffer_end_page pv =? buffer_end_page n)))
     end in f a b) = f (frees_start pv n l2) (frees_end pv n l2).
Proof.
  unfold buffer_start_page, buffer_end_page, sizeof_binder_buffer. rewrite !page_down.
  replace (b_addr n + 40 - 1) with (b_addr n + 39) by lia. replace (b_addr pv + 40 - 1) with (b_addr pv + 39) by lia.
  assert (∀ x y, (4096 * x =? 4096 * y) = (x =? y)) as Heq by (intros; lia).
  unfold frees_start, frees_end, shares_next. destruct l2 as [|c l2']; cbn [head]; rewrite ?page_down, !Heq.
  - cbn [andb negb]. by rewrite !andb_true_r.
  - set (nP := b_addr c / 4096). destruct (Z.eqb_spec nP ((b_addr n + 39) / 4096)) as [->|]; cbn [andb negb];
      [by rewrite !andb_false_r|by rewrite !andb_true_r].
Qed.

Lemma delete_pages pv n l2 :
  (if frees_start pv n l2 then buffer_start_page n else buffer_end_page n) = 4096 * freed_from pv n l2 ∧
  (if frees_end pv n l2 then buffer_end_page n else buffer_start_page n) + PAGE_SIZE = 4096 * freed_to pv n l2.
Proof.
  unfold buffer_start_page, buffer_end_page, sizeof_binder_buffer, PAGE_SIZE, freed_from, freed_to. rewrite !page_down.
  replace (b_addr n + 40 - 1) with (b_addr n + 39) by lia. destruct (frees_start _ _ _), (frees_end _ _ _); lia.
Qed.

Lemma delete_free_ok e p l1 pv n l2 :
  area_ok p → p_buffers p = l1 ++ pv :: n :: l2 → b_free pv = true → b_free n = true →
  ∃ pages', binder_delete_free_buffer e p (b_addr n) = Some (set_pages pages' (set_buffers (l1 ++ pv :: l2) p)) ∧
    area_ok (set_pages pages' (set_buffers (l1 ++ pv :: l2) p)).
Proof.
  intros Ha Hl Hpv Hn. pose proof (a_tiles _ Ha) as Ht. rewrite Hl in Ht.
  destruct (area_base p Ha) as (Hb & _ & Hst).
  assert (l1 ++ pv :: n :: l2 = (l1 ++ [pv]) ++ n :: l2) as Hl' by (by rewrite <- app_assoc).
  pose proof Ht as Ht'. rewrite Hl' in Ht'. unfold binder_delete_free_buffer.
  rewrite Hl, Hl', (neighbours_at None _ _ _ _ Ht'), last_snoc, (remove_buf_at _ _ _ _ Ht'). cbn [mbind option_bind].
  rewrite Hpv. cbn [negb]. rewrite <- app_assoc. cbn [app]. rewrite delete_flags.
  set (q := set_buffers (l1 ++ pv :: l2) p).
  pose proof (delete_needs_iff l1 l2 (area_end p) pv n Hpv Hn Ht) as Hiff.
  pose proof (delete_range_needed l1 l2 (area_end p) pv n Hpv Hn Ht) as Hneed.
  assert (∀ pages, (∀ k, zlookup pages (k - base_page p) = if in_range (base_page p) (base_page p + num_pages p) k
      then Some (needs (l1 ++ pv :: l2) (area_end p) k) else None) → area_ok (set_pages pages q)) as Hok.
  { intros pages Hp. apply area_ok_change; [done|by destruct l1| | |done].
    - destruct (a_first _ Ha) as [_ <-]. rewrite Hl. by destruct l1.
    - apply tiles_app in Ht as [H1 (Hm & Hd & _ & Hd2 & H2)]. apply tiles_app. split; [done|]. split; [done|]. split; [|done].
      simpl in Hd. unfold b_data, sizeof_binder_buffer in *. lia. }
  destruct (frees_start pv n l2 || frees_end pv n l2) eqn:Efs.
  - destruct (delete_pages pv n l2) as [-> ->].
    destruct (update_free_spec e q (base_page p) (freed_from pv n l2) (freed_to pv n l2)) as (ret & pages' & -> & Hp'); [done| |].
    { intros k Hk. apply (page_true p k Ha). rewrite Hl. apply Hneed. unfold in_range. lia. }
    cbn [mbind option_bind]. exists pages'. split; [done|]. apply Hok. intros k. rewrite Hp'. cbn [q set_buffers p_pages].
    rewrite (a_pages _ Ha), Hiff, Hl. fold (in_range (freed_from pv n l2) (freed_to pv n l2) k).
    destruct (in_range (freed_from pv n l2) (freed_to pv n l2) k) eqn:Er; cbn [andb negb].
    + rewrite andb_false_r. rewrite (needs_in_area p k Ha); [done|]. rewrite Hl. by apply Hneed.
    + by rewrite andb_true_r.
  - exists (p_pages p). assert (set_pages (p_pages p) q = q) as Hq by (by destruct p). rewrite Hq. split; [done|].
    rewrite <- Hq. apply Hok. intros k. rewrite (a_pages _ Ha), Hiff, Hl. cbn [andb negb]. by rewrite andb_true_r.
Qed.

(** ** Allocation *)

Section Alloc.
Context `{RbLaws}.

(** The header as [binder_alloc_buf] leaves it, and the header it may split off. *)
Definition taken (b : binder_buffer) (data_size offsets_size : Z) (is_async : bool) : binder_buffer :=
  Buf (b_addr b) false (b_allow_user_free b) is_async (b_transaction b) (b_target_node b) data_size offsets_size.

Definition split_off (garbage : binder_buffer) (addr : Z) : binder_buffer :=
  Buf addr true (b_allow_user_free garbage) (b_async_transaction garbage) (b_transaction garbage) (b_target_node garbage)
    (b_data_size garbage) (b_offsets_size garbage).

(** What follows a taken buffer: nothing new when at most 44 bytes are left. *)
Definition rest_after (garbage b : binder_buffer) (full size : Z) : list binder_buffer :=
  if full <=? size + 44 then [] else [split_off garbage (b_data b + size)].

(** The pages that go with it. *)
Definition take_bsize (full size : Z) : Z := if full <=? size + 44 then size else size + 40.

Lemma sub_insert_addrs l1 b m l2 stop :
  tiles (l1 ++ b :: l2) stop → tiles (l1 ++ m ++ l2) stop → next_addr (m ++ l2) stop = b_addr b →
  ∀ x, x ∈ (b_addr <$> l1) ∨ x ∈ (b_addr <$> l2) →
  size_in (l1 ++ b :: l2) stop x = size_in (l1 ++ m ++ l2) stop x.
Proof.
  intros Ht Hm Hn x Hx. apply (size_in_outside l1 [b] m l2); [by apply tiles_nodup in Ht|by apply tiles_nodup in Hm|done|done].
Qed.

Lemma coalesced_app l1 l2 :
  coalesced (l1 ++ l2) ↔ coalesced l1 ∧ coalesced l2 ∧
    match last l1, head l2 with Some b, Some c => b_free b = true → b_free c = false | _, _ => True end.
Proof.
  induction l1 as [|x l1 IH]; [simpl; tauto|]. destruct l1 as [|y l1].
  - destruct l2 as [|c l2]; simpl; tauto.
  - change (last (x :: y :: l1)) with (last (y :: l1)). cbn [app coalesced] in *. rewrite IH. tauto.
Qed.

Lemma async_used_app l1 l2 : async_used (l1 ++ l2) = async_used l1 + async_used l2.
Proof. induction l1 as [|b l1 IH]; simpl; lia. Qed.

Lemma taken_tiles garbage l1 b l2 stop size ds os a :
  tiles (l1 ++ b :: l2) stop → 0 ≤ size ≤ next_addr l2 stop - b_data b → size mod 4 = 0 →
  tiles (l1 ++ (taken b ds os a :: rest_after garbage b (next_addr l2 stop - b_data b) size) ++ l2) stop.
Proof.
  intros [H1 (Hm & Hd & H2)]%tiles_app Hs H4. apply tiles_app. split; [done|]. unfold rest_after.
  destruct (Z.leb_spec (next_addr l2 stop - b_data b) (size + 44)); simpl; unfold b_data, sizeof_binder_buffer in *; simpl in *.
  - by split_and!.
  - split_and!; [done|lia|divmod|lia|done].
Qed.

Lemma rest_cases garbage b full size :
  (rest_after garbage b full size = [] ∧ take_bsize full size = size ∧ full ≤ size + 44) ∨
  (∃ nb, rest_after garbage b full size = [nb] ∧ b_free nb = true ∧ b_addr nb = b_data b + size ∧
    take_bsize full size = size + 40 ∧ size + 44 < full).
Proof. unfold rest_after, take_bsize. destruct (Z.leb_spec full (size + 44)); [left|right]; [done|]. by eexists. Qed.

(** The first page taken for [size] bytes of the buffer [b], and the one after the last. *)
Definition take_from (b : binder_buffer) : Z := (b_data b + 4095) / 4096.
Definition take_to (b : binder_buffer) (nxt size : Z) : Z :=
  Z.min ((b_data b + take_bsize (nxt - b_data b) size + 4095) / 4096) (nxt / 4096).

Section TakePages.
Variables (garbage : binder_buffer) (p : binder_proc) (l1 : list binder_buffer) (b : binder_buffer).
Variables (l2 : list binder_buffer) (size : Z).
Hypothesis Ha : area_ok p.
Hypothesis Hl : p_buffers p = l1 ++ b :: l2.
Hypothesis Hf : b_free b = true.
Let nxt := next_addr l2 (area_end p).
Hypothesis Hs : 0 ≤ size ≤ nxt - b_data b.

Lemma take_in_area k :
  in_range (take_from b) (take_to b nxt size) k = true → in_range (base_page p) (base_page p + num_pages p) k = true.
Proof.
  destruct (area_base p Ha) as (Hb & He & Hst). destruct (a_first _ Ha) as [_ Hfst].
  pose proof (a_tiles _ Ha) as Ht. rewrite Hl in Ht. apply tiles_app in Ht as [Ht1 (_ & Hd & Ht2)].
  pose proof (tiles_le _ _ Ht1). pose proof (tiles_le _ _ Ht2).
  assert (p_buffer p ≤ b_addr b). { rewrite <- Hfst, Hl. by rewrite next_addr_app. }
  unfold in_range, take_from, take_to, b_data, sizeof_binder_buffer in *. intros Hk.
  assert ((b_addr b + 40 + 4095) / 4096 ≤ k ∧ k < nxt / 4096) as [? ?] by lia. clear Hk. unfold nxt in *. divmod.
Qed.

Lemma take_pages_missing k :
  take_from b ≤ k < take_to b nxt size → zlookup (p_pages p) (k - base_page p) = Some false.
Proof.
  intros Hk. assert (in_range (take_from b) (take_to b nxt size) k = true) as Hr by (unfold in_range; lia).
  pose proof (a_tiles _ Ha) as Ht. rewrite Hl in Ht. rewrite (a_pages _ Ha), (take_in_area k Hr), Hl.
  by rewrite (take_range_missing l1 l2 (area_end p) b (taken b 0 0 false) (take_bsize (nxt - b_data b) size) Hf
    (conj eq_refl eq_refl) Ht k Hr).
Qed.

Lemma taken_area ds os a pages :
  size mod 4 = 0 →
  (∀ k, zlookup pages (k - base_page p) =
     if in_range (take_from b) (take_to b nxt size) k then Some true else zlookup (p_pages p) (k - base_page p)) →
  area_ok (set_pages pages (set_buffers (l1 ++ (taken b ds os a :: rest_after garbage b (nxt - b_data b) size) ++ l2) p)).
Proof.
  intros H4 Hp. pose proof (a_tiles _ Ha) as Ht. rewrite Hl in Ht. destruct (area_base p Ha) as (Hb & He & Hst).
  apply area_ok_change; [done|by destruct l1| |by apply taken_tiles|].
  - destruct (a_first _ Ha) as [_ <-]. rewrite Hl. by destruct l1.
  - intros k. rewrite Hp. cbn [app].
    rewrite (take_needs l1 l2 (area_end p) Hst b (taken b ds os a) size (take_bsize (nxt - b_data b) size) _ Hf
      (conj eq_refl eq_refl) Ht Hs (rest_cases garbage b _ size) k).
    fold nxt. change (Z.min _ _) with (take_to b nxt size). fold (take_from b).
    destruct (in_range (take_from b) (take_to b nxt size) k) eqn:Er; [|by rewrite (a_pages _ Ha), Hl].
    by rewrite (take_in_area k Er).
Qed.
End TakePages.

(** Removing an address from those of a list. *)
Lemma filter_free_addrs l1 b l2 stop :
  tiles (l1 ++ b :: l2) stop → filter (λ y, y ≠ b_addr b) (free_addrs (l1 ++ b :: l2)) = free_addrs (l1 ++ l2).
Proof.
  intros Ht. rewrite !free_addrs_app, free_addrs_cons, !filter_app.
  assert (∀ l, (∀ c, c ∈ l → b_addr c ≠ b_addr b) → filter (λ y, y ≠ b_addr b) (free_addrs l) = free_addrs l) as Hid.
  { intros l Hl. apply filter_id. intros x (c & Hc & _ & <-)%elem_of_free_addrs. by apply Hl. }
  rewrite (Hid l1), (Hid l2) by (intros c Hc; (by eapply addr_ne_before) || (by eapply addr_ne_after)).
  destruct (b_free b); [|done]. rewrite filter_cons_False by (intros Hne; by apply Hne). done.
Qed.

Lemma filter_alloc_addrs l1 b l2 stop :
  tiles (l1 ++ b :: l2) stop → filter (λ y, y ≠ b_addr b) (alloc_addrs (l1 ++ b :: l2)) = alloc_addrs (l1 ++ l2).
Proof.
  intros Ht. rewrite !alloc_addrs_app, alloc_addrs_cons, !filter_app.
  assert (∀ l, (∀ c, c ∈ l → b_addr c ≠ b_addr b) → filter (λ y, y ≠ b_addr b) (alloc_addrs l) = alloc_addrs l) as Hid.
  { intros l Hl. apply filter_id. intros x (c & Hc & _ & <-)%elem_of_alloc_addrs. by apply Hl. }
  rewrite (Hid l1), (Hid l2) by (intros c Hc; (by eapply addr_ne_before) || (by eapply addr_ne_after)).
  destruct (b_free b); [done|]. rewrite filter_cons_False by (intros Hne; by apply Hne). done.
Qed.

(** The part of the list around the change. *)
Lemma outside_addrs l1 l2 x :
  x ∈ free_addrs (l1 ++ l2) ∨ x ∈ alloc_addrs (l1 ++ l2) → x ∈ (b_addr <$> l1) ∨ x ∈ (b_addr <$> l2).
Proof.
  rewrite free_addrs_app, alloc_addrs_app, !elem_of_app.
  intros [[Hx|Hx]|[Hx|Hx]]; [left|right|left|right]; (by apply free_addrs_subset) || (by apply alloc_addrs_subset).
Qed.

(** The state after a successful allocation satisfies the invariant. *)
Lemma taken_inv garbage p l1 b l2 size ds os a pages tf ta :
  alloc_inv p → p_buffers p = l1 ++ b :: l2 → b_free b = true →
  let full := next_addr l2 (area_end p) - b_data b in
  0 ≤ size ≤ full → size = u32 (ALIGN4 ds + ALIGN4 os) →
  (a = true → size + 40 ≤ p_free_async_space p) →
  let l := l1 ++ (taken b ds os a :: rest_after garbage b full size) ++ l2 in
  let q := Proc (p_vma p) (p_vma_vm_mm p) (p_buffer p) (p_user_buffer_offset p) l tf ta
             (if a then p_free_async_space p - (size + 40) else p_free_async_space p) pages (p_buffer_size p) in
  area_ok (set_pages pages (set_buffers l p)) →
  tree_ok (sz (set_buffers l p)) tf (free_addrs l) → tree_ok (λ x, x) ta (alloc_addrs l) → alloc_inv q.
Proof.
  intros Hi Hl Hf full Hs Hsz Has l q Ha Htf Hta. pose proof (a_tiles _ (i_area _ Hi)) as Ht. rewrite Hl in Ht.
  assert (tiles l (area_end p)) as Htl by apply (a_tiles _ Ha).
  assert (∀ x, x ∈ (b_addr <$> l1) ∨ x ∈ (b_addr <$> l2) → sz q x = sz p x) as Hsame.
  { intros x Hx. unfold sz, binder_buffer_size. rewrite Hl. change (area_end q) with (area_end p). cbn [q p_buffers].
    unfold l. by rewrite (sub_insert_addrs l1 b _ l2 (area_end p) Ht Htl). }
  split.
  - by destruct Ha.
  - pose proof (i_coalesced _ Hi) as Hc. rewrite Hl in Hc. apply coalesced_app in Hc as (Hc1 & (Hbc & Hc2) & _).
    cbn [q p_buffers]. unfold l. apply coalesced_app. split; [done|]. split.
    + cbn [app coalesced taken b_free]. split; [done|]. unfold rest_after. destruct (_ <=? _); [done|]. cbn [app coalesced].
      split; [|done]. intros _. specialize (Hbc Hf). by destruct l2.
    + by destruct (last l1).
  - exact Htf.
  - exact Hta.
  - cbn [q p_buffers]. unfold l. intros c Hc Hcf. rewrite !elem_of_app, elem_of_cons in Hc. destruct Hc as [Hc|[[->|Hc]|Hc]].
    + rewrite Hsame by (left; by apply list_elem_of_fmap_2). apply (i_fits _ Hi); [|done]. rewrite Hl, elem_of_app. by left.
    + unfold payload. cbn [taken b_addr b_data_size b_offsets_size]. rewrite <- Hsz.
      destruct (sz_at q Htl l1 (taken b ds os a) (rest_after garbage b full size ++ l2) eq_refl) as [_ Hq].
      cbn [taken b_addr] in Hq. rewrite Hq. change (area_end q) with (area_end p).
      unfold rest_after. destruct (Z.leb_spec full (size + 44)); cbn [app next_addr split_off b_addr]; unfold b_data in *; cbn [b_addr taken]; unfold full, b_data in *; lia.
    + unfold rest_after in Hc. destruct (_ <=? _); [by apply elem_of_nil in Hc|].
      apply list_elem_of_singleton in Hc as ->. done.
    + rewrite Hsame by (right; by apply list_elem_of_fmap_2). apply (i_fits _ Hi); [|done].
      rewrite Hl, elem_of_app, elem_of_cons. by right; right.
  - destruct (i_async _ Hi) as [Hn Heq]. cbn [q p_buffers p_free_async_space p_buffer_size]. rewrite Hl in Heq. unfold l.
    rewrite !async_used_app in *. cbn [async_used] in Heq. rewrite Hf in Heq. cbn [negb andb] in Heq.
    assert (∀ r, async_used (taken b ds os a :: r) = (if a then size + 40 else 0) + async_used r) as ->.
    { intros r. cbn [async_used]. change (payload (taken b ds os a)) with (u32 (ALIGN4 ds + ALIGN4 os)). by rewrite <- Hsz. }
    assert (async_used (rest_after garbage b full size) = 0) as Hz by (unfold rest_after; by destruct (_ <=? _)).
    destruct a; [specialize (Has eq_refl)|]; lia.
Qed.

(** Why taking pages can fail. *)
Definition no_pages (e : page_env) (p : binder_proc) : Prop :=
  pe_task_mm e ≠ Some (p_vma_vm_mm p) ∨ ∃ k, pe_page e (4096 * k) ≠ Page_ok.

(** The state after a successful allocation from [b]. *)
Definition after_take (garbage : binder_buffer) (p : binder_proc) (l1 : list binder_buffer) (b : binder_buffer)
    (l2 : list binder_buffer) (size ds os : Z) (a : bool) (p' : binder_proc) : Prop :=
  let full := next_addr l2 (area_end p) - b_data b in
  ∃ pages tf ta, p' =
    Proc (p_vma p) (p_vma_vm_mm p) (p_buffer p) (p_user_buffer_offset p)
      (l1 ++ (taken b ds os a :: rest_after garbage b full size) ++ l2) tf ta
      (if a then p_free_async_space p - (size + 40) else p_free_async_space p) pages (p_buffer_size p).

(** Linking the headers of a taken buffer, from the state with its pages. *)
Lemma link_taken garbage p pages l1 b l2 size :
  alloc_inv p → p_buffers p = l1 ++ b :: l2 → b_free b = true → size mod 4 = 0 →
  let full := next_addr l2 (area_end p) - b_data b in
  0 ≤ size ≤ full →
  let p1 := set_buffers (upd_buf (set_free false) (b_addr b) (p_buffers p))
              (set_free_buffers (rb_erase (b_addr b) (p_free_buffers p)) (set_pages pages p)) in
  let l := l1 ++ (set_free false b :: rest_after garbage b full size) ++ l2 in
  ∃ tf ta,
    (p ← binder_insert_allocated_buffer p1 (b_addr b);
     if negb (take_bsize full size =? size) then
       binder_insert_free_buffer (set_buffers (add_behind (split_off garbage (b_data b + size)) (b_addr b) (p_buffers p)) p)
         (b_data b + size)
     else Some p) =
    Some (set_allocated_buffers ta (set_free_buffers tf (set_buffers l (set_pages pages p)))) ∧
    tree_ok (sz (set_buffers l p)) tf (free_addrs l) ∧ tree_ok (λ x, x) ta (alloc_addrs l).
Proof.
  intros Hi Hl Hf H4 full Hs p1 l. pose proof (a_tiles _ (i_area _ Hi)) as Ht. rewrite Hl in Ht.
  assert (p_buffers p1 = l1 ++ set_free false b :: l2) as Hl1.
  { cbn [p1 set_buffers p_buffers]. by rewrite Hl, (upd_buf_at _ _ _ _ _ Ht). }
  assert (tiles (l1 ++ set_free false b :: l2) (area_end p)) as Ht1.
  { apply (tiles_addrs (l1 ++ b :: l2)); [by rewrite !fmap_app, !fmap_cons|done]. }
  assert (tiles l (area_end p)) as Htl.
  { apply (tiles_addrs (l1 ++ (taken b 0 0 false :: rest_after garbage b full size) ++ l2));
      [unfold l; by rewrite !fmap_app, !fmap_cons|by apply taken_tiles]. }
  pose proof (i_alloc _ Hi) as Hta. pose proof (i_free _ Hi) as Htf. rewrite Hl in Hta, Htf.
  rewrite alloc_addrs_app, alloc_addrs_cons, Hf in Hta. cbn [app] in Hta. rewrite <- alloc_addrs_app in Hta.
  apply (tree_ok_erase _ _ _ (b_addr b)) in Htf. rewrite (filter_free_addrs _ _ _ _ Ht) in Htf.
  destruct (insert_allocated_ok p1 ltac:(by rewrite Hl1) (b_addr b) (alloc_addrs (l1 ++ l2))) as (ta & -> & Hta').
  { rewrite Hl1, alloc_addrs_app, alloc_addrs_cons. cbn [set_free b_free b_addr]. rewrite !elem_of_app. right. left.
    by apply list_elem_of_singleton. }
  { exact Hta. }
  { intros x Hx. rewrite Hl1, alloc_addrs_app, alloc_addrs_cons, !elem_of_app. rewrite alloc_addrs_app, elem_of_app in Hx. tauto. }
  { intros Hx. destruct (outside_addrs l1 l2 (b_addr b)) as [Hx'|Hx']; [by right| |].
    - by apply (addr_notin_before _ _ _ _ Ht) in Hx'.
    - by apply (addr_notin_after _ _ _ _ Ht) in Hx'. }
  assert (tree_ok (λ x, x) ta (alloc_addrs l)) as Hta2.
  { eapply tree_ok_ext; [exact Hta'| |done]. unfold l. rewrite !alloc_addrs_app, alloc_addrs_cons. cbn [set_free b_free b_addr].
    assert (alloc_addrs (rest_after garbage b full size) = []) as -> by (unfold rest_after; by destruct (_ <=? _)).
    rewrite app_nil_r. cbn [app]. apply Permutation_middle. }
  cbn [mbind option_bind]. unfold take_bsize, rest_after in *. destruct (Z.leb_spec full (size + 44)) as [Hroom|Hroom].
  - rewrite Z.eqb_refl. cbn [negb]. exists (rb_erase (b_addr b) (p_free_buffers p)), ta. split.
    { unfold p1, set_allocated_buffers, set_free_buffers, set_buffers, set_pages. cbn. by rewrite Hl, (upd_buf_at _ _ _ _ _ Ht). }
    split; [|done]. eapply tree_ok_ext; [exact Htf| |].
    + unfold l. rewrite !free_addrs_app, free_addrs_cons. done.
    + intros x Hx. unfold sz, binder_buffer_size. rewrite Hl. cbn [set_buffers p_buffers]. unfold l.
      by rewrite (sub_insert_addrs l1 b [set_free false b] l2 _ Ht Htl) by (try done; apply outside_addrs; by left).
  - destruct (Z.eqb_spec (size + 40) size); [lia|]. cbn [negb]. set (nb := split_off garbage (b_data b + size)) in *.
    set (p3 := set_buffers _ _).
    assert (p_buffers p3 = l) as Hl3.
    { unfold p3. cbn [set_buffers p_buffers set_allocated_buffers]. change (p_buffers p1) with (p_buffers p1). rewrite Hl1.
      exact (add_behind_at nb _ _ _ _ Ht1). }
    assert (∀ x, x ∈ free_addrs (l1 ++ l2) → sz p x = sz p3 x) as Hsame.
    { intros x Hx. unfold sz, binder_buffer_size. rewrite Hl, Hl3. change (area_end p3) with (area_end p). unfold l.
      by rewrite (sub_insert_addrs l1 b (set_free false b :: [nb]) l2 _ Ht Htl) by (try done; apply outside_addrs; by left). }
    destruct (insert_free_ok p3 ltac:(rewrite Hl3; exact Htl) (b_data b + size) (free_addrs (l1 ++ l2))) as (tf & -> & Htf').
    { rewrite Hl3. unfold l. rewrite free_addrs_app. apply elem_of_app. right. apply elem_of_free_addrs. exists nb.
      split; [|done]. cbn [app]. apply elem_of_cons. right. apply elem_of_cons. by left. }
    { eapply tree_ok_ext; [exact Htf|done|exact Hsame]. }
    { intros x. rewrite Hl3. unfold l. rewrite !free_addrs_app, !elem_of_app. tauto. }
    exists tf, ta. split.
    { f_equal. unfold p3, p1, set_allocated_buffers, set_free_buffers, set_buffers, set_pages. cbn. f_equal.
      rewrite Hl, (upd_buf_at _ _ _ _ _ Ht). exact (add_behind_at nb _ _ _ _ Ht1). }
    split; [|done]. eapply tree_ok_ext; [exact Htf'| |].
    + unfold l. rewrite !free_addrs_app. cbn [app]. rewrite !free_addrs_cons. cbn [set_free b_free b_addr nb split_off].
      rewrite app_nil_r. apply Permutation_middle.
    + intros x _. unfold sz, binder_buffer_size. by rewrite Hl3.
Qed.

Lemma after_take_final (garbage b : binder_buffer) l1 l2 full size ds os a stop :
  tiles (l1 ++ (set_free false b :: rest_after garbage b full size) ++ l2) stop →
  upd_buf (λ b, Buf (b_addr b) (b_free b) (b_allow_user_free b) a (b_transaction b) (b_target_node b) ds os) (b_addr b)
    (l1 ++ (set_free false b :: rest_after garbage b full size) ++ l2) =
  l1 ++ (taken b ds os a :: rest_after garbage b full size) ++ l2.
Proof. intros Ht. exact (upd_buf_at _ _ _ _ _ Ht). Qed.

Lemma buffer_size_choice exact full size :
  (if exact : bool then full = size else size < full) →
  (if exact then full else if full <=? size + sizeof_binder_buffer + 4 then size else size + sizeof_binder_buffer) =
  take_bsize full size.
Proof.
  unfold take_bsize, sizeof_binder_buffer. replace (size + 40 + 4) with (size + 44) by lia.
  destruct exact; [intros ->|done]. destruct (Z.leb_spec size (size + 44)); lia.
Qed.

(** The page arithmetic of an allocation. *)
Lemma take_pages b nxt size :
  (let has := (b_data b + (nxt - b_data b)) &&& PAGE_MASK in
   let stop := PAGE_ALIGN (b_data b + take_bsize (nxt - b_data b) size) in
   if has <? stop then has else stop) = 4096 * take_to b nxt size.
Proof.
  cbv zeta. rewrite page_align, page_down. unfold take_to. replace (b_data b + (nxt - b_data b)) with nxt by lia.
  destruct (Z.ltb_spec (4096 * (nxt / 4096)) (4096 * ((b_data b + take_bsize (nxt - b_data b) size + 4095) / 4096))); lia.
Qed.

Lemma take_buffer_ok e garbage p l1 b l2 exact size ds os a :
  alloc_inv p → p_vma p = true → p_buffers p = l1 ++ b :: l2 → b_free b = true → size mod 4 = 0 →
  let full := next_addr l2 (area_end p) - b_data b in
  0 ≤ size ≤ full → (if exact : bool then full = size else size < full) → size = u32 (ALIGN4 ds + ALIGN4 os) →
  (a = true → size + 40 ≤ p_free_async_space p) →
  ∃ r p', take_buffer e garbage p (b_addr b) exact size ds os a = Some (r, p') ∧
    ((r = None ∧ p' = p ∧ no_pages e p) ∨
     (r = Some (b_addr b) ∧ after_take garbage p l1 b l2 size ds os a p' ∧ alloc_inv p')).
Proof.
  intros Hi Hvma Hl Hf H4 full Hs Hex Hsz Has. pose proof (i_area _ Hi) as Ha. pose proof (a_tiles _ Ha) as Ht.
  destruct (area_base p Ha) as (Hb & _ & _). unfold take_buffer.
  destruct (sz_at p Ht l1 b l2 Hl) as [-> ->]. cbn [mbind option_bind]. fold full.
  rewrite (buffer_size_choice exact full size Hex), page_align. fold (b_data b) (take_from b).
  pose proof (take_pages b (next_addr l2 (area_end p)) size) as Hpg. cbv zeta in Hpg. fold full in Hpg. rewrite Hpg. clear Hpg.
  destruct (update_alloc_spec e p (base_page p) (take_from b) (take_to b (next_addr l2 (area_end p)) size) false Hb)
    as (ret & p' & -> & Hr); [by apply (take_pages_missing p l1)|].
  cbn [mbind option_bind]. destruct Hr as [(-> & pages & -> & Hp)|(-> & -> & Hwhy)]; cycle 1.
  { eexists _, _. split; [reflexivity|]. left. split; [done|]. split; [done|]. unfold no_pages.
    destruct Hwhy as [[_ ?]|[[_ ?]|(k & _ & ?)]]; [by left|congruence|right; by exists k]. }
  change (truthy 0) with false. cbn iota.
  destruct (link_taken garbage p pages l1 b l2 size Hi Hl Hf H4 Hs) as (tf & ta & Hlink & Htf & Hta).
  fold full in Hlink, Htf, Hta. fold (split_off garbage (b_data b + size)).
  set (l := l1 ++ (set_free false b :: rest_after garbage b full size) ++ l2) in *.
  set (q := binder_insert_allocated_buffer _ _) in Hlink |- *. destruct q as [p2|]; [|done]. cbn [mbind option_bind] in Hlink |- *.
  rewrite Hlink. cbn [mbind option_bind]. eexists _, _. split; [reflexivity|]. right. split; [done|].
  pose proof (taken_area garbage p l1 b l2 size Ha Hl Hf Hs ds os a pages H4 Hp) as Hta'. fold full in Hta'.
  assert (tiles l (area_end p)) as Htl.
  { eapply tiles_addrs; [|exact (a_tiles _ Hta')]. cbn [set_pages set_buffers p_buffers]. unfold l. by rewrite !fmap_app. }
  unfold l in Htl |- *. cbn [set_allocated_buffers set_free_buffers set_buffers set_pages p_buffers p_free_async_space].
  rewrite (after_take_final garbage b l1 l2 full size ds os a (area_end p) Htl).
  destruct (i_async _ Hi) as [Hn Heq]. destruct (a_bounds _ Ha) as (_ & Hsm & _).
  assert (0 ≤ async_used (p_buffers p)) as Hau.
  { clear. induction (p_buffers p) as [|c r IH]; simpl; [lia|]. pose proof (wrap_range 32 (ALIGN4 (b_data_size c) + ALIGN4 (b_offsets_size c))).
    fold (payload c) in *. destruct (_ && _); lia. }
  set (p' := if a then _ else _).
  assert (p' = Proc (p_vma p) (p_vma_vm_mm p) (p_buffer p) (p_user_buffer_offset p)
      (l1 ++ (taken b ds os a :: rest_after garbage b full size) ++ l2) tf ta
      (if a then p_free_async_space p - (size + 40) else p_free_async_space p) pages (p_buffer_size p)) as Hp'.
  { unfold p'. destruct a; [|done]. unfold set_async_space, sizeof_binder_buffer. cbn. specialize (Has eq_refl).
    rewrite (wrap_small 32); [done|]. unfold SZ_4M in Hsm. assert (p_buffer_size p / 2 ≤ p_buffer_size p) by divmod. lia. }
  rewrite Hp'. split; [by exists pages, tf, ta|]. apply (taken_inv garbage p l1 b l2 size ds os a pages tf ta); try done.
  - eapply tree_ok_ext; [exact Htf|unfold l; by rewrite !free_addrs_app, !free_addrs_cons|].
    intros x _. unfold sz, binder_buffer_size. cbn [set_buffers p_buffers]. f_equal. apply size_in_addrs.
    unfold l. by rewrite !fmap_app.
  - eapply tree_ok_ext; [exact Hta|unfold l; by rewrite !alloc_addrs_app, !alloc_addrs_cons|done].
Qed.

(** ** Sizes *)

Definition up4 (x : Z) : Z := 4 * ((x + 3) / 4).

Lemma align4_eq x : 0 ≤ x < 2 ^ 32 → ALIGN4 x = up4 x mod 2 ^ 32.
Proof.
  intros Hx. unfold ALIGN4, up4, wrap. rewrite (land_lnot_mask _ 2) by lia. change (2 ^ 2) with 4. change (2 ^ 32) with 4294967296 in *.
  divmod.
Qed.

(** The guard on the sizes rejects every request whose total wraps around. *)
Lemma alloc_size ds os :
  0 ≤ ds < 2 ^ 32 → 0 ≤ os < 2 ^ 32 →
  let size := u32 (ALIGN4 ds + ALIGN4 os) in
  0 ≤ size ∧ size mod 4 = 0 ∧ (ds ≤ size → os ≤ size → size = up4 ds + up4 os).
Proof.
  intros Hd Ho size. unfold size, wrap. rewrite (align4_eq ds), (align4_eq os) by done.
  change (2 ^ 32) with 4294967296 in *. unfold up4.
  set (x := (ds + 3) / 4). assert (4 * x - 3 ≤ ds ≤ 4 * x) by (unfold x; divmod).
  set (y := (os + 3) / 4). assert (4 * y - 3 ≤ os ≤ 4 * y) by (unfold y; divmod).
  clearbody x y. split_and!; [apply Z.mod_pos_bound; lia|divmod|]. intros Hle1 Hle2. divmod.
Qed.

Lemma sz_bound p b : area_ok p → b ∈ p_buffers p → 0 ≤ sz p (b_addr b) ∧ sz p (b_addr b) + 40 ≤ SZ_4M.
Proof.
  intros Ha (l1 & l2 & Hl)%entry_split. pose proof (a_tiles _ Ha) as Ht. destruct (sz_at p Ht l1 b l2 Hl) as [_ ->].
  destruct (a_first _ Ha) as [_ Hf]. destruct (a_bounds _ Ha) as (_ & Hs & _). rewrite Hl in Ht, Hf.
  apply tiles_app in Ht as [Ht1 (_ & Hd & Ht2)]. apply tiles_le in Ht1, Ht2. rewrite next_addr_app in Hf.
  unfold area_end, b_data, sizeof_binder_buffer in *. simpl in *. lia.
Qed.

(** ** [binder_alloc_buf] *)

(** Why an allocation fails. *)
Definition alloc_refused (e : page_env) (p : binder_proc) (ds os : Z) (a : bool) : Prop :=
  let size := u32 (ALIGN4 ds + ALIGN4 os) in
  p_vma p = false ∨ size < ds ∨ size < os ∨ (a = true ∧ p_free_async_space p < u32 (size + 40)) ∨
  (∀ b, b ∈ p_buffers p → b_free b = true → sz p (b_addr b) < size) ∨ no_pages e p.

Lemma alloc_buf_ok e garbage p ds os a :
  alloc_inv p → 0 ≤ ds < 2 ^ 32 → 0 ≤ os < 2 ^ 32 →
  ∃ r p', binder_alloc_buf e garbage p ds os a = Some (r, p') ∧ alloc_inv p' ∧
    match r with
    | None => p' = p ∧ alloc_refused e p ds os a
    | Some x => ∃ l1 b l2, p_buffers p = l1 ++ b :: l2 ∧ b_free b = true ∧ b_addr b = x ∧
        u32 (ALIGN4 ds + ALIGN4 os) = up4 ds + up4 os ∧ up4 ds + up4 os ≤ sz p x ∧
        (∀ c, c ∈ p_buffers p → b_free c = true → up4 ds + up4 os ≤ sz p (b_addr c) → sz p x ≤ sz p (b_addr c)) ∧
        after_take garbage p l1 b l2 (up4 ds + up4 os) ds os a p'
    end.
Proof.
  intros Hi Hds Hos. pose proof (i_area _ Hi) as Ha. pose proof (a_tiles _ Ha) as Ht.
  destruct (alloc_size ds os Hds Hos) as (Hs0 & Hs4 & Hup). unfold binder_alloc_buf, alloc_refused.
  set (size := u32 (ALIGN4 ds + ALIGN4 os)) in *.
  destruct (p_vma p) eqn:Hv; cbn [negb]; [|by eexists _, _; split; [done|split; [done|split; [done|by left]]]].
  destruct (_ || _) eqn:Eg; [eexists _, _; split; [done|split; [done|split; [done|lia]]]|].
  destruct (a && _) eqn:Ea.
  { eexists _, _. split; [done|]. split; [done|]. split; [done|]. unfold sizeof_binder_buffer in Ea. right; right; right; left.
    apply andb_true_iff in Ea as [-> ?]. split; [done|lia]. }
  rewrite <- Hup by lia. destruct (i_free _ Hi) as [Hpf Hsf].
  destruct (best_fit_spec p (sz p) size (p_free_buffers p) None) as [(x & ex & -> & Hx & Hle & Hmin & Hex)|[-> Hall]]; [|done| |].
  { intros x Hx. apply (free_size_at p Ht). by rewrite <- Hpf. }
  - rewrite Hpf in Hx. apply elem_of_free_addrs in Hx as (b & Hb & Hbf & <-). pose proof (sz_bound p b Ha Hb) as Hbd.
    apply entry_split in Hb as (l1 & l2 & Hl). destruct (sz_at p Ht l1 b l2 Hl) as [_ Hszb]. cbn [mbind option_bind].
    destruct (take_buffer_ok e garbage p l1 b l2 ex size ds os a Hi Hv Hl Hbf Hs4) as (r & p' & -> & Hr).
    { lia. } { rewrite <- Hszb. done. } { done. }
    { intros ->. cbn [andb] in Ea. unfold sizeof_binder_buffer, SZ_4M in *. rewrite (wrap_small 32) in Ea by lia. lia. }
    eexists _, _. split; [done|]. destruct Hr as [(-> & -> & Hw)|(-> & Hat & Hi')].
    + split; [done|]. split; [done|]. by do 5 right.
    + split; [done|]. exists l1, b, l2. split_and!; try done; try lia.
      intros c Hc Hcf Hcs. apply Hmin; [|done]. rewrite Hpf. apply elem_of_free_addrs. by exists c.
  - cbn [mbind option_bind]. eexists _, _. split; [done|]. split; [done|]. split; [done|]. right; right; right; right; left.
    intros b Hb Hbf. apply Hall. rewrite Hpf. apply elem_of_free_addrs. by exists b.
Qed.
End Alloc.

(** ** Freeing *)

Section Free.
Context `{RbLaws}.

(** Giving back the pages of an allocated buffer's data. *)
Lemma freed_pages e p l1 b l2 :
  area_ok p → p_buffers p = l1 ++ b :: l2 → b_free b = false →
  ∃ ret pages,
    binder_update_page_range e p false (PAGE_ALIGN (b_data b))
      ((b_data b + (next_addr l2 (area_end p) - b_data b)) &&& PAGE_MASK) false = Some (ret, set_pages pages p) ∧
    area_ok (set_pages pages (set_buffers (l1 ++ set_free true b :: l2) p)).
Proof.
  intros Ha Hl Hf. pose proof (a_tiles _ Ha) as Ht. rewrite Hl in Ht. destruct (area_base p Ha) as (Hb & He & Hst).
  set (nxt := next_addr l2 (area_end p)). replace (b_data b + (nxt - b_data b)) with nxt by lia.
  set (fb := set_free true b). assert (tiles (l1 ++ fb :: l2) (area_end p)) as Htf.
  { apply (tiles_addrs (l1 ++ b :: l2)); [by rewrite !fmap_app, !fmap_cons|done]. }
  pose proof Ht as [_ (_ & Hd & _)]%tiles_app. fold nxt in Hd.
  assert (∀ k, needs (l1 ++ b :: l2) (area_end p) k =
    in_range ((b_data b + 4095) / 4096) (nxt / 4096) k || needs (l1 ++ fb :: l2) (area_end p) k) as Hneeds.
  { intros k. pose proof (take_needs l1 l2 (area_end p) Hst fb b (nxt - b_data b) (nxt - b_data b) [] eq_refl
      (conj Hf eq_refl) Htf ltac:(split; [change (b_data fb) with (b_data b); lia|done])
      ltac:(left; split; [done|split; [done|change (b_data fb) with (b_data b); fold nxt; lia]]) k) as Hn.
    cbn [app] in Hn. rewrite Hn. f_equal. change (b_data fb) with (b_data b). fold nxt.
    replace (b_data b + (nxt - b_data b) + 4095) with (nxt + 4095) by lia. f_equal. apply Z.min_r. divmod. }
  assert (∀ k, in_range ((b_data b + 4095) / 4096) (nxt / 4096) k = true → needs (l1 ++ fb :: l2) (area_end p) k = false) as Hmiss.
  { intros k Hk. apply (take_range_missing l1 l2 (area_end p) fb b (nxt - b_data b) eq_refl (conj Hf eq_refl) Htf k).
    change (b_data fb) with (b_data b). fold nxt. unfold in_range in *.
    replace (b_data b + (nxt - b_data b) + 4095) with (nxt + 4095) by lia. assert (nxt / 4096 ≤ (nxt + 4095) / 4096) by divmod. lia. }
  rewrite page_align, page_down.
  destruct (update_free_spec e p (base_page p) ((b_data b + 4095) / 4096) (nxt / 4096) Hb) as (ret & pages & -> & Hp).
  { intros k Hk. apply (page_true p k Ha). rewrite Hl, Hneeds. unfold in_range. lia. }
  exists ret, pages. split; [done|]. apply area_ok_change; [done|by destruct l1| |done|].
  { destruct (a_first _ Ha) as [_ <-]. rewrite Hl. by destruct l1. }
  intros k. rewrite Hp. fold (in_range ((b_data b + 4095) / 4096) (nxt / 4096) k). rewrite (a_pages _ Ha), Hl, Hneeds.
  destruct (in_range ((b_data b + 4095) / 4096) (nxt / 4096) k) eqn:Er; [|done].
  rewrite (Hmiss k Er), (needs_in_area p k Ha); [done|]. rewrite Hl, Hneeds, Er. done.
Qed.

(** The last step of freeing: the buffers [m] became the one free buffer [f]. *)
Lemma finish_free p q l1 m f l2 :
  alloc_inv p → p_buffers p = l1 ++ m ++ l2 → m ≠ [] → b_free f = true →
  next_addr (m ++ l2) (area_end p) = b_addr f →
  area_ok q → p_buffers q = l1 ++ f :: l2 → p_buffer q = p_buffer p → p_buffer_size q = p_buffer_size p →
  tree_ok (sz p) (p_free_buffers q) (free_addrs (l1 ++ l2)) →
  tree_ok (λ x, x) (p_allocated_buffers q) (alloc_addrs (l1 ++ l2)) →
  coalesced (l1 ++ f :: l2) →
  0 ≤ p_free_async_space q → p_free_async_space q + async_used (l1 ++ l2) = p_buffer_size p / 2 →
  ∃ t', binder_insert_free_buffer q (b_addr f) = Some (set_free_buffers t' q) ∧ alloc_inv (set_free_buffers t' q).
Proof.
  intros Hi Hl Hm Hf Haddr Ha Hlq Hbq Hsq Htf Hta Hco Hn Has. pose proof (a_tiles _ (i_area _ Hi)) as Ht. rewrite Hl in Ht.
  pose proof (a_tiles _ Ha) as Htq. assert (area_end q = area_end p) as Heq by (unfold area_end; congruence).
  assert (∀ x, x ∈ (b_addr <$> l1) ∨ x ∈ (b_addr <$> l2) → sz p x = sz q x) as Hsame.
  { intros x Hx. unfold sz, binder_buffer_size. rewrite Hl, Hlq, Heq. rewrite Hlq, Heq in Htq.
    by rewrite (size_in_outside l1 m [f] l2) by (done || by eapply tiles_nodup). }
  destruct (insert_free_ok q Htq (b_addr f) (free_addrs (l1 ++ l2))) as (t' & -> & Ht').
  { rewrite Hlq. apply elem_of_free_addrs. exists f. split; [|done]. apply elem_of_app. right. apply elem_of_cons. by left. }
  { eapply tree_ok_ext; [exact Htf|done|]. intros x Hx. apply Hsame, outside_addrs. by left. }
  { intros x. rewrite Hlq, !free_addrs_app, free_addrs_cons, !elem_of_app. tauto. }
  exists t'. split; [done|]. split; cbn [set_free_buffers p_buffers p_free_buffers p_allocated_buffers p_free_async_space p_buffer_size].
  - by destruct Ha.
  - by rewrite Hlq.
  - eapply tree_ok_ext; [exact Ht'| |done]. rewrite Hlq, !free_addrs_app, free_addrs_cons, Hf. apply Permutation_middle.
  - eapply tree_ok_ext; [exact Hta| |done]. by rewrite Hlq, !alloc_addrs_app, alloc_addrs_cons, Hf.
  - intros c Hc Hcf. change (sz (set_free_buffers t' q) (b_addr c)) with (sz q (b_addr c)).
    rewrite Hlq, elem_of_app, elem_of_cons in Hc. destruct Hc as [Hc|[->|Hc]]; [|congruence|];
      (rewrite <- Hsame by ((left; by apply list_elem_of_fmap_2) || (right; by apply list_elem_of_fmap_2)));
      apply (i_fits _ Hi); try done; rewrite Hl, !elem_of_app; tauto.
  - split; [done|]. rewrite Hlq, Hsq. rewrite async_used_app in *. cbn [async_used]. rewrite Hf. cbn [negb andb]. lia.
Qed.

(** ** Merging with the neighbours *)

(** The list behind a freed buffer, without a free neighbour. *)
Definition absorb (l2 : list binder_buffer) : list binder_buffer :=
  match l2 with n :: l2' => if b_free n then l2' else l2 | [] => [] end.

Lemma tiles_stop l stop stop' : tiles l stop → stop ≤ stop' → tiles l stop'.
Proof.
  induction l as [|b l IH]; simpl; [done|]. intros (Hm & Hd & Ht) Hle. split; [done|]. split; [|by apply IH].
  destruct l; simpl in *; lia.
Qed.

Lemma tiles_remove l1 b l2 stop : tiles (l1 ++ b :: l2) stop → tiles (l1 ++ l2) stop.
Proof.
  intros [H1' (_ & Hd & H2')]%tiles_app. apply tiles_app. split; [|done]. apply (tiles_stop _ _ _ H1').
  unfold b_data, sizeof_binder_buffer in Hd. simpl. lia.
Qed.

Lemma absorb_alloc l1 l2 : alloc_addrs (l1 ++ absorb l2) = alloc_addrs (l1 ++ l2).
Proof.
  destruct l2 as [|n l2]; [done|]. simpl. destruct (b_free n) eqn:E; [|done]. by rewrite !alloc_addrs_app, alloc_addrs_cons, E.
Qed.

Lemma absorb_async l1 l2 : async_used (l1 ++ absorb l2) = async_used (l1 ++ l2).
Proof.
  destruct l2 as [|n l2]; [done|]. simpl. destruct (b_free n) eqn:E; [|done]. rewrite !async_used_app. simpl. rewrite E. simpl. lia.
Qed.

Lemma absorb_coalesced l2 :
  coalesced l2 → coalesced (absorb l2) ∧ match head (absorb l2) with Some c => b_free c = false | None => True end.
Proof.
  destruct l2 as [|n l2]; [done|]. intros [Hn Hc]. simpl. destruct (b_free n) eqn:E; [|split; [by split; [intros Hx; congruence|]|exact E]].
  split; [done|]. specialize (Hn eq_refl). by destruct l2.
Qed.

(** Deleting a free buffer behind the freed one. *)
Lemma merge_next e q key l1 fb l2 :
  area_ok q → p_buffers q = l1 ++ fb :: l2 → b_free fb = true →
  tree_ok key (p_free_buffers q) (free_addrs (l1 ++ l2)) →
  ∃ pg tf, (match head l2 with
            | Some next => if b_free next then
                binder_delete_free_buffer e (set_free_buffers (rb_erase (b_addr next) (p_free_buffers q)) q) (b_addr next)
              else Some q
            | None => Some q
            end) = Some (set_pages pg (set_buffers (l1 ++ fb :: absorb l2) (set_free_buffers tf q))) ∧
    area_ok (set_pages pg (set_buffers (l1 ++ fb :: absorb l2) (set_free_buffers tf q))) ∧
    tree_ok key tf (free_addrs (l1 ++ absorb l2)).
Proof.
  intros Ha Hl Hf Htf.
  assert (q = set_pages (p_pages q) (set_buffers (l1 ++ fb :: l2) (set_free_buffers (p_free_buffers q) q))) as Hq.
  { rewrite <- Hl. by destruct q. }
  destruct l2 as [|n l2]; cbn [head absorb]; [exists (p_pages q), (p_free_buffers q); rewrite <- Hq; split; [done|]; split; [done|exact Htf]|].
  destruct (b_free n) eqn:Hn; [|exists (p_pages q), (p_free_buffers q); rewrite <- Hq; split; [done|]; split; [done|exact Htf]].
  pose proof (a_tiles _ Ha) as Ht. rewrite Hl in Ht.
  set (q1 := set_free_buffers (rb_erase (b_addr n) (p_free_buffers q)) q).
  destruct (delete_free_ok e q1 l1 fb n l2) as (pg & -> & Hok); [by destruct Ha|done|done|done|].
  exists pg, (rb_erase (b_addr n) (p_free_buffers q)). split; [done|]. split; [done|].
  apply (tree_ok_erase _ _ _ (b_addr n)) in Htf. apply tiles_remove in Ht. by rewrite (filter_free_addrs _ _ _ _ Ht) in Htf.
Qed.

(** Deleting the freed buffer behind a free one. *)
Lemma merge_prev e q key l1 pv fb l2 :
  area_ok q → p_buffers q = l1 ++ pv :: fb :: l2 → b_free pv = true → b_free fb = true →
  tree_ok key (p_free_buffers q) (free_addrs ((l1 ++ [pv]) ++ l2)) →
  ∃ pg, binder_delete_free_buffer e q (b_addr fb) = Some (set_pages pg (set_buffers (l1 ++ pv :: l2) q)) ∧
    area_ok (set_pages pg (set_buffers (l1 ++ pv :: l2) q)) ∧
    tree_ok key (rb_erase (b_addr pv) (p_free_buffers q)) (free_addrs (l1 ++ l2)).
Proof.
  intros Ha Hl Hpv Hf Htf. pose proof (a_tiles _ Ha) as Ht. rewrite Hl in Ht.
  destruct (delete_free_ok e q l1 pv fb l2 Ha Hl Hpv Hf) as (pg & Hd & Hok). exists pg. split; [done|]. split; [done|].
  apply (tree_ok_erase _ _ _ (b_addr pv)) in Htf. rewrite <- app_assoc in Htf. cbn [app] in Htf.
  assert (tiles (l1 ++ pv :: l2) (area_end q)) as Ht2.
  { pose proof (tiles_remove (l1 ++ [pv]) fb l2 (area_end q)) as Hr. rewrite <- !app_assoc in Hr. by apply Hr. }
  by rewrite (filter_free_addrs _ _ _ _ Ht2) in Htf.
Qed.

(** The list after freeing [b]. *)
Definition freed_list (l1 : list binder_buffer) (b : binder_buffer) (l2 : list binder_buffer) : list binder_buffer :=
  match last l1 with
  | Some pv => if b_free pv then l1 ++ absorb l2 else l1 ++ set_free true b :: absorb l2
  | None => l1 ++ set_free true b :: absorb l2
  end.

(** The state once the pages are given back, the header is marked free and taken out of
    the tree of allocated buffers. *)
Definition unmarked (p : binder_proc) (l1 : list binder_buffer) (b : binder_buffer) (l2 : list binder_buffer)
    (space : Z) (pages : list bool) : binder_proc :=
  Proc (p_vma p) (p_vma_vm_mm p) (p_buffer p) (p_user_buffer_offset p) (l1 ++ set_free true b :: l2) (p_free_buffers p)
    (rb_erase (b_addr b) (p_allocated_buffers p)) space pages (p_buffer_size p).

(** What the allocator never changes. *)
Definition area_fields (p : binder_proc) : bool * Z * Z * Z * Z :=
  (p_vma p, p_vma_vm_mm p, p_buffer p, p_user_buffer_offset p, p_buffer_size p).

(** What both kinds of merging end with. *)
Lemma free_finish p q l1 m f l2 pg tf :
  alloc_inv p → p_buffers p = l1 ++ m ++ l2 → m ≠ [] → b_free f = true → next_addr (m ++ l2) (area_end p) = b_addr f →
  p_buffer q = p_buffer p → p_buffer_size q = p_buffer_size p →
  area_ok (set_pages pg (set_buffers (l1 ++ f :: l2) (set_free_buffers tf q))) →
  tree_ok (sz p) tf (free_addrs (l1 ++ l2)) → tree_ok (λ x, x) (p_allocated_buffers q) (alloc_addrs (l1 ++ l2)) →
  coalesced (l1 ++ f :: l2) → 0 ≤ p_free_async_space q →
  p_free_async_space q + async_used (l1 ++ l2) = p_buffer_size p / 2 →
  ∃ p', binder_insert_free_buffer (set_pages pg (set_buffers (l1 ++ f :: l2) (set_free_buffers tf q))) (b_addr f) = Some p' ∧
    alloc_inv p' ∧ p_buffers p' = l1 ++ f :: l2 ∧ p_free_async_space p' = p_free_async_space q ∧ area_fields p' = area_fields q.
Proof.
  intros Hi Hl Hm Hf Haddr Hb Hs Ha Htf Hta Hco Hn Has.
  destruct (finish_free p (set_pages pg (set_buffers (l1 ++ f :: l2) (set_free_buffers tf q))) l1 m f l2)
    as (t' & -> & Hinv); try done. by eexists.
Qed.

Lemma free_async p l1 b l2 :
  alloc_inv p → p_buffers p = l1 ++ b :: l2 → b_free b = false →
  let space := p_free_async_space p + (if b_async_transaction b then payload b + 40 else 0) in
  0 ≤ space < 2 ^ 32 ∧ space + async_used (l1 ++ l2) = p_buffer_size p / 2.
Proof.
  intros Hi Hl Hf space. destruct (i_async _ Hi) as [Hn Heq]. destruct (a_bounds _ (i_area _ Hi)) as (_ & Hsm & _).
  assert (∀ l, 0 ≤ async_used l) as Hau.
  { induction l as [|c r IH]; simpl; [lia|]. pose proof (wrap_range 32 (ALIGN4 (b_data_size c) + ALIGN4 (b_offsets_size c))).
    fold (payload c) in *. destruct (_ && _); lia. }
  pose proof (wrap_range 32 (ALIGN4 (b_data_size b) + ALIGN4 (b_offsets_size b))) as Hw. fold (payload b) in Hw.
  rewrite Hl, !async_used_app in *. cbn [async_used] in Heq. rewrite Hf in Heq. cbn [negb andb] in Heq.
  specialize (Hau l1) as H1'. specialize (Hau l2) as H2'. unfold SZ_4M in Hsm.
  assert (p_buffer_size p / 2 ≤ p_buffer_size p) by divmod. unfold space. destruct (b_async_transaction b); lia.
Qed.

Lemma freed_coalesced l1 b l2 : b_free b = false → coalesced (l1 ++ b :: l2) → coalesced (freed_list l1 b l2).
Proof.
  intros Hf (Hc1 & (_ & Hc2) & _)%coalesced_app. destruct (absorb_coalesced l2 Hc2) as [Hca Hh]. unfold freed_list.
  destruct (last l1) as [pv|] eqn:El; [destruct (b_free pv) eqn:Hpv|].
  - apply coalesced_app. rewrite El. split_and!; [done|done|]. by destruct (head (absorb l2)).
  - apply coalesced_app. rewrite El. split_and!; [done| |simpl; congruence]. split; [|done]. intros _. by destruct (absorb l2).
  - apply coalesced_app. rewrite El. split_and!; [done| |done]. split; [|done]. intros _. by destruct (absorb l2).
Qed.

Lemma absorb_split l2 : ∃ ns, l2 = ns ++ absorb l2.
Proof. destruct l2 as [|n l2]; [by exists []|]. simpl. destruct (b_free n); [by exists [n]|by exists []]. Qed.

(** The merging part of [binder_free_buf]. *)
Lemma merge_ok e p l1 b l2 space pages :
  alloc_inv p → p_buffers p = l1 ++ b :: l2 → b_free b = false →
  0 ≤ space → space + async_used (l1 ++ l2) = p_buffer_size p / 2 →
  let q := unmarked p l1 b l2 space pages in
  area_ok q →
  ∃ p', (p ← match head l2 with
             | Some next => if b_free next then
                 binder_delete_free_buffer e (set_free_buffers (rb_erase (b_addr next) (p_free_buffers q)) q) (b_addr next)
               else Some q
             | None => Some q
             end;
         match last l1 with
         | Some prev =>
           if b_free prev then
             p ← binder_delete_free_buffer e p (b_addr b);
             binder_insert_free_buffer (set_free_buffers (rb_erase (b_addr prev) (p_free_buffers p)) p) (b_addr prev)
           else binder_insert_free_buffer p (b_addr b)
         | None => binder_insert_free_buffer p (b_addr b)
         end) = Some p' ∧ alloc_inv p' ∧ p_buffers p' = freed_list l1 b l2 ∧ p_free_async_space p' = space ∧
    area_fields p' = area_fields p.
Proof.
  intros Hi Hl Hf Hsp Has q Ha. pose proof (a_tiles _ (i_area _ Hi)) as Ht. rewrite Hl in Ht.
  pose proof (i_free _ Hi) as Htf. pose proof (i_alloc _ Hi) as Hta. rewrite Hl in Htf, Hta.
  rewrite free_addrs_app, free_addrs_cons, Hf in Htf. cbn [app] in Htf. rewrite <- free_addrs_app in Htf.
  apply (tree_ok_erase _ _ _ (b_addr b)) in Hta. rewrite (filter_alloc_addrs _ _ _ _ Ht) in Hta.
  pose proof (freed_coalesced l1 b l2 Hf ltac:(rewrite <- Hl; apply Hi)) as Hco. unfold freed_list in *.
  destruct (absorb_split l2) as [ns Hns].
  destruct (merge_next e q (sz p) l1 (set_free true b) l2 Ha eq_refl eq_refl Htf) as (pg & tf & -> & Ha1 & Htf1).
  cbn [mbind option_bind]. rewrite <- absorb_alloc in Hta. rewrite <- absorb_async in Has.
  assert (p_buffers p = l1 ++ (b :: ns) ++ absorb l2) as Hl' by (by rewrite Hl, Hns at 1).
  assert (coalesced (l1 ++ set_free true b :: absorb l2) → ∃ p',
    binder_insert_free_buffer (set_pages pg (set_buffers (l1 ++ set_free true b :: absorb l2) (set_free_buffers tf q)))
      (b_addr b) = Some p' ∧ alloc_inv p' ∧ p_buffers p' = l1 ++ set_free true b :: absorb l2 ∧ p_free_async_space p' = space ∧
    area_fields p' = area_fields p) as Hplain.
  { intros Hc. by apply (free_finish p q l1 (b :: ns) (set_free true b) (absorb l2) pg tf Hi Hl'). }
  destruct (last l1) as [pv|] eqn:El; [destruct (b_free pv) eqn:Hpv|]; [|by apply Hplain|by apply Hplain]. clear Hplain.
  apply last_Some in El as (l1' & ->). rewrite <- !app_assoc in *. cbn [app] in *.
  set (q1 := set_pages pg _) in *.
  destruct (merge_prev e q1 (sz p) l1' pv (set_free true b) (absorb l2) Ha1 eq_refl Hpv eq_refl) as (pg2 & Hd & Ha2 & Htf2).
  { rewrite <- app_assoc. exact Htf1. }
  change (b_addr (set_free true b)) with (b_addr b) in Hd. rewrite Hd. cbn [mbind option_bind].
  assert (alloc_addrs (l1' ++ pv :: absorb l2) = alloc_addrs (l1' ++ absorb l2)) as Hal.
  { by rewrite !alloc_addrs_app, alloc_addrs_cons, Hpv. }
  assert (async_used (l1' ++ pv :: absorb l2) = async_used (l1' ++ absorb l2)) as Has'.
  { rewrite !async_used_app. cbn [async_used]. rewrite Hpv. cbn [negb andb]. lia. }
  rewrite Hal in Hta. rewrite Has' in Has.
  apply (free_finish p q l1' (pv :: b :: ns) pv (absorb l2) pg2 (rb_erase (b_addr pv) tf) Hi Hl'); try done. by destruct Ha2.
Qed.

Lemma free_buf_ok e p l1 b l2 :
  alloc_inv p → p_buffers p = l1 ++ b :: l2 → b_free b = false → b_transaction b = 0 →
  ∃ p', binder_free_buf e p (b_addr b) = Some p' ∧ alloc_inv p' ∧ p_buffers p' = freed_list l1 b l2 ∧
    p_free_async_space p' = p_free_async_space p + (if b_async_transaction b then payload b + 40 else 0) ∧
    area_fields p' = area_fields p.
Proof.
  intros Hi Hl Hf Htr. pose proof (i_area _ Hi) as Ha. pose proof (a_tiles _ Ha) as Ht.
  destruct (free_async p l1 b l2 Hi Hl Hf) as [Hsp Has]. set (space := p_free_async_space p + _) in *.
  assert (b ∈ p_buffers p) as Hin by (rewrite Hl; apply elem_of_app; right; apply elem_of_cons; by left).
  destruct (sz_at p Ht l1 b l2 Hl) as [Hsz1 Hsz2]. pose proof (i_fits _ Hi b Hin Hf) as Hfit.
  unfold binder_free_buf. rewrite Hsz1, (buf_at_elem p Ht b Hin). cbn [mbind option_bind]. fold (payload b). rewrite Hf, Htr.
  destruct (Z.ltb_spec (sz p (b_addr b)) (payload b)); [lia|]. change (truthy 0) with false. cbn iota.
  destruct (tiles_bounds _ _ _ Ht Hin) as [Hlo Hhi]. destruct (a_first _ Ha) as [_ Hfst]. rewrite Hfst in Hlo.
  destruct (Z.ltb_spec (b_addr b) (p_buffer p)); [lia|].
  destruct (Z.ltb_spec (area_end p) (b_addr b)); [unfold b_data, sizeof_binder_buffer in Hhi; lia|].
  set (p1 := if b_async_transaction b then _ else p).
  assert (p1 = set_async_space space p) as ->.
  { unfold p1, space. destruct (b_async_transaction b); [|rewrite Z.add_0_r; by destruct p].
    unfold sizeof_binder_buffer. rewrite (wrap_small 32); [done|]. unfold space in Hsp. lia. }
  rewrite Hsz2. destruct (freed_pages e (set_async_space space p) l1 b l2) as (ret & pages & Hup & Hok); [by destruct Ha|done|done|].
  change (area_end (set_async_space space p)) with (area_end p) in Hup. rewrite Hup. cbn [mbind option_bind].
  cbn [set_pages set_async_space set_allocated_buffers set_buffers p_buffers p_allocated_buffers].
  rewrite Hl in Ht |- *. rewrite (upd_buf_at _ _ _ _ _ Ht).
  assert (tiles (l1 ++ set_free true b :: l2) (area_end p)) as Htf.
  { apply (tiles_addrs (l1 ++ b :: l2)); [by rewrite !fmap_app, !fmap_cons|done]. }
  pose proof (neighbours_at None l1 (set_free true b) l2 _ Htf) as Hnb. change (b_addr (set_free true b)) with (b_addr b) in Hnb.
  rewrite Hnb. cbn [mbind option_bind].
  destruct (merge_ok e p l1 b l2 space pages Hi Hl Hf ltac:(lia) Has) as (p' & Hm & Hinv & Hlist & Hspace & Hfields).
  { by destruct Hok. }
  exists p'. split; [|by split_and!]. rewrite <- Hm. unfold unmarked. by destruct (last l1).
Qed.
End Free.
