(* ===== verification/KAllocProps.v ===== *)
(** * Binder driver: properties of the buffer allocator *)
From stdpp Require Import sorting.
From S2P Require Import Prelude KAlloc KAllocSpec KAllocInv.

Section Props.
Context `{RbLaws}.

(** ** Lookup *)

Lemma lookup_spec p ptr :
  alloc_inv p →
  binder_buffer_lookup p ptr =
    let k := u32 (ptr - p_user_buffer_offset p - 40) in
    Some (if decide (k ∈ alloc_addrs (p_buffers p)) then Some k else None).
Proof.
  intros Hi. pose proof (a_tiles _ (i_area _ Hi)) as Ht. destruct (i_alloc _ Hi) as [Hp Hs].
  unfold binder_buffer_lookup. rewrite lookup_allocated_spec; [|intros x Hx; apply (not_free_at p Ht); by rewrite <- Hp|done].
  cbv zeta. unfold sizeof_binder_buffer. f_equal. apply (decide_ext (_ ∈ _)). by rewrite Hp.
Qed.

(** ** Stores to a header that keep the invariant *)

Lemma set_transaction_inv p l1 b l2 t n f :
  alloc_inv p → p_buffers p = l1 ++ b :: l2 → alloc_inv (set_buffers (l1 ++ set_transaction t n f b :: l2) p).
Proof.
  intros Hi Hl. set (b' := set_transaction t n f b). set (q := set_buffers _ p).
  assert (∀ x, sz q x = sz p x) as Hsz.
  { intros x. unfold sz, binder_buffer_size. rewrite Hl. cbn [q set_buffers p_buffers]. change (area_end q) with (area_end p).
    f_equal. apply size_in_addrs. by rewrite !fmap_app. }
  assert (free_addrs (p_buffers q) = free_addrs (p_buffers p)) as Hfa.
  { rewrite Hl. cbn [q set_buffers p_buffers]. by rewrite !free_addrs_app, !free_addrs_cons. }
  assert (alloc_addrs (p_buffers q) = alloc_addrs (p_buffers p)) as Haa.
  { rewrite Hl. cbn [q set_buffers p_buffers]. by rewrite !alloc_addrs_app, !alloc_addrs_cons. }
  destruct Hi as [Ha Hc Hf Hal Hfit Has]. split.
  - assert (q = set_pages (p_pages p) q) as -> by (by destruct p). apply area_ok_change; [done|by destruct l1| | |].
    + destruct (a_first _ Ha) as [_ <-]. rewrite Hl. by destruct l1.
    + apply (tiles_addrs (l1 ++ b :: l2)); [by rewrite !fmap_app|]. rewrite <- Hl. apply Ha.
    + intros k. rewrite (a_pages _ Ha), Hl, !needs_app. done.
  - cbn [q set_buffers p_buffers]. rewrite Hl in Hc. apply coalesced_app in Hc as (Hc1 & Hc2 & Hc3).
    apply coalesced_app. by split_and!.
  - eapply tree_ok_ext; [exact Hf|by rewrite Hfa|done].
  - eapply tree_ok_ext; [exact Hal|by rewrite Haa|done].
  - intros c Hc' Hcf. rewrite Hsz. cbn [q set_buffers p_buffers] in Hc'. rewrite elem_of_app, elem_of_cons in Hc'.
    assert (∀ d, d ∈ l1 ∨ d ∈ l2 ∨ d = b → d ∈ p_buffers p) as Hin by (intros d; rewrite Hl, elem_of_app, elem_of_cons; tauto).
    destruct Hc' as [Hc'|[->|Hc']]; [apply Hfit; [|done]; apply Hin; tauto| |apply Hfit; [|done]; apply Hin; tauto].
    change (payload b ≤ sz p (b_addr b)). apply Hfit; [apply Hin; tauto|done].
  - cbn [q set_buffers p_buffers p_free_async_space p_buffer_size]. rewrite Hl in Has. by rewrite async_used_app in *.
Qed.

(** ** What a list of buffers looks like to its users *)

Definition shape (l : list binder_buffer) : list (Z * bool) := (λ b, (b_addr b, b_free b)) <$> l.

Lemma shape_needs l l' stop k : shape l = shape l' → needs l stop k = needs l' stop k ∧ next_addr l stop = next_addr l' stop.
Proof.
  revert l'. induction l as [|b l IH]; intros [|b' l'] Hs; try done. injection Hs as Hb Hf Hs. destruct (IH l' Hs) as [Hn Ha].
  simpl. rewrite Hn, Ha, Hb. unfold occ_end, b_data. by rewrite Hf, Hb.
Qed.

Lemma same_pages p q :
  area_ok p → area_ok q → p_buffer q = p_buffer p → p_buffer_size q = p_buffer_size p →
  shape (p_buffers q) = shape (p_buffers p) → p_pages q = p_pages p.
Proof.
  intros Hp Hq Hb Hs Hsh. apply zlookup_ext. intros i. pose proof (a_pages _ Hp (i + base_page p)) as H1'.
  pose proof (a_pages _ Hq (i + base_page p)) as H2'. unfold base_page, num_pages, area_end in *. rewrite Hb, Hs in H2'.
  replace (i + p_buffer p / 4096 - p_buffer p / 4096) with i in * by lia. rewrite H1', H2'.
  by rewrite (proj1 (shape_needs _ _ (p_buffer p + p_buffer_size p) (i + p_buffer p / 4096) Hsh)).
Qed.

(** ** Freeing on request *)

Lemma elem_of_alloc_split p x :
  alloc_inv p → x ∈ alloc_addrs (p_buffers p) →
  ∃ l1 b l2, p_buffers p = l1 ++ b :: l2 ∧ b_free b = false ∧ b_addr b = x ∧ buf_at (p_buffers p) x = Some b.
Proof.
  intros Hi (b & Hb & Hf & <-)%elem_of_alloc_addrs. pose proof (buf_at_elem p (a_tiles _ (i_area _ Hi)) b Hb) as Hat.
  apply entry_split in Hb as (l1 & l2 & Hl). by exists l1, b, l2.
Qed.

Lemma free_user_buffer_ok e p ptr :
  alloc_inv p →
  let k := u32 (ptr - p_user_buffer_offset p - 40) in
  ∃ p', free_user_buffer e p ptr = Some p' ∧ alloc_inv p' ∧ area_fields p' = area_fields p ∧
    ((p' = p ∧ ∀ b, b ∈ p_buffers p → b_free b = false → b_addr b = k → b_allow_user_free b = false) ∨
     (∃ l1 b l2, p_buffers p = l1 ++ b :: l2 ∧ b_free b = false ∧ b_allow_user_free b = true ∧ b_addr b = k ∧
        shape (p_buffers p') = shape (freed_list l1 b l2))).
Proof.
  intros Hi k. pose proof (a_tiles _ (i_area _ Hi)) as Ht. unfold free_user_buffer. rewrite (lookup_spec p ptr Hi). cbv zeta. fold k.
  cbn [mbind option_bind]. destruct (decide (k ∈ alloc_addrs (p_buffers p))) as [Hk|Hk]; cycle 1.
  { exists p. split; [done|]. split; [done|]. split; [done|]. left. split; [done|]. intros b Hb Hbf Hbk. exfalso. apply Hk.
    apply elem_of_alloc_addrs. by exists b. }
  apply (elem_of_alloc_split p k Hi) in Hk as (l1 & b & l2 & Hl & Hf & Hb & Hat). rewrite Hat. cbn [mbind option_bind].
  destruct (b_allow_user_free b) eqn:Hu; cbn [negb]; cycle 1.
  { exists p. split; [done|]. split; [done|]. split; [done|]. left. split; [done|]. intros c Hc Hcf Hck.
    pose proof (buf_at_elem p Ht c Hc) as Hc'. rewrite Hck, Hat in Hc'. by injection Hc' as <-. }
  set (b' := set_transaction 0 (b_target_node b) true b).
  set (q := if truthy (b_transaction b) then _ else p).
  assert (alloc_inv q ∧ area_fields q = area_fields p ∧
    ∃ c, p_buffers q = l1 ++ c :: l2 ∧ b_free c = false ∧ b_addr c = k ∧ b_transaction c = 0) as (Hiq & Hfq & c & Hlq & Hcf & Hck & Hct).
  { unfold q, truthy. destruct (Z.eqb_spec (b_transaction b) 0) as [Hz|Hz]; cbn [negb]; [split; [done|]; split; [done|]; by exists b|].
    rewrite Hl in Ht |- *. rewrite <- Hb, (upd_buf_at _ _ _ _ _ Ht), Hu. fold b'. split; [by apply set_transaction_inv|].
    split; [done|]. by exists b'. }
  destruct (free_buf_ok e q l1 c l2 Hiq Hlq Hcf Hct) as (p' & Hfr & Hip & Hlp & _ & Hfl). rewrite Hck in Hfr.
  exists p'. split; [done|]. split; [done|]. split; [congruence|]. right. exists l1, b, l2. split_and!; try done.
  rewrite Hlp. unfold freed_list, shape. destruct (last l1) as [pv|]; [destruct (b_free pv); [done|]|];
    rewrite !fmap_app, !fmap_cons; cbn [set_free b_addr b_free]; by rewrite Hck, Hb.
Qed.

(** ** Sequences of operations *)

(** Allocating, storing a transaction in a header, and freeing on request. *)
Inductive alloc_op :=
| Op_alloc (e : page_env) (garbage : binder_buffer) (data_size offsets_size : Z) (is_async : bool)
| Op_attach (x t node : Z) (user_free : bool)
| Op_free (e : page_env) (data_ptr : Z).

Definition op_valid (o : alloc_op) : Prop :=
  match o with Op_alloc _ _ ds os _ => 0 ≤ ds < 2 ^ 32 ∧ 0 ≤ os < 2 ^ 32 | _ => True end.

Definition alloc_step (p : binder_proc) (o : alloc_op) : option binder_proc :=
  match o with
  | Op_alloc e g ds os a => '(_, p) ← binder_alloc_buf e g p ds os a; Some p
  | Op_attach x t n f => Some (set_buffers (upd_buf (set_transaction t n f) x (p_buffers p)) p)
  | Op_free e ptr => free_user_buffer e p ptr
  end.

Lemma upd_buf_none f x l : buf_at l x = None → upd_buf f x l = l.
Proof. induction l as [|b l IH]; simpl; [done|]. destruct (_ =? _); [done|]. intros Hn. by rewrite IH. Qed.

Lemma alloc_step_ok p o :
  alloc_inv p → op_valid o → ∃ p', alloc_step p o = Some p' ∧ alloc_inv p' ∧ area_fields p' = area_fields p.
Proof.
  intros Hi Hv. destruct o as [e g ds os a|x t n f|e ptr]; simpl.
  - destruct Hv as [Hd Ho]. destruct (alloc_buf_ok e g p ds os a Hi Hd Ho) as (r & p' & -> & Hi' & Hr). cbn [mbind option_bind].
    exists p'. split; [done|]. split; [done|]. destruct r as [x|]; [|by destruct Hr as [-> _]].
    destruct Hr as (l1 & b & l2 & _ & _ & _ & _ & _ & _ & (pg & tf & ta & ->)). done.
  - eexists. split; [done|]. destruct (buf_at (p_buffers p) x) as [b|] eqn:E; cycle 1.
    { rewrite upd_buf_none by done. by destruct p. }
    apply buf_at_split in E as (l1 & l2 & Hl & <-). pose proof (a_tiles _ (i_area _ Hi)) as Ht. rewrite Hl in *.
    rewrite (upd_buf_at _ _ _ _ _ Ht). split; [by apply set_transaction_inv|done].
  - destruct (free_user_buffer_ok e p ptr Hi) as (p' & -> & Hi' & Hfl & _). by exists p'.
Qed.

(** ** Mapping *)

(** A process that has opened the driver and not mapped it. *)
Definition unmapped (p : binder_proc) : Prop :=
  p_buffer p = 0 ∧ p_free_buffers p = rb_null ∧ p_allocated_buffers p = rb_null.

(** What the kernel grants: page-aligned areas of the size asked for. *)
Definition area_granted (v : vm_area) (addr : Z) : Prop :=
  addr mod 4096 = 0 ∧ 0 < addr ∧ addr + SZ_4M < 2 ^ 32 ∧ vm_start v mod 4096 = 0 ∧ vm_end v mod 4096 = 0 ∧ vm_start v < vm_end v.

Lemma mmap_ok e g p v addr :
  unmapped p → area_granted v addr → vm_forbidden v = false →
  ∃ ret p', binder_mmap e g p true v (Some addr) true = Some (ret, p') ∧
    ((ret = - Errno.ENOMEM ∧ p_buffer p' = 0 ∧ pe_page e addr ≠ Page_ok) ∨
     (ret = 0 ∧ alloc_inv p' ∧ p_buffer p' = addr ∧ p_buffer_size p' = Z.min (vm_end v - vm_start v) SZ_4M ∧
      p_free_async_space p' = p_buffer_size p' / 2 ∧ shape (p_buffers p') = [(addr, true)])).
Proof.
  intros (Hb & Hf & Hal) (Ha1 & Ha2 & Ha3 & Hv1 & Hv2 & Hv3) Hfb. unfold binder_mmap. rewrite Hfb, Hb. cbn [negb].
  change (truthy 0) with false. cbn iota.
  set (vend := if SZ_4M <? vm_end v - vm_start v then vm_start v + SZ_4M else vm_end v).
  assert (vend - vm_start v = Z.min (vm_end v - vm_start v) SZ_4M) as Hsz.
  { unfold vend. destruct (Z.ltb_spec SZ_4M (vm_end v - vm_start v)); lia. }
  set (bsize := vend - vm_start v) in *. assert (bsize mod 4096 = 0 ∧ 4096 ≤ bsize) as [Hbm Hb1].
  { rewrite Hsz. unfold SZ_4M. split; divmod. }
  assert (bsize ≤ SZ_4M) as Hb2 by (rewrite Hsz; apply Z.le_min_r). clearbody bsize. clear vend.
  set (p0 := Proc _ _ _ _ _ _ _ _ _ _). assert (addr = 4096 * (addr / 4096)) as Haddr by divmod.
  assert (bsize = 4096 * (bsize / 4096)) as Hbs by divmod.
  set (A := addr / 4096) in *. set (N := bsize / 4096) in *. assert (1 ≤ N) by lia.
  assert (∀ k, zlookup (p_pages p0) (k - A) = if in_range A (A + N) k then Some false else None) as Hpg.
  { intros k. cbn [p0 p_pages]. change (bsize / PAGE_SIZE) with N. unfold zlookup, in_range. destruct (Z.ltb_spec (k - A) 0).
    - destruct (Z.leb_spec A k); [lia|done].
    - destruct (Z.leb_spec A k); [|lia]. cbn [andb]. destruct (Z.ltb_spec k (A + N)).
      + apply lookup_replicate_2. lia.
      + apply lookup_replicate_None. lia. }
  pose proof (update_alloc_spec e p0 A A (A + 1) true Haddr) as Hup.
  destruct Hup as (ret & p' & Hup & Hr). { intros k Hk. rewrite Hpg. unfold in_range. destruct (Z.leb_spec A k), (Z.ltb_spec k (A + N)); done || lia. }
  replace (4096 * (A + 1)) with (addr + PAGE_SIZE) in Hup by (unfold PAGE_SIZE; lia). rewrite <- Haddr in Hup.
  rewrite Hup. cbn [mbind option_bind]. destruct Hr as [(-> & pages & -> & Hp)|(-> & -> & Hw)]; cycle 1.
  { eexists _, _. split; [reflexivity|]. left. split; [done|]. split; [done|].
    destruct Hw as [[? _]|[[? _]|(k & Hk & Hne)]]; [done|done|]. assert (k = A) as -> by lia. by rewrite <- Haddr in Hne. }
  change (truthy 0) with false. cbn iota. set (b := Buf addr true _ _ _ _ _ _). set (q := set_buffers [b] _).
  assert (area_end q = addr + bsize) as Hend by done.
  assert (tiles (p_buffers q) (area_end q)) as Ht.
  { rewrite Hend. cbn [q set_buffers p_buffers tiles next_addr]. unfold b_data, sizeof_binder_buffer. cbn [b b_addr].
    split_and!; [divmod|lia|done]. }
  destruct (insert_free_ok q Ht addr []) as (t' & -> & Ht').
  { apply elem_of_free_addrs. exists b. split; [by apply list_elem_of_singleton|done]. }
  { cbn [q set_buffers set_pages p0 p_free_buffers]. rewrite Hf. split; [done|constructor]. }
  { intros x Hx. by apply elem_of_nil in Hx. }
  cbn [mbind option_bind]. eexists _, _. split; [reflexivity|]. right. split; [done|].
  cbn [set_free_buffers q set_buffers set_pages p0 p_buffer p_buffer_size p_free_async_space p_buffers].
  split; [|by split_and!]. split.
  - split; cbn [p_buffer p_buffer_size p_buffers p_pages]; try done.
    + unfold area_end, SZ_4M in *. cbn. lia.
    + intros k. unfold base_page, num_pages, area_end. cbn [p_buffer p_buffer_size]. fold A N. rewrite Hp, Hpg.
      cbn [needs next_addr]. unfold meets, occ_end. cbn [b b_free b_addr]. unfold b_data, sizeof_binder_buffer. change (b_addr b) with addr. fold A.
      assert ((addr + 40 - 1) / 4096 = A) as -> by (unfold A; divmod). unfold in_range.
      destruct (Z.leb_spec A k), (Z.ltb_spec k (A + 1)), (Z.ltb_spec k (A + N)), (Z.leb_spec k A); simpl; done || lia.
  - done.
  - exact Ht'.
  - change (tree_ok (λ x, x) (p_allocated_buffers p) []). rewrite Hal. split; [done|constructor].
  - cbn [p_buffers]. intros c Hc Hcf. apply list_elem_of_singleton in Hc as ->. done.
  - cbn [p_free_async_space p_buffers p_buffer_size async_used b b_free negb andb]. split; [divmod|lia].
Qed.

(** ** Properties *)

(** C10: allocating never trips a [BUG_ON] or touches a page wrongly and keeps the
    allocator's invariant.  It fails, changing nothing, only without a mapping, on sizes that wrap
    around, without asynchronous space, when no free buffer is large enough or no page can be
    had; otherwise it takes a smallest free buffer that fits, splits off the rest
    when more than 44 bytes are left, and the size taken is the two sizes rounded up to words. *)
Theorem binder_alloc_buf_correct e garbage p ds os a :
  alloc_inv p → 0 ≤ ds < 2 ^ 32 → 0 ≤ os < 2 ^ 32 →
  ∃ r p', binder_alloc_buf e garbage p ds os a = Some (r, p') ∧ alloc_inv p' ∧
    match r with
    | None => p' = p ∧ alloc_refused e p ds os a
    | Some x => ∃ l1 b l2, p_buffers p = l1 ++ b :: l2 ∧ b_free b = true ∧ b_addr b = x ∧
        u32 (ALIGN4 ds + ALIGN4 os) = up4 ds + up4 os ∧ up4 ds + up4 os ≤ sz p x ∧
        (∀ c, c ∈ p_buffers p → b_free c = true → up4 ds + up4 os ≤ sz p (b_addr c) → sz p x ≤ sz p (b_addr c)) ∧
        after_take garbage p l1 b l2 (up4 ds + up4 os) ds os a p'
    end.
Proof. apply alloc_buf_ok. Qed.

(** C11: freeing an allocated buffer whose transaction is detached never trips a
    [BUG_ON], keeps the invariant (so exactly the pages still needed stay mapped), merges the
    buffer with free neighbours on both sides and gives asynchronous space back. *)
Theorem binder_free_buf_correct e p l1 b l2 :
  alloc_inv p → p_buffers p = l1 ++ b :: l2 → b_free b = false → b_transaction b = 0 →
  ∃ p', binder_free_buf e p (b_addr b) = Some p' ∧ alloc_inv p' ∧ p_buffers p' = freed_list l1 b l2 ∧
    p_free_async_space p' = p_free_async_space p + (if b_async_transaction b then payload b + 40 else 0) ∧
    area_fields p' = area_fields p.
Proof. apply free_buf_ok. Qed.

(** An allocation followed by freeing the buffer restores the allocator: the same
    buffers at the same addresses, free as before, the same pages mapped, the same
    asynchronous space. *)
Theorem alloc_then_free_restores e e' garbage p ds os a x p' :
  alloc_inv p → 0 ≤ ds < 2 ^ 32 → 0 ≤ os < 2 ^ 32 → Forall (λ b, b_transaction b = 0) (p_buffers p) →
  binder_alloc_buf e garbage p ds os a = Some (Some x, p') →
  ∃ q, binder_free_buf e' p' x = Some q ∧ alloc_inv q ∧ shape (p_buffers q) = shape (p_buffers p) ∧
    p_pages q = p_pages p ∧ p_free_async_space q = p_free_async_space p.
Proof.
  intros Hi Hds Hos Htr Hal. destruct (alloc_buf_ok e garbage p ds os a Hi Hds Hos) as (r & p1 & Hal' & Hi' & Hr).
  rewrite Hal in Hal'. injection Hal' as <- <-. destruct Hr as (l1 & b & l2 & Hl & Hbf & <- & Hsize & Hsz & _ & Hat).
  unfold after_take in Hat. cbv zeta in Hat. set (full := next_addr l2 (area_end p) - b_data b) in *.
  set (size := up4 ds + up4 os) in *. destruct Hat as (pages & tf & ta & ->). set (p1 := Proc _ _ _ _ _ _ _ _ _ _) in *.
  set (tb := taken b ds os a) in *.
  assert (b_transaction tb = 0) as Htb.
  { rewrite Forall_forall in Htr. apply (Htr b). rewrite Hl. apply elem_of_app. right. apply elem_of_cons. by left. }
  destruct (free_buf_ok e' p1 l1 tb (rest_after garbage b full size ++ l2) Hi' eq_refl eq_refl Htb) as (q & Hf & Hiq & Hlq & Hsp & Hfl).
  exists q. split; [exact Hf|]. split; [done|].
  pose proof (i_coalesced _ Hi) as Hc. rewrite Hl in Hc. apply coalesced_app in Hc as (Hc1 & (Hb2 & Hc2) & Hlast).
  assert (absorb (rest_after garbage b full size ++ l2) = l2) as Hab.
  { unfold rest_after. destruct (_ <=? _); [|done]. cbn [app]. specialize (Hb2 Hbf). destruct l2 as [|n l2]; [done|]. simpl. by rewrite Hb2. }
  assert (shape (p_buffers q) = shape (p_buffers p)) as Hsh.
  { rewrite Hlq, Hl. unfold freed_list. rewrite Hab. unfold shape.
    assert ((λ b, (b_addr b, b_free b)) <$> l1 ++ set_free true tb :: l2 = (λ b, (b_addr b, b_free b)) <$> l1 ++ b :: l2) as Heq.
    { rewrite !fmap_app, !fmap_cons. cbn [set_free tb taken b_addr b_free]. by rewrite Hbf. }
    destruct (last l1) as [pv|] eqn:El; [|done]. destruct (b_free pv) eqn:Hpv; [|done]. cbn [head] in Hlast.
    specialize (Hlast eq_refl). congruence. }
  split; [done|]. split.
  - unfold area_fields in Hfl. injection Hfl as _ _ Hb1 _ Hs1. by apply same_pages; [apply Hi|apply Hiq|..].
  - rewrite Hsp. cbn [p1 p_free_async_space tb taken b_async_transaction]. change (payload tb) with (u32 (ALIGN4 ds + ALIGN4 os)).
    rewrite Hsize. fold size. destruct a; lia.
Qed.

(** C2: from a successful [binder_mmap] on, no sequence of allocations, stores of
    transactions and user requests to free any address makes the allocator trip a
    [BUG_ON] or misuse a page; after each the buffers tile the mapped area, free neighbours are
    merged, both trees are right and exactly the needed pages are mapped. *)
Theorem allocator_never_bugs e g p v addr ops p1 :
  unmapped p → area_granted v addr → vm_forbidden v = false →
  binder_mmap e g p true v (Some addr) true = Some (0, p1) → Forall op_valid ops →
  ∃ p2, foldM alloc_step p1 ops = Some p2 ∧ alloc_inv p2 ∧ area_fields p2 = area_fields p1.
Proof.
  intros Hu Hg Hf Hm Hv. destruct (mmap_ok e g p v addr Hu Hg Hf) as (ret & p1' & Hm' & Hr). rewrite Hm in Hm'.
  injection Hm' as <- <-. destruct Hr as [[? _]|(_ & Hi & _)]; [done|].
  destruct (foldM_inv (λ q, alloc_inv q ∧ area_fields q = area_fields p1) alloc_step ops) with (s := p1) as (p2 & H2 & Hi2);
    [|done|by exists p2]. rewrite Forall_forall in Hv. intros s o Ho [Hs Hfl].
  destruct (alloc_step_ok s o Hs (Hv o Ho)) as (s' & Hs' & Hi' & Hfl'). exists s'. split; [done|]. split; [done|congruence].
Qed.

(** A request to free an address changes something only when it is the user
    address of an allocated buffer's data that was handed to user space, and then frees
    exactly that buffer. *)
Theorem user_can_only_free_own_buffers e p ptr :
  alloc_inv p →
  let k := u32 (ptr - p_user_buffer_offset p - 40) in
  ∃ p', free_user_buffer e p ptr = Some p' ∧ alloc_inv p' ∧ area_fields p' = area_fields p ∧
    ((p' = p ∧ ∀ b, b ∈ p_buffers p → b_free b = false → b_addr b = k → b_allow_user_free b = false) ∨
     (∃ l1 b l2, p_buffers p = l1 ++ b :: l2 ∧ b_free b = false ∧ b_allow_user_free b = true ∧ b_addr b = k ∧
        shape (p_buffers p') = shape (freed_list l1 b l2))).
Proof. apply free_user_buffer_ok. Qed.

End Props.

(** ** Concrete runs *)
Module KAllocDemo.

(** A tree that is never rebalanced, and erases by rebuilding. *)
Definition comb (xs : list Z) : rb_tree := foldr (rb_node rb_null) rb_null xs.

#[export] Instance plain_tree : RbTree := {
  rb_insert_color _ t := t;
  rb_erase x t := comb (filter (λ y, y ≠ x) (inorder t)) }.

Lemma inorder_comb xs : inorder (comb xs) = xs.
Proof. induction xs as [|x xs IH]; simpl; [done|]. by rewrite IH. Qed.

#[export] Instance plain_laws : RbLaws.
Proof. split; [done|]. intros. apply inorder_comb. Qed.

Definition env : page_env := PageEnv (Some 7) (λ _, Page_ok).
Definition junk : binder_buffer := Buf 0 false false false 0 0 0 0.
Definition proc0 : binder_proc := Proc false 0 0 0 [] rb_null rb_null 0 [] 0.
Definition vma0 : vm_area := Vma 1073741824 1073774592 false 7.
Definition addr0 : Z := 3758096384.

Definition mapped : binder_proc := default proc0 (snd <$> binder_mmap env junk proc0 true vma0 (Some addr0) true).
Definition one_taken : binder_proc := default proc0 (snd <$> binder_alloc_buf env junk mapped 100 8 false).

Lemma granted0 : area_granted vma0 addr0.
Proof. by vm_compute. Qed.

Lemma mapped_by_mmap : binder_mmap env junk proc0 true vma0 (Some addr0) true = Some (0, mapped).
Proof. by vm_compute. Qed.

Lemma mapped_inv : alloc_inv mapped.
Proof.
  destruct (mmap_ok env junk proc0 vma0 addr0) as (ret & p' & Hm & Hr); [by vm_compute|exact granted0|done|].
  rewrite mapped_by_mmap in Hm. injection Hm as <- <-. destruct Hr as [[? _]|(_ & Hi & _)]; done.
Qed.

Lemma one_taken_by_alloc : binder_alloc_buf env junk mapped 100 8 false = Some (Some addr0, one_taken).
Proof. by vm_compute. Qed.

Lemma one_taken_inv : alloc_inv one_taken.
Proof.
  destruct (alloc_buf_ok env junk mapped 100 8 false mapped_inv) as (r & p' & Ha & Hi & _); [done|done|].
  rewrite one_taken_by_alloc in Ha. by injection Ha as _ <-.
Qed.

Lemma binder_alloc_buf_correct_witness :
  ∃ r p', binder_alloc_buf env junk mapped 100 8 true = Some (r, p') ∧ alloc_inv p'.
Proof.
  destruct (binder_alloc_buf_correct env junk mapped 100 8 true mapped_inv ltac:(lia) ltac:(lia)) as (r & p' & Hr & Hi & _).
  exists r, p'. split; [exact Hr|exact Hi].
Defined.

Lemma binder_free_buf_correct_witness :
  ∃ b l2 p', p_buffers one_taken = b :: l2 ∧ b_free b = false ∧ binder_free_buf env one_taken (b_addr b) = Some p' ∧ alloc_inv p' ∧
    p_buffers p' = freed_list [] b l2.
Proof.
  destruct (p_buffers one_taken) as [|b l2] eqn:E; [vm_compute in E; discriminate E|].
  assert (b_free b = false ∧ b_transaction b = 0) as [Hf Ht]
    by (vm_compute in E; injection E as <- _; split; reflexivity).
  destruct (binder_free_buf_correct env one_taken [] b l2 one_taken_inv E Hf Ht) as (p' & Hp & Hi & Hl & _).
  exists b, l2, p'. split; [reflexivity|]. split; [exact Hf|]. split; [exact Hp|]. split; [exact Hi|exact Hl].
Defined.

Lemma alloc_then_free_restores_witness :
  ∃ q, binder_free_buf env one_taken addr0 = Some q ∧ alloc_inv q ∧ shape (p_buffers q) = [(addr0, true)].
Proof.
  destruct (alloc_then_free_restores env env junk mapped 100 8 false addr0 one_taken mapped_inv
    ltac:(lia) ltac:(lia) ltac:(repeat constructor) one_taken_by_alloc) as (q & Hq & Hi & Hs & _).
  exists q. split; [exact Hq|]. split; [exact Hi|]. exact Hs.
Defined.

Definition demo_ops : list alloc_op :=
  [Op_alloc env junk 100 8 false; Op_alloc env junk 9000 0 true; Op_alloc env junk 20000 0 true;
   Op_attach addr0 77 0 true; Op_free env 1073741824; Op_free env (1073741824 + 40); Op_free env (1073741824 + 40)].

Lemma allocator_never_bugs_witness :
  ∃ p2, foldM alloc_step mapped demo_ops = Some p2 ∧ alloc_inv p2 ∧
    shape (p_buffers p2) = [(addr0, true); (addr0 + 148, false); (addr0 + 148 + 9040, true)].
Proof.
  destruct (allocator_never_bugs env junk proc0 vma0 addr0 demo_ops mapped ltac:(by vm_compute) granted0 eq_refl
    mapped_by_mmap ltac:(repeat constructor; lia)) as (p2 & H2 & Hi & _).
  exists p2. split; [exact H2|]. split; [exact Hi|]. vm_compute in H2. injection H2 as <-. vm_compute. reflexivity.
Defined.

Lemma user_can_only_free_own_buffers_witness :
  ∃ p', free_user_buffer env one_taken 5 = Some p' ∧ alloc_inv p'.
Proof.
  destruct (user_can_only_free_own_buffers env one_taken 5 one_taken_inv) as (p' & Hp & Hi & _).
  exists p'. split; [exact Hp|exact Hi].
Defined.

End KAllocDemo.
