(* ===== verification/KState.v ===== *)
(** * Binder driver: objects, lists and the state

    The data structures of [patches/kernel/binder.c] beyond the buffer allocator: processes,
    threads, nodes, references, death notifications and transactions, each kind in a map from
    addresses, so that a pointer to freed memory is an address that is not in
    the map.  A null pointer is 0.  Lists of work are lists of the objects their
    entries are embedded in, and each such object records the list its entry is on.  Operations
    are functions of the state that return a result and a new state, or [None] for
    an access to freed memory, a null dereference or a [BUG_ON]; they run under
    [binder_main_lock].  The messages to the kernel log are left out; the transaction log and the statistics are in [KDump]. *)
From stdpp Require Import gmap.
From S2P Require Import Prelude Bio Binder KAlloc KAllocSpec.

(** ** Data *)

(** What an entry of a work list is embedded in. *)
Inductive binder_work :=
| W_transaction (t : Z)
| W_complete (w : Z)
| W_node (n : Z)
| W_death (d : Z).

#[export] Instance binder_work_eq_dec : EqDecision binder_work.
Proof. solve_decision. Defined.

(** The lists an entry can be on: [todo] of a process or a thread, [async_todo]
    of a node, [delivered_death] of a process. *)
Inductive queue :=
| Q_proc (p : Z)
| Q_thread (th : Z)
| Q_async (n : Z)
| Q_delivered (p : Z).

#[export] Instance queue_eq_dec : EqDecision queue.
Proof. solve_decision. Defined.

(** [struct binder_node]. *)
Record binder_node := Node {
  n_proc : Z;
  n_refs : list Z;
  n_internal_strong_refs : Z;
  n_local_weak_refs : Z;
  n_local_strong_refs : Z;
  n_ptr : Z;
  n_cookie : Z;
  n_has_strong_ref : bool;
  n_pending_strong_ref : bool;
  n_has_weak_ref : bool;
  n_pending_weak_ref : bool;
  n_has_async_transaction : bool;
  n_accept_fds : bool;
  n_min_priority : Z;
  n_async_todo : list binder_work;
  n_entry : option queue }.

Definition set_n_proc (x : Z) (o : binder_node) : binder_node :=
    Node x (n_refs o) (n_internal_strong_refs o) (n_local_weak_refs o) (n_local_strong_refs o) (n_ptr o) (n_cookie o)
    (n_has_strong_ref o) (n_pending_strong_ref o) (n_has_weak_ref o) (n_pending_weak_ref o) (n_has_async_transaction
    o) (n_accept_fds o) (n_min_priority o) (n_async_todo o) (n_entry o).
Definition set_n_refs (x : list Z) (o : binder_node) : binder_node :=
    Node (n_proc o) x (n_internal_strong_refs o) (n_local_weak_refs o) (n_local_strong_refs o) (n_ptr o) (n_cookie o)
    (n_has_strong_ref o) (n_pending_strong_ref o) (n_has_weak_ref o) (n_pending_weak_ref o) (n_has_async_transaction
    o) (n_accept_fds o) (n_min_priority o) (n_async_todo o) (n_entry o).
Definition set_n_internal_strong_refs (x : Z) (o : binder_node) : binder_node :=
    Node (n_proc o) (n_refs o) x (n_local_weak_refs o) (n_local_strong_refs o) (n_ptr o) (n_cookie o)
    (n_has_strong_ref o) (n_pending_strong_ref o) (n_has_weak_ref o) (n_pending_weak_ref o) (n_has_async_transaction
    o) (n_accept_fds o) (n_min_priority o) (n_async_todo o) (n_entry o).
Definition set_n_local_weak_refs (x : Z) (o : binder_node) : binder_node :=
    Node (n_proc o) (n_refs o) (n_internal_strong_refs o) x (n_local_strong_refs o) (n_ptr o) (n_cookie o)
    (n_has_strong_ref o) (n_pending_strong_ref o) (n_has_weak_ref o) (n_pending_weak_ref o) (n_has_async_transaction
    o) (n_accept_fds o) (n_min_priority o) (n_async_todo o) (n_entry o).
Definition set_n_local_strong_refs (x : Z) (o : binder_node) : binder_node :=
    Node (n_proc o) (n_refs o) (n_internal_strong_refs o) (n_local_weak_refs o) x (n_ptr o) (n_cookie o)
    (n_has_strong_ref o) (n_pending_strong_ref o) (n_has_weak_ref o) (n_pending_weak_ref o) (n_has_async_transaction
    o) (n_accept_fds o) (n_min_priority o) (n_async_todo o) (n_entry o).
Definition set_n_has_strong_ref (x : bool) (o : binder_node) : binder_node :=
    Node (n_proc o) (n_refs o) (n_internal_strong_refs o) (n_local_weak_refs o) (n_local_strong_refs o) (n_ptr o)
    (n_cookie o) x (n_pending_strong_ref o) (n_has_weak_ref o) (n_pending_weak_ref o) (n_has_async_transaction o)
    (n_accept_fds o) (n_min_priority o) (n_async_todo o) (n_entry o).
Definition set_n_pending_strong_ref (x : bool) (o : binder_node) : binder_node :=
    Node (n_proc o) (n_refs o) (n_internal_strong_refs o) (n_local_weak_refs o) (n_local_strong_refs o) (n_ptr o)
    (n_cookie o) (n_has_strong_ref o) x (n_has_weak_ref o) (n_pending_weak_ref o) (n_has_async_transaction o)
    (n_accept_fds o) (n_min_priority o) (n_async_todo o) (n_entry o).
Definition set_n_has_weak_ref (x : bool) (o : binder_node) : binder_node :=
    Node (n_proc o) (n_refs o) (n_internal_strong_refs o) (n_local_weak_refs o) (n_local_strong_refs o) (n_ptr o)
    (n_cookie o) (n_has_strong_ref o) (n_pending_strong_ref o) x (n_pending_weak_ref o) (n_has_async_transaction o)
    (n_accept_fds o) (n_min_priority o) (n_async_todo o) (n_entry o).
Definition set_n_pending_weak_ref (x : bool) (o : binder_node) : binder_node :=
    Node (n_proc o) (n_refs o) (n_internal_strong_refs o) (n_local_weak_refs o) (n_local_strong_refs o) (n_ptr o)
    (n_cookie o) (n_has_strong_ref o) (n_pending_strong_ref o) (n_has_weak_ref o) x (n_has_async_transaction o)
    (n_accept_fds o) (n_min_priority o) (n_async_todo o) (n_entry o).
Definition set_n_has_async_transaction (x : bool) (o : binder_node) : binder_node :=
    Node (n_proc o) (n_refs o) (n_internal_strong_refs o) (n_local_weak_refs o) (n_local_strong_refs o) (n_ptr o)
    (n_cookie o) (n_has_strong_ref o) (n_pending_strong_ref o) (n_has_weak_ref o) (n_pending_weak_ref o) x
    (n_accept_fds o) (n_min_priority o) (n_async_todo o) (n_entry o).
Definition set_n_accept_fds (x : bool) (o : binder_node) : binder_node :=
    Node (n_proc o) (n_refs o) (n_internal_strong_refs o) (n_local_weak_refs o) (n_local_strong_refs o) (n_ptr o)
    (n_cookie o) (n_has_strong_ref o) (n_pending_strong_ref o) (n_has_weak_ref o) (n_pending_weak_ref o)
    (n_has_async_transaction o) x (n_min_priority o) (n_async_todo o) (n_entry o).
Definition set_n_min_priority (x : Z) (o : binder_node) : binder_node :=
    Node (n_proc o) (n_refs o) (n_internal_strong_refs o) (n_local_weak_refs o) (n_local_strong_refs o) (n_ptr o)
    (n_cookie o) (n_has_strong_ref o) (n_pending_strong_ref o) (n_has_weak_ref o) (n_pending_weak_ref o)
    (n_has_async_transaction o) (n_accept_fds o) x (n_async_todo o) (n_entry o).
Definition set_n_async_todo (x : list binder_work) (o : binder_node) : binder_node :=
    Node (n_proc o) (n_refs o) (n_internal_strong_refs o) (n_local_weak_refs o) (n_local_strong_refs o) (n_ptr o)
    (n_cookie o) (n_has_strong_ref o) (n_pending_strong_ref o) (n_has_weak_ref o) (n_pending_weak_ref o)
    (n_has_async_transaction o) (n_accept_fds o) (n_min_priority o) x (n_entry o).
Definition set_n_entry (x : option queue) (o : binder_node) : binder_node :=
    Node (n_proc o) (n_refs o) (n_internal_strong_refs o) (n_local_weak_refs o) (n_local_strong_refs o) (n_ptr o)
    (n_cookie o) (n_has_strong_ref o) (n_pending_strong_ref o) (n_has_weak_ref o) (n_pending_weak_ref o)
    (n_has_async_transaction o) (n_accept_fds o) (n_min_priority o) (n_async_todo o) x.

(** The type of a death notification's work; memory is zeroed before it is set. *)
Inductive death_type := Death_unset | DEAD_BINDER | DEAD_BINDER_AND_CLEAR | CLEAR_DEATH_NOTIFICATION.

#[export] Instance death_type_eq_dec : EqDecision death_type.
Proof. solve_decision. Defined.

(** [struct binder_ref_death]. *)
Record binder_ref_death := Death {
  d_type : death_type;
  d_cookie : Z;
  d_entry : option queue }.

Definition set_d_type (x : death_type) (o : binder_ref_death) : binder_ref_death :=
    Death x (d_cookie o) (d_entry o).
Definition set_d_entry (x : option queue) (o : binder_ref_death) : binder_ref_death :=
    Death (d_type o) (d_cookie o) x.

(** [struct binder_ref]. *)
Record binder_ref := Ref {
  r_proc : Z;
  r_node : Z;
  r_desc : Z;
  r_strong : Z;
  r_weak : Z;
  r_death : Z }.

Definition set_r_desc (x : Z) (o : binder_ref) : binder_ref :=
    Ref (r_proc o) (r_node o) x (r_strong o) (r_weak o) (r_death o).
Definition set_r_strong (x : Z) (o : binder_ref) : binder_ref :=
    Ref (r_proc o) (r_node o) (r_desc o) x (r_weak o) (r_death o).
Definition set_r_weak (x : Z) (o : binder_ref) : binder_ref :=
    Ref (r_proc o) (r_node o) (r_desc o) (r_strong o) x (r_death o).
Definition set_r_death (x : Z) (o : binder_ref) : binder_ref :=
    Ref (r_proc o) (r_node o) (r_desc o) (r_strong o) (r_weak o) x.

(** [struct binder_thread]. *)
Record binder_thread := Thread {
  th_proc : Z;
  th_pid : Z;
  th_looper : Z;
  th_transaction_stack : Z;
  th_todo : list binder_work;
  th_return_error : Z;
  th_return_error2 : Z }.

Definition set_th_looper (x : Z) (o : binder_thread) : binder_thread :=
    Thread (th_proc o) (th_pid o) x (th_transaction_stack o) (th_todo o) (th_return_error o) (th_return_error2 o).
Definition set_th_transaction_stack (x : Z) (o : binder_thread) : binder_thread :=
    Thread (th_proc o) (th_pid o) (th_looper o) x (th_todo o) (th_return_error o) (th_return_error2 o).
Definition set_th_todo (x : list binder_work) (o : binder_thread) : binder_thread :=
    Thread (th_proc o) (th_pid o) (th_looper o) (th_transaction_stack o) x (th_return_error o) (th_return_error2 o).
Definition set_th_return_error (x : Z) (o : binder_thread) : binder_thread :=
    Thread (th_proc o) (th_pid o) (th_looper o) (th_transaction_stack o) (th_todo o) x (th_return_error2 o).
Definition set_th_return_error2 (x : Z) (o : binder_thread) : binder_thread :=
    Thread (th_proc o) (th_pid o) (th_looper o) (th_transaction_stack o) (th_todo o) (th_return_error o) x.

(** [struct binder_transaction]; a pointer to a buffer is the process in whose area it lies
    and its address. *)
Record struct_transaction := Trans {
  t_from : Z;
  t_from_parent : Z;
  t_to_proc : Z;
  t_to_thread : Z;
  t_to_parent : Z;
  t_need_reply : bool;
  t_buffer : option (Z * Z);
  t_code : Z;
  t_flags : Z;
  t_priority : Z;
  t_saved_priority : Z;
  t_sender_euid : Z;
  t_entry : option queue }.

Definition set_t_from (x : Z) (o : struct_transaction) : struct_transaction :=
    Trans x (t_from_parent o) (t_to_proc o) (t_to_thread o) (t_to_parent o) (t_need_reply o) (t_buffer o) (t_code o)
    (t_flags o) (t_priority o) (t_saved_priority o) (t_sender_euid o) (t_entry o).
Definition set_t_from_parent (x : Z) (o : struct_transaction) : struct_transaction :=
    Trans (t_from o) x (t_to_proc o) (t_to_thread o) (t_to_parent o) (t_need_reply o) (t_buffer o) (t_code o) (t_flags
    o) (t_priority o) (t_saved_priority o) (t_sender_euid o) (t_entry o).
Definition set_t_to_proc (x : Z) (o : struct_transaction) : struct_transaction :=
    Trans (t_from o) (t_from_parent o) x (t_to_thread o) (t_to_parent o) (t_need_reply o) (t_buffer o) (t_code o)
    (t_flags o) (t_priority o) (t_saved_priority o) (t_sender_euid o) (t_entry o).
Definition set_t_to_thread (x : Z) (o : struct_transaction) : struct_transaction :=
    Trans (t_from o) (t_from_parent o) (t_to_proc o) x (t_to_parent o) (t_need_reply o) (t_buffer o) (t_code o)
    (t_flags o) (t_priority o) (t_saved_priority o) (t_sender_euid o) (t_entry o).
Definition set_t_to_parent (x : Z) (o : struct_transaction) : struct_transaction :=
    Trans (t_from o) (t_from_parent o) (t_to_proc o) (t_to_thread o) x (t_need_reply o) (t_buffer o) (t_code o)
    (t_flags o) (t_priority o) (t_saved_priority o) (t_sender_euid o) (t_entry o).
Definition set_t_need_reply (x : bool) (o : struct_transaction) : struct_transaction :=
    Trans (t_from o) (t_from_parent o) (t_to_proc o) (t_to_thread o) (t_to_parent o) x (t_buffer o) (t_code o)
    (t_flags o) (t_priority o) (t_saved_priority o) (t_sender_euid o) (t_entry o).
Definition set_t_buffer (x : option (Z * Z)) (o : struct_transaction) : struct_transaction :=
    Trans (t_from o) (t_from_parent o) (t_to_proc o) (t_to_thread o) (t_to_parent o) (t_need_reply o) x (t_code o)
    (t_flags o) (t_priority o) (t_saved_priority o) (t_sender_euid o) (t_entry o).
Definition set_t_saved_priority (x : Z) (o : struct_transaction) : struct_transaction :=
    Trans (t_from o) (t_from_parent o) (t_to_proc o) (t_to_thread o) (t_to_parent o) (t_need_reply o) (t_buffer o)
    (t_code o) (t_flags o) (t_priority o) x (t_sender_euid o) (t_entry o).
Definition set_t_entry (x : option queue) (o : struct_transaction) : struct_transaction :=
    Trans (t_from o) (t_from_parent o) (t_to_proc o) (t_to_thread o) (t_to_parent o) (t_need_reply o) (t_buffer o)
    (t_code o) (t_flags o) (t_priority o) (t_saved_priority o) (t_sender_euid o) x.

(** [struct binder_proc]: the allocator's fields are in [k_alloc], the data and the
    offsets its buffers hold, by address, in [k_data]. *)
Record kproc := KProc {
  k_tsk : Z;
  k_pid : Z;
  k_alloc : KAlloc.binder_proc;
  k_data : gmap Z (list Z * list Z);
  k_threads : rb_tree;
  k_nodes : rb_tree;
  k_refs_by_desc : rb_tree;
  k_refs_by_node : rb_tree;
  k_files : bool;
  k_deferred_work : Z;
  k_todo : list binder_work;
  k_delivered_death : list binder_work;
  k_max_threads : Z;
  k_requested_threads : Z;
  k_requested_threads_started : Z;
  k_ready_threads : Z;
  k_default_priority : Z }.

Definition set_k_alloc (x : KAlloc.binder_proc) (o : kproc) : kproc :=
    KProc (k_tsk o) (k_pid o) x (k_data o) (k_threads o) (k_nodes o) (k_refs_by_desc o) (k_refs_by_node o) (k_files o)
    (k_deferred_work o) (k_todo o) (k_delivered_death o) (k_max_threads o) (k_requested_threads o)
    (k_requested_threads_started o) (k_ready_threads o) (k_default_priority o).
Definition set_k_data (x : gmap Z (list Z * list Z)) (o : kproc) : kproc :=
    KProc (k_tsk o) (k_pid o) (k_alloc o) x (k_threads o) (k_nodes o) (k_refs_by_desc o) (k_refs_by_node o) (k_files
    o) (k_deferred_work o) (k_todo o) (k_delivered_death o) (k_max_threads o) (k_requested_threads o)
    (k_requested_threads_started o) (k_ready_threads o) (k_default_priority o).
Definition set_k_threads (x : rb_tree) (o : kproc) : kproc :=
    KProc (k_tsk o) (k_pid o) (k_alloc o) (k_data o) x (k_nodes o) (k_refs_by_desc o) (k_refs_by_node o) (k_files o)
    (k_deferred_work o) (k_todo o) (k_delivered_death o) (k_max_threads o) (k_requested_threads o)
    (k_requested_threads_started o) (k_ready_threads o) (k_default_priority o).
Definition set_k_nodes (x : rb_tree) (o : kproc) : kproc :=
    KProc (k_tsk o) (k_pid o) (k_alloc o) (k_data o) (k_threads o) x (k_refs_by_desc o) (k_refs_by_node o) (k_files o)
    (k_deferred_work o) (k_todo o) (k_delivered_death o) (k_max_threads o) (k_requested_threads o)
    (k_requested_threads_started o) (k_ready_threads o) (k_default_priority o).
Definition set_k_refs_by_desc (x : rb_tree) (o : kproc) : kproc :=
    KProc (k_tsk o) (k_pid o) (k_alloc o) (k_data o) (k_threads o) (k_nodes o) x (k_refs_by_node o) (k_files o)
    (k_deferred_work o) (k_todo o) (k_delivered_death o) (k_max_threads o) (k_requested_threads o)
    (k_requested_threads_started o) (k_ready_threads o) (k_default_priority o).
Definition set_k_refs_by_node (x : rb_tree) (o : kproc) : kproc :=
    KProc (k_tsk o) (k_pid o) (k_alloc o) (k_data o) (k_threads o) (k_nodes o) (k_refs_by_desc o) x (k_files o)
    (k_deferred_work o) (k_todo o) (k_delivered_death o) (k_max_threads o) (k_requested_threads o)
    (k_requested_threads_started o) (k_ready_threads o) (k_default_priority o).
Definition set_k_files (x : bool) (o : kproc) : kproc :=
    KProc (k_tsk o) (k_pid o) (k_alloc o) (k_data o) (k_threads o) (k_nodes o) (k_refs_by_desc o) (k_refs_by_node o) x
    (k_deferred_work o) (k_todo o) (k_delivered_death o) (k_max_threads o) (k_requested_threads o)
    (k_requested_threads_started o) (k_ready_threads o) (k_default_priority o).
Definition set_k_deferred_work (x : Z) (o : kproc) : kproc :=
    KProc (k_tsk o) (k_pid o) (k_alloc o) (k_data o) (k_threads o) (k_nodes o) (k_refs_by_desc o) (k_refs_by_node o)
    (k_files o) x (k_todo o) (k_delivered_death o) (k_max_threads o) (k_requested_threads o)
    (k_requested_threads_started o) (k_ready_threads o) (k_default_priority o).
Definition set_k_todo (x : list binder_work) (o : kproc) : kproc :=
    KProc (k_tsk o) (k_pid o) (k_alloc o) (k_data o) (k_threads o) (k_nodes o) (k_refs_by_desc o) (k_refs_by_node o)
    (k_files o) (k_deferred_work o) x (k_delivered_death o) (k_max_threads o) (k_requested_threads o)
    (k_requested_threads_started o) (k_ready_threads o) (k_default_priority o).
Definition set_k_delivered_death (x : list binder_work) (o : kproc) : kproc :=
    KProc (k_tsk o) (k_pid o) (k_alloc o) (k_data o) (k_threads o) (k_nodes o) (k_refs_by_desc o) (k_refs_by_node o)
    (k_files o) (k_deferred_work o) (k_todo o) x (k_max_threads o) (k_requested_threads o)
    (k_requested_threads_started o) (k_ready_threads o) (k_default_priority o).
Definition set_k_max_threads (x : Z) (o : kproc) : kproc :=
    KProc (k_tsk o) (k_pid o) (k_alloc o) (k_data o) (k_threads o) (k_nodes o) (k_refs_by_desc o) (k_refs_by_node o)
    (k_files o) (k_deferred_work o) (k_todo o) (k_delivered_death o) x (k_requested_threads o)
    (k_requested_threads_started o) (k_ready_threads o) (k_default_priority o).
Definition set_k_requested_threads (x : Z) (o : kproc) : kproc :=
    KProc (k_tsk o) (k_pid o) (k_alloc o) (k_data o) (k_threads o) (k_nodes o) (k_refs_by_desc o) (k_refs_by_node o)
    (k_files o) (k_deferred_work o) (k_todo o) (k_delivered_death o) (k_max_threads o) x (k_requested_threads_started
    o) (k_ready_threads o) (k_default_priority o).
Definition set_k_requested_threads_started (x : Z) (o : kproc) : kproc :=
    KProc (k_tsk o) (k_pid o) (k_alloc o) (k_data o) (k_threads o) (k_nodes o) (k_refs_by_desc o) (k_refs_by_node o)
    (k_files o) (k_deferred_work o) (k_todo o) (k_delivered_death o) (k_max_threads o) (k_requested_threads o) x
    (k_ready_threads o) (k_default_priority o).
Definition set_k_ready_threads (x : Z) (o : kproc) : kproc :=
    KProc (k_tsk o) (k_pid o) (k_alloc o) (k_data o) (k_threads o) (k_nodes o) (k_refs_by_desc o) (k_refs_by_node o)
    (k_files o) (k_deferred_work o) (k_todo o) (k_delivered_death o) (k_max_threads o) (k_requested_threads o)
    (k_requested_threads_started o) x (k_default_priority o).

(** What the driver does to the rest of the system. *)
Inductive kevent :=
| Wake_proc (p : Z)
| Wake_thread (th : Z)
| Install_fd (tsk fd file : Z)
| Close_fd (tsk fd : Z)
| Put_files (p : Z).

(** The objects by kind, the global variables of the driver, the priorities of the threads,
    the number of calls into the rest of the kernel so far, and the effects there. *)
Record kstate := KState {
  ks_procs : gmap Z kproc;
  ks_threads : gmap Z binder_thread;
  ks_nodes : gmap Z binder_node;
  ks_refs : gmap Z binder_ref;
  ks_deaths : gmap Z binder_ref_death;
  ks_trans : gmap Z struct_transaction;
  ks_completes : gmap Z (option queue);
  ks_proc_list : list Z;
  ks_dead_nodes : list Z;
  ks_deferred : list Z;
  ks_context_mgr_node : Z;
  ks_context_mgr_uid : option Z;
  ks_nice : gmap Z Z;
  ks_tick : nat;
  ks_events : list kevent }.

Definition set_ks_procs (x : gmap Z kproc) (o : kstate) : kstate :=
    KState x (ks_threads o) (ks_nodes o) (ks_refs o) (ks_deaths o) (ks_trans o) (ks_completes o) (ks_proc_list o)
    (ks_dead_nodes o) (ks_deferred o) (ks_context_mgr_node o) (ks_context_mgr_uid o) (ks_nice o) (ks_tick o)
    (ks_events o).
Definition set_ks_threads (x : gmap Z binder_thread) (o : kstate) : kstate :=
    KState (ks_procs o) x (ks_nodes o) (ks_refs o) (ks_deaths o) (ks_trans o) (ks_completes o) (ks_proc_list o)
    (ks_dead_nodes o) (ks_deferred o) (ks_context_mgr_node o) (ks_context_mgr_uid o) (ks_nice o) (ks_tick o)
    (ks_events o).
Definition set_ks_nodes (x : gmap Z binder_node) (o : kstate) : kstate :=
    KState (ks_procs o) (ks_threads o) x (ks_refs o) (ks_deaths o) (ks_trans o) (ks_completes o) (ks_proc_list o)
    (ks_dead_nodes o) (ks_deferred o) (ks_context_mgr_node o) (ks_context_mgr_uid o) (ks_nice o) (ks_tick o)
    (ks_events o).
Definition set_ks_refs (x : gmap Z binder_ref) (o : kstate) : kstate :=
    KState (ks_procs o) (ks_threads o) (ks_nodes o) x (ks_deaths o) (ks_trans o) (ks_completes o) (ks_proc_list o)
    (ks_dead_nodes o) (ks_deferred o) (ks_context_mgr_node o) (ks_context_mgr_uid o) (ks_nice o) (ks_tick o)
    (ks_events o).
Definition set_ks_deaths (x : gmap Z binder_ref_death) (o : kstate) : kstate :=
    KState (ks_procs o) (ks_threads o) (ks_nodes o) (ks_refs o) x (ks_trans o) (ks_completes o) (ks_proc_list o)
    (ks_dead_nodes o) (ks_deferred o) (ks_context_mgr_node o) (ks_context_mgr_uid o) (ks_nice o) (ks_tick o)
    (ks_events o).
Definition set_ks_trans (x : gmap Z struct_transaction) (o : kstate) : kstate :=
    KState (ks_procs o) (ks_threads o) (ks_nodes o) (ks_refs o) (ks_deaths o) x (ks_completes o) (ks_proc_list o)
    (ks_dead_nodes o) (ks_deferred o) (ks_context_mgr_node o) (ks_context_mgr_uid o) (ks_nice o) (ks_tick o)
    (ks_events o).
Definition set_ks_completes (x : gmap Z (option queue)) (o : kstate) : kstate :=
    KState (ks_procs o) (ks_threads o) (ks_nodes o) (ks_refs o) (ks_deaths o) (ks_trans o) x (ks_proc_list o)
    (ks_dead_nodes o) (ks_deferred o) (ks_context_mgr_node o) (ks_context_mgr_uid o) (ks_nice o) (ks_tick o)
    (ks_events o).
Definition set_ks_proc_list (x : list Z) (o : kstate) : kstate :=
    KState (ks_procs o) (ks_threads o) (ks_nodes o) (ks_refs o) (ks_deaths o) (ks_trans o) (ks_completes o) x
    (ks_dead_nodes o) (ks_deferred o) (ks_context_mgr_node o) (ks_context_mgr_uid o) (ks_nice o) (ks_tick o)
    (ks_events o).
Definition set_ks_dead_nodes (x : list Z) (o : kstate) : kstate :=
    KState (ks_procs o) (ks_threads o) (ks_nodes o) (ks_refs o) (ks_deaths o) (ks_trans o) (ks_completes o)
    (ks_proc_list o) x (ks_deferred o) (ks_context_mgr_node o) (ks_context_mgr_uid o) (ks_nice o) (ks_tick o)
    (ks_events o).
Definition set_ks_deferred (x : list Z) (o : kstate) : kstate :=
    KState (ks_procs o) (ks_threads o) (ks_nodes o) (ks_refs o) (ks_deaths o) (ks_trans o) (ks_completes o)
    (ks_proc_list o) (ks_dead_nodes o) x (ks_context_mgr_node o) (ks_context_mgr_uid o) (ks_nice o) (ks_tick o)
    (ks_events o).
Definition set_ks_context_mgr_node (x : Z) (o : kstate) : kstate :=
    KState (ks_procs o) (ks_threads o) (ks_nodes o) (ks_refs o) (ks_deaths o) (ks_trans o) (ks_completes o)
    (ks_proc_list o) (ks_dead_nodes o) (ks_deferred o) x (ks_context_mgr_uid o) (ks_nice o) (ks_tick o) (ks_events o).
Definition set_ks_context_mgr_uid (x : option Z) (o : kstate) : kstate :=
    KState (ks_procs o) (ks_threads o) (ks_nodes o) (ks_refs o) (ks_deaths o) (ks_trans o) (ks_completes o)
    (ks_proc_list o) (ks_dead_nodes o) (ks_deferred o) (ks_context_mgr_node o) x (ks_nice o) (ks_tick o) (ks_events
    o).
Definition set_ks_nice (x : gmap Z Z) (o : kstate) : kstate :=
    KState (ks_procs o) (ks_threads o) (ks_nodes o) (ks_refs o) (ks_deaths o) (ks_trans o) (ks_completes o)
    (ks_proc_list o) (ks_dead_nodes o) (ks_deferred o) (ks_context_mgr_node o) (ks_context_mgr_uid o) x (ks_tick o)
    (ks_events o).
Definition set_ks_tick (x : nat) (o : kstate) : kstate :=
    KState (ks_procs o) (ks_threads o) (ks_nodes o) (ks_refs o) (ks_deaths o) (ks_trans o) (ks_completes o)
    (ks_proc_list o) (ks_dead_nodes o) (ks_deferred o) (ks_context_mgr_node o) (ks_context_mgr_uid o) (ks_nice o) x
    (ks_events o).
Definition set_ks_events (x : list kevent) (o : kstate) : kstate :=
    KState (ks_procs o) (ks_threads o) (ks_nodes o) (ks_refs o) (ks_deaths o) (ks_trans o) (ks_completes o)
    (ks_proc_list o) (ks_dead_nodes o) (ks_deferred o) (ks_context_mgr_node o) (ks_context_mgr_uid o) (ks_nice o)
    (ks_tick o) x.

(** The thread that makes a system call. *)
Record task := Task { tsk_pid : Z; tsk_group : Z; tsk_euid : Z }.

(** ** The rest of the kernel *)

(** The functions the driver calls; those whose answer can change get the number of calls made
    before.  [kzalloc] is given the addresses in use. *)
Class Kernel := {
  kzalloc_addr : gset Z → nat → option Z;
  copy_from_user : nat → Z → Z → Z → option (list Z);
  task_euid : Z → Z;
  can_nice : Z → Z → bool;
  rlimit_nice : Z → Z;
  security_binder_set_context_mgr : Z → Z;
  security_binder_transaction : Z → Z → Z;
  security_binder_transfer_binder : Z → Z → Z;
  security_binder_transfer_file : Z → Z → Z → Z;
  fget : nat → Z → Z → option Z;
  get_unused_fd : nat → Z → Z;
  alloc_env : nat → page_env;
  header_garbage : nat → binder_buffer }.

(** The constants of the driver's interface, from the kernel's header. *)
Class BinderApi := {
  api_returns :: BinderReturns;
  BR_OK : Z; BR_ERROR : Z; BR_SPAWN_LOOPER : Z; BR_CLEAR_DEATH_NOTIFICATION_DONE : Z;
  TYPE_BINDER : Z; TYPE_WEAK_BINDER : Z; TYPE_HANDLE : Z; TYPE_WEAK_HANDLE : Z; TYPE_FD : Z;
  FLAG_PRIORITY_MASK : Z; FLAG_ACCEPTS_FDS : Z;
  TF_ONE_WAY : Z; TF_ACCEPT_FDS : Z;
  BC_INCREFS : Z; BC_ACQUIRE : Z; BC_RELEASE : Z; BC_DECREFS : Z; BC_INCREFS_DONE : Z; BC_ACQUIRE_DONE : Z;
  BC_ATTEMPT_ACQUIRE : Z; BC_ACQUIRE_RESULT : Z; BC_FREE_BUFFER : Z; BC_TRANSACTION : Z; BC_REPLY : Z;
  BC_REGISTER_LOOPER : Z; BC_ENTER_LOOPER : Z; BC_EXIT_LOOPER : Z; BC_REQUEST_DEATH_NOTIFICATION : Z;
  BC_CLEAR_DEATH_NOTIFICATION : Z; BC_DEAD_BINDER_DONE : Z }.

Definition LOOPER_REGISTERED : Z := 1.
Definition LOOPER_ENTERED : Z := 2.
Definition LOOPER_EXITED : Z := 4.
Definition LOOPER_INVALID : Z := 8.
Definition LOOPER_WAITING : Z := 16.
Definition LOOPER_NEED_RETURN : Z := 32.

Definition has_flag (flags bit : Z) : bool := truthy (flags &&& bit).

(** ** The monad *)

Definition KM (A : Type) : Type := kstate → option (A * kstate).
#[export] Instance KM_ret : MRet KM := λ _ x s, Some (x, s).
#[export] Instance KM_bind : MBind KM := λ _ _ k m s,
  match m s with Some (x, s') => k x s' | None => None end.

Definition klift {A} (o : option A) : KM A := λ s, x ← o; Some (x, s).
Definition kget {A} (f : kstate → A) : KM A := λ s, Some (f s, s).
Definition kmod (f : kstate → kstate) : KM () := λ s, Some ((), f s).
Definition kfault {A} : KM A := λ _, None.
Definition kassert (b : bool) : KM () := if b then mret () else kfault.
Definition kemit (e : kevent) : KM () := kmod (λ s, set_ks_events (ks_events s ++ [e]) s).

(** Reading an object, and storing to one. *)
Definition proc_at (p : Z) : KM kproc := λ s, x ← ks_procs s !! p; Some (x, s).
Definition thread_at (th : Z) : KM binder_thread := λ s, x ← ks_threads s !! th; Some (x, s).
Definition node_at (n : Z) : KM binder_node := λ s, x ← ks_nodes s !! n; Some (x, s).
Definition ref_at (r : Z) : KM binder_ref := λ s, x ← ks_refs s !! r; Some (x, s).
Definition death_at (d : Z) : KM binder_ref_death := λ s, x ← ks_deaths s !! d; Some (x, s).
Definition trans_at (t : Z) : KM struct_transaction := λ s, x ← ks_trans s !! t; Some (x, s).

Definition upd_proc (p : Z) (f : kproc → kproc) : KM () :=
  λ s, x ← ks_procs s !! p; Some ((), set_ks_procs (<[p := f x]> (ks_procs s)) s).
Definition upd_thread (th : Z) (f : binder_thread → binder_thread) : KM () :=
  λ s, x ← ks_threads s !! th; Some ((), set_ks_threads (<[th := f x]> (ks_threads s)) s).
Definition upd_node (n : Z) (f : binder_node → binder_node) : KM () :=
  λ s, x ← ks_nodes s !! n; Some ((), set_ks_nodes (<[n := f x]> (ks_nodes s)) s).
Definition upd_ref (r : Z) (f : binder_ref → binder_ref) : KM () :=
  λ s, x ← ks_refs s !! r; Some ((), set_ks_refs (<[r := f x]> (ks_refs s)) s).
Definition upd_death (d : Z) (f : binder_ref_death → binder_ref_death) : KM () :=
  λ s, x ← ks_deaths s !! d; Some ((), set_ks_deaths (<[d := f x]> (ks_deaths s)) s).
Definition upd_trans (t : Z) (f : struct_transaction → struct_transaction) : KM () :=
  λ s, x ← ks_trans s !! t; Some ((), set_ks_trans (<[t := f x]> (ks_trans s)) s).

(** Freeing an object; freeing what is not there is a fault. *)
Definition kfree_node (n : Z) : KM () := _ ← node_at n; kmod (λ s, set_ks_nodes (delete n (ks_nodes s)) s).
Definition kfree_ref (r : Z) : KM () := _ ← ref_at r; kmod (λ s, set_ks_refs (delete r (ks_refs s)) s).
Definition kfree_death (d : Z) : KM () := _ ← death_at d; kmod (λ s, set_ks_deaths (delete d (ks_deaths s)) s).
Definition kfree_trans (t : Z) : KM () := _ ← trans_at t; kmod (λ s, set_ks_trans (delete t (ks_trans s)) s).
Definition kfree_thread (th : Z) : KM () := _ ← thread_at th; kmod (λ s, set_ks_threads (delete th (ks_threads s)) s).
Definition kfree_proc (p : Z) : KM () := _ ← proc_at p; kmod (λ s, set_ks_procs (delete p (ks_procs s)) s).
Definition kfree_complete (w : Z) : KM () :=
  c ← kget ks_completes; _ ← klift (c !! w); kmod (λ s, set_ks_completes (delete w (ks_completes s)) s).

(** The addresses of all objects. *)
Definition live (s : kstate) : gset Z :=
  dom (ks_procs s) ∪ dom (ks_threads s) ∪ dom (ks_nodes s) ∪ dom (ks_refs s) ∪ dom (ks_deaths s) ∪
  dom (ks_trans s) ∪ dom (ks_completes s).

(** A call into the rest of the kernel. *)
Definition next_tick : KM nat := t ← kget ks_tick; _ ← kmod (λ s, set_ks_tick (S t) s); mret t.

Section Alloc.
Context `{Kernel}.

(** The address of a new object, or 0. *)
Definition kzalloc : KM Z :=
  t ← next_tick; l ← kget live; mret (default 0 (kzalloc_addr l t)).

(** ** Priorities *)

Definition task_nice (cur : task) : KM Z := m ← kget ks_nice; mret (default 0 (m !! tsk_pid cur)).
Definition set_user_nice (cur : task) (nice : Z) : KM () :=
  kmod (λ s, set_ks_nice (<[tsk_pid cur := nice]> (ks_nice s)) s).

Definition binder_set_nice (cur : task) (nice : Z) : KM () :=
  if can_nice (tsk_pid cur) nice then set_user_nice cur nice
  else set_user_nice cur (rlimit_nice (tsk_pid cur)).

End Alloc.

(** ** Lists of work *)

Definition queue_get (q : queue) : KM (list binder_work) :=
  match q with
  | Q_proc p => x ← proc_at p; mret (k_todo x)
  | Q_thread th => x ← thread_at th; mret (th_todo x)
  | Q_async n => x ← node_at n; mret (n_async_todo x)
  | Q_delivered p => x ← proc_at p; mret (k_delivered_death x)
  end.

Definition queue_put (q : queue) (l : list binder_work) : KM () :=
  match q with
  | Q_proc p => upd_proc p (set_k_todo l)
  | Q_thread th => upd_thread th (set_th_todo l)
  | Q_async n => upd_node n (set_n_async_todo l)
  | Q_delivered p => upd_proc p (set_k_delivered_death l)
  end.

(** The list an entry is on. *)
Definition entry_of (w : binder_work) : KM (option queue) :=
  match w with
  | W_transaction t => x ← trans_at t; mret (t_entry x)
  | W_complete c => m ← kget ks_completes; klift (m !! c)
  | W_node n => x ← node_at n; mret (n_entry x)
  | W_death d => x ← death_at d; mret (d_entry x)
  end.

Definition set_entry (w : binder_work) (q : option queue) : KM () :=
  match w with
  | W_transaction t => upd_trans t (set_t_entry q)
  | W_complete c =>
    m ← kget ks_completes; _ ← klift (m !! c); kmod (λ s, set_ks_completes (<[c := q]> (ks_completes s)) s)
  | W_node n => upd_node n (set_n_entry q)
  | W_death d => upd_death d (set_d_entry q)
  end.

(** [list_add_tail], [list_add] and [list_del_init]; an entry that is on no list is linked to itself. *)
Definition list_add_tail (w : binder_work) (q : queue) : KM () :=
  l ← queue_get q; _ ← queue_put q (l ++ [w]); set_entry w (Some q).
Definition list_add (w : binder_work) (q : queue) : KM () :=
  l ← queue_get q; _ ← queue_put q (w :: l); set_entry w (Some q).
Definition list_del_init (w : binder_work) : KM () :=
  e ← entry_of w;
  match e with
  | Some q => l ← queue_get q; _ ← queue_put q (filter (λ x, x ≠ w) l); set_entry w None
  | None => mret ()
  end.

(** [list_empty] of an entry. *)
Definition entry_unlinked (w : binder_work) : KM bool := e ← entry_of w; mret (bool_decide (e = None)).

(** [list_first_entry] of a list that is not empty. *)
Definition queue_head (q : queue) : KM (option binder_work) := l ← queue_get q; mret (head l).

(** ** Walking the trees *)

Section Walk.
Variable key : Z → option Z.

(** The search loops: the object with key [k], or 0. *)
Fixpoint rb_find (k : Z) (t : rb_tree) : option Z :=
  match t with
  | rb_null => Some 0
  | rb_node l x r =>
    kx ← key x;
    if k <? kx then rb_find k l else if kx <? k then rb_find k r else Some x
  end.

(** [rb_link_node] where the search for [k] ends; an equal key is a fault. *)
Fixpoint rb_link (k new : Z) (t : rb_tree) : option rb_tree :=
  match t with
  | rb_null => Some (rb_node rb_null new rb_null)
  | rb_node l x r =>
    kx ← key x;
    if k <? kx then l ← rb_link k new l; Some (rb_node l x r)
    else if kx <? k then r ← rb_link k new r; Some (rb_node l x r)
    else None
  end.

End Walk.

(** The keys of the four trees of a process. *)
Definition ptr_key (s : kstate) (n : Z) : option Z := n_ptr <$> ks_nodes s !! n.
Definition desc_key (s : kstate) (r : Z) : option Z := r_desc <$> ks_refs s !! r.
Definition node_key (s : kstate) (r : Z) : option Z := r_node <$> ks_refs s !! r.
Definition pid_key (s : kstate) (th : Z) : option Z := th_pid <$> ks_threads s !! th.
