(* ===== verification/KRefs.v ===== *)
(** * Binder driver: nodes and references

    Model of [binder_get_node] to [binder_dec_ref] of [patches/kernel/binder.c].  A
    node is an object of the process that serves it, a reference is another
    process's handle on it; counts are of type [int], and
    counting past its ends wraps around. *)
From stdpp Require Import gmap.
From S2P Require Import Prelude Bio Binder KAlloc KAllocSpec KState.

Section Refs.
Context `{RbTree} `{Kernel}.

(** ** Nodes *)

(** The node of [p] with this user-space address, or 0. *)
Definition binder_get_node (p ptr : Z) : KM Z :=
  k ← proc_at p; key ← kget ptr_key; klift (rb_find key ptr (k_nodes k)).

Definition new_node (p ptr cookie : Z) : binder_node :=
  Node p [] 0 0 0 ptr cookie false false false false false false 0 [] None.

Definition binder_new_node (p ptr cookie : Z) : KM Z :=
  k ← proc_at p; key ← kget ptr_key;
  found ← klift (rb_find key ptr (k_nodes k));
  if truthy found then mret 0
  else
    n ← kzalloc;
    if n =? 0 then mret 0
    else
      t ← klift (rb_link key ptr n (k_nodes k));
      _ ← upd_proc p (set_k_nodes (rb_insert_color n t));
      _ ← kmod (λ s, set_ks_nodes (<[n := new_node p ptr cookie]> (ks_nodes s)) s);
      mret n.

Definition binder_inc_node (n : Z) (strong internal : bool) (target_list : option queue) : KM Z :=
  x ← node_at n;
  if strong then
    mgr ← kget ks_context_mgr_node;
    if internal && bool_decide (target_list = None) && (n_internal_strong_refs x =? 0) &&
       negb ((n =? mgr) && n_has_strong_ref x) then mret (- Errno.EINVAL)
    else
      _ ← upd_node n (λ x, if internal then set_n_internal_strong_refs (s32 (n_internal_strong_refs x + 1)) x
                           else set_n_local_strong_refs (s32 (n_local_strong_refs x + 1)) x);
      _ ← match target_list with
          | Some q => if negb (n_has_strong_ref x) then _ ← list_del_init (W_node n); list_add_tail (W_node n) q
                      else mret ()
          | None => mret ()
          end;
      mret 0
  else
    _ ← (if negb internal then upd_node n (λ x, set_n_local_weak_refs (s32 (n_local_weak_refs x + 1)) x) else mret ());
    unlinked ← entry_unlinked (W_node n);
    if negb (n_has_weak_ref x) && unlinked then
      match target_list with
      | None => mret (- Errno.EINVAL)
      | Some q => _ ← list_add_tail (W_node n) q; mret 0
      end
    else mret 0.

(** The part of [binder_dec_node] behind the counting. *)
Definition drop_node (n : Z) : KM () :=
  x ← node_at n;
  if truthy (n_proc x) && (n_has_strong_ref x || n_has_weak_ref x) then
    unlinked ← entry_unlinked (W_node n);
    if (unlinked : bool) then _ ← list_add_tail (W_node n) (Q_proc (n_proc x)); kemit (Wake_proc (n_proc x))
    else mret ()
  else if bool_decide (n_refs x = []) && (n_local_strong_refs x =? 0) && (n_local_weak_refs x =? 0) then
    _ ← list_del_init (W_node n);
    _ ← (if truthy (n_proc x) then upd_proc (n_proc x) (λ k, set_k_nodes (rb_erase n (k_nodes k)) k)
         else kmod (λ s, set_ks_dead_nodes (filter (λ m, m ≠ n) (ks_dead_nodes s)) s));
    kfree_node n
  else mret ().

Definition binder_dec_node (n : Z) (strong internal : bool) : KM () :=
  _ ← upd_node n (λ x,
        if strong then
          if internal then set_n_internal_strong_refs (s32 (n_internal_strong_refs x - 1)) x
          else set_n_local_strong_refs (s32 (n_local_strong_refs x - 1)) x
        else if internal then x else set_n_local_weak_refs (s32 (n_local_weak_refs x - 1)) x);
  x ← node_at n;
  if (if strong then truthy (n_local_strong_refs x) || truthy (n_internal_strong_refs x)
      else truthy (n_local_weak_refs x) || negb (bool_decide (n_refs x = [])))
  then mret () else drop_node n.

(** ** References *)

(** The reference of [p] with this descriptor, or 0. *)
Definition binder_get_ref (p desc : Z) : KM Z :=
  k ← proc_at p; key ← kget desc_key; klift (rb_find key desc (k_refs_by_desc k)).

(** The loop that chooses a descriptor, over the references in order. *)
Fixpoint choose_desc (s : kstate) (desc : Z) (rs : list Z) : option Z :=
  match rs with
  | [] => Some desc
  | r :: rs => d ← desc_key s r; if desc <? d then Some desc else choose_desc s (u32 (d + 1)) rs
  end.

Definition binder_get_ref_for_node (p n : Z) : KM Z :=
  k ← proc_at p; key ← kget node_key;
  found ← klift (rb_find key n (k_refs_by_node k));
  if truthy found then mret found
  else
    r ← kzalloc;
    if r =? 0 then mret 0
    else
      t ← klift (rb_link key n r (k_refs_by_node k));
      _ ← upd_proc p (set_k_refs_by_node (rb_insert_color r t));
      mgr ← kget ks_context_mgr_node;
      s ← kget id;
      desc ← klift (choose_desc s (if n =? mgr then 0 else 1) (inorder (k_refs_by_desc k)));
      t ← klift (rb_link (desc_key s) desc r (k_refs_by_desc k));
      _ ← upd_proc p (set_k_refs_by_desc (rb_insert_color r t));
      _ ← kmod (λ s, set_ks_refs (<[r := Ref p n desc 0 0 0]> (ks_refs s)) s);
      _ ← (if truthy n then upd_node n (λ x, set_n_refs (r :: n_refs x) x) else mret ());
      mret r.

Definition binder_delete_ref (r : Z) : KM () :=
  x ← ref_at r;
  _ ← upd_proc (r_proc x) (λ k, set_k_refs_by_desc (rb_erase r (k_refs_by_desc k)) k);
  _ ← upd_proc (r_proc x) (λ k, set_k_refs_by_node (rb_erase r (k_refs_by_node k)) k);
  _ ← (if truthy (r_strong x) then binder_dec_node (r_node x) true true else mret ());
  _ ← upd_node (r_node x) (λ n, set_n_refs (filter (λ m, m ≠ r) (n_refs n)) n);
  _ ← binder_dec_node (r_node x) false true;
  _ ← (if truthy (r_death x) then _ ← list_del_init (W_death (r_death x)); kfree_death (r_death x) else mret ());
  kfree_ref r.

Definition binder_inc_ref (r : Z) (strong : bool) (target_list : option queue) : KM Z :=
  x ← ref_at r;
  if strong then
    ret ← (if r_strong x =? 0 then binder_inc_node (r_node x) true true target_list else mret 0);
    if truthy ret then mret ret else _ ← upd_ref r (λ x, set_r_strong (s32 (r_strong x + 1)) x); mret 0
  else
    ret ← (if r_weak x =? 0 then binder_inc_node (r_node x) false true target_list else mret 0);
    if truthy ret then mret ret else _ ← upd_ref r (λ x, set_r_weak (s32 (r_weak x + 1)) x); mret 0.

(** [binder_dec_node] returns 0 on every path. *)
Definition binder_dec_ref (r : Z) (strong : bool) : KM Z :=
  x ← ref_at r;
  if (if strong then r_strong x else r_weak x) =? 0 then mret (- Errno.EINVAL)
  else
    _ ← (if strong then
           _ ← upd_ref r (λ x, set_r_strong (s32 (r_strong x - 1)) x);
           if s32 (r_strong x - 1) =? 0 then binder_dec_node (r_node x) strong true else mret ()
         else upd_ref r (λ x, set_r_weak (s32 (r_weak x - 1)) x));
    x ← ref_at r;
    _ ← (if (r_strong x =? 0) && (r_weak x =? 0) then binder_delete_ref r else mret ());
    mret 0.

End Refs.
