(* ===== verification/KTrans.v ===== *)
(** * Binder driver: transactions

    Model of [binder_pop_transaction] to [binder_transaction] of
    [patches/kernel/binder.c]: sending a call or a reply to another process, with the objects in
    it translated, and taking back what a failed one did. *)
From stdpp Require Import gmap.
From S2P Require Import Prelude Bio Binder KAlloc KAllocSpec KState KRefs.

Section Trans.
Context `{RbTree} `{Kernel} `{BinderApi}.

(** ** Buffers *)

Definition buffer_at (b : Z * Z) : KM binder_buffer :=
  k ← proc_at b.1; klift (buf_at (p_buffers (k_alloc k)) b.2).

Definition upd_buffer (b : Z * Z) (f : binder_buffer → binder_buffer) : KM () :=
  _ ← buffer_at b;
  upd_proc b.1 (λ k, set_k_alloc (set_buffers (upd_buf f b.2 (p_buffers (k_alloc k))) (k_alloc k)) k).

(** [buffer->transaction = NULL]. *)
Definition detach_buffer (b : Z * Z) : KM () :=
  upd_buffer b (λ x, set_transaction 0 (b_target_node x) (b_allow_user_free x) x).

Definition kalloc_buf (p data_size offsets_size : Z) (is_async : bool) : KM Z :=
  t ← next_tick; k ← proc_at p;
  '(r, a) ← klift (binder_alloc_buf (alloc_env t) (header_garbage t) (k_alloc k) data_size offsets_size is_async);
  _ ← upd_proc p (set_k_alloc a);
  mret (default 0 r).

Definition kfree_buf (b : Z * Z) : KM () :=
  t ← next_tick; k ← proc_at b.1;
  a ← klift (binder_free_buf (alloc_env t) (k_alloc k) b.2);
  upd_proc b.1 (λ k, set_k_data (delete b.2 (k_data k)) (set_k_alloc a k)).

Definition data_at (b : Z * Z) : KM (list Z * list Z) := k ← proc_at b.1; klift (k_data k !! b.2).
Definition put_data (b : Z * Z) (d : list Z * list Z) : KM () :=
  upd_proc b.1 (λ k, set_k_data (<[b.2 := d]> (k_data k)) k).

(** A word of the data of a buffer. *)
Definition load_word (b : Z * Z) (off : Z) : KM Z := d ← data_at b; klift (load32 d.1 off).
Definition store_word (b : Z * Z) (off v : Z) : KM () :=
  d ← data_at b; m ← klift (mem_write d.1 off (le_encode 4 v)); put_data b (m, d.2).

(** ** Files of another process *)

Definition task_get_unused_fd_flags (p : Z) : KM Z :=
  k ← proc_at p; t ← next_tick;
  mret (if k_files k then get_unused_fd t (k_tsk k) else - Errno.ESRCH).

Definition task_fd_install (p fd file : Z) : KM () :=
  k ← proc_at p; if k_files k then kemit (Install_fd (k_tsk k) fd file) else mret ().

Definition task_close_fd (p fd : Z) : KM () :=
  k ← proc_at p; if k_files k then kemit (Close_fd (k_tsk k) fd) else mret ().

(** ** The end of a transaction *)

Definition binder_pop_transaction (target_thread t : Z) : KM () :=
  _ ← (if truthy target_thread then
         th ← thread_at target_thread;
         _ ← kassert (th_transaction_stack th =? t);
         x ← trans_at t;
         _ ← kassert (t_from x =? target_thread);
         _ ← upd_thread target_thread (set_th_transaction_stack (t_from_parent x));
         upd_trans t (set_t_from 0)
       else mret ());
  _ ← upd_trans t (set_t_need_reply false);
  x ← trans_at t;
  _ ← match t_buffer x with Some b => detach_buffer b | None => mret () end;
  kfree_trans t.

(** The loop of [binder_send_failed_reply], over the chain of [from_parent]. *)
Fixpoint send_failed_reply (fuel : nat) (t error_code : Z) : KM () :=
  match fuel with
  | O => kfault
  | S fuel =>
    x ← trans_at t;
    let target := t_from x in
    if truthy target then
      _ ← upd_thread target (λ th,
            if negb (th_return_error th =? BR_OK) && (th_return_error2 th =? BR_OK)
            then set_th_return_error BR_OK (set_th_return_error2 (th_return_error th) th) else th);
      th ← thread_at target;
      if th_return_error th =? BR_OK then
        _ ← binder_pop_transaction target t;
        _ ← upd_thread target (set_th_return_error error_code);
        kemit (Wake_thread target)
      else mret ()
    else
      let next := t_from_parent x in
      _ ← binder_pop_transaction 0 t;
      if next =? 0 then mret () else send_failed_reply fuel next error_code
  end.

Definition binder_send_failed_reply (t error_code : Z) : KM () :=
  x ← trans_at t;
  _ ← kassert (negb (has_flag (t_flags x) TF_ONE_WAY));
  s ← kget id;
  send_failed_reply (size (ks_trans s)) t error_code.

(** ** Objects in a buffer *)

(** An object lies inside the data, at a multiple of four. *)
Definition good_offset (off data_size : Z) : bool :=
  negb ((u32 (data_size - 16) <? off) || (data_size <? 16) || negb (off mod 4 =? 0)).

(** What releasing one object does; [failed] is whether the transaction failed. *)
Definition release_object (p : Z) (b : Z * Z) (failed : bool) (off : Z) : KM () :=
  ty ← load_word b off;
  h ← load_word b (off + 8);
  if (ty =? TYPE_BINDER) || (ty =? TYPE_WEAK_BINDER) then
    n ← binder_get_node p h;
    if n =? 0 then mret () else binder_dec_node n (ty =? TYPE_BINDER) false
  else if (ty =? TYPE_HANDLE) || (ty =? TYPE_WEAK_HANDLE) then
    r ← binder_get_ref p h;
    if r =? 0 then mret () else _ ← binder_dec_ref r (ty =? TYPE_HANDLE); mret ()
  else if ty =? TYPE_FD then
    if failed then task_close_fd p h else mret ()
  else mret ().

Fixpoint release_objects (p : Z) (b : Z * Z) (failed : bool) (data_size : Z) (offs : list Z) : KM () :=
  match offs with
  | [] => mret ()
  | off :: offs =>
    _ ← (if good_offset off data_size then release_object p b failed off else mret ());
    release_objects p b failed data_size offs
  end.

(** [failed_at] is the number of offsets before the one that failed. *)
Definition binder_transaction_buffer_release (p : Z) (b : Z * Z) (failed_at : option nat) : KM () :=
  x ← buffer_at b;
  _ ← (if truthy (b_target_node x) then binder_dec_node (b_target_node x) true false else mret ());
  match failed_at with
  | Some O => mret ()
  | _ =>
    d ← data_at b;
    release_objects p b (bool_decide (failed_at ≠ None)) (b_data_size x)
      (match failed_at with Some i => take i (words d.2) | None => words d.2 end)
  end.

(** ** Sending *)

(** The object at [off] sent from [p] to [target_proc]; the answer is whether it worked.
    [in_reply_to] is 0 for a call, then [target_node] is its target. *)
Definition translate_object (cur : task) (p th target_proc target_node in_reply_to : Z) (b : Z * Z) (off : Z) : KM bool :=
  ty ← load_word b off;
  from ← proc_at p; to ← proc_at target_proc;
  if (ty =? TYPE_BINDER) || (ty =? TYPE_WEAK_BINDER) then
    binder ← load_word b (off + 8); cookie ← load_word b (off + 12); flags ← load_word b (off + 4);
    n ← binder_get_node p binder;
    n ← (if n =? 0 then
           n ← binder_new_node p binder cookie;
           if n =? 0 then mret 0
           else _ ← upd_node n (λ x, set_n_accept_fds (has_flag flags FLAG_ACCEPTS_FDS)
                                       (set_n_min_priority (u8 (flags &&& FLAG_PRIORITY_MASK)) x));
                mret n
         else mret n);
    if n =? 0 then mret false else
    x ← node_at n;
    if negb (cookie =? n_cookie x) then mret false else
    if truthy (security_binder_transfer_binder (k_tsk from) (k_tsk to)) then mret false else
    r ← binder_get_ref_for_node target_proc n;
    if r =? 0 then mret false else
    let strong := ty =? TYPE_BINDER in
    _ ← store_word b off (if strong then TYPE_HANDLE else TYPE_WEAK_HANDLE);
    x ← ref_at r;
    _ ← store_word b (off + 8) (r_desc x);
    _ ← binder_inc_ref r strong (Some (Q_thread th));
    mret true
  else if (ty =? TYPE_HANDLE) || (ty =? TYPE_WEAK_HANDLE) then
    h ← load_word b (off + 8);
    r ← binder_get_ref p h;
    if r =? 0 then mret false else
    if truthy (security_binder_transfer_binder (k_tsk from) (k_tsk to)) then mret false else
    x ← ref_at r;
    n ← node_at (r_node x);
    let strong := ty =? TYPE_HANDLE in
    if n_proc n =? target_proc then
      _ ← store_word b off (if strong then TYPE_BINDER else TYPE_WEAK_BINDER);
      _ ← store_word b (off + 8) (n_ptr n);
      _ ← store_word b (off + 12) (n_cookie n);
      _ ← binder_inc_node (r_node x) strong false None;
      mret true
    else
      r ← binder_get_ref_for_node target_proc (r_node x);
      if r =? 0 then mret false else
      x ← ref_at r;
      _ ← store_word b (off + 8) (r_desc x);
      _ ← binder_inc_ref r strong None;
      mret true
  else if ty =? TYPE_FD then
    h ← load_word b (off + 8);
    allowed ← (if truthy in_reply_to then x ← trans_at in_reply_to; mret (has_flag (t_flags x) TF_ACCEPT_FDS)
               else x ← node_at target_node; mret (n_accept_fds x));
    if negb allowed then mret false else
    t ← next_tick;
    match fget t (tsk_pid cur) h with
    | None => mret false
    | Some file =>
      if security_binder_transfer_file (k_tsk from) (k_tsk to) file <? 0 then mret false else
      fd ← task_get_unused_fd_flags target_proc;
      if fd <? 0 then mret false else
      _ ← task_fd_install target_proc fd file;
      _ ← store_word b (off + 8) fd;
      mret true
    end
  else mret false.

(** The loop over the offsets; the answer is the index of the one that failed. *)
Fixpoint translate_objects (cur : task) (p th target_proc target_node in_reply_to : Z) (b : Z * Z)
    (data_size : Z) (i : nat) (offs : list Z) : KM (option nat) :=
  match offs with
  | [] => mret None
  | off :: offs =>
    if negb (good_offset off data_size) then mret (Some i)
    else
      ok ← translate_object cur p th target_proc target_node in_reply_to b off;
      if (ok : bool) then translate_objects cur p th target_proc target_node in_reply_to b data_size (S i) offs
      else mret (Some i)
  end.

(** Where a transaction goes: the process, the thread (0 for any), the node (0 for a reply)
    and the transaction replied to; or an error with the transaction it concerns and the node, if it was known. *)
Inductive target :=
| T_error (error in_reply_to node : Z)
| T_ok (proc thread node in_reply_to : Z).

Definition reply_target (cur : task) (th : Z) : KM target :=
  x ← thread_at th;
  let in_reply_to := th_transaction_stack x in
  if in_reply_to =? 0 then mret (T_error BR_FAILED_REPLY 0 0) else
  t ← trans_at in_reply_to;
  _ ← binder_set_nice cur (t_saved_priority t);
  if negb (t_to_thread t =? th) then mret (T_error BR_FAILED_REPLY 0 0) else
  _ ← upd_thread th (set_th_transaction_stack (t_to_parent t));
  if t_from t =? 0 then mret (T_error BR_DEAD_REPLY in_reply_to 0) else
  y ← thread_at (t_from t);
  if negb (th_transaction_stack y =? in_reply_to) then mret (T_error BR_FAILED_REPLY 0 0)
  else mret (T_ok (th_proc y) (t_from t) 0 in_reply_to).

(** The loop that looks for a thread of the target that waits for this call chain. *)
Fixpoint waiting_thread (fuel : nat) (target_proc tmp found : Z) : KM Z :=
  if tmp =? 0 then mret found else
  match fuel with
  | O => kfault
  | S fuel =>
    t ← trans_at tmp;
    found ← (if truthy (t_from t) then
               x ← thread_at (t_from t); mret (if th_proc x =? target_proc then t_from t else found)
             else mret found);
    waiting_thread fuel target_proc (t_from_parent t) found
  end.

Definition call_target (p th handle flags : Z) : KM target :=
  mgr ← kget ks_context_mgr_node;
  node ← (if truthy handle then
            r ← binder_get_ref p handle;
            if r =? 0 then mret (inl BR_FAILED_REPLY) else x ← ref_at r; mret (inr (r_node x))
          else if mgr =? 0 then mret (inl BR_DEAD_REPLY) else mret (inr mgr));
  match node with
  | inl e => mret (T_error e 0 0)
  | inr n =>
    x ← node_at n;
    let target_proc := n_proc x in
    if target_proc =? 0 then mret (T_error BR_DEAD_REPLY 0 n) else
    from ← proc_at p; to ← proc_at target_proc;
    if security_binder_transaction (k_tsk from) (k_tsk to) <? 0 then mret (T_error BR_FAILED_REPLY 0 n) else
    y ← thread_at th;
    let tmp := th_transaction_stack y in
    if negb (has_flag flags TF_ONE_WAY) && truthy tmp then
      t ← trans_at tmp;
      if negb (t_to_thread t =? th) then mret (T_error BR_FAILED_REPLY 0 n) else
      s ← kget id;
      found ← waiting_thread (size (ks_trans s)) target_proc tmp 0;
      mret (T_ok target_proc found n 0)
    else mret (T_ok target_proc 0 n 0)
  end.

(** The labels at the end of the function: the error is left for the thread's next read, or sent
    to the caller whose transaction was replied to. *)
Definition fail_transaction (th error in_reply_to : Z) : KM () :=
  x ← thread_at th;
  _ ← kassert (th_return_error x =? BR_OK);
  if truthy in_reply_to then
    _ ← upd_thread th (set_th_return_error BR_TRANSACTION_COMPLETE);
    binder_send_failed_reply in_reply_to error
  else upd_thread th (set_th_return_error error).

(** The transaction's bytes copied in; whether that worked. *)
Definition copy_transaction (cur : task) (b : Z * Z) (tr : binder_txn) : KM bool :=
  t ← next_tick;
  match copy_from_user t (tsk_pid cur) (txn_data tr) (txn_data_size tr) with
  | None => mret false
  | Some data =>
    t ← next_tick;
    match copy_from_user t (tsk_pid cur) (txn_offs tr) (txn_offs_size tr) with
    | None => mret false
    | Some offs => _ ← put_data b (data, offs); mret (txn_offs_size tr mod 4 =? 0)
    end
  end.

(** From the buffer on: the objects translated, or the index at which that failed. *)
Definition fill_buffer (cur : task) (p th target_proc target_node in_reply_to : Z) (b : Z * Z) (tr : binder_txn) :
    KM (option nat) :=
  ok ← copy_transaction cur b tr;
  if (ok : bool) then
    x ← buffer_at b; d ← data_at b;
    translate_objects cur p th target_proc target_node in_reply_to b (b_data_size x) 0 (words d.2)
  else mret (Some O).

(** The transaction put where its target finds it. *)
Definition queue_transaction (th target_proc target_thread target_node in_reply_to t tcomplete : Z) (b : Z * Z)
    (flags : Z) : KM () :=
  x ← buffer_at b;
  let dest := if truthy target_thread then Q_thread target_thread else Q_proc target_proc in
  let wake := if truthy target_thread then Wake_thread target_thread else Wake_proc target_proc in
  '(dest, wake) ←
    (if truthy in_reply_to then
       _ ← kassert (negb (b_async_transaction x));
       _ ← binder_pop_transaction target_thread in_reply_to;
       mret (dest, Some wake)
     else if negb (has_flag flags TF_ONE_WAY) then
       _ ← kassert (negb (b_async_transaction x));
       y ← thread_at th;
       _ ← upd_trans t (λ x, set_t_need_reply true (set_t_from_parent (th_transaction_stack y) x));
       _ ← upd_thread th (set_th_transaction_stack t);
       mret (dest, Some wake)
     else
       n ← node_at target_node;
       _ ← kassert (b_async_transaction x);
       if n_has_async_transaction n then mret (Q_async target_node, None)
       else _ ← upd_node target_node (set_n_has_async_transaction true); mret (dest, Some wake));
  _ ← list_add_tail (W_transaction t) dest;
  _ ← list_add_tail (W_complete tcomplete) (Q_thread th);
  match wake with Some e => kemit e | None => mret () end.

Definition new_transaction (reply : bool) (th target_proc target_thread priority euid : Z) (tr : binder_txn) : struct_transaction :=
  Trans (if negb reply && negb (has_flag (txn_flags tr) TF_ONE_WAY) then th else 0) 0 target_proc target_thread 0 false
    None (txn_code tr) (txn_flags tr) priority 0 euid None.

(** What the log of transactions is told of one: its node (0 if unknown), the numbers of the thread and the process it is for and
    the transaction itself once these are known, and whether it failed. *)
Record course := Course {
  co_to_node : Z; co_to_thread : option Z; co_to_proc : option Z; co_transaction : option Z; co_failed : bool }.

(** The failing ends of the function. *)
Definition failing (th error in_reply_to : Z) (c : course) : KM course :=
  _ ← fail_transaction th error in_reply_to;
  mret (Course (co_to_node c) (co_to_thread c) (co_to_proc c) (co_transaction c) true).

Definition transaction_course (cur : task) (p th : Z) (tr : binder_txn) (reply : bool) : KM course :=
  tgt ← (if reply then reply_target cur th else call_target p th (txn_target tr) (txn_flags tr));
  match tgt with
  | T_error e r n => failing th e r (Course n None None None true)
  | T_ok target_proc target_thread target_node in_reply_to =>
    to_thread ← (if truthy target_thread then x ← thread_at target_thread; mret (Some (th_pid x)) else mret None);
    to ← proc_at target_proc;
    let targeted := Course target_node to_thread (Some (k_pid to)) None false in
    t ← kzalloc;
    if t =? 0 then failing th BR_FAILED_REPLY in_reply_to targeted else
    nice ← task_nice cur;
    from ← proc_at p;
    _ ← kmod (λ s, set_ks_trans (<[t := new_transaction reply th target_proc target_thread nice (task_euid (k_tsk from)) tr]> (ks_trans s)) s);
    w ← kzalloc;
    if w =? 0 then _ ← kfree_trans t; failing th BR_FAILED_REPLY in_reply_to targeted else
    _ ← kmod (λ s, set_ks_completes (<[w := None]> (ks_completes s)) s);
    let numbered := Course target_node to_thread (Some (k_pid to)) (Some t) false in
    buf ← kalloc_buf target_proc (txn_data_size tr) (txn_offs_size tr) (negb reply && has_flag (txn_flags tr) TF_ONE_WAY);
    if buf =? 0 then
      _ ← kfree_complete w; _ ← kfree_trans t; failing th BR_FAILED_REPLY in_reply_to numbered
    else
      let b := (target_proc, buf) in
      _ ← upd_trans t (set_t_buffer (Some b));
      _ ← upd_buffer b (set_transaction t target_node false);
      _ ← (if truthy target_node then _ ← binder_inc_node target_node true false None; mret () else mret ());
      failed ← fill_buffer cur p th target_proc target_node in_reply_to b tr;
      match failed with
      | None => _ ← queue_transaction th target_proc target_thread target_node in_reply_to t w b (txn_flags tr); mret numbered
      | Some i =>
        _ ← binder_transaction_buffer_release target_proc b (Some i);
        _ ← detach_buffer b;
        _ ← kfree_buf b;
        _ ← kfree_complete w; _ ← kfree_trans t;
        failing th BR_FAILED_REPLY in_reply_to numbered
      end
  end.

Definition binder_transaction (cur : task) (p th : Z) (tr : binder_txn) (reply : bool) : KM () :=
  _ ← transaction_course cur p th tr reply; mret ().

End Trans.
