(* ===== verification/KWrite.v ===== *)
(** * Binder driver: the commands a thread writes

    Model of [binder_thread_write] of [patches/kernel/binder.c].  A command is fetched
    from user memory as a whole before it is carried out, as every case of the
    switch does; a position in the user's buffer is an offset from its start. *)
From stdpp Require Import gmap.
From S2P Require Import Prelude Bio Binder KAlloc KAllocSpec KState KRefs KTrans.

(** The commands with their arguments. *)
Inductive command :=
| Cmd_ref (incr strong : bool) (desc : Z)
| Cmd_done (strong : bool) (ptr cookie : Z)
| Cmd_unsupported
| Cmd_free_buffer (ptr : Z)
| Cmd_transaction (reply : bool) (tr : binder_txn)
| Cmd_register_looper
| Cmd_enter_looper
| Cmd_exit_looper
| Cmd_death (request : bool) (desc cookie : Z)
| Cmd_dead_binder_done (cookie : Z)
| Cmd_unknown.

Section Write.
Context `{RbTree} `{Kernel} `{BinderApi}.

(** ** Fetching *)

(** [n] words of the calling thread's memory. *)
Definition get_user_words (cur : task) (addr : Z) (n : Z) : KM (option (list Z)) :=
  t ← next_tick;
  mret (bs ← copy_from_user t (tsk_pid cur) addr (4 * n); Some (words bs)).

(** How many words follow a command, and the command with them. *)
Definition shape_of (cmd : Z) : Z * (list Z → option command) :=
  let one f := (1, λ ws, match ws with [a] => Some (f a) | _ => None end) in
  let two f := (2, λ ws, match ws with [a; b] => Some (f a b) | _ => None end) in
  let zero c := (0, λ _ : list Z, Some c) in
  if cmd =? BC_INCREFS then one (Cmd_ref true false)
  else if cmd =? BC_ACQUIRE then one (Cmd_ref true true)
  else if cmd =? BC_RELEASE then one (Cmd_ref false true)
  else if cmd =? BC_DECREFS then one (Cmd_ref false false)
  else if cmd =? BC_INCREFS_DONE then two (Cmd_done false)
  else if cmd =? BC_ACQUIRE_DONE then two (Cmd_done true)
  else if (cmd =? BC_ATTEMPT_ACQUIRE) || (cmd =? BC_ACQUIRE_RESULT) then zero Cmd_unsupported
  else if cmd =? BC_FREE_BUFFER then one Cmd_free_buffer
  else if (cmd =? BC_TRANSACTION) || (cmd =? BC_REPLY) then
    (10, λ ws, tr ← txn_at ws 0; Some (Cmd_transaction (cmd =? BC_REPLY) tr))
  else if cmd =? BC_REGISTER_LOOPER then zero Cmd_register_looper
  else if cmd =? BC_ENTER_LOOPER then zero Cmd_enter_looper
  else if cmd =? BC_EXIT_LOOPER then zero Cmd_exit_looper
  else if cmd =? BC_REQUEST_DEATH_NOTIFICATION then two (Cmd_death true)
  else if cmd =? BC_CLEAR_DEATH_NOTIFICATION then two (Cmd_death false)
  else if cmd =? BC_DEAD_BINDER_DONE then one Cmd_dead_binder_done
  else zero Cmd_unknown.

(** The command at an address and the bytes it takes, or [None] for a bad address. *)
Definition fetch_command (cur : task) (addr : Z) : KM (option (command * Z)) :=
  w ← get_user_words cur addr 1;
  match w with
  | Some [cmd] =>
    let '(n, build) := shape_of cmd in
    if n =? 0 then mret (c ← build []; Some (c, 4))
    else
      ws ← get_user_words cur (addr + 4) n;
      mret (ws ← ws; c ← build ws; Some (c, 4 + 4 * n))
  | _ => mret None
  end.

(** ** Carrying out *)

Definition do_ref (p : Z) (incr strong : bool) (desc : Z) : KM () :=
  mgr ← kget ks_context_mgr_node;
  r ← (if (desc =? 0) && truthy mgr && incr then
         r ← binder_get_ref_for_node p mgr; _ ← ref_at r; mret r
       else binder_get_ref p desc);
  if r =? 0 then mret ()
  else _ ← (if incr then binder_inc_ref r strong None else binder_dec_ref r strong); mret ().

Definition do_done (p : Z) (strong : bool) (ptr cookie : Z) : KM () :=
  n ← binder_get_node p ptr;
  if n =? 0 then mret () else
  x ← node_at n;
  if negb (cookie =? n_cookie x) then mret () else
  if strong then
    if negb (n_pending_strong_ref x) then mret ()
    else _ ← upd_node n (set_n_pending_strong_ref false); binder_dec_node n true false
  else
    if negb (n_pending_weak_ref x) then mret ()
    else _ ← upd_node n (set_n_pending_weak_ref false); binder_dec_node n false false.

(** The next asynchronous transaction of a node is moved to the thread. *)
Definition next_async (th n : Z) : KM () :=
  x ← node_at n;
  _ ← kassert (n_has_async_transaction x);
  match n_async_todo x with
  | [] => upd_node n (set_n_has_async_transaction false)
  | w :: _ => _ ← list_del_init w; list_add_tail w (Q_thread th)
  end.

Definition do_free_buffer (p th ptr : Z) : KM () :=
  k ← proc_at p;
  found ← klift (binder_buffer_lookup (k_alloc k) ptr);
  match found with
  | None => mret ()
  | Some x =>
    let b := (p, x) in
    y ← buffer_at b;
    if negb (b_allow_user_free y) then mret () else
    _ ← (if truthy (b_transaction y) then
           _ ← upd_trans (b_transaction y) (set_t_buffer None); detach_buffer b
         else mret ());
    _ ← (if b_async_transaction y && truthy (b_target_node y) then next_async th (b_target_node y) else mret ());
    _ ← binder_transaction_buffer_release p b None;
    kfree_buf b
  end.

(** Work for this thread if it is a looper, else for its process. *)
Definition queue_death (p th d : Z) : KM () :=
  x ← thread_at th;
  if has_flag (th_looper x) (LOOPER_REGISTERED ||| LOOPER_ENTERED) then list_add_tail (W_death d) (Q_thread th)
  else _ ← list_add_tail (W_death d) (Q_proc p); kemit (Wake_proc p).

Definition do_request_death (p th r cookie : Z) : KM () :=
  x ← ref_at r;
  if truthy (r_death x) then mret () else
  d ← kzalloc;
  if d =? 0 then upd_thread th (set_th_return_error BR_ERROR) else
  _ ← kmod (λ s, set_ks_deaths (<[d := Death Death_unset cookie None]> (ks_deaths s)) s);
  _ ← upd_ref r (set_r_death d);
  n ← node_at (r_node x);
  if n_proc n =? 0 then _ ← upd_death d (set_d_type DEAD_BINDER); queue_death p th d else mret ().

Definition do_clear_death (p th r cookie : Z) : KM () :=
  x ← ref_at r;
  if r_death x =? 0 then mret () else
  let d := r_death x in
  y ← death_at d;
  if negb (d_cookie y =? cookie) then mret () else
  _ ← upd_ref r (set_r_death 0);
  unlinked ← entry_unlinked (W_death d);
  if (unlinked : bool) then _ ← upd_death d (set_d_type CLEAR_DEATH_NOTIFICATION); queue_death p th d
  else
    _ ← kassert (bool_decide (d_type y = DEAD_BINDER));
    upd_death d (set_d_type DEAD_BINDER_AND_CLEAR).

(** The first delivered notification with this cookie, or 0. *)
Fixpoint find_delivered (s : kstate) (cookie : Z) (l : list binder_work) : option Z :=
  match l with
  | [] => Some 0
  | W_death d :: l => x ← ks_deaths s !! d; if d_cookie x =? cookie then Some d else find_delivered s cookie l
  | _ :: _ => None
  end.

Definition do_dead_binder_done (p th cookie : Z) : KM () :=
  k ← proc_at p; s ← kget id;
  d ← klift (find_delivered s cookie (k_delivered_death k));
  if d =? 0 then mret () else
  _ ← list_del_init (W_death d);
  x ← death_at d;
  if bool_decide (d_type x = DEAD_BINDER_AND_CLEAR) then
    _ ← upd_death d (set_d_type CLEAR_DEATH_NOTIFICATION); queue_death p th d
  else mret ().

Definition or_looper (th bits : Z) : KM () := upd_thread th (λ x, set_th_looper (th_looper x ||| bits) x).

Definition do_register_looper (p th : Z) : KM () :=
  x ← thread_at th; k ← proc_at p;
  _ ← (if has_flag (th_looper x) LOOPER_ENTERED then or_looper th LOOPER_INVALID
       else if k_requested_threads k =? 0 then or_looper th LOOPER_INVALID
       else upd_proc p (λ k, set_k_requested_threads (k_requested_threads k - 1)
                               (set_k_requested_threads_started (k_requested_threads_started k + 1) k)));
  or_looper th LOOPER_REGISTERED.

Definition do_enter_looper (th : Z) : KM () :=
  x ← thread_at th;
  _ ← (if has_flag (th_looper x) LOOPER_REGISTERED then or_looper th LOOPER_INVALID else mret ());
  or_looper th LOOPER_ENTERED.

(** One round of the switch; the value is negative if the function returns it. *)
Definition do_command (cur : task) (p th : Z) (c : command) : KM Z :=
  match c with
  | Cmd_ref incr strong desc => _ ← do_ref p incr strong desc; mret 0
  | Cmd_done strong ptr cookie => _ ← do_done p strong ptr cookie; mret 0
  | Cmd_unsupported | Cmd_unknown => mret (- Errno.EINVAL)
  | Cmd_free_buffer ptr => _ ← do_free_buffer p th ptr; mret 0
  | Cmd_transaction reply tr => _ ← binder_transaction cur p th tr reply; mret 0
  | Cmd_register_looper => _ ← do_register_looper p th; mret 0
  | Cmd_enter_looper => _ ← do_enter_looper th; mret 0
  | Cmd_exit_looper => _ ← or_looper th LOOPER_EXITED; mret 0
  | Cmd_death request desc cookie =>
    r ← binder_get_ref p desc;
    _ ← (if r =? 0 then mret () else if request then do_request_death p th r cookie else do_clear_death p th r cookie);
    mret 0
  | Cmd_dead_binder_done cookie => _ ← do_dead_binder_done p th cookie; mret 0
  end.

(** The loop; each round consumes at least four bytes.  The values are the result and [*consumed]. *)
Fixpoint write_loop (fuel : nat) (cur : task) (p th buffer size consumed : Z) : KM (Z * Z) :=
  x ← thread_at th;
  if (consumed <? size) && (th_return_error x =? BR_OK) then
    match fuel with
    | O => kfault
    | S fuel =>
      c ← fetch_command cur (buffer + consumed);
      match c with
      | None => mret (- Errno.EFAULT, consumed)
      | Some (c, n) =>
        ret ← do_command cur p th c;
        if ret <? 0 then mret (ret, consumed) else write_loop fuel cur p th buffer size (consumed + n)
      end
    end
  else mret (0, consumed).

Definition binder_thread_write (cur : task) (p th buffer size consumed : Z) : KM (Z * Z) :=
  write_loop (Z.to_nat (size - consumed)) cur p th buffer size consumed.

End Write.
