(* ===== verification/KRead.v ===== *)
(** * Binder driver: what a thread reads

    Model of [binder_thread_read] of [patches/kernel/binder.c].  The user's buffer is a block of
    [size] bytes and a position in it an offset; a store outside the block is a fault of the
    model.  While the thread waits the lock is released: what the other threads do then
    is an argument. *)
From stdpp Require Import gmap.
From S2P Require Import Prelude Bio Binder KAlloc KAllocSpec KState KRefs KTrans KWrite.

(** How a read ends: the thread still sleeps, or the result, [*consumed] and
    the user's buffer. *)
Inductive read_result :=
| Read_blocked
| Read_done (ret consumed : Z) (m : list Z).

(** How a stretch of the function ends: at [done], with a value returned, or at [retry]; [Step_fuel] is no end of the
    function, it says that the rounds granted to the loop are used up. *)
Inductive read_step :=
| Step_done (ptr : Z) (m : list Z)
| Step_return (ret : Z) (m : list Z)
| Step_retry
| Step_fuel.

(** What happens outside while the thread waits the [i]th time: the other threads, and whether a signal ends the wait. *)
Record waiting := Waiting { w_others : nat → KM (); w_signal : nat → bool }.

Definition ERESTARTSYS : Z := 512.

Section Read.
Context `{RbTree} `{Kernel} `{BinderApi}.
Variable task_tgid : Z → Z.
Variables (cur : task) (p th : Z) (writable : Z → Z → bool) (size : Z).

Definition binder_has_proc_work : KM bool :=
  k ← proc_at p; x ← thread_at th;
  mret (negb (bool_decide (k_todo k = [])) || has_flag (th_looper x) LOOPER_NEED_RETURN).

Definition binder_has_thread_work : KM bool :=
  x ← thread_at th;
  mret (negb (bool_decide (th_todo x = [])) || negb (th_return_error x =? BR_OK) ||
        has_flag (th_looper x) LOOPER_NEED_RETURN).

(** Words stored from [ptr] on, one [put_user] each; whether all could be stored. *)
Fixpoint put_words (m : list Z) (ptr : Z) (ws : list Z) : KM (bool * list Z) :=
  match ws with
  | [] => mret (true, m)
  | w :: ws =>
    if writable ptr 4 then m ← klift (mem_write m ptr (le_encode 4 w)); put_words m (ptr + 4) ws
    else mret (false, m)
  end.

(** A command with its words; [k] goes on behind them. *)
Definition put_cmd (m : list Z) (ptr : Z) (ws : list Z) (k : list Z → Z → KM read_step) : KM read_step :=
  '(ok, m) ← put_words m ptr ws;
  if (ok : bool) then k m (ptr + 4 * zlen ws) else mret (Step_return (- Errno.EFAULT) m).

(** ** Work items *)

(** The command a node's counts ask for, if any, with the node's state behind it. *)
Definition node_command (x : binder_node) : option (Z * binder_node) :=
  let strong := truthy (n_internal_strong_refs x) || truthy (n_local_strong_refs x) in
  let weak := negb (bool_decide (n_refs x = [])) || truthy (n_local_weak_refs x) || strong in
  if weak && negb (n_has_weak_ref x) then
    Some (BR_INCREFS, set_n_has_weak_ref true (set_n_pending_weak_ref true
                        (set_n_local_weak_refs (s32 (n_local_weak_refs x + 1)) x)))
  else if strong && negb (n_has_strong_ref x) then
    Some (BR_ACQUIRE, set_n_has_strong_ref true (set_n_pending_strong_ref true
                        (set_n_local_strong_refs (s32 (n_local_strong_refs x + 1)) x)))
  else if negb strong && n_has_strong_ref x then Some (BR_RELEASE, set_n_has_strong_ref false x)
  else if negb weak && n_has_weak_ref x then Some (BR_DECREFS, set_n_has_weak_ref false x)
  else None.

Definition node_unused (x : binder_node) : bool :=
  bool_decide (n_refs x = []) && negb (truthy (n_local_weak_refs x)) &&
  negb (truthy (n_internal_strong_refs x)) && negb (truthy (n_local_strong_refs x)).

Definition read_node (n : Z) (m : list Z) (ptr : Z) (k : list Z → Z → KM read_step) : KM read_step :=
  x ← node_at n;
  match node_command x with
  | Some (cmd, x') => _ ← upd_node n (λ _, x'); put_cmd m ptr [cmd; n_ptr x; n_cookie x] k
  | None =>
    _ ← list_del_init (W_node n);
    _ ← (if node_unused x then
           _ ← upd_proc p (λ q, set_k_nodes (rb_erase n (k_nodes q)) q); kfree_node n
         else mret ());
    k m ptr
  end.

Definition read_death (d : Z) (m : list Z) (ptr : Z) (k : list Z → Z → KM read_step) : KM read_step :=
  x ← death_at d;
  if bool_decide (d_type x = CLEAR_DEATH_NOTIFICATION) then
    put_cmd m ptr [BR_CLEAR_DEATH_NOTIFICATION_DONE; d_cookie x] (λ m ptr,
      _ ← list_del_init (W_death d); _ ← kfree_death d; k m ptr)
  else
    put_cmd m ptr [BR_DEAD_BINDER; d_cookie x] (λ m ptr,
      _ ← list_del_init (W_death d); _ ← list_add (W_death d) (Q_delivered p); mret (Step_done ptr m)).

(** The priority a call is served with. *)
Definition adopt_priority (t : Z) (n : binder_node) : KM () :=
  saved ← task_nice cur;
  _ ← upd_trans t (set_t_saved_priority saved);
  x ← trans_at t;
  let one_way := has_flag (t_flags x) TF_ONE_WAY in
  if (t_priority x <? n_min_priority n) && negb one_way then binder_set_nice cur (t_priority x)
  else if negb one_way || (n_min_priority n <? saved) then binder_set_nice cur (n_min_priority n)
  else mret ().

(** The [struct binder_transaction_data] of a transaction. *)
Definition transaction_words (target cookie : Z) (x : struct_transaction) (b : binder_buffer) (sender_pid off : Z) : list Z :=
  let data := u32 (b_data b + off) in
  [target; cookie; t_code x; t_flags x; sender_pid; t_sender_euid x; b_data_size b; b_offsets_size b; data;
   u32 (data + ALIGN4 (b_data_size b))].

Definition sender_pid (from : Z) : KM Z :=
  if truthy from then y ← thread_at from; k ← proc_at (th_proc y); mret (task_tgid (k_tsk k)) else mret 0.

(** A call or a reply, the last work of a read. *)
Definition read_transaction (t : Z) (m : list Z) (ptr : Z) : KM read_step :=
  x ← trans_at t;
  b ← klift (t_buffer x);
  y ← buffer_at b;
  '(cmd, target, cookie) ←
    (if truthy (b_target_node y) then
       n ← node_at (b_target_node y); _ ← adopt_priority t n; mret (BR_TRANSACTION, n_ptr n, n_cookie n)
     else mret (BR_REPLY, 0, 0));
  pid ← sender_pid (t_from x);
  k ← proc_at p;
  put_cmd m ptr (cmd :: transaction_words target cookie x y pid (p_user_buffer_offset (k_alloc k))) (λ m ptr,
    _ ← list_del_init (W_transaction t);
    _ ← upd_buffer b (λ z, set_transaction (b_transaction z) (b_target_node z) true z);
    _ ← (if truthy (b_target_node y) && negb (has_flag (t_flags x) TF_ONE_WAY) then
           h ← thread_at th;
           _ ← upd_trans t (λ x, set_t_to_thread th (set_t_to_parent (th_transaction_stack h) x));
           upd_thread th (set_th_transaction_stack t)
         else _ ← detach_buffer b; kfree_trans t);
    mret (Step_done ptr m)).

(** ** The loop over the work *)

(** Whether there is work for this round: the thread's own first. *)
Definition next_work (wait_for_proc_work : bool) : KM (option binder_work) :=
  x ← thread_at th; k ← proc_at p;
  match th_todo x with
  | w :: _ => mret (Some w)
  | [] => mret (if wait_for_proc_work then head (k_todo k) else None)
  end.

Fixpoint read_loop (fuel : nat) (wait_for_proc_work : bool) (m : list Z) (ptr : Z) : KM read_step :=
  match fuel with
  | O => mret Step_fuel
  | S fuel =>
    w ← next_work wait_for_proc_work;
    match w with
    | None =>
      x ← thread_at th;
      if (ptr =? 0) && negb (has_flag (th_looper x) LOOPER_NEED_RETURN) then mret Step_retry
      else mret (Step_done ptr m)
    | Some w =>
      if u32 (size - ptr) <? 44 then mret (Step_done ptr m)
      else
        match w with
        | W_transaction t => read_transaction t m ptr
        | W_complete c =>
          put_cmd m ptr [BR_TRANSACTION_COMPLETE] (λ m ptr,
            _ ← list_del_init (W_complete c); _ ← kfree_complete c; read_loop fuel wait_for_proc_work m ptr)
        | W_node n => read_node n m ptr (read_loop fuel wait_for_proc_work)
        | W_death d => read_death d m ptr (read_loop fuel wait_for_proc_work)
        end
    end
  end.

(** Enough rounds: each stores a word or takes an item off a list. *)
Definition read_fuel (s : kstate) : nat :=
  (Z.to_nat size + match ks_threads s !! th with Some x => length (th_todo x) | None => 0 end
                 + match ks_procs s !! p with Some x => length (k_todo x) | None => 0 end + 1)%nat.

(** ** The function *)

(** An error left by an earlier write, if there is one and room for it. *)
Definition read_errors (m : list Z) (ptr : Z) : KM (option read_step) :=
  x ← thread_at th;
  if negb (th_return_error x =? BR_OK) && (ptr <? size) then
    s ← (if negb (th_return_error2 x =? BR_OK) then
           put_cmd m ptr [th_return_error2 x] (λ m ptr,
             if ptr =? size then mret (Step_done ptr m)
             else
               _ ← upd_thread th (set_th_return_error2 BR_OK);
               put_cmd m ptr [th_return_error x] (λ m ptr,
                 _ ← upd_thread th (set_th_return_error BR_OK); mret (Step_done ptr m)))
         else
           put_cmd m ptr [th_return_error x] (λ m ptr,
             _ ← upd_thread th (set_th_return_error BR_OK); mret (Step_done ptr m)));
    mret (Some s)
  else mret None.

(** Waiting for work, with the lock released; [None] while the thread sleeps. *)
Definition wait_for_work (i : nat) (env : waiting) (wait_for_proc_work non_block : bool) : KM (option Z) :=
  k ← proc_at p;
  _ ← (if wait_for_proc_work then binder_set_nice cur (k_default_priority k) else mret ());
  _ ← w_others env i;
  work ← (if wait_for_proc_work then binder_has_proc_work else binder_has_thread_work);
  mret (if (work : bool) then Some 0
        else if non_block then Some (- Errno.EAGAIN)
        else if w_signal env i then Some (- ERESTARTSYS) else None).

(** From [retry] to the end of the loop, the [i]th time. *)
Definition read_round (i : nat) (env : waiting) (non_block : bool) (m : list Z) (ptr : Z) : KM (option read_step) :=
  x ← thread_at th;
  let wait_for_proc_work := (th_transaction_stack x =? 0) && bool_decide (th_todo x = []) in
  e ← read_errors m ptr;
  match e with
  | Some s => mret (Some s)
  | None =>
    _ ← or_looper th LOOPER_WAITING;
    _ ← (if wait_for_proc_work then upd_proc p (λ k, set_k_ready_threads (k_ready_threads k + 1) k) else mret ());
    ret ← wait_for_work i env wait_for_proc_work non_block;
    match ret with
    | None => mret None
    | Some ret =>
      _ ← (if wait_for_proc_work then upd_proc p (λ k, set_k_ready_threads (k_ready_threads k - 1) k) else mret ());
      _ ← upd_thread th (λ x, set_th_looper (th_looper x &&& Z.lnot LOOPER_WAITING) x);
      if truthy ret then mret (Some (Step_return ret m))
      else f ← kget read_fuel; s ← read_loop f wait_for_proc_work m ptr; mret (Some s)
    end
  end.

(** The label [done]: a thread more is asked for by storing to the first word. *)
Definition read_finish (ptr : Z) (m : list Z) : KM read_result :=
  k ← proc_at p; x ← thread_at th;
  if (k_requested_threads k + k_ready_threads k =? 0) && (k_requested_threads_started k <? k_max_threads k) &&
     has_flag (th_looper x) (LOOPER_REGISTERED ||| LOOPER_ENTERED) then
    _ ← upd_proc p (λ k, set_k_requested_threads (k_requested_threads k + 1) k);
    '(ok, m) ← put_words m 0 [BR_SPAWN_LOOPER];
    mret (Read_done (if (ok : bool) then 0 else - Errno.EFAULT) ptr m)
  else mret (Read_done 0 ptr m).

(** At most [retries] times back to [retry]. *)
Fixpoint read_from (retries i : nat) (env : waiting) (non_block : bool) (m : list Z) (consumed : Z) : KM read_result :=
  s ← read_round i env non_block m consumed;
  match s with
  | None => mret Read_blocked
  | Some (Step_done ptr m) => read_finish ptr m
  | Some (Step_return ret m) => mret (Read_done ret consumed m)
  | Some Step_fuel => kfault
  | Some Step_retry =>
    match retries with
    | O => mret Read_blocked
    | S retries => read_from retries (S i) env non_block m consumed
    end
  end.

Definition binder_thread_read (retries : nat) (env : waiting) (non_block : bool) (m : list Z) (consumed : Z) : KM read_result :=
  read_from retries 0 env non_block m consumed.

End Read.
