(* ===== verification/KProc.v ===== *)
(** * Binder driver: threads, system calls and the end of a process

    Model of [binder_release_work] to [binder_defer_work] of
    [patches/kernel/binder.c]: finding the calling thread, [poll] and [ioctl], opening and mapping,
    and the deferred work that takes a process apart. *)
From stdpp Require Import gmap.
From S2P Require Import Prelude Bio Binder KAlloc KAllocSpec KState KRefs KTrans KWrite KRead.

Definition DEFERRED_PUT_FILES : Z := 1.
Definition DEFERRED_FLUSH : Z := 2.
Definition DEFERRED_RELEASE : Z := 4.

(** [struct binder_write_read]. *)
Record write_read := WriteRead {
  write_size : Z; write_consumed : Z; write_buffer : Z; read_size : Z; read_consumed : Z; read_buffer : Z }.

Inductive ioctl_cmd := Io_write_read | Io_set_max_threads | Io_set_context_mgr | Io_thread_exit | Io_version | Io_other.

(** How an [ioctl] ends: it sleeps in a read, or its value, what is copied back and the read buffer. *)
Inductive ioctl_result :=
| Io_blocked
| Io_done (ret : Z) (bwr : option write_read) (m : list Z).

(** [rb_first]. *)
Fixpoint rb_first (t : rb_tree) : Z :=
  match t with
  | rb_null => 0
  | rb_node rb_null x _ => x
  | rb_node l _ _ => rb_first l
  end.

Section Procs.
Context `{RbTree} `{Kernel} `{BinderApi}.
Variable task_tgid : Z → Z.

(** ** Work that is not delivered *)

Definition release_item (w : binder_work) : KM () :=
  match w with
  | W_transaction t =>
    x ← trans_at t;
    b ← klift (t_buffer x);
    y ← buffer_at b;
    if truthy (b_target_node y) && negb (has_flag (t_flags x) TF_ONE_WAY) then binder_send_failed_reply t BR_DEAD_REPLY
    else _ ← detach_buffer b; kfree_trans t
  | W_complete c => kfree_complete c
  | W_death d =>
    x ← death_at d;
    if bool_decide (d_type x = DEAD_BINDER_AND_CLEAR) || bool_decide (d_type x = CLEAR_DEATH_NOTIFICATION)
    then kfree_death d else mret ()
  | W_node _ => mret ()
  end.

Fixpoint release_work (fuel : nat) (q : queue) : KM () :=
  h ← queue_head q;
  match h with
  | None => mret ()
  | Some w =>
    match fuel with
    | O => kfault
    | S fuel => _ ← list_del_init w; _ ← release_item w; release_work fuel q
    end
  end.

Definition binder_release_work (q : queue) : KM () := l ← queue_get q; release_work (length l) q.

(** ** Threads *)

(** The calling thread's structure, made on its first call; 0 without memory. *)
Definition binder_get_thread (cur : task) (p : Z) : KM Z :=
  k ← proc_at p; key ← kget pid_key;
  found ← klift (rb_find key (tsk_pid cur) (k_threads k));
  if truthy found then mret found
  else
    th ← kzalloc;
    if th =? 0 then mret 0
    else
      t ← klift (rb_link key (tsk_pid cur) th (k_threads k));
      _ ← upd_proc p (set_k_threads (rb_insert_color th t));
      _ ← kmod (λ s, set_ks_threads (<[th := Thread p (tsk_pid cur) LOOPER_NEED_RETURN 0 [] BR_OK BR_OK]> (ks_threads s)) s);
      mret th.

(** The loop over the transactions a thread takes part in. *)
Fixpoint leave_transactions (fuel : nat) (th t : Z) (active : Z) : KM Z :=
  if t =? 0 then mret active else
  match fuel with
  | O => kfault
  | S fuel =>
    x ← trans_at t;
    if t_to_thread x =? th then
      _ ← upd_trans t (λ x, set_t_to_proc 0 (set_t_to_thread 0 x));
      _ ← match t_buffer x with
          | Some b => _ ← detach_buffer b; upd_trans t (set_t_buffer None)
          | None => mret ()
          end;
      leave_transactions fuel th (t_to_parent x) (active + 1)
    else if t_from x =? th then
      _ ← upd_trans t (set_t_from 0); leave_transactions fuel th (t_from_parent x) (active + 1)
    else kfault
  end.

Definition binder_free_thread (p th : Z) : KM Z :=
  _ ← upd_proc p (λ k, set_k_threads (rb_erase th (k_threads k)) k);
  x ← thread_at th;
  let t := th_transaction_stack x in
  send_reply ← (if truthy t then y ← trans_at t; mret (if t_to_thread y =? th then t else 0) else mret 0);
  s ← kget id;
  active ← leave_transactions (size (ks_trans s)) th t 0;
  _ ← (if truthy send_reply then binder_send_failed_reply send_reply BR_DEAD_REPLY else mret ());
  _ ← binder_release_work (Q_thread th);
  _ ← kfree_thread th;
  mret active.

(** Whether [poll] reports input; a second look follows once the caller is on the wait queue. *)
Definition binder_poll (cur : task) (p : Z) (others : KM ()) : KM bool :=
  th ← binder_get_thread cur p;
  x ← thread_at th;
  let wait_for_proc_work :=
    (th_transaction_stack x =? 0) && bool_decide (th_todo x = []) && (th_return_error x =? BR_OK) in
  let work := if wait_for_proc_work then binder_has_proc_work p th else binder_has_thread_work th in
  w ← work;
  if (w : bool) then mret true else _ ← others; work.

(** ** The [ioctl]s *)

Definition bwr_of (ws : list Z) : option write_read :=
  match ws with
  | [a; b; c; d; e; f] => Some (WriteRead a b c d e f)
  | _ => None
  end.

(** [out_ok] is whether the structure can be copied back; [m] is the user's read buffer. *)
Definition binder_ioctl_write_read (cur : task) (p th arg : Z) (retries : nat) (env : waiting) (non_block out_ok : bool)
    (writable : Z → Z → bool) (m : list Z) : KM ioctl_result :=
  ws ← get_user_words cur arg 6;
  match ws ← ws; bwr_of ws with
  | None => mret (Io_done (- Errno.EFAULT) None m)
  | Some bwr =>
    let back ret (b : write_read) m := if out_ok then Io_done ret (Some b) m else Io_done (- Errno.EFAULT) None m in
    '(ret, wc) ← (if 0 <? write_size bwr
                  then binder_thread_write cur p th (write_buffer bwr) (write_size bwr) (write_consumed bwr)
                  else mret (0, write_consumed bwr));
    if ret <? 0 then
      mret (back ret (WriteRead (write_size bwr) wc (write_buffer bwr) (read_size bwr) 0 (read_buffer bwr)) m)
    else
      let bwr := WriteRead (write_size bwr) wc (write_buffer bwr) (read_size bwr) (read_consumed bwr) (read_buffer bwr) in
      if 0 <? read_size bwr then
        r ← binder_thread_read task_tgid cur p th writable (read_size bwr) retries env non_block m (read_consumed bwr);
        match r with
        | Read_blocked => mret Io_blocked
        | Read_done ret rc m =>
          k ← proc_at p;
          _ ← (if bool_decide (k_todo k = []) then mret () else kemit (Wake_proc p));
          mret (back (if ret <? 0 then ret else 0)
                  (WriteRead (write_size bwr) wc (write_buffer bwr) (read_size bwr) rc (read_buffer bwr)) m)
        end
      else mret (back 0 bwr m)
  end.

Definition binder_ioctl_set_ctx_mgr (cur : task) (p : Z) : KM Z :=
  mgr ← kget ks_context_mgr_node;
  if truthy mgr then mret (- Errno.EBUSY) else
  k ← proc_at p;
  let ret := security_binder_set_context_mgr (k_tsk k) in
  if ret <? 0 then mret ret else
  uid ← kget ks_context_mgr_uid;
  if (match uid with Some u => negb (u =? tsk_euid cur) | None => false end) then mret (- Errno.EPERM) else
  _ ← kmod (set_ks_context_mgr_uid (Some (tsk_euid cur)));
  n ← binder_new_node p 0 0;
  _ ← kmod (set_ks_context_mgr_node n);
  if n =? 0 then mret (- Errno.ENOMEM) else
  _ ← upd_node n (λ x, set_n_has_weak_ref true (set_n_has_strong_ref true
                         (set_n_local_strong_refs (s32 (n_local_strong_refs x + 1))
                           (set_n_local_weak_refs (s32 (n_local_weak_refs x + 1)) x))));
  mret 0.

(** [ret] is what [BINDER_WRITE_READ] returns to its caller as it is; the thread's return request is
    cleared behind every command but one that frees the thread. *)
Definition binder_ioctl (cur : task) (p : Z) (cmd : ioctl_cmd) (arg : Z) (retries : nat) (env : waiting)
    (non_block out_ok : bool) (writable : Z → Z → bool) (m : list Z) : KM ioctl_result :=
  th ← binder_get_thread cur p;
  if th =? 0 then mret (Io_done (- Errno.ENOMEM) None m) else
  let finish r := _ ← upd_thread th (λ x, set_th_looper (th_looper x &&& Z.lnot LOOPER_NEED_RETURN) x); mret r in
  match cmd with
  | Io_write_read =>
    r ← binder_ioctl_write_read cur p th arg retries env non_block out_ok writable m;
    match r with Io_blocked => mret Io_blocked | _ => finish r end
  | Io_set_max_threads =>
    ws ← get_user_words cur arg 1;
    match ws with
    | Some [n] => _ ← upd_proc p (set_k_max_threads (s32 n)); finish (Io_done 0 None m)
    | _ => finish (Io_done (- Errno.EINVAL) None m)
    end
  | Io_set_context_mgr => ret ← binder_ioctl_set_ctx_mgr cur p; finish (Io_done ret None m)
  | Io_thread_exit => _ ← binder_free_thread p th; mret (Io_done 0 None m)
  | Io_version => finish (Io_done (if out_ok then 0 else - Errno.EINVAL) None m)
  | Io_other => finish (Io_done (- Errno.EINVAL) None m)
  end.

(** ** Opening, mapping, closing *)

Definition empty_alloc : KAlloc.binder_proc := Proc false 0 0 0 [] rb_null rb_null 0 [] 0.

(** The values are the result and the new process. *)
Definition binder_open (cur : task) : KM (Z * Z) :=
  p ← kzalloc;
  if p =? 0 then mret (- Errno.ENOMEM, 0)
  else
    nice ← task_nice cur;
    _ ← kmod (λ s, set_ks_procs (<[p := KProc (tsk_pid cur) (tsk_group cur) empty_alloc ∅ rb_null rb_null rb_null rb_null
                                        false 0 [] [] 0 0 0 0 nice]> (ks_procs s)) s);
    _ ← kmod (λ s, set_ks_proc_list (p :: ks_proc_list s) s);
    mret (0, p).

Definition kmmap (cur : task) (p : Z) (v : vm_area) (area : option Z) (kzalloc_ok : bool) : KM Z :=
  t ← next_tick; k ← proc_at p;
  '(ret, a) ← klift (binder_mmap (alloc_env t) (header_garbage t) (k_alloc k) (k_tsk k =? tsk_pid cur) v area kzalloc_ok);
  _ ← upd_proc p (λ k, set_k_alloc a (set_k_files (if ret =? 0 then true else k_files k) k));
  mret ret.

Definition binder_defer_work (p bits : Z) : KM () :=
  _ ← upd_proc p (λ k, set_k_deferred_work (k_deferred_work k ||| bits) k);
  l ← kget ks_deferred;
  if bool_decide (p ∈ l) then mret () else kmod (λ s, set_ks_deferred (p :: ks_deferred s) s).

Definition binder_vma_close (p : Z) : KM () :=
  _ ← upd_proc p (λ k, let a := k_alloc k in
        set_k_alloc (Proc false 0 (p_buffer a) (p_user_buffer_offset a) (p_buffers a) (p_free_buffers a)
                       (p_allocated_buffers a) (p_free_async_space a) (p_pages a) (p_buffer_size a)) k);
  binder_defer_work p DEFERRED_PUT_FILES.

Definition binder_flush (p : Z) : KM Z := _ ← binder_defer_work p DEFERRED_FLUSH; mret 0.
Definition binder_release (p : Z) : KM Z := _ ← binder_defer_work p DEFERRED_RELEASE; mret 0.

(** ** Deferred work *)

Fixpoint flush_threads (ths : list Z) : KM () :=
  match ths with
  | [] => mret ()
  | th :: ths =>
    _ ← or_looper th LOOPER_NEED_RETURN;
    x ← thread_at th;
    _ ← (if has_flag (th_looper x) LOOPER_WAITING then kemit (Wake_thread th) else mret ());
    flush_threads ths
  end.

Definition binder_deferred_flush (p : Z) : KM () :=
  k ← proc_at p; _ ← flush_threads (inorder (k_threads k)); kemit (Wake_proc p).

(** The references of a node that died: those that asked for it are notified. *)
Fixpoint notify_refs (rs : list Z) (refs : Z) : KM Z :=
  match rs with
  | [] => mret refs
  | r :: rs =>
    x ← ref_at r;
    _ ← (if truthy (r_death x) then
           unlinked ← entry_unlinked (W_death (r_death x));
           _ ← kassert unlinked;
           _ ← upd_death (r_death x) (set_d_type DEAD_BINDER);
           _ ← list_add_tail (W_death (r_death x)) (Q_proc (r_proc x));
           kemit (Wake_proc (r_proc x))
         else mret ());
    notify_refs rs (refs + 1)
  end.

Definition binder_node_release (n refs : Z) : KM Z :=
  _ ← list_del_init (W_node n);
  _ ← binder_release_work (Q_async n);
  x ← node_at n;
  if bool_decide (n_refs x = []) then _ ← kfree_node n; mret refs
  else
    _ ← upd_node n (λ x, set_n_proc 0 (set_n_local_strong_refs 0 (set_n_local_weak_refs 0 x)));
    _ ← kmod (λ s, set_ks_dead_nodes (n :: ks_dead_nodes s) s);
    notify_refs (n_refs x) refs.

(** The loops of [binder_deferred_release]: while a tree is not empty, its first element is taken away. *)
Fixpoint release_threads (fuel : nat) (p : Z) : KM () :=
  k ← proc_at p;
  let th := rb_first (k_threads k) in
  if th =? 0 then mret () else
  match fuel with
  | O => kfault
  | S fuel => _ ← binder_free_thread p th; release_threads fuel p
  end.

Fixpoint release_nodes (fuel : nat) (p incoming_refs : Z) : KM () :=
  k ← proc_at p;
  let n := rb_first (k_nodes k) in
  if n =? 0 then mret () else
  match fuel with
  | O => kfault
  | S fuel =>
    _ ← upd_proc p (λ k, set_k_nodes (rb_erase n (k_nodes k)) k);
    refs ← binder_node_release n incoming_refs;
    release_nodes fuel p refs
  end.

Fixpoint release_refs (fuel : nat) (p : Z) : KM () :=
  k ← proc_at p;
  let r := rb_first (k_refs_by_desc k) in
  if r =? 0 then mret () else
  match fuel with
  | O => kfault
  | S fuel => _ ← binder_delete_ref r; release_refs fuel p
  end.

Fixpoint release_buffers (fuel : nat) (p : Z) : KM () :=
  k ← proc_at p;
  let x := rb_first (p_allocated_buffers (k_alloc k)) in
  if x =? 0 then mret () else
  match fuel with
  | O => kfault
  | S fuel =>
    y ← buffer_at (p, x);
    _ ← (if truthy (b_transaction y) then
           _ ← upd_trans (b_transaction y) (set_t_buffer None); detach_buffer (p, x)
         else mret ());
    _ ← kfree_buf (p, x);
    release_buffers fuel p
  end.

(** The pages of the buffer area go with the process. *)
Definition binder_deferred_release (p : Z) : KM () :=
  k ← proc_at p;
  _ ← kassert (negb (p_vma (k_alloc k)));
  _ ← kassert (negb (k_files k));
  _ ← kmod (λ s, set_ks_proc_list (filter (λ q, q ≠ p) (ks_proc_list s)) s);
  mgr ← kget ks_context_mgr_node;
  _ ← (if truthy mgr then
         n ← node_at mgr; if n_proc n =? p then kmod (set_ks_context_mgr_node 0) else mret ()
       else mret ());
  _ ← release_threads (length (inorder (k_threads k))) p;
  _ ← release_nodes (length (inorder (k_nodes k))) p 0;
  _ ← release_refs (length (inorder (k_refs_by_desc k))) p;
  _ ← binder_release_work (Q_proc p);
  _ ← binder_release_work (Q_delivered p);
  _ ← release_buffers (length (inorder (p_allocated_buffers (k_alloc k)))) p;
  kfree_proc p.

(** One round of [binder_deferred_func]; whether there was a process to work on. *)
Definition deferred_round : KM bool :=
  l ← kget ks_deferred;
  match l with
  | [] => mret false
  | p :: _ =>
    _ ← kmod (set_ks_deferred (tail l));
    k ← proc_at p;
    let defer := k_deferred_work k in
    _ ← upd_proc p (set_k_deferred_work 0);
    let put := has_flag defer DEFERRED_PUT_FILES && k_files k in
    _ ← (if put then upd_proc p (set_k_files false) else mret ());
    _ ← (if has_flag defer DEFERRED_FLUSH then binder_deferred_flush p else mret ());
    _ ← (if has_flag defer DEFERRED_RELEASE then binder_deferred_release p else mret ());
    _ ← (if put then kemit (Put_files p) else mret ());
    mret true
  end.

Fixpoint binder_deferred_func (fuel : nat) : KM () :=
  match fuel with
  | O => kfault
  | S fuel => more ← deferred_round; if (more : bool) then binder_deferred_func fuel else mret ()
  end.

End Procs.
