(* ===== verification/KDemo.v ===== *)
(** * Binder driver: a concrete kernel

    Instances of the interfaces of the driver model that can be computed with, and
    states made by system calls: a context manager and a client, both mapped. *)
From stdpp Require Import gmap.
From S2P Require Import Prelude Bio Binder KAlloc KAllocSpec KAllocInv KAllocProps KState KRefs KTrans KWrite KRead KProc.
Import KAllocDemo.

Module DriverDemo.

(** Addresses from 1000 up, none used twice; user memory as a table of words per thread. *)

Definition demo_bytes (mem : Z → Z → Z) (pid addr n : Z) : list Z :=
  flat_map (λ i, le_encode 4 (mem pid (addr + 4 * Z.of_nat i))) (seq 0 (Z.to_nat (n / 4))).

Definition demo_kernel (mem : Z → Z → Z) : Kernel := {|
  kzalloc_addr l t := Some (1 + Z.max 999 (set_fold Z.max 0 l));
  copy_from_user _ pid addr n := Some (demo_bytes mem pid addr n);
  task_euid tsk := tsk * 100;
  can_nice _ _ := true;
  rlimit_nice _ := 0;
  security_binder_set_context_mgr _ := 0;
  security_binder_transaction _ _ := 0;
  security_binder_transfer_binder _ _ := 0;
  security_binder_transfer_file _ _ _ := 0;
  fget _ _ fd := Some (fd + 1000);
  get_unused_fd _ _ := 3;
  alloc_env _ := env;
  header_garbage _ := junk |}.

#[export] Instance demo_returns : BinderReturns := {|
  BR_NOOP := 1; BR_TRANSACTION_COMPLETE := 2; BR_INCREFS := 3; BR_ACQUIRE := 4; BR_RELEASE := 5; BR_DECREFS := 6;
  BR_TRANSACTION := 7; BR_REPLY := 8; BR_DEAD_BINDER := 9; BR_FAILED_REPLY := 10; BR_DEAD_REPLY := 11 |}.

#[export] Instance demo_api : BinderApi := {|
  api_returns := demo_returns;
  BR_OK := 20; BR_ERROR := 21; BR_SPAWN_LOOPER := 22; BR_CLEAR_DEATH_NOTIFICATION_DONE := 23;
  TYPE_BINDER := 31; TYPE_WEAK_BINDER := 32; TYPE_HANDLE := 33; TYPE_WEAK_HANDLE := 34; TYPE_FD := 35;
  FLAG_PRIORITY_MASK := 255; FLAG_ACCEPTS_FDS := 256;
  TF_ONE_WAY := 1; TF_ACCEPT_FDS := 16;
  BC_INCREFS := 101; BC_ACQUIRE := 102; BC_RELEASE := 103; BC_DECREFS := 104; BC_INCREFS_DONE := 105; BC_ACQUIRE_DONE := 106;
  BC_ATTEMPT_ACQUIRE := 107; BC_ACQUIRE_RESULT := 108; BC_FREE_BUFFER := 109; BC_TRANSACTION := 110; BC_REPLY := 111;
  BC_REGISTER_LOOPER := 112; BC_ENTER_LOOPER := 113; BC_EXIT_LOOPER := 114; BC_REQUEST_DEATH_NOTIFICATION := 115;
  BC_CLEAR_DEATH_NOTIFICATION := 116; BC_DEAD_BINDER_DONE := 117 |}.

Definition boot : kstate := KState ∅ ∅ ∅ ∅ ∅ ∅ ∅ [] [] [] 0 None ∅ 0 [].

Definition server : task := Task 10 10 1000.
Definition client : task := Task 20 20 2000.
Definition anyone (_ _ : Z) : bool := true.
Definition alone : waiting := Waiting (λ _, mret ()) (λ _, false).

(** Runs a program for its state. *)
Definition after {A} (m : KM A) (s : kstate) : kstate := default boot (snd <$> m s).

(** Memory that holds nothing, and the two processes after opening the device; the server is
    the context manager. *)
Definition quiet_kernel : Kernel := demo_kernel (λ _ _, 0).
#[export] Instance the_kernel : Kernel := quiet_kernel.

Definition opened : kstate := after (KProc.binder_open server) boot.
Definition managed : kstate := after (binder_ioctl_set_ctx_mgr server 1000) opened.
Definition started : kstate := after (KProc.binder_open client) managed.

(** Both have mapped the device and a thread each, and the client has called the server. *)
Definition server_thread : Z := 1003.
Definition client_thread : Z := 1004.
Definition threads_up : kstate :=
  after (_ ← kmmap server 1000 vma0 (Some addr0) true;
         _ ← kmmap client 1002 vma0 (Some (addr0 + 4194304)) true;
         _ ← binder_get_thread server 1000; binder_get_thread client 1002) started.

Definition ping : binder_txn := Txn 0 0 77 0 0 0 8 0 0 0.
Definition called : kstate := after (binder_transaction client 1002 client_thread ping false) threads_up.

(** The server is ready for more threads. *)
Definition eager : kstate :=
  after (_ ← upd_proc 1000 (set_k_max_threads 1); do_enter_looper server_thread) called.

Definition blank : list Z := replicate 128 0.
Definition read_words (r : option (read_result * kstate)) : option (Z * Z * list Z) :=
  match r with Some (Read_done ret c m, _) => Some (ret, c, take (Z.to_nat (c / 4)) (words m)) | _ => None end.

Example server_reads_call :
  read_words (binder_thread_read (λ x, x) server 1000 server_thread anyone 128 0 alone false blank 0 called) =
  Some (0, 44, [7; 0; 0; 77; 0; 20; 2000; 8; 0; 1073741864; 1073741872]).
Proof. vm_compute. reflexivity. Qed.

(** The same read when the server wants another thread: the command is overwritten. *)
Example eager_server_misses_call :
  read_words (binder_thread_read (λ x, x) server 1000 server_thread anyone 128 0 alone false blank 0 eager) =
  Some (0, 44, [22; 0; 0; 77; 0; 20; 2000; 8; 0; 1073741864; 1073741872]).
Proof. vm_compute. reflexivity. Qed.

End DriverDemo.
