(* ===== verification/KQueues.v ===== *)
(** * Binder driver: lists of work and search trees

    That an object is on a list exactly when its entry says so, and what adding and removing
    entries does.  List operations change nothing but lists and entries: they agree
    on the state stripped of those.

    Searching and linking in a tree whose elements are sorted by a key that is
    read from the objects, as the trees of nodes, references and threads are. *)
From stdpp Require Import sorting gmap.
From S2P Require Import Prelude Bio Binder KAlloc KAllocSpec KState.

(** ** Running the monad *)

Lemma kbind_run {A B} (m : KM A) (f : A → KM B) s x s' : m s = Some (x, s') → (m ≫= f) s = f x s'.
Proof. intros Hm. unfold mbind, KM_bind. by rewrite Hm. Qed.

Lemma kget_run {A} (f : kstate → A) s : kget f s = Some (f s, s).
Proof. done. Qed.
Lemma kmod_run f s : kmod f s = Some ((), f s).
Proof. done. Qed.
Lemma klift_run {A} (o : option A) x s : o = Some x → klift o s = Some (x, s).
Proof. by intros ->. Qed.
Lemma proc_at_run p k s : ks_procs s !! p = Some k → proc_at p s = Some (k, s).
Proof. unfold proc_at. by intros ->. Qed.
Lemma thread_at_run t x s : ks_threads s !! t = Some x → thread_at t s = Some (x, s).
Proof. unfold thread_at. by intros ->. Qed.
Lemma node_at_run n x s : ks_nodes s !! n = Some x → node_at n s = Some (x, s).
Proof. unfold node_at. by intros ->. Qed.
Lemma ref_at_run r x s : ks_refs s !! r = Some x → ref_at r s = Some (x, s).
Proof. unfold ref_at. by intros ->. Qed.
Lemma death_at_run d x s : ks_deaths s !! d = Some x → death_at d s = Some (x, s).
Proof. unfold death_at. by intros ->. Qed.
Lemma trans_at_run t x s : ks_trans s !! t = Some x → trans_at t s = Some (x, s).
Proof. unfold trans_at. by intros ->. Qed.
Lemma upd_proc_run p f k s :
  ks_procs s !! p = Some k → upd_proc p f s = Some ((), set_ks_procs (<[p := f k]> (ks_procs s)) s).
Proof. unfold upd_proc. by intros ->. Qed.
Lemma upd_thread_run t f x s :
  ks_threads s !! t = Some x → upd_thread t f s = Some ((), set_ks_threads (<[t := f x]> (ks_threads s)) s).
Proof. unfold upd_thread. by intros ->. Qed.
Lemma upd_node_run n f x s :
  ks_nodes s !! n = Some x → upd_node n f s = Some ((), set_ks_nodes (<[n := f x]> (ks_nodes s)) s).
Proof. unfold upd_node. by intros ->. Qed.
Lemma upd_ref_run r f x s :
  ks_refs s !! r = Some x → upd_ref r f s = Some ((), set_ks_refs (<[r := f x]> (ks_refs s)) s).
Proof. unfold upd_ref. by intros ->. Qed.
Lemma upd_death_run d f x s :
  ks_deaths s !! d = Some x → upd_death d f s = Some ((), set_ks_deaths (<[d := f x]> (ks_deaths s)) s).
Proof. unfold upd_death. by intros ->. Qed.
Lemma upd_trans_run t f x s :
  ks_trans s !! t = Some x → upd_trans t f s = Some ((), set_ks_trans (<[t := f x]> (ks_trans s)) s).
Proof. unfold upd_trans. by intros ->. Qed.

(** One step of a program whose next action is one of the above. *)
Ltac krun :=
  first
    [ erewrite kbind_run by first
        [ reflexivity
        | apply klift_run; eassumption | eapply proc_at_run; eassumption | eapply thread_at_run; eassumption
        | eapply node_at_run; eassumption | eapply ref_at_run; eassumption | eapply death_at_run; eassumption
        | eapply trans_at_run; eassumption | eapply upd_proc_run; eassumption | eapply upd_thread_run; eassumption
        | eapply upd_node_run; eassumption | eapply upd_ref_run; eassumption | eapply upd_death_run; eassumption
        | eapply upd_trans_run; eassumption | eassumption ] ]; cbv beta.

(** ** Stripping lists *)

Definition clear_proc (k : kproc) : kproc := set_k_todo [] (set_k_delivered_death [] k).
Definition clear_node (x : binder_node) : binder_node := set_n_async_todo [] (set_n_entry None x).

(** A state without its lists, entries and effects. *)
Definition strip (s : kstate) : kstate :=
  KState (clear_proc <$> ks_procs s) (set_th_todo [] <$> ks_threads s) (clear_node <$> ks_nodes s) (ks_refs s)
    (set_d_entry None <$> ks_deaths s) (set_t_entry None <$> ks_trans s) ((λ _, None) <$> ks_completes s)
    (ks_proc_list s) (ks_dead_nodes s) (ks_deferred s) (ks_context_mgr_node s) (ks_context_mgr_uid s) (ks_nice s)
    (ks_tick s) [].

Lemma fmap_insert_id {A B} (f : A → B) (m : gmap Z A) i x y : m !! i = Some x → f y = f x → f <$> <[i := y]> m = f <$> m.
Proof. intros Hx Hf. rewrite fmap_insert, Hf. apply insert_id. by rewrite lookup_fmap, Hx. Qed.

(** ** Items and entries *)

Definition queue_items (s : kstate) (q : queue) : option (list binder_work) :=
  match q with
  | Q_proc p => k_todo <$> ks_procs s !! p
  | Q_thread th => th_todo <$> ks_threads s !! th
  | Q_async n => n_async_todo <$> ks_nodes s !! n
  | Q_delivered p => k_delivered_death <$> ks_procs s !! p
  end.

Definition entry_at (s : kstate) (w : binder_work) : option (option queue) :=
  match w with
  | W_transaction t => t_entry <$> ks_trans s !! t
  | W_complete c => ks_completes s !! c
  | W_node n => n_entry <$> ks_nodes s !! n
  | W_death d => d_entry <$> ks_deaths s !! d
  end.

Record queues_ok (s : kstate) : Prop := {
  q_listed q l w : queue_items s q = Some l → w ∈ l → entry_at s w = Some (Some q);
  q_nodup q l : queue_items s q = Some l → NoDup l;
  q_linked q w : entry_at s w = Some (Some q) → ∃ l, queue_items s q = Some l ∧ w ∈ l }.

(** States with the same lists and entries. *)
Definition same_lists (s s' : kstate) : Prop :=
  (∀ q, queue_items s' q = queue_items s q) ∧ (∀ w, entry_at s' w = entry_at s w).

Lemma same_lists_refl s : same_lists s s.
Proof. done. Qed.
Lemma same_lists_trans s1 s2 s3 : same_lists s1 s2 → same_lists s2 s3 → same_lists s1 s3.
Proof. intros [A1 B1] [A2 B2]. split; intros; [by rewrite A2|by rewrite B2]. Qed.

Lemma queues_ok_same s s' : same_lists s s' → queues_ok s → queues_ok s'.
Proof.
  intros [Hq Hw] [Hl Hn Hk]. split.
  - intros q l w. rewrite Hq, Hw. apply Hl.
  - intros q l. rewrite Hq. apply Hn.
  - intros q w. rewrite Hw. intros He. rewrite Hq. by apply Hk.
Qed.

Lemma queue_get_run s q l : queue_items s q = Some l → queue_get q s = Some (l, s).
Proof.
  destruct q; simpl; unfold proc_at, thread_at, node_at, mbind, KM_bind; cbn;
    (destruct (_ !! _) eqn:E; simpl; [by intros [= ->]|done]).
Qed.

Lemma entry_of_run s w e : entry_at s w = Some e → entry_of w s = Some (e, s).
Proof.
  destruct w; simpl; unfold trans_at, node_at, death_at, kget, klift, mbind, KM_bind; cbn;
    (destruct (_ !! _) eqn:E; simpl; [by intros [= ->]|done]).
Qed.

(** Case analysis on the list or entry an update is about. *)
Ltac by_key i j := destruct (decide (i = j)) as [<-|]; [rewrite ?lookup_insert_eq|rewrite ?lookup_insert_ne by congruence].

Lemma queue_put_ok s q l l' :
  queue_items s q = Some l →
  ∃ s', queue_put q l' s = Some ((), s') ∧ strip s' = strip s ∧ (∀ w, entry_at s' w = entry_at s w) ∧
    ∀ q', queue_items s' q' = if decide (q' = q) then Some l' else queue_items s q'.
Proof.
  destruct q as [p|p|p|p]; simpl; unfold upd_proc, upd_thread, upd_node.
  - destruct (ks_procs s !! p) as [k|] eqn:E; [|done]. intros _. eexists. split; [done|]. split.
    { unfold strip, set_ks_procs. cbn. f_equal. by eapply fmap_insert_id. }
    split; [by intros []|]. intros [q|q|q|q]; cbn; try done.
    + by_key p q; cbn; [by rewrite decide_True|by rewrite decide_False by congruence].
    + by_key p q; cbn; rewrite ?decide_False by done; [by rewrite E|done].
  - destruct (ks_threads s !! p) as [k|] eqn:E; [|done]. intros _. eexists. split; [done|]. split.
    { unfold strip, set_ks_threads. cbn. f_equal. by eapply fmap_insert_id. }
    split; [by intros []|]. intros [q|q|q|q]; cbn; try done.
    by_key p q; cbn; [by rewrite decide_True|by rewrite decide_False by congruence].
  - destruct (ks_nodes s !! p) as [k|] eqn:E; [|done]. intros _. eexists. split; [done|]. split.
    { unfold strip, set_ks_nodes. cbn. f_equal. by eapply fmap_insert_id. }
    split. { intros []; cbn; try done. by_key p n; cbn; [by rewrite E|done]. }
    intros [q|q|q|q]; cbn; try done. by_key p q; cbn; [by rewrite decide_True|by rewrite decide_False by congruence].
  - destruct (ks_procs s !! p) as [k|] eqn:E; [|done]. intros _. eexists. split; [done|]. split.
    { unfold strip, set_ks_procs. cbn. f_equal. by eapply fmap_insert_id. }
    split; [by intros []|]. intros [q|q|q|q]; cbn; try done.
    + by_key p q; cbn; rewrite ?decide_False by done; [by rewrite E|done].
    + by_key p q; cbn; [by rewrite decide_True|by rewrite decide_False by congruence].
Qed.

Lemma set_entry_ok s w e e' :
  entry_at s w = Some e →
  ∃ s', set_entry w e' s = Some ((), s') ∧ strip s' = strip s ∧ (∀ q, queue_items s' q = queue_items s q) ∧
    ∀ w', entry_at s' w' = if decide (w' = w) then Some e' else entry_at s w'.
Proof.
  destruct w as [p|p|p|p]; simpl; unfold upd_trans, upd_node, upd_death, kget, klift, kmod, mbind, KM_bind; cbn.
  - destruct (ks_trans s !! p) as [k|] eqn:E; [|done]. intros _. eexists. split; [done|]. split.
    { unfold strip, set_ks_trans. cbn. f_equal. by eapply fmap_insert_id. }
    split; [by intros []|]. intros [q|q|q|q]; cbn; try done.
    by_key p q; cbn; [by rewrite decide_True|by rewrite decide_False by congruence].
  - destruct (ks_completes s !! p) as [k|] eqn:E; [|done]. intros _. eexists. split; [done|]. split.
    { unfold strip, set_ks_completes. cbn. f_equal. by eapply fmap_insert_id. }
    split; [by intros []|]. intros [q|q|q|q]; cbn; try done.
    by_key p q; cbn; [by rewrite decide_True|by rewrite decide_False by congruence].
  - destruct (ks_nodes s !! p) as [k|] eqn:E; [|done]. intros _. eexists. split; [done|]. split.
    { unfold strip, set_ks_nodes. cbn. f_equal. by eapply fmap_insert_id. }
    split. { intros [q|q|q|q]; cbn; try done. by_key p q; cbn; [by rewrite E|done]. }
    intros [q|q|q|q]; cbn; try done. by_key p q; cbn; [by rewrite decide_True|by rewrite decide_False by congruence].
  - destruct (ks_deaths s !! p) as [k|] eqn:E; [|done]. intros _. eexists. split; [done|]. split.
    { unfold strip, set_ks_deaths. cbn. f_equal. by eapply fmap_insert_id. }
    split; [by intros []|]. intros [q|q|q|q]; cbn; try done.
    by_key p q; cbn; [by rewrite decide_True|by rewrite decide_False by congruence].
Qed.

(** ** Adding and removing *)

(** What adding [w] to [q] does, [l'] being the items of [q] behind it. *)
Definition linked (s : kstate) (w : binder_work) (q : queue) (l' : list binder_work) (s' : kstate) : Prop :=
  strip s' = strip s ∧ (∀ w', entry_at s' w' = if decide (w' = w) then Some (Some q) else entry_at s w') ∧
  ∀ q', queue_items s' q' = if decide (q' = q) then Some l' else queue_items s q'.

Lemma linked_ok s w q l l' s' :
  queues_ok s → entry_at s w = Some None → queue_items s q = Some l → l' ≡ₚ w :: l → linked s w q l' s' → queues_ok s'.
Proof.
  intros [Hl Hn Hk] Hw Hq Hp (_ & He & Hi).
  assert (∀ q l, queue_items s q = Some l → w ∉ l) as Hnot.
  { intros q0 l0 H0 Hin. pose proof (Hl _ _ _ H0 Hin). congruence. }
  split.
  - intros q' l0 w'. rewrite Hi, He. destruct (decide (q' = q)) as [->|].
    + intros [= <-]. rewrite Hp. intros [->|Hin]%elem_of_cons; [by rewrite decide_True|].
      rewrite decide_False; [by eapply Hl|]. intros ->. by eapply Hnot.
    + intros H0 Hin. rewrite decide_False; [by eapply Hl|]. intros ->. by eapply Hnot.
  - intros q' l0. rewrite Hi. destruct (decide (q' = q)) as [->|]; [|apply Hn].
    intros [= <-]. rewrite Hp. constructor; [by eapply Hnot|by eapply Hn].
  - intros q' w'. rewrite He. destruct (decide (w' = w)) as [->|].
    + intros [= <-]. exists l'. rewrite Hi, decide_True by done. split; [done|]. rewrite Hp. apply elem_of_cons. by left.
    + intros H0. destruct (Hk _ _ H0) as (l0 & Hl0 & Hin). rewrite Hi. destruct (decide (q' = q)) as [->|]; [|by exists l0].
      exists l'. split; [done|]. rewrite Hp. apply elem_of_cons. right. congruence.
Qed.

Lemma list_add_tail_ok s w q l :
  queues_ok s → entry_at s w = Some None → queue_items s q = Some l →
  ∃ s', list_add_tail w q s = Some ((), s') ∧ queues_ok s' ∧ linked s w q (l ++ [w]) s'.
Proof.
  intros Hok Hw Hq. unfold list_add_tail. rewrite (kbind_run _ _ _ _ _ (queue_get_run _ _ _ Hq)).
  destruct (queue_put_ok s q l (l ++ [w]) Hq) as (s1 & H1 & Hs1 & He1 & Hi1). rewrite (kbind_run _ _ _ _ _ H1).
  destruct (set_entry_ok s1 w None (Some q)) as (s2 & H2 & Hs2 & Hi2 & He2); [by rewrite He1|].
  exists s2. split; [done|]. assert (linked s w q (l ++ [w]) s2) as Hlk; [|split; [|done]].
  - split; [congruence|]. split; [intros w'; rewrite He2, He1; done|]. intros q'. by rewrite Hi2, Hi1.
  - eapply linked_ok; [done..| |done]. by rewrite Permutation_app_comm.
Qed.

Lemma list_add_ok s w q l :
  queues_ok s → entry_at s w = Some None → queue_items s q = Some l →
  ∃ s', list_add w q s = Some ((), s') ∧ queues_ok s' ∧ linked s w q (w :: l) s'.
Proof.
  intros Hok Hw Hq. unfold list_add. rewrite (kbind_run _ _ _ _ _ (queue_get_run _ _ _ Hq)).
  destruct (queue_put_ok s q l (w :: l) Hq) as (s1 & H1 & Hs1 & He1 & Hi1). rewrite (kbind_run _ _ _ _ _ H1).
  destruct (set_entry_ok s1 w None (Some q)) as (s2 & H2 & Hs2 & Hi2 & He2); [by rewrite He1|].
  exists s2. split; [done|]. assert (linked s w q (w :: l) s2) as Hlk; [|split; [by eapply linked_ok|done]].
  split; [congruence|]. split; [intros w'; rewrite He2, He1; done|]. intros q'. by rewrite Hi2, Hi1.
Qed.

(** What removing [w] from whatever list it is on does. *)
Definition unlinked (s : kstate) (w : binder_work) (s' : kstate) : Prop :=
  strip s' = strip s ∧ (∀ w', entry_at s' w' = if decide (w' = w) then Some None else entry_at s w') ∧
  ∀ q, queue_items s' q = filter (λ x, x ≠ w) <$> queue_items s q.

Lemma filter_not_in {A} `{EqDecision A} (w : A) (l : list A) : w ∉ l → filter (λ x, x ≠ w) l = l.
Proof.
  induction l as [|x l IH]; intros Hn; [done|]. rewrite filter_cons. apply not_elem_of_cons in Hn as [Hx Hl].
  rewrite decide_True by congruence. by rewrite IH.
Qed.

Lemma unlinked_ok s w s' : queues_ok s → unlinked s w s' → queues_ok s'.
Proof.
  intros [Hl Hn Hk] (_ & He & Hi). split.
  - intros q l w'. rewrite Hi, He. destruct (queue_items s q) as [l0|] eqn:E; [|done]. intros [= <-].
    intros [Hne Hin]%list_elem_of_filter. rewrite decide_False by done. by eapply Hl.
  - intros q l. rewrite Hi. destruct (queue_items s q) as [l0|] eqn:E; [|done]. intros [= <-]. by eapply NoDup_filter, Hn.
  - intros q w'. rewrite He. destruct (decide (w' = w)); [done|]. intros H0. destruct (Hk _ _ H0) as (l0 & Hl0 & Hin).
    rewrite Hi, Hl0. eexists. split; [done|]. by apply list_elem_of_filter.
Qed.

Lemma list_del_init_ok s w e :
  queues_ok s → entry_at s w = Some e → ∃ s', list_del_init w s = Some ((), s') ∧ queues_ok s' ∧ unlinked s w s'.
Proof.
  intros Hok Hw. pose proof Hok as [Hl Hn Hk]. unfold list_del_init. rewrite (kbind_run _ _ _ _ _ (entry_of_run _ _ _ Hw)).
  assert (∃ s', match e with
    | Some q => l ← queue_get q; _ ← queue_put q (filter (λ x, x ≠ w) l); set_entry w None
    | None => mret () end s = Some ((), s') ∧ unlinked s w s') as (s' & Hr & Hu); [|by eauto using unlinked_ok].
  destruct e as [q|].
  - destruct (Hk _ _ Hw) as (l & Hq & Hin). rewrite (kbind_run _ _ _ _ _ (queue_get_run _ _ _ Hq)).
    destruct (queue_put_ok s q l (filter (λ x, x ≠ w) l) Hq) as (s1 & H1 & Hs1 & He1 & Hi1). rewrite (kbind_run _ _ _ _ _ H1).
    destruct (set_entry_ok s1 w (Some q) None) as (s2 & H2 & Hs2 & Hi2 & He2); [by rewrite He1|].
    exists s2. split; [done|]. split; [congruence|]. split; [intros w'; rewrite He2, He1; done|].
    intros q'. rewrite Hi2, Hi1. destruct (decide (q' = q)) as [->|Hne]; [by rewrite Hq|].
    destruct (queue_items s q') as [l0|] eqn:E; [|done]. cbn. f_equal. symmetry. apply filter_not_in.
    intros Hin0. pose proof (Hl _ _ _ E Hin0). congruence.
  - exists s. split; [done|]. split; [done|]. split; [intros w'; by destruct (decide _) as [->|]|].
    intros q. destruct (queue_items s q) as [l0|] eqn:E; [|done]. cbn. f_equal. symmetry. apply filter_not_in.
    intros Hin0. pose proof (Hl _ _ _ E Hin0). congruence.
Qed.

Lemma entry_unlinked_run s w e : entry_at s w = Some e → entry_unlinked w s = Some (bool_decide (e = None), s).
Proof. intros He. unfold entry_unlinked. by rewrite (kbind_run _ _ _ _ _ (entry_of_run _ _ _ He)). Qed.

Section Tree.
Variable key : Z → option Z.

Definition key_lt (x y : Z) : Prop := ∃ a b, key x = Some a ∧ key y = Some b ∧ a < b.

(** A tree in the order of the keys, with exactly the elements [P] describes. *)
Definition tree_for (t : rb_tree) (P : Z → Prop) : Prop :=
  StronglySorted key_lt (inorder t) ∧ (∀ x, x ∈ inorder t → is_Some (key x)) ∧ ∀ x, x ∈ inorder t ↔ P x.

Lemma sorted_around l x r :
  StronglySorted key_lt (l ++ x :: r) ↔
  StronglySorted key_lt l ∧ StronglySorted key_lt r ∧ (∀ y, y ∈ l → key_lt y x) ∧ (∀ y, y ∈ r → key_lt x y) ∧
  (∀ y z, y ∈ l → z ∈ r → key_lt y z).
Proof.
  rewrite StronglySorted_app. split.
  - intros (Hlr & Hl & Hr). inversion Hr as [|? ? Hr' Hall]; subst. rewrite Forall_forall in Hall.
    split_and!; [done|done| |done|]; intros; apply Hlr; try done; apply elem_of_cons; auto.
  - intros (Hl & Hr & Hlx & Hxr & Hlr). split_and!; [|done|].
    + intros y z Hy [->|Hz]%elem_of_cons; auto.
    + constructor; [done|]. by apply Forall_forall.
Qed.

Lemma rb_find_spec k t :
  StronglySorted key_lt (inorder t) → (∀ x, x ∈ inorder t → is_Some (key x)) →
  ∃ f, rb_find key k t = Some f ∧
    ((f ∈ inorder t ∧ key f = Some k) ∨ (f = 0 ∧ ∀ x, x ∈ inorder t → key x ≠ Some k)).
Proof.
  induction t as [|l IHl x r IHr]; intros Hs Hk; simpl in *.
  { exists 0. split; [done|]. right. split; [done|]. intros x Hx. by apply elem_of_nil in Hx. }
  apply sorted_around in Hs as (Hl & Hr & Hlx & Hxr & Hlr).
  assert (∀ y, y ∈ inorder l ++ x :: inorder r ↔ y ∈ inorder l ∨ y = x ∨ y ∈ inorder r) as Hin.
  { intros y. by rewrite elem_of_app, elem_of_cons. }
  destruct (Hk x) as [kx Hkx]; [apply Hin; auto|]. rewrite Hkx. cbn [mbind option_bind]. destruct (Z.ltb_spec k kx) as [Hlt|Hge].
  - destruct IHl as (f & -> & Hf); [done|intros y Hy; apply Hk, Hin; auto|]. exists f. split; [done|].
    destruct Hf as [[Hf1 Hf2]|[Hf1 Hf2]]; [left; split; [apply Hin; auto|done]|]. right. split; [done|].
    intros y [Hy|[->|Hy]]%Hin; [by apply Hf2|intros ?; simplify_eq; lia|]. destruct (Hxr y Hy) as (a & b & ? & ? & ?).
    intros ?; simplify_eq; lia.
  - destruct (Z.ltb_spec kx k) as [Hlt|Hge'].
    + destruct IHr as (f & -> & Hf); [done|intros y Hy; apply Hk, Hin; auto|]. exists f. split; [done|].
      destruct Hf as [[Hf1 Hf2]|[Hf1 Hf2]]; [left; split; [apply Hin; auto|done]|]. right. split; [done|].
      intros y [Hy|[->|Hy]]%Hin; [|intros ?; simplify_eq; lia|by apply Hf2]. destruct (Hlx y Hy) as (a & b & ? & ? & ?).
      intros ?; simplify_eq; lia.
    + assert (k = kx) as -> by lia. exists x. split; [done|]. left. split; [apply Hin; auto|done].
Qed.

Lemma rb_link_spec k new t :
  StronglySorted key_lt (inorder t) → (∀ x, x ∈ inorder t → is_Some (key x)) → (∀ x, x ∈ inorder t → key x ≠ Some k) →
  ∃ t' l r, rb_link key k new t = Some t' ∧ inorder t = l ++ r ∧ inorder t' = l ++ new :: r ∧
    (∀ x, x ∈ l → ∃ a, key x = Some a ∧ a < k) ∧ (∀ x, x ∈ r → ∃ a, key x = Some a ∧ k < a).
Proof.
  induction t as [|l IHl x r IHr]; intros Hs Hk Hn; simpl in *.
  { eexists _, [], []. split_and!; try done; intros y Hy; by apply elem_of_nil in Hy. }
  apply sorted_around in Hs as (Hl & Hr & Hlx & Hxr & Hlr).
  assert (∀ y, y ∈ inorder l ++ x :: inorder r ↔ y ∈ inorder l ∨ y = x ∨ y ∈ inorder r) as Hin.
  { intros y. by rewrite elem_of_app, elem_of_cons. }
  destruct (Hk x) as [kx Hkx]; [apply Hin; auto|]. rewrite Hkx. cbn [mbind option_bind].
  assert (kx ≠ k) by (intros ->; apply (Hn x); [apply Hin; auto|done]). destruct (Z.ltb_spec k kx) as [Hlt|Hge].
  - destruct IHl as (t' & a & b & -> & Ha & Ht' & Hla & Hlb); [done|intros y Hy; apply Hk, Hin; auto|intros y Hy; apply Hn, Hin; auto|].
    exists (rb_node t' x r), a, (b ++ x :: inorder r). simpl. rewrite Ha, Ht', <- !app_assoc.
    split_and!; [done|done|done|done|]. intros y. rewrite elem_of_app, elem_of_cons. intros [Hy|[->|Hy]]; [by apply Hlb|by exists kx|].
    destruct (Hxr y Hy) as (c & d & ? & ? & ?). exists d. split; [done|]. simplify_eq; lia.
  - destruct (Z.ltb_spec kx k) as [Hlt|Hge']; [|lia].
    destruct IHr as (t' & a & b & -> & Ha & Ht' & Hla & Hlb); [done|intros y Hy; apply Hk, Hin; auto|intros y Hy; apply Hn, Hin; auto|].
    exists (rb_node l x t'), (inorder l ++ x :: a), b. simpl. rewrite Ha, Ht', <- !app_assoc.
    split_and!; [done|done|done| |done]. intros y. rewrite elem_of_app, elem_of_cons. intros [Hy|[->|Hy]]; [|by exists kx|by apply Hla].
    destruct (Hlx y Hy) as (c & d & ? & ? & ?). exists c. split; [done|]. simplify_eq; lia.
Qed.

Lemma key_lt_irrefl x : ¬ key_lt x x.
Proof. intros (a & b & ? & ? & ?). simplify_eq. lia. Qed.

Lemma tree_NoDup t P : tree_for t P → NoDup (inorder t).
Proof.
  intros (Hs & _). induction Hs as [|x l Hs IH Hall]; constructor; [|done]. intros Hin. rewrite Forall_forall in Hall.
  by apply (key_lt_irrefl x), Hall.
Qed.

End Tree.

(** ** Changing the key function, inserting, erasing *)

Lemma sorted_ext (key key' : Z → option Z) l :
  (∀ x, x ∈ l → key' x = key x) → StronglySorted (key_lt key) l → StronglySorted (key_lt key') l.
Proof.
  induction l as [|x l IH]; intros He Hs; [constructor|]. inversion Hs as [|? ? Hs' Hall]; subst. constructor.
  - apply IH; [|done]. intros y Hy. apply He, elem_of_cons. by right.
  - rewrite Forall_forall in Hall |- *. intros y Hy. destruct (Hall y Hy) as (a & b & Ha & Hb & Hlt).
    exists a, b. rewrite !He by (apply elem_of_cons; auto). done.
Qed.

Lemma tree_for_ext key key' t P P' :
  (∀ x, P x → key' x = key x) → (∀ x, P x ↔ P' x) → tree_for key t P → tree_for key' t P'.
Proof.
  intros Hk HP (Hs & Hd & Hm). split_and!.
  - eapply sorted_ext; [|done]. intros x Hx. by apply Hk, Hm.
  - intros x Hx. rewrite Hk by (by apply Hm). by apply Hd.
  - intros x. by rewrite Hm.
Qed.

Lemma tree_for_link `{RbLaws} key key' k new t t' P :
  tree_for key t P → rb_link key k new t = Some t' → (∀ x, P x → key x ≠ Some k) → ¬ P new →
  (∀ x, P x → key' x = key x) → key' new = Some k → tree_for key' (rb_insert_color new t') (λ x, x = new ∨ P x).
Proof.
  intros (Hs & Hd & Hm) Hl Hk Hn He Hnew.
  destruct (rb_link_spec key k new t Hs Hd) as (t0 & l & r & Hl0 & Ht & Ht' & Hll & Hrr); [intros x Hx; by apply Hk, Hm|].
  rewrite Hl in Hl0. injection Hl0 as <-. unfold tree_for. rewrite !inorder_insert_color, Ht'.
  assert (∀ x, x ∈ l ∨ x ∈ r → P x) as HP. { intros x Hx. apply Hm. rewrite Ht, elem_of_app. done. }
  rewrite Ht in Hs. apply StronglySorted_app in Hs as (Hlr & Hsl & Hsr).
  split_and!.
  - apply sorted_around. split_and!.
    + eapply sorted_ext; [|done]. intros x Hx. apply He, HP. auto.
    + eapply sorted_ext; [|done]. intros x Hx. apply He, HP. auto.
    + intros y Hy. destruct (Hll y Hy) as (a & Ha & ?). exists a, k. rewrite He by auto. done.
    + intros y Hy. destruct (Hrr y Hy) as (a & Ha & ?). exists k, a. rewrite (He y) by auto. done.
    + intros y z Hy Hz. destruct (Hlr y z Hy Hz) as (a & b & Ha & Hb & ?). exists a, b. rewrite !He by auto. done.
  - intros x. rewrite elem_of_app, elem_of_cons. intros [Hx|[->|Hx]]; [| by exists k|]; rewrite He by auto; apply Hd; rewrite Ht, elem_of_app; auto.
  - intros x. rewrite elem_of_app, elem_of_cons, <- Hm, Ht, elem_of_app. tauto.
Qed.

Lemma tree_for_erase `{RbLaws} key x t P :
  tree_for key t P → tree_for key (rb_erase x t) (λ y, P y ∧ y ≠ x).
Proof.
  intros (Hs & Hd & Hm). unfold tree_for. rewrite !inorder_erase. split_and!.
  - clear Hd Hm. induction Hs as [|y l Hs IH Hall]; [constructor|]. rewrite filter_cons. destruct (decide _); [|done].
    constructor; [done|]. rewrite Forall_forall in Hall |- *. intros z [_ Hz]%list_elem_of_filter. by apply Hall.
  - intros y [_ Hy]%list_elem_of_filter. by apply Hd.
  - intros y. rewrite list_elem_of_filter, Hm. tauto.
Qed.
