(* ===== verification/KRefsSpec.v ===== *)
(** * Binder driver: reference counts

    The invariant of nodes and references, and what each operation on them does to the
    state stripped of its lists. *)
From stdpp Require Import sorting gmap.
From S2P Require Import Prelude Bio Binder KAlloc KAllocSpec KState KRefs KQueues.

(** ** Invariant *)

(** How many of the references [l] are strong. *)
Definition strong_count (refs : gmap Z binder_ref) (l : list Z) : Z :=
  zlen (filter (λ r, 0 < default 0 (r_strong <$> refs !! r)) l).

(** Counts user space has yet to acknowledge are counts it has been told of. *)
Definition told (x : binder_node) : bool :=
  implb (n_pending_strong_ref x) (n_has_strong_ref x) && implb (n_pending_weak_ref x) (n_has_weak_ref x).

(** No count has passed the greatest [int]. *)
Definition counts_fit (s : kstate) : Prop :=
  map_Forall (λ _ x, r_strong x < 2 ^ 31 ∧ r_weak x < 2 ^ 31) (ks_refs s) ∧
  map_Forall (λ _ x, zlen (n_refs x) < 2 ^ 31 ∧ n_local_strong_refs x < 2 ^ 31 ∧ n_local_weak_refs x < 2 ^ 31) (ks_nodes s).

(** [held n strong] is the number of holders of a node inside the driver: buffers it is the
    target of and objects in buffers that stand for it. *)
Record refs_ok (held : Z → bool → Z) (s : kstate) : Prop := {
  ro_null : ks_procs s !! 0 = None ∧ ks_nodes s !! 0 = None ∧ ks_refs s !! 0 = None ∧ ks_deaths s !! 0 = None;
  ro_nodes p k : ks_procs s !! p = Some k →
    tree_for (ptr_key s) (k_nodes k) (λ n, ∃ x, ks_nodes s !! n = Some x ∧ n_proc x = p);
  ro_by_desc p k : ks_procs s !! p = Some k →
    tree_for (desc_key s) (k_refs_by_desc k) (λ r, ∃ x, ks_refs s !! r = Some x ∧ r_proc x = p);
  ro_by_node p k : ks_procs s !! p = Some k →
    tree_for (node_key s) (k_refs_by_node k) (λ r, ∃ x, ks_refs s !! r = Some x ∧ r_proc x = p);
  ro_ref r x : ks_refs s !! r = Some x →
    is_Some (ks_procs s !! r_proc x) ∧ 0 ≤ r_desc x < 2 ^ 32 - 1 ∧ 0 ≤ r_strong x ∧ 0 ≤ r_weak x ∧
    ∃ n, ks_nodes s !! r_node x = Some n ∧ r ∈ n_refs n;
  ro_node n x : ks_nodes s !! n = Some x →
    NoDup (n_refs x) ∧ (∀ r, r ∈ n_refs x → ∃ y, ks_refs s !! r = Some y ∧ r_node y = n) ∧
    (n_proc x ≠ 0 → is_Some (ks_procs s !! n_proc x)) ∧
    n_internal_strong_refs x = strong_count (ks_refs s) (n_refs x) ∧
    n_local_strong_refs x = held n true + c_bool (n_pending_strong_ref x) ∧
    n_local_weak_refs x = held n false + c_bool (n_pending_weak_ref x);
  ro_held n b : 0 ≤ held n b;
  ro_death r x : ks_refs s !! r = Some x → r_death x ≠ 0 → is_Some (ks_deaths s !! r_death x);
  ro_death_inj r r' x x' : ks_refs s !! r = Some x → ks_refs s !! r' = Some x' → r_death x ≠ 0 →
    r_death x = r_death x' → r = r';
  ro_alive n b : 1 ≤ held n b → is_Some (ks_nodes s !! n);
  ro_told n x : ks_nodes s !! n = Some x → told x = true;
  ro_small : counts_fit s }.

(** ** Only what is not a list matters *)

Section Agree.
Variables s s' : kstate.
Hypothesis Hst : strip s' = strip s.

Lemma strip_procs : clear_proc <$> ks_procs s' = clear_proc <$> ks_procs s.
Proof. exact (f_equal ks_procs Hst). Qed.
Lemma strip_nodes : clear_node <$> ks_nodes s' = clear_node <$> ks_nodes s.
Proof. exact (f_equal ks_nodes Hst). Qed.
Lemma strip_refs : ks_refs s' = ks_refs s.
Proof. exact (f_equal ks_refs Hst). Qed.

Lemma agree_lookup {A B} (f : A → B) (m m' : gmap Z A) i x :
  f <$> m' = f <$> m → m' !! i = Some x → ∃ y, m !! i = Some y ∧ f x = f y.
Proof.
  intros He Hx. assert ((f <$> m') !! i = Some (f x)) as H by (by rewrite lookup_fmap, Hx).
  rewrite He, lookup_fmap in H. destruct (m !! i) as [y|]; [|done]. exists y. split; [done|]. by injection H.
Qed.

Lemma agree_None {A B} (f : A → B) (m m' : gmap Z A) i : f <$> m' = f <$> m → m !! i = None → m' !! i = None.
Proof.
  intros He Hx. assert ((f <$> m) !! i = None) as H by (by rewrite lookup_fmap, Hx).
  rewrite <- He, lookup_fmap in H. by destruct (m' !! i).
Qed.

Lemma agree_node n x : ks_nodes s' !! n = Some x → ∃ y, ks_nodes s !! n = Some y ∧ clear_node x = clear_node y.
Proof. apply agree_lookup, strip_nodes. Qed.
Lemma agree_proc p k : ks_procs s' !! p = Some k → ∃ y, ks_procs s !! p = Some y ∧ clear_proc k = clear_proc y.
Proof. apply agree_lookup, strip_procs. Qed.
Lemma agree_is_proc p : is_Some (ks_procs s !! p) → is_Some (ks_procs s' !! p).
Proof.
  intros [k Hk]. destruct (ks_procs s' !! p) eqn:E; [by eauto|].
  pose proof (agree_None clear_proc (ks_procs s') (ks_procs s) p (eq_sym strip_procs) E). congruence.
Qed.

Lemma ptr_key_agree n : ptr_key s' n = ptr_key s n.
Proof.
  unfold ptr_key. pose proof (f_equal (λ m, n_ptr <$> m !! n) strip_nodes) as H. cbn in H. rewrite !lookup_fmap in H.
  by destruct (ks_nodes s' !! n), (ks_nodes s !! n).
Qed.

Lemma refs_ok_strip held : refs_ok held s → refs_ok held s'.
Proof.
  intros [Hz Hn Hd Hb Hr Hx Hh Hde Hdi Hal Hto Hsm]. split.
  - destruct Hz as (Hz1 & Hz2 & Hz3 & Hz4). split_and!.
    + exact (agree_None clear_proc _ _ _ strip_procs Hz1).
    + exact (agree_None clear_node _ _ _ strip_nodes Hz2).
    + by rewrite strip_refs.
    + exact (agree_None (set_d_entry None) _ _ _ (f_equal ks_deaths Hst) Hz4).
  - intros p k Hp. destruct (agree_proc _ _ Hp) as (k0 & Hk0 & He). rewrite (f_equal k_nodes He : k_nodes k = k_nodes k0).
    eapply tree_for_ext; [|intros n|by apply Hn]; [intros; apply ptr_key_agree|]. split.
    + intros (x & Hx0 & Hp0). destruct (ks_nodes s' !! n) as [y|] eqn:E.
      * destruct (agree_node _ _ E) as (x' & Hx' & Hc). exists y. split; [done|].
        rewrite (f_equal n_proc Hc : n_proc y = n_proc x'). congruence.
      * pose proof (agree_None clear_node _ _ n (eq_sym strip_nodes) E). congruence.
    + intros (y & Hy & Hp0). destruct (agree_node _ _ Hy) as (x' & Hx' & Hc). exists x'. split; [done|].
      by rewrite <- (f_equal n_proc Hc : n_proc y = n_proc x').
  - intros p k Hp. destruct (agree_proc _ _ Hp) as (k0 & Hk0 & He). rewrite (f_equal k_refs_by_desc He : k_refs_by_desc k = k_refs_by_desc k0).
    unfold desc_key. rewrite strip_refs. by apply Hd.
  - intros p k Hp. destruct (agree_proc _ _ Hp) as (k0 & Hk0 & He). rewrite (f_equal k_refs_by_node He : k_refs_by_node k = k_refs_by_node k0).
    unfold node_key. rewrite strip_refs. by apply Hb.
  - intros r x. rewrite strip_refs. intros Hx0. destruct (Hr _ _ Hx0) as (H1 & H2 & H3 & H4 & n & H5 & H6).
    split; [by apply agree_is_proc|]. split_and!; try done; [lia..|]. destruct (ks_nodes s' !! r_node x) as [y|] eqn:E.
    + destruct (agree_node _ _ E) as (x' & Hx' & Hc). exists y. split; [done|]. rewrite (f_equal n_refs Hc : n_refs y = n_refs x').
      congruence.
    + pose proof (agree_None clear_node _ _ _ (eq_sym strip_nodes) E). congruence.
  - intros n y Hy. destruct (agree_node _ _ Hy) as (x & Hx0 & Hc). rewrite strip_refs.
    rewrite (f_equal n_refs Hc : n_refs y = n_refs x), (f_equal n_proc Hc : n_proc y = n_proc x),
      (f_equal n_internal_strong_refs Hc : n_internal_strong_refs y = n_internal_strong_refs x), (f_equal n_local_strong_refs Hc : n_local_strong_refs y = n_local_strong_refs x),
      (f_equal n_local_weak_refs Hc : n_local_weak_refs y = n_local_weak_refs x), (f_equal n_pending_strong_ref Hc : n_pending_strong_ref y = n_pending_strong_ref x),
      (f_equal n_pending_weak_ref Hc : n_pending_weak_ref y = n_pending_weak_ref x).
    destruct (Hx _ _ Hx0) as (H1 & H2 & H3 & H4). split; [done|]. split; [done|]. split; [|done].
    intros Hp. by apply agree_is_proc, H3.
  - done.
  - intros r x. rewrite strip_refs. intros H1 H2. destruct (Hde _ _ H1 H2) as [d Hd0].
    destruct (ks_deaths s' !! r_death x) as [y|] eqn:E; [by eauto|].
    pose proof (agree_None (set_d_entry None) (ks_deaths s') (ks_deaths s) _ (eq_sym (f_equal ks_deaths Hst)) E). congruence.
  - intros r r' x x'. rewrite strip_refs. apply Hdi.
  - intros n b Hb0. destruct (Hal _ _ Hb0) as [x Hx0]. destruct (ks_nodes s' !! n) as [y|] eqn:E; [by eauto|].
    pose proof (agree_None clear_node _ _ n (eq_sym strip_nodes) E). congruence.
  - intros n y Hy. destruct (agree_node _ _ Hy) as (x & Hx0 & Hc). unfold told.
    rewrite (f_equal n_has_strong_ref Hc : n_has_strong_ref y = n_has_strong_ref x), (f_equal n_has_weak_ref Hc : n_has_weak_ref y = n_has_weak_ref x),
      (f_equal n_pending_strong_ref Hc : n_pending_strong_ref y = n_pending_strong_ref x),
      (f_equal n_pending_weak_ref Hc : n_pending_weak_ref y = n_pending_weak_ref x). exact (Hto _ _ Hx0).
  - destruct Hsm as [Hsr Hsn]. split; [by rewrite strip_refs|]. intros n y Hy. destruct (agree_node _ _ Hy) as (x & Hx0 & Hc).
    rewrite (f_equal n_refs Hc : n_refs y = n_refs x), (f_equal n_local_strong_refs Hc : n_local_strong_refs y = n_local_strong_refs x),
      (f_equal n_local_weak_refs Hc : n_local_weak_refs y = n_local_weak_refs x). exact (Hsn _ _ Hx0).
Qed.

End Agree.

(** ** Stores to nodes and references *)

Definition node_set (n : Z) (y : binder_node) (s : kstate) : kstate := set_ks_nodes (<[n := y]> (ks_nodes s)) s.
Definition ref_set (r : Z) (z : binder_ref) (s : kstate) : kstate := set_ks_refs (<[r := z]> (ks_refs s)) s.

Lemma node_set_lists s n x y :
  ks_nodes s !! n = Some x → n_async_todo y = n_async_todo x → n_entry y = n_entry x → same_lists s (node_set n y s).
Proof.
  intros Hx Ha He. split.
  - intros [q|q|q|q]; cbn; try done. by_key n q; cbn; [by rewrite Hx, Ha|done].
  - intros [q|q|q|q]; cbn; try done. by_key n q; cbn; [by rewrite Hx, He|done].
Qed.

Lemma ref_set_lists s r z : same_lists s (ref_set r z s).
Proof. split; [by intros []|by intros []]. Qed.

(** Whether a reference counts as strong. *)
Definition is_strong (z : binder_ref) : Z := c_bool (0 <? r_strong z).

Lemma strong_count_cons refs r l :
  strong_count refs (r :: l) = c_bool (0 <? default 0 (r_strong <$> refs !! r)) + strong_count refs l.
Proof. unfold strong_count. rewrite filter_cons. destruct (decide _), (Z.ltb_spec 0 (default 0 (r_strong <$> refs !! r))); cbn; lia. Qed.

Lemma strong_count_insert_ne refs r z l : r ∉ l → strong_count (<[r := z]> refs) l = strong_count refs l.
Proof.
  induction l as [|y l IH]; intros Hn; [done|]. apply not_elem_of_cons in Hn as [Hy Hl].
  by rewrite !strong_count_cons, IH, lookup_insert_ne.
Qed.

Lemma strong_count_insert refs r x z l :
  refs !! r = Some x → NoDup l → r ∈ l → strong_count (<[r := z]> refs) l = strong_count refs l - is_strong x + is_strong z.
Proof.
  intros Hx. induction l as [|y l IH]; intros Hd Hin; [by apply elem_of_nil in Hin|]. apply NoDup_cons in Hd as [Hy Hl].
  rewrite !strong_count_cons. apply elem_of_cons in Hin as [<-|Hin].
  - rewrite strong_count_insert_ne by done. rewrite lookup_insert_eq, Hx. unfold is_strong. cbn. lia.
  - rewrite IH by done. rewrite lookup_insert_ne by (intros ->; done). lia.
Qed.

Lemma strong_count_filter refs r x l :
  refs !! r = Some x → NoDup l → r ∈ l → strong_count refs (filter (λ m, m ≠ r) l) = strong_count refs l - is_strong x.
Proof.
  intros Hx. induction l as [|y l IH]; intros Hd Hin; [by apply elem_of_nil in Hin|]. apply NoDup_cons in Hd as [Hy Hl].
  rewrite filter_cons, strong_count_cons. apply elem_of_cons in Hin as [<-|Hin].
  - rewrite decide_False by (by intros ?). rewrite filter_not_in by done. rewrite Hx. unfold is_strong. cbn. lia.
  - rewrite decide_True by (intros ->; done). rewrite strong_count_cons, IH by done. lia.
Qed.

Lemma strong_count_delete refs r l : r ∉ l → strong_count (delete r refs) l = strong_count refs l.
Proof.
  induction l as [|y l IH]; intros Hn; [done|]. apply not_elem_of_cons in Hn as [Hy Hl].
  by rewrite !strong_count_cons, IH, lookup_delete_ne.
Qed.

Lemma strong_count_nonneg refs l : 0 ≤ strong_count refs l.
Proof. unfold strong_count. lia. Qed.

(** What of a node the trees and links depend on. *)
Definition same_links (x y : binder_node) : Prop := n_proc y = n_proc x ∧ n_ptr y = n_ptr x ∧ n_refs y = n_refs x.

(** A reference and the counts of its node change. *)
Lemma ref_update_ok held held' s r x z n y :
  refs_ok held s → ks_refs s !! r = Some x → ks_nodes s !! r_node x = Some n → same_links n y →
  r_proc z = r_proc x → r_node z = r_node x → r_desc z = r_desc x → r_death z = r_death x →
  0 ≤ r_strong z < 2 ^ 31 → 0 ≤ r_weak z < 2 ^ 31 → n_local_strong_refs y < 2 ^ 31 → n_local_weak_refs y < 2 ^ 31 →
  n_internal_strong_refs y = n_internal_strong_refs n - is_strong x + is_strong z →
  n_local_strong_refs y = held' (r_node x) true + c_bool (n_pending_strong_ref y) →
  n_local_weak_refs y = held' (r_node x) false + c_bool (n_pending_weak_ref y) →
  (∀ m b, m ≠ r_node x → held' m b = held m b) → (∀ b, 0 ≤ held' (r_node x) b) → told y = true →
  refs_ok held' (ref_set r z (node_set (r_node x) y s)).
Proof.
  intros [Hz Hn Hd Hb Hr Hx Hh Hde Hdi Hal Hto Hsm] Hrx Hnx (Hl1 & Hl2 & Hl3) E1 E2 E3 E4 [P1 P3] [P2 P4] Q1 Q2 Hint Hls Hlw Hheld Hheld0 Htold.
  remember (r_node x) as m eqn:Em.
  assert (∀ k, ptr_key (ref_set r z (node_set m y s)) k = ptr_key s k) as Hpk.
  { intros k. unfold ptr_key. cbn. by_key m k; [by rewrite Hnx; cbn; rewrite Hl2|done]. }
  assert (∀ k, desc_key (ref_set r z (node_set m y s)) k = desc_key s k) as Hdk.
  { intros k. unfold desc_key. cbn. by_key r k; [by rewrite Hrx; cbn; rewrite E3|done]. }
  assert (∀ k, node_key (ref_set r z (node_set m y s)) k = node_key s k) as Hnk.
  { intros k. unfold node_key. cbn. by_key r k; [rewrite Hrx; cbn; congruence|done]. }
  assert (∀ k p, (∃ u, <[r := z]> (ks_refs s) !! k = Some u ∧ r_proc u = p) ↔ (∃ u, ks_refs s !! k = Some u ∧ r_proc u = p)) as Hrp.
  { intros k p. by_key r k; [|done]. rewrite Hrx. split; intros (u & [= <-] & Hu); eexists; (split; [done|congruence]). }
  destruct (Hr _ _ Hrx) as (Hr1 & Hr2 & Hr3 & Hr4 & n0 & Hn0 & Hin). rewrite <- Em, Hnx in Hn0. injection Hn0 as <-.
  destruct (Hx _ _ Hnx) as (Hx1 & Hx2 & Hx3 & Hx4 & _).
  split; cbn [ref_set node_set set_ks_refs set_ks_nodes ks_procs ks_nodes ks_refs ks_deaths].
  - destruct Hz as (? & ? & ? & ?). split_and!; [done|rewrite lookup_insert_ne; congruence|rewrite lookup_insert_ne; congruence|done].
  - intros p k Hp. eapply tree_for_ext; [|intros q|by apply Hn]; [intros; apply Hpk|]. by_key m q; [|done].
    rewrite Hnx. split; intros (u & [= <-] & Hu); eexists; (split; [done|congruence]).
  - intros p k Hp. eapply tree_for_ext; [|intros q|by apply Hd]; [intros; apply Hdk|]. symmetry. apply Hrp.
  - intros p k Hp. eapply tree_for_ext; [|intros q|by apply Hb]; [intros; apply Hnk|]. symmetry. apply Hrp.
  - intros r' x' Hr'. assert (∃ x0, ks_refs s !! r' = Some x0 ∧ r_node x' = r_node x0 ∧ r_proc x' = r_proc x0 ∧ r_desc x' = r_desc x0 ∧
      0 ≤ r_strong x' ∧ 0 ≤ r_weak x') as (x0 & Hx0 & -> & -> & -> & ? & ?).
    { revert Hr'. by_key r r'; intros Hr'; [injection Hr' as <-; exists x; split_and!; congruence|]. exists x'.
      destruct (Hr _ _ Hr') as (? & ? & ? & ? & _). by split_and!. }
    destruct (Hr _ _ Hx0) as (H1 & H2 & _ & _ & n' & H5 & H6). split_and!; try done; [lia..|].
    destruct (decide (r_node x0 = m)) as [Hq|]; [|rewrite lookup_insert_ne by congruence; by eauto].
    rewrite Hq in *. rewrite lookup_insert_eq. exists y. split; [done|]. rewrite Hl3. rewrite Hnx in H5. by injection H5 as <-.
  - intros n' x' Hn'. revert Hn'. by_key m n'; intros Hn'.
    + injection Hn' as <-. rewrite Hl1, Hl3. split; [done|]. split.
      { intros r' Hr'. destruct (Hx2 _ Hr') as (u & Hu & Hum). by_key r r'; [|by eauto]. exists z. split; [done|].
        rewrite E2. done. }
      split; [done|]. split; [|done]. rewrite Hint, Hx4. rewrite (strong_count_insert _ _ x) by done. lia.
    + destruct (Hx _ _ Hn') as (A1 & A2 & A3 & A4 & A5 & A6). rewrite !Hheld by congruence. split; [done|]. split.
      { intros r' Hr'. destruct (A2 _ Hr') as (u & Hu & Hum). by_key r r'; [|by eauto]. exists z. split; [done|].
        rewrite E2. congruence. }
      split; [done|]. split; [|done]. rewrite A4. symmetry. apply strong_count_insert_ne. intros Hr'.
      destruct (A2 _ Hr') as (u & Hu & Hum). congruence.
  - intros m' b. destruct (decide (m' = m)) as [->|]; [by apply Hheld0|]. rewrite Hheld by done. apply Hh.
  - intros r' x'. by_key r r'; [|apply Hde]. intros [= <-]. rewrite E4. exact (Hde _ _ Hrx).
  - intros r1 r2 x1 x2. by_key r r1; by_key r r2; intros H1 H2; try (injection H1 as <-); try (injection H2 as <-); rewrite ?E4.
    + done.
    + intros Hne Heq. by eapply (Hdi r r2).
    + intros Hne Heq. by eapply (Hdi r1 r).
    + by eapply Hdi.
  - intros m' b Hb0. by_key m m'; [by eauto|]. rewrite Hheld in Hb0 by congruence. by eapply Hal.
  - intros m' u. by_key m m'; [by intros [= <-]|apply Hto].
  - destruct Hsm as [Hsr Hsn]. split; apply map_Forall_insert_2; [done..| |done]. rewrite Hl3. by destruct (Hsn _ _ Hnx).
Qed.

(** Only the counts of a node change. *)
Lemma node_update_ok held held' s m n y :
  refs_ok held s → ks_nodes s !! m = Some n → same_links n y →
  n_internal_strong_refs y = n_internal_strong_refs n → n_local_strong_refs y < 2 ^ 31 → n_local_weak_refs y < 2 ^ 31 →
  n_local_strong_refs y = held' m true + c_bool (n_pending_strong_ref y) →
  n_local_weak_refs y = held' m false + c_bool (n_pending_weak_ref y) →
  (∀ m' b, m' ≠ m → held' m' b = held m' b) → (∀ b, 0 ≤ held' m b) → told y = true → refs_ok held' (node_set m y s).
Proof.
  intros [Hz Hn Hd Hb Hr Hx Hh Hde Hdi Hal Hto Hsm] Hnx (Hl1 & Hl2 & Hl3) Hint Q1 Q2 Hls Hlw Hheld Hheld0 Htold.
  assert (∀ k, ptr_key (node_set m y s) k = ptr_key s k) as Hpk.
  { intros k. unfold ptr_key. cbn. by_key m k; [by rewrite Hnx; cbn; rewrite Hl2|done]. }
  destruct (Hx _ _ Hnx) as (Hx1 & Hx2 & Hx3 & Hx4 & _).
  split; cbn [node_set set_ks_nodes ks_procs ks_nodes ks_refs ks_deaths]; try done.
  - destruct Hz as (? & ? & ? & ?). split_and!; [done|rewrite lookup_insert_ne; congruence|done..].
  - intros p k Hp. eapply tree_for_ext; [|intros q|by apply Hn]; [intros; apply Hpk|]. by_key m q; [|done].
    rewrite Hnx. split; intros (u & [= <-] & Hu); eexists; (split; [done|congruence]).
  - intros r' x' Hr'. destruct (Hr _ _ Hr') as (H1 & H2 & H3 & H4 & n' & H5 & H6). split_and!; try done; [lia..|].
    destruct (decide (r_node x' = m)) as [Hq|]; [|rewrite lookup_insert_ne by congruence; by eauto].
    rewrite Hq in *. rewrite lookup_insert_eq. exists y. split; [done|]. rewrite Hl3. rewrite Hnx in H5. by injection H5 as <-.
  - intros n' x' Hn'. revert Hn'. by_key m n'; intros Hn'.
    + injection Hn' as <-. rewrite Hl1, Hl3, Hint. by split_and!.
    + rewrite !Hheld by congruence. by apply Hx.
  - intros m' b. destruct (decide (m' = m)) as [->|]; [by apply Hheld0|]. rewrite Hheld by done. apply Hh.
  - intros m' b Hb0. by_key m m'; [by eauto|]. rewrite Hheld in Hb0 by congruence. by eapply Hal.
  - intros m' u. by_key m m'; [by intros [= <-]|apply Hto].
  - destruct Hsm as [Hsr Hsn]. split; [done|]. apply map_Forall_insert_2; [|done]. rewrite Hl3. by destruct (Hsn _ _ Hnx).
Qed.
