(* ===== verification/KRefsInv.v ===== *)
(** * Binder driver: making and removing nodes and references

    The four changes to the set of objects keep the invariant. *)
From stdpp Require Import sorting gmap.
From S2P Require Import Prelude Bio Binder KAlloc KAllocSpec KState KRefs KQueues KRefsSpec.

Section Changes.
Context `{RbLaws}.

(** A tree of one process is replaced. *)
Definition proc_set (p : Z) (k : kproc) (s : kstate) : kstate := set_ks_procs (<[p := k]> (ks_procs s)) s.

Lemma proc_is_Some s p k q : ks_procs s !! p = Some k → ∀ k', is_Some (ks_procs s !! q) → is_Some (<[p := k']> (ks_procs s) !! q).
Proof. intros Hp k' Hq. by_key p q; [by eauto|done]. Qed.

(** ** A new node *)

Definition add_node (p n ptr cookie : Z) (t : rb_tree) (k : kproc) (s : kstate) : kstate :=
  node_set n (new_node p ptr cookie) (proc_set p (set_k_nodes (rb_insert_color n t) k) s).

Lemma add_node_ok held s p n ptr cookie t k :
  refs_ok held s → ks_procs s !! p = Some k → n ≠ 0 → ks_nodes s !! n = None →
  rb_link (ptr_key s) ptr n (k_nodes k) = Some t →
  (∀ m x, ks_nodes s !! m = Some x → n_proc x = p → n_ptr x ≠ ptr) →
  refs_ok held (add_node p n ptr cookie t k s).
Proof.
  intros [Hz Hn Hd Hb Hr Hx Hh Hde Hdi Hal Hto Hsm] Hp Hn0 Hnew Hlink Hfree.
  assert (∀ b, held n b = 0) as Hheld.
  { intros b. specialize (Hh n b). destruct (decide (1 ≤ held n b)) as [Hc|]; [destruct (Hal _ _ Hc); congruence|lia]. }
  assert (∀ m, m ≠ n → ptr_key (add_node p n ptr cookie t k s) m = ptr_key s m) as Hpk.
  { intros m Hm. unfold ptr_key. cbn. by rewrite lookup_insert_ne by congruence. }
  assert (∀ q k', <[p := set_k_nodes (rb_insert_color n t) k]> (ks_procs s) !! q = Some k' → ∃ k0, ks_procs s !! q = Some k0 ∧
    k_refs_by_desc k' = k_refs_by_desc k0 ∧ k_refs_by_node k' = k_refs_by_node k0) as Hpr.
  { intros q k'. by_key p q; [intros [= <-]; by exists k|]. intros Hq. by exists k'. }
  split; cbn [add_node node_set proc_set set_ks_nodes set_ks_procs ks_procs ks_nodes ks_refs ks_deaths].
  - destruct Hz as (? & ? & ? & ?). split_and!; [rewrite lookup_insert_ne; congruence|rewrite lookup_insert_ne; congruence|done..].
  - intros q k'. by_key p q; intros Hq.
    + injection Hq as <-. cbn [set_k_nodes k_nodes].
      eapply tree_for_ext; [| |eapply (tree_for_link _ (ptr_key (add_node p n ptr cookie t k s))); [by apply Hn|exact Hlink|..]]; cbv beta.
      * done.
      * intros m. by_key n m; [|split; [by intros [->|]|by right]]. split; [by eexists|by left].
      * intros m (x & Hm & Hmp). unfold ptr_key. rewrite Hm. cbn. intros [= Heq]. by eapply Hfree.
      * intros (x & Hm & _). congruence.
      * intros m (x & Hm & _). apply Hpk. congruence.
      * unfold ptr_key. cbn. by rewrite lookup_insert_eq.
    + eapply tree_for_ext; [|intros m|by apply Hn].
      * intros m (x & Hm & _). apply Hpk. congruence.
      * by_key n m; [|done]. split; [intros (x & Hm & _); congruence|]. intros (x & [= <-] & Hm). cbn in Hm. congruence.
  - intros q k' Hq. destruct (Hpr _ _ Hq) as (k0 & Hk0 & -> & _). exact (Hd _ _ Hk0).
  - intros q k' Hq. destruct (Hpr _ _ Hq) as (k0 & Hk0 & _ & ->). exact (Hb _ _ Hk0).
  - intros r x Hrx. destruct (Hr _ _ Hrx) as (H1 & H2 & H3 & H4 & m & H5 & H6). split; [by eapply proc_is_Some|].
    split_and!; try done; [lia..|]. exists m. split; [|done]. rewrite lookup_insert_ne by congruence. done.
  - intros m x. by_key n m; intros Hm.
    + injection Hm as <-. cbn. rewrite !Hheld. split; [constructor|]. split; [intros r Hrr; by apply elem_of_nil in Hrr|].
      split; [|done]. intros _. by rewrite lookup_insert_eq.
    + destruct (Hx _ _ Hm) as (A1 & A2 & A3 & A4). split; [done|]. split; [done|]. split; [|done].
      intros Hne. by eapply proc_is_Some, A3.
  - done.
  - done.
  - done.
  - intros m b Hb0. by_key n m; [by eauto|by eapply Hal].
  - intros m u. by_key n m; [by intros [= <-]|apply Hto].
  - destruct Hsm. split; [done|]. by apply map_Forall_insert_2.
Qed.

(** ** A new reference *)

Definition add_ref (p m r desc : Z) (t1 t2 : rb_tree) (k : kproc) (x : binder_node) (s : kstate) : kstate :=
  node_set m (set_n_refs (r :: n_refs x) x)
    (ref_set r (Ref p m desc 0 0 0)
      (proc_set p (set_k_refs_by_desc (rb_insert_color r t2) (set_k_refs_by_node (rb_insert_color r t1) k)) s)).

Lemma add_ref_ok held s p m r desc t1 t2 k x :
  refs_ok held s → ks_procs s !! p = Some k → ks_nodes s !! m = Some x → r ≠ 0 → ks_refs s !! r = None → 0 ≤ desc < 2 ^ 32 - 1 →
  zlen (n_refs x) < 2 ^ 31 - 1 →
  rb_link (node_key s) m r (k_refs_by_node k) = Some t1 → rb_link (desc_key s) desc r (k_refs_by_desc k) = Some t2 →
  (∀ q y, ks_refs s !! q = Some y → r_proc y = p → r_node y ≠ m ∧ r_desc y ≠ desc) →
  refs_ok held (add_ref p m r desc t1 t2 k x s).
Proof.
  intros [Hz Hn Hd Hb Hr Hx Hh Hde Hdi Hal Hto Hsm] Hp Hm Hr0 Hnew Hdesc Hroom L1 L2 Hfree. set (s' := add_ref p m r desc t1 t2 k x s).
  assert (∀ q, q ≠ r → desc_key s' q = desc_key s q ∧ node_key s' q = node_key s q) as Hkey.
  { intros q Hq. unfold desc_key, node_key. cbn. by rewrite lookup_insert_ne by congruence. }
  assert (∀ q, ptr_key s' q = ptr_key s q) as Hpk.
  { intros q. unfold ptr_key. cbn. by_key m q; [by rewrite Hm|done]. }
  assert (∀ q u, (∃ y, ks_refs s' !! u = Some y ∧ r_proc y = q) ↔ (u = r ∧ q = p) ∨ (∃ y, ks_refs s !! u = Some y ∧ r_proc y = q)) as Hmem.
  { intros q u. cbn. by_key r u.
    - split; [intros (y & [= <-] & Hy); left; by cbn in Hy|]. intros [[_ ->]|(y & Hy & _)]; [by eexists|congruence].
    - split; [by right|]. intros [[-> _]|Hy]; [congruence|done]. }
  assert (∀ key key' v t t', (∀ u, u ≠ r → key' u = key u) → key' r = Some v → rb_link key v r t = Some t' →
    tree_for key t (λ u, ∃ y, ks_refs s !! u = Some y ∧ r_proc y = p) →
    (∀ u y, ks_refs s !! u = Some y → r_proc y = p → key u ≠ Some v) →
    tree_for key' (rb_insert_color r t') (λ u, ∃ y, ks_refs s' !! u = Some y ∧ r_proc y = p)) as Hins.
  { intros key key' v t t' He Hv Hl Ht Hnv. eapply tree_for_ext; [| |eapply (tree_for_link _ key'); [exact Ht|exact Hl|..]]; cbv beta.
    - done.
    - intros u. rewrite Hmem. split; [intros [->|]; [by left|by right]|intros [[-> _]|]; [by left|by right]].
    - intros u (y & Hy & Hyp). by eapply Hnv.
    - intros (y & Hy & _). congruence.
    - intros u (y & Hy & _). apply He. congruence.
    - done. }
  assert (∀ key key' t q, q ≠ p → (∀ u, u ≠ r → key' u = key u) → tree_for key t (λ u, ∃ y, ks_refs s !! u = Some y ∧ r_proc y = q) →
    tree_for key' t (λ u, ∃ y, ks_refs s' !! u = Some y ∧ r_proc y = q)) as Hoth.
  { intros key key' t q Hq He Ht. eapply tree_for_ext; [|intros u|exact Ht].
    - intros u (y & Hy & _). apply He. congruence.
    - rewrite Hmem. split; [by right|]. intros [[_ ->]|]; done. }
  split; cbn [s' add_ref node_set ref_set proc_set set_ks_nodes set_ks_refs set_ks_procs ks_procs ks_nodes ks_deaths].
  - destruct Hz as (? & ? & ? & ?). cbn. split_and!; [rewrite lookup_insert_ne; congruence..|done].
  - intros q k' Hq. assert (∃ k0, ks_procs s !! q = Some k0 ∧ k_nodes k' = k_nodes k0) as (k0 & Hk0 & ->).
    { revert Hq. by_key p q; [intros [= <-]; by exists k|]. intros Hq. by exists k'. }
    eapply tree_for_ext; [|intros u|by apply Hn]; [intros; apply Hpk|]. by_key m u; [|done].
    rewrite Hm. split; intros (y & [= <-] & Hy); by eexists.
  - intros q k'. by_key p q; intros Hq.
    + injection Hq as <-. cbn [set_k_refs_by_desc k_refs_by_desc]. eapply (Hins (desc_key s)); [intros u Hu; by apply Hkey| |exact L2|by apply Hd|].
      * unfold desc_key. cbn. by rewrite lookup_insert_eq.
      * intros u y Hy Hyp. unfold desc_key. rewrite Hy. cbn. intros [= Heq]. by destruct (Hfree _ _ Hy Hyp).
    + apply (Hoth (desc_key s)); [congruence|intros u Hu; by apply Hkey|by apply Hd].
  - intros q k'. by_key p q; intros Hq.
    + injection Hq as <-. cbn [set_k_refs_by_desc set_k_refs_by_node k_refs_by_node].
      eapply (Hins (node_key s)); [intros u Hu; by apply Hkey| |exact L1|by apply Hb|].
      * unfold node_key. cbn. by rewrite lookup_insert_eq.
      * intros u y Hy Hyp. unfold node_key. rewrite Hy. cbn. intros [= Heq]. by destruct (Hfree _ _ Hy Hyp).
    + apply (Hoth (node_key s)); [congruence|intros u Hu; by apply Hkey|by apply Hb].
  - intros u y. cbn. by_key r u; intros Hy.
    + injection Hy as <-. cbn. split; [by rewrite lookup_insert_eq; eauto|]. split_and!; try lia. rewrite lookup_insert_eq.
      eexists. split; [done|]. cbn. apply elem_of_cons. by left.
    + destruct (Hr _ _ Hy) as (H1 & H2 & H3 & H4 & nd & H5 & H6). split; [by eapply proc_is_Some|]. split_and!; try done; [lia..|].
      destruct (decide (r_node y = m)) as [Hq|]; [|rewrite lookup_insert_ne by congruence; by eauto].
      rewrite Hq, Hm in H5. injection H5 as <-. rewrite Hq, lookup_insert_eq. eexists. split; [done|]. cbn. apply elem_of_cons. by right.
  - intros n y Hy. assert (r ∉ n_refs y ∨ n = m) as Hcase.
    { destruct (decide (n = m)) as [->|]; [by right|left]. rewrite lookup_insert_ne in Hy by congruence. intros Hin.
      destruct (Hx _ _ Hy) as (_ & A2 & _). destruct (A2 _ Hin) as (z & Hz' & _). congruence. }
    revert Hy. by_key m n; intros Hy.
    + injection Hy as <-. cbn. destruct (Hx _ _ Hm) as (A1 & A2 & A3 & A4 & A5 & A6).
      assert (r ∉ n_refs x) as Hrn. { intros Hin. destruct (A2 _ Hin) as (z & Hz' & _). congruence. }
      split; [by constructor|]. split.
      { intros u [->|Hu]%elem_of_cons; [rewrite lookup_insert_eq; by eexists|]. rewrite lookup_insert_ne; [by apply A2|]. intros <-. done. }
      split; [intros Hne; by eapply proc_is_Some, A3|]. split; [|done].
      rewrite A4, strong_count_cons, lookup_insert_eq, strong_count_insert_ne by done. done.
    + destruct Hcase as [Hcase|]; [|congruence]. destruct (Hx _ _ Hy) as (A1 & A2 & A3 & A4 & A5). cbn.
      split; [done|]. split; [intros u Hu; rewrite lookup_insert_ne by (intros <-; done); by apply A2|].
      split; [intros Hne; by eapply proc_is_Some, A3|]. split; [|done]. by rewrite strong_count_insert_ne.
  - done.
  - intros u y. cbn. by_key r u; [by intros [= <-]|]. apply Hde.
  - intros u1 u2 y1 y2. cbn. by_key r u1; by_key r u2; intros E1 E2; try (injection E1 as <-); try (injection E2 as <-); cbn.
    + done.
    + done.
    + intros ? ?. congruence.
    + by eapply Hdi.
  - intros m' b Hb0. by_key m m'; [by eauto|by eapply Hal].
  - intros m' u. by_key m m'; [intros [= <-]; exact (Hto _ _ Hm)|apply Hto].
  - destruct Hsm as [Hsr Hsn]. split; apply map_Forall_insert_2; [done..| |done]. destruct (Hsn _ _ Hm) as (_ & ? & ?). cbn. split; [lia|done].
Qed.

(** ** A reference goes *)

Definition remove_ref (r : Z) (x : binder_ref) (k : kproc) (n : binder_node) (s : kstate) : kstate :=
  node_set (r_node x) (set_n_internal_strong_refs (n_internal_strong_refs n - is_strong x)
                         (set_n_refs (filter (λ m, m ≠ r) (n_refs n)) n))
    (proc_set (r_proc x) (set_k_refs_by_node (rb_erase r (k_refs_by_node k))
                            (set_k_refs_by_desc (rb_erase r (k_refs_by_desc k)) k))
      (set_ks_deaths (delete (r_death x) (ks_deaths s)) (set_ks_refs (delete r (ks_refs s)) s))).

Lemma remove_ref_ok held s r x k n :
  refs_ok held s → ks_refs s !! r = Some x → ks_procs s !! r_proc x = Some k → ks_nodes s !! r_node x = Some n →
  refs_ok held (remove_ref r x k n s).
Proof.
  intros [Hz Hn Hd Hb Hr Hx Hh Hde Hdi Hal Hto Hsm] Hrx Hp Hm. set (s' := remove_ref r x k n s).
  assert (∀ q, q ≠ r → desc_key s' q = desc_key s q ∧ node_key s' q = node_key s q) as Hkey.
  { intros q Hq. unfold desc_key, node_key. cbn. by rewrite lookup_delete_ne by congruence. }
  assert (∀ q, ptr_key s' q = ptr_key s q) as Hpk.
  { intros q. unfold ptr_key. cbn. by_key (r_node x) q; [by rewrite Hm|done]. }
  assert (∀ q u, (∃ y, ks_refs s' !! u = Some y ∧ r_proc y = q) ↔ (∃ y, ks_refs s !! u = Some y ∧ r_proc y = q) ∧ u ≠ r) as Hmem.
  { intros q u. cbn. destruct (decide (r = u)) as [<-|Hne]; [rewrite lookup_delete_eq|rewrite lookup_delete_ne by done].
    - split; [by intros (? & ? & _)|by intros [_ ?]].
    - split; [by split|by intros [? _]]. }
  assert (∀ key key' t q, (∀ u, u ≠ r → key' u = key u) → tree_for key t (λ u, ∃ y, ks_refs s !! u = Some y ∧ r_proc y = q) →
    tree_for key' (rb_erase r t) (λ u, ∃ y, ks_refs s' !! u = Some y ∧ r_proc y = q)) as Hera.
  { intros key key' t q He Ht. eapply tree_for_ext; [|intros u|by apply (tree_for_erase _ r), Ht].
    - intros u [_ Hu]. by apply He.
    - by rewrite Hmem. }
  assert (∀ key key' t q, q ≠ r_proc x → (∀ u, u ≠ r → key' u = key u) →
    tree_for key t (λ u, ∃ y, ks_refs s !! u = Some y ∧ r_proc y = q) →
    tree_for key' t (λ u, ∃ y, ks_refs s' !! u = Some y ∧ r_proc y = q)) as Hoth.
  { intros key key' t q Hq He Ht.
    assert (∀ u, (∃ y, ks_refs s !! u = Some y ∧ r_proc y = q) → u ≠ r) as Hne by (intros u (y & Hy & Hyq); congruence).
    eapply tree_for_ext; [|intros u|exact Ht]; [intros u Hu; by apply He, Hne|]. rewrite Hmem. split; [intros Hu; split; [done|by apply Hne]|tauto]. }
  destruct (Hr _ _ Hrx) as (_ & _ & Hst & _ & n0 & Hn0 & Hin). rewrite Hm in Hn0. injection Hn0 as <-.
  destruct (Hx _ _ Hm) as (B1 & B2 & B3 & B4 & B5 & B6).
  split; cbn [s' remove_ref node_set proc_set set_ks_nodes set_ks_refs set_ks_procs set_ks_deaths ks_procs ks_nodes ks_deaths].
  - destruct Hz as (? & ? & ? & ?). cbn. split_and!; [rewrite lookup_insert_ne; congruence..| |by rewrite lookup_delete_None; right].
    by rewrite lookup_delete_None; right.
  - intros q k' Hq. assert (∃ k0, ks_procs s !! q = Some k0 ∧ k_nodes k' = k_nodes k0) as (k0 & Hk0 & ->).
    { revert Hq. by_key (r_proc x) q; [intros [= <-]; by exists k|]. intros Hq. by exists k'. }
    eapply tree_for_ext; [|intros u|by apply Hn]; [intros; apply Hpk|]. by_key (r_node x) u; [|done].
    rewrite Hm. split; intros (y & [= <-] & Hy); by eexists.
  - intros q k'. by_key (r_proc x) q; intros Hq.
    + injection Hq as <-. cbn [set_k_refs_by_node set_k_refs_by_desc k_refs_by_desc]. eapply (Hera (desc_key s)); [intros u Hu; by apply Hkey|by apply Hd].
    + apply (Hoth (desc_key s)); [congruence|intros u Hu; by apply Hkey|by apply Hd].
  - intros q k'. by_key (r_proc x) q; intros Hq.
    + injection Hq as <-. cbn [set_k_refs_by_node set_k_refs_by_desc k_refs_by_node]. eapply (Hera (node_key s)); [intros u Hu; by apply Hkey|by apply Hb].
    + apply (Hoth (node_key s)); [congruence|intros u Hu; by apply Hkey|by apply Hb].
  - intros u y Hy. change (delete r (ks_refs s) !! u = Some y) in Hy. apply lookup_delete_Some in Hy as [Hne Hy]. destruct (Hr _ _ Hy) as (H1 & H2 & H3 & H4 & nd & H5 & H6).
    split; [by eapply proc_is_Some|]. split_and!; try done; [lia..|].
    destruct (decide (r_node y = r_node x)) as [Hq|]; [|rewrite lookup_insert_ne by congruence; by eauto].
    rewrite Hq, Hm in H5. injection H5 as <-. rewrite Hq, lookup_insert_eq. eexists. split; [done|]. cbn.
    apply list_elem_of_filter. by split.
  - intros m y. by_key (r_node x) m; intros Hy.
    + injection Hy as <-. cbn. split; [by apply NoDup_filter|]. split.
      { intros u [Hu1 Hu2]%list_elem_of_filter. destruct (B2 _ Hu2) as (z & Hz1 & Hz2). exists z. by rewrite lookup_delete_ne. }
      split; [intros Hne; by eapply proc_is_Some, B3|]. split; [|done].
      rewrite strong_count_delete by (rewrite list_elem_of_filter; tauto). rewrite (strong_count_filter _ _ x) by done. lia.
    + destruct (Hx _ _ Hy) as (A1 & A2 & A3 & A4 & A5). cbn.
      assert (r ∉ n_refs y) as Hrn. { intros Hin'. destruct (A2 _ Hin') as (z & Hz1 & Hz2). congruence. }
      split; [done|]. split; [intros u Hu; rewrite lookup_delete_ne by (intros <-; done); by apply A2|].
      split; [intros Hne; by eapply proc_is_Some, A3|]. split; [|done]. by rewrite strong_count_delete.
  - done.
  - intros u y Hy. change (delete r (ks_refs s) !! u = Some y) in Hy. apply lookup_delete_Some in Hy as [Hne Hy]. intros Hd0. destruct (Hde _ _ Hy Hd0) as [d Hd1]. exists d.
    rewrite lookup_delete_ne; [done|]. intros Heq. apply Hne. eapply Hdi; [exact Hrx|exact Hy|congruence|done].
  - intros u1 u2 y1 y2 E1 E2. change (delete r (ks_refs s) !! u1 = Some y1) in E1.
    change (delete r (ks_refs s) !! u2 = Some y2) in E2. apply lookup_delete_Some in E1 as [_ E1]. apply lookup_delete_Some in E2 as [_ E2]. by eapply Hdi.
  - intros m b Hb0. by_key (r_node x) m; [by eauto|by eapply Hal].
  - intros m u. by_key (r_node x) m; [intros [= <-]; exact (Hto _ _ Hm)|apply Hto].
  - destruct Hsm as [Hsr Hsn]. split; [by apply map_Forall_delete|]. apply map_Forall_insert_2; [|done].
    destruct (Hsn _ _ Hm) as (? & ? & ?). pose proof (length_filter (λ m, m ≠ r) (n_refs n)). cbn. split; [lia|done].
Qed.

(** ** A node goes *)

Definition remove_node (n : Z) (x : binder_node) (s : kstate) : kstate :=
  set_ks_nodes (delete n (ks_nodes s))
    (if truthy (n_proc x) then set_ks_procs (alter (λ k, set_k_nodes (rb_erase n (k_nodes k)) k) (n_proc x) (ks_procs s)) s
     else set_ks_dead_nodes (filter (λ m, m ≠ n) (ks_dead_nodes s)) s).

Lemma remove_node_procs n x s q k' :
  ks_procs (remove_node n x s) !! q = Some k' → ∃ k0, ks_procs s !! q = Some k0 ∧ k_refs_by_desc k' = k_refs_by_desc k0 ∧
    k_refs_by_node k' = k_refs_by_node k0 ∧ k_nodes k' = if (n_proc x =? q) && truthy (n_proc x) then rb_erase n (k_nodes k0) else k_nodes k0.
Proof.
  unfold remove_node. destruct (truthy (n_proc x)) eqn:Ht; cbn; [|intros Hk; exists k'; by rewrite andb_false_r].
  destruct (Z.eqb_spec (n_proc x) q) as [<-|Hne]; cbn.
  - rewrite lookup_alter_eq. destruct (ks_procs s !! n_proc x) as [k0|]; [|done]. intros [= <-]. by exists k0.
  - rewrite lookup_alter_ne by done. intros Hk. by exists k'.
Qed.

Lemma remove_node_is_proc n x s q : is_Some (ks_procs s !! q) → is_Some (ks_procs (remove_node n x s) !! q).
Proof.
  unfold remove_node. destruct (truthy (n_proc x)); cbn; [|done]. intros [k Hk].
  destruct (decide (n_proc x = q)) as [<-|]; [rewrite lookup_alter_eq, Hk; by eexists|by rewrite lookup_alter_ne; eauto].
Qed.

Lemma remove_node_ok held s n x :
  refs_ok held s → ks_nodes s !! n = Some x → n_refs x = [] → (∀ b, held n b = 0) → refs_ok held (remove_node n x s).
Proof.
  intros [Hz Hn Hd Hb Hr Hx Hh Hde Hdi Hal Hto Hsm] Hm Hrefs Hnh. set (s' := remove_node n x s).
  assert (ks_nodes s' = delete n (ks_nodes s)) as Ens by done.
  assert (ks_refs s' = ks_refs s ∧ ks_deaths s' = ks_deaths s) as [Ers Eds] by (unfold s', remove_node; by destruct (truthy _)).
  assert (∀ m, m ≠ n → ptr_key s' m = ptr_key s m) as Hpk.
  { intros m Hne. unfold ptr_key. rewrite Ens. by rewrite lookup_delete_ne by congruence. }
  destruct (Hz) as (Hz1 & Hz2 & Hz3 & Hz4).
  split; rewrite ?Ens, ?Ers, ?Eds.
  - split_and!; [|by rewrite lookup_delete_None; right|done..]. destruct (ks_procs s' !! 0) as [k|] eqn:E; [|done].
    destruct (remove_node_procs _ _ _ _ _ E) as (k0 & Hk0 & _). congruence.
  - intros q k' Hq. destruct (remove_node_procs _ _ _ _ _ Hq) as (k0 & Hk0 & _ & _ & Hkn).
    assert (∀ m, (∃ y, delete n (ks_nodes s) !! m = Some y ∧ n_proc y = q) ↔ (∃ y, ks_nodes s !! m = Some y ∧ n_proc y = q) ∧ m ≠ n) as Hmem.
    { intros m. split; [intros (y & [Hy1 Hy2]%lookup_delete_Some & Hy3); by eauto|]. intros [(y & Hy1 & Hy2) Hne].
      exists y. by rewrite lookup_delete_ne. }
    destruct (Z.eqb_spec (n_proc x) q) as [Heq|Hne].
    + assert (truthy (n_proc x) = true) as Ht by (unfold truthy; destruct (Z.eqb_spec (n_proc x) 0); [congruence|done]).
      rewrite Ht in Hkn. cbn in Hkn. rewrite Hkn. eapply tree_for_ext; [|intros m|by apply (tree_for_erase _ n), Hn].
      * intros m [_ Hne]. by apply Hpk.
      * by rewrite Hmem.
    + cbn in Hkn. rewrite Hkn. assert (∀ m, (∃ y, ks_nodes s !! m = Some y ∧ n_proc y = q) → m ≠ n) as Hmn by (intros m (y & Hy & ?); congruence).
      eapply tree_for_ext; [|intros m|by apply Hn]; [intros m Hq'; by apply Hpk, Hmn|]. rewrite Hmem. split; [intros Hq'; split; [done|by apply Hmn]|tauto].
  - intros q k' Hq. destruct (remove_node_procs _ _ _ _ _ Hq) as (k0 & Hk0 & -> & _). unfold desc_key. rewrite Ers. exact (Hd _ _ Hk0).
  - intros q k' Hq. destruct (remove_node_procs _ _ _ _ _ Hq) as (k0 & Hk0 & _ & -> & _). unfold node_key. rewrite Ers. exact (Hb _ _ Hk0).
  - intros r y Hy. destruct (Hr _ _ Hy) as (H1 & H2 & H3 & H4 & nd & H5 & H6). split; [by apply remove_node_is_proc|].
    split_and!; try done; [lia..|]. exists nd. rewrite lookup_delete_ne; [done|]. intros Heq. rewrite <- Heq, Hm in H5. injection H5 as <-.
    rewrite Hrefs in H6. by apply elem_of_nil in H6.
  - intros m y Hy. apply lookup_delete_Some in Hy as [Hne Hy]. destruct (Hx _ _ Hy) as (A1 & A2 & A3 & A4). split; [done|]. split; [done|].
    split; [|done]. intros Hp. by apply remove_node_is_proc, A3.
  - done.
  - done.
  - done.
  - intros m b Hb0. rewrite lookup_delete_ne; [by eapply Hal|]. intros <-. rewrite Hnh in Hb0. lia.
  - intros m u [_ Hu]%lookup_delete_Some. by eapply Hto.
  - destruct Hsm as [Hsr Hsn]. split; [by rewrite Ers|]. rewrite Ens. by apply map_Forall_delete.
Qed.

End Changes.
