(* ===== verification/KRefsOps.v ===== *)
(** * Binder driver: what the operations on nodes and references do

    Each operation run from a state that satisfies the invariant: it returns, and the state
    behind it is the old one with the counts changed and, where nothing refers to
    a node or a reference any more, with that object gone. *)
From stdpp Require Import sorting gmap.
From S2P Require Import Prelude Bio Binder KAlloc KAllocSpec KState KRefs KQueues KRefsSpec KRefsInv.

(** Nodes with queued asynchronous transactions are held by them. *)
Definition async_ok (held : Z → bool → Z) (s : kstate) : Prop :=
  ∀ n l, queue_items s (Q_async n) = Some l → l ≠ [] → 1 ≤ held n true.

(** No queue of a node became longer than empty. *)
Definition async_le (s s' : kstate) : Prop :=
  ∀ n l, queue_items s' (Q_async n) = Some l → l ≠ [] → ∃ l0, queue_items s (Q_async n) = Some l0 ∧ l0 ≠ [].

Lemma async_le_refl s : async_le s s.
Proof. intros n l Hl Hne. by exists l. Qed.

Lemma async_le_trans s1 s2 s3 : async_le s1 s2 → async_le s2 s3 → async_le s1 s3.
Proof. intros H1 H2 n l Hl Hne. destruct (H2 n l Hl Hne) as (l0 & Hl0 & Hne0). by apply (H1 n l0). Qed.

Lemma async_le_same s s' : same_lists s s' → async_le s s'.
Proof. intros [Hq _] n l. rewrite Hq. intros Hl Hne. by exists l. Qed.

Lemma async_le_linked s w q l s' : linked s w q l s' → (∀ n, q ≠ Q_async n) → async_le s s'.
Proof. intros (_ & _ & Hq) Hna n l0. rewrite Hq, decide_False by (intros Heq; by apply (Hna n)). intros Hl Hne. by exists l0. Qed.

Lemma async_le_unlinked s w s' : unlinked s w s' → async_le s s'.
Proof.
  intros (_ & _ & Hq) n l0. rewrite Hq. destruct (queue_items s (Q_async n)) as [l|]; [|done]. intros [= <-] Hne. exists l. split; [done|].
  intros ->. done.
Qed.

Lemma async_ok_le held held' s s' :
  async_ok held s → async_le s s' → (∀ n, held n true ≤ held' n true) → async_ok held' s'.
Proof. intros Ha Hle Hh n l Hl Hne. destruct (Hle n l Hl Hne) as (l0 & Hl0 & Hne0). specialize (Ha n l0 Hl0 Hne0). specialize (Hh n). lia. Qed.

(** ** Changes on stripped states *)

Lemma strip_eq s s' :
  strip s' = strip s ↔
  clear_proc <$> ks_procs s' = clear_proc <$> ks_procs s ∧ set_th_todo [] <$> ks_threads s' = set_th_todo [] <$> ks_threads s ∧
  clear_node <$> ks_nodes s' = clear_node <$> ks_nodes s ∧ ks_refs s' = ks_refs s ∧
  set_d_entry None <$> ks_deaths s' = set_d_entry None <$> ks_deaths s ∧ set_t_entry None <$> ks_trans s' = set_t_entry None <$> ks_trans s ∧
  ((λ _, None) <$> ks_completes s' : gmap Z (option queue)) = (λ _, None) <$> ks_completes s ∧ ks_proc_list s' = ks_proc_list s ∧
  ks_dead_nodes s' = ks_dead_nodes s ∧ ks_deferred s' = ks_deferred s ∧ ks_context_mgr_node s' = ks_context_mgr_node s ∧
  ks_context_mgr_uid s' = ks_context_mgr_uid s ∧ ks_nice s' = ks_nice s ∧ ks_tick s' = ks_tick s.
Proof.
  split; [intros E|].
  - split_and!; [exact (f_equal ks_procs E)|exact (f_equal ks_threads E)|exact (f_equal ks_nodes E)|exact (f_equal ks_refs E)|
      exact (f_equal ks_deaths E)|exact (f_equal ks_trans E)|exact (f_equal ks_completes E)|exact (f_equal ks_proc_list E)|
      exact (f_equal ks_dead_nodes E)|exact (f_equal ks_deferred E)|exact (f_equal ks_context_mgr_node E)|
      exact (f_equal ks_context_mgr_uid E)|exact (f_equal ks_nice E)|exact (f_equal ks_tick E)].
  - intros (E1 & E2 & E3 & E4 & E5 & E6 & E7 & E8 & E9 & E10 & E11 & E12 & E13 & E14). unfold strip. by f_equal.
Qed.

Lemma strip_node_set s s' n y y' :
  strip s' = strip s → clear_node y' = clear_node y → strip (node_set n y' s') = strip (node_set n y s).
Proof.
  rewrite !strip_eq. intros E Hy. destruct_and! E. cbn. split_and!; try done. rewrite !fmap_insert, Hy. by f_equal.
Qed.

Lemma strip_proc_set s s' p k k' :
  strip s' = strip s → clear_proc k' = clear_proc k → strip (proc_set p k' s') = strip (proc_set p k s).
Proof.
  rewrite !strip_eq. intros E Hy. destruct_and! E. cbn. split_and!; try done. rewrite !fmap_insert, Hy. by f_equal.
Qed.

Lemma strip_ref_set s s' r z : strip s' = strip s → strip (ref_set r z s') = strip (ref_set r z s).
Proof. rewrite !strip_eq. intros E. destruct_and! E. cbn. split_and!; try done. congruence. Qed.

Lemma fmap_alter_clear f p (m : gmap Z kproc) :
  (∀ k, clear_proc (f k) = f (clear_proc k)) → clear_proc <$> alter f p m = alter f p (clear_proc <$> m).
Proof.
  intros Hf. apply map_eq. intros i. rewrite lookup_fmap. destruct (decide (p = i)) as [<-|].
  - rewrite !lookup_alter_eq, lookup_fmap. destruct (m !! p); [|done]. cbn. by rewrite Hf.
  - by rewrite !lookup_alter_ne, lookup_fmap.
Qed.

Lemma strip_remove_node `{RbTree} s s' n x x' :
  strip s' = strip s → n_proc x' = n_proc x → strip (remove_node n x' s') = strip (remove_node n x s).
Proof.
  intros E Hp. apply strip_eq in E as (E1 & E2 & E3 & E4 & E5 & E6 & E7 & E8 & E9 & E10). apply strip_eq.
  unfold remove_node. rewrite Hp. destruct (truthy (n_proc x)); cbn; split_and!; try done; try apply E10; try congruence.
  - by rewrite !fmap_alter_clear, E1.
  - by rewrite !fmap_delete, E3.
  - by rewrite !fmap_delete, E3.
Qed.

(** ** Counting down *)

Section Ops.
Context `{RbLaws}.

Definition dec_counts (strong internal : bool) (x : binder_node) : binder_node :=
  if strong then
    if internal then set_n_internal_strong_refs (s32 (n_internal_strong_refs x - 1)) x
    else set_n_local_strong_refs (s32 (n_local_strong_refs x - 1)) x
  else if internal then x else set_n_local_weak_refs (s32 (n_local_weak_refs x - 1)) x.

(** Nothing refers to the node, in the driver or in user space. *)
Definition gone (y : binder_node) : bool :=
  negb (truthy (n_proc y) && (n_has_strong_ref y || n_has_weak_ref y)) && bool_decide (n_refs y = []) &&
  (n_local_strong_refs y =? 0) && (n_local_weak_refs y =? 0).

Lemma queue_of_proc s p : is_Some (ks_procs s !! p) → ∃ l, queue_items s (Q_proc p) = Some l.
Proof. intros [k Hk]. cbn. rewrite Hk. by eexists. Qed.

Lemma entry_of_node s n y : ks_nodes s !! n = Some y → entry_at s (W_node n) = Some (n_entry y).
Proof. intros Hy. cbn. by rewrite Hy. Qed.

(** Removing a node that is on no list and has no transactions. *)
Lemma remove_node_lists s n y :
  queues_ok s → ks_nodes s !! n = Some y → n_entry y = None → n_async_todo y = [] →
  queues_ok (remove_node n y s) ∧ async_le s (remove_node n y s).
Proof.
  intros [Hl Hn Hk] Hy He Ha. set (s' := remove_node n y s).
  assert (∀ q, queue_items s' q = if decide (q = Q_async n) then None else queue_items s q) as Hq.
  { intros q. destruct q as [p|p|p|p]; unfold s', remove_node; destruct (truthy (n_proc y)); cbn; try done.
    - destruct (decide (n_proc y = p)) as [<-|]; [rewrite lookup_alter_eq|by rewrite lookup_alter_ne].
      by destruct (ks_procs s !! n_proc y).
    - destruct (decide (n = p)) as [<-|]; [by rewrite lookup_delete_eq, decide_True|].
      by rewrite lookup_delete_ne, decide_False by congruence.
    - destruct (decide (n = p)) as [<-|]; [by rewrite lookup_delete_eq, decide_True|].
      by rewrite lookup_delete_ne, decide_False by congruence.
    - destruct (decide (n_proc y = p)) as [<-|]; [rewrite lookup_alter_eq|by rewrite lookup_alter_ne].
      by destruct (ks_procs s !! n_proc y). }
  assert (∀ w, entry_at s' w = if decide (w = W_node n) then None else entry_at s w) as Hw.
  { intros w. destruct w as [p|p|p|p]; unfold s', remove_node; destruct (truthy (n_proc y)); cbn; try done;
      (destruct (decide (n = p)) as [<-|]; [by rewrite lookup_delete_eq, decide_True|by rewrite lookup_delete_ne, decide_False by congruence]). }
  assert (entry_at s (W_node n) = Some None) as Hent by (cbn; by rewrite Hy, <- He).
  split; [split|].
  - intros q l w. rewrite Hq. destruct (decide _); [done|]. intros Hql Hin. rewrite Hw. pose proof (Hl _ _ _ Hql Hin).
    destruct (decide _) as [->|]; [congruence|done].
  - intros q l. rewrite Hq. destruct (decide _); [done|]. apply Hn.
  - intros q w. rewrite Hw. destruct (decide _); [done|]. intros Hen. destruct (Hk _ _ Hen) as (l & Hql & Hin). exists l. split; [|done].
    rewrite Hq. destruct (decide _) as [->|]; [|done]. cbn in Hql. rewrite Hy in Hql. injection Hql as <-. rewrite Ha in Hin.
    by apply elem_of_nil in Hin.
  - intros m l. rewrite Hq. destruct (decide _); [done|]. intros Hql Hne. by exists l.
Qed.

(** Taking a node off its list and out of its process. *)
Definition erase_node (n p : Z) : KM () :=
  _ ← list_del_init (W_node n);
  _ ← (if truthy p then upd_proc p (λ k, set_k_nodes (rb_erase n (k_nodes k)) k)
       else kmod (λ s, set_ks_dead_nodes (filter (λ m, m ≠ n) (ks_dead_nodes s)) s));
  kfree_node n.

Lemma erase_node_run s n y :
  queues_ok s → ks_nodes s !! n = Some y → (n_proc y ≠ 0 → is_Some (ks_procs s !! n_proc y)) → n_async_todo y = [] →
  ∃ s', erase_node n (n_proc y) s = Some ((), s') ∧ queues_ok s' ∧ async_le s s' ∧ strip s' = strip (remove_node n y s).
Proof.
  intros Hok Hy Hp Ha. unfold erase_node.
  destruct (list_del_init_ok s (W_node n) _ Hok (entry_of_node _ _ _ Hy)) as (s1 & H1 & Hok1 & Hul).
  rewrite (kbind_run _ _ _ _ _ H1). destruct Hul as (Hst & Hen & Hit).
  assert (∃ y1, ks_nodes s1 !! n = Some y1 ∧ clear_node y1 = clear_node y ∧ n_entry y1 = None ∧ n_async_todo y1 = []) as (y1 & Hy1 & Hcl & He1 & Ha1).
  { destruct (ks_nodes s1 !! n) as [y1|] eqn:E.
    - exists y1. split; [done|]. destruct (agree_node _ _ Hst _ _ E) as (y0 & Hy0 & Hc). rewrite Hy in Hy0. injection Hy0 as <-.
      split; [done|]. specialize (Hen (W_node n)). rewrite decide_True in Hen by done. cbn in Hen. rewrite E in Hen. cbn in Hen.
      split; [by injection Hen|]. specialize (Hit (Q_async n)). cbn in Hit. rewrite E, Hy in Hit. cbn in Hit.
      injection Hit as ->. by rewrite Ha.
    - pose proof (agree_None clear_node _ _ n (eq_sym (strip_nodes _ _ Hst)) E). congruence. }
  assert (n_proc y1 = n_proc y) as Hpp by exact (f_equal n_proc Hcl).
  exists (remove_node n y1 s1). split.
  { unfold remove_node. rewrite Hpp. destruct (truthy (n_proc y)) eqn:Ht.
    - assert (is_Some (ks_procs s1 !! n_proc y)) as [k Hk].
      { eapply agree_is_proc; [done|]. apply Hp. intros Hz. rewrite Hz in Ht. done. }
      krun. unfold kfree_node. cbn. unfold node_at, kmod, mbind, KM_bind. cbn. rewrite Hy1. do 2 f_equal.
      unfold set_ks_nodes, set_ks_procs. cbn. f_equal. apply map_eq. intros i. destruct (decide (n_proc y = i)) as [<-|].
      + by rewrite lookup_insert_eq, lookup_alter_eq, Hk.
      + by rewrite lookup_insert_ne, lookup_alter_ne.
    - krun. unfold kfree_node. cbn. unfold node_at, kmod, mbind, KM_bind. cbn. by rewrite Hy1. }
  destruct (remove_node_lists s1 n y1 Hok1 Hy1 He1 Ha1) as [Hok2 Hle2]. split; [done|]. split.
  - eapply async_le_trans; [|exact Hle2]. by eapply (async_le_unlinked _ (W_node n)).
  - by apply strip_remove_node.
Qed.

Lemma drop_node_run s n y :
  queues_ok s → ks_nodes s !! n = Some y → (n_proc y ≠ 0 → is_Some (ks_procs s !! n_proc y)) →
  (gone y = true → n_async_todo y = []) →
  ∃ s', drop_node n s = Some ((), s') ∧ queues_ok s' ∧ async_le s s' ∧
    strip s' = strip (if gone y then remove_node n y s else s).
Proof.
  intros Hok Hy Hp Ha. unfold drop_node. krun. unfold gone in *.
  destruct (truthy (n_proc y) && (n_has_strong_ref y || n_has_weak_ref y)) eqn:Hu; cbn [negb andb] in *.
  - rewrite (kbind_run _ _ _ _ _ (entry_unlinked_run _ _ _ (entry_of_node _ _ _ Hy))).
    destruct (n_entry y) as [q|] eqn:He; cbn [bool_decide]; [exists s; split; [done|]; by auto using async_le_refl|].
    change (bool_decide (@None queue = None)) with true. cbn iota.
    assert (n_proc y ≠ 0) as Hp0 by (intros Hp0; rewrite Hp0 in Hu; done).
    destruct (queue_of_proc s _ (Hp Hp0)) as (l & Hl).
    destruct (list_add_tail_ok s (W_node n) (Q_proc (n_proc y)) l Hok) as (s1 & H1 & Hok1 & Hlk); [cbn; by rewrite Hy, <- He|done|].
    rewrite (kbind_run _ _ _ _ _ H1). eexists. split; [reflexivity|].
    assert (same_lists s1 (set_ks_events (ks_events s1 ++ [Wake_proc (n_proc y)]) s1)) as Hsl by (split; intros []; done).
    split; [by eapply queues_ok_same|]. split; [|by apply Hlk].
    eapply async_le_trans; [by eapply async_le_linked|by apply async_le_same].
  - destruct (bool_decide (n_refs y = []) && (n_local_strong_refs y =? 0) && (n_local_weak_refs y =? 0)) eqn:Hg;
      [|exists s; split; [done|]; by auto using async_le_refl].
    destruct (erase_node_run s n y Hok Hy Hp) as (s1 & H1 & Hok1 & Hle1 & Hst1); [by apply Ha|]. by exists s1.
Qed.

Lemma dec_node_run s n x strong internal :
  queues_ok s → ks_nodes s !! n = Some x → (n_proc x ≠ 0 → is_Some (ks_procs s !! n_proc x)) →
  let y := dec_counts strong internal x in
  (gone y = true → n_async_todo x = [] ∧ (strong = true → n_internal_strong_refs y = 0)) →
  ∃ s', binder_dec_node n strong internal s = Some ((), s') ∧ queues_ok s' ∧ async_le s s' ∧
    strip s' = strip (if gone y then remove_node n y (node_set n y s) else node_set n y s).
Proof.
  intros Hok Hx Hp y Ha. unfold binder_dec_node. rewrite (kbind_run _ _ _ _ _ (upd_node_run _ _ _ _ Hx)).
  match goal with |- context [set_ks_nodes ?m s] => change (set_ks_nodes m s) with (node_set n y s) end.
  assert (same_lists s (node_set n y s)) as Hsl.
  { eapply node_set_lists; [exact Hx|..]; unfold y, dec_counts; by destruct strong, internal. }
  assert (ks_nodes (node_set n y s) !! n = Some y) as Hy by (cbn; by rewrite lookup_insert_eq).
  assert (n_proc y = n_proc x) as Hpp by (unfold y, dec_counts; by destruct strong, internal).
  assert (n_async_todo y = n_async_todo x) as Hay by (unfold y, dec_counts; by destruct strong, internal).
  pose proof (queues_ok_same _ _ Hsl Hok) as Hok1. krun.
  destruct (if strong then truthy (n_local_strong_refs y) || truthy (n_internal_strong_refs y)
            else truthy (n_local_weak_refs y) || negb (bool_decide (n_refs y = []))) eqn:Hg.
  - exists (node_set n y s). split; [done|]. split; [done|]. split; [by apply async_le_same|].
    assert (gone y = false) as ->; [|done]. apply not_true_iff_false. intros Hgo. destruct (Ha Hgo) as [_ Hint].
    unfold gone in Hgo. rewrite !andb_true_iff in Hgo. destruct Hgo as [[[_ Hr] Hs] Hw]. destruct strong.
    + rewrite (Hint eq_refl) in Hg. unfold truthy in Hg. rewrite Hs in Hg. done.
    + unfold truthy in Hg. rewrite Hw, Hr in Hg. done.
  - destruct (drop_node_run (node_set n y s) n y Hok1 Hy) as (s' & H1 & H2 & H3 & H4).
    + rewrite Hpp. exact Hp.
    + intros Hgo. rewrite Hay. by apply Ha.
    + exists s'. split; [done|]. split; [done|]. split; [|done]. eapply async_le_trans; [by apply async_le_same|done].
Qed.

(** ** Counting up *)

Definition inc_counts (strong internal : bool) (x : binder_node) : binder_node :=
  if strong then
    if internal then set_n_internal_strong_refs (s32 (n_internal_strong_refs x + 1)) x
    else set_n_local_strong_refs (s32 (n_local_strong_refs x + 1)) x
  else if internal then x else set_n_local_weak_refs (s32 (n_local_weak_refs x + 1)) x.

Lemma node_set_id s n x : ks_nodes s !! n = Some x → node_set n x s = s.
Proof. intros Hx. unfold node_set. rewrite insert_id by done. by destruct s. Qed.

(** A list the work of a node may be put on. *)
Definition good_list (s : kstate) (target_list : option queue) : Prop :=
  ∀ q, target_list = Some q → (∃ l, queue_items s q = Some l) ∧ ∀ m, q ≠ Q_async m.

Lemma good_list_same s s' tl : same_lists s s' → good_list s tl → good_list s' tl.
Proof. intros [Hq _] Hg q ->. destruct (Hg q eq_refl) as [[l Hl] ?]. split; [exists l; by rewrite Hq|done]. Qed.

Lemma inc_node_run s n x strong internal tl :
  queues_ok s → ks_nodes s !! n = Some x → good_list s tl →
  ∃ ret s', binder_inc_node n strong internal tl s = Some (ret, s') ∧ queues_ok s' ∧ async_le s s' ∧
    (ret = 0 ∨ (ret = - Errno.EINVAL ∧ tl = None)) ∧
    strip s' = strip (node_set n (if strong && truthy ret then x else inc_counts strong internal x) s).
Proof.
  intros Hok Hx Hg. unfold binder_inc_node. krun. set (y := inc_counts strong internal x).
  assert (same_lists s (node_set n y s)) as Hsl.
  { eapply node_set_lists; [exact Hx|..]; unfold y, inc_counts; by destruct strong, internal. }
  assert (ks_nodes (node_set n y s) !! n = Some y) as Hy by (cbn; by rewrite lookup_insert_eq).
  pose proof (queues_ok_same _ _ Hsl Hok) as Hok1. pose proof (good_list_same _ _ _ Hsl Hg) as Hg1.
  destruct strong; cbn [andb].
  - krun. destruct (internal && bool_decide (tl = None) && (n_internal_strong_refs x =? 0) && _) eqn:Hc.
    { exists (- Errno.EINVAL), s. split; [done|]. split; [done|]. split; [apply async_le_refl|]. split.
      - right. split; [done|]. rewrite !andb_true_iff in Hc. destruct Hc as [[[_ Hn] _] _]. by apply bool_decide_eq_true in Hn.
      - cbn. by rewrite node_set_id. }
    rewrite (kbind_run _ _ _ _ _ (upd_node_run _ _ _ _ Hx)).
    match goal with |- context [set_ks_nodes ?m s] => change (set_ks_nodes m s) with (node_set n y s) end.
    destruct tl as [q|]; [|rewrite (kbind_run _ _ _ () (node_set n y s)) by done; exists 0, (node_set n y s); split; [done|]; split; [done|]; split; [by apply async_le_same|]; split; [by left|done]].
    destruct (negb (n_has_strong_ref x)); [|rewrite (kbind_run _ _ _ () (node_set n y s)) by done; exists 0, (node_set n y s); split; [done|]; split; [done|]; split; [by apply async_le_same|]; split; [by left|done]].
    destruct (list_del_init_ok _ (W_node n) _ Hok1 (entry_of_node _ _ _ Hy)) as (s1 & H1 & Hok2 & Hst1 & Hen1 & Hq1).
    destruct (Hg1 q eq_refl) as [[l Hl] Hna].
    destruct (list_add_tail_ok s1 (W_node n) q (filter (λ w, w ≠ W_node n) l) Hok2) as (s2 & H2 & Hok3 & Hlk).
    { by rewrite Hen1, decide_True. } { by rewrite Hq1, Hl. }
    exists 0, s2. split.
    { erewrite kbind_run; [reflexivity|]. rewrite (kbind_run _ _ _ _ _ H1). exact H2. }
    split; [done|]. split; [|split; [by left|]].
    + eapply async_le_trans; [by apply async_le_same|]. eapply async_le_trans; [by eapply (async_le_unlinked _ (W_node n))|].
      by eapply async_le_linked.
    + destruct Hlk as [-> _]. done.
  - assert (∃ s1, (if negb internal then upd_node n (λ x, set_n_local_weak_refs (s32 (n_local_weak_refs x + 1)) x) else mret ()) s = Some ((), s1) ∧
      s1 = node_set n y s) as (s1 & H1 & ->).
    { destruct internal; cbn [negb].
      - exists s. split; [done|]. symmetry. by apply node_set_id.
      - eexists. split; [by apply upd_node_run|done]. }
    rewrite (kbind_run _ _ _ _ _ H1), (kbind_run _ _ _ _ _ (entry_unlinked_run _ _ _ (entry_of_node _ _ _ Hy))).
    assert (n_entry y = n_entry x) as Hey by (unfold y, inc_counts; by destruct internal).
    destruct (negb (n_has_weak_ref x) && bool_decide (n_entry y = None)) eqn:Hc; [|exists 0, (node_set n y s); split; [done|]; split; [done|]; split; [by apply async_le_same|]; split; [by left|done]].
    destruct tl as [q|]; [|exists (- Errno.EINVAL), (node_set n y s); split; [done|]; split; [done|]; split; [by apply async_le_same|]; split; [by right|done]].
    apply andb_true_iff in Hc as [_ Hc]. apply bool_decide_eq_true in Hc.
    destruct (Hg1 q eq_refl) as [[l Hl] Hna].
    destruct (list_add_tail_ok _ (W_node n) q l Hok1) as (s2 & H2 & Hok3 & Hlk); [rewrite (entry_of_node _ _ _ Hy); by rewrite Hc|done|].
    rewrite (kbind_run _ _ _ _ _ H2). exists 0, s2. split; [done|]. split; [done|]. split; [|split; [by left|]].
    + eapply async_le_trans; [by apply async_le_same|]. by eapply async_le_linked.
    + destruct Hlk as [-> _]. done.
Qed.

End Ops.
