(* ===== verification/KRefsRun.v ===== *)
(** * Binder driver: references from the first count to the last

    Finding and making references, counting them, and deleting one
    together with its node when that was the last use.

    Counting up and down through a reference, and inside the driver. *)
From stdpp Require Import sorting gmap.
From S2P Require Import Prelude Bio Binder KAlloc KAllocSpec KState KRefs KQueues KRefsSpec KRefsInv KRefsOps.

(** What the kernel promises: new memory is not in use. *)
Class KernelLaws `{Kernel} : Prop := {
  kzalloc_fresh l t a : kzalloc_addr l t = Some a → a ≠ 0 ∧ a ∉ l }.

Definition kref_inv (held : Z → bool → Z) (s : kstate) : Prop := refs_ok held s ∧ queues_ok s ∧ async_ok held s.

Section Run.
Context `{RbLaws}.

(** ** Freeing a death notification and a reference *)

Lemma remove_death_lists s d :
  queues_ok s → entry_at s (W_death d) = Some None → queues_ok (set_ks_deaths (delete d (ks_deaths s)) s).
Proof.
  intros [Hl Hn Hk] He. set (s' := set_ks_deaths _ s).
  assert (∀ q, queue_items s' q = queue_items s q) as Hq by (by intros []).
  assert (∀ w, entry_at s' w = if decide (w = W_death d) then None else entry_at s w) as Hw.
  { intros [p|p|p|p]; cbn; try done. destruct (decide (d = p)) as [<-|]; [by rewrite lookup_delete_eq, decide_True|].
    by rewrite lookup_delete_ne, decide_False by congruence. }
  split.
  - intros q l w. rewrite Hq, Hw. intros Hql Hin. pose proof (Hl _ _ _ Hql Hin). destruct (decide _) as [->|]; [congruence|done].
  - intros q l. rewrite Hq. apply Hn.
  - intros q w. rewrite Hq, Hw. destruct (decide _); [done|]. apply Hk.
Qed.

Definition forget (r d : Z) (s : kstate) : kstate :=
  set_ks_refs (delete r (ks_refs s)) (set_ks_deaths (delete d (ks_deaths s)) s).

Lemma strip_forget s s' r d : strip s' = strip s → strip (forget r d s') = strip (forget r d s).
Proof.
  rewrite !strip_eq. intros E. destruct_and! E. cbn. split_and!; try done; [congruence|]. rewrite !fmap_delete. by f_equal.
Qed.

Lemma forget_run r x s :
  queues_ok s → ks_refs s !! r = Some x → (r_death x ≠ 0 → is_Some (ks_deaths s !! r_death x)) → ks_deaths s !! 0 = None →
  ∃ s', (_ ← (if truthy (r_death x) then _ ← list_del_init (W_death (r_death x)); kfree_death (r_death x) else mret ());
         kfree_ref r) s = Some ((), s') ∧ queues_ok s' ∧ async_le s s' ∧ strip s' = strip (forget r (r_death x) s).
Proof.
  intros Hok Hr Hd Hd0. destruct (truthy (r_death x)) eqn:Ht.
  - destruct (Hd ltac:(intros Hz; by rewrite Hz in Ht)) as [d Hdd].
    destruct (list_del_init_ok s (W_death (r_death x)) (d_entry d) Hok) as (s1 & H1 & Hok1 & Hst & Hen & Hq); [cbn; by rewrite Hdd|].
    assert (is_Some (ks_deaths s1 !! r_death x)) as [d1 Hd1].
    { specialize (Hen (W_death (r_death x))). rewrite decide_True in Hen by done. cbn in Hen. by destruct (ks_deaths s1 !! r_death x). }
    eexists. split.
    { erewrite kbind_run.
      - unfold kfree_ref. rewrite (kbind_run _ _ _ x (set_ks_deaths (delete (r_death x) (ks_deaths s1)) s1)); [done|].
        apply ref_at_run. cbn. by rewrite (strip_refs _ _ Hst).
      - rewrite (kbind_run _ _ _ _ _ H1). unfold kfree_death. rewrite (kbind_run _ _ _ _ _ (death_at_run _ _ _ Hd1)). done. }
    split.
    { eapply (queues_ok_same (set_ks_deaths (delete (r_death x) (ks_deaths s1)) s1)); [by split; intros []|].
      apply remove_death_lists; [done|]. by rewrite Hen, decide_True. }
    split; [|by apply (strip_forget s s1)]. eapply async_le_trans; [by eapply (async_le_unlinked _ (W_death (r_death x)))|].
    intros n l Hl Hne. by exists l.
  - rewrite (kbind_run _ _ _ () s) by done. unfold kfree_ref. rewrite (kbind_run _ _ _ _ _ (ref_at_run _ _ _ Hr)).
    assert (r_death x = 0) as Hz by (unfold truthy in Ht; destruct (Z.eqb_spec (r_death x) 0); done).
    eexists. split; [reflexivity|]. split; [apply (queues_ok_same s); [by split; intros []|done]|]. split; [by apply async_le_same; split; intros []|].
    apply strip_eq. cbn. split_and!; try done. by rewrite Hz, delete_id.
Qed.

(** A node nothing refers to has no holders. *)
Lemma gone_spec y : gone y = true → n_refs y = [] ∧ n_local_strong_refs y = 0 ∧ n_local_weak_refs y = 0.
Proof. unfold gone. rewrite !andb_true_iff, !Z.eqb_eq. intros [[[_ Hr] ?] ?]. by apply bool_decide_eq_true in Hr. Qed.

Lemma gone_not_held held s n x :
  refs_ok held s → ks_nodes s !! n = Some x → n_local_strong_refs x = 0 → n_local_weak_refs x = 0 → ∀ b, held n b = 0.
Proof.
  intros Hok Hx Hs0 Hw0 b. destruct (ro_node _ _ Hok _ _ Hx) as (_ & _ & _ & _ & Hs & Hw). pose proof (ro_held _ _ Hok n b).
  unfold c_bool in *. destruct b, (n_pending_strong_ref x), (n_pending_weak_ref x); lia.
Qed.

(** ** Counts in range *)

Lemma s32_id z : - 2 ^ 31 ≤ z < 2 ^ 31 → s32 z = z.
Proof. by apply (signed_small 32). Qed.

Lemma strong_count_le refs l : strong_count refs l ≤ zlen l.
Proof. unfold strong_count. pose proof (length_filter (λ r, 0 < default 0 (r_strong <$> refs !! r)) l). lia. Qed.

Lemma strong_count_lt refs r x l : refs !! r = Some x → r_strong x = 0 → r ∈ l → strong_count refs l < zlen l.
Proof.
  intros Hx Hz. induction l as [|y l IH]; [by intros ?%elem_of_nil|]. rewrite strong_count_cons, length_cons. intros [<-|Hin]%elem_of_cons.
  - rewrite Hx. cbn. rewrite Hz. pose proof (strong_count_le refs l). cbn. lia.
  - specialize (IH Hin). unfold c_bool. destruct (_ <? _); lia.
Qed.

Lemma internal_range held s n x : refs_ok held s → ks_nodes s !! n = Some x → 0 ≤ n_internal_strong_refs x < 2 ^ 31.
Proof.
  intros Hok Hx. destruct (ro_node _ _ Hok _ _ Hx) as (_ & _ & _ & -> & _). destruct (ro_small _ _ Hok) as [_ Hs].
  destruct (Hs _ _ Hx) as [? _]. pose proof (strong_count_le (ks_refs s) (n_refs x)). pose proof (strong_count_nonneg (ks_refs s) (n_refs x)). lia.
Qed.

(** ** Deleting a reference *)

(** The node behind the loss of the reference. *)
Definition without_ref (r : Z) (x : binder_ref) (n : binder_node) : binder_node :=
  set_n_internal_strong_refs (n_internal_strong_refs n - is_strong x) (set_n_refs (filter (λ m, m ≠ r) (n_refs n)) n).

Definition after_delete (r : Z) (x : binder_ref) (k : kproc) (n : binder_node) (s : kstate) : kstate :=
  let s1 := remove_ref r x k n s in
  if gone (without_ref r x n) then remove_node (r_node x) (without_ref r x n) s1 else s1.

Lemma after_delete_refs r x k n s : ks_refs (after_delete r x k n s) = delete r (ks_refs s).
Proof. unfold after_delete, remove_node. by destruct (gone (without_ref r x n)), (truthy (n_proc (without_ref r x n))). Qed.

Lemma after_delete_ok held s r x k n :
  refs_ok held s → ks_refs s !! r = Some x → ks_procs s !! r_proc x = Some k → ks_nodes s !! r_node x = Some n →
  refs_ok held (after_delete r x k n s).
Proof.
  intros Hok Hr Hk Hn. unfold after_delete. cbv zeta. pose proof (remove_ref_ok held s r x k n Hok Hr Hk Hn) as Hok1.
  destruct (gone (without_ref r x n)) eqn:Hg; [|done]. apply remove_node_ok; [done|..].
  - cbn. by rewrite lookup_insert_eq.
  - by apply gone_spec in Hg as (? & _).
  - apply gone_spec in Hg as (_ & Hs & Hw). by apply (gone_not_held held s (r_node x) n).
Qed.

Lemma async_empty held s n x : async_ok held s → ks_nodes s !! n = Some x → held n true = 0 → n_async_todo x = [].
Proof.
  intros Ha Hx Hz. destruct (n_async_todo x) as [|w l] eqn:E; [done|]. assert (1 ≤ held n true); [|lia].
  apply (Ha n (w :: l)); [cbn; by rewrite Hx, <- E|done].
Qed.

(** A node of an agreeing state: its counts are the same, and its queue is no longer empty only if it was not. *)
Lemma agree_node_r s s' n x : strip s' = strip s → ks_nodes s !! n = Some x → ∃ y, ks_nodes s' !! n = Some y ∧ clear_node y = clear_node x.
Proof.
  intros Hst Hx. destruct (ks_nodes s' !! n) as [y|] eqn:E.
  - exists y. split; [done|]. destruct (agree_node _ _ Hst _ _ E) as (x0 & Hx0 & Hc). congruence.
  - pose proof (agree_None clear_node _ _ n (eq_sym (strip_nodes _ _ Hst)) E). congruence.
Qed.

Lemma async_todo_le s s' n x y :
  async_le s s' → ks_nodes s !! n = Some x → ks_nodes s' !! n = Some y → n_async_todo x = [] → n_async_todo y = [].
Proof.
  intros Hle Hx Hy Hz. destruct (n_async_todo y) as [|w l] eqn:E; [done|].
  destruct (Hle n (w :: l)) as (l0 & Hl0 & Hne); [cbn; by rewrite Hy, <- E|done|]. cbn in Hl0. rewrite Hx in Hl0. cbn in Hl0. congruence.
Qed.

Lemma agree_gone y x : clear_node y = clear_node x → gone y = gone x.
Proof.
  intros Hc. unfold gone. rewrite (f_equal n_proc Hc : n_proc y = n_proc x), (f_equal n_refs Hc : n_refs y = n_refs x),
    (f_equal n_has_strong_ref Hc : n_has_strong_ref y = n_has_strong_ref x), (f_equal n_has_weak_ref Hc : n_has_weak_ref y = n_has_weak_ref x),
    (f_equal n_local_strong_refs Hc : n_local_strong_refs y = n_local_strong_refs x),
    (f_equal n_local_weak_refs Hc : n_local_weak_refs y = n_local_weak_refs x). done.
Qed.

Lemma delete_ref_run held s r x :
  kref_inv held s → ks_refs s !! r = Some x →
  ∃ k n s', ks_procs s !! r_proc x = Some k ∧ ks_nodes s !! r_node x = Some n ∧ binder_delete_ref r s = Some ((), s') ∧
    kref_inv held s' ∧ strip s' = strip (after_delete r x k n s).
Proof.
  intros (Hok & Hqs & Has) Hr. destruct (ro_ref _ _ Hok _ _ Hr) as ([k Hk] & _ & Hst0 & _ & n & Hn & Hin).
  destruct (ro_node _ _ Hok _ _ Hn) as (_ & _ & Hpn & Hint & _). exists k, n.
  unfold binder_delete_ref. krun. krun.
  set (k1 := set_k_refs_by_desc (rb_erase r (k_refs_by_desc k)) k).
  match goal with |- context [set_ks_procs ?m s] => change (set_ks_procs m s) with (proc_set (r_proc x) k1 s) end.
  assert (ks_procs (proc_set (r_proc x) k1 s) !! r_proc x = Some k1) as Hk1 by (cbn; by rewrite lookup_insert_eq).
  krun. set (k2 := set_k_refs_by_node (rb_erase r (k_refs_by_node k)) k1).
  match goal with |- context [set_ks_procs ?m _] => change (set_ks_procs m (proc_set (r_proc x) k1 s)) with (proc_set (r_proc x) k2 (proc_set (r_proc x) k1 s)) end.
  assert (proc_set (r_proc x) k2 (proc_set (r_proc x) k1 s) = proc_set (r_proc x) k2 s) as ->.
  { unfold proc_set, set_ks_procs. cbn. by rewrite insert_insert_eq. }
  set (s2 := proc_set (r_proc x) k2 s). set (m := r_node x) in *.
  assert (same_lists s s2) as Hsl2.
  { split; [|by intros []]. intros [q|q|q|q]; cbn; try done; (by_key (r_proc x) q; [by rewrite Hk|done]). }
  pose proof (queues_ok_same _ _ Hsl2 Hqs) as Hqs2.
  assert (ks_nodes s2 !! m = Some n) as Hn2 by done.
  assert (∀ q, is_Some (ks_procs s !! q) → is_Some (ks_procs s2 !! q)) as Hps by (intros q Hq; by eapply proc_is_Some).
  (* the strong count *)
  set (n1 := set_n_internal_strong_refs (n_internal_strong_refs n - is_strong x) n).
  assert (∃ s3, (if truthy (r_strong x) then binder_dec_node m true true else mret ()) s2 = Some ((), s3) ∧ queues_ok s3 ∧
    async_le s2 s3 ∧ strip s3 = strip (node_set m n1 s2)) as (s3 & H3 & Hqs3 & Has3 & Hst3).
  { unfold n1, is_strong. destruct (Z.ltb_spec 0 (r_strong x)) as [Hlt|Hge].
    - assert (truthy (r_strong x) = true) as -> by (unfold truthy; lia).
      assert (gone (dec_counts true true n) = false) as Hg.
      { unfold gone. cbn. apply andb_false_iff. left. apply andb_false_iff. left. apply andb_false_iff. right.
        apply bool_decide_eq_false. intros Hnil. rewrite Hnil in Hin. by apply elem_of_nil in Hin. }
      destruct (dec_node_run s2 m n true true Hqs2 Hn2) as (s3 & H3 & Hq3 & Ha3 & Hs3); [intros Hp; by apply Hps, Hpn|rewrite Hg; done|].
      exists s3. split; [done|]. split; [done|]. split; [done|]. rewrite Hg in Hs3. unfold dec_counts in Hs3.
      rewrite s32_id in Hs3; [exact Hs3|]. pose proof (internal_range held s m n Hok Hn). lia.
    - assert (r_strong x = 0) as -> by lia. exists s2. split; [done|]. split; [done|]. split; [apply async_le_refl|].
      assert (set_n_internal_strong_refs (n_internal_strong_refs n - c_bool false) n = n) as ->; [|by rewrite node_set_id].
      destruct n. unfold set_n_internal_strong_refs. cbn. f_equal. lia. }
  rewrite (kbind_run _ _ _ _ _ H3).
  destruct (agree_node_r (node_set m n1 s2) s3 m n1 Hst3) as (x3 & Hx3 & Hc3); [cbn; by rewrite lookup_insert_eq|].
  (* off the node's list *)
  krun. set (x4 := set_n_refs (filter (λ u, u ≠ r) (n_refs x3)) x3). fold (node_set m x4 s3). set (s4 := node_set m x4 s3).
  assert (same_lists s3 s4) as Hsl4 by (by apply (node_set_lists s3 m x3)).
  assert (clear_node x4 = clear_node (without_ref r x n)) as Hc4.
  { unfold x4. rewrite (f_equal n_refs Hc3 : n_refs x3 = n_refs n).
    exact (f_equal (set_n_refs (filter (λ u, u ≠ r) (n_refs n))) Hc3). }
  assert (strip s4 = strip (node_set m (without_ref r x n) s2)) as Hst4.
  { transitivity (strip (node_set m (without_ref r x n) (node_set m n1 s2))); [by apply strip_node_set|].
    unfold node_set, set_ks_nodes. cbn. by rewrite insert_insert_eq. }
  assert (ks_nodes s4 !! m = Some x4) as Hx4 by (cbn; by rewrite lookup_insert_eq).
  (* the weak count, perhaps the last one *)
  destruct (dec_node_run s4 m x4 false true) as (s5 & H5 & Hqs5 & Has5 & Hst5); [by eapply queues_ok_same|done|..].
  { intros Hp. rewrite (f_equal n_proc Hc4 : n_proc x4 = n_proc n) in *. eapply (agree_is_proc (node_set m (without_ref r x n) s2) s4); [done|].
    by apply Hps, Hpn. }
  { cbn [dec_counts]. intros Hg. split; [|done]. rewrite (agree_gone _ _ Hc4) in Hg. apply gone_spec in Hg as (_ & Hls & Hlw).
    assert (held m true = 0) as Hz by (by eapply gone_not_held; [|exact Hn|..]).
    pose proof (async_empty _ _ _ _ Has Hn Hz) as Hnil.
    assert (n_async_todo x3 = []) as H3nil by (eapply (async_todo_le s2 s3); [exact Has3|exact Hn2|exact Hx3|exact Hnil]). exact H3nil. }
  cbn [dec_counts] in Hst5. rewrite (node_set_id s4 m x4) in Hst5 by done. rewrite (kbind_run _ _ _ _ _ H5).
  (* the notification and the memory *)
  set (A := node_set m (without_ref r x n) s2) in *.
  assert (strip s5 = strip (if gone (without_ref r x n) then remove_node m (without_ref r x n) A else A)) as Hst5'.
  { rewrite Hst5, (agree_gone _ _ Hc4). destruct (gone (without_ref r x n)); [|exact Hst4].
    apply strip_remove_node; [exact Hst4|]. exact (f_equal n_proc Hc4). }
  set (B := if gone (without_ref r x n) then remove_node m (without_ref r x n) A else A) in *.
  assert (ks_refs B = ks_refs s ∧ ks_deaths B = ks_deaths s) as [HBr HBd].
  { unfold B, remove_node. by destruct (gone (without_ref r x n)), (truthy (n_proc (without_ref r x n))). }
  destruct (forget_run r x s5 Hqs5) as (s6 & H6 & Hqs6 & Has6 & Hst6).
  { by rewrite (strip_refs _ _ Hst5'), HBr. }
  { intros Hd. destruct (ro_death _ _ Hok _ _ Hr Hd) as [d Hdd]. destruct (ks_deaths s5 !! r_death x) as [d'|] eqn:E; [by eauto|].
    pose proof (agree_None (set_d_entry None) (ks_deaths s5) (ks_deaths B) _ (eq_sym (f_equal ks_deaths Hst5')) E). congruence. }
  { destruct (ro_null _ _ Hok) as (_ & _ & _ & Hd0). rewrite <- HBd in Hd0.
    exact (agree_None (set_d_entry None) _ _ _ (f_equal ks_deaths Hst5') Hd0). }
  exists s6. split; [done|]. split; [done|]. split; [exact H6|].
  assert (strip s6 = strip (after_delete r x k n s)) as Hst7.
  { rewrite Hst6. transitivity (strip (forget r (r_death x) B)); [by apply strip_forget|]. f_equal. unfold B, A, after_delete, remove_node, forget.
    by destruct (gone (without_ref r x n)), (truthy (n_proc (without_ref r x n))). }
  split; [|done]. split; [|split; [done|]].
  - eapply refs_ok_strip; [exact Hst7|]. by apply after_delete_ok.
  - eapply (async_ok_le held held s); [done| |done].
    eapply async_le_trans; [by apply async_le_same|]. eapply async_le_trans; [exact Has3|]. eapply async_le_trans; [by apply async_le_same|].
    by eapply async_le_trans.
Qed.

(** ** Lookups *)

Lemma get_ref_run held s p k desc :
  refs_ok held s → ks_procs s !! p = Some k →
  ∃ r, binder_get_ref p desc s = Some (r, s) ∧
    ((∃ x, ks_refs s !! r = Some x ∧ r_proc x = p ∧ r_desc x = desc) ∨
     (r = 0 ∧ ∀ q x, ks_refs s !! q = Some x → r_proc x = p → r_desc x ≠ desc)).
Proof.
  intros Hok Hk. unfold binder_get_ref. krun. krun. destruct (ro_by_desc _ _ Hok _ _ Hk) as (Hs & Hd & Hm).
  destruct (rb_find_spec (desc_key s) desc _ Hs Hd) as (r & Hr & Hc). exists r. split; [by apply klift_run|].
  destruct Hc as [[Hin Hkey]|[-> Hno]]; [left|right].
  - apply Hm in Hin as (x & Hx & Hp). exists x. split; [done|]. split; [done|]. unfold desc_key in Hkey. rewrite Hx in Hkey. by injection Hkey.
  - split; [done|]. intros q x Hx Hp Heq. apply (Hno q); [apply Hm; by exists x|]. unfold desc_key. rewrite Hx. cbn. by rewrite Heq.
Qed.

Lemma get_node_run held s p k ptr :
  refs_ok held s → ks_procs s !! p = Some k →
  ∃ n, binder_get_node p ptr s = Some (n, s) ∧
    ((∃ x, ks_nodes s !! n = Some x ∧ n_proc x = p ∧ n_ptr x = ptr) ∨
     (n = 0 ∧ ∀ m x, ks_nodes s !! m = Some x → n_proc x = p → n_ptr x ≠ ptr)).
Proof.
  intros Hok Hk. unfold binder_get_node. krun. krun. destruct (ro_nodes _ _ Hok _ _ Hk) as (Hs & Hd & Hm).
  destruct (rb_find_spec (ptr_key s) ptr _ Hs Hd) as (n & Hn & Hc). exists n. split; [by apply klift_run|].
  destruct Hc as [[Hin Hkey]|[-> Hno]]; [left|right].
  - apply Hm in Hin as (x & Hx & Hp). exists x. split; [done|]. split; [done|]. unfold ptr_key in Hkey. rewrite Hx in Hkey. by injection Hkey.
  - split; [done|]. intros q x Hx Hp Heq. apply (Hno q); [apply Hm; by exists x|]. unfold ptr_key. rewrite Hx. cbn. by rewrite Heq.
Qed.

(** ** The least free descriptor *)

Lemma choose_desc_spec s rs d0 :
  StronglySorted (key_lt (desc_key s)) rs → (∀ r, r ∈ rs → ∃ d, desc_key s r = Some d ∧ d0 - 1 ≤ d < 2 ^ 32 - 1) → 0 ≤ d0 →
  ∃ d, choose_desc s d0 rs = Some d ∧ d0 ≤ d ≤ d0 + zlen rs ∧ (∀ r, r ∈ rs → desc_key s r ≠ Some d) ∧
    (∀ e, d0 ≤ e < d → ∃ r, r ∈ rs ∧ desc_key s r = Some e).
Proof.
  revert d0. induction rs as [|r rs IH]; intros d0 Hs Hb Hd0; cbn [choose_desc].
  { exists d0. split; [done|]. split; [cbn; lia|]. split; [intros r Hr; by apply elem_of_nil in Hr|intros e He; lia]. }
  destruct (Hb r) as (d & Hd & Hdb); [apply elem_of_cons; by left|]. rewrite Hd. cbn [mbind option_bind].
  inversion Hs as [|? ? Hs' Hall]; subst. rewrite Forall_forall in Hall.
  assert (∀ u, u ∈ rs → ∃ e, desc_key s u = Some e ∧ d < e < 2 ^ 32 - 1) as Habove.
  { intros u Hu. destruct (Hall u Hu) as (a & b & Ha & Hbb & Hlt). destruct (Hb u) as (e & He & Heb); [apply elem_of_cons; by right|].
    exists e. split; [done|]. simplify_eq. lia. }
  destruct (Z.ltb_spec d0 d) as [Hlt|Hge].
  - exists d0. split; [done|]. split; [lia|]. split; [|intros e He; lia]. intros u [->|Hu]%elem_of_cons Heq; [simplify_eq; lia|].
    destruct (Habove u Hu) as (e & He & ?). simplify_eq. lia.
  - rewrite wrap_small by lia. destruct (IH (d + 1)) as (d' & -> & Hd' & Hn & Hl); [done| |lia|].
    { intros u Hu. destruct (Habove u Hu) as (e & He & ?). exists e. split; [done|lia]. }
    exists d'. split; [done|]. rewrite length_cons. split; [lia|]. split.
    + intros u [->|Hu]%elem_of_cons; [intros ?; simplify_eq; lia|by apply Hn].
    + intros e He. destruct (decide (e = d)) as [->|]; [exists r; split; [apply elem_of_cons; by left|done]|].
      destruct (Hl e) as (u & Hu & Hue); [lia|]. exists u. split; [apply elem_of_cons; by right|done].
Qed.

Lemma add_ref_lists p m r d t1 t2 k x s :
  ks_procs s !! p = Some k → ks_nodes s !! m = Some x → same_lists s (add_ref p m r d t1 t2 k x s).
Proof.
  intros Hp Hm. split.
  - intros [q|q|q|q]; cbn; try done; [by_key p q; [by rewrite Hp|done]|by_key m q; [by rewrite Hm|done]|by_key p q; [by rewrite Hp|done]].
  - intros [q|q|q|q]; cbn; try done. by_key m q; [by rewrite Hm|done].
Qed.

Lemma refs_ok_tick held t s : refs_ok held s → refs_ok held (set_ks_tick t s).
Proof. intros [Hz Hn Hd Hb Hr Hx Hh Hde Hdi Hal Hto Hsm]. by split. Qed.

Lemma tick_lists t s : same_lists s (set_ks_tick t s).
Proof. by split; intros []. Qed.

Lemma kref_inv_tick held t s : kref_inv held s → kref_inv held (set_ks_tick t s).
Proof.
  intros (Hr & Hq & Ha). split; [by apply refs_ok_tick|]. split; [by eapply queues_ok_same; [apply tick_lists|]|].
  eapply async_ok_le; [done|apply async_le_same, tick_lists|done].
Qed.

Lemma kzalloc_run `{Kernel} s :
  kzalloc s = Some (default 0 (kzalloc_addr (live s) (ks_tick s)), set_ks_tick (S (ks_tick s)) s).
Proof. done. Qed.

Lemma length_le_size {A} (m : gmap Z A) l : NoDup l → (∀ x, x ∈ l → is_Some (m !! x)) → (length l ≤ size m)%nat.
Proof.
  intros Hd Hin. rewrite <- (size_dom m), <- (size_list_to_set (C := gset Z) l Hd). apply subseteq_size.
  intros x Hx. apply elem_of_list_to_set in Hx. apply elem_of_dom. by apply Hin.
Qed.

(** What making a reference for a node can do. *)
Definition ref_for_node `{Kernel} (s : kstate) (p m r : Z) (s' : kstate) : Prop :=
  let s0 := set_ks_tick (S (ks_tick s)) s in
  (s' = s ∧ ∃ y, ks_refs s !! r = Some y ∧ r_proc y = p ∧ r_node y = m) ∨
  ((∀ q y, ks_refs s !! q = Some y → r_proc y = p → r_node y ≠ m) ∧
   ((kzalloc_addr (live s) (ks_tick s) = None ∧ r = 0 ∧ s' = s0) ∨
    (kzalloc_addr (live s) (ks_tick s) = Some r ∧ ∃ d t1 t2 k x,
       let base := if m =? ks_context_mgr_node s then 0 else 1 in
       ks_procs s !! p = Some k ∧ ks_nodes s !! m = Some x ∧ s' = add_ref p m r d t1 t2 k x s0 ∧
       base ≤ d ≤ base + Z.of_nat (size (ks_refs s)) ∧
       (∀ q y, ks_refs s !! q = Some y → r_proc y = p → r_desc y ≠ d) ∧
       (∀ e, base ≤ e < d → ∃ q y, ks_refs s !! q = Some y ∧ r_proc y = p ∧ r_desc y = e)))).

Lemma get_ref_for_node_run `{KernelLaws} held s p m k x :
  kref_inv held s → ks_procs s !! p = Some k → ks_nodes s !! m = Some x → Z.of_nat (size (ks_refs s)) < 2 ^ 31 - 1 →
  ∃ r s', binder_get_ref_for_node p m s = Some (r, s') ∧ kref_inv held s' ∧ ref_for_node s p m r s'.
Proof.
  intros Hinv Hk Hm Hsz. pose proof Hinv as (Hok & Hqs & Has). unfold binder_get_ref_for_node. krun. krun.
  destruct (ro_by_node _ _ Hok _ _ Hk) as (Hs & Hd & Hmem). destruct (rb_find_spec (node_key s) m _ Hs Hd) as (f & Hf & Hc).
  krun. destruct Hc as [[Hin Hkey]|[-> Hno]].
  - apply Hmem in Hin as (y & Hy & Hp). assert (truthy f = true) as ->.
    { unfold truthy. destruct (Z.eqb_spec f 0) as [->|]; [|done]. destruct (ro_null _ _ Hok) as (_ & _ & Hz & _). congruence. }
    exists f, s. split; [done|]. split; [done|]. left. split; [done|]. exists y. split; [done|]. split; [done|].
    unfold node_key in Hkey. rewrite Hy in Hkey. by injection Hkey.
  - change (truthy 0) with false. cbn iota. rewrite (kbind_run _ _ _ _ _ (kzalloc_run s)). set (s0 := set_ks_tick (S (ks_tick s)) s).
    assert (∀ q y, ks_refs s !! q = Some y → r_proc y = p → r_node y ≠ m) as Hnode.
    { intros q y Hy Hp Heq. apply (Hno q); [apply Hmem; by exists y|]. unfold node_key. rewrite Hy. cbn. by rewrite Heq. }
    destruct (kzalloc_addr (live s) (ks_tick s)) as [r|] eqn:Ha; cbn [from_option]; cycle 1.
    { exists 0, s0. split; [done|]. split; [by apply kref_inv_tick|]. right. split; [done|]. by left. }
    destruct (kzalloc_fresh _ _ _ Ha) as [Hr0 Hfresh]. change (id r) with r. assert ((r =? 0) = false) as -> by lia.
    assert (ks_refs s !! r = None) as Hrn.
    { apply not_elem_of_dom. intros Hin. apply Hfresh. unfold live. set_solver. }
    destruct (rb_link_spec (node_key s) m r _ Hs Hd) as (t1 & _ & _ & L1 & _).
    { intros q Hq. apply Hmem in Hq as (y & Hy & Hp). unfold node_key. rewrite Hy. cbn. intros [= Heq]. by apply (Hnode q y). }
    krun. assert (ks_procs s0 !! p = Some k) as Hk0 by done. krun.
    match goal with |- context [set_ks_procs ?mm s0] => set (s1 := set_ks_procs mm s0) end. krun. krun.
    destruct (ro_by_desc _ _ Hok _ _ Hk) as (Hs2 & Hd2 & Hmem2).
    set (base := if m =? ks_context_mgr_node s then 0 else 1).
    assert (0 ≤ base ≤ 1) as Hbase by (unfold base; destruct (_ =? _); lia).
    destruct (choose_desc_spec s1 (inorder (k_refs_by_desc k)) base) as (d & Hch & Hdb & Hdn & Hdl); [exact Hs2| |lia|].
    { intros q Hq. apply Hmem2 in Hq as (y & Hy & Hp). exists (r_desc y). split; [unfold desc_key; cbn; by rewrite Hy|].
      destruct (ro_ref _ _ Hok _ _ Hy) as (_ & ? & _). lia. }
    assert (length (inorder (k_refs_by_desc k)) ≤ size (ks_refs s))%nat as Hlen.
    { apply length_le_size; [by eapply tree_NoDup, (ro_by_desc _ _ Hok)|]. intros q Hq. apply Hmem2 in Hq as (y & Hy & _). by eauto. }
    change (ks_context_mgr_node s1) with (ks_context_mgr_node s). fold base. krun.
    assert (∀ q y, ks_refs s !! q = Some y → r_proc y = p → r_desc y ≠ d) as Hdesc.
    { intros q y Hy Hp Heq. apply (Hdn q); [apply Hmem2; by exists y|]. unfold desc_key. cbn. rewrite Hy. cbn. by rewrite Heq. }
    destruct (rb_link_spec (desc_key s) d r _ Hs2 Hd2) as (t2 & _ & _ & L2 & _).
    { intros q Hq. apply Hmem2 in Hq as (y & Hy & Hp). unfold desc_key. rewrite Hy. cbn. intros [= Heq]. by apply (Hdesc q y). }
    change (desc_key (id s1)) with (desc_key s). krun.
    set (k1 := set_k_refs_by_node (rb_insert_color r t1) k).
    assert (ks_procs s1 !! p = Some k1) as Hk1 by (cbn; by rewrite lookup_insert_eq). krun. krun.
    assert (truthy m = true) as ->.
    { unfold truthy. destruct (Z.eqb_spec m 0) as [->|]; [|done]. destruct (ro_null _ _ Hok) as (_ & Hz & _). congruence. }
    set (s' := add_ref p m r d t1 t2 k x s0). exists r, s'. split.
    { erewrite kbind_run; [reflexivity|]. erewrite upd_node_run by exact Hm. do 2 f_equal. unfold s', add_ref, node_set, ref_set, proc_set. cbn.
      unfold set_ks_nodes, set_ks_refs, set_ks_procs. cbn. by rewrite insert_insert_eq. }
    pose proof (refs_ok_tick held (S (ks_tick s)) s Hok) as Hok0. pose proof (add_ref_lists p m r d t1 t2 k x s0 Hk0 Hm) as Hsl.
    split.
    + assert (length (n_refs x) ≤ size (ks_refs s))%nat as Hroom.
      { destruct (ro_node _ _ Hok _ _ Hm) as (A1 & A2 & _). apply length_le_size; [done|]. intros q (y & Hy & _)%A2. by exists y. }
      split; [apply add_ref_ok; try done; [lia|lia|intros q y Hy Hp; split; [by apply (Hnode q)|by apply (Hdesc q)]]|].
      pose proof (kref_inv_tick held (S (ks_tick s)) s Hinv) as (_ & Hqs0 & Has0).
      split; [by eapply queues_ok_same|]. eapply async_ok_le; [exact Has0|by apply async_le_same|done].
    + right. split; [done|]. right. split; [done|]. exists d, t1, t2, k, x. cbv zeta. fold base. split_and!; try done; [lia..|].
      intros e He. destruct (Hdl e He) as (q & Hq & Hqe). apply Hmem2 in Hq as (y & Hy & Hp). exists q, y. split; [done|]. split; [done|].
      unfold desc_key in Hqe. cbn in Hqe. rewrite Hy in Hqe. by injection Hqe.
Qed.

End Run.

Section Count.
Context `{RbLaws}.

Lemma is_strong_pos z : 0 < r_strong z → is_strong z = 1.
Proof. unfold is_strong. intros Hp. by rewrite (proj2 (Z.ltb_lt _ _) Hp). Qed.
Lemma is_strong_zero z : r_strong z = 0 → is_strong z = 0.
Proof. unfold is_strong. by intros ->. Qed.

(** ** Through a reference *)

(** Storing a reference's counts along with those of its node. *)
Lemma count_ok held s s' r x z n y :
  kref_inv held s → ks_refs s !! r = Some x → ks_nodes s !! r_node x = Some n →
  queues_ok s' → async_le s s' → strip s' = strip (ref_set r z (node_set (r_node x) y s)) →
  same_links n y → r_proc z = r_proc x → r_node z = r_node x → r_desc z = r_desc x → r_death z = r_death x →
  0 ≤ r_strong z < 2 ^ 31 → 0 ≤ r_weak z < 2 ^ 31 → n_internal_strong_refs y = n_internal_strong_refs n - is_strong x + is_strong z →
  n_local_strong_refs y = n_local_strong_refs n → n_local_weak_refs y = n_local_weak_refs n →
  n_pending_strong_ref y = n_pending_strong_ref n → n_pending_weak_ref y = n_pending_weak_ref n →
  n_has_strong_ref y = n_has_strong_ref n → n_has_weak_ref y = n_has_weak_ref n → kref_inv held s'.
Proof.
  intros (Hok & _ & Has) Hr Hn Hqs Hle Hst Hl E1 E2 E3 E4 P1 P2 Hi L1 L2 D1 D2 F1 F2. split; [|split; [done|by eapply async_ok_le]].
  eapply refs_ok_strip; [exact Hst|]. destruct (ro_node _ _ Hok _ _ Hn) as (_ & _ & _ & _ & H5 & H6).
  destruct (ro_small _ _ Hok) as [_ Hsn]. destruct (Hsn _ _ Hn) as (_ & S1 & S2).
  eapply ref_update_ok; try done; [by rewrite L1|by rewrite L2|rewrite L1, D1; exact H5|rewrite L2, D2; exact H6|intros b; apply (ro_held _ _ Hok)|].
  unfold told. rewrite D1, D2, F1, F2. exact (ro_told _ _ Hok _ _ Hn).
Qed.

(** Storing only the reference's. *)
Lemma store_ref_ok held s r x z n :
  kref_inv held s → ks_refs s !! r = Some x → ks_nodes s !! r_node x = Some n →
  r_proc z = r_proc x → r_node z = r_node x → r_desc z = r_desc x → r_death z = r_death x →
  0 ≤ r_strong z < 2 ^ 31 → 0 ≤ r_weak z < 2 ^ 31 → is_strong z = is_strong x → kref_inv held (ref_set r z s).
Proof.
  intros Hinv Hr Hn E1 E2 E3 E4 P1 P2 Hi. pose proof Hinv as (_ & Hqs & _). pose proof (ref_set_lists s r z) as Hsl.
  eapply (count_ok held s _ r x z n n Hinv Hr Hn (queues_ok_same _ _ Hsl Hqs) (async_le_same _ _ Hsl)); try done; [|lia].
  by rewrite node_set_id.
Qed.

Definition bump (strong : bool) (d : Z) (x : binder_ref) : binder_ref :=
  if strong then set_r_strong (r_strong x + d) x else set_r_weak (r_weak x + d) x.

(** Room for one count more on a reference. *)
Definition count_room (strong : bool) (x : binder_ref) : Prop := (if strong then r_strong x else r_weak x) < 2 ^ 31 - 1.

Lemma inc_ref_run held s r x strong tl :
  kref_inv held s → ks_refs s !! r = Some x → good_list s tl → count_room strong x →
  ∃ ret s', binder_inc_ref r strong tl s = Some (ret, s') ∧ kref_inv held s' ∧
    ((ret = 0 ∧ ks_refs s' = <[r := bump strong 1 x]> (ks_refs s)) ∨
     (ret = - Errno.EINVAL ∧ tl = None ∧ (if strong then r_strong x else r_weak x) = 0 ∧ ks_refs s' = ks_refs s)).
Proof.
  intros Hinv Hr Hg Hroom. pose proof Hinv as (Hok & Hqs & Has). destruct (ro_ref _ _ Hok _ _ Hr) as (_ & _ & P1 & P2 & n & Hn & Hin).
  destruct (ro_small _ _ Hok) as [Hsr Hsn]. destruct (Hsr _ _ Hr) as [S1 S2]. unfold count_room in Hroom.
  assert (∀ y, strong = true → r_strong x = 0 → y = n → s32 (n_internal_strong_refs y + 1) = n_internal_strong_refs n + 1) as Hint.
  { intros y _ Hz ->. destruct (ro_node _ _ Hok _ _ Hn) as (_ & _ & _ & Hcnt & _). destruct (Hsn _ _ Hn) as [Hzl _].
    pose proof (strong_count_lt _ _ _ _ Hr Hz Hin). pose proof (strong_count_nonneg (ks_refs s) (n_refs n)). apply s32_id. lia. }
  unfold binder_inc_ref. krun. set (c := if strong then r_strong x else r_weak x).
  assert (∃ ret s1, (if c =? 0 then binder_inc_node (r_node x) strong true tl else mret 0) s = Some (ret, s1) ∧ queues_ok s1 ∧
    async_le s s1 ∧ (ret = 0 ∨ (ret = - Errno.EINVAL ∧ tl = None ∧ c = 0)) ∧
    strip s1 = strip (node_set (r_node x) (if (c =? 0) && negb (strong && truthy ret) then inc_counts strong true n else n) s))
    as (ret & s1 & H1 & Hqs1 & Hle1 & Hret & Hst1).
  { destruct (Z.eqb_spec c 0) as [Hz|Hz]; cbn [andb].
    - destruct (inc_node_run s (r_node x) n strong true tl Hqs Hn Hg) as (ret & s1 & H1 & H2 & H3 & H4 & H5). exists ret, s1.
      split; [done|]. split; [done|]. split; [done|]. split; [destruct H4 as [|[]]; auto|]. rewrite H5. by destruct (strong && truthy ret).
    - exists 0, s. split; [done|]. split; [done|]. split; [apply async_le_refl|]. split; [by left|]. by rewrite node_set_id. }
  assert ((if strong then
       ret ← (if r_strong x =? 0 then binder_inc_node (r_node x) true true tl else mret 0);
       if truthy ret then mret ret else _ ← upd_ref r (λ x, set_r_strong (s32 (r_strong x + 1)) x); mret 0
     else
       ret ← (if r_weak x =? 0 then binder_inc_node (r_node x) false true tl else mret 0);
       if truthy ret then mret ret else _ ← upd_ref r (λ x, set_r_weak (s32 (r_weak x + 1)) x); mret 0) s =
     (if truthy ret then mret ret else _ ← upd_ref r (λ x, if strong then set_r_strong (s32 (r_strong x + 1)) x else set_r_weak (s32 (r_weak x + 1)) x); mret 0) s1) as ->.
  { unfold c in H1. destruct strong; by rewrite (kbind_run _ _ _ _ _ H1). }
  assert (ks_refs s1 = ks_refs s) as Hrs1 by (rewrite (strip_refs _ _ Hst1); done).
  destruct Hret as [->|(-> & Htl & Hc)].
  - change (truthy 0) with false in *. rewrite andb_false_r in Hst1. cbn [negb] in Hst1. rewrite andb_true_r in Hst1. cbn iota.
    assert (ks_refs s1 !! r = Some x) as Hr1 by (by rewrite Hrs1).
    assert ((if strong then set_r_strong (s32 (r_strong x + 1)) x else set_r_weak (s32 (r_weak x + 1)) x) = bump strong 1 x) as Hbump.
    { unfold bump. destruct strong; by rewrite s32_id by lia. }
    rewrite (kbind_run _ _ _ _ _ (upd_ref_run _ _ _ _ Hr1)), Hbump. eexists _, _. split; [reflexivity|].
    split; [|left; split; [done|]; cbn; by rewrite Hrs1].
    pose proof (ref_set_lists s1 r (bump strong 1 x)) as Hsl.
    assert (queues_ok (ref_set r (bump strong 1 x) s1)) as Hqs2 by (by eapply queues_ok_same).
    assert (async_le s (ref_set r (bump strong 1 x) s1)) as Hle2 by (eapply async_le_trans; [exact Hle1|by apply async_le_same]).
    eapply (count_ok held s _ r x (bump strong 1 x) n (if c =? 0 then inc_counts strong true n else n) Hinv Hr Hn Hqs2 Hle2
      (strip_ref_set _ _ r (bump strong 1 x) Hst1)).
    + destruct (c =? 0), strong; by split_and!.
    + by destruct strong.
    + by destruct strong.
    + by destruct strong.
    + by destruct strong.
    + destruct strong; cbn; lia.
    + destruct strong; cbn; lia.
    + destruct strong; cbn [bump].
      * rewrite (is_strong_pos (set_r_strong _ x)) by (cbn; lia). unfold c. destruct (Z.eqb_spec (r_strong x) 0); cbn.
        -- rewrite is_strong_zero, Hint by done. lia.
        -- rewrite is_strong_pos by lia. lia.
      * change (is_strong (set_r_weak _ x)) with (is_strong x). destruct (c =? 0); cbn; lia.
    + by destruct (c =? 0), strong.
    + by destruct (c =? 0), strong.
    + by destruct (c =? 0), strong.
    + by destruct (c =? 0), strong.
    + by destruct (c =? 0), strong.
    + by destruct (c =? 0), strong.
  - change (truthy (- Errno.EINVAL)) with true in *. cbn iota. eexists _, s1. split; [reflexivity|]. split; [|right; by split_and!].
    eapply (count_ok held s s1 r x x n n); try done; [|lia].
    rewrite Hst1. assert (ref_set r x (node_set (r_node x) n s) = s) as ->.
    { rewrite node_set_id by done. unfold ref_set. rewrite insert_id by done. by destruct s. }
    destruct strong; cbn [andb negb]; [rewrite andb_false_r; by rewrite node_set_id|]. cbn. destruct (c =? 0); by rewrite node_set_id.
Qed.

(** The state behind [binder_dec_ref]. *)
Definition dec_ref_refs (s : kstate) (r : Z) (x : binder_ref) (strong : bool) : gmap Z binder_ref :=
  let z := bump strong (-1) x in
  if (r_strong z =? 0) && (r_weak z =? 0) then delete r (ks_refs s) else <[r := z]> (ks_refs s).

Lemma dec_ref_run held s r x strong :
  kref_inv held s → ks_refs s !! r = Some x →
  ∃ ret s', binder_dec_ref r strong s = Some (ret, s') ∧ kref_inv held s' ∧
    ((ret = - Errno.EINVAL ∧ (if strong then r_strong x else r_weak x) = 0 ∧ s' = s) ∨
     (ret = 0 ∧ 0 < (if strong then r_strong x else r_weak x) ∧ ks_refs s' = dec_ref_refs s r x strong)).
Proof.
  intros Hinv Hr. pose proof Hinv as (Hok & Hqs & Has). destruct (ro_ref _ _ Hok _ _ Hr) as (_ & _ & P1 & P2 & n & Hn & Hin).
  destruct (ro_node _ _ Hok _ _ Hn) as (_ & _ & Hpn & _). destruct (ro_small _ _ Hok) as [Hsr _]. destruct (Hsr _ _ Hr) as [S1 S2].
  unfold binder_dec_ref. krun. set (c := if strong then r_strong x else r_weak x).
  assert (0 ≤ c) as Hc0 by (unfold c; destruct strong; lia). destruct (Z.eqb_spec c 0) as [Hz|Hz].
  { exists (- Errno.EINVAL), s. split; [done|]. split; [done|]. by left. }
  set (z := bump strong (-1) x).
  assert (∃ s1, (if strong then
       _ ← upd_ref r (λ x, set_r_strong (s32 (r_strong x - 1)) x);
       if s32 (r_strong x - 1) =? 0 then binder_dec_node (r_node x) strong true else mret ()
     else upd_ref r (λ x, set_r_weak (s32 (r_weak x - 1)) x)) s = Some ((), s1) ∧ kref_inv held s1 ∧ ks_refs s1 = <[r := z]> (ks_refs s))
    as (s1 & H1 & Hinv1 & Hrs1).
  { pose proof (ref_set_lists s r z) as Hsl. destruct strong.
    - rewrite (kbind_run _ _ _ _ _ (upd_ref_run _ _ _ _ Hr)), s32_id by lia.
      match goal with |- context [set_ks_refs ?m s] => change (set_ks_refs m s) with (ref_set r z s) end.
      destruct (Z.eqb_spec (r_strong x - 1) 0) as [H1|H1].
      + assert (gone (dec_counts true true n) = false) as Hg.
        { unfold gone. cbn. apply andb_false_iff. left. apply andb_false_iff. left. apply andb_false_iff. right.
          apply bool_decide_eq_false. intros Hnil. rewrite Hnil in Hin. by apply elem_of_nil in Hin. }
        destruct (dec_node_run (ref_set r z s) (r_node x) n true true) as (s1 & Hs1 & Hq1 & Ha1 & Hst1).
        { by eapply queues_ok_same. } { done. } { done. } { by rewrite Hg. }
        rewrite Hg in Hst1. exists s1. split; [done|]. split; [|by rewrite (strip_refs _ _ Hst1)].
        assert (async_le s s1) as Ha2 by (eapply async_le_trans; [by apply async_le_same|done]).
        eapply (count_ok held s s1 r x z n (dec_counts true true n) Hinv Hr Hn Hq1 Ha2 Hst1); try done.
        * cbn. lia.
        * pose proof (internal_range held s _ n Hok Hn). cbn. rewrite (s32_id (_ - 1)) by lia. rewrite is_strong_pos by lia. rewrite is_strong_zero by (cbn; lia). lia.
      + eexists. split; [reflexivity|]. split; [|done].
        apply (store_ref_ok held s r x z n); try done; [cbn; unfold c in *; lia|].
        rewrite !is_strong_pos by (cbn; unfold c in *; lia). lia.
    - eexists. split; [apply upd_ref_run, Hr|]. cbn beta. rewrite s32_id by lia. split; [|done]. fold (ref_set r z s).
      apply (store_ref_ok held s r x z n); try done. cbn. unfold c in *. lia. }
  rewrite (kbind_run _ _ _ _ _ H1). assert (ks_refs s1 !! r = Some z) as Hr1 by (rewrite Hrs1; by rewrite lookup_insert_eq). krun.
  unfold dec_ref_refs. fold z. cbv zeta. destruct ((r_strong z =? 0) && (r_weak z =? 0)).
  - destruct (delete_ref_run held s1 r z Hinv1 Hr1) as (k & n1 & s2 & _ & _ & H2 & Hinv2 & Hst2). rewrite (kbind_run _ _ _ _ _ H2).
    exists 0, s2. split; [done|]. split; [done|]. right. split; [done|]. split; [lia|].
    rewrite (strip_refs _ _ Hst2), after_delete_refs, Hrs1. apply delete_insert_eq.
  - exists 0, s1. split; [done|]. split; [done|]. right. split; [done|]. split; [lia|done].
Qed.

End Count.
