(* ===== verification/KRefsLocal.v ===== *)
(** * Binder driver: holders inside the driver

    Making nodes, holding and releasing them from inside the driver, and telling user space
    about the counts of a node. *)
From stdpp Require Import sorting gmap.
From S2P Require Import Prelude Bio Binder KAlloc KAllocSpec KState KRefs KTrans KWrite KRead.
From S2P Require Import KQueues KRefsSpec KRefsInv KRefsOps KRefsRun.

Section Local.
Context `{RbLaws}.

(** One holder more or less. *)
Definition hold (held : Z → bool → Z) (n : Z) (strong : bool) (d : Z) (m : Z) (b : bool) : Z :=
  if decide (m = n ∧ b = strong) then held m b + d else held m b.

Lemma hold_ne held n strong d m b : m ≠ n → hold held n strong d m b = held m b.
Proof. intros Hne. unfold hold. rewrite decide_False; [done|]. by intros [? _]. Qed.
Lemma hold_eq held n strong d : hold held n strong d n strong = held n strong + d.
Proof. unfold hold. by rewrite decide_True. Qed.
Lemma hold_other held n strong d : hold held n strong d n (negb strong) = held n (negb strong).
Proof. unfold hold. rewrite decide_False; [done|]. intros [_ Hb]. by destruct strong. Qed.

(** Queued asynchronous transactions are covered when the holders of one node change. *)
Lemma async_ok_change held held' s s' n x :
  async_ok held s → async_le s s' → ks_nodes s !! n = Some x → (∀ m b, m ≠ n → held' m b = held m b) →
  (1 ≤ held' n true ∨ n_async_todo x = []) → async_ok held' s'.
Proof.
  intros Ha Hle Hx Hne Hn m l Hl Hl0. destruct (Hle m l Hl Hl0) as (l0 & Hl1 & Hl2). destruct (decide (m = n)) as [->|Hm].
  - destruct Hn as [|Hnil]; [done|]. cbn in Hl1. rewrite Hx in Hl1. cbn in Hl1. congruence.
  - rewrite Hne by done. by apply (Ha m l0).
Qed.

(** ** Counting down *)

(** The node is first stored as [y0], which differs from [x] in the flags for pending counts. *)
Lemma dec_local_run held held' s n x y0 strong :
  kref_inv held s → ks_nodes s !! n = Some x → same_links x y0 → n_async_todo y0 = n_async_todo x → n_entry y0 = n_entry x →
  let y := dec_counts strong false y0 in
  n_internal_strong_refs y0 = n_internal_strong_refs x → n_local_strong_refs y < 2 ^ 31 → n_local_weak_refs y < 2 ^ 31 →
  n_local_strong_refs y = held' n true + c_bool (n_pending_strong_ref y) →
  n_local_weak_refs y = held' n false + c_bool (n_pending_weak_ref y) →
  (∀ m b, m ≠ n → held' m b = held m b) → (∀ b, 0 ≤ held' n b) → told y = true → (1 ≤ held' n true ∨ n_async_todo x = []) →
  ∃ s', binder_dec_node n strong false (node_set n y0 s) = Some ((), s') ∧ kref_inv held' s' ∧
    strip s' = strip (if gone y then remove_node n y (node_set n y s) else node_set n y s).
Proof.
  intros (Hok & Hqs & Has) Hx Hl Hat Hen y Hi Q1 Q2 E1 E2 Hne H0' Hto Ha. set (s0 := node_set n y0 s).
  assert (same_lists s s0) as Hsl by (by apply (node_set_lists s n x)).
  assert (node_set n y s0 = node_set n y s) as Es by (unfold s0, node_set, set_ks_nodes; cbn; by rewrite insert_insert_eq).
  assert (same_links x y) as Hly by (unfold y, dec_counts; by destruct strong).
  assert (n_internal_strong_refs y = n_internal_strong_refs x) as Hiy by (unfold y, dec_counts; by destruct strong).
  destruct (ro_node _ _ Hok _ _ Hx) as (_ & _ & Hp & Hcnt & _ & _). destruct Hl as (Lp & _ & Lr).
  assert (refs_ok held' (node_set n y s)) as Hok'. { apply (node_update_ok held held' s n x y Hok Hx Hly Hiy Q1 Q2 E1 E2 Hne H0' Hto). }
  assert (ks_nodes (node_set n y s) !! n = Some y) as Hy by (cbn; by rewrite lookup_insert_eq).
  destruct (dec_node_run s0 n y0 strong false) as (s' & Hr & Hq' & Ha' & Hst).
  - by eapply queues_ok_same.
  - unfold s0. cbn. by rewrite lookup_insert_eq.
  - rewrite Lp. exact Hp.
  - fold y. intros Hg. apply gone_spec in Hg as (Hr & Hs & Hw). rewrite Hat. split.
    + destruct Ha as [Ha|]; [|done]. pose proof (gone_not_held held' _ n y Hok' Hy Hs Hw true). lia.
    + intros _. rewrite Hiy, Hcnt. destruct Hly as (_ & _ & <-). by rewrite Hr.
  - fold y in Hst. rewrite Es in Hst. exists s'. split; [done|]. split; [|done]. split; [|split; [done|]].
    + eapply refs_ok_strip; [exact Hst|]. destruct (gone y) eqn:Hg; [|done]. apply gone_spec in Hg as (Hr' & Hs & Hw).
      apply remove_node_ok; [done..|]. by apply (gone_not_held held' (node_set n y s) n y).
    + apply (async_ok_change held held' s s' n x); [done| |done..]. eapply async_le_trans; [by apply async_le_same|done].
Qed.

Lemma local_range held s n x :
  refs_ok held s → ks_nodes s !! n = Some x → 0 ≤ n_local_strong_refs x < 2 ^ 31 ∧ 0 ≤ n_local_weak_refs x < 2 ^ 31.
Proof.
  intros Hok Hx. destruct (ro_node _ _ Hok _ _ Hx) as (_ & _ & _ & _ & L1 & L2). destruct (ro_small _ _ Hok) as [_ Hs].
  destruct (Hs _ _ Hx) as (_ & S1 & S2). pose proof (ro_held _ _ Hok n true). pose proof (ro_held _ _ Hok n false).
  unfold c_bool in *. destruct (n_pending_strong_ref x), (n_pending_weak_ref x); lia.
Qed.

Lemma release_run held s n x strong :
  kref_inv held s → ks_nodes s !! n = Some x → 1 ≤ held n strong → (strong = true → 2 ≤ held n true ∨ n_async_todo x = []) →
  ∃ s', binder_dec_node n strong false s = Some ((), s') ∧ kref_inv (hold held n strong (-1)) s'.
Proof.
  intros Hinv Hx H1 Ha. pose proof Hinv as (Hok & _ & Has). destruct (ro_node _ _ Hok _ _ Hx) as (_ & _ & _ & _ & L1 & L2).
  pose proof (λ b, ro_held _ _ Hok n b) as Hh. pose proof (Hh true). pose proof (Hh false). destruct (local_range held s n x Hok Hx) as [S1 S2].
  destruct (dec_local_run held (hold held n strong (-1)) s n x x strong) as (s' & Hr & Hi & _); try done.
  - destruct strong; cbn; rewrite ?s32_id; lia.
  - destruct strong; cbn; rewrite ?s32_id; lia.
  - destruct strong; cbn; [rewrite hold_eq, s32_id|rewrite (hold_other held n false)]; cbn; lia.
  - destruct strong; cbn; [rewrite (hold_other held n true)|rewrite hold_eq, s32_id]; cbn; lia.
  - intros m b. apply hold_ne.
  - intros b. destruct (decide (b = strong)) as [->|Hb]; [rewrite hold_eq; lia|].
    assert (b = negb strong) as -> by (by destruct b, strong). rewrite hold_other. apply Hh.
  - destruct strong; exact (ro_told _ _ Hok _ _ Hx).
  - destruct strong; [rewrite hold_eq; destruct Ha as [|]; [done|left; lia|by right]|]. rewrite (hold_other held n false). cbn.
    destruct (n_async_todo x) as [|w l] eqn:E; [by right|left]. apply (Has n (w :: l)); [cbn; by rewrite Hx, <- E|done].
  - exists s'. by rewrite node_set_id in Hr.
Qed.

(** ** Counting up *)

Lemma hold_run held s n x (strong : bool) tl :
  kref_inv held s → ks_nodes s !! n = Some x → good_list s tl →
  (if strong then n_local_strong_refs x else n_local_weak_refs x) < 2 ^ 31 - 1 →
  ∃ ret s', binder_inc_node n strong false tl s = Some (ret, s') ∧ kref_inv (hold held n strong 1) s' ∧ (tl = None ∨ ret = 0).
Proof.
  intros (Hok & Hqs & Has) Hx Hg Hroom. destruct (local_range held s n x Hok Hx) as [S1 S2]. destruct (ro_node _ _ Hok _ _ Hx) as (_ & _ & _ & _ & L1 & L2).
  destruct (inc_node_run s n x strong false tl Hqs Hx Hg) as (ret & s' & Hr & Hq & Hle & Hret & Hst). exists ret, s'. split; [done|].
  assert (strip s' = strip (node_set n (inc_counts strong false x) s)) as Hst'.
  { rewrite Hst. destruct strong; [|done]. cbn [andb]. destruct Hret as [->|[-> ->]]; [done|].
    unfold binder_inc_node in Hr. rewrite (kbind_run _ _ _ _ _ (node_at_run _ _ _ Hx)) in Hr. cbn [andb] in Hr.
    unfold kget, upd_node, mbind, KM_bind in Hr. rewrite Hx in Hr. discriminate. }
  pose proof (λ b, ro_held _ _ Hok n b) as Hh.
  split; [|destruct Hret as [|[_ ?]]; auto]. split; [|split; [done|]].
  - eapply refs_ok_strip; [exact Hst'|]. apply (node_update_ok held (hold held n strong 1) s n x (inc_counts strong false x) Hok Hx).
    + by destruct strong.
    + by destruct strong.
    + destruct strong; cbn; rewrite ?s32_id; lia.
    + destruct strong; cbn; rewrite ?s32_id; lia.
    + destruct strong; cbn; [rewrite hold_eq, s32_id|rewrite (hold_other held n false)]; cbn; lia.
    + destruct strong; cbn; [rewrite (hold_other held n true)|rewrite hold_eq, s32_id]; cbn; lia.
    + intros m b. apply hold_ne.
    + intros b. specialize (Hh b). unfold hold. destruct (decide _); lia.
    + destruct strong; exact (ro_told _ _ Hok _ _ Hx).
  - eapply async_ok_le; [done|done|]. intros m. unfold hold. destruct (decide _); lia.
Qed.

(** ** What user space acknowledges *)

Lemma told_weak x : told x = true → told (dec_counts true false (set_n_pending_strong_ref false x)) = true.
Proof. unfold told. by intros [_ ?]%andb_prop. Qed.
Lemma told_strong x : told x = true → told (dec_counts false false (set_n_pending_weak_ref false x)) = true.
Proof. unfold told. intros [? _]%andb_prop. by apply andb_true_iff. Qed.

Lemma removed_refs s s' n y : strip s' = strip (if gone y then remove_node n y (node_set n y s) else node_set n y s) → ks_refs s' = ks_refs s.
Proof. intros Hst. rewrite (strip_refs _ _ Hst). unfold remove_node. by destruct (gone y), (truthy (n_proc y)). Qed.

Lemma do_done_run held s p k strong ptr cookie :
  kref_inv held s → ks_procs s !! p = Some k → ∃ s', do_done p strong ptr cookie s = Some ((), s') ∧ kref_inv held s' ∧ ks_refs s' = ks_refs s.
Proof.
  intros Hinv Hk. pose proof Hinv as (Hok & _ & Has). unfold do_done. destruct (get_node_run held s p k ptr Hok Hk) as (n & Hn & Hc). krun.
  destruct Hc as [(x & Hx & _ & _)|[-> _]]; [|by exists s].
  destruct (Z.eqb_spec n 0) as [|_]; [by exists s|]. krun. destruct (negb (cookie =? n_cookie x)); [by exists s|].
  destruct (ro_node _ _ Hok _ _ Hx) as (_ & _ & _ & _ & L1 & L2). pose proof (λ b, ro_held _ _ Hok n b) as Hh.
  destruct (local_range held s n x Hok Hx) as [S1 S2].
  assert (1 ≤ held n true ∨ n_async_todo x = []) as Ha.
  { destruct (n_async_todo x) as [|w l] eqn:E; [by right|left]. apply (Has n (w :: l)); [cbn; by rewrite Hx, <- E|done]. }
  pose proof (ro_told _ _ Hok _ _ Hx) as Hto. destruct strong.
  - destruct (n_pending_strong_ref x) eqn:Ep; cbn [negb]; [|by exists s]. krun.
    destruct (dec_local_run held held s n x (set_n_pending_strong_ref false x) true) as (s' & Hr & Hi & Hst); try done;
      [cbn in *; rewrite ?s32_id; lia..| |exists s'; split; [exact Hr|split; [done|by eapply removed_refs]]].
    by apply told_weak.
  - destruct (n_pending_weak_ref x) eqn:Ep; cbn [negb]; [|by exists s]. krun.
    destruct (dec_local_run held held s n x (set_n_pending_weak_ref false x) false) as (s' & Hr & Hi & Hst); try done;
      [cbn in *; rewrite ?s32_id; lia..| |exists s'; split; [exact Hr|split; [done|by eapply removed_refs]]].
    by apply told_strong.
Qed.

(** ** A new node *)

Lemma add_node_lists p n ptr cookie t k s :
  ks_procs s !! p = Some k → ks_nodes s !! n = None → queues_ok s →
  queues_ok (add_node p n ptr cookie t k s) ∧ async_le s (add_node p n ptr cookie t k s).
Proof.
  intros Hk Hn [Hl Hnd Hli]. set (s' := add_node p n ptr cookie t k s).
  assert (∀ q, queue_items s' q = if decide (q = Q_async n) then Some [] else queue_items s q) as Hq.
  { intros [q|q|q|q]; cbn; try done.
    - by_key p q; [by rewrite Hk|done].
    - by_key n q; [by rewrite decide_True|by rewrite decide_False by congruence].
    - by_key p q; [by rewrite Hk|done]. }
  assert (∀ w, entry_at s' w = if decide (w = W_node n) then Some None else entry_at s w) as Hw.
  { intros [q|q|q|q]; cbn; try done. by_key n q; [by rewrite decide_True|by rewrite decide_False by congruence]. }
  assert (queue_items s (Q_async n) = None ∧ entry_at s (W_node n) = None) as [Hqn Hwn] by (cbn; by rewrite Hn).
  split; [split|].
  - intros q l w. rewrite Hq, Hw. destruct (decide (q = Q_async n)) as [->|]; [intros [= <-] Hin; by apply elem_of_nil in Hin|].
    intros Hql Hin. pose proof (Hl _ _ _ Hql Hin) as He. rewrite decide_False; [done|]. intros ->. congruence.
  - intros q l. rewrite Hq. destruct (decide _); [intros [= <-]; constructor|apply Hnd].
  - intros q w. rewrite Hw. destruct (decide (w = W_node n)); [done|]. intros He. destruct (Hli _ _ He) as (l & Hql & Hin).
    exists l. rewrite Hq, decide_False; [done|]. intros ->. congruence.
  - intros m l. rewrite Hq. destruct (decide _); [by intros [= <-]|]. intros Hl0 Hne. by exists l.
Qed.

Lemma new_node_run `{KernelLaws} held s p k ptr cookie :
  kref_inv held s → ks_procs s !! p = Some k →
  ∃ n s', binder_new_node p ptr cookie s = Some (n, s') ∧ kref_inv held s' ∧
    (n = 0 ∧ ks_nodes s' = ks_nodes s ∨
     n ≠ 0 ∧ ks_nodes s !! n = None ∧ ks_nodes s' = <[n := new_node p ptr cookie]> (ks_nodes s)).
Proof.
  intros Hinv Hk. pose proof Hinv as (Hok & Hqs & Has). unfold binder_new_node. krun. krun.
  destruct (ro_nodes _ _ Hok _ _ Hk) as (Hs & Hd & Hmem). destruct (rb_find_spec (ptr_key s) ptr _ Hs Hd) as (f & Hf & Hc). krun.
  destruct (truthy f) eqn:Ht; [exists 0, s; by auto|].
  destruct Hc as [[Hin _]|[-> Hno]].
  { apply Hmem in Hin as (x & Hx & _). unfold truthy in Ht. destruct (Z.eqb_spec f 0) as [->|]; [|done].
    destruct (ro_null _ _ Hok) as (_ & Hz & _). congruence. }
  rewrite (kbind_run _ _ _ _ _ (kzalloc_run s)). set (s0 := set_ks_tick (S (ks_tick s)) s).
  pose proof (kref_inv_tick held (S (ks_tick s)) s Hinv) as Hinv0. fold s0 in Hinv0.
  destruct (kzalloc_addr (live s) (ks_tick s)) as [n|] eqn:Ha; cbn [from_option]; [|exists 0, s0; by auto].
  destruct (kzalloc_fresh _ _ _ Ha) as [Hn0 Hfresh]. change (id n) with n. assert ((n =? 0) = false) as -> by lia.
  assert (ks_nodes s !! n = None) as Hnn. { apply not_elem_of_dom. intros Hin. apply Hfresh. unfold live. set_solver. }
  destruct (rb_link_spec (ptr_key s) ptr n _ Hs Hd Hno) as (t & _ & _ & L & _). krun.
  assert (ks_procs s0 !! p = Some k) as Hk0 by done. krun. krun.
  exists n, (add_node p n ptr cookie t k s0). split; [done|]. split; [|right; split; done].
  destruct Hinv0 as (Hok0 & Hqs0 & Has0). destruct (add_node_lists p n ptr cookie t k s0 Hk0 Hnn Hqs0) as [Hq' Ha'].
  split; [|split; [done|by eapply async_ok_le]]. apply add_node_ok; try done.
  intros m x Hx Hp Heq. change (ks_nodes s !! m = Some x) in Hx. apply (Hno m); [apply Hmem; by exists x|]. unfold ptr_key.
  rewrite Hx. cbn. by rewrite Heq.
Qed.

(** ** Telling user space *)

(** Counts of [x] that [x'] agrees with, up to a count that user space now has to acknowledge. *)
Lemma node_command_counts `{BinderApi} x cmd x' :
  node_command x = Some (cmd, x') → told x = true → c_bool (n_pending_strong_ref x) ≤ n_local_strong_refs x →
  c_bool (n_pending_weak_ref x) ≤ n_local_weak_refs x → n_local_strong_refs x < 2 ^ 31 - 1 → n_local_weak_refs x < 2 ^ 31 - 1 →
  n_local_strong_refs x' < 2 ^ 31 ∧ n_local_weak_refs x' < 2 ^ 31 ∧
  same_links x x' ∧ n_async_todo x' = n_async_todo x ∧ n_entry x' = n_entry x ∧ told x' = true ∧
  n_internal_strong_refs x' = n_internal_strong_refs x ∧
  n_local_strong_refs x' - c_bool (n_pending_strong_ref x') = n_local_strong_refs x - c_bool (n_pending_strong_ref x) ∧
  n_local_weak_refs x' - c_bool (n_pending_weak_ref x') = n_local_weak_refs x - c_bool (n_pending_weak_ref x).
Proof.
  unfold node_command, told, same_links. destruct x as [? ? i lw ls ? ? hs ps hw pw ? ? ? ? ?]. cbn. unfold truthy.
  intros Hc Ht Hs Hw R1 R2. destruct hs, ps, hw, pw; try done; rewrite ?andb_true_r, ?andb_false_r in Hc; cbn in *;
    repeat match type of Hc with (if ?b then _ else _) = _ => destruct b eqn:?; [|try done] end;
    try done; injection Hc as <- <-; cbn; rewrite ?s32_id by lia; split_and!; try done; try lia.
Qed.

Lemma node_command_run `{BinderApi} held s n x cmd x' :
  kref_inv held s → ks_nodes s !! n = Some x → n_local_strong_refs x < 2 ^ 31 - 1 → n_local_weak_refs x < 2 ^ 31 - 1 →
  node_command x = Some (cmd, x') → kref_inv held (node_set n x' s).
Proof.
  intros (Hok & Hqs & Has) Hx R1 R2 Hc. destruct (ro_node _ _ Hok _ _ Hx) as (_ & _ & _ & _ & L1 & L2).
  pose proof (λ b, ro_held _ _ Hok n b) as Hh. pose proof (Hh true). pose proof (Hh false).
  destruct (node_command_counts x cmd x' Hc (ro_told _ _ Hok _ _ Hx)) as (S1 & S2 & E1 & E2 & E3 & E4 & E5 & E6 & E7); [lia..|].
  assert (same_lists s (node_set n x' s)) as Hsl by (by apply (node_set_lists s n x)).
  split; [apply (node_update_ok held held s n x x'); try done; lia|]. split; [by eapply queues_ok_same|].
  eapply async_ok_le; [done|by apply async_le_same|done].
Qed.

(** No command for a node nobody refers to: the node goes. *)
Lemma read_node_run `{BinderApi} held s n x p writable m ptr (k : list Z → Z → KM read_step) :
  kref_inv held s → ks_nodes s !! n = Some x → n_local_strong_refs x < 2 ^ 31 - 1 → n_local_weak_refs x < 2 ^ 31 - 1 → n_proc x = p → p ≠ 0 →
  ∃ s', kref_inv held s' ∧
    match node_command x with
    | Some (cmd, x') => read_node p writable n m ptr k s = put_cmd writable m ptr [cmd; n_ptr x; n_cookie x] k s' ∧ s' = node_set n x' s
    | None => read_node p writable n m ptr k s = k m ptr s' ∧ (node_unused x = true ↔ ks_nodes s' !! n = None)
    end.
Proof.
  intros Hinv Hx R1 R2 Hp Hp0. pose proof Hinv as (Hok & Hqs & Has). unfold read_node. krun. destruct (node_command x) as [[cmd x']|] eqn:Hc.
  { exists (node_set n x' s). split; [by eapply node_command_run|]. krun. done. }
  destruct (ro_node _ _ Hok _ _ Hx) as (_ & _ & Hpr & _ & L1 & L2). destruct (node_unused x) eqn:Hu.
  - unfold node_unused in Hu. rewrite !andb_true_iff, !negb_true_iff in Hu. destruct Hu as [[[Hr Hw] Hi] Hs].
    apply bool_decide_eq_true in Hr. assert (n_local_weak_refs x = 0 ∧ n_local_strong_refs x = 0) as [Hw0 Hs0] by (unfold truthy in *; lia).
    pose proof (gone_not_held held s n x Hok Hx Hs0 Hw0) as Hnh.
    destruct (erase_node_run s n x Hqs Hx Hpr (async_empty _ _ _ _ Has Hx (Hnh true))) as (s' & Hrun & Hq & Hle & Hst).
    exists s'. split.
    + split; [|split; [done|by eapply async_ok_le]]. eapply refs_ok_strip; [exact Hst|]. by apply remove_node_ok.
    + split.
      * unfold erase_node in Hrun. rewrite Hp in Hrun. unfold truthy in Hrun. assert ((p =? 0) = false) as Hpz by lia. rewrite Hpz in Hrun. cbn [negb] in Hrun.
        revert Hrun. unfold mbind, KM_bind. destruct (list_del_init (W_node n) s) as [[[] s1]|]; [|done].
        destruct (upd_proc p _ s1) as [[[] s2]|]; [|done]. by intros ->.
      * split; [intros _|done]. apply (agree_None clear_node _ _ _ (strip_nodes _ _ Hst)). cbn. by rewrite lookup_delete_eq.
  - destruct (list_del_init_ok s (W_node n) _ Hqs (entry_of_node _ _ _ Hx)) as (s1 & Hd1 & Hq1 & Hul). exists s1. split.
    + split; [eapply refs_ok_strip; [apply Hul|done]|]. split; [done|]. eapply async_ok_le; [done|by eapply async_le_unlinked|done].
    + split; [by rewrite (kbind_run _ _ _ _ _ Hd1)|]. split; [done|]. intros Hn.
      pose proof (agree_None clear_node _ _ n (eq_sym (strip_nodes _ _ (proj1 Hul))) Hn). congruence.
Qed.

End Local.
