(* ===== verification/KFrame.v ===== *)
(** * Binder driver: what operations leave alone

    The operations on nodes and references neither add nor remove a process, and leave
    the context manager's node variable alone.  No operation of the driver leaves anything but its own error codes
    in the slots a thread's next read reports from; sending and reading neither add nor remove a thread, and leave the number
    of threads a process wants alone. *)
From stdpp Require Import gmap.
From S2P Require Import Prelude Bio Binder KAlloc KAllocSpec KState KRefs KTrans KWrite KRead KProc.

(** ** Programs that keep a relation between the states before and after *)

Definition keeps {A} (R : relation kstate) (m : KM A) : Prop := ∀ s x s', m s = Some (x, s') → R s s'.

Create HintDb keeps.

Section Keeps.
Context {R : relation kstate} `{!PreOrder R}.

Lemma keeps_ret {A} (x : A) : keeps R (mret x).
Proof. by intros s y s' [= _ <-]. Qed.
Lemma keeps_bind {A B} (m : KM A) (f : A → KM B) : keeps R m → (∀ x, keeps R (f x)) → keeps R (m ≫= f).
Proof.
  intros Hm Hf s x s'. unfold mbind, KM_bind. destruct (m s) as [[y s1]|] eqn:E; [|done]. intros Hy.
  transitivity s1; [by eapply Hm|by eapply Hf].
Qed.
Lemma keeps_get {A} (f : kstate → A) : keeps R (kget f).
Proof. by intros s y s' [= _ <-]. Qed.
Lemma keeps_lift {A} (o : option A) : keeps R (klift o).
Proof. intros s y s'. unfold klift. destruct o; [|done]. by intros [= _ <-]. Qed.
Lemma keeps_fault {A} : keeps R (@kfault A).
Proof. by intros s y s'. Qed.
Lemma keeps_lookup {A} (f : kstate → gmap Z A) i : keeps R (λ s, x ← f s !! i; Some (x, s)).
Proof. intros s y s'. cbn. destruct (f s !! i); [|done]. by intros [= _ <-]. Qed.
Lemma keeps_proc_at p : keeps R (proc_at p).
Proof. apply (keeps_lookup ks_procs). Qed.
Lemma keeps_thread_at p : keeps R (thread_at p).
Proof. apply (keeps_lookup ks_threads). Qed.
Lemma keeps_node_at p : keeps R (node_at p).
Proof. apply (keeps_lookup ks_nodes). Qed.
Lemma keeps_ref_at p : keeps R (ref_at p).
Proof. apply (keeps_lookup ks_refs). Qed.
Lemma keeps_death_at p : keeps R (death_at p).
Proof. apply (keeps_lookup ks_deaths). Qed.
Lemma keeps_trans_at p : keeps R (trans_at p).
Proof. apply (keeps_lookup ks_trans). Qed.
Lemma keeps_mod (f : kstate → kstate) : (∀ s, R s (f s)) → keeps R (kmod f).
Proof. intros Hf s y s' [= _ <-]. apply Hf. Qed.
End Keeps.

#[export] Hint Resolve keeps_ret keeps_get keeps_lift keeps_fault keeps_proc_at keeps_thread_at keeps_node_at keeps_ref_at
  keeps_death_at keeps_trans_at : keeps.

(** Walks through the program: binds, branches and known operations. *)
Ltac keeps_walk :=
  repeat first
    [ match goal with |- ∀ _, _ => intro end
    | solve [eauto 2 with keeps]
    | apply keeps_bind
    | apply keeps_mod; intros; solve [split; reflexivity]
    | match goal with |- context [match ?b with _ => _ end] => destruct b end ].

(** ** The frame of counting *)

Definition kframe (s s' : kstate) : Prop :=
  ks_context_mgr_node s' = ks_context_mgr_node s ∧ dom (ks_procs s') = dom (ks_procs s).

#[export] Instance kframe_preorder : PreOrder kframe.
Proof. split; [done|]. intros s1 s2 s3 [A1 B1] [A2 B2]. split; congruence. Qed.

Lemma kframe_procs s s' p k : kframe s s' → ks_procs s !! p = Some k → ∃ k', ks_procs s' !! p = Some k'.
Proof. intros [_ Hd] Hk. apply elem_of_dom. rewrite Hd. apply elem_of_dom. by exists k. Qed.

Lemma upd_proc_frame p f : keeps kframe (upd_proc p f).
Proof.
  intros s [] s'. unfold upd_proc. destruct (ks_procs s !! p) eqn:E; [|done]. intros [= <-]. split; [done|]. cbn.
  rewrite dom_insert_lookup_L; [done|]. by rewrite E.
Qed.
Lemma upd_thread_frame p f : keeps kframe (upd_thread p f).
Proof. intros s [] s'. unfold upd_thread. destruct (ks_threads s !! p); [|done]. by intros [= <-]. Qed.
Lemma upd_node_frame p f : keeps kframe (upd_node p f).
Proof. intros s [] s'. unfold upd_node. destruct (ks_nodes s !! p); [|done]. by intros [= <-]. Qed.
Lemma upd_ref_frame p f : keeps kframe (upd_ref p f).
Proof. intros s [] s'. unfold upd_ref. destruct (ks_refs s !! p); [|done]. by intros [= <-]. Qed.
Lemma upd_death_frame p f : keeps kframe (upd_death p f).
Proof. intros s [] s'. unfold upd_death. destruct (ks_deaths s !! p); [|done]. by intros [= <-]. Qed.
Lemma upd_trans_frame p f : keeps kframe (upd_trans p f).
Proof. intros s [] s'. unfold upd_trans. destruct (ks_trans s !! p); [|done]. by intros [= <-]. Qed.

#[export] Hint Resolve upd_proc_frame upd_thread_frame upd_node_frame upd_ref_frame upd_death_frame upd_trans_frame kframe_preorder : keeps.

Lemma kfree_node_frame n : keeps kframe (kfree_node n).
Proof. unfold kfree_node. keeps_walk. Qed.
Lemma kfree_ref_frame n : keeps kframe (kfree_ref n).
Proof. unfold kfree_ref. keeps_walk. Qed.
Lemma kfree_death_frame n : keeps kframe (kfree_death n).
Proof. unfold kfree_death. keeps_walk. Qed.
Lemma kemit_frame e : keeps kframe (kemit e).
Proof. unfold kemit. keeps_walk. Qed.
Lemma queue_get_frame q : keeps kframe (queue_get q).
Proof. destruct q; cbn [queue_get]; keeps_walk. Qed.
Lemma queue_put_frame q l : keeps kframe (queue_put q l).
Proof. destruct q; cbn [queue_put]; keeps_walk. Qed.
Lemma entry_of_frame w : keeps kframe (entry_of w).
Proof. destruct w; cbn [entry_of]; keeps_walk. Qed.
Lemma set_entry_frame w q : keeps kframe (set_entry w q).
Proof. destruct w; cbn [set_entry]; keeps_walk. Qed.

#[export] Hint Resolve kfree_node_frame kfree_ref_frame kfree_death_frame kemit_frame queue_get_frame queue_put_frame
  entry_of_frame set_entry_frame : keeps.

Lemma list_add_tail_frame w q : keeps kframe (list_add_tail w q).
Proof. unfold list_add_tail. keeps_walk. Qed.
Lemma list_del_init_frame w : keeps kframe (list_del_init w).
Proof. unfold list_del_init. keeps_walk. Qed.
Lemma entry_unlinked_frame w : keeps kframe (entry_unlinked w).
Proof. unfold entry_unlinked. keeps_walk. Qed.

#[export] Hint Resolve list_add_tail_frame list_del_init_frame entry_unlinked_frame : keeps.

Section Counting.
Context `{RbTree} `{Kernel}.

Lemma kzalloc_frame : keeps kframe kzalloc.
Proof. unfold kzalloc, next_tick. keeps_walk. Qed.
#[local] Hint Resolve kzalloc_frame : keeps.

Lemma inc_node_frame n strong internal tl : keeps kframe (binder_inc_node n strong internal tl).
Proof. unfold binder_inc_node. keeps_walk. Qed.
Lemma drop_node_frame n : keeps kframe (drop_node n).
Proof. unfold drop_node. keeps_walk. Qed.
#[local] Hint Resolve inc_node_frame drop_node_frame : keeps.
Lemma dec_node_frame n strong internal : keeps kframe (binder_dec_node n strong internal).
Proof. unfold binder_dec_node. keeps_walk. Qed.
#[local] Hint Resolve dec_node_frame : keeps.
Lemma delete_ref_frame r : keeps kframe (binder_delete_ref r).
Proof. unfold binder_delete_ref. keeps_walk. Qed.
#[local] Hint Resolve delete_ref_frame : keeps.
Lemma inc_ref_frame r strong tl : keeps kframe (binder_inc_ref r strong tl).
Proof. unfold binder_inc_ref. keeps_walk. Qed.
Lemma dec_ref_frame r strong : keeps kframe (binder_dec_ref r strong).
Proof. unfold binder_dec_ref. keeps_walk. Qed.
Lemma get_ref_frame p desc : keeps kframe (binder_get_ref p desc).
Proof. unfold binder_get_ref. keeps_walk. Qed.
Lemma get_node_frame p ptr : keeps kframe (binder_get_node p ptr).
Proof. unfold binder_get_node. keeps_walk. Qed.
Lemma get_ref_for_node_frame p n : keeps kframe (binder_get_ref_for_node p n).
Proof. unfold binder_get_ref_for_node. keeps_walk. Qed.
#[local] Hint Resolve inc_ref_frame dec_ref_frame get_ref_frame get_node_frame get_ref_for_node_frame : keeps.

Lemma do_ref_frame p incr strong desc : keeps kframe (do_ref p incr strong desc).
Proof. unfold do_ref. keeps_walk. Qed.
Lemma do_done_frame `{BinderApi} p strong ptr cookie : keeps kframe (do_done p strong ptr cookie).
Proof. unfold do_done. keeps_walk. Qed.

End Counting.

(** ** The error slots of threads, and the threads of a process *)

Section Slots.
Context `{RbTree} `{Kernel} `{BinderApi}.

(** The values the driver leaves for a thread's next read. *)
Definition known_error (c : Z) : Prop :=
  c = BR_OK ∨ c = BR_ERROR ∨ c = BR_FAILED_REPLY ∨ c = BR_DEAD_REPLY ∨ c = BR_TRANSACTION_COMPLETE.

Definition slots_known (s : kstate) : Prop :=
  map_Forall (λ _ x, known_error (th_return_error x) ∧ known_error (th_return_error2 x)) (ks_threads s).

Definition keeps_slots (s s' : kstate) : Prop := slots_known s → slots_known s'.

(** How many threads a process wants, and how many it was asked for and has started. *)
Definition limits (s : kstate) (p : Z) : option (Z * Z) :=
  (λ k, (k_max_threads k, k_requested_threads_started k)) <$> ks_procs s !! p.

(** What an operation that reports nothing to a thread keeps, and what one that may report keeps. *)
Definition errors_of (s : kstate) : gmap Z (Z * Z) := (λ x, (th_return_error x, th_return_error2 x)) <$> ks_threads s.

Definition kept (s s' : kstate) : Prop := errors_of s' = errors_of s ∧ ∀ p, limits s' p = limits s p.

Definition mild (s s' : kstate) : Prop :=
  keeps_slots s s' ∧ dom (ks_threads s') = dom (ks_threads s) ∧ ∀ p, limits s' p = limits s p.

#[local] Instance keeps_slots_preorder : PreOrder keeps_slots.
Proof. split; [by intros s Hs|]. intros s1 s2 s3 H12 H23 Hs. by apply H23, H12. Qed.
#[local] Instance kept_preorder : PreOrder kept.
Proof. split; [by intros s; split|]. intros s1 s2 s3 [H12 L12] [H23 L23]. split; [congruence|]. intros p. by rewrite L23. Qed.
#[local] Instance mild_preorder : PreOrder mild.
Proof.
  split; [by intros s; split|]. intros s1 s2 s3 (H12 & D12 & L12) (H23 & D23 & L23). split; [by transitivity s2|]. split; [congruence|].
  intros p. by rewrite L23.
Qed.

Lemma errors_agree s s' h x' : errors_of s' = errors_of s → ks_threads s' !! h = Some x' →
  ∃ x, ks_threads s !! h = Some x ∧ th_return_error x' = th_return_error x ∧ th_return_error2 x' = th_return_error2 x.
Proof.
  intros He Hx'. assert (errors_of s' !! h = errors_of s !! h) as E by (by rewrite He). unfold errors_of in E. rewrite !lookup_fmap, Hx' in E.
  destruct (ks_threads s !! h) as [x|]; [|done]. exists x. split; [done|]. by injection E.
Qed.

Lemma kept_mild_states s s' : kept s s' → mild s s'.
Proof.
  intros [He Hl]. split; [|split; [|done]].
  - intros Hs h x' Hx'. destruct (errors_agree s s' h x' He Hx') as (x & Hx & -> & ->). exact (Hs _ _ Hx).
  - rewrite <- (dom_fmap_L (λ x, (th_return_error x, th_return_error2 x)) (ks_threads s')), <- (dom_fmap_L (λ x, (th_return_error x, th_return_error2 x)) (ks_threads s)).
    by f_equal.
Qed.

Lemma kept_mild {A} (m : KM A) : keeps kept m → keeps mild m.
Proof. intros Hm s x s' Hs. by eapply kept_mild_states, Hm. Qed.
Lemma mild_slots {A} (m : KM A) : keeps mild m → keeps keeps_slots m.
Proof. intros Hm s x s' Hs. by apply (Hm s x s'). Qed.
Lemma kept_slots {A} (m : KM A) : keeps kept m → keeps keeps_slots m.
Proof. intros Hm. by apply mild_slots, kept_mild. Qed.

Lemma upd_thread_mild p f :
  (∀ x, known_error (th_return_error x) ∧ known_error (th_return_error2 x) →
        known_error (th_return_error (f x)) ∧ known_error (th_return_error2 (f x))) → keeps mild (upd_thread p f).
Proof.
  intros Hf s [] s'. unfold upd_thread. destruct (ks_threads s !! p) as [x|] eqn:E; [|done]. intros [= <-]. split; [|split; [|done]].
  - intros Hs. apply map_Forall_insert_2; [|done]. apply Hf. exact (Hs _ _ E).
  - apply dom_insert_lookup_L. by rewrite E.
Qed.
Lemma upd_thread_kept p f :
  (∀ x, th_return_error (f x) = th_return_error x ∧ th_return_error2 (f x) = th_return_error2 x) → keeps kept (upd_thread p f).
Proof.
  intros Hf s [] s'. unfold upd_thread. destruct (ks_threads s !! p) as [x|] eqn:E; [|done]. intros [= <-]. split; [|done].
  unfold errors_of. cbn. rewrite fmap_insert. apply insert_id. rewrite lookup_fmap, E. cbn. by destruct (Hf x) as [-> ->].
Qed.
Lemma upd_proc_kept p f :
  (∀ k, k_max_threads (f k) = k_max_threads k ∧ k_requested_threads_started (f k) = k_requested_threads_started k) → keeps kept (upd_proc p f).
Proof.
  intros Hf s [] s'. unfold upd_proc. destruct (ks_procs s !! p) as [k|] eqn:E; [|done]. intros [= <-]. split; [done|]. intros q.
  unfold limits. cbn. destruct (decide (p = q)) as [<-|]; [|by rewrite lookup_insert_ne]. rewrite lookup_insert_eq, E. cbn. by destruct (Hf k) as [-> ->].
Qed.
Lemma upd_node_kept p f : keeps kept (upd_node p f).
Proof. intros s [] s'. unfold upd_node. destruct (ks_nodes s !! p); [|done]. by intros [= <-]. Qed.
Lemma upd_ref_kept p f : keeps kept (upd_ref p f).
Proof. intros s [] s'. unfold upd_ref. destruct (ks_refs s !! p); [|done]. by intros [= <-]. Qed.
Lemma upd_death_kept p f : keeps kept (upd_death p f).
Proof. intros s [] s'. unfold upd_death. destruct (ks_deaths s !! p); [|done]. by intros [= <-]. Qed.
Lemma upd_trans_kept p f : keeps kept (upd_trans p f).
Proof. intros s [] s'. unfold upd_trans. destruct (ks_trans s !! p); [|done]. by intros [= <-]. Qed.
#[local] Hint Resolve keeps_slots_preorder kept_preorder mild_preorder upd_node_kept upd_ref_kept upd_death_kept upd_trans_kept : keeps.

#[local] Ltac kept_walk :=
  repeat first
    [ match goal with |- ∀ _, _ => intro end
    | solve [eauto 2 with keeps]
    | apply keeps_bind
    | apply keeps_mod; intros ?; split; done
    | apply upd_proc_kept; intros ?; split; reflexivity
    | apply upd_thread_kept; intros ?; split; reflexivity
    | match goal with |- context [match ?b with _ => _ end] => destruct b end ].

Lemma kassert_kept b : keeps kept (kassert b).
Proof. unfold kassert. kept_walk. Qed.
Lemma next_tick_kept : keeps kept next_tick.
Proof. unfold next_tick. kept_walk. Qed.
#[local] Hint Resolve kassert_kept next_tick_kept : keeps.
Lemma kzalloc_kept : keeps kept kzalloc.
Proof. unfold kzalloc. kept_walk. Qed.
Lemma kemit_kept e : keeps kept (kemit e).
Proof. unfold kemit. kept_walk. Qed.
Lemma kfree_node_kept n : keeps kept (kfree_node n).
Proof. unfold kfree_node. kept_walk. Qed.
Lemma kfree_ref_kept n : keeps kept (kfree_ref n).
Proof. unfold kfree_ref. kept_walk. Qed.
Lemma kfree_death_kept n : keeps kept (kfree_death n).
Proof. unfold kfree_death. kept_walk. Qed.
Lemma kfree_trans_kept n : keeps kept (kfree_trans n).
Proof. unfold kfree_trans. kept_walk. Qed.
Lemma kfree_complete_kept n : keeps kept (kfree_complete n).
Proof. unfold kfree_complete. kept_walk. Qed.
Lemma set_nice_kept cur n : keeps kept (binder_set_nice cur n).
Proof. unfold binder_set_nice, set_user_nice. kept_walk. Qed.
Lemma task_nice_kept cur : keeps kept (task_nice cur).
Proof. unfold task_nice. kept_walk. Qed.
Lemma queue_get_kept q : keeps kept (queue_get q).
Proof. destruct q; cbn [queue_get]; kept_walk. Qed.
Lemma queue_put_kept q l : keeps kept (queue_put q l).
Proof. destruct q; cbn [queue_put]; kept_walk. Qed.
Lemma entry_of_kept w : keeps kept (entry_of w).
Proof. destruct w; cbn [entry_of]; kept_walk. Qed.
Lemma set_entry_kept w q : keeps kept (set_entry w q).
Proof. destruct w; cbn [set_entry]; kept_walk. Qed.
#[local] Hint Resolve kzalloc_kept kemit_kept kfree_node_kept kfree_ref_kept kfree_death_kept kfree_trans_kept kfree_complete_kept
  set_nice_kept task_nice_kept queue_get_kept queue_put_kept entry_of_kept set_entry_kept : keeps.

Lemma list_add_tail_kept w q : keeps kept (list_add_tail w q).
Proof. unfold list_add_tail. kept_walk. Qed.
Lemma list_add_kept w q : keeps kept (list_add w q).
Proof. unfold list_add. kept_walk. Qed.
Lemma list_del_init_kept w : keeps kept (list_del_init w).
Proof. unfold list_del_init. kept_walk. Qed.
Lemma entry_unlinked_kept w : keeps kept (entry_unlinked w).
Proof. unfold entry_unlinked. kept_walk. Qed.
#[local] Hint Resolve list_add_tail_kept list_add_kept list_del_init_kept entry_unlinked_kept : keeps.

(** *** Nodes and references *)

Lemma get_node_kept p ptr : keeps kept (binder_get_node p ptr).
Proof. unfold binder_get_node. kept_walk. Qed.
Lemma new_node_kept p ptr cookie : keeps kept (binder_new_node p ptr cookie).
Proof. unfold binder_new_node. kept_walk. Qed.
Lemma inc_node_kept n strong internal tl : keeps kept (binder_inc_node n strong internal tl).
Proof. unfold binder_inc_node. kept_walk. Qed.
Lemma drop_node_kept n : keeps kept (drop_node n).
Proof. unfold drop_node. kept_walk. Qed.
#[local] Hint Resolve get_node_kept new_node_kept inc_node_kept drop_node_kept : keeps.
Lemma dec_node_kept n strong internal : keeps kept (binder_dec_node n strong internal).
Proof. unfold binder_dec_node. kept_walk. Qed.
#[local] Hint Resolve dec_node_kept : keeps.
Lemma delete_ref_kept r : keeps kept (binder_delete_ref r).
Proof. unfold binder_delete_ref. kept_walk. Qed.
#[local] Hint Resolve delete_ref_kept : keeps.
Lemma inc_ref_kept r strong tl : keeps kept (binder_inc_ref r strong tl).
Proof. unfold binder_inc_ref. kept_walk. Qed.
Lemma dec_ref_kept r strong : keeps kept (binder_dec_ref r strong).
Proof. unfold binder_dec_ref. kept_walk. Qed.
Lemma get_ref_kept p desc : keeps kept (binder_get_ref p desc).
Proof. unfold binder_get_ref. kept_walk. Qed.
Lemma get_ref_for_node_kept p n : keeps kept (binder_get_ref_for_node p n).
Proof. unfold binder_get_ref_for_node. kept_walk. Qed.
#[local] Hint Resolve inc_ref_kept dec_ref_kept get_ref_kept get_ref_for_node_kept : keeps.

(** *** Transactions *)

Lemma buffer_at_kept b : keeps kept (buffer_at b).
Proof. unfold buffer_at. kept_walk. Qed.
Lemma data_at_kept b : keeps kept (data_at b).
Proof. unfold data_at. kept_walk. Qed.
#[local] Hint Resolve buffer_at_kept data_at_kept : keeps.
Lemma upd_buffer_kept b f : keeps kept (upd_buffer b f).
Proof. unfold upd_buffer. kept_walk. Qed.
Lemma put_data_kept b d : keeps kept (put_data b d).
Proof. unfold put_data. kept_walk. Qed.
Lemma kalloc_buf_kept p a b c : keeps kept (kalloc_buf p a b c).
Proof. unfold kalloc_buf. kept_walk. Qed.
Lemma kfree_buf_kept b : keeps kept (kfree_buf b).
Proof. unfold kfree_buf. kept_walk. Qed.
#[local] Hint Resolve upd_buffer_kept put_data_kept kalloc_buf_kept kfree_buf_kept : keeps.
Lemma detach_buffer_kept b : keeps kept (detach_buffer b).
Proof. apply upd_buffer_kept. Qed.
Lemma load_word_kept b o : keeps kept (load_word b o).
Proof. unfold load_word. kept_walk. Qed.
Lemma store_word_kept b o v : keeps kept (store_word b o v).
Proof. unfold store_word. kept_walk. Qed.
#[local] Hint Resolve detach_buffer_kept load_word_kept store_word_kept : keeps.

Lemma pop_transaction_kept th t : keeps kept (binder_pop_transaction th t).
Proof. unfold binder_pop_transaction. kept_walk. Qed.
#[local] Hint Resolve pop_transaction_kept : keeps.

Lemma release_object_kept p b failed off : keeps kept (release_object p b failed off).
Proof. unfold release_object, task_close_fd. kept_walk. Qed.
#[local] Hint Resolve release_object_kept : keeps.
Lemma release_objects_kept p b failed size offs : keeps kept (release_objects p b failed size offs).
Proof. induction offs as [|off offs IH]; cbn [release_objects]; kept_walk. Qed.
#[local] Hint Resolve release_objects_kept : keeps.
Lemma buffer_release_kept p b at_ : keeps kept (binder_transaction_buffer_release p b at_).
Proof. unfold binder_transaction_buffer_release. kept_walk. Qed.
Lemma translate_object_kept cur p th tp tn r b off : keeps kept (translate_object cur p th tp tn r b off).
Proof. unfold translate_object, task_get_unused_fd_flags, task_fd_install. kept_walk. Qed.
#[local] Hint Resolve buffer_release_kept translate_object_kept : keeps.
Lemma translate_objects_kept cur p th tp tn r b size offs : ∀ i, keeps kept (translate_objects cur p th tp tn r b size i offs).
Proof. induction offs as [|off offs IH]; intros i; cbn [translate_objects]; kept_walk. Qed.
#[local] Hint Resolve translate_objects_kept : keeps.
Lemma fill_buffer_kept cur p th tp tn r b tr : keeps kept (fill_buffer cur p th tp tn r b tr).
Proof. unfold fill_buffer, copy_transaction. kept_walk. Qed.
Lemma queue_transaction_kept th tp tt tn r t w b flags : keeps kept (queue_transaction th tp tt tn r t w b flags).
Proof. unfold queue_transaction. kept_walk. Qed.
Lemma waiting_thread_kept fuel tp : ∀ t found, keeps kept (waiting_thread fuel tp t found).
Proof. induction fuel as [|fuel IH]; intros t found; cbn [waiting_thread]; kept_walk. Qed.
#[local] Hint Resolve fill_buffer_kept queue_transaction_kept waiting_thread_kept : keeps.
Lemma reply_target_kept cur th : keeps kept (reply_target cur th).
Proof. unfold reply_target. kept_walk. Qed.
Lemma call_target_kept p th h f : keeps kept (call_target p th h f).
Proof. unfold call_target. kept_walk. Qed.
#[local] Hint Resolve reply_target_kept call_target_kept : keeps.

(** *** Failures *)

#[local] Hint Resolve kept_mild | 3 : keeps.
#[local] Ltac mild_walk :=
  repeat first
    [ match goal with |- ∀ _, _ => intro end
    | solve [eauto 3 with keeps]
    | apply keeps_bind
    | apply kept_mild, keeps_mod; intros ?; split; done
    | apply kept_mild, upd_proc_kept; intros ?; split; reflexivity
    | apply upd_thread_mild; intros ? [? ?]; split; cbn; solve [assumption|by left|right; by left|do 4 right; done]
    | match goal with |- context [match ?b with _ => _ end] => destruct b end ].

Lemma send_failed_mild fuel : ∀ t e, known_error e → keeps mild (send_failed_reply fuel t e).
Proof.
  induction fuel as [|fuel IH]; intros t e He; cbn [send_failed_reply]; [apply keeps_fault|]. mild_walk.
  apply upd_thread_mild. intros y [E1 E2]. destruct (negb _ && _); [|done]. split; [by left|done].
Qed.
Lemma send_failed_reply_mild t e : known_error e → keeps mild (binder_send_failed_reply t e).
Proof. intros He. pose proof send_failed_mild. unfold binder_send_failed_reply. mild_walk. Qed.
#[local] Hint Resolve send_failed_reply_mild : keeps.


Lemma known_failed : known_error BR_FAILED_REPLY.
Proof. do 2 right. by left. Qed.
Lemma known_dead : known_error BR_DEAD_REPLY.
Proof. do 3 right. by left. Qed.
#[local] Hint Resolve known_failed known_dead : keeps.

(** Every value a program can give. *)
Definition gives {A} (Q : A → Prop) (m : KM A) : Prop := ∀ s x s', m s = Some (x, s') → Q x.

Lemma gives_bind {A B} (Q : B → Prop) (m : KM A) (f : A → KM B) : (∀ x, gives Q (f x)) → gives Q (m ≫= f).
Proof. intros Hf s x s'. unfold mbind, KM_bind. destruct (m s) as [[y s1]|]; [|done]. apply Hf. Qed.
Lemma gives_bind_post {A B} (P : A → Prop) (Q : B → Prop) (m : KM A) (f : A → KM B) :
  gives P m → (∀ x, P x → gives Q (f x)) → gives Q (m ≫= f).
Proof. intros Hm Hf s x s'. unfold mbind, KM_bind. destruct (m s) as [[y s1]|] eqn:E; [|done]. by eapply Hf, Hm. Qed.
Lemma gives_ret {A} (Q : A → Prop) x : Q x → gives Q (mret x).
Proof. by intros Hx s y s' [= <- _]. Qed.

Definition target_known (t : target) : Prop := match t with T_error e _ _ => e = BR_FAILED_REPLY ∨ e = BR_DEAD_REPLY | T_ok _ _ _ _ => True end.

#[local] Ltac gives_walk :=
  repeat first
    [ match goal with |- ∀ _, _ => intro end
    | apply gives_ret; cbn; solve [exact I|assumption|by left|by right]
    | match goal with |- context [match ?b with _ => _ end] => destruct b end
    | apply gives_bind ].

Lemma reply_target_known cur th : gives target_known (reply_target cur th).
Proof. unfold reply_target. gives_walk. Qed.
Lemma call_target_known p th h f : gives target_known (call_target p th h f).
Proof.
  unfold call_target. apply gives_bind. intros mgr. apply (gives_bind_post (λ o, match o with inl e => e = BR_FAILED_REPLY ∨ e = BR_DEAD_REPLY | inr _ => True end)); [gives_walk|].
  intros [e|n] Ho; gives_walk.
Qed.

Lemma fail_transaction_mild th e r : known_error e → keeps mild (fail_transaction th e r).
Proof. intros He. unfold fail_transaction. mild_walk. Qed.
#[local] Hint Resolve fail_transaction_mild : keeps.

Lemma failure_known e : e = BR_FAILED_REPLY ∨ e = BR_DEAD_REPLY → known_error e.
Proof. intros [-> | ->]; auto with keeps. Qed.

(** The first step of a transaction: where it goes. *)
Lemma target_kept cur p th tr (reply : bool) :
  let m := if reply then reply_target cur th else call_target p th (txn_target tr) (txn_flags tr) in gives target_known m ∧ keeps kept m.
Proof. destruct reply; split; [apply reply_target_known|apply reply_target_kept|apply call_target_known|apply call_target_kept]. Qed.

Lemma transaction_course_mild cur p th tr reply : keeps mild (transaction_course cur p th tr reply).
Proof.
  unfold transaction_course, failing. set (m := if reply then _ else _). destruct (target_kept cur p th tr reply) as [Hg Hk]. fold m in Hg, Hk.
  intros s x s'. unfold mbind at 1, KM_bind at 1. destruct (m s) as [[tgt s1]|] eqn:E; [|done]. specialize (Hg _ _ _ E). specialize (Hk _ _ _ E).
  intros Hr. transitivity s1; [by apply kept_mild_states|]. revert Hr. apply (λ Hm : keeps _ _, Hm s1 x s').
  destruct tgt as [e r n|tp tt tn r]; [apply failure_known in Hg|]; mild_walk.
Qed.
#[local] Hint Resolve transaction_course_mild : keeps.
Lemma binder_transaction_mild cur p th tr reply : keeps mild (binder_transaction cur p th tr reply).
Proof. unfold binder_transaction. mild_walk. Qed.
#[local] Hint Resolve binder_transaction_mild : keeps.

(** *** A failed transaction is one that leaves its sender an error *)

Definition error_left (th : Z) (s : kstate) : Prop := ∃ x, ks_threads s !! th = Some x ∧ th_return_error x ≠ BR_OK.
Definition reported (th : Z) (s s' : kstate) : Prop := (∃ x, ks_threads s !! th = Some x ∧ th_return_error x = BR_OK) ∧ error_left th s'.

(** What the course says of a failure is what the slots say. *)
Definition tells (th : Z) (m : KM course) : Prop :=
  ∀ s c s', m s = Some (c, s') → if co_failed c then reported th s s' else errors_of s' = errors_of s.

Lemma error_left_agree th s s' : errors_of s' = errors_of s → error_left th s' → error_left th s.
Proof. intros He (x' & Hx' & Hne). destruct (errors_agree s s' th x' He Hx') as (x & Hx & E1 & _). exists x. split; [done|congruence]. Qed.

Lemma tells_bind_post {A} (P : A → Prop) th (m : KM A) f : keeps kept m → gives P m → (∀ x, P x → tells th (f x)) → tells th (m ≫= f).
Proof.
  intros Hm Hg Hf s c s'. unfold mbind, KM_bind. destruct (m s) as [[x s1]|] eqn:E; [|done]. destruct (Hm _ _ _ E) as [He _]. intros Hr.
  specialize (Hf x (Hg _ _ _ E) _ _ _ Hr). destruct (co_failed c); [|congruence]. destruct Hf as [(y & Hy & Hok) Hl]. split; [|done].
  destruct (errors_agree s s1 th y He Hy) as (z & Hz & E1 & _). exists z. split; [done|congruence].
Qed.
Lemma tells_bind {A} th (m : KM A) f : keeps kept m → (∀ x, tells th (f x)) → tells th (m ≫= f).
Proof. intros Hm Hf. by apply (tells_bind_post (λ _, True)). Qed.
Lemma tells_ret th c : co_failed c = false → tells th (mret c).
Proof. intros Hc s c' s' [= <- <-]. by rewrite Hc. Qed.

Section Told.
Hypothesis Hdistinct : BR_OK ∉ [BR_TRANSACTION_COMPLETE; BR_FAILED_REPLY; BR_DEAD_REPLY].

Lemma not_ok e : e = BR_FAILED_REPLY ∨ e = BR_DEAD_REPLY → e ≠ BR_OK.
Proof. intros [-> | ->] He; apply Hdistinct; rewrite <- He; set_solver. Qed.

Lemma upd_thread_left th h f s s' :
  (∀ x, th_return_error x ≠ BR_OK → th_return_error (f x) ≠ BR_OK) → upd_thread h f s = Some ((), s') → error_left th s → error_left th s'.
Proof.
  intros Hf. unfold upd_thread. destruct (ks_threads s !! h) as [y|] eqn:E; [|done]. intros [= <-] (x & Hx & Hne).
  destruct (decide (h = th)) as [->|Hht]; [|exists x; cbn; by rewrite lookup_insert_ne]. exists (f y). cbn. rewrite lookup_insert_eq. split; [done|].
  apply Hf. congruence.
Qed.

Lemma kept_left {A} th (m : KM A) s x s' : keeps kept m → m s = Some (x, s') → error_left th s → error_left th s'.
Proof. intros Hm Hr. destruct (Hm _ _ _ Hr) as [He _]. by apply error_left_agree. Qed.

Lemma send_failed_left th code fuel : code ≠ BR_OK → ∀ t s s', send_failed_reply fuel t code s = Some ((), s') → error_left th s → error_left th s'.
Proof.
  intros Hcode. induction fuel as [|fuel IH]; intros t s s' Hr Hl; [done|]. cbn [send_failed_reply] in Hr. unfold mbind, KM_bind in Hr.
  destruct (trans_at t s) as [[x s1]|] eqn:E1; [|done]. assert (s1 = s) as -> by (by destruct (keeps_trans_at (R := eq) t _ _ _ E1)).
  cbv zeta in Hr. destruct (truthy (t_from x)).
  - set (f := λ z : binder_thread, if negb (th_return_error z =? BR_OK) && _ then _ else z) in Hr. set (h := t_from x) in *.
    destruct (upd_thread h f s) as [[[] s2]|] eqn:E2; [|done]. unfold upd_thread in E2. destruct (ks_threads s !! h) as [z|] eqn:Ez; [|done].
    injection E2 as <-. set (s2 := set_ks_threads _ s) in Hr. unfold thread_at in Hr. cbn in Hr. rewrite lookup_insert_eq in Hr. cbn in Hr.
    destruct (Z.eqb_spec (th_return_error (f z)) BR_OK) as [Hok|Hne].
    + destruct (binder_pop_transaction h t s2) as [[[] s3]|] eqn:E3; [|done]. destruct (pop_transaction_kept h t _ _ _ E3) as [He3 _].
      destruct (upd_thread h (set_th_return_error code) s3) as [[[] s4]|] eqn:E4; [|done]. unfold upd_thread in E4.
      destruct (ks_threads s3 !! h) as [z3|] eqn:Ez3; [|done]. injection E4 as <-. injection Hr as <-. destruct Hl as (y & Hy & Hne).
      destruct (decide (h = th)) as [<-|Hht]; [exists (set_th_return_error code z3); cbn; by rewrite lookup_insert_eq|].
      destruct (kept_left th (binder_pop_transaction h t) s2 () s3 (pop_transaction_kept h t) E3) as (y3 & Hy3 & Hne3).
      * exists y. cbn. by rewrite lookup_insert_ne.
      * exists y3. cbn. by rewrite lookup_insert_ne.
    + injection Hr as <-. destruct Hl as (y & Hy & Hney). destruct (decide (h = th)) as [<-|Hht].
      * exists (f z). cbn. by rewrite lookup_insert_eq.
      * exists y. cbn. by rewrite lookup_insert_ne.
  - destruct (binder_pop_transaction 0 t s) as [[[] s2]|] eqn:E2; [|done].
    pose proof (kept_left th _ _ _ _ (pop_transaction_kept 0 t) E2 Hl) as Hl2. destruct (_ =? 0); [by injection Hr as <-|by eapply IH].
Qed.

Lemma tells_failing th e r c : e = BR_FAILED_REPLY ∨ e = BR_DEAD_REPLY → tells th (failing th e r c).
Proof.
  intros Hf s c' s' Hr. pose proof (not_ok e Hf) as He. unfold failing, fail_transaction in Hr. unfold mbind, KM_bind in Hr.
  unfold thread_at in Hr. destruct (ks_threads s !! th) as [x|] eqn:Ex; [|done]. cbn in Hr. unfold kassert in Hr.
  destruct (Z.eqb_spec (th_return_error x) BR_OK) as [Hok|]; [|done]. cbn in Hr.
  assert (∀ v, v ≠ BR_OK → ∃ s1, upd_thread th (set_th_return_error v) s = Some ((), s1) ∧ error_left th s1) as Hupd.
  { intros v Hv. unfold upd_thread. rewrite Ex. eexists. split; [reflexivity|]. exists (set_th_return_error v x). cbn. by rewrite lookup_insert_eq. }
  assert (co_failed c' = true ∧ error_left th s') as [-> Hl]; [|split; [by exists x|done]]. destruct (truthy r).
  - destruct (Hupd BR_TRANSACTION_COMPLETE) as (s1 & E1 & Hl1); [intros Heq; apply Hdistinct; rewrite <- Heq; set_solver|]. rewrite E1 in Hr.
    unfold binder_send_failed_reply, mbind, KM_bind in Hr. destruct (trans_at r s1) as [[y s2]|] eqn:E2; [|done].
    assert (s2 = s1) as -> by (by destruct (keeps_trans_at (R := eq) r _ _ _ E2)). unfold kassert in Hr. destruct (negb _); [|done]. cbn in Hr.
    destruct (send_failed_reply _ r e s1) as [[[] s3]|] eqn:E3; [|done]. injection Hr as <- <-. split; [done|]. by apply (send_failed_left th e _ He _ _ _ E3).
  - destruct (Hupd e He) as (s1 & E1 & Hl1). rewrite E1 in Hr. by injection Hr as <- <-.
Qed.

#[local] Ltac tells_walk :=
  repeat first
    [ match goal with |- ∀ _, _ => intro end
    | apply tells_failing; solve [assumption|by left]
    | apply tells_ret; reflexivity
    | match goal with |- tells _ (match ?b with _ => _ end) => destruct b end
    | apply tells_bind; [solve [kept_walk]|] ].

Lemma transaction_course_tells cur p th tr reply : tells th (transaction_course cur p th tr reply).
Proof.
  unfold transaction_course. destruct (target_kept cur p th tr reply) as [Hg Hk]. apply (tells_bind_post target_known); [exact Hk|exact Hg|].
  intros [e r n|tp tt tn r] Hx; cbn in Hx; tells_walk.
Qed.

End Told.

(** *** A transaction delivered *)

Lemma put_words_kept writable ws : ∀ m ptr, keeps kept (put_words writable m ptr ws).
Proof. induction ws as [|w ws IH]; intros m ptr; cbn [put_words]; kept_walk. Qed.
#[local] Hint Resolve put_words_kept : keeps.
Lemma read_transaction_kept tgid cur p th writable t m ptr : keeps kept (read_transaction tgid cur p th writable t m ptr).
Proof. unfold read_transaction, adopt_priority, sender_pid. kept_walk. Qed.
#[local] Hint Resolve read_transaction_kept : keeps.

(** *** The slots alone *)

Lemma upd_proc_slots p f : keeps keeps_slots (upd_proc p f).
Proof. intros s [] s'. unfold upd_proc. destruct (ks_procs s !! p); [|done]. intros [= <-] Hs. exact Hs. Qed.
#[local] Hint Resolve upd_proc_slots | 1 : keeps.
#[local] Hint Resolve kept_slots mild_slots | 4 : keeps.

#[local] Ltac slots_walk :=
  repeat first
    [ match goal with |- ∀ _, _ => intro end
    | solve [eauto 3 with keeps]
    | apply keeps_bind
    | apply keeps_mod; intros ? Hs; exact Hs
    | apply mild_slots, upd_thread_mild; intros ? [? ?]; split; cbn; solve [assumption|by left|right; by left]
    | match goal with |- context [match ?b with _ => _ end] => destruct b end ].

Lemma kfree_proc_slots n : keeps keeps_slots (kfree_proc n).
Proof. unfold kfree_proc. slots_walk. Qed.
Lemma kfree_thread_slots n : keeps keeps_slots (kfree_thread n).
Proof. unfold kfree_thread. apply keeps_bind; [apply keeps_thread_at|]. intros _. apply keeps_mod. intros s Hs. by apply map_Forall_delete. Qed.
#[local] Hint Resolve kfree_proc_slots kfree_thread_slots : keeps.

(** *** Commands *)

Lemma get_user_words_slots cur a n : keeps keeps_slots (get_user_words cur a n).
Proof. unfold get_user_words. slots_walk. Qed.
#[local] Hint Resolve get_user_words_slots : keeps.
Lemma fetch_command_slots cur a : keeps keeps_slots (fetch_command cur a).
Proof. unfold fetch_command. slots_walk. Qed.
Lemma do_ref_slots p incr strong desc : keeps keeps_slots (do_ref p incr strong desc).
Proof. unfold do_ref. slots_walk. Qed.
Lemma do_done_slots p strong ptr cookie : keeps keeps_slots (do_done p strong ptr cookie).
Proof. unfold do_done. slots_walk. Qed.
Lemma do_free_buffer_slots p th ptr : keeps keeps_slots (do_free_buffer p th ptr).
Proof. unfold do_free_buffer, next_async. slots_walk. Qed.
Lemma queue_death_slots p th d : keeps keeps_slots (queue_death p th d).
Proof. unfold queue_death. slots_walk. Qed.
#[local] Hint Resolve fetch_command_slots do_ref_slots do_done_slots do_free_buffer_slots queue_death_slots : keeps.
Lemma do_request_death_slots p th r cookie : keeps keeps_slots (do_request_death p th r cookie).
Proof. unfold do_request_death. slots_walk. Qed.
Lemma do_clear_death_slots p th r cookie : keeps keeps_slots (do_clear_death p th r cookie).
Proof. unfold do_clear_death. slots_walk. Qed.
Lemma do_dead_binder_done_slots p th cookie : keeps keeps_slots (do_dead_binder_done p th cookie).
Proof. unfold do_dead_binder_done. slots_walk. Qed.
Lemma or_looper_slots th bits : keeps keeps_slots (or_looper th bits).
Proof. unfold or_looper. slots_walk. Qed.
#[local] Hint Resolve do_request_death_slots do_clear_death_slots do_dead_binder_done_slots or_looper_slots : keeps.
Lemma do_command_slots cur p th c : keeps keeps_slots (do_command cur p th c).
Proof. unfold do_command, do_register_looper, do_enter_looper. slots_walk. Qed.
#[local] Hint Resolve do_command_slots : keeps.
Lemma write_loop_slots fuel cur p th buffer size : ∀ consumed, keeps keeps_slots (write_loop fuel cur p th buffer size consumed).
Proof. induction fuel as [|fuel IH]; intros consumed; cbn [write_loop]; slots_walk. Qed.
#[local] Hint Resolve write_loop_slots : keeps.

(** *** Reads *)

Lemma next_work_slots p th wait : keeps keeps_slots (next_work p th wait).
Proof. unfold next_work. slots_walk. Qed.
#[local] Hint Resolve next_work_slots : keeps.
Lemma read_loop_slots tgid cur p th writable size fuel wait :
  ∀ m ptr, keeps keeps_slots (read_loop tgid cur p th writable size fuel wait m ptr).
Proof.
  induction fuel as [|fuel IH]; intros m ptr; cbn [read_loop]; [apply keeps_ret|].
  slots_walk.
Qed.
Lemma read_errors_slots th writable size m ptr : keeps keeps_slots (read_errors th writable size m ptr).
Proof. unfold read_errors. slots_walk. Qed.
#[local] Hint Resolve read_loop_slots read_errors_slots : keeps.

(** The other threads keep them too while the reader waits. *)
Definition tame (env : waiting) : Prop := ∀ i, keeps keeps_slots (w_others env i).

Lemma read_round_slots tgid cur p th writable size i env nb m ptr :
  tame env → keeps keeps_slots (read_round tgid cur p th writable size i env nb m ptr).
Proof. intros He. unfold tame in He. unfold read_round, wait_for_work, binder_has_proc_work, binder_has_thread_work. slots_walk. Qed.
Lemma read_from_slots tgid cur p th writable size retries env nb :
  tame env → ∀ i m c, keeps keeps_slots (read_from tgid cur p th writable size retries i env nb m c).
Proof.
  intros He. pose proof (λ i m ptr, read_round_slots tgid cur p th writable size i env nb m ptr He) as Hr.
  induction retries as [|retries IH]; intros i m c; cbn [read_from]; unfold read_finish; slots_walk.
Qed.

(** *** System calls and deferred work *)

Lemma queue_head_slots q : keeps keeps_slots (queue_head q).
Proof. unfold queue_head. slots_walk. Qed.
Lemma release_item_slots w : keeps keeps_slots (release_item w).
Proof. unfold release_item. slots_walk. Qed.
#[local] Hint Resolve queue_head_slots release_item_slots : keeps.
Lemma release_work_slots fuel q : keeps keeps_slots (release_work fuel q).
Proof. induction fuel as [|fuel IH]; cbn [release_work]; slots_walk. Qed.
#[local] Hint Resolve release_work_slots : keeps.
Lemma binder_release_work_slots q : keeps keeps_slots (binder_release_work q).
Proof. unfold binder_release_work. slots_walk. Qed.
Lemma leave_transactions_slots fuel th : ∀ t a, keeps keeps_slots (leave_transactions fuel th t a).
Proof. induction fuel as [|fuel IH]; intros t a; cbn [leave_transactions]; slots_walk. Qed.
#[local] Hint Resolve binder_release_work_slots leave_transactions_slots : keeps.
Lemma free_thread_slots p th : keeps keeps_slots (binder_free_thread p th).
Proof. unfold binder_free_thread. slots_walk. Qed.
Lemma get_thread_slots cur p : keeps keeps_slots (binder_get_thread cur p).
Proof.
  unfold binder_get_thread. slots_walk. apply keeps_mod. intros s Hs. apply map_Forall_insert_2; [|done]. split; by left.
Qed.
Lemma set_ctx_mgr_slots cur p : keeps keeps_slots (binder_ioctl_set_ctx_mgr cur p).
Proof. unfold binder_ioctl_set_ctx_mgr. slots_walk. Qed.
#[local] Hint Resolve free_thread_slots get_thread_slots set_ctx_mgr_slots : keeps.
Lemma ioctl_slots tgid cur p cmd arg retries env nb ok writable m :
  tame env → keeps keeps_slots (binder_ioctl tgid cur p cmd arg retries env nb ok writable m).
Proof.
  intros He. pose proof (λ size th, read_from_slots tgid cur p th writable size retries env nb He) as Hr.
  unfold binder_ioctl, binder_ioctl_write_read, binder_thread_read, binder_thread_write. slots_walk.
Qed.

Lemma flush_threads_slots ths : keeps keeps_slots (flush_threads ths).
Proof. induction ths as [|th ths IH]; cbn [flush_threads]; slots_walk. Qed.
Lemma notify_refs_slots rs : ∀ n, keeps keeps_slots (notify_refs rs n).
Proof. induction rs as [|r rs IH]; intros n; cbn [notify_refs]; slots_walk. Qed.
#[local] Hint Resolve flush_threads_slots notify_refs_slots : keeps.
Lemma node_release_slots n refs : keeps keeps_slots (binder_node_release n refs).
Proof. unfold binder_node_release. slots_walk. Qed.
#[local] Hint Resolve node_release_slots : keeps.
Lemma release_threads_slots fuel p : keeps keeps_slots (release_threads fuel p).
Proof. induction fuel as [|fuel IH]; cbn [release_threads]; slots_walk. Qed.
Lemma release_nodes_slots fuel p : ∀ n, keeps keeps_slots (release_nodes fuel p n).
Proof. induction fuel as [|fuel IH]; intros n; cbn [release_nodes]; slots_walk. Qed.
Lemma release_refs_slots fuel p : keeps keeps_slots (release_refs fuel p).
Proof. induction fuel as [|fuel IH]; cbn [release_refs]; slots_walk. Qed.
Lemma release_buffers_slots fuel p : keeps keeps_slots (release_buffers fuel p).
Proof. induction fuel as [|fuel IH]; cbn [release_buffers]; slots_walk. Qed.
#[local] Hint Resolve release_threads_slots release_nodes_slots release_refs_slots release_buffers_slots : keeps.
Lemma deferred_release_slots p : keeps keeps_slots (binder_deferred_release p).
Proof. unfold binder_deferred_release. slots_walk. Qed.
#[local] Hint Resolve deferred_release_slots : keeps.
Lemma deferred_func_slots fuel : keeps keeps_slots (binder_deferred_func fuel).
Proof. induction fuel as [|fuel IH]; cbn [binder_deferred_func]; unfold deferred_round, binder_deferred_flush; slots_walk. Qed.

(** Whatever is done to the driver, by system calls and by its deferred work, the slots hold only values it stores there. *)
Inductive driver_op (tgid : Z → Z) : KM () → Prop :=
| op_open cur : driver_op tgid (_ ← KProc.binder_open cur; mret ())
| op_mmap cur p v area ok : driver_op tgid (_ ← kmmap cur p v area ok; mret ())
| op_ioctl cur p cmd arg retries env nb ok writable m : (∀ i, driver_op tgid (w_others env i)) →
    driver_op tgid (_ ← binder_ioctl tgid cur p cmd arg retries env nb ok writable m; mret ())
| op_poll cur p others : driver_op tgid others → driver_op tgid (_ ← binder_poll cur p others; mret ())
| op_vma_close p : driver_op tgid (binder_vma_close p)
| op_flush p : driver_op tgid (_ ← binder_flush p; mret ())
| op_release p : driver_op tgid (_ ← binder_release p; mret ())
| op_deferred fuel : driver_op tgid (binder_deferred_func fuel)
| op_nothing : driver_op tgid (mret ())
| op_then m m' : driver_op tgid m → driver_op tgid m' → driver_op tgid (_ ← m; m').

Theorem driver_keeps_slots tgid m : driver_op tgid m → keeps keeps_slots m.
Proof.
  induction 1 as [cur|cur p v area ok|cur p cmd arg retries env nb ok writable m _ IH|cur p others _ IH|p|p|p|fuel| |m m' _ IH1 _ IH2];
    unfold KProc.binder_open, kmmap, binder_poll, binder_has_proc_work, binder_has_thread_work, binder_vma_close, binder_flush, binder_release,
      binder_defer_work; try solve [slots_walk].
  - pose proof (ioctl_slots tgid cur p cmd arg retries env nb ok writable m IH). slots_walk.
  - apply deferred_func_slots.
Qed.

End Slots.
