(* ===== verification/KHandles.v ===== *)
(** * Binder driver: the table of handles and the context manager

    What a process sees of the references: a table from handles to nodes and counts, and what
    each of the commands that count does to it.

    A process that opens the device has no nodes and no references; the one that becomes the
    context manager gets a node that is held until it goes away. *)
From stdpp Require Import sorting gmap.
From S2P Require Import Prelude Bio Binder KAlloc KAllocSpec KState KRefs KTrans KWrite KRead KProc KQueues KRefsSpec KRefsInv KRefsOps KRefsRun KRefsLocal KFrame.

(** ** Specification *)

(** A handle of a process stands for a node, with a strong and a weak count. *)
Abbreviation handle_table := (gmap (Z * Z) (Z * Z * Z)).

Definition the_count (strong : bool) (h : Z * Z * Z) : Z := let '(_, a, b) := h in if strong then a else b.
Definition add_count (strong : bool) (d : Z) (h : Z * Z * Z) : Z * Z * Z :=
  let '(n, a, b) := h in if strong then (n, a + d, b) else (n, a, b + d).
Definition unused (h : Z * Z * Z) : bool := let '(_, a, b) := h in (a =? 0) && (b =? 0).

(** Counting on a handle.  A count of 0 may stay: it is not counted down, and not counted up
    when the node's owner does not know of the count. *)
Inductive count_step (p d : Z) (strong : bool) : bool → handle_table → handle_table → Prop :=
| count_unknown incr T : T !! (p, d) = None → count_step p d strong incr T T
| count_refused incr T h : T !! (p, d) = Some h → the_count strong h = 0 → count_step p d strong incr T T
| count_up T h : T !! (p, d) = Some h → count_step p d strong true T (<[(p, d) := add_count strong 1 h]> T)
| count_down T h : T !! (p, d) = Some h → 0 < the_count strong h → unused (add_count strong (-1) h) = false →
    count_step p d strong false T (<[(p, d) := add_count strong (-1) h]> T)
| count_last T h : T !! (p, d) = Some h → 0 < the_count strong h → unused (add_count strong (-1) h) = true →
    count_step p d strong false T (delete (p, d) T).

(** A process gets a handle on a node: the one it has, or the least free one from [base] on. *)
Inductive name_step (p n base : Z) (T : handle_table) : Z → handle_table → Prop :=
| name_old d a b : T !! (p, d) = Some (n, a, b) → name_step p n base T d T
| name_new d : (∀ d' a b, T !! (p, d') ≠ Some (n, a, b)) → base ≤ d → T !! (p, d) = None →
    (∀ e, base ≤ e < d → is_Some (T !! (p, e))) → name_step p n base T d (<[(p, d) := (n, 0, 0)]> T).

(** A command that counts: handle 0 stands for the context manager's node when counting up. *)
Inductive handle_step (mgr p desc : Z) (strong : bool) : bool → handle_table → handle_table → Prop :=
| step_plain incr T T' : (desc =? 0) && truthy mgr && incr = false → count_step p desc strong incr T T' →
    handle_step mgr p desc strong incr T T'
| step_mgr T d T1 T' : desc = 0 → mgr ≠ 0 → name_step p mgr 0 T d T1 → count_step p d strong true T1 T' →
    handle_step mgr p desc strong true T T'.

(** ** Abstraction *)

Definition view (x : binder_ref) : Z * Z * Z := (r_node x, r_strong x, r_weak x).
Definition ref_key (x : binder_ref) : Z * Z := (r_proc x, r_desc x).

Definition handles (s : kstate) : handle_table :=
  list_to_map ((λ '(_, x), (ref_key x, view x)) <$> map_to_list (ks_refs s)).

Section Handles.
Context `{RbLaws}.

Lemma sorted_inj key l x y :
  StronglySorted (key_lt key) l → x ∈ l → y ∈ l → key x = key y → x = y.
Proof.
  induction l as [|z l IH]; intros Hs Hx Hy He; [by apply elem_of_nil in Hx|]. inversion Hs as [|? ? Hs' Hall]; subst.
  rewrite Forall_forall in Hall.
  assert (∀ u, u ∈ l → key z ≠ key u) as Hne by (intros u (a & b & -> & -> & ?)%Hall [= ->]; lia).
  apply elem_of_cons in Hx as [->|Hx]; apply elem_of_cons in Hy as [->|Hy]; [done|..|by apply IH].
  - by destruct (Hne y).
  - by destruct (Hne x).
Qed.

Lemma ref_key_inj held s r r' x x' :
  refs_ok held s → ks_refs s !! r = Some x → ks_refs s !! r' = Some x' → ref_key x = ref_key x' → r = r'.
Proof.
  intros Hok Hx Hx' [= Hp Hd]. destruct (ro_ref _ _ Hok _ _ Hx) as ([k Hk] & _). destruct (ro_by_desc _ _ Hok _ _ Hk) as (Hs & _ & Hm).
  apply (sorted_inj (desc_key s) (inorder (k_refs_by_desc k))); [done|apply Hm; by exists x|apply Hm; by exists x'|].
  unfold desc_key. rewrite Hx, Hx'. cbn. by f_equal.
Qed.

Lemma handle_keys held s : refs_ok held s → NoDup ((λ '(_, x), (ref_key x, view x)) <$> map_to_list (ks_refs s)).*1.
Proof.
  intros Hok. rewrite <- list_fmap_compose. apply NoDup_fmap_2_strong; [|apply NoDup_map_to_list].
  intros [r x] [r' x'] Hr%elem_of_map_to_list Hr'%elem_of_map_to_list Hk. cbn in Hk.
  pose proof (ref_key_inj held s r r' x x' Hok Hr Hr' Hk) as <-. congruence.
Qed.

Lemma size_handles held s : refs_ok held s → size (handles s) = size (ks_refs s).
Proof.
  intros Hok. rewrite <- (length_map_to_list (handles s)). unfold handles. rewrite map_to_list_to_map by (by eapply handle_keys).
  by rewrite length_fmap, length_map_to_list.
Qed.

Lemma handles_lookup held s i v :
  refs_ok held s → handles s !! i = Some v ↔ ∃ r x, ks_refs s !! r = Some x ∧ ref_key x = i ∧ v = view x.
Proof.
  intros Hok. unfold handles. rewrite <- elem_of_list_to_map.
  - rewrite list_elem_of_fmap. split.
    + intros ([r x] & [= -> ->] & Hin). apply elem_of_map_to_list in Hin. by exists r, x.
    + intros (r & x & Hx & <- & ->). exists (r, x). split; [done|]. by apply elem_of_map_to_list.
  - by eapply handle_keys.
Qed.

Lemma handle_of held s r x : refs_ok held s → ks_refs s !! r = Some x → handles s !! ref_key x = Some (view x).
Proof. intros Hok Hx. apply (handles_lookup held); [done|]. by exists r, x. Qed.

Lemma no_handle held s i : refs_ok held s → (∀ r x, ks_refs s !! r = Some x → ref_key x ≠ i) → handles s !! i = None.
Proof.
  intros Hok Hno. destruct (handles s !! i) as [v|] eqn:E; [|done]. apply (handles_lookup held) in E as (r & x & Hx & Hk & _); [|done].
  by destruct (Hno r x).
Qed.

Lemma handles_store held s s' r x z :
  refs_ok held s → refs_ok held s' → ks_refs s !! r = Some x → ref_key z = ref_key x → ks_refs s' = <[r := z]> (ks_refs s) →
  handles s' = <[ref_key x := view z]> (handles s).
Proof.
  intros Hok Hok' Hx Hk He. apply map_eq. intros i. apply option_eq. intros v. rewrite (handles_lookup held) by done. rewrite He.
  destruct (decide (ref_key x = i)) as [<-|Hne].
  - rewrite lookup_insert_eq. split.
    + intros (r' & x' & Hr' & Hi & ->). destruct (decide (r = r')) as [<-|Hr]; [rewrite lookup_insert_eq in Hr'; congruence|].
      rewrite lookup_insert_ne in Hr' by done. destruct Hr. symmetry. by eapply (ref_key_inj held s).
    + intros [= <-]. exists r, z. by rewrite lookup_insert_eq.
  - rewrite lookup_insert_ne by done. rewrite (handles_lookup held) by done.
    split; intros (r' & x' & Hr' & Hi & ->); exists r', x'; (split; [|done]); destruct (decide (r = r')) as [<-|Hr].
    + rewrite lookup_insert_eq in Hr'. congruence.
    + by rewrite lookup_insert_ne in Hr'.
    + congruence.
    + by rewrite lookup_insert_ne.
Qed.

Lemma handles_add held s s' r z :
  refs_ok held s → refs_ok held s' → ks_refs s !! r = None → ks_refs s' = <[r := z]> (ks_refs s) →
  handles s' = <[ref_key z := view z]> (handles s).
Proof.
  intros Hok Hok' Hx He. assert (ks_refs s' !! r = Some z) as Hz by (by rewrite He, lookup_insert_eq).
  apply map_eq. intros i. apply option_eq. intros v. destruct (decide (ref_key z = i)) as [<-|Hne].
  - rewrite lookup_insert_eq. by rewrite (handle_of held s' r z).
  - rewrite lookup_insert_ne by done. rewrite !(handles_lookup held) by done. rewrite He.
    split; intros (r' & x' & Hr' & Hi & ->); exists r', x'; (split; [|done]); destruct (decide (r = r')) as [<-|Hr].
    + rewrite lookup_insert_eq in Hr'. congruence.
    + by rewrite lookup_insert_ne in Hr'.
    + congruence.
    + by rewrite lookup_insert_ne.
Qed.

Lemma handles_delete held s s' r x :
  refs_ok held s → refs_ok held s' → ks_refs s !! r = Some x → ks_refs s' = delete r (ks_refs s) →
  handles s' = delete (ref_key x) (handles s).
Proof.
  intros Hok Hok' Hx He. apply map_eq. intros i. apply option_eq. intros v. rewrite (handles_lookup held) by done. rewrite He.
  destruct (decide (ref_key x = i)) as [<-|Hne].
  - rewrite lookup_delete_eq. split; [|done]. intros (r' & x' & [Hr Hr']%lookup_delete_Some & Hi & ->).
    destruct Hr. symmetry. by eapply (ref_key_inj held s).
  - rewrite lookup_delete_ne by done. rewrite (handles_lookup held) by done. split.
    + intros (r' & x' & [Hr Hr']%lookup_delete_Some & Hi). by exists r', x'.
    + intros (r' & x' & Hr' & Hi & ->). exists r', x'. rewrite lookup_delete_ne; [done|]. intros <-. congruence.
Qed.

Lemma handles_same s s' : ks_refs s' = ks_refs s → handles s' = handles s.
Proof. intros He. unfold handles. by rewrite He. Qed.

(** ** The operations do what the specification says *)

Lemma view_bump strong d x : view (bump strong d x) = add_count strong d (view x).
Proof. by destruct strong. Qed.
Lemma key_bump strong d x : ref_key (bump strong d x) = ref_key x.
Proof. by destruct strong. Qed.

Lemma count_view (strong : bool) x : (if strong then r_strong x else r_weak x) = the_count strong (view x).
Proof. by destruct strong. Qed.
Lemma unused_view x : (r_strong x =? 0) && (r_weak x =? 0) = unused (view x).
Proof. done. Qed.

(** Every count of the table leaves room for [k] more. *)
Definition room_for (k : Z) (T : handle_table) : Prop := map_Forall (λ _ h, ∀ b, the_count b h + k < 2 ^ 31) T.

Lemma room_for_ref held s r x strong : refs_ok held s → room_for 1 (handles s) → ks_refs s !! r = Some x → count_room strong x.
Proof.
  intros Hok Ht Hx. specialize (Ht _ _ (handle_of held s r x Hok Hx) strong). cbv beta in Ht. unfold count_room. rewrite count_view. lia.
Qed.

Lemma count_of_add strong d h b : the_count b (add_count strong d h) = the_count b h + (if decide (b = strong) then d else 0).
Proof. destruct h as [[n x] y]. destruct (decide _) as [->|]; [by destruct strong|]. destruct b, strong; cbn; try done; lia. Qed.

Lemma room_count_step p d strong incr T T' k : count_step p d strong incr T T' → room_for (k + 1) T → room_for k T'.
Proof.
  intros Hs Ht. assert (room_for k T) as Hk by (intros i h Hi b; specialize (Ht i h Hi b); cbn in Ht; lia).
  assert (∀ h e, T !! (p, d) = Some h → e ≤ 1 → room_for k (<[(p, d) := add_count strong e h]> T)) as Hins.
  { intros h e Hh He. apply map_Forall_insert_2; [|done]. intros b. rewrite count_of_add. specialize (Ht _ _ Hh b). cbn in Ht. destruct (decide _); lia. }
  destruct Hs; [done|done|by apply Hins|apply Hins; [done|lia]|by apply map_Forall_delete].
Qed.

Lemma room_name_step p n base T d T' k : name_step p n base T d T' → k < 2 ^ 31 → room_for k T → room_for k T'.
Proof. intros [|] Hk Ht; [done|]. apply map_Forall_insert_2; [|done]. intros []; cbn; lia. Qed.

Lemma room_step mgr p d strong incr T T' k :
  handle_step mgr p d strong incr T T' → 0 ≤ k < 2 ^ 31 - 1 → room_for (k + 1) T → room_for k T'.
Proof.
  intros [incr' T1 T2 _ Hc|T1 e T2 T3 _ _ Hn Hc] Hk Ht; [by eapply room_count_step|].
  eapply room_count_step; [exact Hc|]. eapply room_name_step; [exact Hn|lia|done].
Qed.

Lemma inc_ref_step held s r x strong :
  kref_inv held s → ks_refs s !! r = Some x → room_for 1 (handles s) →
  ∃ ret s', binder_inc_ref r strong None s = Some (ret, s') ∧ kref_inv held s' ∧
    count_step (r_proc x) (r_desc x) strong true (handles s) (handles s').
Proof.
  intros Hinv Hx Hroom. destruct (inc_ref_run held s r x strong None Hinv Hx) as (ret & s' & Hr & Hinv' & Hc); [done|eapply room_for_ref; [apply Hinv|done..]|].
  exists ret, s'. split; [done|]. split; [done|]. pose proof Hinv as (Hok & _). pose proof Hinv' as (Hok' & _).
  pose proof (handle_of held s r x Hok Hx) as Hh. destruct Hc as [[_ He]|(_ & _ & Hz & He)].
  - rewrite (handles_store held s s' r x (bump strong 1 x) Hok Hok' Hx (key_bump _ _ _) He), view_bump. by apply count_up.
  - rewrite (handles_same s s' He). rewrite count_view in Hz. by eapply count_refused.
Qed.

Lemma dec_ref_step held s r x strong :
  kref_inv held s → ks_refs s !! r = Some x →
  ∃ ret s', binder_dec_ref r strong s = Some (ret, s') ∧ kref_inv held s' ∧
    count_step (r_proc x) (r_desc x) strong false (handles s) (handles s').
Proof.
  intros Hinv Hx. destruct (dec_ref_run held s r x strong Hinv Hx) as (ret & s' & Hr & Hinv' & Hc).
  exists ret, s'. split; [done|]. split; [done|]. pose proof Hinv as (Hok & _). pose proof Hinv' as (Hok' & _).
  pose proof (handle_of held s r x Hok Hx) as Hh. rewrite count_view in Hc. destruct Hc as [(_ & Hz & ->)|(_ & Hp & He)].
  - by eapply count_refused.
  - unfold dec_ref_refs in He. cbv zeta in He. rewrite unused_view in He. destruct (unused (view (bump strong (-1) x))) eqn:Hu.
    + rewrite (handles_delete held s s' r x Hok Hok' Hx He). rewrite view_bump in Hu. by eapply count_last.
    + rewrite (handles_store held s s' r x _ Hok Hok' Hx (key_bump _ _ _) He). rewrite view_bump in *. by apply count_down.
Qed.

(** A handle for a node. *)
Lemma ref_for_node_step `{KernelLaws} held s p m r s' base :
  kref_inv held s → kref_inv held s' → ref_for_node s p m r s' → r ≠ 0 → base = (if m =? ks_context_mgr_node s then 0 else 1) →
  ∃ x, ks_refs s' !! r = Some x ∧ r_proc x = p ∧ r_node x = m ∧ name_step p m base (handles s) (r_desc x) (handles s').
Proof.
  intros (Hok & _) (Hok' & _) Hrn Hr0 ->.
  destruct Hrn as [(-> & y & Hy & Hp & Hm)|(Hnone & [(_ & -> & _)|(Ha & d & t1 & t2 & k & x & Hk & Hx & -> & Hd & Hfree & Hleast)])]; [|done|].
  - exists y. split; [done|]. split; [done|]. split; [done|]. apply (name_old _ _ _ _ _ (r_strong y) (r_weak y)).
    pose proof (handle_of held s r y Hok Hy) as Hh. unfold ref_key, view in Hh. by rewrite Hp, Hm in Hh.
  - set (z := Ref p m d 0 0 0). destruct (kzalloc_fresh _ _ _ Ha) as [_ Hf].
    assert (ks_refs s !! r = None) as Hrn. { apply not_elem_of_dom. intros Hin. apply Hf. unfold live. clear -Hin. set_solver. }
    exists z. split; [cbn; by rewrite lookup_insert_eq|]. split; [done|]. split; [done|].
    rewrite (handles_add held s _ r z Hok Hok' Hrn) by done. apply (name_new p m _ (handles s) d); [|lia|..].
    + intros d' a b (r' & y & Hy & [= Hpy Hdy] & [= Hmy _ _])%(handles_lookup held); [|done]. by apply (Hnone r' y).
    + apply (no_handle held); [done|]. intros r' y Hy [= Hpy Hdy]. by apply (Hfree r' y).
    + intros e He. destruct (Hleast e He) as (q & y & Hy & Hpy & <-). exists (view y). rewrite <- Hpy. by apply (handle_of held s q y).
Qed.

(** ** The commands that count *)

(** The context manager's node is held as long as there is one. *)
Definition mgr_held (held : Z → bool → Z) (s : kstate) : Prop :=
  ks_context_mgr_node s ≠ 0 → 1 ≤ held (ks_context_mgr_node s) true.

Lemma do_ref_run `{KernelLaws} held s p k incr strong desc :
  kref_inv held s → mgr_held held s → ks_procs s !! p = Some k → Z.of_nat (size (ks_refs s)) < 2 ^ 31 - 1 →
  room_for 1 (handles s) → kzalloc_addr (live s) (ks_tick s) ≠ None →
  ∃ s', do_ref p incr strong desc s = Some ((), s') ∧ kref_inv held s' ∧
    handle_step (ks_context_mgr_node s) p desc strong incr (handles s) (handles s').
Proof.
  intros Hinv Hmgr Hk Hsz Hroom Hmem. pose proof Hinv as (Hok & _). unfold do_ref. krun. set (mgr := ks_context_mgr_node s) in *.
  destruct ((desc =? 0) && truthy mgr && incr) eqn:Hc.
  - rewrite !andb_true_iff in Hc. destruct Hc as [[Hd Ht] ->]. apply Z.eqb_eq in Hd.
    assert (mgr ≠ 0) as Hm0 by (intros Hz; rewrite Hz in Ht; done).
    destruct (ro_alive _ _ Hok _ _ (Hmgr Hm0)) as [n Hn].
    destruct (get_ref_for_node_run held s p mgr k n Hinv Hk Hn Hsz) as (r & s1 & Hg & Hinv1 & Hrn).
    assert (r ≠ 0) as Hr0.
    { destruct (ro_null _ _ Hok) as (_ & _ & Hz & _). intros ->.
      destruct Hrn as [(_ & y & Hy & _)|(_ & [(Ha & _)|(Ha & _)])]; [congruence|done|].
      by destruct (kzalloc_fresh _ _ _ Ha). }
    destruct (ref_for_node_step held s p mgr r s1 0 Hinv Hinv1 Hrn Hr0) as (x & Hx & Hp & _ & Hname).
    { unfold mgr. by rewrite Z.eqb_refl. }
    rewrite (kbind_run _ _ s r s1); [|rewrite (kbind_run _ _ _ _ _ Hg); by krun].
    assert ((r =? 0) = false) as -> by lia. cbn iota.
    destruct (inc_ref_step held s1 r x strong Hinv1 Hx (room_name_step _ _ _ _ _ _ 1 Hname eq_refl Hroom)) as (ret & s2 & Hi & Hinv2 & Hstep).
    rewrite (kbind_run _ _ _ _ _ Hi). exists s2. split; [done|]. split; [done|]. rewrite Hp in Hstep.
    by apply (step_mgr _ _ _ _ _ (r_desc x) (handles s1)).
  - destruct (get_ref_run held s p k desc Hok Hk) as (r & Hg & Hr). rewrite (kbind_run _ _ _ _ _ Hg).
    destruct Hr as [(x & Hx & Hp & Hd)|[-> Hno]].
    + assert ((r =? 0) = false) as ->.
      { destruct (ro_null _ _ Hok) as (_ & _ & Hz & _). apply Z.eqb_neq. intros ->. congruence. }
      destruct incr.
      * destruct (inc_ref_step held s r x strong Hinv Hx Hroom) as (ret & s2 & Hi & Hinv2 & Hstep). rewrite (kbind_run _ _ _ _ _ Hi).
        exists s2. split; [done|]. split; [done|]. apply step_plain; [done|]. by rewrite <- Hp, <- Hd.
      * destruct (dec_ref_step held s r x strong Hinv Hx) as (ret & s2 & Hi & Hinv2 & Hstep). rewrite (kbind_run _ _ _ _ _ Hi).
        exists s2. split; [done|]. split; [done|]. apply step_plain; [done|]. by rewrite <- Hp, <- Hd.
    + exists s. split; [done|]. split; [done|]. apply step_plain; [done|]. apply count_unknown.
      apply (no_handle held); [done|]. intros r x Hx [= Hp Hd]. by apply (Hno r x).
Qed.

End Handles.

Section Mgr.
Context `{RbLaws} `{KernelLaws}.

(** ** A new process *)

Definition add_proc (p : Z) (k : kproc) (s : kstate) : kstate :=
  set_ks_proc_list (p :: ks_proc_list s) (set_ks_procs (<[p := k]> (ks_procs s)) s).

Lemma tree_for_null key (P : Z → Prop) : (∀ x, ¬ P x) → tree_for key rb_null P.
Proof.
  intros HP. split; [constructor|]. split; [intros x Hx; by apply elem_of_nil in Hx|].
  intros x. split; [intros Hx; by apply elem_of_nil in Hx|intros Hx; by destruct (HP x)].
Qed.

Lemma add_proc_ok held s p k :
  refs_ok held s → p ≠ 0 → ks_procs s !! p = None → k_nodes k = rb_null → k_refs_by_desc k = rb_null → k_refs_by_node k = rb_null →
  refs_ok held (add_proc p k s).
Proof.
  intros [Hz Hn Hd Hb Hr Hx Hh Hde Hdi Hal Hto Hsm] Hp0 Hp Kn Kd Kb.
  assert (∀ n, ¬ ∃ x, ks_nodes s !! n = Some x ∧ n_proc x = p) as Hnn.
  { intros n (x & Hnx & Hpx). destruct (Hx _ _ Hnx) as (_ & _ & H3 & _). destruct H3; congruence. }
  assert (∀ r, ¬ ∃ x, ks_refs s !! r = Some x ∧ r_proc x = p) as Hrr.
  { intros r (x & Hrx & Hpx). destruct (Hr _ _ Hrx) as ([? ?] & _). congruence. }
  assert (∀ q, is_Some (ks_procs s !! q) → is_Some (<[p := k]> (ks_procs s) !! q)) as Hps.
  { intros q [? ?]. rewrite lookup_insert_ne by congruence. by eexists. }
  split; cbn [add_proc set_ks_proc_list set_ks_procs ks_procs ks_nodes ks_refs ks_deaths]; try done.
  - rewrite lookup_insert_ne by done. done.
  - intros q k'. by_key p q; [|apply Hn]. intros [= <-]. rewrite Kn. by apply tree_for_null.
  - intros q k'. by_key p q; [|apply Hd]. intros [= <-]. rewrite Kd. by apply tree_for_null.
  - intros q k'. by_key p q; [|apply Hb]. intros [= <-]. rewrite Kb. by apply tree_for_null.
  - intros r x Hrx. destruct (Hr _ _ Hrx) as (A & B). split; [by apply Hps|done].
  - intros n x Hnx. destruct (Hx _ _ Hnx) as (A & B & C & D). split; [done|]. split; [done|]. split; [|done]. intros Hne. by apply Hps, C.
Qed.

Lemma add_proc_lists s p k :
  ks_procs s !! p = None → k_todo k = [] → k_delivered_death k = [] → queues_ok s →
  queues_ok (add_proc p k s) ∧ async_le s (add_proc p k s).
Proof.
  intros Hp Kt Kd [Hl Hnd Hli]. set (s' := add_proc p k s).
  assert (∀ q, queue_items s' q = if decide (q = Q_proc p ∨ q = Q_delivered p) then Some [] else queue_items s q) as Hq.
  { intros [q|q|q|q]; cbn; try (rewrite decide_False by (intros [|]; discriminate); done).
    - by_key p q; [rewrite decide_True by auto; cbn; by rewrite Kt|by rewrite decide_False by (intros [|]; congruence)].
    - by_key p q; [rewrite decide_True by auto; cbn; by rewrite Kd|by rewrite decide_False by (intros [|]; congruence)]. }
  assert (∀ w, entry_at s' w = entry_at s w) as Hw by (intros []; done).
  split; [split|].
  - intros q l w. rewrite Hq, Hw. destruct (decide _); [|apply Hl]. intros [= <-] Hin. by apply elem_of_nil in Hin.
  - intros q l. rewrite Hq. destruct (decide _); [|apply Hnd]. intros [= <-]. constructor.
  - intros q w. rewrite Hw. intros He. destruct (Hli _ _ He) as (l & Hql & Hin). exists l. split; [|done].
    rewrite Hq. destruct (decide _) as [[->| ->]|]; [..|done]; cbn in Hql; rewrite Hp in Hql; done.
  - intros n l. rewrite Hq. rewrite decide_False by (intros [|]; discriminate). intros Hql Hne. by exists l.
Qed.

Lemma open_run held s cur :
  kref_inv held s → mgr_held held s →
  ∃ ret p s', KProc.binder_open cur s = Some ((ret, p), s') ∧ kref_inv held s' ∧ mgr_held held s' ∧ ks_refs s' = ks_refs s ∧
    (ret = 0 → is_Some (ks_procs s' !! p)).
Proof.
  intros Hinv Hm. unfold KProc.binder_open. rewrite (kbind_run _ _ _ _ _ (kzalloc_run s)).
  pose proof (kref_inv_tick held (S (ks_tick s)) s Hinv) as Hinv0. set (s0 := set_ks_tick (S (ks_tick s)) s) in *.
  destruct (kzalloc_addr (live s) (ks_tick s)) as [p|] eqn:Ha; cbn [from_option].
  - destruct (kzalloc_fresh _ _ _ Ha) as [Hp0 Hf]. change (id p) with p. assert ((p =? 0) = false) as -> by lia.
    assert (ks_procs s !! p = None) as Hp. { apply not_elem_of_dom. intros Hin. apply Hf. unfold live. clear -Hin. set_solver. }
    krun. krun. krun. set (k := KState.KProc _ _ _ _ _ _ _ _ _ _ _ _ _ _ _ _ _).
    exists 0, p, (add_proc p k s0). split; [done|]. destruct Hinv0 as (Hok & Hqs & Has).
    destruct (add_proc_lists s0 p k) as [Hq' Ha']; [done..|]. split; [|split; [done|split; [done|]]].
    + split; [by apply add_proc_ok|]. split; [done|by eapply async_ok_le].
    + intros _. cbn. rewrite lookup_insert_eq. by eexists.
  - exists (- Errno.ENOMEM), 0, s0. split; [done|]. split; [done|]. split; [done|]. split; [done|]. done.
Qed.

(** ** The context manager *)

(** The node made for it, told of as if user space had been. *)
Definition mgr_node (p : Z) : binder_node := Node p [] 0 1 1 0 0 true false true false false false 0 [] None.

(** The variables of the context manager are no part of the invariant. *)
Lemma kref_inv_vars held s s' :
  kref_inv held s → ks_procs s' = ks_procs s → ks_threads s' = ks_threads s → ks_nodes s' = ks_nodes s → ks_refs s' = ks_refs s →
  ks_deaths s' = ks_deaths s → ks_trans s' = ks_trans s → ks_completes s' = ks_completes s → kref_inv held s'.
Proof.
  intros (Hok & Hqs & Has) E1 E2 E3 E4 E5 E6 E7. destruct s', s; cbn in *; subst. split; [by destruct Hok|].
  split; [eapply queues_ok_same; [|exact Hqs]; by split; intros []|]. eapply async_ok_le; [exact Has| |done].
  apply async_le_same. by split; intros [].
Qed.

Lemma hold_mgr_ok held s n p :
  kref_inv held s → ks_nodes s !! n = Some (new_node p 0 0) → (∀ b, held n b = 0) →
  kref_inv (hold (hold held n true 1) n false 1) (node_set n (mgr_node p) s).
Proof.
  intros (Hok & Hqs & Has) Hn Hh. assert (same_lists s (node_set n (mgr_node p) s)) as Hsl by (by apply (node_set_lists s n (new_node p 0 0))).
  assert (∀ b, hold (hold held n true 1) n false 1 n b = 1) as Hone.
  { intros []; unfold hold; [rewrite decide_False by (by intros [])|]; rewrite decide_True by done; [|rewrite decide_False by (by intros [])]; by rewrite Hh. }
  split; [|split; [by eapply queues_ok_same|]].
  - apply (node_update_ok held _ s n (new_node p 0 0)); try done.
    + by rewrite Hone.
    + by rewrite Hone.
    + intros m b Hne. by rewrite !hold_ne.
    + intros b. by rewrite Hone.
  - eapply async_ok_le; [exact Has|by apply async_le_same|]. intros m. destruct (decide (m = n)) as [->|Hne].
    + by rewrite Hone, Hh.
    + by rewrite !hold_ne.
Qed.

Lemma set_ctx_mgr_run held s cur p k :
  kref_inv held s → ks_procs s !! p = Some k →
  ∃ ret s', binder_ioctl_set_ctx_mgr cur p s = Some (ret, s') ∧
    ((ret ≠ 0 ∧ kref_inv held s' ∧ ks_nodes s' = ks_nodes s) ∨
     (ret = 0 ∧ ks_context_mgr_node s = 0 ∧ let n := ks_context_mgr_node s' in
        n ≠ 0 ∧ ks_nodes s !! n = None ∧ ks_nodes s' = <[n := mgr_node p]> (ks_nodes s) ∧
        kref_inv (hold (hold held n true 1) n false 1) s')).
Proof.
  intros Hinv Hk. unfold binder_ioctl_set_ctx_mgr. krun. destruct (truthy (ks_context_mgr_node s)) eqn:Hm.
  { exists (- Errno.EBUSY), s. split; [done|]. by left. }
  assert (ks_context_mgr_node s = 0) as Hm0 by (unfold truthy in Hm; lia). krun. cbv zeta.
  destruct (Z.ltb_spec (security_binder_set_context_mgr (k_tsk k)) 0) as [Hsec|_].
  { eexists _, s. split; [done|]. left. split; [lia|done]. }
  krun. destruct (match ks_context_mgr_uid s with Some u => _ | None => _ end).
  { exists (- Errno.EPERM), s. split; [done|]. by left. }
  krun. set (s0 := set_ks_context_mgr_uid _ s).
  assert (kref_inv held s0) as Hinv0 by (by eapply kref_inv_vars).
  destruct (new_node_run held s0 p k 0 0 Hinv0 Hk) as (n & s1 & Hnew & Hinv1 & Hn). rewrite (kbind_run _ _ _ _ _ Hnew). krun.
  set (s2 := set_ks_context_mgr_node n s1). assert (kref_inv held s2) as Hinv2 by (by eapply kref_inv_vars).
  destruct Hn as [[-> Hsame]|(Hn0 & Hfree & Hnodes)].
  { exists (- Errno.ENOMEM), s2. split; [done|]. left. by split. }
  assert ((n =? 0) = false) as -> by lia. assert (ks_nodes s2 !! n = Some (new_node p 0 0)) as Hn2 by (cbn; by rewrite Hnodes, lookup_insert_eq).
  krun. eexists 0, _. split; [reflexivity|]. right. split; [done|]. split; [done|]. cbn [set_ks_nodes ks_context_mgr_node ks_nodes].
  change (ks_context_mgr_node s2) with n. split; [done|]. split; [done|]. split.
  - cbn. rewrite Hnodes. apply insert_insert_eq.
  - apply (hold_mgr_ok held s2 n p Hinv2 Hn2). intros b. destruct Hinv as (Hok & _). pose proof (ro_held _ _ Hok n b).
    destruct (decide (1 ≤ held n b)) as [Hc|]; [|lia]. destruct (ro_alive _ _ Hok _ _ Hc) as [? Hx]. change (ks_nodes s0) with (ks_nodes s) in Hfree. congruence.
Qed.

End Mgr.
