(* ===== verification/KRefsProps.v ===== *)
(** * Binder driver: theorems on nodes and references *)
From stdpp Require Import sorting gmap.
From S2P Require Import Prelude Bio Binder KAlloc KAllocSpec KAllocProps KState KRefs KTrans KWrite KRead.
From S2P Require Import KProc KDemo KQueues KRefsSpec KRefsInv KRefsOps KRefsRun KRefsLocal KFrame KHandles.

(** ** Sequences of commands that count *)

(** The commands of user space that change counts; with the process and the thread that send them. *)
Inductive count_cmd :=
| Count_ref (incr strong : bool) (desc : Z)
| Count_done (strong : bool) (ptr cookie : Z).

Definition count_command (c : count_cmd) : command :=
  match c with
  | Count_ref incr strong desc => Cmd_ref incr strong desc
  | Count_done strong ptr cookie => Cmd_done strong ptr cookie
  end.

Section Commands.
Context `{RbTree} `{Kernel} `{BinderApi}.

Fixpoint run_counts (cur : task) (th : Z) (cs : list (Z * count_cmd)) : KM () :=
  match cs with
  | [] => mret ()
  | (p, c) :: cs => _ ← do_command cur p th (count_command c); run_counts cur th cs
  end.

End Commands.

(** What they may do to the table of handles. *)
Inductive table_steps (mgr : Z) : list (Z * count_cmd) → handle_table → handle_table → Prop :=
| steps_nil T : table_steps mgr [] T T
| steps_ref p incr strong desc cs T1 T2 T3 :
    handle_step mgr p desc strong incr T1 T2 → table_steps mgr cs T2 T3 →
    table_steps mgr ((p, Count_ref incr strong desc) :: cs) T1 T3
| steps_done p strong ptr cookie cs T1 T2 :
    table_steps mgr cs T1 T2 → table_steps mgr ((p, Count_done strong ptr cookie) :: cs) T1 T2.

Section Props.
Context `{RbLaws} `{KernelLaws} `{BinderApi}.

Lemma count_step_size p d strong incr T T' : count_step p d strong incr T T' → (size T' ≤ size T)%nat.
Proof.
  intros [| |T0 h Hh|T0 h Hh _ _|T0 h Hh _ _]; [done|done|..].
  - rewrite map_size_insert, Hh. cbn. lia.
  - rewrite map_size_insert, Hh. cbn. lia.
  - rewrite map_size_delete, Hh. cbn. lia.
Qed.

Lemma handle_step_size mgr p d strong incr T T' : handle_step mgr p d strong incr T T' → (size T' ≤ S (size T))%nat.
Proof.
  intros [incr' T0 T1 _ Hc|T0 d' T1 T2 _ _ Hn Hc]; apply count_step_size in Hc; [lia|].
  destruct Hn as [|d1 _ _ Hd _]; [lia|]. rewrite map_size_insert, Hd in Hc. cbn in Hc. lia.
Qed.

Lemma room_less k k' T : room_for k T → k' ≤ k → room_for k' T.
Proof. intros Ht Hk i h Hi b. specialize (Ht i h Hi b). cbn in Ht. lia. Qed.

Lemma run_counts_ok held cur th cs s :
  kref_inv held s → mgr_held held s → (∀ p c, (p, c) ∈ cs → is_Some (ks_procs s !! p)) →
  Z.of_nat (size (ks_refs s)) + zlen cs < 2 ^ 31 → room_for (zlen cs) (handles s) → (∀ l t, kzalloc_addr l t ≠ None) →
  ∃ s', run_counts cur th cs s = Some ((), s') ∧ kref_inv held s' ∧ table_steps (ks_context_mgr_node s) cs (handles s) (handles s').
Proof.
  revert s. induction cs as [|[p c] cs IH]; intros s Hinv Hm Hps Hsz Hroom Hmem; cbn [run_counts].
  { exists s. split; [done|]. split; [done|]. constructor. }
  destruct (Hps p c) as [k Hk]; [apply elem_of_cons; by left|]. rewrite length_cons in Hsz, Hroom.
  assert (room_for (zlen cs + 1) (handles s)) as Hroom1 by (by replace (zlen cs + 1) with (Z.of_nat (S (length cs))) by lia).
  assert (∃ s1, do_command cur p th (count_command c) s = Some (0, s1) ∧ kref_inv held s1 ∧ kframe s s1 ∧
    (size (ks_refs s1) ≤ S (size (ks_refs s)))%nat ∧ room_for (zlen cs) (handles s1) ∧
    ∀ T, table_steps (ks_context_mgr_node s) cs (handles s1) T → table_steps (ks_context_mgr_node s) ((p, c) :: cs) (handles s) T)
    as (s1 & Hd & Hinv1 & Hfr & Hsz1 & Hr1 & Hst).
  { destruct c as [incr strong desc|strong ptr cookie]; cbn [count_command do_command].
    - destruct (do_ref_run held s p k incr strong desc Hinv Hm Hk) as (s1 & Hd & Hinv1 & Hs); [lia|by eapply room_less; [exact Hroom1|lia]|done|].
      rewrite (kbind_run _ _ _ _ _ Hd). exists s1. split; [done|]. split; [done|]. split; [by eapply do_ref_frame|].
      pose proof Hinv as (Hok & _). pose proof Hinv1 as (Hok1 & _). split.
      + rewrite <- (size_handles _ _ Hok), <- (size_handles _ _ Hok1). by eapply handle_step_size.
      + split; [eapply room_step; [exact Hs|lia|done]|]. intros T HT. by eapply steps_ref.
    - destruct (do_done_run held s p k strong ptr cookie Hinv Hk) as (s1 & Hd & Hinv1 & Hrs).
      rewrite (kbind_run _ _ _ _ _ Hd). exists s1. split; [done|]. split; [done|]. split; [by eapply do_done_frame|].
      split; [rewrite Hrs; lia|]. rewrite (handles_same _ _ Hrs). split; [by eapply room_less; [exact Hroom1|lia]|]. intros T. apply steps_done. }
  rewrite (kbind_run _ _ _ _ _ Hd). destruct Hfr as [Hmgr Hdom]. destruct (IH s1) as (s2 & Hr & Hinv2 & Hs2).
  - done.
  - unfold mgr_held. by rewrite Hmgr.
  - intros q c' Hin. apply elem_of_dom. rewrite Hdom. apply elem_of_dom, (Hps q c'). apply elem_of_cons. by right.
  - lia.
  - done.
  - done.
  - exists s2. split; [done|]. split; [done|]. apply Hst. by rewrite <- Hmgr.
Qed.

(** C3: Whatever sequence of the commands that count references and acknowledge counts the processes
    send, with any handles, addresses and cookies, the driver carries it out without
    touching freed memory, keeps its invariant on nodes and references, and
    changes the handles of the processes the way the table of handles specifies.  This is so as long as there is memory for
    a new reference, and as long as neither the number of references nor a count of a handle, with one for each command
    added, reaches 2^31: the counts are of type [int] and wrap around there. *)
Theorem count_commands_refine_table held cur th cs s :
  kref_inv held s → mgr_held held s → (∀ p c, (p, c) ∈ cs → is_Some (ks_procs s !! p)) →
  Z.of_nat (size (ks_refs s)) + zlen cs < 2 ^ 31 → room_for (zlen cs) (handles s) → (∀ l t, kzalloc_addr l t ≠ None) →
  ∃ s', run_counts cur th cs s = Some ((), s') ∧ kref_inv held s' ∧ table_steps (ks_context_mgr_node s) cs (handles s) (handles s').
Proof. apply run_counts_ok. Qed.

(** C4: As long as there is memory for a new reference and neither the number of references nor a count of a handle can
    reach 2^31 by them, no sequence of such commands takes a node away from a holder inside the driver or from a reference: every held node is
    still there, so is the node of every reference, the reference is on its node's list, and the node's strong
    count is the number of its references that are strong. *)
Theorem counted_nodes_stay held cur th cs s s' :
  kref_inv held s → mgr_held held s → (∀ p c, (p, c) ∈ cs → is_Some (ks_procs s !! p)) →
  Z.of_nat (size (ks_refs s)) + zlen cs < 2 ^ 31 → room_for (zlen cs) (handles s) → (∀ l t, kzalloc_addr l t ≠ None) →
  run_counts cur th cs s = Some ((), s') →
  (∀ n b, 1 ≤ held n b → is_Some (ks_nodes s' !! n)) ∧
  ∀ r x, ks_refs s' !! r = Some x → ∃ n, ks_nodes s' !! r_node x = Some n ∧ r ∈ n_refs n ∧
    n_internal_strong_refs n = strong_count (ks_refs s') (n_refs n).
Proof.
  intros Hinv Hm Hps Hsz Hroom Hmem Hr. destruct (run_counts_ok held cur th cs s Hinv Hm Hps Hsz Hroom Hmem) as (s1 & Hr1 & (Hok & _) & _).
  rewrite Hr in Hr1. injection Hr1 as <-. split; [apply (ro_alive _ _ Hok)|]. intros r x Hx.
  destruct (ro_ref _ _ Hok _ _ Hx) as (_ & _ & _ & _ & n & Hn & Hin). exists n. split; [done|]. split; [done|].
  by destruct (ro_node _ _ Hok _ _ Hn) as (_ & _ & _ & ? & _).
Qed.

(** A process becomes the context manager only when there is none; its node is then
    new, is known to be referred to from inside the driver, strongly and weakly, so that the invariant holds with
    these two holders, and every failure leaves the nodes as they are. *)
Theorem context_manager_set_once held s cur p k :
  kref_inv held s → ks_procs s !! p = Some k →
  ∃ ret s', binder_ioctl_set_ctx_mgr cur p s = Some (ret, s') ∧
    if ret =? 0 then
      let n := ks_context_mgr_node s' in
      ks_context_mgr_node s = 0 ∧ n ≠ 0 ∧ ks_nodes s !! n = None ∧ ks_nodes s' = <[n := mgr_node p]> (ks_nodes s) ∧
      kref_inv (hold (hold held n true 1) n false 1) s'
    else kref_inv held s' ∧ ks_nodes s' = ks_nodes s.
Proof.
  intros Hinv Hk. destruct (set_ctx_mgr_run held s cur p k Hinv Hk) as (ret & s' & Hr & Hc). exists ret, s'. split; [done|].
  destruct Hc as [(Hne & Hc)|(-> & Hc)]; [|done]. by assert ((ret =? 0) = false) as -> by lia.
Qed.

(** Asking for a process's reference on a node gives the one it has; otherwise, unless memory runs out, a new
    one whose handle is the least one the process does not use, counting from 0 for
    the context manager's node and from 1 for any other. *)
Theorem reference_gets_least_handle held s p m k x :
  kref_inv held s → ks_procs s !! p = Some k → ks_nodes s !! m = Some x → Z.of_nat (size (ks_refs s)) < 2 ^ 31 - 1 →
  ∃ r s', binder_get_ref_for_node p m s = Some (r, s') ∧ kref_inv held s' ∧
    if r =? 0 then kzalloc_addr (live s) (ks_tick s) = None ∧ ks_refs s' = ks_refs s
    else ∃ y, ks_refs s' !! r = Some y ∧ r_proc y = p ∧ r_node y = m ∧
           name_step p m (if m =? ks_context_mgr_node s then 0 else 1) (handles s) (r_desc y) (handles s').
Proof.
  intros Hinv Hk Hm Hsz. destruct (get_ref_for_node_run held s p m k x Hinv Hk Hm Hsz) as (r & s' & Hg & Hinv' & Hrn).
  exists r, s'. split; [done|]. split; [done|]. destruct (Z.eqb_spec r 0) as [->|Hr0]; [|by eapply ref_for_node_step].
  pose proof Hinv as (Hok & _). destruct (ro_null _ _ Hok) as (_ & _ & Hz & _).
  destruct Hrn as [(_ & y & Hy & _)|(_ & [(Ha & _ & ->)|(Ha & _)])]; [congruence|done|]. by destruct (kzalloc_fresh _ _ _ Ha).
Qed.

(** When there is no memory for a new reference, counting up on handle 0 dereferences a
    null pointer: the result of the allocation is used before it is tested. *)
Theorem acquire_zero_without_memory_faults held s p k strong x :
  kref_inv held s → ks_procs s !! p = Some k → ks_nodes s !! ks_context_mgr_node s = Some x →
  (∀ q y, ks_refs s !! q = Some y → r_proc y = p → r_node y ≠ ks_context_mgr_node s) →
  kzalloc_addr (live s) (ks_tick s) = None → do_ref p true strong 0 s = None.
Proof.
  intros (Hok & _) Hk Hx Hno Ha. destruct (ro_null _ _ Hok) as (_ & Hn0 & Hr0 & _). unfold do_ref. krun. set (mgr := ks_context_mgr_node s) in *.
  assert (truthy mgr = true) as -> by (unfold truthy; destruct (Z.eqb_spec mgr 0) as [Hz|]; [rewrite Hz in Hx; congruence|done]).
  cbn [Z.eqb andb]. unfold binder_get_ref_for_node. destruct (ro_by_node _ _ Hok _ _ Hk) as (Hs & Hd & Hmem).
  destruct (rb_find_spec (node_key s) mgr _ Hs Hd) as (f & Hf & Hc). destruct Hc as [[Hin Hkey]|[-> _]].
  { apply Hmem in Hin as (y & Hy & Hp). destruct (Hno f y Hy Hp). unfold node_key in Hkey. rewrite Hy in Hkey. by injection Hkey. }
  assert (∀ A (g : Z → KM A), (binder_get_ref_for_node p mgr ≫= g) s = g 0 (set_ks_tick (S (ks_tick s)) s)) as Hbind.
  { intros A g. unfold mbind, KM_bind, binder_get_ref_for_node. erewrite kbind_run by (by eapply proc_at_run). erewrite kbind_run by reflexivity.
    erewrite kbind_run by (apply klift_run; exact Hf). change (truthy 0) with false. cbn iota. rewrite (kbind_run _ _ _ _ _ (kzalloc_run s)).
    by rewrite Ha. }
  unfold mbind at 1, KM_bind at 1. fold (binder_get_ref_for_node p mgr).
  assert ((r ← binder_get_ref_for_node p mgr; _ ← ref_at r; mret r) s = None) as ->; [|done].
  rewrite Hbind. unfold mbind, KM_bind, ref_at. cbn. by rewrite Hr0.
Qed.

End Props.

(** ** Witnesses: the concrete kernel keeps the laws *)

Module KRefsDemo.
Import KAllocDemo DriverDemo.

Lemma max_fold_ge (l : gset Z) x : x ∈ l → x ≤ set_fold Z.max 0 l.
Proof.
  apply (set_fold_ind_L (λ b l, x ∈ l → x ≤ b) Z.max 0); [set_solver|].
  intros y X b Hy IH [->%elem_of_singleton|Hx]%elem_of_union; [lia|]. specialize (IH Hx). lia.
Qed.

#[export] Instance demo_laws mem : KernelLaws (H := demo_kernel mem).
Proof.
  split. intros l t a [= <-]. split.
  - lia.
  - intros Hin%max_fold_ge. lia.
Qed.

(** No holders. *)
Definition none_held (_ : Z) (_ : bool) : Z := 0.

Lemma boot_ok : kref_inv none_held boot.
Proof.
  split; [split; done|]. split; [split|].
  - intros [] l w; cbn; rewrite lookup_empty; done.
  - intros [] l; cbn; rewrite lookup_empty; done.
  - intros q []; cbn; rewrite lookup_empty; done.
  - intros n l. cbn. rewrite lookup_empty. done.
Qed.

(** The holders once the server is the context manager. *)
Definition mgr_holders : Z → bool → Z := hold (hold none_held 1001 true 1) 1001 false 1.


Lemma opened_ok : kref_inv none_held opened.
Proof.
  destruct (open_run none_held boot server boot_ok) as (ret & p & s' & Hr & Hinv & _); [by intros []|].
  unfold opened, after. by rewrite Hr.
Qed.

Definition some_proc : kproc := KState.KProc 0 0 empty_alloc ∅ rb_null rb_null rb_null rb_null false 0 [] [] 0 0 0 0 0.

Lemma managed_ok : kref_inv mgr_holders managed.
Proof.
  destruct (set_ctx_mgr_run none_held opened server 1000 (default some_proc (ks_procs opened !! 1000)) opened_ok) as (ret & s' & Hr & Hc); [reflexivity|].
  assert (s' = managed) as -> by (unfold managed, after; by rewrite Hr).
  assert (ret = 0) as ->.
  { assert (fst <$> binder_ioctl_set_ctx_mgr server 1000 opened = Some 0) as Hz by (vm_compute; reflexivity). rewrite Hr in Hz. by injection Hz. }
  destruct Hc as [[]|(_ & _ & Hn)]; [done|]. cbv zeta in Hn. assert (ks_context_mgr_node managed = 1001) as Hm by (vm_compute; reflexivity).
  rewrite Hm in Hn. apply Hn.
Qed.

Lemma started_ok : kref_inv mgr_holders started ∧ mgr_held mgr_holders started.
Proof.
  destruct (open_run mgr_holders managed client managed_ok) as (ret & p & s' & Hr & Hinv & Hm & _).
  { intros _. assert (ks_context_mgr_node managed = 1001) as -> by (vm_compute; reflexivity). by vm_compute. }
  unfold started, after. by rewrite Hr.
Qed.

(** The client takes handle 0 three times and gives one back; the server acknowledges counts nobody asked for. *)
Definition demo_counts : list (Z * count_cmd) :=
  [(1002, Count_ref true true 0); (1002, Count_ref true true 0); (1002, Count_ref true false 0); (1002, Count_ref false true 0);
   (1002, Count_ref false true 7); (1000, Count_done true 0 0)].

Lemma demo_procs p c : (p, c) ∈ demo_counts → is_Some (ks_procs started !! p).
Proof.
  intros Hin. assert (p = 1002 ∨ p = 1000) as [-> | ->].
  { unfold demo_counts in Hin. rewrite !elem_of_cons in Hin. destruct Hin as [[=]|[[=]|[[=]|[[=]|[[=]|[[=]|Hin]]]]]]; auto. by apply elem_of_nil in Hin. }
  all: eexists; vm_compute; reflexivity.
Qed.

Lemma demo_memory (l : gset Z) (t : nat) : kzalloc_addr l t ≠ None.
Proof. done. Qed.

Lemma demo_room : room_for (zlen demo_counts) (handles started).
Proof. assert (handles started = ∅) as -> by (vm_compute; reflexivity). apply map_Forall_empty. Qed.

Lemma count_commands_refine_table_witness :
  ∃ s', run_counts client 0 demo_counts started = Some ((), s') ∧ kref_inv mgr_holders s' ∧
    table_steps (ks_context_mgr_node started) demo_counts (handles started) (handles s').
Proof.
  apply (count_commands_refine_table mgr_holders client 0 demo_counts started (proj1 started_ok) (proj2 started_ok) demo_procs);
    [vm_compute; reflexivity|exact demo_room|exact demo_memory].
Defined.

Example demo_counts_table :
  (λ r, map_to_list (handles r.2)) <$> run_counts client 0 demo_counts started = Some [((1002, 0), (1001, 1, 1))].
Proof. vm_compute. reflexivity. Qed.

(** The client's reference with its strong count at the greatest [int]: one more count makes it negative,
    and the table of handles no longer says what the driver does. *)
Definition brim : kstate :=
  let s := after (run_counts client 0 demo_counts) started in
  set_ks_refs (set_r_strong (2 ^ 31 - 1) <$> ks_refs s) s.

Example acquire_past_the_greatest_int :
  (λ r, map_to_list (handles r.2)) <$> do_ref 1002 true true 0 brim = Some [((1002, 0), (1001, - 2 ^ 31, 1))].
Proof. vm_compute. reflexivity. Qed.

Definition counted : kstate := after (run_counts client 0 demo_counts) started.

Lemma counted_nodes_stay_witness :
  (∀ n b, 1 ≤ mgr_holders n b → is_Some (ks_nodes counted !! n)) ∧
  ∀ r x, ks_refs counted !! r = Some x → ∃ n, ks_nodes counted !! r_node x = Some n ∧ r ∈ n_refs n ∧
    n_internal_strong_refs n = strong_count (ks_refs counted) (n_refs n).
Proof.
  apply (counted_nodes_stay mgr_holders client 0 demo_counts started counted (proj1 started_ok) (proj2 started_ok) demo_procs);
    [vm_compute; reflexivity|exact demo_room|exact demo_memory|vm_compute; reflexivity].
Defined.

Lemma reference_gets_least_handle_witness :
  ∃ r s', binder_get_ref_for_node 1002 1001 started = Some (r, s') ∧ kref_inv mgr_holders s' ∧
    if r =? 0 then kzalloc_addr (live started) (ks_tick started) = None ∧ ks_refs s' = ks_refs started
    else ∃ y, ks_refs s' !! r = Some y ∧ r_proc y = 1002 ∧ r_node y = 1001 ∧
           name_step 1002 1001 (if 1001 =? ks_context_mgr_node started then 0 else 1) (handles started) (r_desc y) (handles s').
Proof.
  apply (reference_gets_least_handle mgr_holders started 1002 1001 (default some_proc (ks_procs started !! 1002)) (mgr_node 1000) (proj1 started_ok));
    vm_compute; reflexivity.
Defined.

Lemma context_manager_set_once_witness :
  ∃ ret s', binder_ioctl_set_ctx_mgr server 1000 opened = Some (ret, s') ∧
    if ret =? 0 then
      let n := ks_context_mgr_node s' in
      ks_context_mgr_node opened = 0 ∧ n ≠ 0 ∧ ks_nodes opened !! n = None ∧ ks_nodes s' = <[n := mgr_node 1000]> (ks_nodes opened) ∧
      kref_inv (hold (hold none_held n true 1) n false 1) s'
    else kref_inv none_held s' ∧ ks_nodes s' = ks_nodes opened.
Proof.
  apply (context_manager_set_once none_held opened server 1000 (default some_proc (ks_procs opened !! 1000)) opened_ok). vm_compute. reflexivity.
Defined.

(** A kernel out of memory. *)
Definition full_kernel : Kernel := {|
  kzalloc_addr _ _ := None; copy_from_user _ _ _ _ := None; task_euid _ := 0; can_nice _ _ := false; rlimit_nice _ := 0;
  security_binder_set_context_mgr _ := 0; security_binder_transaction _ _ := 0; security_binder_transfer_binder _ _ := 0;
  security_binder_transfer_file _ _ _ := 0; fget _ _ _ := None; get_unused_fd _ _ := 0; alloc_env _ := env; header_garbage _ := junk |}.

Lemma started_no_refs q y : ks_refs started !! q = Some y → r_proc y = 1002 → r_node y ≠ ks_context_mgr_node started.
Proof. assert (ks_refs started = ∅) as -> by (vm_compute; reflexivity). by rewrite lookup_empty. Qed.

Lemma acquire_zero_without_memory_faults_witness : do_ref (H0 := full_kernel) 1002 true true 0 started = None.
Proof.
  apply (acquire_zero_without_memory_faults (H1 := full_kernel) mgr_holders started 1002 (default some_proc (ks_procs started !! 1002)) true
    (mgr_node 1000) (proj1 started_ok)); [vm_compute; reflexivity..|exact started_no_refs|reflexivity].
Defined.

End KRefsDemo.
