(* ===== verification/KReadWords.v ===== *)
(** * Binder driver: the words a read stores

    Storing commands in the user's buffer, as words; every stretch of a read appends whole commands. *)
From stdpp Require Import sorting gmap.
From S2P Require Import Prelude Bio BioProps Binder KAlloc KAllocSpec KState KRefs KTrans KWrite KRead KQueues.

(** ** Inversion of programs *)

Lemma kbind_inv {A B} (m : KM A) (f : A → KM B) s y s' :
  (m ≫= f) s = Some (y, s') → ∃ x s1, m s = Some (x, s1) ∧ f x s1 = Some (y, s').
Proof. unfold mbind, KM_bind. destruct (m s) as [[x s1]|]; [|done]. by eauto. Qed.

Lemma kbind_ext {A B} (m : KM A) (f g : A → KM B) s :
  (∀ x s1, m s = Some (x, s1) → f x s1 = g x s1) → (m ≫= f) s = (m ≫= g) s.
Proof. intros Hfg. unfold mbind, KM_bind. destruct (m s) as [[x s1]|]; [by apply Hfg|done]. Qed.

Ltac kinv Hm x s1 E := apply kbind_inv in Hm as (x & s1 & E & Hm).

Lemma klift_inv {A} (o : option A) s x s' : klift o s = Some (x, s') → o = Some x ∧ s' = s.
Proof. unfold klift. destruct o; [|done]. by intros [= -> ->]. Qed.
Lemma node_at_inv n s x s' : node_at n s = Some (x, s') → ks_nodes s !! n = Some x ∧ s' = s.
Proof. unfold node_at. destruct (ks_nodes s !! n); [|done]. by intros [= -> ->]. Qed.
Lemma trans_at_inv n s x s' : trans_at n s = Some (x, s') → ks_trans s !! n = Some x ∧ s' = s.
Proof. unfold trans_at. destruct (ks_trans s !! n); [|done]. by intros [= -> ->]. Qed.
Lemma thread_at_inv n s x s' : thread_at n s = Some (x, s') → ks_threads s !! n = Some x ∧ s' = s.
Proof. unfold thread_at. destruct (ks_threads s !! n); [|done]. by intros [= -> ->]. Qed.
Lemma proc_at_inv n s x s' : proc_at n s = Some (x, s') → ks_procs s !! n = Some x ∧ s' = s.
Proof. unfold proc_at. destruct (ks_procs s !! n); [|done]. by intros [= -> ->]. Qed.
Lemma death_at_inv n s x s' : death_at n s = Some (x, s') → ks_deaths s !! n = Some x ∧ s' = s.
Proof. unfold death_at. destruct (ks_deaths s !! n); [|done]. by intros [= -> ->]. Qed.

(** ** Words of a block *)

Lemma words_app a b : (length a mod 4 = 0)%nat → words (a ++ b) = words a ++ words b.
Proof.
  intros Hl. remember (length a / 4)%nat as k eqn:Hk. assert (length a = 4 * k)%nat as Ha by (pose proof (Nat.div_mod_eq (length a) 4); lia).
  clear Hl Hk. revert a Ha. induction k as [|k IH]; intros a Ha; [destruct a; [done|simpl in Ha; lia]|].
  destruct a as [|x1 [|x2 [|x3 [|x4 a]]]]; simpl in Ha; try lia. cbn [app words]. rewrite IH by lia. done.
Qed.

Lemma length_words a : length (words a) = (length a / 4)%nat.
Proof.
  remember (length a) as n eqn:Hn. revert a Hn. induction n as [n IH] using lt_wf_ind; intros a ->.
  destruct a as [|x1 [|x2 [|x3 [|x4 a]]]]; try done. cbn [words length]. rewrite (IH (length a)) by (try done; simpl; lia).
  replace (S (S (S (S (length a))))) with (length a + 1 * 4)%nat by lia. rewrite Nat.div_add by lia. lia.
Qed.

Lemma words_encode w : words (le_encode 4 w) = [u32 w].
Proof. cbn [le_encode words]. change [_; _; _; _] with (le_encode 4 w). rewrite le_decode_encode. done. Qed.

(** The block with words stored from word [i] on. *)
Lemma store_words m i w m' :
  mem_write m (4 * Z.of_nat i) (le_encode 4 w) = Some m' →
  (length m mod 4 = 0)%nat → length m' = length m ∧ words m' = take i (words m) ++ u32 w :: drop (S i) (words m).
Proof.
  unfold mem_write, in_block. destruct (_ && _ && _) eqn:E; [|done]. intros Hw Hl. apply (inj Some) in Hw as <-.
  rewrite length_le_encode in *. assert (4 * i + 4 ≤ length m)%nat as Hi by lia.
  replace (Z.to_nat (4 * Z.of_nat i)) with (4 * i)%nat by lia.
  assert (length (take (4 * i) m) = 4 * i)%nat as Ht by (rewrite length_take; lia).
  assert (length (take (4 * i + 4) m) = 4 * i + 4)%nat as Ht4 by (rewrite length_take; lia).
  assert (∀ j, 4 * j ≤ length m → words (take (4 * j) m) = take j (words m) ∧ words (drop (4 * j) m) = drop j (words m))%nat as Hsplit.
  { intros j Hj. assert (length (take (4 * j) m) = 4 * j)%nat as Htj by (rewrite length_take; lia).
    assert (words m = words (take (4 * j) m) ++ words (drop (4 * j) m)) as Hw.
    { rewrite <- words_app by (rewrite Htj, Nat.mul_comm, Nat.Div0.mod_mul; done). by rewrite take_drop. }
    assert (length (words (take (4 * j) m)) = j) as Hwl by (rewrite length_words, Htj, Nat.mul_comm, Nat.div_mul; lia).
    rewrite Hw. by rewrite take_app_length', drop_app_length'. }
  split.
  - rewrite !length_app, Ht, length_le_encode, length_drop. lia.
  - rewrite words_app by (rewrite Ht, Nat.mul_comm, Nat.Div0.mod_mul; done).
    rewrite words_app by (by rewrite length_le_encode). rewrite words_encode.
    replace (4 * i + 4)%nat with (4 * S i)%nat by lia. destruct (Hsplit i) as [-> _]; [lia|]. destruct (Hsplit (S i)) as [_ ->]; [lia|]. done.
Qed.

(** [m'] is [m] with the words [ws] stored from word [i] on. *)
Definition stored (m : list Z) (i : nat) (ws : list Z) (m' : list Z) : Prop :=
  length m' = length m ∧ (i + length ws ≤ length (words m))%nat ∧
  words m' = take i (words m) ++ (u32 <$> ws) ++ drop (i + length ws) (words m).

Lemma stored_nil m i : (i ≤ length (words m))%nat → stored m i [] m.
Proof. intros Hi. split; [done|]. split; [simpl; lia|]. cbn. by rewrite Nat.add_0_r, take_drop. Qed.

Lemma stored_app m i ws1 m1 ws2 m2 :
  stored m i ws1 m1 → stored m1 (i + length ws1) ws2 m2 → stored m i (ws1 ++ ws2) m2.
Proof.
  intros (L1 & B1 & W1) (L2 & B2 & W2). rewrite length_words, L1, <- length_words in B2.
  split; [congruence|]. rewrite length_app. split; [lia|]. rewrite W2, W1, fmap_app.
  assert (length (take i (words m)) = i) as Ht by (rewrite length_take; lia).
  rewrite (app_assoc (take i (words m))). rewrite take_app_length' by (rewrite length_app, Ht, length_fmap; lia).
  rewrite <- !app_assoc. do 3 f_equal. rewrite (app_assoc (take i (words m))), drop_app_ge by (rewrite length_app, Ht, length_fmap; lia).
  rewrite length_app, Ht, length_fmap, drop_drop. f_equal. lia.
Qed.

Lemma stored_lookup m i ws m' j : stored m i ws m' → (j < i ∨ i + length ws ≤ j)%nat → words m' !! j = words m !! j.
Proof.
  intros (_ & B & ->) Hj. assert (length (take i (words m)) = i) as Ht by (rewrite length_take; lia). destruct Hj as [Hj|Hj].
  - rewrite lookup_app_l by lia. by rewrite lookup_take_lt.
  - rewrite lookup_app_r, Ht by lia. rewrite lookup_app_r by (rewrite length_fmap; lia). rewrite length_fmap, lookup_drop. f_equal. lia.
Qed.

(** A store to the first word changes no other. *)
Lemma first_word_lookup m w m' j :
  mem_write m 0 (le_encode 4 w) = Some m' → (length m mod 4 = 0)%nat → (1 ≤ j)%nat → words m' !! j = words m !! j.
Proof.
  intros Hw Hl Hj. destruct (store_words m 0 w m' Hw Hl) as [_ ->]. destruct j as [|j]; [lia|].
  transitivity (drop 1 (words m) !! j); [done|by rewrite lookup_drop].
Qed.

Section Words.
Variable writable : Z → Z → bool.

Lemma put_words_inv ws : ∀ m i s ok m' s', (length m mod 4 = 0)%nat → (i ≤ length (words m))%nat →
  put_words writable m (4 * Z.of_nat i) ws s = Some ((ok, m'), s') →
  s' = s ∧ ∃ n, (n ≤ length ws)%nat ∧ stored m i (take n ws) m' ∧ (ok = true → n = length ws).
Proof.
  induction ws as [|w ws IH]; intros m i s ok m' s' Hl Hi Hp; cbn [put_words] in Hp.
  { injection Hp as <- <- <-. split; [done|]. exists 0%nat. split; [done|]. split; [by apply stored_nil|done]. }
  destruct (writable (4 * Z.of_nat i) 4).
  - kinv Hp m1 s1 E. apply klift_inv in E as [E ->]. destruct (store_words _ _ _ _ E Hl) as [L1 W1].
    assert (i + 1 ≤ length (words m))%nat as Hi1.
    { apply mem_write_inv in E as (_ & Hb & _). rewrite length_le_encode in Hb. rewrite length_words.
      apply Nat.div_le_lower_bound; lia. }
    assert (stored m i [w] m1) as Hs1.
    { split; [done|]. split; [done|]. rewrite W1. replace (i + length [w])%nat with (S i) by (simpl; lia). done. }
    replace (4 * Z.of_nat i + 4) with (4 * Z.of_nat (i + 1)) in Hp by lia.
    destruct (IH m1 (i + 1)%nat s ok m' s') as (-> & n & Hn & Hs & Hok); [by rewrite L1|rewrite length_words, L1, <- length_words; done|done|].
    split; [done|]. exists (S n). split; [simpl; lia|]. split; [|intros Ho; simpl; by rewrite (Hok Ho)].
    by apply (stored_app m i [w] m1 (take n ws)).
  - injection Hp as <- <- <-. split; [done|]. exists 0%nat. split; [lia|]. split; [by apply stored_nil|done].
Qed.

(** ** Stretches of a read *)

(** A stretch from word [i] on, with [N] words in the buffer: one that ends at
    [done] stored the words of whole commands, one that returns a value perhaps part of a command. *)
Definition stretch (N : nat) (good : list Z → Prop) (m : list Z) (i : nat) (st : read_step) : Prop :=
  match st with
  | Step_done ptr m' => ∃ ws, good ws ∧ stored m i ws m' ∧ (i + length ws ≤ N)%nat ∧ ptr = 4 * Z.of_nat (i + length ws)
  | Step_return ret m' => ∃ ws, stored m i ws m' ∧ (i + length ws ≤ N)%nat ∧ ret ≠ 0
  | Step_retry => i = 0%nat
  | Step_fuel => True
  end.

Lemma stretch_mono N (good good' : list Z → Prop) m i st : (∀ ws, good ws → good' ws) → stretch N good m i st → stretch N good' m i st.
Proof. intros Hg. destruct st; cbn; [|done..]. intros (ws & H1 & H2). by exists ws; split; [apply Hg|]. Qed.

Lemma put_cmd_stretch N (good : list Z → Prop) m i ws (k : list Z → Z → KM read_step) s st s' :
  (length m mod 4 = 0)%nat → (i ≤ length (words m))%nat → (i + length ws ≤ N)%nat → (0 < length ws)%nat →
  put_cmd writable m (4 * Z.of_nat i) ws k s = Some (st, s') →
  (∀ m1, length m1 = length m → (i + length ws ≤ length (words m1))%nat → k m1 (4 * Z.of_nat (i + length ws)) s = Some (st, s') →
     stretch N (λ ws', good (ws ++ ws')) m1 (i + length ws) st) →
  stretch N good m i st.
Proof.
  intros Hl Hi HN Hw Hp Hk. unfold put_cmd in Hp. kinv Hp x s1 E. destruct x as [ok m1].
  destruct (put_words_inv ws m i s ok m1 s1 Hl Hi E) as (-> & n & Hn & Hs & Hok).
  destruct ok.
  - rewrite (Hok eq_refl), take_ge in Hs by lia. pose proof Hs as (L1 & B1 & _).
    replace (4 * Z.of_nat i + 4 * zlen ws) with (4 * Z.of_nat (i + length ws)) in Hp by lia.
    specialize (Hk m1 L1). rewrite length_words, L1, <- length_words in Hk. specialize (Hk B1 Hp).
    destruct st as [ptr m2|ret m2| |]; cbn [stretch] in *.
    + destruct Hk as (ws' & Hg & Hs' & HN' & ->). exists (ws ++ ws'). rewrite length_app.
      split; [done|]. split; [by eapply stored_app|]. split; lia.
    + destruct Hk as (ws' & Hs' & HN' & Hr). exists (ws ++ ws'). rewrite length_app. split; [by eapply stored_app|]. split; [lia|done].
    + lia.
    + done.
  - injection Hp as <- <-. cbn. exists (take n ws). rewrite length_take. split; [done|]. split; [lia|done].
Qed.

Lemma done_stretch N (good : list Z → Prop) m i : (i ≤ length (words m))%nat → (i ≤ N)%nat → good [] → stretch N good m i (Step_done (4 * Z.of_nat i) m).
Proof. intros Hi HN Hg. exists []. split; [done|]. split; [by apply stored_nil|]. split; [simpl; lia|]. by rewrite Nat.add_0_r. Qed.

End Words.
