(* ===== verification/KReadProps.v ===== *)
(** * Binder driver: theorems on what a thread reads

    A read stores whole commands, inside the buffer; the commands about a node follow the protocol its owner
    expects; and the request for a thread overwrites the first command. *)
From stdpp Require Import sorting gmap.
From S2P Require Import Prelude Bio BioProps Binder SvcMgr SvcProps SvcRequests BinderProps KAlloc KAllocSpec KState KRefs KTrans KWrite KRead.
From S2P Require Import KAllocProps KProc KDemo KQueues KFrame KReadWords.

(** ** The commands of a read *)

(** What the driver tells a thread: what the servicemanager's parser knows, and two more.  The errors other than [BR_ERROR] are
    among the former. *)
Inductive drv_event :=
| D_event (e : event)
| D_clear_done (cookie : Z)
| D_error.

Section Reads.
Context `{RbTree} `{Kernel} `{BinderApi}.
Variable task_tgid : Z → Z.
Variables (cur : task) (p th : Z) (writable : Z → Z → bool) (size : Z).

Definition drv_words (e : drv_event) : list Z :=
  match e with
  | D_event e => event_words e
  | D_clear_done k => [BR_CLEAR_DEATH_NOTIFICATION_DONE; k]
  | D_error => [BR_ERROR]
  end.

(** Whole commands, with single words the slots for errors may hold. *)
Inductive commands_of (errs : Z → Prop) : list Z → Prop :=
| commands_nil : commands_of errs []
| commands_cons e ws : commands_of errs ws → commands_of errs (drv_words e ++ ws)
| commands_error c ws : errs c → commands_of errs ws → commands_of errs (c :: ws).

(** When these are the values the driver stores there, every word belongs to a command. *)
Lemma commands_known ws : commands_of (λ c, known_error c ∧ c ≠ BR_OK) ws → ∃ es, ws = flat_map drv_words es.
Proof.
  induction 1 as [|e ws _ [es ->]|c ws [Hc Hok] _ [es ->]]; [by exists []|by exists (e :: es)|].
  destruct Hc as [->|[->|[->|[->| ->]]]]; [done|..];
    [exists (D_error :: es)|exists (D_event E_failed_reply :: es)|exists (D_event E_dead_reply :: es)|exists (D_event E_complete :: es)]; done.
Qed.

(** The slots of a thread hold errors from [errs]. *)
Definition slots_fit (errs : Z → Prop) (s : kstate) : Prop :=
  ∀ x, ks_threads s !! th = Some x → (th_return_error x ≠ BR_OK → errs (th_return_error x)) ∧ (th_return_error2 x ≠ BR_OK → errs (th_return_error2 x)).

Lemma slots_fit_known s : slots_known s → slots_fit (λ c, known_error c ∧ c ≠ BR_OK) s.
Proof. intros Hs x Hx. destruct (Hs _ _ Hx). by split. Qed.

Lemma node_command_code x cmd x' : node_command x = Some (cmd, x') → ∃ c, cmd = ref_code c.
Proof.
  unfold node_command. intros Hc. repeat (case_match; try done); injection Hc as <- _;
    [exists R_increfs|exists R_acquire|exists R_release|exists R_decrefs]; done.
Qed.

(** The room a round checks for. *)
Lemma room i N : size = 4 * Z.of_nat N → size < 2 ^ 32 → (i ≤ N)%nat → (u32 (size - 4 * Z.of_nat i) <? 44) = false → (i + 11 ≤ N)%nat.
Proof. intros Hs Hb Hi Hr. rewrite wrap_small in Hr by lia. lia. Qed.

Section Stretches.
Variable N : nat.
Hypothesis Hsize : size = 4 * Z.of_nat N.
Hypothesis Hbound : size < 2 ^ 32.
Variable errs : Z → Prop.
Abbreviation commands_of := (commands_of errs).

Lemma read_transaction_stretch t m i s st s' :
  (length m mod 4 = 0)%nat → (i ≤ length (words m))%nat → (i + 11 ≤ N)%nat →
  read_transaction task_tgid cur p th writable t m (4 * Z.of_nat i) s = Some (st, s') → stretch N commands_of m i st.
Proof.
  intros Hl Hi HN Hr. unfold read_transaction in Hr. kinv Hr x s1 E1. kinv Hr b s2 E2. kinv Hr y s3 E3. kinv Hr c s4 E4.
  destruct c as [[cmd target] cookie]. kinv Hr pid s5 E5. kinv Hr k s6 E6.
  set (ws := cmd :: transaction_words target cookie x y pid _) in Hr.
  assert (∃ e, ws = drv_words (D_event e)) as [e He].
  { assert (cmd = BR_TRANSACTION ∨ cmd = BR_REPLY) as [-> | ->].
    { destruct (truthy (b_target_node y)).
      - kinv E4 n s7 E7. kinv E4 u s8 E8. injection E4 as <- _ _ _. by left.
      - injection E4 as <- _ _ _. by right. }
    - exists (E_transaction (Txn target cookie (t_code x) (t_flags x) pid (t_sender_euid x) (b_data_size y) (b_offsets_size y)
        (u32 (b_data y + p_user_buffer_offset (k_alloc k))) (u32 (u32 (b_data y + p_user_buffer_offset (k_alloc k)) + ALIGN4 (b_data_size y))))). done.
    - exists (E_reply (Txn target cookie (t_code x) (t_flags x) pid (t_sender_euid x) (b_data_size y) (b_offsets_size y)
        (u32 (b_data y + p_user_buffer_offset (k_alloc k))) (u32 (u32 (b_data y + p_user_buffer_offset (k_alloc k)) + ALIGN4 (b_data_size y))))). done. }
  assert (length ws = 11%nat) as Hlen by done.
  eapply (put_cmd_stretch writable N commands_of m i ws _ _ _ _ Hl Hi); [lia|lia|exact Hr|].
  intros m1 L1 B1 Hk. kinv Hk u1 s7 F1. kinv Hk u2 s8 F2. kinv Hk u3 s9 F3. injection Hk as <- <-.
  apply done_stretch; [done|lia|]. rewrite He. apply commands_cons, commands_nil.
Qed.

Lemma read_loop_stretch fuel wait : ∀ m i s st s',
  (length m mod 4 = 0)%nat → (i ≤ length (words m))%nat → (i ≤ N)%nat →
  read_loop task_tgid cur p th writable size fuel wait m (4 * Z.of_nat i) s = Some (st, s') → stretch N commands_of m i st.
Proof.
  induction fuel as [|fuel IH]; intros m i s st s' Hl Hi HN Hr; [by injection Hr as <- <-|]. cbn [read_loop] in Hr. kinv Hr w s1 E1.
  destruct w as [w|].
  2:{ kinv Hr x s2 E2. destruct ((4 * Z.of_nat i =? 0) && _) eqn:Hz; injection Hr as <- <-; [cbn; lia|].
      apply done_stretch; [done|done|apply commands_nil]. }
  destruct (u32 (size - 4 * Z.of_nat i) <? 44) eqn:Hroom.
  { injection Hr as <- <-. apply done_stretch; [done|done|apply commands_nil]. }
  pose proof (room i N Hsize Hbound HN Hroom) as H11.
  destruct w as [t|c|n|d].
  - by eapply read_transaction_stretch.
  - eapply (put_cmd_stretch writable N commands_of m i [BR_TRANSACTION_COMPLETE] _ _ _ _ Hl Hi); [simpl; lia|simpl; lia|exact Hr|].
    intros m1 L1 B1 Hk. kinv Hk u1 s2 F1. kinv Hk u2 s3 F2. simpl length in *.
    eapply stretch_mono; [|eapply IH; [by rewrite L1|done|lia|exact Hk]]. apply (commands_cons _ (D_event E_complete)).
  - unfold read_node in Hr. kinv Hr x s2 E2. destruct (node_command x) as [[cmd x']|] eqn:Hc.
    + kinv Hr u s3 E3. destruct (node_command_code _ _ _ Hc) as [c ->].
      eapply (put_cmd_stretch writable N commands_of m i [ref_code c; n_ptr x; n_cookie x] _ _ _ _ Hl Hi); [simpl; lia|simpl; lia|exact Hr|].
      intros m1 L1 B1 Hk. simpl length in *.
      eapply stretch_mono; [|eapply IH; [by rewrite L1|done|lia|exact Hk]]. apply (commands_cons _ (D_event (E_ref c (n_ptr x) (n_cookie x)))).
    + kinv Hr u s3 E3. kinv Hr u' s4 E4. by eapply IH.
  - unfold read_death in Hr. kinv Hr x s2 E2. destruct (bool_decide _).
    + eapply (put_cmd_stretch writable N commands_of m i [BR_CLEAR_DEATH_NOTIFICATION_DONE; d_cookie x] _ _ _ _ Hl Hi); [simpl; lia|simpl; lia|exact Hr|].
      intros m1 L1 B1 Hk. kinv Hk u1 s3 F1. kinv Hk u2 s4 F2. simpl length in *.
      eapply stretch_mono; [|eapply IH; [by rewrite L1|done|lia|exact Hk]]. apply (commands_cons _ (D_clear_done (d_cookie x))).
    + eapply (put_cmd_stretch writable N commands_of m i [BR_DEAD_BINDER; d_cookie x] _ _ _ _ Hl Hi); [simpl; lia|simpl; lia|exact Hr|].
      intros m1 L1 B1 Hk. kinv Hk u1 s3 F1. kinv Hk u2 s4 F2. injection Hk as <- <-. simpl length in *.
      apply done_stretch; [done|lia|]. apply (commands_cons _ (D_event (E_dead_binder (d_cookie x)))), commands_nil.
Qed.

Lemma read_errors_stretch m i s st s' :
  (length m mod 4 = 0)%nat → (i ≤ length (words m))%nat → (i ≤ N)%nat → slots_fit errs s →
  read_errors th writable size m (4 * Z.of_nat i) s = Some (Some st, s') → stretch N commands_of m i st.
Proof.
  intros Hl Hi HN Hf Hr. unfold read_errors in Hr. kinv Hr x s1 E1. apply thread_at_inv in E1 as [Hx ->]. destruct (Hf _ Hx) as [F1 F2].
  destruct (negb _ && _) eqn:Hc; [|done]. apply andb_true_iff in Hc as [Hne1 Hc]. apply negb_true_iff, Z.eqb_neq in Hne1. assert (i + 1 ≤ N)%nat as Hi1 by lia. kinv Hr st1 s2 E2. injection Hr as <- <-.
  destruct (Z.eqb_spec (th_return_error2 x) BR_OK) as [_|Hne2]; cbn [negb] in E2; cycle 1.
  - eapply (put_cmd_stretch writable N commands_of m i [th_return_error2 x] _ _ _ _ Hl Hi); [simpl; lia|simpl; lia|exact E2|].
    intros m1 L1 B1 Hk. cbn [length] in *. destruct (Z.eqb_spec (4 * Z.of_nat (i + 1)) size) as [Heq|Hne].
    + injection Hk as <- <-. apply done_stretch; [done|lia|]. by apply commands_error, commands_nil; apply F2.
    + kinv Hk u s3 E3. eapply (put_cmd_stretch writable N _ m1 (i + 1) [th_return_error x] _ _ _ _); [by rewrite L1|done|simpl; lia|simpl; lia|exact Hk|].
      intros m2 L2 B2 Hk2. cbn [length] in *. kinv Hk2 u2 s4 E4. injection Hk2 as <- <-. apply done_stretch; [done|lia|].
      apply commands_error; [by apply F2|]. apply commands_error; [by apply F1|apply commands_nil].
  - eapply (put_cmd_stretch writable N commands_of m i [th_return_error x] _ _ _ _ Hl Hi); [simpl; lia|simpl; lia|exact E2|].
    intros m1 L1 B1 Hk. cbn [length] in *. kinv Hk u s3 E3. injection Hk as <- <-. apply done_stretch; [done|lia|].
    apply commands_error; [by apply F1|apply commands_nil].
Qed.

Lemma read_round_stretch j env non_block m i s st s' :
  (length m mod 4 = 0)%nat → (i ≤ length (words m))%nat → (i ≤ N)%nat → slots_fit errs s →
  read_round task_tgid cur p th writable size j env non_block m (4 * Z.of_nat i) s = Some (Some st, s') → stretch N commands_of m i st.
Proof.
  intros Hl Hi HN Hf Hr. unfold read_round in Hr. kinv Hr x s1 E1. apply thread_at_inv in E1 as [_ ->]. cbv zeta in Hr. kinv Hr e s2 E2. destruct e as [st1|].
  { injection Hr as <- <-. by eapply read_errors_stretch. }
  kinv Hr u1 s3 E3. kinv Hr u2 s4 E4. kinv Hr ret s5 E5. destruct ret as [ret|]; [|done]. kinv Hr u3 s6 E6. kinv Hr u4 s7 E7.
  destruct (truthy ret) eqn:Ht.
  - injection Hr as <- <-. exists []. split; [by apply stored_nil|]. split; [simpl; lia|]. intros ->. done.
  - kinv Hr f s8 E8. kinv Hr st2 s9 E9. injection Hr as <- <-. by eapply read_loop_stretch.
Qed.

(** ** The whole read *)

(** What a read may leave: the words [ws] from word [i] on, and the request for a thread in word 0. *)
Definition read_leaves (m : list Z) (i : nat) (ret c : Z) (m' : list Z) : Prop :=
  ∃ ws m1, stored m i ws m1 ∧ (i + length ws ≤ N)%nat ∧ (ret = 0 → commands_of ws) ∧
    (m' = m1 ∨ mem_write m1 0 (le_encode 4 BR_SPAWN_LOOPER) = Some m') ∧ (c = 4 * Z.of_nat (i + length ws) ∨ ret ≠ 0 ∧ c = 4 * Z.of_nat i).

(** The process has all the threads it wants. *)
Definition enough_threads (s : kstate) : Prop := ∀ k, ks_procs s !! p = Some k → k_max_threads k ≤ k_requested_threads_started k.

Lemma read_finish_leaves m i ws m1 ret c m' s s' :
  stored m i ws m1 → commands_of ws → (i + length ws ≤ N)%nat →
  read_finish p th writable (4 * Z.of_nat (i + length ws)) m1 s = Some (Read_done ret c m', s') →
  read_leaves m i ret c m' ∧ c = 4 * Z.of_nat (i + length ws) ∧ (enough_threads s' → ret = 0 ∧ m' = m1).
Proof.
  intros Hs Hg HN Hr. unfold read_finish in Hr. kinv Hr k s1 E1. apply proc_at_inv in E1 as [Hk ->]. kinv Hr x s2 E2.
  apply thread_at_inv in E2 as [Hx ->]. destruct (_ && _ && _) eqn:Hc.
  - kinv Hr u s3 E3. kinv Hr w s4 E4. destruct w as [ok m2]. injection Hr as <- <- <- <-.
    assert (s4 = s3) as ->.
    { cbn [put_words] in E4. destruct (writable 0 4); [|by injection E4]. kinv E4 m3 s5 F. apply klift_inv in F as [_ ->]. by injection E4. }
    split; [|split; [done|]].
    + exists ws, m1. split; [done|]. split; [done|]. split; [done|]. split; [|by left].
      cbn [put_words] in E4. destruct (writable 0 4); [|injection E4 as _ <-; by left]. kinv E4 m3 s5 F. apply klift_inv in F as [F ->].
      injection E4 as _ <-. by right.
    + intros He. unfold upd_proc in E3. rewrite Hk in E3. cbn in E3. injection E3 as _ <-. specialize (He (set_k_requested_threads (k_requested_threads k + 1) k)).
      cbn in He. rewrite lookup_insert_eq in He. specialize (He eq_refl). rewrite !andb_true_iff in Hc. lia.
  - injection Hr as <- <- <- <-. split; [|done]. exists ws, m1. split; [done|]. split; [done|]. split; [done|]. split; [by left|by left].
Qed.

Lemma read_from_leaves retries : ∀ j env non_block m i s ret c m' s',
  (length m mod 4 = 0)%nat → (i ≤ length (words m))%nat → (i ≤ N)%nat →
  ((∀ c, errs c) ∨ slots_known s ∧ tame env ∧ errs = (λ c, known_error c ∧ c ≠ BR_OK)) →
  read_from task_tgid cur p th writable size retries j env non_block m (4 * Z.of_nat i) s = Some (Read_done ret c m', s') →
  read_leaves m i ret c m' ∧
  (ret = 0 → enough_threads s' → ∃ ws, commands_of ws ∧ stored m i ws m' ∧ c = 4 * Z.of_nat (i + length ws)).
Proof.
  induction retries as [|retries IH]; intros j env non_block m i s ret c m' s' Hl Hi HN Hf Hr; cbn [read_from] in Hr;
    kinv Hr st s1 E1; destruct st as [st|]; try done;
    (assert (slots_fit errs s) as Hfit by (destruct Hf as [Hall|(Hs & _ & ->)]; [intros x _; by split|by apply slots_fit_known]));
    pose proof (read_round_stretch _ _ _ _ _ _ _ _ Hl Hi HN Hfit E1) as Hst; destruct st as [ptr m1|ret1 m1| |]; cbn [stretch] in Hst.
  1,5: destruct Hst as (ws & Hg & Hs & HN' & ->);
      destruct (read_finish_leaves _ _ _ _ _ _ _ _ _ Hs Hg HN' Hr) as (HA & HB & HC); split; [done|]; intros _ He; destruct (HC He) as [_ ->]; by exists ws.
  1,4: destruct Hst as (ws & Hs & HN' & Hne); injection Hr as <- <- <- <-; split; [|done];
      exists ws, m1; split; [done|]; split; [done|]; split; [done|]; split; [by left|by right].
  - done.
  - done.
  - eapply IH; [done..| |exact Hr]. destruct Hf as [|(Hs & Ht & He)]; [by left|right]. split; [|done]. by apply (read_round_slots _ _ _ _ _ _ _ _ _ _ _ Ht _ _ _ E1).
  - done.
Qed.

End Stretches.

(** ** Theorems *)

(** C12: A read with a buffer of whole words never stores outside it, whatever work is queued and whatever the other threads do meanwhile: in a larger block
    the words behind the buffer stay, the words of earlier reads but the first stay, and the number of bytes it reports lies
    between what was there and the size of the buffer. *)
Theorem read_stays_in_buffer N retries env non_block m i s ret c m' s' :
  size = 4 * Z.of_nat N → (1 ≤ N)%nat → size < 2 ^ 32 → (length m mod 4 = 0)%nat → (N ≤ length (words m))%nat → (i ≤ N)%nat →
  binder_thread_read task_tgid cur p th writable size retries env non_block m (4 * Z.of_nat i) s = Some (Read_done ret c m', s') →
  4 * Z.of_nat i ≤ c ≤ size ∧ length m' = length m ∧ drop N (words m') = drop N (words m) ∧
  drop 1 (take i (words m')) = drop 1 (take i (words m)).
Proof.
  intros Hs H1N Hb Hl HN Hi Hr. assert (i ≤ length (words m))%nat as Hi' by lia.
  destruct (read_from_leaves N Hs Hb (λ _, True) _ _ _ _ _ _ _ _ _ _ _ Hl Hi' Hi (or_introl (λ _, I)) Hr) as [(ws & m1 & Hst & Hlen & _ & Hm & Hc) _].
  assert (length m' = length m ∧ ∀ j, (1 ≤ j)%nat → words m' !! j = words m1 !! j) as [Hlm Hj].
  { pose proof Hst as (L1 & _). destruct Hm as [->|Hw]; [done|]. split; [apply mem_write_inv in Hw as (_ & _ & Hw & _); congruence|].
    intros j. by apply (first_word_lookup m1 _ m' j Hw); rewrite L1. }
  split; [lia|]. split; [done|]. split; apply list_eq; intros j.
  - rewrite !lookup_drop, Hj by lia. by apply (stored_lookup m i ws); [|lia].
  - rewrite !lookup_drop. destruct (decide (1 + j < i)%nat) as [Hlt|Hge]; [|by rewrite !lookup_take_ge by lia].
    rewrite !lookup_take_lt, Hj by lia. by apply (stored_lookup m i ws); [|lia].
Qed.

(** C7: What a read into an empty buffer leaves, when no thread is asked for, is a sequence of whole commands, each with all its words; if the commands are ones
    the servicemanager's parser knows, the parser does what they mean, one by one and in order.  The slots for errors have to hold values the
    driver stores there, and the other threads have to keep it so while the reader waits, as every operation of the driver does. *)
Theorem driver_reads_are_parsed {W} `{BinderClient W} `{!BinderReturnsLaws} N retries env non_block m s c m' s' :
  size = 4 * Z.of_nat N → size < 2 ^ 32 → (length m mod 4 = 0)%nat → enough_threads s' → slots_known s → tame env →
  binder_thread_read task_tgid cur p th writable size retries env non_block m 0 s = Some (Read_done 0 c m', s') →
  ∃ es, c = 4 * zlen (flat_map drv_words es) ∧ c ≤ size ∧
    words m' = (u32 <$> flat_map drv_words es) ++ drop (length (flat_map drv_words es)) (words m) ∧
    ∀ evs bio func mp rdata w, es = D_event <$> evs → Forall (λ v, 0 ≤ v < 2 ^ 32) (events_words evs) →
      binder_parse bio func mp rdata (words m') c w = run_events bio func mp rdata evs w.
Proof.
  intros Hs Hb Hl He Hsl Ht Hr. change 0 with (4 * Z.of_nat 0) in Hr at 1.
  destruct (read_from_leaves N Hs Hb (λ c, known_error c ∧ c ≠ BR_OK) retries 0 env non_block m 0 s 0 c m' s' Hl ltac:(lia) ltac:(lia)
    (or_intror (conj Hsl (conj Ht eq_refl))) Hr) as [HA HB].
  destruct (HB eq_refl He) as (ws & Hcmds & Hst & Hc). apply commands_known in Hcmds as [es ->]. destruct HA as (ws2 & m2 & _ & Hlen & _ & _ & Hc2).
  exists es. pose proof Hst as (_ & _ & Hw). cbn [take app] in Hw. split; [lia|]. split; [lia|]. split; [done|].
  intros evs bio func mp rdata w -> Hrange. rewrite Hw.
  assert (∀ l, flat_map drv_words (D_event <$> l) = events_words l) as Hfm.
  { intros l. induction l as [|e l IH]; [done|]. cbn. by rewrite IH. }
  rewrite Hfm in *. assert (u32 <$> events_words evs = events_words evs) as ->.
  { clear -Hrange. induction Hrange as [|v l Hv _ IH]; [done|]. cbn. rewrite IH, wrap_small by lia. done. }
  apply binder_parse_events. rewrite Hc. rewrite Z.mul_comm, Z.div_mul by done. lia.
Qed.

(** The transaction as the reader is given it. *)
Definition txn_of (target cookie pid off : Z) (x : struct_transaction) (y : binder_buffer) : binder_txn :=
  Txn target cookie (t_code x) (t_flags x) pid (t_sender_euid x) (b_data_size y) (b_offsets_size y)
    (u32 (b_data y + off)) (u32 (u32 (b_data y + off) + ALIGN4 (b_data_size y))).

(** Taking over the caller's priority changes no thread and no process. *)
Lemma adopt_priority_keeps t n s u s' :
  adopt_priority cur t n s = Some (u, s') → ks_threads s' = ks_threads s ∧ ks_procs s' = ks_procs s.
Proof.
  intros Ha. unfold adopt_priority in Ha. kinv Ha v s1 E1. injection E1 as _ <-. kinv Ha v2 s2 E2. unfold upd_trans in E2.
  destruct (ks_trans s !! t) as [x|]; [|done]. injection E2 as _ <-. kinv Ha y s3 E3. apply trans_at_inv in E3 as [_ ->].
  unfold binder_set_nice in Ha. repeat case_match; by injection Ha as _ <-.
Qed.

Lemma sender_pid_ext from s s' pid u :
  ks_threads s' = ks_threads s → ks_procs s' = ks_procs s → sender_pid task_tgid from s' = Some (pid, u) → sender_pid task_tgid from s = Some (pid, s).
Proof.
  intros Ht Hp Hs. unfold sender_pid in *. destruct (truthy from); [|by injection Hs as <- _].
  kinv Hs y s1 E1. apply thread_at_inv in E1 as [Hy ->]. kinv Hs k s2 E2. apply proc_at_inv in E2 as [Hk ->].
  rewrite Ht in Hy. rewrite Hp in Hk. injection Hs as <- _. krun. by krun.
Qed.

Lemma read_transaction_words t m s c m' s' :
  (length m mod 4 = 0)%nat → read_transaction task_tgid cur p th writable t m 0 s = Some (Step_done c m', s') →
  ∃ x b y pid target cookie off, ks_trans s !! t = Some x ∧ t_buffer x = Some b ∧ buffer_at b s = Some (y, s) ∧ c = 44 ∧
    sender_pid task_tgid (t_from x) s = Some (pid, s) ∧ (∃ k, ks_procs s !! p = Some k ∧ off = p_user_buffer_offset (k_alloc k)) ∧
    (b_target_node y ≠ 0 → ∃ n, ks_nodes s !! b_target_node y = Some n ∧ target = n_ptr n ∧ cookie = n_cookie n) ∧
    stored m 0 (event_words ((if truthy (b_target_node y) then E_transaction else E_reply) (txn_of target cookie pid off x y))) m'.
Proof.
  intros Hl Hr. unfold read_transaction in Hr. kinv Hr x s1 E1. apply trans_at_inv in E1 as [Hx ->]. kinv Hr b s2 E2. apply klift_inv in E2 as [Hb ->].
  kinv Hr y s3 E3. assert (s3 = s) as ->.
  { unfold buffer_at in E3. pose proof E3 as E3'. kinv E3' k0 s4 F1. apply proc_at_inv in F1 as [_ ->]. by apply klift_inv in E3' as [_ ->]. }
  kinv Hr cc s4 E4. destruct cc as [[cmd target] cookie]. kinv Hr pid s5 E5. kinv Hr k s6 E6.
  assert (ks_threads s4 = ks_threads s ∧ ks_procs s4 = ks_procs s) as [Ht4 Hp4].
  { destruct (truthy _); [|by injection E4 as _ _ _ <-]. kinv E4 n s7 E7. apply node_at_inv in E7 as [_ ->]. kinv E4 u s8 E8.
    injection E4 as _ _ _ <-. by apply adopt_priority_keeps in E8. }
  pose proof (sender_pid_ext _ _ _ _ _ Ht4 Hp4 E5) as Hpid. assert (s5 = s4) as ->.
  { pose proof (sender_pid_ext (t_from x) s4 s4 pid s5 eq_refl eq_refl E5). congruence. }
  apply proc_at_inv in E6 as [Hk ->]. rewrite Hp4 in Hk.
  set (off := p_user_buffer_offset (k_alloc k)) in Hr. exists x, b, y, pid, target, cookie, off. split; [done|]. split; [done|]. split; [done|].
  assert (cmd = (if truthy (b_target_node y) then BR_TRANSACTION else BR_REPLY) ∧
    (b_target_node y ≠ 0 → ∃ n, ks_nodes s !! b_target_node y = Some n ∧ target = n_ptr n ∧ cookie = n_cookie n)) as [-> Hn].
  { destruct (truthy (b_target_node y)) eqn:Ht.
    - kinv E4 n s7 E7. apply node_at_inv in E7 as [Hn ->]. kinv E4 u s8 E8. injection E4 as <- <- <- _. split; [done|]. by exists n.
    - injection E4 as <- _ _ _. split; [done|]. intros Hne. unfold truthy in Ht. lia. }
  unfold put_cmd in Hr. kinv Hr w s7 E7. destruct w as [ok m1].
  destruct (put_words_inv writable _ m 0 s4 ok m1 s7 Hl ltac:(lia) E7) as (-> & n & Hlen & Hst & Hok).
  destruct ok; [|done]. rewrite (Hok eq_refl), take_ge in Hst by lia. kinv Hr u1 s8 F1. kinv Hr u2 s9 F2. kinv Hr u3 s10 F3.
  injection Hr as <- <- _. split; [done|]. split; [done|]. split; [by exists k|]. split; [done|]. by destruct (truthy (b_target_node y)).
Qed.

(** When the driver wants the process to start another thread it stores the request
    to the first word of the buffer: the command that a read stored there is lost, though its work is done, since the no-op that used to be there
    is no longer written. *)
Theorem spawn_request_overwrites_first_command ptr m s k x :
  ks_procs s !! p = Some k → ks_threads s !! th = Some x → k_requested_threads k + k_ready_threads k = 0 →
  k_requested_threads_started k < k_max_threads k → has_flag (th_looper x) (LOOPER_REGISTERED ||| LOOPER_ENTERED) = true →
  writable 0 4 = true → (length m mod 4 = 0)%nat → 4 ≤ zlen m →
  ∃ m' s', read_finish p th writable ptr m s = Some (Read_done 0 ptr m', s') ∧ words m' = u32 BR_SPAWN_LOOPER :: drop 1 (words m).
Proof.
  intros Hk Hx Hr0 Hmax Hloop Hwr Hl Hlen. unfold read_finish. krun. krun. rewrite Hr0, Hloop. change (0 =? 0) with true.
  assert ((k_requested_threads_started k <? k_max_threads k) = true) as -> by lia. cbn [andb]. krun.
  destruct (mem_write_Some m 0 (le_encode 4 BR_SPAWN_LOOPER)) as [m' Hm]; [lia|rewrite length_le_encode; lia|].
  eexists m', _. split; [|by destruct (store_words m 0 _ m' Hm Hl) as [_ ->]].
  erewrite kbind_run; [|cbn [put_words]; rewrite Hwr; erewrite kbind_run by (apply klift_run; exact Hm); reflexivity]. done.
Qed.

End Reads.

(** ** What the owner of a node is told *)

Section Owner.
Context `{BinderApi}.

(** The owner's view of a node: whether it holds it weakly and strongly for the driver.  It is told to take a weak reference before
    a strong one and to drop the strong one first. *)
Inductive owner_step : ref_cmd → bool * bool → bool * bool → Prop :=
| owner_increfs : owner_step R_increfs (false, false) (true, false)
| owner_acquire : owner_step R_acquire (true, false) (true, true)
| owner_release : owner_step R_release (true, true) (true, false)
| owner_decrefs : owner_step R_decrefs (true, false) (false, false).

Definition owner_view (x : binder_node) : bool * bool := (n_has_weak_ref x, n_has_strong_ref x).

(** All commands for a node until there are none, at most [fuel]. *)
Fixpoint node_reports (fuel : nat) (x : binder_node) : option (list Z * binder_node) :=
  match node_command x, fuel with
  | None, _ => Some ([], x)
  | Some _, O => None
  | Some (cmd, x'), S fuel => '(cs, y) ← node_reports fuel x'; Some (cmd :: cs, y)
  end.

Inductive owner_steps : list ref_cmd → bool * bool → bool * bool → Prop :=
| owner_nil v : owner_steps [] v v
| owner_cons c cs v1 v2 v3 : owner_step c v1 v2 → owner_steps cs v2 v3 → owner_steps (c :: cs) v1 v3.

(** The commands about a node come to an end after at most two, they follow the
    owner's protocol, and at the end the owner holds the node exactly as strongly as it is
    referred to. *)
Theorem node_reports_settle x :
  implb (n_has_strong_ref x) (n_has_weak_ref x) = true → 0 ≤ n_local_strong_refs x < 2 ^ 31 - 1 → 0 ≤ n_local_weak_refs x < 2 ^ 31 - 1 →
  ∃ cs y, node_reports 2 x = Some (ref_code <$> cs, y) ∧ owner_steps cs (owner_view x) (owner_view y) ∧
    n_has_strong_ref y = (truthy (n_internal_strong_refs x) || truthy (n_local_strong_refs x)) ∧
    n_has_weak_ref y = (negb (bool_decide (n_refs x = [])) || truthy (n_local_weak_refs x) || n_has_strong_ref y).
Proof.
  destruct x as [pr refs i lw ls pt ck hs ps hw pw ha af mp at_ en]. cbn [n_has_strong_ref n_has_weak_ref n_local_strong_refs n_local_weak_refs n_internal_strong_refs n_refs owner_view].
  intros Hsw Hls Hlw. assert (truthy (s32 (ls + 1)) = true ∧ truthy (s32 (lw + 1)) = true) as [Tls Tlw] by (rewrite !(signed_small 32) by lia; unfold truthy; lia).
  destruct (truthy i || truthy ls) eqn:Es, (negb (bool_decide (refs = [])) || truthy lw) eqn:Ew, hs, hw; try done;
    [exists []|exists [R_acquire]|exists [R_increfs; R_acquire]|exists []|exists [R_acquire]|exists [R_increfs; R_acquire]|
     exists [R_release]|exists []|exists [R_increfs]|exists [R_release; R_decrefs]|exists [R_decrefs]|exists []];
    unfold node_reports, node_command;
    repeat progress (cbn; rewrite ?Es, ?Ew, ?Tls, ?Tlw, ?orb_true_r, ?andb_true_r, ?andb_false_r);
    (eexists; split; [reflexivity|]; split; [|split; done]); repeat econstructor.
Qed.

End Owner.

(** ** Witnesses *)

Module KReadDemo.
Import KAllocDemo DriverDemo.

Definition server_read (retries : nat) (s : kstate) : option (read_result * kstate) :=
  binder_thread_read (λ x, x) server 1000 server_thread anyone 128 retries alone false blank 0 s.

(** The buffer, the bytes and the state of a read that is done. *)
Definition done_buffer (r : option (read_result * kstate)) : list Z := match r with Some (Read_done _ _ m, _) => m | _ => [] end.
Definition done_state (r : option (read_result * kstate)) : kstate := match r with Some (_, s) => s | _ => boot end.

Lemma read_stays_in_buffer_witness :
  4 * Z.of_nat 0 ≤ 44 ≤ 128 ∧ length (done_buffer (server_read 0 called)) = length blank ∧
  drop 32 (words (done_buffer (server_read 0 called))) = drop 32 (words blank) ∧
  drop 1 (take 0 (words (done_buffer (server_read 0 called)))) = drop 1 (take 0 (words blank)).
Proof.
  apply (read_stays_in_buffer (λ x, x) server 1000 server_thread anyone 128 32 0 alone false blank 0 called 0 44
    (done_buffer (server_read 0 called)) (done_state (server_read 0 called)));
    [reflexivity|lia|reflexivity|reflexivity|vm_compute; lia|lia|vm_compute; reflexivity].
Defined.

#[local] Instance quiet_client : BinderClient unit := {|
  binder_write _ w := w; client_handler _ _ reply w := Some (0, reply, w); client_death _ w := Some w |}.

#[local] Instance demo_returns_laws : BinderReturnsLaws (H := demo_returns).
Proof. split. apply (bool_decide_unpack _). vm_compute. done. Qed.

Lemma no_threads_wanted : enough_threads 1000 (done_state (server_read 0 called)).
Proof.
  assert (k_max_threads <$> ks_procs (done_state (server_read 0 called)) !! 1000 = Some 0) as Hm by (vm_compute; reflexivity).
  assert (k_requested_threads_started <$> ks_procs (done_state (server_read 0 called)) !! 1000 = Some 0) as Hr by (vm_compute; reflexivity).
  unfold enough_threads. revert Hm Hr. generalize (ks_procs (done_state (server_read 0 called)) !! 1000). intros o Hm Hr k ->.
  injection Hm as ->. injection Hr as ->. lia.
Qed.

Lemma called_slots : slots_known called.
Proof.
  apply (map_Forall_to_list (λ _ x, known_error (th_return_error x) ∧ known_error (th_return_error2 x))).
  assert (map_to_list (ks_threads called) = map_to_list (ks_threads called)) as E by done. revert E.
  generalize (map_to_list (ks_threads called)) at 2. intros l. vm_compute (map_to_list (ks_threads called)). intros <-.
  repeat constructor; by left.
Qed.

Lemma alone_tame : tame alone.
Proof. intros i. apply (driver_keeps_slots (λ x, x)), op_nothing. Qed.

Lemma driver_reads_are_parsed_witness :
  ∃ es, 44 = 4 * zlen (flat_map drv_words es) ∧ 44 ≤ 128.
Proof.
  destruct (driver_reads_are_parsed (λ x, x) server 1000 server_thread anyone 128 32 0 alone false blank called 44
    (done_buffer (server_read 0 called)) (done_state (server_read 0 called))) as (es & Hc & Hs & _);
    [reflexivity|reflexivity|reflexivity|exact no_threads_wanted|exact called_slots|exact alone_tame|vm_compute; reflexivity|]. by exists es.
Defined.

Lemma spawn_request_overwrites_first_command_witness :
  ∃ m' s', read_finish 1000 server_thread anyone 44 (done_buffer (server_read 0 called)) eager = Some (Read_done 0 44 m', s') ∧
    words m' = u32 BR_SPAWN_LOOPER :: drop 1 (words (done_buffer (server_read 0 called))).
Proof.
  eapply (spawn_request_overwrites_first_command 1000 server_thread anyone 44 (done_buffer (server_read 0 called)) eager);
    vm_compute; first [reflexivity|discriminate].
Defined.

Definition referred : binder_node := set_n_refs [1005] (new_node 1000 0 0).

Lemma node_reports_settle_witness :
  ∃ cs y, node_reports 2 referred = Some (ref_code <$> cs, y) ∧ owner_steps cs (owner_view referred) (owner_view y).
Proof.
  destruct (node_reports_settle referred) as (cs & y & Hr & Ho & _); [reflexivity|done|done|]. by exists cs, y.
Defined.

End KReadDemo.
