(* ===== verification/KWriteProps.v ===== *)
(** * Binder driver: theorems on commands and failures

    The loop over a thread's commands ends and stays close to its buffer; a failed call is
    reported to the nearest caller that is still there. *)
From stdpp Require Import sorting gmap.
From S2P Require Import Prelude Bio BioProps Binder KAlloc KAllocSpec KAllocProps KState KRefs KTrans KWrite KRead KProc KDemo KQueues KRefsSpec KRefsInv KRefsOps KRefsRun KReadWords.

Section Writes.
Context `{RbTree} `{Kernel} `{BinderApi}.

(** ** The loop over the commands *)

Lemma shape_range cmd : 0 ≤ (shape_of cmd).1 ≤ 10.
Proof. unfold shape_of. repeat (case_match; try (cbn; lia)). Qed.

Lemma fetch_command_size cur addr s c n s' : fetch_command cur addr s = Some (Some (c, n), s') → 4 ≤ n ≤ 44.
Proof.
  intros Hf. unfold fetch_command in Hf. kinv Hf w s1 E1. destruct w as [[|cmd [|]]|]; try done.
  pose proof (shape_range cmd) as Hs. destruct (shape_of cmd) as [k build]. cbn in Hs.
  destruct (k =? 0).
  - injection Hf as Hf _. destruct (build []); [|done]. cbn in Hf. injection Hf as _ <-. lia.
  - kinv Hf ws s2 E2. injection Hf as Hf _. destruct ws as [ws|]; [|done]. cbn in Hf. destruct (build ws); [|done]. cbn in Hf. injection Hf as _ <-. lia.
Qed.

Lemma write_loop_fuel cur p th buffer size fuel1 : ∀ fuel2 consumed s,
  size - consumed ≤ Z.of_nat fuel1 → size - consumed ≤ Z.of_nat fuel2 →
  write_loop fuel1 cur p th buffer size consumed s = write_loop fuel2 cur p th buffer size consumed s.
Proof.
  induction fuel1 as [|fuel1 IH]; intros fuel2 consumed s F1 F2; destruct fuel2 as [|fuel2]; cbn [write_loop];
    apply kbind_ext; intros x s1 _; destruct (Z.ltb_spec consumed size) as [Hlt|Hge]; cbn [andb]; try reflexivity; try lia.
  destruct (th_return_error x =? BR_OK); [|done]. apply kbind_ext. intros c s2 Hf. destruct c as [[c n]|]; [|done].
  apply kbind_ext. intros ret s3 _. destruct (ret <? 0); [done|]. apply fetch_command_size in Hf. apply IH; lia.
Qed.

Lemma write_loop_consumed cur p th buffer size fuel : ∀ consumed s ret c s',
  write_loop fuel cur p th buffer size consumed s = Some ((ret, c), s') → consumed ≤ c ∧ (c = consumed ∨ c < size + 44).
Proof.
  induction fuel as [|fuel IH]; intros consumed s ret c s' Hr; cbn [write_loop] in Hr; kinv Hr x s1 E1; destruct (Z.ltb_spec consumed size) as [Hlt|Hge]; cbn [andb] in Hr;
    try (destruct (th_return_error x =? BR_OK)); try done; try (injection Hr as _ <- _; lia).
  kinv Hr o s2 E2. destruct o as [[cmd n]|]; [|injection Hr as _ <- _; lia]. kinv Hr r s3 E3. apply fetch_command_size in E2.
  destruct (r <? 0); [injection Hr as _ <- _; lia|]. apply IH in Hr. lia.
Qed.

(** The loop over the commands of a write ends: each command takes at least four bytes, so
    more rounds than there are bytes left change nothing, whatever the commands are and do. *)
Theorem write_loop_ends cur p th buffer size consumed s extra :
  write_loop (Z.to_nat (size - consumed) + extra) cur p th buffer size consumed s = binder_thread_write cur p th buffer size consumed s.
Proof. apply write_loop_fuel; lia. Qed.

(** A write reports at least the bytes it started with, and never more than the buffer and one command that begins inside it: the
    driver tests where a command begins, not where it ends. *)
Theorem write_consumes_within_a_command cur p th buffer size consumed s ret c s' :
  consumed ≤ size → binder_thread_write cur p th buffer size consumed s = Some ((ret, c), s') → consumed ≤ c < size + 44.
Proof. intros Hle Hr. apply write_loop_consumed in Hr. lia. Qed.

(** ** Failed calls *)

(** The buffer of a transaction, if any, is there. *)
Definition buffer_there (s : kstate) (b : Z * Z) : Prop := ∃ k y, ks_procs s !! b.1 = Some k ∧ buf_at (p_buffers (k_alloc k)) b.2 = Some y.

Lemma buf_at_upd f x l z : (∀ b, b_addr (f b) = b_addr b) → is_Some (buf_at l z) → is_Some (buf_at (upd_buf f x l) z).
Proof.
  intros Hf. induction l as [|b l IH]; [done|]. cbn. destruct (Z.eqb_spec (b_addr b) x), (Z.eqb_spec (b_addr b) z); cbn; rewrite ?Hf.
  - intros _. destruct (Z.eqb_spec (b_addr b) z); [by eexists|lia].
  - destruct (Z.eqb_spec (b_addr b) z); [lia|done].
  - intros _. destruct (Z.eqb_spec (b_addr b) z); [by eexists|lia].
  - destruct (Z.eqb_spec (b_addr b) z); [lia|done].
Qed.

(** Stores that lose no buffer and have no effect outside. *)
Definition buffers_kept (s s' : kstate) : Prop := (∀ b, buffer_there s b → buffer_there s' b) ∧ ks_events s' = ks_events s.

Lemma detach_run s b :
  buffer_there s b → ∃ s', detach_buffer b s = Some ((), s') ∧ ks_trans s' = ks_trans s ∧ ks_threads s' = ks_threads s ∧ buffers_kept s s'.
Proof.
  intros (k & y & Hk & Hy). unfold detach_buffer, upd_buffer, buffer_at. eexists. split.
  { erewrite kbind_run; [|erewrite kbind_run by (by eapply proc_at_run); by apply klift_run]. by apply upd_proc_run. }
  split; [done|]. split; [done|]. split; [|done]. intros c (k' & y' & Hk' & Hy'). destruct (decide (b.1 = c.1)) as [He|Hne].
  - rewrite <- He in Hk'. assert (k' = k) as -> by congruence. eassert (is_Some _) as [y2 Hy2]; [eapply (buf_at_upd _ b.2); [|by exists y'; exact Hy']|].
    2:{ eexists _, y2. cbn. rewrite <- He, lookup_insert_eq. split; [reflexivity|exact Hy2]. }
    done.
  - exists k', y'. cbn. by rewrite lookup_insert_ne.
Qed.

Definition trans_ok (s : kstate) (x : struct_transaction) : Prop := ∀ b, t_buffer x = Some b → buffer_there s b.

Lemma pop_tail_run s t x :
  ks_trans s !! t = Some x → trans_ok s x →
  ∃ s', (_ ← upd_trans t (set_t_need_reply false); y ← trans_at t;
         _ ← match t_buffer y with Some b => detach_buffer b | None => mret () end; kfree_trans t) s = Some ((), s') ∧
    ks_trans s' = delete t (ks_trans s) ∧ ks_threads s' = ks_threads s ∧ buffers_kept s s'.
Proof.
  intros Hx Hb. krun. set (x1 := set_t_need_reply false x). set (s1 := set_ks_trans _ s).
  assert (ks_trans s1 !! t = Some x1) as Hx1 by (cbn; by rewrite lookup_insert_eq). krun.
  assert (∃ s2, match t_buffer x1 with Some b => detach_buffer b | None => mret () end s1 = Some ((), s2) ∧ ks_trans s2 = ks_trans s1 ∧
    ks_threads s2 = ks_threads s1 ∧ buffers_kept s1 s2) as (s2 & Hs2 & T2 & Th2 & K2).
  { cbn [x1 set_t_need_reply t_buffer]. destruct (t_buffer x) as [b|] eqn:E.
    - destruct (detach_run s1 b) as (s2 & ? & ? & ? & ?); [exact (Hb b E)|]. by exists s2.
    - exists s1. split; [done|]. split; [done|]. split; [done|]. by split. }
  rewrite (kbind_run _ _ _ _ _ Hs2). unfold kfree_trans. assert (ks_trans s2 !! t = Some x1) as Hx2 by (by rewrite T2). krun.
  eexists. split; [reflexivity|]. cbn. split; [rewrite T2; cbn; apply delete_insert_eq|]. split; [by rewrite Th2|]. exact K2.
Qed.

Lemma pop_dead_run s t x :
  ks_trans s !! t = Some x → trans_ok s x →
  ∃ s', binder_pop_transaction 0 t s = Some ((), s') ∧ ks_trans s' = delete t (ks_trans s) ∧ ks_threads s' = ks_threads s ∧ buffers_kept s s'.
Proof.
  intros Hx Hb. unfold binder_pop_transaction. change (truthy 0) with false. cbn iota. rewrite (kbind_run _ _ _ () s) by done. by apply (pop_tail_run s t x).
Qed.

Lemma pop_live_run s t x th z :
  ks_trans s !! t = Some x → trans_ok s x → th ≠ 0 → t_from x = th → ks_threads s !! th = Some z → th_transaction_stack z = t →
  ∃ s', binder_pop_transaction th t s = Some ((), s') ∧ ks_trans s' = delete t (ks_trans s) ∧
    ks_threads s' = <[th := set_th_transaction_stack (t_from_parent x) z]> (ks_threads s) ∧ ks_events s' = ks_events s.
Proof.
  intros Hx Hb Hth Hf Hz Hst. unfold binder_pop_transaction. assert (truthy th = true) as -> by (unfold truthy; lia).
  set (s1 := set_ks_threads (<[th := set_th_transaction_stack (t_from_parent x) z]> (ks_threads s)) s).
  set (s2 := set_ks_trans (<[t := set_t_from 0 x]> (ks_trans s)) s1).
  assert (ks_trans s2 !! t = Some (set_t_from 0 x)) as Hx2 by (cbn; by rewrite lookup_insert_eq).
  destruct (pop_tail_run s2 t _ Hx2 Hb) as (s' & Hr & T & Th & _ & Ev). exists s'. split.
  - rewrite (kbind_run _ _ s () s2); [exact Hr|]. krun. rewrite Hst, Z.eqb_refl. rewrite (kbind_run _ _ s () s) by done. krun.
    rewrite Hf, Z.eqb_refl. rewrite (kbind_run _ _ s () s) by done. krun.
    by apply (upd_trans_run t (set_t_from 0) x s1).
  - split; [rewrite T; cbn; apply delete_insert_eq|]. by rewrite Th, Ev.
Qed.

(** From [t] up to [u] by way of calls whose callers are gone. *)
Inductive dead_chain (s : kstate) : Z → list Z → Z → Prop :=
| chain_here u : dead_chain s u [] u
| chain_up t x ts u : ks_trans s !! t = Some x → t_from x = 0 → t_from_parent x ≠ 0 → trans_ok s x → t ∉ ts → t ≠ u →
    dead_chain s (t_from_parent x) ts u → dead_chain s t (t :: ts) u.

Lemma dead_chain_mono s s' t ts u :
  dead_chain s t ts u → (∀ a, a ∈ ts → ks_trans s' !! a = ks_trans s !! a) → buffers_kept s s' → dead_chain s' t ts u.
Proof.
  intros Hc. induction Hc as [|t x ts u Hx Hf Hp Hb Hn Hu Hc IH]; intros Heq Hk; [constructor|].
  econstructor; [rewrite Heq; [exact Hx|apply elem_of_cons; by left]|done|done| |done|done|].
  - intros b E. by apply Hk, Hb.
  - apply IH; [|done]. intros a Ha. apply Heq. apply elem_of_cons. by right.
Qed.

(** The thread with the failure noted; an earlier one not yet read is kept in the second slot. *)
Definition note_failure (code parent : Z) (z : binder_thread) : binder_thread :=
  set_th_return_error code (set_th_transaction_stack parent
    (if th_return_error z =? BR_OK then z else set_th_return_error BR_OK (set_th_return_error2 (th_return_error z) z))).

(** The transactions [ts] are gone and the others as they were. *)
Definition freed (ts : list Z) (s s' : kstate) : Prop := ∀ a, ks_trans s' !! a = if decide (a ∈ ts) then None else ks_trans s !! a.

(** How the driver ends at the call [u], described by [y], that it came to through [ts]: the caller is there and has a free slot, it has none, or no caller is left. *)
Inductive failure_end (s : kstate) (code : Z) (ts : list Z) (u : Z) (y : struct_transaction) (s' : kstate) : Prop :=
| caller_told z : t_from y ≠ 0 → ks_threads s !! t_from y = Some z → th_return_error z = BR_OK ∨ th_return_error2 z = BR_OK →
    freed (ts ++ [u]) s s' → ks_threads s' = <[t_from y := note_failure code (t_from_parent y) z]> (ks_threads s) →
    ks_events s' = ks_events s ++ [Wake_thread (t_from y)] → failure_end s code ts u y s'
| caller_full z : t_from y ≠ 0 → ks_threads s !! t_from y = Some z → th_return_error z ≠ BR_OK → th_return_error2 z ≠ BR_OK →
    freed ts s s' → ks_threads s' = ks_threads s → ks_events s' = ks_events s → failure_end s code ts u y s'
| no_caller : t_from y = 0 → freed (ts ++ [u]) s s' → ks_threads s' = ks_threads s → ks_events s' = ks_events s → failure_end s code ts u y s'.

(** The call the way up ends at: its caller waits for it, or there is none and none above. *)
Definition top_call (s : kstate) (u : Z) (y : struct_transaction) : Prop :=
  if t_from y =? 0 then t_from_parent y = 0 else ∃ z, ks_threads s !! t_from y = Some z ∧ th_transaction_stack z = u.

Lemma freed_one u s s' : ks_trans s' = delete u (ks_trans s) → freed ([] ++ [u]) s s'.
Proof.
  intros Ht a. rewrite Ht. destruct (decide (u = a)) as [<-|Hne]; [rewrite lookup_delete_eq, decide_True by set_solver; done|].
  rewrite lookup_delete_ne, decide_False by set_solver. done.
Qed.

Lemma freed_cons t ts s s1 s' : ks_trans s1 = delete t (ks_trans s) → freed ts s1 s' → freed (t :: ts) s s'.
Proof.
  intros T F a. rewrite (F a), T. destruct (decide (t = a)) as [<-|Hne].
  - rewrite lookup_delete_eq, (decide_True (P := t ∈ t :: ts)) by set_solver. by destruct (decide _).
  - rewrite lookup_delete_ne by done. destruct (decide (a ∈ ts)), (decide (a ∈ t :: ts)); set_solver.
Qed.

Lemma failure_end_step s s1 code t ts u y s' :
  ks_trans s1 = delete t (ks_trans s) → ks_threads s1 = ks_threads s → ks_events s1 = ks_events s →
  failure_end s1 code ts u y s' → failure_end s code (t :: ts) u y s'.
Proof.
  intros T Th Ev [z Hf Hz He F Th' Ev'|z Hf Hz He1 He2 F Th' Ev'|Hf F Th' Ev']; rewrite ?Th, ?Ev in *.
  - eapply caller_told; try done. by eapply freed_cons.
  - eapply caller_full; try done. by eapply freed_cons.
  - apply no_caller; try done. by eapply freed_cons.
Qed.

(** At the call the way up ends at. *)
Lemma top_call_run code fuel u y s :
  ks_trans s !! u = Some y → trans_ok s y → top_call s u y → ∃ s', send_failed_reply (S fuel) u code s = Some ((), s') ∧ failure_end s code [] u y s'.
Proof.
  intros Hy Hby Htop. cbn [send_failed_reply]. krun. cbv zeta. unfold top_call in Htop. unfold truthy. destruct (Z.eqb_spec (t_from y) 0) as [Hf|Hf]; cbn [negb].
  { destruct (pop_dead_run s u y Hy Hby) as (s1 & Hr & T & Th & _ & Ev). rewrite (kbind_run _ _ _ _ _ Hr), Htop. exists s1. split; [done|].
    by apply no_caller; [|apply freed_one| |]. }
  destruct Htop as (z & Hz & Hst). krun.
  set (z1 := if negb (th_return_error z =? BR_OK) && (th_return_error2 z =? BR_OK) then _ else z). set (s1 := set_ks_threads _ s).
  assert (ks_threads s1 !! t_from y = Some z1) as Hz1 by (cbn; by rewrite lookup_insert_eq). krun.
  destruct (decide (th_return_error z = BR_OK ∨ th_return_error2 z = BR_OK)) as [Herr|Herr].
  - assert (th_return_error z1 = BR_OK ∧ th_transaction_stack z1 = u ∧ note_failure code (t_from_parent y) z =
      set_th_return_error code (set_th_transaction_stack (t_from_parent y) z1)) as (Hok & Hst1 & Hnote).
    { unfold z1, note_failure. destruct (Z.eqb_spec (th_return_error z) BR_OK) as [He|Hne]; cbn [negb andb]; [done|].
      destruct Herr as [|He2]; [done|]. rewrite He2, Z.eqb_refl. done. }
    rewrite Hok, Z.eqb_refl. destruct (pop_live_run s1 u y (t_from y) z1) as (s2 & Hr & T & Th & Ev); [done|exact Hby|done|done|done|done|].
    rewrite (kbind_run _ _ _ _ _ Hr). assert (ks_threads s2 !! t_from y = Some (set_th_transaction_stack (t_from_parent y) z1)) as Hz2 by (rewrite Th; by rewrite lookup_insert_eq).
    krun. eexists. split; [reflexivity|]. eapply caller_told; [done|done|done|by apply freed_one| |cbn; by rewrite Ev].
    cbn. rewrite Th. cbn. rewrite !insert_insert_eq. by rewrite Hnote.
  - assert (th_return_error z ≠ BR_OK ∧ th_return_error2 z ≠ BR_OK) as [He1 He2] by tauto. assert (z1 = z) as Hzz.
    { unfold z1. by rewrite (proj2 (Z.eqb_neq _ _) He2), andb_false_r. }
    rewrite Hzz, (proj2 (Z.eqb_neq _ _) He1). exists s1. split; [done|]. eapply caller_full; try done. unfold s1. rewrite Hzz. cbn. by apply insert_id.
Qed.

Lemma send_failed_reply_run code fuel : ∀ t ts u y s,
  dead_chain s t ts u → ks_trans s !! u = Some y → trans_ok s y → top_call s u y → (length ts < fuel)%nat →
  ∃ s', send_failed_reply fuel t code s = Some ((), s') ∧ failure_end s code ts u y s'.
Proof.
  induction fuel as [|fuel IH]; intros t ts u y s Hc Hy Hby Htop Hlen; [lia|].
  destruct Hc as [u|t x ts u Hx Hfx Hp Hb Hn Hu Hc]; [by apply top_call_run|]. cbn [send_failed_reply].
  krun. cbv zeta. rewrite Hfx. change (truthy 0) with false. cbn iota. destruct (pop_dead_run s t x Hx Hb) as (s1 & Hr & T & Th & K & Ev).
  rewrite (kbind_run _ _ _ _ _ Hr). assert ((t_from_parent x =? 0) = false) as -> by lia. cbn [length] in Hlen.
  destruct (IH (t_from_parent x) ts u y s1) as (s' & Hs' & He).
  - eapply dead_chain_mono; [exact Hc| |by split]. intros a Ha. rewrite T. apply lookup_delete_ne. intros <-. done.
  - rewrite T. by rewrite lookup_delete_ne.
  - intros b E. by apply K, Hby.
  - unfold top_call. by rewrite Th.
  - lia.
  - exists s'. split; [done|]. by apply (failure_end_step s s1).
Qed.

Lemma dead_chain_trans s t ts u :
  dead_chain s t ts u → is_Some (ks_trans s !! u) → NoDup (ts ++ [u]) ∧ ∀ a, a ∈ ts ++ [u] → is_Some (ks_trans s !! a).
Proof.
  intros Hc Hu. induction Hc as [u|t x ts u Hx Hf Hp Hb Hn Hne Hc IH]; cbn [app].
  - split; [repeat constructor; by intros ?%elem_of_nil|]. intros a [->|Ha]%elem_of_cons; [done|by apply elem_of_nil in Ha].
  - destruct (IH Hu) as [Hnd Hall]. split.
    + constructor; [|done]. rewrite elem_of_app. intros [|Ha%list_elem_of_singleton]; [done|congruence].
    + intros a [->|Ha]%elem_of_cons; [by eexists|by apply Hall].
Qed.

(** C13: What becomes of a call that failed: the driver goes up from it through the calls whose callers are gone and frees each.  At the first caller that is
    still there it leaves the error, takes that call off the thread's stack and wakes the thread; an error the thread has not read yet is kept behind the new
    one.  When the thread already has two errors to read, nothing is left for it and its call stays on its stack; when no caller is left the last call is freed too and nobody
    is told. *)
Theorem failed_reply_reaches_caller s t x code ts u y :
  ks_trans s !! t = Some x → has_flag (t_flags x) TF_ONE_WAY = false → dead_chain s t ts u → ks_trans s !! u = Some y → trans_ok s y → top_call s u y →
  ∃ s', binder_send_failed_reply t code s = Some ((), s') ∧ failure_end s code ts u y s'.
Proof.
  intros Hx Hflag Hc Hy Hby Htop. unfold binder_send_failed_reply. krun. rewrite Hflag. rewrite (kbind_run _ _ s () s) by done. krun.
  apply (send_failed_reply_run code _ t ts u y s); try done. destruct (dead_chain_trans s t ts u Hc) as [Hnd Hall]; [by eexists|].
  pose proof (length_le_size (ks_trans s) (ts ++ [u]) Hnd Hall) as Hle. rewrite length_app in Hle. simpl in Hle. cbn. lia.
Qed.

End Writes.

(** ** Witnesses *)

Module KWriteDemo.
Import KAllocDemo DriverDemo.

Lemma write_consumes_within_a_command_witness : 0 ≤ 0 < 8 + 44.
Proof.
  apply (write_consumes_within_a_command client 1002 client_thread 0 8 0 threads_up (- Errno.EINVAL) 0
    (after (binder_thread_write client 1002 client_thread 0 8 0) threads_up)); [lia|vm_compute; reflexivity].
Defined.

(** The server is gone before it reads the client's call. *)
Lemma failed_reply_reaches_caller_witness :
  ∃ s' y, binder_send_failed_reply 1005 BR_DEAD_REPLY called = Some ((), s') ∧ failure_end called BR_DEAD_REPLY [] 1005 y s'.
Proof.
  assert (∃ x, ks_trans called !! 1005 = Some x ∧ t_from x = client_thread ∧ has_flag (t_flags x) TF_ONE_WAY = false ∧ trans_ok called x)
    as (x & Hx & Hf & Hfl & Hb).
  { eexists. split; [vm_compute; reflexivity|]. split; [reflexivity|]. split; [reflexivity|]. intros b [= <-].
    eexists _, _. split; vm_compute; reflexivity. }
  destruct (failed_reply_reaches_caller called 1005 x BR_DEAD_REPLY [] 1005 x Hx Hfl (chain_here called 1005) Hx Hb) as (s' & Hs & He).
  - unfold top_call. rewrite Hf. change (client_thread =? 0) with false. eexists. split; vm_compute; reflexivity.
  - exists s', x. split; [exact Hs|exact He].
Defined.

(** What the client is left with when it has read none of two earlier errors, with one, and with none. *)
Definition left_for (e1 e2 : Z) : option (Z * Z * Z) :=
  r ← binder_send_failed_reply 1005 BR_DEAD_REPLY
        (set_ks_threads (alter (λ z, set_th_return_error e1 (set_th_return_error2 e2 z)) client_thread (ks_threads called)) called);
  z ← ks_threads r.2 !! client_thread; Some (th_return_error z, th_return_error2 z, th_transaction_stack z).

Example third_error_dropped :
  left_for BR_FAILED_REPLY BR_FAILED_REPLY = Some (BR_FAILED_REPLY, BR_FAILED_REPLY, 1005) ∧
  left_for BR_FAILED_REPLY BR_OK = Some (BR_DEAD_REPLY, BR_FAILED_REPLY, 0) ∧ left_for BR_OK BR_OK = Some (BR_DEAD_REPLY, BR_OK, 0).
Proof. vm_compute. done. Qed.

End KWriteDemo.
