(* ===== verification/KReadEnds.v ===== *)
(** * Binder driver: a read ends, and delivers

    Every round of the loop over the work stores a command or takes an item off a list, so the loop
    ends; a transaction at the head of the work whose parts are there is delivered. *)
From stdpp Require Import sorting gmap.
From S2P Require Import Prelude Bio BioProps Binder SvcMgr SvcProps SvcRequests BinderProps KAlloc KAllocSpec KState KRefs KTrans KWrite KRead.
From S2P Require Import KAllocProps KProc KDemo KQueues KRefsSpec KReadWords KReadProps KWriteProps.

Section Ends.
Context `{RbTree} `{Kernel} `{BinderApi}.
Variable task_tgid : Z → Z.
Variables (cur : task) (p th : Z) (writable : Z → Z → bool) (size : Z).

(** ** The lists a read takes from *)

Definition mine (q : queue) : Prop := q = Q_thread th ∨ q = Q_proc p.

(** The items of these lists know the list they are on. *)
Definition listed (s : kstate) : Prop :=
  ∀ q l w, mine q → queue_items s q = Some l → w ∈ l → entry_at s w = Some (Some q).

Definition todo_len (s : kstate) : nat :=
  (match queue_items s (Q_thread th) with Some l => length l | None => 0 end +
   match queue_items s (Q_proc p) with Some l => length l | None => 0 end)%nat.

Lemma listed_ext s s' :
  (∀ q, mine q → queue_items s' q = queue_items s q) →
  (∀ q l w, mine q → queue_items s q = Some l → w ∈ l → entry_at s' w = entry_at s w) → listed s → listed s'.
Proof. intros Hq Hw Hs q l w Hm Hl Hin. rewrite Hq in Hl by done. rewrite (Hw q l w) by done. by eapply Hs. Qed.

Lemma todo_len_ext s s' : (∀ q, mine q → queue_items s' q = queue_items s q) → todo_len s' = todo_len s.
Proof. intros Hq. unfold todo_len. by rewrite !Hq by (by constructor). Qed.

(** Taking an item off: it is on none of the lists behind, and they are shorter. *)
Lemma del_listed s w q l u s' :
  listed s → mine q → queue_items s q = Some l → w ∈ l → list_del_init w s = Some (u, s') →
  listed s' ∧ (todo_len s' < todo_len s)%nat ∧ (∀ q l, mine q → queue_items s' q = Some l → w ∉ l) ∧ strip s' = strip s.
Proof.
  intros Hs Hm Hq Hin Hr. pose proof (Hs q l w Hm Hq Hin) as He. unfold list_del_init in Hr.
  rewrite (kbind_run _ _ _ _ _ (entry_of_run _ _ _ He)), (kbind_run _ _ _ _ _ (queue_get_run _ _ _ Hq)) in Hr.
  destruct (queue_put_ok s q l (filter (λ x, x ≠ w) l) Hq) as (s1 & H1' & St1 & En1 & It1). rewrite (kbind_run _ _ _ _ _ H1') in Hr.
  destruct (set_entry_ok s1 w (Some q) None) as (s2 & H2' & St2 & It2 & En2); [by rewrite En1|].
  rewrite H2' in Hr. injection Hr as _ <-.
  assert (∀ q' l', mine q' → queue_items s2 q' = Some l' → w ∉ l') as Hno.
  { intros q' l' Hm'. rewrite It2, It1. destruct (decide (q' = q)) as [->|Hne].
    - intros [= <-] Hw%list_elem_of_filter. by destruct Hw.
    - intros Hl' Hw. pose proof (Hs q' l' w Hm' Hl' Hw). congruence. }
  split; [|split; [|split; [done|congruence]]].
  - intros q' l' w' Hm' Hl' Hw'. rewrite En2, decide_False by (intros ->; by eapply Hno). rewrite En1.
    rewrite It2, It1 in Hl'. destruct (decide (q' = q)) as [->|]; [|by eapply Hs].
    injection Hl' as <-. apply list_elem_of_filter in Hw' as [_ Hw']. by eapply Hs.
  - assert (length (filter (λ x, x ≠ w) l) < length l)%nat as Hlt.
    { apply length_filter_lt with w; [done|]. intros Hc. by apply Hc. }
    unfold todo_len. rewrite !It2, !It1. destruct Hm as [-> | ->].
    + rewrite decide_True, decide_False by done. rewrite Hq. lia.
    + rewrite decide_False, decide_True by done. rewrite Hq. lia.
Qed.

(** The first work of a round is on one of the lists. *)
Lemma next_work_listed wait s w s1 :
  next_work p th wait s = Some (Some w, s1) → s1 = s ∧ ∃ q l, mine q ∧ queue_items s q = Some l ∧ w ∈ l.
Proof.
  intros Hn. unfold next_work in Hn. kinv Hn x s2 E1. apply thread_at_inv in E1 as [Hx ->]. kinv Hn k s3 E2. apply proc_at_inv in E2 as [Hk ->].
  destruct (th_todo x) as [|w' l] eqn:E.
  - injection Hn as Hn <-. destruct wait; [|done]. split; [done|]. exists (Q_proc p), (k_todo k). split; [by right|].
    split; [cbn; by rewrite Hk|]. destruct (k_todo k); [done|]. injection Hn as ->. apply elem_of_cons. by left.
  - injection Hn as -> <-. split; [done|]. exists (Q_thread th), (w :: l). split; [by left|].
    split; [cbn; by rewrite Hx, <- E|]. apply elem_of_cons. by left.
Qed.

(** Freeing an object that is on none of the lists. *)
Lemma free_listed s s' w :
  listed s → (∀ q l, mine q → queue_items s q = Some l → w ∉ l) → (∀ q, mine q → queue_items s' q = queue_items s q) →
  (∀ w', w' ≠ w → entry_at s' w' = entry_at s w') → listed s' ∧ todo_len s' = todo_len s.
Proof.
  intros Hs Hno Hq He. split; [|by apply todo_len_ext]. eapply listed_ext; [exact Hq| |exact Hs].
  intros q l w' Hm Hl Hin. apply He. intros ->. by eapply Hno.
Qed.

Lemma free_complete_listed s c u s' :
  listed s → (∀ q l, mine q → queue_items s q = Some l → W_complete c ∉ l) → kfree_complete c s = Some (u, s') →
  listed s' ∧ todo_len s' = todo_len s.
Proof.
  intros Hs Hno Hf. unfold kfree_complete in Hf. kinv Hf m s1 E1. injection E1 as <- <-. kinv Hf v s2 E2. apply klift_inv in E2 as [_ ->].
  injection Hf as _ <-. apply (free_listed s _ (W_complete c) Hs Hno); [by intros [] _|].
  intros [a|a|a|a] Hne; cbn; try done. rewrite lookup_delete_ne; [done|]. intros ->. done.
Qed.

Lemma free_death_listed s d u s' :
  listed s → (∀ q l, mine q → queue_items s q = Some l → W_death d ∉ l) → kfree_death d s = Some (u, s') →
  listed s' ∧ todo_len s' = todo_len s.
Proof.
  intros Hs Hno Hf. unfold kfree_death in Hf. kinv Hf v s2 E2. apply death_at_inv in E2 as [_ ->].
  injection Hf as _ <-. apply (free_listed s _ (W_death d) Hs Hno); [by intros [] _|].
  intros [a|a|a|a] Hne; cbn; try done. rewrite lookup_delete_ne; [done|]. intros ->. done.
Qed.

Lemma erase_free_node_listed s n u s' :
  listed s → (∀ q l, mine q → queue_items s q = Some l → W_node n ∉ l) →
  (_ ← upd_proc p (λ q, set_k_nodes (rb_erase n (k_nodes q)) q); kfree_node n) s = Some (u, s') →
  listed s' ∧ todo_len s' = todo_len s.
Proof.
  intros Hs Hno Hf. kinv Hf v s1 E1. unfold kfree_node in Hf. kinv Hf x s2 E2. apply node_at_inv in E2 as [_ ->]. injection Hf as _ <-.
  unfold upd_proc in E1. destruct (ks_procs s !! p) as [k|] eqn:Hk; [|done]. injection E1 as _ <-.
  apply (free_listed s _ (W_node n) Hs Hno).
  - intros q [-> | ->]; cbn; [done|]. by rewrite lookup_insert_eq, Hk.
  - intros [a|a|a|a] Hne; cbn; try done. rewrite lookup_delete_ne; [done|]. intros ->. done.
Qed.

Lemma store_node_listed s n x x' u s' :
  ks_nodes s !! n = Some x → n_entry x' = n_entry x → listed s → upd_node n (λ _, x') s = Some (u, s') → listed s' ∧ todo_len s' = todo_len s.
Proof.
  intros Hx He Hs Hu. unfold upd_node in Hu. rewrite Hx in Hu. injection Hu as _ <-. split.
  - apply (listed_ext s); [by intros q [-> | ->]| |exact Hs]. intros q l [a|a|a|a] _ _ _; cbn; try done.
    by_key n a; [cbn; by rewrite Hx, He|done].
  - apply (todo_len_ext s). by intros q [-> | ->].
Qed.

Lemma node_command_entry x cmd x' : node_command x = Some (cmd, x') → n_entry x' = n_entry x.
Proof. unfold node_command. intros Hc. repeat (case_match; try done); by injection Hc as _ <-. Qed.

Lemma next_work_there wait s w s1 : next_work p th wait s = Some (w, s1) → ∃ h k, ks_threads s !! th = Some h ∧ ks_procs s !! p = Some k.
Proof.
  intros Hn. unfold next_work in Hn. kinv Hn x s2 E1. apply thread_at_inv in E1 as [Hx ->]. kinv Hn k s3 E2. apply proc_at_inv in E2 as [Hk _]. by eauto.
Qed.

(** A transaction stored at the start of a block is what the parser makes of it. *)
Lemma stored_event_parsed {W} `{BinderClient W} `{!BinderReturnsLaws} m (call : bool) v m' bio func mp rdata (w : W) :
  let e := (if call then E_transaction else E_reply) v in
  Forall (λ v, 0 ≤ v < 2 ^ 32) (event_words e) → stored m 0 (event_words e) m' →
  binder_parse bio func mp rdata (words m') 44 w = run_events bio func mp rdata [e] w.
Proof.
  intros e Hrange (_ & _ & ->). cbn [take app]. assert (u32 <$> event_words e = event_words e) as ->.
  { clear -Hrange. induction Hrange as [|z l Hz _ IH]; [done|]. cbn. rewrite IH, wrap_small by lia. done. }
  assert (event_words e = events_words [e]) as He by (cbn; by rewrite app_nil_r). rewrite He.
  apply binder_parse_events. rewrite <- He. unfold e. by destruct call.
Qed.

(** ** The loop ends *)

Definition read_measure (s : kstate) (ptr : Z) : nat := (Z.to_nat (size - ptr) + todo_len s)%nat.

Lemma put_words_state ws : ∀ m ptr s r s', put_words writable m ptr ws s = Some (r, s') → s' = s.
Proof.
  induction ws as [|w ws IH]; intros m ptr s r s' Hp; cbn [put_words] in Hp; [by injection Hp as _ <-|].
  destruct (writable ptr 4); [|by injection Hp as _ <-]. kinv Hp m2 s2 E. apply klift_inv in E as [_ ->]. by eapply IH.
Qed.

(** Two runs do the same, and do not use up their rounds. *)
Definition ends_same (o o' : option (read_step * kstate)) : Prop := o = o' ∧ ∀ st s', o = Some (st, s') → st ≠ Step_fuel.

Lemma ends_ret st s : st ≠ Step_fuel → ends_same (Some (st, s)) (Some (st, s)).
Proof. intros Hst. split; [done|]. by intros st' s' [= <- _]. Qed.

Lemma ends_bind {A} (m : KM A) (f g : A → KM read_step) s :
  (∀ x s1, m s = Some (x, s1) → ends_same (f x s1) (g x s1)) → ends_same ((m ≫= f) s) ((m ≫= g) s).
Proof. intros Hfg. unfold mbind, KM_bind. destruct (m s) as [[x s1]|]; [by apply Hfg|done]. Qed.

(** Only what follows the words of a command may differ. *)
Lemma ends_put_cmd m ptr ws (k k' : list Z → Z → KM read_step) s :
  (∀ m1, ends_same (k m1 (ptr + 4 * zlen ws) s) (k' m1 (ptr + 4 * zlen ws) s)) →
  ends_same (put_cmd writable m ptr ws k s) (put_cmd writable m ptr ws k' s).
Proof.
  intros Hk. unfold put_cmd. apply ends_bind. intros [ok m1] s1 Hp%put_words_state. rewrite Hp. destruct ok; [apply Hk|by apply ends_ret].
Qed.

Lemma read_transaction_ends t m ptr s :
  ends_same (read_transaction task_tgid cur p th writable t m ptr s) (read_transaction task_tgid cur p th writable t m ptr s).
Proof.
  unfold read_transaction. do 3 (apply ends_bind; intros ? ? _). apply ends_bind. intros [[cmd target] cookie] s9 _. do 2 (apply ends_bind; intros ? ? _).
  apply ends_put_cmd. intros m1. do 3 (apply ends_bind; intros ? ? _). by apply ends_ret.
Qed.

Lemma read_loop_fuel wait fuel1 : ∀ fuel2 m ptr s,
  size < 2 ^ 32 → 0 ≤ ptr ≤ size → listed s → (read_measure s ptr < fuel1)%nat → (read_measure s ptr < fuel2)%nat →
  ends_same (read_loop task_tgid cur p th writable size fuel1 wait m ptr s) (read_loop task_tgid cur p th writable size fuel2 wait m ptr s).
Proof.
  induction fuel1 as [|fuel1 IH]; intros fuel2 m ptr s Hb Hptr Hs F1 F2; [lia|]. destruct fuel2 as [|fuel2]; [lia|]. cbn [read_loop].
  apply ends_bind. intros w s1 Hw. destruct w as [w|].
  2:{ apply ends_bind. intros x s2 _. destruct (_ && _); by apply ends_ret. }
  apply next_work_listed in Hw as (-> & q & l & Hm & Hq & Hin).
  destruct (Z.ltb_spec (u32 (size - ptr)) 44) as [|Hroom]; [by apply ends_ret|]. rewrite wrap_small in Hroom by lia. unfold read_measure in *.
  destruct w as [t|c|n|d]; [apply read_transaction_ends|..].
  - apply ends_put_cmd. intros m1. cbn [length]. apply ends_bind. intros u s2 Hd. apply ends_bind. intros u' s3 Hf.
    destruct (del_listed s _ q l u s2 Hs Hm Hq Hin Hd) as (Hs2 & Hlt & Hno & _).
    destruct (free_complete_listed s2 c u' s3 Hs2 Hno Hf) as [Hs3 He3]. apply IH; [done|lia|done|lia|lia].
  - unfold read_node. apply ends_bind. intros x s2 Hx. apply node_at_inv in Hx as [Hx ->]. destruct (node_command x) as [[cmd x']|] eqn:Hc.
    + apply ends_bind. intros u s2 Hu. destruct (store_node_listed s n x x' u s2 Hx (node_command_entry _ _ _ Hc) Hs Hu) as [Hs2 He2].
      apply ends_put_cmd. intros m1. cbn [length]. apply IH; [done|lia|done|lia|lia].
    + apply ends_bind. intros u s2 Hd. destruct (del_listed s _ q l u s2 Hs Hm Hq Hin Hd) as (Hs2 & Hlt & Hno & _).
      apply ends_bind. intros u' s3 Hu'. assert (listed s3 ∧ todo_len s3 = todo_len s2) as [Hs3 He3].
      { destruct (node_unused x); [by eapply erase_free_node_listed|]. by injection Hu' as _ <-. }
      apply IH; [done|lia|done|lia|lia].
  - unfold read_death. apply ends_bind. intros x s2 Hx. apply death_at_inv in Hx as [_ ->]. destruct (bool_decide _); cycle 1.
    { apply ends_put_cmd. intros m1. do 2 (apply ends_bind; intros ? ? _). by apply ends_ret. }
    apply ends_put_cmd. intros m1. cbn [length]. apply ends_bind. intros u s2 Hd. apply ends_bind. intros u' s3 Hf.
    destruct (del_listed s _ q l u s2 Hs Hm Hq Hin Hd) as (Hs2 & Hlt & Hno & _).
    destruct (free_death_listed s2 d u' s3 Hs2 Hno Hf) as [Hs3 He3]. apply IH; [done|lia|done|lia|lia].
Qed.

(** C34: The loop of a read over the work ends: when the items of the two lists it takes from know that they are
    there, it never needs more rounds than the bytes of the buffer and the items together, and one.  Granted that many it does not use them up,
    and granted more it does the same. *)
Theorem read_loop_ends wait m ptr s fuel :
  size < 2 ^ 32 → 0 ≤ ptr ≤ size → listed s → (read_fuel p th size s ≤ fuel)%nat →
  read_loop task_tgid cur p th writable size fuel wait m ptr s =
    read_loop task_tgid cur p th writable size (read_fuel p th size s) wait m ptr s ∧
  ∀ st s', read_loop task_tgid cur p th writable size fuel wait m ptr s = Some (st, s') → st ≠ Step_fuel.
Proof.
  intros Hb Hptr Hs Hf. assert (read_measure s ptr < read_fuel p th size s)%nat as Hlt; [|apply read_loop_fuel; try done; lia].
  unfold read_measure, read_fuel, todo_len. cbn. destruct (ks_threads s !! th), (ks_procs s !! p); cbn; lia.
Qed.

(** ** Delivery *)

(** What a transaction needs to be delivered: its buffer, the node it is for and the thread it is from, if any, are there. *)
Record deliverable (s : kstate) (t : Z) (x : struct_transaction) (b : Z * Z) (y : binder_buffer) : Prop := {
  dl_trans : ks_trans s !! t = Some x;
  dl_buffer : t_buffer x = Some b;
  dl_data : ∃ k, ks_procs s !! b.1 = Some k ∧ buf_at (p_buffers (k_alloc k)) b.2 = Some y;
  dl_node : b_target_node y ≠ 0 → is_Some (ks_nodes s !! b_target_node y);
  dl_from : t_from x ≠ 0 → ∃ h, ks_threads s !! t_from x = Some h ∧ is_Some (ks_procs s !! th_proc h) }.

Lemma buffer_at_run s b k y : ks_procs s !! b.1 = Some k → buf_at (p_buffers (k_alloc k)) b.2 = Some y → buffer_at b s = Some (y, s).
Proof. intros Hk Hy. unfold buffer_at. krun. by apply klift_run. Qed.

Lemma upd_buffer_run s b f :
  buffer_there s b → (∀ z, b_addr (f z) = b_addr z) →
  ∃ s', upd_buffer b f s = Some ((), s') ∧ buffer_there s' b ∧ ks_trans s' = ks_trans s ∧ ks_threads s' = ks_threads s.
Proof.
  intros (k & y & Hk & Hy) Hf. unfold upd_buffer. rewrite (kbind_run _ _ _ _ _ (buffer_at_run s b k y Hk Hy)). eexists. split; [by apply upd_proc_run|].
  split; [|done]. destruct (buf_at_upd f b.2 (p_buffers (k_alloc k)) b.2 Hf ltac:(by exists y)) as [z Hz].
  exists (set_k_alloc (set_buffers (upd_buf f b.2 (p_buffers (k_alloc k))) (k_alloc k)) k), z. cbn. by rewrite lookup_insert_eq.
Qed.

Lemma set_nice_run nice s : ∃ s', binder_set_nice cur nice s = Some ((), s') ∧ ks_trans s' = ks_trans s ∧ ks_threads s' = ks_threads s ∧ ks_procs s' = ks_procs s ∧ same_lists s s'.
Proof.
  unfold binder_set_nice. destruct (can_nice _ _); (eexists; split; [reflexivity|]; do 3 (split; [done|]); split; [by intros []|by intros []]).
Qed.

(** The priority of the reader is changed and the one it had stored in the transaction. *)
Lemma adopt_priority_run s t x n :
  ks_trans s !! t = Some x →
  ∃ s' x', adopt_priority cur t n s = Some ((), s') ∧ ks_trans s' !! t = Some x' ∧ t_buffer x' = t_buffer x ∧ ks_threads s' = ks_threads s ∧
    ks_procs s' = ks_procs s ∧ same_lists s s'.
Proof.
  intros Hx. unfold adopt_priority. set (saved := default 0 (ks_nice s !! tsk_pid cur)).
  rewrite (kbind_run _ _ _ saved s) by done. krun. set (s1 := set_ks_trans _ s). set (x1 := set_t_saved_priority saved x) in *.
  assert (ks_trans s1 !! t = Some x1) as Hx1 by (cbn; by rewrite lookup_insert_eq). krun.
  assert (same_lists s s1) as Hl1.
  { split; [by intros []|]. intros [a|a|a|a]; cbn; try done. by_key t a; [by rewrite Hx|done]. }
  assert (∀ m : KM (), (m = mret () ∨ ∃ v, m = binder_set_nice cur v) → ∃ s' x', m s1 = Some ((), s') ∧ ks_trans s' !! t = Some x' ∧
    t_buffer x' = t_buffer x ∧ ks_threads s' = ks_threads s ∧ ks_procs s' = ks_procs s ∧ same_lists s s') as Hm.
  { intros m [->|[v ->]].
    - by exists s1, x1.
    - destruct (set_nice_run v s1) as (s2 & Hr & T & Th & P & L). exists s2, x1. split; [done|]. split; [by rewrite T|]. split; [done|]. split; [by rewrite Th|].
      split; [by rewrite P|by eapply same_lists_trans]. }
  apply Hm. destruct (_ && _); [eauto|]. destruct (_ || _); eauto.
Qed.

Lemma put_words_all ws : ∀ m ptr s,
  (∀ a, writable a 4 = true) → 0 ≤ ptr → ptr + 4 * zlen ws ≤ zlen m → ∃ m', put_words writable m ptr ws s = Some ((true, m'), s).
Proof.
  induction ws as [|w ws IH]; intros m ptr s Hw Hp Hl; cbn [put_words]; [by exists m|]. rewrite Hw. cbn [length] in Hl.
  destruct (mem_write_Some m ptr (le_encode 4 w)) as [m1 Hm1]; [lia|rewrite length_le_encode; lia|].
  rewrite (kbind_run _ _ _ _ _ (klift_run _ _ s Hm1)). apply IH; [done|lia|].
  apply mem_write_inv in Hm1 as (_ & _ & Hlen & _). lia.
Qed.

(** Objects of a state that differs in lists and entries only. *)
Lemma strip_trans_lookup s s' t x :
  strip s' = strip s → ks_trans s !! t = Some x → ∃ x', ks_trans s' !! t = Some x' ∧ t_buffer x' = t_buffer x.
Proof.
  intros Hs Hx. assert ((set_t_entry None <$> ks_trans s') !! t = (set_t_entry None <$> ks_trans s) !! t) as He by (exact (f_equal (λ z, ks_trans z !! t) Hs)).
  rewrite !lookup_fmap, Hx in He. destruct (ks_trans s' !! t) as [x'|]; [|done]. exists x'. split; [done|]. by injection He.
Qed.

Lemma strip_thread_lookup s s' h x : strip s' = strip s → ks_threads s !! h = Some x → ∃ x', ks_threads s' !! h = Some x'.
Proof.
  intros Hs Hx. assert ((set_th_todo [] <$> ks_threads s') !! h = (set_th_todo [] <$> ks_threads s) !! h) as He by (exact (f_equal (λ z, ks_threads z !! h) Hs)).
  rewrite !lookup_fmap, Hx in He. destruct (ks_threads s' !! h) as [x'|]; [|done]. by exists x'.
Qed.

Lemma strip_buffer s s' b : strip s' = strip s → buffer_there s b → buffer_there s' b.
Proof.
  intros Hs (k & y & Hk & Hy). assert ((clear_proc <$> ks_procs s') !! b.1 = (clear_proc <$> ks_procs s) !! b.1) as He by (exact (f_equal (λ z, ks_procs z !! b.1) Hs)).
  rewrite !lookup_fmap, Hk in He. destruct (ks_procs s' !! b.1) as [k'|] eqn:Hk'; [|done]. cbn in He. injection He as _ _ Ha. exists k', y. by rewrite Ha.
Qed.

(** What follows the words of the transaction: it leaves the list and goes on the reader's stack or away. *)
Lemma deliver_tail_run s t x h b q l keep ptr m :
  ks_trans s !! t = Some x → ks_threads s !! th = Some h → buffer_there s b →
  entry_at s (W_transaction t) = Some (Some q) → queue_items s q = Some l →
  ∃ s', (_ ← list_del_init (W_transaction t);
         _ ← upd_buffer b (λ z, set_transaction (b_transaction z) (b_target_node z) true z);
         _ ← (if (keep : bool) then
                h ← thread_at th;
                _ ← upd_trans t (λ x, set_t_to_thread th (set_t_to_parent (th_transaction_stack h) x));
                upd_thread th (set_th_transaction_stack t)
              else _ ← detach_buffer b; kfree_trans t);
         mret (Step_done ptr m)) s = Some (Step_done ptr m, s').
Proof.
  intros Hx Hh Hb He Hq. assert (∃ s1, list_del_init (W_transaction t) s = Some ((), s1) ∧ strip s1 = strip s) as (s1 & Hd & St).
  { unfold list_del_init. rewrite (kbind_run _ _ _ _ _ (entry_of_run _ _ _ He)), (kbind_run _ _ _ _ _ (queue_get_run _ _ _ Hq)).
    destruct (queue_put_ok s q l (filter (λ x, x ≠ W_transaction t) l) Hq) as (s1 & Hr1 & St1 & En1 & _). rewrite (kbind_run _ _ _ _ _ Hr1).
    destruct (set_entry_ok s1 (W_transaction t) (Some q) None) as (s2 & Hr2 & St2 & _); [by rewrite En1|]. exists s2. split; [done|congruence]. }
  rewrite (kbind_run _ _ _ _ _ Hd). destruct (strip_trans_lookup _ _ _ _ St Hx) as (x1 & Hx1 & _). destruct (strip_thread_lookup _ _ _ _ St Hh) as (h1 & Hh1).
  destruct (upd_buffer_run s1 b (λ z, set_transaction (b_transaction z) (b_target_node z) true z) (strip_buffer _ _ _ St Hb) ltac:(done)) as (s2 & Hr2 & Hb2 & T2 & Th2).
  rewrite (kbind_run _ _ _ _ _ Hr2). assert (ks_trans s2 !! t = Some x1) as Hx2 by congruence. assert (ks_threads s2 !! th = Some h1) as Hh2 by congruence.
  destruct keep.
  - eexists. erewrite kbind_run; [reflexivity|]. krun. krun. by apply upd_thread_run.
  - destruct (detach_run s2 b Hb2) as (s3 & Hr3 & T3 & _). rewrite <- T3 in Hx2. eexists. erewrite kbind_run; [reflexivity|].
    rewrite (kbind_run _ _ _ _ _ Hr3). unfold kfree_trans. krun. reflexivity.
Qed.

(** A transaction that can be delivered is: the read ends, with one command stored. *)
Lemma deliver_run s t x b y h k q l m ptr :
  deliverable s t x b y → ks_threads s !! th = Some h → ks_procs s !! p = Some k →
  entry_at s (W_transaction t) = Some (Some q) → queue_items s q = Some l → (∀ a, writable a 4 = true) → 0 ≤ ptr → ptr + 44 ≤ zlen m →
  ∃ m' s', read_transaction task_tgid cur p th writable t m ptr s = Some (Step_done (ptr + 44) m', s').
Proof.
  intros [Hx Hb (kb & Hkb & Hy) Hn Hf] Hh Hk He Hq Hw Hp Hm. unfold read_transaction. krun. krun.
  rewrite (kbind_run _ _ _ _ _ (buffer_at_run s b kb y Hkb Hy)). set (is_call := truthy (b_target_node y)) in *.
  assert (∃ c s1 x1, (if is_call then n ← node_at (b_target_node y); _ ← adopt_priority cur t n; mret (BR_TRANSACTION, n_ptr n, n_cookie n)
      else mret (BR_REPLY, 0, 0)) s = Some (c, s1) ∧ ks_trans s1 !! t = Some x1 ∧ ks_threads s1 = ks_threads s ∧ ks_procs s1 = ks_procs s ∧ same_lists s s1)
    as ([[cmd target] cookie] & s1 & x1 & Hr1 & Hx1 & Th1 & P1 & L1).
  { unfold is_call, truthy in *. destruct (Z.eqb_spec (b_target_node y) 0) as [|Hne]; cbn [negb]; [eexists _, s, x; by repeat split|].
    destruct (Hn Hne) as [n Hn']. krun. destruct (adopt_priority_run s t x n Hx) as (s1 & x1 & Hr & ? & ? & ? & ? & ?).
    eexists _, s1, x1. by rewrite (kbind_run _ _ _ _ _ Hr). }
  rewrite (kbind_run _ _ _ _ _ Hr1). cbv beta iota.
  assert (∃ pid, sender_pid task_tgid (t_from x) s1 = Some (pid, s1)) as [pid Hpid].
  { unfold sender_pid, truthy in *. destruct (Z.eqb_spec (t_from x) 0) as [|Hne]; cbn [negb]; [by eexists|]. destruct (Hf Hne) as (hf & Hhf & kf & Hkf).
    rewrite <- Th1 in Hhf. rewrite <- P1 in Hkf. krun. krun. by eexists. }
  rewrite (kbind_run _ _ _ _ _ Hpid). rewrite <- P1 in Hk. krun. unfold put_cmd.
  set (ws := cmd :: transaction_words _ _ _ _ _ _). destruct (put_words_all ws m ptr s1 Hw Hp) as [m1 Hm1]; [cbn; lia|].
  rewrite (kbind_run _ _ _ _ _ Hm1). cbv iota. rewrite <- Th1 in Hh. destruct L1 as [Lq Le]. rewrite <- Le in He. rewrite <- Lq in Hq.
  assert (buffer_there s1 b) as Hbt by (exists kb, y; by rewrite P1).
  destruct (deliver_tail_run s1 t x1 h b q l (is_call && negb (has_flag (t_flags x) TF_ONE_WAY)) (ptr + 4 * zlen ws) m1 Hx1 Hh Hbt He Hq) as [s' Hs'].
  exists m1, s'. exact Hs'.
Qed.

(** A call or a reply that is the next work of a thread is delivered, and reaches the servicemanager's handler as it was sent: when its buffer,
    its node and its sender are there and the reader's buffer can be stored to and has the room, the read returns
    with one command of 44 bytes, and the parser gives the handler the transaction with the code, flags, sizes and sender of the one queued, and with the
    pointer and the cookie of the node it is for. *)
Theorem transaction_reaches_handler {W} `{BinderClient W} `{!BinderReturnsLaws} fuel wait t m s x b y :
  next_work p th wait s = Some (Some (W_transaction t), s) → listed s → deliverable s t x b y →
  44 ≤ size < 2 ^ 32 → (length m mod 4 = 0)%nat → 44 ≤ zlen m → (∀ a, writable a 4 = true) →
  ∃ m' s' pid target cookie off,
    read_loop task_tgid cur p th writable size (S fuel) wait m 0 s = Some (Step_done 44 m', s') ∧
    sender_pid task_tgid (t_from x) s = Some (pid, s) ∧ (∃ k, ks_procs s !! p = Some k ∧ off = p_user_buffer_offset (k_alloc k)) ∧
    (b_target_node y ≠ 0 → ∃ n, ks_nodes s !! b_target_node y = Some n ∧ target = n_ptr n ∧ cookie = n_cookie n) ∧
    let e := (if truthy (b_target_node y) then E_transaction else E_reply) (txn_of target cookie pid off x y) in
    (Forall (λ v, 0 ≤ v < 2 ^ 32) (event_words e) →
     ∀ bio func mp rdata w, binder_parse bio func mp rdata (words m') 44 w = run_events bio func mp rdata [e] w).
Proof.
  intros Hw Hs Hd Hsz Hl Hm Hwr. destruct (next_work_listed _ _ _ _ Hw) as (_ & q & l & Hq & Hql & Hin). pose proof (Hs q l _ Hq Hql Hin) as He.
  destruct (next_work_there _ _ _ _ Hw) as (h & k & Hh & Hk).
  destruct (deliver_run s t x b y h k q l m 0 Hd Hh Hk He Hql Hwr ltac:(lia) ltac:(lia)) as (m' & s' & Hr).
  destruct (read_transaction_words _ _ _ _ _ _ _ _ _ _ _ Hl Hr) as (x' & b' & y' & pid & target & cookie & off & Hx & Hb & Hy & _ & Hpid & Hoff & Hn & Hst).
  destruct Hd as [Hx' Hb' (kb & Hkb & Hy') _ _]. assert (x' = x) as -> by congruence. assert (b' = b) as -> by congruence.
  pose proof (buffer_at_run s b kb y Hkb Hy') as Hyb. assert (y' = y) as -> by congruence.
  exists m', s', pid, target, cookie, off. split.
  { cbn [read_loop]. rewrite (kbind_run _ _ _ _ _ Hw). assert ((u32 (size - 0) <? 44) = false) as -> by (rewrite wrap_small by lia; lia). exact Hr. }
  split; [done|]. split; [done|]. split; [done|]. cbv zeta. set (e := _ (txn_of _ _ _ _ _ _)) in *. intros Hrange bio func mp rdata w. by apply (stored_event_parsed m).
Qed.

End Ends.

(** ** Witnesses *)

Module KEndsDemo.
Import KAllocDemo DriverDemo.

#[local] Instance quiet_client : BinderClient unit := {|
  binder_write _ w := w; client_handler _ _ reply w := Some (0, reply, w); client_death _ w := Some w |}.

#[local] Instance demo_returns_laws : BinderReturnsLaws (H := demo_returns).
Proof. split. apply (bool_decide_unpack _). vm_compute. done. Qed.

(** The call is the only work there is. *)
Lemma called_listed : listed 1000 server_thread called.
Proof.
  assert (queue_items called (Q_thread server_thread) = Some []) as Ht by (vm_compute; reflexivity).
  assert (queue_items called (Q_proc 1000) = Some [W_transaction 1005]) as Hp by (vm_compute; reflexivity).
  assert (entry_at called (W_transaction 1005) = Some (Some (Q_proc 1000))) as He by (vm_compute; reflexivity).
  intros q l w [-> | ->] Hl Hw.
  - rewrite Ht in Hl. apply (inj Some) in Hl as <-. destruct (not_elem_of_nil _ Hw).
  - rewrite Hp in Hl. apply (inj Some) in Hl as <-. apply list_elem_of_singleton in Hw as ->. exact He.
Qed.

Definition call_trans : struct_transaction :=
  match ks_trans called !! 1005 with Some x => x | None => Trans 0 0 0 0 0 false None 0 0 0 0 0 None end.
Definition call_buffer : Z * Z := default (0, 0) (t_buffer call_trans).
Definition call_data : binder_buffer := match buffer_at call_buffer called with Some (y, _) => y | None => junk end.

Lemma called_deliverable : deliverable called 1005 call_trans call_buffer call_data.
Proof.
  split; [vm_compute; reflexivity|vm_compute; reflexivity| | |].
  - destruct (ks_procs called !! call_buffer.1) as [k|] eqn:Hk; [|vm_compute in Hk; discriminate Hk]. exists k. split; [reflexivity|].
    assert ((λ k, buf_at (p_buffers (k_alloc k)) call_buffer.2) <$> ks_procs called !! call_buffer.1 = Some (Some call_data)) as Hb by (vm_compute; reflexivity).
    rewrite Hk in Hb. apply (inj Some) in Hb. exact Hb.
  - intros _. apply (bool_decide_unpack _). vm_compute. exact I.
  - intros _. destruct (ks_threads called !! t_from call_trans) as [h|] eqn:Hh; [|vm_compute in Hh; discriminate Hh]. exists h. split; [reflexivity|].
    assert ((λ h, bool_decide (is_Some (ks_procs called !! th_proc h))) <$> ks_threads called !! t_from call_trans = Some true) as Hb by (vm_compute; reflexivity).
    rewrite Hh in Hb. apply (inj Some) in Hb. apply bool_decide_eq_true in Hb. exact Hb.
Qed.

Lemma transaction_reaches_handler_witness :
  t_code call_trans = 77 ∧ ∃ m' s', read_loop (λ x, x) server 1000 server_thread anyone 128 10 true blank 0 called = Some (Step_done 44 m', s').
Proof.
  split; [vm_compute; reflexivity|].
  destruct (transaction_reaches_handler (λ x, x) server 1000 server_thread anyone 128 9 true 1005 blank called call_trans call_buffer call_data)
    as (m' & s' & _ & _ & _ & _ & Hr & _);
    [vm_compute; reflexivity|exact called_listed|exact called_deliverable|lia|reflexivity|vm_compute; discriminate|reflexivity|]. exists m', s'. exact Hr.
Defined.

Lemma read_loop_ends_witness :
  read_loop (λ x, x) server 1000 server_thread anyone 128 200 true blank 0 called =
    read_loop (λ x, x) server 1000 server_thread anyone 128 (read_fuel 1000 server_thread 128 called) true blank 0 called ∧
  ∀ st s', read_loop (λ x, x) server 1000 server_thread anyone 128 200 true blank 0 called = Some (st, s') → st ≠ Step_fuel.
Proof. apply (read_loop_ends (λ x, x) server 1000 server_thread anyone 128 true blank 0 called 200); [lia|lia|exact called_listed|vm_compute; lia]. Defined.

End KEndsDemo.
