(* ===== verification/KCalls.v ===== *)
(** * Binder driver: a call from the sender to the handler

    What [binder_transaction] leaves when a process calls another: the transaction is the last work of the
    target, its bytes are in a buffer of the target's area, and the sender waits for
    the answer.  Together with what a read does, the call of a client reaches the handler of the
    servicemanager. *)
From stdpp Require Import gmap.
From S2P Require Import Prelude Bio BioProps Binder SvcMgr SvcProps SvcRequests BinderProps KAlloc KAllocSpec KAllocInv KAllocProps KState KRefs KTrans KWrite KRead.
From S2P Require Import KProc KDemo KQueues KRefsSpec KRefsInv KRefsOps KRefsRun KFrame KHandles KRefsProps KReadWords KReadProps KWriteProps KReadEnds.

Section Calls.
Context `{RbLaws} `{KernelLaws} `{BinderApi}.
Variables (cur : task) (p th : Z) (tr : binder_txn).

(** ** New objects on no list *)

(** Objects may have been made, on no list; otherwise lists and entries are as before. *)
Definition grown (s s' : kstate) : Prop :=
  (∀ q, queue_items s' q = queue_items s q) ∧
  (∀ w, entry_at s' w = entry_at s w ∨ entry_at s w = None ∧ entry_at s' w = Some None).

Lemma kgrown_refl s : grown s s.
Proof. split; [done|by left]. Qed.

Lemma grown_trans s1 s2 s3 : grown s1 s2 → grown s2 s3 → grown s1 s3.
Proof.
  intros [Q1 E1] [Q2 E2]. split; [intros q; by rewrite Q2|]. intros w.
  destruct (E1 w) as [A|[A A']], (E2 w) as [B|[B B']]; rewrite ?A, ?A' in *; rewrite ?B, ?B'; auto; congruence.
Qed.

Lemma grown_ok s s' : grown s s' → queues_ok s → queues_ok s'.
Proof.
  intros [Q E] [Hl Hn Hk]. split.
  - intros q l w. rewrite Q. intros Hq Hw. pose proof (Hl q l w Hq Hw) as He. destruct (E w) as [A|[A _]]; congruence.
  - intros q l. rewrite Q. apply Hn.
  - intros q w He. setoid_rewrite Q. apply Hk. destruct (E w) as [A|[_ A]]; congruence.
Qed.

Lemma grown_same s s' : same_lists s s' → grown s s'.
Proof. intros [Q E]. split; [done|by left]. Qed.

Lemma grown_trans_new s t x : t ∉ live s → t_entry x = None → grown s (set_ks_trans (<[t := x]> (ks_trans s)) s).
Proof.
  intros Hf Hx. split; [by intros []|]. intros [a|a|a|a]; cbn; try by left. by_key t a; [|by left]. right. split; [|cbn; by rewrite Hx].
  assert (ks_trans s !! t = None) as ->; [|done]. apply not_elem_of_dom. unfold live in Hf. set_solver.
Qed.

Lemma grown_complete_new s w : w ∉ live s → grown s (set_ks_completes (<[w := None]> (ks_completes s)) s).
Proof.
  intros Hf. split; [by intros []|]. intros [a|a|a|a]; cbn; try by left. by_key w a; [|by left]. right. split; [|done].
  apply not_elem_of_dom. unfold live in Hf. set_solver.
Qed.

(** Storing to a process, a node or a transaction away from the lists. *)
Lemma same_proc s q k k' :
  ks_procs s !! q = Some k → k_todo k' = k_todo k → k_delivered_death k' = k_delivered_death k →
  same_lists s (set_ks_procs (<[q := k']> (ks_procs s)) s).
Proof.
  intros Hk Ht Hd. split; [|by intros []]. intros [a|a|a|a]; cbn; try done; (by_key q a; [cbn; by rewrite Hk, ?Ht, ?Hd|done]).
Qed.

Lemma same_node s n x x' :
  ks_nodes s !! n = Some x → n_async_todo x' = n_async_todo x → n_entry x' = n_entry x →
  same_lists s (set_ks_nodes (<[n := x']> (ks_nodes s)) s).
Proof.
  intros Hk Ht Hd. split; intros [a|a|a|a]; cbn; try done; (by_key n a; [cbn; by rewrite Hk, ?Ht, ?Hd|done]).
Qed.

Lemma same_trans s t x x' :
  ks_trans s !! t = Some x → t_entry x' = t_entry x → same_lists s (set_ks_trans (<[t := x']> (ks_trans s)) s).
Proof. intros Hk Ht. split; [by intros []|]. intros [a|a|a|a]; cbn; try done. by_key t a; [cbn; by rewrite Hk, Ht|done]. Qed.

Lemma same_thread s h x x' :
  ks_threads s !! h = Some x → th_todo x' = th_todo x → same_lists s (set_ks_threads (<[h := x']> (ks_threads s)) s).
Proof. intros Hk Ht. split; [|by intros []]. intros [a|a|a|a]; cbn; try done. by_key h a; [cbn; by rewrite Hk, Ht|done]. Qed.

(** ** The target of a call *)

(** What a call needs: its handle is 0 and there is a context manager, or it names a reference; the node is one of a process that is there, the
    security module allows the call, and the sending thread is in no other transaction. *)
Record callable (s : kstate) (h : binder_thread) (from to : kproc) (tp n : Z) (nd : binder_node) : Prop := {
  c_handle : if decide (txn_target tr = 0) then ks_context_mgr_node s = n
             else ∃ r x, binder_get_ref p (txn_target tr) s = Some (r, s) ∧ r ≠ 0 ∧ ks_refs s !! r = Some x ∧ r_node x = n;
  c_node : n ≠ 0 ∧ ks_nodes s !! n = Some nd;
  c_proc : tp ≠ 0 ∧ n_proc nd = tp;
  c_from : ks_procs s !! p = Some from;
  c_to : ks_procs s !! tp = Some to;
  c_allowed : 0 ≤ security_binder_transaction (k_tsk from) (k_tsk to);
  c_thread : th ≠ 0 ∧ ks_threads s !! th = Some h;
  c_idle : th_transaction_stack h = 0 }.

(** What the rest of the kernel has to grant: memory, room in the target's area, and the sender's bytes. *)
Record granted (to : kproc) (data : list Z) : Prop := {
  g_memory l k : is_Some (kzalloc_addr l k);
  g_inv : alloc_inv (k_alloc to);
  g_room k : ¬ alloc_refused (alloc_env k) (k_alloc to) (txn_data_size tr) 0 (has_flag (txn_flags tr) TF_ONE_WAY);
  g_sizes : 0 ≤ txn_data_size tr < 2 ^ 32 ∧ txn_offs_size tr = 0;
  g_data k : copy_from_user k (tsk_pid cur) (txn_data tr) (txn_data_size tr) = Some data;
  g_offs k : copy_from_user k (tsk_pid cur) (txn_offs tr) 0 = Some [] }.

Lemma truthy_ne z : z ≠ 0 → truthy z = true.
Proof. unfold truthy. intros. by destruct (Z.eqb_spec z 0). Qed.

Lemma call_target_run s h from to tp n nd :
  callable s h from to tp n nd → call_target p th (txn_target tr) (txn_flags tr) s = Some (T_ok tp 0 n 0, s).
Proof.
  intros [Hh [Hn Hnd] [Htp <-] Hf Ht Hs [_ Hth] Hi]. unfold call_target. krun.
  eassert (_ s = Some (inr n, s)) as Hr; [|rewrite (kbind_run _ _ _ _ _ Hr); clear Hr].
  { unfold truthy. destruct (decide (txn_target tr = 0)) as [->|Hne]; cbn [Z.eqb negb].
    - rewrite Hh. assert ((n =? 0) = false) as -> by lia. done.
    - assert ((txn_target tr =? 0) = false) as -> by lia. destruct Hh as (r & x & Hr & Hr0 & Hx & <-). cbn [negb]. krun.
      assert ((r =? 0) = false) as -> by lia. by krun. }
  cbv iota. krun. assert ((n_proc nd =? 0) = false) as -> by lia. krun. krun.
  assert ((security_binder_transaction (k_tsk from) (k_tsk to) <? 0) = false) as -> by lia. krun.
  rewrite Hi. cbn. by rewrite andb_false_r.
Qed.

(** ** The buffer *)

Lemma upd_buf_lookup f x l y : buf_at l x = Some y → b_addr (f y) = b_addr y → buf_at (upd_buf f x l) x = Some (f y).
Proof.
  induction l as [|b l IH]; [done|]. cbn. destruct (Z.eqb_spec (b_addr b) x) as [Hb|Hb]; cbn.
  - intros [= ->] ->. by rewrite Hb, Z.eqb_refl.
  - destruct (Z.eqb_spec (b_addr b) x); [done|]. exact IH.
Qed.

(** The header of a buffer for the call. *)
Definition call_buffer (t n x : Z) : binder_buffer :=
  Buf x false false (has_flag (txn_flags tr) TF_ONE_WAY) t n (txn_data_size tr) 0.

Lemma alloc_for_call to data k g :
  granted to data →
  ∃ x a b, binder_alloc_buf (alloc_env k) g (k_alloc to) (txn_data_size tr) 0 (has_flag (txn_flags tr) TF_ONE_WAY) = Some (Some x, a) ∧
    alloc_inv a ∧ x ≠ 0 ∧ b_addr b = x ∧ buf_at (p_buffers a) x = Some (taken b (txn_data_size tr) 0 (has_flag (txn_flags tr) TF_ONE_WAY)).
Proof.
  intros [_ Hi Hroom [Hds _] _ _].
  destruct (alloc_buf_ok (alloc_env k) g (k_alloc to) (txn_data_size tr) 0 (has_flag (txn_flags tr) TF_ONE_WAY) Hi Hds ltac:(lia))
    as (r & a & Ha & Hia & Hr). destruct r as [x|]; [|by destruct (Hroom k), Hr].
  destruct Hr as (l1 & b & l2 & Hl & _ & <- & _ & _ & _ & pages & tf & ta & Hp). exists (b_addr b), a, b.
  split; [done|]. split; [done|]. destruct Hi as [[_ _ (Hb & _) [_ Hfirst] Htile _] _ _ _ _ _].
  assert (b ∈ p_buffers (k_alloc to)) as Hin by (rewrite Hl; set_solver). destruct (tiles_bounds _ _ _ Htile Hin) as [Hle _].
  split; [lia|]. split; [done|]. destruct Hia as [[_ _ _ _ Htile' _] _ _ _ _ _].
  apply (buf_at_elem a Htile' (taken b _ _ _)). rewrite Hp. cbn. set_solver.
Qed.

(** ** Up to the queues *)

Lemma kzalloc_some s a : kzalloc_addr (live s) (ks_tick s) = Some a → kzalloc s = Some (a, set_ks_tick (S (ks_tick s)) s).
Proof. intros Ha. by rewrite kzalloc_run, Ha. Qed.

(** The state in which the transaction is ready to be queued. *)
Record prepared (s : kstate) (to : kproc) (tp n euid : Z) (nd : binder_node) (data : list Z) (t w x : Z) (s' : kstate) : Prop := {
  pr_lists : grown s s';
  pr_new : (t ∉ live s) ∧ (w ∉ live s);
  pr_threads : ks_threads s' = ks_threads s;
  pr_trans : ∃ nice, ks_trans s' !! t = Some (set_t_buffer (Some (tp, x)) (new_transaction false th tp 0 nice euid tr));
  pr_complete : ks_completes s' !! w = Some None;
  pr_node : ks_nodes s' = <[n := set_n_local_strong_refs (s32 (n_local_strong_refs nd + 1)) nd]> (ks_nodes s);
  pr_target : ∃ to', ks_procs s' !! tp = Some to' ∧ buf_at (p_buffers (k_alloc to')) x = Some (call_buffer t n x) ∧ k_data to' !! x = Some (data, []);
  pr_procs q : is_Some (ks_procs s !! q) → is_Some (ks_procs s' !! q) }.

Section Prepare.
Variables (s : kstate) (from to : kproc) (tp n : Z) (nd : binder_node) (data : list Z) (t w x : Z) (a : binder_proc).

(** The states between the call and the queues: the transaction is made, then the note that it was sent, the buffer is taken and filled in, the
    node is held, and the bytes are copied. *)
Definition pc_trans : struct_transaction :=
  new_transaction false th tp 0 (default 0 (ks_nice s !! tsk_pid cur)) (task_euid (k_tsk from)) tr.
Definition pc_alloc : kproc := set_k_alloc a to.
Definition pc_header : kproc := set_k_alloc (set_buffers (upd_buf (set_transaction t n false) x (p_buffers a)) a) pc_alloc.
Definition pc_data : kproc := set_k_data (<[x := (data, [])]> (k_data pc_header)) pc_header.
Definition pc_s1 : kstate := set_ks_trans (<[t := pc_trans]> (ks_trans s)) (set_ks_tick (S (ks_tick s)) s).
Definition pc_s2 : kstate := set_ks_completes (<[w := None]> (ks_completes s)) (set_ks_tick (S (S (ks_tick s))) pc_s1).
Definition pc_s3 : kstate := set_ks_procs (<[tp := pc_alloc]> (ks_procs s)) (set_ks_tick (3 + ks_tick s) pc_s2).
Definition pc_s4 : kstate := set_ks_trans (<[t := set_t_buffer (Some (tp, x)) pc_trans]> (ks_trans pc_s3)) pc_s3.
Definition pc_s5 : kstate := set_ks_procs (<[tp := pc_header]> (ks_procs pc_s4)) pc_s4.
Definition pc_s6 : kstate := set_ks_nodes (<[n := set_n_local_strong_refs (s32 (n_local_strong_refs nd + 1)) nd]> (ks_nodes s)) pc_s5.
Definition pc_s7 : kstate := set_ks_procs (<[tp := pc_data]> (ks_procs pc_s5)) (set_ks_tick (5 + ks_tick s) pc_s6).

Hypotheses (Hnd : ks_nodes s !! n = Some nd) (Hf : ks_procs s !! p = Some from) (Hto : ks_procs s !! tp = Some to).

Lemma pc_lists : t ∉ live s → w ∉ live pc_s1 → grown s pc_s7.
Proof.
  intros Htf Hwf. apply (grown_trans s (set_ks_tick (S (ks_tick s)) s)); [apply grown_same, tick_lists|].
  apply (grown_trans _ pc_s1); [by apply (grown_trans_new (set_ks_tick (S (ks_tick s)) s) t pc_trans)|].
  apply (grown_trans _ (set_ks_tick (S (S (ks_tick s))) pc_s1)); [apply grown_same, tick_lists|].
  apply (grown_trans _ pc_s2); [by apply (grown_complete_new (set_ks_tick (S (S (ks_tick s))) pc_s1) w)|]. apply grown_same.
  apply (same_lists_trans _ (set_ks_tick (3 + ks_tick s) pc_s2)); [apply tick_lists|].
  apply (same_lists_trans _ pc_s3); [by apply (same_proc (set_ks_tick (3 + ks_tick s) pc_s2) tp to pc_alloc)|].
  apply (same_lists_trans _ pc_s4); [apply (same_trans pc_s3 t pc_trans); [apply lookup_insert_eq|done]|].
  apply (same_lists_trans _ pc_s5); [apply (same_proc pc_s4 tp pc_alloc pc_header); [apply lookup_insert_eq|done..]|].
  apply (same_lists_trans _ pc_s6); [by apply (same_node pc_s5 n nd)|].
  apply (same_lists_trans _ (set_ks_tick (5 + ks_tick s) pc_s6)); [apply tick_lists|].
  apply (same_proc (set_ks_tick (5 + ks_tick s) pc_s6) tp pc_header pc_data); [apply lookup_insert_eq|done..].
Qed.

Lemma pc_prepared :
  t ∉ live s → w ∉ live pc_s1 → buf_at (p_buffers (k_alloc pc_header)) x = Some (call_buffer t n x) →
  prepared s to tp n (task_euid (k_tsk from)) nd data t w x pc_s7.
Proof.
  intros Htf Hwf Hy. split.
  - by apply pc_lists.
  - split; [done|]. revert Hwf. unfold live, pc_s1. cbn. rewrite dom_insert. set_solver.
  - done.
  - eexists. apply lookup_insert_eq.
  - apply lookup_insert_eq.
  - done.
  - exists pc_data. split; [apply lookup_insert_eq|]. split; [exact Hy|]. apply lookup_insert_eq.
  - intros q [k Hk]. cbn. by_key tp q; [by eexists|]. by_key tp q; [done|]. by_key tp q; [done|by eexists].
Qed.

Lemma pc_fill :
  granted to data → buf_at (p_buffers (k_alloc pc_header)) x = Some (call_buffer t n x) → fill_buffer cur p th tp n 0 (tp, x) tr pc_s6 = Some (None, pc_s7).
Proof.
  intros [_ _ _ [_ Hos] Hdata Hoffs] Hy. unfold fill_buffer.
  assert (copy_transaction cur (tp, x) tr pc_s6 = Some (true, pc_s7)) as Hcp.
  { unfold copy_transaction. krun. rewrite Hdata. krun. rewrite Hos, Hoffs. unfold put_data.
    rewrite (kbind_run _ _ _ _ _ (upd_proc_run tp _ pc_header _ (lookup_insert_eq _ _ _))). reflexivity. }
  rewrite (kbind_run _ _ _ _ _ Hcp). cbv iota.
  rewrite (kbind_run _ _ _ _ _ (buffer_at_run pc_s7 (tp, x) pc_data _ (lookup_insert_eq _ _ _) Hy)).
  unfold data_at. cbn [fst snd].
  erewrite kbind_run; [|rewrite (kbind_run _ _ _ _ _ (proc_at_run tp pc_data pc_s7 (lookup_insert_eq _ _ _))); apply klift_run, lookup_insert_eq].
  reflexivity.
Qed.

Lemma pc_hold : binder_inc_node n true false None pc_s5 = Some (0, pc_s6).
Proof.
  unfold binder_inc_node. rewrite (kbind_run _ _ _ _ _ (node_at_run n nd pc_s5 Hnd)). cbv iota beta.
  rewrite (kbind_run _ _ _ _ _ (kget_run _ _)). cbn [andb]. by rewrite (kbind_run _ _ _ _ _ (upd_node_run n _ nd pc_s5 Hnd)).
Qed.

End Prepare.

Lemma prepared_call s h from to tp n nd data :
  callable s h from to tp n nd → granted to data →
  ∃ t w x s', prepared s to tp n (task_euid (k_tsk from)) nd data t w x s' ∧
    binder_transaction cur p th tr false s = queue_transaction th tp 0 n 0 t w (tp, x) (txn_flags tr) s'.
Proof.
  intros Hc Hg. pose proof (call_target_run _ _ _ _ _ _ _ Hc) as Htgt. destruct Hc as [_ [Hn Hnd] _ Hf Ht _ _ _].
  pose proof Hg as [Hmem _ _ [_ Hos] _ _].
  destruct (Hmem (live s) (ks_tick s)) as [t Hat]. destruct (kzalloc_fresh _ _ _ Hat) as [Ht0 Htf].
  set (s1 := pc_s1 s from tp t). destruct (Hmem (live s1) (S (ks_tick s))) as [w Haw]. destruct (kzalloc_fresh _ _ _ Haw) as [Hw0 Hwf].
  destruct (alloc_for_call to data (S (S (ks_tick s))) (header_garbage (S (S (ks_tick s)))) Hg) as (x & a & b & Ha & Hia & Hx0 & Hbx & Hbuf).
  set (s2 := pc_s2 s from tp t w). set (s3 := pc_s3 s from to tp t w a). set (s4 := pc_s4 s from to tp t w x a).
  set (s5 := pc_s5 s from to tp n t w x a). set (s6 := pc_s6 s from to tp n nd t w x a). exists t, w, x, (pc_s7 s from to tp n nd data t w x a).
  assert (buf_at (p_buffers (k_alloc (pc_header to n t x a))) x = Some (call_buffer t n x)) as Hy.
  { cbn. rewrite (upd_buf_lookup _ _ _ _ Hbuf) by done. unfold call_buffer, set_transaction, taken. cbn. by rewrite Hbx. }
  split; [by apply pc_prepared|].
  enough (transaction_course cur p th tr false s = (_ ← queue_transaction th tp 0 n 0 t w (tp, x) (txn_flags tr);
    mret (Course n None (Some (k_pid to)) (Some t) false)) (pc_s7 s from to tp n nd data t w x a)) as Hco.
  { unfold binder_transaction, mbind at 1, KM_bind at 1. rewrite Hco. unfold mbind, KM_bind. by destruct (queue_transaction _ _ _ _ _ _ _ _ _ _) as [[[] ?]|]. }
  unfold transaction_course. rewrite (kbind_run _ _ _ _ _ Htgt). cbv iota. change (truthy 0) with false. cbv iota. krun. krun. cbv zeta.
  rewrite (kbind_run _ _ _ _ _ (kzalloc_some _ _ Hat)).
  assert ((t =? 0) = false) as -> by lia. krun. krun. krun. change (set_ks_trans _ _) with s1.
  rewrite (kbind_run _ _ _ _ _ (kzalloc_some s1 _ Haw)). assert ((w =? 0) = false) as -> by lia. krun. change (set_ks_completes _ _) with s2.
  rewrite Hos. cbn [negb andb].
  assert (kalloc_buf tp (txn_data_size tr) 0 (has_flag (txn_flags tr) TF_ONE_WAY) s2 = Some (x, s3)) as Hal.
  { unfold kalloc_buf. krun. krun. rewrite (kbind_run _ _ _ _ _ (klift_run _ _ _ Ha)). cbv beta iota. krun. reflexivity. }
  rewrite (kbind_run _ _ _ _ _ Hal). assert ((x =? 0) = false) as -> by lia. cbv zeta.
  rewrite (kbind_run _ _ _ _ _ (upd_trans_run t _ (pc_trans s from tp) s3 (lookup_insert_eq _ _ _))). change (set_ks_trans _ _) with s4.
  assert (upd_buffer (tp, x) (set_transaction t n false) s4 = Some ((), s5)) as Hub.
  { unfold upd_buffer. rewrite (kbind_run _ _ _ _ _ (buffer_at_run s4 (tp, x) (pc_alloc to a) _ (lookup_insert_eq _ _ _) Hbuf)).
    exact (upd_proc_run tp _ (pc_alloc to a) s4 (lookup_insert_eq _ _ _)). }
  rewrite (kbind_run _ _ _ _ _ Hub), (truthy_ne n Hn).
  assert (binder_inc_node n true false None s5 = Some (0, s6)) as Hin by exact (pc_hold s from to tp n nd t w x a Hnd).
  eassert (_ s5 = Some ((), s6)) as Hinc; [|rewrite (kbind_run _ _ _ _ _ Hinc); clear Hinc]; [by rewrite (kbind_run _ _ _ _ _ Hin)|].
  by rewrite (kbind_run _ _ _ _ _ (pc_fill s from to tp n nd data t w x a Hg Hy)).
Qed.

(** ** Queued *)

(** What a call leaves behind: the transaction at the end of the target's work and on the sender's stack, the note that it was sent at the end of the sender's
    own work, and the bytes in the target's buffer. *)
Record call_queued (s : kstate) (h : binder_thread) (to : kproc) (tp n euid : Z) (nd : binder_node) (data : list Z) (t w x : Z) (xt : struct_transaction)
    (s' : kstate) : Prop := {
  cq_ok : queues_ok s';
  cq_trans : ks_trans s' !! t = Some xt ∧ t_buffer xt = Some (tp, x) ∧ t_from xt = th ∧ t_code xt = txn_code tr ∧ t_flags xt = txn_flags tr ∧
             t_sender_euid xt = euid ∧ t_need_reply xt = true ∧ t_from_parent xt = 0;
  cq_target : ∃ to', ks_procs s' !! tp = Some to' ∧ buf_at (p_buffers (k_alloc to')) x = Some (call_buffer t n x) ∧ k_data to' !! x = Some (data, []);
  cq_node : ∃ nd', ks_nodes s' !! n = Some nd' ∧ n_ptr nd' = n_ptr nd ∧ n_cookie nd' = n_cookie nd ∧ n_local_strong_refs nd' = s32 (n_local_strong_refs nd + 1);
  cq_sender : ∃ h', ks_threads s' !! th = Some h' ∧ th_transaction_stack h' = t ∧ th_proc h' = th_proc h;
  cq_procs q : is_Some (ks_procs s !! q) → is_Some (ks_procs s' !! q);
  cq_fresh : t ∉ live s;
  cq_others q k : q ≠ th → ks_threads s !! q = Some k → ∃ k', ks_threads s' !! q = Some k' ∧ set_th_todo [] k' = set_th_todo [] k;
  cq_queues q : queue_items s' q =
    if decide (q = Q_proc tp) then Some (k_todo to ++ [W_transaction t])
    else if decide (q = Q_thread th) then Some (th_todo h ++ [W_complete w]) else queue_items s q;
  cq_woken : ∃ es, ks_events s' = es ++ [Wake_proc tp] }.

(** Lists and entries aside, two states have the same objects. *)
Lemma strip_proc s s' q k :
  strip s' = strip s → ks_procs s !! q = Some k → ∃ k', ks_procs s' !! q = Some k' ∧ k_alloc k' = k_alloc k ∧ k_data k' = k_data k.
Proof.
  intros Hst Hk. assert ((clear_proc <$> ks_procs s') !! q = (clear_proc <$> ks_procs s) !! q) as E by exact (f_equal (λ z, ks_procs z !! q) Hst).
  rewrite !lookup_fmap, Hk in E. destruct (ks_procs s' !! q) as [k'|]; [|done]. apply (inj Some) in E. exists k'. split; [done|].
  split; [exact (f_equal k_alloc E)|exact (f_equal k_data E)].
Qed.

Lemma strip_thread s s' q k :
  strip s' = strip s → ks_threads s !! q = Some k →
  ∃ k', ks_threads s' !! q = Some k' ∧ th_transaction_stack k' = th_transaction_stack k ∧ th_proc k' = th_proc k.
Proof.
  intros Hst Hk. assert ((set_th_todo [] <$> ks_threads s') !! q = (set_th_todo [] <$> ks_threads s) !! q) as E by exact (f_equal (λ z, ks_threads z !! q) Hst).
  rewrite !lookup_fmap, Hk in E. destruct (ks_threads s' !! q) as [k'|]; [|done]. apply (inj Some) in E. exists k'. split; [done|].
  split; [exact (f_equal th_transaction_stack E)|exact (f_equal th_proc E)].
Qed.

Lemma strip_thread_full s s' q k :
  strip s' = strip s → ks_threads s !! q = Some k → ∃ k', ks_threads s' !! q = Some k' ∧ set_th_todo [] k' = set_th_todo [] k.
Proof.
  intros Hst Hk. assert ((set_th_todo [] <$> ks_threads s') !! q = (set_th_todo [] <$> ks_threads s) !! q) as E by exact (f_equal (λ z, ks_threads z !! q) Hst).
  rewrite !lookup_fmap, Hk in E. destruct (ks_threads s' !! q) as [k'|]; [|done]. apply (inj Some) in E. by exists k'.
Qed.

Lemma strip_trans s s' q k :
  strip s' = strip s → ks_trans s !! q = Some k → ∃ k', ks_trans s' !! q = Some k' ∧ set_t_entry None k' = set_t_entry None k.
Proof.
  intros Hst Hk. assert ((set_t_entry None <$> ks_trans s') !! q = (set_t_entry None <$> ks_trans s) !! q) as E by exact (f_equal (λ z, ks_trans z !! q) Hst).
  rewrite !lookup_fmap, Hk in E. destruct (ks_trans s' !! q) as [k'|]; [|done]. apply (inj Some) in E. by exists k'.
Qed.

Lemma queue_call s h from to tp n nd data euid t w x s1 :
  queues_ok s → callable s h from to tp n nd → prepared s to tp n euid nd data t w x s1 → has_flag (txn_flags tr) TF_ONE_WAY = false →
  ∃ xt s', queue_transaction th tp 0 n 0 t w (tp, x) (txn_flags tr) s1 = Some ((), s') ∧ call_queued s h to tp n euid nd data t w x xt s'.
Proof.
  intros Hok [_ [Hn Hnd] _ Hf Ht _ [_ Hth] Hidle] [Hgr [Htf Hwf] Hths (nice & Hx) Hw Hnodes (to' & Hto & Hbuf & Hdata) Hprocs] Hsync.
  unfold queue_transaction. rewrite (kbind_run _ _ _ _ _ (buffer_at_run s1 (tp, x) to' _ Hto Hbuf)). cbv zeta.
  change (truthy 0) with false. cbv iota. rewrite Hsync. cbn [negb].
  set (x1 := set_t_need_reply true (set_t_from_parent (th_transaction_stack h) (set_t_buffer (Some (tp, x)) (new_transaction false th tp 0 nice euid tr)))).
  set (s2 := set_ks_trans (<[t := x1]> (ks_trans s1)) s1). set (s3 := set_ks_threads (<[th := set_th_transaction_stack t h]> (ks_threads s)) s2).
  eassert (_ s1 = Some ((Q_proc tp, Some (Wake_proc tp)), s3)) as Hmid; [|rewrite (kbind_run _ _ _ _ _ Hmid); clear Hmid].
  { assert (b_async_transaction (call_buffer t n x) = false) as -> by exact Hsync. cbn [negb kassert]. krun.
    rewrite <- Hths in Hth. krun. krun. rewrite (kbind_run _ _ _ _ _ (upd_thread_run th _ h s2 Hth)). unfold s3. by rewrite <- Hths. }
  cbv beta iota. destruct Hgr as [Hqs Hes].
  assert (queue_items s (Q_proc tp) = Some (k_todo to)) as Hqp by (cbn; by rewrite Ht).
  assert (queue_items s (Q_thread th) = Some (th_todo h)) as Hqt by (cbn; by rewrite Hth).
  assert (same_lists s1 s3) as Hsame.
  { apply (same_lists_trans s1 s2); [by apply (same_trans s1 t _ x1 Hx)|]. unfold s3. rewrite <- Hths. by apply (same_thread s2 th h); [cbn; rewrite Hths|]. }
  destruct (Hsame) as [Hq3 He3]. assert (queues_ok s3) as Hok3 by (eapply queues_ok_same; [exact Hsame|]; by apply (grown_ok s)).
  destruct (list_add_tail_ok s3 (W_transaction t) (Q_proc tp) (k_todo to) Hok3) as (s4 & Hr4 & Hok4 & St4 & E4 & I4).
  { rewrite He3. cbn. by rewrite Hx. }
  { by rewrite Hq3, Hqs. }
  rewrite (kbind_run _ _ _ _ _ Hr4).
  destruct (list_add_tail_ok s4 (W_complete w) (Q_thread th) (th_todo h) Hok4) as (s5 & Hr5 & Hok5 & St5 & E5 & I5).
  { rewrite E4, He3. done. }
  { rewrite I4, decide_False, Hq3, Hqs by done. done. }
  rewrite (kbind_run _ _ _ _ _ Hr5). assert (strip s5 = strip s3) as St by congruence.
  destruct (strip_trans s3 s5 t x1 St (lookup_insert_eq _ _ _)) as (xt & Hxt & Hxt').
  destruct (strip_proc s3 s5 tp to' St Hto) as (to2 & Hto2 & Ha2 & Hd2).
  destruct (strip_thread s3 s5 th _ St (lookup_insert_eq _ _ _)) as (h2 & Hh2 & Hst2 & Hpr2).
  destruct (agree_node_r s3 s5 n _ St ltac:(cbn; rewrite Hnodes; apply lookup_insert_eq)) as (nd2 & Hnd2 & Hcl).
  eexists xt, _. split; [reflexivity|]. split; cbn.
  - eapply queues_ok_same; [|exact Hok5]. by split; intros [].
  - split; [exact Hxt|]. rewrite <- Hidle.
    split; [exact (f_equal t_buffer Hxt')|]. split; [etrans; [exact (f_equal t_from Hxt')|cbn; by rewrite Hsync]|].
    split; [exact (f_equal t_code Hxt')|]. split; [exact (f_equal t_flags Hxt')|]. split; [exact (f_equal t_sender_euid Hxt')|].
    split; [exact (f_equal t_need_reply Hxt')|exact (f_equal t_from_parent Hxt')].
  - exists to2. by rewrite Ha2, Hd2.
  - exists nd2. split; [done|]. split; [exact (f_equal n_ptr Hcl)|]. split; [exact (f_equal n_cookie Hcl)|exact (f_equal n_local_strong_refs Hcl)].
  - by exists h2.
  - intros q [k Hk]. destruct (Hprocs q ltac:(by exists k)) as [k1 Hk1]. destruct (strip_proc s3 s5 q k1 St Hk1) as (k2 & -> & _). by eexists.
  - done.
  - intros q k Hq Hk. apply (strip_thread_full s3 s5 q k St). cbn. by rewrite lookup_insert_ne by congruence.
  - intros q. change (queue_items s5 q = if decide (q = Q_proc tp) then Some (k_todo to ++ [W_transaction t])
      else if decide (q = Q_thread th) then Some (th_todo h ++ [W_complete w]) else queue_items s q).
    rewrite I5, I4, Hq3, Hqs. destruct (decide (q = Q_thread th)) as [->|]; [by rewrite decide_False by done|done].
  - by eexists.
Qed.

(** ** Delivered *)

Lemma queued_deliverable s h from to tp n nd data euid t w x xt s' :
  callable s h from to tp n nd → th_proc h = p → call_queued s h to tp n euid nd data t w x xt s' → deliverable s' t xt (tp, x) (call_buffer t n x).
Proof.
  intros [_ _ _ Hf _ _ _ _] Hp [_ (Hx & Hb & Hfrom & _) (to' & Hto & Hy & _) (nd' & Hnd & _) (h' & Hh & _ & Hhp) Hprocs _ _ _ _].
  split; [done|done|by exists to'|intros _; by exists nd'|]. intros _. exists h'. rewrite Hfrom. split; [done|]. rewrite Hhp, Hp. apply Hprocs. by exists from.
Qed.

(** An idle thread of the target with nothing else to do finds the call first. *)
Lemma queued_is_next s h to tp n nd data euid t w x xt s' r hr :
  call_queued s h to tp n euid nd data t w x xt s' → ks_threads s !! r = Some hr → th_todo hr = [] → r ≠ th → k_todo to = [] →
  next_work tp r true s' = Some (Some (W_transaction t), s') ∧ listed tp r s'.
Proof.
  intros [Hok _ (to' & Hto & _) _ _ _ _ _ Hq _] Hr Hempty Hne Htodo. split.
  - pose proof (Hq (Q_thread r)) as Q1. pose proof (Hq (Q_proc tp)) as Q2. rewrite decide_True in Q2 by done.
    rewrite !decide_False in Q1 by congruence. cbn in Q1, Q2. rewrite Hr in Q1. rewrite Hto, Htodo in Q2.
    destruct (ks_threads s' !! r) as [hr'|] eqn:Hr'; [|done]. cbn in Q1, Q2. rewrite Hempty in Q1. apply (inj Some) in Q1, Q2.
    unfold next_work. krun. krun. by rewrite Q1, Q2.
  - intros q l v _ Hl Hv. by apply Hok with l.
Qed.

(** ** A read of an idle thread *)

(** The state in which an idle thread looks at the work: its flags, the number of ready threads and the priorities may have changed. *)
Definition awake (q r l z : Z) (nice : gmap Z Z) (k : kproc) (hr : binder_thread) (s : kstate) : kstate :=
  set_ks_nice nice (set_ks_threads (<[r := set_th_looper l hr]> (ks_threads s)) (set_ks_procs (<[q := set_k_ready_threads z k]> (ks_procs s)) s)).

Lemma idle_round task_tgid server q r writable size i env nb m s hr k :
  ks_threads s !! r = Some hr → ks_procs s !! q = Some k → th_transaction_stack hr = 0 → th_todo hr = [] → th_return_error hr = BR_OK →
  k_todo k ≠ [] → w_others env i = mret () →
  ∃ l z nice, let s' := awake q r l z nice k hr s in
    read_round task_tgid server q r writable size i env nb m 0 s =
      (st ← read_loop task_tgid server q r writable size (read_fuel q r size s') true m 0; mret (Some st)) s'.
Proof.
  intros Hr Hk Hst Hemp Herr Htodo Henv.
  set (l := (th_looper hr ||| LOOPER_WAITING) &&& Z.lnot LOOPER_WAITING). set (z := k_ready_threads k + 1 - 1).
  set (prio := k_default_priority k). set (nice := <[tsk_pid server := if can_nice (tsk_pid server) prio then prio else rlimit_nice (tsk_pid server)]> (ks_nice s)).
  exists l, z, nice. cbv zeta. unfold read_round. krun. cbv zeta. rewrite Hst, Hemp. change ((0 =? 0) && bool_decide ([] = [])) with true.
  unfold read_errors. erewrite kbind_run; [|krun; rewrite Herr, Z.eqb_refl; reflexivity]. cbv iota.
  unfold or_looper. krun. set (s1 := set_ks_threads _ s). assert (ks_procs s1 !! q = Some k) as Hk1 by done. krun.
  set (s2 := set_ks_procs _ s1). set (k2 := set_k_ready_threads _ k) in *.
  assert (ks_procs s2 !! q = Some k2) as Hk2 by (cbn; apply lookup_insert_eq).
  set (h2 := set_th_looper (th_looper hr ||| LOOPER_WAITING) hr) in *. set (s3 := set_ks_nice nice s2).
  assert (wait_for_work server q r i env true nb s2 = Some (Some 0, s3)) as Hwait.
  { unfold wait_for_work. krun. erewrite (kbind_run _ _ s2 () s3).
    - rewrite Henv. rewrite (kbind_run _ _ s3 () s3) by done. rewrite (kbind_run _ _ s3 true s3); [reflexivity|]. unfold binder_has_proc_work.
      assert (ks_procs s3 !! q = Some k2) as Hk3 by exact Hk2. assert (ks_threads s3 !! r = Some h2) as Hr3 by (cbn; apply lookup_insert_eq). krun. krun.
      assert (bool_decide (k_todo k2 = []) = false) as -> by (by apply bool_decide_eq_false). reflexivity.
    - unfold binder_set_nice, set_user_nice, s3, nice, prio. change (k_default_priority k2) with (k_default_priority k). by destruct (can_nice _ _). }
  rewrite (kbind_run _ _ _ _ _ Hwait). cbv iota.
  assert (ks_procs s3 !! q = Some k2) as Hk3 by exact Hk2. krun. set (s4 := set_ks_procs _ s3).
  assert (ks_threads s4 !! r = Some h2) as Hr4 by (cbn; apply lookup_insert_eq). krun. set (s5 := set_ks_threads _ s4).
  assert (s5 = awake q r l z nice k hr s) as ->.
  { unfold s5, s4, s3, s2, s1, awake, set_ks_threads, set_ks_procs, set_ks_nice. cbn. rewrite !insert_insert_eq. done. }
  change (truthy 0) with false. cbv iota. by krun.
Qed.

(** The work is the same in it. *)
Lemma awake_work q r l z nice k hr s t x b y :
  ks_threads s !! r = Some hr → ks_procs s !! q = Some k → let s' := awake q r l z nice k hr s in
  next_work q r true s = Some (Some (W_transaction t), s) → listed q r s → deliverable s t x b y →
  next_work q r true s' = Some (Some (W_transaction t), s') ∧ listed q r s' ∧ deliverable s' t x b y.
Proof.
  intros Hr Hk s' Hn Hl [D1 D2 (kb & D3 & D3') D4 D5].
  assert (ks_threads s' !! r = Some (set_th_looper l hr)) as Hr' by (cbn; apply lookup_insert_eq).
  assert (ks_procs s' !! q = Some (set_k_ready_threads z k)) as Hk' by (cbn; apply lookup_insert_eq).
  assert (same_lists s s') as [Sq Se].
  { split; [|by intros []]. intros [a|a|a|a]; cbn; try done; [by_key q a; [by rewrite Hk|done]|by_key r a; [by rewrite Hr|done]|by_key q a; [by rewrite Hk|done]]. }
  split; [|split].
  - unfold next_work in *. revert Hn. krun. krun. krun. krun. cbn. destruct (th_todo hr); [|by intros [= ->]]. destruct (k_todo k); [done|by intros [= ->]].
  - intros a li w Ha Hli Hw. rewrite Se. rewrite Sq in Hli. by apply Hl with li.
  - split; [done|done| |exact D4|].
    + destruct (decide (q = b.1)) as [Heq|Hne]; [rewrite <- Heq in *|exists kb; cbn; by rewrite lookup_insert_ne].
      exists (set_k_ready_threads z k). split; [done|]. rewrite Hk in D3. by injection D3 as ->.
    + intros Hf. destruct (D5 Hf) as (hf & Hhf & kf & Hkf).
      assert (∀ a, is_Some (ks_procs s !! a) → is_Some (ks_procs s' !! a)) as Hps by (intros a Ha; cbn; by_key q a; [by eexists|done]).
      destruct (decide (r = t_from x)) as [Heq|Hne]; [|exists hf; split; [cbn; by rewrite lookup_insert_ne|apply Hps; by exists kf]].
      rewrite <- Heq in *. exists (set_th_looper l hr). split; [done|]. rewrite Hr in Hhf. injection Hhf as ->. apply Hps. by exists kf.
Qed.

Lemma awake_sender task_tgid q r l z nice k hr s from h f pid :
  ks_threads s !! r = Some hr → ks_procs s !! q = Some k → ks_threads s !! from = Some h → ks_procs s !! th_proc h = Some f → from ≠ 0 →
  let s' := awake q r l z nice k hr s in sender_pid task_tgid from s' = Some (pid, s') → pid = task_tgid (k_tsk f).
Proof.
  intros Hr Hk Hh Hf Hne s' Hs. unfold sender_pid in Hs. rewrite (truthy_ne from Hne) in Hs. kinv Hs h1 s1 E1. apply thread_at_inv in E1 as [Hh1 ->].
  kinv Hs f1 s2 E2. apply proc_at_inv in E2 as [Hf1 ->]. injection Hs as <-.
  assert (th_proc h1 = th_proc h) as Hp.
  { revert Hh1. cbn. by_key r from; [|congruence]. rewrite Hr in Hh. injection Hh as ->. by intros [= <-]. }
  rewrite Hp in Hf1. revert Hf1 Hf. generalize (th_proc h). intros a. cbn. by_key q a; [|congruence]. rewrite Hk. by intros [= <-] [= ->].
Qed.

Lemma limits_of s q k : ks_procs s !! q = Some k → limits s q = Some (k_max_threads k, k_requested_threads_started k).
Proof. intros Hk. unfold limits. by rewrite Hk. Qed.

(** A whole read of an idle thread whose process has the threads it wants: the call at the head of the work. *)
Lemma idle_read {W} `{BinderClient W} `{!BinderReturnsLaws} task_tgid server q r writable size retries env nb m s hr k t x b y :
  next_work q r true s = Some (Some (W_transaction t), s) → listed q r s → deliverable s t x b y →
  ks_threads s !! r = Some hr → ks_procs s !! q = Some k → th_transaction_stack hr = 0 → th_todo hr = [] → th_return_error hr = BR_OK →
  k_todo k ≠ [] → w_others env 0 = mret () → k_max_threads k ≤ k_requested_threads_started k →
  44 ≤ size < 2 ^ 32 → (length m mod 4 = 0)%nat → 44 ≤ zlen m → (∀ a, writable a 4 = true) →
  ∃ l z nice m' s2 pid target cookie off, let s' := awake q r l z nice k hr s in
    binder_thread_read task_tgid server q r writable size retries env nb m 0 s = Some (Read_done 0 44 m', s2) ∧
    sender_pid task_tgid (t_from x) s' = Some (pid, s') ∧ off = p_user_buffer_offset (k_alloc k) ∧
    (b_target_node y ≠ 0 → ∃ n, ks_nodes s !! b_target_node y = Some n ∧ target = n_ptr n ∧ cookie = n_cookie n) ∧
    let e := (if truthy (b_target_node y) then E_transaction else E_reply) (txn_of target cookie pid off x y) in
    (Forall (λ v, 0 ≤ v < 2 ^ 32) (event_words e) →
     ∀ bio func mp rdata w, binder_parse bio func mp rdata (words m') 44 w = run_events bio func mp rdata [e] w).
Proof.
  intros Hn Hl Hd Hr Hk Hst Hemp Herr Htodo Henv Hlim Hsz Hlm Hm Hwr.
  destruct (idle_round task_tgid server q r writable size 0 env nb m s hr k Hr Hk Hst Hemp Herr Htodo Henv) as (l & z & nice & Hround). cbv zeta in Hround.
  destruct (awake_work q r l z nice k hr s t x b y Hr Hk Hn Hl Hd) as (Hn' & Hl' & Hd'). set (s' := awake q r l z nice k hr s) in *.
  destruct (read_fuel q r size s') as [|f] eqn:Hf; [unfold read_fuel in Hf; lia|].
  destruct (transaction_reaches_handler task_tgid server q r writable size f true t m s' x b y Hn' Hl' Hd' Hsz Hlm Hm Hwr)
    as (m' & s2 & pid & target & cookie & off & Hread & Hpid & (k' & Hk' & Hoff) & Hnode & Hparse).
  exists l, z, nice, m', s2, pid, target, cookie, off. cbv zeta. fold s'. split.
  - unfold binder_thread_read. assert (read_round task_tgid server q r writable size 0 env nb m 0 s = Some (Some (Step_done 44 m'), s2)) as Hr0.
    { rewrite Hround. by rewrite (kbind_run _ _ _ _ _ Hread). }
    destruct retries as [|retries]; cbn [read_from]; rewrite (kbind_run _ _ _ _ _ Hr0); cbv iota; unfold read_finish.
    all: assert (mild s' s2) as (_ & Hdom & Hlim2) by
      (cbn [read_loop] in Hread; rewrite (kbind_run _ _ _ _ _ Hn') in Hread;
       assert ((u32 (size - 0) <? 44) = false) as Hroom by (rewrite wrap_small by lia; lia); rewrite Hroom in Hread; by apply kept_mild_states; apply read_transaction_kept in Hread).
    all: specialize (Hlim2 q); rewrite (limits_of s' q (set_k_ready_threads z k)) in Hlim2 by (cbn; apply lookup_insert_eq); unfold limits in Hlim2;
      destruct (ks_procs s2 !! q) as [k2|] eqn:Hk2; [|done]; apply (inj Some) in Hlim2; injection Hlim2 as Hmax Hstart;
      assert (is_Some (ks_threads s2 !! r)) as [h2 Hh2] by (apply elem_of_dom; rewrite Hdom; apply elem_of_dom; cbn; rewrite lookup_insert_eq; by eexists);
      krun; krun; assert ((k_requested_threads_started k2 <? k_max_threads k2) = false) as -> by lia; by rewrite andb_false_r.
  - split; [exact Hpid|]. split; [|split; [exact Hnode|exact Hparse]].
    assert (ks_procs s' !! q = Some (set_k_ready_threads z k)) as Hk2 by (cbn; apply lookup_insert_eq). rewrite Hk2 in Hk'. by injection Hk' as <-.
Qed.

(** C8: A call reaches the handler it is for.  When a thread that is in no transaction calls a node by a handle it holds, with data but no objects, and the kernel grants memory, the
    call is queued: the thread waits for the answer, its bytes are in a buffer of the target, and the target is woken.  An idle thread of the target, one with no work, no transaction
    and no error of its own, then reads one command of 44 bytes, from which the parser gives the handler the call: the pointer and cookie of the node, the code, flags and size of the sender, the
    sender's process and user as the kernel knows them, and the address at which the target sees the bytes.  The target's process has to have no other work and all the threads it
    wants, since a request for a thread would be stored over the command, and nothing else happens until the thread reads. *)
Theorem call_reaches_handler {W} `{BinderClient W} `{!BinderReturnsLaws} task_tgid server r writable size retries env nb m s h from to tp n nd data hr :
  queues_ok s → callable s h from to tp n nd → th_proc h = p → granted to data → has_flag (txn_flags tr) TF_ONE_WAY = false →
  ks_threads s !! r = Some hr → th_todo hr = [] → th_transaction_stack hr = 0 → th_return_error hr = BR_OK → r ≠ th →
  k_todo to = [] → k_max_threads to ≤ k_requested_threads_started to → w_others env 0 = mret () →
  44 ≤ size < 2 ^ 32 → (length m mod 4 = 0)%nat → 44 ≤ zlen m → (∀ a, writable a 4 = true) →
  ∃ t s1 m' s2 v to' from' x,
    binder_transaction cur p th tr false s = Some ((), s1) ∧
    th_transaction_stack <$> ks_threads s1 !! th = Some t ∧ (∃ es, ks_events s1 = es ++ [Wake_proc tp]) ∧
    ks_procs s1 !! tp = Some to' ∧ ks_procs s1 !! p = Some from' ∧ k_data to' !! x = Some (data, []) ∧
    binder_thread_read task_tgid server tp r writable size retries env nb m 0 s1 = Some (Read_done 0 44 m', s2) ∧
    v = Txn (n_ptr nd) (n_cookie nd) (txn_code tr) (txn_flags tr) (task_tgid (k_tsk from')) (task_euid (k_tsk from)) (txn_data_size tr) 0
          (u32 (x + sizeof_binder_buffer + p_user_buffer_offset (k_alloc to')))
          (u32 (u32 (x + sizeof_binder_buffer + p_user_buffer_offset (k_alloc to')) + ALIGN4 (txn_data_size tr))) ∧
    (Forall (λ z, 0 ≤ z < 2 ^ 32) (event_words (E_transaction v)) →
     ∀ bio func mp rdata w, binder_parse bio func mp rdata (words m') 44 w = run_events bio func mp rdata [E_transaction v] w).
Proof.
  intros Hok Hc Hp Hg Hsync Hr Hempty Hstack Herr Hne Htodo Hlim Henv Hsz Hl Hm Hwr.
  destruct (prepared_call s h from to tp n nd data Hc Hg) as (t & w & x & s0 & Hprep & Hrun).
  destruct (queue_call s h from to tp n nd data _ t w x s0 Hok Hc Hprep Hsync) as (xt & s1 & Hq & Hcq). rewrite Hq in Hrun.
  destruct (queued_is_next _ _ _ _ _ _ _ _ _ _ _ _ _ r hr Hcq Hr Hempty Hne Htodo) as [Hnext Hlst].
  pose proof (queued_deliverable _ _ _ _ _ _ _ _ _ _ _ _ _ _ Hc Hp Hcq) as Hdl.
  destruct Hcq as [_ (Hx & Hb & Hfrom & Hcode & Hfl & Heu & _) (to' & Hto & _ & Hdata) (nd' & Hnd & Hptr & Hck & _) (h' & Hh & Hstk & Hhp) Hprocs _ Hoth Hqs Hwake].
  destruct (Hoth r hr Hne Hr) as (hr1 & Hr1 & Hsame).
  assert (th_todo hr1 = []) as Hemp1.
  { pose proof (Hqs (Q_thread r)) as Q1. rewrite !decide_False in Q1 by congruence. cbn in Q1. rewrite Hr1, Hr in Q1. apply (inj Some) in Q1. cbn in Q1. congruence. }
  assert (k_todo to' ≠ []) as Htodo1.
  { pose proof (Hqs (Q_proc tp)) as Q2. rewrite decide_True in Q2 by done. cbn in Q2. rewrite Hto, Htodo in Q2. apply (inj Some) in Q2. cbn in Q2. by rewrite Q2. }
  assert (k_max_threads to' ≤ k_requested_threads_started to') as Hlim1.
  { pose proof (binder_transaction_mild cur p th tr false s () s1 Hrun) as (_ & _ & Hk). specialize (Hk tp).
    rewrite (limits_of _ _ _ Hto), (limits_of s tp to) in Hk by apply Hc. injection Hk as -> ->. done. }
  destruct (idle_read task_tgid server tp r writable size retries env nb m s1 hr1 to' t xt (tp, x) (call_buffer t n x) Hnext Hlst Hdl Hr1 Hto)
    as (l & z & nice & m' & s2 & pid & target & cookie & off & Hread & Hpid & Hoff & Hnode & Hparse); try done.
  { rewrite <- Hstack. exact (f_equal th_transaction_stack Hsame). } { rewrite <- Herr. exact (f_equal th_return_error Hsame). }
  pose proof (c_node _ _ _ _ _ _ _ Hc) as [Hn0 _]. destruct (Hprocs p) as [from' Hfrom']; [exists from; apply Hc|].
  exists t, s1, m', s2. eexists. exists to', from', x. split; [done|]. split; [rewrite Hh; cbn; by rewrite Hstk|]. do 5 (split; [done|]). split; [reflexivity|].
  cbn [b_target_node call_buffer] in Hparse, Hnode. rewrite (truthy_ne n Hn0) in Hparse. destruct (Hnode Hn0) as (nd2 & Hnd2 & -> & ->).
  assert (nd2 = nd') as -> by congruence. assert (pid = task_tgid (k_tsk from')) as ->.
  { rewrite Hfrom in Hpid. by apply (awake_sender task_tgid tp r l z nice to' hr1 s1 th h' from' pid) in Hpid; [|congruence..|apply Hc]. }
  unfold txn_of in Hparse. rewrite Hcode, Hfl, Heu, Hptr, Hck, Hoff in Hparse. exact Hparse.
Qed.

End Calls.

(** ** The client of the example calls the servicemanager *)

Module KCallsDemo.
Import KAllocDemo DriverDemo KRefsDemo.

#[local] Instance quiet_client : BinderClient unit := {|
  binder_write _ w := w; client_handler _ _ reply w := Some (0, reply, w); client_death _ w := Some w |}.

#[local] Instance demo_returns_laws : BinderReturnsLaws (H := demo_returns).
Proof. split. apply (bool_decide_unpack _). vm_compute. done. Qed.

#[local] Instance quiet_laws : KernelLaws (H := the_kernel) := demo_laws _.

(** A state without any work. *)
Definition no_work (s : kstate) : Prop :=
  map_Forall (λ _ k, k_todo k = [] ∧ k_delivered_death k = []) (ks_procs s) ∧ map_Forall (λ _ x, th_todo x = []) (ks_threads s) ∧
  map_Forall (λ _ x, n_async_todo x = [] ∧ n_entry x = None) (ks_nodes s) ∧ ks_trans s = ∅ ∧ ks_completes s = ∅ ∧ ks_deaths s = ∅.

Lemma no_work_ok s : no_work s → queues_ok s.
Proof.
  intros (Hp & Ht & Hn & Htr & Hco & Hde).
  assert (∀ q l, queue_items s q = Some l → l = []) as Hq.
  { intros [a|a|a|a] l; cbn; (destruct (_ !! a) eqn:E; [|done]); intros [= <-];
      [apply (Hp _ _ E)|apply (Ht _ _ E)|apply (Hn _ _ E)|apply (Hp _ _ E)]. }
  split.
  - intros q l w Hl Hw. rewrite (Hq _ _ Hl) in Hw. by apply not_elem_of_nil in Hw.
  - intros q l Hl. rewrite (Hq _ _ Hl). constructor.
  - intros q [a|a|a|a]; cbn; rewrite ?Htr, ?Hco, ?Hde, ?lookup_empty; try done.
    destruct (ks_nodes s !! a) eqn:E; [|done]. cbn. destruct (Hn _ _ E) as [_ ->]. done.
Qed.

Lemma threads_up_ok : queues_ok threads_up.
Proof. apply no_work_ok. unfold no_work. split_and!; apply (bool_decide_unpack _); vm_compute; exact I. Qed.

(** The objects of the call. *)
Definition sender_thread : binder_thread :=
  match ks_threads threads_up !! client_thread with Some x => x | None => Thread 0 0 0 0 [] 0 0 end.
Definition proc_of (p : Z) : kproc :=
  match ks_procs threads_up !! p with Some k => k | None => KProc 0 0 proc0 ∅ rb_null rb_null rb_null rb_null false 0 [] [] 0 0 0 0 0 end.
Definition manager_node : binder_node :=
  match ks_nodes threads_up !! 1001 with Some x => x | None => Node 0 [] 0 0 0 0 0 false false false false false false 0 [] None end.

Lemma found_is {A} (o : option A) d : (match o with Some _ => true | None => false end) = true → o = Some (match o with Some x => x | None => d end).
Proof. by destruct o. Qed.

Lemma ping_callable : callable 1002 client_thread ping threads_up sender_thread (proc_of 1002) (proc_of 1000) 1000 1001 manager_node.
Proof.
  split.
  - change (ks_context_mgr_node threads_up = 1001). vm_compute. reflexivity.
  - split; [done|]. apply found_is. vm_compute. reflexivity.
  - split; [done|]. vm_compute. reflexivity.
  - apply found_is. vm_compute. reflexivity.
  - apply found_is. vm_compute. reflexivity.
  - done.
  - split; [done|]. apply found_is. vm_compute. reflexivity.
  - vm_compute. reflexivity.
Qed.

Lemma ping_granted : granted client ping (proc_of 1000) (demo_bytes (λ _ _, 0) 20 0 8).
Proof.
  assert (k_alloc (proc_of 1000) = mapped) as Hm by (vm_compute; reflexivity).
  split; [by eexists|rewrite Hm; exact mapped_inv| |split; [cbn; lia|done]|done|done].
  intros k [Hv|[Hv|[Hv|[[Hv _]|[Hv|[Hv|[i Hi]]]]]]]; rewrite ?Hm in *; try (vm_compute in Hv; discriminate Hv).
  - assert (Buf addr0 true false false 0 0 0 0 ∈ p_buffers mapped) as Hin by (vm_compute; constructor).
    specialize (Hv _ Hin eq_refl). vm_compute in Hv. discriminate Hv.
  - by apply Hv.
  - by apply Hi.
Qed.

Lemma call_reaches_handler_witness :
  ∃ s1 m' s2, binder_transaction client 1002 client_thread ping false threads_up = Some ((), s1) ∧
    binder_thread_read (λ x, x) server 1000 server_thread anyone 128 3 alone false blank 0 s1 = Some (Read_done 0 44 m', s2).
Proof.
  destruct (ks_threads threads_up !! server_thread) as [hr|] eqn:Hr; [|vm_compute in Hr; discriminate Hr].
  assert ((λ x, (th_todo x, th_transaction_stack x, th_return_error x)) <$> ks_threads threads_up !! server_thread = Some ([], 0, BR_OK)) as Hidle
    by (vm_compute; reflexivity).
  rewrite Hr in Hidle. apply (inj Some) in Hidle. injection Hidle as Hi1 Hi2 Hi3.
  destruct (call_reaches_handler client 1002 client_thread ping (λ x, x) server server_thread anyone 128 3 alone false blank threads_up sender_thread
    (proc_of 1002) (proc_of 1000) 1000 1001 manager_node _ hr threads_up_ok ping_callable eq_refl ping_granted eq_refl Hr Hi1 Hi2 Hi3)
    as (t & s1 & m' & s2 & v & to' & from' & x & Hc & _ & _ & _ & _ & _ & Hread & _);
    [vm_compute; discriminate|vm_compute; reflexivity|vm_compute; discriminate|reflexivity|lia|reflexivity|vm_compute; discriminate|reflexivity|].
  exists s1, m', s2. split; [exact Hc|exact Hread].
Defined.

End KCallsDemo.
