(* ===== verification/KDump.v ===== *)
(** * Binder driver: what the driver tells about itself

    The statistics, the logs of transactions and the debugfs files of [patches/kernel/binder.c].  What the driver keeps
    only to tell it (statistics and logs) is a state of its own, and the [debug_id] of an object is given by its address.
    A file's text is what [seq_file] collects; setting [m->count] back drops what was printed since.  The files are read
    with the driver's lock held, but for the two logs, which are read without it: here they are read while no transaction is under way,
    and a read during one may show an entry that is not filled in yet.

    The logs show the last transactions in order, the list of transactions tells which threads are busy, the walk over a
    thread's stack ends, and the number of objects survives the wrap-around of its counters. *)
From Stdlib Require Import String.
From stdpp Require Import gmap.
From S2P Require Import Prelude Text Bio Binder KAlloc KAllocSpec KAllocProps KState KRefs KTrans KWrite KRead KProc KDemo KQueues KFrame.

(** ** Statistics *)

Inductive binder_stat_types :=
| BINDER_STAT_PROC | BINDER_STAT_THREAD | BINDER_STAT_NODE | BINDER_STAT_REF | BINDER_STAT_DEATH | BINDER_STAT_TRANSACTION
| BINDER_STAT_TRANSACTION_COMPLETE.

Definition stat_index (t : binder_stat_types) : nat :=
  match t with
  | BINDER_STAT_PROC => 0 | BINDER_STAT_THREAD => 1 | BINDER_STAT_NODE => 2 | BINDER_STAT_REF => 3 | BINDER_STAT_DEATH => 4
  | BINDER_STAT_TRANSACTION => 5 | BINDER_STAT_TRANSACTION_COMPLETE => 6
  end.

Record binder_stats := Stats {
  st_br : list Z;
  st_bc : list Z;
  st_obj_created : list Z;
  st_obj_deleted : list Z }.

(** An [int] of the statistics is counted up, and wraps around. *)
Definition count_up (i : nat) (l : list Z) : list Z := alter (λ x, signed 32 (x + 1)) i l.

Definition binder_stats_deleted (t : binder_stat_types) (st : binder_stats) : binder_stats :=
  Stats (st_br st) (st_bc st) (st_obj_created st) (count_up (stat_index t) (st_obj_deleted st)).
Definition binder_stats_created (t : binder_stat_types) (st : binder_stats) : binder_stats :=
  Stats (st_br st) (st_bc st) (count_up (stat_index t) (st_obj_created st)) (st_obj_deleted st).

(** The number of a command, its low byte. *)
Definition IOC_NR (cmd : Z) : nat := Z.to_nat (cmd &&& 255).

Definition count_bc (cmd : Z) (st : binder_stats) : binder_stats :=
  Stats (st_br st) (count_up (IOC_NR cmd) (st_bc st)) (st_obj_created st) (st_obj_deleted st).
Definition count_br (cmd : Z) (st : binder_stats) : binder_stats :=
  Stats (count_up (IOC_NR cmd) (st_br st)) (st_bc st) (st_obj_created st) (st_obj_deleted st).

(** ** The logs of transactions *)

Record binder_transaction_log_entry := LogEntry {
  le_debug_id : Z;
  le_call_type : Z;
  le_from_proc : Z;
  le_from_thread : Z;
  le_target_handle : Z;
  le_to_proc : Z;
  le_to_thread : Z;
  le_to_node : Z;
  le_data_size : Z;
  le_offsets_size : Z }.

Record binder_transaction_log := Log { log_next : Z; log_full : bool; log_entry : list binder_transaction_log_entry }.

Definition zero_entry : binder_transaction_log_entry := LogEntry 0 0 0 0 0 0 0 0 0 0.
Definition empty_log : binder_transaction_log := Log 0 false (replicate 32 zero_entry).

(** The index of a cleared entry. *)
Definition binder_transaction_log_add (log : binder_transaction_log) : nat * binder_transaction_log :=
  let i := Z.to_nat (log_next log) in
  let entries := <[i := zero_entry]> (log_entry log) in
  let next := log_next log + 1 in
  (i, if next =? zlen entries then Log 0 true entries else Log next (log_full log) entries).

Definition write_entry (i : nat) (f : binder_transaction_log_entry → binder_transaction_log_entry) (log : binder_transaction_log) : binder_transaction_log :=
  Log (log_next log) (log_full log) (alter f i (log_entry log)).

(** What the driver keeps to tell it. *)
Record debug := Debug {
  dbg_stats : binder_stats;
  dbg_proc_stats : gmap Z binder_stats;
  dbg_thread_stats : gmap Z binder_stats;
  dbg_log : binder_transaction_log;
  dbg_log_failed : binder_transaction_log }.

Definition with_stats (p th : Z) (f : binder_stats → binder_stats) (d : debug) : debug :=
  Debug (f (dbg_stats d)) (alter f p (dbg_proc_stats d)) (alter f th (dbg_thread_stats d)) (dbg_log d) (dbg_log_failed d).
Definition binder_stat_br (p th cmd : Z) (d : debug) : debug := with_stats p th (count_br cmd) d.
Definition binder_stat_bc (p th cmd : Z) (d : debug) : debug := with_stats p th (count_bc cmd) d.

(** The number of an object, which only the files tell, and how %p prints an address. *)
Class DebugIds := {
  trans_debug_id : Z → Z;
  node_debug_id : Z → Z;
  ref_debug_id : Z → Z;
  buffer_debug_id : Z * Z → Z;
  pointer_chars : Z → list Z }.

Section Log.
Context `{RbTree} `{Kernel} `{BinderApi} `{DebugIds}.

(** The entry is filled in as the transaction proceeds. *)
Definition first_fields (reply : bool) (from_proc from_thread : Z) (tr : binder_txn) (e : binder_transaction_log_entry) : binder_transaction_log_entry :=
  LogEntry (le_debug_id e) (if reply then 2 else Z.b2z (has_flag (txn_flags tr) TF_ONE_WAY)) from_proc from_thread (signed 32 (txn_target tr)) (le_to_proc e) (le_to_thread e) (le_to_node e)
    (signed 32 (txn_data_size tr)) (signed 32 (txn_offs_size tr)).
Definition later_fields (c : course) (e : binder_transaction_log_entry) : binder_transaction_log_entry :=
  LogEntry (from_option trans_debug_id (le_debug_id e) (co_transaction c)) (le_call_type e) (le_from_proc e) (le_from_thread e) (le_target_handle e)
    (default (le_to_proc e) (co_to_proc c)) (default (le_to_thread e) (co_to_thread c))
    (if truthy (co_to_node c) then node_debug_id (co_to_node c) else le_to_node e) (le_data_size e) (le_offsets_size e).

(** [binder_transaction] with its entries in the logs. *)
Definition log_transaction (cur : task) (p th : Z) (tr : binder_txn) (reply : bool) (d : debug) : KM debug :=
  k ← proc_at p; x ← thread_at th;
  let '(i, log) := binder_transaction_log_add (dbg_log d) in
  let log := write_entry i (first_fields reply (k_pid k) (th_pid x) tr) log in
  c ← transaction_course cur p th tr reply;
  let log := write_entry i (later_fields c) log in
  let failed :=
    if co_failed c then
      let '(j, failed) := binder_transaction_log_add (dbg_log_failed d) in
      write_entry j (λ x, default x (log_entry log !! i)) failed
    else dbg_log_failed d in
  mret (Debug (dbg_stats d) (dbg_proc_stats d) (dbg_thread_stats d) log failed).
End Log.

(** ** Text *)

Definition print_entry (e : binder_transaction_log_entry) : list Z :=
  sdecimal (le_debug_id e) ++ bytes_of ": " ++
  (if le_call_type e =? 2 then bytes_of "reply" else if le_call_type e =? 1 then bytes_of "async" else bytes_of "call ") ++
  bytes_of " from " ++ sdecimal (le_from_proc e) ++ bytes_of ":" ++ sdecimal (le_from_thread e) ++
  bytes_of " to " ++ sdecimal (le_to_proc e) ++ bytes_of ":" ++ sdecimal (le_to_thread e) ++
  bytes_of " node " ++ sdecimal (le_to_node e) ++ bytes_of " handle " ++ sdecimal (le_target_handle e) ++
  bytes_of " size " ++ sdecimal (le_data_size e) ++ bytes_of ":" ++ sdecimal (le_offsets_size e) ++ [10].

Definition binder_transaction_log_show (log : binder_transaction_log) : list Z :=
  (if log_full log then flat_map print_entry (drop (Z.to_nat (log_next log)) (log_entry log)) else []) ++
  flat_map print_entry (take (Z.to_nat (log_next log)) (log_entry log)).

Definition binder_return_strings : list (list Z) :=
  bytes_of <$> ["BR_ERROR"; "BR_OK"; "BR_TRANSACTION"; "BR_REPLY"; "BR_ACQUIRE_RESULT"; "BR_DEAD_REPLY"; "BR_TRANSACTION_COMPLETE";
    "BR_INCREFS"; "BR_ACQUIRE"; "BR_RELEASE"; "BR_DECREFS"; "BR_ATTEMPT_ACQUIRE"; "BR_NOOP"; "BR_SPAWN_LOOPER"; "BR_FINISHED";
    "BR_DEAD_BINDER"; "BR_CLEAR_DEATH_NOTIFICATION_DONE"; "BR_FAILED_REPLY"]%string.
Definition binder_command_strings : list (list Z) :=
  bytes_of <$> ["BC_TRANSACTION"; "BC_REPLY"; "BC_ACQUIRE_RESULT"; "BC_FREE_BUFFER"; "BC_INCREFS"; "BC_ACQUIRE"; "BC_RELEASE";
    "BC_DECREFS"; "BC_INCREFS_DONE"; "BC_ACQUIRE_DONE"; "BC_ATTEMPT_ACQUIRE"; "BC_REGISTER_LOOPER"; "BC_ENTER_LOOPER"; "BC_EXIT_LOOPER";
    "BC_REQUEST_DEATH_NOTIFICATION"; "BC_CLEAR_DEATH_NOTIFICATION"; "BC_DEAD_BINDER_DONE"]%string.
Definition binder_objstat_strings : list (list Z) :=
  bytes_of <$> ["proc"; "thread"; "node"; "ref"; "death"; "transaction"; "transaction_complete"]%string.

Definition count_line (prefix : list Z) (x : list Z * Z) : list Z :=
  if truthy x.2 then prefix ++ x.1 ++ bytes_of ": " ++ sdecimal x.2 ++ [10] else [].

(** The objects of a kind that are there, of the ones created and deleted. *)
Definition active (created deleted : Z) : Z := signed 32 (created - deleted).
Definition object_line (prefix : list Z) (x : list Z * (Z * Z)) : list Z :=
  let '(name, (created, deleted)) := x in
  if truthy created || truthy deleted then prefix ++ name ++ bytes_of ": active " ++ sdecimal (active created deleted) ++ bytes_of " total " ++ sdecimal created ++ [10] else [].

Definition print_binder_stats (prefix : list Z) (st : binder_stats) : list Z :=
  flat_map (count_line prefix) (zip binder_command_strings (st_bc st)) ++
  flat_map (count_line prefix) (zip binder_return_strings (st_br st)) ++
  flat_map (object_line prefix) (zip binder_objstat_strings (zip (st_obj_created st) (st_obj_deleted st))).

Section Dump.
Context `{DebugIds}.

(** A size, printed with %zd. *)
Definition zd (n : Z) : list Z := sdecimal (signed 32 n).
Definition llx16 (n : Z) : list Z := pad_left 16 48 (hexadecimal n).

(** The text of a list of things, one after the other. *)
Fixpoint print_all {A} (f : A → KM (list Z)) (l : list A) : KM (list Z) :=
  match l with
  | [] => mret []
  | x :: l => a ← f x; b ← print_all f l; mret (a ++ b)
  end.

Definition thread_pids (th : Z) : KM (Z * Z) :=
  if truthy th then x ← thread_at th; p ← proc_at (th_proc x); mret (k_pid p, th_pid x) else mret (0, 0).

Definition print_binder_transaction (prefix : list Z) (t : Z) : KM (list Z) :=
  x ← trans_at t;
  from ← thread_pids (t_from x);
  to_proc ← (if truthy (t_to_proc x) then p ← proc_at (t_to_proc x); mret (k_pid p) else mret 0);
  to_thread ← (if truthy (t_to_thread x) then th ← thread_at (t_to_thread x); mret (th_pid th) else mret 0);
  let line := prefix ++ bytes_of " " ++ sdecimal (trans_debug_id t) ++ bytes_of ": " ++ pointer_chars t ++
    bytes_of " from " ++ sdecimal from.1 ++ bytes_of ":" ++ sdecimal from.2 ++ bytes_of " to " ++ sdecimal to_proc ++ bytes_of ":" ++ sdecimal to_thread ++
    bytes_of " code " ++ hexadecimal (t_code x) ++ bytes_of " flags " ++ hexadecimal (t_flags x) ++
    bytes_of " pri " ++ sdecimal (t_priority x) ++ bytes_of " r" ++ sdecimal (Z.b2z (t_need_reply x)) in
  match t_buffer x with
  | None => mret (line ++ bytes_of " buffer free" ++ [10])
  | Some b =>
    y ← buffer_at b;
    let node := if truthy (b_target_node y) then bytes_of " node " ++ sdecimal (node_debug_id (b_target_node y)) else [] in
    mret (line ++ node ++ bytes_of " size " ++ zd (b_data_size y) ++ bytes_of ":" ++ zd (b_offsets_size y) ++ bytes_of " data " ++ pointer_chars (b_data y) ++ [10])
  end.

Definition print_binder_buffer (prefix : list Z) (b : Z * Z) : KM (list Z) :=
  y ← buffer_at b;
  mret (prefix ++ bytes_of " " ++ sdecimal (buffer_debug_id b) ++ bytes_of ": " ++ pointer_chars (b_data y) ++ bytes_of " size " ++ zd (b_data_size y) ++
    bytes_of ":" ++ zd (b_offsets_size y) ++ bytes_of " " ++ (if truthy (b_transaction y) then bytes_of "active" else bytes_of "delivered") ++ [10]).

Definition print_binder_work (prefix transaction_prefix : list Z) (w : binder_work) : KM (list Z) :=
  match w with
  | W_transaction t => print_binder_transaction transaction_prefix t
  | W_complete _ => mret (prefix ++ bytes_of "transaction complete" ++ [10])
  | W_node n =>
    x ← node_at n;
    mret (prefix ++ bytes_of "node work " ++ sdecimal (node_debug_id n) ++ bytes_of ": u" ++ llx16 (n_ptr x) ++ bytes_of " c" ++ llx16 (n_cookie x) ++ [10])
  | W_death d =>
    x ← death_at d;
    mret (prefix ++ (match d_type x with
                     | DEAD_BINDER => bytes_of "has dead binder"
                     | DEAD_BINDER_AND_CLEAR => bytes_of "has cleared dead binder"
                     | CLEAR_DEATH_NOTIFICATION => bytes_of "has cleared death notification"
                     | Death_unset => bytes_of "unknown work: type 0"
                     end) ++ [10])
  end.

(** The transactions a thread is in, from its stack. *)
Fixpoint print_stack (fuel : nat) (th t : Z) : KM (list Z) :=
  if t =? 0 then mret [] else
  match fuel with
  | O => kfault
  | S fuel =>
    x ← trans_at t;
    if t_from x =? th then a ← print_binder_transaction (bytes_of "    outgoing transaction") t; b ← print_stack fuel th (t_from_parent x); mret (a ++ b)
    else if t_to_thread x =? th then a ← print_binder_transaction (bytes_of "    incoming transaction") t; b ← print_stack fuel th (t_to_parent x); mret (a ++ b)
    else print_binder_transaction (bytes_of "    bad transaction") t
  end.

(** A part of the text with a first line that is dropped when nothing follows it. *)
Definition under (header : list Z) (always : bool) (body : list Z) : list Z :=
  if negb always && (zlen (header ++ body) =? zlen header) then [] else header ++ body.

Definition print_binder_thread (print_always : bool) (th : Z) : KM (list Z) :=
  x ← thread_at th; s ← kget id;
  stack ← print_stack (size (ks_trans s)) th (th_transaction_stack x);
  work ← print_all (print_binder_work (bytes_of "    ") (bytes_of "    pending transaction")) (th_todo x);
  mret (under (bytes_of "  thread " ++ sdecimal (th_pid x) ++ bytes_of ": l " ++ pad_left 2 48 (hexadecimal (th_looper x)) ++ [10]) print_always (stack ++ work)).

Definition print_binder_node (n : Z) : KM (list Z) :=
  x ← node_at n;
  pids ← print_all (λ r, y ← ref_at r; p ← proc_at (r_proc y); mret (bytes_of " " ++ sdecimal (k_pid p))) (n_refs x);
  work ← print_all (print_binder_work (bytes_of "    ") (bytes_of "    pending async transaction")) (n_async_todo x);
  let count := zlen (n_refs x) in
  mret (bytes_of "  node " ++ sdecimal (node_debug_id n) ++ bytes_of ": u" ++ llx16 (n_ptr x) ++ bytes_of " c" ++ llx16 (n_cookie x) ++
    bytes_of " hs " ++ sdecimal (Z.b2z (n_has_strong_ref x)) ++ bytes_of " hw " ++ sdecimal (Z.b2z (n_has_weak_ref x)) ++
    bytes_of " ls " ++ sdecimal (n_local_strong_refs x) ++ bytes_of " lw " ++ sdecimal (n_local_weak_refs x) ++
    bytes_of " is " ++ sdecimal (n_internal_strong_refs x) ++ bytes_of " iw " ++ sdecimal count ++
    (if truthy count then bytes_of " proc" ++ pids else []) ++ [10] ++ work).

Definition print_binder_ref (r : Z) : KM (list Z) :=
  x ← ref_at r; n ← node_at (r_node x);
  mret (bytes_of "  ref " ++ sdecimal (ref_debug_id r) ++ bytes_of ": desc " ++ zd (r_desc x) ++ bytes_of " " ++ (if truthy (n_proc n) then [] else bytes_of "dead ") ++
    bytes_of "node " ++ sdecimal (node_debug_id (r_node x)) ++ bytes_of " s " ++ sdecimal (r_strong x) ++ bytes_of " w " ++ sdecimal (r_weak x) ++
    bytes_of " d " ++ pointer_chars (r_death x) ++ [10]).

Definition print_binder_proc (all : bool) (p : Z) : KM (list Z) :=
  k ← proc_at p;
  threads ← print_all (print_binder_thread all) (inorder (k_threads k));
  nodes ← print_all (λ n, x ← node_at n; if all || n_has_async_transaction x then print_binder_node n else mret []) (inorder (k_nodes k));
  refs ← (if all then print_all print_binder_ref (inorder (k_refs_by_desc k)) else mret []);
  buffers ← print_all (λ b, print_binder_buffer (bytes_of "  buffer") (p, b)) (inorder (p_allocated_buffers (k_alloc k)));
  work ← print_all (print_binder_work (bytes_of "  ") (bytes_of "  pending transaction")) (k_todo k);
  let delivered := if bool_decide (k_delivered_death k = []) then [] else bytes_of "  has delivered dead binder" ++ [10] in
  mret (under (bytes_of "proc " ++ sdecimal (k_pid k) ++ [10]) all (threads ++ nodes ++ refs ++ buffers ++ work ++ delivered)).

Definition is_transaction (w : binder_work) : bool := match w with W_transaction _ => true | _ => false end.

Definition print_binder_proc_stats (d : debug) (p : Z) : KM (list Z) :=
  k ← proc_at p;
  refs ← foldr (λ r m, x ← ref_at r; '(strong, weak) ← m; mret (strong + r_strong x, weak + r_weak x)) (mret (0, 0)) (inorder (k_refs_by_desc k));
  mret (bytes_of "proc " ++ sdecimal (k_pid k) ++ [10] ++
    bytes_of "  threads: " ++ sdecimal (zlen (inorder (k_threads k))) ++ [10] ++
    bytes_of "  requested threads: " ++ sdecimal (k_requested_threads k) ++ bytes_of "+" ++ sdecimal (k_requested_threads_started k) ++ bytes_of "/" ++ sdecimal (k_max_threads k) ++ [10] ++
    bytes_of "  ready threads " ++ sdecimal (k_ready_threads k) ++ [10] ++
    bytes_of "  free async space " ++ zd (p_free_async_space (k_alloc k)) ++ [10] ++
    bytes_of "  nodes: " ++ sdecimal (zlen (inorder (k_nodes k))) ++ [10] ++
    bytes_of "  refs: " ++ sdecimal (zlen (inorder (k_refs_by_desc k))) ++ bytes_of " s " ++ sdecimal refs.1 ++ bytes_of " w " ++ sdecimal refs.2 ++ [10] ++
    bytes_of "  buffers: " ++ sdecimal (zlen (inorder (p_allocated_buffers (k_alloc k)))) ++ [10] ++
    bytes_of "  pending transactions: " ++ sdecimal (zlen (filter (λ w, is_transaction w = true) (k_todo k))) ++ [10] ++
    match dbg_proc_stats d !! p with Some st => print_binder_stats (bytes_of "  ") st | None => [] end).

(** ** The files *)

Definition binder_state_show : KM (list Z) :=
  dead ← kget ks_dead_nodes; procs ← kget ks_proc_list;
  nodes ← print_all print_binder_node dead;
  all ← print_all (print_binder_proc true) procs;
  mret (bytes_of "binder state:" ++ [10] ++ (if bool_decide (dead = []) then [] else bytes_of "dead nodes:" ++ [10]) ++ nodes ++ all).

Definition binder_stats_show (d : debug) : KM (list Z) :=
  procs ← kget ks_proc_list;
  all ← print_all (print_binder_proc_stats d) procs;
  mret (bytes_of "binder stats:" ++ [10] ++ print_binder_stats [] (dbg_stats d) ++ all).

Definition binder_transactions_show : KM (list Z) :=
  procs ← kget ks_proc_list;
  all ← print_all (print_binder_proc false) procs;
  mret (bytes_of "binder transactions:" ++ [10] ++ all).

Definition binder_proc_show (p : Z) : KM (list Z) :=
  text ← print_binder_proc true p;
  mret (bytes_of "binder proc state:" ++ [10] ++ text).
End Dump.

(** ** Start of the driver *)

Inductive debug_file := File_state | File_stats | File_transactions | File_transaction_log | File_failed_transaction_log.

(** What the start leaves behind: the directories of debugfs that could be made, the device and the files. *)
Record started_driver := Started { sd_root : bool; sd_proc : bool; sd_device : bool; sd_files : list debug_file }.

(** Whether the queue, the root directory and the processes' directory could be made, and what [misc_register] returned. *)
Definition binder_init (workqueue root proc : bool) (misc_register : Z) : Z * option started_driver :=
  if negb workqueue then (- Errno.ENOMEM, None)
  else (misc_register, Some (Started root (root && proc) (misc_register =? 0)
         (if root then [File_state; File_stats; File_transactions; File_transaction_log; File_failed_transaction_log] else []))).

(** ** The logs *)

(** The last [n] elements of a list. *)
Definition lastn {A} (n : nat) (l : list A) : list A := drop (length l - n) l.

Lemma lastn_snoc {A} n (l : list A) x :
  lastn (S n) (l ++ [x]) = (if decide (length l ≤ n)%nat then l else drop 1 (lastn (S n) l)) ++ [x].
Proof.
  unfold lastn. rewrite length_app. cbn [length]. destruct (decide _) as [Hle|Hgt].
  - by replace (length l + 1 - S n)%nat with 0%nat by lia.
  - rewrite drop_drop, drop_app_le by lia. f_equal. f_equal. lia.
Qed.

(** The entries in the order they are shown. *)
Definition recent (log : binder_transaction_log) : list binder_transaction_log_entry :=
  (if log_full log then drop (Z.to_nat (log_next log)) (log_entry log) else []) ++ take (Z.to_nat (log_next log)) (log_entry log).

(** A log in which the entries [hist] were made, one after the other. *)
Record log_holds (log : binder_transaction_log) (hist : list binder_transaction_log_entry) : Prop := {
  lh_length : length (log_entry log) = 32%nat;
  lh_next : 0 ≤ log_next log < 32;
  lh_open : log_full log = false → zlen hist = log_next log;
  lh_full : log_full log = true → (32 ≤ length hist)%nat;
  lh_recent : recent log = lastn 32 hist }.

Lemma empty_log_holds : log_holds empty_log [].
Proof. by split. Qed.

(** A new entry, written. *)
Definition push (e : binder_transaction_log_entry) (log : binder_transaction_log) : binder_transaction_log :=
  let entries := <[Z.to_nat (log_next log) := e]> (log_entry log) in
  if log_next log + 1 =? zlen entries then Log 0 true entries else Log (log_next log + 1) (log_full log) entries.

Lemma list_alter_of_insert {A} (f : A → A) i x (l : list A) : alter f i (<[i := x]> l) = <[i := f x]> l.
Proof. revert i. induction l as [|y l IH]; intros [|i]; cbn; [done..|]. f_equal. apply IH. Qed.

Lemma log_add_push log : binder_transaction_log_add log = (Z.to_nat (log_next log), push zero_entry log).
Proof. done. Qed.

Lemma write_push f e log : write_entry (Z.to_nat (log_next log)) f (push e log) = push (f e) log.
Proof. unfold push, write_entry. rewrite !length_insert. destruct (_ =? _); cbn; f_equal; apply list_alter_of_insert. Qed.

Lemma push_holds e log hist : log_holds log hist → log_holds (push e log) (hist ++ [e]).
Proof.
  intros [Hlen Hn Hopen Hfull Hrec].
  assert (∃ l1 x l2, log_entry log = l1 ++ x :: l2 ∧ length l1 = Z.to_nat (log_next log)) as (l1 & x & l2 & He & Hl1).
  { destruct (lookup_lt_is_Some_2 (log_entry log) (Z.to_nat (log_next log))) as [x Hx]; [lia|].
    eexists _, x, _. split; [symmetry; by apply take_drop_middle|]. rewrite length_take. lia. }
  assert (<[Z.to_nat (log_next log) := e]> (log_entry log) = l1 ++ e :: l2) as Hins by (rewrite He, <- Hl1; by replace (length l1) with (length l1 + 0)%nat at 1 by lia; rewrite insert_app_r).
  assert (length (log_entry log) = S (length l1 + length l2)) as Hl by (rewrite He, length_app; cbn; lia).
  unfold recent in Hrec. rewrite He, <- Hl1, take_app_length, drop_app_length in Hrec.
  assert ((if log_full log then l2 else []) ++ l1 ++ [e] = lastn 32 (hist ++ [e])) as Hnew.
  { rewrite lastn_snoc. destruct (log_full log) eqn:Hf.
    - specialize (Hfull eq_refl). rewrite decide_False by lia. by rewrite <- Hrec, app_assoc.
    - specialize (Hopen eq_refl). rewrite decide_True by lia. unfold lastn in Hrec. replace (length hist - 32)%nat with 0%nat in Hrec by lia. cbn in Hrec. by rewrite Hrec. }
  unfold push. rewrite Hins, length_app. cbn [length].
  destruct (Z.eqb_spec (log_next log + 1) (Z.of_nat (length l1 + S (length l2)))) as [Hend|Hmid].
  - assert (l2 = []) as -> by (destruct l2; [done|cbn in *; lia]). cbn [length] in *. split; cbn [log_entry log_next log_full].
    + rewrite length_app. cbn. lia.
    + lia.
    + done.
    + intros _. rewrite length_app. cbn. destruct (log_full log) eqn:Hf; [specialize (Hfull eq_refl)|specialize (Hopen eq_refl)]; lia.
    + unfold recent. cbn. rewrite app_nil_r, <- Hnew. by destruct (log_full log).
  - split; cbn [log_entry log_next log_full].
    + rewrite length_app. cbn. lia.
    + lia.
    + intros Hf. rewrite length_app. specialize (Hopen Hf). cbn. lia.
    + intros Hf. rewrite length_app. specialize (Hfull Hf). lia.
    + unfold recent. cbn. replace (Z.to_nat (log_next log + 1)) with (length (l1 ++ [e])) by (rewrite length_app; cbn; lia).
      assert (l1 ++ e :: l2 = (l1 ++ [e]) ++ l2) as -> by (by rewrite <- app_assoc). by rewrite take_app_length, drop_app_length.
Qed.

(** ** Transactions *)

Lemma kbind_some {A B} (m : KM A) (f : A → KM B) s y s' :
  (m ≫= f) s = Some (y, s') → ∃ x s1, m s = Some (x, s1) ∧ f x s1 = Some (y, s').
Proof. unfold mbind, KM_bind. destruct (m s) as [[x s1]|]; [|done]. by eauto. Qed.

(** Walks to the courses a program can give. *)
Ltac course_walk :=
  repeat first
    [ match goal with |- ∀ _, _ => intro end
    | apply gives_ret; solve [by split_and!]
    | match goal with |- gives _ (match ?b with _ => _ end) => destruct b end
    | apply gives_bind ].

(** What happens to the driver: a transaction is sent, or anything else, which writes no log. *)
Inductive happening :=
| Sent (cur : task) (p th : Z) (tr : binder_txn) (reply : bool)
| Meanwhile (m : KM ()).

Section Logs.
Context `{RbTree} `{Kernel} `{BinderApi} `{DebugIds}.

Fixpoint happen (hs : list happening) (d : debug) : KM debug :=
  match hs with
  | [] => mret d
  | Sent cur p th tr reply :: hs => d ← log_transaction cur p th tr reply d; happen hs d
  | Meanwhile m :: hs => _ ← m; happen hs d
  end.

(** An entry tells who sent the transaction, what it is, and as far as it was found whom it is for; one that did not fail has its number. *)
Definition target_told (s : kstate) (bad : bool) (tgt : target) (e : binder_transaction_log_entry) : Prop :=
  let node n := if truthy n then node_debug_id n else 0 in
  match tgt with
  | T_error _ _ n => bad = true ∧ le_to_node e = node n ∧ le_to_proc e = 0 ∧ le_to_thread e = 0 ∧ le_debug_id e = 0
  | T_ok tp tth n _ =>
    le_to_node e = node n ∧ (∃ k, ks_procs s !! tp = Some k ∧ le_to_proc e = k_pid k) ∧
    (if truthy tth then ∃ x, ks_threads s !! tth = Some x ∧ le_to_thread e = th_pid x else le_to_thread e = 0) ∧
    (bad = false → ∃ t, le_debug_id e = trans_debug_id t)
  end.

Record entry_tells (s : kstate) (cur : task) (p th : Z) (tr : binder_txn) (reply bad : bool) (e : binder_transaction_log_entry) : Prop := {
  et_sender : ∃ k x, ks_procs s !! p = Some k ∧ ks_threads s !! th = Some x ∧ le_from_proc e = k_pid k ∧ le_from_thread e = th_pid x;
  et_kind : le_call_type e = if reply then 2 else if has_flag (txn_flags tr) TF_ONE_WAY then 1 else 0;
  et_sizes : le_target_handle e = s32 (txn_target tr) ∧ le_data_size e = s32 (txn_data_size tr) ∧ le_offsets_size e = s32 (txn_offs_size tr);
  et_target : ∃ tgt s0, (if reply then reply_target cur th else call_target p th (txn_target tr) (txn_flags tr)) s = Some (tgt, s0) ∧
    target_told s0 bad tgt e }.

(** The transactions of a run of the driver, each with its entry and whether it failed: whether it left an error for a thread to read. *)
Inductive history : kstate → list happening → list (binder_transaction_log_entry * bool) → kstate → Prop :=
| history_nil s : history s [] [] s
| history_sent s cur p th tr reply s1 e hs es s' :
    binder_transaction cur p th tr reply s = Some ((), s1) →
    entry_tells s cur p th tr reply (bool_decide (errors_of s1 ≠ errors_of s)) e → history s1 hs es s' →
    history s (Sent cur p th tr reply :: hs) ((e, bool_decide (errors_of s1 ≠ errors_of s)) :: es) s'
| history_meanwhile s m s1 hs es s' : m s = Some ((), s1) → history s1 hs es s' → history s (Meanwhile m :: hs) es s'.

Lemma push_here e log hist : log_holds log hist → log_entry (push e log) !! Z.to_nat (log_next log) = Some e.
Proof. intros [Hlen Hn _ _ _]. unfold push. destruct (_ =? _); cbn; apply list_lookup_insert_eq; lia. Qed.

(** What the course of a transaction says of its target. *)
Lemma course_target cur p th tr reply s c s' :
  transaction_course cur p th tr reply s = Some (c, s') →
  ∃ tgt s0, (if reply then reply_target cur th else call_target p th (txn_target tr) (txn_flags tr)) s = Some (tgt, s0) ∧
    ∀ e, le_to_proc e = 0 → le_to_thread e = 0 → le_to_node e = 0 → le_debug_id e = 0 → target_told s0 (co_failed c) tgt (later_fields c e).
Proof.
  intros Hr. unfold transaction_course in Hr. apply kbind_some in Hr as (tgt & s0 & E & Hr).
  exists tgt, s0. split; [done|]. intros e Z1 Z2 Z3 Z4. destruct tgt as [er r n|tp tth n r].
  - unfold failing in Hr. unfold mbind, KM_bind in Hr. destruct (fail_transaction th er r s0) as [[[] s1]|]; [|done]. injection Hr as <- _. cbn.
    by rewrite Z1, Z2, Z3, Z4.
  - apply kbind_some in Hr as (pid & s1 & E1 & Hr). assert (s1 = s0 ∧ if truthy tth then ∃ x, ks_threads s0 !! tth = Some x ∧ pid = Some (th_pid x) else pid = None) as [-> Hpid].
    { destruct (truthy tth); [|by injection E1 as <- <-]. apply kbind_some in E1 as (x & s2 & E2 & E1). unfold thread_at in E2.
      destruct (ks_threads s0 !! tth) as [y|] eqn:Ey; [|done]. injection E2 as <- <-. injection E1 as <- <-. split; [done|]. by exists y. }
    apply kbind_some in Hr as (to & s1 & E2 & Hr). unfold proc_at in E2. destruct (ks_procs s0 !! tp) as [k|] eqn:Ek; [|done]. injection E2 as <- <-.
    assert (co_to_node c = n ∧ co_to_thread c = pid ∧ co_to_proc c = Some (k_pid k) ∧ (co_failed c = false → is_Some (co_transaction c))) as (<- & H1' & H2' & H3').
    { match type of Hr with ?m s0 = _ =>
        assert (gives (λ c, co_to_node c = n ∧ co_to_thread c = pid ∧ co_to_proc c = Some (k_pid k) ∧ (co_failed c = false → is_Some (co_transaction c))) m) as Hg
          by (clear; unfold failing; course_walk)
      end.
      exact (Hg _ _ _ Hr). }
    cbn. rewrite H1', H2', Z3. split; [done|]. split; [by exists k|]. split.
    + destruct (truthy tth); [destruct Hpid as (x & Hx & ->); by exists x|by rewrite Hpid].
    + intros Hf. destruct (H3' Hf) as [t ->]. by exists t.
Qed.

Hypothesis Hdistinct : BR_OK ∉ [BR_TRANSACTION_COMPLETE; BR_FAILED_REPLY; BR_DEAD_REPLY].

(** A transaction is failed when it leaves an error. *)
Lemma course_failed cur p th tr reply s c s' :
  transaction_course cur p th tr reply s = Some (c, s') → co_failed c = bool_decide (errors_of s' ≠ errors_of s).
Proof.
  intros Hr. pose proof (transaction_course_tells Hdistinct cur p th tr reply s c s' Hr) as Ht. symmetry. destruct (co_failed c).
  - apply bool_decide_eq_true. intros He. destruct Ht as [(x & Hx & Hok) Hl]. destruct (error_left_agree th _ _ He Hl) as (y & Hy & Hne). congruence.
  - apply bool_decide_eq_false. by intros [].
Qed.

Lemma log_transaction_pushes cur p th tr reply d s d' s' hist :
  log_holds (dbg_log d) hist → log_transaction cur p th tr reply d s = Some (d', s') →
  let bad := bool_decide (errors_of s' ≠ errors_of s) in
  binder_transaction cur p th tr reply s = Some ((), s') ∧ ∃ e, entry_tells s cur p th tr reply bad e ∧
    dbg_log d' = push e (dbg_log d) ∧ dbg_log_failed d' = if bad then push e (dbg_log_failed d) else dbg_log_failed d.
Proof.
  intros Hh Hr bad. unfold log_transaction in Hr. apply kbind_some in Hr as (k & s1 & E1 & Hr). unfold proc_at in E1.
  destruct (ks_procs s !! p) as [k0|] eqn:Hk; [|done]. injection E1 as <- <-. apply kbind_some in Hr as (x & s1 & E2 & Hr). unfold thread_at in E2.
  destruct (ks_threads s !! th) as [x0|] eqn:Hx; [|done]. injection E2 as <- <-. rewrite !log_add_push, !write_push in Hr.
  apply kbind_some in Hr as (c & s1 & Hc & Hr). injection Hr as <- <-. rewrite !write_push. cbn [dbg_log dbg_log_failed].
  assert (co_failed c = bad) as Hbad by (by eapply course_failed). rewrite Hbad, list_lookup_alter_eq, (push_here _ _ _ Hh). cbn [fmap option_fmap option_map default from_option id].
  split; [unfold binder_transaction; unfold mbind, KM_bind; by rewrite Hc|]. eexists. split; [|done].
  destruct (course_target _ _ _ _ _ _ _ _ Hc) as (tgt & s0 & Ht & Htold). split.
  - exists k0, x0. done.
  - cbn. destruct reply; [done|]. by destruct (has_flag _ _).
  - done.
  - exists tgt, s0. split; [done|]. rewrite <- Hbad. by apply Htold.
Qed.

Lemma logs_hold hs : ∀ d s hist fhist d' s',
  log_holds (dbg_log d) hist → log_holds (dbg_log_failed d) fhist → happen hs d s = Some (d', s') →
  ∃ es, history s hs es s' ∧ log_holds (dbg_log d') (hist ++ es.*1) ∧ log_holds (dbg_log_failed d') (fhist ++ (filter (λ x, x.2 = true) es).*1).
Proof.
  induction hs as [|[cur p th tr reply|m] hs IH]; intros d s hist fhist d' s' Hh Hf Hr; cbn [happen] in Hr.
  - injection Hr as <- <-. exists []. cbn. rewrite !app_nil_r. split; [constructor|done].
  - apply kbind_some in Hr as (d1 & s1 & E1 & Hr). destruct (log_transaction_pushes _ _ _ _ _ _ _ _ _ _ Hh E1) as (Hb & e & He & P1 & P2).
    set (bad := bool_decide (errors_of s1 ≠ errors_of s)) in *.
    destruct (IH d1 s1 (hist ++ [e]) (if bad then fhist ++ [e] else fhist) d' s') as (es & Hes & L1 & L2);
      [rewrite P1; by apply push_holds|rewrite P2; destruct bad; [by apply push_holds|done]|done|].
    exists ((e, bad) :: es). split; [by constructor|]. rewrite <- app_assoc in L1. split; [done|].
    rewrite filter_cons. cbn [snd]. destruct (decide (bad = true)) as [Hb1|Hb1]; [|apply not_true_is_false in Hb1]; rewrite Hb1 in L2; [by rewrite <- app_assoc in L2|done].
  - apply kbind_some in Hr as ([] & s1 & E1 & Hr). destruct (IH d s1 hist fhist d' s' Hh Hf Hr) as (es & Hes & L). exists es. split; [by eapply history_meanwhile|done].
Qed.

Lemma show_recent log : binder_transaction_log_show log = flat_map print_entry (recent log).
Proof. unfold binder_transaction_log_show, recent. rewrite flat_map_app. by destruct (log_full log). Qed.

(** C32: Whatever transactions are sent, with anything else between them, the file of the transaction log shows the last 32 of them, oldest first, each with its sender, its kind and
    sizes and as far as it was found its target; and the file of the failed ones shows the last 32 of those that left an error for a thread to read.  The
    files are read while no transaction is under way: the code takes no lock to show them. *)
Theorem logs_show_the_last_transactions hs d s d' s' :
  dbg_log d = empty_log → dbg_log_failed d = empty_log → happen hs d s = Some (d', s') →
  ∃ es, history s hs es s' ∧
    binder_transaction_log_show (dbg_log d') = flat_map print_entry (lastn 32 es.*1) ∧
    binder_transaction_log_show (dbg_log_failed d') = flat_map print_entry (lastn 32 (filter (λ x, x.2 = true) es).*1).
Proof.
  intros E1 E2 Hr. destruct (logs_hold hs d s [] [] d' s') as (es & Hes & [_ _ _ _ H1'] & [_ _ _ _ H2']);
    [rewrite E1; apply empty_log_holds|rewrite E2; apply empty_log_holds|done|].
  exists es. split; [done|]. by rewrite !show_recent, H1', H2'.
Qed.
End Logs.

(** ** The transactions of a thread *)

(** The chain of transactions a thread's stack is, as the files and the end of a thread walk it. *)
Inductive stack_of (s : kstate) (th : Z) : Z → list Z → Prop :=
| stack_end : stack_of s th 0 []
| stack_outgoing t x ts : t ≠ 0 → ks_trans s !! t = Some x → t_from x = th → stack_of s th (t_from_parent x) ts → stack_of s th t (t :: ts)
| stack_incoming t x ts : t ≠ 0 → ks_trans s !! t = Some x → t_from x ≠ th → t_to_thread x = th → stack_of s th (t_to_parent x) ts → stack_of s th t (t :: ts)
| stack_bad t x : t ≠ 0 → ks_trans s !! t = Some x → t_from x ≠ th → t_to_thread x ≠ th → stack_of s th t [t].

Lemma stack_det s th t ts : stack_of s th t ts → ∀ ts', stack_of s th t ts' → ts = ts'.
Proof.
  induction 1 as [|t x ts Ht Hx Hf Hs IH|t x ts Ht Hx Hf Hto Hs IH|t x Ht Hx Hf Hto]; intros ts' Hts';
    inversion Hts'; subst; try done; simplify_eq; f_equal; eauto.
Qed.

(** From an element on, the rest is its chain. *)
Lemma stack_suffix s th t ts : stack_of s th t ts → ∀ t', t' ∈ ts → ∃ pre rest, ts = pre ++ rest ∧ stack_of s th t' rest.
Proof.
  induction 1 as [|t x ts Ht Hx Hf Hs IH|t x ts Ht Hx Hf Hto Hs IH|t x Ht Hx Hf Hto]; intros t' Ht'; [by apply not_elem_of_nil in Ht'|..];
    apply elem_of_cons in Ht' as [->|Ht'].
  - exists [], (t :: ts). split; [done|]. by eapply stack_outgoing.
  - destruct (IH _ Ht') as (pre & rest & -> & ?). by exists (t :: pre), rest.
  - exists [], (t :: ts). split; [done|]. by eapply stack_incoming.
  - destruct (IH _ Ht') as (pre & rest & -> & ?). by exists (t :: pre), rest.
  - exists [], [t]. split; [done|]. by eapply stack_bad.
  - by apply not_elem_of_nil in Ht'.
Qed.

Lemma stack_head s th t ts : stack_of s th t ts → t ≠ 0 → ∃ rest, ts = t :: rest.
Proof. destruct 1; [done|eauto..]. Qed.

(** A chain that ends meets no transaction twice. *)
Lemma stack_NoDup s th t ts : stack_of s th t ts → NoDup ts.
Proof.
  assert (∀ t ts, stack_of s th t (t :: ts) → t ∉ ts) as Hnot.
  { intros t' ts' Hst Hin.
    assert (∃ u, stack_of s th u ts') as [u Hu] by (inversion Hst; subst; eauto; by apply not_elem_of_nil in Hin).
    destruct (stack_suffix _ _ _ _ Hu _ Hin) as (pre & rest & Heq & Hrest).
    pose proof (stack_det _ _ _ _ Hst _ Hrest) as He. apply (f_equal length) in Heq, He. rewrite length_app in Heq. cbn in He. lia. }
  induction 1 as [|t x ts Ht Hx Hf Hs IH|t x ts Ht Hx Hf Hto Hs IH|t x Ht Hx Hf Hto]; constructor; try done.
  - apply Hnot. by eapply stack_outgoing.
  - apply Hnot. by eapply stack_incoming.
  - apply not_elem_of_nil.
  - constructor.
Qed.

Lemma stack_live s th t ts : stack_of s th t ts → ∀ t', t' ∈ ts → is_Some (ks_trans s !! t').
Proof. induction 1; intros t' Ht'; [by apply not_elem_of_nil in Ht'|..]; apply elem_of_cons in Ht' as [->|Ht']; eauto. by apply not_elem_of_nil in Ht'. Qed.

(** So the number of transactions is fuel enough. *)
Lemma stack_length s th t ts : stack_of s th t ts → (length ts ≤ size (ks_trans s))%nat.
Proof.
  intros Hs. rewrite <- (size_dom (D := gset Z)), <- (size_list_to_set (C := gset Z)) by (by eapply stack_NoDup).
  apply subseteq_size. intros t' Ht'. apply elem_of_list_to_set in Ht'. apply elem_of_dom. by eapply stack_live.
Qed.

(** ** The transactions file *)

Section Files.
Context `{DebugIds}.

(** What a transaction points to is there. *)
Definition trans_ok (s : kstate) (t : Z) : Prop := ∃ x, ks_trans s !! t = Some x ∧
  (t_from x ≠ 0 → ∃ th p, ks_threads s !! t_from x = Some th ∧ ks_procs s !! th_proc th = Some p) ∧
  (t_to_proc x ≠ 0 → is_Some (ks_procs s !! t_to_proc x)) ∧ (t_to_thread x ≠ 0 → is_Some (ks_threads s !! t_to_thread x)) ∧
  (∀ b, t_buffer x = Some b → ∃ k y, ks_procs s !! b.1 = Some k ∧ buf_at (p_buffers (k_alloc k)) b.2 = Some y).

(** A function that only reads gives some text. *)
Definition prints (m : KM (list Z)) (s : kstate) (line : list Z) : Prop := m s = Some (line, s) ∧ line ≠ [].

Lemma snoc_not_nil {A} (l : list A) x : l ++ [x] ≠ [].
Proof. by destruct l. Qed.

Lemma last_not_nil {A} (l1 l2 : list A) : l2 ≠ [] → l1 ++ l2 ≠ [].
Proof. by destruct l1. Qed.

Lemma truthy_nonzero z : truthy z = true → z ≠ 0.
Proof. by intros E ->. Qed.

Lemma print_transaction_ok prefix t s : trans_ok s t → ∃ line, prints (print_binder_transaction prefix t) s line.
Proof.
  intros (x & Hx & Hf & Hp & Ht & Hb). unfold prints, print_binder_transaction.
  assert (∃ f, thread_pids (t_from x) s = Some (f, s)) as [from Efrom].
  { unfold thread_pids. destruct (truthy _) eqn:E; [|by eexists]. destruct Hf as (th & p & E1 & E2); [by apply truthy_nonzero|]. do 2 krun. by eexists. }
  assert (∃ n, (if truthy (t_to_proc x) then p ← proc_at (t_to_proc x); mret (k_pid p) else mret 0 : KM Z) s = Some (n, s)) as [np Ep].
  { destruct (truthy (t_to_proc x)) eqn:E; [|by eexists]. destruct Hp as [p E1]; [by apply truthy_nonzero|]. krun. by eexists. }
  assert (∃ n, (if truthy (t_to_thread x) then th ← thread_at (t_to_thread x); mret (th_pid th) else mret 0 : KM Z) s = Some (n, s)) as [nt Et].
  { destruct (truthy (t_to_thread x)) eqn:E; [|by eexists]. destruct Ht as [p E1]; [by apply truthy_nonzero|]. krun. by eexists. }
  do 4 krun. destruct (t_buffer x) as [b|] eqn:Eb.
  - destruct (Hb b eq_refl) as (k & y & E1 & E2). assert (buffer_at b s = Some (y, s)) as E3 by (unfold buffer_at; krun; by apply klift_run).
    krun. eexists. split; [reflexivity|]. apply last_not_nil. by destruct (truthy (b_target_node y)).
  - eexists. split; [reflexivity|]. by apply last_not_nil.
Qed.

Definition work_ok (s : kstate) (w : binder_work) : Prop :=
  match w with W_transaction t => trans_ok s t | W_complete _ => True | W_node n => is_Some (ks_nodes s !! n) | W_death d => is_Some (ks_deaths s !! d) end.

Lemma print_work_ok prefix tprefix w s : work_ok s w → ∃ line, prints (print_binder_work prefix tprefix w) s line.
Proof.
  destruct w as [t|c|n|d]; cbn [work_ok print_binder_work].
  - apply print_transaction_ok.
  - intros _. eexists. split; [reflexivity|]. by apply last_not_nil.
  - intros [x Hx]. unfold prints. krun. eexists. split; [reflexivity|]. by apply last_not_nil.
  - intros [x Hx]. unfold prints. krun. eexists. split; [reflexivity|]. apply last_not_nil. by destruct (d_type x).
Qed.

(** A list gives the lines of its elements. *)
Lemma print_all_ok {A} (f : A → KM (list Z)) s l : (∀ x, x ∈ l → ∃ line, prints (f x) s line) →
  ∃ lines, print_all f l s = Some (concat lines, s) ∧ Forall2 (λ x line, prints (f x) s line) l lines.
Proof.
  induction l as [|x l IH]; intros Hl; [by exists []|].
  destruct (Hl x ltac:(apply list_elem_of_here)) as (a & Ha & Hn). destruct IH as (lines & Hb & Hls); [intros y Hy; apply Hl; by apply list_elem_of_further|].
  exists (a :: lines). cbn [print_all]. do 2 krun. split; [done|]. by constructor.
Qed.

(** Lines that are not empty. *)
Lemma concat_lines_nil {A B} (P : A → list B → Prop) l lines : Forall2 P l lines → (∀ x line, P x line → line ≠ []) → concat lines = [] ↔ l = [].
Proof. intros Hf HP. destruct Hf as [|x line l lines Hx Hf]; [done|]. split; [|done]. cbn. intros E. apply app_eq_nil in E as [E _]. by apply HP in Hx. Qed.

(** The role of a transaction on a thread's stack. *)
Definition role (th : Z) (x : struct_transaction) : list Z :=
  if t_from x =? th then bytes_of "    outgoing transaction" else if t_to_thread x =? th then bytes_of "    incoming transaction" else bytes_of "    bad transaction".

Definition busy_line (s : kstate) (th t : Z) (line : list Z) : Prop :=
  ∃ x, ks_trans s !! t = Some x ∧ prints (print_binder_transaction (role th x) t) s line.

Lemma print_stack_ok s th t ts : stack_of s th t ts → (∀ t', t' ∈ ts → trans_ok s t') → ∀ fuel, (length ts ≤ fuel)%nat →
  ∃ lines, print_stack fuel th t s = Some (concat lines, s) ∧ Forall2 (busy_line s th) ts lines.
Proof.
  induction 1 as [|t x ts Ht Hx Hf Hs IH|t x ts Ht Hx Hf Hto Hs IH|t x Ht Hx Hf Hto]; intros Hok [|fuel] Hfu; try (cbn in Hfu; lia).
  1,2: by exists [].
  all: cbn [print_stack]; destruct (Z.eqb_spec t 0); [done|]; krun;
    destruct (print_transaction_ok (role th x) t s (Hok t ltac:(apply list_elem_of_here))) as (a & Ha & Hn); assert (busy_line s th t a) as Hline by (by exists x);
    unfold role in Ha; destruct (Z.eqb_spec (t_from x) th); try done.
  - destruct (IH ltac:(intros; apply Hok; by apply list_elem_of_further) fuel ltac:(cbn in Hfu; lia)) as (lines & Hl & Hls).
    exists (a :: lines). do 2 krun. split; [done|by constructor].
  - destruct (Z.eqb_spec (t_to_thread x) th); [|done]. destruct (IH ltac:(intros; apply Hok; by apply list_elem_of_further) fuel ltac:(cbn in Hfu; lia)) as (lines & Hl & Hls).
    exists (a :: lines). do 2 krun. split; [done|by constructor].
  - destruct (Z.eqb_spec (t_to_thread x) th); [done|]. exists [a]. rewrite Ha. cbn. rewrite app_nil_r. split; [done|by repeat constructor].
Qed.

Lemma under_false header body : under header false body = if decide (body = []) then [] else header ++ body.
Proof.
  unfold under. cbn [negb andb]. rewrite length_app. destruct (decide (body = [])) as [->|Hb]; [by rewrite Nat.add_0_r, Z.eqb_refl|].
  destruct (Z.eqb_spec (Z.of_nat (length header + length body)) (Z.of_nat (length header))); [|done]. destruct body; [done|cbn in *; lia].
Qed.

(** The list of transactions shows a thread exactly when it is in a transaction or has work to do: the walk over its stack, a chain that ends, stops within as many steps as there are transactions and prints a line for each
    transaction from the innermost on, and a line for each piece of work; a thread with neither is left out. *)
Theorem transactions_show_busy_threads s th x ts :
  ks_threads s !! th = Some x → stack_of s th (th_transaction_stack x) ts → (∀ t, t ∈ ts → trans_ok s t) → (∀ w, w ∈ th_todo x → work_ok s w) →
  ∃ header stack work, Forall2 (busy_line s th) ts stack ∧
    Forall2 (λ w line, prints (print_binder_work (bytes_of "    ") (bytes_of "    pending transaction") w) s line) (th_todo x) work ∧
    print_binder_thread false th s = Some (if decide (ts = [] ∧ th_todo x = []) then [] else header ++ concat stack ++ concat work, s).
Proof.
  intros Hx Hs Hts Hw. destruct (print_stack_ok s th _ ts Hs Hts _ (stack_length _ _ _ _ Hs)) as (stack & Es & Hstack).
  destruct (print_all_ok (print_binder_work (bytes_of "    ") (bytes_of "    pending transaction")) s (th_todo x)) as (work & Ew & Hwork).
  { intros w Hin. by apply print_work_ok, Hw. }
  eexists _, stack, work. split; [done|]. split; [done|]. unfold print_binder_thread. krun. erewrite kbind_run by apply kget_run. unfold id at 1. do 2 krun.
  rewrite under_false.
  pose proof (concat_lines_nil _ _ _ Hstack ltac:(by intros ? ? (? & _ & _ & ?))) as N1. pose proof (concat_lines_nil _ _ _ Hwork ltac:(by intros ? ? (_ & ?))) as N2.
  destruct (decide (concat stack ++ concat work = [])) as [E|E], (decide (ts = [] ∧ th_todo x = [])) as [E'|E']; [done| | |done]; exfalso.
  - apply app_eq_nil in E as [E1 E2]. apply E'. split; [by apply N1|by apply N2].
  - apply E. destruct E' as [E1 E2]. apply N1 in E1. apply N2 in E2. by rewrite E1, E2.
Qed.
End Files.

(** ** The number of objects *)

(** Objects of the driver are created and deleted. *)
Inductive object_event := Created (t : binder_stat_types) | Deleted (t : binder_stat_types).

#[export] Instance binder_stat_types_eq_dec : EqDecision binder_stat_types.
Proof. solve_decision. Defined.
#[export] Instance object_event_eq_dec : EqDecision object_event.
Proof. solve_decision. Defined.

Definition object_step (st : binder_stats) (e : object_event) : binder_stats :=
  match e with Created t => binder_stats_created t st | Deleted t => binder_stats_deleted t st end.

Definition no_stats : binder_stats := Stats (replicate 18 0) (replicate 17 0) (replicate 7 0) (replicate 7 0).

(** How often an event happened. *)
Definition times (e : object_event) (es : list object_event) : Z := zlen (filter (λ x, x = e) es).

Lemma wrap_signed w z : 0 < w → wrap w (signed w z) = wrap w z.
Proof.
  intros Hw. unfold signed, wrap. destruct (_ <? _); [by rewrite Z.mod_mod by lia|].
  replace (z mod 2 ^ w - 2 ^ w) with (z mod 2 ^ w + (-1) * 2 ^ w) by ring. by rewrite Z.mod_add, Z.mod_mod by lia.
Qed.

Lemma signed_congr w a b : wrap w a = wrap w b → signed w a = signed w b.
Proof. intros E. by rewrite <- (signed_wrap w a), E, signed_wrap. Qed.

Lemma count_up_counts i j l n : (l : list Z) !! i = Some (signed 32 n) → count_up j l !! i = Some (signed 32 (if decide (i = j) then n + 1 else n)).
Proof.
  intros Hl. unfold count_up. destruct (decide (i = j)) as [<-|Hj]; [|by rewrite list_lookup_alter_ne].
  rewrite list_lookup_alter_eq, Hl. cbn. f_equal. apply signed_congr. unfold wrap. rewrite Zplus_mod. fold (wrap 32 (signed 32 n)). rewrite wrap_signed by lia.
  unfold wrap. by rewrite <- Zplus_mod.
Qed.

Lemma stat_index_inj t t' : stat_index t = stat_index t' → t = t'.
Proof. by destruct t, t'. Qed.

Lemma times_cons e x es : times e (x :: es) = (if decide (x = e) then 1 else 0) + times e es.
Proof. unfold times. rewrite filter_cons. destruct (decide (x = e)); cbn [length]; lia. Qed.

Lemma objects_counted t es : ∀ st c d, st_obj_created st !! stat_index t = Some (signed 32 c) → st_obj_deleted st !! stat_index t = Some (signed 32 d) →
  st_obj_created (foldl object_step st es) !! stat_index t = Some (signed 32 (c + times (Created t) es)) ∧
  st_obj_deleted (foldl object_step st es) !! stat_index t = Some (signed 32 (d + times (Deleted t) es)).
Proof.
  assert (∀ t', (if decide (stat_index t = stat_index t') then 1 else 0) = (if decide (t' = t) then 1 else 0)) as Hi.
  { intros t'. destruct (decide (t' = t)) as [->|Hn]; [by rewrite decide_True|]. rewrite decide_False; [done|]. intros E. by apply stat_index_inj in E. }
  induction es as [|e es IH]; intros st c d Hc Hd; [by rewrite !Z.add_0_r|]. cbn [foldl]. rewrite !times_cons.
  destruct e as [t'|t']; cbn [object_step].
  - destruct (IH (binder_stats_created t' st) (c + if decide (t' = t) then 1 else 0) d) as [I1 I2]; [|done|].
    { cbn. rewrite (count_up_counts _ _ _ c) by done. rewrite <- Hi. do 2 f_equal. destruct (decide _); lia. }
    rewrite I1, I2. split; [|by rewrite decide_False by done]. do 2 f_equal. destruct (decide (t' = t)) as [->|]; [rewrite decide_True by done|rewrite decide_False by congruence]; lia.
  - destruct (IH (binder_stats_deleted t' st) c (d + if decide (t' = t) then 1 else 0)) as [I1 I2]; [done| |].
    { cbn. rewrite (count_up_counts _ _ _ d) by done. rewrite <- Hi. do 2 f_equal. destruct (decide _); lia. }
    rewrite I1, I2. split; [by rewrite decide_False by done|]. do 2 f_equal. destruct (decide (t' = t)) as [->|]; [rewrite decide_True by done|rewrite decide_False by congruence]; lia.
Qed.

(** The number of objects that are there is shown right even when the counters of the created and the deleted ones have wrapped around. *)
Theorem active_objects_survive_wrap_around t es : - 2 ^ 31 ≤ times (Created t) es - times (Deleted t) es < 2 ^ 31 →
  ∃ c d, st_obj_created (foldl object_step no_stats es) !! stat_index t = Some c ∧ st_obj_deleted (foldl object_step no_stats es) !! stat_index t = Some d ∧
    active c d = times (Created t) es - times (Deleted t) es.
Proof.
  intros Hr. destruct (objects_counted t es no_stats 0 0) as [Hc Hd]; [by destruct t..|]. eexists _, _. split; [done|]. split; [done|].
  rewrite !Z.add_0_l. unfold active. rewrite <- (signed_small 32 (times (Created t) es - times (Deleted t) es)) by lia. apply signed_congr. unfold wrap.
  rewrite Zminus_mod. fold (wrap 32 (signed 32 (times (Created t) es))) (wrap 32 (signed 32 (times (Deleted t) es))). rewrite !wrap_signed by lia. unfold wrap. by rewrite <- Zminus_mod.
Qed.

(** ** Examples *)

Module KDumpDemo.
Import KAllocDemo DriverDemo.

#[local] Instance demo_ids : DebugIds := {|
  trans_debug_id t := t - 1000; node_debug_id n := n - 1000; ref_debug_id r := r - 1000; buffer_debug_id _ := 7; pointer_chars := hexadecimal |}.

Definition quiet : debug := Debug no_stats ∅ ∅ empty_log empty_log.

(** The file of transactions after a call: the caller has an outgoing transaction, and the server's process has it to do. *)
Definition shown : option (list Z) := fst <$> binder_transactions_show called.

Example transactions_after_a_call : shown = Some (
  bytes_of "binder transactions:" ++ [10] ++ bytes_of "proc 20" ++ [10] ++ bytes_of "  thread 20: l 20" ++ [10] ++
  bytes_of "    outgoing transaction 5: 3ed from 20:20 to 10:0 code 4d flags 0 pri 0 r1 node 1 size 8:0 data e0000028" ++ [10] ++
  bytes_of "    transaction complete" ++ [10] ++ bytes_of "proc 10" ++ [10] ++ bytes_of "  buffer 7: e0000028 size 8:0 active" ++ [10] ++
  bytes_of "  pending transaction 5: 3ed from 20:20 to 10:0 code 4d flags 0 pri 0 r1 node 1 size 8:0 data e0000028" ++ [10]).
Proof. vm_compute. reflexivity. Qed.

(** The caller's thread in that state. *)
Definition caller : binder_thread := Thread 1002 20 32 1005 [W_complete 1006] BR_OK BR_OK.

Lemma call_is_ok : trans_ok called 1005.
Proof.
  eexists. split; [vm_compute; reflexivity|]. split_and!.
  - intros _. eexists _, _. split; vm_compute; reflexivity.
  - intros _. vm_compute. by eexists.
  - intros E. by destruct E.
  - intros b [= <-]. eexists _, _. split; vm_compute; reflexivity.
Qed.

Lemma call_on_stack : stack_of called client_thread 1005 [1005].
Proof. eapply stack_outgoing; [done|vm_compute; reflexivity|done|apply stack_end]. Qed.

Lemma transactions_show_busy_threads_witness : ∃ header stack work,
  print_binder_thread false client_thread called = Some (if decide ([1005] = [] ∧ th_todo caller = []) then [] else header ++ concat stack ++ concat work, called).
Proof.
  destruct (transactions_show_busy_threads called client_thread caller [1005]) as (header & stack & work & _ & _ & E).
  - vm_compute. reflexivity.
  - exact call_on_stack.
  - intros t Ht. apply list_elem_of_singleton in Ht as ->. exact call_is_ok.
  - intros w Hw. apply list_elem_of_singleton in Hw as ->. done.
  - exists header, stack, work. exact E.
Defined.

(** A call on a handle that is not there, whose error the client reads, and one on the context manager. *)
Definition sendings : list happening :=
  [Sent client 1002 client_thread (Txn 9 0 78 0 0 0 8 0 0 0) false; Meanwhile (upd_thread client_thread (set_th_return_error BR_OK));
   Sent client 1002 client_thread ping false].
Definition logged_run : option (debug * kstate) := happen sendings quiet threads_up.

Lemma logs_show_the_last_transactions_witness : ∃ d' s' es, logged_run = Some (d', s') ∧ history threads_up sendings es s' ∧
  binder_transaction_log_show (dbg_log d') = flat_map print_entry (lastn 32 es.*1) ∧
  binder_transaction_log_show (dbg_log_failed d') = flat_map print_entry (lastn 32 (filter (λ x, x.2 = true) es).*1).
Proof.
  destruct logged_run as [[d' s']|] eqn:E; [|vm_compute in E; discriminate E].
  destruct (logs_show_the_last_transactions (ltac:(apply (bool_decide_unpack _); vm_compute; exact I)) sendings quiet threads_up d' s' eq_refl eq_refl E) as (es & He).
  exists d', s', es. split; [reflexivity|exact He].
Defined.

Example the_logged_calls :
  (λ r, (binder_transaction_log_show (dbg_log r.1), binder_transaction_log_show (dbg_log_failed r.1))) <$> logged_run =
  Some (bytes_of "0: call  from 20:20 to 0:0 node 0 handle 9 size 8:0" ++ [10] ++ bytes_of "5: call  from 20:20 to 10:0 node 1 handle 0 size 8:0" ++ [10],
        bytes_of "0: call  from 20:20 to 0:0 node 0 handle 9 size 8:0" ++ [10]).
Proof. vm_compute. reflexivity. Qed.

Definition objects : list object_event := [Created BINDER_STAT_NODE; Created BINDER_STAT_REF; Deleted BINDER_STAT_NODE].

Lemma active_objects_survive_wrap_around_witness : ∃ c d,
  st_obj_created (foldl object_step no_stats objects) !! 3%nat = Some c ∧ st_obj_deleted (foldl object_step no_stats objects) !! 3%nat = Some d ∧ active c d = 1.
Proof.
  destruct (active_objects_survive_wrap_around BINDER_STAT_REF objects) as (c & d & Hc & Hd & Ha); [vm_compute; split; [discriminate|reflexivity]|].
  exists c, d. split; [exact Hc|]. split; [exact Hd|]. rewrite Ha. vm_compute. reflexivity.
Defined.

(** Without a queue for deferred work the driver does not start; without debugfs it does. *)
Example start_without_queue : binder_init false true true 0 = (- Errno.ENOMEM, None).
Proof. reflexivity. Qed.
Example start_without_debugfs : binder_init true false true 0 = (0, Some (Started false false true [])).
Proof. reflexivity. Qed.
End KDumpDemo.
