(* ===== verification/Majors.v ===== *)
(** * Block layer: major numbers

    Model of [register_blkdev] and [unregister_blkdev] of [patches/kernel/genhd.c]: a table of
    chains, hashed by the number, each entry a number and a name of at most fifteen characters.  The theorems: the
    table is a finite map from numbers to names. *)
From stdpp Require Import gmap.
From S2P Require Import Prelude.

(** The constants of the kernel's headers the block layer uses, and a switch of the configuration. *)
Class BlockApi := {
  BLKDEV_MAJOR_HASH_SIZE : Z;
  MINORBITS : Z;
  DEBUG_BLOCK_EXT_DEVT : bool;
  BLOCK_EXT_MAJOR : Z }.

Class BlockApiLaws `{BlockApi} : Prop := {
  hash_size_range : 1 < BLKDEV_MAJOR_HASH_SIZE < 2 ^ 31;
  minorbits_range : 0 < MINORBITS < 31;
  ext_major_range : 0 < BLOCK_EXT_MAJOR < 2 ^ (32 - MINORBITS) }.

(** [struct blk_major_name]; a name is its characters without the final zero. *)
Record blk_major_name := MajorName { mn_major : Z; mn_name : list Z }.

Section Majors.
Context `{BlockApi}.

Definition major_to_index (major : Z) : Z := major mod BLKDEV_MAJOR_HASH_SIZE.

(** The greatest index from [index] down whose chain is empty, or 0. *)
Fixpoint free_index (names : list (list blk_major_name)) (index : nat) : nat :=
  match index with
  | O => O
  | S i => match names !! index with Some [] => index | _ => free_index names i end
  end.

(** [strlcpy] into the 16 characters of an entry. *)
Definition entry_name (name : list Z) : list Z := take 15 name.

Definition has_major (major : Z) (x : blk_major_name) : bool := mn_major x =? major.

(** [ok] says whether there is memory for an entry. *)
Definition register_blkdev (ok : bool) (major : Z) (name : list Z) (names : list (list blk_major_name)) :
    option (Z * list (list blk_major_name)) :=
  let link major ret :=
    if ok then
      let index := Z.to_nat (major_to_index major) in
      chain ← names !! index;
      if existsb (has_major major) chain then Some (- Errno.EBUSY, names)
      else Some (ret, <[index := chain ++ [MajorName major (entry_name name)]]> names)
    else Some (- Errno.ENOMEM, names) in
  if major =? 0 then
    match free_index names (Z.to_nat (BLKDEV_MAJOR_HASH_SIZE - 1)) with
    | O => Some (- Errno.EBUSY, names)
    | index => link (Z.of_nat index) (Z.of_nat index)
    end
  else link major 0.

(** The chain without its first entry for [major], if that has the name. *)
Fixpoint unlink_major (major : Z) (name : list Z) (chain : list blk_major_name) : list blk_major_name :=
  match chain with
  | [] => []
  | x :: chain =>
    if has_major major x then if bool_decide (mn_name x = name) then chain else x :: chain
    else x :: unlink_major major name chain
  end.

Definition unregister_blkdev (major : Z) (name : list Z) (names : list (list blk_major_name)) :
    option (list (list blk_major_name)) :=
  let index := Z.to_nat (major_to_index major) in
  chain ← names !! index;
  Some (<[index := unlink_major major name chain]> names).

(** ** The map *)

(** The table with all chains empty. *)
Definition no_majors : list (list blk_major_name) := replicate (Z.to_nat BLKDEV_MAJOR_HASH_SIZE) [].

Record majors_ok (names : list (list blk_major_name)) : Prop := {
  mo_length : zlen names = BLKDEV_MAJOR_HASH_SIZE;
  mo_hashed i chain x : names !! i = Some chain → x ∈ chain → 0 ≤ mn_major x < 2 ^ 32 ∧ major_to_index (mn_major x) = Z.of_nat i;
  mo_nodup i chain : names !! i = Some chain → NoDup (mn_major <$> chain) }.

(** The table as a map. *)
Definition majors_map (names : list (list blk_major_name)) : gmap Z (list Z) :=
  list_to_map ((λ x, (mn_major x, mn_name x)) <$> concat names).

Section Laws.
Context `{!BlockApiLaws}.

Lemma index_range major : 0 ≤ major_to_index major < BLKDEV_MAJOR_HASH_SIZE.
Proof. pose proof hash_size_range. apply Z.mod_pos_bound. lia. Qed.

Lemma chain_there names major : majors_ok names → ∃ chain, names !! Z.to_nat (major_to_index major) = Some chain.
Proof. intros Hok. pose proof (index_range major). pose proof (mo_length _ Hok). apply lookup_lt_is_Some. lia. Qed.

Lemma nodup_major (chain : list blk_major_name) x y :
  NoDup (mn_major <$> chain) → x ∈ chain → y ∈ chain → mn_major x = mn_major y → x = y.
Proof.
  intros Hn Hx Hy He. apply list_elem_of_lookup in Hx as [i Hi]. apply list_elem_of_lookup in Hy as [j Hj].
  assert (i = j) as ->; [|congruence]. eapply (NoDup_lookup _ _ _ (mn_major x) Hn); rewrite list_lookup_fmap; [by rewrite Hi|by rewrite Hj, He].
Qed.

(** What the map has is what the chain of the number has. *)
Lemma map_lookup names major name chain :
  majors_ok names → names !! Z.to_nat (major_to_index major) = Some chain →
  majors_map names !! major = Some name ↔ MajorName major name ∈ chain.
Proof.
  intros Hok Hc. assert (∀ x, x ∈ concat names → mn_major x = major → x ∈ chain) as Hin.
  { intros x Hx <-. apply list_elem_of_In, in_concat in Hx as (c & Hcn & Hx). apply list_elem_of_In in Hcn, Hx.
    apply list_elem_of_lookup in Hcn as [i Hi]. destruct (mo_hashed _ Hok i c x Hi Hx) as [_ He]. rewrite He, Nat2Z.id, Hi in Hc. by injection Hc as ->. }
  split.
  - intros Hm%elem_of_list_to_map_2%list_elem_of_fmap. destruct Hm as ([m n] & [= -> ->] & Hm). by apply Hin.
  - intros Hm. apply elem_of_list_to_map_1'.
    + intros n' Hn'%list_elem_of_fmap. destruct Hn' as ([m n] & [= -> ->] & Hn'). specialize (Hin _ Hn' eq_refl).
      pose proof (nodup_major chain _ _ (mo_nodup _ Hok _ _ Hc) Hm Hin eq_refl). by simplify_eq.
    + apply list_elem_of_fmap. exists (MajorName major name). split; [done|]. apply list_elem_of_In, in_concat. exists chain.
      split; apply list_elem_of_In; [by eapply list_elem_of_lookup_2|done].
Qed.

Lemma map_lookup_none names major chain :
  majors_ok names → names !! Z.to_nat (major_to_index major) = Some chain →
  majors_map names !! major = None ↔ existsb (has_major major) chain = false.
Proof.
  intros Hok Hc. rewrite eq_None_not_Some, <- not_true_iff_false, existsb_exists. apply not_iff_compat. split.
  - intros [name Hn]. apply (map_lookup names major name chain Hok Hc) in Hn. exists (MajorName major name).
    split; [by apply list_elem_of_In|apply Z.eqb_refl].
  - intros ([m n] & Hx & Hm%Z.eqb_eq). cbn in Hm. subst m. exists n. by apply (map_lookup names major n chain Hok Hc), list_elem_of_In.
Qed.

(** Replacing the chain of [major] by one that differs in entries for it only. *)
Lemma replace_chain names major chain chain' :
  majors_ok names → 0 ≤ major < 2 ^ 32 → names !! Z.to_nat (major_to_index major) = Some chain →
  NoDup (mn_major <$> chain') → (∀ x, mn_major x ≠ major → x ∈ chain' ↔ x ∈ chain) →
  let names' := <[Z.to_nat (major_to_index major) := chain']> names in
  majors_ok names' ∧ names' !! Z.to_nat (major_to_index major) = Some chain' ∧
  ∀ m, m ≠ major → majors_map names' !! m = majors_map names !! m.
Proof.
  intros Hok Hm Hc Hnd Hsame names'. pose proof (lookup_lt_Some _ _ _ Hc) as Hlt. pose proof (index_range major) as Hi.
  assert (majors_ok names') as Hok'.
  { destruct Hok as [Hl Hh Hn]. split; [by unfold names'; rewrite length_insert|..].
    - intros i c x. unfold names'. destruct (decide (i = Z.to_nat (major_to_index major))) as [->|Hne]; [|rewrite list_lookup_insert_ne by done; apply Hh].
      rewrite list_lookup_insert_eq by done. intros [= <-] Hx. destruct (decide (mn_major x = major)) as [->|Hx2]; [split; [done|lia]|].
      eapply Hh; [exact Hc|by apply Hsame].
    - intros i c. unfold names'. destruct (decide (i = Z.to_nat (major_to_index major))) as [->|Hne]; [|rewrite list_lookup_insert_ne by done; apply Hn].
      rewrite list_lookup_insert_eq by done. by intros [= <-]. }
  split; [done|]. split; [by apply list_lookup_insert_eq|]. intros m Hne. apply option_eq. intros name.
  destruct (chain_there names m Hok) as [c Hcm]. destruct (chain_there names' m Hok') as [c' Hcm'].
  rewrite (map_lookup names m name c Hok Hcm), (map_lookup names' m name c' Hok' Hcm'). unfold names' in Hcm'.
  destruct (decide (Z.to_nat (major_to_index m) = Z.to_nat (major_to_index major))) as [He|Hn2].
  - rewrite He, list_lookup_insert_eq in Hcm' by done. rewrite He in Hcm. simplify_eq. by apply Hsame.
  - rewrite list_lookup_insert_ne in Hcm' by done. by simplify_eq.
Qed.

(** ** Registering *)

Lemma link_map names major name chain :
  majors_ok names → 0 ≤ major < 2 ^ 32 → names !! Z.to_nat (major_to_index major) = Some chain → existsb (has_major major) chain = false →
  let names' := <[Z.to_nat (major_to_index major) := chain ++ [MajorName major (entry_name name)]]> names in
  majors_ok names' ∧ majors_map names' = <[major := entry_name name]> (majors_map names).
Proof.
  intros Hok Hm Hc Hno names'. assert (∀ x, x ∈ chain → mn_major x ≠ major) as Hnew.
  { intros x Hx He. apply not_true_iff_false in Hno. apply Hno, existsb_exists. exists x. split; [by apply list_elem_of_In|by apply Z.eqb_eq]. }
  destruct (replace_chain names major chain (chain ++ [MajorName major (entry_name name)]) Hok Hm Hc) as (Hok' & Hc' & Hother).
  - rewrite fmap_app. apply NoDup_app. split; [by eapply mo_nodup|]. split; [|apply NoDup_singleton]. cbn.
    intros z Hz ->%list_elem_of_singleton. apply list_elem_of_fmap in Hz as (x & Hz & Hx). by eapply Hnew.
  - intros x Hx. rewrite elem_of_app, list_elem_of_singleton. split; [by intros [?| ->]|by left].
  - split; [done|]. apply map_eq. intros m. destruct (decide (m = major)) as [->|Hne]; [|by rewrite lookup_insert_ne, Hother].
    rewrite lookup_insert_eq. apply (map_lookup _ _ _ _ Hok' Hc'), elem_of_app. right. by apply list_elem_of_singleton.
Qed.

Lemma free_index_spec names n :
  match free_index names n with
  | O => ∀ i, (0 < i ≤ n)%nat → names !! i ≠ Some []
  | i => (i ≤ n)%nat ∧ names !! i = Some []
  end.
Proof.
  induction n as [|n IH]; cbn [free_index]; [intros i Hi; lia|]. revert IH.
  destruct (names !! S n) as [[|x c]|] eqn:E; [done|..].
  all: destruct (free_index names n) as [|k]; intros IH; [|destruct IH; split; [lia|done]].
  all: intros i Hi; destruct (decide (i = S n)) as [->|]; [congruence|apply IH; lia].
Qed.

(** Registering a block device acts on the map from major numbers to names: a number that is asked for is entered unless
    it is taken; for the number 0 a free one below the size of the table is chosen, and the call fails exactly when no chain but the first is
    empty; a failed call changes nothing. *)
Theorem register_blkdev_refines_map names ok major name :
  majors_ok names → 0 ≤ major < 2 ^ 32 →
  ∃ ret names', register_blkdev ok major name names = Some (ret, names') ∧ majors_ok names' ∧ (ret < 0 → names' = names) ∧
    (major ≠ 0 → ret = (if ok then if bool_decide (is_Some (majors_map names !! major)) then - Errno.EBUSY else 0 else - Errno.ENOMEM) ∧
                 (ret = 0 → majors_map names' = <[major := entry_name name]> (majors_map names))) ∧
    (major = 0 → ret = - Errno.EBUSY ∧ (∀ i, 0 < i < BLKDEV_MAJOR_HASH_SIZE → names !! Z.to_nat i ≠ Some []) ∨
                 ok = false ∧ ret = - Errno.ENOMEM ∨
                 0 < ret < BLKDEV_MAJOR_HASH_SIZE ∧ majors_map names !! ret = None ∧
                 majors_map names' = <[ret := entry_name name]> (majors_map names)).
Proof.
  intros Hok Hm. pose proof hash_size_range as Hs. unfold register_blkdev. destruct (Z.eqb_spec major 0) as [->|Hne].
  - pose proof (free_index_spec names (Z.to_nat (BLKDEV_MAJOR_HASH_SIZE - 1))) as Hf. destruct (free_index _ _) as [|k].
    { eexists _, names. split; [done|]. split; [done|]. split; [done|]. split; [done|]. intros _. left. split; [done|]. intros i Hi. apply Hf. lia. }
    destruct Hf as [Hk Hc]. destruct ok.
    2:{ eexists _, names. split; [done|]. split; [done|]. split; [done|]. split; [done|]. intros _. right. by left. }
    assert (major_to_index (Z.of_nat (S k)) = Z.of_nat (S k)) as Hi by (apply Z.mod_small; lia).
    assert (names !! Z.to_nat (major_to_index (Z.of_nat (S k))) = Some []) as Hc' by (by rewrite Hi, Nat2Z.id).
    destruct (link_map names (Z.of_nat (S k)) name [] Hok ltac:(lia) Hc' eq_refl) as [Hok' Hmap]. cbn [existsb]. rewrite Hc'. cbn.
    eexists _, _. split; [done|]. split; [exact Hok'|]. split; [lia|]. split; [done|]. intros _. right. right. split; [lia|]. split; [|exact Hmap].
    by apply (map_lookup_none names _ [] Hok Hc').
  - destruct ok.
    2:{ eexists _, names. split; [done|]. split; [done|]. split; [done|]. split; [|done]. intros _. split; [done|]. cbn. unfold Errno.ENOMEM. lia. }
    destruct (chain_there names major Hok) as [chain Hc]. rewrite Hc. cbn. pose proof (map_lookup_none names major chain Hok Hc) as Hn.
    destruct (existsb (has_major major) chain) eqn:E.
    + eexists _, names. split; [done|]. split; [done|]. split; [done|]. split; [|done]. intros _. unfold Errno.EBUSY. rewrite bool_decide_true; [by split|].
      apply not_eq_None_Some. intros Hx. by apply Hn in Hx.
    + destruct (link_map names major name chain Hok Hm Hc E) as [Hok' Hmap]. eexists _, _. split; [done|]. split; [exact Hok'|]. split; [done|].
      split; [|done]. intros _. rewrite bool_decide_false; [by split|]. apply eq_None_not_Some. by apply Hn.
Qed.

(** ** Unregistering *)

Lemma unlink_elem major name chain x : mn_major x ≠ major → x ∈ unlink_major major name chain ↔ x ∈ chain.
Proof.
  intros Hx. induction chain as [|y chain IH]; [done|]. cbn. unfold has_major. destruct (Z.eqb_spec (mn_major y) major) as [He|Hne].
  - case_bool_decide; [|done]. rewrite elem_of_cons. split; [by right|]. intros [->|]; done.
  - rewrite !elem_of_cons. by rewrite IH.
Qed.

Lemma unlink_sublist major name chain : unlink_major major name chain `sublist_of` chain.
Proof.
  induction chain as [|y chain IH]; cbn; [done|]. destruct (has_major major y); [|by constructor]. case_bool_decide; [by constructor|done].
Qed.

Lemma unlink_in major name chain n :
  NoDup (mn_major <$> chain) → MajorName major n ∈ unlink_major major name chain ↔ MajorName major n ∈ chain ∧ n ≠ name.
Proof.
  induction chain as [|y chain IH]; cbn; intros Hn; [by rewrite elem_of_nil; tauto|]. apply NoDup_cons in Hn as [Hy Hn].
  unfold has_major. destruct (Z.eqb_spec (mn_major y) major) as [He|Hne].
  - assert (∀ n', MajorName major n' ∉ chain) as Hno.
    { intros n' Hin. apply Hy. apply list_elem_of_fmap. exists (MajorName major n'). by rewrite He. }
    case_bool_decide as Hb.
    + rewrite elem_of_cons. split; [by intros ?%Hno|]. intros [[<-|?%Hno] Hnn]; done.
    + rewrite elem_of_cons. split; [|tauto]. intros [<-|?%Hno]; [|done]. by split; [left|].
  - rewrite !elem_of_cons, IH by done. assert (MajorName major n ≠ y) by (intros <-; done). tauto.
Qed.

(** Unregistering removes a number from the map exactly when it is registered under that name, and otherwise changes nothing. *)
Theorem unregister_blkdev_refines_map names major name :
  majors_ok names → 0 ≤ major < 2 ^ 32 →
  ∃ names', unregister_blkdev major name names = Some names' ∧ majors_ok names' ∧
    majors_map names' = if bool_decide (majors_map names !! major = Some name) then delete major (majors_map names) else majors_map names.
Proof.
  intros Hok Hm. unfold unregister_blkdev. destruct (chain_there names major Hok) as [chain Hc]. rewrite Hc. cbn. pose proof (mo_nodup _ Hok _ _ Hc) as Hnd.
  destruct (replace_chain names major chain (unlink_major major name chain) Hok Hm Hc) as (Hok' & Hc' & Hother).
  { by eapply sublist_NoDup, fmap_sublist, unlink_sublist. }
  { intros x Hx. by apply unlink_elem. }
  eexists. split; [done|]. split; [exact Hok'|]. apply map_eq. intros m. destruct (decide (m = major)) as [->|Hne].
  - apply option_eq. intros n. rewrite (map_lookup _ _ _ _ Hok' Hc'), unlink_in by done. pose proof (map_lookup names major n chain Hok Hc) as Hn.
    case_bool_decide as Hb; [rewrite lookup_delete_eq|]; rewrite <- Hn; split; [|done| |].
    + intros [Hx Hne]. congruence.
    + tauto.
    + intros Hx. split; [done|]. congruence.
  - rewrite Hother by done. case_bool_decide; [by rewrite lookup_delete_ne|done].
Qed.

(** A name of more than fifteen characters is cut when it is entered and compared in
    full when it is removed: the driver that registered cannot unregister, and its number stays taken. *)
Theorem long_name_never_unregistered names major name :
  majors_ok names → 0 < major < 2 ^ 32 → majors_map names !! major = None → 15 < zlen name →
  ∃ names1 names2, register_blkdev true major name names = Some (0, names1) ∧ unregister_blkdev major name names1 = Some names2 ∧
    majors_map names2 = <[major := entry_name name]> (majors_map names).
Proof.
  intros Hok Hm Hfree Hlong. destruct (chain_there names major Hok) as [chain Hc].
  pose proof (proj1 (map_lookup_none names major chain Hok Hc) Hfree) as He.
  destruct (link_map names major name chain Hok ltac:(lia) Hc He) as [Hok1 Hmap].
  set (names1 := <[_ := _]> names) in *. destruct (chain_there names1 major Hok1) as [chain1 Hc1].
  assert (register_blkdev true major name names = Some (0, names1)) as Hr.
  { unfold register_blkdev. assert ((major =? 0) = false) as -> by lia. rewrite Hc. cbn. by rewrite He. }
  exists names1. eexists. split; [exact Hr|]. unfold unregister_blkdev. rewrite Hc1. cbn. split; [done|]. rewrite <- Hmap.
  assert (unlink_major major name chain1 = chain1) as ->; [|by rewrite list_insert_id].
  pose proof (mo_nodup _ Hok1 _ _ Hc1) as Hnd. assert (MajorName major (entry_name name) ∈ chain1) as Hin.
  { apply (map_lookup names1 major _ chain1 Hok1 Hc1). rewrite Hmap. by rewrite lookup_insert_eq. }
  clear -Hlong Hin Hnd. induction chain1 as [|y l IH]; [done|]. cbn. apply NoDup_cons in Hnd as [Hy Hnd]. apply elem_of_cons in Hin as [<-|Hin].
  - unfold has_major. cbn. rewrite Z.eqb_refl, bool_decide_false; [done|]. intros Heq. apply (f_equal length) in Heq. unfold entry_name in Heq.
    rewrite length_take in Heq. lia.
  - unfold has_major. destruct (Z.eqb_spec (mn_major y) major) as [He|_]; [|by rewrite IH].
    destruct Hy. apply list_elem_of_fmap. by exists (MajorName major (entry_name name)).
Qed.

End Laws.

End Majors.

(** ** Witnesses *)

Module BlockDemo.

#[export] Instance demo_block : BlockApi := {| BLKDEV_MAJOR_HASH_SIZE := 255; MINORBITS := 20; DEBUG_BLOCK_EXT_DEVT := true; BLOCK_EXT_MAJOR := 259 |}.

#[export] Instance demo_block_laws : BlockApiLaws.
Proof. split; cbn; lia. Qed.

Lemma no_majors_ok : majors_ok no_majors.
Proof.
  split; [done|..].
  - intros i chain x [-> _]%lookup_replicate ?%not_elem_of_nil. done.
  - intros i chain [-> _]%lookup_replicate. apply NoDup_nil_2.
Qed.

(** [mmcblk]. *)
Definition mmc : list Z := [109; 109; 99; 98; 108; 107].

Lemma register_blkdev_refines_map_witness :
  ∃ names', register_blkdev true 0 mmc no_majors = Some (254, names') ∧ majors_ok names' ∧ majors_map names' = {[254 := mmc]}.
Proof.
  destruct (register_blkdev_refines_map no_majors true 0 mmc no_majors_ok ltac:(lia)) as (ret & names' & Hr & Hok & _ & _ & Hz).
  assert (ret = 254) as -> by (vm_compute in Hr; congruence).
  destruct (Hz eq_refl) as [[Hb _]|[[Hb _]|(_ & _ & Hm)]]; [discriminate Hb|discriminate Hb|]. exists names'. split; [exact Hr|]. split; [exact Hok|].
  rewrite Hm. vm_compute. reflexivity.
Defined.

Definition with_mmc : list (list blk_major_name) := match register_blkdev true 0 mmc no_majors with Some (_, l) => l | None => [] end.

Lemma with_mmc_ok : majors_ok with_mmc ∧ majors_map with_mmc = {[254 := mmc]}.
Proof.
  destruct (link_map no_majors 254 mmc [] no_majors_ok ltac:(lia) eq_refl eq_refl) as [Hok Hm].
  split; [exact Hok|]. transitivity (<[254 := entry_name mmc]> (majors_map no_majors)); [exact Hm|vm_compute; reflexivity].
Qed.

Lemma unregister_blkdev_refines_map_witness :
  ∃ names', unregister_blkdev 254 mmc with_mmc = Some names' ∧ majors_ok names' ∧ majors_map names' = ∅.
Proof.
  destruct (unregister_blkdev_refines_map with_mmc 254 mmc (proj1 with_mmc_ok) ltac:(lia)) as (names' & Hr & Hok & Hm).
  exists names'. split; [exact Hr|]. split; [exact Hok|]. rewrite Hm, (proj2 with_mmc_ok). vm_compute. reflexivity.
Defined.

End BlockDemo.
