(* ===== verification/DiskEvents.v ===== *)
(** * Block layer: disk events

    Model of the event monitoring of [patches/kernel/genhd.c]: one [struct disk_events], the operations on it under
    its lock, and its delayed work.  The driver is asked through [check_events], a function
    of the mask to clear; other threads may flush events while it runs, since the lock is not held then.  The theorems:
    no event is lost or fetched twice, a blocked disk is not checked, and a flush that comes during a check is kept. *)
From stdpp Require Import list.
From S2P Require Import Prelude.

(** [struct disk_events]; [ev_work] is the delay of the queued work, if any. *)
Record disk_events := DiskEvents {
  ev_block : Z;
  ev_pending : Z;
  ev_clearing : Z;
  ev_poll_msecs : Z;
  ev_work : option Z }.

Definition set_block (x : Z) (e : disk_events) := DiskEvents x (ev_pending e) (ev_clearing e) (ev_poll_msecs e) (ev_work e).
Definition set_pending (x : Z) (e : disk_events) := DiskEvents (ev_block e) x (ev_clearing e) (ev_poll_msecs e) (ev_work e).
Definition set_clearing (x : Z) (e : disk_events) := DiskEvents (ev_block e) (ev_pending e) x (ev_poll_msecs e) (ev_work e).
Definition set_poll (x : Z) (e : disk_events) := DiskEvents (ev_block e) (ev_pending e) (ev_clearing e) x (ev_work e).
Definition set_work (x : option Z) (e : disk_events) := DiskEvents (ev_block e) (ev_pending e) (ev_clearing e) (ev_poll_msecs e) x.

(** The bits with a name in [disk_uevents]: a change of media and a request to eject. *)
Definition disk_uevents : list Z := [0; 1].
Definition DISK_EVENT_MEDIA_CHANGE : Z := 1.

(** Work that is already queued keeps its time with [queue_delayed_work] and gets a new one with [mod_delayed_work]. *)
Definition queue_delayed_work (delay : Z) (e : disk_events) : disk_events :=
  match ev_work e with Some _ => e | None => set_work (Some delay) e end.
Definition mod_delayed_work (delay : Z) (e : disk_events) : disk_events := set_work (Some delay) e.

Create Rewrite HintDb evs.

Section Events.
(** The conversion of times, the masks of the disk, and the default interval, which can change. *)
Variable msecs_to_jiffies : Z → Z.
Variables (events async_events : Z).

Definition disk_events_poll_jiffies (dfl : Z) (e : disk_events) : Z :=
  let intv_msecs :=
    if 0 <=? ev_poll_msecs e then ev_poll_msecs e
    else if truthy (events &&& Z.lnot async_events) then s32 dfl else 0 in
  msecs_to_jiffies intv_msecs.

Definition disk_block_events (e : disk_events) : disk_events :=
  let e' := set_block (ev_block e + 1) e in
  if ev_block e =? 0 then set_work None e' else e'.

(** [__disk_unblock_events]. *)
Definition unblock_events (dfl : Z) (check_now : bool) (e : disk_events) : disk_events :=
  if ev_block e <=? 0 then e
  else
    let e := set_block (ev_block e - 1) e in
    if truthy (ev_block e) then e
    else
      let intv := disk_events_poll_jiffies dfl e in
      if check_now then queue_delayed_work 0 e
      else if truthy intv then queue_delayed_work intv e else e.

Definition disk_unblock_events (dfl : Z) (e : disk_events) : disk_events := unblock_events dfl false e.

Definition disk_flush_events (mask : Z) (e : disk_events) : disk_events :=
  let e := set_clearing (ev_clearing e ||| mask) e in
  if ev_block e =? 0 then mod_delayed_work 0 e else e.

(** What other threads flush while the driver is asked. *)
Definition flush_all (masks : list Z) (e : disk_events) : disk_events := foldl (λ e m, disk_flush_events m e) e masks.

(** The bits of one uevent; there is none when the list is empty. *)
Definition announced (new : Z) : list Z :=
  filter (λ i, truthy (new &&& events &&& Z.shiftl 1 i)) disk_uevents.

(** [disk_check_events]: [keep] says what is left to clear afterwards of what is in [ev->clearing]. *)
Definition disk_check_events (dfl : Z) (drv : Z → Z) (others : list Z) (clearing : Z) (keep : Z → Z) (e : disk_events) : disk_events * list Z :=
  let reported := drv clearing in
  let e := flush_all others e in
  let new := reported &&& Z.lnot (ev_pending e) in
  let e := set_clearing (keep (ev_clearing e)) (set_pending (ev_pending e ||| new) e) in
  let intv := disk_events_poll_jiffies dfl e in
  let e := if (ev_block e =? 0) && truthy intv then queue_delayed_work intv e else e in
  (e, announced new).

(** The work function, with the work off the queue; [clearing_ptr] is the field itself. *)
Definition disk_events_workfn (dfl : Z) (drv : Z → Z) (others : list Z) (e : disk_events) : disk_events * list Z :=
  let e := set_work None e in
  let clearing := ev_clearing e in
  disk_check_events dfl drv others clearing (λ c, c &&& Z.lnot clearing) e.

(** With events: the fetched events, the state, the uevent and whether the final warning is raised.  [clearing_ptr] is a local variable. *)
Definition disk_clear_events (dfl : Z) (drv : Z → Z) (others : list Z) (mask : Z) (e : disk_events) : Z * disk_events * list Z * bool :=
  let e := disk_block_events e in
  let clearing := mask ||| ev_clearing e in
  let e := set_clearing 0 e in
  let '(e, uevent) := disk_check_events dfl drv others clearing id e in
  let clearing := clearing &&& Z.lnot clearing in
  let e := unblock_events dfl (truthy (ev_clearing e)) e in
  let pending := ev_pending e &&& mask in
  let e := set_pending (ev_pending e &&& Z.lnot mask) e in
  (pending, e, uevent, truthy (clearing &&& mask)).

(** Without events: the old method of the driver, if it has one. *)
Definition clear_without_events (media_changed : option bool) (mask : Z) : Z :=
  if truthy (mask &&& DISK_EVENT_MEDIA_CHANGE) && default false media_changed then DISK_EVENT_MEDIA_CHANGE else 0.

(** A write of [count] characters to [events_poll_msecs]; [intv] is the number they begin with. *)
Definition disk_events_poll_msecs_store (dfl : Z) (intv : option Z) (count : Z) (e : disk_events) : Z * disk_events :=
  match intv with
  | Some intv =>
    if count =? 0 then (- Errno.EINVAL, e)
    else if (intv <? 0) && negb (intv =? -1) then (- Errno.EINVAL, e)
    else (count, unblock_events dfl true (set_poll intv (disk_block_events e)))
  | None => (- Errno.EINVAL, e)
  end.

(** A new structure, its start and its end; the end of the disk warns when the count is not one. *)
Definition disk_alloc_events : disk_events := DiskEvents 1 0 0 (-1) None.
Definition disk_add_events (dfl : Z) (e : disk_events) : disk_events := unblock_events dfl true e.
Definition disk_del_events (e : disk_events) : disk_events := disk_block_events e.
Definition disk_release_events (e : disk_events) : bool := negb (ev_block e =? 1).

(** ** Histories *)

Inductive ev_op :=
| Op_block
| Op_unblock (dfl : Z)
| Op_flush (mask : Z)
| Op_clear (dfl : Z) (drv : Z → Z) (others : list Z) (mask : Z)
| Op_work (dfl : Z) (drv : Z → Z) (others : list Z)
| Op_poll (dfl : Z) (intv : option Z) (count : Z)
| Op_add (dfl : Z).

(** An operation: the state behind it, the uevent and the fetched events.  The work runs only when it is queued. *)
Definition run_op (op : ev_op) (e : disk_events) : option (disk_events * list Z * Z) :=
  match op with
  | Op_block => Some (disk_block_events e, [], 0)
  | Op_unblock dfl => Some (disk_unblock_events dfl e, [], 0)
  | Op_flush mask => Some (disk_flush_events mask e, [], 0)
  | Op_clear dfl drv others mask => let '(r, e, u, _) := disk_clear_events dfl drv others mask e in Some (e, u, r)
  | Op_work dfl drv others =>
    _ ← ev_work e; let '(e, u) := disk_events_workfn dfl drv others e in Some (e, u, 0)
  | Op_poll dfl intv count => Some ((disk_events_poll_msecs_store dfl intv count e).2, [], 0)
  | Op_add dfl => Some (disk_add_events dfl e, [], 0)
  end.

(** A sequence, with all uevents and all results in order. *)
Fixpoint run_ops (ops : list ev_op) (e : disk_events) : option (disk_events * list (list Z) * list Z) :=
  match ops with
  | [] => Some (e, [], [])
  | op :: ops =>
    '(e, u, r) ← run_op op e;
    '(e, us, rs) ← run_ops ops e;
    Some (e, u :: us, r :: rs)
  end.

(** How an operation changes the depth of blocking; the callers unblock what they blocked. *)
Definition depth (op : ev_op) : Z :=
  match op with Op_block => 1 | Op_unblock _ | Op_add _ => -1 | _ => 0 end.

Fixpoint balanced (d : Z) (ops : list ev_op) : Prop :=
  match ops with
  | [] => True
  | op :: ops => 0 ≤ d + depth op ∧ balanced (d + depth op) ops
  end.

(** ** Blocking *)

(** The count is not negative, and nothing is queued while it is positive. *)
Definition events_ok (e : disk_events) : Prop := 0 ≤ ev_block e ∧ (0 < ev_block e → ev_work e = None).

Lemma queue_block delay e : ev_block (queue_delayed_work delay e) = ev_block e.
Proof. unfold queue_delayed_work. by destruct (ev_work e). Qed.
Lemma queue_pending delay e : ev_pending (queue_delayed_work delay e) = ev_pending e.
Proof. unfold queue_delayed_work. by destruct (ev_work e). Qed.
Lemma queue_clearing delay e : ev_clearing (queue_delayed_work delay e) = ev_clearing e.
Proof. unfold queue_delayed_work. by destruct (ev_work e). Qed.

Hint Rewrite queue_block queue_pending queue_clearing : evs.

Lemma block_ok e : events_ok e → events_ok (disk_block_events e) ∧ ev_block (disk_block_events e) = ev_block e + 1.
Proof.
  intros [Hb Hw]. unfold disk_block_events, events_ok. destruct (Z.eqb_spec (ev_block e) 0); cbn; [split; [split; [lia|done]|lia]|].
  split; [|lia]. split; [lia|]. intros _. apply Hw. lia.
Qed.

Lemma unblock_ok dfl now e : events_ok e → 0 < ev_block e → events_ok (unblock_events dfl now e) ∧ ev_block (unblock_events dfl now e) = ev_block e - 1.
Proof.
  intros [Hb Hw] Hp. unfold unblock_events, events_ok, truthy. destruct (Z.leb_spec (ev_block e) 0); [lia|]. cbn [set_block ev_block].
  destruct (Z.eqb_spec (ev_block e - 1) 0) as [E|E]; cbn [negb].
  - repeat case_match; autorewrite with evs; cbn; split; try lia; (split; [lia|]; intros; lia).
  - cbn. split; [split; [lia|]|lia]. intros _. by apply Hw.
Qed.

Lemma flush_ok m e : events_ok e → events_ok (disk_flush_events m e) ∧ ev_block (disk_flush_events m e) = ev_block e.
Proof.
  intros [Hb Hw]. unfold disk_flush_events, events_ok. cbn. destruct (Z.eqb_spec (ev_block e) 0); cbn; (split; [split; [done|]|done]); [lia|done].
Qed.

Lemma flush_all_ok ms : ∀ e, events_ok e → events_ok (flush_all ms e) ∧ ev_block (flush_all ms e) = ev_block e.
Proof.
  induction ms as [|m ms IH]; intros e He; [done|]. cbn. destruct (flush_ok m e He) as [H1 H2]. destruct (IH _ H1) as [H3 H4]. split; [exact H3|]. etransitivity; [exact H4|exact H2].
Qed.

Lemma check_ok dfl drv others c keep e : events_ok e →
  events_ok (disk_check_events dfl drv others c keep e).1 ∧ ev_block (disk_check_events dfl drv others c keep e).1 = ev_block e.
Proof.
  intros He. destruct (flush_all_ok others e He) as [[Hb Hw] He2]. unfold disk_check_events, events_ok. cbn. rewrite <- He2.
  destruct (Z.eqb_spec (ev_block (flush_all others e)) 0) as [E|E]; cbn [andb]; [|done].
  destruct (truthy _); [|done]. autorewrite with evs. cbn. split; [|done]. split; [done|lia].
Qed.

Lemma clear_block dfl drv others mask e :
  events_ok e → let '(_, e', _, _) := disk_clear_events dfl drv others mask e in events_ok e' ∧ ev_block e' = ev_block e.
Proof.
  intros He. unfold disk_clear_events. destruct (block_ok e He) as [H1 B1]. set (e1 := disk_block_events e) in *.
  assert (events_ok (set_clearing 0 e1)) as H2 by done.
  destruct (check_ok dfl drv others (mask ||| ev_clearing e1) id _ H2) as [H3 B3]. destruct (disk_check_events _ _ _ _ _ _) as [e2 u]. cbn in H3, B3.
  destruct He as [Hb _]. destruct (unblock_ok dfl (truthy (ev_clearing e2)) e2 H3 ltac:(lia)) as [H4 B4]. split; [done|]. cbn. lia.
Qed.

Lemma run_op_ok op e e' u r : events_ok e → 0 ≤ ev_block e + depth op → run_op op e = Some (e', u, r) →
  events_ok e' ∧ ev_block e' = ev_block e + depth op.
Proof.
  intros He Hd Hr. destruct op as [|dfl|m|dfl drv others m|dfl drv others|dfl intv count|dfl]; cbn [run_op depth] in Hd, Hr |- *.
  - injection Hr as <- _ _. by apply block_ok.
  - injection Hr as <- _ _. apply unblock_ok; [done|lia].
  - injection Hr as <- _ _. rewrite Z.add_0_r. by apply flush_ok.
  - pose proof (clear_block dfl drv others m e He) as Hc. destruct (disk_clear_events _ _ _ _ _) as [[[r0 e0] u0] w0]. injection Hr as <- _ _. by rewrite Z.add_0_r.
  - destruct (ev_work e) as [d|] eqn:Ew; [|done]. cbn [mbind option_bind] in Hr. unfold disk_events_workfn in Hr.
    pose proof (check_ok dfl drv others (ev_clearing (set_work None e)) (λ c, c &&& Z.lnot (ev_clearing (set_work None e))) (set_work None e)) as Hc.
    destruct (disk_check_events _ _ _ _ _ _) as [e0 u0]. injection Hr as <- _ _. rewrite Z.add_0_r. apply Hc. destruct He as [Hb Hw]. by split.
  - injection Hr as <- _ _. rewrite Z.add_0_r. unfold disk_events_poll_msecs_store. destruct intv as [intv|]; [|done].
    destruct (count =? 0); [done|]. destruct (_ && _); [done|]. destruct (block_ok e He) as [H1 B1]. cbn.
    destruct (unblock_ok dfl true (set_poll intv (disk_block_events e)) H1) as [H2 B2]; [cbn; destruct He; lia|]. split; [done|]. rewrite B2. cbn. lia.
  - injection Hr as <- _ _. apply unblock_ok; [done|lia].
Qed.

(** In every history of a disk whose callers unblock only what they blocked, the depth of blocking is the number of
    blocks that are open, and while there is one no check is queued: the work function cannot run. *)
Theorem blocked_disk_not_checked ops e us rs :
  balanced 1 ops → run_ops ops disk_alloc_events = Some (e, us, rs) →
  ev_block e = 1 + foldr (λ op n, depth op + n) 0 ops ∧ (0 < ev_block e → ev_work e = None ∧ ∀ dfl drv others, run_op (Op_work dfl drv others) e = None).
Proof.
  intros Hb Hr. assert (∀ ops e0 e us rs, events_ok e0 → balanced (ev_block e0) ops → run_ops ops e0 = Some (e, us, rs) →
    events_ok e ∧ ev_block e = ev_block e0 + foldr (λ op n, depth op + n) 0 ops) as Hgen.
  { clear. intros ops. induction ops as [|op ops IH]; intros e0 e us rs He Hb Hr; cbn in *; [injection Hr as <- _ _; split; [done|lia]|].
    destruct Hb as [Hb1 Hb2]. destruct (run_op op e0) as [[[e1 u1] r1]|] eqn:E1; [|done]. cbn in Hr.
    destruct (run_op_ok op e0 e1 u1 r1 He Hb1 E1) as [He1 Hd1]. rewrite <- Hd1 in Hb2.
    destruct (run_ops ops e1) as [[[e2 us2] rs2]|] eqn:E2; [|done]. cbn in Hr. injection Hr as <- _ _.
    destruct (IH _ _ _ _ He1 Hb2 E2) as [He2 Hd2]. split; [done|]. lia. }
  destruct (Hgen ops disk_alloc_events e us rs) as [[H1 H2] H3]; [by split|done|done|]. split; [exact H3|]. intros Hp. specialize (H2 Hp).
  split; [done|]. intros dfl drv others. cbn. by rewrite H2.
Qed.

(** ** Fetching *)

Lemma flush_all_pending ms : ∀ e, ev_pending (flush_all ms e) = ev_pending e.
Proof. induction ms as [|m ms IH]; intros e; [done|]. etransitivity; [apply IH|]. unfold disk_flush_events. by case_match. Qed.

Lemma block_pending e : ev_pending (disk_block_events e) = ev_pending e.
Proof. unfold disk_block_events. by case_match. Qed.

Lemma unblock_pending dfl now e : ev_pending (unblock_events dfl now e) = ev_pending e.
Proof. unfold unblock_events. repeat case_match; by autorewrite with evs. Qed.

Lemma flush_pending m e : ev_pending (disk_flush_events m e) = ev_pending e.
Proof. unfold disk_flush_events. by case_match. Qed.

Hint Rewrite flush_all_pending block_pending unblock_pending flush_pending : evs.

(** How often event [i] is in a uevent, and in a result. *)
Definition told (i : Z) (u : list Z) : Z := zlen (filter (λ j, j = i) u).
Definition bit (i : Z) (m : Z) : Z := Z.b2z (Z.testbit m i).

Lemma truthy_bit x i : 0 ≤ i → truthy (x &&& Z.shiftl 1 i) = Z.testbit x i.
Proof.
  intros Hi. rewrite Z.shiftl_1_l. unfold truthy. destruct (Z.testbit x i) eqn:E.
  - destruct (Z.eqb_spec (x &&& 2 ^ i) 0) as [H0|]; [|done]. apply (f_equal (λ z, Z.testbit z i)) in H0.
    rewrite Z.land_spec, E, Z.pow2_bits_true, Z.bits_0 in H0 by lia. done.
  - destruct (Z.eqb_spec (x &&& 2 ^ i) 0) as [|Hne]; [done|]. destruct Hne. apply Z.bits_inj'. intros n Hn. rewrite Z.land_spec, Z.bits_0.
    destruct (decide (n = i)) as [->|]; [by rewrite E|]. rewrite Z.pow2_bits_false by lia. apply andb_false_r.
Qed.

Lemma told_announced i new : i ∈ disk_uevents → Z.testbit events i = true → told i (announced new) = bit i new.
Proof.
  intros Hi He. unfold told, announced, bit. assert (0 ≤ i) as H0 by (repeat (apply elem_of_cons in Hi as [->|Hi]; [lia|]); by apply not_elem_of_nil in Hi).
  assert (truthy (new &&& events &&& Z.shiftl 1 i) = Z.testbit new i) as Ht by (rewrite truthy_bit, Z.land_spec, He by done; apply andb_true_r).
  unfold disk_uevents in *. rewrite !filter_cons, filter_nil.
  apply elem_of_cons in Hi as [->|Hi]; [|apply elem_of_cons in Hi as [->|Hi]; [|by apply not_elem_of_nil in Hi]]; rewrite Ht.
  all: destruct (Z.testbit new _); repeat (case_decide; cbn); try done.
Qed.

Lemma new_bit i reported p : bit i (p ||| (reported &&& Z.lnot p)) = bit i p + bit i (reported &&& Z.lnot p) .
Proof.
  unfold bit. destruct (decide (0 ≤ i)) as [Hi|Hi]; [|by rewrite !Z.testbit_neg_r by lia].
  rewrite Z.lor_spec, !Z.land_spec, Z.lnot_spec by done. by destruct (Z.testbit p i), (Z.testbit reported i).
Qed.

Lemma check_bits dfl drv others c keep e i :
  i ∈ disk_uevents → Z.testbit events i = true →
  bit i (ev_pending (disk_check_events dfl drv others c keep e).1) = bit i (ev_pending e) + told i (disk_check_events dfl drv others c keep e).2.
Proof.
  intros Hi He. unfold disk_check_events. cbn [fst snd]. rewrite told_announced by done. rewrite !flush_all_pending.
  case_match; autorewrite with evs; cbn [set_clearing set_pending ev_pending]; rewrite ?flush_all_pending; apply new_bit.
Qed.

Lemma run_op_bits op e e' u r i :
  i ∈ disk_uevents → Z.testbit events i = true → run_op op e = Some (e', u, r) →
  bit i (ev_pending e) + told i u = bit i r + bit i (ev_pending e').
Proof.
  intros Hi He Hr. assert (bit i 0 = 0) as H0 by (unfold bit; by rewrite Z.bits_0).
  assert (told i [] = 0) as T0 by done. destruct op as [|dfl|m|dfl drv others m|dfl drv others|dfl intv count|dfl]; cbn [run_op] in Hr.
  - injection Hr as <- <- <-. autorewrite with evs. lia.
  - injection Hr as <- <- <-. unfold disk_unblock_events. autorewrite with evs. lia.
  - injection Hr as <- <- <-. autorewrite with evs. lia.
  - unfold disk_clear_events in Hr.
    pose proof (check_bits dfl drv others (m ||| ev_clearing (disk_block_events e)) id (set_clearing 0 (disk_block_events e)) i Hi He) as Hc.
    destruct (disk_check_events _ _ _ _ _ _) as [e0 u0]. injection Hr as <- <- <-. cbn in Hc |- *. autorewrite with evs in *. rewrite <- Hc.
    unfold bit. destruct (decide (0 ≤ i)) as [Hp|Hp]; [|by rewrite !Z.testbit_neg_r by lia].
    rewrite !Z.land_spec, Z.lnot_spec by done. by destruct (Z.testbit (ev_pending e0) i), (Z.testbit m i).
  - destruct (ev_work e) as [d|] eqn:Ew; [|done]. cbn [mbind option_bind] in Hr. unfold disk_events_workfn in Hr.
    pose proof (check_bits dfl drv others (ev_clearing (set_work None e)) (λ c, c &&& Z.lnot (ev_clearing (set_work None e))) (set_work None e) i Hi He) as Hc.
    destruct (disk_check_events _ _ _ _ _ _) as [e0 u0]. injection Hr as <- <- <-. cbn in Hc. lia.
  - injection Hr as <- <- <-. unfold disk_events_poll_msecs_store. repeat case_match; cbn [snd]; autorewrite with evs; cbn [set_poll ev_pending]; autorewrite with evs; lia.
  - injection Hr as <- <- <-. unfold disk_add_events. autorewrite with evs. lia.
Qed.

(** C24: No event of a disk is lost, and none is fetched twice: in every history and for every event the disk reports,
    each time it was announced to user space it was fetched by exactly one call later, or it is still pending. *)
Theorem events_fetched_exactly_once ops e us rs i :
  i ∈ disk_uevents → Z.testbit events i = true → run_ops ops disk_alloc_events = Some (e, us, rs) →
  foldr (λ u n, told i u + n) 0 us = foldr (λ r n, bit i r + n) 0 rs + bit i (ev_pending e).
Proof.
  intros Hi He. assert (∀ e0, run_ops ops e0 = Some (e, us, rs) →
    bit i (ev_pending e0) + foldr (λ u n, told i u + n) 0 us = foldr (λ r n, bit i r + n) 0 rs + bit i (ev_pending e)) as Hgen.
  2:{ intros Hr. specialize (Hgen _ Hr). cbn in Hgen. unfold bit in Hgen at 1. rewrite Z.bits_0 in Hgen. cbn in Hgen. lia. }
  revert e us rs. induction ops as [|op ops IH]; intros e us rs e0 Hr; cbn in Hr; [injection Hr as <- <- <-; cbn; lia|].
  destruct (run_op op e0) as [[[e1 u1] r1]|] eqn:E1; [|done]. cbn in Hr. destruct (run_ops ops e1) as [[[e2 us2] rs2]|] eqn:E2; [|done]. cbn in Hr.
  injection Hr as <- <- <-. pose proof (run_op_bits op e0 e1 u1 r1 i Hi He E1). specialize (IH _ _ _ _ E2). cbn. lia.
Qed.

(** ** Clearing *)

Lemma flush_all_clearing ms : ∀ e, ev_clearing (flush_all ms e) = foldl Z.lor (ev_clearing e) ms.
Proof. induction ms as [|m ms IH]; intros e; [done|]. etransitivity; [apply IH|]. cbn. f_equal. unfold disk_flush_events. by case_match. Qed.

Lemma block_clearing e : ev_clearing (disk_block_events e) = ev_clearing e.
Proof. unfold disk_block_events. by case_match. Qed.

Lemma unblock_clearing dfl now e : ev_clearing (unblock_events dfl now e) = ev_clearing e.
Proof. unfold unblock_events. repeat case_match; by autorewrite with evs. Qed.

Lemma check_clearing dfl drv others c keep e :
  ev_clearing (disk_check_events dfl drv others c keep e).1 = keep (foldl Z.lor (ev_clearing e) others).
Proof. unfold disk_check_events. cbn [fst]. rewrite <- flush_all_clearing. case_match; by autorewrite with evs. Qed.

(** Fetching events asks the driver to clear what the caller named and what was flushed before, returns
    the named events that were pending or are now reported, and raises no warning; what other threads flush meanwhile stays to be cleared,
    and if there is any and the disk is not blocked a check is queued at once. *)
Theorem clear_events_fetches dfl drv others mask e :
  events_ok e →
  let '(r, e', _, warned) := disk_clear_events dfl drv others mask e in
  r = (ev_pending e ||| drv (mask ||| ev_clearing e)) &&& mask ∧ warned = false ∧
  ev_pending e' = (ev_pending e ||| drv (mask ||| ev_clearing e)) &&& Z.lnot mask ∧
  ev_clearing e' = foldl Z.lor 0 others ∧ (ev_block e = 0 → ev_clearing e' ≠ 0 → ev_work e' = Some 0).
Proof.
  intros He. unfold disk_clear_events. destruct (block_ok e He) as [H1 B1]. rewrite block_clearing. set (c := mask ||| ev_clearing e).
  pose proof (check_clearing dfl drv others c id (set_clearing 0 (disk_block_events e))) as Hc.
  destruct (check_ok dfl drv others c id (set_clearing 0 (disk_block_events e)) H1) as [[H3 H3'] B3].
  assert (ev_pending (disk_check_events dfl drv others c id (set_clearing 0 (disk_block_events e))).1 = ev_pending e ||| drv c) as Hp.
  { unfold disk_check_events. cbn [fst]. case_match; autorewrite with evs; cbn; autorewrite with evs; cbn; autorewrite with evs.
    all: apply Z.bits_inj'; intros n Hn; rewrite !Z.lor_spec, Z.land_spec, Z.lnot_spec by done; by destruct (Z.testbit (ev_pending e) n), (Z.testbit (drv c) n). }
  destruct (disk_check_events _ _ _ _ _ _) as [e2 u]. cbn in Hc, Hp, B3, H3, H3'. rewrite unblock_pending, Hp. split; [done|].
  split; [by rewrite Z.land_lnot_diag|]. split; [done|]. cbn [set_pending ev_clearing ev_work]. rewrite unblock_clearing. split; [done|]. intros Hb Hne.
  unfold unblock_events. destruct (Z.leb_spec (ev_block e2) 0); [lia|]. cbn [set_block ev_block]. rewrite B3, B1, Hb.
  assert (truthy (ev_clearing e2) = true) as -> by (unfold truthy; destruct (Z.eqb_spec (ev_clearing e2) 0); done). cbn.
  unfold queue_delayed_work. cbn. rewrite H3' by lia. done.
Qed.

End Events.

(** ** Witnesses *)

Module EventsDemo.

(** A card that reports a change of media twice, with a flush during the second check. *)
Definition card (clearing : Z) : Z := 1.
Definition ops0 : list ev_op :=
  [Op_add 0; Op_work 0 card []; Op_flush 2; Op_work 0 card []; Op_clear 0 card [2] 1; Op_work 0 card []; Op_block].
Definition end0 : disk_events := DiskEvents 1 1 0 (-1) None.

Lemma blocked_disk_not_checked_witness : ev_block end0 = 1 ∧ ev_work end0 = None.
Proof.
  destruct (blocked_disk_not_checked (λ x, x) 3 0 ops0 end0 [[]; [0]; []; []; []; [0]; []] [0; 0; 0; 0; 1; 0; 0]) as [Hb Hw];
    [cbn; lia|vm_compute; reflexivity|]. split; [exact Hb|]. apply Hw. vm_compute. reflexivity.
Defined.

Lemma events_fetched_exactly_once_witness : 2 = 1 + bit 0 (ev_pending end0).
Proof.
  apply (events_fetched_exactly_once (λ x, x) 3 0 ops0 end0 [[]; [0]; []; []; []; [0]; []] [0; 0; 0; 0; 1; 0; 0] 0);
    [by left|reflexivity|vm_compute; reflexivity].
Defined.

Lemma clear_events_fetches_witness :
  let '(r, e', _, warned) := disk_clear_events (λ x, x) 3 0 0 card [2] 1 (DiskEvents 0 0 2 (-1) (Some 0)) in
  r = 1 ∧ warned = false ∧ ev_clearing e' = 2 ∧ ev_work e' = Some 0.
Proof.
  pose proof (clear_events_fetches (λ x, x) 3 0 0 card [2] 1 (DiskEvents 0 0 2 (-1) (Some 0))) as Hc.
  destruct (disk_clear_events _ _ _ _ _ _ _ _) as [[[r e'] u] w]. destruct Hc as (Hr & Hw & _ & Hcl & Hq); [by split; cbn; lia|].
  split; [exact Hr|]. split; [exact Hw|]. split; [exact Hcl|]. apply Hq; [reflexivity|]. by rewrite Hcl.
Defined.

End EventsDemo.
