(* ===== verification/DiskState.v ===== *)
(** * Block layer: disks and partitions

    Model of the partition table, the iterators, device numbers, partitions and disks of [patches/kernel/genhd.c] and
    [patches/kernel/partition-generic.c].  Disks and partitions are maps from addresses, so that a pointer to freed memory is an
    address that is not in the map; a null pointer is 0.  The device of a partition is part of it, and the device of a disk is
    the one of its partition 0, which is embedded in it and has its address.  Partitions are freed by the last reference to their device, after a grace period:
    the callbacks that wait for it are a list of the state.
    Of what the driver core does by itself, the uevent when a device goes away is part of the model and the reference of a child to its parent is left out.  The rest of the kernel is the class [BlockCore]. *)
From stdpp Require Import gmap.
From S2P Require Import Prelude Majors DiskEvents.

Abbreviation u64 := (wrap 64).

(** ** Data *)

(** [struct partition_meta_info]. *)
Record part_info := PartInfo { pi_uuid : list Z; pi_volname : list Z }.

(** [struct hd_struct]; the fields from [hd_name] on are those of its device. *)
Record hd_struct := Hd {
  hd_start_sect : Z;
  hd_nr_sects : Z;
  hd_alignment_offset : Z;
  hd_discard_alignment : Z;
  hd_partno : Z;
  hd_policy : Z;
  hd_info : option part_info;
  hd_disk : Z;
  hd_ref : Z;
  hd_name : list Z;
  hd_devt : Z;
  hd_refs : Z;
  hd_suppress : bool }.

Definition set_hd_start_sect (x : Z) (o : hd_struct) : hd_struct :=
  Hd x (hd_nr_sects o) (hd_alignment_offset o)
    (hd_discard_alignment o) (hd_partno o) (hd_policy o) (hd_info o) (hd_disk o) (hd_ref o) (hd_name o) (hd_devt o)
    (hd_refs o) (hd_suppress o).
Definition set_hd_nr_sects (x : Z) (o : hd_struct) : hd_struct :=
  Hd (hd_start_sect o) x (hd_alignment_offset o)
    (hd_discard_alignment o) (hd_partno o) (hd_policy o) (hd_info o) (hd_disk o) (hd_ref o) (hd_name o) (hd_devt o)
    (hd_refs o) (hd_suppress o).
Definition set_hd_policy (x : Z) (o : hd_struct) : hd_struct :=
  Hd (hd_start_sect o) (hd_nr_sects o)
    (hd_alignment_offset o) (hd_discard_alignment o) (hd_partno o) x (hd_info o) (hd_disk o) (hd_ref o) (hd_name o)
    (hd_devt o) (hd_refs o) (hd_suppress o).
Definition set_hd_ref (x : Z) (o : hd_struct) : hd_struct :=
  Hd (hd_start_sect o) (hd_nr_sects o)
    (hd_alignment_offset o) (hd_discard_alignment o) (hd_partno o) (hd_policy o) (hd_info o) (hd_disk o) x (hd_name
    o) (hd_devt o) (hd_refs o) (hd_suppress o).
Definition set_hd_name (x : list Z) (o : hd_struct) : hd_struct :=
  Hd (hd_start_sect o) (hd_nr_sects o)
    (hd_alignment_offset o) (hd_discard_alignment o) (hd_partno o) (hd_policy o) (hd_info o) (hd_disk o) (hd_ref o)
    x (hd_devt o) (hd_refs o) (hd_suppress o).
Definition set_hd_devt (x : Z) (o : hd_struct) : hd_struct :=
  Hd (hd_start_sect o) (hd_nr_sects o)
    (hd_alignment_offset o) (hd_discard_alignment o) (hd_partno o) (hd_policy o) (hd_info o) (hd_disk o) (hd_ref o)
    (hd_name o) x (hd_refs o) (hd_suppress o).
Definition set_hd_refs (x : Z) (o : hd_struct) : hd_struct :=
  Hd (hd_start_sect o) (hd_nr_sects o)
    (hd_alignment_offset o) (hd_discard_alignment o) (hd_partno o) (hd_policy o) (hd_info o) (hd_disk o) (hd_ref o)
    (hd_name o) (hd_devt o) x (hd_suppress o).
Definition set_hd_suppress (x : bool) (o : hd_struct) : hd_struct :=
  Hd (hd_start_sect o) (hd_nr_sects o)
    (hd_alignment_offset o) (hd_discard_alignment o) (hd_partno o) (hd_policy o) (hd_info o) (hd_disk o) (hd_ref o)
    (hd_name o) (hd_devt o) (hd_refs o) x.

(** [struct disk_part_tbl]; its length is the length of the list. *)
Record disk_part_tbl := PartTbl { tb_part : list Z; tb_last_lookup : Z }.

(** [struct gendisk]. *)
Record gendisk := Disk {
  gd_major : Z;
  gd_first_minor : Z;
  gd_minors : Z;
  gd_disk_name : list Z;
  gd_flags : Z;
  gd_part_tbl : option disk_part_tbl;
  gd_events : Z;
  gd_async_events : Z;
  gd_ev : option disk_events }.

Definition set_gd_major (x : Z) (o : gendisk) : gendisk :=
  Disk x (gd_first_minor o) (gd_minors o) (gd_disk_name
    o) (gd_flags o) (gd_part_tbl o) (gd_events o) (gd_async_events o) (gd_ev o).
Definition set_gd_first_minor (x : Z) (o : gendisk) : gendisk :=
  Disk (gd_major o) x (gd_minors o) (gd_disk_name
    o) (gd_flags o) (gd_part_tbl o) (gd_events o) (gd_async_events o) (gd_ev o).
Definition set_gd_minors (x : Z) (o : gendisk) : gendisk :=
  Disk (gd_major o) (gd_first_minor o) x (gd_disk_name o) (gd_flags o) (gd_part_tbl o) (gd_events o)
    (gd_async_events o) (gd_ev o).
Definition set_gd_flags (x : Z) (o : gendisk) : gendisk :=
  Disk (gd_major o) (gd_first_minor o) (gd_minors o)
    (gd_disk_name o) x (gd_part_tbl o) (gd_events o) (gd_async_events o) (gd_ev o).
Definition set_gd_part_tbl (x : option disk_part_tbl) (o : gendisk) : gendisk :=
  Disk (gd_major o)
    (gd_first_minor o) (gd_minors o) (gd_disk_name o) (gd_flags o) x (gd_events o) (gd_async_events o)
    (gd_ev o).
Definition set_gd_ev (x : option disk_events) (o : gendisk) : gendisk :=
  Disk (gd_major o) (gd_first_minor o)
    (gd_minors o) (gd_disk_name o) (gd_flags o) (gd_part_tbl o) (gd_events o) (gd_async_events o) x.

(** What user space is told about: a disk with the variable NPARTS, a partition with PARTN and PARTNAME, a disk with NPARTS and a
    new setting of read-only. *)
Inductive uaction := KOBJ_ADD | KOBJ_CHANGE | KOBJ_REMOVE.
Inductive uevent :=
| Uev_disk (act : uaction) (d : Z) (nparts : Z)
| Uev_part (act : uaction) (x : Z) (partn : Z) (partname : option (list Z))
| Uev_ro (d : Z) (nparts : Z) (ro : bool).

(** The disks and partitions, the allocated extended numbers, the partitions that wait for the grace period, the registered regions, the list
    of disks with events and its default interval, the calls into the rest of the kernel so far, the uevents, and the
    numbers that were freed while they were not allocated. *)
Record blkstate := BlkState {
  bs_disks : gmap Z gendisk;
  bs_parts : gmap Z hd_struct;
  bs_idr : gmap Z Z;
  bs_rcu : list Z;
  bs_regions : list (Z * Z * Z);
  bs_event_list : list Z;
  bs_dfl_poll : Z;
  bs_tick : nat;
  bs_uevents : list uevent;
  bs_lost_ids : list Z }.

Definition set_bs_disks (x : gmap Z gendisk) (o : blkstate) : blkstate :=
  BlkState x (bs_parts o) (bs_idr o)
    (bs_rcu o) (bs_regions o) (bs_event_list o) (bs_dfl_poll o) (bs_tick o) (bs_uevents o) (bs_lost_ids o).
Definition set_bs_parts (x : gmap Z hd_struct) (o : blkstate) : blkstate :=
  BlkState (bs_disks o) x (bs_idr o)
    (bs_rcu o) (bs_regions o) (bs_event_list o) (bs_dfl_poll o) (bs_tick o) (bs_uevents o) (bs_lost_ids o).
Definition set_bs_idr (x : gmap Z Z) (o : blkstate) : blkstate :=
  BlkState (bs_disks o) (bs_parts o) x (bs_rcu o)
    (bs_regions o) (bs_event_list o) (bs_dfl_poll o) (bs_tick o) (bs_uevents o) (bs_lost_ids o).
Definition set_bs_rcu (x : list Z) (o : blkstate) : blkstate :=
  BlkState (bs_disks o) (bs_parts o) (bs_idr o) x
    (bs_regions o) (bs_event_list o) (bs_dfl_poll o) (bs_tick o) (bs_uevents o) (bs_lost_ids o).
Definition set_bs_regions (x : list (Z * Z * Z)) (o : blkstate) : blkstate :=
  BlkState (bs_disks o) (bs_parts o)
    (bs_idr o) (bs_rcu o) x (bs_event_list o) (bs_dfl_poll o) (bs_tick o) (bs_uevents o) (bs_lost_ids o).
Definition set_bs_event_list (x : list Z) (o : blkstate) : blkstate :=
  BlkState (bs_disks o) (bs_parts o) (bs_idr
    o) (bs_rcu o) (bs_regions o) x (bs_dfl_poll o) (bs_tick o) (bs_uevents o) (bs_lost_ids o).
Definition set_bs_dfl_poll (x : Z) (o : blkstate) : blkstate :=
  BlkState (bs_disks o) (bs_parts o) (bs_idr o)
    (bs_rcu o) (bs_regions o) (bs_event_list o) x (bs_tick o) (bs_uevents o) (bs_lost_ids o).
Definition set_bs_tick (x : nat) (o : blkstate) : blkstate :=
  BlkState (bs_disks o) (bs_parts o) (bs_idr o)
    (bs_rcu o) (bs_regions o) (bs_event_list o) (bs_dfl_poll o) x (bs_uevents o) (bs_lost_ids o).
Definition set_bs_uevents (x : list uevent) (o : blkstate) : blkstate :=
  BlkState (bs_disks o) (bs_parts o)
    (bs_idr o) (bs_rcu o) (bs_regions o) (bs_event_list o) (bs_dfl_poll o) (bs_tick o) x (bs_lost_ids o).
Definition set_bs_lost_ids (x : list Z) (o : blkstate) : blkstate :=
  BlkState (bs_disks o) (bs_parts o) (bs_idr
    o) (bs_rcu o) (bs_regions o) (bs_event_list o) (bs_dfl_poll o) (bs_tick o) (bs_uevents o) x.

(** What the partition parsers make of a disk: nothing, an error, or a table from index 0 on and
    whether they tried to read behind its end. *)
Record parsed_part := Parsed { pp_from : Z; pp_size : Z; pp_flags : Z; pp_has_info : bool; pp_info : part_info }.
Inductive parsed_partitions :=
| No_state
| State_error (err : Z)
| State (parts : list parsed_part) (access_beyond_eod : bool).

(** ** The rest of the kernel *)

(** The functions called; those whose answer can change get the number of calls made before.  [check_partition], [revalidate_disk],
    [unlock_native_capacity] and [check_events] are the parsers and the driver of the disk: the latter two of
    its size functions give a new capacity. *)
Class BlockCore := {
  GENHD_FL_UP : Z; GENHD_FL_REMOVABLE : Z; GENHD_FL_SUPPRESS_PARTITION_INFO : Z; GENHD_FL_NATIVE_CAPACITY : Z; ADDPART_FLAG_WHOLEDISK : Z;
  kzalloc_at : gset Z → nat → option Z;
  init_part_stats : nat → bool;
  alloc_part_info : nat → bool;
  idr_alloc : gset Z → Z → nat → Z;
  device_add : nat → Z;
  kobject_create_and_add : nat → bool;
  device_create_file : nat → Z;
  sysfs_create_link : nat → Z;
  bdget : nat → bool;
  invalidate_device : nat → Z;
  get_module : nat → bool;
  disk_max_parts : gendisk → Z;
  disk_part_scan_enabled : gendisk → bool;
  limit_alignment_offset : Z → Z → Z;
  limit_discard_alignment : Z → Z → Z;
  check_partition : nat → Z → parsed_partitions;
  revalidate_disk : option (nat → Z → Z);
  unlock_native_capacity : option (nat → Z → Z);
  kobj_lookup : list (Z * Z * Z) → Z → option (Z * Z);
  msecs_to_jiffies : Z → Z }.

(** What the code relies on: a new object lies where there is none and not at null; an allocated number is in range and not in use; errors are
    negative; the flag of a disk that was enlarged is a bit. *)
Class BlockCoreLaws `{BlockCore} : Prop := {
  kzalloc_fresh l t x : kzalloc_at l t = Some x → 0 < x ∧ x ∉ l;
  idr_alloc_fresh l n t id : idr_alloc l n t = id → 0 ≤ id → id < n ∧ id ∉ l;
  device_add_err t : device_add t ≤ 0;
  device_create_file_err t : device_create_file t ≤ 0;
  native_capacity_set : GENHD_FL_NATIVE_CAPACITY ≠ 0 }.

(** ** The monad *)

Definition BM (A : Type) : Type := blkstate → option (A * blkstate).
#[export] Instance BM_ret : MRet BM := λ _ x s, Some (x, s).
#[export] Instance BM_bind : MBind BM := λ _ _ k m s, match m s with Some (x, s') => k x s' | None => None end.

Definition blift {A} (o : option A) : BM A := λ s, x ← o; Some (x, s).
Definition bget {A} (f : blkstate → A) : BM A := λ s, Some (f s, s).
Definition bmod (f : blkstate → blkstate) : BM () := λ s, Some ((), f s).
Definition bfault {A} : BM A := λ _, None.

Definition part_at (x : Z) : BM hd_struct := λ s, p ← bs_parts s !! x; Some (p, s).
Definition disk_at (d : Z) : BM gendisk := λ s, g ← bs_disks s !! d; Some (g, s).
Definition upd_part (x : Z) (f : hd_struct → hd_struct) : BM () :=
  λ s, p ← bs_parts s !! x; Some ((), set_bs_parts (<[x := f p]> (bs_parts s)) s).
Definition upd_disk (d : Z) (f : gendisk → gendisk) : BM () :=
  λ s, g ← bs_disks s !! d; Some ((), set_bs_disks (<[d := f g]> (bs_disks s)) s).

(** The table of a disk, and an entry of it. *)
Definition tbl_at (d : Z) : BM disk_part_tbl := g ← disk_at d; blift (gd_part_tbl g).
Definition entry_at (t : disk_part_tbl) (i : Z) : option Z := if i <? 0 then None else tb_part t !! Z.to_nat i.
Definition set_entry (i x : Z) (t : disk_part_tbl) : disk_part_tbl := PartTbl (<[Z.to_nat i := x]> (tb_part t)) (tb_last_lookup t).
Definition set_last_lookup (x : Z) (t : disk_part_tbl) : disk_part_tbl := PartTbl (tb_part t) x.
Definition upd_tbl (d : Z) (f : disk_part_tbl → disk_part_tbl) : BM () := upd_disk d (λ g, set_gd_part_tbl (f <$> gd_part_tbl g) g).

Definition tick : BM nat := t ← bget bs_tick; _ ← bmod (λ s, set_bs_tick (S t) s); mret t.
Definition emit (u : uevent) : BM () := bmod (λ s, set_bs_uevents (bs_uevents s ++ [u]) s).

(** The addresses of all objects. *)
Definition used (s : blkstate) : gset Z := dom (bs_disks s) ∪ dom (bs_parts s).
