(* ===== verification/DiskTable.v ===== *)
(** * Block layer: the table of a disk

    Device numbers, references to partitions, iterators, the search for a sector, the growth of the table and the
    names of partitions ([patches/kernel/genhd.c], [disk_name] of [patches/kernel/partition-generic.c]). *)
From stdpp Require Import gmap.
From S2P Require Import Prelude Text Majors DiskEvents DiskState.

Section Disk.
Context `{BlockApi} `{BlockCore}.

(** The address of a new object, or 0. *)
Definition kzalloc : BM Z := t ← tick; l ← bget used; mret (default 0 (kzalloc_at l t)).

(** The size of a disk is the size of its partition 0. *)
Definition get_capacity (d : Z) : BM Z := p ← part_at d; mret (hd_nr_sects p).
Definition set_capacity (d n : Z) : BM () := upd_part d (set_hd_nr_sects n).

(** ** Device numbers *)

Definition MKDEV (ma mi : Z) : Z := u32 (Z.shiftl ma MINORBITS ||| mi).
Definition MAJOR (devt : Z) : Z := Z.shiftr devt MINORBITS.
Definition MINOR (devt : Z) : Z := devt &&& (2 ^ MINORBITS - 1).
Definition NR_EXT_DEVT : Z := Z.shiftl 1 MINORBITS.

(** One round of the loop: bits [i] and [MINORBITS - 1 - i] change places. *)
Definition swap_bits (i minor : Z) : Z :=
  let low := minor &&& Z.shiftl 1 i in
  let high := minor &&& Z.shiftl 1 (MINORBITS - 1 - i) in
  let distance := MINORBITS - 1 - 2 * i in
  let minor := Z.lxor minor (low ||| high) in
  minor ||| (Z.shiftl low distance ||| Z.shiftr high distance).

Definition blk_mangle_minor (minor : Z) : Z :=
  if DEBUG_BLOCK_EXT_DEVT then foldl (λ m i, swap_bits (Z.of_nat i) m) minor (seq 0 (Z.to_nat (MINORBITS / 2))) else minor.

(** The error and the number. *)
Definition blk_alloc_devt (x : Z) : BM (Z * Z) :=
  p ← part_at x; g ← disk_at (hd_disk p);
  if hd_partno p <? gd_minors g then mret (0, MKDEV (gd_major g) (gd_first_minor g + hd_partno p))
  else
    t ← tick; ids ← bget (dom ∘ bs_idr);
    let idx := idr_alloc ids NR_EXT_DEVT t in
    if idx <? 0 then mret (if idx =? - Errno.ENOSPC then - Errno.EBUSY else idx, 0)
    else
      _ ← bmod (λ s, set_bs_idr (<[idx := x]> (bs_idr s)) s);
      mret (0, MKDEV BLOCK_EXT_MAJOR (blk_mangle_minor idx)).

Definition idr_remove (id : Z) : BM () :=
  m ← bget bs_idr;
  match m !! id with
  | Some _ => bmod (λ s, set_bs_idr (delete id (bs_idr s)) s)
  | None => bmod (λ s, set_bs_lost_ids (bs_lost_ids s ++ [id]) s)
  end.

Definition blk_free_devt (devt : Z) : BM () :=
  if devt =? MKDEV 0 0 then mret ()
  else if MAJOR devt =? BLOCK_EXT_MAJOR then idr_remove (blk_mangle_minor (MINOR devt))
  else mret ().

(** ** References *)

Definition kfree_part (x : Z) : BM () := _ ← part_at x; bmod (λ s, set_bs_parts (delete x (bs_parts s)) s).
Definition kfree_disk (d : Z) : BM () :=
  _ ← disk_at d; _ ← kfree_part d; bmod (λ s, set_bs_disks (delete d (bs_disks s)) s).

Definition part_release (x : Z) : BM () :=
  p ← part_at x; _ ← blk_free_devt (hd_devt p); kfree_part x.

Definition disk_replace_part_tbl (d : Z) (t : option disk_part_tbl) : BM () := upd_disk d (set_gd_part_tbl t).

Definition disk_release (d : Z) : BM () :=
  p ← part_at d;
  _ ← blk_free_devt (hd_devt p);
  _ ← upd_disk d (set_gd_ev None);
  _ ← disk_replace_part_tbl d None;
  kfree_disk d.

Definition get_device (x : Z) : BM () := upd_part x (λ p, set_hd_refs (hd_refs p + 1) p).

(** The last reference releases the device, by its type. *)
Definition put_device (x : Z) : BM () :=
  p ← part_at x;
  _ ← upd_part x (set_hd_refs (hd_refs p - 1));
  if hd_refs p - 1 =? 0 then
    if hd_disk p =? x then disk_release x else part_release x
  else mret ().

Definition disk_put_part (x : Z) : BM () := if truthy x then put_device x else mret ().

Definition put_disk (d : Z) : BM () := if truthy d then put_device d else mret ().

(** The last use of a partition has it wait for the grace period. *)
Definition delete_partition_async (x : Z) : BM () := bmod (λ s, set_bs_rcu (bs_rcu s ++ [x]) s).

Definition hd_struct_put (x : Z) : BM () :=
  p ← part_at x;
  _ ← upd_part x (set_hd_ref (hd_ref p - 1));
  if hd_ref p - 1 =? 0 then delete_partition_async x else mret ().

Definition delete_partition_rcu_cb (x : Z) : BM () :=
  _ ← upd_part x (λ p, set_hd_start_sect 0 (set_hd_nr_sects 0 p)); put_device x.

(** The end of a grace period: the callbacks that wait, in order. *)
Definition rcu_callbacks : BM () :=
  l ← bget bs_rcu; _ ← bmod (set_bs_rcu []); foldr (λ x k, _ ← delete_partition_rcu_cb x; k) (mret ()) l.

(** ** Walking the table *)

Definition disk_get_part (d partno : Z) : BM Z :=
  if partno <? 0 then mret 0
  else
    t ← tbl_at d;
    if partno <? zlen (tb_part t) then
      x ← blift (entry_at t partno);
      _ ← (if truthy x then get_device x else mret ());
      mret x
    else mret 0.

(** The flags of an iterator, and the iterator. *)
Record piter_flags := PiterFlags { fl_reverse : bool; fl_incl_part0 : bool; fl_incl_empty : bool; fl_incl_empty_part0 : bool }.
Record disk_part_iter := Piter { it_disk : Z; it_part : Z; it_idx : Z; it_flags : piter_flags }.

Definition disk_part_iter_init (d : Z) (flags : piter_flags) : BM disk_part_iter :=
  t ← tbl_at d;
  mret (Piter d 0 (if fl_reverse flags then zlen (tb_part t) - 1
                   else if fl_incl_part0 flags || fl_incl_empty_part0 flags then 0 else 1) flags).

(** The search for the next entry: the index behind it and the partition, or 0. *)
Fixpoint iter_search (fuel : nat) (t : disk_part_tbl) (flags : piter_flags) (inc end_ idx : Z) : BM (Z * Z) :=
  if idx =? end_ then mret (idx, 0)
  else
    match fuel with
    | O => bfault
    | S fuel =>
      x ← blift (entry_at t idx);
      if negb (truthy x) then iter_search fuel t flags inc end_ (idx + inc)
      else
        p ← part_at x;
        if negb (truthy (hd_nr_sects p)) && negb (fl_incl_empty flags) && negb (fl_incl_empty_part0 flags && (idx =? 0)) then
          iter_search fuel t flags inc end_ (idx + inc)
        else _ ← get_device x; mret (idx + inc, x)
    end.

Definition disk_part_iter_next (it : disk_part_iter) : BM disk_part_iter :=
  _ ← disk_put_part (it_part it);
  t ← tbl_at (it_disk it);
  let flags := it_flags it in
  let inc := if fl_reverse flags then -1 else 1 in
  let end_ := if fl_reverse flags then (if fl_incl_part0 flags || fl_incl_empty_part0 flags then -1 else 0) else zlen (tb_part t) in
  '(idx, x) ← iter_search (length (tb_part t)) t flags inc end_ (it_idx it);
  mret (Piter (it_disk it) x idx flags).

Definition disk_part_iter_exit (it : disk_part_iter) : BM () := disk_put_part (it_part it).

(** The loops over an iterator, with a value handed on; the table has the entries a loop can see. *)
Fixpoint iter_loop {A} (fuel : nat) (it : disk_part_iter) (body : A → Z → BM A) (a : A) : BM A :=
  it ← disk_part_iter_next it;
  if truthy (it_part it) then
    match fuel with
    | O => bfault
    | S fuel => a ← body a (it_part it); iter_loop fuel it body a
    end
  else _ ← disk_part_iter_exit it; mret a.

Definition for_each_part {A} (d : Z) (flags : piter_flags) (body : A → Z → BM A) (a : A) : BM A :=
  t ← tbl_at d; it ← disk_part_iter_init d flags; iter_loop (length (tb_part t)) it body a.

Definition no_flags : piter_flags := PiterFlags false false false false.
Definition incl_empty : piter_flags := PiterFlags false false true false.
Definition incl_part0 : piter_flags := PiterFlags false true false false.

(** ** Sectors *)

Definition sector_in_part (p : hd_struct) (sector : Z) : bool :=
  (hd_start_sect p <=? sector) && (sector <? u64 (hd_start_sect p + hd_nr_sects p)).

(** The first entry from index [i] on that has the sector. *)
Fixpoint find_sector (l : list Z) (sector : Z) : BM Z :=
  match l with
  | [] => mret 0
  | x :: l =>
    if negb (truthy x) then find_sector l sector
    else p ← part_at x; if sector_in_part p sector then mret x else find_sector l sector
  end.

Definition disk_map_sector_rcu (d sector : Z) : BM Z :=
  t ← tbl_at d;
  let last := tb_last_lookup t in
  cached ← (if truthy last then p ← part_at last; mret (sector_in_part p sector) else mret false);
  if (cached : bool) then mret last
  else
    x ← find_sector (drop 1 (tb_part t)) sector;
    if truthy x then _ ← upd_tbl d (set_last_lookup x); mret x
    else mret d.

(** ** The table *)

Definition disk_expand_part_tbl (d partno : Z) : BM Z :=
  g ← disk_at d;
  let old := match gd_part_tbl g with Some t => tb_part t | None => [] end in
  let target := s32 (partno + 1) in
  if target <? 0 then mret (- Errno.EINVAL)
  else if truthy (disk_max_parts g) && (disk_max_parts g <? target) then mret (- Errno.EINVAL)
  else if target <=? zlen old then mret 0
  else
    a ← kzalloc;
    if negb (truthy a) then mret (- Errno.ENOMEM)
    else
      _ ← disk_replace_part_tbl d (Some (PartTbl (old ++ replicate (Z.to_nat target - length old) 0) 0));
      mret 0.

(** ** Names *)

(** A name with the number of a partition behind it, and a p between them when the name ends in a digit. *)
Definition numbered (name : list Z) (partno : Z) : list Z :=
  match last name with
  | Some c => if isdigit c then name ++ [112] ++ decimal partno else name ++ decimal partno
  | None => name ++ decimal partno
  end.

Definition BDEVNAME_SIZE : Z := 32.

(** [snprintf] keeps all but the last place of the buffer. *)
Definition disk_name (g : gendisk) (partno : Z) : list Z :=
  take (Z.to_nat (BDEVNAME_SIZE - 1)) (if partno =? 0 then gd_disk_name g else numbered (gd_disk_name g) partno).

End Disk.
