(* ===== verification/Partition.v ===== *)
(** * Block layer: partitions

    Uevents, adding and deleting partitions, and the scan of a disk ([patches/kernel/partition-generic.c]). *)
From stdpp Require Import gmap.
From S2P Require Import Prelude Text Majors DiskEvents DiskState DiskTable.

Section Disk.
Context `{BlockApi} `{BlockCore}.

(** ** Uevents *)

(** The variable PARTNAME, when the partition has a name. *)
Definition part_name (p : hd_struct) : option (list Z) :=
  match hd_info p with Some i => if bool_decide (pi_volname i = []) then None else Some (pi_volname i) | None => None end.

Definition part_uevent (act : uaction) (x : Z) : BM () :=
  p ← part_at x;
  if hd_suppress p then mret () else emit (Uev_part act x (hd_partno p) (part_name p)).

(** [kobject_uevent] on a disk, with [disk_uevent].  [device_del] sends the uevent KOBJ_REMOVE, of a partition with [part_uevent] and of a disk with [disk_uevent]. *)
Definition disk_uevent (act : uaction) (d : Z) : BM () :=
  p ← part_at d;
  if hd_suppress p then mret ()
  else
    cnt ← for_each_part d no_flags (λ cnt _, mret (cnt + 1)) 0;
    emit (Uev_disk act d cnt).

(** ** Partitions *)

Definition delete_partition (d partno : Z) : BM () :=
  t ← tbl_at d;
  if zlen (tb_part t) <=? partno then mret ()
  else
    x ← blift (entry_at t partno);
    if negb (truthy x) then mret ()
    else
      _ ← upd_tbl d (set_entry partno 0);
      _ ← upd_tbl d (set_last_lookup 0);
      _ ← part_uevent KOBJ_REMOVE x;
      hd_struct_put x.

(** From [device_add] on; the result is a pointer, or the negative error.  [out_del] ends in what [out_put] does. *)
Definition add_device (d x partno flags devt : Z) : BM Z :=
  let out_put err := _ ← put_device x; _ ← blk_free_devt devt; mret err in
  let out_del err := _ ← part_uevent KOBJ_REMOVE x; out_put err in
  t ← tick;
  if truthy (device_add t) then out_put (device_add t)
  else
    t ← tick;
    if negb (kobject_create_and_add t) then out_del (- Errno.ENOMEM)
    else
      _ ← upd_part x (set_hd_suppress false);
      err ← (if truthy (flags &&& ADDPART_FLAG_WHOLEDISK) then t ← tick; mret (device_create_file t) else mret 0);
      if truthy err then out_del err
      else
        _ ← upd_tbl d (set_entry partno x);
        p0 ← part_at d;
        _ ← (if hd_suppress p0 then mret () else part_uevent KOBJ_ADD x);
        _ ← upd_part x (set_hd_ref 1);
        mret x.

Definition add_partition (d partno start len flags : Z) (info : option part_info) : BM Z :=
  err ← disk_expand_part_tbl d partno;
  if truthy err then mret err
  else
    tb ← tbl_at d;
    old ← blift (entry_at tb partno);
    if truthy old then mret (- Errno.EBUSY)
    else
      x ← kzalloc;
      if negb (truthy x) then mret (- Errno.EBUSY)
      else
        t ← tick;
        if negb (init_part_stats t) then mret (- Errno.ENOMEM)
        else
          p0 ← part_at d;
          t ← tick;
          if bool_decide (is_Some info) && negb (alloc_part_info t) then mret err
          else
            _ ← bmod (λ s, set_bs_parts (<[x := Hd start len (limit_alignment_offset d start) (limit_discard_alignment d start) partno
                      (hd_policy p0) info d 0 (numbered (hd_name p0) partno) 0 1 false]> (bs_parts s)) s);
            '(err, devt) ← blk_alloc_devt x;
            if truthy err then _ ← kfree_part x; mret err
            else
              _ ← upd_part x (λ p, set_hd_suppress true (set_hd_devt devt p));
              add_device d x partno flags devt.

(** ** Scanning *)

Definition bdget_disk (d partno : Z) : BM bool :=
  x ← disk_get_part d partno;
  ok ← (if truthy x then t ← tick; mret (bdget t) else mret false);
  _ ← disk_put_part x;
  mret ok.

Definition invalidate_partition (d partno : Z) : BM Z :=
  ok ← bdget_disk d partno;
  if (ok : bool) then t ← tick; mret (invalidate_device t) else mret 0.

Definition drop_partitions (d bd_part_count : Z) : BM Z :=
  if truthy bd_part_count then mret (- Errno.EBUSY)
  else
    res ← invalidate_partition d 0;
    if truthy res then mret res
    else _ ← for_each_part d incl_empty (λ _ x, p ← part_at x; delete_partition d (hd_partno p)) (); mret 0.

Definition disk_unlock_native_capacity (d : Z) : BM bool :=
  g ← disk_at d;
  match unlock_native_capacity with
  | Some unlock =>
    if truthy (gd_flags g &&& GENHD_FL_NATIVE_CAPACITY) then mret false
    else
      t ← tick; n ← get_capacity d; _ ← set_capacity d (unlock t n);
      _ ← upd_disk d (λ g, set_gd_flags (gd_flags g ||| GENHD_FL_NATIVE_CAPACITY) g);
      mret true
  | None => mret false
  end.

(** The partitions of a table from index [p] on; true when the disk has to be scanned again. *)
Fixpoint add_parts (d p : Z) (parts : list parsed_part) : BM bool :=
  match parts with
  | [] => mret false
  | q :: parts =>
    if negb (truthy (pp_size q)) then add_parts d (p + 1) parts
    else
      n ← get_capacity d;
      if n <=? pp_from q then
        again ← disk_unlock_native_capacity d;
        if (again : bool) then mret true else add_parts d (p + 1) parts
      else
        again ← (if n <? u64 (pp_from q + pp_size q) then disk_unlock_native_capacity d else mret false);
        if (again : bool) then mret true
        else
          let size := if n <? u64 (pp_from q + pp_size q) then n - pp_from q else pp_size q in
          _ ← add_partition d p (pp_from q) size (pp_flags q) (Some (pp_info q));
          add_parts d (p + 1) parts
  end.

(** The greatest index of a part with a size. *)
Fixpoint highest (p : Z) (parts : list parsed_part) (h : Z) : Z :=
  match parts with
  | [] => h
  | q :: parts => highest (p + 1) parts (if truthy (pp_size q) then p else h)
  end.

(** The result and [bd_invalidated]; at most [restarts] times back to the start. *)
Fixpoint rescan (restarts : nat) (d bd_part_count : Z) (invalidated : bool) : BM (Z * bool) :=
  let again := match restarts with O => bfault | S restarts => rescan restarts d bd_part_count false end in
  res ← drop_partitions d bd_part_count;
  if truthy res then mret (res, invalidated)
  else
    _ ← match revalidate_disk with
        | Some f => t ← tick; n ← get_capacity d; set_capacity d (f t n)
        | None => mret ()
        end;
    n ← get_capacity d;
    if negb (truthy n) then mret (0, false)
    else
      t ← tick;
      match check_partition t d with
      | No_state => mret (0, false)
      | State_error err =>
        u ← (if err =? - Errno.ENOSPC then disk_unlock_native_capacity d else mret false);
        if (u : bool) then again else mret (- Errno.EIO, false)
      | State parts beyond =>
        u ← (if beyond then disk_unlock_native_capacity d else mret false);
        if (u : bool) then again
        else
          _ ← disk_uevent KOBJ_CHANGE d;
          _ ← disk_expand_part_tbl d (highest 1 (drop 1 parts) 0);
          u ← add_parts d 1 (drop 1 parts);
          if (u : bool) then again else mret (0, false)
      end.

Definition rescan_partitions (d bd_part_count : Z) (invalidated : bool) : BM (Z * bool) := rescan 1 d bd_part_count invalidated.

Definition invalidate_partitions (d bd_part_count : Z) (invalidated : bool) : BM (Z * bool) :=
  if negb invalidated then mret (0, invalidated)
  else
    res ← drop_partitions d bd_part_count;
    if truthy res then mret (res, invalidated)
    else _ ← set_capacity d 0; _ ← disk_uevent KOBJ_CHANGE d; mret (0, false).

End Disk.
