(* ===== verification/Disk.v ===== *)
(** * Block layer: disks

    Disks and their life, the look-up of disks and numbers, and the disks' events ([patches/kernel/genhd.c]). *)
From stdpp Require Import gmap.
From S2P Require Import Prelude Text Majors DiskEvents DiskState DiskTable Partition.

Section Disk.
Context `{BlockApi} `{BlockCore}.

(** ** Disks *)

Definition with_ev (d : Z) (f : gendisk → disk_events → disk_events) : BM () :=
  upd_disk d (λ g, set_gd_ev (f g <$> gd_ev g) g).

Definition disk_unblock (check_now : bool) (d : Z) : BM () :=
  dfl ← bget bs_dfl_poll;
  with_ev d (λ g, unblock_events msecs_to_jiffies (gd_events g) (gd_async_events g) dfl check_now).

(** The driver of the disk reports events. *)
Definition alloc_events (has_check_events : bool) (d : Z) : BM () :=
  if negb has_check_events then mret ()
  else a ← kzalloc; if truthy a then upd_disk d (set_gd_ev (Some disk_alloc_events)) else mret ().

Definition add_events (d : Z) : BM () :=
  g ← disk_at d;
  match gd_ev g with
  | None => mret ()
  | Some _ => _ ← bmod (λ s, set_bs_event_list (bs_event_list s ++ [d]) s); disk_unblock true d
  end.

Definition del_events (d : Z) : BM () :=
  g ← disk_at d;
  match gd_ev g with
  | None => mret ()
  | Some _ => _ ← with_ev d (λ _, disk_block_events); bmod (λ s, set_bs_event_list (filter (λ x, x ≠ d) (bs_event_list s)) s)
  end.

(** A new default interval: all disks are checked. *)
Definition disk_events_set_dfl_poll_msecs (n : Z) : BM () :=
  _ ← bmod (set_bs_dfl_poll n); l ← bget bs_event_list;
  foldr (λ d k, _ ← with_ev d (λ _, disk_flush_events 0); k) (mret ()) l.

Definition blk_register_region (devt range d : Z) : BM () := bmod (λ s, set_bs_regions ((devt, range, d) :: bs_regions s) s).
Definition blk_unregister_region (devt range : Z) : BM () :=
  bmod (λ s, set_bs_regions (filter (λ r, r.1 ≠ (devt, range)) (bs_regions s)) s).

(** [scan] is the [blkdev_get] and [blkdev_put] of the whole disk. *)
Definition register_disk (scan : BM ()) (d : Z) : BM () :=
  g ← disk_at d;
  _ ← upd_part d (λ p, set_hd_suppress true (set_hd_name (gd_disk_name g) p));
  t ← tick;
  if truthy (device_add t) then mret ()
  else
    t ← tick;
    if truthy (sysfs_create_link t) then disk_uevent KOBJ_REMOVE d
    else
      n ← get_capacity d;
      _ ← (if negb (disk_part_scan_enabled g) || negb (truthy n) then mret ()
           else ok ← bdget_disk d 0; if (ok : bool) then scan else mret ());
      _ ← upd_part d (set_hd_suppress false);
      _ ← disk_uevent KOBJ_ADD d;
      for_each_part d no_flags (λ _, part_uevent KOBJ_ADD) ().

Definition add_disk (scan : BM ()) (has_check_events : bool) (d : Z) : BM () :=
  _ ← upd_disk d (λ g, set_gd_flags (gd_flags g ||| GENHD_FL_UP) g);
  g ← disk_at d;
  '(err, devt) ← blk_alloc_devt d;
  if truthy err then mret ()
  else
    _ ← upd_part d (set_hd_devt devt);
    _ ← upd_disk d (λ g, set_gd_major (MAJOR devt) (set_gd_first_minor (MINOR devt) g));
    _ ← alloc_events has_check_events d;
    _ ← blk_register_region devt (gd_minors g) d;
    _ ← register_disk scan d;
    add_events d.

Definition del_gendisk (d : Z) : BM () :=
  _ ← del_events d;
  _ ← for_each_part d (PiterFlags true false true false) (λ _ x,
        p ← part_at x; _ ← invalidate_partition d (hd_partno p); delete_partition d (hd_partno p)) ();
  _ ← invalidate_partition d 0;
  _ ← set_capacity d 0;
  _ ← upd_disk d (λ g, set_gd_flags (gd_flags g &&& Z.lnot GENHD_FL_UP) g);
  g ← disk_at d; p ← part_at d;
  _ ← blk_unregister_region (hd_devt p) (gd_minors g);
  disk_uevent KOBJ_REMOVE d.

(** The address of a disk with partition 0, or 0. *)
Definition alloc_disk_node (minors : Z) : BM Z :=
  d ← kzalloc;
  if negb (truthy d) then mret 0
  else
    t ← tick;
    if negb (init_part_stats t) then mret 0
    else
      _ ← bmod (λ s, set_bs_disks (<[d := Disk 0 0 0 [] 0 None 0 0 None]> (bs_disks s))
                       (set_bs_parts (<[d := Hd 0 0 0 0 0 0 None d 0 [] 0 0 false]> (bs_parts s)) s));
      err ← disk_expand_part_tbl d 0;
      if truthy err then _ ← kfree_disk d; mret 0
      else
        _ ← upd_tbl d (set_entry 0 d);
        _ ← upd_part d (set_hd_ref 1);
        _ ← upd_disk d (set_gd_minors minors);
        _ ← upd_part d (set_hd_refs 1);
        mret d.

(** A reference to a disk, with its module. *)
Definition get_disk (d : Z) : BM bool :=
  t ← tick; if get_module t then _ ← get_device d; mret true else mret false.

(** A disk and the number of the partition for a device number. *)
Definition get_gendisk (devt : Z) : BM (option (Z * Z)) :=
  if negb (MAJOR devt =? BLOCK_EXT_MAJOR) then r ← bget bs_regions; mret (kobj_lookup r devt)
  else
    m ← bget bs_idr;
    match m !! blk_mangle_minor (MINOR devt) with
    | None => mret None
    | Some x =>
      p ← part_at x;
      ok ← get_disk (hd_disk p);
      mret (if (ok : bool) then Some (hd_disk p, hd_partno p) else None)
    end.

(** The number of a partition by the name of its disk, [disks] being the disks of the class. *)
Fixpoint blk_lookup_devt (disks : list Z) (name : list Z) (partno : Z) : BM Z :=
  match disks with
  | [] => mret (MKDEV 0 0)
  | d :: disks =>
    p ← part_at d;
    if negb (bool_decide (hd_name p = name)) then blk_lookup_devt disks name partno
    else
      g ← disk_at d;
      if partno <? gd_minors g then mret (MKDEV (MAJOR (hd_devt p)) (MINOR (hd_devt p) + partno))
      else
        x ← disk_get_part d partno;
        if truthy x then q ← part_at x; _ ← disk_put_part x; mret (hd_devt q)
        else blk_lookup_devt disks name partno
  end.

(** The lines of a disk in /proc/partitions: major, minor, blocks and name. *)
Definition partition_line (g : gendisk) (p : hd_struct) : Z * Z * Z * list Z :=
  (MAJOR (hd_devt p), MINOR (hd_devt p), Z.shiftr (hd_nr_sects p) 1, disk_name g (hd_partno p)).

Definition show_partition (d : Z) : BM (list (Z * Z * Z * list Z)) :=
  g ← disk_at d; n ← get_capacity d;
  if negb (truthy n) || (negb (truthy (disk_max_parts g)) && truthy (gd_flags g &&& GENHD_FL_REMOVABLE)) then mret []
  else if truthy (gd_flags g &&& GENHD_FL_SUPPRESS_PARTITION_INFO) then mret []
  else for_each_part d incl_part0 (λ out x, p ← part_at x; mret (out ++ [partition_line g p])) [].

Definition set_disk_ro_uevent (d : Z) (ro : bool) : BM () :=
  p ← part_at d;
  if hd_suppress p then mret ()
  else
    cnt ← for_each_part d no_flags (λ cnt _, mret (cnt + 1)) 0;
    emit (Uev_ro d cnt ro).

Definition set_disk_ro (d flag : Z) : BM () :=
  p ← part_at d;
  _ ← (if hd_policy p =? flag then mret ()
       else _ ← set_disk_ro_uevent d (truthy flag); upd_part d (set_hd_policy flag));
  for_each_part d incl_empty (λ _ x, upd_part x (set_hd_policy flag)) ().

Definition set_device_ro (x flag : Z) : BM () := upd_part x (set_hd_policy flag).
Definition bdev_read_only (x : Z) : BM Z := if truthy x then p ← part_at x; mret (hd_policy p) else mret 0.

End Disk.
