(* ===== verification/DiskSpec.v ===== *)
(** * Block layer: walking the table, numbers and names

    Lemmas on the programs of the block layer: running them, the references an iterator holds, and
    what the loops over a table visit.

    Scattering minor numbers is its own inverse; an extended number finds its partition and can be given back; the names of
    partitions tell them apart. *)
From stdpp Require Import gmap.
From S2P Require Import Prelude Text Majors DiskEvents DiskState DiskTable Partition Disk.

(** ** Running programs *)

Lemma bbind_run {A B} (m : BM A) (f : A → BM B) s x s' : m s = Some (x, s') → (m ≫= f) s = f x s'.
Proof. intros Hm. unfold mbind, BM_bind. by rewrite Hm. Qed.
Lemma bbind_inv {A B} (m : BM A) (f : A → BM B) s y s' :
  (m ≫= f) s = Some (y, s') → ∃ x s1, m s = Some (x, s1) ∧ f x s1 = Some (y, s').
Proof. unfold mbind, BM_bind. destruct (m s) as [[x s1]|]; [|done]. by eauto. Qed.
Lemma blift_run {A} (o : option A) x s : o = Some x → blift o s = Some (x, s).
Proof. by intros ->. Qed.
Lemma part_at_run x p s : bs_parts s !! x = Some p → part_at x s = Some (p, s).
Proof. unfold part_at. by intros ->. Qed.
Lemma disk_at_run d g s : bs_disks s !! d = Some g → disk_at d s = Some (g, s).
Proof. unfold disk_at. by intros ->. Qed.
Lemma upd_part_run x f p s : bs_parts s !! x = Some p → upd_part x f s = Some ((), set_bs_parts (<[x := f p]> (bs_parts s)) s).
Proof. unfold upd_part. by intros ->. Qed.
Lemma upd_disk_run d f g s : bs_disks s !! d = Some g → upd_disk d f s = Some ((), set_bs_disks (<[d := f g]> (bs_disks s)) s).
Proof. unfold upd_disk. by intros ->. Qed.
Lemma tbl_at_run d g t s : bs_disks s !! d = Some g → gd_part_tbl g = Some t → tbl_at d s = Some (t, s).
Proof. intros Hg Ht. unfold tbl_at. rewrite (bbind_run _ _ _ _ _ (disk_at_run _ _ _ Hg)). by apply blift_run. Qed.

(** One step of a program whose next action is one of the above. *)
Ltac brun :=
  erewrite bbind_run by first
    [ reflexivity | apply blift_run; eassumption | eapply part_at_run; eassumption | eapply disk_at_run; eassumption
    | eapply tbl_at_run; eassumption | eapply upd_part_run; eassumption | eapply upd_disk_run; eassumption | eassumption ]; cbv beta.

Ltac binv Hm x s1 E := apply bbind_inv in Hm as (x & s1 & E & Hm).

(** ** A disk and its table *)

(** The table [t] of disk [d]: partition 0 is the disk's own, each entry is a partition of the disk with its
    number, in use, and the last one looked up is one of them. *)
Record disk_ok (s : blkstate) (d : Z) (t : disk_part_tbl) : Prop := {
  dk_disk : ∃ g, bs_disks s !! d = Some g ∧ gd_part_tbl g = Some t;
  dk_addr : 0 < d;
  dk_part0 : tb_part t !! 0%nat = Some d;
  dk_entry i x : tb_part t !! i = Some x → x ≠ 0 →
    ∃ p, bs_parts s !! x = Some p ∧ hd_partno p = Z.of_nat i ∧ hd_disk p = d ∧ 1 ≤ hd_refs p ∧ hd_ref p = 1;
  dk_last : tb_last_lookup t ≠ 0 → ∃ i, (1 ≤ i)%nat ∧ tb_part t !! i = Some (tb_last_lookup t) }.

(** A reference more to a partition. *)
Definition held (x : Z) (s : blkstate) : blkstate :=
  set_bs_parts (alter (λ p, set_hd_refs (hd_refs p + 1) p) x (bs_parts s)) s.

Lemma hd_refs_back p : set_hd_refs (hd_refs (set_hd_refs (hd_refs p + 1) p) - 1) (set_hd_refs (hd_refs p + 1) p) = p.
Proof. destruct p. unfold set_hd_refs. cbn. f_equal. lia. Qed.

Section Walk.
Context `{BlockApi} `{BlockCore}.

Lemma get_device_run s x p : bs_parts s !! x = Some p → get_device x s = Some ((), held x s).
Proof.
  intros Hp. unfold get_device, upd_part, held. rewrite Hp. cbn. do 3 f_equal. apply map_eq. intros y.
  destruct (decide (y = x)) as [->|]; [by rewrite lookup_insert_eq, lookup_alter_eq, Hp|by rewrite lookup_insert_ne, lookup_alter_ne].
Qed.

Lemma put_held s x p : bs_parts s !! x = Some p → 1 ≤ hd_refs p → put_device x (held x s) = Some ((), s).
Proof.
  intros Hp Hr. unfold put_device. assert (bs_parts (held x s) !! x = Some (set_hd_refs (hd_refs p + 1) p)) as Hh by (cbn; by rewrite lookup_alter_eq, Hp).
  brun. brun. cbn [hd_refs set_hd_refs]. destruct (Z.eqb_spec (hd_refs p + 1 - 1) 0); [lia|].
  assert (<[x := set_hd_refs (hd_refs p + 1 - 1) (set_hd_refs (hd_refs p + 1) p)]> (bs_parts (held x s)) = bs_parts s) as ->; [|by destruct s].
  replace (set_hd_refs _ _) with p by (symmetry; apply hd_refs_back). cbn. apply map_eq. intros y.
  destruct (decide (y = x)) as [->|]; [by rewrite lookup_insert_eq|by rewrite lookup_insert_ne, lookup_alter_ne].
Qed.

(** ** What an iterator sees *)

(** The entries an iterator stops at, with their indices, for a table from index [i] on. *)
Definition shown (s : blkstate) (flags : piter_flags) (i : nat) (x : Z) : bool :=
  truthy x && match bs_parts s !! x with
              | Some p => truthy (hd_nr_sects p) || fl_incl_empty flags || (fl_incl_empty_part0 flags && (Z.of_nat i =? 0))
              | None => false
              end.

Fixpoint visible (s : blkstate) (flags : piter_flags) (i : nat) (l : list Z) : list (nat * Z) :=
  match l with
  | [] => []
  | x :: l => if shown s flags i x then (i, x) :: visible s flags (S i) l else visible s flags (S i) l
  end.

Lemma visible_elem s flags l : ∀ i j x, (j, x) ∈ visible s flags i l ↔ (i ≤ j)%nat ∧ l !! (j - i)%nat = Some x ∧ shown s flags j x = true.
Proof.
  induction l as [|y l IH]; intros i j x; cbn [visible]; [rewrite elem_of_nil; split; [done|intros (_ & ? & _); done]|].
  assert ((j, x) ∈ visible s flags (S i) l ↔ (i < j)%nat ∧ (y :: l) !! (j - i)%nat = Some x ∧ shown s flags j x = true) as Hrest.
  { rewrite IH. split; intros (Hj & Hl & Hs); (split; [lia|]; split; [|done]).
    - replace (j - i)%nat with (S (j - S i)) by lia. done.
    - replace (j - i)%nat with (S (j - S i)) in Hl by lia. done. }
  destruct (shown s flags i y) eqn:E; rewrite ?elem_of_cons, Hrest.
  - split.
    + intros [[= -> ->]|(Hj & Hl & Hs)]; [|split; [lia|done]]. by rewrite Nat.sub_diag.
    + intros (Hj & Hl & Hs). destruct (decide (j = i)) as [->|]; [left; rewrite Nat.sub_diag in Hl; by injection Hl as ->|right; split; [lia|done]].
  - split; intros (Hj & Hl & Hs); [split; [lia|done]|]. destruct (decide (j = i)) as [->|]; [|split; [lia|done]].
    rewrite Nat.sub_diag in Hl. injection Hl as ->. congruence.
Qed.

(** Only the sizes of the partitions matter. *)
Lemma visible_ext s s' flags l : ∀ i,
  (∀ x, x ∈ l → hd_nr_sects <$> bs_parts s' !! x = hd_nr_sects <$> bs_parts s !! x) → visible s' flags i l = visible s flags i l.
Proof.
  induction l as [|x l IH]; intros i Hx; [done|]. cbn [visible].
  assert (shown s' flags i x = shown s flags i x) as ->.
  { unfold shown. specialize (Hx x (list_elem_of_here _ _)). destruct (bs_parts s' !! x), (bs_parts s !! x); cbn in Hx; try done. by injection Hx as ->. }
  rewrite IH; [done|]. intros y Hy. apply Hx. by apply list_elem_of_further.
Qed.

Lemma visible_next s flags l : ∀ i j x rest,
  visible s flags i (drop i l) = (j, x) :: rest →
  (i ≤ j)%nat ∧ l !! j = Some x ∧ shown s flags j x = true ∧ visible s flags (S j) (drop (S j) l) = rest.
Proof.
  intros i. remember (length l - i)%nat as k eqn:Hk. revert i Hk. induction k as [|k IH]; intros i Hk j x rest Hv.
  { rewrite drop_ge in Hv by lia. done. }
  destruct (drop i l) as [|y l'] eqn:E; [done|]. assert (drop (S i) l = l') as El.
  { replace (S i) with (i + 1)%nat by lia. rewrite <- drop_drop, E. done. }
  cbn [visible] in Hv. destruct (shown s flags i y) eqn:Es.
  - injection Hv as <- <- <-. split; [done|]. split; [|split; [done|by rewrite El]].
    assert (drop i l !! 0%nat = Some y) as Hl by (by rewrite E). rewrite lookup_drop, Nat.add_0_r in Hl. done.
  - rewrite <- El in Hv. destruct (IH (S i) ltac:(lia) j x rest Hv) as (Hj & Hrest). split; [lia|done].
Qed.

(** Every entry that is not empty is a partition. *)
Definition entries_there (s : blkstate) (t : disk_part_tbl) : Prop := ∀ i x, tb_part t !! i = Some x → x ≠ 0 → is_Some (bs_parts s !! x).

Lemma entry_at_nat t i : entry_at t (Z.of_nat i) = tb_part t !! i.
Proof. unfold entry_at. destruct (Z.ltb_spec (Z.of_nat i) 0); [lia|]. by rewrite Nat2Z.id. Qed.

Lemma iter_search_run s t flags fuel : ∀ i,
  entries_there s t → (i ≤ length (tb_part t))%nat → (length (tb_part t) - i ≤ fuel)%nat →
  iter_search fuel t flags 1 (zlen (tb_part t)) (Z.of_nat i) s =
  match visible s flags i (drop i (tb_part t)) with
  | [] => Some ((zlen (tb_part t), 0), s)
  | (j, x) :: _ => Some ((Z.of_nat (S j), x), held x s)
  end.
Proof.
  induction fuel as [|fuel IH]; intros i Ht Hi Hf; cbn [iter_search].
  { assert (i = length (tb_part t)) as -> by lia. rewrite Z.eqb_refl, drop_ge by lia. done. }
  destruct (Z.eqb_spec (Z.of_nat i) (zlen (tb_part t))) as [He|Hne]; [assert (i = length (tb_part t)) as -> by lia; by rewrite drop_ge by lia|].
  destruct (lookup_lt_is_Some_2 (tb_part t) i ltac:(lia)) as [x Hx]. assert (entry_at t (Z.of_nat i) = Some x) as Hex by (by rewrite entry_at_nat).
  brun. rewrite (drop_S _ _ _ Hx). cbn [visible]. replace (Z.of_nat i + 1) with (Z.of_nat (S i)) by lia.
  unfold shown. destruct (truthy x) eqn:Etx; cbn [andb negb]; [|by apply IH; [|lia|lia]].
  destruct (Ht i x Hx) as [p Hp]; [unfold truthy in Etx; lia|]. brun. rewrite Hp.
  destruct (truthy (hd_nr_sects p)), (fl_incl_empty flags), (fl_incl_empty_part0 flags && (Z.of_nat i =? 0)); cbn [negb andb orb].
  all: try (rewrite (bbind_run _ _ _ _ _ (get_device_run s x p Hp)); done). apply IH; [done|lia|lia].
Qed.

(** ** Loops *)

Section Loop.
Context {A : Type}.
Variables (d : Z) (flags : piter_flags) (body : A → Z → BM A) (N : nat).
Hypothesis forward : fl_reverse flags = false.

(** [Inv i a s]: before the entries from index [i] on. *)
Variable Inv : nat → A → blkstate → Prop.
Hypothesis inv_table : ∀ i a s, Inv i a s →
  ∃ g t, bs_disks s !! d = Some g ∧ gd_part_tbl g = Some t ∧ length (tb_part t) = N ∧ entries_there s t ∧ (i ≤ N)%nat.
Hypothesis inv_step : ∀ i a s g t j x rest,
  Inv i a s → bs_disks s !! d = Some g → gd_part_tbl g = Some t → visible s flags i (drop i (tb_part t)) = (j, x) :: rest →
  ∃ a' s' p, body a x (held x s) = Some (a', held x s') ∧ Inv (S j) a' s' ∧ bs_parts s' !! x = Some p ∧ 1 ≤ hd_refs p.

(** Before a round: the reference to the partition of the last one is still held. *)
Definition between (prev : Z) (s s0 : blkstate) : Prop :=
  prev = 0 ∧ s0 = s ∨ prev ≠ 0 ∧ s0 = held prev s ∧ ∃ p, bs_parts s !! prev = Some p ∧ 1 ≤ hd_refs p.

Lemma put_between prev s s0 : between prev s s0 → disk_put_part prev s0 = Some ((), s).
Proof.
  unfold disk_put_part. intros [[-> ->]|(Hp & -> & p & Hpp & Hr)]; [done|].
  assert (truthy prev = true) as -> by (unfold truthy; lia). by apply (put_held s prev p).
Qed.

Lemma iter_next_run prev s s0 g t i :
  between prev s s0 → bs_disks s !! d = Some g → gd_part_tbl g = Some t → entries_there s t → (i ≤ length (tb_part t))%nat →
  disk_part_iter_next (Piter d prev (Z.of_nat i) flags) s0 =
  match visible s flags i (drop i (tb_part t)) with
  | [] => Some (Piter d 0 (zlen (tb_part t)) flags, s)
  | (j, x) :: _ => Some (Piter d x (Z.of_nat (S j)) flags, held x s)
  end.
Proof.
  intros Hb Hg Ht He Hi. unfold disk_part_iter_next. cbn [it_part it_disk it_flags it_idx]. rewrite (bbind_run _ _ _ _ _ (put_between _ _ _ Hb)).
  brun. rewrite forward. pose proof (iter_search_run s t flags (length (tb_part t)) i He Hi ltac:(lia)) as Hs.
  destruct (visible s flags i (drop i (tb_part t))) as [|[j x] rest]; by rewrite (bbind_run _ _ _ _ _ Hs).
Qed.

Lemma iter_loop_run fuel : ∀ prev s s0 i a,
  Inv i a s → between prev s s0 → (N - i ≤ fuel)%nat →
  ∃ a' s' i' g t, iter_loop fuel (Piter d prev (Z.of_nat i) flags) body a s0 = Some (a', s') ∧ Inv i' a' s' ∧
    bs_disks s' !! d = Some g ∧ gd_part_tbl g = Some t ∧ visible s' flags i' (drop i' (tb_part t)) = [].
Proof.
  induction fuel as [|fuel IH]; intros prev s s0 i a HI Hb Hf; destruct (inv_table i a s HI) as (g & t & Hg & Ht & HN & He & Hi);
    pose proof (iter_next_run prev s s0 g t i Hb Hg Ht He ltac:(lia)) as Hn; cbn [iter_loop];
    destruct (visible s flags i (drop i (tb_part t))) as [|[j x] rest] eqn:Ev; rewrite (bbind_run _ _ _ _ _ Hn); cbn [it_part].
  all: try (change (truthy 0) with false; cbv iota; unfold disk_part_iter_exit, disk_put_part; cbn [it_part]; change (truthy 0) with false; cbv iota;
    rewrite (bbind_run _ _ _ () s) by done; by exists a, s, i, g, t).
  - apply visible_next in Ev as (Hj & Hl & _). apply lookup_lt_Some in Hl. lia.
  - destruct (inv_step i a s g t j x rest HI Hg Ht Ev) as (a' & s' & p & Hbody & HI' & Hp & Hr).
    apply visible_next in Ev as (Hj & Hl & Hs & _). assert (truthy x = true) as Htx by (unfold shown in Hs; by destruct (truthy x)).
    rewrite Htx, (bbind_run _ _ _ _ _ Hbody). apply (IH x s' (held x s') (S j) a' HI').
    + right. split; [unfold truthy in Htx; lia|]. split; [done|]. by exists p.
    + apply lookup_lt_Some in Hl. lia.
Qed.

Definition first_index : nat := if fl_incl_part0 flags || fl_incl_empty_part0 flags then 0%nat else 1%nat.

Lemma for_each_run s a :
  Inv first_index a s →
  ∃ a' s' i' g t, for_each_part d flags body a s = Some (a', s') ∧ Inv i' a' s' ∧
    bs_disks s' !! d = Some g ∧ gd_part_tbl g = Some t ∧ visible s' flags i' (drop i' (tb_part t)) = [].
Proof.
  intros HI. destruct (inv_table _ _ _ HI) as (g & t & Hg & Ht & HN & He & Hi). unfold for_each_part. brun.
  assert (disk_part_iter_init d flags s = Some (Piter d 0 (Z.of_nat first_index) flags, s)) as Hinit.
  { unfold disk_part_iter_init. brun. rewrite forward. unfold first_index. by destruct (_ || _). }
  rewrite (bbind_run _ _ _ _ _ Hinit). apply (iter_loop_run _ 0 s s first_index a HI); [by left|lia].
Qed.

End Loop.

End Walk.

Section Numbers.
Context `{BlockApi} `{!BlockApiLaws} `{BlockCore} `{!BlockCoreLaws}.

(** ** Bits *)

Lemma bit_of_one m i n : 0 ≤ i → 0 ≤ n → Z.testbit (m &&& Z.shiftl 1 i) n = Z.testbit m n && (n =? i).
Proof. intros Hi Hn. rewrite Z.land_spec, Z.shiftl_1_l, Z.pow2_bits_eqb by done. f_equal. lia. Qed.

Lemma swap_bits_spec i m n :
  0 ≤ i → 2 * i + 2 ≤ MINORBITS → 0 ≤ n →
  Z.testbit (swap_bits i m) n = Z.testbit m (if n =? i then MINORBITS - 1 - i else if n =? MINORBITS - 1 - i then i else n).
Proof.
  intros Hi Hm Hn. unfold swap_bits. remember (MINORBITS - 1 - i) as k eqn:Hk. remember (MINORBITS - 1 - 2 * i) as e eqn:He.
  rewrite !Z.lor_spec, Z.lxor_spec, Z.lor_spec, Z.shiftl_spec, Z.shiftr_spec by lia. rewrite !bit_of_one by lia.
  assert (Z.testbit (m &&& Z.shiftl 1 i) (n - e) = Z.testbit m i && (n =? k)) as ->.
  { destruct (Z_lt_le_dec (n - e) 0) as [Hneg|]; [rewrite Z.testbit_neg_r by lia; destruct (Z.eqb_spec n k); [lia|by rewrite andb_false_r]|].
    rewrite bit_of_one by lia. destruct (Z.eqb_spec (n - e) i), (Z.eqb_spec n k); try lia; by replace (n - e) with i by lia. }
  rewrite (bit_of_one m k (n + e)) by lia. assert (Z.testbit m (n + e) && (n + e =? k) = Z.testbit m k && (n =? i)) as ->.
  { destruct (Z.eqb_spec (n + e) k), (Z.eqb_spec n i); try lia; by replace (n + e) with k by lia. }
  destruct (Z.eqb_spec n i) as [Hni|], (Z.eqb_spec n k) as [Hnk|]; [lia|rewrite Hni|rewrite Hnk|];
    repeat match goal with |- context [Z.testbit m ?j] => destruct (Z.testbit m j) end; done.
Qed.

Lemma swap_loop m k n :
  (2 * Z.of_nat k ≤ MINORBITS)%Z → 0 ≤ n →
  Z.testbit (foldl (λ m i, swap_bits (Z.of_nat i) m) m (seq 0 k)) n =
  Z.testbit m (if (n <? Z.of_nat k) || ((MINORBITS - 1 - n <? Z.of_nat k) && (n <? MINORBITS)) then MINORBITS - 1 - n else n).
Proof.
  revert n. induction k as [|k IH]; intros n Hk Hn.
  - change (Z.of_nat 0) with 0. destruct (Z.ltb_spec n 0), (Z.ltb_spec (MINORBITS - 1 - n) 0), (Z.ltb_spec n MINORBITS); cbn [orb andb]; cbn; first [lia|done].
  - rewrite seq_S, foldl_app. cbn [foldl Nat.add]. rewrite swap_bits_spec by lia.
    destruct (Z.eqb_spec n (Z.of_nat k)) as [->|Hn1]; [|destruct (Z.eqb_spec n (MINORBITS - 1 - Z.of_nat k)) as [->|Hn2]].
    all: rewrite IH by lia; f_equal; repeat match goal with |- context [?a <? ?b] => destruct (Z.ltb_spec a b) end; cbn; lia.
Qed.

(** The bits in reverse order. *)
Lemma mangle_bits m n : 0 ≤ m < 2 ^ MINORBITS → 0 ≤ n →
  Z.testbit (blk_mangle_minor m) n = Z.testbit m (if DEBUG_BLOCK_EXT_DEVT && (n <? MINORBITS) then MINORBITS - 1 - n else n).
Proof.
  intros Hm Hn. pose proof minorbits_range as Hb. unfold blk_mangle_minor. destruct DEBUG_BLOCK_EXT_DEVT; [|done]. cbn [andb].
  assert (0 ≤ MINORBITS / 2 ∧ 2 * (MINORBITS / 2) ≤ MINORBITS < 2 * (MINORBITS / 2) + 2) as Hh by divmod. rewrite swap_loop by lia.
  destruct (Z.ltb_spec n MINORBITS), (Z.ltb_spec n (Z.of_nat (Z.to_nat (MINORBITS / 2)))),
    (Z.ltb_spec (MINORBITS - 1 - n) (Z.of_nat (Z.to_nat (MINORBITS / 2)))); cbn; f_equal; lia.
Qed.

Lemma bits_high m n : 0 ≤ m < 2 ^ MINORBITS → MINORBITS ≤ n → Z.testbit m n = false.
Proof. intros Hm Hn. pose proof minorbits_range. rewrite <- (Z.mod_small m (2 ^ MINORBITS)) by lia. apply Z.mod_pow2_bits_high. lia. Qed.

Lemma mangle_range m : 0 ≤ m < 2 ^ MINORBITS → 0 ≤ blk_mangle_minor m < 2 ^ MINORBITS.
Proof.
  intros Hm. pose proof minorbits_range as Hb. assert (blk_mangle_minor m = blk_mangle_minor m mod 2 ^ MINORBITS) as ->; [|apply Z.mod_pos_bound; lia].
  apply Z.bits_inj'. intros n Hn. destruct (Z_lt_le_dec n MINORBITS); [by rewrite Z.mod_pow2_bits_low by lia|].
  rewrite Z.mod_pow2_bits_high, mangle_bits by lia. destruct (Z.ltb_spec n MINORBITS); [lia|]. rewrite andb_false_r. by apply bits_high.
Qed.

Lemma mangle_twice m : 0 ≤ m < 2 ^ MINORBITS → blk_mangle_minor (blk_mangle_minor m) = m.
Proof.
  intros Hm. apply Z.bits_inj'. intros n Hn. rewrite mangle_bits by (try apply mangle_range; done).
  destruct DEBUG_BLOCK_EXT_DEVT eqn:E; cbn [andb]; [|rewrite mangle_bits, E by done; done].
  destruct (Z.ltb_spec n MINORBITS) as [Hlt|Hge].
  - rewrite mangle_bits, E by lia. cbn [andb]. destruct (Z.ltb_spec (MINORBITS - 1 - n) MINORBITS); [f_equal; lia|lia].
  - rewrite mangle_bits, E by lia. cbn [andb]. by destruct (Z.ltb_spec n MINORBITS); [lia|].
Qed.

(** Mangling a minor number twice gives the number back, and a mangled number is again a minor number, with the
    scattering of numbers configured or not. *)
Theorem mangle_minor_involutive m :
  0 ≤ m < 2 ^ MINORBITS → 0 ≤ blk_mangle_minor m < 2 ^ MINORBITS ∧ blk_mangle_minor (blk_mangle_minor m) = m.
Proof. intros Hm. split; [by apply mangle_range|by apply mangle_twice]. Qed.

(** ** Device numbers *)

Lemma mkdev_parts ma mi : 0 ≤ ma < 2 ^ (32 - MINORBITS) → 0 ≤ mi < 2 ^ MINORBITS →
  MKDEV ma mi = ma * 2 ^ MINORBITS + mi ∧ MAJOR (MKDEV ma mi) = ma ∧ MINOR (MKDEV ma mi) = mi.
Proof.
  intros Hma Hmi. pose proof minorbits_range as Hb. assert (MKDEV ma mi = ma * 2 ^ MINORBITS + mi) as ->.
  { unfold MKDEV. rewrite lor_shiftl_add by lia. apply wrap_small. replace 32 with (32 - MINORBITS + MINORBITS) at 1 by lia.
    rewrite Z.pow_add_r by lia. nia. }
  split; [done|]. split.
  - unfold MAJOR. rewrite Z.shiftr_div_pow2 by lia. symmetry. apply (Z.div_unique _ _ _ mi); lia.
  - unfold MINOR. rewrite land_pow2_mask by lia. symmetry. apply (Z.mod_unique _ _ ma mi); lia.
Qed.

(** The number of an extended partition as [blk_free_devt] and [get_gendisk] take it apart. *)
Lemma ext_devt idx : 0 ≤ idx < NR_EXT_DEVT →
  let devt := MKDEV BLOCK_EXT_MAJOR (blk_mangle_minor idx) in
  devt ≠ MKDEV 0 0 ∧ MAJOR devt = BLOCK_EXT_MAJOR ∧ blk_mangle_minor (MINOR devt) = idx.
Proof.
  intros Hi. pose proof minorbits_range as Hb. pose proof ext_major_range as He. unfold NR_EXT_DEVT in Hi. rewrite Z.shiftl_1_l in Hi.
  pose proof (mangle_range idx Hi) as Hr. pose proof (mangle_twice idx Hi) as Hinv.
  destruct (mkdev_parts BLOCK_EXT_MAJOR (blk_mangle_minor idx)) as (Heq & Hma & Hmi); [lia|lia|]. cbv zeta. rewrite Hma, Hmi.
  split; [|done]. intros Hz. assert (MAJOR (MKDEV 0 0) = 0) as Hz0 by (apply mkdev_parts; lia). rewrite <- Hz, Hma in Hz0. lia.
Qed.

Lemma idr_remove_run s id x : bs_idr s !! id = Some x → idr_remove id s = Some ((), set_bs_idr (delete id (bs_idr s)) s).
Proof. intros Hid. unfold idr_remove. rewrite (bbind_run _ _ _ (bs_idr s) s) by done. by rewrite Hid. Qed.

Lemma free_devt_run s idx x :
  0 ≤ idx < NR_EXT_DEVT → bs_idr s !! idx = Some x →
  blk_free_devt (MKDEV BLOCK_EXT_MAJOR (blk_mangle_minor idx)) s = Some ((), set_bs_idr (delete idx (bs_idr s)) s).
Proof.
  intros Hi Hx. destruct (ext_devt idx Hi) as (Hz & Hma & Hmi). unfold blk_free_devt.
  destruct (Z.eqb_spec (MKDEV BLOCK_EXT_MAJOR (blk_mangle_minor idx)) (MKDEV 0 0)); [done|]. rewrite Hma, Z.eqb_refl, Hmi. by apply (idr_remove_run s idx x).
Qed.

Lemma alloc_ext_run s x p g :
  bs_parts s !! x = Some p → bs_disks s !! hd_disk p = Some g → gd_minors g ≤ hd_partno p →
  ∃ idx, idx = idr_alloc (dom (bs_idr s)) NR_EXT_DEVT (bs_tick s) ∧
    blk_alloc_devt x s =
    if idx <? 0 then Some ((if idx =? - Errno.ENOSPC then - Errno.EBUSY else idx, 0), set_bs_tick (S (bs_tick s)) s)
    else Some ((0, MKDEV BLOCK_EXT_MAJOR (blk_mangle_minor idx)), set_bs_idr (<[idx := x]> (bs_idr s)) (set_bs_tick (S (bs_tick s)) s)).
Proof.
  intros Hp Hg Hm. eexists. split; [done|]. unfold blk_alloc_devt. brun. brun. destruct (Z.ltb_spec (hd_partno p) (gd_minors g)); [lia|].
  rewrite (bbind_run _ _ _ (bs_tick s) (set_bs_tick (S (bs_tick s)) s)) by done. rewrite (bbind_run _ _ _ (dom (bs_idr s)) (set_bs_tick (S (bs_tick s)) s)) by done.
  by destruct (_ <? 0).
Qed.

Lemma get_disk_run s d p : bs_parts s !! d = Some p → ∃ s', get_disk d s = Some (get_module (bs_tick s), s').
Proof.
  intros Hp. unfold get_disk. set (s1 := set_bs_tick (S (bs_tick s)) s). rewrite (bbind_run _ _ _ (bs_tick s) s1) by done.
  destruct (get_module (bs_tick s)); [|by eexists]. exists (held d s1). by rewrite (bbind_run _ _ _ _ _ (get_device_run s1 d p Hp)).
Qed.

(** A partition without a number of its disk's range gets an extended one that no other partition has: the numbers of the others stay, the
    number leads [get_gendisk] to the disk and the partition, and freeing it restores the numbers; when there is none, the error says so and nothing changes. *)
Theorem extended_number_roundtrip s x p g p0 :
  bs_parts s !! x = Some p → bs_disks s !! hd_disk p = Some g → bs_parts s !! hd_disk p = Some p0 → gd_minors g ≤ hd_partno p →
  ∃ err devt s', blk_alloc_devt x s = Some ((err, devt), s') ∧ (err ≠ 0 → err < 0 ∧ bs_idr s' = bs_idr s) ∧
    (err = 0 → MAJOR devt = BLOCK_EXT_MAJOR ∧ bs_idr s ⊆ bs_idr s' ∧
      (∃ s2, blk_free_devt devt s' = Some ((), s2) ∧ bs_idr s2 = bs_idr s ∧ bs_lost_ids s2 = bs_lost_ids s) ∧
      ∃ r s3, get_gendisk devt s' = Some (r, s3) ∧ r = if get_module (bs_tick s') then Some (hd_disk p, hd_partno p) else None).
Proof.
  intros Hp Hg Hp0 Hm. destruct (alloc_ext_run s x p g Hp Hg Hm) as (idx & Hidx & Hr). rewrite Hr. destruct (Z.ltb_spec idx 0) as [Hneg|Hpos].
  - eexists _, _, _. split; [done|]. destruct (Z.eqb_spec idx (- Errno.ENOSPC)); unfold Errno.EBUSY; (split; [|intros ?; lia]); intros _; (split; [lia|done]).
  - destruct (idr_alloc_fresh _ _ _ _ (eq_sym Hidx) Hpos) as [Hlt Hfresh]. apply not_elem_of_dom in Hfresh.
    destruct (ext_devt idx ltac:(lia)) as (_ & Hma & Hmi). eexists _, _, _. split; [done|]. split; [done|]. intros _. split; [done|].
    split; [cbn; by apply insert_subseteq|]. split.
    + eexists. split; [apply (free_devt_run _ idx x); [lia|cbn; by rewrite lookup_insert_eq]|]. cbn. split; [by apply delete_insert_id|done].
    + unfold get_gendisk. rewrite Hma, Z.eqb_refl, Hmi. cbn [negb]. set (s' := set_bs_idr _ _). rewrite (bbind_run _ _ _ (bs_idr s') s') by done.
      cbn [s' bs_idr set_bs_idr]. rewrite lookup_insert_eq. fold s'. assert (bs_parts s' !! x = Some p) as Hp' by done. brun.
      destruct (get_disk_run s' (hd_disk p) p0 Hp0) as [s2 Hd]. exists (if get_module (bs_tick s') then Some (hd_disk p, hd_partno p) else None), s2.
      split; [|done]. by rewrite (bbind_run _ _ _ _ _ Hd).
Qed.

(** ** Names *)

(** A list that ends in digits is taken apart in one way. *)
Lemma trailing_digits a1 d1 a2 d2 :
  a1 ++ d1 = a2 ++ d2 → Forall (λ c, isdigit c = true) d1 → Forall (λ c, isdigit c = true) d2 →
  (∀ c, last a1 = Some c → isdigit c = false) → (∀ c, last a2 = Some c → isdigit c = false) → a1 = a2 ∧ d1 = d2.
Proof.
  assert (∀ a l d : list Z, Forall (λ c, isdigit c = true) (l ++ d) → (∀ c, last (a ++ l) = Some c → isdigit c = false) → l = []) as Hgo.
  { intros a l d Hd Ha. destruct (last l) as [c|] eqn:Hl; [|by apply last_None]. exfalso. specialize (Ha c). rewrite last_app, Hl in Ha.
    specialize (Ha eq_refl). apply Forall_app in Hd as [Hd _]. apply last_Some in Hl as [l' ->]. apply Forall_app in Hd as [_ Hd].
    apply Forall_cons in Hd as [Hd _]. congruence. }
  intros He H1' H2' L1 L2. apply app_eq_inv in He as [(l & -> & ->)|(l & -> & ->)].
  - rewrite (Hgo a2 l d1 H2' L1) in *. by rewrite app_nil_r.
  - rewrite (Hgo a1 l d2 H1' L2) in *. by rewrite app_nil_r.
Qed.

(** The part of a name before the number. *)
Definition stem (name : list Z) : list Z :=
  match last name with Some c => if isdigit c then name ++ [112] else name | None => name end.

Lemma numbered_stem name n : numbered name n = stem name ++ decimal n.
Proof. unfold numbered, stem. destruct (last name) as [c|]; [|done]. destruct (isdigit c); [by rewrite <- app_assoc|done]. Qed.

Lemma stem_last name c : last (stem name) = Some c → isdigit c = false.
Proof.
  unfold stem. destruct (last name) as [c'|] eqn:E; [|congruence]. destruct (isdigit c') eqn:Ed; [|congruence]. rewrite last_snoc. by intros [= <-].
Qed.

(** The names of partitions tell them apart: when two partitions of any disks have the same name, neither cut off, they have the same number, and their
    disks have the same name, unless the name of one disk is that of the other, ending in a digit, with a p behind it. *)
Theorem partition_names_unique g1 n1 g2 n2 :
  0 < n1 → 0 < n2 → zlen (numbered (gd_disk_name g1) n1) < BDEVNAME_SIZE → zlen (numbered (gd_disk_name g2) n2) < BDEVNAME_SIZE →
  disk_name g1 n1 = disk_name g2 n2 →
  n1 = n2 ∧ (gd_disk_name g1 = gd_disk_name g2 ∨
    ∃ a b c, (a, b) ∈ [(gd_disk_name g1, gd_disk_name g2); (gd_disk_name g2, gd_disk_name g1)] ∧ b = a ++ [112] ∧ last a = Some c ∧ isdigit c = true).
Proof.
  intros Hn1 Hn2 L1 L2. unfold disk_name, BDEVNAME_SIZE in *. destruct (Z.eqb_spec n1 0), (Z.eqb_spec n2 0); try lia. rewrite !take_ge by lia.
  rewrite !numbered_stem. intros He. destruct (decimal_spec n1 ltac:(lia)) as [V1 D1]. destruct (decimal_spec n2 ltac:(lia)) as [V2 D2].
  destruct (trailing_digits _ _ _ _ He D1 D2 (stem_last _) (stem_last _)) as [Hst Hd]. split; [congruence|]. clear -Hst. unfold stem in Hst.
  destruct (last (gd_disk_name g1)) as [c1|] eqn:E1, (last (gd_disk_name g2)) as [c2|] eqn:E2; repeat case_match; try by left.
  all: try (left; by apply app_inj_tail in Hst as [-> _]).
  all: right; first [exists (gd_disk_name g1), (gd_disk_name g2), c1; split; [by left|]; done|
    exists (gd_disk_name g2), (gd_disk_name g1), c2; split; [by right; left|]; done].
Qed.

End Numbers.
