(* ===== verification/DiskParts.v ===== *)
(** * Block layer: adding and deleting partitions

    What growing a table, adding a partition and deleting one do to a disk whose table is in order, on every path. *)
From stdpp Require Import gmap.
From S2P Require Import Prelude Text Majors DiskEvents DiskState DiskTable Partition Disk DiskSpec.

Section Parts.
Context `{BlockApi} `{!BlockApiLaws} `{BlockCore} `{!BlockCoreLaws}.

Definition ticked (s : blkstate) : blkstate := set_bs_tick (S (bs_tick s)) s.

Lemma tick_run s : tick s = Some (bs_tick s, ticked s).
Proof. done. Qed.

Lemma blk_kzalloc_run s : ∃ x, kzalloc s = Some (x, ticked s) ∧ (x ≠ 0 → 0 < x ∧ bs_parts s !! x = None ∧ bs_disks s !! x = None).
Proof.
  unfold kzalloc. rewrite (bbind_run _ _ _ _ _ (tick_run s)). rewrite (bbind_run _ _ _ (used (ticked s)) (ticked s)) by done. eexists. split; [done|].
  destruct (kzalloc_at (used (ticked s)) (bs_tick s)) as [x|] eqn:E; [|done]. cbn. intros _. apply kzalloc_fresh in E as [Hx Hn].
  split; [done|]. unfold used in Hn. cbn in Hn. apply not_elem_of_union in Hn as [Hd Hp]. split; by apply not_elem_of_dom.
Qed.

(** A kernel in which nothing runs out and no device fails. *)
Record calm : Prop := {
  calm_memory l t : is_Some (kzalloc_at l t);
  calm_stats t : init_part_stats t = true;
  calm_info t : alloc_part_info t = true;
  calm_device t : device_add t = 0;
  calm_dir t : kobject_create_and_add t = true;
  calm_file t : device_create_file t = 0 }.

Lemma kzalloc_calm s x s' : calm → kzalloc s = Some (x, s') → x ≠ 0.
Proof.
  intros Hc Hk. unfold kzalloc in Hk. rewrite (bbind_run _ _ _ _ _ (tick_run s)) in Hk. rewrite (bbind_run _ _ _ (used (ticked s)) (ticked s)) in Hk by done.
  destruct (calm_memory Hc (used (ticked s)) (bs_tick s)) as [y Hy]. rewrite Hy in Hk. injection Hk as <- _. apply kzalloc_fresh in Hy. cbn. lia.
Qed.

(** There is room for a number in the table and in the range of the disk. *)
Definition room_for (g : gendisk) (partno : Z) : Prop :=
  partno < 2 ^ 31 - 1 ∧ partno < gd_minors g ∧ ∀ t, disk_max_parts (set_gd_part_tbl t g) = 0 ∨ partno < disk_max_parts (set_gd_part_tbl t g).

(** The numbers of a disk's own range are not extended ones. *)
Definition range_ok (g : gendisk) : Prop :=
  0 < gd_minors g → 0 ≤ gd_major g < 2 ^ (32 - MINORBITS) ∧ gd_major g ≠ BLOCK_EXT_MAJOR ∧ 0 ≤ gd_first_minor g ∧
    gd_first_minor g + gd_minors g ≤ 2 ^ MINORBITS.

(** Everything but the table of [d] and the number of calls. *)
Record same_rest (d : Z) (s s' : blkstate) : Prop := {
  sr_parts : bs_parts s' = bs_parts s;
  sr_idr : bs_idr s' = bs_idr s;
  sr_rcu : bs_rcu s' = bs_rcu s;
  sr_uevents : bs_uevents s' = bs_uevents s }.

(** The table of [d] is [t'], and nothing else of the disks changed. *)
Definition table_now (d : Z) (t' : disk_part_tbl) (s s' : blkstate) : Prop :=
  ∃ g, bs_disks s !! d = Some g ∧ bs_disks s' = <[d := set_gd_part_tbl (Some t') g]> (bs_disks s).

Lemma set_tbl_id g t : gd_part_tbl g = Some t → set_gd_part_tbl (Some t) g = g.
Proof. destruct g. cbn. by intros ->. Qed.

Lemma table_now_refl d t s : (∃ g, bs_disks s !! d = Some g ∧ gd_part_tbl g = Some t) → table_now d t s s.
Proof. intros (g & Hg & Ht). exists g. split; [done|]. by rewrite set_tbl_id, insert_id. Qed.

(** ** Growing the table *)

Definition grown (t t' : disk_part_tbl) : Prop := ∃ k, tb_part t' = tb_part t ++ replicate k 0 ∧ (k = 0%nat ∧ t' = t ∨ tb_last_lookup t' = 0).

Lemma grown_refl t : grown t t.
Proof. exists 0%nat. rewrite app_nil_r. split; [done|by left]. Qed.

Lemma disk_ok_parts s s' d t t' :
  disk_ok s d t → grown t t' → table_now d t' s s' → bs_parts s' = bs_parts s → disk_ok s' d t'.
Proof.
  intros [Hd Ha H0' He Hl] (k & Hk & Hlast) (g & Hg & Hg') Hp. split; [|done|..].
  - exists (set_gd_part_tbl (Some t') g). rewrite Hg', lookup_insert_eq. by destruct g.
  - rewrite Hk, lookup_app_l by (by eapply lookup_lt_Some). done.
  - intros i x Hi Hx. rewrite Hp. rewrite Hk, lookup_app in Hi. destruct (tb_part t !! i) as [y|] eqn:Ei; [injection Hi as ->; by apply He|].
    apply lookup_replicate in Hi as [-> _]. done.
  - destruct Hlast as [[-> ->]|Hz]; [done|]. intros Hne. done.
Qed.

Lemma expand_run s d t partno :
  disk_ok s d t → 0 ≤ partno < 2 ^ 31 →
  ∃ err s' t', disk_expand_part_tbl d partno s = Some (err, s') ∧ err ≤ 0 ∧ grown t t' ∧ table_now d t' s s' ∧ same_rest d s s' ∧
    bs_lost_ids s' = bs_lost_ids s ∧ (err = 0 → partno < zlen (tb_part t')) ∧
    (err ≠ 0 → ∀ g, bs_disks s !! d = Some g → calm → ¬ room_for g partno).
Proof.
  intros Hok Hp. destruct (dk_disk _ _ _ Hok) as (g & Hg & Ht). unfold disk_expand_part_tbl. brun. rewrite Ht.
  assert (∀ err s', same_rest d s s' → bs_disks s' = bs_disks s → bs_lost_ids s' = bs_lost_ids s → err ≤ 0 → (err = 0 → partno < zlen (tb_part t)) →
    (err ≠ 0 → calm → ¬ room_for g partno) →
    ∃ err' s'' t', Some (err, s') = Some (err', s'') ∧ err' ≤ 0 ∧ grown t t' ∧ table_now d t' s s'' ∧ same_rest d s s'' ∧
      bs_lost_ids s'' = bs_lost_ids s ∧ (err' = 0 → partno < zlen (tb_part t')) ∧
      (err' ≠ 0 → ∀ g, bs_disks s !! d = Some g → calm → ¬ room_for g partno)) as Hstay.
  { intros err s' Hs Hd Hlost He Hz Hc. exists err, s', t. split; [done|]. split; [done|]. split; [apply grown_refl|].
    split; [|split; [done|split; [done|split; [done|]]]]; [|intros Hne g' Hg'; assert (g' = g) as -> by congruence; by apply Hc].
    destruct (table_now_refl d t s) as (g' & Hg' & Hd'); [by exists g|]. exists g'. split; [done|]. congruence. }
  assert (s32 (partno + 1) < 0 ∨ s32 (partno + 1) = partno + 1) as Hs32.
  { destruct (Z.eq_dec partno (2 ^ 31 - 1)) as [->|]; [left; reflexivity|right; apply signed_small; lia]. }
  destruct (Z.ltb_spec (s32 (partno + 1)) 0) as [Hneg|Hnn].
  { apply Hstay; try done. intros _ _ (Hroom & _). rewrite signed_small in Hneg by lia. lia. }
  destruct Hs32 as [|Hs32]; [lia|]. rewrite Hs32. destruct (_ && _) eqn:Emax.
  { apply Hstay; try done. intros _ _ (_ & _ & Hmax). specialize (Hmax (Some t)). rewrite set_tbl_id in Hmax by done. unfold truthy in Emax. lia. }
  destruct (Z.leb_spec (partno + 1) (zlen (tb_part t))); [apply Hstay; [done|done|done|done|lia|done]|].
  destruct (blk_kzalloc_run s) as (a & Ha & _). rewrite (bbind_run _ _ _ _ _ Ha). destruct (truthy a) eqn:Eta; cbn [negb].
  2:{ apply Hstay; try done. intros _ Hc _. apply (kzalloc_calm _ _ _ Hc Ha). unfold truthy in Eta. lia. }
  unfold disk_replace_part_tbl. assert (bs_disks (ticked s) !! d = Some g) as Hg1 by done. brun.
  eexists 0, _, (PartTbl (tb_part t ++ replicate (Z.to_nat (partno + 1) - length (tb_part t)) 0) 0). split; [reflexivity|]. split; [done|].
  split; [eexists; split; [reflexivity|by right]|]. split; [by exists g|]. split; [done|]. split; [done|].
  split; [|done]. intros _. cbn. rewrite length_app, length_replicate. lia.
Qed.

(** ** Giving numbers back *)

Lemma free_devt_range s devt : MAJOR devt ≠ BLOCK_EXT_MAJOR → blk_free_devt devt s = Some ((), s).
Proof. intros Hm. unfold blk_free_devt. destruct (devt =? MKDEV 0 0); [done|]. by destruct (Z.eqb_spec (MAJOR devt) BLOCK_EXT_MAJOR). Qed.

Lemma free_devt_missing s idx :
  0 ≤ idx < NR_EXT_DEVT → bs_idr s !! idx = None →
  blk_free_devt (MKDEV BLOCK_EXT_MAJOR (blk_mangle_minor idx)) s = Some ((), set_bs_lost_ids (bs_lost_ids s ++ [idx]) s).
Proof.
  intros Hi Hx. destruct (ext_devt idx Hi) as (Hz & Hma & Hmi). unfold blk_free_devt.
  destruct (Z.eqb_spec (MKDEV BLOCK_EXT_MAJOR (blk_mangle_minor idx)) (MKDEV 0 0)); [done|]. rewrite Hma, Z.eqb_refl, Hmi.
  unfold idr_remove. rewrite (bbind_run _ _ _ (bs_idr s) s) by done. by rewrite Hx.
Qed.

(** The number of partition [x]: one of the range, or an extended one that leads to it. *)
Definition has_number (idr : gmap Z Z) (x devt : Z) : Prop :=
  MAJOR devt ≠ BLOCK_EXT_MAJOR ∨ ∃ idx, 0 ≤ idx < NR_EXT_DEVT ∧ devt = MKDEV BLOCK_EXT_MAJOR (blk_mangle_minor idx) ∧ idr !! idx = Some x.

(** The allocated numbers without that of [devt]. *)
Definition without_number (devt : Z) (idr : gmap Z Z) : gmap Z Z :=
  if MAJOR devt =? BLOCK_EXT_MAJOR then delete (blk_mangle_minor (MINOR devt)) idr else idr.

Lemma free_number s x devt :
  has_number (bs_idr s) x devt → blk_free_devt devt s = Some ((), set_bs_idr (without_number devt (bs_idr s)) s).
Proof.
  intros [Hr|(idx & Hi & -> & Hx)]; unfold without_number.
  - rewrite free_devt_range by done. destruct (Z.eqb_spec (MAJOR devt) BLOCK_EXT_MAJOR); [done|]. by destruct s.
  - destruct (ext_devt idx Hi) as (_ & Hma & Hmi). by rewrite Hma, Z.eqb_refl, Hmi, (free_devt_run s idx x).
Qed.

(** The last reference to a partition that is not a disk's own. *)
Lemma put_last s x p :
  bs_parts s !! x = Some p → hd_refs p = 1 → hd_disk p ≠ x → has_number (bs_idr s) x (hd_devt p) →
  put_device x s = Some ((), set_bs_parts (delete x (bs_parts s)) (set_bs_idr (without_number (hd_devt p) (bs_idr s)) s)).
Proof.
  intros Hp Hr Hd Hn. unfold put_device. brun. brun. rewrite Hr. change (1 - 1 =? 0) with true. cbv iota.
  destruct (Z.eqb_spec (hd_disk p) x); [done|]. unfold part_release. set (s1 := set_bs_parts _ s).
  assert (bs_parts s1 !! x = Some (set_hd_refs (1 - 1) p)) as Hp1 by (cbn; by rewrite lookup_insert_eq). brun.
  pose proof (free_number s1 x (hd_devt p) Hn) as Hf. cbn [hd_devt set_hd_refs]. rewrite (bbind_run _ _ _ _ _ Hf). unfold kfree_part.
  set (s2 := set_bs_idr _ s1). assert (bs_parts s2 !! x = Some (set_hd_refs (1 - 1) p)) as Hp2 by done. brun. unfold bmod, s2, s1, set_bs_parts, set_bs_idr. cbn. by rewrite delete_insert_eq.
Qed.

(** The extended number that is freed a second time. *)
Definition twice (devt : Z) : list Z := if MAJOR devt =? BLOCK_EXT_MAJOR then [blk_mangle_minor (MINOR devt)] else [].

(** A failed start of the device: the partition is gone and so is its number, which is freed a second time. *)
Lemma out_put_run s x p (err : Z) :
  bs_parts s !! x = Some p → hd_refs p = 1 → hd_disk p ≠ x → has_number (bs_idr s) x (hd_devt p) →
  ∃ s', ((_ ← put_device x; _ ← blk_free_devt (hd_devt p); mret err) : BM Z) s = Some (err, s') ∧ bs_parts s' = delete x (bs_parts s) ∧
    bs_idr s' = without_number (hd_devt p) (bs_idr s) ∧ bs_disks s' = bs_disks s ∧ bs_rcu s' = bs_rcu s ∧ bs_uevents s' = bs_uevents s ∧
    bs_lost_ids s' = bs_lost_ids s ++ twice (hd_devt p).
Proof.
  intros Hp Hr Hd Hn. unfold twice. rewrite (bbind_run _ _ _ _ _ (put_last s x p Hp Hr Hd Hn)). set (s1 := set_bs_parts _ _).
  destruct Hn as [Hn|(idx & Hi & He & Hx)].
  - rewrite (bbind_run _ _ _ _ _ (free_devt_range s1 _ Hn)). exists s1. split; [done|]. do 5 (split; [done|]).
    destruct (Z.eqb_spec (MAJOR (hd_devt p)) BLOCK_EXT_MAJOR); [done|]. cbn. by rewrite app_nil_r.
  - destruct (ext_devt idx Hi) as (_ & Hma & Hmi). assert (bs_idr s1 !! idx = None) as Hmiss.
    { cbn. unfold without_number. rewrite He, Hma, Z.eqb_refl, Hmi. apply lookup_delete_eq. }
    pose proof (free_devt_missing s1 idx Hi Hmiss) as Hf. rewrite <- He in Hf, Hma, Hmi. rewrite (bbind_run _ _ _ _ _ Hf). eexists. split; [reflexivity|]. cbn. do 5 (split; [done|]).
    by rewrite Hma, Z.eqb_refl, Hmi.
Qed.

(** ** Adding a partition *)

Lemma upd_tbl_run s d g t f :
  bs_disks s !! d = Some g → gd_part_tbl g = Some t →
  upd_tbl d f s = Some ((), set_bs_disks (<[d := set_gd_part_tbl (Some (f t)) g]> (bs_disks s)) s).
Proof. intros Hg Ht. unfold upd_tbl. rewrite (upd_disk_run _ _ g) by done. by rewrite Ht. Qed.

(** What user space is told when the device of a partition goes away. *)
Definition removal (x : Z) (p : hd_struct) : list uevent := if hd_suppress p then [] else [Uev_part KOBJ_REMOVE x (hd_partno p) (part_name p)].
Definition is_removal (u : uevent) : Prop := ∃ x partno name, u = Uev_part KOBJ_REMOVE x partno name.

Lemma removal_is x p : Forall is_removal (removal x p).
Proof. unfold removal. destruct (hd_suppress p); repeat constructor. by eexists _, _, _. Qed.

Lemma removal_run s x p : bs_parts s !! x = Some p → part_uevent KOBJ_REMOVE x s = Some ((), set_bs_uevents (bs_uevents s ++ removal x p) s).
Proof. intros Hp. unfold part_uevent, removal. brun. destruct (hd_suppress p); [|done]. rewrite app_nil_r. by destruct s. Qed.

(** A file of the device of a partition can fail to be made. *)
Definition file_fails : Prop := ∃ n, device_create_file n ≠ 0.

(** What a successful addition tells user space. *)
Definition add_events_of (p0 p : hd_struct) (x : Z) : list uevent :=
  if hd_suppress p0 then [] else [Uev_part KOBJ_ADD x (hd_partno p) (part_name p)].

Lemma add_device_run s d g t x p p0 flags :
  bs_disks s !! d = Some g → gd_part_tbl g = Some t → bs_parts s !! d = Some p0 → x ≠ d →
  bs_parts s !! x = Some p → hd_refs p = 1 → hd_disk p = d → hd_suppress p = true → has_number (bs_idr s) x (hd_devt p) →
  ∃ r s', add_device d x (hd_partno p) flags (hd_devt p) s = Some (r, s') ∧ bs_rcu s' = bs_rcu s ∧
    (r = x ∧ bs_disks s' = <[d := set_gd_part_tbl (Some (set_entry (hd_partno p) x t)) g]> (bs_disks s) ∧ bs_idr s' = bs_idr s ∧
       bs_parts s' = <[x := set_hd_ref 1 (set_hd_suppress false p)]> (bs_parts s) ∧ bs_uevents s' = bs_uevents s ++ add_events_of p0 p x ∧
       bs_lost_ids s' = bs_lost_ids s ∨
     r < 0 ∧ bs_disks s' = bs_disks s ∧ bs_idr s' = without_number (hd_devt p) (bs_idr s) ∧ bs_parts s' = delete x (bs_parts s) ∧
       (bs_uevents s' = bs_uevents s ∨ bs_uevents s' = bs_uevents s ++ removal x (set_hd_suppress false p) ∧ truthy (flags &&& ADDPART_FLAG_WHOLEDISK) = true ∧ file_fails) ∧
       bs_lost_ids s' = bs_lost_ids s ++ twice (hd_devt p) ∧ ¬ calm).
Proof.
  intros Hg Ht Hp0 Hxd Hp Hr Hd Hsup Hn.
  assert (∀ err s1, err < 0 → ¬ calm → bs_disks s1 = bs_disks s → bs_idr s1 = bs_idr s → bs_rcu s1 = bs_rcu s → bs_lost_ids s1 = bs_lost_ids s →
    (bs_uevents s1 = bs_uevents s ∨ bs_uevents s1 = bs_uevents s ++ removal x (set_hd_suppress false p) ∧ truthy (flags &&& ADDPART_FLAG_WHOLEDISK) = true ∧ file_fails) →
    (∃ p1, bs_parts s1 = <[x := p1]> (bs_parts s) ∧ hd_refs p1 = 1 ∧ hd_disk p1 = d ∧ hd_devt p1 = hd_devt p) →
    ∃ r s', ((_ ← put_device x; _ ← blk_free_devt (hd_devt p); mret err) : BM Z) s1 = Some (r, s') ∧ bs_rcu s' = bs_rcu s ∧ r < 0 ∧
      bs_disks s' = bs_disks s ∧ bs_idr s' = without_number (hd_devt p) (bs_idr s) ∧ bs_parts s' = delete x (bs_parts s) ∧
      (bs_uevents s' = bs_uevents s ∨ bs_uevents s' = bs_uevents s ++ removal x (set_hd_suppress false p) ∧ truthy (flags &&& ADDPART_FLAG_WHOLEDISK) = true ∧ file_fails) ∧
      bs_lost_ids s' = bs_lost_ids s ++ twice (hd_devt p) ∧ ¬ calm) as Hout.
  { intros err s1 He Hc D I R L U (p1 & P & R1 & D1 & V1). rewrite <- V1. destruct (out_put_run s1 x p1 err) as (s' & Hrun & P' & I' & D' & R' & U' & L');
      [by rewrite P, lookup_insert_eq|done|by rewrite D1|by rewrite I, V1|]. exists err, s'. split; [done|]. split; [congruence|]. split; [done|]. split; [congruence|].
    split; [congruence|]. split; [|split; [by rewrite U'|by split; [congruence|]]]. rewrite P', P. apply delete_insert_eq. }
  assert (∃ p1, bs_parts s = <[x := p1]> (bs_parts s) ∧ hd_refs p1 = 1 ∧ hd_disk p1 = d ∧ hd_devt p1 = hd_devt p) as Hsame.
  { exists p. by rewrite insert_id. }
  unfold add_device. rewrite (bbind_run _ _ _ _ _ (tick_run s)). set (s1 := ticked s).
  destruct (truthy (device_add (bs_tick s))) eqn:E1.
  { destruct (Hout (device_add (bs_tick s)) s1) as (r & s' & Hrun & Rc & Rest); try done.
    { pose proof (device_add_err (bs_tick s)). unfold truthy in E1. lia. }
    { intros Hc. by rewrite (calm_device Hc) in E1. }
    { by left. }
    exists r, s'. split; [exact Hrun|]. split; [done|]. by right. }
  rewrite (bbind_run _ _ _ _ _ (tick_run s1)). set (s2 := ticked s1).
  destruct (kobject_create_and_add (bs_tick s1)) eqn:E2; cbn [negb].
  2:{ assert (bs_parts s2 !! x = Some p) as Hp2 by done. rewrite (bbind_run _ _ _ _ _ (removal_run s2 x p Hp2)).
      assert (removal x p = []) as -> by (unfold removal; by rewrite Hsup). rewrite app_nil_r.
      destruct (Hout (- Errno.ENOMEM) (set_bs_uevents (bs_uevents s2) s2)) as (r & s' & Hrun & Rc & Rest); try done; [intros Hc; by rewrite (calm_dir Hc) in E2|by left|].
      exists r, s'. split; [exact Hrun|]. split; [done|]. by right. }
  assert (bs_parts s2 !! x = Some p) as Hp2 by done. brun. set (s3 := set_bs_parts _ s2). set (p3 := set_hd_suppress false p) in *.
  assert (∃ err s4, (if truthy (flags &&& ADDPART_FLAG_WHOLEDISK) then t ← tick; mret (device_create_file t) else mret 0) s3 = Some (err, s4) ∧
    err ≤ 0 ∧ bs_disks s4 = bs_disks s3 ∧ bs_idr s4 = bs_idr s3 ∧ bs_rcu s4 = bs_rcu s3 ∧ bs_uevents s4 = bs_uevents s3 ∧ bs_parts s4 = bs_parts s3 ∧
    bs_lost_ids s4 = bs_lost_ids s3 ∧ (calm → err = 0) ∧ (err ≠ 0 → truthy (flags &&& ADDPART_FLAG_WHOLEDISK) = true ∧ file_fails)) as (err & s4 & Hrun4 & He4 & D4 & I4 & R4 & U4 & P4 & L4 & C4 & F4).
  { destruct (truthy (flags &&& ADDPART_FLAG_WHOLEDISK)).
    - rewrite (bbind_run _ _ _ _ _ (tick_run s3)). eexists _, _. split; [done|]. split; [apply device_create_file_err|]. do 6 (split; [done|]). split; [intros Hc; apply (calm_file Hc)|]. intros Hne. split; [done|by eexists].
    - eexists _, _. split; [done|]. split; [done|]. do 6 (split; [done|]). done. }
  rewrite (bbind_run _ _ _ _ _ Hrun4). destruct (truthy err) eqn:Ee.
  { assert (bs_parts s4 !! x = Some p3) as Hp4 by (rewrite P4; cbn; by rewrite lookup_insert_eq). rewrite (bbind_run _ _ _ _ _ (removal_run s4 x p3 Hp4)).
    assert (err ≠ 0) as Hne by (unfold truthy in Ee; lia).
    destruct (Hout err (set_bs_uevents (bs_uevents s4 ++ removal x p3) s4)) as (r & s' & Hrun & Rc & Rest); try done; [lia|intros Hc; by rewrite (C4 Hc) in Ee| | |exists r, s'; split; [exact Hrun|]; split; [done|]; by right].
    - right. split; [cbn; by rewrite U4|]. by apply F4.
    - exists p3. cbn. by rewrite P4. }
  assert (bs_disks s4 !! d = Some g) as Hg4 by (by rewrite D4). rewrite (bbind_run _ _ _ _ _ (upd_tbl_run s4 d g t _ Hg4 Ht)). set (s5 := set_bs_disks _ s4).
  assert (bs_parts s5 !! d = Some p0) as Hp5 by (cbn; rewrite P4; cbn; by rewrite lookup_insert_ne). brun.
  assert (bs_parts s5 !! x = Some p3) as Hx5 by (cbn; rewrite P4; cbn; by rewrite lookup_insert_eq).
  assert (∃ s6, (if hd_suppress p0 then mret () else part_uevent KOBJ_ADD x) s5 = Some ((), s6) ∧ bs_disks s6 = bs_disks s5 ∧ bs_idr s6 = bs_idr s5 ∧
    bs_rcu s6 = bs_rcu s5 ∧ bs_parts s6 = bs_parts s5 ∧ bs_uevents s6 = bs_uevents s5 ++ add_events_of p0 p x ∧ bs_lost_ids s6 = bs_lost_ids s5)
    as (s6 & Hrun6 & D6 & I6 & R6 & P6 & U6 & L6).
  { unfold add_events_of. destruct (hd_suppress p0); [exists s5; by rewrite app_nil_r|]. eexists. split.
    - unfold part_uevent. brun. reflexivity.
    - by repeat split. }
  rewrite (bbind_run _ _ _ _ _ Hrun6). rewrite <- P6 in Hx5. brun. eexists x, _. split; [reflexivity|].
  split; [cbn; by rewrite R6; cbn; rewrite R4|]. left. split; [done|]. cbn. split; [by rewrite D6; cbn; rewrite D4|].
  split; [by rewrite I6; cbn; rewrite I4|]. split; [rewrite P6; cbn; rewrite P4; cbn; by rewrite insert_insert_eq|].
  split; [by rewrite U6; cbn; rewrite U4|by rewrite L6; cbn; rewrite L4].
Qed.

Lemma alloc_devt_run s x p g :
  bs_parts s !! x = Some p → bs_disks s !! hd_disk p = Some g → range_ok g → 0 ≤ hd_partno p →
  ∃ err devt s', blk_alloc_devt x s = Some ((err, devt), s') ∧ err ≤ 0 ∧ bs_parts s' = bs_parts s ∧ bs_disks s' = bs_disks s ∧
    bs_rcu s' = bs_rcu s ∧ bs_uevents s' = bs_uevents s ∧ bs_lost_ids s' = bs_lost_ids s ∧
    (err ≠ 0 → bs_idr s' = bs_idr s) ∧
    (err = 0 → has_number (bs_idr s') x devt ∧ without_number devt (bs_idr s') = bs_idr s ∧ bs_idr s ⊆ bs_idr s') ∧
    (hd_partno p < gd_minors g → err = 0).
Proof.
  intros Hp Hg Hr Hn. destruct (Z.ltb_spec (hd_partno p) (gd_minors g)) as [Hlt|Hge].
  - destruct Hr as (Hma & Hne & Hf & Hm); [lia|]. destruct (mkdev_parts (gd_major g) (gd_first_minor g + hd_partno p) Hma ltac:(lia)) as (_ & Hmaj & _).
    eexists 0, _, s. split; [unfold blk_alloc_devt; brun; brun; destruct (Z.ltb_spec (hd_partno p) (gd_minors g)); [reflexivity|lia]|].
    do 7 (split; [done|]). split; [|done]. intros _. unfold without_number. rewrite Hmaj. destruct (Z.eqb_spec (gd_major g) BLOCK_EXT_MAJOR); [done|].
    split; [left; by rewrite Hmaj|done].
  - destruct (alloc_ext_run s x p g Hp Hg Hge) as (idx & Hidx & Hrun). rewrite Hrun. destruct (Z.ltb_spec idx 0) as [Hneg|Hpos].
    + eexists _, _, _. split; [done|]. destruct (Z.eqb_spec idx (- Errno.ENOSPC)); unfold Errno.EBUSY; (split; [lia|]); do 6 (split; [done|]); (split; intros ?; lia).
    + destruct (idr_alloc_fresh _ _ _ _ (eq_sym Hidx) Hpos) as [Hlt Hfresh]. apply not_elem_of_dom in Hfresh.
      assert (0 ≤ idx < NR_EXT_DEVT) as Hi by lia. destruct (ext_devt idx Hi) as (_ & Hma & Hmi). eexists _, _, _. split; [done|]. do 7 (split; [done|]). split; [|intros ?; lia]. intros _. split; [|split].
      * right. exists idx. cbn. rewrite lookup_insert_eq. by split.
      * unfold without_number. rewrite Hma, Z.eqb_refl, Hmi. cbn. by apply delete_insert_id.
      * cbn. by apply insert_subseteq.
Qed.

(** The partition that [add_partition] makes. *)
Definition new_part (d partno start len : Z) (info : option part_info) (p0 : hd_struct) (devt : Z) : hd_struct :=
  Hd start len (limit_alignment_offset d start) (limit_discard_alignment d start) partno (hd_policy p0) info d 1
    (numbered (hd_name p0) partno) devt 1 false.

(** The table with a partition entered. *)
Definition entered (t : disk_part_tbl) (partno x : Z) (t' : disk_part_tbl) : Prop :=
  ∃ t1, grown t t1 ∧ tb_part t1 !! Z.to_nat partno = Some 0 ∧ t' = set_entry partno x t1.

Lemma entered_ok s s' d t t' partno x p :
  disk_ok s d t → entered t partno x t' → 0 ≤ partno → 0 < x → x ≠ d → bs_parts s !! x = None →
  (∃ g, bs_disks s' !! d = Some g ∧ gd_part_tbl g = Some t') → bs_parts s' = <[x := p]> (bs_parts s) →
  hd_partno p = partno → hd_disk p = d → 1 ≤ hd_refs p → hd_ref p = 1 → disk_ok s' d t'.
Proof.
  intros Hok (t1 & Hgr & Hz & ->) Hpn Hx Hxd Hnew Hd' Hp' Hpno Hpd Hrefs Href.
  assert (disk_ok (set_bs_disks (<[d := Disk 0 0 0 [] 0 (Some t1) 0 0 None]> (bs_disks s)) s) d t1) as [_ Ha H0' He Hl].
  { destruct (dk_disk _ _ _ Hok) as (g & Hg & Ht). destruct Hok as [? ? H0' He Hl]. destruct Hgr as (k & Hk & Hlast). split; [|done|..].
    - eexists. cbn. rewrite lookup_insert_eq. split; [done|done].
    - rewrite Hk, lookup_app_l by (by eapply lookup_lt_Some). done.
    - intros i y Hi Hy. rewrite Hk, lookup_app in Hi. destruct (tb_part t !! i) as [z|] eqn:Ei; [injection Hi as ->; by apply (He i)|].
      apply lookup_replicate in Hi as [-> _]. done.
    - destruct Hlast as [[-> ->]|Hz']; [done|]. intros Hne. done. }
  cbn [bs_parts set_bs_disks] in He. pose proof (lookup_lt_Some _ _ _ Hz) as Hlt. split; [done|done|..]; unfold set_entry; cbn [tb_part tb_last_lookup].
  - rewrite list_lookup_insert_ne; [done|]. intros Heq. rewrite Heq in Hz. assert (d = 0) by congruence. lia.
  - intros i y Hi Hy. rewrite Hp'. destruct (decide (i = Z.to_nat partno)) as [->|Hne].
    + rewrite list_lookup_insert_eq in Hi by done. injection Hi as <-. exists p. rewrite lookup_insert_eq. split; [done|]. split; [lia|done].
    + rewrite list_lookup_insert_ne in Hi by done. destruct (He i y Hi Hy) as (q & Hq & Hrest). exists q. split; [|done]. rewrite lookup_insert_ne; [done|]. congruence.
  - intros Hne. destruct (Hl Hne) as (i & Hi1 & Hi). exists i. split; [done|]. rewrite list_lookup_insert_ne; [done|]. intros <-. congruence.
Qed.

(** What a failed addition may leave behind: user space is told that a partition went away of which it was never told, and a number that is not allocated is freed. *)
Definition add_failed (partno flags : Z) (s s' : blkstate) : Prop :=
  (bs_uevents s' = bs_uevents s ∨
   ∃ x name, bs_uevents s' = bs_uevents s ++ [Uev_part KOBJ_REMOVE x partno name] ∧ truthy (flags &&& ADDPART_FLAG_WHOLEDISK) = true ∧ file_fails) ∧
  (bs_lost_ids s' = bs_lost_ids s ∨ ∃ id, bs_lost_ids s' = bs_lost_ids s ++ [id] ∧ bs_idr s !! id = None).

Lemma add_partition_run s d t g p0 partno start len flags info :
  disk_ok s d t → bs_disks s !! d = Some g → range_ok g → bs_parts s !! d = Some p0 → 0 ≤ partno < 2 ^ 31 →
  ∃ r s' t', add_partition d partno start len flags info s = Some (r, s') ∧ bs_rcu s' = bs_rcu s ∧ disk_ok s' d t' ∧ table_now d t' s s' ∧
    (0 < r ∧ bs_parts s !! r = None ∧ r ≠ d ∧ entered t partno r t' ∧
       (∃ devt, bs_parts s' = <[r := new_part d partno start len info p0 devt]> (bs_parts s) ∧ has_number (bs_idr s') r devt ∧
          without_number devt (bs_idr s') = bs_idr s ∧
          bs_uevents s' = bs_uevents s ++ add_events_of p0 (new_part d partno start len info p0 devt) r) ∧ bs_idr s ⊆ bs_idr s' ∧ bs_lost_ids s' = bs_lost_ids s ∨
     r ≤ 0 ∧ grown t t' ∧ bs_parts s' = bs_parts s ∧ bs_idr s' = bs_idr s ∧ add_failed partno flags s s' ∧
       (tb_part t !! Z.to_nat partno = Some 0 ∨ tb_part t !! Z.to_nat partno = None → calm → ¬ room_for g partno)).
Proof.
  intros Hok Hg Hrange Hp0 Hpn. destruct (expand_run s d t partno Hok Hpn) as (err & s1 & t1 & Hrun1 & He1 & Hgr & (g' & Hg' & D1) & [P1 I1 R1 U1] & L1 & Hlen & Hc1).
  assert (g' = g) as -> by congruence. clear Hg'. unfold add_partition. rewrite (bbind_run _ _ _ _ _ Hrun1).
  assert (∀ r s', r ≤ 0 → bs_disks s' = bs_disks s1 → bs_parts s' = bs_parts s → bs_idr s' = bs_idr s → bs_uevents s' = bs_uevents s → bs_lost_ids s' = bs_lost_ids s → bs_rcu s' = bs_rcu s →
    (tb_part t !! Z.to_nat partno = Some 0 ∨ tb_part t !! Z.to_nat partno = None → calm → ¬ room_for g partno) →
    ∃ r' s'' t', Some (r, s') = Some (r', s'') ∧ bs_rcu s'' = bs_rcu s ∧ disk_ok s'' d t' ∧ table_now d t' s s'' ∧
    (0 < r' ∧ bs_parts s !! r' = None ∧ r' ≠ d ∧ entered t partno r' t' ∧
       (∃ devt, bs_parts s'' = <[r' := new_part d partno start len info p0 devt]> (bs_parts s) ∧ has_number (bs_idr s'') r' devt ∧
          without_number devt (bs_idr s'') = bs_idr s ∧
          bs_uevents s'' = bs_uevents s ++ add_events_of p0 (new_part d partno start len info p0 devt) r') ∧ bs_idr s ⊆ bs_idr s'' ∧ bs_lost_ids s'' = bs_lost_ids s ∨
     r' ≤ 0 ∧ grown t t' ∧ bs_parts s'' = bs_parts s ∧ bs_idr s'' = bs_idr s ∧ add_failed partno flags s s'' ∧
       (tb_part t !! Z.to_nat partno = Some 0 ∨ tb_part t !! Z.to_nat partno = None → calm → ¬ room_for g partno))) as Hfail.
  { intros r s' Hr D P I U L R Hnc. exists r, s', t1. split; [done|]. split; [done|]. assert (table_now d t1 s s') as Htn by (exists g; split; [done|]; congruence).
    split; [by apply (disk_ok_parts s s' d t t1)|]. split; [done|]. right. do 4 (split; [done|]). split; [by split; left|done]. }
  destruct (truthy err) eqn:Ee; [apply Hfail; try done; intros _ Hc; apply (Hc1 ltac:(unfold truthy in Ee; lia) g Hg Hc)|]. assert (err = 0) as -> by (unfold truthy in Ee; lia). specialize (Hlen eq_refl).
  set (g1 := set_gd_part_tbl (Some t1) g) in *. assert (bs_disks s1 !! d = Some g1) as Hg1 by (by rewrite D1, lookup_insert_eq).
  assert (gd_part_tbl g1 = Some t1) as Ht1 by (by destruct g). brun.
  destruct (lookup_lt_is_Some_2 (tb_part t1) (Z.to_nat partno) ltac:(lia)) as [old Hold].
  assert (entry_at t1 partno = Some old) as Hold' by (unfold entry_at; destruct (Z.ltb_spec partno 0); [lia|done]). brun.
  destruct (truthy old) eqn:Eo.
  { apply Hfail; try done. intros Hemp _ _. destruct Hgr as (k & Hk & _). rewrite Hk, lookup_app in Hold.
    destruct Hemp as [Hemp|Hemp]; rewrite Hemp in Hold; [injection Hold as <-; done|]. by apply lookup_replicate in Hold as [-> _]. }
  assert (old = 0) as -> by (unfold truthy in Eo; lia).
  destruct (blk_kzalloc_run s1) as (x & Hx & Hfresh). rewrite (bbind_run _ _ _ _ _ Hx). set (s2 := ticked s1). destruct (truthy x) eqn:Ex; cbn [negb].
  2:{ apply Hfail; try done. intros _ Hc _. apply (kzalloc_calm _ _ _ Hc Hx). unfold truthy in Ex. lia. }
 
  destruct Hfresh as (Hxp & Hxn & Hxd'); [unfold truthy in Ex; lia|]. rewrite P1 in Hxn. rewrite (bbind_run _ _ _ _ _ (tick_run s2)). set (s3 := ticked s2).
  destruct (init_part_stats (bs_tick s2)) eqn:Ei; cbn [negb]; [|apply Hfail; try done; intros _ Hc; by rewrite (calm_stats Hc) in Ei].
  assert (bs_parts s3 !! d = Some p0) as Hp3 by (cbn; by rewrite P1). brun. rewrite (bbind_run _ _ _ _ _ (tick_run s3)). set (s4 := ticked s3).
  destruct (bool_decide (is_Some info) && negb (alloc_part_info (bs_tick s3))) eqn:Einf;
    [apply Hfail; try done; intros _ Hc; by rewrite (calm_info Hc), andb_false_r in Einf|].
  set (q := Hd start len _ _ partno (hd_policy p0) info d 0 _ 0 1 false). rewrite (bbind_run _ _ _ () (set_bs_parts (<[x := q]> (bs_parts s4)) s4)) by done.
  set (s5 := set_bs_parts _ s4). assert (x ≠ d) as Hxd by (intros ->; congruence).
  assert (bs_parts s5 !! x = Some q) as Hq5 by (cbn; by rewrite lookup_insert_eq). assert (bs_disks s5 !! hd_disk q = Some g1) as Hg5 by exact Hg1.
  assert (range_ok g1) as Hrange1 by (by destruct g).
  destruct (alloc_devt_run s5 x q g1 Hq5 Hg5 Hrange1 ltac:(cbn; lia)) as (err & devt & s6 & Hrun6 & He6 & P6 & D6 & R6 & U6 & L6 & Hno & Hyes & Hown).
  rewrite (bbind_run _ _ _ _ _ Hrun6). destruct (truthy err) eqn:Ee6.
  { assert (bs_parts s6 !! x = Some q) as Hq6 by (by rewrite P6). unfold kfree_part.
    rewrite (bbind_run _ _ _ () (set_bs_parts (delete x (bs_parts s6)) s6)) by (by brun). apply Hfail; cbn; [done|exact D6|..].
    - rewrite P6. cbn. rewrite delete_insert_id; by rewrite P1.
    - rewrite Hno; [done|]. unfold truthy in Ee6. lia.
    - by rewrite U6.
    - by rewrite L6.
    - by rewrite R6.
    - intros _ _ (_ & Hm & _). rewrite Hown in Ee6; [done|]. cbn. by destruct g. }
  assert (err = 0) as -> by (unfold truthy in Ee6; lia). destruct (Hyes eq_refl) as (Hnum & Hwo & Hsub).
  assert (bs_parts s6 !! x = Some q) as Hq6 by (by rewrite P6). brun. set (q7 := set_hd_suppress true (set_hd_devt devt q)). set (s7 := set_bs_parts _ s6).
  assert (bs_parts s7 !! x = Some q7) as Hq7 by (cbn; by rewrite lookup_insert_eq).
  assert (bs_parts s7 !! d = Some p0) as Hd7 by (cbn; rewrite lookup_insert_ne by done; rewrite P6; cbn; rewrite lookup_insert_ne by done; by rewrite P1).
  destruct (add_device_run s7 d g1 t1 x q7 p0 flags) as (r & s8 & Hrun8 & R8 & Hcase); [cbn; by rewrite D6|done|done|done|done|done|done|done|done|].
  exists r, s8. destruct Hcase as [(-> & D8 & I8 & P8 & U8 & L8)|(Hneg & D8 & I8 & P8 & U8 & L8 & C8)].
  - assert (bs_disks s8 = <[d := set_gd_part_tbl (Some (set_entry partno x t1)) g]> (bs_disks s)) as D8'.
    { rewrite D8. cbn. rewrite D6. cbn. rewrite D1, insert_insert_eq. by destruct g. }
    assert (bs_parts s8 = <[x := new_part d partno start len info p0 devt]> (bs_parts s)) as P8'.
    { rewrite P8. cbn. rewrite insert_insert_eq, P6. cbn. by rewrite insert_insert_eq, P1. }
    exists (set_entry partno x t1). assert (entered t partno x (set_entry partno x t1)) as Hent by (exists t1; done).
    split; [exact Hrun8|]. split; [rewrite R8; cbn; by rewrite R6|]. split.
    + eapply (entered_ok s s8 d t _ partno x _ Hok Hent); try done; [lia|..]. eexists. rewrite D8', lookup_insert_eq. split; [done|by destruct g].
    + split; [by exists g|]. left. split; [done|]. split; [done|]. split; [done|]. split; [done|]. split.
      * exists devt. split; [done|]. rewrite I8. cbn. split; [done|]. split; [by rewrite Hwo|]. rewrite U8. cbn. rewrite U6. cbn. by rewrite U1.
      * split; [|rewrite L8; cbn; rewrite L6; cbn; by rewrite L1]. rewrite I8. cbn. etransitivity; [|exact Hsub]. cbn. by rewrite I1.
  - exists t1. split; [exact Hrun8|]. assert (bs_parts s8 = bs_parts s) as P8'.
    { rewrite P8. cbn. rewrite delete_insert_eq, P6. cbn. rewrite delete_insert_id; by rewrite P1. }
    assert (bs_disks s8 = bs_disks s1) as D8' by (rewrite D8; cbn; by rewrite D6).
    assert (table_now d t1 s s8) as Htn by (exists g; split; [done|]; by rewrite D8', D1).
    split; [rewrite R8; cbn; by rewrite R6|]. split; [by apply (disk_ok_parts s s8 d t t1)|]. split; [done|]. right. split; [lia|]. split; [done|]. split; [done|].
    assert (bs_idr s8 = bs_idr s) as I8' by (rewrite I8; cbn; by rewrite Hwo). split; [done|]. split; [|by intros _ Hc].
    assert (bs_uevents s7 = bs_uevents s ∧ bs_lost_ids s7 = bs_lost_ids s) as [U7 L7] by (cbn; rewrite U6, L6; cbn; by rewrite U1, L1). rewrite U7 in U8. rewrite L7 in L8. split.
    + destruct U8 as [->|(-> & Hf & Hff)]; [by left|right]. by eexists x, _.
    + unfold twice in L8. cbn [hd_devt q7 set_hd_suppress set_hd_devt] in L8, I8. destruct (MAJOR devt =? BLOCK_EXT_MAJOR) eqn:Ema; [right|left; by rewrite L8, app_nil_r].
      eexists. split; [exact L8|]. rewrite <- I8', I8. unfold without_number. rewrite Ema. apply lookup_delete_eq.
Qed.


(** When the device of a partition with an extended number cannot be added, the number is freed twice: by the release of the device, and again behind it. *)
Theorem failed_device_frees_number_twice s d x p partno flags :
  bs_parts s !! x = Some p → hd_refs p = 1 → hd_disk p ≠ x → has_number (bs_idr s) x (hd_devt p) → MAJOR (hd_devt p) = BLOCK_EXT_MAJOR → device_add (bs_tick s) ≠ 0 →
  ∃ s', add_device d x partno flags (hd_devt p) s = Some (device_add (bs_tick s), s') ∧ bs_lost_ids s' = bs_lost_ids s ++ [blk_mangle_minor (MINOR (hd_devt p))].
Proof.
  intros Hp Hr Hd Hn Hma Hf. unfold add_device. rewrite (bbind_run _ _ _ _ _ (tick_run s)). assert (truthy (device_add (bs_tick s)) = true) as -> by (unfold truthy; lia).
  destruct (out_put_run (ticked s) x p (device_add (bs_tick s)) Hp Hr Hd Hn) as (s' & Hrun & _ & _ & _ & _ & _ & HL). exists s'. split; [exact Hrun|].
  rewrite HL. unfold twice. by rewrite Hma, Z.eqb_refl.
Qed.

End Parts.
