(* ===== verification/DiskDrop.v ===== *)
(** * Block layer: dropping the partitions of a disk

    What the loop that deletes partitions leaves, and what the grace period does then; the number of partitions that
    a disk announces. *)
From stdpp Require Import gmap.
From S2P Require Import Prelude Text Majors DiskEvents DiskState DiskTable Partition Disk DiskSpec DiskParts.

Section Drop.
Context `{BlockApi} `{!BlockApiLaws} `{BlockCore} `{!BlockCoreLaws}.

(** ** Disks in order *)

Lemma disk_ok_there s d t : disk_ok s d t → entries_there s t.
Proof. intros Hok i x Hi Hx. destruct (dk_entry _ _ _ Hok i x Hi Hx) as (p & Hp & _). by eexists. Qed.

Lemma disk_ok_self s d t : disk_ok s d t → ∃ p0, bs_parts s !! d = Some p0 ∧ hd_partno p0 = 0 ∧ hd_disk p0 = d ∧ 1 ≤ hd_refs p0.
Proof.
  intros Hok. pose proof (dk_addr _ _ _ Hok). destruct (dk_entry _ _ _ Hok 0%nat d (dk_part0 _ _ _ Hok) ltac:(lia)) as (p0 & ? & ? & ? & ? & ?).
  exists p0. by repeat split.
Qed.

(** An entry knows its index. *)
Lemma entry_index s d t i j x : disk_ok s d t → x ≠ 0 → tb_part t !! i = Some x → tb_part t !! j = Some x → i = j.
Proof.
  intros Hok Hx Hi Hj. destruct (dk_entry _ _ _ Hok i x Hi Hx) as (p & Hp & Hpi & _). destruct (dk_entry _ _ _ Hok j x Hj Hx) as (q & Hq & Hqj & _).
  assert (p = q) as -> by congruence. lia.
Qed.

(** States that differ in the number of calls. *)
Definition quiet (s s' : blkstate) : Prop := ∃ n, s' = set_bs_tick n s.

Lemma blk_quiet_refl s : quiet s s.
Proof. exists (bs_tick s). by destruct s. Qed.
Lemma quiet_tick s : quiet s (ticked s).
Proof. by eexists. Qed.

Lemma quiet_ok s s' d t : quiet s s' → disk_ok s d t → disk_ok s' d t.
Proof. intros [n ->] [? ? ? ? ?]. by split. Qed.

Lemma bdget_run s d t : disk_ok s d t → ∃ ok s', bdget_disk d 0 s = Some (ok, s') ∧ quiet s s'.
Proof.
  intros Hok. destruct (dk_disk _ _ _ Hok) as (g & Hg & Ht). destruct (disk_ok_self _ _ _ Hok) as (p0 & Hp0 & _ & _ & Hr). pose proof (dk_addr _ _ _ Hok) as Ha.
  pose proof (dk_part0 _ _ _ Hok) as H0'. pose proof (lookup_lt_Some _ _ _ H0') as Hlt. unfold bdget_disk, disk_get_part. change (0 <? 0) with false. cbv iota.
  assert (disk_get_part d 0 s = Some (d, held d s)) as Hget.
  { unfold disk_get_part. change (0 <? 0) with false. cbv iota. brun. destruct (Z.ltb_spec 0 (zlen (tb_part t))); [|lia].
    assert (entry_at t 0 = Some d) as He by (by rewrite <- (entry_at_nat t 0) in H0'). brun. assert (truthy d = true) as -> by (unfold truthy; lia).
    by rewrite (bbind_run _ _ _ _ _ (get_device_run s d p0 Hp0)). }
  unfold disk_get_part in Hget. change (0 <? 0) with false in Hget. cbv iota in Hget. rewrite (bbind_run _ _ _ _ _ Hget). assert (truthy d = true) as -> by (unfold truthy; lia).
  rewrite (bbind_run _ _ _ (bdget (bs_tick (held d s))) (ticked (held d s))) by done. unfold disk_put_part. assert (truthy d = true) as -> by (unfold truthy; lia).
  change (ticked (held d s)) with (held d (ticked s)). rewrite (bbind_run _ _ _ _ _ (put_held (ticked s) d p0 Hp0 Hr)). eexists _, _. split; [done|]. apply quiet_tick.
Qed.

Lemma invalidate_run s d t : disk_ok s d t → ∃ r s', invalidate_partition d 0 s = Some (r, s') ∧ quiet s s' ∧ (r ≠ 0 → ∃ n, invalidate_device n ≠ 0).
Proof.
  intros Hok. destruct (bdget_run s d t Hok) as (ok & s1 & Hr & [n ->]). unfold invalidate_partition. rewrite (bbind_run _ _ _ _ _ Hr).
  destruct ok; [|eexists _, _; split; [done|split; [by exists n|done]]]. rewrite (bbind_run _ _ _ _ _ (tick_run _)). eexists _, _. split; [done|].
  split; [by exists (S n)|]. by eauto.
Qed.

(** ** Counting *)

Lemma count_run s d t :
  disk_ok s d t → for_each_part d no_flags (λ cnt _, mret (cnt + 1)) 0 s = Some (zlen (visible s no_flags 1 (drop 1 (tb_part t))), s).
Proof.
  intros Hok. destruct (dk_disk _ _ _ Hok) as (g & Hg & Ht). pose proof (lookup_lt_Some _ _ _ (dk_part0 _ _ _ Hok)) as Hlen.
  set (all := visible s no_flags 1 (drop 1 (tb_part t))).
  destruct (for_each_run d no_flags (λ cnt _, mret (cnt + 1)) (length (tb_part t)) eq_refl
    (λ i a s', s' = s ∧ (i ≤ length (tb_part t))%nat ∧ a + zlen (visible s no_flags i (drop i (tb_part t))) = zlen all)) with (s := s) (a := 0)
    as (a' & s' & i' & g' & t' & Hr & (-> & _ & Ha) & Hg' & Ht' & Hv).
  - intros i a s' (-> & Hi & _). exists g, t. do 3 (split; [done|]). split; [by eapply disk_ok_there|done].
  - intros i a s' g' t' j x rest (-> & Hi & Ha) Hg' Ht' Hv. assert (g' = g) as -> by congruence. assert (t' = t) as -> by congruence.
    rewrite Hv in Ha. apply visible_next in Hv as (Hj & Hl & Hs & Hrest). assert (x ≠ 0) as Hx by (intros ->; done).
    destruct (dk_entry _ _ _ Hok j x Hl Hx) as (p & Hp & _ & _ & Hr & _). exists (a + 1), s, p. split; [done|]. split; [|done]. split; [done|].
    split; [apply lookup_lt_Some in Hl; lia|]. rewrite Hrest. cbn [length] in Ha. lia.
  - split; [done|]. split; [cbn; lia|]. unfold all, first_index. cbn. lia.
  - rewrite Hr. assert (g' = g) as -> by congruence. assert (t' = t) as -> by congruence. rewrite Hv in Ha. cbn in Ha. do 2 f_equal. unfold all in *. lia.
Qed.

Lemma disk_uevent_run s d t p0 act :
  disk_ok s d t → bs_parts s !! d = Some p0 →
  disk_uevent act d s = Some ((), if hd_suppress p0 then s
    else set_bs_uevents (bs_uevents s ++ [Uev_disk act d (zlen (visible s no_flags 1 (drop 1 (tb_part t))))]) s).
Proof.
  intros Hok Hp0. unfold disk_uevent. brun. destruct (hd_suppress p0); [done|]. by rewrite (bbind_run _ _ _ _ _ (count_run s d t Hok)).
Qed.

(** The partitions announce themselves, in order. *)
Definition part_adds (s : blkstate) (l : list (nat * Z)) : list uevent :=
  flat_map (λ e, match bs_parts s !! e.2 with
                 | Some p => if hd_suppress p then [] else [Uev_part KOBJ_ADD e.2 (hd_partno p) (part_name p)]
                 | None => [] end) l.

Lemma announce_run s d t :
  disk_ok s d t →
  for_each_part d no_flags (λ _, part_uevent KOBJ_ADD) () s =
  Some ((), set_bs_uevents (bs_uevents s ++ part_adds s (visible s no_flags 1 (drop 1 (tb_part t)))) s).
Proof.
  intros Hok. destruct (dk_disk _ _ _ Hok) as (g & Hg & Ht). pose proof (lookup_lt_Some _ _ _ (dk_part0 _ _ _ Hok)) as Hlen.
  set (all := visible s no_flags 1 (drop 1 (tb_part t))).
  destruct (for_each_run d no_flags (λ _, part_uevent KOBJ_ADD) (length (tb_part t)) eq_refl
    (λ i _ s', (i ≤ length (tb_part t))%nat ∧ ∃ us, s' = set_bs_uevents us s ∧
       us ++ part_adds s (visible s no_flags i (drop i (tb_part t))) = bs_uevents s ++ part_adds s all)) with (s := s) (a := ())
    as ([] & s' & i' & g' & t' & Hr & (_ & us & -> & Hus) & Hg' & Ht' & Hv).
  - intros i a s' (Hi & us & -> & _). exists g, t. do 3 (split; [done|]). split; [exact (disk_ok_there s d t Hok)|done].
  - intros i a s' g' t' j x rest (Hi & us & -> & Hus) Hg' Ht' Hv. assert (g' = g) as -> by (cbn in Hg'; congruence). assert (t' = t) as -> by congruence.
    rewrite (visible_ext s (set_bs_uevents us s)) in Hv by done. rewrite Hv in Hus. apply visible_next in Hv as (Hj & Hl & Hs & Hrest).
    assert (x ≠ 0) as Hx by (intros ->; done). destruct (dk_entry _ _ _ Hok j x Hl Hx) as (p & Hp & _ & _ & Hr & _).
    exists (), (set_bs_uevents (us ++ part_adds s [(j, x)]) s), p. split; [|split; [|done]].
    + unfold part_uevent. assert (bs_parts (held x (set_bs_uevents us s)) !! x = Some (set_hd_refs (hd_refs p + 1) p)) as Hp' by (cbn; by rewrite lookup_alter_eq, Hp).
      brun. cbn [part_adds flat_map snd]. rewrite Hp, app_nil_r. cbn [hd_suppress set_hd_refs]. destruct (hd_suppress p); [by rewrite app_nil_r|done].
    + split; [apply lookup_lt_Some in Hl; lia|]. eexists. split; [done|]. rewrite Hrest, <- app_assoc, <- Hus. f_equal. cbn [part_adds flat_map]. by rewrite app_nil_r.
  - split; [cbn; lia|]. exists (bs_uevents s). split; [by destruct s|done].
  - rewrite Hr. assert (g' = g) as -> by (cbn in Hg'; congruence). assert (t' = t) as -> by congruence.
    rewrite (visible_ext s (set_bs_uevents us s)) in Hv by done. rewrite Hv in Hus. cbn in Hus. rewrite app_nil_r in Hus. by rewrite Hus.
Qed.

(** ** Deleting *)

(** The state behind the deletion of partition [x] at index [i]. *)
Definition deleted (s : blkstate) (d : Z) (g : gendisk) (t : disk_part_tbl) (i : nat) (x : Z) (p : hd_struct) : blkstate :=
  set_bs_uevents (bs_uevents s ++ removal x p) (set_bs_rcu (bs_rcu s ++ [x]) (set_bs_parts (<[x := set_hd_ref 0 p]> (bs_parts s))
    (set_bs_disks (<[d := set_gd_part_tbl (Some (PartTbl (<[i := 0]> (tb_part t)) 0)) g]> (bs_disks s)) s))).

(** What user space is told of partitions that are deleted. *)
Definition removals (s : blkstate) (D : list Z) : list uevent := flat_map (λ x, match bs_parts s !! x with Some p => removal x p | None => [] end) D.

Lemma removals_are s D : Forall is_removal (removals s D).
Proof. unfold removals. induction D as [|x D IH]; cbn; [constructor|]. apply Forall_app. split; [|done]. destruct (bs_parts s !! x); [apply removal_is|constructor]. Qed.

Lemma delete_held_run s d t g i x p :
  disk_ok s d t → bs_disks s !! d = Some g → tb_part t !! i = Some x → x ≠ 0 → bs_parts s !! x = Some p →
  (p ← part_at x; delete_partition d (hd_partno p)) (held x s) = Some ((), held x (deleted s d g t i x p)).
Proof.
  intros Hok Hg Hi Hx Hp. destruct (dk_disk _ _ _ Hok) as (g' & Hg' & Ht). assert (g' = g) as -> by congruence. clear Hg'.
  destruct (dk_entry _ _ _ Hok i x Hi Hx) as (p' & Hp' & Hpi & Hpd & Hr & Href). assert (p' = p) as -> by congruence. clear Hp'.
  set (p1 := set_hd_refs (hd_refs p + 1) p). assert (bs_parts (held x s) !! x = Some p1) as Hp1 by (cbn; by rewrite lookup_alter_eq, Hp). brun.
  unfold delete_partition. assert (bs_disks (held x s) !! d = Some g) as Hgh by done. brun. cbn [hd_partno set_hd_refs p1].
  pose proof (lookup_lt_Some _ _ _ Hi) as Hlt. destruct (Z.leb_spec (zlen (tb_part t)) (hd_partno p)); [lia|].
  assert (entry_at t (hd_partno p) = Some x) as He by (by rewrite Hpi, entry_at_nat). brun. assert (truthy x = true) as -> by (unfold truthy; lia). cbn [negb].
  rewrite (bbind_run _ _ _ _ _ (upd_tbl_run _ d g t _ Hgh Ht)). set (s2 := set_bs_disks _ (held x s)). set (g2 := set_gd_part_tbl (Some (set_entry (hd_partno p) 0 t)) g).
  assert (bs_disks s2 !! d = Some g2) as Hg2 by (cbn; by rewrite lookup_insert_eq). assert (gd_part_tbl g2 = Some (set_entry (hd_partno p) 0 t)) as Ht2 by (by destruct g).
  rewrite (bbind_run _ _ _ _ _ (upd_tbl_run s2 d g2 _ _ Hg2 Ht2)). set (s3 := set_bs_disks _ s2).
  assert (bs_parts s3 !! x = Some p1) as Hp3 by done. rewrite (bbind_run _ _ _ _ _ (removal_run s3 x p1 Hp3)). set (s4 := set_bs_uevents _ s3). unfold hd_struct_put.
  assert (bs_parts s4 !! x = Some p1) as Hp4 by done. brun. brun. cbn [hd_ref set_hd_refs p1]. rewrite Href. change (1 - 1 =? 0) with true. cbv iota.
  unfold delete_partition_async, bmod. do 2 f_equal. unfold held, deleted, s4, s3, s2, set_bs_rcu, set_bs_parts, set_bs_disks, set_bs_uevents. cbn. f_equal.
  - rewrite insert_insert_eq. unfold set_last_lookup, set_entry. cbn. by rewrite Hpi, Nat2Z.id.
  - apply map_eq. intros y. destruct (decide (y = x)) as [->|Hne].
    + rewrite lookup_insert_eq, lookup_alter_eq, lookup_insert_eq. done.
    + by rewrite lookup_insert_ne, !lookup_alter_ne, lookup_insert_ne.
Qed.

(** With empty partitions included, the iterator passes over nothing but empty entries. *)
Lemma visible_gap s t i j x rest k :
  entries_there s t → visible s incl_empty i (drop i (tb_part t)) = (j, x) :: rest → (i ≤ k < j)%nat → tb_part t !! k = Some 0.
Proof.
  intros He Hv Hk. pose proof (visible_next _ _ _ _ _ _ _ Hv) as (Hj & Hl & _). pose proof (lookup_lt_Some _ _ _ Hl) as Hlt.
  destruct (lookup_lt_is_Some_2 (tb_part t) k ltac:(lia)) as [y Hy]. destruct (decide (y = 0)) as [->|Hy0]; [done|]. exfalso.
  destruct (He k y Hy Hy0) as [p Hp]. assert ((k, y) ∈ visible s incl_empty i (drop i (tb_part t))) as Hin.
  { apply visible_elem. split; [lia|]. rewrite lookup_drop. split; [by replace (i + (k - i))%nat with k by lia|]. unfold shown. rewrite Hp. unfold truthy.
    destruct (Z.eqb_spec y 0); [done|]. cbn. by rewrite orb_true_r. }
  rewrite Hv in Hin. apply elem_of_cons in Hin as [[= -> ->]|Hin]; [lia|]. apply visible_next in Hv as (_ & _ & _ & Hrest). rewrite <- Hrest in Hin.
  apply visible_elem in Hin as [Hin _]. lia.
Qed.

Lemma visible_end s t i k x : entries_there s t → visible s incl_empty i (drop i (tb_part t)) = [] → (i ≤ k)%nat → tb_part t !! k = Some x → x = 0.
Proof.
  intros He Hv Hk Hx. destruct (decide (x = 0)) as [->|Hx0]; [done|]. exfalso. destruct (He k x Hx Hx0) as [p Hp].
  assert ((k, x) ∈ visible s incl_empty i (drop i (tb_part t))) as Hin; [|rewrite Hv in Hin; by apply not_elem_of_nil in Hin].
  apply visible_elem. split; [lia|]. rewrite lookup_drop. split; [by replace (i + (k - i))%nat with k by lia|]. unfold shown. rewrite Hp. unfold truthy.
  destruct (Z.eqb_spec x 0); [done|]. cbn. by rewrite orb_true_r.
Qed.

(** The partitions with an index from 1 to below [i] are deleted, [D] being those. *)
Record dropped (s : blkstate) (d : Z) (t : disk_part_tbl) (i : nat) (s' : blkstate) (t' : disk_part_tbl) (D : list Z) : Prop := {
  dr_ok : disk_ok s' d t';
  dr_table : table_now d t' s s';
  dr_entries k : tb_part t' !! k = if decide (1 ≤ k < i)%nat then tb_part t !! k ≫= (λ _, Some 0) else tb_part t !! k;
  dr_nodup : NoDup D;
  dr_list x : x ∈ D ↔ x ≠ 0 ∧ ∃ k, (1 ≤ k < i)%nat ∧ tb_part t !! k = Some x;
  dr_rcu : bs_rcu s' = bs_rcu s ++ D;
  dr_parts x : bs_parts s' !! x = if decide (x ∈ D) then set_hd_ref 0 <$> bs_parts s !! x else bs_parts s !! x;
  dr_rest : bs_idr s' = bs_idr s ∧ bs_uevents s' = bs_uevents s ++ removals s D ∧ bs_lost_ids s' = bs_lost_ids s }.

Lemma dropped_length s d t i s' t' D : dropped s d t i s' t' D → length (tb_part t') = length (tb_part t).
Proof.
  intros Hd. assert (∀ k, is_Some (tb_part t' !! k) ↔ is_Some (tb_part t !! k)) as Hk.
  { intros k. rewrite (dr_entries _ _ _ _ _ _ _ Hd). destruct (decide _); [|done]. destruct (tb_part t !! k); cbn; [split; by eauto|done]. }
  apply Nat.le_antisymm; apply Nat.nlt_ge; intros Hlt.
  - apply lookup_lt_is_Some in Hlt. apply Hk, lookup_lt_is_Some in Hlt. lia.
  - apply lookup_lt_is_Some in Hlt. apply Hk, lookup_lt_is_Some in Hlt. lia.
Qed.

Lemma dropped_step s d t i s' t' D g' j x rest p :
  dropped s d t i s' t' D → (1 ≤ i)%nat → bs_disks s' !! d = Some g' →
  visible s' incl_empty i (drop i (tb_part t')) = (j, x) :: rest → bs_parts s' !! x = Some p →
  dropped s d t (S j) (deleted s' d g' t' j x p) (PartTbl (<[j := 0]> (tb_part t')) 0) (D ++ [x]).
Proof.
  intros Hd Hi Hg' Hv Hp. pose proof (dropped_length _ _ _ _ _ _ _ Hd) as Hlen. pose proof (visible_gap s' t' i j x rest) as Hgap. destruct Hd as [Hok Htn He Hnd HD Hrcu Hparts (I & U & L)].
  specialize (Hgap) with (1 := disk_ok_there _ _ _ Hok) (2 := Hv). apply visible_next in Hv as (Hj & Hl & Hs & _). assert (x ≠ 0) as Hx by (intros ->; done).
  destruct (dk_entry _ _ _ Hok j x Hl Hx) as (p' & Hp' & Hpj & Hpd & Hr & Href). assert (p' = p) as -> by congruence. clear Hp'.
  assert (tb_part t !! j = Some x) as Hjt by (rewrite He, decide_False in Hl by lia; done). pose proof (lookup_lt_Some _ _ _ Hl) as Hjlt.
  assert (x ∉ D) as HxD.
  { intros Hin. apply HD in Hin as (_ & k & Hk & Hkx). assert (tb_part t' !! k = Some 0) as Hk0 by (by rewrite He, decide_True, Hkx).
    pose proof (Hparts x) as Hpx. rewrite decide_True in Hpx by (apply HD; split; [done|by exists k]). rewrite Hp in Hpx.
    destruct (bs_parts s !! x) as [q|]; [|done]. injection Hpx as ->. done. }
  assert (x ≠ d) as Hxd.
  { intros ->. assert (j = 0%nat) by (eapply (entry_index s' d t'); [done|done|exact Hl|apply (dk_part0 _ _ _ Hok)]). lia. }
  split; [split|..].
  - eexists. cbn. rewrite lookup_insert_eq. split; [done|by destruct g'].
  - apply (dk_addr _ _ _ Hok).
  - cbn [tb_part]. rewrite list_lookup_insert_ne by lia. apply (dk_part0 _ _ _ Hok).
  - intros k y Hk Hy. cbn [tb_part] in Hk. destruct (decide (k = j)) as [->|Hkj]; [rewrite list_lookup_insert_eq in Hk by done; congruence|].
    rewrite list_lookup_insert_ne in Hk by done. destruct (dk_entry _ _ _ Hok k y Hk Hy) as (q & Hq & Hrest). exists q. split; [|done]. cbn.
    rewrite lookup_insert_ne; [done|]. intros <-. destruct Hkj. by eapply (entry_index s' d t').
  - done.
  - destruct Htn as (g & Hg & Hgs). exists g. split; [done|]. cbn. rewrite Hgs in Hg' |- *. rewrite lookup_insert_eq in Hg'. injection Hg' as <-.
    rewrite insert_insert_eq. by destruct g.
  - intros k. cbn [tb_part]. destruct (decide (k = j)) as [->|Hkj].
    + rewrite list_lookup_insert_eq, decide_True, Hjt by lia. done.
    + rewrite list_lookup_insert_ne by done. destruct (decide (1 ≤ k < S j)%nat) as [Hk|Hk].
      * destruct (decide (k < i)%nat) as [Hki|Hki]; [by rewrite He, decide_True by lia|]. pose proof (Hgap k ltac:(lia)) as Hk0. rewrite Hk0.
        rewrite He, decide_False in Hk0 by lia. by rewrite Hk0.
      * rewrite He, decide_False by lia. done.
  - apply NoDup_app. split; [done|]. split; [by intros y Hy ->%list_elem_of_singleton|apply NoDup_singleton].
  - intros y. rewrite elem_of_app, list_elem_of_singleton, HD. split.
    + intros [(Hy & k & Hk & Hky)| ->]; [split; [done|]; exists k; split; [lia|done]|]. split; [done|]. exists j. split; [lia|done].
    + intros (Hy & k & Hk & Hky). destruct (decide (k = j)) as [->|]; [right; congruence|]. left. split; [done|]. exists k. split; [|done].
      destruct (decide (k < i)%nat); [lia|]. pose proof (Hgap k ltac:(lia)) as Hk0. rewrite He, decide_False in Hk0 by lia. congruence.
  - cbn. by rewrite Hrcu, app_assoc.
  - intros y. cbn. destruct (decide (y = x)) as [->|Hyx].
    + rewrite lookup_insert_eq, decide_True by (apply elem_of_app; right; by apply list_elem_of_singleton). rewrite Hparts, decide_False in Hp by done. by rewrite Hp.
    + rewrite lookup_insert_ne, Hparts by done. destruct (decide (y ∈ D)) as [Hy|Hy].
      * rewrite decide_True; [done|]. apply elem_of_app. by left.
      * rewrite decide_False; [done|]. intros [?|?%list_elem_of_singleton]%elem_of_app; done.
  - split; [done|]. split; [|done]. cbn. rewrite U. rewrite Hparts, decide_False in Hp by done. unfold removals. rewrite flat_map_app, app_assoc. cbn. by rewrite Hp, app_nil_r.
Qed.

(** All partitions but the disk's own are deleted. *)
Lemma drop_loop_run s d t :
  disk_ok s d t →
  ∃ s' t' D, for_each_part d incl_empty (λ _ x, p ← part_at x; delete_partition d (hd_partno p)) () s = Some ((), s') ∧
    dropped s d t (length (tb_part t)) s' t' D.
Proof.
  intros Hok. pose proof (lookup_lt_Some _ _ _ (dk_part0 _ _ _ Hok)) as Hlen.
  destruct (for_each_run d incl_empty (λ _ x, p ← part_at x; delete_partition d (hd_partno p)) (length (tb_part t)) eq_refl
    (λ i _ s', (1 ≤ i ≤ length (tb_part t))%nat ∧ ∃ t' D, dropped s d t i s' t' D)) with (s := s) (a := ())
    as ([] & s' & i' & g' & t1 & Hr & (Hi' & t' & D & Hd) & Hg' & Ht' & Hv).
  - intros i a s' (Hi & t' & D & Hd). pose proof (dropped_length _ _ _ _ _ _ _ Hd) as Hl. pose proof (dr_ok _ _ _ _ _ _ _ Hd) as Hok'.
    destruct (dk_disk _ _ _ Hok') as (g & Hg & Ht). exists g, t'. do 3 (split; [done|]). split; [by eapply disk_ok_there|lia].
  - intros i a s' g' t1 j x rest (Hi & t' & D & Hd) Hg' Ht1 Hv. pose proof (dr_ok _ _ _ _ _ _ _ Hd) as Hok'.
    destruct (dk_disk _ _ _ Hok') as (g2 & Hg2 & Ht2). assert (g2 = g') as -> by congruence. assert (t1 = t') as -> by congruence.
    pose proof (visible_next _ _ _ _ _ _ _ Hv) as (Hj & Hl & Hs & _). assert (x ≠ 0) as Hx by (intros ->; done).
    destruct (dk_entry _ _ _ Hok' j x Hl Hx) as (p & Hp & _ & _ & Hrf & _).
    exists (), (deleted s' d g' t' j x p), (set_hd_ref 0 p). split; [by eapply delete_held_run|]. split; [|split; [cbn; by rewrite lookup_insert_eq|done]].
    split; [apply lookup_lt_Some in Hl; rewrite (dropped_length _ _ _ _ _ _ _ Hd) in Hl; lia|]. eexists _, _. eapply dropped_step; [done|lia|done|done|done].
  - split; [cbn; lia|]. exists t, []. destruct (dk_disk _ _ _ Hok) as (g & Hg & Ht). cbn. split; try done.
    + apply table_now_refl. by exists g.
    + intros k. by rewrite decide_False by lia.
    + apply NoDup_nil_2.
    + intros x. rewrite elem_of_nil. split; [done|]. intros (_ & k & Hk & _). lia.
    + by rewrite app_nil_r.
    + split; [done|]. by rewrite app_nil_r.
  - exists s', t', D. split; [exact Hr|]. destruct Hd as [Hok' Htn He Hnd HD Hrcu Hparts Hrest].
    destruct (dk_disk _ _ _ Hok') as (g2 & Hg2 & Ht2). assert (g2 = g') as -> by congruence. assert (t1 = t') as -> by congruence.
    assert (∀ k x, (i' ≤ k)%nat → tb_part t !! k = Some x → x = 0) as Hend.
    { intros k x Hk Hx. eapply (visible_end s' t' i' k x); [by eapply disk_ok_there|done|done|]. by rewrite He, decide_False by lia. }
    split; try done.
    + intros k. rewrite He. destruct (decide (1 ≤ k < i')%nat), (decide (1 ≤ k < length (tb_part t))%nat) as [Hk|Hk]; try done; [lia|].
      destruct (tb_part t !! k) as [y|] eqn:Ey; [|done]. cbn. f_equal. apply (Hend k); [lia|done].
    + intros x. rewrite HD. split; intros (Hx & k & Hk & Hkx); (split; [done|]); exists k; (split; [|done]); [lia|].
      destruct (decide (k < i')%nat); [lia|]. destruct Hx. apply (Hend k); [lia|done].
Qed.

(** Some partitions are in use, or the disk's data cannot be thrown away: nothing is dropped.  Otherwise all are. *)
Lemma drop_partitions_run s d t cnt :
  disk_ok s d t →
  ∃ res s', drop_partitions d cnt s = Some (res, s') ∧
    (res ≠ 0 ∧ quiet s s' ∧ (cnt ≠ 0 ∨ ∃ n, invalidate_device n ≠ 0) ∨ res = 0 ∧ cnt = 0 ∧ ∃ t' D, dropped s d t (length (tb_part t)) s' t' D).
Proof.
  intros Hok. unfold drop_partitions. destruct (truthy cnt) eqn:Ec; [eexists _, s; split; [done|]; left; split; [done|]; split; [apply blk_quiet_refl|]; left; unfold truthy in Ec; lia|].
  destruct (invalidate_run s d t Hok) as (r & s1 & Hr & Hq & Hwhy). rewrite (bbind_run _ _ _ _ _ Hr). destruct (truthy r) eqn:Er.
  - assert (r ≠ 0) as Hr0 by (unfold truthy in Er; lia). exists r, s1. split; [done|]. left. split; [done|]. split; [done|]. right. by apply Hwhy.
  - pose proof (quiet_ok _ _ _ _ Hq Hok) as Hok1. destruct (drop_loop_run s1 d t Hok1) as (s' & t' & D & Hl & Hd). rewrite (bbind_run _ _ _ _ _ Hl).
    exists 0, s'. split; [done|]. right. split; [done|]. split; [unfold truthy in Ec; lia|]. exists t', D. destruct Hq as [n ->]. by destruct Hd.
Qed.

(** ** The grace period *)

(** What the callbacks of the partitions [D] find: no other references, and a number. *)
Definition releasable (s : blkstate) (x : Z) : Prop :=
  ∃ p, bs_parts s !! x = Some p ∧ hd_refs p = 1 ∧ hd_disk p ≠ x ∧ has_number (bs_idr s) x (hd_devt p).

(** The numbers left when those of [D] are freed. *)
Record numbers_freed (D : list Z) (s s' : blkstate) : Prop := {
  nf_less : bs_idr s' ⊆ bs_idr s;
  nf_others id y : bs_idr s !! id = Some y → y ∉ D → bs_idr s' !! id = Some y;
  nf_freed x p id : x ∈ D → bs_parts s !! x = Some p → 0 ≤ id < NR_EXT_DEVT → hd_devt p = MKDEV BLOCK_EXT_MAJOR (blk_mangle_minor id) → bs_idr s' !! id = None }.

Lemma callback_run s x :
  releasable s x → ∃ s', delete_partition_rcu_cb x s = Some ((), s') ∧ bs_parts s' = delete x (bs_parts s) ∧ bs_disks s' = bs_disks s ∧
    bs_rcu s' = bs_rcu s ∧ bs_uevents s' = bs_uevents s ∧ bs_lost_ids s' = bs_lost_ids s ∧ numbers_freed [x] s s'.
Proof.
  intros (p & Hp & Hr & Hd & Hn). unfold delete_partition_rcu_cb. brun. set (p1 := set_hd_start_sect 0 _). set (s1 := set_bs_parts _ s).
  assert (bs_parts s1 !! x = Some p1) as Hp1 by (cbn; by rewrite lookup_insert_eq).
  rewrite (put_last s1 x p1 Hp1 Hr Hd Hn). eexists. split; [done|]. cbn. split; [apply delete_insert_eq|]. do 4 (split; [done|]).
  unfold without_number. destruct Hn as [Hn|(id & Hid & Hdev & Hidr)].
  - destruct (Z.eqb_spec (MAJOR (hd_devt p)) BLOCK_EXT_MAJOR); [done|]. split; cbn; [done|done|].
    intros y q id ->%list_elem_of_singleton Hq Hid Hdq. assert (q = p) as -> by congruence. destruct (ext_devt id Hid) as (_ & Hma & _). rewrite <- Hdq in Hma. done.
  - destruct (ext_devt id Hid) as (_ & Hma & Hmi). rewrite Hdev, Hma, Z.eqb_refl, Hmi. split; cbn.
    + apply delete_subseteq.
    + intros id' y Hy Hyn. rewrite lookup_delete_ne; [done|]. intros <-. apply Hyn. apply list_elem_of_singleton. congruence.
    + intros y q id' ->%list_elem_of_singleton Hq Hid' Hdq. assert (q = p) as -> by congruence. destruct (ext_devt id' Hid') as (_ & _ & Hmi').
      rewrite <- Hdq, Hdev, Hmi in Hmi'. subst id'. apply lookup_delete_eq.
Qed.

Lemma releasable_keep s s' x y : x ≠ y → releasable s y → bs_parts s' = delete x (bs_parts s) → numbers_freed [x] s s' → releasable s' y.
Proof.
  intros Hxy (p & Hp & Hr & Hd & Hn) Hparts Hnf. exists p. rewrite Hparts, lookup_delete_ne by done. do 3 (split; [done|]).
  destruct Hn as [Hn|(id & Hid & Hdev & Hidr)]; [by left|right]. exists id. split; [done|]. split; [done|]. apply (nf_others _ _ _ Hnf _ _ Hidr).
  intros ->%list_elem_of_singleton. done.
Qed.

Lemma callbacks_run D : ∀ s,
  NoDup D → (∀ x, x ∈ D → releasable s x) →
  ∃ s', foldr (λ x k, _ ← delete_partition_rcu_cb x; k) (mret ()) D s = Some ((), s') ∧
    (∀ x, bs_parts s' !! x = if decide (x ∈ D) then None else bs_parts s !! x) ∧ bs_disks s' = bs_disks s ∧ bs_rcu s' = bs_rcu s ∧
    bs_uevents s' = bs_uevents s ∧ bs_lost_ids s' = bs_lost_ids s ∧ numbers_freed D s s'.
Proof.
  induction D as [|x D IH]; intros s Hnd HD; cbn [foldr].
  - exists s. split; [done|]. split; [intros x; by rewrite decide_False by apply not_elem_of_nil|]. do 4 (split; [done|]).
    split; [done|done|]. intros x p id ?%not_elem_of_nil. done.
  - apply NoDup_cons in Hnd as [Hx Hnd]. destruct (callback_run s x (HD x (list_elem_of_here _ _))) as (s1 & Hr1 & P1 & D1 & R1 & U1 & L1 & N1).
    rewrite (bbind_run _ _ _ _ _ Hr1). destruct (IH s1 Hnd) as (s' & Hr & P & Dk & R & U & L & N).
    { intros y Hy. eapply (releasable_keep s s1 x y); [congruence| |done|done]. apply HD. by apply list_elem_of_further. }
    exists s'. split; [done|]. split.
    + intros y. rewrite P, P1. destruct (decide (y ∈ D)) as [Hy|Hy]; [by rewrite decide_True by (by apply list_elem_of_further)|].
      destruct (decide (y = x)) as [->|Hne]; [by rewrite lookup_delete_eq, decide_True by apply list_elem_of_here|].
      rewrite lookup_delete_ne, decide_False; [done| |done]. intros [?|?]%elem_of_cons; done.
    + split; [congruence|]. split; [congruence|]. split; [congruence|]. split; [congruence|]. split.
      * etransitivity; [apply N|apply N1].
      * intros id y Hy Hn. apply N; [apply N1; [done|]|]; intros Hc; apply Hn; [apply list_elem_of_singleton in Hc as ->; apply list_elem_of_here|by apply list_elem_of_further].
      * intros y p id [->|Hy]%elem_of_cons Hp Hid Hdev.
        -- pose proof (nf_freed _ _ _ N1 x p id ltac:(by apply list_elem_of_singleton) Hp Hid Hdev) as Hnone.
           destruct (bs_idr s' !! id) as [z|] eqn:Ez; [|done]. pose proof (lookup_weaken _ _ _ _ Ez (nf_less _ _ _ N)). congruence.
        -- apply (nf_freed _ _ _ N y p id Hy); [|done|done]. rewrite P1, lookup_delete_ne; [done|]. congruence.
Qed.

(** Dropping the partitions of a disk that is not in use empties its table but for the disk itself; nobody else being left with a reference, the end of the grace period frees
    each dropped partition, once, with its device number, and no other partition. *)
Theorem dropped_partitions_are_freed s d t :
  disk_ok s d t → bs_rcu s = [] → (∀ i x, (1 ≤ i)%nat → tb_part t !! i = Some x → x ≠ 0 → releasable s x) →
  ∃ res s1, drop_partitions d 0 s = Some (res, s1) ∧
    (res = 0 → ∃ s2 t2 D, rcu_callbacks s1 = Some ((), s2) ∧ disk_ok s2 d t2 ∧
       (∀ i x, (1 ≤ i)%nat → tb_part t2 !! i = Some x → x = 0) ∧ length (tb_part t2) = length (tb_part t) ∧
       (∀ x, x ∈ D ↔ x ≠ 0 ∧ ∃ i, (1 ≤ i)%nat ∧ tb_part t !! i = Some x) ∧
       (∀ x, bs_parts s2 !! x = if decide (x ∈ D) then None else bs_parts s !! x) ∧ numbers_freed D s s2 ∧ bs_lost_ids s2 = bs_lost_ids s) ∧
    (res ≠ 0 → quiet s s1).
Proof.
  intros Hok Hrcu Hrel. destruct (drop_partitions_run s d t 0 Hok) as (res & s1 & Hr & Hcase). exists res, s1. split; [done|].
  destruct Hcase as [(Hne & Hq & _)|(-> & _ & t1 & D & Hd)]; [split; [done|done]|]. split; [|done]. intros _.
  pose proof (dropped_length _ _ _ _ _ _ _ Hd) as Hlen. destruct Hd as [Hok1 Htn He Hnd HD HR Hparts (HI & _ & HL)]. rewrite Hrcu in HR. cbn in HR.
  unfold rcu_callbacks. rewrite (bbind_run _ _ _ (bs_rcu s1) s1) by done. rewrite (bbind_run _ _ _ () (set_bs_rcu [] s1)) by done. rewrite HR.
  assert (∀ x, x ∈ D → releasable (set_bs_rcu [] s1) x) as Hrel1.
  { intros x Hx. pose proof Hx as (Hx0 & k & Hk & Hkx)%HD. destruct (Hrel k x ltac:(lia) Hkx Hx0) as (p & Hp & Hrf & Hdk & Hn).
    exists (set_hd_ref 0 p). cbn. rewrite Hparts, decide_True, Hp by done. cbn. by rewrite HI. }
  destruct (callbacks_run D (set_bs_rcu [] s1) Hnd Hrel1) as (s2 & Hr2 & P2 & D2 & _ & _ & L2 & [N1 N2 N3]). exists s2, t1, D. split; [done|].
  assert (∀ i x, tb_part t1 !! i = Some x → x ≠ 0 → x ∉ D) as Hkeep.
  { intros i x Hi Hx Hin. destruct (dk_entry _ _ _ Hok1 i x Hi Hx) as (p & Hp & _ & _ & _ & Href). rewrite Hparts, decide_True in Hp by done.
    destruct (bs_parts s !! x); [|done]. injection Hp as <-. done. }
  split; [|split; [|split; [done|split; [|split; [|split]]]]].
  - destruct Hok1 as [Hdk Ha H0' Hent Hlast]. split; [by rewrite D2|done|done| |done].
    intros i x Hi Hx. destruct (Hent i x Hi Hx) as (p & Hp & Hrest). exists p. split; [|done]. rewrite P2, decide_False by (by eapply Hkeep). done.
  - intros i x Hi Hx. pose proof (lookup_lt_Some _ _ _ Hx) as Hlt. rewrite He, decide_True in Hx by lia. destruct (tb_part t !! i); cbn in Hx; congruence.
  - intros x. rewrite HD. split; intros (Hx & k & Hk & Hkx); (split; [done|]); exists k; (split; [|done]); [lia|]. apply lookup_lt_Some in Hkx. lia.
  - intros x. rewrite P2. cbn. rewrite Hparts. by destruct (decide (x ∈ D)).
  - split; [by rewrite <- HI|by rewrite <- HI|]. intros x p id Hx Hp Hid Hdev. apply (N3 x (set_hd_ref 0 p) id Hx); [|done|done].
    cbn. by rewrite Hparts, decide_True, Hp.
  - by rewrite L2.
Qed.

End Drop.
