(* ===== verification/DiskScan.v ===== *)
(** * Block layer: scanning a disk

    What a scan makes of the table the parsers found, and that it ends. *)
From stdpp Require Import gmap.
From S2P Require Import Prelude Text Majors DiskEvents DiskState DiskTable Partition Disk DiskSpec DiskParts DiskDrop.

(** The entry of a table at an index, 0 behind its end. *)
Definition ent (t : disk_part_tbl) (i : nat) : Z := default 0 (tb_part t !! i).

(** A part that is entered on a disk of [cap] sectors, and the size it gets. *)
Definition wanted (cap : Z) (q : parsed_part) : bool := truthy (pp_size q) && (pp_from q <? cap).
Definition clipped (cap : Z) (q : parsed_part) : Z := if cap <? u64 (pp_from q + pp_size q) then cap - pp_from q else pp_size q.

Section Scan.
Context `{BlockApi} `{!BlockApiLaws} `{BlockCore} `{!BlockCoreLaws}.

Lemma grown_ent t t' i : grown t t' → ent t' i = ent t i.
Proof.
  intros (k & Hk & _). unfold ent. rewrite Hk, lookup_app. destruct (tb_part t !! i) as [x|]; [done|]. cbn.
  destruct (replicate k 0 !! (i - length (tb_part t))%nat) as [y|] eqn:E; [|done]. by apply lookup_replicate in E as [-> _].
Qed.

Lemma entered_ent t partno x t' i : entered t partno x t' → ent t' i = if decide (i = Z.to_nat partno) then x else ent t i.
Proof.
  intros (t1 & Hgr & Hz & ->). rewrite <- (grown_ent t t1 i Hgr). unfold ent, set_entry. cbn [tb_part]. pose proof (lookup_lt_Some _ _ _ Hz) as Hlt.
  destruct (decide (i = Z.to_nat partno)) as [->|Hne]; [by rewrite list_lookup_insert_eq|by rewrite list_lookup_insert_ne].
Qed.

Lemma entered_empty t partno x t' : entered t partno x t' → ent t (Z.to_nat partno) = 0.
Proof. intros (t1 & Hgr & Hz & _). rewrite <- (grown_ent t t1 _ Hgr). unfold ent. by rewrite Hz. Qed.

(** While a disk keeps its uevents back, nobody is told anything but that partitions went away, and that only for the reason [why]. *)
Definition silent (why : Prop) (d : Z) (s s' : blkstate) : Prop :=
  ∀ p0, bs_parts s !! d = Some p0 → hd_suppress p0 = true →
    (∃ us, bs_uevents s' = bs_uevents s ++ us ∧ Forall is_removal us ∧ (us ≠ [] → why)) ∧ ∃ p1, bs_parts s' !! d = Some p1 ∧ hd_suppress p1 = true.

Lemma silent_trans why d s s1 s2 : silent why d s s1 → silent why d s1 s2 → silent why d s s2.
Proof.
  intros H1' H2' p0 Hp0 Hs. destruct (H1' p0 Hp0 Hs) as ((us1 & E1 & F1 & W1) & p1 & Hp1 & Hs1). destruct (H2' p1 Hp1 Hs1) as ((us2 & E2 & F2 & W2) & Hrest).
  split; [|done]. exists (us1 ++ us2). rewrite E2, E1, app_assoc. split; [done|]. split; [by apply Forall_app|].
  destruct us1; [exact W2|]. intros _. by apply W1.
Qed.

Lemma silent_weaken (why why' : Prop) d s s' : (why → why') → silent why d s s' → silent why' d s s'.
Proof. intros Hw Hs p0 Hp0 Hsup. destruct (Hs p0 Hp0 Hsup) as ((us & E & F & W) & Hrest). split; [|done]. exists us. split; [done|]. split; [done|]. intros Hne. by apply Hw, W. Qed.

Lemma silent_keeps why d s s' :
  bs_uevents s' = bs_uevents s → (∀ p0, bs_parts s !! d = Some p0 → hd_suppress p0 = true → ∃ p1, bs_parts s' !! d = Some p1 ∧ hd_suppress p1 = true) → silent why d s s'.
Proof. intros HU HP p0 Hp0 Hs. split; [|by eapply HP]. exists []. by rewrite app_nil_r. Qed.

Lemma silent_same why d s s' : bs_uevents s' = bs_uevents s → bs_parts s' !! d = bs_parts s !! d → silent why d s s'.
Proof. intros HU HP. apply silent_keeps; [done|]. intros p0 Hp0 Hs. exists p0. by rewrite HP. Qed.

(** ** Enlarging the disk *)

Definition enlarged (g : gendisk) : Prop := unlock_native_capacity = None ∨ truthy (gd_flags g &&& GENHD_FL_NATIVE_CAPACITY) = true.

Lemma unlock_run s d t g :
  disk_ok s d t → bs_disks s !! d = Some g → range_ok g →
  ∃ u s', disk_unlock_native_capacity d s = Some (u, s') ∧
    (u = false ∧ s' = s ∧ enlarged g ∨ u = true ∧ ¬ enlarged g ∧ disk_ok s' d t ∧ (∀ why, silent why d s s') ∧ ∃ g', bs_disks s' !! d = Some g' ∧ range_ok g' ∧ enlarged g').
Proof.
  intros Hok Hg Hr. unfold disk_unlock_native_capacity. brun. unfold enlarged. destruct unlock_native_capacity as [f|]; [|exists false, s; split; [done|]; left; by repeat split; left].
  destruct (truthy (gd_flags g &&& GENHD_FL_NATIVE_CAPACITY)) eqn:Ef; [exists false, s; split; [done|]; left; by repeat split; right|].
  rewrite (bbind_run _ _ _ _ _ (tick_run s)). destruct (disk_ok_self _ _ _ Hok) as (p0 & Hp0 & Hn0 & Hd0 & Hr0). set (s1 := ticked s).
  assert (bs_parts s1 !! d = Some p0) as Hp1 by done.
  rewrite (bbind_run _ _ _ (hd_nr_sects p0) s1) by (unfold get_capacity; by brun). unfold set_capacity. brun. set (s2 := set_bs_parts _ s1).
  assert (bs_disks s2 !! d = Some g) as Hg2 by done. brun. eexists true, _. split; [reflexivity|]. right. split; [done|].
  split; [intros [?|?]; done|]. split.
  - destruct Hok as [(g' & Hg' & Ht) Ha H0' He Hl]. split; [|done|done| |done].
    + eexists. cbn. rewrite lookup_insert_eq. split; [done|]. assert (g' = g) as -> by congruence. by destruct g.
    + intros i x Hi Hx. destruct (He i x Hi Hx) as (q & Hq & Hrest). cbn. destruct (decide (x = d)) as [->|Hne].
      * exists (set_hd_nr_sects (f (bs_tick s) (hd_nr_sects p0)) q). rewrite lookup_insert_eq. assert (q = p0) as -> by congruence. by destruct p0.
      * exists q. by rewrite lookup_insert_ne.
  - split; [intros why; apply silent_keeps; [done|]; intros p1 Hp1' Hs; eexists; cbn; rewrite lookup_insert_eq; split; [done|]; assert (p1 = p0) as -> by congruence; by destruct p0|]. eexists. cbn. rewrite lookup_insert_eq. split; [done|]. split; [by destruct g|]. right. destruct g as [? ? ? ? fl ? ? ? ?]. cbn in *.
    rewrite Z.land_lor_distr_l, Z.land_diag, Z.lor_comm. unfold truthy. pose proof native_capacity_set as Hn.
    destruct (Z.eqb_spec (GENHD_FL_NATIVE_CAPACITY ||| fl &&& GENHD_FL_NATIVE_CAPACITY) 0) as [Hz|]; [|done]. apply Z.lor_eq_0_iff in Hz as [? _]. done.
Qed.

(** ** Adding the parsed partitions *)

(** What adding [parts] from number [p] on leaves, on a disk with [cap] sectors. *)
Record added (s : blkstate) (d : Z) (t : disk_part_tbl) (g : gendisk) (p : nat) (parts : list parsed_part) (cap : Z)
    (s' : blkstate) (t' : disk_part_tbl) : Prop := {
  ad_ok : disk_ok s' d t';
  ad_table : table_now d t' s s';
  ad_parts : bs_parts s ⊆ bs_parts s';
  ad_rcu : bs_rcu s' = bs_rcu s;
  ad_quiet : silent file_fails d s s';
  ad_other i : (i < p ∨ p + length parts ≤ i)%nat → ent t' i = ent t i;
  ad_new k q : parts !! k = Some q → ent t' (p + k) = ent t (p + k) ∨
    wanted cap q = true ∧ ∃ x, bs_parts s' !! ent t' (p + k) = Some x ∧ hd_start_sect x = pp_from q ∧ hd_nr_sects x = clipped cap q ∧ hd_suppress x = false ∧ hd_info x = Some (pp_info q);
  ad_all k q : calm → room_for g (Z.of_nat (p + k)) → parts !! k = Some q → wanted cap q = true → ent t (p + k) = 0 → ent t' (p + k) ≠ 0 }.

Lemma added_nil s d t g p cap : disk_ok s d t → bs_disks s !! d = Some g → added s d t g p [] cap s t.
Proof.
  intros Hok Hg. split; try done; [|by apply silent_same]. destruct (dk_disk _ _ _ Hok) as (g' & Hg' & Ht). apply table_now_refl. by exists g'.
Qed.

Lemma table_now_trans d t1 t2 s s1 s2 : table_now d t1 s s1 → table_now d t2 s1 s2 → table_now d t2 s s2.
Proof.
  intros (g & Hg & E1) (g1 & Hg1 & E2). exists g. split; [done|]. rewrite E2, E1, insert_insert_eq. rewrite E1, lookup_insert_eq in Hg1.
  injection Hg1 as <-. by destruct g.
Qed.

Lemma room_tbl g t k : room_for g k → room_for (set_gd_part_tbl t g) k.
Proof. intros (Ha & Hb & Hc). split; [done|]. split; [by destruct g|]. intros t'. specialize (Hc t'). by destruct g. Qed.

(** A part that is not entered changes nothing. *)
Lemma added_skip s d t g p q parts cap s' t' : wanted cap q = false → added s d t g (S p) parts cap s' t' → added s d t g p (q :: parts) cap s' t'.
Proof.
  intros Hw [Ho Ht Hp Hr Hq Hot Hn Ha]. split; try done.
  - intros i Hi. apply Hot. cbn [length] in Hi. lia.
  - intros [|k] q'; cbn [lookup list_lookup]; [intros _; left; apply Hot; lia|]. replace (p + S k)%nat with (S p + k)%nat by lia. apply Hn.
  - intros [|k] q' Hc Hro; [intros [= ->]; congruence|]. replace (p + S k)%nat with (S p + k)%nat in * by lia. by apply Ha.
Qed.

(** A part that is tried: what [add_partition] does, then the others. *)
Lemma added_cons s d t g p q parts cap s1 t1 r s' t' :
  disk_ok s d t → bs_disks s !! d = Some g → wanted cap q = true → table_now d t1 s s1 → bs_rcu s1 = bs_rcu s → bs_parts s ⊆ bs_parts s1 →
  silent file_fails d s s1 →
  (0 < r ∧ entered t (Z.of_nat p) r t1 ∧ (∃ x, bs_parts s1 !! r = Some x ∧ hd_start_sect x = pp_from q ∧ hd_nr_sects x = clipped cap q ∧ hd_suppress x = false ∧ hd_info x = Some (pp_info q)) ∨
   grown t t1 ∧ (ent t p = 0 → calm → ¬ room_for g (Z.of_nat p))) →
  added s1 d t1 (set_gd_part_tbl (Some t1) g) (S p) parts cap s' t' → added s d t g p (q :: parts) cap s' t'.
Proof.
  intros Hok Hg Hw Htn Hrcu Hsub Hquiet Hcase [Ho Ht Hp Hr Hq Hot Hn Ha].
  assert (∀ i, i ≠ p → ent t1 i = ent t i) as Hoth.
  { intros i Hi. destruct Hcase as [(_ & He & _)|[He _]]; [|by apply grown_ent]. rewrite (entered_ent _ _ _ _ i He), decide_False by lia. done. }
  split; [done|by eapply table_now_trans|by etransitivity|congruence|by eapply silent_trans|..].
  - intros i Hi. cbn [length] in Hi. rewrite Hot by lia. apply Hoth. lia.
  - intros [|k] q'; cbn [lookup list_lookup].
    + intros [= <-]. rewrite Nat.add_0_r, Hot by lia. destruct Hcase as [(Hpos & He & x & Hx & Hx1 & Hx2 & Hx3 & Hx4)|[He _]]; [|left; by apply grown_ent].
      right. split; [done|]. rewrite (entered_ent _ _ _ _ p He), decide_True by lia. exists x. split; [by eapply lookup_weaken|done].
    + replace (p + S k)%nat with (S p + k)%nat by lia. intros Hk. rewrite <- (Hoth (S p + k)%nat) by lia. by apply Hn.
  - intros [|k] q' Hc Hro; cbn [lookup list_lookup].
    + intros [= <-] _ Hz. rewrite Nat.add_0_r in *. rewrite Hot by lia. destruct Hcase as [(Hpos & He & _)|[_ He]]; [|by destruct (He Hz Hc Hro)].
      rewrite (entered_ent _ _ _ _ p He), decide_True by lia. lia.
    + replace (p + S k)%nat with (S p + k)%nat in * by lia. intros Hk Hw' Hz. apply (Ha k q' Hc); [by apply room_tbl|done|done|]. by rewrite Hoth by lia.
Qed.

Lemma add_parts_run parts : ∀ s d t g p p0,
  disk_ok s d t → bs_disks s !! d = Some g → range_ok g → bs_parts s !! d = Some p0 → Z.of_nat p + zlen parts ≤ 2 ^ 31 →
  ∃ again s', add_parts d (Z.of_nat p) parts s = Some (again, s') ∧
    (again = false ∧ (∃ t', added s d t g p parts (hd_nr_sects p0) s' t') ∨
     again = true ∧ ¬ enlarged g ∧ silent file_fails d s s' ∧ ∃ t' g', disk_ok s' d t' ∧ bs_disks s' !! d = Some g' ∧ range_ok g' ∧ enlarged g').
Proof.
  induction parts as [|q parts IH]; intros s d t g p p0 Hok Hg Hr Hp0 Hlen; cbn [add_parts].
  { exists false, s. split; [done|]. left. split; [done|]. exists t. by apply added_nil. }
  replace (Z.of_nat p + 1) with (Z.of_nat (S p)) by lia. cbn [length] in Hlen.
  assert (wanted (hd_nr_sects p0) q = false → ∃ again s', add_parts d (Z.of_nat (S p)) parts s = Some (again, s') ∧
    (again = false ∧ (∃ t', added s d t g p (q :: parts) (hd_nr_sects p0) s' t') ∨
     again = true ∧ ¬ enlarged g ∧ silent file_fails d s s' ∧ ∃ t' g', disk_ok s' d t' ∧ bs_disks s' !! d = Some g' ∧ range_ok g' ∧ enlarged g')) as Hskip.
  { intros Hw. destruct (IH s d t g (S p) p0 Hok Hg Hr Hp0 ltac:(lia)) as (again & s' & Hrun & [(-> & t' & Ha)|Hb]).
    - exists false, s'. split; [done|]. left. split; [done|]. exists t'. by apply added_skip.
    - exists again, s'. split; [done|]. by right. }
  unfold wanted in Hskip. destruct (truthy (pp_size q)) eqn:Es; cbn [negb]; [|by apply Hskip].
  rewrite (bbind_run _ _ _ (hd_nr_sects p0) s) by (unfold get_capacity; by brun). destruct (Z.leb_spec (hd_nr_sects p0) (pp_from q)) as [Hge|Hlt].
  { destruct (unlock_run s d t g Hok Hg Hr) as (u & s1 & Hu & [(-> & -> & _)|(-> & Hne & Hok1 & Hsil & g' & Hg' & Hr' & He')]); rewrite (bbind_run _ _ _ _ _ Hu).
    - apply Hskip. cbn. lia.
    - exists true, s1. split; [done|]. right. split; [done|]. split; [done|]. split; [done|]. by exists t, g'. }
  assert (∃ u s1, (if hd_nr_sects p0 <? u64 (pp_from q + pp_size q) then disk_unlock_native_capacity d else mret false) s = Some (u, s1) ∧
    (u = false ∧ s1 = s ∨ u = true ∧ ¬ enlarged g ∧ disk_ok s1 d t ∧ (∀ why, silent why d s s1) ∧ ∃ g', bs_disks s1 !! d = Some g' ∧ range_ok g' ∧ enlarged g')) as (u & s1 & Hu & Hcase).
  { destruct (hd_nr_sects p0 <? u64 (pp_from q + pp_size q)); [|exists false, s; split; [done|by left]]. destruct (unlock_run s d t g Hok Hg Hr) as (u & s1 & Hu & [(-> & -> & _)|Hb]).
    - exists false, s. split; [done|by left].
    - exists u, s1. split; [done|by right]. }
  rewrite (bbind_run _ _ _ _ _ Hu). destruct Hcase as [[-> ->]|(-> & Hne & Hok1 & Hsil & g' & Hg' & Hr' & He')].
  2:{ exists true, s1. split; [done|]. right. split; [done|]. split; [done|]. split; [done|]. by exists t, g'. }
  destruct (add_partition_run s d t g p0 (Z.of_nat p) (pp_from q) (clipped (hd_nr_sects p0) q) (pp_flags q) (Some (pp_info q)) Hok Hg Hr Hp0 ltac:(lia))
    as (r & s1 & t1 & Hrun & R1 & Hok1 & Htn & Hres).
  unfold clipped in Hrun. rewrite (bbind_run _ _ _ _ _ Hrun). pose proof Htn as (g1 & Hg1 & E1). assert (g1 = g) as -> by congruence.
  assert (bs_disks s1 !! d = Some (set_gd_part_tbl (Some t1) g)) as Hg2 by (by rewrite E1, lookup_insert_eq).
  assert (bs_parts s1 !! d = Some p0 ∧ bs_parts s ⊆ bs_parts s1 ∧ silent file_fails d s s1) as (Hp1 & Hsub & Hquiet).
  { destruct Hres as [(Hpos & Hnew & Hrd & _ & (devt & HP & _ & _ & HU) & _)|(_ & _ & HP & _ & [HU _] & _)].
    - rewrite HP. split; [by rewrite lookup_insert_ne|]. split; [by apply insert_subseteq|]. intros p1 Hp1 Hs. assert (p1 = p0) as -> by congruence.
      split; [exists []; rewrite HU; unfold add_events_of; by rewrite Hs|]. exists p0. split; [|done]. by rewrite HP, lookup_insert_ne.
    - rewrite HP. split; [done|]. split; [done|]. destruct HU as [HU|(x & name & HU & _ & Hf)]; [by apply silent_same; [|rewrite HP]|].
      intros p1 Hp1 Hs. split; [|exists p1; by rewrite HP]. eexists. split; [exact HU|]. split; [repeat constructor; by eexists _, _, _|done]. }
  destruct (IH s1 d t1 _ (S p) p0 Hok1 Hg2 ltac:(by destruct g) Hp1 ltac:(lia)) as (again & s' & Hrun' & [(-> & t' & Ha)|Hb]).
  2:{ exists again, s'. split; [done|]. right. destruct Hb as (-> & Hne & Hsil & t' & g' & Hrest). split; [done|]. split; [by destruct g|]. split; [by eapply silent_trans|by exists t', g']. }
  exists false, s'. split; [done|]. left. split; [done|]. exists t'. eapply (added_cons s d t g p q parts _ s1 t1 r s' t'); try done.
  - unfold wanted. rewrite Es. cbn. lia.
  - destruct Hres as [(Hpos & Hnew & Hrd & Hent & (devt & HP & _) & _)|(_ & Hgr & _ & _ & _ & Hc)].
    + left. split; [done|]. split; [done|]. eexists. rewrite HP, lookup_insert_eq. split; [done|]. done.
    + right. split; [done|]. intros Hz. apply Hc. unfold ent in Hz. rewrite Nat2Z.id. destruct (tb_part t !! p); cbn in Hz; [left; congruence|by right].
Qed.

(** ** The scan *)

(** A table with the disk's own partition only. *)
Definition emptied (t : disk_part_tbl) : Prop := ∀ i, (1 ≤ i)%nat → ent t i = 0.

Lemma dropped_emptied s d t s' t' D : dropped s d t (length (tb_part t)) s' t' D → emptied t'.
Proof.
  intros Hd i Hi. unfold ent. rewrite (dr_entries _ _ _ _ _ _ _ Hd). destruct (tb_part t !! i) as [x|] eqn:E; [|by destruct (decide _)].
  rewrite decide_True; [done|]. apply lookup_lt_Some in E. lia.
Qed.

Lemma dropped_self s d t i s' t' D : disk_ok s d t → dropped s d t i s' t' D → bs_parts s' !! d = bs_parts s !! d.
Proof.
  intros Hok Hd. rewrite (dr_parts _ _ _ _ _ _ _ Hd), decide_False; [done|]. intros (Hz & k & Hk & Hkx)%(dr_list _ _ _ _ _ _ _ Hd).
  assert (k = 0%nat) by (eapply (entry_index s d t); [done|done|exact Hkx|apply (dk_part0 _ _ _ Hok)]). lia.
Qed.

Lemma dropped_silent s d t s' t' D : disk_ok s d t → dropped s d t (length (tb_part t)) s' t' D → silent (¬ emptied t ∨ file_fails) d s s'.
Proof.
  intros Hok Hd p0 Hp0 Hs. rewrite (dropped_self _ _ _ _ _ _ _ Hok Hd). split; [|by exists p0]. exists (removals s D). destruct (dr_rest _ _ _ _ _ _ _ Hd) as (_ & HU & _).
  split; [done|]. split; [apply removals_are|]. intros Hne. left. intros Hem. apply Hne. destruct D as [|x D]; [done|]. exfalso.
  destruct (proj1 (dr_list _ _ _ _ _ _ _ Hd x) (list_elem_of_here _ _)) as (Hx & k & Hk & Hkx). apply Hx. specialize (Hem k ltac:(lia)). unfold ent in Hem. by rewrite Hkx in Hem.
Qed.

(** A new size for the disk. *)
Lemma resize_ok s d t p0 n : disk_ok s d t → bs_parts s !! d = Some p0 → disk_ok (set_bs_parts (<[d := set_hd_nr_sects n p0]> (bs_parts s)) s) d t.
Proof.
  intros [Hd Ha H0' He Hl] Hp0. split; [done|done|done| |done]. intros i x Hi Hx. destruct (He i x Hi Hx) as (q & Hq & Hrest). cbn.
  destruct (decide (x = d)) as [->|Hne]; [|exists q; by rewrite lookup_insert_ne]. exists (set_hd_nr_sects n q). rewrite lookup_insert_eq.
  assert (q = p0) as -> by congruence. by destruct p0.
Qed.

(** The size that the driver of a disk finds, if it looks. *)
Definition resized (p0 p1 : hd_struct) : Prop := match revalidate_disk with Some f => ∃ n, hd_nr_sects p1 = f n (hd_nr_sects p0) | None => p1 = p0 end.

Lemma revalidate_run s d t p0 :
  disk_ok s d t → bs_parts s !! d = Some p0 →
  ∃ s' p1, match revalidate_disk with Some f => t ← tick; n ← get_capacity d; set_capacity d (f t n) | None => mret () end s = Some ((), s') ∧
    disk_ok s' d t ∧ bs_disks s' = bs_disks s ∧ bs_parts s' !! d = Some p1 ∧ (∀ why, silent why d s s') ∧ resized p0 p1.
Proof.
  intros Hok Hp0. unfold resized. destruct revalidate_disk as [f|]; [|exists s, p0; do 4 (split; [done|]); split; [intros why; by apply silent_same|done]]. rewrite (bbind_run _ _ _ _ _ (tick_run s)). set (s1 := ticked s).
  assert (bs_parts s1 !! d = Some p0) as Hp1 by done. rewrite (bbind_run _ _ _ (hd_nr_sects p0) s1) by (unfold get_capacity; by brun).
  unfold set_capacity. rewrite (upd_part_run _ _ p0) by done. eexists _, _. split; [reflexivity|]. split; [apply resize_ok; [|done]; by apply (quiet_ok s), Hok; apply quiet_tick|].
  cbn. rewrite lookup_insert_eq. do 2 (split; [done|]). split; [|by eexists]. intros why. apply silent_keeps; [done|]. intros p2 Hp2 Hs. eexists. cbn. rewrite lookup_insert_eq. split; [done|]. by assert (p2 = p0) as -> by congruence.
Qed.

(** How one round of a scan ends: refused, with an empty table, at the start again with the disk enlarged, or with
    the parts the parsers found. *)
Inductive scan_round (why : Prop) (s : blkstate) (d : Z) (g : gendisk) (p0 : hd_struct) (cnt : Z) (inv : bool) (again : BM (Z * bool)) (o : option ((Z * bool) * blkstate)) : Prop :=
| round_refused res s1 :
    o = Some ((res, inv), s1) → res ≠ 0 → quiet s s1 → (cnt ≠ 0 ∨ ∃ n, invalidate_device n ≠ 0) → scan_round why s d g p0 cnt inv again o
| round_empty res s1 t1 p1 :
    o = Some ((res, false), s1) → disk_ok s1 d t1 → emptied t1 → silent why d s s1 → bs_parts s1 !! d = Some p1 → resized p0 p1 →
    (hd_nr_sects p1 = 0 ∨ ∃ n, ∀ parts b, check_partition n d ≠ State parts b) → scan_round why s d g p0 cnt inv again o
| round_again s1 t1 g1 :
    o = again s1 → disk_ok s1 d t1 → silent why d s s1 → bs_disks s1 !! d = Some g1 → range_ok g1 → enlarged g1 → ¬ enlarged g → scan_round why s d g p0 cnt inv again o
| round_done s1 t1 p1 n parts b s2 t2 :
    o = Some ((0, false), s2) → disk_ok s1 d t1 → emptied t1 → bs_disks s1 !! d = Some (set_gd_part_tbl (Some t1) g) → bs_parts s1 !! d = Some p1 →
    resized p0 p1 → silent why d s s1 →
    check_partition n d = State parts b → added s1 d t1 (set_gd_part_tbl (Some t1) g) 1 (drop 1 parts) (hd_nr_sects p1) s2 t2 →
    scan_round why s d g p0 cnt inv again o.

(** Before the parts are added: user space is told, and the table grown to the highest number; none of it matters to the table. *)
Lemma before_add_run s d t g p0 h :
  disk_ok s d t → emptied t → bs_disks s !! d = Some g → bs_parts s !! d = Some p0 → 0 ≤ h < 2 ^ 31 →
  ∃ s1 t1, (_ ← disk_uevent KOBJ_CHANGE d; disk_expand_part_tbl d h) s = Some s1 ∧ disk_ok s1.2 d t1 ∧ emptied t1 ∧
    bs_disks s1.2 !! d = Some (set_gd_part_tbl (Some t1) g) ∧ bs_parts s1.2 !! d = Some p0 ∧ ∀ why, silent why d s s1.2.
Proof.
  intros Hok Hem Hg Hp0 Hh. rewrite (bbind_run _ _ _ _ _ (disk_uevent_run s d t p0 KOBJ_CHANGE Hok Hp0)). set (s1 := if hd_suppress p0 then s else _).
  assert (disk_ok s1 d t ∧ bs_disks s1 = bs_disks s ∧ bs_parts s1 = bs_parts s ∧ ∀ why, silent why d s s1) as (Hok1 & D1 & P1 & U1).
  { unfold s1. destruct (hd_suppress p0) eqn:Es; [do 3 (split; [done|]); intros why; by apply silent_same|]. destruct Hok as [? ? ? ? ?]. do 3 (split; [done|]). intros why p1 Hp1 Hs. congruence. }
  destruct (expand_run s1 d t h Hok1 Hh) as (err & s2 & t2 & Hr & _ & Hgr & Htn & [P2 _ _ U2] & _). exists (err, s2), t2. split; [done|]. cbn [snd].
  split; [by apply (disk_ok_parts s1 s2 d t t2)|]. split; [intros i Hi; rewrite (grown_ent t t2 i Hgr); by apply Hem|].
  destruct Htn as (g' & Hg' & E2). rewrite D1 in Hg'. assert (g' = g) as -> by congruence. rewrite E2, lookup_insert_eq. split; [done|].
  rewrite P2, P1. split; [done|]. intros why. eapply silent_trans; [apply U1|]. apply silent_same; congruence.
Qed.

Lemma highest_range l : ∀ p h, 0 ≤ h ≤ p → 0 ≤ highest p l h ≤ p + zlen l.
Proof.
  induction l as [|q l IH]; intros p h Hh; cbn [highest length]; [lia|]. specialize (IH (p + 1) (if truthy (pp_size q) then p else h)). destruct (truthy _); lia.
Qed.

(** The parsers find no more parts than there are numbers. *)
Definition parser_ok (d : Z) : Prop := ∀ n parts b, check_partition n d = State parts b → zlen parts < 2 ^ 31.

(** From the parsed table on. *)
Lemma parts_round (why : Prop) s s1 d t1 g p0 p1 cnt inv again n parts b :
  disk_ok s1 d t1 → emptied t1 → bs_disks s1 !! d = Some (set_gd_part_tbl (Some t1) g) → range_ok g → bs_parts s1 !! d = Some p1 →
  resized p0 p1 → (file_fails → why) → silent why d s s1 →
  check_partition n d = State parts b → zlen parts < 2 ^ 31 →
  scan_round why s d g p0 cnt inv again
    ((_ ← disk_uevent KOBJ_CHANGE d; _ ← disk_expand_part_tbl d (highest 1 (drop 1 parts) 0);
      u ← add_parts d 1 (drop 1 parts); if (u : bool) then again else mret (0, false)) s1).
Proof.
  intros Hok Hem Hg Hr Hp1 Hrev Hwhy Hquiet Hchk Hlen. assert (zlen (drop 1 parts) ≤ zlen parts - 1 ∨ parts = []) as Hdl.
  { destruct parts as [|q parts]; [by right|left]. change (drop 1 (q :: parts)) with (drop 0 parts). rewrite drop_0. cbn [length]. lia. }
  assert (0 ≤ highest 1 (drop 1 parts) 0 < 2 ^ 31) as Hh.
  { pose proof (highest_range (drop 1 parts) 1 0 ltac:(lia)). destruct Hdl as [?| ->]; [lia|cbn; lia]. }
  destruct (before_add_run s1 d t1 _ p1 _ Hok Hem Hg Hp1 Hh) as ([err s2] & t2 & Hrun & Hok2 & Hem2 & Hg2 & Hp2 & Hq2). cbn [snd] in *.
  assert (∀ k : Z → BM (Z * bool), (_ ← disk_uevent KOBJ_CHANGE d; e ← disk_expand_part_tbl d (highest 1 (drop 1 parts) 0); k e) s1 = k err s2) as Hk.
  { intros k. apply bbind_inv in Hrun as (u & s3 & E1 & E2). by rewrite (bbind_run _ _ _ _ _ E1), (bbind_run _ _ _ _ _ E2). }
  rewrite (Hk (λ _, u ← add_parts d 1 (drop 1 parts); if (u : bool) then again else mret (0, false))).
  assert (set_gd_part_tbl (Some t2) (set_gd_part_tbl (Some t1) g) = set_gd_part_tbl (Some t2) g) as Hgg by (by destruct g). rewrite Hgg in Hg2.
  destruct (add_parts_run (drop 1 parts) s2 d t2 _ 1 p1 Hok2 Hg2 ltac:(by destruct g) Hp2) as (u & s3 & Hadd & Hcase).
  { destruct Hdl as [?| ->]; cbn [length drop]; lia. }
  change (Z.of_nat 1) with 1 in Hadd. rewrite (bbind_run _ _ _ _ _ Hadd). destruct Hcase as [(-> & t3 & Ha)|(-> & Hne & Hs3 & t3 & g3 & Hok3 & Hg3 & Hr3 & He3)].
  - eapply (round_done why s d g p0 cnt inv again _ s2 t2 p1 n parts b s3 t3); try done. by eapply silent_trans.
  - eapply (round_again why s d g p0 cnt inv again _ s3 t3 g3); try done. eapply silent_trans; [done|]. eapply silent_trans; [apply Hq2|]. by eapply silent_weaken.
Qed.

Lemma rescan_round restarts s d t g p0 cnt inv :
  disk_ok s d t → bs_disks s !! d = Some g → range_ok g → bs_parts s !! d = Some p0 → parser_ok d →
  scan_round (¬ emptied t ∨ file_fails) s d g p0 cnt inv (match restarts with O => bfault | S r => rescan r d cnt false end) (rescan restarts d cnt inv s).
Proof.
  intros Hok Hg Hr Hp0 Hparse. set (again := match restarts with O => bfault | S r => rescan r d cnt false end).
  destruct (drop_partitions_run s d t cnt Hok) as (res & s1 & Hdrop & Hcase).
  assert (∀ k : Z → BM (Z * bool), (res ← drop_partitions d cnt; k res) s = k res s1) as Hk by (intros k; by rewrite (bbind_run _ _ _ _ _ Hdrop)).
  destruct restarts as [|r]; cbn [rescan]; fold again; rewrite Hk; clear Hk.
  all: destruct Hcase as [(Hne & Hq & Hwhy)|(-> & Hcnt & t1 & D & Hd)].
  1,3: assert (truthy res = true) as -> by (unfold truthy; lia); by eapply round_refused.
  all: change (truthy 0) with false; cbv iota.
  all: pose proof (dr_ok _ _ _ _ _ _ _ Hd) as Hok1; pose proof (dropped_emptied _ _ _ _ _ _ Hd) as Hem; pose proof (dropped_self _ _ _ _ _ _ _ Hok Hd) as Hself.
  all: pose proof (dropped_silent _ _ _ _ _ _ Hok Hd) as Hs1; rewrite Hp0 in Hself; destruct (dr_table _ _ _ _ _ _ _ Hd) as (g' & Hg' & E1).
  all: assert (g' = g) as -> by congruence; assert (bs_disks s1 !! d = Some (set_gd_part_tbl (Some t1) g)) as Hg1 by (by rewrite E1, lookup_insert_eq).
  all: destruct (revalidate_run s1 d t1 p0 Hok1 Hself) as (s2 & p1 & Hrev & Hok2 & D2 & Hp1 & Hs2 & Hsame); rewrite (bbind_run _ _ _ _ _ Hrev); pose proof (silent_trans _ _ _ _ _ Hs1 (Hs2 _)) as Hs12.
  all: rewrite (bbind_run _ _ _ (hd_nr_sects p1) s2) by (unfold get_capacity; by brun).
  all: destruct (truthy (hd_nr_sects p1)) eqn:Ec; cbn [negb]; [|eapply (round_empty _ _ _ _ _ _ _ _ _ 0 s2 t1 p1); try done; left; unfold truthy in Ec; lia].
  all: rewrite (bbind_run _ _ _ _ _ (tick_run s2)); set (s3 := ticked s2); assert (disk_ok s3 d t1) as Hok3 by (by apply (quiet_ok s2), Hok2; apply quiet_tick); assert (silent (¬ emptied t ∨ file_fails) d s s3) as Hs3 by exact Hs12.
  all: rewrite <- D2 in Hg1; change (bs_disks s2) with (bs_disks s3) in Hg1.
  all: assert (∀ c : bool, ∃ u s4, (if c then disk_unlock_native_capacity d else mret false) s3 = Some (u, s4) ∧
    (u = false ∧ s4 = s3 ∨ u = true ∧ scan_round (¬ emptied t ∨ file_fails) s d g p0 cnt inv again (again s4))) as Hun.
  1,3: intros [|]; [|by exists false, s3; split; [done|left]];
    destruct (unlock_run s3 d t1 _ Hok3 Hg1 ltac:(by destruct g)) as (u & s4 & Hu & [(-> & -> & _)|(-> & Hne & Hok4 & Hs4 & g4 & Hg4 & Hr4 & He4)]);
    [by exists false, s3; split; [done|left]|exists true, s4; split; [done|]; right; split; [done|]; eapply round_again; try done; by eapply silent_trans].
  all: destruct (check_partition (bs_tick s2) d) as [|err|parts b] eqn:Echk.
  1,4: eapply (round_empty _ _ _ _ _ _ _ _ _ 0 s3 t1 p1); try done; right; exists (bs_tick s2); intros ? ?; by rewrite Echk.
  1,3: destruct (Hun (err =? - Errno.ENOSPC)) as (u & s4 & Hu & [(-> & ->)|(-> & Hround)]); rewrite (bbind_run _ _ _ _ _ Hu); [|done];
    eapply (round_empty _ _ _ _ _ _ _ _ _ (- Errno.EIO) s3 t1 p1); try done; right; exists (bs_tick s2); intros ? ?; by rewrite Echk.
  all: destruct (Hun b) as (u & s4 & Hu & [(-> & ->)|(-> & Hround)]); rewrite (bbind_run _ _ _ _ _ Hu); [|done].
  all: apply (parts_round _ s s3 d t1 g p0 p1 cnt inv again (bs_tick s2) parts b); try done; [by right|by eapply Hparse].
Qed.

End Scan.
