(* ===== verification/DiskProps.v ===== *)
(** * Block layer: what scanning, announcing and mapping promise

    That a scan ends and puts every partition on the disk, the table it builds when nothing fails, what a new
    disk tells user space, and that the cache of the sector map is transparent; with a small disk on which they are tried. *)
From stdpp Require Import gmap.
From S2P Require Import Prelude Text Majors DiskEvents DiskState DiskTable Partition Disk DiskSpec DiskParts DiskDrop DiskScan.

Section Props.
Context `{BlockApi} `{!BlockApiLaws} `{BlockCore} `{!BlockCoreLaws}.

(** ** Scans end *)

(** Every partition of the table has sectors, and all of them are on the disk. *)
Definition on_disk (s : blkstate) (d : Z) (t : disk_part_tbl) : Prop :=
  ∀ i x p p0, (1 ≤ i)%nat → tb_part t !! i = Some x → x ≠ 0 → bs_parts s !! x = Some p → bs_parts s !! d = Some p0 →
    0 < hd_nr_sects p ∧ hd_start_sect p + hd_nr_sects p ≤ hd_nr_sects p0.

(** The parts found have an end that a sector number can hold. *)
Definition parts_sane (d : Z) : Prop := ∀ n parts b q, check_partition n d = State parts b → q ∈ parts →
  0 ≤ pp_from q ∧ 0 ≤ pp_size q ∧ pp_from q + pp_size q < 2 ^ 64.

Lemma emptied_entry t i x : emptied t → (1 ≤ i)%nat → tb_part t !! i = Some x → x = 0.
Proof. intros He Hi Hx. specialize (He i Hi). unfold ent in He. by rewrite Hx in He. Qed.

Lemma emptied_on_disk s d t : emptied t → on_disk s d t.
Proof. intros He i x p p0 Hi Hx Hne. by destruct Hne; eapply emptied_entry. Qed.

Lemma added_on_disk s d t g parts p1 s' t' :
  emptied t → bs_parts s !! d = Some p1 → added s d t g 1 (drop 1 parts) (hd_nr_sects p1) s' t' →
  (∀ q, q ∈ parts → 0 ≤ pp_from q ∧ 0 ≤ pp_size q ∧ pp_from q + pp_size q < 2 ^ 64) → on_disk s' d t'.
Proof.
  intros He Hp1 Ha Hsane i x p p0 Hi Hx Hx0 Hp Hp0. assert (p0 = p1) as -> by (pose proof (lookup_weaken _ _ _ _ Hp1 (ad_parts _ _ _ _ _ _ _ _ _ Ha)); congruence).
  assert (ent t' i = x) as Hent by (unfold ent; by rewrite Hx). destruct (drop 1 parts !! (i - 1)%nat) as [q|] eqn:Eq.
  2:{ apply lookup_ge_None in Eq. rewrite (ad_other _ _ _ _ _ _ _ _ _ Ha), He in Hent by lia. congruence. }
  destruct (ad_new _ _ _ _ _ _ _ _ _ Ha _ _ Eq) as [Hsame|(Hw & y & Hy & Hs & Hn & _)]; replace (1 + (i - 1))%nat with i in * by lia.
  { rewrite He in Hsame by lia. congruence. }
  rewrite Hent in Hy. assert (y = p) as -> by congruence. rewrite Hs, Hn. rewrite lookup_drop in Eq.
  destruct (Hsane q) as (Hf & Hz & Hlt); [by eapply list_elem_of_lookup_2|]. unfold wanted, truthy in Hw. unfold clipped, wrap. rewrite Z.mod_small by lia.
  destruct (Z.ltb_spec (hd_nr_sects p1) (pp_from q + pp_size q)); lia.
Qed.

(** Why a scan may delete partitions it was not asked to: there are some, the file of one cannot be made, or the disk can still be enlarged, so that the scan starts again. *)
Definition may_remove (t : disk_part_tbl) (g : gendisk) : Prop := ¬ emptied t ∨ file_fails ∨ ¬ enlarged g.

Lemma scan_ends r : ∀ s d t g cnt inv,
  disk_ok s d t → bs_disks s !! d = Some g → range_ok g → parser_ok d → (enlarged g ∨ (1 ≤ r)%nat) →
  ∃ res inv' s' t', rescan r d cnt inv s = Some ((res, inv'), s') ∧ disk_ok s' d t' ∧ silent (may_remove t g) d s s' ∧ (res = 0 → inv' = false ∧ (parts_sane d → on_disk s' d t')).
Proof.
  induction r as [|r IH]; intros s d t g cnt inv Hok Hg Hr Hparse Hfuel; destruct (disk_ok_self _ _ _ Hok) as (p0 & Hp0 & _).
  1: pose proof (rescan_round 0 s d t g p0 cnt inv Hok Hg Hr Hp0 Hparse) as Hround.
  2: pose proof (rescan_round (S r) s d t g p0 cnt inv Hok Hg Hr Hp0 Hparse) as Hround.
  all: destruct Hround as [res s1 Ho Hne Hq _|res s1 t1 p1 Ho Hok1 He Hs _ _ _|s1 t1 g1 Ho Hok1 Hs Hg1 Hr1 He1 Hne|s1 t1 p1 n parts b s2 t2 Ho Hok1 He _ Hp1 _ Hs Hchk Ha].
  1,5: exists res, inv, s1, t; split; [done|]; split; [by eapply quiet_ok|]; split; [destruct Hq as [? ->]; by apply silent_same|done].
  1,4: exists res, false, s1, t1; split; [done|]; split; [done|]; split; [by eapply silent_weaken, Hs; unfold may_remove; tauto|]; intros _; split; [done|]; intros _; by apply emptied_on_disk.
  1: by destruct Hfuel; [|lia].
  2: destruct (IH s1 d t1 g1 cnt false Hok1 Hg1 Hr1 Hparse (or_introl He1)) as (res & inv' & s' & t' & Hrun & Hok' & Hs' & Hres); exists res, inv', s', t';
     split; [congruence|]; split; [done|]; split; [|done]; eapply silent_trans; [eapply silent_weaken, Hs; unfold may_remove; tauto|]; eapply silent_weaken, Hs'; intros _; by right; right.
  all: exists 0, false, s2, t2; split; [done|]; split; [apply Ha|]; split; [eapply silent_trans; [eapply silent_weaken, Hs|eapply silent_weaken, Ha]; unfold may_remove; tauto|]; intros _; split; [done|]; intros Hsane;
    eapply added_on_disk; [done|done|done|]; intros q Hq; by eapply Hsane.
Qed.

(** C19: A scan of a disk always returns, after one restart at most (the disk is enlarged once); whatever fails in it, the table it leaves is in order, and when it succeeds every partition of the
    table has sectors and ends on the disk, for every table of parts whose ends are sector numbers. *)
Theorem scan_ends_with_partitions_on_disk s d t g cnt inv :
  disk_ok s d t → bs_disks s !! d = Some g → range_ok g → parser_ok d → parts_sane d →
  ∃ res inv' s' t', rescan_partitions d cnt inv s = Some ((res, inv'), s') ∧ disk_ok s' d t' ∧ (res = 0 → inv' = false ∧ on_disk s' d t').
Proof.
  intros Hok Hg Hr Hparse Hsane. destruct (scan_ends 1 s d t g cnt inv Hok Hg Hr Hparse ltac:(by right)) as (res & inv' & s' & t' & Hrun & Hok' & _ & Hres).
  exists res, inv', s', t'. split; [done|]. split; [done|]. intros Hz. destruct (Hres Hz) as [? Hon]. split; [done|by apply Hon].
Qed.

(** ** What a scan builds *)

(** C20: When nothing fails, the disk can no longer be enlarged and its range has a number for every part, a scan of a disk builds the table the parsers found, for every table of parts with ends that a sector number can hold: each
    part with sectors that begins on the disk is entered under its number, with its place and info, and ends where the part or the disk ends; no other number is used.  The disk's size [cap] is what its
    driver finds when it looks again, or what it was if the driver does not look. *)
Theorem scan_builds_parsed_table s d t g p0 cap parts b inv :
  disk_ok s d t → bs_disks s !! d = Some g → range_ok g → bs_parts s !! d = Some p0 → cap ≠ 0 → calm → (∀ n, invalidate_device n = 0) →
  match revalidate_disk with Some f => ∀ n, f n (hd_nr_sects p0) = cap | None => hd_nr_sects p0 = cap end → enlarged g → (∀ n, check_partition n d = State parts b) →
  (∀ i q, parts !! i = Some q → room_for g (Z.of_nat i)) → parts_sane d →
  ∃ s' t', rescan_partitions d 0 inv s = Some ((0, false), s') ∧ disk_ok s' d t' ∧
    ∀ i, (1 ≤ i)%nat →
      match parts !! i with
      | Some q => if wanted cap q
                  then ∃ x, bs_parts s' !! ent t' i = Some x ∧ hd_partno x = Z.of_nat i ∧ hd_start_sect x = pp_from q ∧ hd_nr_sects x = Z.min (pp_size q) (cap - pp_from q) ∧ hd_info x = Some (pp_info q)
                  else ent t' i = 0
      | None => ent t' i = 0
      end.
Proof.
  intros Hok Hg Hr Hp0 Hcap Hcalm Hinv Hrev Hen Hchk Hroom Hsane. assert (∀ p1, resized p0 p1 → hd_nr_sects p1 = cap) as Hcap1.
  { intros p1. unfold resized. destruct revalidate_disk as [f|]; [intros [n ->]; apply Hrev|by intros ->]. }
  assert (parser_ok d) as Hparse.
  { intros n parts' b' Hc. rewrite Hchk in Hc. injection Hc as <- _. destruct (decide (parts = [])) as [->|Hne]; [done|].
    destruct (last parts) as [q|] eqn:El; [|by apply last_None in El]. rewrite last_lookup in El. destruct (Hroom _ _ El) as (Hlt & _). destruct parts; [done|]. cbn [length pred] in *. lia. }
  destruct (rescan_round 1 s d t g p0 0 inv Hok Hg Hr Hp0 Hparse)
    as [res s1 Ho Hne Hq [?|(n & Hn)]|res s1 t1 p1 Ho Hok1 He Hs Hp1 Hsame Hwhy|s1 t1 g1 Ho Hok1 Hs Hg1 Hr1 He1 Hne|s1 t1 p1 n parts' b' s2 t2 Ho Hok1 He Hg1 Hp1 Hsame Hs Hc Ha].
  - done.
  - by rewrite Hinv in Hn.
  - rewrite (Hcap1 _ Hsame) in Hwhy. destruct Hwhy as [?|(n & Hn)]; [done|]. by destruct (Hn parts b).
  - done.
  - rewrite Hchk in Hc. injection Hc as <- <-. rewrite (Hcap1 _ Hsame) in *. exists s2, t2. split; [done|]. split; [apply Ha|]. intros i Hi.
    assert (drop 1 parts !! (i - 1)%nat = parts !! i) as Hdrop by (rewrite lookup_drop; f_equal; lia).
    destruct (parts !! i) as [q|] eqn:Eq.
    2:{ rewrite (ad_other _ _ _ _ _ _ _ _ _ Ha); [by apply He|]. apply lookup_ge_None in Hdrop. lia. }
    pose proof (ad_new _ _ _ _ _ _ _ _ _ Ha _ _ Hdrop) as Hnew. pose proof (λ Hro, ad_all _ _ _ _ _ _ _ _ _ Ha _ _ Hcalm Hro Hdrop) as Hall.
    replace (1 + (i - 1))%nat with i in * by lia. specialize (Hall ltac:(by apply room_tbl, (Hroom _ q))). rewrite (He i Hi) in *.
    destruct (wanted cap q) eqn:Ew; [|destruct Hnew as [?|[? _]]; done]. specialize (Hall eq_refl eq_refl).
    destruct Hnew as [?|(_ & x & Hx & Hx1 & Hx2 & _ & Hx4)]; [done|]. exists x. split; [done|]. split; [|split; [done|]; split; [|done]].
    2:{ destruct (Hsane 0%nat parts b q (Hchk _) ltac:(by eapply list_elem_of_lookup_2)) as (Hf & Hz & Hlt). rewrite Hx2. unfold clipped. rewrite wrap_small by lia.
        destruct (Z.ltb_spec cap (pp_from q + pp_size q)); lia. }
    assert (tb_part t2 !! i = Some (ent t2 i)) as Hent by (unfold ent in *; by destruct (tb_part t2 !! i)).
    destruct (dk_entry _ _ _ (ad_ok _ _ _ _ _ _ _ _ _ Ha) i _ Hent Hall) as (y & Hy & Hyi & _). congruence.
Qed.

(** ** What a new disk announces *)

(** Changing the fields of a disk's own partition that its table does not depend on. *)
Lemma own_part_ok s d t p0 f :
  disk_ok s d t → bs_parts s !! d = Some p0 → hd_partno (f p0) = hd_partno p0 → hd_disk (f p0) = hd_disk p0 → hd_refs (f p0) = hd_refs p0 → hd_ref (f p0) = hd_ref p0 →
  disk_ok (set_bs_parts (<[d := f p0]> (bs_parts s)) s) d t.
Proof.
  intros [Hd Ha H0' He Hl] Hp0 E1 E2 E3 E4. split; [done|done|done| |done]. intros i x Hi Hx. destruct (He i x Hi Hx) as (q & Hq & Hrest). cbn.
  destruct (decide (x = d)) as [->|Hne]; [|exists q; by rewrite lookup_insert_ne]. exists (f p0). rewrite lookup_insert_eq. assert (q = p0) as -> by congruence.
  rewrite E1, E2, E3, E4. by split.
Qed.

(** The uevents of a disk and of its partitions as they are now. *)
Definition announcement (s : blkstate) (d : Z) (t : disk_part_tbl) : list uevent :=
  let l := visible s no_flags 1 (drop 1 (tb_part t)) in Uev_disk KOBJ_ADD d (zlen l) :: part_adds s l.

Lemma announcement_ext s s' d t : bs_parts s' = bs_parts s → announcement s' d t = announcement s d t.
Proof. intros Hp. unfold announcement, part_adds. by rewrite (visible_ext s s'), Hp by (intros; by rewrite Hp). Qed.

Lemma final_announce_run s d t p0 :
  disk_ok s d t → bs_parts s !! d = Some p0 →
  ∃ s', (_ ← upd_part d (set_hd_suppress false); _ ← disk_uevent KOBJ_ADD d; for_each_part d no_flags (λ _, part_uevent KOBJ_ADD) ()) s = Some ((), s') ∧
    disk_ok s' d t ∧ bs_uevents s' = bs_uevents s ++ announcement s' d t.
Proof.
  intros Hok Hp0. brun. set (s1 := set_bs_parts _ s). assert (disk_ok s1 d t) as Hok1 by (by apply (own_part_ok s d t p0 (set_hd_suppress false))).
  assert (bs_parts s1 !! d = Some (set_hd_suppress false p0)) as Hp1 by (cbn; by rewrite lookup_insert_eq).
  rewrite (bbind_run _ _ _ _ _ (disk_uevent_run s1 d t _ KOBJ_ADD Hok1 Hp1)). cbn [hd_suppress set_hd_suppress]. set (s2 := set_bs_uevents _ s1).
  assert (disk_ok s2 d t) as Hok2 by (by destruct Hok1). rewrite (announce_run s2 d t Hok2). eexists. split; [done|]. split; [by destruct Hok2|].
  rewrite (announcement_ext s1) by done. rewrite (visible_ext s1 s2) by done. unfold s2, announcement. cbn [bs_uevents set_bs_uevents]. by rewrite <- app_assoc.
Qed.

(** The scan that opening the disk for the first time makes. *)
Definition first_scan (d : Z) : BM () := _ ← rescan_partitions d 0 true; mret ().

Lemma first_scan_run (c : bool) s d t g :
  disk_ok s d t → bs_disks s !! d = Some g → range_ok g → parser_ok d →
  ∃ s' t', (if c then mret () else ok ← bdget_disk d 0; if (ok : bool) then first_scan d else mret ()) s = Some ((), s') ∧ disk_ok s' d t' ∧ silent (may_remove t g) d s s'.
Proof.
  intros Hok Hg Hr Hparse. destruct c; [exists s, t; split; [done|]; split; [done|by apply silent_same]|].
  destruct (bdget_run s d t Hok) as (ok & s1 & Hb & Hq). rewrite (bbind_run _ _ _ _ _ Hb). pose proof (quiet_ok _ _ _ _ Hq Hok) as Hok1.
  assert (silent (may_remove t g) d s s1 ∧ bs_disks s1 = bs_disks s) as [Hs Hd] by (destruct Hq as [? ->]; split; [by apply silent_same|done]).
  destruct ok; [|by exists s1, t]. rewrite <- Hd in Hg. destruct (scan_ends 1 s1 d t g 0 true Hok1 Hg Hr Hparse ltac:(by right)) as (res & inv' & s' & t' & Hrun & Hok' & Hs' & _).
  unfold first_scan, rescan_partitions. rewrite (bbind_run _ _ _ _ _ Hrun). exists s', t'. split; [done|]. split; [done|by eapply silent_trans].
Qed.


(** ** The sector map *)

(** The partition that a search without the cache finds. *)
Definition owner (s : blkstate) (l : list Z) (sector : Z) : option Z :=
  snd <$> list_find (λ x, match bs_parts s !! x with Some p => truthy x && sector_in_part p sector | None => false end = true) l.

Lemma find_sector_run s l sector :
  (∀ x, x ∈ l → x ≠ 0 → is_Some (bs_parts s !! x)) → find_sector l sector s = Some (default 0 (owner s l sector), s).
Proof.
  induction l as [|x l IH]; intros Hl; [done|]. assert (find_sector l sector s = Some (default 0 (owner s l sector), s)) as IH'.
  { apply IH. intros y Hy. apply Hl. by apply list_elem_of_further. }
  cbn [find_sector]. unfold owner in *. cbn [list_find]. destruct (truthy x) eqn:Ex; cbn [negb].
  - destruct (Hl x (list_elem_of_here _ _)) as [p Hp]; [unfold truthy in Ex; lia|]. brun. rewrite Hp. cbn [andb].
    destruct (sector_in_part p sector); cbn; [done|]. rewrite IH'. destruct (list_find _ l) as [[]|]; done.
  - rewrite IH'. rewrite decide_False by (by destruct (bs_parts s !! x)). destruct (list_find _ l) as [[]|]; done.
Qed.

(** No sector is in two partitions. *)
Definition disjoint_parts (s : blkstate) (t : disk_part_tbl) : Prop := ∀ i j x y p q sector,
  (1 ≤ i)%nat → (1 ≤ j)%nat → tb_part t !! i = Some x → tb_part t !! j = Some y → x ≠ 0 → y ≠ 0 → bs_parts s !! x = Some p → bs_parts s !! y = Some q →
  sector_in_part p sector = true → sector_in_part q sector = true → x = y.

Lemma owner_unique s d t x p i sector :
  disk_ok s d t → disjoint_parts s t → (1 ≤ i)%nat → tb_part t !! i = Some x → x ≠ 0 → bs_parts s !! x = Some p → sector_in_part p sector = true →
  owner s (drop 1 (tb_part t)) sector = Some x.
Proof.
  intros Hok Hdis Hi Hx Hx0 Hp Hin. unfold owner. destruct (list_find _ (drop 1 (tb_part t))) as [[j y]|] eqn:E; cbn.
  - apply list_find_Some in E as (Hj & Hy & _). rewrite lookup_drop in Hj. destruct (bs_parts s !! y) as [q|] eqn:Eq; [|done].
    apply andb_true_iff in Hy as [Hy1 Hy2]. f_equal. symmetry. eapply (Hdis i (1 + j)%nat x y p q sector); try done; [lia|]. unfold truthy in Hy1. lia.
  - apply list_find_None in E. rewrite Forall_forall in E. exfalso. apply (E x).
    + eapply (list_elem_of_lookup_2 _ (i - 1)). rewrite lookup_drop. rewrite <- Hx. f_equal. lia.
    + rewrite Hp, Hin. unfold truthy. destruct (Z.eqb_spec x 0); done.
Qed.

(** C23: While the partitions of a disk do not overlap, its sector map finds the same partition with the cache of the last one looked up as a search without it, and the disk itself for a
    sector of no partition; it changes nothing but the cache, and leaves the cache in order. *)
Theorem sector_map_ignores_cache s d t sector :
  disk_ok s d t → disjoint_parts s t →
  ∃ s' t', disk_map_sector_rcu d sector s = Some (default d (owner s (drop 1 (tb_part t)) sector), s') ∧
    disk_ok s' d t' ∧ tb_part t' = tb_part t ∧ bs_parts s' = bs_parts s ∧ bs_uevents s' = bs_uevents s.
Proof.
  intros Hok Hdis. destruct (dk_disk _ _ _ Hok) as (g & Hg & Ht). unfold disk_map_sector_rcu. brun.
  assert (∃ c, (if truthy (tb_last_lookup t) then p ← part_at (tb_last_lookup t); mret (sector_in_part p sector) else mret false) s = Some (c, s) ∧
    (c = true → owner s (drop 1 (tb_part t)) sector = Some (tb_last_lookup t))) as (c & Hc & Hhit).
  { destruct (truthy (tb_last_lookup t)) eqn:El; [|by exists false]. assert (tb_last_lookup t ≠ 0) as Hl0 by (unfold truthy in El; lia).
    destruct (dk_last _ _ _ Hok Hl0) as (i & Hi & Hli). destruct (dk_entry _ _ _ Hok i _ Hli Hl0) as (p & Hp & _).
    exists (sector_in_part p sector). split; [by brun|]. intros Hin. by eapply owner_unique. }
  rewrite (bbind_run _ _ _ _ _ Hc). destruct c; [exists s, t; rewrite (Hhit eq_refl); done|].
  assert (∀ x, x ∈ drop 1 (tb_part t) → x ≠ 0 → is_Some (bs_parts s !! x)) as Hthere.
  { intros x (k & Hk)%list_elem_of_lookup_1. rewrite lookup_drop in Hk. by eapply (disk_ok_there s d t Hok). }
  rewrite (bbind_run _ _ _ _ _ (find_sector_run s _ sector Hthere)). destruct (owner s (drop 1 (tb_part t)) sector) as [x|] eqn:Eo; cbn [default].
  2:{ change (truthy 0) with false. cbv iota. by exists s, t. }
  unfold owner in Eo. destruct (list_find _ _) as [[k y]|] eqn:E in Eo; [|done]. injection Eo as ->. apply list_find_Some in E as (Hk & Hy & _). rewrite lookup_drop in Hk.
  destruct (bs_parts s !! x) as [p|] eqn:Ep; [|done]. apply andb_true_iff in Hy as [Hx _]. cbn [id]. rewrite Hx, (bbind_run _ _ _ _ _ (upd_tbl_run s d g t _ Hg Ht)).
  eexists _, (set_last_lookup x t). split; [done|]. split; [|done]. destruct Hok as [_ Ha H0' He Hl]. split; [|done|done|done|].
  - eexists. cbn. rewrite lookup_insert_eq. split; [done|by destruct g].
  - intros _. exists (1 + k)%nat. split; [lia|done].
Qed.

End Props.

(** ** A small disk *)

Module DiskDemo.
Import BlockDemo.

Definition top (l : gset Z) (z : Z) : Z := foldr Z.max z (elements l).

Lemma top_above l z x : x ∈ l → x ≤ top l z.
Proof.
  rewrite <- elem_of_elements. unfold top. induction (elements l) as [|y k IH]; intros Hx; [by apply not_elem_of_nil in Hx|].
  apply elem_of_cons in Hx as [->|Hx]; cbn; [lia|]. specialize (IH Hx). lia.
Qed.

Lemma top_least l z : z ≤ top l z.
Proof. unfold top. induction (elements l) as [|y k IH]; cbn; lia. Qed.

(** Four parts on a disk that can be enlarged from 500 to 1000 sectors: one that fits, one that is cut off, one behind
    the end and an empty one. *)
Definition no_info : part_info := PartInfo [] [].
Definition found : list parsed_part :=
  [Parsed 0 0 0 false no_info; Parsed 8 100 0 false no_info; Parsed 600 2000 0 false no_info; Parsed 5000 1 0 false no_info; Parsed 150 0 0 false no_info].

#[export] Instance demo_core : BlockCore := {|
  GENHD_FL_UP := 16; GENHD_FL_REMOVABLE := 1; GENHD_FL_SUPPRESS_PARTITION_INFO := 32; GENHD_FL_NATIVE_CAPACITY := 128; ADDPART_FLAG_WHOLEDISK := 2;
  kzalloc_at := λ l _, Some (1 + top l 0); init_part_stats := λ _, true; alloc_part_info := λ _, true;
  idr_alloc := λ l n _, if 1 + top l (-1) <? n then 1 + top l (-1) else - Errno.ENOSPC;
  device_add := λ _, 0; kobject_create_and_add := λ _, true; device_create_file := λ _, 0; sysfs_create_link := λ _, 0; bdget := λ _, true;
  invalidate_device := λ _, 0; get_module := λ _, true; disk_max_parts := λ _, 256; disk_part_scan_enabled := λ _, true;
  limit_alignment_offset := λ _ _, 0; limit_discard_alignment := λ _ _, 0; check_partition := λ _ _, State found false;
  revalidate_disk := None; unlock_native_capacity := Some (λ _ n, 2 * n); kobj_lookup := λ _ _, None; msecs_to_jiffies := λ n, n |}.

#[export] Instance demo_core_laws : BlockCoreLaws.
Proof.
  split; try done.
  - intros l t x [= <-]. split; [pose proof (top_least l 0); lia|]. intros Hx%(top_above _ 0). lia.
  - intros l n t id [= Hid] Hpos. destruct (Z.ltb_spec (1 + top l (-1)) n); [subst id|unfold Errno.ENOSPC in *; lia]. split; [done|]. intros Hx%(top_above _ (-1)). lia.
Qed.

Definition after {A} (m : BM A) (s : blkstate) : blkstate := match m s with Some (_, s') => s' | None => s end.

(** [mmcblk0], new and after its scan; the first part was added twice, before and after the disk was enlarged, and the grace period is over. *)
Definition fresh : blkstate :=
  after (d ← alloc_disk_node 16; _ ← upd_disk d (λ g, Disk 179 0 (gd_minors g) (mmc ++ [48]) 0 (gd_part_tbl g) 0 0 None); set_capacity d 500)
    (BlkState ∅ ∅ ∅ [] [] [] 0 0 [] []).
Definition scanned : blkstate := after (_ ← rescan_partitions 1 0 true; rcu_callbacks) fresh.

Definition own (fl : Z) (t : disk_part_tbl) : gendisk := Disk 179 0 16 (mmc ++ [48]) fl (Some t) 0 0 None.
Definition t_fresh : disk_part_tbl := PartTbl [1] 0.
Definition t_scanned : disk_part_tbl := PartTbl [1; 3; 4; 0] 0.

Example fresh_disk : bs_disks fresh !! 1 = Some (own 0 t_fresh) ∧ bs_disks scanned !! 1 = Some (own 128 t_scanned).
Proof. vm_compute. done. Qed.

Lemma fresh_ok : disk_ok fresh 1 t_fresh.
Proof.
  split; [eexists; split; [apply fresh_disk|done]|lia|done| |done]. intros [|i] x; [|done]. intros [= <-] _. eexists.
  split; [vm_compute; reflexivity|]. repeat split; vm_compute; discriminate.
Qed.

Lemma scanned_ok : disk_ok scanned 1 t_scanned.
Proof.
  split; [eexists; split; [apply fresh_disk|done]|lia|done| |done].
  intros [|[|[|[|i]]]] x; [..|intros [= <-] Hx; by destruct Hx|done]; intros [= <-] _; eexists; (split; [vm_compute; reflexivity|]); repeat split; vm_compute; discriminate.
Qed.

Lemma own_range fl t : range_ok (own fl t).
Proof. intros _. cbn. lia. Qed.

Lemma demo_parser : parser_ok 1 ∧ parts_sane 1.
Proof.
  split; [intros n parts b [= <- <-]; cbn; lia|]. intros n parts b q [= <- <-]. unfold found. rewrite !elem_of_cons, elem_of_nil.
  intros [->|[->|[->|[->|[->|[]]]]]]; cbn; lia.
Qed.

Lemma scan_ends_with_partitions_on_disk_witness :
  ∃ inv' s' t', rescan_partitions 1 0 true fresh = Some ((0, inv'), s') ∧ disk_ok s' 1 t' ∧ on_disk s' 1 t'.
Proof.
  destruct (scan_ends_with_partitions_on_disk fresh 1 t_fresh _ 0 true fresh_ok (proj1 fresh_disk) (own_range _ _) (proj1 demo_parser) (proj2 demo_parser))
    as (res & inv' & s' & t' & Hr & Hok & Hz).
  assert (res = 0) as -> by (vm_compute in Hr; congruence). exists inv', s', t'. split; [exact Hr|]. split; [exact Hok|]. by apply Hz.
Defined.

Lemma demo_calm : calm.
Proof. by split. Qed.

Lemma scan_builds_parsed_table_witness :
  ∃ s' t', rescan_partitions 1 0 true scanned = Some ((0, false), s') ∧ disk_ok s' 1 t' ∧
    (∃ x, bs_parts s' !! ent t' 2 = Some x ∧ hd_start_sect x = 600 ∧ hd_nr_sects x = 400) ∧ ent t' 3 = 0 ∧ ent t' 4 = 0.
Proof.
  assert (∃ p0, bs_parts scanned !! 1 = Some p0 ∧ hd_nr_sects p0 = 1000) as (p0 & Hp0 & Hn) by (eexists; split; [vm_compute; reflexivity|reflexivity]).
  destruct (scan_builds_parsed_table scanned 1 t_scanned _ p0 1000 found false true scanned_ok (proj2 fresh_disk) (own_range _ _) Hp0 ltac:(lia) demo_calm
    (λ _, eq_refl) Hn (or_intror eq_refl) (λ _, eq_refl)) as (s' & t' & Hr & Hok & Ht).
  - intros i q Hi. apply lookup_lt_Some in Hi. cbn in Hi. split; [lia|]. split; [cbn; lia|]. intros t. right. cbn. lia.
  - apply demo_parser.
  - exists s', t'. split; [exact Hr|]. split; [exact Hok|]. clear Hr Hok. split.
    + pose proof (Ht 2%nat ltac:(lia)) as H2'. cbn in H2'. destruct H2' as (x & Hx & _ & Hs & Hz & _). exists x. split; [exact Hx|]. split; [exact Hs|exact Hz].
    + pose proof (Ht 3%nat ltac:(lia)) as H3'. pose proof (Ht 4%nat ltac:(lia)) as H4'. cbn in H3', H4'. split; [exact H3'|exact H4'].
Defined.


Definition extent (s : blkstate) (x : Z) : option (Z * Z) := (λ p, (hd_start_sect p, hd_nr_sects p)) <$> bs_parts s !! x.

Lemma scanned_extents : extent scanned 3 = Some (8, 100) ∧ extent scanned 4 = Some (600, 400).
Proof. vm_compute. split; reflexivity. Qed.

Lemma scanned_parts i x p : (1 ≤ i)%nat → tb_part t_scanned !! i = Some x → x ≠ 0 → bs_parts scanned !! x = Some p →
  x = 3 ∧ hd_start_sect p = 8 ∧ hd_nr_sects p = 100 ∨ x = 4 ∧ hd_start_sect p = 600 ∧ hd_nr_sects p = 400.
Proof.
  generalize (proj1 scanned_extents), (proj2 scanned_extents). unfold extent. generalize scanned. intros s E3 E4 Hi Hx Hx0 Hp.
  destruct i as [|[|[|[|i]]]]; [lia|..|by injection Hx as <-|done]; injection Hx as <-; [left; rewrite Hp in E3|right; rewrite Hp in E4]; cbn in *; split; try done; split; congruence.
Qed.

Lemma sector_map_ignores_cache_witness :
  ∃ s', disk_map_sector_rcu 1 650 scanned = Some (4, s') ∧ ∃ t', disk_ok s' 1 t'.
Proof.
  destruct (sector_map_ignores_cache scanned 1 t_scanned 650 scanned_ok) as (s' & t' & Hr & Hok & _).
  - intros i j x y p q sector Hi Hj Hx Hy Hx0 Hy0 Hp Hq Hin1 Hin2. unfold sector_in_part in Hin1, Hin2.
    pose proof (scanned_parts i x p Hi Hx Hx0 Hp) as Hcx. pose proof (scanned_parts j y q Hj Hy Hy0 Hq) as Hcy. clear Hp Hq.
    destruct Hcx as [(-> & E1 & E2)|(-> & E1 & E2)], Hcy as [(-> & E3 & E4)|(-> & E3 & E4)]; try reflexivity;
      rewrite E1, E2 in Hin1; rewrite E3, E4 in Hin2; change (u64 (8 + 100)) with 108 in *; change (u64 (600 + 400)) with 1000 in *; lia.
  - exists s'. split; [|exists t'; exact Hok]. rewrite Hr. do 2 f_equal.
Defined.

Lemma dropped_partitions_are_freed_witness :
  ∃ s1 s2, drop_partitions 1 0 scanned = Some (0, s1) ∧ rcu_callbacks s1 = Some ((), s2) ∧ bs_parts s2 !! 3 = None ∧ bs_parts s2 !! 4 = None.
Proof.
  destruct (dropped_partitions_are_freed scanned 1 t_scanned scanned_ok ltac:(by vm_compute)) as (res & s1 & Hr & Hz & _).
  - intros i x Hi Hx Hx0. destruct i as [|[|[|[|i]]]]; [lia|..|by injection Hx as <-|done]; injection Hx as <-; eexists; (split; [vm_compute; reflexivity|]);
      (split; [reflexivity|]; split; [discriminate|]); left; vm_compute; discriminate.
  - assert (res = 0) as -> by (vm_compute in Hr; congruence). destruct (Hz eq_refl) as (s2 & t2 & D & Hc & _ & _ & _ & HD & Hp & _). exists s1, s2. split; [exact Hr|].
    split; [exact Hc|]. rewrite !Hp. rewrite !decide_True; [split; reflexivity|..]; apply HD; (split; [discriminate|]); [exists 2%nat|exists 1%nat]; (split; [lia|reflexivity]).
Defined.

Lemma mangle_minor_involutive_witness : blk_mangle_minor 1 = 524288 ∧ blk_mangle_minor (blk_mangle_minor 1) = 1.
Proof. split; [vm_compute; reflexivity|]. apply (mangle_minor_involutive 1). cbn. lia. Defined.

(** A partition whose number is behind the disk's own range. *)
Definition far : blkstate := after (add_partition 1 20 0 8 0 None) fresh.

Lemma extended_number_roundtrip_witness :
  ∃ devt s', blk_alloc_devt 2 far = Some ((0, devt), s') ∧ MAJOR devt = 259 ∧ ∃ s3, get_gendisk devt s' = Some (Some (1, 20), s3).
Proof.
  assert (∃ p g p0, bs_parts far !! 2 = Some p ∧ hd_disk p = 1 ∧ hd_partno p = 20 ∧ bs_disks far !! 1 = Some g ∧ bs_parts far !! 1 = Some p0 ∧ gd_minors g = 16)
    as (p & g & p0 & Hp & Hd & Hpn & Hg & Hp0 & Hm) by (do 3 eexists; repeat split; vm_compute; reflexivity).
  destruct (extended_number_roundtrip far 2 p g p0 Hp ltac:(by rewrite Hd) ltac:(by rewrite Hd) ltac:(lia)) as (err & devt & s' & Hr & _ & Hz).
  assert (err = 0) as -> by (vm_compute in Hr; congruence). destruct (Hz eq_refl) as (Hma & _ & _ & r & s3 & Hget & ->). exists devt, s'.
  split; [exact Hr|]. split; [exact Hma|]. exists s3. rewrite Hget, Hd, Hpn. reflexivity.
Defined.


(** A part whose end does not fit a sector number is taken for one that ends on the disk: it is entered with its full size. *)
Example wrapped_part_leaves_the_disk :
  ∃ s', add_parts 1 1 [Parsed 100 (2 ^ 64 - 50) 0 false no_info] fresh = Some (false, s') ∧ extent s' 2 = Some (100, 2 ^ 64 - 50) ∧ extent s' 1 = Some (0, 500).
Proof. eexists. vm_compute. repeat split; reflexivity. Qed.

End DiskDemo.
