(* ===== verification/DiskShow.v ===== *)
(** * Block layer: what is shown

    The texts of [patches/kernel/genhd.c] and [patches/kernel/partition-generic.c]: /proc/partitions and /proc/diskstats with the
    iterator over the disks they share, the files of disks and partitions in sysfs, the list printed at boot and the names of
    block devices; the start of the block layer and the read of a sector.  The iterator over a class is the list of the disks
    that are left; the structure it is in is memory that is allocated by [start] and freed by [stop].

    /proc/partitions read in any number of pieces, what a failed [start] does to [stop], the width of a printed device number, and
    the place of a sector in its page. *)
From Stdlib Require Import String.
From stdpp Require Import gmap.
From S2P Require Import Prelude Text Majors DiskEvents DiskState DiskTable Partition Disk DiskProps.

(** What the statistics of a partition are made of, reads and writes. *)
Record disk_stats := DiskStats {
  ds_ios : Z * Z; ds_merges : Z * Z; ds_sectors : Z * Z; ds_ticks : Z * Z; ds_in_flight : Z * Z; ds_io_ticks : Z; ds_time_in_queue : Z }.

(** The rest of the kernel that only the texts use; statistics can change between calls. *)
Class ShowCore := {
  part_stats : Z → nat → disk_stats;
  jiffies_to_msecs : Z → Z;
  queue_alignment_offset : Z → Z;
  queue_discard_alignment : Z → Z;
  driver_name : Z → option (list Z);
  disk_devnode : Z → option (list Z) }.

Section Show.
Context `{BlockApi} `{BlockCore} `{ShowCore}.

(** A number in a field of a width. *)
Definition field (w : nat) (n : Z) : list Z := pad_left w 32 (sdecimal n).
Definition line (l : list Z) : list Z := l ++ [10].
Definition spaced : list (list Z) → list Z := foldr (λ x l, match l with [] => x | _ => x ++ 32 :: l end) [].

(** ** Majors *)

(** The lines of /proc/devices for one index of the table. *)
Definition blkdev_show (names : list (list blk_major_name)) (offset : Z) : list Z :=
  if offset <? BLKDEV_MAJOR_HASH_SIZE then
    flat_map (λ x, field 3 (mn_major x) ++ [32] ++ mn_name x ++ [10]) (default [] (names !! Z.to_nat offset))
  else [].

(** [bdevt_str]: a number that fits in two bytes is printed as such. *)
Definition BDEVT_SIZE : Z := 10.
Definition bdevt_str (devt : Z) : list Z :=
  take (Z.to_nat (BDEVT_SIZE - 1))
    (if (MAJOR devt <=? 255) && (MINOR devt <=? 255)
     then pad_right 9 (take (Z.to_nat (BDEVT_SIZE - 1)) (pad_left 2 48 (hexadecimal (MAJOR devt)) ++ pad_left 2 48 (hexadecimal (MINOR devt))))
     else pad_left 3 48 (hexadecimal (MAJOR devt)) ++ [58] ++ pad_left 5 48 (hexadecimal (MINOR devt))).

(** What the map of the registered regions is given: the disk, and a reference to it. *)
Definition exact_match (d : Z) : Z := d.
Definition exact_lock (d : Z) : BM Z := ok ← get_disk d; mret (if (ok : bool) then 0 else -1).

(** The modules asked for, for a number no disk has; [loaded] is the answer to the first request. *)
Definition base_probe (loaded : Z) (devt : Z) : Z * list (list Z) :=
  let first := bytes_of "block-major-" ++ sdecimal (MAJOR devt) ++ [45] ++ sdecimal (MINOR devt) in
  (0, if 0 <? loaded then [first; bytes_of "block-major-" ++ sdecimal (MAJOR devt)] else [first]).

(** The start: the class is registered, then the extended major; [ok] says whether there is memory for it. *)
Definition genhd_device_init (class_error : Z) (ok : bool) (names : list (list blk_major_name)) : option (Z * list (list blk_major_name)) :=
  if truthy class_error then Some (class_error, names)
  else '(_, names) ← register_blkdev ok BLOCK_EXT_MAJOR (bytes_of "blkext") names; Some (0, names).

Definition alloc_disk (minors : Z) : BM Z := alloc_disk_node minors.

(** ** The list at boot *)

Definition boot_line (g : gendisk) (d x : Z) (p : hd_struct) : list Z :=
  let is_part0 := x =? d in
  (if is_part0 then [] else bytes_of "  ") ++ bdevt_str (hd_devt p) ++ [32] ++ field 10 (Z.shiftr (hd_nr_sects p) 1) ++ [32] ++
  disk_name g (hd_partno p) ++ [32] ++ match hd_info p with Some i => pi_uuid i | None => [] end ++
  (if is_part0 then match driver_name d with Some n => bytes_of " driver: " ++ line n | None => line (bytes_of " (driver?)") end else [10]).

Fixpoint printk_all_partitions (disks : list Z) : BM (list Z) :=
  match disks with
  | [] => mret []
  | d :: disks =>
    g ← disk_at d; n ← get_capacity d;
    a ← (if (n =? 0) || truthy (gd_flags g &&& GENHD_FL_SUPPRESS_PARTITION_INFO) then mret []
         else for_each_part d incl_part0 (λ out x, p ← part_at x; mret (out ++ boot_line g d x p)) []);
    b ← printk_all_partitions disks;
    mret (a ++ b)
  end.

(** ** Iterating over the disks *)

(** The [private] pointer of an open file, and the iterators that are allocated. *)
Record seqf := Seqf { sq_private : Z; sq_iters : gset Z }.

(** How [start] and [next] end: an error, no more disks, or a disk and the ones after it. *)
Inductive seq_pos := Seq_error (err : Z) | Seq_end | Seq_disk (d : Z) (rest : list Z).

Definition class_dev_iter_next (rest : list Z) : seq_pos := match rest with [] => Seq_end | d :: rest => Seq_disk d rest end.

(** The loop that skips disks. *)
Fixpoint seqf_skip (disks : list Z) (skip : nat) : seq_pos :=
  match disks with
  | [] => Seq_end
  | d :: rest => match skip with O => Seq_disk d rest | S skip => seqf_skip rest skip end
  end.

(** [kmalloc] gives the address of the iterator, or nothing. *)
Definition disk_seqf_start (kmalloc : option Z) (disks : list Z) (pos : Z) (q : seqf) : seq_pos * seqf :=
  match kmalloc with
  | None => (Seq_error (- Errno.ENOMEM), q)
  | Some a => (seqf_skip disks (Z.to_nat pos), Seqf a ({[a]} ∪ sq_iters q))
  end.

Definition disk_seqf_next (rest : list Z) (pos : Z) : seq_pos * Z := (class_dev_iter_next rest, pos + 1).

(** [None] is a use of an iterator that is not allocated. *)
Definition disk_seqf_stop (q : seqf) : option seqf :=
  if truthy (sq_private q) then
    if bool_decide (sq_private q ∈ sq_iters q) then Some (Seqf (sq_private q) (sq_iters q ∖ {[sq_private q]})) else None
  else Some q.

Definition partitions_header : list Z := line (line (bytes_of "major minor  #blocks  name")).

Definition show_partition_start (kmalloc : option Z) (disks : list Z) (pos : Z) (q : seqf) : seq_pos * list Z * seqf :=
  let '(p, q) := disk_seqf_start kmalloc disks pos q in
  (p, match p with Seq_disk _ _ => if truthy pos then [] else partitions_header | _ => [] end, q).

(** The text of /proc/partitions for a disk. *)
Definition partition_text (l : Z * Z * Z * list Z) : list Z :=
  let '(major, minor, blocks, name) := l in field 4 major ++ bytes_of "  " ++ field 7 minor ++ [32] ++ field 10 blocks ++ [32] ++ line name.
Definition show_partition_text (d : Z) : BM (list Z) := l ← show_partition d; mret (flat_map partition_text l).

(** The fields after a partition's name in /proc/diskstats. *)
Definition stat_fields (st : disk_stats) : list Z :=
  [(ds_ios st).1; (ds_merges st).1; (ds_sectors st).1; jiffies_to_msecs (ds_ticks st).1;
   (ds_ios st).2; (ds_merges st).2; (ds_sectors st).2; jiffies_to_msecs (ds_ticks st).2;
   (ds_in_flight st).1 + (ds_in_flight st).2; jiffies_to_msecs (ds_io_ticks st); jiffies_to_msecs (ds_time_in_queue st)].

Definition diskstats_show (d : Z) : BM (list Z) :=
  g ← disk_at d;
  for_each_part d (PiterFlags false false false true) (λ out x,
    p ← part_at x; t ← tick;
    mret (out ++ field 4 (MAJOR (hd_devt p)) ++ [32] ++ field 7 (MINOR (hd_devt p)) ++ [32] ++ disk_name g (hd_partno p) ++ [32] ++
          line (spaced (sdecimal <$> stat_fields (part_stats x t))))) [].

(** ** Sysfs *)

Definition disk_range_show (d : Z) : BM (list Z) := g ← disk_at d; mret (line (sdecimal (gd_minors g))).
Definition disk_ext_range_show (d : Z) : BM (list Z) := g ← disk_at d; mret (line (sdecimal (disk_max_parts g))).
Definition disk_removable_show (d : Z) : BM (list Z) :=
  g ← disk_at d; mret (line (sdecimal (if truthy (gd_flags g &&& GENHD_FL_REMOVABLE) then 1 else 0))).
Definition disk_ro_show (d : Z) : BM (list Z) := p ← part_at d; mret (line (sdecimal (if truthy (hd_policy p) then 1 else 0))).
Definition disk_capability_show (d : Z) : BM (list Z) := g ← disk_at d; mret (line (hexadecimal (gd_flags g))).
Definition disk_alignment_offset_show (d : Z) : list Z := line (sdecimal (queue_alignment_offset d)).
Definition disk_discard_alignment_show (d : Z) : list Z := line (sdecimal (queue_discard_alignment d)).
Definition block_devnode (d : Z) : option (list Z) := disk_devnode d.

Definition part_partition_show (x : Z) : BM (list Z) := p ← part_at x; mret (line (sdecimal (hd_partno p))).
Definition part_start_show (x : Z) : BM (list Z) := p ← part_at x; mret (line (sdecimal (hd_start_sect p))).
Definition part_size_show (x : Z) : BM (list Z) := p ← part_at x; mret (line (sdecimal (hd_nr_sects p))).
Definition part_ro_show (x : Z) : BM (list Z) := p ← part_at x; mret (line (sdecimal (if truthy (hd_policy p) then 1 else 0))).
Definition part_alignment_offset_show (x : Z) : BM (list Z) := p ← part_at x; mret (line (sdecimal (hd_alignment_offset p))).
Definition part_discard_alignment_show (x : Z) : BM (list Z) := p ← part_at x; mret (line (sdecimal (hd_discard_alignment p))).
Definition part_stat_show (x : Z) : BM (list Z) := _ ← part_at x; t ← tick; mret (line (spaced (field 8 <$> stat_fields (part_stats x t)))).
Definition part_inflight_show (x : Z) : BM (list Z) :=
  _ ← part_at x; t ← tick; let st := part_stats x t in mret (line (field 8 (ds_in_flight st).1 ++ [32] ++ field 8 (ds_in_flight st).2)).
Definition whole_disk_show : list Z := [].

(** [make_it_fail] of a partition; [scanned] is the number the text begins with. *)
Definition part_fail_show (make_it_fail : Z) : list Z := line (sdecimal make_it_fail).
Definition part_fail_store (scanned : option Z) (count : Z) (make_it_fail : Z) : Z * Z :=
  (count, match scanned with Some i => if 0 <? count then if i =? 0 then 0 else 1 else make_it_fail | None => make_it_fail end).

Definition disk_events_strs : list (list Z) := bytes_of <$> ["media_change"; "eject_request"]%string.

(** The names of the events from bit [i] on, after [delim]. *)
Fixpoint event_names (names : list (list Z)) (i : Z) (delim : list Z) (events : Z) : list Z :=
  match names with
  | [] => []
  | n :: names => if truthy (events &&& Z.shiftl 1 i) then delim ++ n ++ event_names names (i + 1) [32] events else event_names names (i + 1) delim events
  end.

Definition events_text (events : Z) : list Z :=
  let text := event_names disk_events_strs 0 [] events in if bool_decide (text = []) then [] else line text.

Definition disk_events_show (d : Z) : BM (list Z) := g ← disk_at d; mret (events_text (gd_events g)).
Definition disk_events_async_show (d : Z) : BM (list Z) := g ← disk_at d; mret (events_text (gd_async_events g)).
Definition disk_events_poll_msecs_show (d : Z) : BM (list Z) := g ← disk_at d; ev ← blift (gd_ev g); mret (line (sdecimal (ev_poll_msecs ev))).

(** ** Names and sectors *)

Definition bdevname (d x : Z) : BM (list Z) := g ← disk_at d; p ← part_at x; mret (disk_name g (hd_partno p)).
Definition unknown_bdevname (dev : Z) : list Z :=
  take (Z.to_nat (BDEVNAME_SIZE - 1)) (bytes_of "unknown-block(" ++ decimal (MAJOR dev) ++ [44] ++ decimal (MINOR dev) ++ [41]).
End Show.

(** A page of the cache that could be read, and where it lies; [None] for an error, and whether it is marked as one. *)
Record cache_page := CachePage { cp_error : bool; cp_address : Z }.
Definition PAGE_CACHE_SHIFT : Z := 12.

(** The address of a sector, or 0, the page it holds on to, and the pages it let go. *)
Definition read_dev_sector (read_mapping_page : Z → option cache_page) (n : Z) : Z * option cache_page * list cache_page :=
  match read_mapping_page (Z.shiftr n (PAGE_CACHE_SHIFT - 9)) with
  | Some page =>
    if cp_error page then (0, None, [page])
    else (cp_address page + Z.shiftl (n &&& (Z.shiftl 1 (PAGE_CACHE_SHIFT - 9) - 1)) 9, Some page, [])
  | None => (0, None, [])
  end.

Section Sessions.
Context `{BlockApi} `{BlockCore} `{ShowCore}.

(** ** A reader of the file *)

(** [show] and [next], for at most [n] disks: the text and the new position. *)
Fixpoint seq_items (show : Z → BM (list Z)) (n : nat) (p : seq_pos) (pos : Z) : BM (list Z * Z) :=
  match n, p with
  | S n, Seq_disk d rest => a ← show d; let '(p, pos) := disk_seqf_next rest pos in '(b, pos) ← seq_items show n p pos; mret (a ++ b, pos)
  | _, _ => mret ([], pos)
  end.

(** One call of [seq_read] that has room for [n] disks; [stop] is called however [start] ended. *)
Definition partitions_session (kmalloc : option Z) (disks : list Z) (n : nat) (pos : Z) (q : seqf) : BM (list Z * Z * seqf) :=
  let '(p, header, q) := show_partition_start kmalloc disks pos q in
  '(text, pos) ← seq_items show_partition_text n p pos;
  q ← blift (disk_seqf_stop q);
  mret (header ++ text, pos, q).

(** A reader that comes back, each time with an iterator and room for at least one more disk. *)
Fixpoint partitions_sessions (reads : list (option Z * nat)) (disks : list Z) (pos : Z) (q : seqf) : BM (list Z * seqf) :=
  match reads with
  | [] => mret ([], q)
  | (kmalloc, n) :: reads =>
    '(a, pos, q) ← partitions_session kmalloc disks (S n) pos q;
    '(b, q) ← partitions_sessions reads disks pos q;
    mret (a ++ b, q)
  end.

(** The text of some disks. *)
Fixpoint show_disks (disks : list Z) : BM (list Z) :=
  match disks with [] => mret [] | d :: disks => a ← show_partition_text d; b ← show_disks disks; mret (a ++ b) end.

Lemma seqf_skip_drop disks : ∀ k, seqf_skip disks k = class_dev_iter_next (drop k disks).
Proof. induction disks as [|d disks IH]; intros [|k]; try done. cbn [seqf_skip drop]. apply IH. Qed.

Lemma seq_items_show n : ∀ rest pos s,
  seq_items show_partition_text n (class_dev_iter_next rest) pos s =
  (a ← show_disks (take n rest); mret (a, pos + Z.of_nat (length (take n rest)))) s.
Proof.
  induction n as [|n IH]; intros [|d rest] pos s; cbn [seq_items class_dev_iter_next take show_disks length]; unfold mbind, mret, BM_bind, BM_ret; try (by rewrite Z.add_0_r).
  destruct (show_partition_text d s) as [[a s1]|]; [|done]. unfold disk_seqf_next. cbv beta iota. rewrite IH. unfold mbind, mret, BM_bind, BM_ret.
  destruct (show_disks (take n rest) s1) as [[b s2]|]; [|done]. do 3 f_equal. lia.
Qed.

Lemma show_disks_app l1 l2 s : show_disks (l1 ++ l2) s = (a ← show_disks l1; b ← show_disks l2; mret (a ++ b)) s.
Proof.
  revert s. induction l1 as [|d l1 IH]; intros s; cbn [app show_disks].
  - unfold mbind, mret, BM_bind, BM_ret. by destruct (show_disks l2 s) as [[b s']|].
  - unfold mbind, mret, BM_bind, BM_ret. destruct (show_partition_text d s) as [[a s1]|]; [|done]. rewrite IH. unfold mbind, mret, BM_bind, BM_ret.
    destruct (show_disks l1 s1) as [[b s2]|]; [|done]. destruct (show_disks l2 s2) as [[c s3]|]; [|done]. by rewrite app_assoc.
Qed.

(** An iterator that can be used: it lies where there is none yet. *)
Definition fresh_iter (q : seqf) (a : Z) : Prop := a ≠ 0 ∧ a ∉ sq_iters q.

Lemma session_ok a disks n k q s : fresh_iter q a → (k ≤ length disks)%nat →
  partitions_session (Some a) disks (S n) (Z.of_nat k) q s =
  (text ← show_disks (take (S n) (drop k disks));
   mret ((if bool_decide (k = 0%nat ∧ disks ≠ []) then partitions_header else []) ++ text,
         Z.of_nat (k + length (take (S n) (drop k disks))), Seqf a (sq_iters q))) s.
Proof.
  intros [Ha Hq] Hk. unfold partitions_session, show_partition_start, disk_seqf_start. rewrite Nat2Z.id, seqf_skip_drop. cbv beta iota.
  assert (match class_dev_iter_next (drop k disks) with Seq_disk _ _ => if truthy (Z.of_nat k) then [] else partitions_header | _ => [] end =
          if bool_decide (k = 0%nat ∧ disks ≠ []) then partitions_header else []) as ->.
  { destruct k as [|k]; [by destruct disks|]. rewrite bool_decide_false by (by intros [? _]). by destruct (drop (S k) disks). }
  unfold mbind at 1, BM_bind at 1. rewrite seq_items_show. unfold mbind, mret, BM_bind, BM_ret.
  destruct (show_disks _ s) as [[text s1]|]; [|done]. unfold disk_seqf_stop. cbn [sq_private sq_iters].
  assert (truthy a = true) as -> by (unfold truthy; destruct (Z.eqb_spec a 0); done). rewrite bool_decide_true by set_solver.
  assert (({[a]} ∪ sq_iters q) ∖ {[a]} = sq_iters q) as -> by set_solver. cbn. by rewrite Nat2Z.inj_add.
Qed.

(** Room for disks in all reads. *)
Definition room (reads : list (option Z * nat)) : nat := foldr (λ r n, S r.2 + n)%nat 0%nat reads.

Lemma take_add_drop {A} (l : list A) a m : take (a + m) l = take a l ++ take m (drop (length (take a l)) l).
Proof.
  rewrite length_take. destruct (decide (a ≤ length l)%nat).
  - rewrite Nat.min_l by lia. by rewrite take_take_drop.
  - rewrite Nat.min_r by lia. rewrite drop_all, take_nil, app_nil_r, !take_ge by lia. done.
Qed.

Lemma sessions_ok disks reads : ∀ k q s, Forall (λ r, ∃ a, r.1 = Some a ∧ fresh_iter q a) reads → (k ≤ length disks)%nat →
  ∃ p, partitions_sessions reads disks (Z.of_nat k) q s =
    (text ← show_disks (take (room reads) (drop k disks));
     mret ((if bool_decide (k = 0%nat ∧ disks ≠ [] ∧ reads ≠ []) then partitions_header else []) ++ text, Seqf p (sq_iters q))) s.
Proof.
  induction reads as [|[m n] reads IH]; intros k q s Hr Hk; cbn [partitions_sessions room foldr].
  - exists (sq_private q). rewrite bool_decide_false by (by intros (_ & _ & ?)). by destruct q.
  - apply Forall_cons in Hr as [(a & Hm & Ha) Hr]. cbn in Hm. subst m. fold (room reads).
    set (k' := (k + length (take (S n) (drop k disks)))%nat).
    assert (k' ≤ length disks)%nat as Hk' by (unfold k'; rewrite length_take, length_drop; lia).
    destruct (show_disks (take (S n) (drop k disks)) s) as [[ta s1]|] eqn:Ea.
    + destruct (IH k' (Seqf a (sq_iters q)) s1 Hr Hk') as [p Hp]. exists p.
      unfold mbind at 1, BM_bind at 1. rewrite session_ok by done. unfold mbind at 1, BM_bind at 1. rewrite Ea. unfold mret at 1, BM_ret at 1. cbv beta iota. fold k'.
      unfold mbind at 1, BM_bind at 1. rewrite Hp. cbn [snd]. rewrite take_add_drop, drop_drop. unfold mbind, mret, BM_bind, BM_ret. rewrite show_disks_app. unfold mbind, mret, BM_bind, BM_ret. rewrite Ea. fold k'.
      destruct (show_disks (take (room reads) (drop k' disks)) s1) as [[tb s2]|]; [|done]. cbn [sq_iters].
      assert ((if bool_decide (k' = 0%nat ∧ disks ≠ [] ∧ reads ≠ []) then partitions_header else []) = []) as ->.
      { destruct disks as [|d disks]; [rewrite bool_decide_false by tauto; done|]. rewrite bool_decide_false; [done|]. intros (E & _). unfold k' in E. rewrite length_take, length_drop in E. cbn [length] in *. lia. }
      rewrite (bool_decide_ext (k = 0%nat ∧ disks ≠ [] ∧ (Some a, n) :: reads ≠ []) (k = 0%nat ∧ disks ≠ [])) by naive_solver. cbn [app]. by rewrite <- app_assoc.
    + exists 0. unfold mbind at 1, BM_bind at 1. rewrite session_ok by done. unfold mbind at 1, BM_bind at 1. rewrite Ea.
      cbn [snd]. rewrite take_add_drop. unfold mbind, BM_bind. rewrite show_disks_app. unfold mbind, BM_bind. by rewrite Ea.
Qed.

(** C29: Reading /proc/partitions in pieces gives every disk of the class once and in order, under one header, wherever the pieces end, as long as the class does not change and memory for the
    iterators is there; nothing is accessed after it was freed and no iterator is left allocated. *)
Theorem partitions_read_in_pieces disks reads q s : Forall (λ r, ∃ a, r.1 = Some a ∧ fresh_iter q a) reads → (length disks ≤ room reads)%nat → reads ≠ [] →
  ∃ p, partitions_sessions reads disks 0 q s =
    (text ← show_disks disks; mret ((if bool_decide (disks = []) then [] else partitions_header) ++ text, Seqf p (sq_iters q))) s.
Proof.
  intros Hr Hroom Hne. destruct (sessions_ok disks reads 0 q s Hr ltac:(lia)) as [p Hp]. exists p. change (Z.of_nat 0) with 0 in Hp. rewrite Hp. cbn [drop]. rewrite take_ge by done.
  destruct disks as [|d disks]; [by rewrite bool_decide_false by tauto|]. by rewrite bool_decide_true by (by split_and!).
Qed.

(** A read of /proc/partitions for which there is no memory, after one that went well, frees the iterator of the earlier read again: [stop] is called although [start] failed, and [private]
    still points to what the last [stop] freed. *)
Theorem stop_after_failed_start_frees_again disks n m k q a s t s1 : fresh_iter q a → (k ≤ length disks)%nat → show_disks (take (S n) (drop k disks)) s = Some (t, s1) →
  partitions_sessions [(Some a, n); (None, m)] disks (Z.of_nat k) q s = None.
Proof.
  intros Ha Hk Hs. cbn [partitions_sessions]. unfold mbind at 1, BM_bind at 1. rewrite session_ok by done. unfold mbind at 1, BM_bind at 1. rewrite Hs. unfold mret at 1, BM_ret at 1. cbv beta iota.
  unfold partitions_session, show_partition_start, disk_seqf_start. cbv beta iota. cbn [seq_items]. unfold mbind, mret, BM_bind, BM_ret, blift, disk_seqf_stop. cbn [sq_private sq_iters].
  destruct Ha as [Ha Hq]. assert (truthy a = true) as -> by (unfold truthy; destruct (Z.eqb_spec a 0); done). by rewrite bool_decide_false.
Qed.
End Sessions.

(** ** Device numbers and sectors *)

Lemma length_pad_left w c l : length (pad_left w c l) = Nat.max w (length l).
Proof. unfold pad_left. rewrite length_app, length_replicate. lia. Qed.

Lemma length_hex w n : 0 ≤ n < 16 ^ Z.of_nat (S w) → length (pad_left (S w) 48 (hexadecimal n)) = S w.
Proof. intros Hn. rewrite length_pad_left. pose proof (hexdigits_length (S (Z.to_nat (Z.log2 n))) n w Hn). unfold hexadecimal. lia. Qed.

(** The device numbers in the list printed at boot are nine characters wide, so they end in one column and no digit is cut off. *)
Theorem bdevt_str_fits `{BlockApi} devt : MINORBITS = 20 → 0 ≤ devt < 2 ^ 32 →
  length (bdevt_str devt) = 9%nat ∧ bdevt_str devt =
    (if (MAJOR devt <=? 255) && (MINOR devt <=? 255) then pad_left 2 48 (hexadecimal (MAJOR devt)) ++ pad_left 2 48 (hexadecimal (MINOR devt)) ++ replicate 5 32
     else pad_left 3 48 (hexadecimal (MAJOR devt)) ++ [58] ++ pad_left 5 48 (hexadecimal (MINOR devt))).
Proof.
  intros Hb Hd. assert (0 ≤ MAJOR devt < 16 ^ 3) as Hma by (unfold MAJOR; rewrite Hb, Z.shiftr_div_pow2 by lia; divmod).
  assert (0 ≤ MINOR devt < 16 ^ 5) as Hmi by (unfold MINOR; rewrite Hb, land_pow2_mask by lia; divmod).
  assert (∀ l : list Z, length l = 9%nat → take (Z.to_nat (BDEVT_SIZE - 1)) l = l) as Htake by (intros l Hl; apply take_ge; change (Z.to_nat (BDEVT_SIZE - 1)) with 9%nat; lia).
  unfold bdevt_str. destruct (Z.leb_spec (MAJOR devt) 255), (Z.leb_spec (MINOR devt) 255); cbn [andb].
  2-4: rewrite Htake; [split; [|done]|]; rewrite !length_app, (length_hex 2), (length_hex 4) by (cbn; lia); done.
  assert (length (pad_left 2 48 (hexadecimal (MAJOR devt)) ++ pad_left 2 48 (hexadecimal (MINOR devt))) = 4%nat) as H4 by (rewrite length_app, !(length_hex 1) by (cbn; lia); done).
  rewrite (take_ge (_ ++ _)) by (rewrite H4; change (Z.to_nat (BDEVT_SIZE - 1)) with 9%nat; lia). unfold pad_right. rewrite H4. rewrite Htake by (rewrite length_app, H4; done).
  split; [by rewrite length_app, H4|]. by rewrite <- app_assoc.
Qed.

(** A sector is read at its place in the page it is in, all of it inside the page, and the page is kept; without a good page there is no address and nothing is kept. *)
Theorem sector_lies_in_its_page read_mapping_page n : 0 ≤ n →
  match read_dev_sector read_mapping_page n with
  | (addr, Some page, freed) => ∃ off, read_mapping_page (n / 8) = Some page ∧ addr = cp_address page + off ∧ n / 8 * 4096 + off = n * 512 ∧ 0 ≤ off ∧ off + 512 ≤ 4096 ∧ freed = []
  | (addr, None, freed) => addr = 0 ∧ match read_mapping_page (n / 8) with Some page => cp_error page = true ∧ freed = [page] | None => freed = [] end
  end.
Proof.
  intros Hn. unfold read_dev_sector. change (PAGE_CACHE_SHIFT - 9) with 3. rewrite Z.shiftr_div_pow2 by lia. change (2 ^ 3) with 8. destruct (read_mapping_page (n / 8)) as [page|]; [|done].
  destruct (cp_error page) eqn:E; [done|]. eexists. split; [done|]. split; [reflexivity|]. change (Z.shiftl 1 3 - 1) with (2 ^ 3 - 1). rewrite land_pow2_mask, Z.shiftl_mul_pow2 by lia.
  change (2 ^ 3) with 8. change (2 ^ 9) with 512. split_and!; [divmod..|done].
Qed.

(** ** Examples *)

Module DiskShowDemo.
Import BlockDemo DiskDemo.

#[local] Instance demo_show : ShowCore := {|
  part_stats _ _ := DiskStats (1, 2) (3, 4) (5, 6) (7, 8) (0, 1) 9 10; jiffies_to_msecs n := 10 * n; queue_alignment_offset _ := 0; queue_discard_alignment _ := 0;
  driver_name _ := Some (bytes_of "mmcblk"); disk_devnode _ := None |}.

Definition closed : seqf := Seqf 0 ∅.

(** The scanned disk, which has no number yet, with its two partitions. *)
Example partitions_of_a_disk : fst <$> show_partition_text 1 scanned = Some (
  bytes_of "   0        0        500 mmcblk0" ++ [10] ++ bytes_of " 179        1         50 mmcblk0p1" ++ [10] ++ bytes_of " 179        2        200 mmcblk0p2" ++ [10]).
Proof. vm_compute. reflexivity. Qed.

Lemma partitions_read_in_pieces_witness : ∃ p,
  partitions_sessions [(Some 5, 0%nat); (Some 5, 3%nat)] [1] 0 closed scanned =
    (text ← show_disks [1]; mret ((if bool_decide ([1] = []) then [] else partitions_header) ++ text, Seqf p ∅)) scanned.
Proof.
  refine (partitions_read_in_pieces [1] [(Some 5, 0%nat); (Some 5, 3%nat)] closed scanned _ _ _).
  - repeat constructor; exists 5; (split; [reflexivity|]); split; try discriminate; apply not_elem_of_empty.
  - vm_compute. lia.
  - discriminate.
Defined.

Lemma stop_after_failed_start_frees_again_witness : partitions_sessions [(Some 5, 0%nat); (None, 3%nat)] [1] 0 closed scanned = None.
Proof.
  assert (∃ t s1, show_disks (take 1 (drop 0 [1])) scanned = Some (t, s1)) as (t & s1 & Hs) by (eexists _, _; vm_compute; reflexivity).
  refine (stop_after_failed_start_frees_again [1] 0 3 0 closed 5 scanned t s1 _ _ Hs).
  - split; [discriminate|]. apply not_elem_of_empty.
  - cbn. lia.
Defined.

Example boot_list : fst <$> printk_all_partitions [1] scanned = Some (
  bytes_of "0000             500 mmcblk0  driver: mmcblk" ++ [10] ++ bytes_of "  b301              50 mmcblk0p1 " ++ [10] ++ bytes_of "  b302             200 mmcblk0p2 " ++ [10]).
Proof. vm_compute. reflexivity. Qed.

Example both_events : events_text 3 = bytes_of "media_change eject_request" ++ [10] ∧ events_text 2 = bytes_of "eject_request" ++ [10] ∧ events_text 0 = [].
Proof. vm_compute. split_and!; reflexivity. Qed.

Lemma bdevt_str_fits_witness : bdevt_str (MKDEV 259 1) = bytes_of "103:00001" ∧ length (bdevt_str (MKDEV 259 1)) = 9%nat.
Proof. split; [vm_compute; reflexivity|]. apply (bdevt_str_fits (MKDEV 259 1)); [reflexivity|vm_compute; split; [discriminate|reflexivity]]. Defined.

Lemma sector_lies_in_its_page_witness : ∃ off, 65536 + 3 * 512 = 65536 + off ∧ 19 / 8 * 4096 + off = 19 * 512 ∧ 0 ≤ off ∧ off + 512 ≤ 4096.
Proof. destruct (sector_lies_in_its_page (λ _, Some (CachePage false 65536)) 19 ltac:(lia)) as (off & _ & H1 & H2 & H3 & H4 & _). exists off. split; [exact H1|]. split; [exact H2|]. split; [exact H3|exact H4]. Defined.

(** The extended major is registered at the start, unless the class cannot be. *)
Example started_block_layer : genhd_device_init 0 true no_majors ≠ None ∧ genhd_device_init (-12) true no_majors = Some (-12, no_majors).
Proof. split; [vm_compute; discriminate|vm_compute; reflexivity]. Qed.
End DiskShowDemo.
