(* ===== verification/ProcState.v ===== *)
(** * Procfs: processes and inodes

    The state behind [patches/kernel/proc-base.c]: the kernel's process numbers, tasks, thread groups and
    address spaces, and the inodes and cached names of the file system.  Each is a map from addresses, a null pointer is 0, and an address that is not in its map is freed memory.
    One process namespace is modelled, the one the file system was mounted for.  References to tasks and address spaces are counted, so that a path that loses one or gives one back twice
    is seen.  The rest of the kernel is the class [ProcKernel]. *)
From stdpp Require Import gmap.
From S2P Require Import Prelude Text.

(** ** Data *)

(** [struct pid]: its number, and the task that has it or 0. *)
Record pid_struct := Pid {
  pd_nr : Z;
  pd_task : Z }.


(** [struct k_itimer]: a POSIX timer with its signal and value, how it notifies whom, and its clock. *)
Record k_itimer := Itimer { it_id : Z; it_signo : Z; it_value : Z; it_sigev_notify : Z; it_pid : Z; it_clock : Z }.

(** [struct signal_struct], which the threads of a group share; the limits are pairs, soft and hard, [sg_ioac] has the counters of threads that are gone. *)
Record signal_struct := Signal {
  sg_oom_score_adj : Z;
  sg_oom_score_adj_min : Z;
  sg_leader_pid : Z;
  sg_nr_threads : Z;
  sg_rlim : list (Z * Z);
  sg_ioac : list Z;
  sg_posix_timers : list k_itimer }.

Definition set_sg_oom_score_adj (x : Z) (o : signal_struct) : signal_struct :=
    Signal x (sg_oom_score_adj_min o) (sg_leader_pid o) (sg_nr_threads o) (sg_rlim o) (sg_ioac o) (sg_posix_timers o).
Definition set_sg_oom_score_adj_min (x : Z) (o : signal_struct) : signal_struct :=
    Signal (sg_oom_score_adj o) x (sg_leader_pid o) (sg_nr_threads o) (sg_rlim o) (sg_ioac o) (sg_posix_timers o).

(** [struct task_struct] with its credentials; [tk_sighand] is false from the time the task gives up its signal handlers, [tk_fs] has the paths of its root and working directory, [tk_ioac] the seven counters of input and output. *)
Record task_struct := Task {
  tk_usage : Z;
  tk_pid : Z;
  tk_signal : Z;
  tk_sighand : bool;
  tk_mm : Z;
  tk_uid : Z;
  tk_euid : Z;
  tk_egid : Z;
  tk_dumpable : bool;
  tk_comm : list Z;
  tk_group_leader : Z;
  tk_next_thread : Z;
  tk_fs : option (Z * Z);
  tk_personality : Z;
  tk_make_it_fail : Z;
  tk_loginuid : Z;
  tk_sessionid : Z;
  tk_ioac : list Z;
  tk_user_ns : Z }.

Definition set_tk_usage (x : Z) (o : task_struct) : task_struct :=
    Task x (tk_pid o) (tk_signal o) (tk_sighand o) (tk_mm o) (tk_uid o) (tk_euid o) (tk_egid o) (tk_dumpable o)
    (tk_comm o) (tk_group_leader o) (tk_next_thread o) (tk_fs o) (tk_personality o) (tk_make_it_fail o) (tk_loginuid
    o) (tk_sessionid o) (tk_ioac o) (tk_user_ns o).
Definition set_tk_comm (x : list Z) (o : task_struct) : task_struct :=
    Task (tk_usage o) (tk_pid o) (tk_signal o) (tk_sighand o) (tk_mm o) (tk_uid o) (tk_euid o) (tk_egid o)
    (tk_dumpable o) x (tk_group_leader o) (tk_next_thread o) (tk_fs o) (tk_personality o) (tk_make_it_fail o)
    (tk_loginuid o) (tk_sessionid o) (tk_ioac o) (tk_user_ns o).
Definition set_tk_make_it_fail (x : Z) (o : task_struct) : task_struct :=
    Task (tk_usage o) (tk_pid o) (tk_signal o) (tk_sighand o) (tk_mm o) (tk_uid o) (tk_euid o) (tk_egid o)
    (tk_dumpable o) (tk_comm o) (tk_group_leader o) (tk_next_thread o) (tk_fs o) (tk_personality o) x (tk_loginuid o)
    (tk_sessionid o) (tk_ioac o) (tk_user_ns o).
Definition set_tk_loginuid (x : Z) (o : task_struct) : task_struct :=
    Task (tk_usage o) (tk_pid o) (tk_signal o) (tk_sighand o) (tk_mm o) (tk_uid o) (tk_euid o) (tk_egid o)
    (tk_dumpable o) (tk_comm o) (tk_group_leader o) (tk_next_thread o) (tk_fs o) (tk_personality o) (tk_make_it_fail
    o) x (tk_sessionid o) (tk_ioac o) (tk_user_ns o).

(** [struct mm_struct]: its executable is a path or 0, [mm_bytes] is what is stored in it, [mm_flags] the bits that say what a core dump has. *)
Record mm_struct := Mm {
  mm_users : Z;
  mm_count : Z;
  mm_env_start : Z;
  mm_env_end : Z;
  mm_exe_file : Z;
  mm_saved_auxv : list Z;
  mm_bytes : Z → Z;
  mm_flags : Z }.

Definition set_mm_users (x : Z) (o : mm_struct) : mm_struct :=
    Mm x (mm_count o) (mm_env_start o) (mm_env_end o) (mm_exe_file o) (mm_saved_auxv o) (mm_bytes o) (mm_flags o).
Definition set_mm_count (x : Z) (o : mm_struct) : mm_struct :=
    Mm (mm_users o) x (mm_env_start o) (mm_env_end o) (mm_exe_file o) (mm_saved_auxv o) (mm_bytes o) (mm_flags o).
Definition set_mm_bytes (x : Z → Z) (o : mm_struct) : mm_struct :=
    Mm (mm_users o) (mm_count o) (mm_env_start o) (mm_env_end o) (mm_exe_file o) (mm_saved_auxv o) x (mm_flags o).
Definition set_mm_flags (x : Z) (o : mm_struct) : mm_struct :=
    Mm (mm_users o) (mm_count o) (mm_env_start o) (mm_env_end o) (mm_exe_file o) (mm_saved_auxv o) (mm_bytes o) x.

(** What the operations of an inode are: those it starts with, of a process, of a thread, of a mapped file, or of the entry with a name in
    one of the tables. *)
Inductive node_ops := Ops_def | Ops_tgid | Ops_tid | Ops_entry (name : list Z) | Ops_map.

(** [struct inode] with the [struct pid] of its [proc_inode]. *)
Record inode := Inode {
  in_ino : Z;
  in_mode : Z;
  in_uid : Z;
  in_gid : Z;
  in_nlink : Z;
  in_pid : Z;
  in_ops : node_ops;
  in_immutable : bool }.

Definition set_in_mode (x : Z) (o : inode) : inode :=
    Inode (in_ino o) x (in_uid o) (in_gid o) (in_nlink o) (in_pid o) (in_ops o) (in_immutable o).
Definition set_in_uid (x : Z) (o : inode) : inode :=
    Inode (in_ino o) (in_mode o) x (in_gid o) (in_nlink o) (in_pid o) (in_ops o) (in_immutable o).
Definition set_in_gid (x : Z) (o : inode) : inode :=
    Inode (in_ino o) (in_mode o) (in_uid o) x (in_nlink o) (in_pid o) (in_ops o) (in_immutable o).
Definition set_in_nlink (x : Z) (o : inode) : inode :=
    Inode (in_ino o) (in_mode o) (in_uid o) (in_gid o) x (in_pid o) (in_ops o) (in_immutable o).
Definition set_in_ops (x : node_ops) (o : inode) : inode :=
    Inode (in_ino o) (in_mode o) (in_uid o) (in_gid o) (in_nlink o) (in_pid o) x (in_immutable o).
Definition set_in_immutable (x : bool) (o : inode) : inode :=
    Inode (in_ino o) (in_mode o) (in_uid o) (in_gid o) (in_nlink o) (in_pid o) (in_ops o) x.

(** The cached names are those of a directory inode with the inode they lead to; [ps_paths] counts the references to paths, [ps_remote] lists the accesses to the memory of
    processes, [ps_tick] counts the calls into the rest of the kernel, [ps_user_nss] the references to user namespaces. *)
Record pstate := Pstate {
  ps_pids : gmap Z pid_struct;
  ps_numbers : gmap Z Z;
  ps_tasks : gmap Z task_struct;
  ps_signals : gmap Z signal_struct;
  ps_mms : gmap Z mm_struct;
  ps_inodes : gmap Z inode;
  ps_dcache : gmap (Z * list Z) Z;
  ps_next_ino : Z;
  ps_paths : gmap Z Z;
  ps_tick : nat;
  ps_remote : list (Z * Z * Z);
  ps_user_nss : gmap Z Z }.

Definition set_ps_tasks (x : gmap Z task_struct) (o : pstate) : pstate :=
    Pstate (ps_pids o) (ps_numbers o) x (ps_signals o) (ps_mms o) (ps_inodes o) (ps_dcache o) (ps_next_ino o)
    (ps_paths o) (ps_tick o) (ps_remote o) (ps_user_nss o).
Definition set_ps_signals (x : gmap Z signal_struct) (o : pstate) : pstate :=
    Pstate (ps_pids o) (ps_numbers o) (ps_tasks o) x (ps_mms o) (ps_inodes o) (ps_dcache o) (ps_next_ino o) (ps_paths
    o) (ps_tick o) (ps_remote o) (ps_user_nss o).
Definition set_ps_mms (x : gmap Z mm_struct) (o : pstate) : pstate :=
    Pstate (ps_pids o) (ps_numbers o) (ps_tasks o) (ps_signals o) x (ps_inodes o) (ps_dcache o) (ps_next_ino o)
    (ps_paths o) (ps_tick o) (ps_remote o) (ps_user_nss o).
Definition set_ps_inodes (x : gmap Z inode) (o : pstate) : pstate :=
    Pstate (ps_pids o) (ps_numbers o) (ps_tasks o) (ps_signals o) (ps_mms o) x (ps_dcache o) (ps_next_ino o) (ps_paths
    o) (ps_tick o) (ps_remote o) (ps_user_nss o).
Definition set_ps_dcache (x : gmap (Z * list Z) Z) (o : pstate) : pstate :=
    Pstate (ps_pids o) (ps_numbers o) (ps_tasks o) (ps_signals o) (ps_mms o) (ps_inodes o) x (ps_next_ino o) (ps_paths
    o) (ps_tick o) (ps_remote o) (ps_user_nss o).
Definition set_ps_next_ino (x : Z) (o : pstate) : pstate :=
    Pstate (ps_pids o) (ps_numbers o) (ps_tasks o) (ps_signals o) (ps_mms o) (ps_inodes o) (ps_dcache o) x (ps_paths
    o) (ps_tick o) (ps_remote o) (ps_user_nss o).
Definition set_ps_paths (x : gmap Z Z) (o : pstate) : pstate :=
    Pstate (ps_pids o) (ps_numbers o) (ps_tasks o) (ps_signals o) (ps_mms o) (ps_inodes o) (ps_dcache o) (ps_next_ino
    o) x (ps_tick o) (ps_remote o) (ps_user_nss o).
Definition set_ps_tick (x : nat) (o : pstate) : pstate :=
    Pstate (ps_pids o) (ps_numbers o) (ps_tasks o) (ps_signals o) (ps_mms o) (ps_inodes o) (ps_dcache o) (ps_next_ino
    o) (ps_paths o) x (ps_remote o) (ps_user_nss o).
Definition set_ps_remote (x : list (Z * Z * Z)) (o : pstate) : pstate :=
    Pstate (ps_pids o) (ps_numbers o) (ps_tasks o) (ps_signals o) (ps_mms o) (ps_inodes o) (ps_dcache o) (ps_next_ino
    o) (ps_paths o) (ps_tick o) x (ps_user_nss o).
Definition set_ps_user_nss (x : gmap Z Z) (o : pstate) : pstate :=
    Pstate (ps_pids o) (ps_numbers o) (ps_tasks o) (ps_signals o) (ps_mms o) (ps_inodes o) (ps_dcache o) (ps_next_ino
    o) (ps_paths o) (ps_tick o) (ps_remote o) x.

(** The credentials of the process that calls, and its task. *)
Record caller := Caller { cl_task : Z; cl_euid : Z; cl_sys_resource : bool; cl_groups : list Z }.

(** [struct pid_namespace]: how much of other users' processes is hidden, and from whom not. *)
Record pid_namespace := PidNs { ns_hide_pid : Z; ns_pid_gid : Z }.

(** ** The rest of the kernel *)

(** Constants of headers, the text functions, and what can fail or depends on code elsewhere; the functions that get a [nat] can answer
    differently at each call.  [kstrtoint] gives the error and the number; [simple_read_from_buffer] gets the room at the destination, the count,
    the position and the text, and gives the result, the copied bytes and the new position; [mm_access] gives the error, for reading or for attaching, the memory being what [get_task_mm] gives;
    [remote_len] is the number of bytes [access_remote_vm] transfers; [d_path] gives an error or the text of a path, [task_current_syscall] the call of a task that is not running: its number, arguments, stack and program counter. *)
Class ProcKernel := {
  PROC_NUMBUF : Z; OOM_DISABLE : Z; OOM_ADJUST_MIN : Z; OOM_ADJUST_MAX : Z; OOM_SCORE_ADJ_MIN : Z; OOM_SCORE_ADJ_MAX : Z;
  TASK_COMM_LEN : Z; PAGE_SIZE : Z; PID_MAX_LIMIT : Z; FIRST_PROCESS_ENTRY : Z; RLIM_INFINITY : Z;
  S_IFDIR : Z; S_IFREG : Z; S_IFLNK : Z; S_IFMT : Z; S_ISUID : Z; S_ISGID : Z; DT_UNKNOWN : Z; DT_LNK : Z;
  strstrip : list Z → list Z;
  kstrtoint : list Z → Z * Z;
  name_to_int : list Z → Z;
  simple_read_from_buffer : Z → Z → Z → list Z → Z * list Z * Z;
  ptrace_may_access : caller → task_struct → bool → bool;
  mm_access : caller → task_struct → bool → Z;
  generic_permission : inode → Z → Z;
  find_ge_pid : gset Z → Z → option Z;
  get_free_page : nat → bool;
  d_path : Z → Z + list Z;
  get_wchan : task_struct → Z;
  lookup_symbol_name : Z → option (list Z);
  mutex_lock_killable : nat → Z;
  task_current_syscall : task_struct → nat → option (Z * list Z * Z * Z);
  oom_badness : task_struct → Z → Z;
  totalpages : Z;
  remote_len : Z → Z → Z → bool → nat → Z;
  new_inode : gset Z → nat → option Z;
  d_alloc : nat → bool }.

(** What the code relies on: the values of the constants; what [kstrtoint] makes of a printed number and that its numbers are
    ints; a process number that is the next one; access that does not depend on the number of references; errors that are negative and paths that fit in a page; a transfer of no more than was asked for; new inodes that are new. *)
Class ProcKernelLaws `{ProcKernel} : Prop := {
  oom_constants : OOM_DISABLE = -17 ∧ OOM_ADJUST_MIN = -16 ∧ OOM_ADJUST_MAX = 15 ∧ OOM_SCORE_ADJ_MIN = -1000 ∧ OOM_SCORE_ADJ_MAX = 1000;
  proc_constants : PROC_NUMBUF = 13 ∧ 1 < TASK_COMM_LEN ∧ 0 < PAGE_SIZE < 2 ^ 31 ∧ 0 < PID_MAX_LIMIT < 2 ^ 30 ∧ 0 ≤ FIRST_PROCESS_ENTRY < 2 ^ 20;
  kstrtoint_range s err v : kstrtoint s = (err, v) → err ≤ 0 ∧ - 2 ^ 31 ≤ v < 2 ^ 31;
  kstrtoint_decimal v : - 2 ^ 31 ≤ v < 2 ^ 31 → kstrtoint (strstrip (sdecimal v ++ [10])) = (0, v);
  simple_read_all room count from : zlen from ≤ count → zlen from ≤ room → simple_read_from_buffer room count 0 from = (zlen from, from, zlen from);
  name_to_int_decimal n : 0 ≤ n < 2 ^ 32 - 1 → name_to_int (decimal n) = n;
  find_ge_pid_least l n m : find_ge_pid l n = Some m ↔ m ∈ l ∧ n ≤ m ∧ ∀ k, k ∈ l → n ≤ k → m ≤ k;
  ptrace_usage cur k u b : ptrace_may_access cur (set_tk_usage u k) b = ptrace_may_access cur k b;
  mutex_lock_error t : mutex_lock_killable t ≤ 0;
  d_path_fits x : match d_path x with inl e => e < 0 | inr l => zlen l < PAGE_SIZE end;
  remote_len_range mm addr len w t : 0 ≤ len → 0 ≤ remote_len mm addr len w t ≤ len;
  new_inode_fresh l t x : new_inode l t = Some x → 0 < x ∧ x ∉ l }.

(** ** The monad *)

Definition PM (A : Type) : Type := pstate → option (A * pstate).
#[export] Instance PM_ret : MRet PM := λ _ x s, Some (x, s).
#[export] Instance PM_bind : MBind PM := λ _ _ k m s, match m s with Some (x, s') => k x s' | None => None end.

Definition plift {A} (o : option A) : PM A := λ s, x ← o; Some (x, s).
Definition pget {A} (f : pstate → A) : PM A := λ s, Some (f s, s).
Definition pmod (f : pstate → pstate) : PM () := λ s, Some ((), f s).
Definition pfault {A} : PM A := λ _, None.
Definition ptick : PM nat := t ← pget ps_tick; _ ← pmod (set_ps_tick (S t)); mret t.

Definition pid_at (x : Z) : PM pid_struct := λ s, p ← ps_pids s !! x; Some (p, s).
Definition task_at (x : Z) : PM task_struct := λ s, t ← ps_tasks s !! x; Some (t, s).
Definition signal_at (x : Z) : PM signal_struct := λ s, g ← ps_signals s !! x; Some (g, s).
Definition mm_at (x : Z) : PM mm_struct := λ s, m ← ps_mms s !! x; Some (m, s).
Definition inode_at (x : Z) : PM inode := λ s, i ← ps_inodes s !! x; Some (i, s).
Definition upd_task (x : Z) (f : task_struct → task_struct) : PM () :=
  λ s, t ← ps_tasks s !! x; Some ((), set_ps_tasks (<[x := f t]> (ps_tasks s)) s).
Definition upd_signal (x : Z) (f : signal_struct → signal_struct) : PM () :=
  λ s, g ← ps_signals s !! x; Some ((), set_ps_signals (<[x := f g]> (ps_signals s)) s).
Definition upd_mm (x : Z) (f : mm_struct → mm_struct) : PM () :=
  λ s, m ← ps_mms s !! x; Some ((), set_ps_mms (<[x := f m]> (ps_mms s)) s).
Definition upd_inode (x : Z) (f : inode → inode) : PM () :=
  λ s, i ← ps_inodes s !! x; Some ((), set_ps_inodes (<[x := f i]> (ps_inodes s)) s).

(** ** References *)

(** [pid_task], [get_proc_task] and the counts of tasks and address spaces. *)
Definition pid_task (pid : Z) : PM Z := p ← pid_at pid; mret (pd_task p).
Definition get_task_struct (t : Z) : PM () := upd_task t (λ k, set_tk_usage (tk_usage k + 1) k).
Definition put_task_struct (t : Z) : PM () :=
  k ← task_at t;
  if tk_usage k =? 1 then pmod (λ s, set_ps_tasks (delete t (ps_tasks s)) s)
  else upd_task t (set_tk_usage (tk_usage k - 1)).
Definition get_pid_task (pid : Z) : PM Z := t ← pid_task pid; _ ← (if truthy t then get_task_struct t else mret ()); mret t.
Definition get_proc_task (ino : Z) : PM Z := i ← inode_at ino; get_pid_task (in_pid i).

(** The address space of a task, with a user more, or 0. *)
Definition get_task_mm (t : Z) : PM Z :=
  k ← task_at t;
  _ ← (if truthy (tk_mm k) then upd_mm (tk_mm k) (λ m, set_mm_users (mm_users m + 1) m) else mret ());
  mret (tk_mm k).
Definition mmput (m : Z) : PM () := upd_mm m (λ o, set_mm_users (mm_users o - 1) o).

(** The part of a buffer before its first zero. *)
Fixpoint cstring (b : list Z) : list Z := match b with [] => [] | c :: b => if c =? 0 then [] else c :: cstring b end.

(** [copy_from_user]: the bytes the caller can read, or a fault. *)
Definition copy_from_user (ubuf : list Z) (n : Z) : option (list Z) := if n <=? zlen ubuf then Some (take (Z.to_nat n) ubuf) else None.
