(* ===== verification/ProcOom.v ===== *)
(** * Procfs: the files that steer the out-of-memory killer

    [oom_adj] and [oom_score_adj] of [patches/kernel/proc-base.c], with the permission that lets Android's
    system_server write them for other users' processes. *)
From stdpp Require Import gmap.
From S2P Require Import Prelude Text ProcState.

Abbreviation s16 := (signed 16).

Section Oom.
Context `{ProcKernel}.

(** ** The handlers *)

Definition oom_adj_write_permitted (cur : caller) (task : task_struct) : bool :=
  cl_sys_resource cur || (cl_euid cur =? tk_uid task) || (cl_euid cur =? tk_euid task).

(** The result, what is copied to the caller, and the new position. *)
Definition oom_adj_read (ino room count pos : Z) : PM (Z * list Z * Z) :=
  task ← get_proc_task ino;
  if negb (truthy task) then mret (- Errno.ESRCH, [], pos)
  else
    k ← task_at task;
    oom_adj ← (if tk_sighand k then
                 g ← signal_at (tk_signal k);
                 mret (if sg_oom_score_adj g =? OOM_SCORE_ADJ_MAX then OOM_ADJUST_MAX
                       else Z.quot (sg_oom_score_adj g * - OOM_DISABLE) OOM_SCORE_ADJ_MAX)
               else mret OOM_ADJUST_MIN);
    _ ← put_task_struct task;
    mret (simple_read_from_buffer room count pos (sdecimal oom_adj ++ [10])).

Definition oom_adj_write (cur : caller) (ino : Z) (ubuf : list Z) (count : Z) : PM Z :=
  let count := if PROC_NUMBUF - 1 <? count then PROC_NUMBUF - 1 else count in
  let out err := mret (if err <? 0 then err else count) in
  match copy_from_user ubuf count with
  | None => out (- Errno.EFAULT)
  | Some buffer =>
    let '(err, oom_adj) := kstrtoint (strstrip (cstring buffer)) in
    if truthy err then out err
    else if ((oom_adj <? OOM_ADJUST_MIN) || (OOM_ADJUST_MAX <? oom_adj)) && negb (oom_adj =? OOM_DISABLE) then out (- Errno.EINVAL)
    else
      task ← get_proc_task ino;
      if negb (truthy task) then out (- Errno.ESRCH)
      else
        let out_put err := _ ← put_task_struct task; out err in
        k ← task_at task;
        if negb (truthy (tk_mm k)) then out_put (- Errno.EINVAL)
        else if negb (tk_sighand k) then out_put (- Errno.ESRCH)
        else
          g ← signal_at (tk_signal k);
          let oom_adj := if oom_adj =? OOM_ADJUST_MAX then OOM_SCORE_ADJ_MAX else Z.quot (oom_adj * OOM_SCORE_ADJ_MAX) (- OOM_DISABLE) in
          if negb (oom_adj_write_permitted cur k) then out_put (- Errno.EACCES)
          else if (oom_adj <? sg_oom_score_adj g) && negb (cl_sys_resource cur) then out_put (- Errno.EACCES)
          else _ ← upd_signal (tk_signal k) (set_sg_oom_score_adj (s16 oom_adj)); out_put 0
  end.

Definition oom_score_adj_read (ino room count pos : Z) : PM (Z * list Z * Z) :=
  task ← get_proc_task ino;
  if negb (truthy task) then mret (- Errno.ESRCH, [], pos)
  else
    k ← task_at task;
    oom_score_adj ← (if tk_sighand k then g ← signal_at (tk_signal k); mret (sg_oom_score_adj g) else mret OOM_SCORE_ADJ_MIN);
    _ ← put_task_struct task;
    mret (simple_read_from_buffer room count pos (sdecimal oom_score_adj ++ [10])).

Definition oom_score_adj_write (cur : caller) (ino : Z) (ubuf : list Z) (count : Z) : PM Z :=
  let count := if PROC_NUMBUF - 1 <? count then PROC_NUMBUF - 1 else count in
  let out err := mret (if err <? 0 then err else count) in
  match copy_from_user ubuf count with
  | None => out (- Errno.EFAULT)
  | Some buffer =>
    let '(err, oom_score_adj) := kstrtoint (strstrip (cstring buffer)) in
    if truthy err then out err
    else if (oom_score_adj <? OOM_SCORE_ADJ_MIN) || (OOM_SCORE_ADJ_MAX <? oom_score_adj) then out (- Errno.EINVAL)
    else
      task ← get_proc_task ino;
      if negb (truthy task) then out (- Errno.ESRCH)
      else
        let out_put err := _ ← put_task_struct task; out err in
        k ← task_at task;
        if negb (oom_adj_write_permitted cur k) then out_put (- Errno.EACCES)
        else if negb (truthy (tk_mm k)) then out_put (- Errno.EINVAL)
        else if negb (tk_sighand k) then out_put (- Errno.ESRCH)
        else
          g ← signal_at (tk_signal k);
          if (s16 oom_score_adj <? sg_oom_score_adj_min g) && negb (cl_sys_resource cur) then out_put (- Errno.EACCES)
          else
            _ ← upd_signal (tk_signal k) (set_sg_oom_score_adj (s16 oom_score_adj));
            _ ← (if cl_sys_resource cur then upd_signal (tk_signal k) (set_sg_oom_score_adj_min (s16 oom_score_adj)) else mret ());
            out_put 0
  end.

End Oom.
