(* ===== verification/ProcMem.v ===== *)
(** * Procfs: the memory and the environment of a process

    The files [mem] and [environ] of [patches/kernel/proc-base.c]: an open file has the address space of the process, which it keeps from being freed
    but does not keep in use.  Addresses have 32 bits. *)
From stdpp Require Import gmap.
From S2P Require Import Prelude Text ProcState.

Section Mem.
Context `{ProcKernel}.

(** ** Opening *)

(** The address space, 0, or a negative error. *)
Definition proc_mem_open (cur : caller) (ino : Z) (attach : bool) : PM Z :=
  task ← get_proc_task ino;
  if negb (truthy task) then mret (- Errno.ESRCH)
  else
    k ← task_at task;
    mm ← (if mm_access cur k attach <? 0 then mret (mm_access cur k attach) else get_task_mm task);
    _ ← put_task_struct task;
    if 0 <? mm then _ ← upd_mm mm (λ m, set_mm_count (mm_count m + 1) m); _ ← mmput mm; mret mm else mret mm.

(** The result and the private data of the file. *)
Definition mem_open_as (cur : caller) (ino : Z) (attach : bool) : PM (Z * Z) :=
  mm ← proc_mem_open cur ino attach; mret (if mm <? 0 then (mm, 0) else (0, mm)).
Definition mem_open (cur : caller) (ino : Z) : PM (Z * Z) := mem_open_as cur ino true.
Definition environ_open (cur : caller) (ino : Z) : PM (Z * Z) := mem_open_as cur ino false.

Definition mem_release (mm : Z) : PM () := if truthy mm then upd_mm mm (λ m, set_mm_count (mm_count m - 1) m) else mret ().

(** A seek from the start or from the position; the result and the position. *)
Definition mem_lseek (pos offset orig : Z) : Z * Z :=
  if orig =? 0 then (offset, offset)
  else if orig =? 1 then (signed 64 (pos + offset), signed 64 (pos + offset))
  else (- Errno.EINVAL, pos).

(** ** Access to the memory *)

(** A transfer between a page of the kernel and the process, at most [len] bytes; the number of bytes. *)
Definition access_remote_vm (mm addr len : Z) (page : option (list Z)) : PM Z :=
  t ← ptick;
  let n := remote_len mm addr len (match page with Some _ => true | None => false end) t in
  _ ← pmod (λ s, set_ps_remote (ps_remote s ++ [(mm, addr, len)]) s);
  _ ← match page with
      | Some l => upd_mm mm (λ m, set_mm_bytes (λ a, if (addr <=? a) && (a <? addr + n) then nth (Z.to_nat (a - addr)) l 0 else mm_bytes m a) m)
      | None => mret ()
      end;
  mret n.

(** What is copied so far or an error, the address behind it, and the bytes the caller has got.  [ubuf] is what the caller can give,
    [room] how many bytes it can take: the copy that meets the end of the room fails after the bytes before it. *)
Fixpoint mem_loop (fuel : nat) (mm : Z) (write : bool) (ubuf : list Z) (room addr copied count : Z) (out : list Z) : PM (Z * Z * list Z) :=
  if count <=? 0 then mret (copied, addr, out)
  else
    match fuel with
    | O => pfault
    | S fuel =>
      let this_len := Z.min (s32 count) PAGE_SIZE in
      match (if write then l ← copy_from_user (drop (Z.to_nat copied) ubuf) this_len; Some (Some l) else Some None) with
      | None => mret (- Errno.EFAULT, addr, out)
      | Some page =>
        n ← access_remote_vm mm addr this_len page;
        if n =? 0 then mret (if copied =? 0 then - Errno.EIO else copied, addr, out)
        else if negb write && (room <? zlen out + n) then
          m ← mm_at mm; mret (- Errno.EFAULT, addr, out ++ seg (mm_bytes m) addr (room - zlen out))
        else
          m ← mm_at mm; copied ← plift (int32 (copied + n));
          mem_loop fuel mm write ubuf room (u32 (addr + n)) copied (count - n) (if write then out else out ++ seg (mm_bytes m) addr n)
      end
    end.

(** The result, the new position and the bytes the caller has got. *)
Definition mem_rw (mm : Z) (write : bool) (ubuf : list Z) (room count pos : Z) : PM (Z * Z * list Z) :=
  if negb (truthy mm) then mret (0, pos, [])
  else
    t ← ptick;
    if negb (get_free_page t) then mret (- Errno.ENOMEM, pos, [])
    else
      m ← mm_at mm;
      if mm_users m =? 0 then mret (0, pos, [])
      else
        _ ← upd_mm mm (λ m, set_mm_users (mm_users m + 1) m);
        r ← mem_loop (Z.to_nat count) mm write ubuf room (u32 pos) 0 count [];
        _ ← mmput mm;
        mret r.

Definition mem_read (mm room count pos : Z) : PM (Z * Z * list Z) := mem_rw mm false [] room count pos.
Definition mem_write (mm : Z) (ubuf : list Z) (count pos : Z) : PM (Z * Z * list Z) := mem_rw mm true ubuf 0 count pos.

(** ** The environment *)

Fixpoint environ_loop (fuel : nat) (mm room src ret count : Z) (out : list Z) : PM (Z * Z * list Z) :=
  if count <=? 0 then mret (ret, src, out)
  else
    match fuel with
    | O => pfault
    | S fuel =>
      m ← mm_at mm;
      if u32 (mm_env_end m - mm_env_start m) <=? src then mret (ret, src, out)
      else
        let this_len := Z.min (Z.min PAGE_SIZE count) (u32 (mm_env_end m - (mm_env_start m + src))) in
        retval ← access_remote_vm mm (u32 (mm_env_start m + src)) this_len None;
        if retval <=? 0 then mret (retval, src, out)
        else if room <? zlen out + retval then
          mret (- Errno.EFAULT, src, out ++ seg (mm_bytes m) (u32 (mm_env_start m + src)) (room - zlen out))
        else
          ret ← plift (int32 (ret + retval));
          environ_loop fuel mm room (u32 (src + retval)) ret (count - retval) (out ++ seg (mm_bytes m) (u32 (mm_env_start m + src)) retval)
    end.

Definition environ_read (mm room count pos : Z) : PM (Z * Z * list Z) :=
  if negb (truthy mm) then mret (0, pos, [])
  else
    t ← ptick;
    if negb (get_free_page t) then mret (- Errno.ENOMEM, pos, [])
    else
      m ← mm_at mm;
      if mm_users m =? 0 then mret (0, pos, [])
      else
        _ ← upd_mm mm (λ m, set_mm_users (mm_users m + 1) m);
        r ← environ_loop (Z.to_nat count) mm room (u32 pos) 0 count [];
        _ ← mmput mm;
        mret r.

End Mem.
