(* ===== verification/ProcDir.v ===== *)
(** * Procfs: inodes and directories

    Permissions, inodes and their owners, the tables of entries, and the directories of processes and threads ([patches/kernel/proc-base.c]).
    The tables are those of the configuration in [patches/kernel/config]. *)
From Stdlib Require Import String Ascii.
From stdpp Require Import gmap.
From S2P Require Import Prelude Text ProcState.

Section Dir.
Context `{ProcKernel}.

(** ** Permissions *)

Definition in_group_p (cur : caller) (gid : Z) : bool := bool_decide (gid ∈ cl_groups cur).

Definition has_pid_permissions (ns : pid_namespace) (cur : caller) (task : task_struct) (hide_pid_min : Z) : bool :=
  (ns_hide_pid ns <? hide_pid_min) || in_group_p cur (ns_pid_gid ns) || ptrace_may_access cur task false.

Definition proc_pid_permission (ns : pid_namespace) (cur : caller) (ino mask : Z) : PM Z :=
  task ← get_proc_task ino;
  if negb (truthy task) then mret (- Errno.ESRCH)
  else
    k ← task_at task;
    let has_perms := has_pid_permissions ns cur k 1 in
    _ ← put_task_struct task;
    if negb has_perms then mret (if ns_hide_pid ns =? 2 then - Errno.ENOENT else - Errno.EPERM)
    else i ← inode_at ino; mret (generic_permission i mask).

Definition proc_fd_access_allowed (cur : caller) (ino : Z) : PM bool :=
  task ← get_proc_task ino;
  if truthy task then k ← task_at task; _ ← put_task_struct task; mret (ptrace_may_access cur k false)
  else mret false.

(** ** Inodes *)

Definition S_IRUGO : Z := 292.
Definition S_IWUGO : Z := 146.
Definition S_IXUGO : Z := 73.
Definition S_IRUSR : Z := 256.
Definition S_IWUSR : Z := 128.
Definition S_IXUSR : Z := 64.
Definition S_IRWXUGO : Z := 511.
Definition S_ISDIR (mode : Z) : bool := mode &&& S_IFMT =? S_IFDIR.

(** The mode of the directory of a process. *)
Definition pid_dir_mode : Z := S_IFDIR ||| S_IRUGO ||| S_IXUGO.

(** A new inode for a task, or 0. *)
Definition proc_pid_make_inode (task : Z) : PM Z :=
  t ← ptick; l ← pget (λ s, dom (ps_inodes s));
  match new_inode l t with
  | None => mret 0
  | Some x =>
    n ← pget ps_next_ino; _ ← pmod (λ s, set_ps_next_ino (u32 (n + 1)) s);
    k ← task_at task;
    if negb (truthy (tk_pid k)) then mret 0
    else
      let '(uid, gid) := if tk_dumpable k then (tk_euid k, tk_egid k) else (0, 0) in
      _ ← pmod (λ s, set_ps_inodes (<[x := Inode n 0 uid gid 1 (tk_pid k) Ops_def false]> (ps_inodes s)) s);
      mret x
  end.

(** The owner that an inode of a task has to have. *)
Definition owner_of (mode : Z) (k : task_struct) : Z * Z :=
  if (mode =? pid_dir_mode) || tk_dumpable k then (tk_euid k, tk_egid k) else (0, 0).

Definition pid_revalidate (x : Z) (lookup_rcu : bool) : PM Z :=
  if lookup_rcu then mret (- Errno.ECHILD)
  else
    task ← get_proc_task x;
    if truthy task then
      k ← task_at task;
      i ← inode_at x;
      let '(uid, gid) := owner_of (in_mode i) k in
      _ ← upd_inode x (λ i, set_in_uid uid (set_in_gid gid i));
      _ ← upd_inode x (λ i, set_in_mode (in_mode i &&& Z.lnot (S_ISUID ||| S_ISGID)) i);
      _ ← put_task_struct task;
      mret 1
    else mret 0.

Definition proc_inode_is_dead (x : Z) : PM bool := i ← inode_at x; p ← pid_at (in_pid i); mret (negb (truthy (pd_task p))).
Definition pid_delete_dentry (x : Z) : PM bool := proc_inode_is_dead x.

(** The result, and the owner that is shown. *)
Definition pid_getattr (ns : pid_namespace) (cur : caller) (x : Z) : PM (Z * Z * Z) :=
  i ← inode_at x; task ← pid_task (in_pid i);
  if truthy task then
    k ← task_at task;
    if negb (has_pid_permissions ns cur k 2) then mret (- Errno.ENOENT, 0, 0)
    else let '(uid, gid) := owner_of (in_mode i) k in mret (0, uid, gid)
  else mret (0, 0, 0).

(** A mode cannot be changed; the rest is up to [inode_change_ok]. *)
Definition proc_setattr (x : Z) (has_mode : bool) (change_ok uid gid : Z) : PM Z :=
  if has_mode then mret (- Errno.EPERM)
  else if truthy change_ok then mret change_ok
  else _ ← upd_inode x (λ i, set_in_uid uid (set_in_gid gid i)); mret 0.

(** ** Reading directories *)

(** The position, the number of entries the caller's buffer still takes, and the entries it got: name, inode number and type. *)
Record dir_context := Ctx { cx_pos : Z; cx_room : nat; cx_out : list (list Z * Z * Z) }.
Definition set_cx_pos (pos : Z) (c : dir_context) : dir_context := Ctx pos (cx_room c) (cx_out c).

Definition dir_emit (c : dir_context) (name : list Z) (ino type : Z) : bool * dir_context :=
  match cx_room c with
  | O => (false, c)
  | S room => (true, Ctx (cx_pos c) room (cx_out c ++ [(name, ino, type)]))
  end.

(** The entries for the directory itself and the one above. *)
Definition dir_emit_dots (c : dir_context) (self parent : Z) : bool * dir_context :=
  let '(ok, c) := if cx_pos c =? 0 then let '(ok, c) := dir_emit c [46] self 4 in (ok, if ok then set_cx_pos 1 c else c) else (true, c) in
  if negb ok then (false, c)
  else if cx_pos c =? 1 then let '(ok, c) := dir_emit c [46; 46] parent 4 in (ok, if ok then set_cx_pos 2 c else c)
  else (true, c).

Definition dcache_lookup (dir : Z) (name : list Z) : PM (option Z) := pget (λ s, ps_dcache s !! (dir, name)).
Definition d_add (dir : Z) (name : list Z) (x : Z) : PM () := pmod (λ s, set_ps_dcache (<[(dir, name) := x]> (ps_dcache s)) s).
Definition d_drop (dir : Z) (name : list Z) : PM () := pmod (λ s, set_ps_dcache (delete (dir, name) (ps_dcache s)) s).

(** [instantiate] makes the inode and its name; a name of a dead process does not stay. *)
Definition proc_fill_cache (dir : Z) (c : dir_context) (name : list Z) (instantiate : PM Z) : PM (bool * dir_context) :=
  let unknown := mret (dir_emit c name 1 DT_UNKNOWN) in
  let known x := i ← inode_at x; mret (dir_emit c name (in_ino i) (Z.shiftr (in_mode i) 12)) in
  child ← dcache_lookup dir name;
  match child with
  | Some x => known x
  | None =>
    t ← ptick;
    if negb (d_alloc t) then unknown
    else
      err ← instantiate;
      if err <? 0 then _ ← d_drop dir name; unknown
      else child ← dcache_lookup dir name; x ← plift child; known x
  end.

(** ** Entries of a process *)

(** [struct pid_entry]; the operations are told by the name. *)
Record pid_entry := Entry { pe_name : list Z; pe_mode : Z }.

Definition DIR (name : string) (mode : Z) : pid_entry := Entry (bytes_of name) (S_IFDIR ||| mode).
Definition LNK (name : string) : pid_entry := Entry (bytes_of name) (S_IFLNK ||| S_IRWXUGO).
Definition REG (name : string) (mode : Z) : pid_entry := Entry (bytes_of name) (S_IFREG ||| mode).
Definition ONE (name : string) (mode : Z) : pid_entry := Entry (bytes_of name) (S_IFREG ||| mode).

Definition tgid_base_stuff : list pid_entry :=
  [ DIR "task" (S_IRUGO ||| S_IXUGO); DIR "fd" (S_IRUSR ||| S_IXUSR); DIR "fdinfo" (S_IRUSR ||| S_IXUSR); DIR "ns" (S_IRUSR ||| S_IXUGO); DIR "net" (S_IRUGO ||| S_IXUGO);
    REG "environ" S_IRUSR; ONE "auxv" S_IRUSR; ONE "status" S_IRUGO; ONE "personality" S_IRUSR; ONE "limits" S_IRUGO; REG "comm" (S_IRUGO ||| S_IWUSR);
    ONE "syscall" S_IRUSR; ONE "cmdline" S_IRUGO; ONE "stat" S_IRUGO; ONE "statm" S_IRUGO; REG "maps" S_IRUGO; REG "mem" (S_IRUSR ||| S_IWUSR);
    LNK "cwd"; LNK "root"; LNK "exe"; REG "mounts" S_IRUGO; REG "mountinfo" S_IRUGO; REG "mountstats" S_IRUSR; REG "clear_refs" S_IWUSR; REG "smaps" S_IRUGO; REG "pagemap" S_IRUSR;
    ONE "wchan" S_IRUGO; ONE "oom_score" S_IRUGO; REG "oom_adj" (S_IRUGO ||| S_IWUGO); REG "oom_score_adj" (S_IRUGO ||| S_IWUGO) ].

Definition tid_base_stuff : list pid_entry :=
  [ DIR "fd" (S_IRUSR ||| S_IXUSR); DIR "fdinfo" (S_IRUSR ||| S_IXUSR); DIR "ns" (S_IRUSR ||| S_IXUGO); DIR "net" (S_IRUGO ||| S_IXUGO);
    REG "environ" S_IRUSR; ONE "auxv" S_IRUSR; ONE "status" S_IRUGO; ONE "personality" S_IRUSR; ONE "limits" S_IRUGO; REG "comm" (S_IRUGO ||| S_IWUSR);
    ONE "syscall" S_IRUSR; ONE "cmdline" S_IRUGO; ONE "stat" S_IRUGO; ONE "statm" S_IRUGO; REG "maps" S_IRUGO; REG "mem" (S_IRUSR ||| S_IWUSR);
    LNK "cwd"; LNK "root"; LNK "exe"; REG "mounts" S_IRUGO; REG "mountinfo" S_IRUGO; REG "clear_refs" S_IWUSR; REG "smaps" S_IRUGO; REG "pagemap" S_IRUSR;
    ONE "wchan" S_IRUGO; ONE "oom_score" S_IRUGO; REG "oom_adj" (S_IRUGO ||| S_IWUGO); REG "oom_score_adj" (S_IRUGO ||| S_IWUGO) ].

Fixpoint pid_entry_count_dirs (entries : list pid_entry) : Z :=
  match entries with [] => 0 | e :: entries => (if S_ISDIR (pe_mode e) then 1 else 0) + pid_entry_count_dirs entries end.

(** A new inode under a name: [f] gives it its mode, links and operations. *)
Definition instantiate_as (dir : Z) (name : list Z) (task : Z) (f : inode → inode) : PM Z :=
  x ← proc_pid_make_inode task;
  if negb (truthy x) then mret (- Errno.ENOENT)
  else
    _ ← upd_inode x f;
    _ ← d_add dir name x;
    r ← pid_revalidate x false;
    mret (if truthy r then 0 else - Errno.ENOENT).

Definition proc_pident_instantiate (dir : Z) (name : list Z) (task : Z) (p : pid_entry) : PM Z :=
  instantiate_as dir name task (λ i, set_in_ops (Ops_entry (pe_name p)) (set_in_mode (pe_mode p) (if S_ISDIR (pe_mode p) then set_in_nlink 2 i else i))).

Definition proc_pident_lookup (dir : Z) (name : list Z) (ents : list pid_entry) : PM Z :=
  task ← get_proc_task dir;
  if negb (truthy task) then mret (- Errno.ENOENT)
  else
    error ← match list_find (λ p, pe_name p = name) ents with
            | Some (_, p) => proc_pident_instantiate dir name task p
            | None => mret (- Errno.ENOENT)
            end;
    _ ← put_task_struct task;
    mret error.

Fixpoint pident_loop (dir task : Z) (c : dir_context) (ents : list pid_entry) : PM dir_context :=
  match ents with
  | [] => mret c
  | p :: ents =>
    '(ok, c) ← proc_fill_cache dir c (pe_name p) (proc_pident_instantiate dir (pe_name p) task p);
    if (ok : bool) then pident_loop dir task (set_cx_pos (cx_pos c + 1) c) ents else mret c
  end.

Definition proc_pident_readdir (dir parent_ino : Z) (c : dir_context) (ents : list pid_entry) : PM (Z * dir_context) :=
  task ← get_proc_task dir;
  if negb (truthy task) then mret (- Errno.ENOENT, c)
  else
    i ← inode_at dir;
    let '(ok, c) := dir_emit_dots c (in_ino i) parent_ino in
    c ← (if negb ok || (zlen ents + 2 <=? cx_pos c) then mret c else pident_loop dir task c (drop (Z.to_nat (cx_pos c - 2)) ents));
    _ ← put_task_struct task;
    mret (0, c).

(** ** Processes *)

Definition proc_pid_instantiate (dir : Z) (name : list Z) (task : Z) : PM Z :=
  instantiate_as dir name task (λ i, set_in_nlink (2 + pid_entry_count_dirs tgid_base_stuff) (set_in_immutable true (set_in_ops Ops_tgid (set_in_mode pid_dir_mode i)))).

(** The task with a number, or 0. *)
Definition find_task_by_pid_ns (nr : Z) : PM Z :=
  m ← pget ps_numbers; match m !! nr with Some pid => pid_task pid | None => mret 0 end.

Definition proc_pid_lookup (dir : Z) (name : list Z) : PM Z :=
  let tgid := name_to_int name in
  if tgid =? 2 ^ 32 - 1 then mret (- Errno.ENOENT)
  else
    task ← find_task_by_pid_ns tgid;
    if negb (truthy task) then mret (- Errno.ENOENT)
    else
      _ ← get_task_struct task;
      result ← proc_pid_instantiate dir name task;
      _ ← put_task_struct task;
      mret result.

(** From the number [tgid] on: the number found and its task, or 0. *)
Fixpoint next_tgid_loop (fuel : nat) (tgid : Z) : PM (Z * Z) :=
  l ← pget (λ s, dom (ps_numbers s));
  match find_ge_pid l tgid with
  | None => mret (tgid, 0)
  | Some nr =>
    match fuel with
    | O => pfault
    | S fuel =>
      m ← pget ps_numbers; pid ← plift (m !! nr);
      task ← pid_task pid;
      leader ← (if truthy task then k ← task_at task; g ← signal_at (tk_signal k); mret (tk_pid k =? sg_leader_pid g) else mret false);
      if negb leader then next_tgid_loop fuel (u32 (nr + 1))
      else _ ← get_task_struct task; mret (nr, task)
    end
  end.

Definition next_tgid (tgid task : Z) : PM (Z * Z) :=
  _ ← (if truthy task then put_task_struct task else mret ());
  n ← pget (λ s, size (ps_numbers s)); next_tgid_loop n tgid.

Definition TGID_OFFSET : Z := FIRST_PROCESS_ENTRY + 2.

(** The loop over the processes; true when the caller's buffer was full. *)
Fixpoint tgid_loop (fuel : nat) (ns : pid_namespace) (cur : caller) (dir : Z) (c : dir_context) (tgid task : Z) : PM (bool * dir_context) :=
  if negb (truthy task) then mret (false, c)
  else
    match fuel with
    | O => pfault
    | S fuel =>
      k ← task_at task;
      '(ok, c) ← (if negb (has_pid_permissions ns cur k 2) then mret (true, c)
                  else proc_fill_cache dir (set_cx_pos (tgid + TGID_OFFSET) c) (decimal tgid) (proc_pid_instantiate dir (decimal tgid) task));
      if negb ok then _ ← put_task_struct task; mret (true, c)
      else '(tgid, task) ← next_tgid (u32 (tgid + 1)) task; tgid_loop fuel ns cur dir c tgid task
    end.

Definition self_name : list Z := bytes_of "self".
Definition thread_self_name : list Z := bytes_of "thread-self".

(** [self_ino] and [thread_self_ino] are the inodes of the two links. *)
Definition proc_pid_readdir (ns : pid_namespace) (cur : caller) (dir self_ino thread_self_ino : Z) (c : dir_context) : PM dir_context :=
  if PID_MAX_LIMIT + TGID_OFFSET <=? cx_pos c then mret c
  else
    let '(ok, c) := if cx_pos c =? TGID_OFFSET - 2 then let '(ok, c) := dir_emit c self_name self_ino DT_LNK in (ok, if ok then set_cx_pos (cx_pos c + 1) c else c) else (true, c) in
    if negb ok then mret c
    else
      let '(ok, c) := if cx_pos c =? TGID_OFFSET - 1 then let '(ok, c) := dir_emit c thread_self_name thread_self_ino DT_LNK in (ok, if ok then set_cx_pos (cx_pos c + 1) c else c) else (true, c) in
      if negb ok then mret c
      else
        '(tgid, task) ← next_tgid (u32 (cx_pos c - TGID_OFFSET)) 0;
        n ← pget (λ s, size (ps_numbers s));
        '(full, c) ← tgid_loop (S n) ns cur dir c tgid task;
        mret (if (full : bool) then c else set_cx_pos (PID_MAX_LIMIT + TGID_OFFSET) c).

(** The cached names of a task that exits, in the file system with root [root]. *)
Definition d_invalidate (dir : Z) (name : list Z) : PM () := d_drop dir name.

Definition proc_flush_task_mnt (root pid tgid : Z) : PM () :=
  dentry ← dcache_lookup root (decimal pid);
  _ ← match dentry with Some _ => d_invalidate root (decimal pid) | None => mret () end;
  if pid =? tgid then mret ()
  else
    leader ← dcache_lookup root (decimal tgid);
    match leader with
    | None => mret ()
    | Some leader =>
      dir ← dcache_lookup leader (bytes_of "task");
      match dir with
      | None => mret ()
      | Some dir =>
        dentry ← dcache_lookup dir (decimal pid);
        match dentry with Some _ => d_invalidate dir (decimal pid) | None => mret () end
      end
    end.

(** ** Threads *)

Definition proc_task_instantiate (dir : Z) (name : list Z) (task : Z) : PM Z :=
  instantiate_as dir name task (λ i, set_in_nlink (2 + pid_entry_count_dirs tid_base_stuff) (set_in_immutable true (set_in_ops Ops_tid (set_in_mode pid_dir_mode i)))).

Definition same_thread_group (a b : Z) : PM bool := x ← task_at a; y ← task_at b; mret (tk_signal x =? tk_signal y).

Definition proc_task_lookup (dir : Z) (name : list Z) : PM Z :=
  leader ← get_proc_task dir;
  if negb (truthy leader) then mret (- Errno.ENOENT)
  else
    let out result := _ ← put_task_struct leader; mret result in
    let tid := name_to_int name in
    if tid =? 2 ^ 32 - 1 then out (- Errno.ENOENT)
    else
      task ← find_task_by_pid_ns tid;
      if negb (truthy task) then out (- Errno.ENOENT)
      else
        _ ← get_task_struct task;
        same ← same_thread_group leader task;
        result ← (if (same : bool) then proc_task_instantiate dir name task else mret (- Errno.ENOENT));
        _ ← put_task_struct task;
        out result.

(** [nr] threads behind [pos], unless the walk comes back to [leader]. *)
Fixpoint walk_threads (nr : nat) (leader pos : Z) : PM Z :=
  match nr with
  | O => mret pos
  | S nr => k ← task_at pos; if tk_next_thread k =? leader then mret 0 else walk_threads nr leader (tk_next_thread k)
  end.

Definition first_tid (pid tid f_pos : Z) : PM Z :=
  let nr := u32 f_pos in
  if negb (nr =? f_pos) then mret 0
  else
    task ← pid_task pid;
    if negb (truthy task) then mret 0
    else
      pos ← (if truthy tid && truthy nr then
               pos ← find_task_by_pid_ns tid;
               same ← (if truthy pos then same_thread_group pos task else mret false);
               mret (if (same : bool) then pos else 0)
             else mret 0);
      pos ← (if truthy pos then mret pos
             else
               k ← task_at task; g ← signal_at (tk_signal k);
               if sg_nr_threads g <=? nr then mret 0
               else walk_threads (Z.to_nat nr) (tk_group_leader k) (tk_group_leader k));
      _ ← (if truthy pos then get_task_struct pos else mret ());
      mret pos.

(** A task is alive while it has its number. *)
Definition pid_alive (task : Z) : PM bool := k ← task_at task; mret (truthy (tk_pid k)).
Definition thread_group_leader (task : Z) : PM bool := k ← task_at task; mret (tk_group_leader k =? task).

Definition next_tid (start : Z) : PM Z :=
  alive ← pid_alive start;
  pos ← (if (alive : bool) then
           k ← task_at start;
           leader ← thread_group_leader (tk_next_thread k);
           if (leader : bool) then mret 0 else _ ← get_task_struct (tk_next_thread k); mret (tk_next_thread k)
         else mret 0);
  _ ← put_task_struct start;
  mret pos.

(** The loop over the threads: the context, and the number that the buffer did not take, or 0. *)
Fixpoint tid_loop (fuel : nat) (dir : Z) (c : dir_context) (task : Z) : PM (dir_context * Z) :=
  if negb (truthy task) then mret (c, 0)
  else
    match fuel with
    | O => pfault
    | S fuel =>
      k ← task_at task; p ← pid_at (tk_pid k);
      let tid := pd_nr p in
      '(ok, c) ← proc_fill_cache dir c (decimal tid) (proc_task_instantiate dir (decimal tid) task);
      if negb (ok : bool) then _ ← put_task_struct task; mret (c, tid)
      else task ← next_tid task; tid_loop fuel dir (set_cx_pos (cx_pos c + 1) c) task
    end.

(** The result, the context and the new [f_version]. *)
Definition proc_task_readdir (dir parent_ino f_version : Z) (c : dir_context) : PM (Z * dir_context * Z) :=
  dead ← proc_inode_is_dead dir;
  if (dead : bool) then mret (- Errno.ENOENT, c, f_version)
  else
    i ← inode_at dir;
    let '(ok, c) := dir_emit_dots c (in_ino i) parent_ino in
    if negb ok then mret (0, c, f_version)
    else
      task ← first_tid (in_pid i) (s32 f_version) (cx_pos c - 2);
      n ← pget (λ s, size (ps_tasks s));
      '(c, tid) ← tid_loop (S n) dir c task;
      mret (0, c, tid).

Definition proc_task_getattr (dir nlink : Z) : PM Z :=
  task ← get_proc_task dir;
  if truthy task then k ← task_at task; g ← signal_at (tk_signal k); _ ← put_task_struct task; mret (nlink + sg_nr_threads g)
  else mret nlink.

End Dir.
