(* ===== verification/ProcFiles.v ===== *)
(** * Procfs: the small files and the links of a process

    The files of [patches/kernel/proc-base.c] that show one thing of a task ([cmdline] apart, whose text is made elsewhere), the name of a task, and the links to its paths. *)
From Stdlib Require Import String.
From stdpp Require Import gmap.
From S2P Require Import Prelude Text ProcState ProcDir.

Section Files.
Context `{ProcKernel}.

(** ** The name *)

(** [set_task_comm] keeps as much as there is room for before the final zero. *)
Definition set_task_comm (task : Z) (buf : list Z) : PM () := upd_task task (set_tk_comm (take (Z.to_nat (TASK_COMM_LEN - 1)) (cstring buf))).

Definition comm_write (cur : caller) (ino : Z) (ubuf : list Z) (count : Z) : PM Z :=
  let maxlen := TASK_COMM_LEN - 1 in
  match copy_from_user ubuf (if maxlen <? count then maxlen else count) with
  | None => mret (- Errno.EFAULT)
  | Some buffer =>
    p ← get_proc_task ino;
    if negb (truthy p) then mret (- Errno.ESRCH)
    else
      same ← same_thread_group (cl_task cur) p;
      count ← (if (same : bool) then _ ← set_task_comm p buffer; mret count else mret (- Errno.EINVAL));
      _ ← put_task_struct p;
      mret count
  end.

(** The result and the text. *)
Definition comm_show (ino : Z) : PM (Z * list Z) :=
  p ← get_proc_task ino;
  if negb (truthy p) then mret (- Errno.ESRCH, [])
  else k ← task_at p; _ ← put_task_struct p; mret (0, tk_comm k ++ [10]).

(** ** Files that show one thing *)

(** [show] is the function of the entry; it gets the task, with a reference. *)
Definition proc_single_show (show : Z → PM (Z * list Z)) (ino : Z) : PM (Z * list Z) :=
  i ← inode_at ino; task ← get_pid_task (in_pid i);
  if negb (truthy task) then mret (- Errno.ESRCH, [])
  else ret ← show task; _ ← put_task_struct task; mret ret.

(** The number of words up to the pair that ends the vector; a vector that nothing ends is read behind its end. *)
Fixpoint auxv_words (auxv : list Z) : option nat :=
  match auxv with
  | key :: _ :: auxv => if key =? 0 then Some 2%nat else n ← auxv_words auxv; Some (2 + n)%nat
  | _ => None
  end.

(** The words of the vector stand for their four bytes each. *)
Definition proc_pid_auxv (cur : caller) (task : Z) : PM (Z * list Z) :=
  k ← task_at task;
  if mm_access cur k false <? 0 then mret (mm_access cur k false, [])
  else
    mm ← get_task_mm task;
    if truthy mm then
      m ← mm_at mm;
      nwords ← plift (auxv_words (mm_saved_auxv m));
      _ ← mmput mm;
      mret (0, take nwords (mm_saved_auxv m))
    else mret (0, []).

Definition proc_pid_wchan (cur : caller) (task : Z) : PM (Z * list Z) :=
  k ← task_at task;
  let wchan := get_wchan k in
  mret (0, match lookup_symbol_name wchan with
           | Some symname => if truthy wchan && ptrace_may_access cur k false then symname else [48]
           | None => [48]
           end).

(** The error, with the mutex taken when it is 0. *)
Definition lock_trace (cur : caller) (task : Z) : PM Z :=
  k ← task_at task; t ← ptick;
  let err := mutex_lock_killable t in
  mret (if truthy err then err else if negb (ptrace_may_access cur k true) then - Errno.EPERM else 0).

Definition proc_pid_personality (cur : caller) (task : Z) : PM (Z * list Z) :=
  err ← lock_trace cur task;
  if truthy err then mret (err, []) else k ← task_at task; mret (0, pad_left 8 48 (hexadecimal (tk_personality k)) ++ [10]).

(** Numbers after blanks, with their prefix. *)
Fixpoint hex_args (l : list Z) : list Z := match l with [] => [] | n :: l => bytes_of " 0x" ++ hexadecimal n ++ hex_args l end.

Definition proc_pid_syscall (cur : caller) (task : Z) : PM (Z * list Z) :=
  res ← lock_trace cur task;
  if truthy res then mret (res, [])
  else
    k ← task_at task; t ← ptick;
    mret (0, match task_current_syscall k t with
             | None => bytes_of "running" ++ [10]
             | Some (nr, args, sp, pc) =>
               if nr <? 0 then sdecimal nr ++ hex_args [sp; pc] ++ [10] else sdecimal nr ++ hex_args (args ++ [sp; pc]) ++ [10]
             end).

Definition proc_oom_score (task : Z) : PM (Z * list Z) :=
  k ← task_at task; alive ← pid_alive task;
  mret (0, decimal (if (alive : bool) then u32 (oom_badness k totalpages * 1000) / totalpages else 0) ++ [10]).

(** ** Limits *)

Definition lnames : list (list Z * option (list Z)) :=
  let row name unit := (bytes_of name, Some (bytes_of unit)) in
  [ row "Max cpu time" "seconds"; row "Max file size" "bytes"; row "Max data size" "bytes"; row "Max stack size" "bytes"; row "Max core file size" "bytes";
    row "Max resident set" "bytes"; row "Max processes" "processes"; row "Max open files" "files"; row "Max locked memory" "bytes"; row "Max address space" "bytes";
    row "Max file locks" "locks"; row "Max pending signals" "signals"; row "Max msgqueue size" "bytes"; (bytes_of "Max nice priority", None);
    (bytes_of "Max realtime priority", None); row "Max realtime timeout" "us" ]%string.

(** A limit in its column. *)
Definition limit_text (v : Z) : list Z := pad_right 20 (if v =? RLIM_INFINITY then bytes_of "unlimited" else decimal v) ++ [32].

Definition limit_line (row : list Z * option (list Z)) (lim : Z * Z) : list Z :=
  pad_right 25 row.1 ++ [32] ++ limit_text lim.1 ++ limit_text lim.2 ++ match row.2 with Some unit => pad_right 10 unit | None => [] end ++ [10].

Definition limits_head : list Z :=
  pad_right 25 (bytes_of "Limit") ++ [32] ++ pad_right 20 (bytes_of "Soft Limit") ++ [32] ++ pad_right 20 (bytes_of "Hard Limit") ++ [32] ++ pad_right 10 (bytes_of "Units") ++ [10].

Definition proc_pid_limits (task : Z) : PM (Z * list Z) :=
  k ← task_at task;
  if negb (tk_sighand k) then mret (0, [])
  else g ← signal_at (tk_signal k); mret (0, limits_head ++ concat (zip_with limit_line lnames (sg_rlim g))).

(** ** Links *)

(** References to paths. *)
Definition path_get (x : Z) : PM () := pmod (λ s, set_ps_paths (<[x := default 0 (ps_paths s !! x) + 1]> (ps_paths s)) s).
Definition path_put (x : Z) : PM () := pmod (λ s, set_ps_paths (<[x := default 0 (ps_paths s !! x) - 1]> (ps_paths s)) s).

(** The result of a link: an error, or a path with a reference. *)
Definition get_task_root (task : Z) : PM (Z + Z) :=
  k ← task_at task; match tk_fs k with Some (root, _) => _ ← path_get root; mret (inr root) | None => mret (inl (- Errno.ENOENT)) end.

Definition proc_cwd_link (ino : Z) : PM (Z + Z) :=
  task ← get_proc_task ino;
  if truthy task then
    k ← task_at task;
    r ← match tk_fs k with Some (_, pwd) => _ ← path_get pwd; mret (inr pwd) | None => mret (inl (- Errno.ENOENT)) end;
    _ ← put_task_struct task; mret r
  else mret (inl (- Errno.ENOENT)).

Definition proc_root_link (ino : Z) : PM (Z + Z) :=
  task ← get_proc_task ino;
  if truthy task then r ← get_task_root task; _ ← put_task_struct task; mret r
  else mret (inl (- Errno.ENOENT)).

Definition proc_exe_link (ino : Z) : PM (Z + Z) :=
  task ← get_proc_task ino;
  if negb (truthy task) then mret (inl (- Errno.ENOENT))
  else
    mm ← get_task_mm task;
    _ ← put_task_struct task;
    if negb (truthy mm) then mret (inl (- Errno.ENOENT))
    else
      m ← mm_at mm;
      _ ← mmput mm;
      if truthy (mm_exe_file m) then _ ← path_get (mm_exe_file m); mret (inr (mm_exe_file m)) else mret (inl (- Errno.ENOENT)).

(** The link of an entry, by its name. *)
Definition proc_get_link (ops : node_ops) (ino : Z) : PM (Z + Z) :=
  match ops with
  | Ops_entry name =>
    if decide (name = bytes_of "cwd") then proc_cwd_link ino
    else if decide (name = bytes_of "root") then proc_root_link ino
    else if decide (name = bytes_of "exe") then proc_exe_link ino
    else pfault
  | _ => pfault
  end.

(** The path the walk goes on with, which has the reference, or an error. *)
Definition proc_pid_follow_link (cur : caller) (ino : Z) : PM (Z + Z) :=
  i ← inode_at ino; allowed ← proc_fd_access_allowed cur ino;
  if negb allowed then mret (inl (- Errno.EACCES)) else proc_get_link (in_ops i) ino.

(** The length or an error, and what is copied; [room] is how many bytes the caller can take: a copy that meets the end of the room fails after the bytes before it. *)
Definition do_proc_readlink (path room buflen : Z) : PM (Z * list Z) :=
  t ← ptick;
  if negb (get_free_page t) then mret (- Errno.ENOMEM, [])
  else
    match d_path path with
    | inl e => mret (e, [])
    | inr pathname =>
      let len := if buflen <? zlen pathname then buflen else zlen pathname in
      if room <? len then mret (- Errno.EFAULT, take (Z.to_nat room) pathname) else mret (len, take (Z.to_nat len) pathname)
    end.

Definition proc_pid_readlink (cur : caller) (ino room buflen : Z) : PM (Z * list Z) :=
  i ← inode_at ino; allowed ← proc_fd_access_allowed cur ino;
  if negb allowed then mret (- Errno.EACCES, [])
  else
    r ← proc_get_link (in_ops i) ino;
    match r with
    | inl error => mret (error, [])
    | inr path => ret ← do_proc_readlink path room buflen; _ ← path_put path; mret ret
    end.

End Files.
