(* ===== verification/ProcMaps.v ===== *)
(** * Procfs: the mapped files of a process

    The directory [map_files] of [patches/kernel/proc-base.c]: a link for every file that is mapped into a process, named by the addresses of the mapping.  Names are printed
    with "%lx-%lx" and read back with [sscanf]. *)
From stdpp Require Import gmap.
From S2P Require Import Prelude Text ProcState ProcDir ProcFiles.

(** A mapping, with the path and the mode of its file. *)
Record vm_area_struct := Vma { vm_start : Z; vm_end : Z; vm_file : option (Z * Z) }.

(** The mappings of an address space, in order, whenever its lock is taken, and whether there is memory for an array. *)
Class MapsKernel := {
  mm_mmap : Z → nat → list vm_area_struct;
  flex_array_alloc : nat → bool }.

Definition FMODE_READ : Z := 1.
Definition FMODE_WRITE : Z := 2.

(** ** Names *)

(** "%lx" of [sscanf]: blanks, then a digit must follow; the number is stored to 32 bits. *)
Definition isspace (c : Z) : bool := (c =? 32) || ((9 <=? c) && (c <=? 13)) || (c =? 160).
Fixpoint skip_spaces (s : list Z) : list Z := match s with c :: s' => if isspace c then skip_spaces s' else s | [] => [] end.

Definition scan_lx (s : list Z) : option (Z * list Z) :=
  let s := skip_spaces s in
  match s with
  | c :: _ => match digit_val c with Some _ => let '(v, s) := simple_strtoull s 16 in Some (u32 v, s) | None => None end
  | [] => None
  end.

(** The two addresses, or the error EINVAL. *)
Definition dname_to_vma_addr (name : list Z) : option (Z * Z) :=
  '(start, s) ← scan_lx name;
  match s with c :: s => if c =? 45 then '(stop, _) ← scan_lx s; Some (start, stop) else None | [] => None end.

(** The first mapping that ends behind an address, if it is the one from [start] to [stop]. *)
Definition find_exact_vma (mmap : list vm_area_struct) (start stop : Z) : option vm_area_struct :=
  match list_find (λ v, start < vm_end v) mmap with
  | Some (_, v) => if (vm_start v =? start) && (vm_end v =? stop) then Some v else None
  | None => None
  end.

(** [struct map_files_info]: the name is an array of 18 bytes, what does not fit is cut, and the length is that of the whole text. *)
Record map_files_info := Info { mi_mode : Z; mi_len : Z; mi_name : list Z }.
Definition map_text (start stop : Z) : list Z := hexadecimal start ++ [45] ++ hexadecimal stop.
Definition info_of (mode start stop : Z) : map_files_info :=
  Info mode (zlen (map_text start stop)) (take 17 (map_text start stop) ++ [0]).

Section Maps.
Context `{ProcKernel} `{MapsKernel}.

(** [mm_access] for reading: the address space with a user more, or 0. *)
Definition access_mm (cur : caller) (task : Z) : PM Z := k ← task_at task; if mm_access cur k false <? 0 then mret 0 else get_task_mm task.

(** The mappings, under the lock of the address space. *)
Definition read_mmap (mm : Z) : PM (list vm_area_struct) := t ← ptick; mret (mm_mmap mm t).

(** ** Links *)

(** [ino] is the inode of the name; [admin] tells whether the caller has CAP_SYS_ADMIN. *)
Definition map_files_d_revalidate (cur : caller) (admin lookup_rcu : bool) (ino : Z) (name : list Z) : PM Z :=
  if lookup_rcu then mret (- Errno.ECHILD)
  else if negb admin then mret (- Errno.EPERM)
  else
    task ← get_proc_task ino;
    if negb (truthy task) then mret 0
    else
      mm ← access_mm cur task;
      if negb (truthy mm) then _ ← put_task_struct task; mret 0
      else
        exact_vma_exists ←
          match dname_to_vma_addr name with
          | Some (start, stop) => mmap ← read_mmap mm; mret (match find_exact_vma mmap start stop with Some _ => true | None => false end)
          | None => mret false
          end;
        _ ← mmput mm;
        status ←
          (if (exact_vma_exists : bool) then
             k ← task_at task;
             let '(uid, gid) := if tk_dumpable k then (tk_euid k, tk_egid k) else (0, 0) in
             _ ← upd_inode ino (λ i, set_in_uid uid (set_in_gid gid i));
             mret 1
           else mret 0);
        _ ← put_task_struct task;
        mret status.

(** A path with a reference, or an error. *)
Definition proc_map_files_get_link (ino : Z) (name : list Z) : PM (Z + Z) :=
  task ← get_proc_task ino;
  if negb (truthy task) then mret (inl (- Errno.ENOENT))
  else
    mm ← get_task_mm task;
    _ ← put_task_struct task;
    if negb (truthy mm) then mret (inl (- Errno.ENOENT))
    else
      r ← match dname_to_vma_addr name with
          | None => mret (inl (- Errno.EINVAL))
          | Some (start, stop) =>
            mmap ← read_mmap mm;
            match find_exact_vma mmap start stop ≫= vm_file with
            | Some (path, _) => _ ← path_get path; mret (inr path)
            | None => mret (inl (- Errno.ENOENT))
            end
          end;
      _ ← mmput mm;
      mret r.

Definition map_file_mode (mode : Z) : Z :=
  let m := S_IFLNK in
  let m := if truthy (mode &&& FMODE_READ) then m ||| S_IRUSR else m in
  if truthy (mode &&& FMODE_WRITE) then m ||| S_IWUSR else m.

Definition proc_map_files_instantiate (dir : Z) (name : list Z) (task mode : Z) : PM Z :=
  x ← proc_pid_make_inode task;
  if negb (truthy x) then mret (- Errno.ENOENT)
  else
    _ ← upd_inode x (λ i, set_in_ops Ops_map (set_in_mode (map_file_mode mode) i));
    _ ← d_add dir name x;
    mret 0.

Definition proc_map_files_lookup (cur : caller) (admin : bool) (dir : Z) (name : list Z) : PM Z :=
  if negb admin then mret (- Errno.EPERM)
  else
    task ← get_proc_task dir;
    if negb (truthy task) then mret (- Errno.ENOENT)
    else
      k ← task_at task;
      let out result := _ ← put_task_struct task; mret result in
      if negb (ptrace_may_access cur k false) then out (- Errno.EACCES)
      else
        match dname_to_vma_addr name with
        | None => out (- Errno.ENOENT)
        | Some (start, stop) =>
          mm ← get_task_mm task;
          if negb (truthy mm) then out (- Errno.ENOENT)
          else
            mmap ← read_mmap mm;
            result ← match find_exact_vma mmap start stop ≫= vm_file with
                     | Some (_, mode) => proc_map_files_instantiate dir name task mode
                     | None => mret (- Errno.ENOENT)
                     end;
            _ ← mmput mm;
            out result
        end.

(** ** Reading the directory *)

(** The first pass: how many mapped files are behind the position [at_pos]; [pos] counts the files. *)
Fixpoint count_files (pos at_pos : Z) (mmap : list vm_area_struct) : nat :=
  match mmap with
  | [] => O
  | v :: mmap =>
    match vm_file v with
    | Some _ => ((if (at_pos <? pos + 1)%Z then 1 else 0) + count_files (pos + 1) at_pos mmap)%nat
    | None => count_files pos at_pos mmap
    end
  end.

(** The second pass: their names and modes. *)
Fixpoint collect_files (pos at_pos : Z) (mmap : list vm_area_struct) : list map_files_info :=
  match mmap with
  | [] => []
  | v :: mmap =>
    match vm_file v with
    | Some (_, mode) =>
      (if pos + 1 <=? at_pos then [] else [info_of mode (vm_start v) (vm_end v)]) ++ collect_files (pos + 1) at_pos mmap
    | None => collect_files pos at_pos mmap
    end
  end.

(** The array takes [nr_files] elements; another one is a [BUG]. *)
Definition put_infos (nr_files : nat) (infos : list map_files_info) : PM (list map_files_info) :=
  if (length infos <=? nr_files)%nat then mret infos else pfault.

(** The loop over the array from index [i] on; the name is as many bytes as its length says. *)
Fixpoint map_fill (n i : nat) (dir task : Z) (infos : list map_files_info) (c : dir_context) : PM dir_context :=
  match n with
  | O => mret c
  | S n =>
    p ← plift (infos !! i);
    name ← plift (mem_read (mi_name p) 0 (mi_len p));
    '(ok, c) ← proc_fill_cache dir c name (proc_map_files_instantiate dir name task (mi_mode p));
    if (ok : bool) then map_fill n (S i) dir task infos (set_cx_pos (cx_pos c + 1) c) else mret c
  end.

Definition proc_map_files_readdir (cur : caller) (admin : bool) (dir parent_ino : Z) (c : dir_context) : PM (Z * dir_context) :=
  if negb admin then mret (- Errno.EPERM, c)
  else
    task ← get_proc_task dir;
    if negb (truthy task) then mret (- Errno.ENOENT, c)
    else
      k ← task_at task;
      let out ret c := _ ← put_task_struct task; mret (ret, c) in
      if negb (ptrace_may_access cur k false) then out (- Errno.EACCES) c
      else
        i ← inode_at dir;
        let '(ok, c) := dir_emit_dots c (in_ino i) parent_ino in
        if negb ok then out 0 c
        else
          mm ← get_task_mm task;
          if negb (truthy mm) then out 0 c
          else
            mmap ← read_mmap mm;
            let nr_files := count_files 2 (cx_pos c) mmap in
            t ← ptick;
            if negb (bool_decide (nr_files = O)) && negb (flex_array_alloc t) then _ ← mmput mm; out (- Errno.ENOMEM) c
            else
              infos ← put_infos nr_files (collect_files 2 (cx_pos c) mmap);
              c ← map_fill nr_files 0 dir task infos c;
              _ ← mmput mm;
              out 0 c.

End Maps.
