(* ===== verification/ProcOptions.v ===== *)
(** * Procfs: files of other configurations

    The files of [patches/kernel/proc-base.c] that are built only with certain options: the command line, stack traces, scheduler and latency statistics, audit numbers, fault injection, POSIX
    timers, security attributes, the core dump filter, io accounting and the maps of user namespaces. *)
From Stdlib Require Import String.
From stdpp Require Import gmap.
From S2P Require Import Prelude Text ProcState ProcDir ProcFiles ProcMaps.

(** The rest of the kernel that only these files use.  What can change between calls gets the number of the call: texts made elsewhere ([cmdline], the scheduler's), the addresses of a stack,
    statistics, memory and locks; [nice] is set and [loginuid] checked elsewhere; [security_getprocattr] gives the error or length with the text. *)
Class OptionsKernel := {
  get_cmdline : Z → nat → list Z;
  kmalloc_ok : nat → bool;
  save_stack_trace_tsk : Z → nat → list Z;
  pointer_text : Z → list Z;
  symbol_text : Z → list Z;
  sched_counters : Z → nat → Z * Z * Z;
  latency_record : Z → nat → list (Z * Z * Z * list Z);
  sched_text : Z → nat → list Z;
  autogroup_text : Z → nat → list Z;
  autogroup_set_nice : Z → Z → nat → Z;
  from_kuid : Z → Z → Z;
  make_kuid : Z → Z → Z;
  INVALID_UID : Z;
  AUDIT_UID_UNSET : Z;
  audit_set_loginuid : Z → Z → nat → Z;
  single_open_ret : nat → Z;
  ns_sys_admin : caller → Z → bool;
  security_getprocattr : Z → list Z → nat → Z * list Z;
  security_setprocattr : Z → list Z → list Z → nat → Z;
  mutex_lock_interruptible : nat → Z;
  SIGEV_SIGNAL : Z; SIGEV_NONE : Z; SIGEV_THREAD : Z; SIGEV_THREAD_ID : Z;
  MMF_DUMP_FILTER_SHIFT : Z; MMF_DUMP_FILTER_BITS : Z }.

Section Options.
Context `{ProcKernel} `{OptionsKernel}.

(** ** Command line, stack, statistics *)

Definition proc_pid_cmdline (task : Z) : PM (Z * list Z) := t ← ptick; mret (0, take (Z.to_nat PAGE_SIZE) (get_cmdline task t)).

Definition MAX_STACK_TRACE_DEPTH : nat := 64.

Definition stack_line (addr : Z) : list Z := bytes_of "[<" ++ pointer_text addr ++ bytes_of ">] " ++ symbol_text addr ++ [10].

Definition proc_pid_stack (cur : caller) (task : Z) : PM (Z * list Z) :=
  t ← ptick;
  if negb (kmalloc_ok t) then mret (- Errno.ENOMEM, [])
  else
    err ← lock_trace cur task;
    if truthy err then mret (err, [])
    else t ← ptick; mret (0, flat_map stack_line (take MAX_STACK_TRACE_DEPTH (save_stack_trace_tsk task t))).

Definition proc_pid_schedstat (task : Z) : PM (Z * list Z) :=
  t ← ptick;
  let '(run, delay, pcount) := sched_counters task t in
  mret (0, decimal run ++ [32] ++ decimal delay ++ [32] ++ decimal pcount ++ [10]).

(** The addresses of a record up to the first that is 0 or -1. *)
Fixpoint backtrace_text (bt : list Z) : list Z :=
  match bt with
  | [] => []
  | a :: bt => if (a =? 0) || (a =? 2 ^ 32 - 1) then [] else [32] ++ symbol_text a ++ backtrace_text bt
  end.

Definition latency_line (lr : Z * Z * Z * list Z) : list Z :=
  let '(count, time, max, bt) := lr in
  if truthy (default 0 (head bt)) then sdecimal count ++ [32] ++ sdecimal time ++ [32] ++ sdecimal max ++ backtrace_text bt ++ [10] else [].

Definition lstats_show_proc (ino : Z) : PM (Z * list Z) :=
  task ← get_proc_task ino;
  if negb (truthy task) then mret (- Errno.ESRCH, [])
  else
    t ← ptick;
    _ ← put_task_struct task;
    mret (0, bytes_of "Latency Top version : v0.1" ++ [10] ++ flat_map latency_line (take 32 (latency_record task t))).

(** [clear] is what clearing the records of a task does elsewhere. *)
Definition lstats_write (clear : Z → PM ()) (ino count : Z) : PM Z :=
  task ← get_proc_task ino;
  if negb (truthy task) then mret (- Errno.ESRCH) else _ ← clear task; _ ← put_task_struct task; mret count.

(** ** Scheduling *)

Definition sched_show (ino : Z) : PM (Z * list Z) :=
  p ← get_proc_task ino;
  if negb (truthy p) then mret (- Errno.ESRCH, []) else t ← ptick; _ ← put_task_struct p; mret (0, sched_text p t).

Definition sched_write (set : Z → PM ()) (ino count : Z) : PM Z :=
  p ← get_proc_task ino;
  if negb (truthy p) then mret (- Errno.ESRCH) else _ ← set p; _ ← put_task_struct p; mret count.

Definition sched_autogroup_show (ino : Z) : PM (Z * list Z) :=
  p ← get_proc_task ino;
  if negb (truthy p) then mret (- Errno.ESRCH, []) else t ← ptick; _ ← put_task_struct p; mret (0, autogroup_text p t).

Definition sched_autogroup_write (ino : Z) (ubuf : list Z) (count : Z) : PM Z :=
  let count := if PROC_NUMBUF - 1 <? count then PROC_NUMBUF - 1 else count in
  match copy_from_user ubuf count with
  | None => mret (- Errno.EFAULT)
  | Some buffer =>
    let '(err, nice) := kstrtoint (strstrip (cstring buffer)) in
    if err <? 0 then mret err
    else
      p ← get_proc_task ino;
      if negb (truthy p) then mret (- Errno.ESRCH)
      else
        t ← ptick;
        let err := autogroup_set_nice p nice t in
        _ ← put_task_struct p;
        mret (if truthy err then err else count)
  end.

(** ** Audit *)

(** [f_ns] is the user namespace of the open file. *)
Definition proc_loginuid_read (f_ns ino room count pos : Z) : PM (Z * list Z * Z) :=
  task ← get_proc_task ino;
  if negb (truthy task) then mret (- Errno.ESRCH, [], pos)
  else
    k ← task_at task;
    _ ← put_task_struct task;
    mret (simple_read_from_buffer room count pos (take 20 (decimal (from_kuid f_ns (tk_loginuid k))))).

Definition proc_sessionid_read (ino room count pos : Z) : PM (Z * list Z * Z) :=
  task ← get_proc_task ino;
  if negb (truthy task) then mret (- Errno.ESRCH, [], pos)
  else
    k ← task_at task;
    _ ← put_task_struct task;
    mret (simple_read_from_buffer room count pos (take 20 (decimal (tk_sessionid k)))).

(** The number is set by [audit_set_loginuid], for the task that calls. *)
Definition set_loginuid (cur : caller) (kloginuid : Z) : PM Z :=
  t ← ptick;
  let err := audit_set_loginuid (cl_task cur) kloginuid t in
  _ ← (if truthy err then mret () else upd_task (cl_task cur) (set_tk_loginuid kloginuid));
  mret err.

Definition proc_loginuid_write (cur : caller) (f_ns ino : Z) (ubuf : list Z) (count pos : Z) : PM Z :=
  i ← inode_at ino;
  task ← pid_task (in_pid i);
  if negb (cl_task cur =? task) then mret (- Errno.EPERM)
  else
    let count := if PAGE_SIZE <=? count then PAGE_SIZE - 1 else count in
    if negb (pos =? 0) then mret (- Errno.EINVAL)
    else
      t ← ptick;
      if negb (get_free_page t) then mret (- Errno.ENOMEM)
      else
        match copy_from_user ubuf count with
        | None => mret (- Errno.EFAULT)
        | Some page =>
          let '(v, rest) := simple_strtoull (cstring page) 10 in
          let loginuid := u32 v in
          if bool_decide (rest = cstring page) then mret (- Errno.EINVAL)
          else
            let kloginuid := if loginuid =? AUDIT_UID_UNSET then INVALID_UID else make_kuid f_ns loginuid in
            if negb (loginuid =? AUDIT_UID_UNSET) && (kloginuid =? INVALID_UID) then mret (- Errno.EINVAL)
            else length ← set_loginuid cur kloginuid; mret (if length =? 0 then count else length)
        end.

(** ** Fault injection *)

Definition proc_fault_inject_read (ino room count pos : Z) : PM (Z * list Z * Z) :=
  task ← get_proc_task ino;
  if negb (truthy task) then mret (- Errno.ESRCH, [], pos)
  else
    k ← task_at task;
    _ ← put_task_struct task;
    mret (simple_read_from_buffer room count pos (sdecimal (tk_make_it_fail k) ++ [10])).

(** [simple_strtol], stored to an int. *)
Definition simple_strtol (s : list Z) (base : Z) : Z * list Z :=
  match s with
  | c :: s' => if c =? 45 then let '(v, r) := simple_strtoull s' base in (s32 (- u32 v), r) else let '(v, r) := simple_strtoull s base in (s32 v, r)
  | [] => let '(v, r) := simple_strtoull s base in (s32 v, r)
  end.

Definition proc_fault_inject_write (cur : caller) (ino : Z) (ubuf : list Z) (count : Z) : PM Z :=
  if negb (cl_sys_resource cur) then mret (- Errno.EPERM)
  else
    let count := if PROC_NUMBUF - 1 <? count then PROC_NUMBUF - 1 else count in
    match copy_from_user ubuf count with
    | None => mret (- Errno.EFAULT)
    | Some buffer =>
      let '(make_it_fail, rest) := simple_strtol (strstrip (cstring buffer)) 0 in
      if negb (bool_decide (rest = [])) then mret (- Errno.EINVAL)
      else if (make_it_fail <? 0) || (1 <? make_it_fail) then mret (- Errno.EINVAL)
      else
        task ← get_proc_task ino;
        if negb (truthy task) then mret (- Errno.ESRCH)
        else _ ← upd_task task (set_tk_make_it_fail make_it_fail); _ ← put_task_struct task; mret count
    end.

(** ** POSIX timers *)

(** [struct timers_private]: the process number of the file, and while it is read the task and whether its signal handlers are locked. *)
Record timers_private := Timers { tp_pid : Z; tp_task : Z; tp_sighand : bool }.

(** The rest of the timers from a position on, or an error; the private data. *)
Definition timers_start (tp : timers_private) (pos : Z) : PM ((Z + list k_itimer) * timers_private) :=
  task ← get_pid_task (tp_pid tp);
  if negb (truthy task) then mret (inl (- Errno.ESRCH), Timers (tp_pid tp) 0 (tp_sighand tp))
  else
    k ← task_at task;
    if negb (tk_sighand k) then mret (inl (- Errno.ESRCH), Timers (tp_pid tp) task false)
    else g ← signal_at (tk_signal k); mret (inr (drop (Z.to_nat pos) (sg_posix_timers g)), Timers (tp_pid tp) task true).

Definition timers_next (v : list k_itimer) (pos : Z) : list k_itimer * Z := (drop 1 v, pos + 1).

Definition timers_stop (tp : timers_private) : PM timers_private :=
  _ ← (if truthy (tp_task tp) then put_task_struct (tp_task tp) else mret ());
  mret (Timers (tp_pid tp) 0 false).

(** The names of the ways to notify, at their numbers. *)
Definition notify_name (notify : Z) : option (list Z) :=
  let n := notify &&& Z.lnot SIGEV_THREAD_ID in
  if n =? SIGEV_SIGNAL then Some (bytes_of "signal") else if n =? SIGEV_NONE then Some (bytes_of "none")
  else if n =? SIGEV_THREAD then Some (bytes_of "thread") else None.

Definition show_timer (timer : k_itimer) : PM (list Z) :=
  p ← pid_at (it_pid timer);
  name ← plift (notify_name (it_sigev_notify timer));
  mret (bytes_of "ID: " ++ sdecimal (it_id timer) ++ [10] ++
    bytes_of "signal: " ++ sdecimal (it_signo timer) ++ [47] ++ pointer_text (it_value timer) ++ [10] ++
    bytes_of "notify: " ++ name ++ [47] ++ (if truthy (it_sigev_notify timer &&& SIGEV_THREAD_ID) then bytes_of "tid" else bytes_of "pid") ++
      [46] ++ sdecimal (pd_nr p) ++ [10] ++
    bytes_of "ClockID: " ++ sdecimal (it_clock timer) ++ [10]).

Definition proc_timers_open (ino : Z) : PM (Z + timers_private) :=
  t ← ptick;
  if negb (kmalloc_ok t) then mret (inl (- Errno.ENOMEM)) else i ← inode_at ino; mret (inr (Timers (in_pid i) 0 false)).

(** ** Security attributes *)

Definition attr_dir_stuff : list pid_entry :=
  [ REG "current" (S_IRUGO ||| S_IWUGO); REG "prev" S_IRUGO; REG "exec" (S_IRUGO ||| S_IWUGO); REG "fscreate" (S_IRUGO ||| S_IWUGO);
    REG "keycreate" (S_IRUGO ||| S_IWUGO); REG "sockcreate" (S_IRUGO ||| S_IWUGO) ].

Definition proc_attr_dir_readdir (dir parent_ino : Z) (c : dir_context) : PM (Z * dir_context) := proc_pident_readdir dir parent_ino c attr_dir_stuff.
Definition proc_attr_dir_lookup (dir : Z) (name : list Z) : PM Z := proc_pident_lookup dir name attr_dir_stuff.

Definition proc_pid_attr_read (ino : Z) (name : list Z) (room count pos : Z) : PM (Z * list Z * Z) :=
  task ← get_proc_task ino;
  if negb (truthy task) then mret (- Errno.ESRCH, [], pos)
  else
    t ← ptick;
    let '(length, p) := security_getprocattr task name t in
    _ ← put_task_struct task;
    mret (if 0 <? length then simple_read_from_buffer room count pos (take (Z.to_nat length) p) else (length, [], pos)).

Definition proc_pid_attr_write (ino : Z) (name ubuf : list Z) (count pos : Z) : PM Z :=
  task ← get_proc_task ino;
  if negb (truthy task) then mret (- Errno.ESRCH)
  else
    let out length := _ ← put_task_struct task; mret length in
    let count := if PAGE_SIZE <? count then PAGE_SIZE else count in
    if negb (pos =? 0) then out (- Errno.EINVAL)
    else
      t ← ptick;
      if negb (get_free_page t) then out (- Errno.ENOMEM)
      else
        match copy_from_user ubuf count with
        | None => out (- Errno.EFAULT)
        | Some page =>
          t ← ptick;
          let length := mutex_lock_interruptible t in
          if length <? 0 then out length
          else t ← ptick; out (security_setprocattr task name page t)
        end.

(** ** The core dump filter *)

Definition DUMP_FILTER_MASK : Z := Z.shiftl (Z.ones MMF_DUMP_FILTER_BITS) MMF_DUMP_FILTER_SHIFT.

Definition proc_coredump_filter_read (ino room count pos : Z) : PM (Z * list Z * Z) :=
  task ← get_proc_task ino;
  if negb (truthy task) then mret (- Errno.ESRCH, [], pos)
  else
    mm ← get_task_mm task;
    r ← (if truthy mm then
           m ← mm_at mm;
           _ ← mmput mm;
           mret (simple_read_from_buffer room count pos
                   (pad_left 8 48 (hexadecimal (Z.shiftr (mm_flags m &&& DUMP_FILTER_MASK) MMF_DUMP_FILTER_SHIFT)) ++ [10]))
         else mret (0, [], pos));
    _ ← put_task_struct task;
    mret r.

(** The loop over the bits: bit [i] of [val] goes to the bit [i] places above the shift. *)
Fixpoint filter_bits (n : nat) (i val flags : Z) : Z :=
  match n with
  | O => flags
  | S n =>
    let bit := i + MMF_DUMP_FILTER_SHIFT in
    filter_bits n (i + 1) val (if Z.testbit val i then Z.setbit flags bit else Z.clearbit flags bit)
  end.

Definition proc_coredump_filter_write (ino : Z) (ubuf : list Z) (count : Z) : PM Z :=
  let count := if PROC_NUMBUF - 1 <? count then PROC_NUMBUF - 1 else count in
  match copy_from_user ubuf count with
  | None => mret (- Errno.EFAULT)
  | Some buffer =>
    let text := cstring buffer in
    let '(v, rest) := simple_strtoull text 0 in
    let rest := match rest with c :: r => if c =? 10 then r else rest | [] => [] end in
    let used := zlen text - zlen rest in
    if used =? 0 then mret (- Errno.EINVAL)
    else
      task ← get_proc_task ino;
      if negb (truthy task) then mret (- Errno.ESRCH)
      else
        mm ← get_task_mm task;
        _ ← (if truthy mm then
               _ ← upd_mm mm (λ m, set_mm_flags (filter_bits (Z.to_nat MMF_DUMP_FILTER_BITS) 0 (u32 v) (mm_flags m)) m);
               mmput mm
             else mret ());
        _ ← put_task_struct task;
        mret used
  end.

(** ** Input and output *)

(** [task_io_accounting_add], counter by counter. *)
Definition io_add (a b : list Z) : list Z := zip_with (λ x y, wrap 64 (x + y)) a b.

(** [while_each_thread]: the threads behind [t] up to [task]. *)
Fixpoint io_threads (fuel : nat) (task t : Z) (acct : list Z) : PM (list Z) :=
  match fuel with
  | O => pfault
  | S fuel =>
    k ← task_at t;
    if tk_next_thread k =? task then mret acct
    else n ← task_at (tk_next_thread k); io_threads fuel task (tk_next_thread k) (io_add acct (tk_ioac n))
  end.

Definition io_names : list (list Z) :=
  bytes_of <$> ["rchar"; "wchar"; "syscr"; "syscw"; "read_bytes"; "write_bytes"; "cancelled_write_bytes"]%string.

Definition io_text (acct : list Z) : list Z := concat (zip_with (λ name v, name ++ bytes_of ": " ++ decimal v ++ [10]) io_names acct).

Definition do_io_accounting (cur : caller) (task : Z) (whole : bool) : PM (Z * list Z) :=
  k ← task_at task;
  t ← ptick;
  let result := mutex_lock_killable t in
  if truthy result then mret (result, [])
  else if negb (ptrace_may_access cur k false) then mret (- Errno.EACCES, [])
  else
    acct ← (if whole && tk_sighand k then
              g ← signal_at (tk_signal k);
              n ← pget (λ s, size (ps_tasks s));
              io_threads (S n) task task (io_add (tk_ioac k) (sg_ioac g))
            else mret (tk_ioac k));
    mret (0, io_text acct).

Definition proc_tid_io_accounting (cur : caller) (task : Z) : PM (Z * list Z) := do_io_accounting cur task false.
Definition proc_tgid_io_accounting (cur : caller) (task : Z) : PM (Z * list Z) := do_io_accounting cur task true.

(** ** User namespaces *)

Definition ns_ref (ns d : Z) : PM () := pmod (λ s, set_ps_user_nss (<[ns := default 0 (ps_user_nss s !! ns) + d]> (ps_user_nss s)) s).
Definition get_user_ns (ns : Z) : PM () := ns_ref ns 1.
Definition put_user_ns (ns : Z) : PM () := ns_ref ns (-1).

(** The namespace of the task of an inode, with a reference, or 0. *)
Definition inode_user_ns (ino : Z) : PM Z :=
  task ← get_proc_task ino;
  if truthy task then k ← task_at task; _ ← get_user_ns (tk_user_ns k); _ ← put_task_struct task; mret (tk_user_ns k)
  else mret 0.

(** The result, and the namespace that the open file holds. *)
Definition proc_id_map_open (ino : Z) : PM (Z * Z) :=
  ns ← inode_user_ns ino;
  if negb (truthy ns) then mret (- Errno.EINVAL, 0)
  else
    t ← ptick;
    let ret := single_open_ret t in
    if truthy ret then _ ← put_user_ns ns; mret (ret, 0) else mret (0, ns).

Definition proc_id_map_release (ns : Z) : PM Z := _ ← put_user_ns ns; mret 0.

Definition proc_setgroups_open (cur : caller) (ino f_mode : Z) : PM (Z * Z) :=
  ns ← inode_user_ns ino;
  if negb (truthy ns) then mret (- Errno.ESRCH, 0)
  else if truthy (f_mode &&& FMODE_WRITE) && negb (ns_sys_admin cur ns) then _ ← put_user_ns ns; mret (- Errno.EACCES, 0)
  else
    t ← ptick;
    let ret := single_open_ret t in
    if truthy ret then _ ← put_user_ns ns; mret (ret, 0) else mret (0, ns).

Definition proc_setgroups_release (ns : Z) : PM Z := _ ← put_user_ns ns; mret 0.

End Options.
