(* ===== verification/ProcSpec.v ===== *)
(** * Procfs: running its operations

    Lemmas on the programs of procfs, what the kernel guarantees about tasks, and the references to them. *)
From stdpp Require Import gmap.
From S2P Require Import Prelude Text ProcState.

(** ** Running programs *)

Lemma pbind_run {A B} (m : PM A) (f : A → PM B) s x s' : m s = Some (x, s') → (m ≫= f) s = f x s'.
Proof. intros Hm. unfold mbind, PM_bind. by rewrite Hm. Qed.
Lemma pbind_inv {A B} (m : PM A) (f : A → PM B) s y s' :
  (m ≫= f) s = Some (y, s') → ∃ x s1, m s = Some (x, s1) ∧ f x s1 = Some (y, s').
Proof. unfold mbind, PM_bind. destruct (m s) as [[x s1]|]; [|done]. by eauto. Qed.
Lemma pid_at_run x p s : ps_pids s !! x = Some p → pid_at x s = Some (p, s).
Proof. unfold pid_at. by intros ->. Qed.
Lemma task_at_run x p s : ps_tasks s !! x = Some p → task_at x s = Some (p, s).
Proof. unfold task_at. by intros ->. Qed.
Lemma signal_at_run x p s : ps_signals s !! x = Some p → signal_at x s = Some (p, s).
Proof. unfold signal_at. by intros ->. Qed.
Lemma mm_at_run x p s : ps_mms s !! x = Some p → mm_at x s = Some (p, s).
Proof. unfold mm_at. by intros ->. Qed.
Lemma inode_at_run x p s : ps_inodes s !! x = Some p → inode_at x s = Some (p, s).
Proof. unfold inode_at. by intros ->. Qed.
Lemma upd_signal_run x f p s : ps_signals s !! x = Some p → upd_signal x f s = Some ((), set_ps_signals (<[x := f p]> (ps_signals s)) s).
Proof. unfold upd_signal. by intros ->. Qed.
Lemma upd_task_run x f p s : ps_tasks s !! x = Some p → upd_task x f s = Some ((), set_ps_tasks (<[x := f p]> (ps_tasks s)) s).
Proof. unfold upd_task. by intros ->. Qed.
Lemma upd_mm_run x f p s : ps_mms s !! x = Some p → upd_mm x f s = Some ((), set_ps_mms (<[x := f p]> (ps_mms s)) s).
Proof. unfold upd_mm. by intros ->. Qed.
Lemma upd_inode_run x f p s : ps_inodes s !! x = Some p → upd_inode x f s = Some ((), set_ps_inodes (<[x := f p]> (ps_inodes s)) s).
Proof. unfold upd_inode. by intros ->. Qed.

(** One step of a program whose next action is one of the above. *)
Ltac prun :=
  erewrite pbind_run by first
    [ reflexivity | eapply pid_at_run; eassumption | eapply task_at_run; eassumption | eapply signal_at_run; eassumption | eapply mm_at_run; eassumption
    | eapply inode_at_run; eassumption | eapply upd_signal_run; eassumption | eapply upd_task_run; eassumption | eapply upd_mm_run; eassumption
    | eapply upd_inode_run; eassumption | eassumption ]; cbv beta.

(** ** Tasks and their references *)

(** What the kernel guarantees: a process number leads to a task that has it, and a task to its group and memory. *)
Record procs_ok (s : pstate) : Prop := {
  po_pid x p : ps_pids s !! x = Some p → pd_task p ≠ 0 → ∃ k, ps_tasks s !! pd_task p = Some k ∧ tk_pid k = x;
  po_owner t k : ps_tasks s !! t = Some k → tk_pid k ≠ 0 → is_Some (ps_pids s !! tk_pid k);
  po_usage t k : ps_tasks s !! t = Some k → 1 ≤ tk_usage k;
  po_signal t k : ps_tasks s !! t = Some k → is_Some (ps_signals s !! tk_signal k);
  po_mm t k : ps_tasks s !! t = Some k → tk_mm k ≠ 0 → is_Some (ps_mms s !! tk_mm k) }.

(** An inode of a process. *)
Definition task_inode (s : pstate) (ino : Z) (i : inode) (p : pid_struct) : Prop := ps_inodes s !! ino = Some i ∧ ps_pids s !! in_pid i = Some p.

(** A reference more to a task. *)
Definition pinned (t : Z) (s : pstate) : pstate := set_ps_tasks (alter (λ k, set_tk_usage (tk_usage k + 1) k) t (ps_tasks s)) s.
Definition pin (k : task_struct) : task_struct := set_tk_usage (tk_usage k + 1) k.

Lemma pinned_lookup s t k : ps_tasks s !! t = Some k → ps_tasks (pinned t s) !! t = Some (pin k).
Proof. intros Hk. cbn. by rewrite lookup_alter_eq, Hk. Qed.

Lemma get_task_run s t k : ps_tasks s !! t = Some k → get_task_struct t s = Some ((), pinned t s).
Proof.
  intros Hk. unfold get_task_struct, upd_task, pinned. rewrite Hk. cbn. do 3 f_equal. apply map_eq. intros y.
  destruct (decide (y = t)) as [->|]; [by rewrite lookup_insert_eq, lookup_alter_eq, Hk|by rewrite lookup_insert_ne, lookup_alter_ne].
Qed.

Lemma put_pinned s t k : ps_tasks s !! t = Some k → 1 ≤ tk_usage k → put_task_struct t (pinned t s) = Some ((), s).
Proof.
  intros Hk Hu. unfold put_task_struct. pose proof (pinned_lookup s t k Hk) as Hp. prun. cbn [tk_usage pin set_tk_usage].
  destruct (Z.eqb_spec (tk_usage k + 1) 1); [lia|]. rewrite (upd_task_run _ _ _ _ Hp).
  assert (set_tk_usage (tk_usage k + 1 - 1) (pin k) = k) as -> by (destruct k; unfold pin, set_tk_usage; cbn; f_equal; lia).
  do 2 f_equal. destruct s. unfold pinned, set_ps_tasks. cbn. f_equal. apply map_eq. intros y.
  destruct (decide (y = t)) as [->|]; [by rewrite lookup_insert_eq|by rewrite lookup_insert_ne, lookup_alter_ne].
Qed.

Lemma proc_task_run s ino i p :
  procs_ok s → task_inode s ino i p →
  get_proc_task ino s = Some (pd_task p, if truthy (pd_task p) then pinned (pd_task p) s else s).
Proof.
  intros Hok [Hi Hp]. unfold get_proc_task, get_pid_task, pid_task. prun.
  erewrite pbind_run by (prun; reflexivity). destruct (truthy (pd_task p)) eqn:E; [|done].
  destruct (po_pid s Hok _ _ Hp) as (k & Hk & _); [unfold truthy in E; lia|]. by rewrite (pbind_run _ _ _ _ _ (get_task_run s _ k Hk)).
Qed.

(** A user more and one less leave the address space as it was. *)
Lemma users_restored s mm m : ps_mms s !! mm = Some m →
  set_ps_mms (<[mm := set_mm_users (mm_users (set_mm_users (mm_users m + 1) m) - 1) (set_mm_users (mm_users m + 1) m)]> (<[mm := set_mm_users (mm_users m + 1) m]> (ps_mms s))) s = s.
Proof.
  intros Hm. rewrite insert_insert_eq. assert (set_mm_users (mm_users (set_mm_users (mm_users m + 1) m) - 1) (set_mm_users (mm_users m + 1) m) = m) as ->.
  { destruct m. unfold set_mm_users. cbn. f_equal. lia. }
  rewrite insert_id by done. by destruct s.
Qed.
