(* ===== verification/ProcOomProps.v ===== *)
(** * Procfs: what writing the out-of-memory scores can do

    Every path of the two handlers, what unprivileged writers can reach, and what is read back. *)
From stdpp Require Import gmap.
From S2P Require Import Prelude Text ProcState ProcOom ProcSpec.

Section OomProps.
Context `{ProcKernel} `{!ProcKernelLaws}.

(** ** One write *)

(** The score of the group of task [k] set to [v], and its floor to [mn]. *)
Definition scored (s : pstate) (k : task_struct) (sg : signal_struct) (v mn : Z) : pstate :=
  set_ps_signals (<[tk_signal k := set_sg_oom_score_adj_min mn (set_sg_oom_score_adj v sg)]> (ps_signals s)) s.

(** What a write by [cur] to a file of process [p] leaves: nothing changed, or a new score that the writer may set. *)
Definition score_written (cur : caller) (p : pid_struct) (s s' : pstate) : Prop :=
  s' = s ∨ ∃ k sg v mn, ps_tasks s !! pd_task p = Some k ∧ ps_signals s !! tk_signal k = Some sg ∧ s' = scored s k sg v mn ∧
    OOM_SCORE_ADJ_MIN ≤ v ≤ OOM_SCORE_ADJ_MAX ∧ oom_adj_write_permitted cur k = true ∧
    (mn = sg_oom_score_adj_min sg ∨ cl_sys_resource cur = true ∧ mn = v) ∧
    (cl_sys_resource cur = false → Z.min (sg_oom_score_adj sg) (sg_oom_score_adj_min sg) ≤ v).

Lemma scaled_range a : (OOM_ADJUST_MIN ≤ a ≤ OOM_ADJUST_MAX ∨ a = OOM_DISABLE) →
  let v := if a =? OOM_ADJUST_MAX then OOM_SCORE_ADJ_MAX else Z.quot (a * OOM_SCORE_ADJ_MAX) (- OOM_DISABLE) in
  OOM_SCORE_ADJ_MIN ≤ v ≤ OOM_SCORE_ADJ_MAX.
Proof.
  destruct oom_constants as (-> & -> & -> & -> & ->). intros Ha. assert (-17 ≤ a ≤ 15) as Hr by lia. cbv zeta. destruct (a =? 15); [lia|].
  change (- -17) with 17. Z.to_euclidean_division_equations. lia.
Qed.

Lemma s16_score v : OOM_SCORE_ADJ_MIN ≤ v ≤ OOM_SCORE_ADJ_MAX → s16 v = v.
Proof. destruct oom_constants as (_ & _ & _ & -> & ->). intros Hv. apply signed_small; lia. Qed.

(** The end of a handler that holds its task. *)
Lemma put_out_run {A} s t k (r : A) : ps_tasks s !! t = Some k → 1 ≤ tk_usage k → (_ ← put_task_struct t; mret r) (pinned t s) = Some (r, s).
Proof. intros Hk Hu. by rewrite (pbind_run _ _ _ _ _ (put_pinned s t k Hk Hu)). Qed.

(** A writer with CAP_SYS_RESOURCE moves the floor along. *)
Lemma floor_run cur s t k sg v :
  (if cl_sys_resource cur then upd_signal (tk_signal k) (set_sg_oom_score_adj_min v) else mret ())
    (set_ps_signals (<[tk_signal k := set_sg_oom_score_adj v sg]> (ps_signals (pinned t s))) (pinned t s)) =
  Some ((), pinned t (scored s k sg v (if cl_sys_resource cur then v else sg_oom_score_adj_min sg))).
Proof.
  unfold scored. destruct (cl_sys_resource cur); [|by destruct sg].
  erewrite upd_signal_run by (cbn; by rewrite lookup_insert_eq). cbn. by rewrite insert_insert_eq.
Qed.

Lemma oom_adj_write_run s cur ino ubuf count i p :
  procs_ok s → task_inode s ino i p → ∃ r s', oom_adj_write cur ino ubuf count s = Some (r, s') ∧ score_written cur p s s'.
Proof.
  intros Hok Hino. unfold oom_adj_write. set (n := if PROC_NUMBUF - 1 <? count then PROC_NUMBUF - 1 else count).
  assert (∀ r : Z, ∃ r' s', Some (r, s) = Some (r', s') ∧ score_written cur p s s') as Hsame by (intros r; exists r, s; split; [done|by left]).
  destruct (copy_from_user ubuf n) as [buf|]; [|by apply Hsame].
  destruct (kstrtoint (strstrip (cstring buf))) as [err a]. destruct (truthy err); [by apply Hsame|].
  destruct (((a <? OOM_ADJUST_MIN) || (OOM_ADJUST_MAX <? a)) && negb (a =? OOM_DISABLE)) eqn:Er; [by apply Hsame|].
  assert (OOM_ADJUST_MIN ≤ a ≤ OOM_ADJUST_MAX ∨ a = OOM_DISABLE) as Ha by lia. apply scaled_range in Ha. cbv zeta in Ha.
  rewrite (pbind_run _ _ _ _ _ (proc_task_run s ino i p Hok Hino)). destruct (truthy (pd_task p)) eqn:Et; cbn [negb]; [|by apply Hsame].
  destruct Hino as [_ Hp]. destruct (po_pid s Hok _ _ Hp) as (k & Hk & _); [unfold truthy in Et; lia|]. destruct (po_signal s Hok _ _ Hk) as [sg Hsg].
  pose proof (po_usage s Hok _ _ Hk) as Hu. pose proof (pinned_lookup s _ _ Hk) as Hpk. prun. cbn [pin set_tk_usage tk_mm tk_sighand tk_signal].
  destruct (truthy (tk_mm k)); cbn [negb]; [|rewrite (put_out_run s _ k) by done; by apply Hsame].
  destruct (tk_sighand k); cbn [negb]; [|rewrite (put_out_run s _ k) by done; by apply Hsame].
  assert (ps_signals (pinned (pd_task p) s) !! tk_signal k = Some sg) as Hsg' by done. prun. set (v := if a =? OOM_ADJUST_MAX then _ else _) in *.
  change (oom_adj_write_permitted cur (pin k)) with (oom_adj_write_permitted cur k).
  destruct (oom_adj_write_permitted cur k) eqn:Epm; cbn [negb]; [|rewrite (put_out_run s _ k) by done; by apply Hsame].
  destruct ((v <? sg_oom_score_adj sg) && negb (cl_sys_resource cur)) eqn:Ef; [rewrite (put_out_run s _ k) by done; by apply Hsame|].
  prun. rewrite s16_score by done. change (set_ps_signals _ (pinned (pd_task p) s)) with (pinned (pd_task p) (set_ps_signals (<[tk_signal k := set_sg_oom_score_adj v sg]> (ps_signals s)) s)).
  eexists _, _. split; [by apply (put_out_run (set_ps_signals _ s) _ k)|].
  right. exists k, sg, v, (sg_oom_score_adj_min sg). do 2 (split; [done|]). split; [unfold scored; by destruct sg|]. split; [done|]. split; [done|].
  split; [by left|]. intros Hc. rewrite Hc in Ef. lia.
Qed.

Lemma oom_score_adj_write_run s cur ino ubuf count i p :
  procs_ok s → task_inode s ino i p → ∃ r s', oom_score_adj_write cur ino ubuf count s = Some (r, s') ∧ score_written cur p s s'.
Proof.
  intros Hok Hino. unfold oom_score_adj_write. set (n := if PROC_NUMBUF - 1 <? count then PROC_NUMBUF - 1 else count).
  assert (∀ r : Z, ∃ r' s', Some (r, s) = Some (r', s') ∧ score_written cur p s s') as Hsame by (intros r; exists r, s; split; [done|by left]).
  destruct (copy_from_user ubuf n) as [buf|]; [|by apply Hsame].
  destruct (kstrtoint (strstrip (cstring buf))) as [err v]. destruct (truthy err); [by apply Hsame|].
  destruct ((v <? OOM_SCORE_ADJ_MIN) || (OOM_SCORE_ADJ_MAX <? v)) eqn:Er; [by apply Hsame|].
  assert (OOM_SCORE_ADJ_MIN ≤ v ≤ OOM_SCORE_ADJ_MAX) as Hv by lia. rewrite s16_score by done.
  rewrite (pbind_run _ _ _ _ _ (proc_task_run s ino i p Hok Hino)). destruct (truthy (pd_task p)) eqn:Et; cbn [negb]; [|by apply Hsame].
  destruct Hino as [_ Hp]. destruct (po_pid s Hok _ _ Hp) as (k & Hk & _); [unfold truthy in Et; lia|]. destruct (po_signal s Hok _ _ Hk) as [sg Hsg].
  pose proof (po_usage s Hok _ _ Hk) as Hu. pose proof (pinned_lookup s _ _ Hk) as Hpk. prun. change (oom_adj_write_permitted cur (pin k)) with (oom_adj_write_permitted cur k). cbn [pin set_tk_usage tk_mm tk_sighand tk_signal].
  destruct (oom_adj_write_permitted cur k) eqn:Epm; cbn [negb]; [|rewrite (put_out_run s _ k) by done; by apply Hsame].
  destruct (truthy (tk_mm k)); cbn [negb]; [|rewrite (put_out_run s _ k) by done; by apply Hsame].
  destruct (tk_sighand k); cbn [negb]; [|rewrite (put_out_run s _ k) by done; by apply Hsame].
  assert (ps_signals (pinned (pd_task p) s) !! tk_signal k = Some sg) as Hsg' by done. prun.
  destruct ((v <? sg_oom_score_adj_min sg) && negb (cl_sys_resource cur)) eqn:Ef; [rewrite (put_out_run s _ k) by done; by apply Hsame|].
  prun. rewrite (pbind_run _ _ _ _ _ (floor_run cur s (pd_task p) k sg v)). set (mn := if cl_sys_resource cur then v else sg_oom_score_adj_min sg). eexists _, _. split; [by apply (put_out_run (scored s k sg v mn) _ k)|].
  right. exists k, sg, v, mn. do 5 (split; [done|]). split; [unfold mn; destruct (cl_sys_resource cur); [by right|by left]|]. intros Hc. rewrite Hc in Ef. lia.
Qed.

(** ** Histories *)

Inductive oom_op :=
| Write_oom_adj (cur : caller) (ino : Z) (ubuf : list Z) (count : Z)
| Write_oom_score_adj (cur : caller) (ino : Z) (ubuf : list Z) (count : Z).

Definition run_oom (op : oom_op) : PM Z :=
  match op with Write_oom_adj cur ino ubuf count => oom_adj_write cur ino ubuf count | Write_oom_score_adj cur ino ubuf count => oom_score_adj_write cur ino ubuf count end.
Definition oom_caller (op : oom_op) : caller := match op with Write_oom_adj cur _ _ _ | Write_oom_score_adj cur _ _ _ => cur end.
Definition oom_ino (op : oom_op) : Z := match op with Write_oom_adj _ ino _ _ | Write_oom_score_adj _ ino _ _ => ino end.

Fixpoint run_ooms (ops : list oom_op) : PM (list Z) :=
  match ops with [] => mret [] | op :: ops => r ← run_oom op; rs ← run_ooms ops; mret (r :: rs) end.

Lemma run_oom_run s op i p : procs_ok s → task_inode s (oom_ino op) i p → ∃ r s', run_oom op s = Some (r, s') ∧ score_written (oom_caller op) p s s'.
Proof. intros Hok Hi. destruct op; [by eapply oom_adj_write_run|by eapply oom_score_adj_write_run]. Qed.

(** All that a history of writes changes are the scores. *)
Definition same_but_scores (sg sg' : signal_struct) : Prop := ∃ v mn, sg' = set_sg_oom_score_adj_min mn (set_sg_oom_score_adj v sg).
Definition only_scores (s s' : pstate) : Prop := ∃ m, s' = set_ps_signals m s ∧ ∀ g, option_Forall2 same_but_scores (ps_signals s !! g) (m !! g).

#[local] Instance same_but_scores_po : PreOrder same_but_scores.
Proof.
  split; [intros sg; exists (sg_oom_score_adj sg), (sg_oom_score_adj_min sg); by destruct sg|].
  intros sg1 sg2 sg3 (v & mn & ->) (v' & mn' & ->). by exists v', mn'.
Qed.

Lemma only_scores_refl s : only_scores s s.
Proof. exists (ps_signals s). split; [by destruct s|]. by intros g. Qed.

Lemma scored_only_scores s k sg v mn : ps_signals s !! tk_signal k = Some sg → only_scores s (scored s k sg v mn).
Proof.
  intros Hsg. eexists. split; [done|]. intros g. destruct (decide (g = tk_signal k)) as [->|]; [|by rewrite lookup_insert_ne].
  rewrite lookup_insert_eq, Hsg. constructor. by exists v, mn.
Qed.

Lemma written_only_scores cur p s s' : score_written cur p s s' → only_scores s s'.
Proof.
  intros [->|(k & sg & v & mn & _ & Hsg & -> & _)]; [apply only_scores_refl|by apply scored_only_scores].
Qed.

Lemma only_scores_ok s s' : only_scores s s' → procs_ok s → procs_ok s'.
Proof. intros (m & -> & Hm) [Hp Ho Hu Hs Hmm]. split; [exact Hp|exact Ho|exact Hu| |exact Hmm]. intros t k Hk. cbn. destruct (Hs t k Hk) as [sg Hsg].
  specialize (Hm (tk_signal k)). rewrite Hsg in Hm. inversion Hm; subst. by eexists. Qed.

Lemma only_scores_trans s s1 s2 : only_scores s s1 → only_scores s1 s2 → only_scores s s2.
Proof. intros (m1 & -> & H1') (m2 & -> & H2'). exists m2. split; [done|]. intros g. etrans; [apply H1'|apply H2']. Qed.

(** A history keeps what each write keeps, [Q] telling which writers there are. *)
Lemma run_ooms_ind (Q : caller → Prop) (I : pstate → pstate → Prop) ops : ∀ s,
  (∀ s, I s s) → (∀ cur p s s1 s2, Q cur → score_written cur p s s1 → I s1 s2 → I s s2) →
  procs_ok s → Forall (λ op, Q (oom_caller op) ∧ ∃ i p, task_inode s (oom_ino op) i p) ops →
  ∃ rs s', run_ooms ops s = Some (rs, s') ∧ only_scores s s' ∧ I s s'.
Proof.
  induction ops as [|op ops IH]; intros s Hrefl Hstep Hok Hops; cbn [run_ooms].
  { exists [], s. split; [done|]. split; [apply only_scores_refl|done]. }
  apply Forall_cons in Hops as [(HQ & i & p & Hi) Hops]. destruct (run_oom_run s op i p Hok Hi) as (r & s1 & Hr & Hw). rewrite (pbind_run _ _ _ _ _ Hr).
  pose proof (written_only_scores _ _ _ _ Hw) as Ho. destruct (IH s1 Hrefl Hstep) as (rs & s2 & Hrs & Ho2 & HI); [by eapply only_scores_ok|..].
  { destruct Ho as (m & -> & _). exact Hops. }
  exists (r :: rs), s2. split; [by rewrite (pbind_run _ _ _ _ _ Hrs)|]. split; [by eapply only_scores_trans|by eapply Hstep].
Qed.

(** Scores and floors of all groups are legal values. *)
Definition scores_legal (s : pstate) : Prop := ∀ g sg, ps_signals s !! g = Some sg →
  OOM_SCORE_ADJ_MIN ≤ sg_oom_score_adj sg ≤ OOM_SCORE_ADJ_MAX ∧ OOM_SCORE_ADJ_MIN ≤ sg_oom_score_adj_min sg ≤ OOM_SCORE_ADJ_MAX.

(** C26: Whatever text any processes write to the oom_adj and oom_score_adj files of any processes, no access is wrong, every reference is given back, nothing of the
    processes changes but the scores and floors of their thread groups, and these stay legal values. *)
Theorem oom_scores_stay_legal ops s :
  procs_ok s → scores_legal s → Forall (λ op, ∃ i p, task_inode s (oom_ino op) i p) ops →
  ∃ rs s', run_ooms ops s = Some (rs, s') ∧ only_scores s s' ∧ scores_legal s'.
Proof.
  intros Hok Hl Hops. destruct (run_ooms_ind (λ _, True) (λ s s', scores_legal s → scores_legal s') ops s) as (rs & s' & Hr & Ho & HI); [done| |done|eapply Forall_impl; [exact Hops|by intros op Hop]|].
  - intros cur p s0 s1 s2 _ [->|(k & sg & v & mn & _ & Hsg & -> & Hv & _ & Hmn & _)] Hn Hs0; [by apply Hn|]. apply Hn. intros g sg' Hg. cbn in Hg.
    destruct (decide (g = tk_signal k)) as [->|Hne]; [|rewrite lookup_insert_ne in Hg by done; by eapply Hs0]. rewrite lookup_insert_eq in Hg. injection Hg as <-.
    destruct (Hs0 _ _ Hsg) as [_ Hm]. cbn. split; [done|]. destruct Hmn as [->|[_ ->]]; done.
  - exists rs, s'. split; [done|]. split; [done|by apply HI].
Qed.

(** C25: Writers without CAP_SYS_RESOURCE cannot protect a process: however they write, its score does not fall below what it was or below its floor, the floor does not move, and a
    score changes only if one of them has the real or effective user of a task of the group. *)
Theorem unprivileged_writers_respect_floor ops s :
  procs_ok s → Forall (λ op, cl_sys_resource (oom_caller op) = false ∧ ∃ i p, task_inode s (oom_ino op) i p) ops →
  ∃ rs s', run_ooms ops s = Some (rs, s') ∧ ∀ g sg, ps_signals s !! g = Some sg → ∃ sg', ps_signals s' !! g = Some sg' ∧
    Z.min (sg_oom_score_adj sg) (sg_oom_score_adj_min sg) ≤ sg_oom_score_adj sg' ∧ sg_oom_score_adj_min sg' = sg_oom_score_adj_min sg ∧
    (sg_oom_score_adj sg' ≠ sg_oom_score_adj sg → ∃ op t k, op ∈ ops ∧ ps_tasks s !! t = Some k ∧ tk_signal k = g ∧ (cl_euid (oom_caller op) = tk_uid k ∨ cl_euid (oom_caller op) = tk_euid k)).
Proof.
  intros Hok Hops. set (Q := λ cur, cl_sys_resource cur = false ∧ ∃ op, op ∈ ops ∧ oom_caller op = cur).
  destruct (run_ooms_ind Q (λ s0 s', ∀ g sg, ps_signals s0 !! g = Some sg → ∃ sg', ps_signals s' !! g = Some sg' ∧
    Z.min (sg_oom_score_adj sg) (sg_oom_score_adj_min sg) ≤ sg_oom_score_adj sg' ∧ sg_oom_score_adj_min sg' = sg_oom_score_adj_min sg ∧
    (sg_oom_score_adj sg' ≠ sg_oom_score_adj sg → ∃ op t k, op ∈ ops ∧ ps_tasks s0 !! t = Some k ∧ tk_signal k = g ∧ (cl_euid (oom_caller op) = tk_uid k ∨ cl_euid (oom_caller op) = tk_euid k))) ops s)
    as (rs & s' & Hr & _ & HI); [| |done| |by exists rs, s'].
  - intros s0 g sg Hg. exists sg. split; [done|]. split; [lia|done].
  - intros cur p s0 s1 s2 (Hc & op & Hop & Hcur) Hw Hn g sg Hg. destruct Hw as [->|(k & sg0 & v & mn & Hk & Hsg0 & -> & _ & Hperm & Hmn & Hfl)]; [by apply Hn|].
    assert (mn = sg_oom_score_adj_min sg0) as -> by (destruct Hmn as [?|[? _]]; [done|congruence]). specialize (Hfl Hc). clear Hmn.
    unfold oom_adj_write_permitted in Hperm. rewrite Hc in Hperm. cbn in Hn.
    destruct (decide (g = tk_signal k)) as [->|Hne].
    + assert (sg0 = sg) as -> by congruence. destruct (Hn (tk_signal k) _ (lookup_insert_eq _ _ _)) as (sg' & Hg' & Hm & Hmin & Hch). exists sg'. split; [done|]. cbn in *.
      split; [lia|]. split; [done|]. intros _. exists op, (pd_task p), k. rewrite Hcur. do 3 (split; [done|]). lia.
    + destruct (Hn g sg) as (sg' & Hg' & Hrest); [by rewrite lookup_insert_ne|]. by exists sg'.
  - apply Forall_forall. intros op Hop. rewrite Forall_forall in Hops. destruct (Hops op Hop) as [Hc Hi]. split; [|done]. split; [done|]. by exists op.
Qed.

(** ** What is read back *)

(** Printed numbers have no zero byte, so the whole text is the string. *)
Lemma sdecimal_nonzero n : Forall (λ c, c ≠ 0) (sdecimal n ++ [10]).
Proof.
  assert (∀ m, 0 ≤ m → Forall (λ c, c ≠ 0) (decimal m ++ [10])) as Hd.
  { intros m Hm. destruct (decimal_spec m Hm) as [_ Hf]. apply Forall_app. split; [|by repeat constructor]. eapply Forall_impl; [exact Hf|]. intros c. unfold isdigit. lia. }
  unfold sdecimal. destruct (Z.ltb_spec n 0); [|by apply Hd]. constructor; [done|]. apply Hd. lia.
Qed.

Lemma cstring_id b : Forall (λ c, c ≠ 0) b → cstring b = b.
Proof. induction 1 as [|c b Hc _ IH]; [done|]. cbn. destruct (Z.eqb_spec c 0); [done|]. by rewrite IH. Qed.

Lemma sdecimal_short v : - 10 ^ 9 < v < 10 ^ 9 → zlen (sdecimal v ++ [10]) ≤ PROC_NUMBUF - 1.
Proof.
  intros Hv. destruct proc_constants as (-> & _). rewrite length_app. unfold sdecimal. destruct (Z.ltb_spec v 0); cbn [length].
  - pose proof (decimal_length (- v) 8 ltac:(cbn; lia)). lia.
  - pose proof (decimal_length v 8 ltac:(cbn; lia)). lia.
Qed.

(** A printed number as a user's buffer is read in full. *)
Lemma copy_text v : - 10 ^ 9 < v < 10 ^ 9 →
  let text := sdecimal v ++ [10] in
  (if PROC_NUMBUF - 1 <? zlen text then PROC_NUMBUF - 1 else zlen text) = zlen text ∧
  copy_from_user text (zlen text) = Some text ∧ kstrtoint (strstrip (cstring text)) = (0, v).
Proof.
  intros Hv text. pose proof (sdecimal_short v Hv) as Hl. fold text in Hl. split; [destruct (Z.ltb_spec (PROC_NUMBUF - 1) (zlen text)); lia|]. split.
  - unfold copy_from_user. rewrite Z.leb_refl, Nat2Z.id, take_ge by lia. done.
  - rewrite cstring_id by apply sdecimal_nonzero. apply kstrtoint_decimal. lia.
Qed.

(** A task that is not on its way out. *)
Definition living (s : pstate) (p : pid_struct) (k : task_struct) (sg : signal_struct) : Prop :=
  pd_task p ≠ 0 ∧ ps_tasks s !! pd_task p = Some k ∧ ps_signals s !! tk_signal k = Some sg ∧ tk_mm k ≠ 0 ∧ tk_sighand k = true.

Lemma living_scored s p k sg v mn : living s p k sg → living (scored s k sg v mn) p k (set_sg_oom_score_adj_min mn (set_sg_oom_score_adj v sg)).
Proof. intros (H1' & H2' & H3' & H4' & H5'). repeat split; try done. cbn. by rewrite lookup_insert_eq. Qed.

Lemma scored_ok s k sg v mn : procs_ok s → ps_signals s !! tk_signal k = Some sg → procs_ok (scored s k sg v mn).
Proof.
  intros Hok Hsg. eapply only_scores_ok; [|done]. by apply scored_only_scores.
Qed.

Lemma oom_score_adj_read_run s ino i p k sg room count :
  procs_ok s → task_inode s ino i p → living s p k sg →
  zlen (sdecimal (sg_oom_score_adj sg) ++ [10]) ≤ count → zlen (sdecimal (sg_oom_score_adj sg) ++ [10]) ≤ room →
  let text := sdecimal (sg_oom_score_adj sg) ++ [10] in oom_score_adj_read ino room count 0 s = Some ((zlen text, text, zlen text), s).
Proof.
  intros Hok Hi (Hp & Hk & Hsg & _ & Hh) Hc Hr. unfold oom_score_adj_read. rewrite (pbind_run _ _ _ _ _ (proc_task_run s ino i p Hok Hi)).
  assert (truthy (pd_task p) = true) as -> by (unfold truthy; lia). cbn [negb]. pose proof (pinned_lookup s _ _ Hk) as Hpk. prun. cbn [pin set_tk_usage tk_sighand tk_signal]. rewrite Hh.
  assert (ps_signals (pinned (pd_task p) s) !! tk_signal k = Some sg) as Hsg' by done. rewrite (pbind_run _ _ _ (sg_oom_score_adj sg) (pinned (pd_task p) s)) by (by prun).
  rewrite (pbind_run _ _ _ _ _ (put_pinned s _ k Hk (po_usage s Hok _ _ Hk))). cbv zeta. by rewrite (simple_read_all room count) by done.
Qed.

(** A permitted writer that holds CAP_SYS_RESOURCE or does not go below the floor sets the score of a living process: a number written to oom_score_adj is what the file then reads. *)
Theorem oom_score_adj_reads_what_was_written s cur ino i p k sg v room count :
  procs_ok s → task_inode s ino i p → living s p k sg → OOM_SCORE_ADJ_MIN ≤ v ≤ OOM_SCORE_ADJ_MAX →
  oom_adj_write_permitted cur k = true → (cl_sys_resource cur = true ∨ sg_oom_score_adj_min sg ≤ v) →
  let text := sdecimal v ++ [10] in zlen text ≤ count → zlen text ≤ room →
  ∃ s', oom_score_adj_write cur ino text (zlen text) s = Some (zlen text, s') ∧
    oom_score_adj_read ino room count 0 s' = Some ((zlen text, text, zlen text), s').
Proof.
  intros Hok Hi Hlive Hv Hperm Hfl text Hc Hr. pose proof Hlive as (Hp & Hk & Hsg & Hmm & Hh).
  assert (- 10 ^ 9 < v < 10 ^ 9) as Hbig by (destruct oom_constants as (_ & _ & _ & E1 & E2); lia).
  destruct (copy_text v Hbig) as (En & Ecopy & Ek). fold text in En, Ecopy, Ek. set (mn := if cl_sys_resource cur then v else sg_oom_score_adj_min sg).
  exists (scored s k sg v mn). split.
  2:{ apply (oom_score_adj_read_run _ ino i p k (set_sg_oom_score_adj_min mn (set_sg_oom_score_adj v sg))); [by apply scored_ok|done|by apply living_scored|done|done]. }
  unfold oom_score_adj_write. rewrite En, Ecopy, Ek. change (truthy 0) with false. cbv iota.
  destruct ((v <? OOM_SCORE_ADJ_MIN) || (OOM_SCORE_ADJ_MAX <? v)) eqn:Er; [lia|]. rewrite s16_score by done.
  rewrite (pbind_run _ _ _ _ _ (proc_task_run s ino i p Hok Hi)). assert (truthy (pd_task p) = true) as -> by (unfold truthy; lia). cbn [negb].
  pose proof (pinned_lookup s _ _ Hk) as Hpk. prun. change (oom_adj_write_permitted cur (pin k)) with (oom_adj_write_permitted cur k). rewrite Hperm.
  cbn [pin set_tk_usage tk_mm tk_sighand tk_signal negb]. assert (truthy (tk_mm k) = true) as -> by (unfold truthy; lia). rewrite Hh. cbn [negb].
  assert (ps_signals (pinned (pd_task p) s) !! tk_signal k = Some sg) as Hsg' by done. prun.
  destruct ((v <? sg_oom_score_adj_min sg) && negb (cl_sys_resource cur)) eqn:Ef; [destruct Hfl as [Hfl|Hfl]; [rewrite Hfl in Ef|]; lia|].
  prun. rewrite (pbind_run _ _ _ _ _ (floor_run cur s (pd_task p) k sg v)). apply (put_out_run (scored s k sg v mn) _ k); [done|by apply (po_usage s Hok _ _ Hk)].
Qed.

(** What scaling to a score and back makes of a value. *)
Lemma scaled_back a : -17 ≤ a ≤ 15 →
  let v := if a =? 15 then 1000 else Z.quot (a * 1000) 17 in
  (if v =? 1000 then 15 else Z.quot (v * 17) 1000) = if (a =? 15) || (a =? 0) || (a =? -17) then a else a - Z.sgn a.
Proof.
  intros Ha. assert (forallb (λ a, let v := if a =? 15 then 1000 else Z.quot (a * 1000) 17 in
    (if v =? 1000 then 15 else Z.quot (v * 17) 1000) =? (if (a =? 15) || (a =? 0) || (a =? -17) then a else a - Z.sgn a)) (seqZ (-17) 33) = true) as Hall by (vm_compute; reflexivity).
  rewrite forallb_forall in Hall. apply Z.eqb_eq, Hall, list_elem_of_In, elem_of_seqZ. lia.
Qed.

(** Except for the two ends and zero, what is written to the old file oom_adj reads back one closer to zero: the conversions both
    round towards zero. *)
Theorem oom_adj_reads_closer_to_zero s cur ino i p k sg a room count :
  procs_ok s → task_inode s ino i p → living s p k sg → OOM_DISABLE ≤ a ≤ OOM_ADJUST_MAX → cl_sys_resource cur = true → 13 ≤ count → 13 ≤ room →
  ∃ s' b, oom_adj_write cur ino (sdecimal a ++ [10]) (zlen (sdecimal a ++ [10])) s = Some (zlen (sdecimal a ++ [10]), s') ∧
    oom_adj_read ino room count 0 s' = Some ((zlen (sdecimal b ++ [10]), sdecimal b ++ [10], zlen (sdecimal b ++ [10])), s') ∧
    b = if (a =? OOM_ADJUST_MAX) || (a =? 0) || (a =? OOM_DISABLE) then a else a - Z.sgn a.
Proof.
  intros Hok Hi Hlive Ha Hcap Hc Hr. pose proof Hlive as (Hp & Hk & Hsg & Hmm & Hh). destruct oom_constants as (E1 & E2 & E3 & E4 & E5).
  destruct (copy_text a ltac:(lia)) as (En & Ecopy & Ek). set (text := sdecimal a ++ [10]) in *.
  set (v := if a =? 15 then 1000 else Z.quot (a * 1000) 17). set (b := if (a =? 15) || (a =? 0) || (a =? -17) then a else a - Z.sgn a).
  assert (-1000 ≤ v ≤ 1000) as Hv. { pose proof (scaled_range a ltac:(lia)) as Hs. rewrite E1, E3, E4, E5 in Hs. exact Hs. }
  exists (scored s k sg v (sg_oom_score_adj_min sg)), b. split; [|split; [|by rewrite E1, E3]].
  - unfold oom_adj_write. rewrite En, Ecopy, Ek. change (truthy 0) with false. cbv iota. rewrite E1, E2, E3, E5.
    destruct (((a <? -16) || (15 <? a)) && negb (a =? -17)) eqn:Er; [lia|].
    rewrite (pbind_run _ _ _ _ _ (proc_task_run s ino i p Hok Hi)). assert (truthy (pd_task p) = true) as -> by (unfold truthy; lia). cbn [negb].
    pose proof (pinned_lookup s _ _ Hk) as Hpk. prun. cbn [pin set_tk_usage tk_mm tk_sighand tk_signal negb]. assert (truthy (tk_mm k) = true) as -> by (unfold truthy; lia).
    rewrite Hh. cbn [negb]. assert (ps_signals (pinned (pd_task p) s) !! tk_signal k = Some sg) as Hsg' by done. prun.
    assert (oom_adj_write_permitted cur (pin k) = true) as -> by (unfold oom_adj_write_permitted; by rewrite Hcap). cbn [negb]. change (- -17) with 17. fold v. rewrite Hcap, andb_false_r.
    prun. rewrite s16_score by (rewrite E4, E5; done).
    replace (scored s k sg v (sg_oom_score_adj_min sg)) with (set_ps_signals (<[tk_signal k := set_sg_oom_score_adj v sg]> (ps_signals s)) s) by (unfold scored; by destruct sg).
    apply (put_out_run (set_ps_signals _ s) _ k); [done|by apply (po_usage s Hok _ _ Hk)].
  - set (s' := scored s k sg v _). assert (procs_ok s') as Hok' by (by apply scored_ok).
    assert (task_inode s' ino i p) as Hi' by done. assert (ps_tasks s' !! pd_task p = Some k) as Hk' by done.
    unfold oom_adj_read. rewrite (pbind_run _ _ _ _ _ (proc_task_run s' ino i p Hok' Hi')).
    assert (truthy (pd_task p) = true) as -> by (unfold truthy; lia). cbn [negb]. pose proof (pinned_lookup s' _ _ Hk') as Hpk. prun. cbn [pin set_tk_usage tk_sighand tk_signal]. rewrite Hh.
    assert (ps_signals (pinned (pd_task p) s') !! tk_signal k = Some (set_sg_oom_score_adj_min (sg_oom_score_adj_min sg) (set_sg_oom_score_adj v sg))) as Hsg'.
    { cbn. by rewrite lookup_insert_eq. }
    rewrite E1, E3, E5. rewrite (pbind_run _ _ _ b (pinned (pd_task p) s')); [|prun; unfold mret, PM_ret; do 2 f_equal; apply (scaled_back a); lia].
    rewrite (pbind_run _ _ _ _ _ (put_pinned s' _ k Hk' (po_usage s' Hok' _ _ Hk'))). assert (zlen (sdecimal b ++ [10]) ≤ 13) as Hl.
    { pose proof (sdecimal_short b) as Hs. destruct proc_constants as (Ep & _). rewrite Ep in Hs. apply Z.le_trans with 12; [|done]. apply Hs. unfold b. destruct (_ || _); lia. }
    by rewrite (simple_read_all room count) by lia.
Qed.

End OomProps.
