(* ===== verification/ProcMemProps.v ===== *)
(** * Procfs: what reading memory and environment gives

    The loops end, deliver the bytes that are there, and stay inside what was asked for; the environment file stays inside the environment
    once its end is set. *)
From stdpp Require Import gmap.
From S2P Require Import Prelude Text ProcState ProcOom ProcSpec ProcMem.

Section MemProps.
Context `{ProcKernel} `{!ProcKernelLaws}.

(** The accesses made, and nothing else. *)
Definition accessed (s s' : pstate) (log : list (Z * Z * Z)) : Prop := ∃ k, s' = set_ps_tick k (set_ps_remote (ps_remote s ++ log) s).

Lemma accessed_refl s : accessed s s [].
Proof. exists (ps_tick s). rewrite app_nil_r. by destruct s. Qed.
Lemma accessed_trans s s1 s2 l1 l2 : accessed s s1 l1 → accessed s1 s2 l2 → accessed s s2 (l1 ++ l2).
Proof. intros [k1 ->] [k2 ->]. exists k2. cbn. by rewrite <- app_assoc. Qed.
Lemma accessed_mms s s' log : accessed s s' log → ps_mms s' = ps_mms s.
Proof. by intros [k ->]. Qed.

Lemma access_read_run s mm addr len :
  ∃ s', access_remote_vm mm addr len None s = Some (remote_len mm addr len false (ps_tick s), s') ∧ accessed s s' [(mm, addr, len)].
Proof. exists (set_ps_remote (ps_remote s ++ [(mm, addr, len)]) (set_ps_tick (S (ps_tick s)) s)). split; [reflexivity|]. by eexists. Qed.

(** Accesses between two addresses. *)
Definition within (mm lo hi : Z) (log : list (Z * Z * Z)) : Prop := Forall (λ e, e.1.1 = mm ∧ lo ≤ e.1.2 ∧ 0 ≤ e.2 ∧ e.1.2 + e.2 ≤ hi) log.

Lemma within_cons mm lo lo' hi a l log : lo ≤ a → 0 ≤ l → a + l ≤ hi → lo ≤ lo' → within mm lo' hi log → within mm lo hi ((mm, a, l) :: log).
Proof. intros Ha Hl Hh Hlo Hw. constructor; [done|]. eapply Forall_impl; [exact Hw|]. intros [[x y] z] (E & Hy & Hz & Hyz). cbn in *. split; [done|lia]. Qed.

(** Every transfer is complete. *)
Definition all_there (mm : Z) (write : bool) : Prop := ∀ a l t, 0 ≤ l → remote_len mm a l write t = l.

(** ** Memory *)

(** What a loop that has already copied [copied] bytes to a caller with [room] returns: [n] more bytes are taken from the process and [d] more reach the caller, who gets more than the position says only with
    the copy that fails. *)
Definition ends_as (err room copied count ret n d : Z) : Prop :=
  0 ≤ n ≤ d ∧ d ≤ count ∧ copied + d ≤ room ∧ (d = n ∧ (ret = copied + n ∨ ret = err) ∨ ret = - Errno.EFAULT).

Lemma ends_as_zero err room copied count r : 0 ≤ count → copied ≤ room → r = copied ∨ r = err ∨ r = - Errno.EFAULT → ends_as err room copied count r 0 0.
Proof. intros Hc Hr Hret. do 3 (split; [lia|]). rewrite Z.add_0_r. tauto. Qed.

Lemma ends_as_full err room copied count n : 0 ≤ n ≤ count → copied ≤ room < copied + n → ends_as err room copied count (- Errno.EFAULT) 0 (room - copied).
Proof. intros Hn Hr. do 3 (split; [lia|]). by right. Qed.

Lemma ends_as_step err room copied count n1 ret n d : 0 ≤ n1 → ends_as err room (copied + n1) (count - n1) ret n d → ends_as err room copied count ret (n1 + n) (n1 + d).
Proof. intros Hn1 (Hn & Hd & Hr & Hret). do 3 (split; [lia|]). destruct Hret as [[-> Hret]|Hret]; [left; split; [done|]; destruct Hret; [left; lia|by right]|by right]. Qed.

Lemma mem_loop_read fuel : ∀ s mm m room addr copied count out,
  ps_mms s !! mm = Some m → 0 ≤ count → copied + count < 2 ^ 31 → count ≤ Z.of_nat fuel → 0 ≤ addr → addr + count < 2 ^ 32 → 0 ≤ copied → zlen out = copied → copied ≤ room →
  ∃ ret n d log s', mem_loop fuel mm false [] room addr copied count out s = Some ((ret, addr + n, out ++ seg (mm_bytes m) addr d), s') ∧
    ends_as (- Errno.EIO) room copied count ret n d ∧ (ret = - Errno.EIO → copied + d = 0) ∧ accessed s s' log ∧ within mm addr (addr + count) log ∧
    (all_there mm false → copied + count ≤ room → n = count ∧ d = count ∧ ret = copied + count).
Proof.
  destruct proc_constants as (_ & _ & Hpg & _).
  induction fuel as [|fuel IH]; intros s mm m room addr copied count out Hm Hc Hc31 Hf Ha Hac Hcp Hout Hroom; cbn [mem_loop].
  all: assert (∀ ret, (ret = copied ∨ ret = - Errno.EIO ∧ copied = 0 ∨ ret = - Errno.EFAULT) → ∀ d s' log, ends_as (- Errno.EIO) room copied count ret 0 d → (ret = - Errno.EIO → d = 0) → accessed s s' log → within mm addr (addr + count) log →
    (all_there mm false → copied + count ≤ room → 0 = count ∧ d = count ∧ ret = copied + count) →
    ∃ ret' n d' log s'', Some ((ret, addr, out ++ seg (mm_bytes m) addr d), s') = Some ((ret', addr + n, out ++ seg (mm_bytes m) addr d'), s'') ∧ ends_as (- Errno.EIO) room copied count ret' n d' ∧ (ret' = - Errno.EIO → copied + d' = 0) ∧ accessed s s'' log ∧
    within mm addr (addr + count) log ∧ (all_there mm false → copied + count ≤ room → n = count ∧ d' = count ∧ ret' = copied + count)) as Hstop.
  1,3: intros ret Hret d s' log He Hio Hacc Hw Hall; exists ret, 0, d, log, s'; rewrite !Z.add_0_r; do 2 (split; [done|]); split; [|done];
    intros Er; specialize (Hio Er); unfold Errno.EIO, Errno.EFAULT in *; lia.
  all: assert (∀ ret, (ret = copied ∨ ret = - Errno.EIO ∧ copied = 0) → ∀ s' log, accessed s s' log → within mm addr (addr + count) log →
    (all_there mm false → copied + count ≤ room → 0 = count ∧ ret = copied + count) →
    ∃ ret' n d' log s'', Some ((ret, addr, out), s') = Some ((ret', addr + n, out ++ seg (mm_bytes m) addr d'), s'') ∧ ends_as (- Errno.EIO) room copied count ret' n d' ∧ (ret' = - Errno.EIO → copied + d' = 0) ∧ accessed s s'' log ∧
    within mm addr (addr + count) log ∧ (all_there mm false → copied + count ≤ room → n = count ∧ d' = count ∧ ret' = copied + count)) as Hnone.
  1,3: intros ret Hret s' log Hacc Hw Hall; destruct (Hstop ret ltac:(tauto) 0 s' log) as (ret' & n & d' & log' & s'' & E & Hr); [apply ends_as_zero; [done|done|tauto]|done|done|done|intros; split; [|split]; naive_solver lia|];
    rewrite seg_nil, app_nil_r in E by lia; by exists ret', n, d', log', s''.
  all: destruct (Z.leb_spec count 0) as [Hz|Hpos]; [apply (Hnone copied) with (log := []); [by left|apply accessed_refl|constructor|intros; lia]|].
  { lia. }
  assert (s32 count = count) as -> by (apply signed_small; lia). set (len := Z.min count PAGE_SIZE). assert (0 < len ≤ count) as Hlen by lia.
  destruct (access_read_run s mm addr len) as (s1 & Hr & Hacc). rewrite (pbind_run _ _ _ _ _ Hr). set (n1 := remote_len mm addr len false (ps_tick s)).
  pose proof (remote_len_range mm addr len false (ps_tick s) ltac:(lia)) as Hn1. fold n1 in Hn1.
  assert (within mm addr (addr + count) [(mm, addr, len)]) as Hw1 by (apply (within_cons _ _ addr); [lia|lia|lia|lia|constructor]).
  destruct (Z.eqb_spec n1 0) as [Hz|Hnz].
  { apply (Hnone (if copied =? 0 then - Errno.EIO else copied)) with (log := [(mm, addr, len)]); [destruct (Z.eqb_spec copied 0); [by right|by left]|done|done|].
    intros Hall. unfold n1 in Hz. rewrite Hall in Hz by lia. lia. }
  cbn [negb andb]. assert (ps_mms s1 !! mm = Some m) as Hm1 by (by rewrite (accessed_mms _ _ _ Hacc)). destruct (Z.ltb_spec room (zlen out + n1)) as [Hfull|Hfits].
  { prun. rewrite Hout in *. apply (Hstop (- Errno.EFAULT)) with (log := [(mm, addr, len)]); [tauto|apply (ends_as_full _ _ _ _ n1); lia|done|done|done|]. intros _ ?. lia. }
  prun. rewrite (pbind_run (plift _) _ s1 (copied + n1) s1) by (unfold plift; by rewrite int32_fits by lia). rewrite wrap_small by lia.
  destruct (IH s1 mm m room (addr + n1) (copied + n1) (count - n1) (out ++ seg (mm_bytes m) addr n1) Hm1) as (ret & n & d & log & s2 & Hrun & He & Hio & Hacc2 & Hw & Hall); [lia|lia|lia|lia|lia|lia| |lia|].
  { rewrite length_app, Nat2Z.inj_add, zlen_seg by lia. lia. }
  pose proof He as ([Hn Hnd] & _).
  exists ret, (n1 + n), (n1 + d), ((mm, addr, len) :: log), s2. rewrite seg_app, app_assoc by lia. split; [rewrite Hrun; do 4 f_equal; lia|].
  split; [by apply ends_as_step; [lia|]|]. split; [intros Er; specialize (Hio Er); lia|]. split; [by apply (accessed_trans _ s1 _ [_])|]. split.
  - apply (within_cons _ _ (addr + n1)); [lia|lia|lia|lia|]. replace (addr + count) with (addr + n1 + (count - n1)) by lia. done.
  - intros Ht Hle. destruct (Hall Ht ltac:(lia)) as (-> & -> & ->). lia.
Qed.

(** Using an address space around a loop that only accesses it. *)
Lemma with_users_run {A} s mm m (body : PM A) (P : A → list (Z * Z * Z) → Prop) :
  ps_mms s !! mm = Some m →
  (∀ s1, ps_mms s1 !! mm = Some (set_mm_users (mm_users m + 1) m) → ∃ a s2 log, body s1 = Some (a, s2) ∧ accessed s1 s2 log ∧ P a log) →
  ∃ a s2 log, (_ ← upd_mm mm (λ m, set_mm_users (mm_users m + 1) m); r ← body; _ ← mmput mm; mret r) s = Some (a, s2) ∧ accessed s s2 log ∧ P a log.
Proof.
  intros Hm Hbody. prun. set (s1 := set_ps_mms _ s). destruct (Hbody s1) as (a & s2 & log & Hr & [k ->] & HP); [cbn; by rewrite lookup_insert_eq|]. rewrite (pbind_run _ _ _ _ _ Hr). unfold mmput.
  set (s2 := set_ps_tick k _). assert (ps_mms s2 !! mm = Some (set_mm_users (mm_users m + 1) m)) as Hm2 by (cbn; by rewrite lookup_insert_eq). prun. eexists a, _, log. split; [done|].
  split; [|done]. exists k. rewrite <- (users_restored s mm m Hm) at 2. done.
Qed.

(** A file operation that starts with a page and ends where the memory is gone. *)
Lemma page_run {A} s mm m (body : PM A) (none gone : A) (P : A → list (Z * Z * Z) → Prop) :
  ps_mms s !! mm = Some m → (get_free_page (ps_tick s) = false → P none []) → (mm_users m = 0 → P gone []) →
  (get_free_page (ps_tick s) = true → mm_users m ≠ 0 → ∀ s1, ps_mms s1 !! mm = Some (set_mm_users (mm_users m + 1) m) → ∃ a s2 log, body s1 = Some (a, s2) ∧ accessed s1 s2 log ∧ P a log) →
  ∃ a s2 log, (t ← ptick;
    if negb (get_free_page t) then mret none
    else m ← mm_at mm; if mm_users m =? 0 then mret gone
         else _ ← upd_mm mm (λ m, set_mm_users (mm_users m + 1) m); r ← body; _ ← mmput mm; mret r) s = Some (a, s2) ∧ accessed s s2 log ∧ P a log.
Proof.
  intros Hm Hnone Hgone Hbody. set (s1 := set_ps_tick (S (ps_tick s)) s). rewrite (pbind_run _ _ _ (ps_tick s) s1) by done.
  assert (accessed s s1 []) as Hacc by (eexists; rewrite app_nil_r; by destruct s). assert (ps_mms s1 !! mm = Some m) as Hm1 by done.
  destruct (get_free_page (ps_tick s)) eqn:Eg; cbn [negb]; [|exists none, s1, []; split; [done|]; split; [done|by apply Hnone]]. prun.
  destruct (Z.eqb_spec (mm_users m) 0); [exists gone, s1, []; split; [done|]; split; [done|by apply Hgone]|].
  destruct (with_users_run s1 mm m body P Hm1) as (a & s2 & log & Hr & Hacc2 & HP); [by apply Hbody|]. exists a, s2, log. split; [done|]. split; [|done]. by apply (accessed_trans _ s1 _ [] log).
Qed.

(** Reading the memory of a process always returns.  The caller gets the bytes of the process from the position on, as many as the result says, unless its own buffer or the first access fails; nothing outside the
    range it asked for is touched, nothing is changed and the memory is released.  If every access succeeds and the buffer is there, it gets all. *)
Theorem mem_read_delivers_memory s mm m room count pos :
  mm ≠ 0 → ps_mms s !! mm = Some m → 0 ≤ count < 2 ^ 31 → 0 ≤ pos → pos + count < 2 ^ 32 → 0 ≤ room →
  ∃ ret n d s' log, mem_read mm room count pos s = Some ((ret, pos + n, seg (mm_bytes m) pos d), s') ∧ 0 ≤ n ≤ d ∧ d ≤ count ∧ d ≤ room ∧
    accessed s s' log ∧ within mm pos (pos + count) log ∧ (d = n ∧ ret = n ∨ d = 0 ∧ (ret = - Errno.EIO ∨ ret = - Errno.ENOMEM) ∨ ret = - Errno.EFAULT) ∧
    (all_there mm false → count ≤ room → mm_users m ≠ 0 → get_free_page (ps_tick s) = true → ret = count ∧ n = count ∧ d = count).
Proof.
  intros Hmm Hm Hc Hp Hpc Hroom. unfold mem_read, mem_rw. assert (truthy mm = true) as -> by (unfold truthy; lia). cbn [negb]. rewrite wrap_small by lia.
  destruct (page_run s mm m (mem_loop (Z.to_nat count) mm false [] room pos 0 count []) (- Errno.ENOMEM, pos, []) (0, pos, [])
    (λ a log, ∃ ret n d, a = (ret, pos + n, seg (mm_bytes m) pos d) ∧ 0 ≤ n ≤ d ∧ d ≤ count ∧ d ≤ room ∧ within mm pos (pos + count) log ∧
      (d = n ∧ ret = n ∨ d = 0 ∧ (ret = - Errno.EIO ∨ ret = - Errno.ENOMEM) ∨ ret = - Errno.EFAULT) ∧
      (all_there mm false → count ≤ room → mm_users m ≠ 0 → get_free_page (ps_tick s) = true → ret = count ∧ n = count ∧ d = count))) as (a & s' & log & Hr & Hacc & ret & n & d & -> & Hn & Hdc & Hdr & Hw & Hret & Hall).
  - done.
  - intros Eg. exists (- Errno.ENOMEM), 0, 0. rewrite Z.add_0_r, seg_nil by lia. split; [done|]. do 3 (split; [lia|]). split; [constructor|]. split; [tauto|]. congruence.
  - intros Eu. exists 0, 0, 0. rewrite Z.add_0_r, seg_nil by lia. split; [done|]. do 3 (split; [lia|]). split; [constructor|]. split; [tauto|]. done.
  - intros Eg Eu s1 Hm1. destruct (mem_loop_read (Z.to_nat count) s1 mm _ room pos 0 count [] Hm1) as (ret & n & d & log & s2 & Hr & (Hn & Hdc & Hdr & Hret) & Hio & Hacc & Hw & Hall); [lia|lia|lia|lia|lia|lia|done|lia|].
    exists (ret, pos + n, seg (mm_bytes m) pos d), s2, log. split; [exact Hr|]. split; [done|]. exists ret, n, d. split; [done|]. do 3 (split; [lia|]). split; [done|]. split.
    + destruct Hret as [[-> [->| ->]]| ->]; [left; lia|right; left; split; [specialize (Hio eq_refl); lia|by left]|tauto].
    + intros Ht Hle _ _. destruct (Hall Ht ltac:(lia)) as (-> & -> & ->). lia.
  - exists ret, n, d, s', log. done.
Qed.

(** ** The environment *)

Lemma environ_loop_run fuel : ∀ s mm m room src ret count out,
  ps_mms s !! mm = Some m → 0 ≤ mm_env_start m ≤ mm_env_end m → mm_env_end m < 2 ^ 32 → 0 ≤ count ≤ Z.of_nat fuel → ret + count < 2 ^ 31 → 0 ≤ src < 2 ^ 32 → zlen out ≤ room → zlen out = ret →
  ∃ ret' n d log s', environ_loop fuel mm room src ret count out s = Some ((ret', src + n, out ++ seg (mm_bytes m) (mm_env_start m + src) d), s') ∧
    ends_as 0 room ret count ret' n d ∧ (d = 0 ∨ src + d ≤ mm_env_end m - mm_env_start m) ∧ accessed s s' log ∧ within mm (mm_env_start m) (mm_env_end m) log ∧
    (all_there mm false → zlen out + count ≤ room → n = Z.max 0 (Z.min count (mm_env_end m - mm_env_start m - src)) ∧ d = n ∧ ret' = ret + n).
Proof.
  destruct proc_constants as (_ & _ & Hpg & _).
  induction fuel as [|fuel IH]; intros s mm m room src ret count out Hm Henv He32 Hc Hc31 Hs Hroom Hout; cbn [environ_loop].
  { destruct (Z.leb_spec count 0); [|lia]. exists ret, 0, 0, [], s. rewrite Z.add_0_r, seg_nil, app_nil_r by lia. split; [done|]. split; [by apply ends_as_zero; [lia|lia|left]|]. split; [by left|].
    split; [apply accessed_refl|]. split; [constructor|]. intros; lia. }
  assert (∀ r s' log, (r = ret ∨ r = 0) → accessed s s' log → within mm (mm_env_start m) (mm_env_end m) log →
    (all_there mm false → zlen out + count ≤ room → 0 = Z.max 0 (Z.min count (mm_env_end m - mm_env_start m - src)) ∧ r = ret) →
    ∃ ret' n d log s'', Some ((r, src, out), s') = Some ((ret', src + n, out ++ seg (mm_bytes m) (mm_env_start m + src) d), s'') ∧ ends_as 0 room ret count ret' n d ∧
    (d = 0 ∨ src + d ≤ mm_env_end m - mm_env_start m) ∧ accessed s s'' log ∧ within mm (mm_env_start m) (mm_env_end m) log ∧
    (all_there mm false → zlen out + count ≤ room → n = Z.max 0 (Z.min count (mm_env_end m - mm_env_start m - src)) ∧ d = n ∧ ret' = ret + n)) as Hstop.
  { intros r s' log Hr Hacc Hw Hall. exists r, 0, 0, log, s'. rewrite !Z.add_0_r, seg_nil, app_nil_r by lia. split; [done|]. split; [apply ends_as_zero; [lia|lia|tauto]|]. split; [by left|].
    split; [done|]. split; [done|]. intros Ht Hle. destruct (Hall Ht Hle). done. }
  destruct (Z.leb_spec count 0) as [Hz|Hpos]; [apply Hstop with (log := []); [by left|apply accessed_refl|constructor|intros; lia]|].
  prun. rewrite (wrap_small 32 (mm_env_end m - mm_env_start m)) by lia.
  destruct (Z.leb_spec (mm_env_end m - mm_env_start m) src) as [Hend|Hin]; [apply Hstop with (log := []); [by left|apply accessed_refl|constructor|intros; lia]|].
  rewrite (wrap_small 32 (mm_env_end m - (mm_env_start m + src))), (wrap_small 32 (mm_env_start m + src)) by lia. set (len := Z.min _ (mm_env_end m - _)). assert (0 < len ≤ count ∧ mm_env_start m + src + len ≤ mm_env_end m) as Hlen by lia.
  destruct (access_read_run s mm (mm_env_start m + src) len) as (s1 & Hr & Hacc). rewrite (pbind_run _ _ _ _ _ Hr). set (n1 := remote_len mm _ len false (ps_tick s)).
  pose proof (remote_len_range mm (mm_env_start m + src) len false (ps_tick s) ltac:(lia)) as Hn1. fold n1 in Hn1.
  assert (∀ log, within mm (mm_env_start m) (mm_env_end m) log → within mm (mm_env_start m) (mm_env_end m) ((mm, mm_env_start m + src, len) :: log)) as Hw1
    by (intros log Hl; apply (within_cons _ _ (mm_env_start m)); [lia|lia|lia|lia|done]).
  destruct (Z.leb_spec n1 0) as [Hz|Hnz].
  { apply Hstop with (log := [(mm, mm_env_start m + src, len)]); [right; lia|done|by apply Hw1; constructor|]. intros Hall. unfold n1 in Hz. rewrite Hall in Hz by lia. lia. }
  destruct (Z.ltb_spec room (zlen out + n1)) as [Hfull|Hfits].
  { exists (- Errno.EFAULT), 0, (room - zlen out), [(mm, mm_env_start m + src, len)], s1. rewrite Z.add_0_r. split; [done|]. split; [rewrite <- Hout; apply (ends_as_full _ _ _ _ n1); lia|].
    split; [right; lia|]. split; [done|]. split; [by apply Hw1; constructor|]. intros _ ?. lia. }
  rewrite (pbind_run (plift _) _ s1 (ret + n1) s1) by (unfold plift; by rewrite int32_fits by lia).
  rewrite <- (accessed_mms _ _ _ Hacc) in Hm. rewrite (wrap_small 32 (src + n1)) by lia.
  assert (zlen (out ++ seg (mm_bytes m) (mm_env_start m + src) n1) = zlen out + n1) as Hl by (rewrite length_app, Nat2Z.inj_add, zlen_seg by lia; lia).
  destruct (IH s1 mm m room (src + n1) (ret + n1) (count - n1) (out ++ seg (mm_bytes m) (mm_env_start m + src) n1) Hm Henv He32) as (ret' & n & d & log & s2 & Hrun & He & Hne & Hacc2 & Hw & Hall); [lia|lia|lia|lia|lia|].
  pose proof He as ([Hn Hnd] & _).
  exists ret', (n1 + n), (n1 + d), ((mm, mm_env_start m + src, len) :: log), s2. rewrite seg_app, app_assoc by lia. split; [rewrite Hrun; replace (mm_env_start m + (src + n1)) with (mm_env_start m + src + n1) by lia; do 4 f_equal; lia|].
  split; [by apply ends_as_step; [lia|]|]. split; [right; lia|]. split; [by apply (accessed_trans _ s1 _ [_])|]. split; [by apply Hw1|].
  intros Ht Hle. destruct (Hall Ht ltac:(lia)) as (Hn' & -> & ->). lia.
Qed.

(** C30: Reading the environment of a process whose environment is set, with a count that fits an int (the kernel passes no larger one), always returns and never touches memory outside the environment.  The
    position counts modulo 2^32, since the code keeps it in an unsigned long: with [src] for what is left of it, the caller gets bytes of the environment from [src] on, and the new position is [src] and the
    number of bytes taken, or the old one if nothing could be tried.  Only the copy that fails with -EFAULT may have given more bytes than the position says; a result of 0 may come with bytes delivered, when a
    later access failed.  If every access succeeds and the caller's buffer is there, the caller gets all up to the end of the environment or of the count, and the result is their number. *)
Theorem environ_read_stays_in_environment s mm m room count pos :
  mm ≠ 0 → ps_mms s !! mm = Some m → 0 ≤ mm_env_start m ≤ mm_env_end m → mm_env_end m < 2 ^ 32 → 0 ≤ count < 2 ^ 31 → 0 ≤ room → let src := u32 pos in
  ∃ ret pos' n d s' log, environ_read mm room count pos s = Some ((ret, pos', seg (mm_bytes m) (mm_env_start m + src) d), s') ∧
    0 ≤ n ≤ d ∧ d ≤ count ∧ d ≤ room ∧ (d = 0 ∨ src + d ≤ mm_env_end m - mm_env_start m) ∧ (pos' = src + n ∨ pos' = pos ∧ d = 0) ∧
    accessed s s' log ∧ within mm (mm_env_start m) (mm_env_end m) log ∧ (d = n ∧ (ret = n ∨ ret = 0) ∨ ret = - Errno.EFAULT ∨ ret = - Errno.ENOMEM ∧ d = 0) ∧
    (all_there mm false → count ≤ room → mm_users m ≠ 0 → get_free_page (ps_tick s) = true →
     n = Z.max 0 (Z.min count (mm_env_end m - mm_env_start m - src)) ∧ d = n ∧ ret = n ∧ pos' = src + n).
Proof.
  intros Hmm Hm Henv He32 Hc Hroom src. unfold environ_read. assert (truthy mm = true) as -> by (unfold truthy; lia). cbn [negb]. fold src. assert (0 ≤ src < 2 ^ 32) as Hsrc by (apply wrap_range; lia).
  destruct (page_run s mm m (environ_loop (Z.to_nat count) mm room src 0 count []) (- Errno.ENOMEM, pos, []) (0, pos, [])
    (λ a log, ∃ ret pos' n d, a = (ret, pos', seg (mm_bytes m) (mm_env_start m + src) d) ∧ 0 ≤ n ≤ d ∧ d ≤ count ∧ d ≤ room ∧ (d = 0 ∨ src + d ≤ mm_env_end m - mm_env_start m) ∧
      (pos' = src + n ∨ pos' = pos ∧ d = 0) ∧ within mm (mm_env_start m) (mm_env_end m) log ∧ (d = n ∧ (ret = n ∨ ret = 0) ∨ ret = - Errno.EFAULT ∨ ret = - Errno.ENOMEM ∧ d = 0) ∧
      (all_there mm false → count ≤ room → mm_users m ≠ 0 → get_free_page (ps_tick s) = true → n = Z.max 0 (Z.min count (mm_env_end m - mm_env_start m - src)) ∧ d = n ∧ ret = n ∧ pos' = src + n)))
    as (a & s' & log & Hr & Hacc & ret & pos' & n & d & -> & Hn & Hdc & Hdr & Hde & Hp & Hw & Hret & Hall).
  - done.
  - intros Eg. exists (- Errno.ENOMEM), pos, 0, 0. rewrite seg_nil by lia. split; [done|]. do 3 (split; [lia|]). split; [by left|]. split; [by right|]. split; [constructor|]. split; [tauto|]. congruence.
  - intros Eu. exists 0, pos, 0, 0. rewrite seg_nil by lia. split; [done|]. do 3 (split; [lia|]). split; [by left|]. split; [by right|]. split; [constructor|]. split; [tauto|]. done.
  - intros Eg Eu s1 Hm1. destruct (environ_loop_run (Z.to_nat count) s1 mm _ room src 0 count [] Hm1) as (ret & n & d & log & s2 & Hr & (Hn & Hdc & Hdr & Hret) & Hde & Hacc & Hw & Hall); [done|done|lia|lia|lia|cbn; lia|done|].
    exists (ret, src + n, seg (mm_bytes m) (mm_env_start m + src) d), s2, log. split; [exact Hr|]. split; [done|]. exists ret, (src + n), n, d. split; [done|]. do 3 (split; [lia|]). split; [done|]. split; [by left|]. split; [done|]. split; [tauto|].
    intros Ht Hle _ _. destruct (Hall Ht ltac:(cbn; lia)) as (-> & -> & ->). cbn. lia.
  - exists ret, pos', n, d, s', log. done.
Qed.

End MemProps.
