(* ===== verification/ProcDirProps.v ===== *)
(** * Procfs: what the directories list

    Inodes and cached names, the enumeration of processes and threads over several calls, and that what is listed can be looked up. *)
From Stdlib Require Import String.
From stdpp Require Import gmap.
From S2P Require Import Prelude Text ProcState ProcSpec ProcDir.

Section DirProps.
Context `{ProcKernel} `{!ProcKernelLaws}.

(** ** Inodes *)

(** The processes are as they were. *)
Record same_procs (s s' : pstate) : Prop := {
  sp_pids : ps_pids s' = ps_pids s;
  sp_numbers : ps_numbers s' = ps_numbers s;
  sp_tasks : ps_tasks s' = ps_tasks s;
  sp_signals : ps_signals s' = ps_signals s;
  sp_mms : ps_mms s' = ps_mms s }.

#[export] Instance same_procs_refl : Reflexive same_procs.
Proof. by intros s. Qed.
#[export] Instance same_procs_trans : Transitive same_procs.
Proof. intros s1 s2 s3 [? ? ? ? ?] [? ? ? ? ?]. split; congruence. Qed.

Lemma same_procs_ok s s' : same_procs s s' → procs_ok s → procs_ok s'.
Proof. intros [Ep _ Et Es Em] [H1' H2' H3' H4' H5']. split; rewrite ?Ep, ?Et, ?Es, ?Em; done. Qed.

(** A cached name leads to an inode. *)
Definition dcache_ok (s : pstate) : Prop := ∀ key x, ps_dcache s !! key = Some x → is_Some (ps_inodes s !! x).

(** What work on inodes and names keeps: the processes, and that each name leads to an inode of a process as it did. *)
Record fs_step (s s' : pstate) : Prop := {
  fs_procs : same_procs s s';
  fs_dcache : dcache_ok s → dcache_ok s';
  fs_inodes x i : ps_inodes s !! x = Some i → ∃ i', ps_inodes s' !! x = Some i' ∧ in_pid i' = in_pid i }.

#[export] Instance fs_step_refl : Reflexive fs_step.
Proof. intros s. split; [reflexivity|done|]. intros x i Hi. by exists i. Qed.
#[export] Instance fs_step_trans : Transitive fs_step.
Proof.
  intros s1 s2 s3 [P1 D1 I1] [P2 D2 I2]. split; [by etransitivity|tauto|]. intros x i Hi. destruct (I1 x i Hi) as (i1 & Hi1 & E1). destruct (I2 x i1 Hi1) as (i2 & Hi2 & E2).
  exists i2. split; [done|congruence].
Qed.

(** There is no memory for an inode. *)
Definition no_inode (s : pstate) : Prop := new_inode (dom (ps_inodes s)) (ps_tick s) = None.

Lemma make_inode_run s t k :
  ps_tasks s !! t = Some k →
  ∃ x s', proc_pid_make_inode t s = Some (x, s') ∧ fs_step s s' ∧ ps_dcache s' = ps_dcache s ∧
    (x ≠ 0 → ps_inodes s !! x = None ∧ ∃ i, ps_inodes s' !! x = Some i ∧ in_pid i = tk_pid k ∧ tk_pid k ≠ 0) ∧ (x = 0 → no_inode s ∨ tk_pid k = 0).
Proof.
  intros Hk. unfold proc_pid_make_inode. set (s1 := set_ps_tick (S (ps_tick s)) s). rewrite (pbind_run _ _ _ (ps_tick s) s1) by done.
  rewrite (pbind_run _ _ _ (dom (ps_inodes s)) s1) by done. assert (∀ n tk, fs_step s (set_ps_next_ino n (set_ps_tick tk s))) as Hstep.
  { intros n tk. split; [by destruct s|done|]. intros x i Hi. by exists i. }
  destruct (new_inode (dom (ps_inodes s)) (ps_tick s)) as [x|] eqn:En.
  2:{ exists 0, s1. split; [done|]. split; [|split; [done|]; split; [done|]; by left]. specialize (Hstep (ps_next_ino s) (S (ps_tick s))). by destruct s. }
  destruct (new_inode_fresh _ _ _ En) as [Hx Hfresh]. apply not_elem_of_dom in Hfresh. rewrite (pbind_run _ _ _ (ps_next_ino s) s1) by done.
  set (s2 := set_ps_next_ino (u32 (ps_next_ino s + 1)) s1). rewrite (pbind_run _ _ _ () s2) by done. assert (ps_tasks s2 !! t = Some k) as Hk2 by done. prun.
  destruct (truthy (tk_pid k)) eqn:Ep; cbn [negb]; [|exists 0, s2; split; [done|]; split; [apply Hstep|split; [done|]; split; [done|]; right; unfold truthy in Ep; lia]].
  destruct (if tk_dumpable k then (tk_euid k, tk_egid k) else (0, 0)) as [uid gid]. set (i := Inode _ 0 uid gid 1 (tk_pid k) Ops_def false).
  set (s3 := set_ps_inodes (<[x := i]> (ps_inodes s2)) s2). rewrite (pbind_run _ _ _ () s3) by done. exists x, s3. split; [done|]. split; [|split; [done|]].
  - split; [by destruct s| |].
    + intros Hd key y Hy. cbn in *. destruct (decide (y = x)) as [->|]; [by rewrite lookup_insert_eq|rewrite lookup_insert_ne by done; by eapply Hd].
    + intros y j Hy. exists j. split; [|done]. cbn. rewrite lookup_insert_ne; [done|]. congruence.
  - split; [|lia]. intros _. split; [done|]. exists i. cbn. rewrite lookup_insert_eq. split; [done|]. split; [done|]. unfold truthy in Ep. lia.
Qed.

Lemma upd_inode_step s x f i : ps_inodes s !! x = Some i → in_pid (f i) = in_pid i → fs_step s (set_ps_inodes (<[x := f i]> (ps_inodes s)) s).
Proof.
  intros Hi Hp. split; [by destruct s| |].
  - intros Hd key y Hy. cbn in *. destruct (decide (y = x)) as [->|]; [by rewrite lookup_insert_eq|rewrite lookup_insert_ne by done; by eapply Hd].
  - intros y j Hy. cbn. destruct (decide (y = x)) as [->|]; [|exists j; by rewrite lookup_insert_ne]. exists (f i). rewrite lookup_insert_eq. split; [done|congruence].
Qed.

(** Revalidating answers whether the process is there, and changes the inode's owner at most. *)
Lemma pid_revalidate_run s x i p :
  procs_ok s → task_inode s x i p →
  ∃ s', pid_revalidate x false s = Some (if truthy (pd_task p) then 1 else 0, s') ∧ fs_step s s' ∧ ps_dcache s' = ps_dcache s ∧
    ∃ i', ps_inodes s' !! x = Some i' ∧ in_pid i' = in_pid i ∧ in_ops i' = in_ops i.
Proof.
  intros Hok Hti. pose proof Hti as [Hi Hp]. unfold pid_revalidate. rewrite (pbind_run _ _ _ _ _ (proc_task_run s x i p Hok Hti)). destruct (truthy (pd_task p)) eqn:Et; [|exists s; split; [done|]; split; [reflexivity|]; split; [done|]; by exists i].
  destruct (po_pid s Hok _ _ Hp) as (k & Hk & _); [unfold truthy in Et; lia|]. set (t := pd_task p) in *. pose proof (pinned_lookup s t k Hk) as Hpk. prun.
  assert (ps_inodes (pinned t s) !! x = Some i) as Hi' by done. prun. destruct (owner_of (in_mode i) (pin k)) as [uid gid]. prun. set (f := λ i, set_in_uid uid (set_in_gid gid i)).
  set (s1 := set_ps_inodes _ (pinned t s)). assert (ps_inodes s1 !! x = Some (f i)) as Hi1 by (cbn; by rewrite lookup_insert_eq). prun.
  set (g := λ i, set_in_mode (in_mode i &&& Z.lnot (S_ISUID ||| S_ISGID)) i).
  set (s2 := set_ps_inodes (<[x := g (f i)]> (<[x := f i]> (ps_inodes s))) s). change (set_ps_inodes _ s1) with (pinned t s2).
  rewrite (pbind_run _ _ _ _ _ (put_pinned s2 t k Hk (po_usage s Hok _ _ Hk))). exists s2. split; [done|]. split; [|split; [done|]; exists (g (f i)); split; [cbn; by rewrite lookup_insert_eq|done]].
  unfold s2. rewrite insert_insert_eq. by apply (upd_inode_step s x (λ i, g (f i)) i).
Qed.

(** ** Names *)

(** A process number that no task has any more. *)
Definition dead (s : pstate) (pid : Z) : Prop := pid = 0 ∨ ∃ p, ps_pids s !! pid = Some p ∧ pd_task p = 0.

(** A cached name of an inode of a process, with its operations. *)
Definition cached (s : pstate) (dir : Z) (name : list Z) (pid : Z) (ops : node_ops) : Prop :=
  ∃ x i, ps_dcache s !! (dir, name) = Some x ∧ ps_inodes s !! x = Some i ∧ in_pid i = pid ∧ in_ops i = ops.

(** What making an inode and its name does: it succeeds and the name leads to the inode, or there is no memory or no process any more. *)
Definition makes (dir : Z) (name : list Z) (pid : Z) (ops : node_ops) (inst : PM Z) (s : pstate) : Prop :=
  ∃ e s', inst s = Some (e, s') ∧ fs_step s s' ∧ (e = 0 ∧ cached s' dir name pid ops ∨ e = - Errno.ENOENT ∧ (no_inode s ∨ dead s pid)).

Lemma instantiate_run s dir name t k f ops :
  procs_ok s → ps_tasks s !! t = Some k → (∀ i, in_pid (f i) = in_pid i ∧ in_ops (f i) = ops) → makes dir name (tk_pid k) ops (instantiate_as dir name t f) s.
Proof.
  intros Hok Hk Hf. unfold instantiate_as. destruct (make_inode_run s t k Hk) as (x & s1 & Hr & Hst & Hdc & Hx & Hx0). unfold makes. rewrite (pbind_run _ _ _ _ _ Hr).
  destruct (truthy x) eqn:Ex; cbn [negb]; [|eexists _, s1; split; [done|]; split; [done|]; right; split; [done|]; destruct Hx0 as [|Hp0]; [unfold truthy in Ex; lia|by left|right; by left]].
  destruct Hx as (Hnew & i & Hi & Hip & Hpid0); [unfold truthy in Ex; lia|]. destruct (Hf i) as [Hfp Hfo]. prun. set (s2 := set_ps_inodes _ s1). pose proof (upd_inode_step s1 x f i Hi Hfp) as Hst2. fold s2 in Hst2.
  set (s3 := set_ps_dcache (<[(dir, name) := x]> (ps_dcache s2)) s2). rewrite (pbind_run _ _ _ () s3) by done.
  assert (ps_inodes s3 !! x = Some (f i)) as Hi3 by (cbn; by rewrite lookup_insert_eq).
  assert (fs_step s2 s3) as Hst3.
  { split; [by destruct s1|  |intros y j Hy; by exists j]. intros Hd key y Hy. cbn in Hy. destruct (decide (key = (dir, name))) as [->|]; [rewrite lookup_insert_eq in Hy; injection Hy as <-; by rewrite Hi3|].
    rewrite lookup_insert_ne in Hy by done. by eapply Hd. }
  assert (fs_step s s3) as Hst' by (etransitivity; [exact Hst|]; by etransitivity). pose proof (same_procs_ok _ _ (fs_procs _ _ Hst') Hok) as Hok3.
  destruct (po_owner s Hok _ _ Hk Hpid0) as [p Hp]. assert (task_inode s3 x (f i) p) as Hti.
  { split; [done|]. rewrite Hfp, Hip, (sp_pids _ _ (fs_procs _ _ Hst')). done. }
  destruct (pid_revalidate_run s3 x (f i) p Hok3 Hti) as (s4 & Hr4 & Hst4 & Hdc4 & i4 & Hi4 & E4 & O4). rewrite (pbind_run _ _ _ _ _ Hr4). eexists _, s4. split; [done|]. split; [by etransitivity|].
  destruct (truthy (pd_task p)) eqn:Et; [left|right].
  - split; [done|]. exists x, i4. split; [rewrite Hdc4; cbn; by rewrite lookup_insert_eq|]. split; [done|]. by rewrite E4, O4, Hfp.
  - split; [done|]. right. right. exists p. split; [done|]. unfold truthy in Et. lia.
Qed.

(** An entry of a directory is given to the caller whatever happens to its inode. *)
Lemma fill_cache_run s dir c name pid ops inst :
  dcache_ok s → (∀ s', fs_step s s' → makes dir name pid ops inst s') →
  ∃ ino type s', proc_fill_cache dir c name inst s = Some (dir_emit c name ino type, s') ∧ fs_step s s'.
Proof.
  intros Hd Hinst. unfold proc_fill_cache. rewrite (pbind_run _ _ _ (ps_dcache s !! (dir, name)) s) by done.
  destruct (ps_dcache s !! (dir, name)) as [x|] eqn:Ex.
  { destruct (Hd _ _ Ex) as [i Hi]. prun. by eexists _, _, s. }
  set (s1 := set_ps_tick (S (ps_tick s)) s). rewrite (pbind_run _ _ _ (ps_tick s) s1) by done.
  assert (fs_step s s1) as Hst1 by (split; [by destruct s|done|]; intros x i Hi; by exists i). destruct (d_alloc (ps_tick s)); cbn [negb]; [|by eexists _, _, s1].
  destruct (Hinst s1 Hst1) as (e & s2 & Hr & Hst2 & He). rewrite (pbind_run _ _ _ _ _ Hr). assert (fs_step s s2) as Hst by (by etransitivity).
  destruct (Z.ltb_spec e 0) as [Hneg|Hpos].
  - set (s3 := set_ps_dcache (delete (dir, name) (ps_dcache s2)) s2). rewrite (pbind_run _ _ _ () s3) by done. eexists _, _, s3. split; [done|].
    etransitivity; [exact Hst|]. split; [by destruct s2| |intros x i Hi; by exists i]. intros Hd2 key y Hy. cbn in Hy. apply lookup_delete_Some in Hy as [_ Hy]. by eapply Hd2.
  - destruct He as [(_ & x & i & Hx & Hi & _)|[-> _]]; [|discriminate Hpos || (unfold Errno.ENOENT in Hpos; lia)]. rewrite (pbind_run _ _ _ (Some x) s2) by (unfold dcache_lookup, pget; by rewrite Hx).
    rewrite (pbind_run _ _ _ x s2) by done. prun. by eexists _, _, s2.
Qed.


(** ** The processes in order *)

(** What holds of the numbers: each is below the limit and belongs to a process number that is there. *)
Record fs_ok (s : pstate) : Prop := {
  fo_procs : procs_ok s;
  fo_dcache : dcache_ok s;
  fo_numbers nr pid : ps_numbers s !! nr = Some pid → 0 < nr < PID_MAX_LIMIT ∧ pid ≠ 0 ∧ is_Some (ps_pids s !! pid) }.

Lemma fs_step_ok s s' : fs_step s s' → fs_ok s → fs_ok s'.
Proof.
  intros [Hp Hd _] [H1' H2' H3']. split; [by eapply same_procs_ok|by apply Hd|]. rewrite (sp_numbers _ _ Hp), (sp_pids _ _ Hp). exact H3'.
Qed.

(** The task with a number, if the number is that of a process. *)
Definition leader_of (s : pstate) (n : Z) : option (Z * task_struct) :=
  pid ← ps_numbers s !! n; p ← ps_pids s !! pid; k ← ps_tasks s !! pd_task p; g ← ps_signals s !! tk_signal k;
  if truthy (pd_task p) && (tk_pid k =? sg_leader_pid g) then Some (pd_task p, k) else None.

(** The entries of the directory by number: the two links come before the processes, of which the hidden ones are left out. *)
Definition listed (ns : pid_namespace) (cur : caller) (s : pstate) (n : Z) : bool :=
  if n <? 0 then true else match leader_of s n with Some (_, k) => has_pid_permissions ns cur k 2 | None => false end.
Definition name_of (n : Z) : list Z := if n =? -2 then self_name else if n =? -1 then thread_self_name else decimal n.
Definition entries (ns : pid_namespace) (cur : caller) (s : pstate) (lo hi : Z) : list Z := filter (λ n, Is_true (listed ns cur s n)) (seqZ lo (hi - lo)).

Lemma same_procs_listed ns cur s s' n : same_procs s s' → listed ns cur s' n = listed ns cur s n.
Proof. intros [E1 E2 E3 E4 _]. unfold listed, leader_of. by rewrite E1, E2, E3, E4. Qed.
Lemma same_procs_entries ns cur s s' lo hi : same_procs s s' → entries ns cur s' lo hi = entries ns cur s lo hi.
Proof. intros Hp. unfold entries. apply list_filter_iff. intros n. by rewrite (same_procs_listed _ _ _ _ _ Hp). Qed.

Lemma proc_entries_app ns cur s lo mid hi : lo ≤ mid ≤ hi → entries ns cur s lo hi = entries ns cur s lo mid ++ entries ns cur s mid hi.
Proof.
  intros. unfold entries. rewrite <- filter_app. f_equal. replace (hi - lo) with ((mid - lo) + (hi - mid)) by lia. rewrite seqZ_app by lia. do 2 f_equal. lia.
Qed.
Lemma entries_none ns cur s lo hi : (∀ n, lo ≤ n < hi → listed ns cur s n = false) → entries ns cur s lo hi = [].
Proof.
  intros Hn. unfold entries. destruct (filter _ _) as [|x l] eqn:E; [done|]. assert (x ∈ x :: l) as Hx by left. rewrite <- E in Hx.
  apply list_elem_of_filter in Hx as [Hl Hx]. apply elem_of_seqZ in Hx. by rewrite Hn in Hl by lia.
Qed.
Lemma entries_one ns cur s n : entries ns cur s n (n + 1) = if listed ns cur s n then [n] else [].
Proof.
  unfold entries. replace (n + 1 - n) with 1 by lia. change (seqZ n 1) with [0 + n]. rewrite Z.add_0_l. destruct (listed ns cur s n) eqn:E.
  - rewrite list.filter_cons_True; [done|by rewrite E].
  - rewrite list.filter_cons_False; [done|rewrite E; cbn; tauto].
Qed.
Lemma entries_elem ns cur s lo hi n : n ∈ entries ns cur s lo hi ↔ lo ≤ n < hi ∧ listed ns cur s n = true.
Proof. unfold entries. rewrite list_elem_of_filter, elem_of_seqZ, Is_true_true. intuition lia. Qed.
Lemma entries_NoDup ns cur s lo hi : NoDup (entries ns cur s lo hi).
Proof. apply NoDup_filter, NoDup_seqZ. Qed.

(** ** Finding the next process *)

(** How many numbers there are from [n] on. *)
Definition numbers_left (s : pstate) (n : Z) : nat := size (filter (λ x, n ≤ x) (dom (ps_numbers s))).

Lemma numbers_left_all s n : (numbers_left s n ≤ size (ps_numbers s))%nat.
Proof. unfold numbers_left. rewrite <- size_dom. apply subseteq_size. intros x. rewrite elem_of_filter. tauto. Qed.
Lemma numbers_left_lt s n m : n ≤ m → m ∈ dom (ps_numbers s) → (numbers_left s (m + 1) < numbers_left s n)%nat.
Proof.
  intros Hnm Hm. unfold numbers_left. apply subset_size. split.
  - intros x. rewrite !elem_of_filter. intros [? ?]. split; [lia|done].
  - intros Hsub. assert (m ∈ filter (λ x, m + 1 ≤ x) (dom (ps_numbers s))) as Hx by (apply Hsub; by rewrite elem_of_filter). apply elem_of_filter in Hx as [? _]. lia.
Qed.

(** The answer of the search from [n] on: the first process, with a reference, or none. *)
Definition next_found (s : pstate) (n n' t : Z) (s' : pstate) : Prop :=
  if decide (t = 0) then s' = s ∧ ∀ m, n ≤ m → leader_of s m = None
  else n ≤ n' ∧ s' = pinned t s ∧ (∃ k, leader_of s n' = Some (t, k)) ∧ ∀ m, n ≤ m < n' → leader_of s m = None.

Lemma leader_of_inv s n t k :
  leader_of s n = Some (t, k) →
  ∃ pid p g, ps_numbers s !! n = Some pid ∧ ps_pids s !! pid = Some p ∧ pd_task p = t ∧ t ≠ 0 ∧ ps_tasks s !! t = Some k ∧ ps_signals s !! tk_signal k = Some g ∧ tk_pid k = sg_leader_pid g.
Proof.
  unfold leader_of. intros (pid & Hn & (p & Hp & (k' & Hk & (g & Hg & Hx)%bind_Some)%bind_Some)%bind_Some)%bind_Some. destruct (truthy _ && _) eqn:E; [|done]. injection Hx as <- <-.
  apply andb_true_iff in E as [E1 E2]. unfold truthy in E1. exists pid, p, g. split_and!; auto; lia.
Qed.

Lemma find_ge_pid_none l n : find_ge_pid l n = None → ∀ m, m ∈ l → ¬ n ≤ m.
Proof.
  intros Hnone m Hm Hle. destruct (minimal_exists_elem_of_L Z.le (filter (λ x, n ≤ x) l)) as (x & Hx & Hmin).
  { intros E. assert (m ∈ filter (λ x, n ≤ x) l) as Hin by (by rewrite elem_of_filter). rewrite E in Hin. set_solver. }
  apply elem_of_filter in Hx as [Hx1 Hx2]. assert (find_ge_pid l n = Some x) as Hs; [|congruence]. apply find_ge_pid_least. split_and!; [done..|].
  intros y Hy Hny. destruct (decide (y ≤ x)) as [Hyx|]; [|lia]. apply (Hmin y); [by rewrite elem_of_filter|done].
Qed.

Lemma leader_of_number s n : is_Some (leader_of s n) → n ∈ dom (ps_numbers s).
Proof. intros [[t k] Hl]. destruct (leader_of_inv _ _ _ _ Hl) as (pid & _ & _ & Hn & _). by apply elem_of_dom_2 in Hn. Qed.

Lemma next_loop_run s n fuel :
  fs_ok s → 0 ≤ n → (numbers_left s n ≤ fuel)%nat → ∃ n' t s', next_tgid_loop fuel n s = Some ((n', t), s') ∧ next_found s n n' t s'.
Proof.
  intros [Hok _ Hnum]. revert n. induction fuel as [|fuel IH]; intros n Hn Hf; cbn [next_tgid_loop]; rewrite (pbind_run _ _ _ (dom (ps_numbers s)) s) by done.
  all: destruct (find_ge_pid (dom (ps_numbers s)) n) as [m|] eqn:Em.
  2,4: exists n, 0, s; split; [done|]; unfold next_found; rewrite decide_True by done; split; [done|]; intros m Hm;
    apply eq_None_not_Some; intros Hl; by eapply find_ge_pid_none, Hm; [|apply leader_of_number].
  all: apply find_ge_pid_least in Em as (Hm & Hle & Hleast); pose proof (numbers_left_lt s n m Hle Hm); try (exfalso; lia).
  assert (∀ y, n ≤ y < m → leader_of s y = None) as Hgap.
  { intros y Hy. apply eq_None_not_Some. intros Hl. apply leader_of_number in Hl. specialize (Hleast y Hl). lia. }
  apply elem_of_dom in Hm as [pid Hpid]. destruct (Hnum _ _ Hpid) as (Hrange & _ & p & Hp). rewrite (pbind_run _ _ _ (ps_numbers s) s) by done.
  rewrite (pbind_run _ _ _ pid s) by (unfold plift; by rewrite Hpid). rewrite (pbind_run _ _ _ (pd_task p) s) by (unfold pid_task; by prun).
  assert (∃ b, (if truthy (pd_task p) then k ← task_at (pd_task p); g ← signal_at (tk_signal k); mret (tk_pid k =? sg_leader_pid g) else mret false : PM bool) s = Some (b, s) ∧
    if b then ∃ k, leader_of s m = Some (pd_task p, k) else leader_of s m = None) as (b & Hrun & Hb).
  { unfold leader_of. rewrite Hpid. cbn [mbind option_bind]. rewrite Hp. cbn [mbind option_bind]. destruct (truthy (pd_task p)) eqn:Et.
    - destruct (po_pid s Hok _ _ Hp) as (k & Hk & _); [unfold truthy in Et; lia|]. destruct (po_signal s Hok _ _ Hk) as [g Hg]. prun. prun. rewrite Hk. cbn [mbind option_bind]. rewrite Hg. cbn.
      eexists. split; [reflexivity|]. destruct (_ =? _); eauto.
    - exists false. split; [done|]. destruct (ps_tasks s !! _) as [k|]; [cbn|done]. by destruct (ps_signals s !! _). }
  rewrite (pbind_run _ _ _ _ _ Hrun). destruct b; cbn [negb].
  - destruct Hb as [k Hk]. destruct (leader_of_inv _ _ _ _ Hk) as (_ & _ & _ & _ & _ & _ & Ht & Hkk & _). rewrite (pbind_run _ _ _ _ _ (get_task_run s _ k Hkk)).
    eexists m, _, _. split; [reflexivity|]. unfold next_found. rewrite decide_False by done. eauto.
  - pose proof proc_constants as (_ & _ & _ & HL & _). rewrite (wrap_small 32) by lia. destruct (IH (m + 1)) as (n' & t & s' & Hr & Hfound); [lia..|]. exists n', t, s'. split; [done|].
    unfold next_found in *. destruct (decide (t = 0)); destruct_and? Hfound; split_and?; auto; try lia.
    all: intros y Hy; destruct (decide (y < m)); [apply Hgap; lia|]; destruct (decide (y = m)) as [->|]; [done|]; eauto with lia.
Qed.
Lemma next_tgid_run s n :
  fs_ok s → 0 ≤ n → ∃ n' t s', next_tgid n 0 s = Some ((n', t), s') ∧ next_found s n n' t s'.
Proof. intros Hok Hn. apply next_loop_run; [done..|apply numbers_left_all]. Qed.

Lemma next_tgid_pinned s n t k :
  fs_ok s → 0 ≤ n → t ≠ 0 → ps_tasks s !! t = Some k → next_tgid n t (pinned t s) = next_tgid n 0 s.
Proof.
  intros Hok Hn Ht Hk. unfold next_tgid. assert (truthy t = true) as -> by (unfold truthy; lia).
  by rewrite (pbind_run _ _ _ _ _ (put_pinned s t k Hk (po_usage s (fo_procs s Hok) _ _ Hk))).
Qed.

(** ** Listing the processes *)

Lemma pinned_ok t s : procs_ok s → procs_ok (pinned t s).
Proof.
  intros [H1' H2' H3' H4' H5']. assert (∀ y k, ps_tasks (pinned t s) !! y = Some k → ∃ k0, ps_tasks s !! y = Some k0 ∧ tk_pid k = tk_pid k0 ∧ tk_signal k = tk_signal k0 ∧ tk_mm k = tk_mm k0 ∧ tk_usage k0 ≤ tk_usage k) as Hinv.
  { intros y k Hk. cbn in Hk. destruct (decide (y = t)) as [->|]; [|rewrite lookup_alter_ne in Hk by done; exists k; by split_and!].
    rewrite lookup_alter_eq in Hk. destruct (ps_tasks s !! t) as [k0|]; [|done]. injection Hk as <-. exists k0. split_and!; [done..|cbn; lia]. }
  split.
  - intros x p Hp Hx. destruct (H1' x p Hp Hx) as (k & Hk & E). cbn. destruct (decide (pd_task p = t)) as [<-|]; [|rewrite lookup_alter_ne by done; eauto]. rewrite lookup_alter_eq, Hk. by eexists.
  - intros y k Hk Hpid. destruct (Hinv y k Hk) as (k0 & Hk0 & E & _). rewrite E in *. by eapply H2'.
  - intros y k Hk. destruct (Hinv y k Hk) as (k0 & Hk0 & _ & _ & _ & E). specialize (H3' y k0 Hk0). lia.
  - intros y k Hk. destruct (Hinv y k Hk) as (k0 & Hk0 & _ & E & _). rewrite E. by eapply H4'.
  - intros y k Hk Hmm. destruct (Hinv y k Hk) as (k0 & Hk0 & _ & _ & E & _). rewrite E in *. by eapply H5'.
Qed.

(** Work on inodes while a task is held is work on inodes, with the task held. *)
Lemma unpin_step t s s' : fs_step (pinned t s) s' → ∃ s1, s' = pinned t s1 ∧ fs_step s s1.
Proof.
  intros [[Ep En Et Es Em] Hd Hi]. exists (set_ps_tasks (ps_tasks s) s'). split.
  - destruct s'. unfold pinned, set_ps_tasks in *. cbn in *. by rewrite Et.
  - split; [by split|exact Hd|exact Hi].
Qed.

(** The names the caller has got. *)
Definition names (c : dir_context) : list (list Z) := (λ e, e.1.1) <$> cx_out c.

(** What the numbers from [n] up to [n'] add to what the caller has got. *)
Definition lists (ns : pid_namespace) (cur : caller) (s : pstate) (c : dir_context) (n n' : Z) (c' : dir_context) : Prop :=
  names c' = names c ++ (name_of <$> entries ns cur s n n') ∧ cx_room c = (cx_room c' + length (entries ns cur s n n'))%nat.

Lemma lists_none ns cur s c n n' : entries ns cur s n n' = [] → lists ns cur s c n n' c.
Proof. intros E. unfold lists. rewrite E. cbn. by rewrite app_nil_r, Nat.add_0_r. Qed.
Lemma lists_trans ns cur s c1 c2 c3 n1 n2 n3 : n1 ≤ n2 ≤ n3 → lists ns cur s c1 n1 n2 c2 → lists ns cur s c2 n2 n3 c3 → lists ns cur s c1 n1 n3 c3.
Proof.
  intros Hn [E1 R1] [E2 R2]. unfold lists. rewrite (proc_entries_app ns cur s n1 n2 n3) by lia. split.
  - by rewrite E2, E1, <- app_assoc, fmap_app.
  - rewrite length_app. lia.
Qed.
Lemma lists_pos ns cur s c n n' c' pos pos' : lists ns cur s c n n' c' → lists ns cur s (set_cx_pos pos c) n n' (set_cx_pos pos' c').
Proof. done. Qed.
Lemma lists_emit ns cur s c n ino type :
  listed ns cur s n = true →
  let '(ok, c') := dir_emit c (name_of n) ino type in cx_pos c' = cx_pos c ∧ if ok : bool then lists ns cur s c n (n + 1) c' else c' = c ∧ cx_room c = 0%nat.
Proof.
  intros Hl. unfold dir_emit. destruct (cx_room c) as [|room] eqn:Er; [done|]. split; [done|]. unfold lists, names. rewrite entries_one, Hl. cbn. rewrite fmap_app, Er. split; [done|lia].
Qed.

(** How listing ends: the caller's buffer is full at the position of the next entry, or there is none. *)
Definition loop_done (ns : pid_namespace) (cur : caller) (s : pstate) (c : dir_context) (n : Z) (full : bool) (c' : dir_context) : Prop :=
  ∃ n', n ≤ n' ≤ PID_MAX_LIMIT ∧ lists ns cur s c n n' c' ∧ if full then cx_room c' = 0%nat ∧ cx_pos c' = n' + TGID_OFFSET else n' = PID_MAX_LIMIT.

Lemma unlisted ns cur s lo hi : 0 ≤ lo → (∀ m, lo ≤ m < hi → leader_of s m = None) → entries ns cur s lo hi = [].
Proof. intros Hlo Hn. apply entries_none. intros n Hr. unfold listed. destruct (Z.ltb_spec n 0); [lia|]. by rewrite Hn by lia. Qed.

Lemma listed_leader ns cur s n t k : 0 ≤ n → leader_of s n = Some (t, k) → listed ns cur s n = has_pid_permissions ns cur k 2.
Proof. intros Hn Hl. unfold listed. destruct (Z.ltb_spec n 0); [lia|]. by rewrite Hl. Qed.

Lemma has_permissions_pin ns cur k m : has_pid_permissions ns cur (pin k) m = has_pid_permissions ns cur k m.
Proof. unfold has_pid_permissions, pin. by rewrite ptrace_usage. Qed.

Lemma numbers_left_mono s n m : n ≤ m → (numbers_left s m ≤ numbers_left s n)%nat.
Proof. intros Hnm. unfold numbers_left. apply subseteq_size. intros x. rewrite !elem_of_filter. intros [? ?]. split; [lia|done]. Qed.

(** One process: listed when it is visible and there is room. *)
Lemma tgid_entry_run ns cur s dir c n t k :
  fs_ok s → 0 ≤ n → leader_of s n = Some (t, k) →
  ∃ ok c1 s1,
    (if negb (has_pid_permissions ns cur (pin k) 2) then mret (true, c)
     else proc_fill_cache dir (set_cx_pos (n + TGID_OFFSET) c) (decimal n) (proc_pid_instantiate dir (decimal n) t)) (pinned t s) = Some ((ok, c1), pinned t s1) ∧
    fs_step s s1 ∧ if ok : bool then lists ns cur s c n (n + 1) c1 else c1 = set_cx_pos (n + TGID_OFFSET) c ∧ cx_room c = 0%nat.
Proof.
  intros Hok Hn Hl. pose proof (listed_leader ns cur s n t k Hn Hl) as Hlisted. rewrite has_permissions_pin, <- Hlisted. destruct (listed ns cur s n) eqn:Ev; cbn [negb].
  2:{ exists true, c, s. split; [done|]. split; [reflexivity|]. apply lists_none. by rewrite entries_one, Ev. }
  destruct (leader_of_inv _ _ _ _ Hl) as (_ & _ & _ & _ & _ & _ & Ht & Hk & _). pose proof (pinned_lookup s t k Hk) as Hpk.
  destruct (fill_cache_run (pinned t s) dir (set_cx_pos (n + TGID_OFFSET) c) (decimal n) (tk_pid (pin k)) Ops_tgid (proc_pid_instantiate dir (decimal n) t)) as (ino & type & s' & Hr & Hst).
  { exact (fo_dcache s Hok). }
  { intros s' Hst. apply instantiate_run; [|by rewrite (sp_tasks _ _ (fs_procs _ _ Hst))|done]. eapply same_procs_ok; [apply Hst|]. apply pinned_ok, Hok. }
  destruct (unpin_step t s s' Hst) as (s1 & -> & Hst1). rewrite Hr. pose proof (lists_emit ns cur s (set_cx_pos (n + TGID_OFFSET) c) n ino type Ev) as He.
  assert (name_of n = decimal n) as En by (unfold name_of; destruct (Z.eqb_spec n (-2)); [lia|]; destruct (Z.eqb_spec n (-1)); [lia|done]). rewrite En in He.
  destruct (dir_emit _ (decimal n) ino type) as [ok c1]. destruct He as [_ He]. exists ok, c1, s1. split; [done|]. split; [done|]. by destruct ok.
Qed.

Lemma tgid_loop_run ns cur s dir c n t k fuel :
  fs_ok s → 0 ≤ n → leader_of s n = Some (t, k) → (numbers_left s n ≤ fuel)%nat →
  ∃ full c' s', tgid_loop fuel ns cur dir c n t (pinned t s) = Some ((full, c'), s') ∧ fs_step s s' ∧ loop_done ns cur s c n full c'.
Proof.
  revert s c n t k. induction fuel as [|fuel IH]; intros s c n t k Hok Hn Hl Hf.
  all: assert (n ∈ dom (ps_numbers s)) as Hdom by (apply leader_of_number; by rewrite Hl); pose proof (numbers_left_lt s n n ltac:(lia) Hdom); try (exfalso; lia).
  destruct (leader_of_inv _ _ _ _ Hl) as (pid & p & g & Hnum & Hp & Hpt & Ht & Hk & _). destruct (fo_numbers s Hok _ _ Hnum) as [Hlim _]. pose proof proc_constants as (_ & _ & _ & HL & _).
  cbn [tgid_loop]. assert (truthy t = true) as -> by (unfold truthy; lia). cbn [negb]. pose proof (pinned_lookup s t k Hk) as Hpk. prun.
  destruct (tgid_entry_run ns cur s dir c n t k Hok Hn Hl) as (ok & c1 & s1 & Hr & Hst & Hc). rewrite (pbind_run _ _ _ _ _ Hr). pose proof (fs_step_ok _ _ Hst Hok) as Hok1. pose proof (fs_procs _ _ Hst) as Hsp.
  assert (ps_tasks s1 !! t = Some k) as Hk1 by (by rewrite (sp_tasks _ _ Hsp)).
  destruct ok; cbn [negb].
  2:{ destruct Hc as [-> Hroom]. rewrite (pbind_run _ _ _ _ _ (put_pinned s1 t k Hk1 (po_usage s1 (fo_procs s1 Hok1) _ _ Hk1))). exists true, (set_cx_pos (n + TGID_OFFSET) c), s1. split; [done|]. split; [done|].
      exists n. split; [lia|]. split; [|done]. refine (lists_none ns cur s c n n _). apply entries_none. lia. }
  rewrite (wrap_small 32) by lia. destruct (next_tgid_run s1 (n + 1) Hok1 ltac:(lia)) as (n' & t' & s2 & Hr2 & Hfound). rewrite <- (next_tgid_pinned s1 (n + 1) t k) in Hr2 by (done || lia).
  rewrite (pbind_run _ _ _ _ _ Hr2). unfold next_found in Hfound. destruct (decide (t' = 0)) as [->|Ht'].
  - destruct Hfound as [-> Hnone]. exists false, c1, s1. split; [by destruct fuel|]. split; [done|]. exists PID_MAX_LIMIT. split; [lia|]. split; [|done].
    eapply lists_trans, lists_none; [|exact Hc|]; [lia|]. rewrite <- (same_procs_entries _ _ _ _ _ _ Hsp). apply unlisted; [lia|]. intros m Hm. apply Hnone. lia.
  - destruct Hfound as (Hle & -> & (k' & Hl') & Hnone). destruct (IH s1 c1 n' t' k' Hok1 ltac:(lia) Hl') as (full & c2 & s3 & Hr3 & Hst3 & n2 & Hn2 & Hlist & Hend).
    { pose proof (numbers_left_mono s1 (n + 1) n' Hle). assert (numbers_left s1 (n + 1) = numbers_left s (n + 1)) by (unfold numbers_left; by rewrite (sp_numbers _ _ Hsp)). lia. }
    exists full, c2, s3. split; [done|]. split; [by etransitivity|]. exists n2. split; [lia|]. split; [|done]. eapply lists_trans; [|exact Hc|]; [lia|].
    eapply (lists_trans _ _ _ _ c1 _ _ n'); [lia| |]; [apply lists_none|]; unfold lists in *; rewrite <- !(same_procs_entries _ _ _ _ _ _ Hsp); [|done]. apply unlisted; [lia|]. intros m Hm. apply Hnone. lia.
Qed.
(** One call at the position of number [n] lists the entries up to that of [n'], where it leaves the position: the end, or the first entry that had no room. *)
Definition call_lists (ns : pid_namespace) (cur : caller) (s : pstate) (c : dir_context) (n n' : Z) (c' : dir_context) : Prop :=
  n ≤ n' ≤ PID_MAX_LIMIT ∧ cx_pos c' = n' + TGID_OFFSET ∧ lists ns cur s c n n' c' ∧ (n' = PID_MAX_LIMIT ∨ cx_room c' = 0%nat).

(** One of the two links at its position. *)
Definition emit_link (at_pos : Z) (name : list Z) (ino : Z) (c : dir_context) : bool * dir_context :=
  if cx_pos c =? at_pos then let '(ok, c) := dir_emit c name ino DT_LNK in (ok, if ok then set_cx_pos (cx_pos c + 1) c else c) else (true, c).

Lemma emit_link_run ns cur s c n m ino :
  m < 0 → n = m ∨ m < n → cx_pos c = n + TGID_OFFSET →
  let '(ok, c') := emit_link (m + TGID_OFFSET) (name_of m) ino c in
  if ok : bool then ∃ n', m < n' ∧ n ≤ n' ≤ Z.max n 0 ∧ cx_pos c' = n' + TGID_OFFSET ∧ lists ns cur s c n n' c' else c' = c ∧ cx_room c = 0%nat.
Proof.
  intros Hm Hn Hpos. unfold emit_link. rewrite Hpos. destruct (Z.eqb_spec (n + TGID_OFFSET) (m + TGID_OFFSET)) as [E|E].
  - assert (n = m) as -> by lia. pose proof (lists_emit ns cur s c m ino DT_LNK) as He. destruct (dir_emit c (name_of m) ino DT_LNK) as [ok c'].
    destruct He as [Hp He]; [unfold listed; by destruct (Z.ltb_spec m 0); [|lia]|]. destruct ok; [|done]. exists (m + 1). cbn. split_and!; try lia. done.
  - exists n. split_and!; try lia. apply lists_none, entries_none. lia.
Qed.

Lemma readdir_links ns cur dir self_ino thread_self_ino c :
  proc_pid_readdir ns cur dir self_ino thread_self_ino c =
  if PID_MAX_LIMIT + TGID_OFFSET <=? cx_pos c then mret c
  else
    let '(ok, c) := emit_link (-2 + TGID_OFFSET) (name_of (-2)) self_ino c in
    if negb ok then mret c
    else
      let '(ok, c) := emit_link (-1 + TGID_OFFSET) (name_of (-1)) thread_self_ino c in
      if negb ok then mret c
      else
        '(tgid, task) ← next_tgid (u32 (cx_pos c - TGID_OFFSET)) 0;
        n ← pget (λ s, size (ps_numbers s));
        '(full, c) ← tgid_loop (S n) ns cur dir c tgid task;
        mret (if (full : bool) then c else set_cx_pos (PID_MAX_LIMIT + TGID_OFFSET) c).
Proof. unfold proc_pid_readdir, emit_link. by rewrite !(Z.add_comm _ TGID_OFFSET). Qed.

Lemma call_stops ns cur s c n n' c1 :
  n ≤ n' ≤ PID_MAX_LIMIT → lists ns cur s c n n' c1 → cx_pos c1 = n' + TGID_OFFSET → cx_room c1 = 0%nat → call_lists ns cur s c n n' c1.
Proof. intros. split_and!; auto; lia. Qed.

(** The processes from number [n] on. *)
Lemma readdir_procs ns cur s dir c n :
  fs_ok s → 0 ≤ n < PID_MAX_LIMIT →
  ∃ c' s' n',
    ('(tgid, task) ← next_tgid n 0; size ← pget (λ s, size (ps_numbers s));
     '(full, c) ← tgid_loop (S size) ns cur dir c tgid task;
     mret (if (full : bool) then c else set_cx_pos (PID_MAX_LIMIT + TGID_OFFSET) c) : PM dir_context) s = Some (c', s') ∧ fs_step s s' ∧ call_lists ns cur s c n n' c'.
Proof.
  intros Hok Hn. destruct (next_tgid_run s n Hok ltac:(lia)) as (m & t & s1 & Hr & Hfound). rewrite (pbind_run _ _ _ _ _ Hr). unfold next_found in Hfound. destruct (decide (t = 0)) as [->|Ht].
  - destruct Hfound as [-> Hnone]. rewrite (pbind_run _ _ _ (size (ps_numbers s)) s) by done. rewrite (pbind_run _ _ _ (false, c) s) by done.
    exists (set_cx_pos (PID_MAX_LIMIT + TGID_OFFSET) c), s, PID_MAX_LIMIT. split; [done|]. split; [reflexivity|]. split; [lia|]. split; [done|]. split; [|by left].
    refine (lists_none ns cur s c n _ _). apply unlisted; [lia|]. intros y Hy. apply Hnone. lia.
  - destruct Hfound as (Hle & -> & (k & Hl) & Hgap). rewrite (pbind_run _ _ _ (size (ps_numbers s)) (pinned t s)) by done.
    destruct (tgid_loop_run ns cur s dir c m t k (S (size (ps_numbers s)))) as (full & c1 & s2 & Hr2 & Hst & n' & Hn' & Hlist & Hend); [done|lia|done|pose proof (numbers_left_all s m); lia|].
    rewrite (pbind_run _ _ _ _ _ Hr2). eexists _, s2, n'. split; [reflexivity|]. split; [done|]. assert (lists ns cur s c n n' c1) as Hall.
    { eapply (lists_trans _ _ _ _ c _ _ m); [lia| |done]. apply lists_none, unlisted; [lia|done]. }
    destruct full; [destruct Hend; split_and!; auto; lia|]. split; [lia|]. split; [cbn; lia|]. split; [exact Hall|by left].
Qed.

Lemma readdir_run ns cur s dir self_ino thread_self_ino c n :
  fs_ok s → cx_pos c = n + TGID_OFFSET → -2 ≤ n ≤ PID_MAX_LIMIT →
  ∃ c' s' n', proc_pid_readdir ns cur dir self_ino thread_self_ino c s = Some (c', s') ∧ fs_step s s' ∧ call_lists ns cur s c n n' c'.
Proof.
  intros Hok Hpos Hn. pose proof proc_constants as (_ & _ & _ & HL & _). rewrite readdir_links. destruct (Z.leb_spec (PID_MAX_LIMIT + TGID_OFFSET) (cx_pos c)) as [Hend|Hnot].
  { assert (n = PID_MAX_LIMIT) as -> by lia. exists c, s, PID_MAX_LIMIT. split; [done|]. split; [reflexivity|]. split; [lia|]. split; [done|]. split; [|by left]. apply lists_none, entries_none. lia. }
  pose proof (emit_link_run ns cur s c n (-2) self_ino ltac:(lia) ltac:(lia) Hpos) as H1'. destruct (emit_link _ _ _ c) as [ok c1].
  destruct ok; cbn [negb]; [|destruct H1' as [-> Hroom]; exists c, s, n; split; [done|]; split; [reflexivity|]; apply call_stops; [lia|apply lists_none, entries_none; lia|done..]].
  destruct H1' as (n1 & Hn1 & Hn1' & Hpos1 & Hl1). pose proof (emit_link_run ns cur s c1 n1 (-1) thread_self_ino ltac:(lia) ltac:(lia) Hpos1) as H2'. destruct (emit_link _ _ _ c1) as [ok c2].
  destruct ok; cbn [negb]; [|destruct H2' as [-> Hroom]; exists c1, s, n1; split; [done|]; split; [reflexivity|]; apply call_stops; [lia|done..]].
  destruct H2' as (n2 & Hn2 & Hn2' & Hpos2 & Hl2). rewrite Hpos2. replace (n2 + TGID_OFFSET - TGID_OFFSET) with n2 by lia. rewrite (wrap_small 32) by lia.
  destruct (readdir_procs ns cur s dir c2 n2 Hok ltac:(lia)) as (c' & s' & n' & Hr & Hst & Hr' & Hp' & Hl' & He'). exists c', s', n'. split; [exact Hr|]. split; [done|].
  split; [lia|]. split; [done|]. split; [|done]. eapply (lists_trans _ _ _ _ c1 _ _ n1); [lia|done|]. eapply (lists_trans _ _ _ _ c2 _ _ n2); [lia|done..].
Qed.

(** ** Several calls *)

(** The calls a program makes to read the whole directory: how many entries each has room for, and what the rest of the system does
    before the next one.  The result is the names, the position and the state. *)
Fixpoint read_calls (ns : pid_namespace) (cur : caller) (dir self_ino thread_self_ino : Z) (calls : list (nat * (pstate → pstate))) (pos : Z) (s : pstate) : option (list (list Z) * Z * pstate) :=
  match calls with
  | [] => Some ([], pos, s)
  | (room, env) :: calls =>
    '(c, s) ← proc_pid_readdir ns cur dir self_ino thread_self_ino (Ctx pos room []) s;
    '(out, pos, s) ← read_calls ns cur dir self_ino thread_self_ino calls (cx_pos c) (env s);
    Some (names c ++ out, pos, s)
  end.

Definition dir_start : Z := TGID_OFFSET - 2.
Definition dir_end : Z := PID_MAX_LIMIT + TGID_OFFSET.

Lemma call_lists_names ns cur s pos room n n' c' : call_lists ns cur s (Ctx pos room []) n n' c' → names c' = name_of <$> entries ns cur s n n'.
Proof. intros (_ & _ & [E _] & _). exact E. Qed.

Lemma read_calls_run ns cur dir self_ino thread_self_ino rooms s n :
  fs_ok s → -2 ≤ n ≤ PID_MAX_LIMIT →
  ∃ s' n', read_calls ns cur dir self_ino thread_self_ino ((λ room, (room, id)) <$> rooms) (n + TGID_OFFSET) s = Some (name_of <$> entries ns cur s n n', n' + TGID_OFFSET, s') ∧ fs_step s s' ∧
    n ≤ n' ≤ PID_MAX_LIMIT ∧ (length (entries ns cur s n n') ≤ sum_list rooms)%nat ∧ (n' = PID_MAX_LIMIT ∨ length (entries ns cur s n n') = sum_list rooms).
Proof.
  revert s n. induction rooms as [|room rooms IH]; intros s n Hok Hn; cbn.
  - exists s, n. assert (entries ns cur s n n = []) as -> by (apply entries_none; lia). cbn. split; [done|]. split; [reflexivity|]. split_and!; [lia..|by right].
  - destruct (readdir_run ns cur s dir self_ino thread_self_ino (Ctx (n + TGID_OFFSET) room []) n Hok) as (c & s1 & n1 & Hr & Hst & Hcall); [done|lia|]. rewrite Hr. cbn.
    pose proof (call_lists_names _ _ _ _ _ _ _ _ Hcall) as En. destruct Hcall as (Hn1 & Hpos & [_ Hroom] & Hend). cbn in Hroom. rewrite Hpos.
    destruct (IH s1 n1 (fs_step_ok _ _ Hst Hok) ltac:(lia)) as (s' & n' & Hr' & Hst' & Hn' & Hlen & Hend'). unfold id in *. rewrite Hr'. cbn. rewrite (same_procs_entries _ _ _ _ _ _ (fs_procs _ _ Hst)) in *.
    exists s', n'. rewrite En, <- fmap_app, <- proc_entries_app by lia. split; [done|]. split; [by etransitivity|]. split; [lia|]. rewrite (proc_entries_app _ _ _ n n1 n'), length_app by lia. split; [lia|].
    destruct Hend as [->|Hfull]; [left; lia|]. destruct Hend' as [|Hend']; [by left|]. right. lia.
Qed.

(** C27: Reading the directory of the processes in calls of any sizes, each from the position the one before left, gives the beginning of the same list, as long as the rooms
    together: the two links, then the processes in the order of their numbers without those hidden from the caller; the processes are untouched afterwards and no reference to one is left. *)
Theorem proc_listing_in_calls ns cur dir self_ino thread_self_ino rooms s :
  fs_ok s →
  ∃ pos s', read_calls ns cur dir self_ino thread_self_ino ((λ room, (room, id)) <$> rooms) dir_start s =
      Some (take (sum_list rooms) (name_of <$> entries ns cur s (-2) PID_MAX_LIMIT), pos, s') ∧ fs_ok s' ∧ same_procs s s'.
Proof.
  intros Hok. pose proof proc_constants as (_ & _ & _ & HL & _). destruct (read_calls_run ns cur dir self_ino thread_self_ino rooms s (-2) Hok ltac:(lia)) as (s' & n' & Hr & Hst & Hn' & Hlen & Hend).
  unfold dir_start. replace (TGID_OFFSET - 2) with (-2 + TGID_OFFSET) by lia. exists (n' + TGID_OFFSET), s'. split; [|split; [by eapply fs_step_ok|apply Hst]]. rewrite Hr. do 3 f_equal.
  destruct Hend as [->|Hfull]; [by rewrite take_ge by (rewrite length_fmap; lia)|]. rewrite (proc_entries_app _ _ _ (-2) n' PID_MAX_LIMIT) by lia. rewrite fmap_app, take_app_length' by (by rewrite length_fmap). done.
Qed.

(** *** While processes come and go *)

Lemma name_of_inj m n : -2 ≤ m → -2 ≤ n → name_of m = name_of n → m = n.
Proof.
  assert (∀ n c l, 0 ≤ n → c :: l = decimal n → isdigit c = true) as Hdig.
  { intros x c l Hx E. destruct (decimal_spec x Hx) as [_ Hf]. rewrite <- E in Hf. by inversion Hf. }
  intros Hm Hn. unfold name_of. destruct (Z.eqb_spec m (-2)), (Z.eqb_spec n (-2)); try congruence;
    destruct (Z.eqb_spec m (-1)), (Z.eqb_spec n (-1)); try congruence; intros E; try discriminate E.
  all: try (apply decimal_inj in E; lia). all: first [apply Hdig in E|symmetry in E; apply Hdig in E]; [discriminate E|lia].
Qed.

(** What the rest of the system may do between two calls: it keeps what holds of the file system, and process [n] is there afterwards if it was before. *)
Definition spares (ns : pid_namespace) (cur : caller) (n : Z) (env : pstate → pstate) : Prop :=
  ∀ s, fs_ok s → fs_ok (env s) ∧ (listed ns cur s n = true → listed ns cur (env s) n = true).

Lemma read_calls_between ns cur dir self_ino thread_self_ino calls s n m :
  fs_ok s → -2 ≤ n ≤ PID_MAX_LIMIT → listed ns cur s m = true → Forall (λ call, spares ns cur m call.2) calls →
  ∃ l n' s', read_calls ns cur dir self_ino thread_self_ino calls (n + TGID_OFFSET) s = Some (name_of <$> l, n' + TGID_OFFSET, s') ∧ n ≤ n' ≤ PID_MAX_LIMIT ∧
    NoDup l ∧ (∀ x, x ∈ l → n ≤ x < n') ∧ (n ≤ m < n' → m ∈ l).
Proof.
  intros Hok Hn Hm Hcalls. revert s n Hok Hn Hm. induction Hcalls as [|[room env] calls Henv Hcalls IH]; intros s n Hok Hn Hm; cbn.
  - exists [], n, s. split_and!; [done|lia..|constructor|by intros x ?%elem_of_nil|lia].
  - destruct (readdir_run ns cur s dir self_ino thread_self_ino (Ctx (n + TGID_OFFSET) room []) n Hok) as (c & s1 & n1 & Hr & Hst & Hcall); [done|lia|]. rewrite Hr. cbn.
    pose proof (call_lists_names _ _ _ _ _ _ _ _ Hcall) as En. destruct Hcall as (Hn1 & Hpos & _ & _). rewrite Hpos. destruct (Henv s1 (fs_step_ok _ _ Hst Hok)) as [Hok2 Hm2]. cbn in Hm2.
    destruct (IH (env s1) n1 Hok2 ltac:(lia)) as (l & n' & s' & Hr' & Hn' & Hdup & Hin & Hall); [apply Hm2; by rewrite (same_procs_listed _ _ _ _ _ (fs_procs _ _ Hst))|].
    rewrite Hr'. cbn. exists (entries ns cur s n n1 ++ l), n', s'. rewrite En, <- fmap_app. split; [done|]. split; [lia|]. split; [|split].
    + apply NoDup_app. split; [apply entries_NoDup|]. split; [|done]. intros x [Hx _]%entries_elem Hx'. specialize (Hin x Hx'). lia.
    + intros x [[Hx _]%entries_elem|Hx]%elem_of_app; [lia|]. specialize (Hin x Hx). lia.
    + intros Hr''. apply elem_of_app. destruct (decide (m < n1)); [left; apply entries_elem; split; [lia|done]|right; apply Hall; lia].
Qed.

(** C28: However processes come and go between the calls, no name is given twice, and a process that is there and visible all the time is given once the end of the directory is reached. *)
Theorem staying_process_listed_once ns cur dir self_ino thread_self_ino calls s m :
  fs_ok s → listed ns cur s m = true → 0 ≤ m → Forall (λ call, spares ns cur m call.2) calls →
  ∃ out pos s', read_calls ns cur dir self_ino thread_self_ino calls dir_start s = Some (out, pos, s') ∧ NoDup out ∧ (pos = dir_end → decimal m ∈ out).
Proof.
  intros Hok Hm Hm0 Hcalls. pose proof proc_constants as (_ & _ & _ & HL & _). destruct (read_calls_between ns cur dir self_ino thread_self_ino calls s (-2) m Hok ltac:(lia) Hm Hcalls) as (l & n' & s' & Hr & Hn' & Hdup & Hin & Hall).
  unfold dir_start. replace (TGID_OFFSET - 2) with (-2 + TGID_OFFSET) by lia. exists (name_of <$> l), (n' + TGID_OFFSET), s'. split; [exact Hr|]. split.
  - apply NoDup_fmap_2_strong; [|done]. intros x y Hx Hy. apply name_of_inj; [specialize (Hin x Hx)|specialize (Hin y Hy)]; lia.
  - unfold dir_end. intros Hend. assert (m < PID_MAX_LIMIT).
    { unfold listed in Hm. destruct (Z.ltb_spec m 0); [lia|]. destruct (leader_of s m) as [[t k]|] eqn:El; [|done]. destruct (leader_of_inv _ _ _ _ El) as (pid & _ & _ & Hnum & _).
      apply (fo_numbers s Hok _ _ Hnum). }
    apply list_elem_of_fmap. exists m. split; [|apply Hall; lia]. unfold name_of. destruct (Z.eqb_spec m (-2)); [lia|]. by destruct (Z.eqb_spec m (-1)); [lia|].
Qed.

(** ** Looking up *)

Lemma pinned_instantiate s dir name t k f ops :
  fs_ok s → ps_tasks s !! t = Some k → (∀ i, in_pid (f i) = in_pid i ∧ in_ops (f i) = ops) →
  ∃ e s', instantiate_as dir name t f (pinned t s) = Some (e, pinned t s') ∧ fs_step s s' ∧ (e = 0 ∧ cached s' dir name (tk_pid k) ops ∨ e = - Errno.ENOENT ∧ (no_inode s ∨ dead s (tk_pid k))).
Proof.
  intros Hok Hk Hf. destruct (instantiate_run (pinned t s) dir name t (pin k) f ops (pinned_ok t s (fo_procs s Hok)) (pinned_lookup s t k Hk) Hf) as (e & s' & Hr & Hst & He).
  destruct (unpin_step t s s' Hst) as (s1 & -> & Hst1). exists e, s1. done.
Qed.

Lemma pid_instantiate_run s dir name t k :
  fs_ok s → ps_tasks s !! t = Some k →
  ∃ e s', proc_pid_instantiate dir name t (pinned t s) = Some (e, pinned t s') ∧ fs_step s s' ∧ (e = 0 ∧ cached s' dir name (tk_pid k) Ops_tgid ∨ e = - Errno.ENOENT ∧ (no_inode s ∨ dead s (tk_pid k))).
Proof. intros Hok Hk. apply pinned_instantiate; [done..|]. by intros i. Qed.

(** A process that is there can be looked up by its number, whether it is listed or hidden: unless there is no memory for the inode, the name
    then leads to an inode of that process with the operations of a process directory; the processes are untouched. *)
Theorem process_found_by_number s dir n t k :
  fs_ok s → leader_of s n = Some (t, k) →
  ∃ r s', proc_pid_lookup dir (decimal n) s = Some (r, s') ∧ fs_ok s' ∧ same_procs s s' ∧
    (r = 0 ∧ cached s' dir (decimal n) (tk_pid k) Ops_tgid ∨ r = - Errno.ENOENT ∧ no_inode s).
Proof.
  intros Hok Hl. destruct (leader_of_inv _ _ _ _ Hl) as (pid & p & g & Hnum & Hp & Hpt & Ht & Hk & _). destruct (fo_numbers s Hok _ _ Hnum) as (Hr & Hpid0 & _). pose proof proc_constants as (_ & _ & _ & HL & _).
  unfold proc_pid_lookup. rewrite name_to_int_decimal by lia. destruct (Z.eqb_spec n (2 ^ 32 - 1)); [lia|].
  rewrite (pbind_run _ _ _ t s) by (unfold find_task_by_pid_ns; rewrite (pbind_run _ _ _ (ps_numbers s) s) by done; rewrite Hnum; unfold pid_task; prun; by rewrite Hpt).
  assert (truthy t = true) as -> by (unfold truthy; lia). cbn [negb]. rewrite (pbind_run _ _ _ _ _ (get_task_run s t k Hk)).
  destruct (pid_instantiate_run s dir (decimal n) t k Hok Hk) as (e & s' & Hrun & Hst & He). rewrite (pbind_run _ _ _ _ _ Hrun).
  pose proof (fs_step_ok _ _ Hst Hok) as Hok'. assert (ps_tasks s' !! t = Some k) as Hk' by (by rewrite (sp_tasks _ _ (fs_procs _ _ Hst))).
  rewrite (pbind_run _ _ _ _ _ (put_pinned s' t k Hk' (po_usage s' (fo_procs s' Hok') _ _ Hk'))). exists e, s'. split; [done|]. split; [done|]. split; [apply Hst|].
  destruct (po_pid s (fo_procs s Hok) _ _ Hp) as (k0 & Hk0 & E0); [congruence|]. rewrite Hpt, Hk in Hk0. injection Hk0 as <-.
  destruct He as [He|[He [Hno|[Hd|(p' & Hp' & Hd)]]]]; [by left|by right|congruence|]. rewrite E0 in Hp'. congruence.
Qed.

(** ** Entries of a process *)

Lemma pident_instantiate_run s dir t k p :
  fs_ok s → ps_tasks s !! t = Some k →
  ∃ e s', proc_pident_instantiate dir (pe_name p) t p (pinned t s) = Some (e, pinned t s') ∧ fs_step s s' ∧
    (e = 0 ∧ cached s' dir (pe_name p) (tk_pid k) (Ops_entry (pe_name p)) ∨ e = - Errno.ENOENT ∧ (no_inode s ∨ dead s (tk_pid k))).
Proof. intros Hok Hk. apply pinned_instantiate; [done..|]. intros i. by destruct (S_ISDIR (pe_mode p)). Qed.

Lemma pident_loop_run s dir t k c ents :
  fs_ok s → ps_tasks s !! t = Some k →
  ∃ c' s', pident_loop dir t c ents (pinned t s) = Some (c', pinned t s') ∧ fs_step s s' ∧
    names c' = names c ++ take (cx_room c) (pe_name <$> ents) ∧ cx_pos c' = cx_pos c + Z.of_nat (min (cx_room c) (length ents)).
Proof.
  intros Hok Hk. revert s c Hok Hk. induction ents as [|p ents IH]; intros s c Hok Hk; cbn [pident_loop].
  { exists c, s. split; [done|]. split; [reflexivity|]. cbn. rewrite take_nil, app_nil_r, Nat.min_0_r. split; [done|lia]. }
  destruct (fill_cache_run (pinned t s) dir c (pe_name p) (tk_pid (pin k)) (Ops_entry (pe_name p)) (proc_pident_instantiate dir (pe_name p) t p)) as (ino & type & s' & Hr & Hst).
  { exact (fo_dcache s Hok). }
  { intros s' Hst. apply instantiate_run; [|rewrite (sp_tasks _ _ (fs_procs _ _ Hst)); by apply pinned_lookup|intros i; by destruct (S_ISDIR (pe_mode p))]. eapply same_procs_ok; [apply Hst|]. apply pinned_ok, Hok. }
  destruct (unpin_step t s s' Hst) as (s1 & -> & Hst1). rewrite (pbind_run _ _ _ _ _ Hr). unfold dir_emit. destruct (cx_room c) as [|room] eqn:Er.
  { exists c, s1. split; [done|]. split; [done|]. rewrite app_nil_r. split; [done|cbn; lia]. }
  destruct (IH s1 (set_cx_pos (cx_pos c + 1) (Ctx (cx_pos c) room (cx_out c ++ [(pe_name p, ino, type)])))) as (c' & s2 & Hr2 & Hst2 & Hn & Hp); [by eapply fs_step_ok|by rewrite (sp_tasks _ _ (fs_procs _ _ Hst1))|].
  exists c', s2. split; [exact Hr2|]. split; [by etransitivity|]. rewrite Hn, Hp. cbn. unfold names. cbn. rewrite fmap_app, <- app_assoc. split; [done|lia].
Qed.

(** In the directory of a process or thread the entries of its table are listed in their order from the position of the call on, as many as there is room for, and the position is that of the first entry that was not listed;
    a name of the table can be looked up, and any other name gives the error ENOENT and changes nothing. *)
Theorem entry_listing_and_lookup s dir i p k parent_ino ents j room :
  fs_ok s → task_inode s dir i p → pd_task p ≠ 0 → ps_tasks s !! pd_task p = Some k → in_pid i ≠ 0 → (j ≤ length ents)%nat →
  (∃ c' s', proc_pident_readdir dir parent_ino (Ctx (Z.of_nat j + 2) room []) ents s = Some ((0, c'), s') ∧ fs_ok s' ∧ same_procs s s' ∧
     names c' = take room (drop j (pe_name <$> ents)) ∧ cx_pos c' = 2 + Z.of_nat (min (j + room) (length ents))) ∧
  (∀ name, ∃ r s', proc_pident_lookup dir name ents s = Some (r, s') ∧ fs_ok s' ∧ same_procs s s' ∧
     if bool_decide (name ∈ pe_name <$> ents) then r = 0 ∧ cached s' dir name (in_pid i) (Ops_entry name) ∨ r = - Errno.ENOENT ∧ no_inode s
     else r = - Errno.ENOENT ∧ s' = s).
Proof.
  intros Hok Hti Ht Hk Hpid0 Hj. pose proof Hti as [Hi Hp]. assert (truthy (pd_task p) = true) as Et by (unfold truthy; lia). set (t := pd_task p) in *.
  assert (tk_pid k = in_pid i) as Hkp by (destruct (po_pid s (fo_procs s Hok) _ _ Hp Ht) as (k0 & Hk0 & E0); fold t in Hk0; congruence).
  assert (∀ s', fs_step s s' → put_task_struct t (pinned t s') = Some ((), s')) as Hput.
  { intros s' Hst. assert (ps_tasks s' !! t = Some k) as Hk' by (by rewrite (sp_tasks _ _ (fs_procs _ _ Hst))). apply (put_pinned s' t k Hk'), (po_usage s' (fo_procs s' (fs_step_ok _ _ Hst Hok)) _ _ Hk'). }
  pose proof (proc_task_run s dir i p (fo_procs s Hok) Hti) as Hget. fold t in Hget. rewrite Et in Hget. split.
  - unfold proc_pident_readdir. rewrite (pbind_run _ _ _ _ _ Hget), Et. cbn [negb]. rewrite (pbind_run _ _ _ i (pinned t s)) by (apply inode_at_run; exact Hi).
    assert (dir_emit_dots (Ctx (Z.of_nat j + 2) room []) (in_ino i) parent_ino = (true, Ctx (Z.of_nat j + 2) room [])) as ->.
    { unfold dir_emit_dots. cbn. destruct (Z.eqb_spec (Z.of_nat j + 2) 0); [lia|]. cbn. by destruct (Z.eqb_spec (Z.of_nat j + 2) 1); [lia|]. }
    cbn [negb orb cx_pos]. replace (Z.to_nat (Z.of_nat j + 2 - 2)) with j by lia. destruct (Z.leb_spec (zlen ents + 2) (Z.of_nat j + 2)) as [Hge|Hlt].
    + rewrite (pbind_run _ _ _ (Ctx (Z.of_nat j + 2) room []) (pinned t s)) by done. rewrite (pbind_run _ _ _ _ _ (Hput s ltac:(reflexivity))). eexists _, s. split; [reflexivity|]. split; [done|]. split; [reflexivity|].
      assert (length ents ≤ j)%nat as Hge' by lia. rewrite drop_ge by (by rewrite length_fmap). rewrite take_nil. split; [done|cbn; lia].
    + destruct (pident_loop_run s dir t k (Ctx (Z.of_nat j + 2) room []) (drop j ents) Hok Hk) as (c' & s' & Hr & Hst & Hn & Hpos). rewrite (pbind_run _ _ _ _ _ Hr), (pbind_run _ _ _ _ _ (Hput s' Hst)).
      eexists c', s'. split; [reflexivity|]. split; [by eapply fs_step_ok|]. split; [apply Hst|]. rewrite Hn, Hpos. cbn. rewrite fmap_drop, length_drop. split; [done|lia].
  - intros name. unfold proc_pident_lookup. rewrite (pbind_run _ _ _ _ _ Hget), Et. cbn [negb]. case_bool_decide as Hin.
    + apply list_elem_of_fmap in Hin as (q & -> & Hq). destruct (list_find_elem_of (λ q', pe_name q' = pe_name q) ents q Hq eq_refl) as [[ix q'] Hfind]. rewrite Hfind.
      apply list_find_Some in Hfind as (_ & Eq & _). rewrite <- Eq. destruct (pident_instantiate_run s dir t k q' Hok Hk) as (e & s' & Hr & Hst & He).
      rewrite (pbind_run _ _ _ _ _ Hr), (pbind_run _ _ _ _ _ (Hput s' Hst)). exists e, s'. split; [reflexivity|]. split; [by eapply fs_step_ok|]. split; [apply Hst|]. rewrite Hkp in He.
      destruct He as [He|[He [Hno|[Hd|(p' & Hp' & Hd)]]]]; [by left|by right|done|]. rewrite Hp in Hp'. injection Hp' as <-. exfalso. by apply Ht.
    + destruct (list_find (λ q, pe_name q = name) ents) as [[ix q]|] eqn:Hfind.
      { apply list_find_Some in Hfind as (Hq & Eq & _). destruct Hin. rewrite <- Eq. by apply list_elem_of_fmap_2, (list_elem_of_lookup_2 _ ix). }
      rewrite (pbind_run _ _ _ (- Errno.ENOENT) (pinned t s)) by done. rewrite (pbind_run _ _ _ _ _ (Hput s ltac:(reflexivity))). eexists _, s. split; [reflexivity|]. split; [done|]. split; [reflexivity|done].
Qed.

(** ** Hiding *)

(** With other users' processes hidden, a process that the caller may not look into is nowhere: it is not listed, its directory has no attributes and may not be entered,
    both with the error of a name that does not exist; no reference is left. *)
Theorem hidden_process_is_nowhere ns cur s n t k ino i p mask :
  fs_ok s → ns_hide_pid ns = 2 → ns_pid_gid ns ∉ cl_groups cur → ptrace_may_access cur k false = false →
  leader_of s n = Some (t, k) → task_inode s ino i p → pd_task p = t →
  (∀ lo hi, 0 ≤ lo → n ∉ entries ns cur s lo hi) ∧ pid_getattr ns cur ino s = Some ((- Errno.ENOENT, 0, 0), s) ∧ proc_pid_permission ns cur ino mask s = Some (- Errno.ENOENT, s).
Proof.
  intros Hok Hhide Hgid Hno Hl Hti Hpt. destruct (leader_of_inv _ _ _ _ Hl) as (pid & p' & g & Hnum & _ & _ & Ht & Hk & _). assert (truthy t = true) as Et by (unfold truthy; lia).
  assert (∀ m, m = 1 ∨ m = 2 → has_pid_permissions ns cur k m = false) as Hperm.
  { intros m Hm. unfold has_pid_permissions, in_group_p. rewrite Hhide, Hno, bool_decide_eq_false_2 by done. destruct (Z.ltb_spec 2 m); [lia|done]. }
  split; [|split].
  - intros lo hi Hlo [Hr Hlist]%entries_elem. rewrite (listed_leader ns cur s n t k) in Hlist by (done || lia). rewrite Hperm in Hlist by lia. done.
  - unfold pid_getattr. pose proof Hti as [Hi Hp]. prun. rewrite (pbind_run _ _ _ t s) by (unfold pid_task; prun; by rewrite Hpt). rewrite Et. prun. by rewrite Hperm by lia.
  - unfold proc_pid_permission. rewrite (pbind_run _ _ _ _ _ (proc_task_run s ino i p (fo_procs s Hok) Hti)), Hpt, Et. cbn [negb]. pose proof (pinned_lookup s t k Hk) as Hpk. prun.
    rewrite (pbind_run _ _ _ _ _ (put_pinned s t k Hk (po_usage s (fo_procs s Hok) _ _ Hk))), has_permissions_pin, Hperm by lia. cbn [negb]. by rewrite Hhide.
Qed.

(** ** Exiting *)

(** The cached names of a task that has exited: its own and the one among the threads of its process. *)
Definition task_dir (s : pstate) (root tgid : Z) : option Z := leader ← ps_dcache s !! (root, decimal tgid); ps_dcache s !! (leader, bytes_of "task").

(** Flushing a task that exits removes its name from the cache, and a thread's name among the threads of its process, where these are cached; every other name stays and nothing else changes. *)
Theorem flush_removes_cached_names s root pid tgid :
  0 ≤ pid → 0 ≤ tgid →
  ∃ s', proc_flush_task_mnt root pid tgid s = Some ((), s') ∧ (∃ dc, s' = set_ps_dcache dc s) ∧ ps_dcache s' !! (root, decimal pid) = None ∧
    (∀ dir, pid ≠ tgid → task_dir s root tgid = Some dir → ps_dcache s' !! (dir, decimal pid) = None) ∧
    (∀ dir name, name ≠ decimal pid → ps_dcache s' !! (dir, name) = ps_dcache s !! (dir, name)).
Proof.
  intros Hpid Htgid. unfold proc_flush_task_mnt, task_dir, dcache_lookup, d_invalidate, d_drop. rewrite (pbind_run _ _ _ (ps_dcache s !! (root, decimal pid)) s) by done.
  set (s1 := set_ps_dcache (delete (root, decimal pid) (ps_dcache s)) s).
  rewrite (pbind_run _ _ _ () s1); [|destruct (ps_dcache s !! (root, decimal pid)) eqn:E; [done|]; unfold s1; rewrite delete_id by done; by destruct s].
  assert (∀ dir name, name ≠ decimal pid → ps_dcache s1 !! (dir, name) = ps_dcache s !! (dir, name)) as Hother by (intros dir name Hn; apply lookup_delete_ne; congruence).
  assert (ps_dcache s1 !! (root, decimal pid) = None) as Hgone by apply lookup_delete_eq.
  destruct (Z.eqb_spec pid tgid) as [->|Hne]; [exists s1; split_and!; [done|by eexists|done|done|done]|].
  assert (decimal tgid ≠ decimal pid) as Hd by (intros E%decimal_inj; lia). rewrite (pbind_run _ _ _ (ps_dcache s1 !! (root, decimal tgid)) s1) by done. rewrite Hother by done.
  destruct (ps_dcache s !! (root, decimal tgid)) as [leader|] eqn:El; [|exists s1; split_and!; [done|by eexists|done|done|done]].
  assert (bytes_of "task" ≠ decimal pid) as Ht.
  { intros E. destruct (decimal_spec pid Hpid) as [_ Hf]. rewrite <- E in Hf. inversion Hf as [|c l Hc _]. discriminate Hc. }
  rewrite (pbind_run _ _ _ (ps_dcache s1 !! (leader, bytes_of "task")) s1) by done. rewrite Hother by done. cbn [mbind option_bind].
  destruct (ps_dcache s !! (leader, bytes_of "task")) as [dir|] eqn:Edir; [|exists s1; split_and!; [done|by eexists|done|done|done]].
  rewrite (pbind_run _ _ _ (ps_dcache s1 !! (dir, decimal pid)) s1) by done. set (s2 := set_ps_dcache (delete (dir, decimal pid) (ps_dcache s1)) s1).
  exists s2. split_and!.
  - destruct (ps_dcache s1 !! (dir, decimal pid)) eqn:E; [done|]. unfold s2. rewrite delete_id by done. by destruct s.
  - by eexists.
  - apply lookup_delete_None. by right.
  - intros d _ [= <-]. apply lookup_delete_eq.
  - intros d name Hn. change (ps_dcache s2) with (delete (dir, decimal pid) (ps_dcache s1)). rewrite lookup_delete_ne by congruence. by apply Hother.
Qed.
End DirProps.
