(* ===== verification/ProcThreads.v ===== *)
(** * Procfs: the threads of a process

    The directory of the threads of a process read in several calls: the position counts the entries, and the thread the last call had no room for is remembered in the open file. *)
From stdpp Require Import gmap.
From S2P Require Import Prelude Text ProcState ProcSpec ProcDir ProcDirProps.

Section Threads.
Context `{ProcKernel} `{!ProcKernelLaws}.

(** ** The ring of threads *)

(** One thread: it has its number, belongs to the group, and leads to the next. *)
Record thread (s : pstate) (leader sig next t nr : Z) : Prop := {
  th_null : t ≠ 0;
  th_number : 0 < nr < PID_MAX_LIMIT;
  th_task : ∃ k p, ps_tasks s !! t = Some k ∧ tk_signal k = sig ∧ tk_group_leader k = leader ∧ tk_next_thread k = next ∧ tk_pid k ≠ 0 ∧
    ps_pids s !! tk_pid k = Some p ∧ pd_task p = t ∧ pd_nr p = nr ∧ ps_numbers s !! nr = Some (tk_pid k) }.

(** The threads from one on, with their numbers, up to where the ring closes. *)
Fixpoint chain (s : pstate) (leader sig : Z) (l : list (Z * Z)) : Prop :=
  match l with
  | [] => True
  | (t, nr) :: l => thread s leader sig (default leader (fst <$> head l)) t nr ∧ chain s leader sig l
  end.

(** All threads of a group, the leader first. *)
Record ring (s : pstate) (leader sig : Z) (l : list (Z * Z)) : Prop := {
  rg_chain : chain s leader sig l;
  rg_head : (fst <$> head l) = Some leader;
  rg_distinct : NoDup l.*1;
  rg_count : ∃ g, ps_signals s !! sig = Some g ∧ sg_nr_threads g = zlen l ∧ zlen l ≤ PID_MAX_LIMIT }.

Lemma thread_same s s' leader sig next t nr : same_procs s s' → thread s leader sig next t nr → thread s' leader sig next t nr.
Proof. intros [Ep En Et _ _] [H1' H2' H3']. split; [done..|]. rewrite Ep, En, Et. exact H3'. Qed.
Lemma chain_same s s' leader sig l : same_procs s s' → chain s leader sig l → chain s' leader sig l.
Proof. intros Hs. induction l as [|[t nr] l IH]; [done|]. intros [Ht Hc]. split; [by eapply thread_same|by apply IH]. Qed.
Lemma ring_same s s' leader sig l : same_procs s s' → ring s leader sig l → ring s' leader sig l.
Proof. intros Hs [H1' H2' H3' H4']. split; [by eapply chain_same|done..|]. by rewrite (sp_signals _ _ Hs). Qed.

Lemma chain_drop s leader sig l j : chain s leader sig l → chain s leader sig (drop j l).
Proof. revert j. induction l as [|[t nr] l IH]; intros j Hc; [by rewrite drop_nil|]. destruct j as [|j]; [done|]. apply IH, Hc. Qed.

(** ** References to two tasks *)

Lemma pinned_comm s t n : t ≠ n → pinned t (pinned n s) = pinned n (pinned t s).
Proof. intros Hn. unfold pinned, set_ps_tasks. cbn. f_equal. by apply alter_alter_ne. Qed.

Lemma put_first s t n k : ps_tasks s !! t = Some k → 1 ≤ tk_usage k → t ≠ n → put_task_struct t (pinned n (pinned t s)) = Some ((), pinned n s).
Proof. intros Hk Hu Hn. rewrite pinned_comm by done. apply (put_pinned _ t k); [|done]. cbn. by rewrite lookup_alter_ne. Qed.

(** ** From one thread to the next *)

(** A list of threads behind one that is not the leader's. *)
Lemma next_tid_run s leader sig t nr l :
  fs_ok s → chain s leader sig ((t, nr) :: l) → t ∉ l.*1 → leader ∉ l.*1 → is_Some (ps_tasks s !! leader) → (∀ k, ps_tasks s !! leader = Some k → tk_group_leader k = leader) →
  next_tid t (pinned t s) = match l with [] => Some (0, s) | (n, _) :: _ => Some (n, pinned n s) end.
Proof.
  intros Hok [[Ht0 Hnr (k & p & Hk & Hsig & Hlead & Hnext & Hpid & Hp & Hpt & Hpn & Hnum)] Hc] Htl Hll [kl Hkl] Hll'. pose proof (po_usage s (fo_procs s Hok) _ _ Hk) as Hu. pose proof (pinned_lookup s t k Hk) as Hpk.
  unfold next_tid. rewrite (pbind_run _ _ _ true (pinned t s)) by (unfold pid_alive; prun; unfold mret, PM_ret; repeat f_equal; cbn; unfold truthy; lia).
  destruct l as [|[n nn] l]; cbn in Hnext.
  - erewrite (pbind_run _ _ _ 0 (pinned t s)); [by rewrite (pbind_run _ _ _ _ _ (put_pinned s t k Hk Hu))|].
    prun. cbn [pin set_tk_usage tk_next_thread]. rewrite Hnext. erewrite (pbind_run _ _ _ true (pinned t s)); [done|]. unfold thread_group_leader.
    destruct (decide (t = leader)) as [->|].
    + prun. cbn. rewrite Hlead. by rewrite Z.eqb_refl.
    + assert (ps_tasks (pinned t s) !! leader = Some kl) as Hkl' by (cbn; by rewrite lookup_alter_ne). prun. rewrite (Hll' _ Hkl). by rewrite Z.eqb_refl.
  - destruct Hc as [[Hn0 _ (kn & pn & Hkn & _ & Hleadn & _)] _]. cbn in Htl, Hll. apply not_elem_of_cons in Htl as [Htn _], Hll as [Hln _].
    erewrite (pbind_run _ _ _ n (pinned n (pinned t s))); [by rewrite (pbind_run _ _ _ _ _ (put_first s t n k Hk Hu Htn))|].
    prun. cbn [pin set_tk_usage tk_next_thread]. rewrite Hnext. assert (ps_tasks (pinned t s) !! n = Some kn) as Hkn' by (cbn; by rewrite lookup_alter_ne).
    erewrite (pbind_run _ _ _ false (pinned t s)); [|unfold thread_group_leader; prun; rewrite Hleadn; by destruct (Z.eqb_spec leader n)]. by rewrite (pbind_run _ _ _ _ _ (get_task_run (pinned t s) n kn Hkn')).
Qed.

(** ** Listing threads *)

(** The first of some threads, with a reference, or 0. *)
Definition first_of (l : list (Z * Z)) : Z := default 0 (fst <$> head l).
Definition held (l : list (Z * Z)) (s : pstate) : pstate := match l with [] => s | (t, _) :: _ => pinned t s end.

Lemma tid_loop_run s leader sig dir c l fuel :
  fs_ok s → chain s leader sig l → NoDup l.*1 → leader ∉ (tail l).*1 → (∃ k, ps_tasks s !! leader = Some k ∧ tk_group_leader k = leader) → (length l ≤ fuel)%nat →
  ∃ c' s', tid_loop fuel dir c (first_of l) (held l s) = Some ((c', default 0 (snd <$> l !! cx_room c)), s') ∧ fs_step s s' ∧
    names c' = names c ++ take (cx_room c) (decimal <$> l.*2) ∧ cx_pos c' = cx_pos c + Z.of_nat (min (cx_room c) (length l)).
Proof.
  revert s c l. induction fuel as [|fuel IH]; intros s c l Hok Hc Hd Hl Hlead Hf.
  all: destruct l as [|[t nr] l]; [exists c, s; cbn; split; [done|]; split; [reflexivity|]; rewrite take_nil, app_nil_r; split; [done|lia]|]; try (exfalso; cbn in Hf; lia).
  change (first_of ((t, nr) :: l)) with t. cbn [tid_loop held]. destruct Hlead as (kl & Hkl & Hkll). pose proof Hc as [[Ht0 Hnr (k & p & Hk & Hsig & _ & _ & Hpid & Hp & Hpt & Hpn & Hnum)] Hc'].
  assert (truthy t = true) as -> by (unfold truthy; lia). cbn [negb]. pose proof (pinned_lookup s t k Hk) as Hpk. prun.
  rewrite (pbind_run _ _ _ p (pinned t s)) by (apply pid_at_run; exact Hp). cbv zeta. rewrite Hpn.
  destruct (fill_cache_run (pinned t s) dir c (decimal nr) (tk_pid (pin k)) Ops_tid (proc_task_instantiate dir (decimal nr) t)) as (ino & type & s' & Hr & Hst).
  { exact (fo_dcache s Hok). }
  { intros s' Hst. apply instantiate_run; [|rewrite (sp_tasks _ _ (fs_procs _ _ Hst)); by apply pinned_lookup|by intros i]. eapply same_procs_ok; [apply Hst|]. apply pinned_ok, Hok. }
  destruct (unpin_step t s s' Hst) as (s1 & -> & Hst1). rewrite (pbind_run _ _ _ _ _ Hr). pose proof (fs_step_ok _ _ Hst1 Hok) as Hok1. pose proof (sp_tasks _ _ (fs_procs _ _ Hst1)) as Et.
  assert (ps_tasks s1 !! t = Some k) as Hk1 by (by rewrite Et). unfold dir_emit. destruct (cx_room c) as [|room] eqn:Er; cbn [negb].
  { rewrite (pbind_run _ _ _ _ _ (put_pinned s1 t k Hk1 (po_usage s1 (fo_procs s1 Hok1) _ _ Hk1))). exists c, s1. cbn. rewrite app_nil_r. split; [done|]. split; [done|]. split; [done|lia]. }
  apply NoDup_cons in Hd as [Htl Hd]. cbn in Htl, Hl. assert (next_tid t (pinned t s1) = Some (first_of l, held l s1)) as Hnext.
  { rewrite (next_tid_run s1 leader sig t nr l); [by destruct l as [|[]]|done| |done..| |].
    - eapply chain_same; [apply Hst1|done].
    - rewrite Et. by eexists.
    - rewrite Et. intros k' Hk'. congruence. }
  rewrite (pbind_run _ _ _ _ _ Hnext).
  destruct (IH s1 (set_cx_pos (cx_pos c + 1) (Ctx (cx_pos c) room (cx_out c ++ [(decimal nr, ino, type)]))) l Hok1) as (c' & s2 & Hr2 & Hst2 & Hn & Hpos).
  - eapply chain_same; [apply Hst1|done].
  - done.
  - intros Hin. apply Hl. destruct l; [done|]. by right.
  - rewrite Et. by exists kl.
  - cbn in Hf. lia.
  - exists c', s2. split; [exact Hr2|]. split; [by etransitivity|]. rewrite Hn, Hpos. cbn. unfold names. cbn. rewrite fmap_app, <- app_assoc. split; [done|lia].
Qed.

Lemma walk_threads_run s leader sig l j t nr :
  chain s leader sig l → leader ∉ (tail l).*1 → (fst <$> head l) = Some t → l !! j = Some nr → walk_threads j leader t s = Some (nr.1, s).
Proof.
  revert l t. induction j as [|j IH]; intros l t Hc Hl Hh Hj; destruct l as [|[t0 nr0] l]; try discriminate Hj; cbn in Hh; injection Hh as <-; cbn in Hj.
  - by injection Hj as <-.
  - cbn [walk_threads]. destruct Hc as [[_ _ (k & p & Hk & _ & _ & Hnext & _)] Hc]. prun. cbn in Hl. destruct l as [|[n nn] l]; [done|]. cbn in Hnext, Hl. rewrite Hnext. apply not_elem_of_cons in Hl as [Hln Hl].
    destruct (Z.eqb_spec n leader); [congruence|]. by apply (IH ((n, nn) :: l)).
Qed.

Lemma ring_leader s leader sig l : ring s leader sig l → (leader ∉ (tail l).*1) ∧ ∃ k, ps_tasks s !! leader = Some k ∧ tk_group_leader k = leader.
Proof.
  intros [Hc Hh Hd _]. destruct l as [|[t nr] l]; [done|]. injection Hh as ->. apply NoDup_cons in Hd as [Hl _]. split; [done|]. destruct Hc as [[_ _ (k & p & Hk & _ & Hlead & _)] _]. by exists k.
Qed.

(** The directory belongs to a process of the group. *)
Definition group_pid (s : pstate) (leader sig pid : Z) : Prop :=
  ∃ p k, ps_pids s !! pid = Some p ∧ pd_task p ≠ 0 ∧ ps_tasks s !! pd_task p = Some k ∧ tk_signal k = sig ∧ tk_group_leader k = leader.

(** Where the listing goes on: with the thread of position [j], which [tid] names if it is a number. *)
Lemma first_tid_run s leader sig l pid j tid :
  fs_ok s → ring s leader sig l → group_pid s leader sig pid → (j ≤ length l)%nat → tid = 0 ∨ j = 0%nat ∨ (snd <$> l !! j) = Some tid →
  first_tid pid tid (Z.of_nat j) s = Some (first_of (drop j l), held (drop j l) s).
Proof.
  intros Hok Hring (p & k0 & Hp & Ht0 & Hk0 & Hsig0 & Hlead0) Hj Htid. pose proof (ring_leader _ _ _ _ Hring) as [Hnl _]. destruct Hring as [Hc Hh Hd (g & Hg & Hcount & Hmax)]. pose proof proc_constants as (_ & _ & _ & HL & _).
  unfold first_tid. cbv zeta. rewrite (wrap_small 32) by lia. rewrite Z.eqb_refl. cbn [negb]. rewrite (pbind_run _ _ _ (pd_task p) s) by (unfold pid_task; by prun).
  assert (truthy (pd_task p) = true) as -> by (unfold truthy; lia). cbn [negb].
  assert (∀ t nr, l !! j = Some (t, nr) → drop j l = (t, nr) :: drop (S j) l ∧ thread s leader sig (default leader (fst <$> head (drop (S j) l))) t nr) as Hat.
  { intros t nr Hl. pose proof (chain_drop s leader sig l j Hc) as Hcd. erewrite drop_S in Hcd |- * by exact Hl. split; [done|apply Hcd]. }
  assert (∀ t nr, l !! j = Some (t, nr) → (_ ← (if truthy t then get_task_struct t else mret ()); mret t : PM Z) s = Some (first_of (drop j l), held (drop j l) s)) as Hfin.
  { intros t nr Hl. destruct (Hat t nr Hl) as [-> [Hn0 _ (k & q & Hk & _)]]. assert (truthy t = true) as -> by (unfold truthy; lia). by rewrite (pbind_run _ _ _ _ _ (get_task_run s t k Hk)). }
  assert ((pos ← (k ← task_at (pd_task p); g ← signal_at (tk_signal k); if sg_nr_threads g <=? Z.of_nat j then mret 0 else walk_threads (Z.to_nat (Z.of_nat j)) (tk_group_leader k) (tk_group_leader k)); 
           _ ← (if truthy pos then get_task_struct pos else mret ()); mret pos : PM Z) s = Some (first_of (drop j l), held (drop j l) s)) as Hwalk.
  { destruct (l !! j) as [[t nr]|] eqn:El.
    - apply lookup_lt_Some in El as Hlt. rewrite (pbind_run _ _ _ t s); [by apply (Hfin t nr)|]. prun. rewrite Hsig0. prun. rewrite Hcount, Hlead0. destruct (Z.leb_spec (zlen l) (Z.of_nat j)); [lia|]. rewrite Nat2Z.id.
      by apply (walk_threads_run s leader sig l j leader (t, nr)).
    - apply lookup_ge_None in El. rewrite (pbind_run _ _ _ 0 s); [by rewrite (drop_ge l j El)|]. prun. rewrite Hsig0. prun. rewrite Hcount. by destruct (Z.leb_spec (zlen l) (Z.of_nat j)); [|lia]. }
  destruct (truthy tid && truthy (Z.of_nat j)) eqn:Eb; [|rewrite (pbind_run _ _ _ 0 s) by done; exact Hwalk].
  apply andb_true_iff in Eb as [Eb1 Eb2]. unfold truthy in Eb1, Eb2. destruct Htid as [|[|Htid]]; [lia..|]. destruct (l !! j) as [[t nr]|] eqn:El; [|done]. injection Htid as ->.
  destruct (Hat t tid eq_refl) as [_ [Hn0 Hr (k & q & Hk & Hks & _ & _ & _ & Hq & Hqt & _ & Hnum)]]. assert (truthy t = true) as Ett by (unfold truthy; lia).
  rewrite (pbind_run _ _ _ t s); [rewrite Ett; by apply (Hfin t tid)|].
  rewrite (pbind_run _ _ _ t s) by (unfold find_task_by_pid_ns; rewrite (pbind_run _ _ _ (ps_numbers s) s) by done; rewrite Hnum; unfold pid_task; prun; by rewrite Hqt).
  rewrite Ett, (pbind_run _ _ _ true s); [done|]. unfold same_thread_group. prun. prun. rewrite Hks, Hsig0. by rewrite Z.eqb_refl.
Qed.

(** ** The directory *)

Definition dots : list (list Z) := [[46]; [46; 46]].
Definition thread_names (l : list (Z * Z)) : list (list Z) := dots ++ (decimal <$> l.*2).

Lemma emit_dots_run j room out self parent :
  let '(ok, c) := dir_emit_dots (Ctx (Z.of_nat j) room out) self parent in
  names c = ((λ e, e.1.1) <$> out) ++ take room (drop j dots) ∧ cx_pos c = Z.of_nat (max j (min (j + room) 2)) ∧ (cx_room c + (max j (min (j + room) 2) - j) = room)%nat ∧ ok = bool_decide (2 ≤ j + room ∨ 2 ≤ j)%nat.
Proof.
  set (d1 := ([46], self, 4) : list Z * Z * Z). set (d2 := ([46; 46], parent, 4) : list Z * Z * Z).
  assert (dir_emit_dots (Ctx 0 0 out) self parent = (false, Ctx 0 0 out)) as E00 by reflexivity. assert (dir_emit_dots (Ctx 0 1 out) self parent = (false, Ctx 1 0 (out ++ [d1]))) as E01 by reflexivity.
  assert (∀ room, dir_emit_dots (Ctx 0 (S (S room)) out) self parent = (true, Ctx 2 room ((out ++ [d1]) ++ [d2]))) as E02 by reflexivity.
  assert (dir_emit_dots (Ctx 1 0 out) self parent = (false, Ctx 1 0 out)) as E10 by reflexivity. assert (∀ room, dir_emit_dots (Ctx 1 (S room) out) self parent = (true, Ctx 2 room (out ++ [d2]))) as E11 by reflexivity.
  destruct j as [|[|j]].
  - destruct room as [|[|room]]; change (Z.of_nat 0) with 0; rewrite ?E00, ?E01, ?E02; unfold names; cbn; rewrite ?fmap_app, ?app_nil_r, <- ?app_assoc, ?take_nil; split_and!; try done; try lia;
      try (symmetry; apply bool_decide_eq_true_2; lia); try (symmetry; apply bool_decide_eq_false_2; lia).
  - destruct room as [|room]; change (Z.of_nat 1) with 1; rewrite ?E10, ?E11; unfold names; cbn; rewrite ?fmap_app, ?app_nil_r, ?take_nil; split_and!; try done; try lia;
      try (symmetry; apply bool_decide_eq_true_2; lia); try (symmetry; apply bool_decide_eq_false_2; lia).
  - unfold dir_emit_dots. cbn [cx_pos]. destruct (Z.eqb_spec (Z.of_nat (S (S j))) 0); [lia|]. cbn [negb cx_pos]. destruct (Z.eqb_spec (Z.of_nat (S (S j))) 1); [lia|].
    rewrite drop_ge by (cbn; lia). rewrite take_nil, app_nil_r. cbn [cx_pos cx_room]. split_and!; [done|lia..|]. rewrite bool_decide_eq_true_2 by lia. done.
Qed.

(** What the open file remembers at position [j]: nothing, or the thread of that position. *)
Definition resumes (l : list (Z * Z)) (j : nat) (v : Z) : Prop := v = 0 ∨ (j ≤ 2)%nat ∨ (snd <$> l !! (j - 2)%nat) = Some v.

Lemma chain_number s leader sig l j t nr : chain s leader sig l → l !! j = Some (t, nr) → 0 < nr < PID_MAX_LIMIT.
Proof. intros Hc Hl. pose proof (chain_drop s leader sig l j Hc) as Hcd. erewrite drop_S in Hcd by exact Hl. destruct Hcd as [[_ Hr _] _]. done. Qed.

Lemma held_size l s : size (ps_tasks (held l s)) = size (ps_tasks s).
Proof. destruct l as [|[t nr] l]; [done|]. cbn. rewrite <- !size_dom. by rewrite dom_alter_L. Qed.

Lemma ring_fuel s leader sig l : ring s leader sig l → (length l ≤ size (ps_tasks s))%nat.
Proof.
  intros [Hc _ Hd _]. rewrite <- (length_fmap fst), <- size_dom, <- (size_list_to_set (C := gset Z) l.*1 Hd). apply subseteq_size. intros t Ht. apply elem_of_list_to_set in Ht. clear Hd.
  induction l as [|[t' nr] l IH]; [by apply elem_of_nil in Ht|]. destruct Hc as [[_ _ (k & p & Hk & _)] Hc]. cbn in Ht. apply elem_of_cons in Ht as [->|Ht]; [by eapply elem_of_dom_2|by apply IH].
Qed.

(** The names that are left after the two dots. *)
Lemma thread_names_take l j room j1 room1 :
  (j1 = max j (min (j + room) 2) → room1 + (j1 - j) = room → 2 ≤ j1 →
  take room (drop j dots) ++ take room1 (decimal <$> (drop (j1 - 2) l).*2) = take room (drop j (thread_names l)))%nat.
Proof.
  intros -> Hroom Hj. unfold thread_names. rewrite !fmap_drop. destruct (decide (2 ≤ j)%nat) as [Hge|Hlt].
  - rewrite (drop_ge dots) by (cbn; lia). rewrite drop_app_ge by (cbn; lia). rewrite take_nil. cbn [length dots app]. f_equal; [lia|]. f_equal. lia.
  - rewrite drop_app_le by (cbn; lia). rewrite take_app_ge by (rewrite length_drop; cbn; lia). rewrite (take_ge (drop j dots)) by (rewrite length_drop; cbn; lia). f_equal. rewrite length_drop. cbn [length dots].
    f_equal; [lia|]. replace (max j (min (j + room) 2) - 2)%nat with 0%nat by lia. done.
Qed.

Lemma tail_drop_comm {A} n (l : list A) : tail (drop n l) = drop n (tail l).
Proof. revert l. induction n as [|n IH]; intros [|x l]; try reflexivity. change (tail (drop n l) = drop (S n) l). rewrite IH. destruct l as [|y l]; [apply drop_nil|done]. Qed.

Lemma task_readdir_run s leader sig l dir i parent_ino v j room :
  fs_ok s → ring s leader sig l → ps_inodes s !! dir = Some i → group_pid s leader sig (in_pid i) → (j ≤ length l + 2)%nat → resumes l j v → 0 ≤ v < 2 ^ 31 →
  ∃ c' v' s', proc_task_readdir dir parent_ino v (Ctx (Z.of_nat j) room []) s = Some ((0, c', v'), s') ∧ fs_step s s' ∧
    names c' = take room (drop j (thread_names l)) ∧ cx_pos c' = Z.of_nat (min (j + room) (length l + 2)) ∧ resumes l (min (j + room) (length l + 2)) v' ∧ 0 ≤ v' < 2 ^ 31.
Proof.
  intros Hok Hring Hi Hgp Hj Hv Hvr. pose proof Hgp as (p & k & Hp & Ht & _). pose proof (ring_leader _ _ _ _ Hring) as [Hnl Hlead].
  unfold proc_task_readdir. rewrite (pbind_run _ _ _ false s) by (unfold proc_inode_is_dead; prun; prun; unfold mret, PM_ret, truthy; do 3 f_equal; lia). prun.
  pose proof (emit_dots_run j room [] (in_ino i) parent_ino) as Hdots. destruct (dir_emit_dots _ _ _) as [ok c]. destruct Hdots as (Hn & Hpos & Hroom & Hok'). case_bool_decide as Hb; subst ok; cbn [negb].
  2:{ exists c, v, s. split; [done|]. split; [reflexivity|]. rewrite Hn, Hpos. split; [|split; [lia|split; [right; left; lia|done]]].
      cbn. destruct j as [|[|j]]; [| |lia]; destruct room as [|[|room]]; cbn; try lia; rewrite ?take_0; done. }
  set (j1 := max j (min (j + room) 2)) in *. assert (2 ≤ j1)%nat as Hj1 by lia. replace (cx_pos c - 2) with (Z.of_nat (j1 - 2)) by lia. rewrite signed_small by lia.
  rewrite (pbind_run _ _ _ _ _ (first_tid_run s leader sig l (in_pid i) (j1 - 2) v Hok Hring Hgp ltac:(lia) ltac:(destruct Hv as [|[|Hv]]; [by left|right; left; lia|]; destruct (decide (j ≤ 2)%nat); [right; left; lia|]; right; right; by replace j1 with j by lia))).
  rewrite (pbind_run _ _ _ (size (ps_tasks (held (drop (j1 - 2) l) s))) (held (drop (j1 - 2) l) s)) by done. pose proof (ring_fuel s leader sig l Hring) as Hfuel.
  destruct (tid_loop_run s leader sig dir c (drop (j1 - 2) l) (S (size (ps_tasks (held (drop (j1 - 2) l) s))))) as (c' & s' & Hr & Hst & Hn' & Hpos').
  { done. } { apply chain_drop, Hring. } { rewrite fmap_drop. pose proof (rg_distinct _ _ _ _ Hring) as Hd. rewrite <- (take_drop (j1 - 2) l.*1) in Hd. apply NoDup_app in Hd as (_ & _ & Hd). exact Hd. }
  { intros Hin. apply Hnl. rewrite tail_drop_comm, fmap_drop in Hin. rewrite <- (take_drop (j1 - 2) (tail l).*1). apply elem_of_app. right. exact Hin. } { done. } { rewrite held_size, length_drop. lia. }
  rewrite (pbind_run _ _ _ _ _ Hr). eexists c', _, s'. split; [reflexivity|]. split; [done|]. split; [rewrite Hn', Hn; apply thread_names_take; lia|]. split; [rewrite Hpos', length_drop; lia|].
  rewrite lookup_drop. replace (j1 - 2 + cx_room c)%nat with (j + room - 2)%nat by lia. destruct (l !! (j + room - 2)%nat) as [[t nr]|] eqn:El; cbn; [|split; [by left|lia]].
  apply lookup_lt_Some in El as Hlt. split; [right; right; replace (min _ _) with (j + room)%nat by lia; by rewrite El|]. pose proof (chain_number s leader sig l _ t nr (rg_chain _ _ _ _ Hring) El). pose proof proc_constants as (_ & _ & _ & HL & _). lia.
Qed.


(** The calls that read the directory, each with the position and the remembered thread that the one before left. *)
Fixpoint read_task_calls (dir parent_ino : Z) (rooms : list nat) (pos v : Z) (s : pstate) : option (list (list Z) * pstate) :=
  match rooms with
  | [] => Some ([], s)
  | room :: rooms =>
    '(_, c, v, s) ← proc_task_readdir dir parent_ino v (Ctx pos room []) s;
    '(out, s) ← read_task_calls dir parent_ino rooms (cx_pos c) v s;
    Some (names c ++ out, s)
  end.

Lemma read_task_calls_run s leader sig l dir i parent_ino rooms j v :
  fs_ok s → ring s leader sig l → ps_inodes s !! dir = Some i → group_pid s leader sig (in_pid i) → (j ≤ length l + 2)%nat → resumes l j v → 0 ≤ v < 2 ^ 31 →
  ∃ s', read_task_calls dir parent_ino rooms (Z.of_nat j) v s = Some (take (sum_list rooms) (drop j (thread_names l)), s') ∧ fs_step s s'.
Proof.
  revert s i j v. induction rooms as [|room rooms IH]; intros s i j v Hok Hring Hi Hgp Hj Hv Hvr; cbn [read_task_calls].
  { exists s. split; [cbn; by rewrite take_0|reflexivity]. }
  destruct (task_readdir_run s leader sig l dir i parent_ino v j room Hok Hring Hi Hgp Hj Hv Hvr) as (c & v1 & s1 & Hr & Hst & Hn & Hpos & Hv1 & Hvr1). rewrite Hr. cbn [mbind option_bind]. rewrite Hpos.
  destruct (fs_inodes _ _ Hst dir i Hi) as (i1 & Hi1 & Ei1). set (j1 := min (j + room) (length l + 2)) in *.
  destruct (IH s1 i1 j1 v1) as (s2 & Hr2 & Hst2); [by eapply fs_step_ok|eapply ring_same; [apply Hst|done]|done| |lia|done..|].
  { destruct Hgp as (p & k & Hp & Ht & Hk & Hrest). exists p, k. rewrite Ei1, (sp_pids _ _ (fs_procs _ _ Hst)), (sp_tasks _ _ (fs_procs _ _ Hst)). done. }
  rewrite Hr2. exists s2. split; [|by etransitivity]. cbn [mbind option_bind]. do 2 f_equal. rewrite Hn.
  assert (length (thread_names l) = length l + 2)%nat as Hlen by (unfold thread_names; rewrite length_app, !length_fmap; cbn; lia).
  assert (drop j1 (thread_names l) = drop room (drop j (thread_names l))) as ->.
  { rewrite drop_drop. destruct (decide (j + room ≤ length l + 2)%nat); [unfold j1; f_equal; lia|]. rewrite !drop_ge by lia. done. }
  apply take_take_drop.
Qed.

(** Reading the directory of the threads of a process in calls of any sizes gives the beginning of the same list, as long as the rooms together: the two dots, then every thread of the group once, from the leader on in
    the order of the ring; the processes are untouched afterwards and no reference to a thread is left. *)
Theorem thread_listing_in_calls s leader sig l dir i parent_ino rooms :
  fs_ok s → ring s leader sig l → ps_inodes s !! dir = Some i → group_pid s leader sig (in_pid i) →
  ∃ s', read_task_calls dir parent_ino rooms 0 0 s = Some (take (sum_list rooms) (thread_names l), s') ∧ fs_ok s' ∧ same_procs s s'.
Proof.
  intros Hok Hring Hi Hgp. destruct (read_task_calls_run s leader sig l dir i parent_ino rooms 0 0 Hok Hring Hi Hgp) as (s' & Hr & Hst); [lia|by left|lia|].
  exists s'. split; [exact Hr|]. split; [by eapply fs_step_ok|apply Hst].
Qed.

(** ** Looking up a thread *)

(** The task with a number. *)
Definition task_with (s : pstate) (n : Z) : option (Z * task_struct) :=
  pid ← ps_numbers s !! n; p ← ps_pids s !! pid; if truthy (pd_task p) then k ← ps_tasks s !! pd_task p; Some (pd_task p, k) else None.

Lemma find_task_run s n : fs_ok s → find_task_by_pid_ns n s = Some (default 0 (fst <$> task_with s n), s) ∧
  (∀ t k, task_with s n = Some (t, k) → t ≠ 0 ∧ ps_tasks s !! t = Some k ∧ ¬ dead s (tk_pid k)).
Proof.
  intros Hok. unfold find_task_by_pid_ns, task_with. rewrite (pbind_run _ _ _ (ps_numbers s) s) by done. destruct (ps_numbers s !! n) as [pid|] eqn:En; [|done]. destruct (fo_numbers s Hok _ _ En) as (_ & Hpid & p & Hp).
  cbn [mbind option_bind]. rewrite Hp. cbn [mbind option_bind]. unfold pid_task. prun. destruct (truthy (pd_task p)) eqn:Et; [|split; [assert (pd_task p = 0) as -> by (unfold truthy in Et; lia); done|done]].
  assert (pd_task p ≠ 0) as Ht by (unfold truthy in Et; lia). destruct (po_pid s (fo_procs s Hok) _ _ Hp Ht) as (k & Hk & E). cbn. rewrite Hk. cbn. split; [done|]. intros t k' [= <- <-]. split; [done|]. split; [done|].
  rewrite E. intros [|(p' & Hp' & Hd)]; [done|]. rewrite Hp in Hp'. congruence.
Qed.

Lemma pinned_fs_ok t s : fs_ok s → fs_ok (pinned t s).
Proof. intros [Hp Hd Hn]. split; [by apply pinned_ok|exact Hd|exact Hn]. Qed.

Lemma task_instantiate_run s dir name t k :
  fs_ok s → ps_tasks s !! t = Some k →
  ∃ e s', proc_task_instantiate dir name t (pinned t s) = Some (e, pinned t s') ∧ fs_step s s' ∧ (e = 0 ∧ cached s' dir name (tk_pid k) Ops_tid ∨ e = - Errno.ENOENT ∧ (no_inode s ∨ dead s (tk_pid k))).
Proof. intros Hok Hk. apply pinned_instantiate; [done..|]. by intros i. Qed.

(** Among the threads of a process a number is found exactly if it is that of a thread of the process: unless there is no memory for the inode the name then leads to an inode of that thread; a
    number of another process, or of none, gives the error ENOENT and changes nothing.  The processes are untouched. *)
Theorem thread_found_in_its_group s dir i p k n :
  fs_ok s → task_inode s dir i p → pd_task p ≠ 0 → ps_tasks s !! pd_task p = Some k → 0 ≤ n < 2 ^ 32 - 1 →
  ∃ r s', proc_task_lookup dir (decimal n) s = Some (r, s') ∧ fs_ok s' ∧ same_procs s s' ∧
    match task_with s n with
    | Some (t, k') => if tk_signal k =? tk_signal k' then r = 0 ∧ cached s' dir (decimal n) (tk_pid k') Ops_tid ∨ r = - Errno.ENOENT ∧ no_inode s else r = - Errno.ENOENT ∧ s' = s
    | None => r = - Errno.ENOENT ∧ s' = s
    end.
Proof.
  intros Hok Hti Ht Hk Hn. set (l := pd_task p) in *. assert (truthy l = true) as El by (unfold truthy; lia). pose proof (proc_task_run s dir i p (fo_procs s Hok) Hti) as Hget. fold l in Hget. rewrite El in Hget.
  unfold proc_task_lookup. rewrite (pbind_run _ _ _ _ _ Hget), El. cbn [negb]. rewrite name_to_int_decimal by lia. destruct (Z.eqb_spec n (2 ^ 32 - 1)); [lia|].
  assert (∀ s', fs_step s s' → put_task_struct l (pinned l s') = Some ((), s')) as Hput.
  { intros s' Hst. assert (ps_tasks s' !! l = Some k) as Hk' by (by rewrite (sp_tasks _ _ (fs_procs _ _ Hst))). apply (put_pinned s' l k Hk'), (po_usage s' (fo_procs s' (fs_step_ok _ _ Hst Hok)) _ _ Hk'). }
  pose proof (find_task_run s n Hok) as [Hfind Htask]. destruct (find_task_run (pinned l s) n (pinned_fs_ok l s Hok)) as [Hfind' Htask'].
  assert (default 0 (fst <$> task_with (pinned l s) n) = default 0 (fst <$> task_with s n)) as Esame.
  { unfold task_with. cbn [ps_numbers ps_pids ps_tasks pinned set_ps_tasks]. destruct (ps_numbers s !! n) as [pid|]; [cbn [mbind option_bind]|done]. destruct (ps_pids s !! pid) as [q|]; [cbn [mbind option_bind]|done]. destruct (truthy (pd_task q)); [|done].
    destruct (decide (pd_task q = l)) as [->|]; [rewrite lookup_alter_eq, Hk; done|by rewrite lookup_alter_ne]. }
  rewrite (pbind_run _ _ _ _ _ Hfind'), Esame. clear Hfind Hfind' Esame Htask'.
  destruct (task_with s n) as [[t k']|].
  2:{ change (truthy _) with false. cbn [negb]. rewrite (pbind_run _ _ _ _ _ (Hput s ltac:(reflexivity))). eexists _, s. split; [reflexivity|]. split; [done|]. split; [reflexivity|done]. }
  destruct (Htask t k' eq_refl) as (Ht' & Hk' & Hlive). change (default 0 (fst <$> Some (t, k'))) with t. assert (truthy t = true) as -> by (unfold truthy; lia). cbn [negb].
  assert (∃ kt, ps_tasks (pinned l s) !! t = Some kt ∧ tk_signal kt = tk_signal k' ∧ tk_pid kt = tk_pid k') as (kt & Hkt & Es & Ep).
  { destruct (decide (t = l)) as [->|]; [exists (pin k'); split; [by apply pinned_lookup|done]|exists k'; split; [cbn; by rewrite lookup_alter_ne|done]]. }
  rewrite (pbind_run _ _ _ _ _ (get_task_run (pinned l s) t kt Hkt)).
  assert (∃ kl, ps_tasks (pinned t (pinned l s)) !! l = Some kl ∧ tk_signal kl = tk_signal k) as (kl & Hkl & Esl).
  { destruct (decide (l = t)) as [->|]; [exists (pin kt); split; [by apply pinned_lookup|by rewrite <- (f_equal tk_signal (inj Some _ _ (eq_trans (eq_sym Hk) Hk'))) in Es]|].
    exists (pin k). split; [cbn; rewrite lookup_alter_ne by done; by rewrite lookup_alter_eq, Hk|done]. }
  pose proof (pinned_lookup (pinned l s) t kt Hkt) as Hkt2.
  rewrite (pbind_run _ _ _ (tk_signal k =? tk_signal k') (pinned t (pinned l s))) by (unfold same_thread_group; prun; prun; rewrite Esl; cbn; by rewrite Es).
  destruct (tk_signal k =? tk_signal k').
  2:{ rewrite (pbind_run _ _ _ (- Errno.ENOENT) (pinned t (pinned l s))) by done. rewrite (pbind_run _ _ _ _ _ (put_pinned (pinned l s) t kt Hkt (po_usage _ (pinned_ok l s (fo_procs s Hok)) _ _ Hkt))), (pbind_run _ _ _ _ _ (Hput s ltac:(reflexivity))).
      eexists _, s. split; [reflexivity|]. split; [done|]. split; [reflexivity|done]. }
  destruct (task_instantiate_run (pinned l s) dir (decimal n) t kt (pinned_fs_ok l s Hok) Hkt) as (e & s1 & Hrun & Hst & He).
  rewrite (pbind_run _ _ _ _ _ Hrun). assert (ps_tasks s1 !! t = Some kt) as Hkt1 by (by rewrite (sp_tasks _ _ (fs_procs _ _ Hst))).
  rewrite (pbind_run _ _ _ _ _ (put_pinned s1 t kt Hkt1 (po_usage _ (pinned_ok l s (fo_procs s Hok)) _ _ Hkt))). destruct (unpin_step l s s1 Hst) as (s2 & -> & Hst2). rewrite (pbind_run _ _ _ _ _ (Hput s2 Hst2)).
  exists e, s2. split; [reflexivity|]. split; [by eapply fs_step_ok|]. split; [apply Hst2|]. rewrite Ep in He. destruct He as [He|[He [Hno|Hd]]]; [by left|by right|by destruct Hlive].
Qed.
End Threads.
