(* ===== verification/ProcFilesProps.v ===== *)
(** * Procfs: what the small files and the links show

    The name of a task round trip, links read only by those who may look into the process, and the layout of the limits. *)
From Stdlib Require Import String.
From stdpp Require Import gmap.
From S2P Require Import Prelude Text ProcState ProcSpec ProcDir ProcFiles.

Section FilesProps.
Context `{ProcKernel} `{!ProcKernelLaws}.

Lemma cstring_length b : (length (cstring b) ≤ length b)%nat.
Proof. induction b as [|c b IH]; [done|]. cbn. destruct (c =? 0); cbn; lia. Qed.

(** A process with its task. *)
Definition task_of (s : pstate) (p : pid_struct) (k : task_struct) : Prop := pd_task p ≠ 0 ∧ ps_tasks s !! pd_task p = Some k.

Lemma task_of_get s ino i p k : procs_ok s → task_inode s ino i p → task_of s p k → get_proc_task ino s = Some (pd_task p, pinned (pd_task p) s).
Proof. intros Hok Hti [Ht _]. rewrite (proc_task_run s ino i p Hok Hti). assert (truthy (pd_task p) = true) as -> by (unfold truthy; lia). done. Qed.

Lemma task_of_put s p k : procs_ok s → task_of s p k → put_task_struct (pd_task p) (pinned (pd_task p) s) = Some ((), s).
Proof. intros Hok [_ Hk]. apply (put_pinned s _ k Hk), (po_usage s Hok _ _ Hk). Qed.

Lemma pinned_other s t t' k : ps_tasks s !! t' = Some k → ∃ k', ps_tasks (pinned t s) !! t' = Some k' ∧ tk_signal k' = tk_signal k.
Proof.
  intros Hk. destruct (decide (t' = t)) as [->|]; [exists (pin k); split; [by apply pinned_lookup|done]|]. exists k. split; [cbn; by rewrite lookup_alter_ne|done].
Qed.

(** ** The name *)

(** The task has another name. *)
Definition renamed (s : pstate) (t : Z) (k : task_struct) (name : list Z) : pstate := set_ps_tasks (<[t := set_tk_comm name k]> (ps_tasks s)) s.

Lemma renamed_ok s t k name : procs_ok s → ps_tasks s !! t = Some k → procs_ok (renamed s t k name).
Proof.
  intros [H1' H2' H3' H4' H5'] Hk. assert (∀ y k', ps_tasks (renamed s t k name) !! y = Some k' → ∃ k0, ps_tasks s !! y = Some k0 ∧ tk_pid k' = tk_pid k0 ∧ tk_usage k' = tk_usage k0 ∧ tk_signal k' = tk_signal k0 ∧ tk_mm k' = tk_mm k0) as Hinv.
  { intros y k' Hy. cbn in Hy. destruct (decide (y = t)) as [->|]; [rewrite lookup_insert_eq in Hy; injection Hy as <-; by exists k|rewrite lookup_insert_ne in Hy by done; by exists k']. }
  split.
  - intros x p Hp Hx. destruct (H1' x p Hp Hx) as (k' & Hk' & E). cbn. destruct (decide (pd_task p = t)) as [E'|]; [|rewrite lookup_insert_ne by done; eauto]. rewrite E' in *. rewrite lookup_insert_eq. eexists. split; [done|]. cbn. congruence.
  - intros y k' Hy Hp. destruct (Hinv y k' Hy) as (k0 & Hk0 & E & _). rewrite E in *. by eapply H2'.
  - intros y k' Hy. destruct (Hinv y k' Hy) as (k0 & Hk0 & _ & -> & _). by eapply H3'.
  - intros y k' Hy. destruct (Hinv y k' Hy) as (k0 & Hk0 & _ & _ & -> & _). by eapply H4'.
  - intros y k' Hy Hm. destruct (Hinv y k' Hy) as (k0 & Hk0 & _ & _ & _ & E). rewrite E in *. by eapply H5'.
Qed.

Lemma comm_show_run s ino i p k : procs_ok s → task_inode s ino i p → task_of s p k → comm_show ino s = Some ((0, tk_comm k ++ [10]), s).
Proof.
  intros Hok Hti Hk. unfold comm_show. rewrite (pbind_run _ _ _ _ _ (task_of_get _ _ _ _ _ Hok Hti Hk)). assert (truthy (pd_task p) = true) as -> by (destruct Hk; unfold truthy; lia). cbn [negb].
  pose proof (pinned_lookup s (pd_task p) k (proj2 Hk)) as Hpk. prun. by rewrite (pbind_run _ _ _ _ _ (task_of_put _ _ _ Hok Hk)).
Qed.

(** A thread of the process sets the name of a task by writing to its [comm]: the file then shows the written text up to its first zero and as long as a name can be,
    and nothing else changes; a caller of another process gets the error EINVAL and changes nothing. *)
Theorem comm_shows_what_was_written s cur ino i p k kc ubuf count :
  procs_ok s → task_inode s ino i p → task_of s p k → ps_tasks s !! cl_task cur = Some kc → 0 ≤ count ≤ zlen ubuf →
  let name := cstring (take (Z.to_nat (Z.min count (TASK_COMM_LEN - 1))) ubuf) in
  if tk_signal kc =? tk_signal k then
    comm_write cur ino ubuf count s = Some (count, renamed s (pd_task p) k name) ∧ comm_show ino (renamed s (pd_task p) k name) = Some ((0, name ++ [10]), renamed s (pd_task p) k name)
  else comm_write cur ino ubuf count s = Some (- Errno.EINVAL, s).
Proof.
  intros Hok Hti Hk Hkc Hcount name. pose proof proc_constants as (_ & HL & _). assert (comm_write cur ino ubuf count s =
    Some (if tk_signal kc =? tk_signal k then (count, renamed s (pd_task p) k name) else (- Errno.EINVAL, s))) as Hw.
  { unfold comm_write. cbv zeta. assert ((if TASK_COMM_LEN - 1 <? count then TASK_COMM_LEN - 1 else count) = Z.min count (TASK_COMM_LEN - 1)) as -> by (destruct (Z.ltb_spec (TASK_COMM_LEN - 1) count); lia).
    unfold copy_from_user. destruct (Z.leb_spec (Z.min count (TASK_COMM_LEN - 1)) (zlen ubuf)); [|lia]. rewrite (pbind_run _ _ _ _ _ (task_of_get _ _ _ _ _ Hok Hti Hk)).
    assert (truthy (pd_task p) = true) as -> by (destruct Hk; unfold truthy; lia). cbn [negb]. pose proof (pinned_lookup s (pd_task p) k (proj2 Hk)) as Hpk. destruct (pinned_other s (pd_task p) _ _ Hkc) as (kc' & Hkc' & Ec).
    rewrite (pbind_run _ _ _ (tk_signal kc =? tk_signal k) (pinned (pd_task p) s)) by (unfold same_thread_group; prun; prun; cbn; by rewrite Ec).
    destruct (tk_signal kc =? tk_signal k); [|rewrite (pbind_run _ _ _ (- Errno.EINVAL) (pinned (pd_task p) s)) by done; by rewrite (pbind_run _ _ _ _ _ (task_of_put _ _ _ Hok Hk))].
    assert (take (Z.to_nat (TASK_COMM_LEN - 1)) (cstring (take (Z.to_nat (Z.min count (TASK_COMM_LEN - 1))) ubuf)) = name) as Hname.
    { apply take_ge. etransitivity; [apply cstring_length|]. rewrite length_take. lia. }
    erewrite (pbind_run _ _ _ count (pinned (pd_task p) (renamed s (pd_task p) k name))).
    - assert (task_of (renamed s (pd_task p) k name) p (set_tk_comm name k)) as Hk' by (split; [apply Hk|cbn; by rewrite lookup_insert_eq]). by rewrite (pbind_run _ _ _ _ _ (task_of_put _ _ _ (renamed_ok s _ k name Hok (proj2 Hk)) Hk')).
    - unfold set_task_comm. rewrite Hname. prun. unfold mret, PM_ret. do 2 f_equal. unfold pinned, renamed, set_ps_tasks. cbn. f_equal. apply map_eq. intros y.
      destruct (decide (y = pd_task p)) as [->|]; [by rewrite lookup_insert_eq, lookup_alter_eq, lookup_insert_eq|by rewrite lookup_insert_ne, !lookup_alter_ne, lookup_insert_ne]. }
  destruct (tk_signal kc =? tk_signal k); [|exact Hw]. split; [exact Hw|]. apply (comm_show_run _ _ i p (set_tk_comm name k)); [by apply renamed_ok, Hk|done|]. split; [apply Hk|cbn; by rewrite lookup_insert_eq].
Qed.

(** ** Links *)

(** Whether the caller may look into the process of an inode. *)
Definition may_look (s : pstate) (cur : caller) (p : pid_struct) : bool :=
  truthy (pd_task p) && match ps_tasks s !! pd_task p with Some k => ptrace_may_access cur k false | None => false end.

Lemma no_task_get s ino i p : procs_ok s → task_inode s ino i p → truthy (pd_task p) = false → get_proc_task ino s = Some (pd_task p, s).
Proof. intros Hok Hti Ht. rewrite (proc_task_run s ino i p Hok Hti). by rewrite Ht. Qed.

Lemma task_of_exists s p : procs_ok s → truthy (pd_task p) = true → (∃ x, ps_pids s !! x = Some p) → ∃ k, task_of s p k.
Proof. intros Hok Ht [x Hp]. assert (pd_task p ≠ 0) by (unfold truthy in Ht; lia). destruct (po_pid s Hok _ _ Hp) as (k & Hk & _); [done|]. by exists k. Qed.

Lemma access_allowed_run s cur ino i p : procs_ok s → task_inode s ino i p → proc_fd_access_allowed cur ino s = Some (may_look s cur p, s).
Proof.
  intros Hok Hti. unfold proc_fd_access_allowed, may_look. destruct (truthy (pd_task p)) eqn:Et; cbn [andb].
  - destruct (task_of_exists s p Hok Et) as [k Hk]; [eexists; apply Hti|]. rewrite (pbind_run _ _ _ _ _ (task_of_get _ _ _ _ _ Hok Hti Hk)), Et. pose proof (pinned_lookup s _ k (proj2 Hk)) as Hpk. prun.
    rewrite (pbind_run _ _ _ _ _ (task_of_put _ _ _ Hok Hk)), (proj2 Hk). unfold pin. by rewrite ptrace_usage.
  - by rewrite (pbind_run _ _ _ _ _ (no_task_get _ _ _ _ Hok Hti Et)), Et.
Qed.

(** A reference more to a path. *)
Definition path_ref (s : pstate) (x : Z) : Z := default 0 (ps_paths s !! x).
Definition with_path (x : Z) (s : pstate) : pstate := set_ps_paths (<[x := path_ref s x + 1]> (ps_paths s)) s.

(** The path a link of a process stands for, if the process has it: its working directory, its root directory, the file of the program it runs. *)
Definition proc_task_of (s : pstate) (p : pid_struct) : option task_struct := if truthy (pd_task p) then ps_tasks s !! pd_task p else None.
Definition cwd_of (s : pstate) (p : pid_struct) : option Z := k ← proc_task_of s p; snd <$> tk_fs k.
Definition root_of (s : pstate) (p : pid_struct) : option Z := k ← proc_task_of s p; fst <$> tk_fs k.
Definition exe_of (s : pstate) (p : pid_struct) : option Z :=
  k ← proc_task_of s p; m ← (if truthy (tk_mm k) then ps_mms s !! tk_mm k else None); if truthy (mm_exe_file m) then Some (mm_exe_file m) else None.

(** What a link gives: the path, that has a reference more, or the error ENOENT. *)
Definition link_given (s : pstate) (o : option Z) (run : option ((Z + Z) * pstate)) : Prop :=
  run = Some match o with Some x => (inr x, with_path x s) | None => (inl (- Errno.ENOENT), s) end.

Lemma proc_task_of_eq s p k : truthy (pd_task p) = true → task_of s p k → proc_task_of s p = Some k.
Proof. unfold proc_task_of. intros -> Hk. apply Hk. Qed.

Lemma cwd_root_run s ino i p : procs_ok s → task_inode s ino i p → link_given s (cwd_of s p) (proc_cwd_link ino s) ∧ link_given s (root_of s p) (proc_root_link ino s).
Proof.
  intros Hok Hti. unfold proc_cwd_link, proc_root_link, get_task_root. destruct (truthy (pd_task p)) eqn:Et.
  2:{ rewrite !(pbind_run _ _ _ _ _ (no_task_get _ _ _ _ Hok Hti Et)), Et. unfold cwd_of, root_of, proc_task_of. rewrite Et. done. }
  destruct (task_of_exists s p Hok Et) as [k Hk]; [eexists; apply Hti|]. rewrite !(pbind_run _ _ _ _ _ (task_of_get _ _ _ _ _ Hok Hti Hk)), Et. pose proof (pinned_lookup s _ k (proj2 Hk)) as Hpk. prun.
  assert (∀ x, put_task_struct (pd_task p) (with_path x (pinned (pd_task p) s)) = Some ((), with_path x s)) as Hput.
  { intros x. change (with_path x (pinned (pd_task p) s)) with (pinned (pd_task p) (with_path x s)). apply (put_pinned _ _ k); [apply Hk|apply (po_usage s Hok _ _ (proj2 Hk))]. }
  unfold cwd_of, root_of, link_given. rewrite (proc_task_of_eq s p k Et Hk). cbn [mbind option_bind].
  cbn [pin set_tk_usage tk_fs]. destruct (tk_fs k) as [[root pwd]|] eqn:Ef; split.
  - rewrite (pbind_run _ _ _ (inr pwd) (with_path pwd (pinned (pd_task p) s))) by done. by rewrite (pbind_run _ _ _ _ _ (Hput pwd)).
  - erewrite pbind_run by (prun; cbn [pin set_tk_usage tk_fs]; rewrite Ef; reflexivity). fold (path_ref (pinned (pd_task p) s) root). by rewrite (pbind_run _ _ _ _ _ (Hput root)).
  - rewrite (pbind_run _ _ _ (inl (- Errno.ENOENT)) (pinned (pd_task p) s)) by done. by rewrite (pbind_run _ _ _ _ _ (task_of_put _ _ _ Hok Hk)).
  - erewrite pbind_run by (prun; cbn [pin set_tk_usage tk_fs]; rewrite Ef; reflexivity). by rewrite (pbind_run _ _ _ _ _ (task_of_put _ _ _ Hok Hk)).
Qed.

Lemma exe_run s ino i p : procs_ok s → task_inode s ino i p → link_given s (exe_of s p) (proc_exe_link ino s).
Proof.
  intros Hok Hti. unfold proc_exe_link. destruct (truthy (pd_task p)) eqn:Et.
  2:{ rewrite (pbind_run _ _ _ _ _ (no_task_get _ _ _ _ Hok Hti Et)), Et. unfold exe_of, proc_task_of. by rewrite Et. }
  destruct (task_of_exists s p Hok Et) as [k Hk]; [eexists; apply Hti|]. rewrite (pbind_run _ _ _ _ _ (task_of_get _ _ _ _ _ Hok Hti Hk)), Et. cbn [negb]. pose proof (pinned_lookup s _ k (proj2 Hk)) as Hpk.
  unfold exe_of, link_given. rewrite (proc_task_of_eq s p k Et Hk). cbn [mbind option_bind]. destruct (truthy (tk_mm k)) eqn:Em.
  - destruct (po_mm s Hok _ _ (proj2 Hk)) as [m Hm]; [unfold truthy in Em; lia|]. assert (ps_mms (pinned (pd_task p) s) !! tk_mm k = Some m) as Hm' by done. set (m1 := set_mm_users (mm_users m + 1) m).
    set (s1 := set_ps_mms (<[tk_mm k := m1]> (ps_mms s)) s). rewrite (pbind_run _ _ _ (tk_mm k) (pinned (pd_task p) s1)); [|unfold get_task_mm; prun; cbn [pin set_tk_usage tk_mm]; rewrite Em; by prun].
    rewrite (pbind_run _ _ _ () s1) by (apply (put_pinned s1 _ k); [apply Hk|apply (po_usage s Hok _ _ (proj2 Hk))]). rewrite Em. cbn [negb]. assert (ps_mms s1 !! tk_mm k = Some m1) as Hm1 by (cbn; by rewrite lookup_insert_eq). prun.
    rewrite (pbind_run _ _ _ () s); [|unfold mmput; rewrite (upd_mm_run _ _ _ _ Hm1); f_equal; f_equal; exact (users_restored s (tk_mm k) m Hm)]. change (mm_exe_file m1) with (mm_exe_file m).
    rewrite Hm. cbn [mbind option_bind]. by destruct (truthy (mm_exe_file m)).
  - rewrite (pbind_run _ _ _ (tk_mm k) (pinned (pd_task p) s)) by (unfold get_task_mm; prun; cbn [pin set_tk_usage tk_mm]; by rewrite Em). rewrite (pbind_run _ _ _ _ _ (task_of_put _ _ _ Hok Hk)), Em. done.
Qed.

(** The inode of one of the links, and what the link stands for. *)
Definition link_of (s : pstate) (p : pid_struct) (ops : node_ops) (o : option Z) : Prop :=
  ops = Ops_entry (bytes_of "cwd") ∧ o = cwd_of s p ∨ ops = Ops_entry (bytes_of "root") ∧ o = root_of s p ∨ ops = Ops_entry (bytes_of "exe") ∧ o = exe_of s p.

Lemma get_link_run s ino i p o : procs_ok s → task_inode s ino i p → link_of s p (in_ops i) o → link_given s o (proc_get_link (in_ops i) ino s).
Proof.
  intros Hok Hti Hops. pose proof (cwd_root_run s ino i p Hok Hti) as [H1' H2']. pose proof (exe_run s ino i p Hok Hti) as H3'. destruct Hops as [[Ho ->]|[[Ho ->]|[Ho ->]]]; rewrite Ho in *; cbn [proc_get_link]; assumption.
Qed.

(** Nothing has changed but that a page was asked for. *)
Definition untouched (s s' : pstate) : Prop := (∃ t paths, s' = set_ps_tick t (set_ps_paths paths s)) ∧ ∀ x, path_ref s' x = path_ref s x.

(** What is read of path [x] with [room] at the caller: the result and the bytes that reach it. *)
Definition path_text (x room buflen : Z) (page : bool) : Z * list Z :=
  if negb page then (- Errno.ENOMEM, [])
  else match d_path x with
       | inl e => (e, [])
       | inr text => let len := Z.min buflen (zlen text) in (if room <? len then - Errno.EFAULT else len, take (Z.to_nat (Z.min room len)) text)
       end.

Lemma do_proc_readlink_run s x room buflen : do_proc_readlink x room buflen s = Some (path_text x room buflen (get_free_page (ps_tick s)), set_ps_tick (S (ps_tick s)) s).
Proof.
  unfold do_proc_readlink, path_text. rewrite (pbind_run _ _ s (ps_tick s) (set_ps_tick (S (ps_tick s)) s)) by done. destruct (get_free_page _); cbn [negb]; [|done].
  destruct (d_path x) as [e|text]; [done|]. cbv zeta. assert ((if buflen <? zlen text then buflen else zlen text) = Z.min buflen (zlen text)) as -> by (destruct (Z.ltb_spec buflen (zlen text)); lia).
  set (len := Z.min buflen _). destruct (Z.ltb_spec room len); [by rewrite (Z.min_l room len) by lia|by rewrite (Z.min_r room len) by lia].
Qed.

(** C31: A link of a process is read only for a caller that may look into the process: any other caller gets the error EACCES and no byte.  The link [cwd] gives the path of the process's working
    directory, [root] that of its root directory and [exe] that of its program's file, or ENOENT if the process has none.  What is read is the beginning of that path's text, as long as the result says and as
    the caller's buffer at most; only when the caller's memory ends before, the result is -EFAULT though the bytes before its end were written.  All references, to the task, its memory and the path, are
    given back. *)
Theorem link_text_only_for_tracers s cur ino i p o room buflen :
  procs_ok s → task_inode s ino i p → link_of s p (in_ops i) o →
  ∃ r out s', proc_pid_readlink cur ino room buflen s = Some ((r, out), s') ∧ untouched s s' ∧
    if may_look s cur p then match o with Some x => (r, out) = path_text x room buflen (get_free_page (ps_tick s)) | None => r = - Errno.ENOENT ∧ out = [] end
    else r = - Errno.EACCES ∧ out = [].
Proof.
  intros Hok Hti Hops. unfold proc_pid_readlink. pose proof Hti as [Hi _]. prun. rewrite (pbind_run _ _ _ _ _ (access_allowed_run s cur ino i p Hok Hti)).
  assert (untouched s s) as Hrefl by (split; [exists (ps_tick s), (ps_paths s); by destruct s|done]). destruct (may_look s cur p); cbn [negb]; [|by exists (- Errno.EACCES), [], s].
  pose proof (get_link_run s ino i p o Hok Hti Hops) as Hr. unfold link_given in Hr. destruct o as [x|]; rewrite (pbind_run _ _ _ _ _ Hr); [|by exists (- Errno.ENOENT), [], s].
  rewrite (pbind_run _ _ _ _ _ (do_proc_readlink_run (with_path x s) x room buflen)). change (ps_tick (with_path x s)) with (ps_tick s).
  destruct (path_text x room buflen _) as [r out]. exists r, out. eexists. split; [reflexivity|]. split; [|done].
  split; [by eexists (S (ps_tick s)), _|]. intros y. unfold path_ref. cbn. rewrite insert_insert_eq, lookup_insert_eq.
  destruct (decide (y = x)) as [->|]; [rewrite lookup_insert_eq; cbn; unfold path_ref; lia|by rewrite lookup_insert_ne].
Qed.

(** ** Files that show one thing *)

Lemma single_show_run s ino i p k show ret s' :
  procs_ok s → task_inode s ino i p → task_of s p k → show (pd_task p) (pinned (pd_task p) s) = Some (ret, pinned (pd_task p) s') → ps_tasks s' = ps_tasks s →
  proc_single_show show ino s = Some (ret, s').
Proof.
  intros Hok Hti Hk Hshow Et. pose proof (task_of_get _ _ _ _ _ Hok Hti Hk) as Hget. unfold get_proc_task in Hget. unfold proc_single_show. pose proof Hti as [Hi _]. rewrite (pbind_run _ _ _ i s) in Hget by (by apply inode_at_run). prun.
  rewrite (pbind_run _ _ _ _ _ Hget). assert (truthy (pd_task p) = true) as -> by (destruct Hk; unfold truthy; lia). cbn [negb]. rewrite (pbind_run _ _ _ _ _ Hshow).
  rewrite (pbind_run _ _ _ () s'); [done|]. apply (put_pinned s' _ k); [rewrite Et; apply Hk|apply (po_usage s Hok _ _ (proj2 Hk))].
Qed.

(** What a process does at the moment, its personality and its system call, is shown only to a caller that may attach to it: any other gets an error and no text. *)
Theorem trace_files_need_attach s cur ino i p k show :
  procs_ok s → task_inode s ino i p → task_of s p k → ptrace_may_access cur k true = false → show = proc_pid_personality cur ∨ show = proc_pid_syscall cur →
  ∃ r s', proc_single_show show ino s = Some ((r, []), s') ∧ r < 0 ∧ ∃ t, s' = set_ps_tick t s.
Proof.
  intros Hok Hti Hk Hno Hshow. pose proof (pinned_lookup s _ k (proj2 Hk)) as Hpk. set (s1 := set_ps_tick (S (ps_tick s)) s). set (r := if truthy (mutex_lock_killable (ps_tick s)) then mutex_lock_killable (ps_tick s) else - Errno.EPERM).
  assert (lock_trace cur (pd_task p) (pinned (pd_task p) s) = Some (r, pinned (pd_task p) s1)) as Hlock.
  { unfold lock_trace. prun. rewrite (pbind_run _ _ _ (ps_tick s) (pinned (pd_task p) s1)) by done. unfold pin. by rewrite ptrace_usage, Hno. }
  assert (r < 0) as Hr by (unfold r; pose proof (mutex_lock_error (ps_tick s)); destruct (truthy _) eqn:E; unfold truthy, Errno.EPERM in *; lia). assert (truthy r = true) as Etr by (unfold truthy; lia).
  exists r, s1. split; [|split; [done|by eexists]]. apply (single_show_run s ino i p k); [done..| |done].
  destruct Hshow as [-> | ->]; [unfold proc_pid_personality|unfold proc_pid_syscall]; rewrite (pbind_run _ _ _ _ _ Hlock); by rewrite Etr.
Qed.

(** *** Limits *)

Lemma pad_right_length w l : (length l ≤ w)%nat → length (pad_right w l) = w.
Proof. intros Hl. unfold pad_right. rewrite length_app, length_replicate. lia. Qed.

Lemma limit_text_length v : 0 ≤ v < 2 ^ 32 → length (limit_text v) = 21%nat.
Proof.
  intros Hv. unfold limit_text. rewrite length_app, pad_right_length; [done|]. destruct (v =? RLIM_INFINITY); [by vm_compute; lia|]. etransitivity; [apply (decimal_length v 9)|]; [|lia]. cbn. lia.
Qed.

(** The limits of a process are in columns: every line with a unit is as long as the heading, and one without a unit ends where the unit would begin. *)
Theorem limit_lines_aligned row lim :
  row ∈ lnames → 0 ≤ lim.1 < 2 ^ 32 → 0 ≤ lim.2 < 2 ^ 32 →
  length (limit_line row lim) = (length limits_head - if row.2 is Some _ then 0 else 10)%nat.
Proof.
  intros Hrow H1' H2'. assert (forallb (λ r : list Z * option (list Z), (length r.1 <=? 25)%nat && match r.2 with Some u => (length u <=? 10)%nat | None => true end) lnames = true) as Hall by (by vm_compute).
  rewrite forallb_forall in Hall. apply list_elem_of_In, Hall, andb_true_iff in Hrow as [Hn%Nat.leb_le Hu].
  unfold limit_line. rewrite !length_app, pad_right_length, !limit_text_length by done. destruct row.2 as [u|]; [rewrite pad_right_length by (by apply Nat.leb_le)|]; done.
Qed.

End FilesProps.
