(* ===== verification/ProcMapsProps.v ===== *)
(** * Procfs: names and listing of mapped files

    A name of [map_files] is read back as the addresses it was printed from and always fits its array; the directory lists the mapped files in order, as many as there is room for,
    and a listed name leads to the file. *)
From stdpp Require Import sorting gmap.
From S2P Require Import Prelude Text ProcState ProcSpec ProcDir ProcFiles ProcMaps ProcDirProps ProcFilesProps.

(** ** Hexadecimal names *)

Lemma hex_not_space c : is_hex c → isspace c = false.
Proof.
  intros (d & Hd & _). unfold digit_val, isdigit in Hd. unfold isspace.
  destruct (Z.leb_spec 48 c), (Z.leb_spec c 57), (Z.leb_spec 97 c), (Z.leb_spec c 102), (Z.leb_spec 65 c), (Z.leb_spec c 70); cbn in Hd; try done; lia.
Qed.

(** A printed address is read back, whatever follows it that is no digit and no letter x. *)
Lemma scan_lx_printed n rest :
  0 ≤ n < 2 ^ 32 → stops rest → (∀ c l, rest = c :: l → is_x c = false) → scan_lx (hexadecimal n ++ rest) = Some (n, rest).
Proof.
  intros Hn Hr Hx. pose proof (hexadecimal_hex n ltac:(lia)) as Hh. destruct (hexadecimal_cons n) as (c & l & E). unfold scan_lx.
  assert (skip_spaces (hexadecimal n ++ rest) = hexadecimal n ++ rest) as ->.
  { rewrite E in *. apply Forall_cons in Hh as [Hc _]. apply hex_not_space in Hc. cbn. by rewrite Hc. }
  assert (simple_strtoull (hexadecimal n ++ rest) 16 = (n, rest)) as ->.
  { unfold simple_strtoull, fixup_radix. assert (∀ s, (∀ z x s', s = z :: x :: s' → is_x x = false) →
      match s with z :: x :: s' => if (16 =? 16) && (z =? 48) && is_x x then s' else s | _ => s end = s) as Hpre.
    { intros [|z [|x s]] Hs; [done..|]. by rewrite (Hs _ _ _ eq_refl), andb_false_r. }
    cbv zeta. change (16 =? 0) with false. cbv iota. rewrite Hpre; [by apply parse_hexadecimal; [lia|]|].
    intros z x s'. rewrite E in *. destruct l as [|x' l]; cbn; [intros [= _ ->]; by eapply Hx|]. intros [= _ -> _].
    apply Forall_cons in Hh as [_ Hh]. apply Forall_cons in Hh as [Hx' _]. by apply hex_not_x. }
  rewrite E in *. apply Forall_cons in Hh as [(d & Hd & _) _]. cbn. rewrite Hd. by rewrite wrap_small.
Qed.

(** The name of a mapping is read back as its two addresses, and with its final zero it fits the array of 18 bytes. *)
Theorem map_name_roundtrip start stop :
  0 ≤ start < 2 ^ 32 → 0 ≤ stop < 2 ^ 32 → dname_to_vma_addr (map_text start stop) = Some (start, stop) ∧ zlen (map_text start stop) ≤ 17.
Proof.
  intros Hs He. split.
  - unfold dname_to_vma_addr, map_text. rewrite scan_lx_printed; [|done|done|by intros c l [= <- _]]. cbn [app mbind option_bind]. change (45 =? 45) with true. cbv iota.
    rewrite <- (app_nil_r (hexadecimal stop)), scan_lx_printed by done. done.
  - unfold map_text, hexadecimal. rewrite !length_app. cbn [length].
    pose proof (hexdigits_length (S (Z.to_nat (Z.log2 start))) start 7 ltac:(cbn; lia)). pose proof (hexdigits_length (S (Z.to_nat (Z.log2 stop))) stop 7 ltac:(cbn; lia)). lia.
Qed.

(** ** Mappings *)

(** Mappings are in order and apart, as the kernel keeps them. *)
Definition mmap_ok (mmap : list vm_area_struct) : Prop :=
  Forall (λ v, 0 ≤ vm_start v < vm_end v ∧ vm_end v < 2 ^ 32) mmap ∧ StronglySorted (λ v w, vm_end v ≤ vm_start w) mmap.

Lemma find_exact_there mmap v : mmap_ok mmap → v ∈ mmap → find_exact_vma mmap (vm_start v) (vm_end v) = Some v.
Proof.
  intros [Hb Hs]. unfold find_exact_vma. induction mmap as [|w mmap IH]; intros Hv; [by apply elem_of_nil in Hv|].
  apply Forall_cons in Hb as [Hw Hb]. apply StronglySorted_inv in Hs as [Hs Hall]. apply elem_of_cons in Hv as [->|Hv]; cbn [list_find].
  - rewrite decide_True by lia. by rewrite !Z.eqb_refl.
  - rewrite Forall_forall in Hall. specialize (Hall v Hv). rewrite decide_False by lia. specialize (IH Hb Hs Hv).
    destruct (list_find (λ v0, vm_start v < vm_end v0) mmap) as [[ix x]|]; [exact IH|done].
Qed.

(** The mapped files with their names and modes, in order. *)
Definition file_infos (mmap : list vm_area_struct) : list map_files_info :=
  omap (λ v, match vm_file v with Some (_, mode) => Some (info_of mode (vm_start v) (vm_end v)) | None => None end) mmap.
Definition file_names (mmap : list vm_area_struct) : list (list Z) :=
  omap (λ v, match vm_file v with Some _ => Some (map_text (vm_start v) (vm_end v)) | None => None end) mmap.

Lemma collect_spec mmap : ∀ pos at_pos, collect_files pos at_pos mmap = drop (Z.to_nat (at_pos - pos)) (file_infos mmap).
Proof.
  induction mmap as [|v mmap IH]; intros pos at_pos; cbn [collect_files file_infos omap list_omap]; [by rewrite drop_nil|].
  destruct (vm_file v) as [[path mode]|]; [|apply IH]. rewrite IH. fold (file_infos mmap). destruct (Z.leb_spec (pos + 1) at_pos).
  - replace (Z.to_nat (at_pos - pos)) with (S (Z.to_nat (at_pos - (pos + 1)))) by lia. done.
  - replace (Z.to_nat (at_pos - pos)) with O by lia. replace (Z.to_nat (at_pos - (pos + 1))) with O by lia. done.
Qed.

Lemma count_spec mmap : ∀ pos at_pos, count_files pos at_pos mmap = length (collect_files pos at_pos mmap).
Proof.
  induction mmap as [|v mmap IH]; intros pos at_pos; cbn [collect_files count_files]; [done|].
  destruct (vm_file v) as [[path mode]|]; [|apply IH]. rewrite length_app, IH.
  destruct (Z.leb_spec (pos + 1) at_pos), (Z.ltb_spec at_pos (pos + 1)); try lia; done.
Qed.

(** The text of a name as it is taken from its array. *)
Definition info_text (p : map_files_info) : option (list Z) := mem_read (mi_name p) 0 (mi_len p).

Lemma file_texts mmap : mmap_ok mmap → Forall2 (λ p n, info_text p = Some n) (file_infos mmap) (file_names mmap).
Proof.
  intros [Hb _]. induction Hb as [|v mmap Hv _ IH]; [constructor|]. cbn. destruct (vm_file v) as [[path mode]|]; [|exact IH].
  constructor; [|exact IH]. unfold info_text, info_of. cbn [mi_name mi_len]. destruct (map_name_roundtrip (vm_start v) (vm_end v)) as [_ Hl]; [lia|lia|].
  rewrite (take_ge _ 17) by lia. unfold mem_read, in_block. rewrite length_app. cbn [length].
  assert ((0 <=? 0) && (0 <=? zlen (map_text (vm_start v) (vm_end v))) &&
    (0 + zlen (map_text (vm_start v) (vm_end v)) <=? Z.of_nat (length (map_text (vm_start v) (vm_end v)) + 1)) = true) as -> by lia.
  rewrite drop_0, Nat2Z.id, take_app_le, take_ge by lia. done.
Qed.

Section MapsProps.
Context `{ProcKernel} `{!ProcKernelLaws} `{MapsKernel}.

(** ** Inodes of mapped files *)

Lemma map_instantiate_makes s dir name t k mode :
  ps_tasks s !! t = Some k → makes dir name (tk_pid k) Ops_map (proc_map_files_instantiate dir name t mode) s.
Proof.
  intros Hk. unfold proc_map_files_instantiate. destruct (make_inode_run s t k Hk) as (x & s1 & Hr & Hst & Hdc & Hx & Hx0). unfold makes. rewrite (pbind_run _ _ _ _ _ Hr).
  destruct (truthy x) eqn:Ex; cbn [negb].
  2:{ eexists _, s1. split; [done|]. split; [done|]. right. split; [done|]. destruct Hx0 as [|Hp0]; [unfold truthy in Ex; lia|by left|right; by left]. }
  destruct Hx as (Hnew & i & Hi & Hip & Hpid0); [unfold truthy in Ex; lia|]. set (f := λ i0 : inode, set_in_ops Ops_map (set_in_mode (map_file_mode mode) i0)).
  rewrite (pbind_run _ _ _ _ _ (upd_inode_run x f i s1 Hi)). set (s2 := set_ps_inodes _ s1).
  pose proof (upd_inode_step s1 x f i Hi eq_refl) as Hst2. set (s3 := set_ps_dcache (<[(dir, name) := x]> (ps_dcache s2)) s2). rewrite (pbind_run _ _ _ () s3) by done.
  assert (ps_inodes s3 !! x = Some (f i)) as Hi3 by (cbn; by rewrite lookup_insert_eq).
  exists 0, s3. split; [done|]. split; [|left; split; [done|]; exists x, (f i); split; [cbn; by rewrite lookup_insert_eq|by rewrite Hi3]].
  etransitivity; [exact Hst|]. etransitivity; [exact Hst2|]. split; [by destruct s1| |intros y j Hy; by exists j]. intros Hd key y Hy. cbn in Hy.
  destruct (decide (key = (dir, name))) as [->|]; [rewrite lookup_insert_eq in Hy; injection Hy as <-; by rewrite Hi3|]. rewrite lookup_insert_ne in Hy by done. by eapply Hd.
Qed.

(** ** An address space that is held *)

Definition held (mm : Z) (m : mm_struct) (s : pstate) : pstate := set_ps_mms (<[mm := set_mm_users (mm_users m + 1) m]> (ps_mms s)) s.

Lemma held_ok mm m s : ps_mms s !! mm = Some m → fs_ok s → fs_ok (held mm m s).
Proof.
  intros Hm [[H1' H2' H3' H4' H5'] Hd Hn]. split; [|done|done]. split; [done..|]. intros t k Hk Hmm. cbn. destruct (decide (tk_mm k = mm)) as [->|]; [by rewrite lookup_insert_eq|].
  rewrite lookup_insert_ne by done. by eapply H5'.
Qed.

(** Work on inodes while it is held is work on inodes, and the user can be given back. *)
Lemma unhold_step mm m s s' :
  ps_mms s !! mm = Some m → fs_step (held mm m s) s' → ∃ s1, s' = held mm m s1 ∧ fs_step s s1 ∧ ps_mms s1 !! mm = Some m.
Proof.
  intros Hm [[Ep En Et Es Em] Hd Hi]. exists (set_ps_mms (ps_mms s) s'). split; [|split; [|done]].
  - destruct s'. unfold held, set_ps_mms in *. cbn in *. by rewrite Em.
  - split; [by split|exact Hd|exact Hi].
Qed.

Lemma mmput_held mm m s : ps_mms s !! mm = Some m → mmput mm (held mm m s) = Some ((), s).
Proof.
  intros Hm. unfold mmput. rewrite (upd_mm_run _ _ (set_mm_users (mm_users m + 1) m)) by (cbn; by rewrite lookup_insert_eq).
  f_equal. f_equal. exact (users_restored s mm m Hm).
Qed.

Lemma get_mm_held s t k m : ps_tasks s !! t = Some k → tk_mm k ≠ 0 → ps_mms s !! tk_mm k = Some m → get_task_mm t s = Some (tk_mm k, held (tk_mm k) m s).
Proof.
  intros Hk Hmm Hm. unfold get_task_mm. prun. assert (truthy (tk_mm k) = true) as -> by (unfold truthy; lia). by prun.
Qed.

(** ** Listing *)

Lemma map_fill_run dir t k infos texts : Forall2 (λ p n, info_text p = Some n) infos texts → ∀ n i s c,
  fs_ok s → ps_tasks s !! t = Some k → (i + n = length infos)%nat →
  ∃ c' s', map_fill n i dir t infos c (pinned t s) = Some (c', pinned t s') ∧ fs_step s s' ∧
    names c' = names c ++ take (cx_room c) (drop i texts) ∧ cx_pos c' = cx_pos c + Z.of_nat (min (cx_room c) n).
Proof.
  intros Htx. pose proof (Forall2_length _ _ _ Htx) as Hlen. induction n as [|n IH]; intros i s c Hok Hk Hi; cbn [map_fill].
  { exists c, s. split; [done|]. split; [reflexivity|]. rewrite drop_ge, take_nil, app_nil_r by lia. split; [done|lia]. }
  destruct (lookup_lt_is_Some_2 infos i) as [p Hp]; [lia|]. destruct (Forall2_lookup_l _ _ _ _ _ Htx Hp) as (name & Hname & Htext).
  rewrite (pbind_run _ _ _ p (pinned t s)) by (by rewrite Hp). rewrite (pbind_run _ _ _ name (pinned t s)) by (unfold info_text in Htext; by rewrite Htext).
  destruct (fill_cache_run (pinned t s) dir c name (tk_pid (pin k)) Ops_map (proc_map_files_instantiate dir name t (mi_mode p))) as (ino & type & s' & Hr & Hst).
  { exact (fo_dcache s Hok). }
  { intros s' Hst. apply map_instantiate_makes. rewrite (sp_tasks _ _ (fs_procs _ _ Hst)). by apply pinned_lookup. }
  destruct (unpin_step t s s' Hst) as (s1 & -> & Hst1). rewrite (pbind_run _ _ _ _ _ Hr). unfold dir_emit. destruct (cx_room c) as [|room] eqn:Er.
  { exists c, s1. split; [done|]. split; [done|]. rewrite app_nil_r. split; [done|cbn; lia]. }
  destruct (IH (S i) s1 (set_cx_pos (cx_pos c + 1) (Ctx (cx_pos c) room (cx_out c ++ [(name, ino, type)])))) as (c' & s2 & Hr2 & Hst2 & Hn & Hpos);
    [by eapply fs_step_ok|by rewrite (sp_tasks _ _ (fs_procs _ _ Hst1))|lia|].
  exists c', s2. split; [exact Hr2|]. split; [by etransitivity|]. rewrite Hn, Hpos. cbn. unfold names. cbn. rewrite fmap_app, <- app_assoc.
  rewrite (drop_S _ _ _ Hname). split; [done|lia].
Qed.

Lemma dots_done pos room self parent : 2 ≤ pos → dir_emit_dots (Ctx pos room []) self parent = (true, Ctx pos room []).
Proof. intros Hp. unfold dir_emit_dots. cbn. destruct (Z.eqb_spec pos 0); [lia|]. cbn. by destruct (Z.eqb_spec pos 1); [lia|]. Qed.

(** A process with an address space whose mappings are [mmap], looked at by a caller that may trace it. *)
Record mapped_process (s : pstate) (cur : caller) (dir : Z) (i : inode) (p : pid_struct) (k : task_struct) (m : mm_struct) (mmap : list vm_area_struct) : Prop := {
  mp_fs : fs_ok s;
  mp_inode : task_inode s dir i p;
  mp_task : task_of s p k;
  mp_pid : in_pid i ≠ 0;
  mp_mm : tk_mm k ≠ 0 ∧ ps_mms s !! tk_mm k = Some m;
  mp_trace : ptrace_may_access cur k false = true;
  mp_mmap t : mm_mmap (tk_mm k) t = mmap;
  mp_mmap_ok : mmap_ok mmap }.

Lemma tick_step t s : fs_step s (set_ps_tick t s).
Proof. split; [by destruct s|done|]. intros x i Hi. by exists i. Qed.

(** The directory of mapped files lists them in the order of their addresses, from the position of the call on and as many as there is room for, and the position behind is that of the first that
    was not listed, so that calls of any sizes list every file once; only a caller with CAP_SYS_ADMIN gets anything.  No reference to the task or its memory is left. *)
Theorem map_files_listing s cur dir i p k m mmap parent_ino j room :
  mapped_process s cur dir i p k m mmap → (∀ t, flex_array_alloc t = true) → (j ≤ length (file_names mmap))%nat →
  (∃ c' s', proc_map_files_readdir cur true dir parent_ino (Ctx (Z.of_nat j + 2) room []) s = Some ((0, c'), s') ∧ fs_ok s' ∧ same_procs s s' ∧
     names c' = take room (drop j (file_names mmap)) ∧ cx_pos c' = 2 + Z.of_nat (min (j + room) (length (file_names mmap)))) ∧
  (∀ c, proc_map_files_readdir cur false dir parent_ino c s = Some ((- Errno.EPERM, c), s)).
Proof.
  intros [Hok Hti Htk Hpid [Hmm Hm] Htr Hmap Hmok] Hflex Hj. split; [|done]. pose proof Hti as [Hi _]. pose proof (fo_procs s Hok) as Hpok. set (t := pd_task p) in *.
  assert (truthy t = true) as Et by (destruct Htk; unfold truthy; lia). assert (truthy (tk_mm k) = true) as Em by (unfold truthy; lia).
  unfold proc_map_files_readdir. cbn [negb]. rewrite (pbind_run _ _ _ _ _ (task_of_get _ _ _ _ _ Hpok Hti Htk)). fold t. rewrite Et. cbn [negb].
  pose proof (pinned_lookup s t k (proj2 Htk)) as Hpk. rewrite (pbind_run _ _ _ _ _ (task_at_run _ _ _ Hpk)). cbv zeta. unfold pin at 1. rewrite ptrace_usage, Htr. cbn [negb].
  rewrite (pbind_run _ _ _ i (pinned t s)) by (apply inode_at_run; exact Hi). rewrite dots_done by lia. cbn [negb].
  rewrite (pbind_run _ _ _ _ _ (get_mm_held (pinned t s) t (pin k) m Hpk Hmm Hm)). change (tk_mm (pin k)) with (tk_mm k). rewrite Em. cbn [negb].
  set (s1 := set_ps_tick (2 + ps_tick s) s). unfold read_mmap.
  erewrite pbind_run by reflexivity. rewrite Hmap. cbn [cx_pos]. erewrite pbind_run by reflexivity. rewrite Hflex, andb_false_r.
  change (set_ps_tick _ _) with (pinned t (held (tk_mm k) m s1)).
  rewrite count_spec, collect_spec. replace (Z.to_nat (Z.of_nat j + 2 - 2)) with j by lia. set (infos := drop j (file_infos mmap)).
  rewrite (pbind_run _ _ _ infos (pinned t (held (tk_mm k) m s1))) by (unfold put_infos; by rewrite Nat.leb_refl).
  pose proof (file_texts mmap Hmok) as Hft. pose proof (Forall2_length _ _ _ Hft) as Hlen.
  assert (fs_ok (held (tk_mm k) m s1)) as Hok1 by (apply held_ok; [exact Hm|]; eapply fs_step_ok; [apply tick_step|exact Hok]).
  destruct (map_fill_run dir t k infos (drop j (file_names mmap)) (Forall2_drop _ _ _ _ Hft) (length infos) 0 (held (tk_mm k) m s1) (Ctx (Z.of_nat j + 2) room []) Hok1 (proj2 Htk) eq_refl)
    as (c' & s2 & Hr & Hst & Hn & Hpos).
  rewrite (pbind_run _ _ _ _ _ Hr). destruct (unhold_step (tk_mm k) m s1 s2 Hm Hst) as (s3 & -> & Hst3 & Hm3).
  change (pinned t (held (tk_mm k) m s3)) with (held (tk_mm k) m (pinned t s3)).
  rewrite (pbind_run _ _ _ _ _ (mmput_held (tk_mm k) m (pinned t s3) Hm3)).
  assert (fs_step s s3) as Hst' by (etransitivity; [apply tick_step|exact Hst3]). pose proof (fs_step_ok _ _ Hst' Hok) as Hok3.
  assert (ps_tasks s3 !! t = Some k) as Hk3 by (rewrite (sp_tasks _ _ (fs_procs _ _ Hst')); apply Htk).
  rewrite (pbind_run _ _ _ _ _ (put_pinned s3 t k Hk3 (po_usage s3 (fo_procs s3 Hok3) _ _ Hk3))). exists c', s3. split; [reflexivity|]. split; [done|]. split; [apply Hst'|].
  rewrite Hn, Hpos. cbn. rewrite drop_0. split; [done|]. unfold infos. rewrite length_drop. lia.
Qed.

Lemma listed_name mmap v path mode :
  mmap_ok mmap → v ∈ mmap → vm_file v = Some (path, mode) →
  dname_to_vma_addr (map_text (vm_start v) (vm_end v)) = Some (vm_start v, vm_end v) ∧
  find_exact_vma mmap (vm_start v) (vm_end v) ≫= vm_file = Some (path, mode).
Proof.
  intros Hok Hv Hf. pose proof Hok as [Hb _]. rewrite Forall_forall in Hb. specialize (Hb v Hv).
  destruct (map_name_roundtrip (vm_start v) (vm_end v)) as [Hn _]; [lia|lia|]. split; [done|]. by rewrite find_exact_there.
Qed.

(** C33: A listed name can be looked up and its link followed: unless there is no memory for the inode, the name leads to an inode of the process whose link is the path of the mapped file, which
    has one reference more; the processes and all other references are as before.  Without CAP_SYS_ADMIN the lookup gives EPERM. *)
Theorem map_file_found s cur dir i p k m mmap v path mode :
  mapped_process s cur dir i p k m mmap → v ∈ mmap → vm_file v = Some (path, mode) →
  let name := map_text (vm_start v) (vm_end v) in
  name ∈ file_names mmap ∧
  (∃ r s', proc_map_files_lookup cur true dir name s = Some (r, s') ∧ fs_ok s' ∧ same_procs s s' ∧
     (r = 0 ∧ cached s' dir name (in_pid i) Ops_map ∨ r = - Errno.ENOENT ∧ ∃ t, new_inode (dom (ps_inodes s)) t = None)) ∧
  (∀ ino i', task_inode s ino i' p → proc_map_files_get_link ino name s = Some (inr path, with_path path (set_ps_tick (S (ps_tick s)) s))) ∧
  proc_map_files_lookup cur false dir name s = Some (- Errno.EPERM, s).
Proof.
  intros [Hok Hti Htk Hpid [Hmm Hm] Htr Hmap Hmok] Hv Hf name. destruct (listed_name mmap v path mode Hmok Hv Hf) as [Hname Hfind]. fold name in Hname.
  pose proof (fo_procs s Hok) as Hpok. set (t := pd_task p) in *. assert (truthy t = true) as Et by (destruct Htk; unfold truthy; lia).
  assert (truthy (tk_mm k) = true) as Em by (unfold truthy; lia). set (s1 := set_ps_tick (S (ps_tick s)) s). pose proof (pinned_lookup s t k (proj2 Htk)) as Hpk.
  split; [apply list_elem_of_omap; exists v; split; [done|]; by rewrite Hf|]. split; [|split; [|done]].
  - unfold proc_map_files_lookup. cbn [negb]. rewrite (pbind_run _ _ _ _ _ (task_of_get _ _ _ _ _ Hpok Hti Htk)). fold t. rewrite Et. cbn [negb].
    rewrite (pbind_run _ _ _ _ _ (task_at_run _ _ _ Hpk)). cbv zeta. unfold pin at 1. rewrite ptrace_usage, Htr, Hname. cbn [negb].
    rewrite (pbind_run _ _ _ _ _ (get_mm_held (pinned t s) t (pin k) m Hpk Hmm Hm)). change (tk_mm (pin k)) with (tk_mm k). rewrite Em. cbn [negb]. unfold read_mmap.
    erewrite pbind_run by reflexivity. rewrite Hmap, Hfind. change (set_ps_tick _ _) with (pinned t (held (tk_mm k) m s1)).
    destruct (map_instantiate_makes (pinned t (held (tk_mm k) m s1)) dir name t (pin k) mode Hpk) as (r & s2 & Hr & Hst & He). rewrite (pbind_run _ _ _ _ _ Hr).
    destruct (unpin_step t _ _ Hst) as (s3 & -> & Hst3). destruct (unhold_step (tk_mm k) m s1 s3 Hm Hst3) as (s4 & -> & Hst4 & Hm4).
    change (pinned t (held (tk_mm k) m s4)) with (held (tk_mm k) m (pinned t s4)). rewrite (pbind_run _ _ _ _ _ (mmput_held (tk_mm k) m (pinned t s4) Hm4)).
    assert (fs_step s s4) as Hst' by (etransitivity; [apply tick_step|exact Hst4]). pose proof (fs_step_ok _ _ Hst' Hok) as Hok4.
    assert (ps_tasks s4 !! t = Some k) as Hk4 by (rewrite (sp_tasks _ _ (fs_procs _ _ Hst')); apply Htk).
    rewrite (pbind_run _ _ _ _ _ (put_pinned s4 t k Hk4 (po_usage s4 (fo_procs s4 Hok4) _ _ Hk4))). exists r, s4. split; [reflexivity|]. split; [done|]. split; [apply Hst'|].
    destruct (po_pid s Hpok _ _ (proj2 Hti) (proj1 Htk)) as (k0 & Hk0 & E0). assert (k0 = k) as -> by (destruct Htk as [_ Hk]; congruence).
    change (tk_pid (pin k)) with (tk_pid k) in He. rewrite E0 in He. destruct He as [He|[-> [Hno|[Hd|(p' & Hp' & Hd)]]]]; [by left|right; split; [done|]; by eexists|done|].
    change (ps_pids s !! in_pid i = Some p') in Hp'. rewrite (proj2 Hti) in Hp'. injection Hp' as <-. by destruct (proj1 Htk).
  - intros ino i' Hti'. unfold proc_map_files_get_link. rewrite (pbind_run _ _ _ _ _ (task_of_get _ _ _ _ _ Hpok Hti' Htk)). fold t. rewrite Et. cbn [negb].
    rewrite (pbind_run _ _ _ _ _ (get_mm_held (pinned t s) t (pin k) m Hpk Hmm Hm)). change (tk_mm (pin k)) with (tk_mm k).
    rewrite (pbind_run _ _ _ () (held (tk_mm k) m s)) by (apply (put_pinned (held (tk_mm k) m s) t k); [apply Htk|apply (po_usage s Hpok _ _ (proj2 Htk))]).
    rewrite Em, Hname. cbn [negb]. rewrite (pbind_run _ _ _ (inr path) (held (tk_mm k) m (with_path path s1))).
    + exact (pbind_run _ _ _ _ _ (mmput_held (tk_mm k) m (with_path path s1) Hm)).
    + unfold read_mmap. erewrite pbind_run by reflexivity. rewrite Hmap, Hfind. reflexivity.
Qed.

End MapsProps.
