(* ===== verification/ProcOptionsProps.v ===== *)
(** * Procfs: theorems on the files of other configurations

    What is written to the core dump filter is what it shows; the io counters of a process are the sums over its threads; reading timers and opening the maps of user namespaces leave
    no reference behind. *)
From Stdlib Require Import String.
From stdpp Require Import gmap.
From S2P Require Import Prelude Text ProcState ProcSpec ProcDir ProcFiles ProcMaps ProcOptions ProcDirProps ProcThreads ProcFilesProps ProcMapsProps.

(** The bits of the filter are in the flags of an address space. *)
Class OptionsLaws `{OptionsKernel} : Prop := {
  dump_filter_bits : 0 ≤ MMF_DUMP_FILTER_SHIFT ∧ 0 < MMF_DUMP_FILTER_BITS ∧ MMF_DUMP_FILTER_SHIFT + MMF_DUMP_FILTER_BITS ≤ 32;
  uid_roundtrip ns u : make_kuid ns u ≠ INVALID_UID → from_kuid ns (make_kuid ns u) = u;
  invalid_uid_unset ns : from_kuid ns INVALID_UID = AUDIT_UID_UNSET;
  audit_unset_range : 0 ≤ AUDIT_UID_UNSET < 2 ^ 32 }.

Section OptionsProps.
Context `{ProcKernel} `{!ProcKernelLaws} `{OptionsKernel} `{!OptionsLaws}.

(** ** The core dump filter *)

Lemma filter_bits_spec n : ∀ i val flags j, 0 ≤ i → 0 ≤ MMF_DUMP_FILTER_SHIFT → 0 ≤ j →
  Z.testbit (filter_bits n i val flags) j =
  if (i + MMF_DUMP_FILTER_SHIFT <=? j) && (j <? i + MMF_DUMP_FILTER_SHIFT + Z.of_nat n) then Z.testbit val (j - MMF_DUMP_FILTER_SHIFT) else Z.testbit flags j.
Proof.
  induction n as [|n IH]; intros i val flags j Hi Hs Hj; cbn [filter_bits].
  { destruct (Z.leb_spec (i + MMF_DUMP_FILTER_SHIFT) j), (Z.ltb_spec j (i + MMF_DUMP_FILTER_SHIFT + Z.of_nat 0)); cbn [andb]; try done; lia. }
  rewrite IH by lia. set (b := i + MMF_DUMP_FILTER_SHIFT) in *.
  assert (∀ x, Z.testbit (if Z.testbit val i then Z.setbit flags b else Z.clearbit flags b) x = if x =? b then Z.testbit val i else Z.testbit flags x) as Hbit.
  { intros x. destruct (Z.testbit val i) eqn:E; [rewrite Z.setbit_eqb by lia|rewrite Z.clearbit_eqb]; rewrite Z.eqb_sym; destruct (Z.eqb_spec x b); cbn; rewrite ?andb_true_r, ?andb_false_r; done. }
  rewrite Hbit. destruct (Z.eqb_spec j b) as [->|Hne].
  - destruct (Z.leb_spec (i + 1 + MMF_DUMP_FILTER_SHIFT) b), (Z.leb_spec b b), (Z.ltb_spec b (b + Z.of_nat (S n))); cbn [andb]; try lia. f_equal. lia.
  - destruct (Z.leb_spec (i + 1 + MMF_DUMP_FILTER_SHIFT) j), (Z.ltb_spec j (i + 1 + MMF_DUMP_FILTER_SHIFT + Z.of_nat n)), (Z.leb_spec b j), (Z.ltb_spec j (b + Z.of_nat (S n))); cbn [andb]; try done; lia.
Qed.

(** What the filter shows after a number was stored are its low bits; the other flags stay. *)
Lemma filter_stored val flags :
  0 ≤ val →
  Z.shiftr (filter_bits (Z.to_nat MMF_DUMP_FILTER_BITS) 0 val flags &&& DUMP_FILTER_MASK) MMF_DUMP_FILTER_SHIFT = val mod 2 ^ MMF_DUMP_FILTER_BITS ∧
  Z.land (filter_bits (Z.to_nat MMF_DUMP_FILTER_BITS) 0 val flags) (Z.lnot DUMP_FILTER_MASK) = Z.land flags (Z.lnot DUMP_FILTER_MASK).
Proof.
  intros Hv. destruct dump_filter_bits as (Hs & Hb & _). unfold DUMP_FILTER_MASK. set (S := MMF_DUMP_FILTER_SHIFT) in *. set (B := MMF_DUMP_FILTER_BITS) in *.
  assert (∀ j, 0 ≤ j → Z.testbit (Z.shiftl (Z.ones B) S) j = (S <=? j) && (j <? S + B)) as Hmask.
  { intros j Hj. rewrite Z.shiftl_spec by done. destruct (Z.leb_spec S j); [|by rewrite Z.testbit_neg_r by lia]. rewrite Z.testbit_ones_nonneg by lia.
    destruct (Z.ltb_spec (j - S) B), (Z.ltb_spec j (S + B)); lia || done. }
  split; apply Z.bits_inj'; intros j Hj.
  - rewrite Z.shiftr_spec, Z.land_spec, Hmask, filter_bits_spec by lia. fold S B.
    destruct (Z.ltb_spec j B).
    + rewrite Z.mod_pow2_bits_low by lia. assert ((S <=? j + S) && (j + S <? S + B) = true) as -> by lia.
      assert ((0 + S <=? j + S) && (j + S <? 0 + S + Z.of_nat (Z.to_nat B)) = true) as -> by lia. rewrite andb_true_r. f_equal. lia.
    + rewrite Z.mod_pow2_bits_high by lia. assert ((S <=? j + S) && (j + S <? S + B) = false) as -> by lia. by rewrite andb_false_r.
  - rewrite !Z.land_spec, Z.lnot_spec, Hmask, filter_bits_spec by done. fold S B.
    destruct ((S <=? j) && (j <? S + B)) eqn:E; cbn [negb]; [by rewrite !andb_false_r|].
    assert ((0 + S <=? j) && (j <? 0 + S + Z.of_nat (Z.to_nat B)) = false) as -> by lia. done.
Qed.

(** A number with its prefix and the end of a line. *)
Definition hex_line (v : Z) : list Z := [48; 120] ++ hexadecimal v ++ [10].

Lemma cstring_hex l rest : Forall is_hex l → cstring (l ++ rest) = l ++ cstring rest.
Proof.
  induction 1 as [|c l (d & Hd & _) _ IH]; [done|]. cbn. destruct (Z.eqb_spec c 0) as [->|]; [by vm_compute in Hd|]. by rewrite IH.
Qed.

Lemma strtoull_hex_line v : 0 ≤ v < 2 ^ 32 → simple_strtoull (hex_line v) 0 = (v, [10]) ∧ cstring (hex_line v) = hex_line v.
Proof.
  intros Hv. pose proof (hexadecimal_hex v ltac:(lia)) as Hh. split.
  - unfold simple_strtoull, fixup_radix, hex_line. destruct (hexadecimal_cons v) as (c & l & E). rewrite E in *. apply Forall_cons in Hh as [(d & Hd & _) _].
    cbn [app]. cbv zeta. change (0 =? 0) with true. change (48 =? 48) with true. change (is_x 120) with true. rewrite Hd. cbn [andb]. change (16 =? 16) with true. cbn [andb].
    change (c :: l ++ [10]) with ((c :: l) ++ [10]). rewrite <- E. by apply parse_hexadecimal; [lia|].
  - unfold hex_line. cbn [app cstring]. change (48 =? 0) with false. change (120 =? 0) with false. cbv iota. by rewrite cstring_hex.
Qed.

(** The address space has other flags. *)
Definition with_flags (mm : Z) (m : mm_struct) (flags : Z) (s : pstate) : pstate := set_ps_mms (<[mm := set_mm_flags flags m]> (ps_mms s)) s.

Lemma with_flags_ok s mm m flags : ps_mms s !! mm = Some m → procs_ok s → procs_ok (with_flags mm m flags s).
Proof.
  intros Hm [H1' H2' H3' H4' H5']. split; [done..|]. intros t k Hk Hmm. cbn. destruct (decide (tk_mm k = mm)) as [->|]; [by rewrite lookup_insert_eq|]. rewrite lookup_insert_ne by done. by eapply H5'.
Qed.

(** A process with its task and memory, looked at through an inode. *)
Record task_with_memory (s : pstate) (ino : Z) (i : inode) (p : pid_struct) (k : task_struct) (m : mm_struct) : Prop := {
  tm_ok : procs_ok s;
  tm_inode : task_inode s ino i p;
  tm_task : task_of s p k;
  tm_mm : tk_mm k ≠ 0 ∧ ps_mms s !! tk_mm k = Some m }.

Lemma truthy_true z : z ≠ 0 → truthy z = true.
Proof. unfold truthy. lia. Qed.

Lemma filter_read_run s ino i p k m room count pos :
  task_with_memory s ino i p k m →
  proc_coredump_filter_read ino room count pos s =
  Some (simple_read_from_buffer room count pos (pad_left 8 48 (hexadecimal (Z.shiftr (mm_flags m &&& DUMP_FILTER_MASK) MMF_DUMP_FILTER_SHIFT)) ++ [10]), s).
Proof.
  intros [Hok Hti Htk [Hmm Hm]]. unfold proc_coredump_filter_read. rewrite (pbind_run _ _ _ _ _ (task_of_get _ _ _ _ _ Hok Hti Htk)), (truthy_true _ (proj1 Htk)). cbn [negb].
  set (t := pd_task p). pose proof (pinned_lookup s t k (proj2 Htk)) as Hpk.
  rewrite (pbind_run _ _ _ _ _ (get_mm_held (pinned t s) t (pin k) m Hpk Hmm Hm)). change (tk_mm (pin k)) with (tk_mm k). rewrite (truthy_true _ Hmm).
  erewrite (pbind_run _ _ _ _ (pinned t s)).
  2:{ rewrite (pbind_run _ _ _ _ _ (mm_at_run (tk_mm k) (set_mm_users (mm_users m + 1) m) (held (tk_mm k) m (pinned t s)) (lookup_insert_eq _ _ _))). by rewrite (pbind_run _ _ _ _ _ (mmput_held (tk_mm k) m (pinned t s) Hm)). }
  by rewrite (pbind_run _ _ _ _ _ (task_of_put _ _ _ Hok Htk)).
Qed.

Lemma filter_write_run s ino i p k m v count :
  task_with_memory s ino i p k m → 0 ≤ v < 2 ^ 32 → count = zlen (hex_line v) → count < PROC_NUMBUF →
  proc_coredump_filter_write ino (hex_line v) count s = Some (count, with_flags (tk_mm k) m (filter_bits (Z.to_nat MMF_DUMP_FILTER_BITS) 0 v (mm_flags m)) s).
Proof.
  intros [Hok Hti Htk [Hmm Hm]] Hv -> Hc. destruct (strtoull_hex_line v Hv) as [Hsc Hcs]. unfold proc_coredump_filter_write. cbv zeta.
  destruct (Z.ltb_spec (PROC_NUMBUF - 1) (zlen (hex_line v))); [lia|]. unfold copy_from_user. rewrite Z.leb_refl, Nat2Z.id, take_ge by lia. rewrite Hcs, Hsc.
  change (10 =? 10) with true. cbv iota. change (zlen []) with 0. rewrite Z.sub_0_r. assert ((zlen (hex_line v) =? 0) = false) as -> by (unfold hex_line; cbn [app length]; lia).
  rewrite (pbind_run _ _ _ _ _ (task_of_get _ _ _ _ _ Hok Hti Htk)), (truthy_true _ (proj1 Htk)). cbn [negb]. set (t := pd_task p). pose proof (pinned_lookup s t k (proj2 Htk)) as Hpk.
  rewrite (pbind_run _ _ _ _ _ (get_mm_held (pinned t s) t (pin k) m Hpk Hmm Hm)). change (tk_mm (pin k)) with (tk_mm k). rewrite (truthy_true _ Hmm). rewrite (wrap_small 32 v Hv).
  set (fl := filter_bits _ 0 v _). set (m' := set_mm_flags fl m).
  rewrite (pbind_run _ _ _ () (pinned t (with_flags (tk_mm k) m fl s))).
  - assert (task_of (with_flags (tk_mm k) m fl s) p k) as Htk' by exact Htk. by rewrite (pbind_run _ _ _ _ _ (task_of_put _ _ _ (with_flags_ok s _ m fl Hm Hok) Htk')).
  - rewrite (pbind_run _ _ _ _ _ (upd_mm_run (tk_mm k) _ (set_mm_users (mm_users m + 1) m) (held (tk_mm k) m (pinned t s)) (lookup_insert_eq _ _ _))).
    pose proof (mmput_held (tk_mm k) m' (pinned t (with_flags (tk_mm k) m fl s)) (lookup_insert_eq _ _ _)) as Hput. rewrite <- Hput. f_equal. unfold held, with_flags, pinned, set_ps_mms. cbn.
    by rewrite !insert_insert_eq.
Qed.

(** A number written to the core dump filter with its prefix is what the file then shows, in eight digits, of the bits that the filter has; the process's other flags and everything else
    are as they were. *)
Theorem coredump_filter_shows_what_was_written s ino i p k m v room :
  task_with_memory s ino i p k m → 0 ≤ v < 2 ^ 32 → 9 ≤ room →
  ∃ flags, let s' := with_flags (tk_mm k) m flags s in
    proc_coredump_filter_write ino (hex_line v) (zlen (hex_line v)) s = Some (zlen (hex_line v), s') ∧
    Z.land flags (Z.lnot DUMP_FILTER_MASK) = Z.land (mm_flags m) (Z.lnot DUMP_FILTER_MASK) ∧
    ∀ pos, proc_coredump_filter_read ino room room pos s' = Some (simple_read_from_buffer room room pos (pad_left 8 48 (hexadecimal (v mod 2 ^ MMF_DUMP_FILTER_BITS)) ++ [10]), s').
Proof.
  intros Htm Hv Hroom. pose proof Htm as [Hok Hti Htk [Hmm Hm]]. set (flags := filter_bits (Z.to_nat MMF_DUMP_FILTER_BITS) 0 v (mm_flags m)). exists flags. cbv zeta.
  destruct (filter_stored v (mm_flags m)) as [Hshow Hkeep]; [lia|]. split; [|split; [exact Hkeep|]].
  - apply (filter_write_run s ino i p k m v); [done|done|done|]. pose proof proc_constants as (-> & _). unfold hex_line, hexadecimal. rewrite !length_app. cbn [length].
    pose proof (hexdigits_length (S (Z.to_nat (Z.log2 v))) v 7 ltac:(cbn; lia)). lia.
  - intros pos. rewrite (filter_read_run _ ino i p k (set_mm_flags flags m)).
    + change (mm_flags (set_mm_flags flags m)) with flags. unfold flags. by rewrite Hshow.
    + split; [by apply with_flags_ok|exact Hti|exact Htk|]. split; [done|apply lookup_insert_eq].
Qed.

(** ** Input and output *)

Definition ioac_of (s : pstate) (t : Z) : list Z := match ps_tasks s !! t with Some k => tk_ioac k | None => [] end.

Lemma io_add_comm a : ∀ b, io_add a b = io_add b a.
Proof. induction a as [|x a IH]; intros [|y b]; [done..|]. cbn. fold (io_add a b) (io_add b a). by rewrite IH, Z.add_comm. Qed.

Lemma io_threads_run s leader sig l : ∀ fuel t nr acct,
  chain s leader sig ((t, nr) :: l) → leader ∉ l.*1 → (length l < fuel)%nat →
  io_threads fuel leader t acct s = Some (foldl io_add acct (ioac_of s <$> l.*1), s).
Proof.
  induction l as [|[n nn] l IH]; intros fuel t nr acct [[_ _ (k & p & Hk & _ & _ & Hnext & _)] Hc] Hno Hf; (destruct fuel as [|fuel]; [cbn in Hf; lia|]); cbn [io_threads];
    rewrite (pbind_run _ _ _ _ _ (task_at_run _ _ _ Hk)), Hnext.
  - by rewrite Z.eqb_refl.
  - change (default leader (fst <$> head ((n, nn) :: l))) with n. cbn in Hno. apply not_elem_of_cons in Hno as [Hn Hno]. destruct (Z.eqb_spec n leader); [congruence|].
    pose proof Hc as [[_ _ (kn & pn & Hkn & _)] _]. rewrite (pbind_run _ _ _ _ _ (task_at_run _ _ _ Hkn)). rewrite (IH fuel n nn) by (done || cbn in Hf; lia).
    cbn. unfold ioac_of at 2. by rewrite Hkn.
Qed.

(** The counters of a process are the sums over the threads that are gone and all that are there, each once, and are shown to those who may look into it. *)
Theorem io_totals_cover_all_threads s cur leader sig l k g :
  ring s leader sig l → ps_tasks s !! leader = Some k → tk_sighand k = true → ps_signals s !! sig = Some g → mutex_lock_killable (ps_tick s) = 0 →
  proc_tgid_io_accounting cur leader s =
  Some (if ptrace_may_access cur k false then (0, io_text (foldl io_add (sg_ioac g) (ioac_of s <$> l.*1))) else (- Errno.EACCES, []), set_ps_tick (S (ps_tick s)) s).
Proof.
  intros Hring Hk Hsh Hg Hlock. pose proof (ring_leader _ _ _ _ Hring) as [Hnl _]. pose proof (ring_fuel _ _ _ _ Hring) as Hfuel. destruct Hring as [Hc Hh _ _].
  destruct l as [|[t nr] l]; [done|]. cbn in Hh. injection Hh as ->. cbn [tail] in Hnl.
  unfold proc_tgid_io_accounting, do_io_accounting. rewrite (pbind_run _ _ _ _ _ (task_at_run _ _ _ Hk)). erewrite pbind_run by reflexivity. rewrite Hlock. change (truthy 0) with false. cbv iota.
  destruct (ptrace_may_access cur k false); cbn [negb]; [|done]. rewrite Hsh. cbn [andb].
  assert (tk_signal k = sig) as Hsig by (destruct Hc as [[_ _ (k' & p' & Hk' & E & _)] _]; congruence).
  set (s1 := set_ps_tick (S (ps_tick s)) s). erewrite (pbind_run _ _ _ _ s1); [reflexivity|].
  rewrite (pbind_run _ _ _ g s1) by (apply signal_at_run; by rewrite Hsig). erewrite pbind_run by reflexivity.
  rewrite (io_threads_run s1 leader sig l _ leader nr).
  - cbn. unfold ioac_of at 2. rewrite Hk. by rewrite (io_add_comm (sg_ioac g)).
  - eapply chain_same; [|exact Hc]. by destruct s.
  - done.
  - cbn [length] in Hfuel. cbn. lia.
Qed.

(** ** References *)

(** Reading the timers of a process, from any position and however far, and stopping leaves no reference: whether the process is there, is going or gone. *)
Theorem timers_session_balanced s tp pos p :
  procs_ok s → ps_pids s !! tp_pid tp = Some p → tp_task tp = 0 →
  ∃ r tp' s1, timers_start tp pos s = Some ((r, tp'), s1) ∧ timers_stop tp' s1 = Some (Timers (tp_pid tp) 0 false, s) ∧
    match r with
    | inr l => ∃ k g, ps_tasks s !! pd_task p = Some k ∧ ps_signals s !! tk_signal k = Some g ∧ l = drop (Z.to_nat pos) (sg_posix_timers g)
    | inl e => e = - Errno.ESRCH
    end.
Proof.
  intros Hok Hp Htp. unfold timers_start, get_pid_task, pid_task. erewrite (pbind_run _ _ s (pd_task p) (if truthy (pd_task p) then pinned (pd_task p) s else s)).
  2:{ erewrite pbind_run by (prun; reflexivity). destruct (truthy (pd_task p)) eqn:E; [|done]. destruct (po_pid s Hok _ _ Hp) as (k & Hk & _); [unfold truthy in E; lia|].
      by rewrite (pbind_run _ _ _ _ _ (get_task_run s _ k Hk)). }
  destruct (truthy (pd_task p)) eqn:E; cbn [negb]; [|eexists _, _, s; by split_and!].
  destruct (po_pid s Hok _ _ Hp) as (k & Hk & _); [unfold truthy in E; lia|]. pose proof (pinned_lookup s _ k Hk) as Hpk. rewrite (pbind_run _ _ _ _ _ (task_at_run _ _ _ Hpk)).
  change (tk_sighand (pin k)) with (tk_sighand k). change (tk_signal (pin k)) with (tk_signal k).
  assert (∀ b, timers_stop (Timers (tp_pid tp) (pd_task p) b) (pinned (pd_task p) s) = Some (Timers (tp_pid tp) 0 false, s)) as Hstop.
  { intros b. unfold timers_stop. cbn [tp_task tp_pid]. rewrite E. by rewrite (pbind_run _ _ _ _ _ (put_pinned s _ k Hk (po_usage s Hok _ _ Hk))). }
  destruct (tk_sighand k); cbn [negb]; [|eexists _, _, (pinned (pd_task p) s); by split_and!].
  destruct (po_signal s Hok _ _ Hk) as [g Hg]. rewrite (pbind_run _ _ _ g (pinned (pd_task p) s)) by (apply signal_at_run; exact Hg).
  eexists _, _, (pinned (pd_task p) s). split; [reflexivity|]. split; [apply Hstop|]. by exists k, g.
Qed.

Definition ns_refs (s : pstate) (ns : Z) : Z := default 0 (ps_user_nss s !! ns).

Lemma inode_user_ns_run s ino i p k :
  procs_ok s → task_inode s ino i p → task_of s p k →
  inode_user_ns ino s = Some (tk_user_ns k, set_ps_user_nss (<[tk_user_ns k := ns_refs s (tk_user_ns k) + 1]> (ps_user_nss s)) s).
Proof.
  intros Hok Hti Htk. unfold inode_user_ns. rewrite (pbind_run _ _ _ _ _ (task_of_get _ _ _ _ _ Hok Hti Htk)), (truthy_true _ (proj1 Htk)).
  rewrite (pbind_run _ _ _ _ _ (task_at_run _ _ _ (pinned_lookup s _ k (proj2 Htk)))). change (tk_user_ns (pin k)) with (tk_user_ns k).
  erewrite pbind_run by reflexivity. set (s1 := set_ps_user_nss (<[tk_user_ns k := ns_refs s (tk_user_ns k) + 1]> (ps_user_nss s)) s).
  rewrite (pbind_run _ _ _ () s1); [done|]. apply (put_pinned s1 _ k (proj2 Htk)), (po_usage s Hok _ _ (proj2 Htk)).
Qed.

(** A map of a user namespace that is open holds the namespace, and one that could not be opened or was closed again does not: each namespace has as many references as before. *)
Theorem user_ns_references_balanced s cur ino i p k f_mode :
  procs_ok s → task_inode s ino i p → task_of s p k → tk_user_ns k ≠ 0 →
  (∃ r ns s', proc_id_map_open ino s = Some ((r, ns), s') ∧
     if r =? 0 then ns = tk_user_ns k ∧ (∀ n, ns_refs s' n = ns_refs s n + if n =? ns then 1 else 0) ∧
                    ∃ s2, proc_id_map_release ns s' = Some (0, s2) ∧ ∀ n, ns_refs s2 n = ns_refs s n
     else ∀ n, ns_refs s' n = ns_refs s n) ∧
  (∃ r ns s', proc_setgroups_open cur ino f_mode s = Some ((r, ns), s') ∧
     if r =? 0 then (truthy (f_mode &&& FMODE_WRITE) = true → ns_sys_admin cur ns = true) ∧ (∀ n, ns_refs s' n = ns_refs s n + if n =? ns then 1 else 0) ∧
                    ∃ s2, proc_setgroups_release ns s' = Some (0, s2) ∧ ∀ n, ns_refs s2 n = ns_refs s n
     else ∀ n, ns_refs s' n = ns_refs s n).
Proof.
  intros Hok Hti Htk Hns. pose proof (inode_user_ns_run s ino i p k Hok Hti Htk) as Hrun. set (ns := tk_user_ns k) in *. set (s1 := set_ps_user_nss _ s) in Hrun.
  assert (∀ n t, ns_refs (set_ps_tick t s1) n = ns_refs s n + if n =? ns then 1 else 0) as Hheld.
  { intros n t. unfold ns_refs at 1. cbn. destruct (Z.eqb_spec n ns) as [->|]; [by rewrite lookup_insert_eq|rewrite lookup_insert_ne by done; unfold ns_refs; lia]. }
  assert (∀ n t, ns_refs (set_ps_user_nss (<[ns := default 0 (ps_user_nss (set_ps_tick t s1) !! ns) + -1]> (ps_user_nss (set_ps_tick t s1))) (set_ps_tick t s1)) n = ns_refs s n) as Hback.
  { intros n t. unfold ns_refs at 1. cbn. rewrite lookup_insert_eq, insert_insert_eq. cbn. destruct (decide (n = ns)) as [->|]; [rewrite lookup_insert_eq; cbn; lia|by rewrite lookup_insert_ne]. }
  split; [unfold proc_id_map_open|unfold proc_setgroups_open]; rewrite (pbind_run _ _ _ _ _ Hrun), (truthy_true _ Hns); cbn [negb].
  - erewrite pbind_run by reflexivity. destruct (truthy (single_open_ret (ps_tick s1))) eqn:E.
    + erewrite pbind_run by reflexivity. eexists _, _, _. split; [reflexivity|]. assert ((single_open_ret (ps_tick s1) =? 0) = false) as -> by (unfold truthy in E; lia). intros n. apply Hback.
    + eexists _, _, _. split; [reflexivity|]. cbn [Z.eqb]. split; [done|]. split; [intros n; apply Hheld|]. eexists. split; [reflexivity|]. intros n. apply Hback.
  - destruct (truthy (f_mode &&& FMODE_WRITE)) eqn:Ew, (ns_sys_admin cur ns) eqn:Ea; cbn [negb andb].
    2:{ erewrite pbind_run by reflexivity. eexists _, _, _. split; [reflexivity|]. cbv iota. intros n. exact (Hback n (ps_tick s1)). }
    all: erewrite pbind_run by reflexivity; destruct (truthy (single_open_ret (ps_tick s1))) eqn:E;
      [erewrite pbind_run by reflexivity; eexists _, _, _; split; [reflexivity|]; assert ((single_open_ret (ps_tick s1) =? 0) = false) as -> by (unfold truthy in E; lia); intros n; apply Hback
      |eexists _, _, _; split; [reflexivity|]; cbn [Z.eqb]; split; [done|]; split; [intros n; apply Hheld|]; eexists; split; [reflexivity|]; intros n; apply Hback].
Qed.

(** ** Audit and fault injection *)

Lemma cstring_digits l : Forall (λ c, isdigit c = true) l → cstring l = l.
Proof. induction 1 as [|c l Hc _ IH]; [done|]. cbn. unfold isdigit in Hc. destruct (Z.eqb_spec c 0); [lia|]. by rewrite IH. Qed.

(** The task has another field. *)
Lemma upd_same_ok s t k k' :
  procs_ok s → ps_tasks s !! t = Some k → tk_pid k' = tk_pid k → tk_usage k' = tk_usage k → tk_signal k' = tk_signal k → tk_mm k' = tk_mm k →
  procs_ok (set_ps_tasks (<[t := k']> (ps_tasks s)) s).
Proof.
  intros [H1' H2' H3' H4' H5'] Hk Ep Eu Es Em.
  assert (∀ y q, <[t := k']> (ps_tasks s) !! y = Some q → ∃ q0, ps_tasks s !! y = Some q0 ∧ tk_pid q = tk_pid q0 ∧ tk_usage q = tk_usage q0 ∧ tk_signal q = tk_signal q0 ∧ tk_mm q = tk_mm q0) as Hinv.
  { intros y q Hy. destruct (decide (y = t)) as [->|]; [rewrite lookup_insert_eq in Hy; injection Hy as <-; by exists k|rewrite lookup_insert_ne in Hy by done; by exists q]. }
  split; cbn.
  - intros x p Hp Hx. destruct (H1' x p Hp Hx) as (q & Hq & E). destruct (decide (pd_task p = t)) as [E'|]; [|rewrite lookup_insert_ne by done; eauto]. rewrite E' in *. rewrite lookup_insert_eq. eexists. split; [done|]. congruence.
  - intros y q Hy Hp. destruct (Hinv y q Hy) as (q0 & Hq0 & E & _). rewrite E in *. by eapply H2'.
  - intros y q Hy. destruct (Hinv y q Hy) as (q0 & Hq0 & _ & -> & _). by eapply H3'.
  - intros y q Hy. destruct (Hinv y q Hy) as (q0 & Hq0 & _ & _ & -> & _). by eapply H4'.
  - intros y q Hy Hm. destruct (Hinv y q Hy) as (q0 & Hq0 & _ & _ & _ & E). rewrite E in *. by eapply H5'.
Qed.

(** The audit number of a process is set by its own task only: another caller gets EPERM and changes nothing.  A number the task writes, if it stands for a user and the audit code takes it,
    is what the file then shows; nothing else changes. *)
Theorem loginuid_shows_what_was_written s cur f_ns ino i p k u room :
  procs_ok s → task_inode s ino i p → task_of s p k → 0 ≤ u < 2 ^ 32 → u ≠ AUDIT_UID_UNSET → make_kuid f_ns u ≠ INVALID_UID →
  get_free_page (ps_tick s) = true → audit_set_loginuid (cl_task cur) (make_kuid f_ns u) (S (ps_tick s)) = 0 → zlen (decimal u) < PAGE_SIZE → zlen (decimal u) ≤ room →
  if cl_task cur =? pd_task p then
    ∃ s', proc_loginuid_write cur f_ns ino (decimal u) (zlen (decimal u)) 0 s = Some (zlen (decimal u), s') ∧
      s' = set_ps_tick (2 + ps_tick s) (set_ps_tasks (<[pd_task p := set_tk_loginuid (make_kuid f_ns u) k]> (ps_tasks s)) s) ∧
      proc_loginuid_read f_ns ino room room 0 s' = Some ((zlen (decimal u), decimal u, zlen (decimal u)), s')
  else proc_loginuid_write cur f_ns ino (decimal u) (zlen (decimal u)) 0 s = Some (- Errno.EPERM, s).
Proof.
  intros Hok Hti Htk Hu Hset Hkuid Hpage Haudit Hlen Hroom. pose proof Hti as [Hi Hp]. destruct (decimal_spec u) as [_ Hdig]; [lia|].
  unfold proc_loginuid_write. rewrite (pbind_run _ _ _ _ _ (inode_at_run _ _ _ Hi)). rewrite (pbind_run _ _ _ (pd_task p) s) by (unfold pid_task; by rewrite (pbind_run _ _ _ _ _ (pid_at_run _ _ _ Hp))).
  destruct (Z.eqb_spec (cl_task cur) (pd_task p)) as [Ec|]; cbn [negb]; [|done]. set (k' := set_tk_loginuid (make_kuid f_ns u) k). set (s' := set_ps_tick _ _). exists s'. split; [|split; [done|]].
  - cbv zeta. destruct (Z.leb_spec PAGE_SIZE (zlen (decimal u))); [lia|]. change (0 =? 0) with true. cbn [negb]. erewrite pbind_run by reflexivity. rewrite Hpage. cbn [negb].
    unfold copy_from_user. rewrite Z.leb_refl, Nat2Z.id, take_ge, cstring_digits by done.
    assert (simple_strtoull (decimal u) 10 = (u, [])) as -> by (rewrite <- (app_nil_r (decimal u)); apply strtoull_decimal; [lia|done]). rewrite (wrap_small 32 u Hu).
    rewrite bool_decide_eq_false_2 by (unfold decimal; cbn [digits]; intros E; destruct (u <? 10); [done|]; by destruct (digits (Z.to_nat u) (u / 10))).
    destruct (Z.eqb_spec u AUDIT_UID_UNSET); [done|]. cbn [negb andb]. destruct (Z.eqb_spec (make_kuid f_ns u) INVALID_UID); [done|].
    rewrite (pbind_run _ _ _ 0 s'); [done|]. unfold set_loginuid. erewrite pbind_run by reflexivity. cbn [ps_tick set_ps_tick]. rewrite Haudit. change (truthy 0) with false. cbv iota.
    rewrite Ec. erewrite pbind_run by (apply upd_task_run; exact (proj2 Htk)). reflexivity.
  - assert (procs_ok s') as Hok' by (destruct (upd_same_ok s (pd_task p) k k' Hok (proj2 Htk) eq_refl eq_refl eq_refl eq_refl) as [A1 A2 A3 A4 A5]; by split).
    assert (task_of s' p k') as Htk' by (split; [apply Htk|apply lookup_insert_eq]). unfold proc_loginuid_read.
    rewrite (pbind_run _ _ _ _ _ (task_of_get s' ino i p k' Hok' Hti Htk')), (truthy_true _ (proj1 Htk)). cbn [negb]. rewrite (pbind_run _ _ _ _ _ (task_at_run _ _ _ (pinned_lookup s' _ k' (proj2 Htk')))).
    rewrite (pbind_run _ _ _ _ _ (task_of_put s' p k' Hok' Htk')). change (tk_loginuid (pin k')) with (make_kuid f_ns u). rewrite uid_roundtrip by done.
    assert (length (decimal u) ≤ 10)%nat by (apply (decimal_length u 9); cbn; lia). rewrite take_ge by lia. by rewrite simple_read_all.
Qed.

(** Only a caller with the capability changes whether faults are injected, and only to 0 or 1, for the task of the file and nothing else; any other write gives an error and changes nothing.
    The file shows what is set. *)
Theorem fault_injection_is_a_switch s cur ino i p ubuf count :
  procs_ok s → task_inode s ino i p → 0 ≤ count →
  ∃ r s', proc_fault_inject_write cur ino ubuf count s = Some (r, s') ∧
    (r < 0 ∧ s' = s ∨
     cl_sys_resource cur = true ∧ ∃ k v, task_of s p k ∧ 0 ≤ v ≤ 1 ∧ s' = set_ps_tasks (<[pd_task p := set_tk_make_it_fail v k]> (ps_tasks s)) s ∧
       proc_fault_inject_read ino 2 2 0 s' = Some ((2, [48 + v; 10], 2), s')).
Proof.
  intros Hok Hti Hcount. unfold proc_fault_inject_write. destruct (cl_sys_resource cur); cbn [negb]; [|eexists _, s; split; [reflexivity|]; left; by unfold Errno.EPERM]. cbv zeta.
  destruct (copy_from_user ubuf _) as [buffer|]; [|eexists _, s; split; [reflexivity|]; left; by unfold Errno.EFAULT].
  destruct (simple_strtol _ 0) as [v rest]. destruct (bool_decide (rest = [])); cbn [negb]; [|eexists _, s; split; [reflexivity|]; left; by unfold Errno.EINVAL].
  destruct ((v <? 0) || (1 <? v)) eqn:Ev; [eexists _, s; split; [reflexivity|]; left; by unfold Errno.EINVAL|].
  destruct (truthy (pd_task p)) eqn:Et; [|rewrite (pbind_run _ _ _ _ _ (no_task_get _ _ _ _ Hok Hti Et)), Et; eexists _, s; split; [reflexivity|]; left; by unfold Errno.ESRCH].
  destruct (task_of_exists s p Hok Et) as [k Htk]; [eexists; apply Hti|]. rewrite (pbind_run _ _ _ _ _ (task_of_get _ _ _ _ _ Hok Hti Htk)), Et. cbn [negb].
  rewrite (pbind_run _ _ _ _ _ (upd_task_run _ _ _ _ (pinned_lookup s _ k (proj2 Htk)))). set (k' := set_tk_make_it_fail v k). set (s' := set_ps_tasks (<[pd_task p := k']> (ps_tasks s)) s).
  assert (procs_ok s') as Hok' by (by apply (upd_same_ok s (pd_task p) k k' Hok (proj2 Htk))). assert (task_of s' p k') as Htk' by (split; [apply Htk|apply lookup_insert_eq]).
  eassert (_ = pinned (pd_task p) s') as ->; [|rewrite (pbind_run _ _ _ _ _ (task_of_put s' p k' Hok' Htk'))].
  { unfold pinned, s', set_ps_tasks. cbn. f_equal. apply map_eq. intros y. destruct (decide (y = pd_task p)) as [->|]; [by rewrite lookup_insert_eq, lookup_alter_eq, lookup_insert_eq|by rewrite lookup_insert_ne, !lookup_alter_ne, lookup_insert_ne]. }
  eexists _, s'. split; [reflexivity|]. right. split; [done|]. exists k, v. split; [done|]. split; [lia|]. split; [done|]. unfold proc_fault_inject_read.
  rewrite (pbind_run _ _ _ _ _ (task_of_get s' ino i p k' Hok' Hti Htk')), Et. cbn [negb]. rewrite (pbind_run _ _ _ _ _ (task_at_run _ _ _ (pinned_lookup s' _ k' (proj2 Htk')))).
  rewrite (pbind_run _ _ _ _ _ (task_of_put s' p k' Hok' Htk')). change (tk_make_it_fail (pin k')) with v. assert (v = 0 ∨ v = 1) as [-> | ->] by lia; by rewrite simple_read_all.
Qed.

End OptionsProps.
