(* ===== verification/ProcDemo.v ===== *)
(** * Procfs: a small system

    A kernel that satisfies what the files of procfs rely on, with two processes, one of them with two threads; the theorems applied to it, and two inputs on
    which reading the environment does not do what it should. *)
From Stdlib Require Import String.
From stdpp Require Import gmap.
From S2P Require Import Prelude Text ProcState ProcOom ProcMem ProcDir ProcFiles ProcMaps ProcOptions ProcSpec ProcOomProps ProcMemProps ProcDirProps ProcThreads ProcFilesProps ProcMapsProps ProcOptionsProps.

Module ProcDemo.

(** ** The kernel *)

Definition blank (c : Z) : bool := (c =? 32) || (c =? 10).
Fixpoint skip_blanks (l : list Z) : list Z := match l with c :: l' => if blank c then skip_blanks l' else l | [] => [] end.
Definition strip (l : list Z) : list Z := reverse (skip_blanks (reverse (skip_blanks l))).

(** A number with its sign, if it is an int. *)
Definition parse_digits (sign : Z) (l : list Z) : Z * Z :=
  if forallb isdigit l && negb (bool_decide (l = [])) && (- 2 ^ 31 <=? sign * value l) && (sign * value l <? 2 ^ 31) then (0, sign * value l) else (- Errno.EINVAL, 0).
Definition parse_int (l : list Z) : Z * Z := match l with 45 :: l => parse_digits (-1) l | _ => parse_digits 1 l end.
Definition parse_name (l : list Z) : Z := if forallb isdigit l && (value l <? 2 ^ 32) then value l else 2 ^ 32 - 1.

Definition read_buffer (room count pos : Z) (from : list Z) : Z * list Z * Z :=
  let part := take (Z.to_nat count) (drop (Z.to_nat pos) from) in
  if room <? zlen part then (- Errno.EFAULT, [], pos) else (zlen part, part, pos + zlen part).

Definition least (l : list Z) : option Z := foldr (λ x o, Some (match o with Some y => Z.min x y | None => x end)) None l.
Definition above (l : list Z) : Z := foldr (λ x m, Z.max (x + 1) m) 1000 l.

#[local] Instance kernel : ProcKernel := {|
  PROC_NUMBUF := 13; OOM_DISABLE := -17; OOM_ADJUST_MIN := -16; OOM_ADJUST_MAX := 15; OOM_SCORE_ADJ_MIN := -1000; OOM_SCORE_ADJ_MAX := 1000;
  TASK_COMM_LEN := 16; PAGE_SIZE := 4096; PID_MAX_LIMIT := 32768; FIRST_PROCESS_ENTRY := 256; RLIM_INFINITY := 2 ^ 32 - 1;
  S_IFDIR := 16384; S_IFREG := 32768; S_IFLNK := 40960; S_IFMT := 61440; S_ISUID := 2048; S_ISGID := 1024; DT_UNKNOWN := 0; DT_LNK := 10;
  strstrip := strip; kstrtoint := parse_int; name_to_int := parse_name; simple_read_from_buffer := read_buffer;
  ptrace_may_access cur k _ := (cl_euid cur =? 0) || (cl_euid cur =? tk_uid k);
  mm_access cur k _ := if (cl_euid cur =? 0) || (cl_euid cur =? tk_uid k) then 0 else - Errno.EACCES;
  generic_permission _ _ := 0;
  find_ge_pid l n := least (elements (filter (λ x, n ≤ x) l));
  get_free_page _ := true; d_path _ := inr (bytes_of "/system/bin/app"); get_wchan _ := 0; lookup_symbol_name _ := None; mutex_lock_killable _ := 0;
  task_current_syscall _ _ := None; oom_badness _ _ := 1; totalpages := 65536;
  remote_len _ addr len _ _ := Z.max 0 (Z.min len (8192 - addr));
  new_inode l _ := Some (above (elements l));
  d_alloc _ := true |}.

Lemma digits_nonempty fuel n : digits (S fuel) n ≠ [].
Proof. cbn. destruct (n <? 10); [done|]. by destruct (digits fuel (n / 10)). Qed.

Lemma skip_digits l : Forall (λ c, isdigit c = true) l → skip_blanks l = l.
Proof. intros Hl. destruct Hl as [|c l Hc _]; [done|]. cbn. unfold blank, isdigit in *. destruct (Z.eqb_spec c 32); [lia|]. by destruct (Z.eqb_spec c 10); [lia|]. Qed.

Lemma parse_digits_decimal sign n : 0 ≤ n → - 2 ^ 31 ≤ sign * n < 2 ^ 31 → parse_digits sign (decimal n) = (0, sign * n).
Proof.
  intros Hn Hr. unfold parse_digits. destruct (decimal_spec n Hn) as [Hv Hd]. rewrite Hv. assert (forallb isdigit (decimal n) = true) as -> by (apply forallb_forall; rewrite Forall_forall in Hd; intros c Hc; by apply Hd, list_elem_of_In).
  rewrite bool_decide_eq_false_2 by apply digits_nonempty. destruct (Z.leb_spec (- 2 ^ 31) (sign * n)); [|lia]. by destruct (Z.ltb_spec (sign * n) (2 ^ 31)); [|lia].
Qed.

Lemma strip_line l : (∀ c l', l = c :: l' → blank c = false) → (∀ c l', reverse l = c :: l' → blank c = false) → strip (l ++ [10]) = l.
Proof.
  intros Hf Hb. destruct l as [|a l]; [done|]. assert (skip_blanks ((a :: l) ++ [10]) = (a :: l) ++ [10]) as E by (cbn; by rewrite (Hf a l eq_refl)).
  unfold strip. rewrite E, reverse_app. destruct (reverse (a :: l)) as [|c l'] eqn:El; [apply (f_equal reverse) in El; by rewrite reverse_involutive in El|].
  change (reverse [10] ++ c :: l') with (10 :: c :: l'). cbn [skip_blanks blank]. change (blank 10) with true. cbv iota. rewrite (Hb c l' eq_refl), <- El. apply reverse_involutive.
Qed.

Lemma digit_not_blank c : isdigit c = true → blank c = false.
Proof. unfold isdigit, blank. intros Hc. destruct (Z.eqb_spec c 32), (Z.eqb_spec c 10); lia || done. Qed.

Lemma parse_decimal v : - 2 ^ 31 ≤ v < 2 ^ 31 → parse_int (strip (sdecimal v ++ [10])) = (0, v).
Proof.
  intros Hv. rewrite strip_line.
  - unfold sdecimal, parse_int. destruct (Z.ltb_spec v 0); [rewrite parse_digits_decimal by lia; f_equal; lia|]. destruct (decimal_spec v) as [_ Hd]; [lia|].
    destruct (decimal v) as [|c l] eqn:E; [by apply digits_nonempty in E|]. assert (parse_digits 1 (c :: l) = (0, v)) as Hp by (rewrite <- E, parse_digits_decimal by lia; f_equal; lia).
    apply Forall_cons in Hd as [Hc _]. unfold isdigit in Hc. destruct (decide (c = 45)) as [->|]; [lia|]. destruct c as [|[]|]; try done; repeat (match goal with |- context [match ?p with xI _ => _ | xO _ => _ | xH => _ end] => destruct p end; try done).
  - intros c l'. unfold sdecimal. destruct (Z.ltb_spec v 0); [by intros [= <- _]|]. intros E. destruct (decimal_spec v) as [_ Hd]; [lia|]. rewrite E in Hd. apply Forall_cons in Hd as [Hc _]. by apply digit_not_blank.
  - intros c l' E. assert (c ∈ sdecimal v) as Hc by (rewrite <- elem_of_reverse, E; left). unfold sdecimal in *. destruct (Z.ltb_spec v 0).
    + apply elem_of_cons in Hc as [->|Hc]; [done|]. destruct (decimal_spec (- v)) as [_ Hd]; [lia|]. rewrite Forall_forall in Hd. by apply digit_not_blank, Hd.
    + destruct (decimal_spec v) as [_ Hd]; [lia|]. rewrite Forall_forall in Hd. by apply digit_not_blank, Hd.
Qed.

Lemma least_spec l m : least l = Some m ↔ m ∈ l ∧ ∀ k, k ∈ l → m ≤ k.
Proof.
  revert m. induction l as [|x l IH]; intros m; cbn; [split; [done|intros [Hm _]; by apply elem_of_nil in Hm]|]. fold (least l). destruct (least l) as [y|] eqn:E.
  - destruct (IH y) as [Hy _]. destruct (Hy eq_refl) as [Hin Hall]. split.
    + intros [= <-]. split; [apply elem_of_cons; destruct (Z.min_spec x y) as [[_ ->]|[_ ->]]; [by left|by right]|]. intros k [->|Hk]%elem_of_cons; [lia|]. specialize (Hall k Hk). lia.
    + intros [Hm Hmin]. f_equal. assert (m ≤ x) by (apply Hmin; left). assert (m ≤ y) by (apply Hmin; by right). apply elem_of_cons in Hm as [->|Hm]; [lia|]. specialize (Hall m Hm). lia.
  - assert (l = []) as -> by (by destruct l). split.
    + intros [= <-]. split; [left|]. intros k [->|[]%elem_of_nil]%elem_of_cons. lia.
    + intros [[->|[]%elem_of_nil]%elem_of_cons _]. done.
Qed.

Lemma above_spec l x : 1000 ≤ above l ∧ (x ∈ l → x < above l).
Proof. induction l as [|y l [IH1 IH2]]; cbn; [split; [lia|by intros ?%elem_of_nil]|]. fold (above l). split; [lia|]. intros [->|Hx]%elem_of_cons; [lia|]. specialize (IH2 Hx). lia. Qed.

Lemma parse_digits_range sign l err v : parse_digits sign l = (err, v) → err ≤ 0 ∧ - 2 ^ 31 ≤ v < 2 ^ 31.
Proof.
  unfold parse_digits. set (b := _ && (_ <? _)). destruct b eqn:Eb; intros E.
  - assert (err = 0 ∧ v = sign * value l) as [-> ->] by (split; congruence). unfold b in Eb. lia.
  - assert (err = - Errno.EINVAL ∧ v = 0) as [-> ->] by (split; congruence). unfold Errno.EINVAL. lia.
Qed.

#[local] Instance laws : ProcKernelLaws.
Proof.
  split.
  - done.
  - cbn. lia.
  - intros l err v. cbn. unfold parse_int. intros E. destruct l as [|[|c|c] l]; try (by eapply parse_digits_range).
    repeat (match type of E with context [match ?p with xI _ => _ | xO _ => _ | xH => _ end] => destruct p end; try (by eapply parse_digits_range)).
  - apply parse_decimal.
  - intros room count from Hc Hr. cbn. unfold read_buffer. rewrite drop_0, take_ge by lia. destruct (Z.ltb_spec room (zlen from)); [lia|done].
  - intros n Hn. change (name_to_int (decimal n)) with (parse_name (decimal n)). unfold parse_name. destruct (decimal_spec n) as [Hv Hd]; [lia|]. rewrite Hv. assert (forallb isdigit (decimal n) = true) as -> by (apply forallb_forall; rewrite Forall_forall in Hd; intros c Hc; by apply Hd, list_elem_of_In). by destruct (Z.ltb_spec n (2 ^ 32)); [|lia].
  - intros l n m. cbn. rewrite least_spec. rewrite elem_of_elements, elem_of_filter. split.
    + intros [[Hn Hm] Hall]. split_and!; [done..|]. intros k Hk Hnk. apply Hall. by rewrite elem_of_elements, elem_of_filter.
    + intros (Hm & Hn & Hall). split; [done|]. intros k [Hnk Hk]%elem_of_elements%elem_of_filter. by apply Hall.
  - intros cur k u b. done.
  - intros t. cbn. lia.
  - intros x. cbn. lia.
  - intros mm addr len w t Hl. cbn. lia.
  - intros l t x [= <-]. pose proof (above_spec (elements l)) as Ha. split; [destruct (Ha 0); lia|]. intros Hx%elem_of_elements. destruct (Ha (above (elements l))) as [_ Hlt]. specialize (Hlt Hx). lia.
Qed.

(** ** The processes *)

(** [init] with number 1, and an app of user 1000 with numbers 12 and 13; process numbers at 21 to 23, tasks at 101 to 103, groups at 31 and 32, memory at 41 and 42. *)
Definition task0 (pid sg mm uid lead next : Z) (name : string) : task_struct :=
  Task 1 pid sg true mm uid uid uid true (bytes_of name) lead next (Some (61, 62)) 0 0 (2 ^ 32 - 1) 1 [1; 2; 3; 4; 5; 6; 7] 71.
Definition mem0 (start stop : Z) : mm_struct := Mm 1 1 start stop 63 [6; 4096; 0; 0] (λ a, a mod 256) 0.
Definition group0 (score floor lead n : Z) : signal_struct := Signal score floor lead n (replicate 16 (2 ^ 32 - 1, 4096)) [10; 10; 10; 10; 10; 10; 10] [Itimer 3 14 99 0 22 1].

Definition sys : pstate := Pstate
  (list_to_map [(21, Pid 1 101); (22, Pid 12 102); (23, Pid 13 103)])
  (list_to_map [(1, 21); (12, 22); (13, 23)])
  (list_to_map [(101, task0 21 31 41 0 101 101 "init"); (102, task0 22 32 42 1000 102 103 "app"); (103, task0 23 32 42 1000 102 102 "worker")])
  (list_to_map [(31, group0 (-900) (-900) 21 1); (32, group0 0 0 22 2)])
  (list_to_map [(41, mem0 4096 4200); (42, mem0 8190 8196); (43, mem0 4096 0)])
  (list_to_map [(51, Inode 101 0 0 0 2 22 Ops_tgid true); (52, Inode 102 0 0 0 1 22 (Ops_entry (bytes_of "exe")) false)])
  ∅ 200 ∅ 0 [] ∅.

(** The members of a map by cases. *)
Ltac map_cases Hm :=
  apply elem_of_list_to_map_2 in Hm; repeat (apply elem_of_cons in Hm as [Hm|Hm]; [injection Hm as ? ?; subst|]); try (by apply elem_of_nil in Hm).

Lemma sys_procs_ok : procs_ok sys.
Proof.
  split.
  - intros x p Hp _. map_cases Hp; eexists; (split; [reflexivity|reflexivity]).
  - intros t k Hk _. map_cases Hk; eexists; reflexivity.
  - intros t k Hk. map_cases Hk; cbn; lia.
  - intros t k Hk. map_cases Hk; eexists; reflexivity.
  - intros t k Hk _. map_cases Hk; eexists; reflexivity.
Qed.

Lemma sys_ok : fs_ok sys.
Proof.
  split; [apply sys_procs_ok|by intros key x Hx|]. intros nr pid Hn. map_cases Hn; (split; [cbn; lia|]; split; [lia|eexists; reflexivity]).
Qed.

Definition root : caller := Caller 101 0 true [].
Definition app : caller := Caller 102 1000 false [].
Definition other : caller := Caller 101 2000 false [].
Definition hidden : pid_namespace := PidNs 2 9999.
Definition open_ns : pid_namespace := PidNs 0 9999.

(** With hiding, the app sees itself only; [root] sees all. *)
Example app_sees_itself : entries hidden app sys (-2) 40 = [-2; -1; 12] ∧ entries hidden root sys (-2) 40 = [-2; -1; 1; 12].
Proof. split; vm_compute; reflexivity. Qed.

Lemma sys_inode : task_inode sys 51 (Inode 101 0 0 0 2 22 Ops_tgid true) (Pid 12 102).
Proof. split; reflexivity. Qed.

(** ** The theorems at work *)

(** Both kinds of file written for the app: by itself to lower its score, which is refused, and by [root]. *)
Definition line (v : Z) : list Z := sdecimal v ++ [10].
Definition writes : list oom_op := [Write_oom_adj app 51 (line (-5)) 3; Write_oom_score_adj root 51 (line 300) 4].

Lemma oom_scores_stay_legal_witness : ∃ rs s', run_ooms writes sys = Some (rs, s') ∧ only_scores sys s' ∧ scores_legal s'.
Proof.
  apply oom_scores_stay_legal; [apply sys_procs_ok| |].
  - intros g sg Hg. map_cases Hg; cbn; lia.
  - repeat constructor; eexists _, _; exact sys_inode.
Defined.

Example writes_answered : fst <$> run_ooms writes sys = Some [- Errno.EACCES; 4].
Proof. vm_compute. reflexivity. Qed.

Lemma unprivileged_writers_respect_floor_witness :
  ∃ rs s', run_ooms [Write_oom_score_adj app 51 (line 200) 4] sys = Some (rs, s') ∧ ∀ g sg, ps_signals sys !! g = Some sg → ∃ sg', ps_signals s' !! g = Some sg' ∧
    Z.min (sg_oom_score_adj sg) (sg_oom_score_adj_min sg) ≤ sg_oom_score_adj sg' ∧ sg_oom_score_adj_min sg' = sg_oom_score_adj_min sg ∧
    (sg_oom_score_adj sg' ≠ sg_oom_score_adj sg → ∃ op t k, op ∈ [Write_oom_score_adj app 51 (line 200) 4] ∧ ps_tasks sys !! t = Some k ∧ tk_signal k = g ∧ (cl_euid (oom_caller op) = tk_uid k ∨ cl_euid (oom_caller op) = tk_euid k)).
Proof.
  apply unprivileged_writers_respect_floor; [apply sys_procs_ok|]. repeat constructor. eexists _, _. exact sys_inode.
Defined.

Definition app_task : task_struct := task0 22 32 42 1000 102 103 "app".
Lemma app_living : living sys (Pid 12 102) app_task (group0 0 0 22 2).
Proof. unfold living. cbn. split_and!; try reflexivity; lia. Qed.

Lemma oom_score_adj_reads_what_was_written_witness :
  ∃ s', oom_score_adj_write app 51 (line 300) 4 sys = Some (4, s') ∧ oom_score_adj_read 51 20 20 0 s' = Some ((4, line 300, 4), s').
Proof.
  apply (oom_score_adj_reads_what_was_written sys app 51 _ _ app_task (group0 0 0 22 2) 300 20 20 sys_procs_ok sys_inode app_living); [cbn; lia|reflexivity|right; cbn; lia|vm_compute; discriminate|vm_compute; discriminate].
Defined.

Lemma mem_read_delivers_memory_witness :
  ∃ ret n d s' log, mem_read 41 100 50 4000 sys = Some ((ret, 4000 + n, seg (λ a, a mod 256) 4000 d), s') ∧ 0 ≤ n ≤ d ∧ d ≤ 50 ∧ d ≤ 100 ∧
    accessed sys s' log ∧ within 41 4000 4050 log ∧ (d = n ∧ ret = n ∨ d = 0 ∧ (ret = - Errno.EIO ∨ ret = - Errno.ENOMEM) ∨ ret = - Errno.EFAULT) ∧
    (all_there 41 false → 50 ≤ 100 → 1 ≠ 0 → get_free_page (ps_tick sys) = true → ret = 50 ∧ n = 50 ∧ d = 50).
Proof. apply (mem_read_delivers_memory sys 41 (mem0 4096 4200) 100 50 4000); try lia. reflexivity. Defined.

Lemma environ_read_stays_in_environment_witness :
  ∃ ret pos' n d s' log, environ_read 41 100 200 (2 ^ 32 + 100) sys = Some ((ret, pos', seg (λ a, a mod 256) 4196 d), s') ∧
    0 ≤ n ≤ d ∧ d ≤ 200 ∧ d ≤ 100 ∧ (d = 0 ∨ 100 + d ≤ 4200 - 4096) ∧ (pos' = 100 + n ∨ pos' = 2 ^ 32 + 100 ∧ d = 0) ∧
    accessed sys s' log ∧ within 41 4096 4200 log ∧ (d = n ∧ (ret = n ∨ ret = 0) ∨ ret = - Errno.EFAULT ∨ ret = - Errno.ENOMEM ∧ d = 0) ∧
    (all_there 41 false → 200 ≤ 100 → 1 ≠ 0 → get_free_page (ps_tick sys) = true → n = Z.max 0 (Z.min 200 (4200 - 4096 - 100)) ∧ d = n ∧ ret = n ∧ pos' = 100 + n).
Proof. apply (environ_read_stays_in_environment sys 41 (mem0 4096 4200) 100 200 (2 ^ 32 + 100)); try (cbn; lia). reflexivity. Defined.

(** *** Directories *)

Lemma proc_listing_in_calls_witness :
  ∃ pos s', read_calls hidden root 50 71 72 [(2%nat, id); (1%nat, id); (5%nat, id)] dir_start sys = Some (take 8 (name_of <$> entries hidden root sys (-2) PID_MAX_LIMIT), pos, s') ∧ fs_ok s' ∧ same_procs sys s'.
Proof. exact (proc_listing_in_calls hidden root 50 71 72 [2%nat; 1%nat; 5%nat] sys sys_ok). Defined.

(** A number is given up. *)
Definition exits (nr : Z) (s : pstate) : pstate :=
  Pstate (ps_pids s) (delete nr (ps_numbers s)) (ps_tasks s) (ps_signals s) (ps_mms s) (ps_inodes s) (ps_dcache s) (ps_next_ino s) (ps_paths s) (ps_tick s) (ps_remote s) (ps_user_nss s).

Lemma exits_spares ns cur nr m : nr ≠ m → spares ns cur m (exits nr).
Proof.
  intros Hn s [[H1' H2' H3' H4' H5'] Hd Hnum]. split.
  - split; [by split|exact Hd|]. intros n pid Hl. cbn in Hl. apply lookup_delete_Some in Hl as [_ Hl]. by eapply Hnum.
  - unfold listed, leader_of. cbn. by rewrite lookup_delete_ne.
Qed.

Lemma staying_process_listed_once_witness :
  ∃ out pos s', read_calls hidden root 50 71 72 [(3%nat, exits 1); (5%nat, exits 13)] dir_start sys = Some (out, pos, s') ∧ NoDup out ∧ (pos = dir_end → decimal 12 ∈ out).
Proof.
  apply (staying_process_listed_once hidden root 50 71 72 _ sys 12); [apply sys_ok|vm_compute; reflexivity|lia|]. apply Forall_cons; split; [apply exits_spares; lia|]. apply Forall_cons; split; [apply exits_spares; lia|constructor].
Defined.

Lemma process_found_by_number_witness :
  ∃ r s', proc_pid_lookup 50 (decimal 12) sys = Some (r, s') ∧ fs_ok s' ∧ same_procs sys s' ∧ (r = 0 ∧ cached s' 50 (decimal 12) 22 Ops_tgid ∨ r = - Errno.ENOENT ∧ no_inode sys).
Proof. exact (process_found_by_number sys 50 12 102 app_task sys_ok eq_refl). Defined.

Lemma entry_listing_and_lookup_witness :
  (∃ c' s', proc_pident_readdir 51 1 (Ctx 5 4 []) tgid_base_stuff sys = Some ((0, c'), s') ∧ fs_ok s' ∧ same_procs sys s' ∧
     names c' = take 4 (drop 3 (pe_name <$> tgid_base_stuff)) ∧ cx_pos c' = 2 + Z.of_nat (min (3 + 4) (length tgid_base_stuff))) ∧
  (∀ name, ∃ r s', proc_pident_lookup 51 name tgid_base_stuff sys = Some (r, s') ∧ fs_ok s' ∧ same_procs sys s' ∧
     if bool_decide (name ∈ pe_name <$> tgid_base_stuff) then r = 0 ∧ cached s' 51 name 22 (Ops_entry name) ∨ r = - Errno.ENOENT ∧ no_inode sys
     else r = - Errno.ENOENT ∧ s' = sys).
Proof. apply (entry_listing_and_lookup sys 51 _ _ app_task 1 tgid_base_stuff 3 4 sys_ok sys_inode); [cbn; lia|reflexivity|cbn; lia|cbn; lia]. Defined.

Definition app_threads : list (Z * Z) := [(102, 12); (103, 13)].

Lemma app_ring : ring sys 102 32 app_threads.
Proof.
  split; [|reflexivity| |].
  - split; [|split; [|done]].
    + split; [lia|cbn; lia|]. exists app_task, (Pid 12 102). split_and!; try reflexivity. cbn. lia.
    + split; [lia|cbn; lia|]. exists (task0 23 32 42 1000 102 102 "worker"), (Pid 13 103). split_and!; try reflexivity. cbn. lia.
  - apply (bool_decide_unpack _). by vm_compute.
  - exists (group0 0 0 22 2). split; [reflexivity|]. cbn. lia.
Qed.

Lemma thread_listing_in_calls_witness :
  ∃ s', read_task_calls 51 1 [1%nat; 2%nat; 4%nat] 0 0 sys = Some (take 7 (thread_names app_threads), s') ∧ fs_ok s' ∧ same_procs sys s'.
Proof.
  apply (thread_listing_in_calls sys 102 32 app_threads 51 _ 1 [1%nat; 2%nat; 4%nat] sys_ok app_ring eq_refl). exists (Pid 12 102), app_task. split_and!; try reflexivity. cbn. lia.
Defined.

Lemma thread_found_in_its_group_witness :
  ∃ r s', proc_task_lookup 51 (decimal 13) sys = Some (r, s') ∧ fs_ok s' ∧ same_procs sys s' ∧ (r = 0 ∧ cached s' 51 (decimal 13) 23 Ops_tid ∨ r = - Errno.ENOENT ∧ no_inode sys).
Proof. exact (thread_found_in_its_group sys 51 _ _ app_task 13 sys_ok sys_inode ltac:(cbn; lia) eq_refl ltac:(lia)). Defined.

Lemma hidden_process_is_nowhere_witness :
  (∀ lo hi, 0 ≤ lo → 12 ∉ entries hidden other sys lo hi) ∧ pid_getattr hidden other 51 sys = Some ((- Errno.ENOENT, 0, 0), sys) ∧ proc_pid_permission hidden other 51 1 sys = Some (- Errno.ENOENT, sys).
Proof.
  apply (hidden_process_is_nowhere hidden other sys 12 102 app_task 51 (Inode 101 0 0 0 2 22 Ops_tgid true) (Pid 12 102) 1 sys_ok); [reflexivity|by intros ?%elem_of_nil|reflexivity|reflexivity|exact sys_inode|reflexivity].
Defined.

Lemma flush_removes_cached_names_witness :
  ∃ s', proc_flush_task_mnt 50 13 12 sys = Some ((), s') ∧ (∃ dc, s' = set_ps_dcache dc sys) ∧ ps_dcache s' !! (50, decimal 13) = None ∧
    (∀ dir, 13 ≠ 12 → task_dir sys 50 12 = Some dir → ps_dcache s' !! (dir, decimal 13) = None) ∧
    (∀ dir name, name ≠ decimal 13 → ps_dcache s' !! (dir, name) = ps_dcache sys !! (dir, name)).
Proof. apply (flush_removes_cached_names sys 50 13 12); lia. Defined.

(** *** Small files and links *)

Lemma app_has_task : task_of sys (Pid 12 102) app_task.
Proof. split; [cbn; lia|reflexivity]. Qed.

Lemma comm_shows_what_was_written_witness :
  let name := bytes_of "main" in
  comm_write app 51 name 4 sys = Some (4, renamed sys 102 app_task name) ∧ comm_show 51 (renamed sys 102 app_task name) = Some ((0, name ++ [10]), renamed sys 102 app_task name).
Proof. exact (comm_shows_what_was_written sys app 51 _ _ app_task app_task (bytes_of "main") 4 sys_procs_ok sys_inode app_has_task eq_refl ltac:(cbn; lia)). Defined.

Lemma link_text_only_for_tracers_witness :
  ∃ r out s', proc_pid_readlink app 52 100 7 sys = Some ((r, out), s') ∧ untouched sys s' ∧ (r, out) = (7, bytes_of "/system").
Proof.
  exact (link_text_only_for_tracers sys app 52 (Inode 102 0 0 0 1 22 (Ops_entry (bytes_of "exe")) false) (Pid 12 102) (Some 63) 100 7 sys_procs_ok (conj eq_refl eq_refl) (or_intror (or_intror (conj eq_refl eq_refl)))).
Defined.

(** Memory of the caller that ends after three bytes has them when the error comes. *)
Example link_text_cut_off : fst <$> proc_pid_readlink app 52 3 7 sys = Some (- Errno.EFAULT, bytes_of "/sy").
Proof. vm_compute. reflexivity. Qed.

Lemma trace_files_need_attach_witness : ∃ r s', proc_single_show (proc_pid_personality other) 51 sys = Some ((r, []), s') ∧ r < 0 ∧ ∃ t, s' = set_ps_tick t sys.
Proof. apply (trace_files_need_attach sys other 51 _ _ app_task _ sys_procs_ok sys_inode app_has_task); [reflexivity|by left]. Defined.

Lemma limit_lines_aligned_witness : length (limit_line (bytes_of "Max open files", Some (bytes_of "files")) (1024, 4096)) = (length limits_head - 0)%nat.
Proof. apply (limit_lines_aligned (bytes_of "Max open files", Some (bytes_of "files")) (1024, 4096)); [apply (bool_decide_unpack _); by vm_compute|cbn; lia|cbn; lia]. Defined.

(** ** What reading the environment misses *)

(** While a program is being started, its environment begins at an address and has no end yet: what is read is the memory behind the beginning, which is not the environment. *)
Example unset_environment_is_read : fst <$> environ_read 43 4 4 0 sys = Some (4, 4, [0; 1; 2; 3]).
Proof. vm_compute. reflexivity. Qed.

(** An access that fails after others have succeeded makes the result 0, though two bytes were copied and the position moved. *)
Example environment_bytes_forgotten : fst <$> environ_read 42 10 10 0 sys = Some (0, 2, [254; 255]).
Proof. vm_compute. reflexivity. Qed.

(** The position counts modulo 2^32: a read far behind the end of the environment starts again at its beginning, and moves the position back. *)
Example far_position_wraps : fst <$> environ_read 41 4 4 (2 ^ 32) sys = Some (4, 4, [0; 1; 2; 3]).
Proof. vm_compute. reflexivity. Qed.

(** ** Mapped files, and the files of other configurations *)

(** Two mapped files, and memory between them that is no file. *)
Definition areas : list vm_area_struct := [Vma 32768 65536 (Some (63, 1)); Vma 65536 69632 None; Vma 1073741824 1073745920 (Some (64, 3))].
#[local] Instance maps : MapsKernel := {| mm_mmap _ _ := areas; flex_array_alloc _ := true |}.

#[local] Instance options : OptionsKernel := {|
  get_cmdline _ _ := bytes_of "app"; kmalloc_ok _ := true; save_stack_trace_tsk _ _ := [3221225472]; pointer_text := hexadecimal; symbol_text := hexadecimal;
  sched_counters _ _ := (1, 2, 3); latency_record _ _ := []; sched_text _ _ := []; autogroup_text _ _ := []; autogroup_set_nice _ _ _ := 0;
  from_kuid _ u := u; make_kuid _ u := u; INVALID_UID := 2 ^ 32 - 1; AUDIT_UID_UNSET := 2 ^ 32 - 1; audit_set_loginuid _ _ _ := 0; single_open_ret _ := 0;
  ns_sys_admin _ _ := false; security_getprocattr _ _ _ := (0, []); security_setprocattr _ _ _ _ := 0; mutex_lock_interruptible _ := 0;
  SIGEV_SIGNAL := 0; SIGEV_NONE := 1; SIGEV_THREAD := 2; SIGEV_THREAD_ID := 4; MMF_DUMP_FILTER_SHIFT := 2; MMF_DUMP_FILTER_BITS := 7 |}.

#[local] Instance options_laws : OptionsLaws.
Proof. split; cbn; (lia || done). Qed.

Lemma app_mapped : mapped_process sys root 51 (Inode 101 0 0 0 2 22 Ops_tgid true) (Pid 12 102) app_task (mem0 8190 8196) areas.
Proof.
  split; [exact sys_ok|exact sys_inode|by split|done|by split|done|done|]. split; [repeat constructor; cbn; lia|]. repeat constructor; cbn; lia.
Qed.

(** The directory read in two calls. *)
Example app_maps_listed :
  (∃ s', fst <$> proc_map_files_readdir root true 51 1 (Ctx 2 1 []) sys = Some (0, s') ∧ names s' = [bytes_of "8000-10000"] ∧ cx_pos s' = 3) ∧
  (∃ s', fst <$> proc_map_files_readdir root true 51 1 (Ctx 3 5 []) sys = Some (0, s') ∧ names s' = [bytes_of "40000000-40001000"] ∧ cx_pos s' = 4).
Proof. split; (eexists; split; [vm_compute; reflexivity|vm_compute; split; reflexivity]). Qed.

Example app_map_listed :
  ∃ c' s', proc_map_files_readdir root true 51 1 (Ctx 3 5 []) sys = Some ((0, c'), s') ∧ names c' = take 5 (drop 1 (file_names areas)).
Proof.
  destruct (map_files_listing sys root 51 _ _ app_task _ areas 1 1 5 app_mapped) as [(c' & s' & Hr & _ & _ & Hn & _) _]; [done|cbn; lia|]. by exists c', s'.
Qed.

Lemma map_file_found_witness :
  (∃ r s', proc_map_files_lookup root true 51 (map_text 32768 65536) sys = Some (r, s') ∧ fs_ok s') ∧
  proc_map_files_get_link 51 (map_text 32768 65536) sys = Some (inr 63, with_path 63 (set_ps_tick 1 sys)).
Proof.
  destruct (map_file_found sys root 51 _ _ app_task _ areas (Vma 32768 65536 (Some (63, 1))) 63 1 app_mapped) as (_ & (r & s' & Hr & Hok & _) & Hl & _); [left|reflexivity|].
  split; [exists r, s'; split; [exact Hr|exact Hok]|exact (Hl 51 _ sys_inode)].
Defined.

(** The filter keeps seven bits.  What it shows has no prefix, so that written back as it is read it is taken for an octal number. *)
Example filter_written_and_read :
  ∃ s', proc_coredump_filter_write 51 (hex_line 35) (zlen (hex_line 35)) sys = Some (zlen (hex_line 35), s') ∧
    proc_coredump_filter_read 51 20 20 0 s' = Some ((9, bytes_of "00000023" ++ [10], 9), s').
Proof.
  destruct (coredump_filter_shows_what_was_written sys 51 (Inode 101 0 0 0 2 22 Ops_tgid true) (Pid 12 102) app_task (mem0 8190 8196) 35 20) as (flags & Hw & _ & Hr); [|lia|lia|].
  - split; [exact sys_procs_ok|exact sys_inode|by split|by split].
  - eexists. split; [exact Hw|]. exact (Hr 0).
Qed.

Example filter_text_is_octal : simple_strtoull (bytes_of "00000023" ++ [10]) 0 = (19, [10]).
Proof. vm_compute. reflexivity. Qed.

(** The counters of the app's two threads and of those that are gone. *)
Example app_io : fst <$> proc_tgid_io_accounting root 102 sys = Some (0, io_text [12; 14; 16; 18; 20; 22; 24]).
Proof. vm_compute. reflexivity. Qed.

Example app_login :
  ∃ s', proc_loginuid_write app 71 51 (decimal 1000) 4 0 sys = Some (4, s') ∧ proc_loginuid_read 71 51 20 20 0 s' = Some ((4, decimal 1000, 4), s').
Proof.
  pose proof (loginuid_shows_what_was_written sys app 71 51 _ _ app_task 1000 20 sys_procs_ok sys_inode) as Hw.
  destruct Hw as (s' & H1' & _ & H2'); [by split|lia|done..|vm_compute; reflexivity|vm_compute; discriminate|]. by exists s'.
Qed.

End ProcDemo.
