(* ===== verification/Tools.v ===== *)
(** * The small programs beside the display path

    From [gralloc_eink/src/]: the shim that traces the binder calls of every process ([binder_trace_shim.c]), the probe that makes one call to the servicemanager
    ([binder_probe.c]), the descriptors the USB probe writes ([ffs_probe.c]), the user side of shared memory ([ashmem-dev.c]) and [su.c].  What the system answers is given; what is written
    to a log is a record of the fields of a line.

    The shim changes nothing for the process it is loaded into, the probe sees a final reply exactly if a later answer has one, the USB descriptors are what their
    lengths and counts say, a failed region leaves no descriptor open, and the shell starts as root or not at all. *)
From Stdlib Require Import String.
From stdpp Require Import list.
From S2P Require Import Prelude Text Bio.

Module Shim.

(** ** The trace of binder calls *)

(** [struct binder_write_read]: a buffer is the bytes at its address, or null. *)
Record binder_write_read := Bwr {
  write_size : Z; write_consumed : Z; write_buffer : option (list Z);
  read_size : Z; read_consumed : Z; read_buffer : option (list Z) }.

(** The commands of the binder header, and the calls below: [real_ioctl] gives the result, errno and the argument as the driver leaves it, at the call with a number; each of the others may change errno. *)
Class Libc := {
  BINDER_WRITE_READ : Z; sizeof_binder_transaction_data : Z;
  BC_TRANSACTION : Z; BC_REPLY : Z; BC_ENTER_LOOPER : Z; BC_REGISTER_LOOPER : Z; BC_EXIT_LOOPER : Z; BC_FREE_BUFFER : Z;
  BR_TRANSACTION : Z; BR_REPLY : Z; BR_TRANSACTION_COMPLETE : Z; BR_NOOP : Z; BR_DEAD_REPLY : Z; BR_FAILED_REPLY : Z; BR_SPAWN_LOOPER : Z;
  BR_INCREFS : Z; BR_ACQUIRE : Z; BR_RELEASE : Z; BR_DECREFS : Z;
  dlsym_ioctl : nat → bool;
  real_ioctl : nat → Z → Z → option binder_write_read → Z * Z * option binder_write_read;
  now_ns : nat → bool → Z;
  fopen_log : nat → bool * Z;
  fprintf_errno : nat → Z → Z;
  getpid : nat → Z; gettid : nat → Z }.

(** A line of the log. *)
Record trace_line := Line {
  ln_time : Z * Z; ln_pid : Z; ln_tid : Z; ln_fd : Z; ln_write_size : Z; ln_write_cmd : string; ln_handle : Z; ln_read_size : Z;
  ln_ret : Z; ln_errno : Z; ln_write_consumed : Z; ln_read_consumed : Z; ln_read_cmd : string; ln_us : Z }.

(** The globals of the shim, errno, and how many calls went through. *)
Record shim := ShimState { sh_real : bool; sh_log : bool; sh_lines : list trace_line; sh_errno : Z; sh_calls : nat }.

Section Shim.
Context `{Libc}.

Definition cmd_name (cmd : Z) : string :=
  if cmd =? BC_TRANSACTION then "BC_TRANSACTION" else if cmd =? BC_REPLY then "BC_REPLY" else if cmd =? BC_ENTER_LOOPER then "BC_ENTER_LOOPER"
  else if cmd =? BC_REGISTER_LOOPER then "BC_REGISTER_LOOPER" else if cmd =? BC_EXIT_LOOPER then "BC_EXIT_LOOPER" else if cmd =? BC_FREE_BUFFER then "BC_FREE_BUFFER"
  else if cmd =? BR_TRANSACTION then "BR_TRANSACTION" else if cmd =? BR_REPLY then "BR_REPLY" else if cmd =? BR_TRANSACTION_COMPLETE then "BR_TRANSACTION_COMPLETE"
  else if cmd =? BR_NOOP then "BR_NOOP" else if cmd =? BR_DEAD_REPLY then "BR_DEAD_REPLY" else if cmd =? BR_FAILED_REPLY then "BR_FAILED_REPLY"
  else if cmd =? BR_SPAWN_LOOPER then "BR_SPAWN_LOOPER" else if cmd =? BR_INCREFS then "BR_INCREFS" else if cmd =? BR_ACQUIRE then "BR_ACQUIRE"
  else if cmd =? BR_RELEASE then "BR_RELEASE" else if cmd =? BR_DECREFS then "BR_DECREFS" else "?".

(** [shim_init], when the library is loaded. *)
Definition shim_init (s : shim) : shim := ShimState (dlsym_ioctl (sh_calls s)) (sh_log s) (sh_lines s) (sh_errno s) (sh_calls s).

(** The first command of what is written, and the handle a call is for. *)
Definition first_command (b : binder_write_read) : option (Z * Z) :=
  match write_buffer b with
  | Some w =>
    if 4 <=? write_size b then
      cmd ← load32 w 0;
      if ((cmd =? BC_TRANSACTION) || (cmd =? BC_REPLY)) && (4 + sizeof_binder_transaction_data <=? write_size b) then handle ← load32 w 4; Some (cmd, handle)
      else Some (cmd, 4294967295)
    else Some (0, 4294967295)
  | None => Some (0, 4294967295)
  end.

(** The result, and the argument afterwards; a call before the library was found is a call of null. *)
Definition ioctl (fd request : Z) (argp : option binder_write_read) (s : shim) : option (Z * option binder_write_read * shim) :=
  let s := if sh_real s then s else shim_init s in
  if negb (sh_real s) then None
  else
    let n := sh_calls s in
    let '(ret, saved_errno, after) := real_ioctl n fd request argp in
    match (if request =? BINDER_WRITE_READ then argp else None) with
    | None => Some (ret, after, ShimState (sh_real s) (sh_log s) (sh_lines s) saved_errno (S n))
    | Some bwr =>
      '(first_write_cmd, write_handle) ← first_command bwr;
      bwr' ← after;
      first_read_cmd ← match read_buffer bwr' with Some r => if 4 <=? read_consumed bwr' then load32 r 0 else Some 0 | None => Some 0 end;
      let '(log, errno) := if sh_log s then (true, saved_errno) else fopen_log n in
      let t0 := now_ns n false in
      let t1 := now_ns n true in
      let line := Line (Z.quot t1 1000000000, Z.rem (Z.quot t1 1000000) 1000) (getpid n) (gettid n) fd (write_size bwr) (cmd_name first_write_cmd) write_handle (read_size bwr)
                    ret (if ret <? 0 then saved_errno else 0) (write_consumed bwr') (read_consumed bwr') (cmd_name first_read_cmd) (Z.quot (t1 - t0) 1000) in
      let errno := if log then fprintf_errno n errno else errno in
      let errno := saved_errno in
      Some (ret, after, ShimState (sh_real s) log (if log then sh_lines s ++ [line] else sh_lines s) errno (S n))
    end.

(** ** The probe of the servicemanager *)

(** The call the probe makes: to handle 0, with nothing in it. *)
Definition probe_message : list Z := le_encode 4 BC_TRANSACTION ++ replicate (Z.to_nat sizeof_binder_transaction_data) 0.

(** What the probe reads: the words in its buffer of 256 and how many bytes of them are new. *)
Record reading := Reading { rd_words : list Z; rd_consumed : Z }.

(** One round of waiting: the seconds since the start, what [poll] answers, and what is read then. *)
Record round := Round { ro_elapsed : Z; ro_poll : Z; ro_reading : reading }.

(** The words that are looked at. *)
Definition new_words (r : reading) : nat := Z.to_nat (Z.min 256 (Z.div (rd_consumed r + 3) 4)).
Fixpoint scan_words (words : list Z) (n i : nat) : option (list Z) :=
  match n with O => Some [] | S n => w ← words !! i; rest ← scan_words words n (S i); Some (w :: rest) end.

Definition final_reply (cmd : Z) : bool := (cmd =? BR_REPLY) || (cmd =? BR_DEAD_REPLY) || (cmd =? BR_FAILED_REPLY).

(** Waiting; whether a final reply was seen, or [None] when the rounds do not last for the thirty seconds. *)
Fixpoint wait_rounds (rounds : list round) : option bool :=
  match rounds with
  | [] => None
  | r :: rounds =>
    if negb (ro_elapsed r <? 30) then Some false
    else if ro_poll r <=? 0 then wait_rounds rounds
    else words ← scan_words (rd_words (ro_reading r)) (new_words (ro_reading r)) 0; if existsb final_reply words then Some true else wait_rounds rounds
  end.

(** The words of the first answer are printed only. *)
Definition do_transact_and_wait (first : reading) (rounds : list round) : option (list Z * bool) :=
  words ← scan_words (rd_words first) (new_words first) 0; got_final ← wait_rounds rounds; Some (words, got_final).

End Shim.
End Shim.

Module Ffs.

(** ** The descriptors of the USB function *)

Definition MAX_PACKET_SIZE_FS : Z := 64.
Definition MAX_PACKET_SIZE_HS : Z := 512.
Definition USB_DT_INTERFACE : Z := 4.
Definition USB_DT_ENDPOINT : Z := 5.
Definition USB_DIR_OUT : Z := 0.
Definition USB_DIR_IN : Z := 128.
Definition USB_ENDPOINT_XFER_BULK : Z := 2.

Record usb_interface_descriptor_p := Intf {
  i_bLength : Z; i_bDescriptorType : Z; i_bInterfaceNumber : Z; i_bAlternateSetting : Z; i_bNumEndpoints : Z;
  i_bInterfaceClass : Z; i_bInterfaceSubClass : Z; i_bInterfaceProtocol : Z; i_iInterface : Z }.
Record usb_endpoint_descriptor_p := Endp {
  e_bLength : Z; e_bDescriptorType : Z; e_bEndpointAddress : Z; e_bmAttributes : Z; e_wMaxPacketSize : Z; e_bInterval : Z }.
Record func_desc := Func { intf : usb_interface_descriptor_p; source : usb_endpoint_descriptor_p; sink : usb_endpoint_descriptor_p }.

(** The structures are packed. *)
Definition intf_bytes (i : usb_interface_descriptor_p) : list Z :=
  [i_bLength i; i_bDescriptorType i; i_bInterfaceNumber i; i_bAlternateSetting i; i_bNumEndpoints i; i_bInterfaceClass i; i_bInterfaceSubClass i; i_bInterfaceProtocol i; i_iInterface i].
Definition endp_bytes (e : usb_endpoint_descriptor_p) : list Z :=
  [e_bLength e; e_bDescriptorType e; e_bEndpointAddress e; e_bmAttributes e] ++ le_encode 2 (e_wMaxPacketSize e) ++ [e_bInterval e].
Definition func_bytes (f : func_desc) : list Z := intf_bytes (intf f) ++ endp_bytes (source f) ++ endp_bytes (sink f).

Definition descs (max_packet : Z) : func_desc :=
  Func (Intf 9 USB_DT_INTERFACE 0 0 2 255 66 1 1)
    (Endp 7 USB_DT_ENDPOINT (1 ||| USB_DIR_OUT) USB_ENDPOINT_XFER_BULK max_packet 0)
    (Endp 7 USB_DT_ENDPOINT (2 ||| USB_DIR_IN) USB_ENDPOINT_XFER_BULK max_packet 0).

(** [sizeof] of the two blocks. *)
Definition sizeof_descriptors : Z := 16 + 2 * (9 + 7 + 7).
Definition STR_INTERFACE : list Z := bytes_of "ADB Interface".
Definition sizeof_strings : Z := 16 + 2 + (zlen STR_INTERFACE + 1).

Definition descriptors : list Z :=
  le_encode 4 1 ++ le_encode 4 sizeof_descriptors ++ le_encode 4 3 ++ le_encode 4 3 ++ func_bytes (descs MAX_PACKET_SIZE_FS) ++ func_bytes (descs MAX_PACKET_SIZE_HS).
Definition strings : list Z :=
  le_encode 4 2 ++ le_encode 4 sizeof_strings ++ le_encode 4 1 ++ le_encode 4 1 ++ le_encode 2 0x0409 ++ STR_INTERFACE ++ [0].

End Ffs.

Module Ashmem.

(** ** Shared memory *)

(** The calls made to the system. *)
Inductive syscall := Sys_open (path : list Z) | Sys_set_name (fd : Z) (buf : list Z) | Sys_set_size (fd size : Z) | Sys_close (fd : Z) | Sys_set_prot (fd prot : Z)
  | Sys_pin (fd offset len : Z) | Sys_unpin (fd offset len : Z) | Sys_get_size (fd : Z).

Section Ashmem.
(** What the system answers, and the room for a name. *)
Context (answer : syscall → Z) (ASHMEM_NAME_LEN : Z).

(** The result and the calls. *)
Definition ashmem_create_region (name : option (list Z)) (size : Z) : Z * list syscall :=
  let o := Sys_open (bytes_of "/dev/ashmem") in
  let fd := answer o in
  if fd <? 0 then (fd, [o])
  else
    let set_size tr := let c := Sys_set_size fd size in if answer c <? 0 then (answer c, tr ++ [c; Sys_close fd]) else (fd, tr ++ [c]) in
    match name with
    | Some name =>
      let c := Sys_set_name fd (take (Z.to_nat (ASHMEM_NAME_LEN - 1)) name ++ [0]) in
      if answer c <? 0 then (answer c, [o; c; Sys_close fd]) else set_size [o; c]
    | None => set_size [o]
    end.

Definition ashmem_set_prot_region (fd prot : Z) : Z * list syscall := (answer (Sys_set_prot fd prot), [Sys_set_prot fd prot]).
Definition ashmem_pin_region (fd offset len : Z) : Z * list syscall := (answer (Sys_pin fd offset len), [Sys_pin fd offset len]).
Definition ashmem_unpin_region (fd offset len : Z) : Z * list syscall := (answer (Sys_unpin fd offset len), [Sys_unpin fd offset len]).
Definition ashmem_get_size_region (fd : Z) : Z * list syscall := (answer (Sys_get_size fd), [Sys_get_size fd]).

End Ashmem.
End Ashmem.

Module Su.

(** ** The root shell *)

Inductive su_call := Sys_setgid (gid : Z) | Sys_setuid (uid : Z) | Sys_setgroups (groups : list Z) | Sys_exec (path : list Z) (argv : list (list Z)).

(** The arguments, what the system answers; the result, if the shell does not start, and the calls. *)
Definition main (answer : su_call → Z) (argv : list (list Z)) : Z * list su_call :=
  let g := Sys_setgid 0 in
  let u := Sys_setuid 0 in
  if truthy (answer g) then (1, [g])
  else if truthy (answer u) then (1, [g; u])
  else
    let sh := bytes_of "/system/bin/sh" in
    let exec := match argv with
                | _ :: arg1 :: arg2 :: _ => if decide (arg1 = bytes_of "-c") then Sys_exec sh [bytes_of "sh"; bytes_of "-c"; arg2] else Sys_exec sh [bytes_of "sh"]
                | _ => Sys_exec sh [bytes_of "sh"]
                end in
    (1, [g; u; Sys_setgroups []; exec]).

End Su.

Module ShimProps.
Import Shim.
Section ShimProps.
Context `{Libc}.

(** The caller's buffers hold what their sizes say, and the driver does not claim to have filled more than there is. *)
Definition holds (buf : option (list Z)) (n : Z) : Prop := match buf with Some w => n ≤ zlen w | None => True end.
Definition answer_ok (r : Z * Z * option binder_write_read) : Prop := ∃ b, r.2 = Some b ∧ holds (read_buffer b) (read_consumed b).

Lemma word_there m p : 0 ≤ p → p + 4 ≤ zlen m → ∃ v, load32 m p = Some v.
Proof. intros Hp Hl. unfold load32. rewrite mem_read_Some by lia. by eexists. Qed.

Lemma first_command_Some b : 0 ≤ sizeof_binder_transaction_data - 4 → holds (write_buffer b) (write_size b) → ∃ r, first_command b = Some r.
Proof.
  intros Hs Hw. unfold first_command. destruct (write_buffer b) as [w|]; [|by eexists]. cbn in Hw. destruct (Z.leb_spec 4 (write_size b)); [|by eexists].
  destruct (word_there w 0) as [cmd ->]; [lia..|]. cbn. destruct (_ && _) eqn:E; [|by eexists]. apply andb_true_iff in E as [_ E]. destruct (word_there w 4) as [h ->]; [lia..|]. by eexists.
Qed.

(** The shim is invisible to the process: with the C library found and buffers that are what they say, every call returns what the real one returns, with the same errno and the same effect on the
    argument, whatever the log's own calls do to errno; a call to the binder driver adds one line with its result if the log can be opened, any other call none. *)
Theorem shim_is_invisible fd request argp s :
  4 ≤ sizeof_binder_transaction_data → sh_real s = true ∨ dlsym_ioctl (sh_calls s) = true →
  (∀ b, request = BINDER_WRITE_READ → argp = Some b → holds (write_buffer b) (write_size b) ∧ answer_ok (real_ioctl (sh_calls s) fd request argp)) →
  let '(ret, err, after) := real_ioctl (sh_calls s) fd request argp in
  ∃ s' new, ioctl fd request argp s = Some (ret, after, s') ∧ sh_errno s' = err ∧ sh_lines s' = sh_lines s ++ new ∧
    (if bool_decide (request = BINDER_WRITE_READ ∧ is_Some argp) && (sh_log s || (fopen_log (sh_calls s)).1) then ∃ l, new = [l] ∧ ln_ret l = ret ∧ ln_fd l = fd else new = []).
Proof.
  intros Hsz Hreal Hbuf. unfold ioctl. set (s1 := if sh_real s then s else shim_init s).
  assert (sh_real s1 = true ∧ sh_calls s1 = sh_calls s ∧ sh_log s1 = sh_log s ∧ sh_lines s1 = sh_lines s) as (-> & -> & -> & ->).
  { unfold s1. destruct (sh_real s) eqn:E; [done|]. destruct Hreal as [|Hr]; [done|]. by cbn. }
  cbn [negb]. destruct (real_ioctl (sh_calls s) fd request argp) as [[ret err] after] eqn:Er. destruct (Z.eqb_spec request BINDER_WRITE_READ) as [Hreq|Hreq].
  2:{ eexists _, []. split; [reflexivity|]. split; [done|]. cbn. split; [by rewrite app_nil_r|]. by rewrite bool_decide_eq_false_2 by (intros [? _]; done). }
  destruct argp as [b|].
  2:{ eexists _, []. split; [reflexivity|]. split; [done|]. cbn. split; [by rewrite app_nil_r|]. by rewrite bool_decide_eq_false_2 by (intros [_ [? [=]]]). }
  destruct (Hbuf b Hreq eq_refl) as (Hw & b' & Hb' & Hr). cbn in Hb'. subst after. destruct (first_command_Some b ltac:(lia) Hw) as [[cmd handle] ->]. cbn [mbind option_bind].
  assert (∃ v, match read_buffer b' with Some r => if 4 <=? read_consumed b' then load32 r 0 else Some 0 | None => Some 0 end = Some v) as [v ->].
  { destruct (read_buffer b') as [r|]; [|by eexists]. cbn in Hr. destruct (Z.leb_spec 4 (read_consumed b')); [|by eexists]. apply word_there; lia. }
  cbn [mbind option_bind]. rewrite bool_decide_eq_true_2 by (split; [done|by eexists]). destruct (sh_log s); cbn [orb andb].
  - eexists _, _. split; [reflexivity|]. split; [done|]. split; [reflexivity|]. by eexists.
  - destruct (fopen_log (sh_calls s)) as [[] e]; cbn [fst]; eexists _, _; (split; [reflexivity|]); (split; [done|]); cbn; [split; [reflexivity|]; by eexists|split; [symmetry; apply app_nil_r|done]].
Qed.

(** *** The probe *)

Lemma scan_words_run words n i : (i + n ≤ length words)%nat → scan_words words n i = Some (take n (drop i words)).
Proof.
  revert i. induction n as [|n IH]; intros i Hl; cbn; [done|]. destruct (lookup_lt_is_Some_2 words i) as [w Hw]; [lia|]. rewrite Hw. cbn. rewrite IH by lia. cbn. by rewrite (drop_S words w i Hw).
Qed.

(** What a reading has new. *)
Definition fresh_words (r : reading) : list Z := take (new_words r) (rd_words r).
Definition reading_ok (r : reading) : Prop := length (rd_words r) = 256%nat ∧ 0 ≤ rd_consumed r.

Lemma reading_run r : reading_ok r → scan_words (rd_words r) (new_words r) 0 = Some (fresh_words r).
Proof. intros [Hl Hc]. rewrite scan_words_run; [by rewrite drop_0|]. unfold new_words. lia. Qed.

(** A round that ends the waiting with success. *)
Definition answered (r : round) : bool := (0 <? ro_poll r) && existsb final_reply (fresh_words (ro_reading r)).

(** Waiting for the servicemanager ends once thirty seconds are over, without reading outside the buffer, and reports a reply exactly if one of the
    readings before that has one; what the first call already brought is not among them. *)
Theorem probe_reports_later_replies first pre last :
  reading_ok first → Forall (λ r, reading_ok (ro_reading r) ∧ ro_elapsed r < 30) pre → 30 ≤ ro_elapsed last →
  do_transact_and_wait first (pre ++ [last]) = Some (fresh_words first, existsb answered pre).
Proof.
  intros Hfirst Hpre Hlast. unfold do_transact_and_wait. rewrite (reading_run first Hfirst). cbn [mbind option_bind]. assert (wait_rounds (pre ++ [last]) = Some (existsb answered pre)) as ->; [|done].
  clear first Hfirst. induction Hpre as [|r pre [Hr He] Hpre IH]; cbn [app wait_rounds existsb].
  - by destruct (Z.ltb_spec (ro_elapsed last) 30); [lia|].
  - destruct (Z.ltb_spec (ro_elapsed r) 30); [|lia]. cbn [negb]. unfold answered at 1. destruct (Z.leb_spec (ro_poll r) 0), (Z.ltb_spec 0 (ro_poll r)); try lia; cbn [andb orb]; [done|].
    rewrite (reading_run _ Hr). cbn. by destruct (existsb final_reply (fresh_words (ro_reading r))).
Qed.

End ShimProps.
End ShimProps.

Module FfsProps.
Import Ffs.

(** The descriptors that a reader finds by their lengths: their types, or nothing if a length leads outside. *)
Fixpoint walk (fuel : nat) (l : list Z) : option (list Z) :=
  match l, fuel with
  | [], _ => Some []
  | len :: type :: _, S fuel => if (2 <=? len) && (len <=? zlen l) then types ← walk fuel (drop (Z.to_nat len) l); Some (type :: types) else None
  | _, _ => None
  end.

(** The block of descriptors is what it claims: as long as its length field says, and read by the descriptors' own lengths it has, for each of the two speeds, an interface and two
    endpoints, as many as its counts; the endpoints of the full speed take 64 bytes and those of the high speed 512. *)
Theorem descriptors_are_consistent :
  zlen descriptors = sizeof_descriptors ∧ load32 descriptors 4 = Some (zlen descriptors) ∧
  walk 6 (drop 16 descriptors) = Some [USB_DT_INTERFACE; USB_DT_ENDPOINT; USB_DT_ENDPOINT; USB_DT_INTERFACE; USB_DT_ENDPOINT; USB_DT_ENDPOINT] ∧
  load32 descriptors 8 = Some 3 ∧ load32 descriptors 12 = Some 3 ∧
  (λ off, le_decode <$> mem_read descriptors off 2) <$> [16 + 13; 16 + 20; 39 + 13; 39 + 20] = [Some 64; Some 64; Some 512; Some 512].
Proof. vm_compute. split_and!; reflexivity. Qed.

(** The block of strings is as long as its length field says and ends with the one string its count announces, closed by a zero. *)
Theorem strings_are_consistent :
  zlen strings = sizeof_strings ∧ load32 strings 4 = Some (zlen strings) ∧ load32 strings 8 = Some 1 ∧ drop 18 strings = STR_INTERFACE ++ [0] ∧ 0 ∉ STR_INTERFACE.
Proof. split_and!; try (vm_compute; reflexivity). apply (bool_decide_unpack _). by vm_compute. Qed.

End FfsProps.

Module AshmemProps.
Import Ashmem.

Definition is_close (c : syscall) : bool := match c with Sys_close _ => true | _ => false end.

(** Making a region of shared memory succeeds with a descriptor that is left open, or fails with an error and every descriptor it had opened closed
    once, last of all; a name reaches the driver with its final zero and no longer than there is room for. *)
Theorem region_opened_or_closed answer len name size :
  1 ≤ len →
  let '(r, tr) := ashmem_create_region answer len name size in
  let fd := answer (Sys_open (bytes_of "/dev/ashmem")) in
  (if 0 <=? r then r = fd ∧ existsb is_close tr = false
   else if fd <? 0 then r = fd ∧ existsb is_close tr = false
   else ∃ tr', tr = tr' ++ [Sys_close fd] ∧ existsb is_close tr' = false) ∧
  (∀ fd' buf, Sys_set_name fd' buf ∈ tr → fd' = fd ∧ zlen buf ≤ len ∧ ∃ pre, buf = pre ++ [0]).
Proof.
  intros Hlen. unfold ashmem_create_region. set (o := Sys_open _). set (fd := answer o). destruct (Z.ltb_spec fd 0) as [Hneg|Hpos].
  { split; [by destruct (Z.leb_spec 0 fd); [lia|]|]. intros fd' buf [[=]|[]%elem_of_nil]%elem_of_cons. }
  assert (∀ tr0, existsb is_close tr0 = false → (∀ fd' buf, Sys_set_name fd' buf ∈ tr0 → fd' = fd ∧ zlen buf ≤ len ∧ ∃ pre, buf = pre ++ [0]) →
    let '(r, tr) := let c := Sys_set_size fd size in if answer c <? 0 then (answer c, tr0 ++ [c; Sys_close fd]) else (fd, tr0 ++ [c]) in
    (if 0 <=? r then r = fd ∧ existsb is_close tr = false else ∃ tr', tr = tr' ++ [Sys_close fd] ∧ existsb is_close tr' = false) ∧
    (∀ fd' buf, Sys_set_name fd' buf ∈ tr → fd' = fd ∧ zlen buf ≤ len ∧ ∃ pre, buf = pre ++ [0])) as Hsize.
  { intros tr0 Hc Hn. set (c := Sys_set_size fd size). cbv zeta. destruct (Z.ltb_spec (answer c) 0) as [Hc0|Hc0].
    - split; [destruct (Z.leb_spec 0 (answer c)); [lia|]; exists (tr0 ++ [c]); rewrite <- app_assoc, existsb_app, Hc; done|].
      intros fd' buf [Hin|Hin]%elem_of_app; [by apply Hn|]. apply elem_of_cons in Hin as [[=]|[[=]|[]%elem_of_nil]%elem_of_cons].
    - split; [destruct (Z.leb_spec 0 fd); [|lia]; rewrite existsb_app, Hc; done|]. intros fd' buf [Hin|[[=]|[]%elem_of_nil]%elem_of_cons]%elem_of_app. by apply Hn. }
  destruct name as [name|].
  - set (buf0 := take _ name ++ [0]). assert (∀ fd' buf, Sys_set_name fd' buf ∈ [o; Sys_set_name fd buf0] → fd' = fd ∧ zlen buf ≤ len ∧ ∃ pre, buf = pre ++ [0]) as Hname.
    { intros fd' buf [[=]|[[= -> ->]|[]%elem_of_nil]%elem_of_cons]%elem_of_cons. split; [done|]. split; [|by eexists]. unfold buf0. rewrite length_app, length_take. cbn. lia. }
    cbv zeta. destruct (Z.ltb_spec (answer (Sys_set_name fd buf0)) 0) as [Hc0|Hc0].
    + split; [destruct (Z.leb_spec 0 (answer (Sys_set_name fd buf0))); [lia|]; exists [o; Sys_set_name fd buf0]; done|]. intros fd' buf Hin. apply (elem_of_app [o; Sys_set_name fd buf0] [Sys_close fd]) in Hin as [Hin|[[=]|[]%elem_of_nil]%elem_of_cons]. by apply Hname.
    + exact (Hsize [o; Sys_set_name fd buf0] eq_refl Hname).
  - refine (Hsize [o] eq_refl _). intros fd' buf [[=]|[]%elem_of_nil]%elem_of_cons.
Qed.

End AshmemProps.

Module SuProps.
Import Su.

(** A shell is started only after the process has become root, group first, and has left all other groups; it runs the command that follows [-c], or is interactive. *)
Theorem shell_starts_as_root answer argv path args :
  Sys_exec path args ∈ (main answer argv).2 →
  answer (Sys_setgid 0) = 0 ∧ answer (Sys_setuid 0) = 0 ∧ path = bytes_of "/system/bin/sh" ∧
  (main answer argv).2 = [Sys_setgid 0; Sys_setuid 0; Sys_setgroups []; Sys_exec path args] ∧
  (args = [bytes_of "sh"] ∨ ∃ cmd, argv !! 1%nat = Some (bytes_of "-c") ∧ argv !! 2%nat = Some cmd ∧ args = [bytes_of "sh"; bytes_of "-c"; cmd]).
Proof.
  unfold main. intros Hin. destruct (truthy (answer (Sys_setgid 0))) eqn:Eg; [by apply elem_of_cons in Hin as [[=]|[]%elem_of_nil]|].
  destruct (truthy (answer (Sys_setuid 0))) eqn:Eu; [by apply elem_of_cons in Hin as [[=]|[[=]|[]%elem_of_nil]%elem_of_cons]|]. unfold truthy in Eg, Eu. split; [lia|]. split; [lia|].
  cbn [snd] in *. set (e := match argv with _ :: _ => _ | [] => _ end) in *. apply elem_of_cons in Hin as [[=]|[[=]|[[=]|[He|[]%elem_of_nil]%elem_of_cons]%elem_of_cons]%elem_of_cons]. rewrite He.
  unfold e in He. destruct argv as [|a0 [|a1 [|a2 argv]]]; try (injection He as -> ->; split; [done|]; split; [done|by left]).
  destruct (decide (a1 = bytes_of "-c")) as [->|]; injection He as -> ->; (split; [done|]); (split; [done|]); [right; by exists a2|by left].
Qed.

End SuProps.

Module ToolsDemo.
Import Shim ShimProps.

(** ** A system to compute with *)

#[local] Instance libc : Libc := {|
  BINDER_WRITE_READ := 1; sizeof_binder_transaction_data := 40; BC_TRANSACTION := 100; BC_REPLY := 101; BC_ENTER_LOOPER := 102; BC_REGISTER_LOOPER := 103; BC_EXIT_LOOPER := 104; BC_FREE_BUFFER := 105;
  BR_TRANSACTION := 2; BR_REPLY := 3; BR_TRANSACTION_COMPLETE := 6; BR_NOOP := 12; BR_DEAD_REPLY := 5; BR_FAILED_REPLY := 17; BR_SPAWN_LOOPER := 13; BR_INCREFS := 7; BR_ACQUIRE := 8; BR_RELEASE := 9; BR_DECREFS := 10;
  dlsym_ioctl _ := true;
  real_ioctl _ _ _ arg := (0, 11, (λ b, Bwr (write_size b) (write_size b) (write_buffer b) (read_size b) 4 (Some (le_encode 4 6))) <$> arg);
  now_ns n late := Z.of_nat n * 1000000 + (if late then 5000 else 0); fopen_log _ := (true, 25); fprintf_errno _ _ := 29; getpid _ := 12; gettid _ := 13 |}.

(** The probe's own call, traced: the shim sees a call to handle 0 that the driver has taken. *)
Example probe_call_traced :
  (λ r, (r.1.1, sh_errno r.2, (λ l, (ln_write_cmd l, ln_handle l, ln_read_cmd l)) <$> sh_lines r.2)) <$>
    ioctl 3 1 (Some (Bwr 44 0 (Some probe_message) 1024 0 (Some (replicate 1024 0)))) (ShimState true false [] 0 0) = Some (0, 11, [("BC_TRANSACTION"%string, 0, "BR_TRANSACTION_COMPLETE"%string)]).
Proof. vm_compute. reflexivity. Qed.

(** A reply that comes with the answer to the call itself is printed and not noticed: after thirty seconds of silence the probe reports that there was none. *)
Example first_reply_not_noticed :
  do_transact_and_wait (Reading (BR_TRANSACTION_COMPLETE :: BR_REPLY :: replicate 254 0) 48) [Round 5 0 (Reading [] 0); Round 30 0 (Reading [] 0)] =
    Some (BR_TRANSACTION_COMPLETE :: BR_REPLY :: replicate 10 0, false).
Proof. vm_compute. reflexivity. Qed.

(** A word of a transaction that happens to be the number of a reply is taken for one. *)
Example data_taken_for_reply :
  do_transact_and_wait (Reading (replicate 256 0) 0) [Round 1 1 (Reading (BR_TRANSACTION :: 0 :: 0 :: BR_REPLY :: replicate 252 0) 44)] = Some ([], true).
Proof. vm_compute. reflexivity. Qed.

End ToolsDemo.
